(* ===== verification/_CoqProject ===== *)
-Q . S2P
Prelude.v
RtosList.v
LwipDef.v
Chksum.v
Memp.v
Tiles.v
Mem.v
MemOk.v
Pbuf.v
PbufRef.v
PbufOwn.v
PbufData.v
LwipMem.v
Heap4.v
Heap4Ok.v
IpAddr.v
SysTimeouts.v
Etharp.v
EtharpOk.v
KList.v
Tasks.v
TasksSim.v
TasksInv.v
TasksOk.v
TasksApi.v
TasksLife.v
TaskNotify.v
TasksMain.v
Queue.v
QueueData.v
QueueOk.v
QueueWait.v
QueueBlock.v
QueueWake.v
QueueMain.v
QueueSim.v
QueueUse.v
EventGroup.v
EventGroupOk.v
EventGroupMain.v
EventGroupUse.v
IpReass.v
IpReassOk.v
IpReassJoin.v
IpReassMain.v
IpReassUse.v
IpReassWhole.v
IpReassTimer.v
IpReassRun.v
PbufMove.v
EtharpOut.v
Ip.v
Icmp.v
Stack.v
Raw.v
Udp.v
IpIn.v
UdpOk.v
UdpMain.v
IpOwn.v
IcmpOwn.v
IpHeader.v
StackOk.v
SendOwn.v
StackMain.v
TcpDef.v
TcpSeq.v
TcpHold.v
TcpRecv.v
TcpTrim.v
TcpQueue.v
TcpInSeq.v
TcpOos.v
TcpText.v
TcpRun.v
TcpMain.v
