(* ===== verification/Prelude.v ===== *)
(** * Verification of lwIP 1.4.1 on FreeRTOS for the TQ s3c2440 board

    ** The program

    The repository is the lwIP TCP/IP stack (src/lwip-1.4.1), the FreeRTOS
    kernel (src/FreeRTOS-Kernel), drivers of the s3c2440 board (src/2440bsp)
    and example applications (src/contrib-1.4.1).  lwIP is configured with
    NO_SYS 1 (arch/lwipopts.h): one task calls the stack, so its functions run
    to completion, and the model is a function of the state before a call to
    the state after it.  The kernel's data structures are changed with
    interrupts masked or the scheduler suspended, which makes each of their
    operations one step as well.

    A C function becomes a Rocq function in the option monad: [None] is a
    failed assertion, which loops forever on this board, or the use of a
    dangling or null pointer.  Loops are fixpoints, with fuel where the C loop
    is not structural; the fuel is the size of the structure walked, and the
    theorems show that it is enough.  A w-bit unsigned integer is a [Z] with
    its wrap-around written out ([u8], [u16], [u32] below).  A C structure is
    a record, and where pointers alias, the structures live in a store that is
    indexed by their address.  A pointer that may be NULL is an option, or a
    [Z] where it is an address of plain octets, which is 0 then.

    ** The files

    - Prelude.v: words, assertions, shared lemmas.
    - RtosList.v (list.c, list.h): the kernel's circular lists on a store of
      links.  The abstract view is a map of lists; every operation refines it,
      [vListInsert] keeps a list sorted and first-come-first-served, and the
      round-robin macro visits all entries.
    - LwipDef.v (def.c), Chksum.v (ipv4/inet_chksum.c): byte order and the
      Internet checksum: the three implementations agree with each other and
      with RFC 1071, a chain has the checksum of its flat data, and a packet
      with its checksum filled in verifies.
    - Memp.v (memp.c): the pools: a stack of free elements each; a client
      sees aligned disjoint elements, and NULL exactly when a pool is used up.
    - Tiles.v: memory as a sequence of adjacent blocks, shared by the two heaps.
    - Mem.v, MemOk.v (mem.c): lwIP's heap, its operations and the invariant
      that the headers and [lfree] describe such a sequence; safety of any
      sequence of mem_malloc, mem_trim and mem_free.
    - Heap4.v, Heap4Ok.v (heap_4.c): the same for the kernel's heap.
    - Pbuf.v, PbufRef.v, PbufOwn.v, PbufData.v (pbuf.c): packet buffers.  The
      memory managers are the interface [Arena] with the laws [ArenaLaws].
      PbufRef.v states the reference-count invariant and what [pbuf_free] and
      [pbuf_cat] do to it; PbufOwn.v has allocation, chaining and the client
      theorem; PbufData.v the functions that read and copy packets.
    - LwipMem.v: memp.c and mem.c together are an instance of [Arena], so the
      client theorem holds for the real managers; a call that would make them
      fail breaks the instance, and the theorem says that pbuf.c makes none.
    - IpAddr.v (ipv4/ip_addr.c): addresses, masks and their text.
    - SysTimeouts.v (timers.c): the list of timeouts.
    - Etharp.v, EtharpOk.v (netif/etharp.c): the ARP cache, on top of the
      packets of Pbuf.v and the addresses of IpAddr.v.
    - KList.v: the lists as an interface ([KLists]) with two instances, the
      store of RtosList.v and its abstract state; the one simulates the other,
      also when the memory of an empty list is freed.
    - Tasks.v (tasks.c, vTickISR of portISR.c): the scheduler, in a state
      monad over that interface.  A TCB has two list items; the kernel's own
      lists are 1 to 10, lists that tasks wait on come after.  A critical
      section is one step, and so is a function that suspends the scheduler
      around its work.  A yield makes [pxCurrentTCB] another task; what the
      caller does when it runs again is the next step.
    - TasksSim.v: every function runs on the store as on the abstract lists.
    - TasksInv.v, TasksOk.v, TasksApi.v, TasksLife.v: total-correctness rules,
      the invariant (where the items of a task may be, the order and bounds of
      wake times, counters, the highest ready priority) and each function.
    - TaskNotify.v (tasks.c): task notifications.
    - TasksMain.v: sequences of steps from main() on: safety, refinement, and
      what delays, time-outs and the context switch promise.
    - Queue.v (queue.c): queues and semaphores, in a state monad over the
      kernel's; a blocking function is a loop of a critical section and a
      part that runs with the scheduler suspended, with the interrupts at its
      seven interruptible points as an argument.
    - QueueData.v: the ring holds a list of items; QueueOk.v: the invariant and
      the functions that tasks call; QueueWait.v: those for interrupts;
      QueueBlock.v: a proof rule for the wait; QueueWake.v: by it, no wake-up
      is lost.
    - QueueMain.v: sequences of calls: safety, and the specification of bounded
      FIFO lists that the queues implement; QueueSim.v: on the pointers of
      list.c; QueueUse.v: waking, and a concrete run.
    - EventGroup.v (event_groups.c): event groups, in a state monad over the
      kernel's; a waiting function is a step up to its yield and one after it.
    - EventGroupOk.v: the encoding of conditions in event items, the invariant
      and each function; EventGroupMain.v: sequences of calls, on abstract
      lists and on the pointers of list.c; EventGroupUse.v: what setting bits,
      waiting and the rendezvous promise, and a concrete run.
    - IpReass.v (ipv4/ip_frag.c): reassembly; what is queued is in memory, in
      the headers of the fragments.  IpReassOk.v: queues of fragments in that
      memory and the search for a place; IpReassJoin.v: a complete datagram
      becomes one packet; IpReassMain.v: the list of datagrams, the invariant
      and the step for one fragment; IpReassUse.v: [ip_reass] takes it;
      IpReassWhole.v: datagrams of pieces of one original; IpReassTimer.v:
      giving up, for an icmp.c that is [QuietIcmp]; IpReassRun.v: the promises
      and runs that show what the code gets wrong.
    - PbufMove.v, EtharpOut.v: what pbuf_header, pbuf_realloc and pbuf_copy do to
      packets, and the ARP cache's part in sending them.
    - Ip.v (ipv4/ip.c): routing and output; Icmp.v (ipv4/icmp.c); Stack.v: the
      control blocks and the state of the whole stack; Raw.v (raw.c); Udp.v
      (udp.c); IpIn.v (ipv4/ip.c): [ip_input] and what it calls.
    - UdpOk.v: bindings that do not conflict, the search for a port and for a
      receiver; UdpMain.v: sequences of calls.
    - IpOwn.v, IcmpOwn.v: sending and ICMP account for their packets; IpHeader.v:
      the octets of the IP header and of the echo reply; StackOk.v: a datagram's
      way through [ip_input]; SendOwn.v: UDP and raw IP leave a packet to its
      sender; StackMain.v: the theorems, and runs from frame to frame.
    - TcpDef.v (tcp.h, tcp_impl.h, tcp.c): sequence numbers, the control block,
      segments; TcpRecv.v (tcp_in.c, tcp_out.c): [tcp_receive].
    - TcpSeq.v: sequence numbers are positions in the peer's stream; TcpHold.v: a
      segment whose packet holds a piece of it, and the operations on segments;
      TcpTrim.v: octets cut off in front; TcpQueue.v: the window, and dequeuing;
      TcpInSeq.v, TcpOos.v: a segment in sequence, and one that is not;
      TcpText.v: [tcp_receive] on any segment of the stream, for a tcp_out.c that is
      [QuietAck]; TcpRun.v: the whole stream; TcpMain.v: runs, and what the code
      gets wrong.

    Operations keep the names of the C functions; a helper such as
    [alloc_loop] or [take_block] is a loop or a block of statements of the
    function it is named after.

    ** What the theorems show

    Safety of clients (any sequence of permitted calls fails no assertion,
    follows no dangling pointer and keeps the invariant): pbufs, both heaps,
    the pools, pbufs over heap and pools, the scheduler from start-up on.
    Refinement of an abstract specification: the kernel lists, the scheduler
    on them, queues as bounded lists, IP reassembly, the TCP stream.  A received datagram's way
    through IP, raw IP, UDP, ICMP and the ARP cache, when it is not a fragment and
    a reply fits the MTU: no octets make an assertion fail, and each packet is
    freed or handed over once.  Functional behaviour on every branch: allocation,
    copying, timeouts, the ARP cache, delays and context switches.  Equivalence:
    the checksum algorithms.  Round trips: address text, pbuf_header, chaining.
    Each theorem's comment names the conditions it needs.  Bounds and termination where
    the code counts or loops.  Some theorems state what the code gets wrong,
    by computation on a concrete input.

    ** Parameters

    The driver's [linkoutput], icmp.c's [icmp_time_exceeded] in IpReass.v,
    tcp_out.c's [tcp_send_empty_ack] in TcpRecv.v, the
    applications' callbacks, tcp_in.c's [tcp_input] and ip_frag.c's [ip_frag] in IpIn.v, the handlers of other modules that the timers
    call, the sizes the compiler gives the pooled structures and where the
    linker puts the arrays.  Each theorem that has one has a witness with a
    concrete one.

    ** Not modelled

    Statistics counters and debug output; the assembly and hardware parts
    (port.c, the context switch of portISR.c, the drivers, the board files); the code that this
    configuration does not compile (sequential API, PPP, SNMP, IPv6, the other
    heaps, libc and pool variants of mem.c).  Of pbuf.c the deferred callback
    that frees out-of-sequence segments is a flag.

    Of lwIP also DHCP, AutoIP, DNS, the network interfaces and SLIP; of ip_frag.c
    the sending of fragments; of TCP the demultiplexing, the changes of state other
    than by a FIN, the sending side and the timers.  tcp_in.c's [tcp_input] is a
    parameter of IpIn.v, with what the stack relies on in [callbacks_ok]. *)
From stdpp Require Export prelude gmap strings.
From Stdlib Require Export ZArith Lia Sorting.Sorted.

(** ** Machine words

    The target is a 32-bit ARM920T: [size_t], [unsigned long], [u32_t] and
    pointers have 32 bits.  A w-bit unsigned integer is a [Z]; the C
    conversions and the wrap-around of unsigned arithmetic are the reductions
    below. *)
Definition u8 (x : Z) : Z := x mod 256.
Definition u16 (x : Z) : Z := x mod 65536.
Definition u32 (x : Z) : Z := x mod 4294967296.

Definition is_u8 (x : Z) : Prop := (0 <= x < 256)%Z.
Definition is_u16 (x : Z) : Prop := (0 <= x < 65536)%Z.
Definition is_u32 (x : Z) : Prop := (0 <= x < 4294967296)%Z.

(** [LWIP_ASSERT]: the board's assertion loops forever, a model function that
    reaches a failed one has no result. *)
Definition lwip_assert (c : bool) : option unit := if c then Some tt else None.

(** A bound value that is known; the kernel need not compute what follows. *)
Lemma some_bind {X Y} (x : X) (f : X → option Y) : Some x ≫= f = f x.
Proof. done. Qed.

Lemma assert_true c : c = true → lwip_assert c = Some tt.
Proof. by intros ->. Qed.

Create HintDb word.
Create Rewrite HintDb word.

Lemma u8_range x : is_u8 (u8 x).
Proof. unfold is_u8, u8. apply Z.mod_pos_bound. lia. Qed.

Lemma u16_range x : is_u16 (u16 x).
Proof. unfold is_u16, u16. apply Z.mod_pos_bound. lia. Qed.

Lemma u32_range x : is_u32 (u32 x).
Proof. unfold is_u32, u32. apply Z.mod_pos_bound. lia. Qed.

Lemma u8_id x : is_u8 x → u8 x = x.
Proof. apply Z.mod_small. Qed.

Lemma u16_id x : is_u16 x → u16 x = x.
Proof. apply Z.mod_small. Qed.

Lemma u32_id x : is_u32 x → u32 x = x.
Proof. apply Z.mod_small. Qed.

#[export] Hint Resolve u8_range u16_range u32_range : word.

(** Nested reductions of sums and differences collapse into one. *)
Lemma u32_add_l x y : u32 (u32 x + y) = u32 (x + y).
Proof. apply Zplus_mod_idemp_l. Qed.

Lemma u32_sub_l x y : u32 (u32 x - y) = u32 (x - y).
Proof. apply Zminus_mod_idemp_l. Qed.

Lemma u32_add_r x y : u32 (x + u32 y) = u32 (x + y).
Proof. apply Zplus_mod_idemp_r. Qed.

Lemma u32_sub_r x y : u32 (x - u32 y) = u32 (x - y).
Proof. apply Zminus_mod_idemp_r. Qed.

Lemma u32_u32 x : u32 (u32 x) = u32 x.
Proof. apply u32_id, u32_range. Qed.

#[export] Hint Rewrite u32_add_l u32_sub_l u32_add_r u32_sub_r u32_u32 : word.

(** [word_lia] decides linear goals about words: it unfolds the range
    predicates and reduces every wrap-around to its quotient equation. *)
Ltac word_lia :=
  unfold is_u8, is_u16, is_u32, u8, u16, u32 in *; Z.to_euclidean_division_equations; lia.

(** ** Filters that keep all or nothing *)
Lemma filter_none {X} (P : X → Prop) `{∀ x, Decision (P x)} (l : list X) : Forall (λ x, ¬ P x) l → filter P l = [].
Proof. induction 1; [done|]. by rewrite filter_cons_False. Qed.

Lemma filter_all {X} (P : X → Prop) `{∀ x, Decision (P x)} (l : list X) : Forall P l → filter P l = l.
Proof. induction 1 as [|x l Hx _ IH]; [done|]. by rewrite filter_cons_True, IH. Qed.

(** ** Tactics for the option monad of the models

    [bind_step] exposes the first bound computation of a hypothesis
    [m ≫= k = Some r]. *)
Tactic Notation "bind_step" hyp(H) "as" simple_intropattern(x) simple_intropattern(E) :=
  apply bind_Some in H; destruct H as (x & E & H).
