(* ===== verification/RtosList.v ===== *)
(** * FreeRTOS-Kernel/list.c and include/list.h: the kernel's lists *)
From S2P Require Import Prelude.
Local Open Scope Z_scope.

(** ** Data

    Pointers to list items: [End l] is [&(pxList->xListEnd)] of the list at
    [l], [Item i] an ordinary [ListItem_t].  The three first fields
    ([xItemValue], [pxNext], [pxPrevious]) are shared by [ListItem_t] and
    [MiniListItem_t] (configUSE_MINI_LIST_ITEM is 1), which is what the casts
    of list.c rely on; the last two exist for a [ListItem_t] only. *)
Inductive node := End (l : positive) | Item (i : positive).

#[export] Instance node_eq_dec : EqDecision node.
Proof. solve_decision. Defined.

#[export] Instance node_countable : Countable node.
Proof.
  refine (inj_countable'
    (λ n, match n with End l => inl l | Item i => inr i end)
    (λ s, match s with inl l => End l | inr i => Item i end) _).
  by intros [].
Defined.

(** A pointer to a list item; [None] is [NULL]. *)
Abbreviation ptr := (option node).

Record Links := MkLinks { xItemValue : Z; pxNext : ptr; pxPrevious : ptr }.
Record ItemExt := MkExt { pvOwner : Z; pxContainer : option positive }.
Record ListHdr := MkHdr { uxNumberOfItems : Z; pxIndex : ptr }.

Record store := MkStore {
  links : gmap node Links;
  exts : gmap positive ItemExt;
  hdrs : gmap positive ListHdr }.

Definition portMAX_DELAY : Z := 4294967295.

(** Loads and stores through a pointer; a [NULL] or dangling pointer faults. *)
Definition ld (p : ptr) (st : store) : option Links := n ← p; links st !! n.

Definition wr_links (n : node) (L : Links) (st : store) : store :=
  MkStore (<[n := L]> (links st)) (exts st) (hdrs st).

Definition wr_next (p q : ptr) (st : store) : option store :=
  n ← p; L ← links st !! n;
  Some (wr_links n (MkLinks (xItemValue L) q (pxPrevious L)) st).

Definition wr_prev (p q : ptr) (st : store) : option store :=
  n ← p; L ← links st !! n;
  Some (wr_links n (MkLinks (xItemValue L) (pxNext L) q) st).

Definition wr_value (p : ptr) (v : Z) (st : store) : option store :=
  n ← p; L ← links st !! n;
  Some (wr_links n (MkLinks v (pxNext L) (pxPrevious L)) st).

Definition wr_container (i : positive) (c : option positive) (st : store) : option store :=
  e ← exts st !! i;
  Some (MkStore (links st) (<[i := MkExt (pvOwner e) c]> (exts st)) (hdrs st)).

Definition wr_index (l : positive) (p : ptr) (st : store) : option store :=
  h ← hdrs st !! l;
  Some (MkStore (links st) (exts st) (<[l := MkHdr (uxNumberOfItems h) p]> (hdrs st))).

Definition wr_count (l : positive) (n : Z) (st : store) : option store :=
  h ← hdrs st !! l;
  Some (MkStore (links st) (exts st) (<[l := MkHdr n (pxIndex h)]> (hdrs st))).

(** ** Operations *)

Definition vListInitialise (l : positive) (st : store) : option store :=
  st ← wr_index l (Some (End l)) st;
  st ← wr_value (Some (End l)) portMAX_DELAY st;
  st ← wr_next (Some (End l)) (Some (End l)) st;
  st ← wr_prev (Some (End l)) (Some (End l)) st;
  wr_count l 0 st.

Definition vListInitialiseItem (i : positive) (st : store) : option store :=
  wr_container i None st.

Definition vListInsertEnd (l new : positive) (st : store) : option store :=
  h ← hdrs st !! l;
  let idx := pxIndex h in
  st ← wr_next (Some (Item new)) idx st;
  Li ← ld idx st;
  st ← wr_prev (Some (Item new)) (pxPrevious Li) st;
  Li ← ld idx st;
  st ← wr_next (pxPrevious Li) (Some (Item new)) st;
  st ← wr_prev idx (Some (Item new)) st;
  st ← wr_container new (Some l) st;
  h ← hdrs st !! l;
  wr_count l (u32 (uxNumberOfItems h + 1)) st.

(** The [for] loop of [vListInsert]; the fuel bounds its iterations. *)
Fixpoint insert_position (fuel : nat) (pxIterator : ptr) (v : Z) (st : store) : option ptr :=
  match fuel with
  | O => None
  | S fuel =>
      Lit ← ld pxIterator st;
      Ln ← ld (pxNext Lit) st;
      if xItemValue Ln <=? v
      then insert_position fuel (pxNext Lit) v st
      else Some pxIterator
  end.

Definition vListInsert (l new : positive) (st : store) : option store :=
  Lnew ← ld (Some (Item new)) st;
  let v := xItemValue Lnew in
  it ← (if v =? portMAX_DELAY
        then Le ← ld (Some (End l)) st; Some (pxPrevious Le)
        else insert_position (S (size (links st))) (Some (End l)) v st);
  Lit ← ld it st;
  st ← wr_next (Some (Item new)) (pxNext Lit) st;
  Lnew ← ld (Some (Item new)) st;
  st ← wr_prev (pxNext Lnew) (Some (Item new)) st;
  st ← wr_prev (Some (Item new)) it st;
  st ← wr_next it (Some (Item new)) st;
  st ← wr_container new (Some l) st;
  h ← hdrs st !! l;
  wr_count l (u32 (uxNumberOfItems h + 1)) st.

Definition uxListRemove (i : positive) (st : store) : option (store * Z) :=
  e ← exts st !! i;
  l ← pxContainer e;
  Li ← ld (Some (Item i)) st;
  st ← wr_prev (pxNext Li) (pxPrevious Li) st;
  Li ← ld (Some (Item i)) st;
  st ← wr_next (pxPrevious Li) (pxNext Li) st;
  h ← hdrs st !! l;
  st ← (if decide (pxIndex h = Some (Item i))
        then Li ← ld (Some (Item i)) st; wr_index l (pxPrevious Li) st
        else Some st);
  st ← wr_container i None st;
  h ← hdrs st !! l;
  st ← wr_count l (u32 (uxNumberOfItems h - 1)) st;
  h ← hdrs st !! l;
  Some (st, uxNumberOfItems h).

(** [pxConstList->pxIndex = pxConstList->pxIndex->pxNext] *)
Definition advance_index (l : positive) (st : store) : option store :=
  h ← hdrs st !! l;
  L ← ld (pxIndex h) st;
  wr_index l (pxNext L) st.

(** [pvOwner] of the item a pointer designates: the end marker has none (it
    is a [MiniListItem_t]). *)
Definition owner_of (p : ptr) (st : store) : option Z :=
  n ← p;
  match n with
  | Item i => e ← exts st !! i; Some (pvOwner e)
  | End _ => None
  end.

Definition listGET_OWNER_OF_NEXT_ENTRY (l : positive) (st : store) : option (store * Z) :=
  st ← advance_index l st;
  h ← hdrs st !! l;
  st ← (if decide (pxIndex h = Some (End l)) then advance_index l st else Some st);
  h ← hdrs st !! l;
  o ← owner_of (pxIndex h) st;
  Some (st, o).

Definition listGET_ITEM_VALUE_OF_HEAD_ENTRY (l : positive) (st : store) : option Z :=
  Le ← ld (Some (End l)) st;
  L ← ld (pxNext Le) st;
  Some (xItemValue L).

Definition listGET_OWNER_OF_HEAD_ENTRY (l : positive) (st : store) : option Z :=
  Le ← ld (Some (End l)) st;
  owner_of (pxNext Le) st.

Definition listLIST_IS_EMPTY (l : positive) (st : store) : option bool :=
  h ← hdrs st !! l; Some (uxNumberOfItems h =? 0).

Definition listIS_CONTAINED_WITHIN (l i : positive) (st : store) : option bool :=
  e ← exts st !! i; Some (bool_decide (pxContainer e = Some l)).

(** ** Abstract lists: the sequence of items and the walking cursor, [None]
    when [pxIndex] is the end marker. *)
Record alist := MkAlist { elems : list positive; cursor : option positive }.

Fixpoint insert_before (k new : positive) (xs : list positive) : list positive :=
  match xs with
  | [] => [new]
  | x :: xs => if decide (x = k) then new :: x :: xs else x :: insert_before k new xs
  end.

Definition a_insert_end (new : positive) (a : alist) : alist :=
  match cursor a with
  | None => MkAlist (elems a ++ [new]) None
  | Some k => MkAlist (insert_before k new (elems a)) (Some k)
  end.

(** Insertion by value: before the first item with a greater value. *)
Fixpoint insert_by (val : positive → Z) (new : positive) (xs : list positive) : list positive :=
  match xs with
  | [] => [new]
  | x :: xs => if val x <=? val new then x :: insert_by val new xs else new :: x :: xs
  end.

Definition a_insert (val : positive → Z) (new : positive) (a : alist) : alist :=
  MkAlist (insert_by val new (elems a)) (cursor a).

(** Removal moves a cursor that stands on the removed item to its predecessor. *)
Fixpoint pred_of (i : positive) (prev : option positive) (xs : list positive) : option positive :=
  match xs with
  | [] => None
  | x :: xs => if decide (x = i) then prev else pred_of i (Some x) xs
  end.

Fixpoint remove_item (i : positive) (xs : list positive) : list positive :=
  match xs with
  | [] => []
  | x :: xs => if decide (x = i) then xs else x :: remove_item i xs
  end.

Definition a_remove (i : positive) (a : alist) : alist :=
  MkAlist (remove_item i (elems a))
    (if decide (cursor a = Some i) then pred_of i None (elems a) else cursor a).

(** The walk: the item after the cursor, from the head again at the end. *)
Fixpoint succ_of (k : positive) (xs : list positive) : option positive :=
  match xs with
  | [] => None
  | x :: xs => if decide (x = k) then head xs else succ_of k xs
  end.

Definition a_next (a : alist) : option positive :=
  match k ← cursor a; succ_of k (elems a) with
  | Some j => Some j
  | None => head (elems a)
  end.

(** The abstract state: the memory set aside for [List_t] structures, the
    initialised lists, the existing items with each item's value and owner. *)
Record astate := MkAstate {
  a_mem : gset positive;
  a_lists : gmap positive alist;
  a_items : gset positive;
  a_val : positive → Z;
  a_own : positive → Z }.

Definition set_alist (l : positive) (a : alist) (A : astate) : astate :=
  MkAstate (a_mem A) (<[l := a]> (a_lists A)) (a_items A) (a_val A) (a_own A).

(** ** The views of a store the invariant speaks about *)
Definition nxt (st : store) (n : node) : ptr := L ← links st !! n; pxNext L.
Definition prv (st : store) (n : node) : ptr := L ← links st !! n; pxPrevious L.
Definition val (st : store) (n : node) : option Z := xItemValue <$> links st !! n.
Definition cont (st : store) (i : positive) : option (option positive) :=
  pxContainer <$> exts st !! i.
Definition own (st : store) (i : positive) : option Z := pvOwner <$> exts st !! i.

(** Consecutive nodes point at each other. *)
Fixpoint chain (st : store) (ns : list node) : Prop :=
  match ns with
  | a :: (b :: _) as r => nxt st a = Some b ∧ prv st b = Some a ∧ chain st r
  | _ => True
  end.

Definition ring (l : positive) (xs : list positive) : list node :=
  End l :: (Item <$> xs) ++ [End l].

Definition cursor_ptr (l : positive) (c : option positive) : node :=
  match c with None => End l | Some i => Item i end.

Record is_list (st : store) (l : positive) (a : alist) : Prop := {
  il_chain : chain st (ring l (elems a));
  il_nodup : NoDup (elems a);
  il_end : val st (End l) = Some portMAX_DELAY;
  il_cont : ∀ i, i ∈ elems a → cont st i = Some (Some l);
  il_cursor : ∀ k, cursor a = Some k → k ∈ elems a;
  il_hdr : hdrs st !! l = Some (MkHdr (u32 (Z.of_nat (length (elems a)))) (Some (cursor_ptr l (cursor a)))) }.

Record refines (st : store) (A : astate) : Prop := {
  rf_lists : ∀ l a, a_lists A !! l = Some a → is_list st l a;
  rf_cont : ∀ i l, cont st i = Some (Some l) → ∃ a, a_lists A !! l = Some a ∧ i ∈ elems a;
  rf_dom : ∀ i, is_Some (exts st !! i) ↔ is_Some (links st !! Item i);
  rf_mem : ∀ l, l ∈ a_mem A → is_Some (links st !! End l) ∧ is_Some (hdrs st !! l);
  rf_items : ∀ i, i ∈ a_items A ↔ is_Some (exts st !! i);
  rf_val : ∀ i v, val st (Item i) = Some v → a_val A i = v ∧ is_u32 v;
  rf_own : ∀ i o, own st i = Some o → a_own A i = o }.

(** ** Lemmas on chains

    A ring splits at any point into the segment up to it and the segment
    after it, joined by one link. *)
Definition seg_l (l : positive) (pre : list positive) : list node := End l :: (Item <$> pre).
Definition seg_r (l : positive) (suf : list positive) : list node := (Item <$> suf) ++ [End l].
Definition last_ptr (l : positive) (pre : list positive) : node := cursor_ptr l (last pre).
Definition head_ptr (l : positive) (suf : list positive) : node := cursor_ptr l (head suf).

Lemma chain_join st A a b B :
  chain st ((A ++ [a]) ++ b :: B) ↔
  chain st (A ++ [a]) ∧ nxt st a = Some b ∧ prv st b = Some a ∧ chain st (b :: B).
Proof.
  induction A as [|x A IH]; [simpl; tauto|].
  destruct A as [|y A]; simpl in *; [tauto|]. rewrite IH. tauto.
Qed.

Lemma seg_l_last l pre : ∃ A, seg_l l pre = A ++ [last_ptr l pre].
Proof.
  destruct pre as [|x pre _] using rev_ind; [by exists []|].
  exists (seg_l l pre). unfold seg_l, last_ptr.
  by rewrite fmap_app, last_snoc.
Qed.

Lemma seg_r_head l suf : ∃ B, seg_r l suf = head_ptr l suf :: B.
Proof. destruct suf; eexists; reflexivity. Qed.

Lemma ring_split st l pre suf :
  chain st (ring l (pre ++ suf)) ↔
  chain st (seg_l l pre) ∧ nxt st (last_ptr l pre) = Some (head_ptr l suf)
  ∧ prv st (head_ptr l suf) = Some (last_ptr l pre) ∧ chain st (seg_r l suf).
Proof.
  replace (ring l (pre ++ suf)) with (seg_l l pre ++ seg_r l suf)
    by (unfold ring, seg_l, seg_r; rewrite fmap_app; simpl; by rewrite <- app_assoc).
  destruct (seg_l_last l pre) as [A ->], (seg_r_head l suf) as [B ->].
  apply chain_join.
Qed.

(** Only the last node's [pxNext] and the first node's [pxPrevious] are
    outside a segment. *)
Lemma chain_frame st st' ns :
  (∀ i x, ns !! i = Some x → (S i < length ns)%nat → nxt st' x = nxt st x) →
  (∀ i x, ns !! S i = Some x → prv st' x = prv st x) →
  chain st ns → chain st' ns.
Proof.
  induction ns as [|a [|b r] IH]; intros Hn Hp; simpl; [done|done|].
  intros (H1 & H2 & H3). split_and!.
  - rewrite (Hn 0%nat a); [done|done|simpl; lia].
  - by rewrite (Hp 0%nat b).
  - apply IH; [| |done].
    + intros i x Hi ?. apply (Hn (S i) x); [done|simpl in *; lia].
    + intros i x Hi. by apply (Hp (S i) x).
Qed.

Lemma seg_l_nodup l pre : NoDup pre → NoDup (seg_l l pre).
Proof.
  intros H. apply NoDup_cons. split.
  - intros (y & ? & _)%list_elem_of_fmap. done.
  - apply NoDup_fmap_2; [by intros ?? [= ->]|done].
Qed.

Lemma seg_r_nodup l suf : NoDup suf → NoDup (seg_r l suf).
Proof.
  intros H. apply NoDup_app. split_and!.
  - apply NoDup_fmap_2; [by intros ?? [= ->]|done].
  - intros x (y & -> & _)%list_elem_of_fmap ?%list_elem_of_singleton. done.
  - apply NoDup_singleton.
Qed.

Lemma frame_seg_l st st' l pre :
  NoDup pre →
  (∀ x, x ∈ seg_l l pre → x ≠ last_ptr l pre → nxt st' x = nxt st x) →
  (∀ x, x ∈ pre → prv st' (Item x) = prv st (Item x)) →
  chain st (seg_l l pre) → chain st' (seg_l l pre).
Proof.
  intros Hnd Hn Hp. apply chain_frame.
  - intros i x Hi Hlt. apply Hn; [by eapply list_elem_of_lookup_2|]. intros ->.
    destruct (seg_l_last l pre) as [A HA].
    assert (Hl : seg_l l pre !! length A = Some (last_ptr l pre))
      by (rewrite HA; by apply list_lookup_middle).
    pose proof (NoDup_lookup _ _ _ _ (seg_l_nodup l _ Hnd) Hi Hl).
    rewrite HA, length_app in Hlt. simpl in Hlt. lia.
  - intros i x Hi. simpl in Hi. rewrite list_lookup_fmap in Hi.
    destruct (pre !! i) as [y|] eqn:Hy; simplify_eq/=.
    apply Hp. by eapply list_elem_of_lookup_2.
Qed.

Lemma frame_seg_r st st' l suf :
  NoDup suf →
  (∀ x, x ∈ suf → nxt st' (Item x) = nxt st (Item x)) →
  (∀ x, x ∈ seg_r l suf → x ≠ head_ptr l suf → prv st' x = prv st x) →
  chain st (seg_r l suf) → chain st' (seg_r l suf).
Proof.
  intros Hnd Hn Hp. apply chain_frame.
  - intros i x Hi Hlt. unfold seg_r in *. rewrite length_app, length_fmap in Hlt. simpl in Hlt.
    rewrite lookup_app_l in Hi by (rewrite length_fmap; lia).
    rewrite list_lookup_fmap in Hi. destruct (suf !! i) as [y|] eqn:Hy; simplify_eq/=.
    apply Hn. by eapply list_elem_of_lookup_2.
  - intros i x Hi. apply Hp; [by eapply list_elem_of_lookup_2|]. intros ->.
    destruct (seg_r_head l suf) as [B HB].
    assert (Hl : seg_r l suf !! 0%nat = Some (head_ptr l suf)) by (by rewrite HB).
    pose proof (NoDup_lookup _ _ _ _ (seg_r_nodup l _ Hnd) Hi Hl). lia.
Qed.

(** Linking a fresh item between two segments, and unlinking it. *)
Definition views_inserted (st st' : store) (a n k : node) : Prop :=
  (∀ x, nxt st' x = if decide (x = a) then Some n else if decide (x = n) then Some k else nxt st x)
  ∧ (∀ x, prv st' x = if decide (x = k) then Some n else if decide (x = n) then Some a else prv st x).

Definition views_removed (st st' : store) (a k : node) : Prop :=
  (∀ x, nxt st' x = if decide (x = a) then Some k else nxt st x)
  ∧ (∀ x, prv st' x = if decide (x = k) then Some a else prv st x).

Lemma last_ptr_cases l pre :
  (pre = [] ∧ last_ptr l pre = End l) ∨ ∃ i, i ∈ pre ∧ last_ptr l pre = Item i.
Proof.
  destruct pre as [|x pre _] using rev_ind; [by left|]. right. exists x.
  split; [set_solver|]. unfold last_ptr. by rewrite last_snoc.
Qed.

Lemma head_ptr_cases l suf :
  (suf = [] ∧ head_ptr l suf = End l) ∨ ∃ i, i ∈ suf ∧ head_ptr l suf = Item i.
Proof. destruct suf as [|x suf]; [by left|]. right. exists x. split; [set_solver|done]. Qed.

Lemma elem_of_seg_l l pre x : x ∈ seg_l l pre ↔ x = End l ∨ ∃ i, i ∈ pre ∧ x = Item i.
Proof. unfold seg_l. rewrite elem_of_cons, list_elem_of_fmap. naive_solver. Qed.

Lemma elem_of_seg_r l suf x : x ∈ seg_r l suf ↔ x = End l ∨ ∃ i, i ∈ suf ∧ x = Item i.
Proof. unfold seg_r. rewrite elem_of_app, list_elem_of_fmap, list_elem_of_singleton. naive_solver. Qed.

Lemma elem_of_ring l xs x : x ∈ ring l xs ↔ x = End l ∨ ∃ i, i ∈ xs ∧ x = Item i.
Proof. unfold ring. rewrite elem_of_cons. fold (seg_r l xs). rewrite elem_of_seg_r. tauto. Qed.

Lemma nodup_split (pre suf : list positive) :
  NoDup (pre ++ suf) → NoDup pre ∧ NoDup suf ∧ (∀ x, x ∈ pre → x ∈ suf → False).
Proof. rewrite NoDup_app. naive_solver. Qed.

Ltac ring_cases l pre suf :=
  let E1 := fresh "E" in let E2 := fresh "E" in
  destruct (last_ptr_cases l pre) as [[? E1]|(? & ? & E1)];
  destruct (head_ptr_cases l suf) as [[? E2]|(? & ? & E2)];
  rewrite ?E1, ?E2.

Lemma ring_disjoint l pre suf x :
  x ≠ End l → (∀ i, i ∈ pre ++ suf → x ≠ Item i) → x ≠ last_ptr l pre ∧ x ≠ head_ptr l suf.
Proof.
  intros He Hi. split; intros ->.
  - destruct (last_ptr_cases l pre) as [[_ Ey]|(y & Hy & Ey)]; [done|].
    apply (Hi y); [set_solver|done].
  - destruct (head_ptr_cases l suf) as [[_ Ey]|(y & Hy & Ey)]; [done|].
    apply (Hi y); [set_solver|done].
Qed.

Lemma chain_insert st st' l pre suf n :
  NoDup (pre ++ suf) → n ∉ pre ++ suf →
  views_inserted st st' (last_ptr l pre) (Item n) (head_ptr l suf) →
  chain st (ring l (pre ++ suf)) → chain st' (ring l (pre ++ n :: suf)).
Proof.
  intros (Hpre & Hsuf & Hdis)%nodup_split Hn [Vn Vp].
  rewrite not_elem_of_app in Hn. destruct Hn as [Hn1 Hn2].
  rewrite ring_split. intros (C1 & _ & _ & C2).
  rewrite ring_split. split_and!.
  - revert C1. apply frame_seg_l; [done| |].
    + intros x Hx Hne. rewrite Vn, decide_False by done.
      apply elem_of_seg_l in Hx. rewrite decide_False; [done|naive_solver].
    + intros x Hx. rewrite Vp. rewrite !decide_False; [done|naive_solver|].
      ring_cases l pre suf; intros [= ?]; subst; set_solver.
  - simpl. rewrite Vn. by rewrite decide_True.
  - simpl. rewrite Vp. unfold head_ptr at 1 2. simpl. rewrite decide_False, decide_True; [done|done|].
    ring_cases l pre suf; intros [= ?]; subst; set_solver.
  - change (seg_r l (n :: suf)) with ((@nil node ++ [Item n]) ++ seg_r l suf).
    destruct (seg_r_head l suf) as [B HB].
    rewrite HB. apply chain_join. rewrite <- HB. split_and!; [done| | |].
    + rewrite Vn, decide_False, decide_True; [done|done|].
      ring_cases l pre suf; intros [= ?]; subst; set_solver.
    + rewrite Vp. by rewrite decide_True.
    + revert C2. apply frame_seg_r; [done| |].
      * intros x Hx. rewrite Vn. rewrite !decide_False; [done|naive_solver|].
        ring_cases l pre suf; intros [= ?]; subst; set_solver.
      * intros x Hx Hne. rewrite Vp, decide_False by done.
        apply elem_of_seg_r in Hx. rewrite decide_False; [done|naive_solver].
Qed.

Lemma chain_remove st st' l pre suf n :
  NoDup (pre ++ n :: suf) →
  views_removed st st' (last_ptr l pre) (head_ptr l suf) →
  chain st (ring l (pre ++ n :: suf)) → chain st' (ring l (pre ++ suf)).
Proof.
  intros (Hpre & [Hn2 Hsuf]%NoDup_cons & Hdis)%nodup_split [Vn Vp].
  rewrite ring_split. intros (C1 & _ & _ & C2).
  rewrite ring_split. split_and!.
  - revert C1. apply frame_seg_l; [done| |].
    + intros x Hx Hne. by rewrite Vn, decide_False by done.
    + intros x Hx. rewrite Vp. rewrite decide_False; [done|].
      ring_cases l pre suf; intros [= ?]; subst; set_solver.
  - rewrite Vn. by rewrite decide_True.
  - rewrite Vp. by rewrite decide_True.
  - change (seg_r l (n :: suf)) with ((@nil node ++ [Item n]) ++ seg_r l suf) in C2.
    destruct (seg_r_head l suf) as [B HB].
    rewrite HB in C2. apply chain_join in C2. rewrite <- HB in C2. destruct C2 as (_ & _ & _ & C2).
    revert C2. apply frame_seg_r; [done| |].
    + intros x Hx. rewrite Vn. rewrite !decide_False; [done|].
      ring_cases l pre suf; intros [= ?]; subst; set_solver.
    + intros x Hx Hne. by rewrite Vp, decide_False by done.
Qed.

(** ** The primitive stores through the views *)
Definition same_rest (st st' : store) : Prop :=
  (∀ x, is_Some (links st' !! x) ↔ is_Some (links st !! x))
  ∧ (∀ x, val st' x = val st x) ∧ exts st' = exts st ∧ hdrs st' = hdrs st.

Lemma same_rest_trans st1 st2 st3 :
  same_rest st1 st2 → same_rest st2 st3 → same_rest st1 st3.
Proof.
  intros (A1 & A2 & A3 & A4) (B1 & B2 & B3 & B4). split_and!; [|congruence..].
  - intros x. by rewrite B1, A1.
Qed.

Lemma ld_views st n :
  is_Some (links st !! n) →
  ∃ v, ld (Some n) st = Some (MkLinks v (nxt st n) (prv st n)) ∧ val st n = Some v.
Proof.
  intros [[v p q] H]. exists v. unfold ld, nxt, prv, val. simpl. rewrite H. done.
Qed.

Lemma wr_next_spec st n q :
  is_Some (links st !! n) →
  ∃ st', wr_next (Some n) q st = Some st'
    ∧ (∀ x, nxt st' x = if decide (x = n) then q else nxt st x)
    ∧ (∀ x, prv st' x = prv st x) ∧ same_rest st st'.
Proof.
  intros [[v p r] H]. eexists. split; [unfold wr_next; simpl; by rewrite H|].
  unfold nxt, prv, same_rest, val, wr_links; simpl.
  split_and!; [| | | |done|done]; intros x; destruct (decide (x = n)) as [->|];
    rewrite ?lookup_insert_eq, ?lookup_insert_ne, ?H by done; simpl; by eauto.
Qed.

Lemma wr_prev_spec st n q :
  is_Some (links st !! n) →
  ∃ st', wr_prev (Some n) q st = Some st'
    ∧ (∀ x, prv st' x = if decide (x = n) then q else prv st x)
    ∧ (∀ x, nxt st' x = nxt st x) ∧ same_rest st st'.
Proof.
  intros [[v p r] H]. eexists. split; [unfold wr_prev; simpl; by rewrite H|].
  unfold nxt, prv, same_rest, val, wr_links; simpl.
  split_and!; [| | | |done|done]; intros x; destruct (decide (x = n)) as [->|];
    rewrite ?lookup_insert_eq, ?lookup_insert_ne, ?H by done; simpl; by eauto.
Qed.

(** The last two statements of both insertions: the container of the new item
    and the counter of the list. *)
Lemma finish_insert_spec st l i h :
  is_Some (exts st !! i) → hdrs st !! l = Some h →
  ∃ st', (st ← wr_container i (Some l) st; h ← hdrs st !! l;
          wr_count l (u32 (uxNumberOfItems h + 1)) st) = Some st'
    ∧ links st' = links st
    ∧ (∀ x, cont st' x = if decide (x = i) then Some (Some l) else cont st x)
    ∧ (∀ x, own st' x = own st x)
    ∧ hdrs st' = <[l := MkHdr (u32 (uxNumberOfItems h + 1)) (pxIndex h)]> (hdrs st).
Proof.
  intros [e He] Hh. eexists. split.
  { unfold wr_container. rewrite He. simpl. rewrite Hh. simpl.
    unfold wr_count. simpl. rewrite Hh. done. }
  simpl. unfold cont, own; simpl. split_and!; [done| | |done]; intros x;
    destruct (decide (x = i)) as [->|]; rewrite ?lookup_insert_eq, ?lookup_insert_ne, ?He by done; done.
Qed.

#[local] Arguments ld : simpl never.
#[local] Arguments wr_next : simpl never.
#[local] Arguments wr_prev : simpl never.
#[local] Arguments wr_value : simpl never.
#[local] Arguments wr_container : simpl never.
#[local] Arguments wr_index : simpl never.
#[local] Arguments wr_count : simpl never.

(** ** The invariant: allocation facts and frames *)
Lemma cont_exts st i c : cont st i = Some c → is_Some (exts st !! i).
Proof. unfold cont. destruct (exts st !! i); [by eexists|done]. Qed.

Lemma refines_alloc st A l a x :
  refines st A → a_lists A !! l = Some a → x = End l ∨ (∃ i, i ∈ elems a ∧ x = Item i) →
  is_Some (links st !! x).
Proof.
  intros R Ha Hx. pose proof (rf_lists _ _ R _ _ Ha) as L.
  destruct Hx as [->|(i & Hi & ->)].
  - pose proof (il_end _ _ _ L) as E. unfold val in E.
    destruct (links st !! End l); [by eexists|done].
  - apply (rf_dom _ _ R). eapply cont_exts, (il_cont _ _ _ L), Hi.
Qed.

Lemma last_ptr_alloc st A l a pre suf :
  refines st A → a_lists A !! l = Some a → elems a = pre ++ suf →
  is_Some (links st !! last_ptr l pre) ∧ is_Some (links st !! head_ptr l suf).
Proof.
  intros R Ha E. split; eapply refines_alloc; [done..| |done|done|]; rewrite E.
  - destruct (last_ptr_cases l pre) as [[_ ->]|(i & Hi & ->)]; set_solver.
  - destruct (head_ptr_cases l suf) as [[_ ->]|(i & Hi & ->)]; set_solver.
Qed.

(** A list none of whose nodes, items or header changed is still represented. *)
Lemma is_list_frame st st' l a :
  (∀ x, x = End l ∨ (∃ i, i ∈ elems a ∧ x = Item i) → nxt st' x = nxt st x ∧ prv st' x = prv st x) →
  val st' (End l) = val st (End l) →
  (∀ i, i ∈ elems a → cont st' i = cont st i) →
  hdrs st' !! l = hdrs st !! l →
  is_list st l a → is_list st' l a.
Proof.
  intros Hv Hval Hc Hh [C N E K Cu H]. constructor; [|done|by rewrite Hval| |done|by rewrite Hh].
  - revert C. apply chain_frame; intros i x Hi; [intros _|];
      apply Hv, elem_of_ring; by eapply list_elem_of_lookup_2.
  - intros i Hi. rewrite Hc by done. auto.
Qed.

(** What the two statements that finish an insertion change. *)
Definition finished (st st' : store) (l i : positive) (h : ListHdr) : Prop :=
  links st' = links st
  ∧ (∀ x, cont st' x = if decide (x = i) then Some (Some l) else cont st x)
  ∧ (∀ x, own st' x = own st x)
  ∧ hdrs st' = <[l := MkHdr (u32 (uxNumberOfItems h + 1)) (pxIndex h)]> (hdrs st).

Lemma views_links st st' : links st' = links st →
  (∀ x, nxt st' x = nxt st x) ∧ (∀ x, prv st' x = prv st x) ∧ (∀ x, val st' x = val st x).
Proof. unfold nxt, prv, val. by intros ->. Qed.

Lemma chain_links st st' ns : links st' = links st → chain st ns → chain st' ns.
Proof.
  intros (Hn & Hp & _)%views_links. apply chain_frame; intros; [apply Hn|apply Hp].
Qed.

Lemma cont_is_Some st i : is_Some (exts st !! i) ↔ is_Some (cont st i).
Proof. unfold cont. by rewrite fmap_is_Some. Qed.

Lemma length_grow (pre suf : list positive) n :
  u32 (u32 (Z.of_nat (length (pre ++ suf))) + 1) = u32 (Z.of_nat (length (pre ++ n :: suf))).
Proof. rewrite u32_add_l, !length_app. f_equal. simpl. lia. Qed.

Lemma insert_refines st st1 st' A l a pre suf n :
  refines st A → a_lists A !! l = Some a → elems a = pre ++ suf →
  cont st n = Some None →
  views_inserted st st1 (last_ptr l pre) (Item n) (head_ptr l suf) → same_rest st st1 →
  finished st1 st' l n (MkHdr (u32 (Z.of_nat (length (elems a)))) (Some (cursor_ptr l (cursor a)))) →
  refines st' (set_alist l (MkAlist (pre ++ n :: suf) (cursor a)) A).
Proof.
  intros R Ha E Hn [Vn Vp] (Sd & Sv & Se & Sh) (Fl & Fc & Fo & Fh).
  pose proof (rf_lists _ _ R _ _ Ha) as L. destruct (views_links _ _ Fl) as (Ln & Lp & Lv).
  assert (Hc1 : ∀ i, cont st1 i = cont st i) by (intros i; unfold cont; by rewrite Se).
  assert (Hne : n ∉ pre ++ suf).
  { rewrite <- E. intros Hi. pose proof (il_cont _ _ _ L _ Hi). congruence. }
  constructor; simpl.
  - intros l' b. destruct (decide (l = l')) as [<-|Hl].
    + rewrite lookup_insert_eq. intros [= <-]. destruct L as [C N En K Cu H].
      rewrite E in *. constructor; simpl.
      * eapply (chain_insert st); [done..| |done].
        split; intros x; [by rewrite Ln, Vn|by rewrite Lp, Vp].
      * revert N Hne. rewrite !NoDup_app, NoDup_cons. set_solver.
      * by rewrite Lv, Sv.
      * intros i Hi. rewrite Fc. destruct (decide (i = n)); [done|].
        rewrite Hc1. apply K. set_solver.
      * set_solver.
      * rewrite Fh, lookup_insert_eq. simpl. by rewrite (length_grow _ _ n).
    + rewrite lookup_insert_ne by done. intros Hb. pose proof (rf_lists _ _ R _ _ Hb) as Lb.
      apply (is_list_frame st); [| | | |done].
      * intros x Hx. rewrite Ln, Lp, Vn, Vp. pose proof (il_cont _ _ _ Lb) as Kb.
        pose proof (il_cont _ _ _ L) as Ka. rewrite E in Ka.
        assert (x ≠ Item n) by (intros ->; naive_solver congruence).
        assert (x ≠ last_ptr l pre ∧ x ≠ head_ptr l suf) as [??].
        { apply (ring_disjoint l pre suf); [naive_solver|].
          intros i Hi ->. specialize (Ka _ Hi). naive_solver congruence. }
        by rewrite !decide_False.
      * by rewrite Lv, Sv.
      * intros i Hi. rewrite Fc, decide_False; [done|]. intros ->.
        pose proof (il_cont _ _ _ Lb _ Hi). congruence.
      * by rewrite Fh, lookup_insert_ne, Sh.
  - intros i l'. rewrite Fc. destruct (decide (i = n)) as [->|].
    + intros [= ->]. eexists. rewrite lookup_insert_eq. split; [done|set_solver].
    + rewrite Hc1. intros (b & Hb & Hi)%(rf_cont _ _ R).
      destruct (decide (l = l')) as [<-|]; [|rewrite lookup_insert_ne by done; eauto].
      eexists. rewrite lookup_insert_eq. split; [done|]. simplify_eq. simpl.
      rewrite E in Hi. set_solver.
  - intros i. rewrite cont_is_Some, Fc, Fl, Sd, <- (rf_dom _ _ R), cont_is_Some.
    destruct (decide (i = n)) as [->|]; [|by rewrite Hc1]. rewrite Hn. split; by eexists.
  - intros l' [??]%(rf_mem _ _ R). rewrite Fl, Sd, Fh, lookup_insert_is_Some, Sh.
    split; [done|]. destruct (decide (l = l')); auto.
  - intros i. rewrite (rf_items _ _ R), !cont_is_Some, Fc.
    destruct (decide (i = n)) as [->|]; [|by rewrite Hc1]. rewrite Hn. split; by eexists.
  - intros i v. rewrite Lv, Sv. apply (rf_val _ _ R).
  - intros i o. rewrite Fo. unfold own. rewrite Se. apply (rf_own _ _ R).
Qed.

(** ** Insertion *)
Lemma insert_before_split k new pre suf :
  k ∉ pre → insert_before k new (pre ++ k :: suf) = pre ++ new :: k :: suf.
Proof.
  induction pre as [|x pre IH]; intros Hk; simpl.
  - by rewrite decide_True.
  - rewrite decide_False by set_solver. f_equal. apply IH. set_solver.
Qed.

Lemma cursor_split l a n :
  NoDup (elems a) → (∀ k, cursor a = Some k → k ∈ elems a) →
  ∃ pre suf, elems a = pre ++ suf ∧ cursor_ptr l (cursor a) = head_ptr l suf
    ∧ a_insert_end n a = MkAlist (pre ++ n :: suf) (cursor a).
Proof.
  destruct a as [xs [k|]]; simpl; intros Hnd Hk.
  - destruct (list_elem_of_split xs k) as (pre & suf & ->); [auto|].
    exists pre, (k :: suf). split_and!; [done..|]. unfold a_insert_end. simpl.
    f_equal. apply insert_before_split.
    apply nodup_split in Hnd as (_ & _ & Hd). intros ?. eapply Hd; [done|set_solver].
  - exists xs, []. by rewrite app_nil_r.
Qed.

(** The facts about the two neighbours and the new item that every splice
    uses. *)
Lemma splice_facts st A l a pre suf n :
  refines st A → a_lists A !! l = Some a → elems a = pre ++ suf → cont st n = Some None →
  is_Some (links st !! last_ptr l pre) ∧ is_Some (links st !! head_ptr l suf)
  ∧ is_Some (links st !! Item n) ∧ is_Some (exts st !! n)
  ∧ nxt st (last_ptr l pre) = Some (head_ptr l suf)
  ∧ prv st (head_ptr l suf) = Some (last_ptr l pre)
  ∧ Item n ≠ last_ptr l pre ∧ Item n ≠ head_ptr l suf.
Proof.
  intros R Ha E Hn. pose proof (rf_lists _ _ R _ _ Ha) as L.
  destruct (last_ptr_alloc _ _ _ _ _ _ R Ha E) as [H1 H2].
  pose proof (il_chain _ _ _ L) as C. rewrite E, ring_split in C. destruct C as (_ & C1 & C2 & _).
  assert (He : is_Some (exts st !! n)) by (apply cont_is_Some; by eexists).
  destruct (ring_disjoint l pre suf (Item n)) as [D1 D2]; [done| |].
  { intros i Hi [= <-]. rewrite <- E in Hi. pose proof (il_cont _ _ _ L _ Hi). congruence. }
  split_and!; try done. by apply (rf_dom _ _ R).
Qed.

Lemma vListInsertEnd_spec st A l a n :
  refines st A → a_lists A !! l = Some a → cont st n = Some None →
  ∃ st', vListInsertEnd l n st = Some st' ∧ refines st' (set_alist l (a_insert_end n a) A).
Proof.
  intros R Ha Hn. pose proof (rf_lists _ _ R _ _ Ha) as L.
  destruct (cursor_split l a n) as (pre & suf & E & Ec & ->); [apply L..|].
  destruct (splice_facts _ _ _ _ _ _ _ R Ha E Hn) as (A1 & A2 & A3 & A4 & N1 & P1 & D1 & D2).
  unfold vListInsertEnd. rewrite (il_hdr _ _ _ L). simpl. rewrite Ec.
  destruct (wr_next_spec st (Item n) (Some (head_ptr l suf)) A3) as (s1 & -> & V1 & W1 & S1). simpl.
  destruct (ld_views s1 (head_ptr l suf)) as (v1 & -> & _); [by apply S1|]. simpl.
  rewrite W1, P1.
  destruct (wr_prev_spec s1 (Item n) (Some (last_ptr l pre))) as (s2 & -> & V2 & W2 & S2); [by apply S1|].
  simpl. pose proof (same_rest_trans _ _ _ S1 S2) as S12.
  destruct (ld_views s2 (head_ptr l suf)) as (v2 & -> & _); [by apply S12|]. simpl.
  rewrite V2, decide_False, W1, P1 by done.
  destruct (wr_next_spec s2 (last_ptr l pre) (Some (Item n))) as (s3 & -> & V3 & W3 & S3); [by apply S12|].
  simpl. pose proof (same_rest_trans _ _ _ S12 S3) as S13.
  destruct (wr_prev_spec s3 (head_ptr l suf) (Some (Item n))) as (s4 & -> & V4 & W4 & S4); [by apply S13|].
  simpl. pose proof (same_rest_trans _ _ _ S13 S4) as S14.
  pose proof S14 as (_ & _ & Se & Sh).
  destruct (finish_insert_spec s4 l n (MkHdr (u32 (Z.of_nat (length (elems a)))) (Some (cursor_ptr l (cursor a)))))
    as (st' & -> & F); [by rewrite Se|by rewrite Sh, (il_hdr _ _ _ L)|].
  eexists. split; [done|]. eapply insert_refines; [done..| |done|done].
  split; intros x.
  - rewrite W4, V3, W2, V1. done.
  - rewrite V4, W3, V2, W1. done.
Qed.

(** The position [vListInsert] finds: before the first item with a greater
    value, which for [portMAX_DELAY] is the end marker. *)
Lemma insert_by_split (v : positive → Z) n xs :
  ∃ pre suf, xs = pre ++ suf ∧ insert_by v n xs = pre ++ n :: suf
    ∧ (∀ x, x ∈ pre → v x ≤ v n) ∧ (∀ x, head suf = Some x → v n < v x).
Proof.
  induction xs as [|x xs (pre & suf & -> & E & Hp & Hs)]; simpl.
  - exists [], []. set_solver.
  - destruct (Z.leb_spec (v x) (v n)).
    + exists (x :: pre), suf. rewrite E. split_and!; [done..| |done]. set_solver.
    + exists [], (x :: pre ++ suf). split_and!; [done..|set_solver|]. by intros ? [= ->].
Qed.

Lemma insert_by_max (v : positive → Z) n xs :
  (∀ x, x ∈ xs → v x ≤ v n) → insert_by v n xs = xs ++ [n].
Proof.
  induction xs as [|x xs IH]; intros H; simpl; [done|].
  destruct (Z.leb_spec (v x) (v n)); [|specialize (H x ltac:(set_solver)); lia].
  f_equal. apply IH. set_solver.
Qed.

Lemma refines_value st A i :
  refines st A → is_Some (links st !! Item i) → val st (Item i) = Some (a_val A i) ∧ is_u32 (a_val A i).
Proof.
  intros R [L HL]. pose proof (rf_val _ _ R i) as Hv. unfold val in *. rewrite HL in *. simpl in *.
  destruct (Hv _ eq_refl) as [-> ?]. done.
Qed.

Lemma length_le_links st A l a :
  refines st A → a_lists A !! l = Some a → (length (elems a) ≤ size (links st))%nat.
Proof.
  intros R Ha. pose proof (rf_lists _ _ R _ _ Ha) as L.
  rewrite <- (length_fmap Item), <- size_dom.
  rewrite <- (size_list_to_set (C := gset node)).
  2:{ apply NoDup_fmap_2, L. by intros ?? [= ->]. }
  apply subseteq_size. intros x Hx. apply elem_of_list_to_set, list_elem_of_fmap in Hx as (i & -> & Hi).
  apply elem_of_dom. eapply refines_alloc; [done..|]. right. eauto.
Qed.

Lemma insert_position_spec st A l a v suf :
  refines st A → a_lists A !! l = Some a → v < portMAX_DELAY →
  (∀ x, head suf = Some x → v < a_val A x) →
  ∀ pre visited fuel, elems a = visited ++ pre ++ suf →
  (∀ x, x ∈ pre → a_val A x ≤ v) → (length pre < fuel)%nat →
  insert_position fuel (Some (last_ptr l visited)) v st = Some (Some (last_ptr l (visited ++ pre))).
Proof.
  intros R Ha Hv Hsuf. pose proof (rf_lists _ _ R _ _ Ha) as L.
  induction pre as [|x pre IH]; intros visited [|fuel] E Hpre Hf; simpl in *; try lia.
  all: pose proof (il_chain _ _ _ L) as C; rewrite E, ring_split in C; destruct C as (_ & C & _ & _).
  all: destruct (last_ptr_alloc _ _ _ _ _ _ R Ha E) as [A1 A2].
  all: destruct (ld_views st _ A1) as (w & -> & _); simpl; rewrite C.
  all: destruct (ld_views st _ A2) as (w' & -> & Hw'); simpl.
  - rewrite app_nil_r. unfold head_ptr in Hw'. destruct suf as [|y suf]; simpl in Hw'.
    + rewrite (il_end _ _ _ L) in Hw'. simplify_eq. by destruct (Z.leb_spec portMAX_DELAY v); [lia|].
    + destruct (refines_value _ _ _ R A2) as [Hy _]. simplify_eq/=.
      specialize (Hsuf y eq_refl).
      by destruct (Z.leb_spec (a_val A y) v); [lia|].
  - destruct (refines_value _ _ _ R A2) as [Hy _]. unfold head_ptr in Hw'. simpl in Hw'.
    rewrite Hw' in Hy. simplify_eq. specialize (Hpre x) as Hx.
    destruct (Z.leb_spec (a_val A x) v); [|set_solver by lia].
    change (Some (head_ptr l (x :: pre ++ suf))) with (Some (Item x)).
    replace (Item x) with (last_ptr l (visited ++ [x])) by (unfold last_ptr; by rewrite last_snoc).
    rewrite (cons_middle x visited pre), app_assoc. apply IH; [|set_solver|lia].
    by rewrite E, <- app_assoc.
Qed.

#[local] Arguments insert_position : simpl never.

Lemma vListInsert_spec st A l a n :
  refines st A → a_lists A !! l = Some a → cont st n = Some None →
  ∃ st', vListInsert l n st = Some st' ∧ refines st' (set_alist l (a_insert (a_val A) n a) A).
Proof.
  intros R Ha Hn. pose proof (rf_lists _ _ R _ _ Ha) as L.
  destruct (insert_by_split (a_val A) n (elems a)) as (pre & suf & E & Ei & Hpre & Hsuf).
  unfold a_insert. rewrite Ei.
  destruct (splice_facts _ _ _ _ _ _ _ R Ha E Hn) as (A1 & A2 & A3 & A4 & N1 & P1 & D1 & D2).
  unfold vListInsert. destruct (ld_views st _ A3) as (v & -> & Hv). simpl.
  destruct (refines_value _ _ _ R A3) as [Hv' Hr]. rewrite Hv in Hv'. simplify_eq.
  assert (Hit : (if a_val A n =? portMAX_DELAY
        then Le ← ld (Some (End l)) st; Some (pxPrevious Le)
        else insert_position (S (size (links st))) (Some (End l)) (a_val A n) st)
     = Some (Some (last_ptr l pre))).
  { destruct (Z.eqb_spec (a_val A n) portMAX_DELAY) as [Hm|Hm].
    - assert (suf = []) as ->.
      { destruct suf as [|y suf]; [done|]. specialize (Hsuf y eq_refl).
        assert (is_Some (links st !! Item y)) as Hy.
        { eapply refines_alloc; [done..|]. right. exists y. rewrite E. set_solver. }
        destruct (refines_value _ _ _ R Hy) as [_ ?]. unfold is_u32, portMAX_DELAY in *. lia. }
      destruct (ld_views st _ A2) as (w & Hw & _). unfold head_ptr in Hw, P1. simpl in Hw, P1.
      rewrite Hw. simpl. by rewrite P1.
    - eapply (insert_position_spec st A l a (a_val A n) suf R Ha) with (visited := []); [|done..|].
      + unfold is_u32, portMAX_DELAY in *. lia.
      + pose proof (length_le_links _ _ _ _ R Ha) as HL. rewrite E, length_app in HL. lia. }
  rewrite Hit. simpl. destruct (ld_views st _ A1) as (v1 & -> & _). simpl. rewrite N1.
  destruct (wr_next_spec st (Item n) (Some (head_ptr l suf)) A3) as (s1 & -> & V1 & W1 & S1). simpl.
  destruct (ld_views s1 (Item n)) as (v2 & -> & _); [by apply S1|]. simpl.
  rewrite V1, decide_True by done.
  destruct (wr_prev_spec s1 (head_ptr l suf) (Some (Item n))) as (s2 & -> & V2 & W2 & S2); [by apply S1|].
  simpl. pose proof (same_rest_trans _ _ _ S1 S2) as S12.
  destruct (wr_prev_spec s2 (Item n) (Some (last_ptr l pre))) as (s3 & -> & V3 & W3 & S3); [by apply S12|].
  simpl. pose proof (same_rest_trans _ _ _ S12 S3) as S13.
  destruct (wr_next_spec s3 (last_ptr l pre) (Some (Item n))) as (s4 & -> & V4 & W4 & S4); [by apply S13|].
  simpl. pose proof (same_rest_trans _ _ _ S13 S4) as S14.
  pose proof S14 as (_ & _ & Se & Sh).
  destruct (finish_insert_spec s4 l n (MkHdr (u32 (Z.of_nat (length (elems a)))) (Some (cursor_ptr l (cursor a)))))
    as (st' & -> & F); [by rewrite Se|by rewrite Sh, (il_hdr _ _ _ L)|].
  eexists. split; [done|]. eapply insert_refines; [done..| |done|done].
  split; intros x.
  - rewrite V4, W3, W2, V1. done.
  - rewrite W4, V3, V2, W1. destruct (decide (x = Item n)), (decide (x = head_ptr l suf)); naive_solver.
Qed.

(** ** Removal *)
Lemma remove_item_split i pre suf : i ∉ pre → remove_item i (pre ++ i :: suf) = pre ++ suf.
Proof.
  induction pre as [|x pre IH]; intros Hi; simpl; [by rewrite decide_True|].
  rewrite decide_False by set_solver. f_equal. apply IH. set_solver.
Qed.

Lemma pred_of_split i prev pre suf :
  i ∉ pre → pred_of i prev (pre ++ i :: suf) = match last pre with Some p => Some p | None => prev end.
Proof.
  revert prev. induction pre as [|x pre IH]; intros prev Hi; simpl; [by rewrite decide_True|].
  rewrite decide_False, IH by set_solver. rewrite last_cons. by destruct (last pre).
Qed.

Lemma last_elem_of (xs : list positive) k : last xs = Some k → k ∈ xs.
Proof. rewrite last_lookup. by apply list_elem_of_lookup_2. Qed.

Lemma length_shrink (pre suf : list positive) n :
  u32 (u32 (Z.of_nat (length (pre ++ n :: suf))) - 1) = u32 (Z.of_nat (length (pre ++ suf))).
Proof. rewrite u32_sub_l, !length_app. f_equal. simpl. lia. Qed.

(** The bookkeeping half of a removal: everything but the two links. *)
Definition unlinked (st st' : store) (l n : positive) (c : option positive) (len : Z) : Prop :=
  links st' = links st
  ∧ (∀ x, cont st' x = if decide (x = n) then Some None else cont st x)
  ∧ (∀ x, own st' x = own st x)
  ∧ hdrs st' = <[l := MkHdr len (Some (cursor_ptr l c))]> (hdrs st).

Lemma remove_refines st st1 st' A l a pre suf n :
  refines st A → a_lists A !! l = Some a → elems a = pre ++ n :: suf →
  views_removed st st1 (last_ptr l pre) (head_ptr l suf) → same_rest st st1 →
  unlinked st1 st' l n (cursor (a_remove n a)) (u32 (Z.of_nat (length (pre ++ suf)))) →
  refines st' (set_alist l (a_remove n a) A).
Proof.
  intros R Ha E [Vn Vp] (Sd & Sv & Se & Sh) (Fl & Fc & Fo & Fh).
  pose proof (rf_lists _ _ R _ _ Ha) as L. destruct (views_links _ _ Fl) as (Ln & Lp & Lv).
  assert (Hc1 : ∀ i, cont st1 i = cont st i) by (intros i; unfold cont; by rewrite Se).
  pose proof (il_nodup _ _ _ L) as ND. rewrite E in ND.
  apply NoDup_app in ND as (_ & Hd & [Hns _]%NoDup_cons).
  assert (Hnp : n ∉ pre) by (intros ?; eapply Hd; [done|set_solver]).
  assert (Er : elems (a_remove n a) = pre ++ suf) by (simpl; by rewrite E, remove_item_split).
  constructor; simpl.
  - intros l' b. destruct (decide (l = l')) as [<-|Hl].
    + rewrite lookup_insert_eq. intros [= <-]. destruct L as [C N En K Cu H].
      constructor; rewrite ?Er.
      * rewrite E in C, N. eapply (chain_remove st); [done| |done].
        split; intros x; [by rewrite Ln, Vn|by rewrite Lp, Vp].
      * rewrite E in N. revert N. rewrite !NoDup_app, NoDup_cons. set_solver.
      * by rewrite Lv, Sv.
      * intros i Hi. rewrite Fc, decide_False by set_solver. rewrite Hc1. apply K.
        rewrite E. set_solver.
      * intros k. simpl. destruct (decide (cursor a = Some n)) as [Hc|Hc].
        { rewrite E, pred_of_split by done. destruct (last pre) as [p|] eqn:Hp; [|done].
          intros [= <-]. apply last_elem_of in Hp. set_solver. }
        intros Hk. specialize (Cu _ Hk). rewrite E in Cu. set_solver.
      * by rewrite Fh, lookup_insert_eq.
    + rewrite lookup_insert_ne by done. intros Hb. pose proof (rf_lists _ _ R _ _ Hb) as Lb.
      apply (is_list_frame st); [| | | |done].
      * intros x Hx. rewrite Ln, Lp, Vn, Vp. pose proof (il_cont _ _ _ Lb) as Kb.
        pose proof (il_cont _ _ _ L) as Ka. rewrite E in Ka.
        assert (x ≠ last_ptr l pre ∧ x ≠ head_ptr l suf) as [??].
        { apply (ring_disjoint l pre suf); [naive_solver|].
          intros i Hi ->. specialize (Ka i ltac:(set_solver)). naive_solver congruence. }
        by rewrite !decide_False.
      * by rewrite Lv, Sv.
      * intros i Hi. rewrite Fc, decide_False; [done|]. intros ->.
        pose proof (il_cont _ _ _ Lb _ Hi). pose proof (il_cont _ _ _ L n) as Hl'.
        rewrite E in Hl'. specialize (Hl' ltac:(set_solver)). congruence.
      * by rewrite Fh, lookup_insert_ne, Sh.
  - intros i l'. rewrite Fc. destruct (decide (i = n)) as [->|Hi]; [done|].
    rewrite Hc1. intros (b & Hb & Hib)%(rf_cont _ _ R).
    destruct (decide (l = l')) as [<-|]; [|rewrite lookup_insert_ne by done; eauto].
    eexists. rewrite lookup_insert_eq. split; [done|]. rewrite Er. simplify_eq.
    rewrite E in Hib. set_solver.
  - intros i. rewrite cont_is_Some, Fc, Fl, Sd, <- (rf_dom _ _ R), cont_is_Some.
    destruct (decide (i = n)) as [->|]; [|by rewrite Hc1].
    rewrite (il_cont _ _ _ L n) by (rewrite E; set_solver). split; by eexists.
  - intros l' [??]%(rf_mem _ _ R). rewrite Fl, Sd, Fh, lookup_insert_is_Some, Sh.
    split; [done|]. destruct (decide (l = l')); auto.
  - intros i. rewrite (rf_items _ _ R), !cont_is_Some, Fc.
    destruct (decide (i = n)) as [->|]; [|by rewrite Hc1].
    rewrite (il_cont _ _ _ L n) by (rewrite E; set_solver). split; by eexists.
  - intros i v. rewrite Lv, Sv. apply (rf_val _ _ R).
  - intros i o. rewrite Fo. unfold own. rewrite Se. apply (rf_own _ _ R).
Qed.

Lemma uxListRemove_spec st A l a n :
  refines st A → a_lists A !! l = Some a → n ∈ elems a →
  ∃ st', uxListRemove n st = Some (st', u32 (Z.of_nat (length (elems (a_remove n a)))))
    ∧ refines st' (set_alist l (a_remove n a) A).
Proof.
  intros R Ha Hn. pose proof (rf_lists _ _ R _ _ Ha) as L.
  destruct (list_elem_of_split _ _ Hn) as (pre & suf & E).
  pose proof (il_nodup _ _ _ L) as ND. rewrite E in ND.
  pose proof ND as (_ & Hd & [Hns _]%NoDup_cons)%NoDup_app.
  assert (Hnp : n ∉ pre) by (intros ?; eapply Hd; [done|set_solver]).
  pose proof (il_cont _ _ _ L _ Hn) as Hc. unfold cont in Hc.
  destruct (exts st !! n) as [e|] eqn:He; [|done]. simpl in Hc.
  pose proof (il_chain _ _ _ L) as C. rewrite E in C.
  pose proof C as (_ & N1 & P1 & _)%ring_split.
  rewrite cons_middle, app_assoc in C. apply ring_split in C as (_ & N2 & P2 & _).
  unfold head_ptr at 1 in N1; unfold head_ptr in P1; simpl in N1, P1.
  unfold last_ptr at 1 in N2; unfold last_ptr in P2. rewrite last_snoc in N2, P2. simpl in N2, P2.
  destruct (last_ptr_alloc _ _ _ _ _ _ R Ha E) as [A1 A3]. unfold head_ptr in A3. simpl in A3.
  assert (A2 : is_Some (links st !! head_ptr l suf)).
  { rewrite cons_middle, app_assoc in E. by destruct (last_ptr_alloc _ _ _ _ _ _ R Ha E). }
  assert (head_ptr l suf ≠ Item n).
  { destruct (head_ptr_cases l suf) as [[_ ->]|(y & Hy & ->)]; [done|]. intros [= ->]. done. }
  unfold uxListRemove. rewrite He. simpl. injection Hc as Hc. rewrite Hc. simpl.
  destruct (ld_views st (Item n) A3) as (v & -> & _). simpl. rewrite N2, P1.
  destruct (wr_prev_spec st (head_ptr l suf) (Some (last_ptr l pre)) A2) as (s1 & -> & V1 & W1 & S1).
  simpl. destruct (ld_views s1 (Item n)) as (v1 & -> & _); [by apply S1|]. simpl.
  rewrite V1, decide_False, W1, N2, P1 by done.
  destruct (wr_next_spec s1 (last_ptr l pre) (Some (head_ptr l suf))) as (s2 & -> & V2 & W2 & S2); [by apply S1|].
  simpl. pose proof (same_rest_trans _ _ _ S1 S2) as S12. pose proof S12 as (Sd & _ & Se & Sh).
  rewrite Sh, (il_hdr _ _ _ L). cbn [mbind option_bind pxIndex].
  assert (Hidx : ∃ s3, (if decide (Some (cursor_ptr l (cursor a)) = Some (Item n))
     then Li ← ld (Some (Item n)) s2; wr_index l (pxPrevious Li) s2 else Some s2) = Some s3
     ∧ links s3 = links s2 ∧ exts s3 = exts s2
     ∧ hdrs s3 = <[l := MkHdr (u32 (Z.of_nat (length (elems a))))
                     (Some (cursor_ptr l (cursor (a_remove n a))))]> (hdrs s2)).
  { cbn [cursor a_remove]. destruct (decide (cursor a = Some n)) as [Ec|Ec].
    - rewrite Ec, decide_True by done.
      destruct (ld_views s2 (Item n)) as (v2 & -> & _); [by apply S12|]. simpl.
      rewrite W2, V1, decide_False, P1 by done.
      unfold wr_index. rewrite Sh, (il_hdr _ _ _ L). simpl. eexists. split_and!; [done..|]. simpl.
      rewrite E, pred_of_split by done. unfold last_ptr. by destruct (last pre).
    - rewrite decide_False by (destruct (cursor a); simpl; congruence). eexists. split_and!; [done..|].
      by rewrite insert_id by (by rewrite Sh, (il_hdr _ _ _ L)). }
  destruct Hidx as (s3 & Eq3 & L3 & X3 & H3). rewrite Eq3. simpl.
  unfold wr_container. rewrite X3, Se, He. simpl. rewrite H3, lookup_insert_eq. simpl.
  unfold wr_count. simpl. rewrite lookup_insert_eq. simpl. rewrite lookup_insert_eq. simpl.
  rewrite insert_insert_eq, E, length_shrink, remove_item_split by done.
  eexists. split; [done|]. eapply (remove_refines _ s2); [done..| |done|].
  - split; intros x; [by rewrite V2, W1|by rewrite W2, V1].
  - unfold unlinked, cont, own; simpl. split_and!; [done|..]; [| |by rewrite ?E].
    all: intros x; destruct (decide (x = n)) as [->|];
      rewrite ?lookup_insert_eq, ?lookup_insert_ne by done; simpl; rewrite ?X3, ?Se, ?He; done.
Qed.

(** ** The round-robin walk *)
Definition set_cursor (c : option positive) (a : alist) : alist := MkAlist (elems a) c.

Lemma succ_of_split k pre suf : k ∉ pre → succ_of k (pre ++ k :: suf) = head suf.
Proof.
  induction pre as [|x pre IH]; intros Hk; simpl; [by rewrite decide_True|].
  rewrite decide_False by set_solver. apply IH. set_solver.
Qed.

(** Where [pxIndex->pxNext] leads, the end marker included. *)
Definition a_advance (a : alist) : option positive :=
  match cursor a with None => head (elems a) | Some k => succ_of k (elems a) end.

Lemma a_next_advance a :
  a_next a = match a_advance a with Some j => Some j | None => head (elems a) end.
Proof. unfold a_next, a_advance. destruct a as [xs [k|]]; simpl; [done|]. by destruct xs. Qed.

Lemma wr_index_refines st A l a c :
  refines st A → a_lists A !! l = Some a → (∀ k, c = Some k → k ∈ elems a) →
  ∃ st', wr_index l (Some (cursor_ptr l c)) st = Some st'
    ∧ refines st' (set_alist l (set_cursor c a) A).
Proof.
  intros R Ha Hc. pose proof (rf_lists _ _ R _ _ Ha) as L.
  unfold wr_index. rewrite (il_hdr _ _ _ L). simpl. eexists. split; [done|].
  destruct R as [Rl Rc Rd Rm Ri Rv Ro].
  constructor; simpl; [| |exact Rd| |exact Ri|exact Rv|exact Ro].
  - intros l' b. destruct (decide (l = l')) as [<-|Hl].
    + rewrite lookup_insert_eq. intros [= <-]. destruct L as [C N En K Cu H].
      constructor; [by apply (chain_links st)|exact N|exact En|exact K|exact Hc|]; simpl. by rewrite lookup_insert_eq.
    + rewrite lookup_insert_ne by done. intros Hb. specialize (Rl _ _ Hb).
      destruct Rl as [C N En K Cu H].
      constructor; [by apply (chain_links st)|exact N|exact En|exact K|exact Cu|]; simpl. by rewrite lookup_insert_ne.
  - intros i l' (b & Hb & Hi)%Rc. destruct (decide (l = l')) as [<-|].
    + eexists. rewrite lookup_insert_eq. split; [done|]. simpl. by simplify_eq.
    + rewrite lookup_insert_ne by done. eauto.
  - intros l' [??]%Rm. split; [done|]. rewrite lookup_insert_is_Some.
    destruct (decide (l = l')); auto.
Qed.

Lemma head_elem_of (xs : list positive) k : head xs = Some k → k ∈ xs.
Proof. destruct xs; [done|]. intros [= ->]. set_solver. Qed.

Lemma advance_spec st A l a :
  refines st A → a_lists A !! l = Some a →
  (∀ k, a_advance a = Some k → k ∈ elems a)
  ∧ ∃ st', advance_index l st = Some st'
    ∧ refines st' (set_alist l (set_cursor (a_advance a) a) A).
Proof.
  intros R Ha. pose proof (rf_lists _ _ R _ _ Ha) as L.
  assert (∃ pre suf, elems a = pre ++ suf ∧ last_ptr l pre = cursor_ptr l (cursor a)
    ∧ a_advance a = head suf) as (pre & suf & E & E1 & E2).
  { unfold a_advance. destruct (cursor a) as [k|] eqn:Hk.
    - destruct (list_elem_of_split (elems a) k) as (pre & suf & E); [by apply L|].
      exists (pre ++ [k]), suf. rewrite E, <- app_assoc. split_and!; [done| |].
      + unfold last_ptr. by rewrite last_snoc.
      + apply succ_of_split. pose proof (il_nodup _ _ _ L) as ND. rewrite E in ND.
        apply NoDup_app in ND as (_ & Hd & _). intros ?. eapply Hd; [done|set_solver].
    - by exists [], (elems a). }
  assert (Hin : ∀ k, a_advance a = Some k → k ∈ elems a).
  { intros k. rewrite E2, E. intros ?%head_elem_of. set_solver. }
  split; [done|].
  pose proof (il_chain _ _ _ L) as C. rewrite E in C. apply ring_split in C as (_ & N1 & _ & _).
  destruct (last_ptr_alloc _ _ _ _ _ _ R Ha E) as [A1 _].
  unfold advance_index. rewrite (il_hdr _ _ _ L). simpl. rewrite <- E1.
  destruct (ld_views st _ A1) as (v & -> & _). simpl. rewrite N1.
  unfold head_ptr. rewrite <- E2. by apply wr_index_refines.
Qed.

Lemma next_entry_spec st A l a j :
  refines st A → a_lists A !! l = Some a → a_next a = Some j →
  ∃ st', listGET_OWNER_OF_NEXT_ENTRY l st = Some (st', a_own A j)
    ∧ refines st' (set_alist l (set_cursor (Some j) a) A).
Proof.
  intros R Ha Hj. rewrite a_next_advance in Hj. pose proof (rf_lists _ _ R _ _ Ha) as L0.
  destruct (advance_spec _ _ _ _ R Ha) as (Hin & s1 & E1 & R1).
  assert (∃ s2, listGET_OWNER_OF_NEXT_ENTRY l st =
      (h ← hdrs s2 !! l; o ← owner_of (pxIndex h) s2; Some (s2, o))
      ∧ refines s2 (set_alist l (set_cursor (Some j) a) A)) as (s2 & -> & R2).
  { unfold listGET_OWNER_OF_NEXT_ENTRY. rewrite E1. cbn [mbind option_bind].
    assert (Ha1 : a_lists (set_alist l (set_cursor (a_advance a) a) A) !! l = Some (set_cursor (a_advance a) a))
      by (simpl; by rewrite lookup_insert_eq).
    rewrite (il_hdr _ _ _ (rf_lists _ _ R1 _ _ Ha1)). cbn [mbind option_bind pxIndex set_cursor cursor].
    destruct (a_advance a) as [i|]; simplify_eq.
    - rewrite decide_False by done. by exists s1.
    - rewrite decide_True by done. destruct (advance_spec _ _ _ _ R1 Ha1) as (_ & s2 & -> & R2).
      exists s2. split; [done|]. revert R2. unfold a_advance, set_alist, set_cursor. simpl.
      rewrite Hj, insert_insert_eq. done. }
  assert (Ha2 : a_lists (set_alist l (set_cursor (Some j) a) A) !! l = Some (set_cursor (Some j) a))
    by (simpl; by rewrite lookup_insert_eq).
  pose proof (rf_lists _ _ R2 _ _ Ha2) as L2. rewrite (il_hdr _ _ _ L2). simpl.
  pose proof (il_cont _ _ _ L2 j (il_cursor _ _ _ L2 j eq_refl)) as Hc. unfold cont in Hc.
  pose proof (rf_own _ _ R2 j) as Ho. unfold own in Ho.
  destruct (exts s2 !! j) as [e|] eqn:He; [|done]. simpl in *.
  specialize (Ho _ eq_refl). simpl in Ho. exists s2. by rewrite Ho.
Qed.

(** ** Initialisation and the item value *)
Lemma vListInitialise_spec st A l :
  refines st A → a_lists A !! l = None → is_Some (links st !! End l) → is_Some (hdrs st !! l) →
  ∃ st', vListInitialise l st = Some st' ∧ refines st' (set_alist l (MkAlist [] None) A).
Proof.
  intros R Ha [Le Hl] [h Hh]. unfold vListInitialise, wr_index. rewrite Hh. simpl.
  unfold wr_value. simpl. rewrite Hl. simpl. unfold wr_links at 1. simpl.
  unfold wr_next, wr_prev, wr_count, wr_links. simpl. rewrite !lookup_insert_eq. simpl.
  rewrite !lookup_insert_eq. simpl. rewrite !lookup_insert_eq. simpl. rewrite !insert_insert_eq.
  eexists. split; [done|].
  destruct R as [Rl Rc Rd Rm Ri Rv Ro]. constructor; simpl; [| | | |done|..].
  - intros l' b. destruct (decide (l = l')) as [<-|Hne].
    + rewrite lookup_insert_eq. intros [= <-]. constructor; simpl; [|constructor|..].
      * unfold nxt, prv. simpl. by rewrite !lookup_insert_eq.
      * unfold val. simpl. by rewrite lookup_insert_eq.
      * set_solver.
      * done.
      * by rewrite lookup_insert_eq.
    + rewrite lookup_insert_ne by done. intros Hb. apply (is_list_frame st); [| |done| |by apply Rl].
      * unfold nxt, prv. simpl. intros x Hx. rewrite lookup_insert_ne; [done|]. naive_solver.
      * unfold val. simpl. by rewrite lookup_insert_ne by congruence.
      * simpl. by rewrite lookup_insert_ne.
  - intros i l' (b & Hb & Hi)%Rc. exists b. rewrite lookup_insert_ne; [done|congruence].
  - intros i. rewrite lookup_insert_ne by done. apply Rd.
  - intros l' [??]%Rm. rewrite !lookup_insert_is_Some.
    split; [destruct (decide (End l = End l'))|destruct (decide (l = l'))]; auto.
  - intros i v. unfold val. simpl. rewrite lookup_insert_ne by done. apply Rv.
  - done.
Qed.

Definition a_set_value (i : positive) (v : Z) (A : astate) : astate :=
  MkAstate (a_mem A) (a_lists A) (a_items A) (λ j, if decide (j = i) then v else a_val A j) (a_own A).

Lemma set_value_spec st A i v :
  refines st A → i ∈ a_items A → is_u32 v →
  ∃ st', wr_value (Some (Item i)) v st = Some st' ∧ refines st' (a_set_value i v A).
Proof.
  intros R Hi Hv. pose proof Hi as [L HL]%(rf_items _ _ R)%(rf_dom _ _ R).
  unfold wr_value. simpl. rewrite HL. simpl. eexists. split; [done|].
  unfold wr_links. destruct R as [Rl Rc Rd Rm Ri Rv Ro].
  constructor; simpl; [|exact Rc| | |exact Ri| |exact Ro].
  - intros l b Hb. apply (is_list_frame st); [| |done|done|by apply Rl].
    + unfold nxt, prv. simpl. intros x _. destruct (decide (x = Item i)) as [->|];
        rewrite ?lookup_insert_eq, ?lookup_insert_ne, ?HL by done; done.
    + unfold val. simpl. by rewrite lookup_insert_ne.
  - intros j. destruct (decide (j = i)) as [->|]; rewrite ?lookup_insert_eq, ?lookup_insert_ne by congruence;
      rewrite Rd; [|done]. rewrite HL. split; by eexists.
  - intros l [??]%Rm. by rewrite lookup_insert_ne.
  - intros j w. unfold val. simpl. destruct (decide (j = i)) as [->|].
    + rewrite lookup_insert_eq. simpl. by intros [= <-].
    + rewrite lookup_insert_ne by congruence. apply Rv.
Qed.

(** ** The kernel's list operations as one transition system *)
Inductive op :=
  | OpInit (l : positive)
  | OpInitItem (i : positive)
  | OpInsertEnd (l i : positive)
  | OpInsert (l i : positive)
  | OpRemove (i : positive)
  | OpNext (l : positive)
  | OpSetValue (i : positive) (v : Z).

(** Execution on the store; the result is the value returned, 0 for [void]. *)
Definition exec (o : op) (st : store) : option (store * Z) :=
  match o with
  | OpInit l => (λ s, (s, 0)) <$> vListInitialise l st
  | OpInitItem i => (λ s, (s, 0)) <$> vListInitialiseItem i st
  | OpInsertEnd l i => (λ s, (s, 0)) <$> vListInsertEnd l i st
  | OpInsert l i => (λ s, (s, 0)) <$> vListInsert l i st
  | OpRemove i => uxListRemove i st
  | OpNext l => listGET_OWNER_OF_NEXT_ENTRY l st
  | OpSetValue i v => (λ s, (s, 0)) <$> wr_value (Some (Item i)) v st
  end.

(** An item on no list. *)
Definition free_item (A : astate) (i : positive) : Prop :=
  i ∈ a_items A ∧ ∀ l a, a_lists A !! l = Some a → i ∉ elems a.

(** What the callers of the API must respect, and what the lists become. *)
Inductive a_step (A : astate) : op → astate → Z → Prop :=
  | step_init l :
      l ∈ a_mem A → a_lists A !! l = None →
      a_step A (OpInit l) (set_alist l (MkAlist [] None) A) 0
  | step_init_item i : free_item A i → a_step A (OpInitItem i) A 0
  | step_insert_end l i a :
      a_lists A !! l = Some a → free_item A i →
      a_step A (OpInsertEnd l i) (set_alist l (a_insert_end i a) A) 0
  | step_insert l i a :
      a_lists A !! l = Some a → free_item A i →
      a_step A (OpInsert l i) (set_alist l (a_insert (a_val A) i a) A) 0
  | step_remove l i a :
      a_lists A !! l = Some a → i ∈ elems a →
      a_step A (OpRemove i) (set_alist l (a_remove i a) A)
        (u32 (Z.of_nat (length (elems (a_remove i a)))))
  | step_next l a j :
      a_lists A !! l = Some a → a_next a = Some j →
      a_step A (OpNext l) (set_alist l (set_cursor (Some j) a) A) (a_own A j)
  | step_set_value i v :
      i ∈ a_items A → is_u32 v → a_step A (OpSetValue i v) (a_set_value i v A) 0.

Lemma free_cont st A i : refines st A → free_item A i → cont st i = Some None.
Proof.
  intros R [Hi Hf]. apply (rf_items _ _ R) in Hi as [e He].
  destruct (pxContainer e) as [l|] eqn:Hc.
  - destruct (rf_cont _ _ R i l) as (a & Ha & Hin); [unfold cont; by rewrite He; simpl; rewrite Hc|].
    by destruct (Hf _ _ Ha).
  - unfold cont. rewrite He. simpl. by rewrite Hc.
Qed.

Lemma exec_step st A o A' r :
  refines st A → a_step A o A' r → ∃ st', exec o st = Some (st', r) ∧ refines st' A'.
Proof.
  intros R S. destruct S as [l Hm Hl|i Hf|l i a Ha Hf|l i a Ha Hf|l i a Ha Hi|l a j Ha Hj|i v Hi Hv]; simpl.
  - destruct (rf_mem _ _ R _ Hm) as [??].
    destruct (vListInitialise_spec _ _ l R) as (st' & -> & R'); [done..|]. by eexists.
  - pose proof (free_cont _ _ _ R Hf) as Hc. unfold vListInitialiseItem, wr_container.
    unfold cont in Hc. destruct (exts st !! i) as [e|] eqn:He; [|done]. simpl in *.
    eexists. split; [done|]. rewrite insert_id; [by destruct st|].
    rewrite He. destruct e as [o c]; simpl in *. congruence.
  - destruct (vListInsertEnd_spec _ _ _ _ i R Ha (free_cont _ _ _ R Hf)) as (st' & -> & R'). by eexists.
  - destruct (vListInsert_spec _ _ _ _ i R Ha (free_cont _ _ _ R Hf)) as (st' & -> & R'). by eexists.
  - apply (uxListRemove_spec _ _ _ _ _ R Ha Hi).
  - apply (next_entry_spec _ _ _ _ _ R Ha Hj).
  - destruct (set_value_spec _ _ _ _ R Hi Hv) as (st' & -> & R'). by eexists.
Qed.

(** Sequences of operations. *)
Fixpoint exec_all (os : list op) (st : store) : option (store * list Z) :=
  match os with
  | [] => Some (st, [])
  | o :: os =>
      '(st, r) ← exec o st; '(st, rs) ← exec_all os st; Some (st, r :: rs)
  end.

Inductive a_run : astate → list op → astate → list Z → Prop :=
  | run_nil A : a_run A [] A []
  | run_cons A o A1 r os A2 rs :
      a_step A o A1 r → a_run A1 os A2 rs → a_run A (o :: os) A2 (r :: rs).

(** Reading a list the way the kernel iterates over it: from the end marker's
    [pxNext] to the end marker again. *)
Fixpoint walk (fuel : nat) (l : positive) (p : ptr) (st : store) : option (list positive) :=
  match fuel with
  | O => None
  | S fuel =>
      n ← p;
      match n with
      | End l' => if decide (l' = l) then Some [] else None
      | Item i => L ← ld p st; xs ← walk fuel l (pxNext L) st; Some (i :: xs)
      end
  end.

Definition contents (l : positive) (st : store) : option (list positive) :=
  Le ← ld (Some (End l)) st; walk (S (size (links st))) l (pxNext Le) st.

Lemma walk_spec st A l a :
  refines st A → a_lists A !! l = Some a →
  ∀ suf pre fuel, elems a = pre ++ suf → (length suf < fuel)%nat →
  walk fuel l (Some (head_ptr l suf)) st = Some suf.
Proof.
  intros R Ha. pose proof (rf_lists _ _ R _ _ Ha) as L.
  induction suf as [|x suf IH]; intros pre [|fuel] E Hf; simpl in *; try lia.
  - by rewrite decide_True.
  - destruct (last_ptr_alloc _ _ _ _ _ _ R Ha E) as [_ A2]. unfold head_ptr in A2. simpl in A2.
    destruct (ld_views st _ A2) as (v & E2 & _). unfold head_ptr. simpl. rewrite E2. simpl.
    rewrite cons_middle, app_assoc in E.
    pose proof (il_chain _ _ _ L) as C. rewrite E in C. apply ring_split in C as (_ & C & _ & _).
    unfold last_ptr in C at 1. rewrite last_snoc in C. simpl in C. rewrite C.
    rewrite (IH _ fuel E); [done|lia].
Qed.

Lemma contents_spec st A l a :
  refines st A → a_lists A !! l = Some a → contents l st = Some (elems a).
Proof.
  intros R Ha. pose proof (rf_lists _ _ R _ _ Ha) as L. unfold contents.
  destruct (ld_views st (End l)) as (v & -> & _); [eapply refines_alloc; eauto|].
  cbn [mbind option_bind pxNext].
  pose proof (il_chain _ _ _ L) as C. apply (ring_split st l [] (elems a)) in C as (_ & C & _ & _).
  unfold last_ptr in C. simpl in C. rewrite C.
  eapply (walk_spec _ _ _ _ R Ha _ []); [done|].
  pose proof (length_le_links _ _ _ _ R Ha). lia.
Qed.

Lemma insert_by_perm v n xs : insert_by v n xs ≡ₚ n :: xs.
Proof.
  destruct (insert_by_split v n xs) as (pre & suf & -> & -> & _ & _).
  by rewrite <- Permutation_middle.
Qed.

(** Ascending item values, as every sorted kernel list keeps them. *)
Definition sorted_by (v : positive → Z) (xs : list positive) : Prop :=
  ∀ i j x y, xs !! i = Some x → xs !! j = Some y → (i < j)%nat → v x ≤ v y.

Abbreviation ascending v := (StronglySorted (λ x y : positive, v x ≤ v y)).

Lemma sorted_app_le (v : positive → Z) pre suf :
  ascending v (pre ++ suf) → ascending v pre ∧ ascending v suf ∧ ∀ x y, x ∈ pre → y ∈ suf → v x ≤ v y.
Proof.
  induction pre as [|z pre IH]; simpl; intros H; [by split_and!; [constructor|done|set_solver]|].
  apply StronglySorted_inv in H as [H F]. rewrite Forall_forall in F.
  destruct (IH H) as (H1 & H2 & H3). split_and!; [|done|].
  - constructor; [done|]. apply Forall_forall. intros. apply F. set_solver.
  - intros x y [->|Hx]%elem_of_cons Hy; [apply F; set_solver|auto].
Qed.

Lemma insert_by_sorted v n xs : ascending v xs → ascending v (insert_by v n xs).
Proof.
  induction xs as [|x xs IH]; simpl; intros H; [by repeat constructor|].
  pose proof (StronglySorted_inv H) as [H' F]. destruct (Z.leb_spec (v x) (v n)).
  - constructor; [auto|]. apply Forall_forall. intros y.
    rewrite insert_by_perm, elem_of_cons. intros [->|Hy]; [done|]. rewrite Forall_forall in F. auto.
  - constructor; [done|]. constructor; [lia|]. eapply Forall_impl; [exact F|]. simpl. lia.
Qed.

Lemma head_value_spec st A l a x xs :
  refines st A → a_lists A !! l = Some a → elems a = x :: xs →
  listGET_ITEM_VALUE_OF_HEAD_ENTRY l st = Some (a_val A x).
Proof.
  intros R Ha E. pose proof (rf_lists _ _ R _ _ Ha) as L. unfold listGET_ITEM_VALUE_OF_HEAD_ENTRY.
  destruct (last_ptr_alloc _ _ _ _ [] _ R Ha E) as [A1 A2]. unfold last_ptr, head_ptr in *. simpl in *.
  destruct (ld_views st (End l) A1) as (v & -> & _). simpl.
  pose proof (il_chain _ _ _ L) as C. rewrite E in C. apply (ring_split st l []) in C as (_ & C & _ & _).
  unfold last_ptr, head_ptr in C. simpl in C. rewrite C.
  destruct (ld_views st _ A2) as (v' & -> & Hv). simpl.
  destruct (refines_value _ _ _ R A2) as [Hv' _]. congruence.
Qed.

(** *** Running the walk [n] times *)
Fixpoint next_n (n : nat) (l : positive) (st : store) : option (store * list Z) :=
  match n with
  | O => Some (st, [])
  | S n =>
      '(st, o) ← listGET_OWNER_OF_NEXT_ENTRY l st;
      '(st, rs) ← next_n n l st; Some (st, o :: rs)
  end.

Lemma a_next_mid pre x suf :
  NoDup (pre ++ x :: suf) → a_next (MkAlist (pre ++ x :: suf) (last pre)) = Some x.
Proof.
  intros ND. unfold a_next. simpl. destruct pre as [|p pre _] using rev_ind; [done|].
  rewrite last_snoc. simpl. rewrite <- app_assoc in *. simpl in *. rewrite succ_of_split; [done|].
  apply NoDup_app in ND as (_ & Hd & _). intros ?. eapply Hd; [done|set_solver].
Qed.

Lemma a_next_wrap xs x :
  NoDup (x :: xs) → a_next (MkAlist (x :: xs) (last (x :: xs))) = Some x.
Proof.
  intros ND. unfold a_next. simpl elems. cbn [cursor].
  destruct (exists_last (l := x :: xs)) as (pre & y & E); [done|].
  rewrite E in *. rewrite last_snoc. simpl. rewrite succ_of_split.
  - simpl. by rewrite <- E.
  - apply NoDup_app in ND as (_ & Hd & _). intros ?. eapply Hd; [done|set_solver].
Qed.

Lemma next_n_run st A l pre mid rest :
  refines st A → a_lists A !! l = Some (MkAlist (pre ++ mid ++ rest) (last pre)) →
  ∃ st', next_n (length mid) l st = Some (st', a_own A <$> mid)
    ∧ refines st' (set_alist l (MkAlist (pre ++ mid ++ rest) (last (pre ++ mid))) A).
Proof.
  revert st A pre. induction mid as [|x mid IH]; intros st A pre R Ha; simpl.
  - eexists. split; [done|]. rewrite app_nil_r.
    replace (set_alist l _ A) with A; [done|]. unfold set_alist. rewrite insert_id by done. by destruct A.
  - pose proof (il_nodup _ _ _ (rf_lists _ _ R _ _ Ha)) as ND. simpl in ND.
    destruct (next_entry_spec _ _ _ _ x R Ha) as (s1 & -> & R1); [by apply a_next_mid|]. simpl.
    destruct (IH s1 _ (pre ++ [x]) R1) as (s2 & E2 & R2).
    { simpl. rewrite lookup_insert_eq, last_snoc, <- app_assoc. done. }
    simpl in E2. rewrite E2. simpl. eexists. split; [done|]. revert R2. unfold set_alist. simpl.
    by rewrite insert_insert_eq, <- !app_assoc.
Qed.

Lemma next_n_app n m l st st1 rs :
  next_n n l st = Some (st1, rs) →
  next_n (n + m) l st = '(st2, rs') ← next_n m l st1; Some (st2, rs ++ rs').
Proof.
  revert st rs. induction n as [|n IH]; intros st rs; simpl.
  - intros [= <- <-]. by destruct (next_n m l st) as [[]|].
  - destruct (listGET_OWNER_OF_NEXT_ENTRY l st) as [[s o]|]; [|done]. simpl.
    destruct (next_n n l s) as [[s' rs']|] eqn:E; [|done]. simpl. intros [= -> <-].
    rewrite (IH _ _ E). by destruct (next_n m l st1) as [[]|].
Qed.

Lemma exec_all_spec st A os A' rs :
  refines st A → a_run A os A' rs → ∃ st', exec_all os st = Some (st', rs) ∧ refines st' A'.
Proof.
  intros R Run. revert st R. induction Run as [A|A o A1 r os A2 rs Hs Hr IH]; intros st R; simpl; [eauto|].
  destruct (exec_step _ _ _ _ _ R Hs) as (s1 & -> & R1). simpl.
  destruct (IH _ R1) as (s2 & -> & R2). simpl. eauto.
Qed.

(** ** Theorems *)

(** C1.  Every sequence of list operations the kernel may issue runs without
    dereferencing a null or dangling pointer, returns what the abstract lists
    say, and leaves every list a well-formed ring whose traversal by [pxNext]
    yields exactly the abstract sequence; in particular operations on one list
    never disturb another. *)
Theorem list_ops_refine st A os A' rs :
  refines st A → a_run A os A' rs →
  ∃ st', exec_all os st = Some (st', rs) ∧ refines st' A'
    ∧ ∀ l a, a_lists A' !! l = Some a → contents l st' = Some (elems a).
Proof.
  intros R Run. destruct (exec_all_spec _ _ _ _ _ R Run) as (st' & E & R').
  exists st'. split_and!; [done..|]. intros l a. by apply contents_spec.
Qed.

(** C7.  [vListInsert] on a list in ascending order of item value terminates
    (also when the value equals the marker's [portMAX_DELAY]) and leaves the
    list ascending with exactly one item more, the new one after every item of
    equal value; the head entry then has the least value of the list. *)
Theorem vListInsert_sorted st A l a n :
  refines st A → a_lists A !! l = Some a → free_item A n → ascending (a_val A) (elems a) →
  ∃ st' pre suf, vListInsert l n st = Some st'
    ∧ elems a = pre ++ suf ∧ contents l st' = Some (pre ++ n :: suf)
    ∧ ascending (a_val A) (pre ++ n :: suf)
    ∧ (∀ x, x ∈ pre → a_val A x ≤ a_val A n) ∧ (∀ x, x ∈ suf → a_val A n < a_val A x)
    ∧ ∃ m, listGET_ITEM_VALUE_OF_HEAD_ENTRY l st' = Some m
        ∧ ∀ x, x ∈ pre ++ n :: suf → m ≤ a_val A x.
Proof.
  intros R Ha Hf Hs. destruct (vListInsert_spec _ _ _ _ n R Ha (free_cont _ _ _ R Hf)) as (st' & E & R').
  destruct (insert_by_split (a_val A) n (elems a)) as (pre & suf & Ex & Ei & Hp & Hh).
  assert (Ha' : a_lists (set_alist l (a_insert (a_val A) n a) A) !! l = Some (a_insert (a_val A) n a))
    by (simpl; by rewrite lookup_insert_eq).
  pose proof (contents_spec _ _ _ _ R' Ha') as C. simpl in C. rewrite Ei in C.
  pose proof (insert_by_sorted (a_val A) n _ Hs) as Hs'. rewrite Ei in Hs'.
  exists st', pre, suf. split_and!; [done..| |].
  - intros x Hx. destruct suf as [|y suf]; [set_solver|]. specialize (Hh y eq_refl).
    rewrite Ex in Hs. apply sorted_app_le in Hs as (_ & [_ F]%StronglySorted_inv & _).
    rewrite Forall_forall in F. apply elem_of_cons in Hx as [->|Hx]; [done|]. specialize (F _ Hx). lia.
  - destruct (pre ++ n :: suf) as [|m xs] eqn:Em; [by destruct pre|].
    exists (a_val A m). split.
    + apply (head_value_spec _ _ _ _ _ xs R' Ha'). simpl. by rewrite Ei.
    + apply StronglySorted_inv in Hs' as [_ F]. rewrite Forall_forall in F.
      intros x [->|Hx]%elem_of_cons; [lia|auto].
Qed.

(**  Round robin: from any position of the walking index, as many calls
    of [listGET_OWNER_OF_NEXT_ENTRY] as the list has items return the owner of
    every item exactly once, in ring order from the index, and leave the list
    as it was.  This is what gives the tasks of one ready list equal turns. *)
Theorem next_entry_round_robin st A l pre suf :
  refines st A → a_lists A !! l = Some (MkAlist (pre ++ suf) (last pre)) →
  ∃ st', next_n (length (pre ++ suf)) l st = Some (st', a_own A <$> (suf ++ pre))
    ∧ contents l st' = Some (pre ++ suf).
Proof.
  intros R Ha. destruct (next_n_run st A l pre suf [] R) as (s1 & E1 & R1); [by rewrite app_nil_r|].
  rewrite app_nil_r in R1. rewrite length_app, Nat.add_comm, (next_n_app _ _ _ _ _ _ E1).
  assert (Ha1 : a_lists (set_alist l (MkAlist (pre ++ suf) (last (pre ++ suf))) A) !! l
    = Some (MkAlist (pre ++ suf) (last (pre ++ suf)))) by (simpl; by rewrite lookup_insert_eq).
  destruct pre as [|x pre]; simpl.
  { eexists. rewrite !app_nil_r. split; [done|]. by apply (contents_spec _ _ _ _ R1 Ha1). }
  pose proof (il_nodup _ _ _ (rf_lists _ _ R _ _ Ha)) as ND. simpl in ND.
  destruct (next_entry_spec _ _ _ _ x R1 Ha1) as (s2 & -> & R2); [by apply a_next_wrap|]. simpl.
  destruct (next_n_run s2 _ l [x] pre suf R2) as (s3 & -> & R3); [simpl; by rewrite lookup_insert_eq|].
  simpl. eexists. split; [by rewrite fmap_app|].
  apply (contents_spec _ _ _ _ R3 (lookup_insert_eq _ _ _)).
Qed.

(** ** Witnesses: one list and three items with values 30, 10 and 20 *)
Definition demo_mem : store := MkStore
  (<[End 1 := MkLinks 0 None None]> (<[Item 1 := MkLinks 30 None None]>
    (<[Item 2 := MkLinks 10 None None]> (<[Item 3 := MkLinks 20 None None]> ∅))))
  (<[1%positive := MkExt 101 None]> (<[2%positive := MkExt 102 None]>
    (<[3%positive := MkExt 103 None]> ∅)))
  {[1%positive := MkHdr 0 None]}.

Definition demo_abs : astate := MkAstate {[1%positive]} ∅ {[1; 2; 3]}%positive
  (λ i, if decide (i = 1%positive) then 30 else if decide (i = 2%positive) then 10 else 20)
  (λ i, 100 + Zpos i).

Lemma demo_domains i :
  (is_Some (exts demo_mem !! i) ↔ i ∈ [1; 2; 3]%positive)
  ∧ (is_Some (links demo_mem !! Item i) ↔ i ∈ [1; 2; 3]%positive).
Proof.
  destruct (decide (i = 1%positive)) as [->|]; [by vm_compute; repeat split; intros; eauto; set_solver|].
  destruct (decide (i = 2%positive)) as [->|]; [by vm_compute; repeat split; intros; eauto; set_solver|].
  destruct (decide (i = 3%positive)) as [->|]; [by vm_compute; repeat split; intros; eauto; set_solver|].
  simpl. rewrite !lookup_insert_ne, !lookup_empty by congruence.
  split; (split; [by intros []|set_solver]).
Qed.

Lemma demo_refines : refines demo_mem demo_abs.
Proof.
  constructor; simpl.
  - intros l a. by rewrite lookup_empty.
  - intros i l. unfold cont. simpl. rewrite fmap_Some. intros (e & He & Hc). revert He.
    rewrite !lookup_insert_Some, lookup_empty. naive_solver.
  - intros i. destruct (demo_domains i) as [-> ->]. done.
  - intros l. rewrite elem_of_singleton. intros ->. vm_compute. eauto.
  - intros i. destruct (demo_domains i) as [-> _]. set_solver.
  - intros i v. unfold val. simpl. rewrite fmap_Some. intros (L & HL & ->). revert HL.
    rewrite !lookup_insert_Some, lookup_empty. unfold is_u32. naive_solver lia.
  - intros i o. unfold own. simpl. rewrite fmap_Some. intros (e & He & ->). revert He.
    rewrite !lookup_insert_Some, lookup_empty. naive_solver.
Qed.


Lemma demo_free i : i ∈ [1; 2; 3]%positive → free_item demo_abs i.
Proof. intros Hi. split; [simpl; set_solver|]. intros l a. simpl. by rewrite lookup_empty. Qed.

(** The list with items 2 and 3 inserted by value. *)
Definition demo_list (a : alist) : astate := set_alist 1 a demo_abs.
Definition demo_abs1 : astate := demo_list (MkAlist [] None).
Definition demo_abs2 : astate := set_alist 1 (a_insert (a_val demo_abs) 3 (MkAlist [] None)) demo_abs1.
Definition demo_abs3 : astate :=
  set_alist 1 (a_insert (a_val demo_abs) 2 (MkAlist [3%positive] None)) demo_abs2.
Definition demo_ops : list op := [OpInit 1; OpInsert 1 3; OpInsert 1 2]%positive.

Lemma demo_run : a_run demo_abs demo_ops demo_abs3 [0; 0; 0].
Proof.
  eapply run_cons; [apply step_init; [simpl; set_solver|done]|].
  eapply run_cons; [apply step_insert; [reflexivity|split; [by apply (bool_decide_unpack _)|]]|].
  { intros l a. simpl. rewrite lookup_insert_Some, lookup_empty. intros [[_ <-]|[_ ?]]; [|done].
    simpl. apply not_elem_of_nil. }
  eapply run_cons; [|apply run_nil].
  apply (step_insert demo_abs2 1 2 (MkAlist [3%positive] None));
    [reflexivity|split; [by apply (bool_decide_unpack _)|]].
  intros l a. simpl. rewrite !lookup_insert_Some, lookup_empty.
  intros [[_ <-]|[_ [[_ <-]|[_ ?]]]]; [simpl|simpl|done]; set_solver.
Qed.

Definition demo_store : store :=
  match exec_all demo_ops demo_mem with Some (s, _) => s | None => demo_mem end.

Lemma demo_store_refines : refines demo_store demo_abs3.
Proof.
  destruct (exec_all_spec _ _ _ _ _ demo_refines demo_run) as (st' & E & R).
  unfold demo_store. by rewrite E.
Qed.

Lemma list_ops_refine_witness :
  ∃ st', exec_all demo_ops demo_mem = Some (st', [0; 0; 0]) ∧ contents 1 st' = Some [2; 3]%positive.
Proof.
  destruct (list_ops_refine _ _ _ _ _ demo_refines demo_run) as (st' & E & _ & C).
  exists st'. split; [exact E|]. exact (C 1%positive (MkAlist [2; 3]%positive None) eq_refl).
Defined.

Lemma vListInsert_sorted_witness :
  ∃ st' pre suf, vListInsert 1 1 demo_store = Some st' ∧ [2; 3]%positive = pre ++ suf
    ∧ contents 1 st' = Some (pre ++ 1%positive :: suf).
Proof.
  destruct (vListInsert_sorted _ _ 1 (MkAlist [2; 3]%positive None) 1 demo_store_refines)
    as (st' & pre & suf & E1 & E2 & E3 & _).
  - reflexivity.
  - split; [by apply (bool_decide_unpack _)|]. intros l a. simpl.
    rewrite !lookup_insert_Some, lookup_empty.
    intros [[_ <-]|[_ [[_ <-]|[_ [[_ <-]|[_ ?]]]]]]; [simpl|simpl|simpl|done]; set_solver.
  - repeat constructor. simpl. lia.
  - exists st', pre, suf. split; [exact E1|]. split; [exact E2|exact E3].
Defined.

Lemma next_entry_round_robin_witness :
  ∃ st', next_n 2 1 demo_store = Some (st', [102; 103]) ∧ contents 1 st' = Some [2; 3]%positive.
Proof.
  destruct (next_entry_round_robin _ _ 1 [] [2; 3]%positive demo_store_refines eq_refl) as (st' & E & C).
  exists st'. split; [exact E|exact C].
Defined.
