(* ===== verification/LwipDef.v ===== *)
(** * lwip-1.4.1/src/core/def.c: host and network byte order

    The target is little-endian (arch/cc.h) and defines no platform byte
    swapping, so the functions of def.c are the ones compiled. *)
From S2P Require Import Prelude.
Local Open Scope Z_scope.

Definition lwip_htons (n : Z) : Z :=
  u16 (Z.lor (Z.shiftl (Z.land n 255) 8) (Z.shiftr (Z.land n 65280) 8)).

Definition lwip_ntohs (n : Z) : Z := lwip_htons n.

Definition lwip_htonl (n : Z) : Z :=
  u32 (Z.lor (Z.lor (Z.lor (Z.shiftl (Z.land n 255) 24) (Z.shiftl (Z.land n 65280) 8))
       (Z.shiftr (Z.land n 16711680) 8)) (Z.shiftr (Z.land n 4278190080) 24)).

Definition lwip_ntohl (n : Z) : Z := lwip_htonl n.

(** The little-endian value of a list of octets: how a word sits in memory. *)
Fixpoint le_num (l : list Z) : Z :=
  match l with [] => 0 | b :: l => b + 256 * le_num l end.

Abbreviation bytes := (Forall is_u8).

Lemma le_num_nonneg l : bytes l → 0 <= le_num l.
Proof. induction 1 as [|b l Hb Hl IH]; simpl; unfold is_u8 in *; lia. Qed.

Lemma le_num_bound l : bytes l → le_num l < 256 ^ Z.of_nat (length l).
Proof.
  induction 1 as [|b l Hb Hl IH]; simpl length; simpl le_num; [lia|].
  rewrite Nat2Z.inj_succ, Z.pow_succ_r by lia. unfold is_u8 in *. lia.
Qed.

Lemma le_num_app l1 l2 : le_num (l1 ++ l2) = le_num l1 + 256 ^ Z.of_nat (length l1) * le_num l2.
Proof.
  induction l1 as [|b l IH]; simpl length; simpl le_num; simpl app; [rewrite Z.pow_0_r; lia|].
  simpl. rewrite IH, Nat2Z.inj_succ, Z.pow_succ_r by lia. lia.
Qed.

Lemma le_num_zero l : bytes l → le_num l = 0 ↔ Forall (λ b, b = 0) l.
Proof.
  induction 1 as [|b l Hb Hl IH]; simpl; [done|]. rewrite Forall_cons, <- IH.
  pose proof (le_num_nonneg l Hl). unfold is_u8 in *. lia.
Qed.

(** Disjoint bit fields add up. *)

Lemma lor_disjoint a b : Z.land a b = 0 → Z.lor a b = a + b.
Proof. intros H. pose proof (Z.add_lor_land a b). lia. Qed.

Lemma lor_shiftl_low a b n : 0 <= n → 0 <= b < 2 ^ n → Z.lor (Z.shiftl a n) b = a * 2 ^ n + b.
Proof.
  intros Hn Hb. rewrite <- Z.shiftl_mul_pow2 by lia. apply lor_disjoint.
  apply Z.bits_inj'. intros i Hi. rewrite Z.land_spec, Z.bits_0.
  destruct (Z.lt_ge_cases i n).
  - by rewrite Z.shiftl_spec_low.
  - rewrite <- (Z.mod_small b (2 ^ n)), Z.mod_pow2_bits_high by lia. by rewrite andb_false_r.
Qed.

(** A field [2^a .. 2^(a+k)) selected by a mask. *)
Lemma land_field n a k : 0 <= a → 0 <= k →
  Z.land n (Z.shiftl (Z.ones k) a) = (n / 2 ^ a) mod 2 ^ k * 2 ^ a.
Proof.
  intros Ha Hk. rewrite <- Z.land_ones, <- Z.shiftr_div_pow2, <- Z.shiftl_mul_pow2 by lia.
  apply Z.bits_inj'. intros i Hi. rewrite Z.land_spec.
  destruct (Z.lt_ge_cases i a).
  - rewrite !Z.shiftl_spec_low by lia. by rewrite andb_false_r.
  - rewrite !Z.shiftl_spec by lia. rewrite Z.land_spec, Z.shiftr_spec by lia.
    by replace (i - a + a) with i by lia.
Qed.

Lemma swap_bytes_val n : is_u16 n →
  Z.lor (Z.shiftl (Z.land n 255) 8) (Z.shiftr (Z.land n 65280) 8) = n mod 256 * 256 + n / 256.
Proof.
  intros Hn. change 255 with (Z.shiftl (Z.ones 8) 0). change 65280 with (Z.shiftl (Z.ones 8) 8).
  rewrite !land_field by lia. rewrite Z.shiftr_div_pow2 by lia.
  change (2 ^ 8) with 256. change (2 ^ 0) with 1. rewrite Z.div_mul, Z.mul_1_r, Z.div_1_r by lia.
  rewrite lor_shiftl_low by (change (2 ^ 8) with 256; word_lia).
  change (2 ^ 8) with 256. word_lia.
Qed.

Lemma lwip_htons_val n : is_u16 n → lwip_htons n = n mod 256 * 256 + n / 256.
Proof.
  intros Hn. unfold lwip_htons. rewrite swap_bytes_val by done. rewrite u16_id; [done|word_lia].
Qed.

Lemma lwip_htons_range n : is_u16 (lwip_htons n).
Proof. apply u16_range. Qed.

Lemma lwip_htons_involutive n : is_u16 n → lwip_htons (lwip_htons n) = n.
Proof.
  intros Hn. rewrite (lwip_htons_val n) by done.
  rewrite lwip_htons_val; unfold is_u16 in *; Z.to_euclidean_division_equations; lia.
Qed.

Lemma lor_low a b n : 0 <= n → a mod 2 ^ n = 0 → 0 <= b < 2 ^ n → Z.lor a b = a + b.
Proof.
  intros Hn Ha Hb. assert (0 < 2 ^ n) by (by apply Z.pow_pos_nonneg).
  replace a with (Z.shiftl (a / 2 ^ n) n).
  - rewrite lor_shiftl_low by lia. by rewrite Z.shiftl_mul_pow2.
  - rewrite Z.shiftl_mul_pow2 by lia. rewrite (Z.div_mod a (2 ^ n)) at 2 by lia. lia.
Qed.

Lemma lwip_htonl_bytes a b c d :
  is_u8 a → is_u8 b → is_u8 c → is_u8 d →
  lwip_htonl (le_num [a; b; c; d]) = le_num [d; c; b; a].
Proof.
  intros Ha Hb Hc Hd. unfold lwip_htonl. set (n := le_num [a; b; c; d]).
  change 255 with (Z.shiftl (Z.ones 8) 0). change 65280 with (Z.shiftl (Z.ones 8) 8).
  change 16711680 with (Z.shiftl (Z.ones 8) 16). change 4278190080 with (Z.shiftl (Z.ones 8) 24).
  rewrite !land_field by lia. rewrite !Z.shiftr_div_pow2, !Z.shiftl_mul_pow2 by lia.
  assert (E : n = a + 256 * b + 65536 * c + 16777216 * d) by (unfold n; simpl; lia).
  change (2 ^ 0) with 1. change (2 ^ 8) with 256. change (2 ^ 16) with 65536. change (2 ^ 24) with 16777216.
  replace (n / 1 mod 256 * 1) with a by (unfold is_u8 in *; Z.to_euclidean_division_equations; lia).
  replace (n / 256 mod 256) with b by (unfold is_u8 in *; Z.to_euclidean_division_equations; lia).
  replace (n / 65536 mod 256) with c by (unfold is_u8 in *; Z.to_euclidean_division_equations; lia).
  replace (n / 16777216 mod 256) with d by (unfold is_u8 in *; Z.to_euclidean_division_equations; lia).
  replace (c * 65536 / 256) with (c * 256) by (Z.to_euclidean_division_equations; lia).
  rewrite Z.div_mul by lia. unfold is_u8 in *.
  rewrite (lor_low _ (b * 256 * 256) 24); [|lia|change (2 ^ 24) with 16777216; Z.to_euclidean_division_equations; lia|lia].
  rewrite (lor_low _ (c * 256) 16); [|lia|change (2 ^ 16) with 65536; Z.to_euclidean_division_equations; lia|lia].
  rewrite (lor_low _ d 8); [|lia|change (2 ^ 8) with 256; Z.to_euclidean_division_equations; lia|lia].
  simpl. rewrite u32_id; unfold is_u32; lia.
Qed.

(** Every 32-bit word is the little-endian value of four octets. *)
Definition le_split (n : Z) : list Z :=
  [n mod 256; n / 256 mod 256; n / 65536 mod 256; n / 16777216 mod 256].

Lemma le_split_bytes n : bytes (le_split n).
Proof. repeat constructor; apply Z.mod_pos_bound; lia. Qed.

Lemma le_num_split n : is_u32 n → le_num (le_split n) = n.
Proof. unfold is_u32. simpl. intros. Z.to_euclidean_division_equations. lia. Qed.

Lemma lwip_htonl_involutive n : is_u32 n → lwip_htonl (lwip_htonl n) = n.
Proof.
  intros Hn. rewrite <- (le_num_split n Hn). pose proof (le_split_bytes n) as Hb.
  unfold le_split in *. rewrite !Forall_cons in Hb. destruct Hb as (? & ? & ? & ? & _).
  rewrite !lwip_htonl_bytes; done.
Qed.

#[export] Hint Resolve lwip_htons_range le_split_bytes : word.
