(* ===== verification/Chksum.v ===== *)
(** * lwip-1.4.1/src/core/ipv4/inet_chksum.c: the Internet checksum *)
From S2P Require Import Prelude LwipDef.
Local Open Scope Z_scope.

(** ** The macros of ipv4/lwip/inet_chksum.h *)
Definition SWAP_BYTES_IN_WORD (w : Z) : Z :=
  Z.lor (Z.shiftl (Z.land w 255) 8) (Z.shiftr (Z.land w 65280) 8).

Definition FOLD_U32T (u : Z) : Z := u32 (Z.shiftr u 16 + Z.land u 65535).

(** ** [lwip_standard_chksum], in its three versions

    The [len] bytes at [dataptr] are a list; of the address only its value is
    used, for the alignment.  A [u16_t] or [u32_t] load is little-endian. *)

(** *** LWIP_CHKSUM_ALGORITHM 1 *)
Fixpoint chksum1_loop (acc : Z) (data : list Z) : Z :=
  match data with
  | a :: b :: data => chksum1_loop (u32 (acc + Z.lor (u16 (Z.shiftl a 8)) b)) data
  | [a] => u32 (acc + u16 (Z.shiftl a 8))
  | [] => acc
  end.

Definition lwip_standard_chksum1 (data : list Z) : Z :=
  let acc := chksum1_loop 0 data in
  let acc := u32 (Z.shiftr acc 16 + Z.land acc 65535) in
  let acc := if negb (Z.land acc 4294901760 =? 0)
             then u32 (Z.shiftr acc 16 + Z.land acc 65535) else acc in
  lwip_htons (u16 acc).

(** *** LWIP_CHKSUM_ALGORITHM 2, the default

    The loop returns the sum and the left-over byte. *)
Fixpoint chksum2_loop (sum : Z) (data : list Z) : Z * option Z :=
  match data with
  | a :: b :: data => chksum2_loop (u32 (sum + le_num [a; b])) data
  | [a] => (sum, Some a)
  | [] => (sum, None)
  end.

(** The end byte goes to [((u8_t * )&t)[0]]: the low byte of [t]. *)
Definition set_low_byte (t : Z) (b : option Z) : Z :=
  match b with Some b => t / 256 * 256 + b | None => t end.

(** Get aligned to u16_t: [((u8_t * )&t)[1] = *pb++; len--]. *)
Definition align_head (odd : bool) (pb : Z) (data : list Z) : Z * Z * list Z :=
  match odd, data with
  | true, b :: data => (b * 256, pb + 1, data)
  | _, _ => (0, pb, data)
  end.

Definition is_odd (addr : Z) : bool := negb (Z.land addr 1 =? 0).

Definition lwip_standard_chksum2 (addr : Z) (data : list Z) : Z :=
  let odd := is_odd addr in
  let '(t, _, data) := align_head odd addr data in
  let '(sum, tail) := chksum2_loop 0 data in
  let t := set_low_byte t tail in
  let sum := u32 (sum + t) in
  let sum := FOLD_U32T sum in
  let sum := FOLD_U32T sum in
  let sum := if odd then SWAP_BYTES_IN_WORD sum else sum in
  u16 sum.

(** *** LWIP_CHKSUM_ALGORITHM 3 *)

(** Adding a 32-bit word with the carry added back. *)
Definition add_carry (sum w : Z) : Z :=
  let tmp := u32 (sum + w) in if tmp <? sum then u32 (tmp + 1) else tmp.

Fixpoint chksum3_loop (sum : Z) (data : list Z) : Z * list Z :=
  match data with
  | a :: b :: c :: d :: e :: f :: g :: h :: data =>
      chksum3_loop (add_carry (add_carry sum (le_num [a; b; c; d])) (le_num [e; f; g; h])) data
  | _ => (sum, data)
  end.

Definition lwip_standard_chksum3 (addr : Z) (data : list Z) : Z :=
  let odd := is_odd addr in
  let '(t, ps, data) := align_head odd addr data in
  let '(sum, data) :=
    match data with
    | a :: b :: rest => if negb (Z.land ps 3 =? 0) then (le_num [a; b], rest) else (0, data)
    | _ => (0, data)
    end in
  let '(sum, data) := chksum3_loop sum data in
  let sum := FOLD_U32T sum in
  let '(sum, tail) := chksum2_loop sum data in
  let t := set_low_byte t tail in
  let sum := u32 (sum + t) in
  let sum := FOLD_U32T sum in
  let sum := FOLD_U32T sum in
  let sum := if odd then SWAP_BYTES_IN_WORD sum else sum in
  u16 sum.

(** [LWIP_CHKSUM] of this configuration. *)
Definition LWIP_CHKSUM : Z → list Z → Z := lwip_standard_chksum2.

Definition inet_chksum (dataptr : Z) (data : list Z) : Z :=
  u16 (Z.lnot (LWIP_CHKSUM dataptr data)).

(** ** Checksums over pbuf chains

    Of a pbuf these functions read [payload] (address and the [len] octets
    there) and [next]: a chain is a list of segments. *)
Record segment := Seg { payload : Z; octets : list Z }.

Definition seg_len (q : segment) : Z := Z.of_nat (length (octets q)).

(** The [for] loop shared by [inet_chksum_pbuf] and [inet_chksum_pseudo]. *)
Fixpoint chain_loop (acc : Z) (swapped : bool) (p : list segment) : Z * bool :=
  match p with
  | [] => (acc, swapped)
  | q :: p =>
      let acc := u32 (acc + LWIP_CHKSUM (payload q) (octets q)) in
      let acc := FOLD_U32T acc in
      if negb (seg_len q mod 2 =? 0)
      then chain_loop (SWAP_BYTES_IN_WORD acc) (negb swapped) p
      else chain_loop acc swapped p
  end.

Definition inet_chksum_pbuf (p : list segment) : Z :=
  let '(acc, swapped) := chain_loop 0 false p in
  let acc := if swapped then SWAP_BYTES_IN_WORD acc else acc in
  u16 (Z.lnot (Z.land acc 65535)).

(** The pseudo header: addresses in network order as stored, protocol and
    length converted. *)
Definition add_pseudo_header (acc src dest proto proto_len : Z) : Z :=
  let acc := u32 (acc + Z.land src 65535) in
  let acc := u32 (acc + Z.land (Z.shiftr src 16) 65535) in
  let acc := u32 (acc + Z.land dest 65535) in
  let acc := u32 (acc + Z.land (Z.shiftr dest 16) 65535) in
  let acc := u32 (acc + lwip_htons (u16 proto)) in
  u32 (acc + lwip_htons proto_len).

Definition inet_chksum_pseudo (p : list segment) (src dest proto proto_len : Z) : Z :=
  let '(acc, swapped) := chain_loop 0 false p in
  let acc := if swapped then SWAP_BYTES_IN_WORD acc else acc in
  let acc := add_pseudo_header acc src dest proto proto_len in
  let acc := FOLD_U32T acc in
  let acc := FOLD_U32T acc in
  u16 (Z.lnot (Z.land acc 65535)).

(** The loop of [inet_chksum_pseudo_partial]; [None] when its assertion
    stops the program. *)
Fixpoint partial_loop (acc : Z) (swapped : bool) (chksum_len : Z) (p : list segment) : option (Z * bool) :=
  match p with
  | [] => Some (acc, swapped)
  | q :: p =>
      if negb (0 <? chksum_len) then Some (acc, swapped) else
      let chklen := if chksum_len <? seg_len q then chksum_len else seg_len q in
      let acc := u32 (acc + LWIP_CHKSUM (payload q) (take (Z.to_nat chklen) (octets q))) in
      let chksum_len := u16 (chksum_len - chklen) in
      if negb (chksum_len <? 32767) then None else
      let acc := FOLD_U32T acc in
      if negb (seg_len q mod 2 =? 0)
      then partial_loop (SWAP_BYTES_IN_WORD acc) (negb swapped) chksum_len p
      else partial_loop acc swapped chksum_len p
  end.

Definition inet_chksum_pseudo_partial (p : list segment)
    (src dest proto proto_len chksum_len : Z) : option Z :=
  match partial_loop 0 false chksum_len p with
  | None => None
  | Some (acc, swapped) =>
      let acc := if swapped then SWAP_BYTES_IN_WORD acc else acc in
      let acc := add_pseudo_header acc src dest proto proto_len in
      let acc := FOLD_U32T acc in
      let acc := FOLD_U32T acc in
      Some (u16 (Z.lnot (Z.land acc 65535)))
  end.

(** [lwip_chksum_copy] (LWIP_CHKSUM_COPY_ALGORITHM 1): the copy lands at
    [dst], whose alignment the sum then sees. *)
Definition lwip_chksum_copy (dst : Z) (src : list Z) : list Z * Z :=
  (src, LWIP_CHKSUM dst src).

(** ** Specification: RFC 1071

    The sum of the 16-bit words of the data (the last one padded with zero)
    in one's-complement arithmetic, i.e. with every carry added back.  Its
    value is the representative in 0..65535 of the sum modulo 65535 that is 0
    for all-zero data only. *)
Fixpoint words (data : list Z) : list Z :=
  match data with
  | a :: b :: data => le_num [a; b] :: words data
  | [a] => [a]
  | [] => []
  end.

Definition ones_add (x y : Z) : Z := if x + y <? 65536 then x + y else x + y - 65535.

Definition rfc1071_sum (data : list Z) : Z := foldl ones_add 0 (words data).

(** ** Congruence modulo 65535 and the canonical representative *)
Definition cong (x y : Z) : Prop := ∃ k, x = y + 65535 * k.

Lemma cong_refl x : cong x x.
Proof. exists 0. lia. Qed.

Lemma cong_sym x y : cong x y → cong y x.
Proof. intros [k ->]. exists (-k). lia. Qed.

Lemma cong_trans x y z : cong x y → cong y z → cong x z.
Proof. intros [k ->] [j ->]. exists (j + k). lia. Qed.

#[export] Instance cong_equivalence : Equivalence cong.
Proof. split; [exact cong_refl|exact cong_sym|exact cong_trans]. Qed.

#[export] Instance cong_add : Proper (cong ==> cong ==> cong) Z.add.
Proof. intros x y [k ->] x' y' [j ->]. exists (k + j). lia. Qed.

#[export] Instance cong_mul_l c : Proper (cong ==> cong) (Z.mul c).
Proof. intros x y [k ->]. exists (c * k). lia. Qed.

Lemma cong_65536 x : cong (65536 * x) x.
Proof. exists x. lia. Qed.

(** [r] is the one's-complement value of [n]. *)
Definition ones_value (r n : Z) : Prop :=
  0 <= r <= 65535 ∧ cong r n ∧ (r = 0 ↔ n = 0).

Lemma ones_value_unique r r' n : ones_value r n → ones_value r' n → r = r'.
Proof.
  intros (Hr & C & Z1) (Hr' & C' & Z2). assert (cong r r') as [k Hk] by (by rewrite C, C').
  assert (k = 0 ∨ k = 1 ∨ k = -1) as [->|[->| ->]] by lia; lia.
Qed.

Lemma ones_value_equiv r n n' : cong n n' → (n = 0 ↔ n' = 0) → ones_value r n → ones_value r n'.
Proof. intros C Z0 (Hr & C' & Z'). split; [done|]. split; [by rewrite C'|tauto]. Qed.

(** Folding the carries of a 32-bit accumulator twice gives its value. *)
Lemma fold_val u : is_u32 u → FOLD_U32T u = u / 65536 + u mod 65536.
Proof.
  intros Hu. unfold FOLD_U32T. change 65535 with (Z.ones 16). rewrite Z.land_ones, Z.shiftr_div_pow2 by lia.
  change (2 ^ 16) with 65536. rewrite u32_id; [done|]. unfold is_u32 in *. Z.to_euclidean_division_equations. lia.
Qed.

Lemma fold_cong u : is_u32 u → cong (FOLD_U32T u) u ∧ (FOLD_U32T u = 0 ↔ u = 0) ∧ 0 <= FOLD_U32T u <= 131070.
Proof.
  intros Hu. rewrite fold_val by done. unfold is_u32 in *. split_and!.
  - exists (- (u / 65536)). Z.to_euclidean_division_equations. lia.
  - Z.to_euclidean_division_equations. lia.
  - Z.to_euclidean_division_equations. lia.
  - Z.to_euclidean_division_equations. lia.
Qed.

Lemma fold_small u : 0 <= u <= 131070 → ones_value (FOLD_U32T u) u.
Proof.
  intros Hu. assert (H32 : is_u32 u) by (unfold is_u32; lia).
  destruct (fold_cong u H32) as (C & Z0 & _). split; [|done].
  rewrite fold_val by done. Z.to_euclidean_division_equations. lia.
Qed.

Lemma fold_twice u : is_u32 u → ones_value (FOLD_U32T (FOLD_U32T u)) u.
Proof.
  intros Hu. destruct (fold_cong u Hu) as (C & Z0 & B).
  eapply ones_value_equiv; [exact C|exact Z0|]. by apply fold_small.
Qed.

(** Swapping the bytes multiplies by 256. *)
Lemma swap_ones w : is_u16 w → ones_value (SWAP_BYTES_IN_WORD w) (256 * w).
Proof.
  intros Hw. unfold SWAP_BYTES_IN_WORD. rewrite swap_bytes_val by done. unfold is_u16 in Hw.
  split_and!; [| |exists (- (w / 256))|]; Z.to_euclidean_division_equations; lia.
Qed.

Lemma ones_value_mul_256 r n : ones_value r n → ones_value (SWAP_BYTES_IN_WORD r) (256 * n).
Proof.
  intros (Hr & C & Z0). eapply ones_value_equiv; [| |apply (swap_ones r)].
  - by rewrite C.
  - lia.
  - unfold is_u16. lia.
Qed.

(** Only the value modulo 65535 of a one's-complement number matters. *)
Lemma ones_value_add r x n y :
  ones_value r n → 0 <= x → 0 <= n → 0 <= y → cong x y → (x = 0 ↔ y = 0) → r + x <= 131070 →
  ones_value (FOLD_U32T (r + x)) (n + y).
Proof.
  intros (Hr & C & Z0) Hx Hn Hy Cx Zx Hb. eapply ones_value_equiv; [| |apply fold_small; lia].
  - by rewrite C, Cx.
  - lia.
Qed.

(** ** The specification is the one's-complement value of the data *)
Lemma pair_ind {A} (P : list A → Prop) :
  P [] → (∀ a, P [a]) → (∀ a b l, P l → P (a :: b :: l)) → ∀ l, P l.
Proof.
  intros H0 H1 H2 l. enough (P l ∧ ∀ a, P (a :: l)) by tauto.
  induction l as [|b l [IH1 IH2]]; split; auto.
Qed.

Fixpoint wsum (data : list Z) : Z :=
  match data with
  | a :: b :: data => le_num [a; b] + wsum data
  | [a] => a
  | [] => 0
  end.

(** The largest sum of [n] octets' words. *)
Definition wsum_max (n : nat) : Z := 65535 * (Z.of_nat n / 2) + 255 * (Z.of_nat n mod 2).

Lemma wsum_max_SS n : wsum_max (S (S n)) = wsum_max n + 65535.
Proof. unfold wsum_max. rewrite !Nat2Z.inj_succ. Z.to_euclidean_division_equations. lia. Qed.

Lemma wsum_value data : bytes data →
  cong (wsum data) (le_num data) ∧ (wsum data = 0 ↔ le_num data = 0)
  ∧ 0 <= wsum data <= wsum_max (length data).
Proof.
  induction data as [|a|a b data IH] using pair_ind; intros H.
  - split; [apply cong_refl|]. split; [done|]. by vm_compute.
  - rewrite Forall_singleton in H. unfold is_u8 in H. cbn [wsum le_num length].
    change (wsum_max 1) with 255. split; [exists 0; lia|lia].
  - rewrite !Forall_cons in H. destruct H as (Ha & Hb & H). destruct (IH H) as (C & Z0 & B).
    unfold is_u8 in *. cbn [wsum le_num length]. rewrite wsum_max_SS.
    pose proof (le_num_nonneg data H).
    split; [|split; lia]. destruct C as [k ->]. exists (k - le_num data). lia.
Qed.

Lemma ones_add_value r x n : ones_value r n → 0 <= x <= 65535 → 0 <= n → ones_value (ones_add r x) (n + x).
Proof.
  intros (Hr & [k C] & Z0) Hx Hn. unfold ones_add. destruct (Z.ltb_spec (r + x) 65536).
  - split; [lia|]. split; [exists k; lia|lia].
  - split; [lia|]. split; [exists (k - 1); lia|lia].
Qed.

Lemma foldl_ones_value data : ∀ r n, bytes data → ones_value r n → 0 <= n →
  ones_value (foldl ones_add r (words data)) (n + wsum data).
Proof.
  induction data as [|a|a b data IH] using pair_ind; intros r n H Hr Hn.
  - simpl. by rewrite Z.add_0_r.
  - rewrite Forall_singleton in H. unfold is_u8 in H. simpl. apply ones_add_value; [done|lia..].
  - rewrite !Forall_cons in H. destruct H as (Ha & Hb & H). unfold is_u8 in *.
    cbn [words foldl wsum]. rewrite Z.add_assoc. apply IH; [done| |simpl; lia].
    apply ones_add_value; [done|simpl; lia..].
Qed.

Lemma rfc1071_value data : bytes data → ones_value (rfc1071_sum data) (le_num data).
Proof.
  intros H. destruct (wsum_value data H) as (C & Z0 & _).
  eapply ones_value_equiv; [exact C|exact Z0|]. apply (foldl_ones_value data 0 0); [done| |lia].
  split_and!; [lia..|apply cong_refl|done].
Qed.

(** ** The three versions compute it *)
Lemma chksum2_loop_spec data : ∀ sum, bytes data →
  0 <= sum → sum + wsum data < 4294967296 →
  ∃ s tail, chksum2_loop sum data = (s, tail)
    ∧ s + from_option id 0 tail = sum + wsum data ∧ 0 <= s
    ∧ 0 <= from_option id 0 tail < 256.
Proof.
  induction data as [|a|a b data IH] using pair_ind; intros sum H Hs Hb.
  - exists sum, None. simpl in *. split_and!; [done|lia..].
  - rewrite Forall_singleton in H. unfold is_u8 in H.
    exists sum, (Some a). simpl in *. split_and!; [done|lia..].
  - rewrite !Forall_cons in H. destruct H as (Ha & Hb' & H). unfold is_u8 in *.
    destruct (wsum_value data H) as (_ & _ & B).
    cbn [chksum2_loop wsum] in *. simpl in Hb. rewrite u32_id by (unfold is_u32; simpl; lia).
    destruct (IH (sum + le_num [a; b])) as (s & tail & E & ? & ? & ?); [done|simpl; lia..|].
    exists s, tail. split_and!; [done|simpl in *; lia..].
Qed.

Lemma wsum_max_le n : Z.of_nat n <= 131072 → wsum_max n <= 4294901760.
Proof. intros H. unfold wsum_max. Z.to_euclidean_division_equations. lia. Qed.

Lemma is_odd_spec addr : is_odd addr = Z.odd addr.
Proof.
  unfold is_odd. change 1 with (Z.ones 1) at 1. rewrite Z.land_ones by lia. change (2 ^ 1) with 2.
  rewrite Zmod_odd. by destruct (Z.odd addr).
Qed.

Lemma u16_ones r n : ones_value r n → u16 r = r.
Proof. intros (Hr & _). apply u16_id. unfold is_u16. lia. Qed.

Lemma shift_byte_cong b n m : cong n m → cong (256 * (n + b * 256)) (b + 256 * m).
Proof. intros [k ->]. exists (b + 256 * k). lia. Qed.

(** The end of versions 2 and 3: [s] is the accumulated sum, [t] holds the
    head byte of an odd buffer. *)
Lemma finish_value (odd : bool) (s : Z) (tail : option Z) (h : Z) (rest : list Z) :
  bytes rest → 0 <= h < 256 → (odd = false → h = 0) → 0 <= s → 0 <= from_option id 0 tail < 256 →
  s + from_option id 0 tail + h * 256 < 4294967296 →
  cong (s + from_option id 0 tail) (le_num rest) → (s + from_option id 0 tail = 0 ↔ le_num rest = 0) →
  let sum := FOLD_U32T (FOLD_U32T (u32 (s + set_low_byte (h * 256) tail))) in
  let r := u16 (if odd then SWAP_BYTES_IN_WORD sum else sum) in
  ones_value r (if odd then h + 256 * le_num rest else le_num rest).
Proof.
  intros Hr Hh Hodd Hs Ht Hb C Z0 sum r. subst sum r. pose proof (le_num_nonneg rest Hr) as Hn.
  replace (s + set_low_byte (h * 256) tail) with (s + from_option id 0 tail + h * 256)
    by (destruct tail; simpl; rewrite ?Z.div_mul by lia; lia).
  rewrite u32_id by (unfold is_u32; lia).
  pose proof (fold_twice (s + from_option id 0 tail + h * 256) ltac:(unfold is_u32; lia)) as F.
  destruct odd.
  - pose proof (ones_value_mul_256 _ _ F) as F'. rewrite (u16_ones _ _ F').
    eapply ones_value_equiv; [by apply shift_byte_cong| |exact F'].
    clear F F' C Hodd. destruct Z0 as [Z1 Z2]. split; intros E.
    { assert (h = 0) by lia. rewrite Z1 by lia. lia. }
    { assert (h = 0) by lia. rewrite Z2 by lia. lia. }
  - specialize (Hodd eq_refl). subst h. rewrite (u16_ones _ _ F).
    rewrite Z.mul_0_l, Z.add_0_r in F |- *. by eapply ones_value_equiv.
Qed.

Lemma chksum2_value addr data :
  bytes data → Z.of_nat (length data) <= 131072 → ones_value (lwip_standard_chksum2 addr data) (le_num data).
Proof.
  intros H Hl. unfold lwip_standard_chksum2. rewrite is_odd_spec.
  destruct (Z.odd addr) eqn:Ho, data as [|h rest]; simpl align_head.
  - vm_compute. split; [split; discriminate|]. split; [by exists 0|done].
  - rewrite Forall_cons in H. destruct H as [Hh H]. destruct (wsum_value rest H) as (C & Z0 & B).
    assert (wsum_max (length rest) + 65280 < 4294967296).
    { simpl in Hl. unfold wsum_max. Z.to_euclidean_division_equations. lia. }
    unfold is_u8 in Hh.
    destruct (chksum2_loop_spec rest 0 H) as (s & tail & -> & E & ? & ?); [lia..|].
    apply (finish_value true); try done; rewrite ?E, ?Z.add_0_l; try lia. done.
  - vm_compute. split; [split; discriminate|]. split; [by exists 0|done].
  - destruct (wsum_value _ H) as (C & Z0 & B). pose proof (wsum_max_le _ Hl).
    destruct (chksum2_loop_spec _ 0 H) as (s & tail & -> & E & ? & ?); [lia..|].
    apply (finish_value false _ _ 0); try done; rewrite ?E, ?Z.add_0_l; try lia. done.
Qed.

(** *** Version 3 *)
Lemma add_carry_spec sum w : is_u32 sum → is_u32 w →
  is_u32 (add_carry sum w) ∧ cong (add_carry sum w) (sum + w) ∧ (add_carry sum w = 0 ↔ sum + w = 0).
Proof.
  unfold is_u32, add_carry. intros Hs Hw. destruct (Z.lt_ge_cases (sum + w) 4294967296).
  - rewrite (u32_id (sum + w)) by (unfold is_u32; lia).
    destruct (Z.ltb_spec (sum + w) sum); [lia|]. split; [lia|]. by split; [exists 0; lia|].
  - assert (E : u32 (sum + w) = sum + w - 4294967296)
      by (unfold u32; Z.to_euclidean_division_equations; lia).
    rewrite E. destruct (Z.ltb_spec (sum + w - 4294967296) sum); [|lia].
    rewrite u32_id by (unfold is_u32; lia). split; [lia|]. split; [exists (-65537); lia|lia].
Qed.

Lemma le_num_u32 a b c d : is_u8 a → is_u8 b → is_u8 c → is_u8 d → is_u32 (le_num [a; b; c; d]).
Proof. unfold is_u8, is_u32. simpl. lia. Qed.

Lemma chksum3_loop_spec n : ∀ data sum, (length data ≤ n)%nat → bytes data → is_u32 sum →
  ∃ s rest, chksum3_loop sum data = (s, rest) ∧ is_u32 s ∧ bytes rest ∧ (length rest ≤ 7)%nat
    ∧ cong (s + le_num rest) (sum + le_num data) ∧ (s + le_num rest = 0 ↔ sum + le_num data = 0).
Proof.
  induction n as [|n IH]; intros data sum Hl H Hs.
  { destruct data; simpl in Hl; [|lia]. exists sum, []. split_and!; try done; simpl; lia. }
  destruct (decide (length data ≤ 7)%nat) as [Hd|Hd].
  { exists sum, data. assert (chksum3_loop sum data = (sum, data)) as ->.
    { do 8 (destruct data as [|? data]; [done|]). simpl in Hd. lia. }
    split_and!; try done; apply Hs. }
  do 8 (destruct data as [|? data]; [simpl in Hd; lia|]).
  rewrite !Forall_cons in H. destruct H as (? & ? & ? & ? & ? & ? & ? & ? & H).
  pose proof (le_num_nonneg data H). cbn [chksum3_loop].
  replace (le_num (z :: z0 :: z1 :: z2 :: z3 :: z4 :: z5 :: z6 :: data)) with
    (le_num [z; z0; z1; z2] + 4294967296 * le_num [z3; z4; z5; z6] + 18446744073709551616 * le_num data)
    by (cbn [le_num]; lia).
  pose proof (le_num_u32 z z0 z1 z2 ltac:(done) ltac:(done) ltac:(done) ltac:(done)) as W1.
  pose proof (le_num_u32 z3 z4 z5 z6 ltac:(done) ltac:(done) ltac:(done) ltac:(done)) as W2.
  generalize dependent (le_num [z; z0; z1; z2]). intros w1 W1.
  generalize dependent (le_num [z3; z4; z5; z6]). intros w2 W2.
  destruct (add_carry_spec sum w1 Hs W1) as (U1 & C1 & N1).
  destruct (add_carry_spec (add_carry sum w1) w2 U1 W2) as (U2 & C2 & N2).
  destruct (IH data _ ltac:(simpl in Hl; lia) H U2) as (s & rest & E & U & B & L & C & N).
  exists s, rest. unfold is_u32 in *.
  split; [done|]. split; [done|]. split; [done|]. split; [done|]. split.
  - rewrite C, C2, C1. exists (- (65537 * w2) - 65537 * 4294967297 * le_num data). lia.
  - rewrite N. lia.
Qed.

Lemma chksum3_value addr data :
  bytes data → ones_value (lwip_standard_chksum3 addr data) (le_num data).
Proof.
  intros H. unfold lwip_standard_chksum3.
  assert (∃ h pb D, align_head (is_odd addr) addr data = (h * 256, pb, D) ∧ bytes D ∧ 0 <= h < 256
    ∧ (is_odd addr = false → h = 0)
    ∧ le_num data = if is_odd addr then h + 256 * le_num D else le_num D)
    as (h & pb & D & -> & HD & Hh & Ho & ->).
  { unfold is_u8 in *. destruct (is_odd addr), data as [|h D]; simpl.
    - exists 0, addr, []. split_and!; try done; simpl; lia.
    - rewrite Forall_cons in H. unfold is_u8 in H. exists h, (addr + 1), D. by naive_solver.
    - exists 0, addr, []. split_and!; try done; simpl; lia.
    - exists 0, addr, (h :: D). split_and!; try done; simpl; lia. }
  clear H data.
  assert (∃ s0 D', match D with
    | a :: b :: rest => if negb (Z.land pb 3 =? 0) then (le_num [a; b], rest) else (0, D)
    | _ => (0, D) end = (s0, D') ∧ is_u32 s0 ∧ bytes D'
    ∧ cong (s0 + le_num D') (le_num D) ∧ (s0 + le_num D' = 0 ↔ le_num D = 0)) as (s0 & D' & -> & Hs0 & HD' & C0 & N0).
  { assert (∃ s0 D', (0, D) = (s0, D') ∧ is_u32 s0 ∧ bytes D'
      ∧ cong (s0 + le_num D') (le_num D) ∧ (s0 + le_num D' = 0 ↔ le_num D = 0)) as Triv.
    { exists 0, D. rewrite Z.add_0_l. unfold is_u32. split_and!; try done; lia. }
    destruct D as [|a [|b D]]; [exact Triv..|]. destruct (negb _); [|exact Triv].
    rewrite !Forall_cons in HD. destruct HD as (Ha & Hb & HD). exists (le_num [a; b]), D.
    pose proof (le_num_nonneg D HD). unfold is_u8, is_u32 in *. cbn [le_num].
    split; [done|]. split; [lia|]. split; [done|]. split; [exists (- le_num D); lia|lia]. }
  destruct (chksum3_loop_spec _ D' s0 (reflexivity _) HD' Hs0) as (s & rest & -> & Us & Br & Lr & C & N).
  destruct (fold_cong s Us) as (C1 & N1 & B1).
  destruct (wsum_value rest Br) as (C2 & N2 & B2).
  assert (wsum_max (length rest) <= 196860).
  { unfold wsum_max. Z.to_euclidean_division_equations. lia. }
  destruct (chksum2_loop_spec rest (FOLD_U32T s) Br) as (s2 & tail & -> & E & ? & ?); [lia..|].
  pose proof (le_num_nonneg rest Br). unfold is_u32 in Us, Hs0. pose proof (le_num_nonneg _ HD').
  apply (finish_value (is_odd addr)); try done; rewrite ?E; [lia|..].
  - by rewrite C1, C2, C, C0.
  - rewrite <- N0, <- N. lia.
Qed.

(** *** Version 1 *)
Fixpoint bsum (data : list Z) : Z :=
  match data with
  | a :: b :: data => (256 * a + b) + bsum data
  | [a] => 256 * a
  | [] => 0
  end.

Lemma bsum_value data : bytes data →
  cong (256 * bsum data) (le_num data) ∧ (bsum data = 0 ↔ le_num data = 0)
  ∧ 0 <= bsum data <= 65535 * Z.of_nat (length data).
Proof.
  induction data as [|a|a b data IH] using pair_ind; intros H.
  - split; [apply cong_refl|]. by split.
  - rewrite Forall_singleton in H. unfold is_u8 in H. cbn [bsum le_num length].
    split; [exists a; lia|lia].
  - rewrite !Forall_cons in H. destruct H as (Ha & Hb & H). destruct (IH H) as (C & Z0 & B).
    unfold is_u8 in *. cbn [bsum le_num length]. pose proof (le_num_nonneg data H).
    split; [|split; lia]. destruct C as [k C]. exists (k + a - le_num data). lia.
Qed.

Lemma chksum1_loop_spec data : ∀ acc, bytes data → 0 <= acc → acc + bsum data < 4294967296 →
  chksum1_loop acc data = acc + bsum data.
Proof.
  induction data as [|a|a b data IH] using pair_ind; intros acc H Ha Hb.
  - simpl. lia.
  - rewrite Forall_singleton in H. unfold is_u8 in H. cbn [chksum1_loop bsum] in *.
    rewrite Z.shiftl_mul_pow2 by lia. rewrite u16_id, u32_id; unfold is_u16, is_u32; lia.
  - rewrite !Forall_cons in H. destruct H as (Ha' & Hb' & H). unfold is_u8 in *.
    destruct (bsum_value data H) as (_ & _ & B). cbn [chksum1_loop bsum] in *.
    rewrite u16_id by (rewrite Z.shiftl_mul_pow2; unfold is_u16; lia).
    rewrite lor_shiftl_low by lia. rewrite u32_id by (unfold is_u32; lia).
    rewrite IH; [lia|done|lia|lia].
Qed.

Lemma fold_if u : 0 <= u <= 131070 →
  (if negb (Z.land u 4294901760 =? 0) then FOLD_U32T u else u) = FOLD_U32T u.
Proof.
  intros Hu. change 4294901760 with (Z.shiftl (Z.ones 16) 16). rewrite land_field by lia.
  change (2 ^ 16) with 65536. destruct (Z.eqb_spec (u / 65536 mod 65536 * 65536) 0) as [E|]; [|done].
  rewrite fold_val by (unfold is_u32; lia). simpl. Z.to_euclidean_division_equations. lia.
Qed.

Lemma chksum1_value data :
  bytes data → Z.of_nat (length data) <= 65535 → ones_value (lwip_standard_chksum1 data) (le_num data).
Proof.
  intros H Hl. destruct (bsum_value data H) as (C & Z0 & B).
  unfold lwip_standard_chksum1. rewrite chksum1_loop_spec by (done || lia). rewrite Z.add_0_l.
  fold (FOLD_U32T (bsum data)). fold (FOLD_U32T (FOLD_U32T (bsum data))).
  assert (U : is_u32 (bsum data)) by (unfold is_u32; lia).
  destruct (fold_cong _ U) as (_ & _ & F). rewrite fold_if by done.
  pose proof (fold_twice _ U) as V. rewrite (u16_ones _ _ V).
  pose proof (ones_value_mul_256 _ _ V) as V'. unfold lwip_htons.
  fold (SWAP_BYTES_IN_WORD (FOLD_U32T (FOLD_U32T (bsum data)))). rewrite (u16_ones _ _ V').
  eapply ones_value_equiv; [exact C|lia|done].
Qed.

(** ** Chains *)
Lemma pow256_cong n : cong (256 ^ Z.of_nat n) (if Nat.odd n then 256 else 1).
Proof.
  induction n as [|n IH]; [apply cong_refl|].
  rewrite Nat2Z.inj_succ, Z.pow_succ_r, IH by lia. rewrite Nat.odd_succ, <- Nat.negb_odd.
  destruct (Nat.odd n); simpl; [exists 1; lia|apply cong_refl].
Qed.

Definition chain_data (p : list segment) : list Z := concat (octets <$> p).

Lemma chain_data_cons q p : chain_data (q :: p) = octets q ++ chain_data p.
Proof. done. Qed.

(** Every segment is a legal pbuf payload: octets, as many as a [u16_t] counts. *)
Definition segments_ok (p : list segment) : Prop :=
  Forall (λ q, bytes (octets q) ∧ seg_len q <= 65535) p.

(** The value of the accumulator once data [D] went in: byte-swapped when an
    odd number of octets did. *)
Definition swapped_num (swapped : bool) (D : list Z) : Z :=
  if swapped then 256 * le_num D else le_num D.

Lemma odd_of_nat n : Z.odd (Z.of_nat n) = Nat.odd n.
Proof.
  induction n as [|n IH]; [done|]. rewrite Nat2Z.inj_succ, Z.odd_succ, <- Z.negb_odd, IH.
  by rewrite Nat.odd_succ, <- Nat.negb_odd.
Qed.

Lemma seg_odd q : negb (seg_len q mod 2 =? 0) = Nat.odd (length (octets q)).
Proof. unfold seg_len. rewrite Zmod_odd, odd_of_nat. by destruct (Nat.odd _). Qed.

(** One iteration up to the fold. *)
Lemma chain_step acc sw D addr d :
  bytes D → bytes d → Z.of_nat (length d) <= 65535 → sw = Nat.odd (length D) →
  ones_value acc (swapped_num sw D) →
  ones_value (FOLD_U32T (u32 (acc + LWIP_CHKSUM addr d))) (swapped_num sw (D ++ d)).
Proof.
  intros HD Hd Hl Hsw HV. pose proof (chksum2_value addr d Hd ltac:(lia)) as Hc.
  pose proof HV as ((B1 & B2) & _). pose proof Hc as ((B3 & B4) & C & N). fold LWIP_CHKSUM in *.
  rewrite u32_id by (unfold is_u32; lia).
  pose proof (le_num_nonneg D HD). pose proof (le_num_nonneg d Hd).
  assert (P0 : 0 < 256 ^ Z.of_nat (length D)) by (apply Z.pow_pos_nonneg; lia).
  pose proof (pow256_cong (length D)) as P. rewrite <- Hsw in P.
  eapply ones_value_equiv; [| |apply (ones_value_add _ _ _ (le_num d) HV); try done; try lia].
  - unfold swapped_num. rewrite le_num_app. destruct P as [k ->].
    destruct sw; [exists (- (256 * k * le_num d) - le_num d)|exists (- (k * le_num d))]; lia.
  - unfold swapped_num. rewrite le_num_app. destruct sw; nia.
  - unfold swapped_num. destruct sw; lia.
Qed.

Lemma swap_step acc sw D : ones_value acc (swapped_num sw D) →
  ones_value (SWAP_BYTES_IN_WORD acc) (swapped_num (negb sw) D).
Proof.
  unfold swapped_num. intros V%ones_value_mul_256. destruct sw; cbn [negb] in *; [|done].
  refine (ones_value_equiv _ _ _ _ _ V); [exists (le_num D)|]; lia.
Qed.

Lemma chain_loop_spec p : ∀ acc sw D, segments_ok p → bytes D → sw = Nat.odd (length D) →
  ones_value acc (swapped_num sw D) →
  ∃ acc' sw', chain_loop acc sw p = (acc', sw') ∧ ones_value acc' (swapped_num sw' (D ++ chain_data p)).
Proof.
  induction p as [|q p IH]; intros acc sw D H HD Hsw V.
  - exists acc, sw. by rewrite app_nil_r.
  - apply Forall_cons in H as [[Hq Hl] H]. cbn [chain_loop]. rewrite seg_odd.
    pose proof (chain_step _ _ _ (payload q) _ HD Hq Hl Hsw V) as V'.
    replace (D ++ chain_data (q :: p)) with ((D ++ octets q) ++ chain_data p)
      by (unfold chain_data; simpl; by rewrite <- app_assoc).
    assert (bytes (D ++ octets q)) by (by apply Forall_app).
    assert (Ho : Nat.odd (length (D ++ octets q)) = xorb sw (Nat.odd (length (octets q)))).
    { rewrite length_app, Nat.odd_add. by rewrite Hsw. }
    destruct (Nat.odd (length (octets q))); (apply IH; [done..| |]).
    + by destruct sw.
    + by apply swap_step.
    + by destruct sw.
    + done.
Qed.

Lemma unswap_value acc sw D : ones_value acc (swapped_num sw D) →
  ones_value (if sw then SWAP_BYTES_IN_WORD acc else acc) (le_num D).
Proof. intros V. destruct sw; [|done]. by apply (swap_step _ true). Qed.

Lemma chain_value p : segments_ok p →
  ∃ acc, (let '(acc, sw) := chain_loop 0 false p in if sw then SWAP_BYTES_IN_WORD acc else acc) = acc
    ∧ ones_value acc (le_num (chain_data p)).
Proof.
  intros H. destruct (chain_loop_spec p 0 false [] H) as (acc & sw & -> & V); [constructor|done|..].
  { split; [lia|]. split; [apply cong_refl|done]. }
  eexists. split; [done|]. by apply unswap_value.
Qed.

(** The complement stored in the header. *)
Lemma complement_value r : 0 <= r <= 65535 → u16 (Z.lnot r) = 65535 - r.
Proof. intros H. unfold u16, Z.lnot. Z.to_euclidean_division_equations. lia. Qed.

Lemma complement_mask r : 0 <= r <= 65535 → u16 (Z.lnot (Z.land r 65535)) = 65535 - r.
Proof.
  intros H. change 65535 with (Z.ones 16) at 1. rewrite Z.land_ones by lia. change (2 ^ 16) with 65536.
  rewrite Z.mod_small by lia. by apply complement_value.
Qed.

Lemma segments_bytes p : segments_ok p → bytes (chain_data p).
Proof.
  induction 1 as [|q p [Hq _] _ IH]; [constructor|]. unfold chain_data in *. simpl.
  apply Forall_app. done.
Qed.

(** The twelve octets of the pseudo header of RFC 793/768. *)
Definition pseudo_octets (src dest proto proto_len : Z) : list Z :=
  le_split src ++ le_split dest ++ [0; proto] ++ [proto_len / 256; proto_len mod 256].

Lemma pseudo_bytes src dest proto proto_len :
  is_u8 proto → is_u16 proto_len → bytes (pseudo_octets src dest proto proto_len).
Proof.
  intros Hp Hl. unfold pseudo_octets. apply Forall_app. split; [auto with word|].
  apply Forall_app. split; [auto with word|]. unfold is_u16, is_u8 in *.
  simpl. rewrite !Forall_cons. split_and!; try lia; try constructor;
    Z.to_euclidean_division_equations; lia.
Qed.

Lemma word_halves n : is_u32 n →
  Z.land n 65535 = n mod 65536 ∧ Z.land (Z.shiftr n 16) 65535 = n / 65536.
Proof.
  intros Hn. change 65535 with (Z.ones 16). rewrite !Z.land_ones, Z.shiftr_div_pow2 by lia.
  change (2 ^ 16) with 65536. split; [done|]. apply Z.mod_small.
  unfold is_u32 in *. Z.to_euclidean_division_equations. lia.
Qed.

Lemma pseudo_sum acc src dest proto proto_len :
  0 <= acc <= 65535 → is_u32 src → is_u32 dest → is_u8 proto → is_u16 proto_len →
  ∃ s, add_pseudo_header acc src dest proto proto_len = acc + s ∧ 0 <= s <= 6 * 65535
    ∧ cong s (le_num (pseudo_octets src dest proto proto_len))
    ∧ (s = 0 ↔ le_num (pseudo_octets src dest proto proto_len) = 0).
Proof.
  intros Ha Hs Hd Hp Hl. unfold add_pseudo_header.
  destruct (word_halves src Hs) as [-> ->], (word_halves dest Hd) as [-> ->].
  rewrite (lwip_htons_val (u16 proto)) by auto with word. rewrite (lwip_htons_val proto_len) by done.
  rewrite (u16_id proto) by (unfold is_u8, is_u16 in *; lia).
  exists (src mod 65536 + src / 65536 + dest mod 65536 + dest / 65536
    + (proto mod 256 * 256 + proto / 256) + (proto_len mod 256 * 256 + proto_len / 256)).
  unfold is_u32, is_u8, is_u16 in *.
  assert (0 <= src / 65536 < 65536) by (Z.to_euclidean_division_equations; lia).
  assert (0 <= dest / 65536 < 65536) by (Z.to_euclidean_division_equations; lia).
  assert (0 <= src mod 65536 < 65536) by (Z.to_euclidean_division_equations; lia).
  assert (0 <= dest mod 65536 < 65536) by (Z.to_euclidean_division_equations; lia).
  rewrite (Z.mod_small proto), (Z.div_small proto) by lia.
  assert (0 <= proto_len / 256 < 256) by (Z.to_euclidean_division_equations; lia).
  assert (0 <= proto_len mod 256 < 256) by (Z.to_euclidean_division_equations; lia).
  split; [|split; [lia|]].
  { rewrite (u32_id (acc + src mod 65536)) by (unfold is_u32; lia).
    rewrite (u32_id (_ + src / 65536)) by (unfold is_u32; lia).
    rewrite (u32_id (_ + dest mod 65536)) by (unfold is_u32; lia).
    rewrite (u32_id (_ + dest / 65536)) by (unfold is_u32; lia).
    rewrite (u32_id (_ + (proto * 256 + 0))) by (unfold is_u32; lia).
    rewrite u32_id by (unfold is_u32; lia). lia. }
  unfold pseudo_octets. rewrite !le_num_app, !le_num_split by (unfold is_u32; lia).
  change (256 ^ Z.of_nat (length (le_split src))) with 4294967296.
  change (256 ^ Z.of_nat (length (le_split dest))) with 4294967296.
  change (256 ^ Z.of_nat (length [0; proto])) with 65536. cbn [le_num].
  pose proof (Z.div_mod src 65536 ltac:(done)). pose proof (Z.div_mod dest 65536 ltac:(done)).
  split; [|lia]. apply cong_sym.
  exists (src / 65536 + 65537 * dest + dest / 65536 + 65537 * 4294967297 * (256 * proto)
    + 18447025552981295105 * (proto_len / 256 + 256 * (proto_len mod 256))). lia.
Qed.

Lemma finish_pseudo acc src dest proto proto_len data :
  bytes data → ones_value acc (le_num data) →
  is_u32 src → is_u32 dest → is_u8 proto → is_u16 proto_len →
  u16 (Z.lnot (Z.land (FOLD_U32T (FOLD_U32T (add_pseudo_header acc src dest proto proto_len))) 65535))
  = 65535 - rfc1071_sum (pseudo_octets src dest proto proto_len ++ data).
Proof.
  intros Hd V Hs Hde Hp Hl. pose proof V as (B & C & N).
  destruct (pseudo_sum acc src dest proto proto_len B Hs Hde Hp Hl) as (s & -> & Bs & Cs & Ns).
  pose proof (pseudo_bytes src dest _ _ Hp Hl) as Hps.
  pose proof (fold_twice (acc + s) ltac:(unfold is_u32; lia)) as F.
  rewrite complement_mask by apply F. f_equal.
  eapply ones_value_unique; [|apply rfc1071_value; by apply Forall_app].
  refine (ones_value_equiv _ _ _ _ _ F); rewrite le_num_app.
  - rewrite C, Cs. change (length (pseudo_octets src dest proto proto_len)) with 12%nat.
    change (256 ^ Z.of_nat 12) with 79228162514264337593543950336.
    exists (- 1208944266640182156001281 * le_num data). lia.
  - pose proof (le_num_nonneg _ Hd). pose proof (le_num_nonneg _ Hps).
    change (256 ^ Z.of_nat (length (pseudo_octets src dest proto proto_len))) with 79228162514264337593543950336.
    lia.
Qed.

Lemma chain_loop_pair p : segments_ok p →
  ∃ acc sw, chain_loop 0 false p = (acc, sw)
    ∧ ones_value (if sw then SWAP_BYTES_IN_WORD acc else acc) (le_num (chain_data p)).
Proof.
  intros H. destruct (chain_loop_spec p 0 false [] H) as (acc & sw & E & V); [constructor|done|..].
  { split; [lia|]. split; [apply cong_refl|done]. }
  exists acc, sw. split; [done|]. by apply unswap_value.
Qed.

(** One iteration of the partial loop on the part [d] of the segment that is
    still to be summed. *)
Lemma partial_loop_spec p : ∀ acc sw D n, segments_ok p → bytes D → sw = Nat.odd (length D) →
  0 <= n < 32767 → n <= Z.of_nat (length (chain_data p)) →
  ones_value acc (swapped_num sw D) →
  ∃ acc' sw', partial_loop acc sw n p = Some (acc', sw')
    ∧ ones_value acc' (swapped_num sw' (D ++ take (Z.to_nat n) (chain_data p))).
Proof.
  induction p as [|q p IH]; intros acc sw D n H HD Hsw Hn Hle V.
  { exists acc, sw. change (chain_data []) with (@nil Z). by rewrite take_nil, app_nil_r. }
  apply Forall_cons in H as [[Hq Hl] H]. cbn [partial_loop].
  destruct (Z.ltb_spec 0 n) as [Hn0|]; simpl negb; cbn match.
  2:{ exists acc, sw. replace (Z.to_nat n) with 0%nat by lia. rewrite take_0, app_nil_r. done. }
  set (k := if n <? seg_len q then n else seg_len q).
  assert (Hk : k = Z.min n (seg_len q)) by (unfold k; destruct (Z.ltb_spec n (seg_len q)); lia).
  rewrite Hk. clear k Hk. unfold seg_len in *. rewrite u16_id by (unfold is_u16; lia).
  destruct (Z.ltb_spec (n - Z.min n (Z.of_nat (length (octets q)))) 32767); [|lia]. cbn [negb].
  set (d := take (Z.to_nat (Z.min n (Z.of_nat (length (octets q))))) (octets q)).
  assert (Hd : bytes d) by (by apply Forall_take).
  pose proof (chain_step _ _ _ (payload q) d HD Hd ltac:(unfold d; rewrite length_take; lia) Hsw V) as V'.
  assert (Hcat : take (Z.to_nat n) (chain_data (q :: p)) =
    d ++ take (Z.to_nat (n - Z.min n (Z.of_nat (length (octets q))))) (chain_data p)).
  { rewrite chain_data_cons, take_app. unfold d. f_equal; [|f_equal; lia].
    destruct (Z.min_spec n (Z.of_nat (length (octets q)))) as [[? ->]|[? ->]]; [done|].
    rewrite !take_ge by lia. done. }
  fold (seg_len q). rewrite seg_odd, Hcat, app_assoc.
  assert (HDd : bytes (D ++ d)) by (by apply Forall_app).
  destruct (Z.le_gt_cases n (Z.of_nat (length (octets q)))) as [Hlast|Hmore].
  - replace (n - Z.min n (seg_len q)) with 0 by (unfold seg_len; lia).
    replace (n - Z.min n (Z.of_nat (length (octets q)))) with 0 by lia. rewrite take_0, app_nil_r.
    assert (Hstop : ∀ a s, partial_loop a s 0 p = Some (a, s)) by (by destruct p).
    destruct (Nat.odd (length (octets q))); rewrite Hstop; (eexists _, _; split; [done|]);
      [by apply swap_step|exact V'].
  - assert (d = octets q) as Hdq by (unfold d; apply take_ge; lia).
    assert (Ho : Nat.odd (length (D ++ d)) = xorb sw (Nat.odd (length (octets q)))).
    { rewrite length_app, Nat.odd_add, Hdq. by rewrite Hsw. }
    assert (Z.of_nat (length (chain_data (q :: p))) =
      Z.of_nat (length (octets q)) + Z.of_nat (length (chain_data p))) as Hlen.
    { rewrite chain_data_cons, length_app. lia. }
    unfold seg_len in Hle. fold (seg_len q).
    destruct (Nat.odd (length (octets q)));
      (apply IH; [done|done| |unfold seg_len in *; lia|unfold seg_len in *; lia|]).
    + by destruct sw.
    + by apply swap_step.
    + by destruct sw.
    + done.
Qed.

(** ** Theorems *)

(** C21.  The three alternative implementations of [lwip_standard_chksum] are
    one and the same function of the data, whatever the alignment of the
    buffer: the RFC 1071 one's-complement sum; version 1 for any length a
    [u16_t] can hold, version 2 up to the documented 0x20000 octets, version 3
    for any length. *)
Theorem chksum_versions_agree addr data :
  bytes data →
  lwip_standard_chksum3 addr data = rfc1071_sum data
  ∧ (Z.of_nat (length data) <= 131072 → lwip_standard_chksum2 addr data = rfc1071_sum data)
  ∧ (Z.of_nat (length data) <= 65535 → lwip_standard_chksum1 data = rfc1071_sum data).
Proof.
  intros H. pose proof (rfc1071_value data H) as R. split_and!; intros.
  - by eapply ones_value_unique; [apply chksum3_value|].
  - by eapply ones_value_unique; [apply chksum2_value|].
  - by eapply ones_value_unique; [apply chksum1_value|].
Qed.

(** C28.  The checksum of a pbuf chain is the complement of the RFC 1071 sum of
    the concatenated data: how the packet is cut into pbufs (odd-length
    pieces included) and how the pieces are aligned makes no difference.  The
    UDP/TCP checksum is that of the pseudo header followed by the data. *)
Theorem inet_chksum_chain_flat p src dest proto proto_len :
  segments_ok p → is_u32 src → is_u32 dest → is_u8 proto → is_u16 proto_len →
  inet_chksum_pbuf p = 65535 - rfc1071_sum (chain_data p)
  ∧ inet_chksum_pseudo p src dest proto proto_len
    = 65535 - rfc1071_sum (pseudo_octets src dest proto proto_len ++ chain_data p).
Proof.
  intros H Hs Hd Hp Hl. destruct (chain_loop_pair p H) as (acc & sw & E & V).
  pose proof (segments_bytes p H) as Hb. unfold inet_chksum_pbuf, inet_chksum_pseudo. rewrite E. split.
  - rewrite complement_mask by apply V. f_equal. eapply ones_value_unique; [exact V|].
    by apply rfc1071_value.
  - by apply finish_pseudo.
Qed.

(**  The partial checksum (UDP-Lite) covers exactly the first
    [chksum_len] octets of the chain, for every length below 0x7fff; the
    leftover assertion of the loop cannot fire then. *)
Theorem inet_chksum_partial_prefix p src dest proto proto_len chksum_len :
  segments_ok p → is_u32 src → is_u32 dest → is_u8 proto → is_u16 proto_len →
  0 <= chksum_len < 32767 → chksum_len <= Z.of_nat (length (chain_data p)) →
  inet_chksum_pseudo_partial p src dest proto proto_len chksum_len
  = Some (65535 - rfc1071_sum (pseudo_octets src dest proto proto_len
                                ++ take (Z.to_nat chksum_len) (chain_data p))).
Proof.
  intros H Hs Hd Hp Hl Hn Hle.
  destruct (partial_loop_spec p 0 false [] chksum_len H) as (acc & sw & E & V); [constructor|done..| |].
  { split; [lia|]. split; [apply cong_refl|done]. }
  unfold inet_chksum_pseudo_partial. rewrite E. f_equal. apply finish_pseudo; [| |done..].
  - by apply Forall_take, segments_bytes.
  - by apply (unswap_value _ _ ([] ++ _)).
Qed.

(**  What the receiver checks: a block whose checksum field (two octets at
    an even offset) was zero when [inet_chksum] ran and holds the result
    afterwards has checksum 0, at any other buffer alignment too. *)
Theorem inet_chksum_verifies addr addr' pre post :
  bytes pre → bytes post → Nat.even (length pre) = true →
  Z.of_nat (length (pre ++ [0; 0] ++ post)) <= 65535 →
  let c := inet_chksum addr (pre ++ [0; 0] ++ post) in
  inet_chksum addr' (pre ++ [c mod 256; c / 256] ++ post) = 0.
Proof.
  intros Hpre Hpost He Hlen c.
  assert (H0 : bytes (pre ++ [0; 0] ++ post)).
  { rewrite !Forall_app. split_and!; [done| |done]. repeat constructor; lia. }
  pose proof (chksum2_value addr _ H0 ltac:(lia)) as V. fold LWIP_CHKSUM in V.
  pose proof V as (B & C & N).
  assert (Hc : c = 65535 - LWIP_CHKSUM addr (pre ++ [0; 0] ++ post))
    by (unfold c, inet_chksum; apply complement_value, B).
  clearbody c. assert (Bc : 0 <= c <= 65535) by lia.
  assert (H1 : bytes (pre ++ [c mod 256; c / 256] ++ post)).
  { rewrite !Forall_app. split_and!; [done| |done].
    repeat constructor; Z.to_euclidean_division_equations; lia. }
  unfold inet_chksum. assert (V1 : ones_value (LWIP_CHKSUM addr' (pre ++ [c mod 256; c / 256] ++ post)) 65535).
  { pose proof (chksum2_value addr' _ H1 ltac:(rewrite !length_app in *; simpl in *; lia)) as V1.
    fold LWIP_CHKSUM in V1. rewrite !le_num_app in *. cbn [le_num length] in *.
    pose proof (Z.div_mod c 256 ltac:(done)) as Ec.
    replace (c mod 256 + 256 * (c / 256 + 256 * 0)) with c in V1 by lia.
    pose proof (pow256_cong (length pre)) as [k P]. rewrite <- Nat.negb_even, He in P. simpl in P.
    rewrite P in *. pose proof (le_num_nonneg pre Hpre). pose proof (le_num_nonneg post Hpost).
    assert (0 <= k) by (pose proof (Z.pow_pos_nonneg 256 (Z.of_nat (length pre))); lia).
    refine (ones_value_equiv _ _ _ _ _ V1).
    - destruct C as [j C]. rewrite Hc at 1.
      exists (k * c - j). lia.
    - split; [|lia]. intros E. destruct (Z.eq_dec c 0) as [->|]; [|nia]. nia. }
  destruct V1 as (B1 & [j C1] & N1). rewrite complement_value by lia. lia.
Qed.

(** ** Witnesses: an IPv4 header and a chain with an odd-length first pbuf *)
Definition demo_header : list Z :=
  [69; 0; 0; 60; 28; 70; 64; 0; 64; 6; 0; 0; 172; 16; 10; 99; 172; 16; 10; 12].
Definition demo_chain : list segment :=
  [Seg 1001 (take 7 demo_header); Seg 2000 (drop 7 demo_header)].

Ltac solve_bytes := repeat (constructor; [unfold is_u8; lia|]); constructor.

Lemma demo_chain_ok : segments_ok demo_chain.
Proof.
  repeat constructor; simpl; try (unfold is_u8; lia); unfold seg_len; simpl; lia.
Qed.

Lemma chksum_versions_agree_witness :
  lwip_standard_chksum3 1003 demo_header = rfc1071_sum demo_header
  ∧ lwip_standard_chksum2 1003 demo_header = 6478
  ∧ lwip_standard_chksum1 demo_header = rfc1071_sum demo_header.
Proof.
  destruct (chksum_versions_agree 1003 demo_header) as (H3 & H2 & H1); [solve_bytes|].
  split; [exact H3|]. split.
  - rewrite H2 by (simpl; lia). reflexivity.
  - apply H1. simpl. lia.
Defined.

Lemma inet_chksum_chain_flat_witness :
  inet_chksum_pbuf demo_chain = 59057
  ∧ inet_chksum_pseudo demo_chain 16885952 33663168 6 20
    = 65535 - rfc1071_sum (pseudo_octets 16885952 33663168 6 20 ++ demo_header).
Proof.
  destruct (inet_chksum_chain_flat demo_chain 16885952 33663168 6 20) as [H1 H2];
    [exact demo_chain_ok|unfold is_u32; lia|unfold is_u32; lia|unfold is_u8; lia|unfold is_u16; lia|].
  split; [rewrite H1; reflexivity|exact H2].
Defined.

Lemma inet_chksum_partial_prefix_witness :
  inet_chksum_pseudo_partial demo_chain 16885952 33663168 136 20 9
  = Some (65535 - rfc1071_sum (pseudo_octets 16885952 33663168 136 20 ++ take 9 demo_header)).
Proof.
  rewrite (inet_chksum_partial_prefix demo_chain 16885952 33663168 136 20 9); [reflexivity|exact demo_chain_ok|..].
  - unfold is_u32; lia.
  - unfold is_u32; lia.
  - unfold is_u8; lia.
  - unfold is_u16; lia.
  - lia.
  - simpl. lia.
Defined.

Lemma inet_chksum_verifies_witness :
  inet_chksum 2001 (take 10 demo_header ++ [177; 230] ++ drop 12 demo_header) = 0.
Proof.
  exact (inet_chksum_verifies 1000 2001 (take 10 demo_header) (drop 12 demo_header)
    ltac:(solve_bytes) ltac:(solve_bytes) eq_refl ltac:(simpl; lia)).
Defined.
