(* ===== verification/Memp.v ===== *)
(** * lwip-1.4.1/src/core/memp.c: pools of fixed-size elements

    The pools of this configuration (include/lwip/memp_std.h): one memory for
    all of them (MEMP_SEPARATE_POOLS 0), no overflow and sanity checks.  The
    [next] pointers, kept in the first word of a free element, are a store
    indexed by the element's address; NULL is 0.  The sizes of the elements
    depend on the compiler's layout of the structures, and are a parameter;
    those of the two pbuf pools are fixed by pbuf.h.  The statistics counters
    are left out. *)
From S2P Require Import Prelude.
Local Open Scope Z_scope.

Inductive memp_t :=
  | MEMP_RAW_PCB | MEMP_UDP_PCB | MEMP_TCP_PCB | MEMP_TCP_PCB_LISTEN | MEMP_TCP_SEG
  | MEMP_REASSDATA | MEMP_FRAG_PBUF | MEMP_SYS_TIMEOUT | MEMP_PBUF | MEMP_PBUF_POOL.

#[export] Instance memp_t_eq_dec : EqDecision memp_t.
Proof. solve_decision. Defined.

Definition all_pools : list memp_t :=
  [MEMP_RAW_PCB; MEMP_UDP_PCB; MEMP_TCP_PCB; MEMP_TCP_PCB_LISTEN; MEMP_TCP_SEG;
   MEMP_REASSDATA; MEMP_FRAG_PBUF; MEMP_SYS_TIMEOUT; MEMP_PBUF; MEMP_PBUF_POOL].

Definition memp_num (k : memp_t) : nat :=
  match k with
  | MEMP_RAW_PCB => 4 | MEMP_UDP_PCB => 4 | MEMP_TCP_PCB => 5 | MEMP_TCP_PCB_LISTEN => 8
  | MEMP_TCP_SEG => 16 | MEMP_REASSDATA => 5 | MEMP_FRAG_PBUF => 15 | MEMP_SYS_TIMEOUT => 3
  | MEMP_PBUF => 16 | MEMP_PBUF_POOL => 16
  end.

Record memp_state := MkMemp { memp_tab : memp_t → Z; mnext : gmap Z Z }.

Implicit Types (st : memp_state) (k : memp_t) (l : list Z) (live : gmap Z memp_t).

Definition set_tab k (p : Z) st : memp_state :=
  MkMemp (λ j, if decide (j = k) then p else memp_tab st j) (mnext st).

(** [memp->next = memp_tab[type]; memp_tab[type] = memp] *)
Definition push k (p : Z) st : memp_state :=
  set_tab k p (MkMemp (memp_tab st) (<[p := memp_tab st k]> (mnext st))).

Definition memp_malloc k st : option (memp_state * Z) :=
  let memp := memp_tab st k in
  if negb (memp =? 0) then
    n ← mnext st !! memp;
    let st := set_tab k n st in
    _ ← lwip_assert (memp mod 4 =? 0);
    Some (st, memp)
  else Some (st, 0).

Definition memp_free k (mem : Z) st : option memp_state :=
  if mem =? 0 then Some st else
  _ ← lwip_assert (mem mod 4 =? 0);
  Some (push k mem st).

Section init.
Context (sizeof_element : memp_t → Z).

Definition memp_sizes k : Z := (sizeof_element k + 3) / 4 * 4.

(** The elements of one pool, linked from [memp] on; the address behind them. *)
Fixpoint init_pool (n : nat) k (memp : Z) st : memp_state * Z :=
  match n with
  | O => (st, memp)
  | S n => init_pool n k (memp + memp_sizes k) (push k memp st)
  end.

Fixpoint init_pools (ks : list memp_t) (memp : Z) st : memp_state :=
  match ks with
  | [] => st
  | k :: ks => let '(st, memp) := init_pool (memp_num k) k memp (set_tab k 0 st) in init_pools ks memp st
  end.

Definition memp_init (memp_memory : Z) : memp_state :=
  init_pools all_pools ((memp_memory + 3) / 4 * 4) (MkMemp (λ _, 0) ∅).
End init.

(** ** Each pool is a stack of its free elements *)

(** The list that starts at [p]. *)
Fixpoint free_list (m : gmap Z Z) (p : Z) l : Prop :=
  match l with
  | [] => p = 0
  | x :: l => p = x ∧ x ≠ 0 ∧ ∃ n, m !! x = Some n ∧ free_list m n l
  end.

(** The pools hold the free elements [free], out of the elements [elems]. *)
Record refines (elems free : memp_t → list Z) st : Prop := {
  ref_list k : free_list (mnext st) (memp_tab st k) (free k);
  ref_nodup k : NoDup (free k);
  ref_elems k p : p ∈ free k → p ∈ elems k }.

(** The elements of the pools are aligned and do not overlap. *)
Record elems_ok (size : memp_t → Z) (elems : memp_t → list Z) : Prop := {
  el_aligned k p : p ∈ elems k → p mod 4 = 0 ∧ 0 < p;
  el_apart k j p q : p ∈ elems k → q ∈ elems j → (k = j ∧ p = q) ∨ p + size k <= q ∨ q + size j <= p;
  el_size k : 0 < size k;
  el_nodup k : NoDup (elems k) }.

Lemma el_disjoint size elems k j p : elems_ok size elems → p ∈ elems k → p ∈ elems j → k = j.
Proof.
  intros O Hk Hj. pose proof (el_size _ _ O k). pose proof (el_size _ _ O j).
  destruct (el_apart _ _ O k j p p Hk Hj) as [[? _]|?]; [done|lia].
Qed.

Lemma free_list_frame m m' l : ∀ p, (∀ x, x ∈ l → m' !! x = m !! x) → free_list m p l → free_list m' p l.
Proof.
  induction l as [|x l IH]; intros p Hf; cbn; [done|]. intros (-> & Hx & n & Hn & F). split; [done|]. split; [done|].
  exists n. rewrite Hf by set_solver. split; [done|]. apply IH; [|done]. intros y Hy. apply Hf. set_solver.
Qed.

Lemma refines_ext elems free free' st : (∀ k, free k = free' k) → refines elems free st → refines elems free' st.
Proof. intros E [R1 R2 R3]. split; intros k; rewrite <- (E k); auto. Qed.

Definition set_free (free : memp_t → list Z) k l : memp_t → list Z := λ j, if decide (j = k) then l else free j.

Lemma memp_malloc_refines size elems free st k : elems_ok size elems → refines elems free st →
  match free k with
  | [] => memp_malloc k st = Some (st, 0)
  | p :: l => ∃ st', memp_malloc k st = Some (st', p) ∧ refines elems (set_free free k l) st'
  end.
Proof.
  intros O [R1 R2 R3]. unfold memp_malloc. specialize (R1 k) as Rk. specialize (R2 k) as Nk. specialize (R3 k) as Ek.
  destruct (free k) as [|p l] eqn:Ef; cbn in Rk.
  - by rewrite Rk.
  - destruct Rk as (-> & Hp & n & Hn & F). rewrite (proj2 (Z.eqb_neq p 0)) by done. cbn [negb]. rewrite Hn.
    cbn [mbind option_bind]. rewrite (proj2 (Z.eqb_eq (p mod 4) 0)) by (apply (el_aligned _ _ O k), Ek; set_solver). cbn.
    eexists. split; [done|]. apply NoDup_cons in Nk as [? ?]. split; intros j; cbn; unfold set_free; case_decide; subst; auto.
    intros q Hq. apply Ek. set_solver.
Qed.

Lemma memp_free_refines size elems free st k p : elems_ok size elems → refines elems free st →
  p ∈ elems k → p ∉ free k →
  ∃ st', memp_free k p st = Some st' ∧ refines elems (set_free free k (p :: free k)) st'.
Proof.
  intros O [R1 R2 R3] Hp Hf. destruct (el_aligned _ _ O k p Hp) as [Hm Hpos]. unfold memp_free.
  rewrite (proj2 (Z.eqb_neq p 0)) by lia. rewrite (proj2 (Z.eqb_eq (p mod 4) 0)) by done. cbn [lwip_assert mbind option_bind].
  eexists. split; [done|].
  assert (Fr : ∀ j, free_list (<[p := memp_tab st k]> (mnext st)) (memp_tab st j) (free j)).
  { intros j. eapply free_list_frame; [|apply R1]. intros x Hx. apply lookup_insert_ne. intros <-.
    destruct (el_disjoint _ _ k j p O Hp (R3 _ _ Hx)). done. }
  split; intros j; cbn; unfold set_free; case_decide; subst; try done.
  - cbn. split; [done|]. split; [lia|]. exists (memp_tab st k). rewrite lookup_insert_eq. done.
  - by apply NoDup_cons.
  - intros q [->|Hq]%elem_of_cons; [done|by apply R3].
  - intros q. apply R3.
Qed.

(** ** The layout [memp_init] gives the memory *)
Fixpoint elems_from (n : nat) (size p : Z) : list Z :=
  match n with O => [] | S n => p :: elems_from n size (p + size) end.

Lemma elems_from_in n size p x : 0 < size → x ∈ elems_from n size p →
  p <= x ∧ x + size <= p + Z.of_nat n * size ∧ (x - p) mod size = 0.
Proof.
  intros Hs. revert p. induction n as [|n IH]; intros p; cbn [elems_from]; [set_solver|].
  intros [->|Hx]%elem_of_cons.
  - rewrite Z.sub_diag, Zmod_0_l. nia.
  - destruct (IH _ Hx) as (? & ? & Hm). split; [lia|]. split; [nia|].
    replace (x - p) with (x - (p + size) + 1 * size) by lia. by rewrite Z_mod_plus_full.
Qed.

Lemma elems_from_nodup n size p : 0 < size → NoDup (elems_from n size p).
Proof.
  intros Hs. revert p. induction n as [|n IH]; intros p; cbn; [constructor|]. constructor; [|apply IH].
  intros Hx. destruct (elems_from_in _ _ _ _ Hs Hx). lia.
Qed.

Lemma elems_from_length n size p : length (elems_from n size p) = n.
Proof. revert p. induction n as [|n IH]; intros p; cbn; [done|]. by rewrite IH. Qed.

Lemma elems_from_apart n size p x y : 0 < size → x ∈ elems_from n size p → y ∈ elems_from n size p →
  x = y ∨ x + size <= y ∨ y + size <= x.
Proof.
  intros Hs Hx Hy. destruct (elems_from_in _ _ _ _ Hs Hx) as (? & ? & Mx). destruct (elems_from_in _ _ _ _ Hs Hy) as (? & ? & My).
  apply Z.mod_divide in Mx as [a Ha]; [|lia]. apply Z.mod_divide in My as [b Hb]; [|lia].
  destruct (Z.lt_trichotomy a b) as [|[|]]; [right; left|left|right; right]; nia.
Qed.

Lemma elems_from_mod n size p x : size mod 4 = 0 → p mod 4 = 0 → x ∈ elems_from n size p → x mod 4 = 0.
Proof.
  intros Hs. revert p. induction n as [|n IH]; intros p Hp; cbn; [set_solver|].
  intros [->|Hx]%elem_of_cons; [done|]. eapply IH; [|exact Hx]. by rewrite Zplus_mod, Hp, Hs.
Qed.

Section layout.
Context (sizeof_element : memp_t → Z) (Hsize : ∀ k, 0 < sizeof_element k).
Abbreviation sizes := (memp_sizes sizeof_element).

Fixpoint pool_elems (ks : list memp_t) (memp : Z) k : list Z :=
  match ks with
  | [] => []
  | j :: ks =>
      if decide (k = j) then elems_from (memp_num k) (sizes k) memp
      else pool_elems ks (memp + Z.of_nat (memp_num j) * sizes j) k
  end.

Definition elements (memp_memory : Z) : memp_t → list Z :=
  pool_elems all_pools ((memp_memory + 3) / 4 * 4).

Lemma sizes_pos k : 0 < sizes k ∧ sizes k mod 4 = 0.
Proof using Hsize. unfold memp_sizes. pose proof (Hsize k). split; [|by rewrite Z_mod_mult]. Z.to_euclidean_division_equations; lia. Qed.

Lemma pool_elems_from ks memp k x : x ∈ pool_elems ks memp k → memp <= x.
Proof using Hsize.
  revert memp. induction ks as [|j ks IH]; intros memp; cbn; [set_solver|]. pose proof (sizes_pos j).
  case_decide; subst.
  - intros Hx. destruct (elems_from_in _ _ _ _ (proj1 (sizes_pos j)) Hx). lia.
  - intros Hx%IH. nia.
Qed.

Lemma pool_elems_mod ks memp k x : memp mod 4 = 0 → x ∈ pool_elems ks memp k → x mod 4 = 0.
Proof using Hsize.
  revert memp. induction ks as [|j ks IH]; intros memp Hm; cbn; [set_solver|]. pose proof (sizes_pos j) as [? Hj].
  case_decide; subst; [by apply elems_from_mod|]. apply IH.
  by rewrite Zplus_mod, Zmult_mod, Hj, Hm, Z.mul_0_r.
Qed.

Lemma pool_elems_apart ks : ∀ memp k j x y, x ∈ pool_elems ks memp k → y ∈ pool_elems ks memp j →
  (k = j ∧ x = y) ∨ x + sizes k <= y ∨ y + sizes j <= x.
Proof using Hsize.
  induction ks as [|i ks IH]; intros memp k j x y; cbn; [set_solver|].
  pose proof (sizes_pos k) as [? _]. pose proof (sizes_pos j) as [? _].
  destruct (decide (k = i)) as [->|], (decide (j = i)) as [->|]; intros Hx Hy.
  - destruct (elems_from_apart _ (sizes i) _ x y ltac:(lia) Hx Hy) as [->|?]; auto.
  - destruct (elems_from_in _ (sizes i) _ _ ltac:(lia) Hx) as (? & ? & _). apply pool_elems_from in Hy. lia.
  - destruct (elems_from_in _ (sizes i) _ _ ltac:(lia) Hy) as (? & ? & _). apply pool_elems_from in Hx. lia.
  - by eapply IH.
Qed.

Lemma pool_elems_nodup ks memp k : NoDup (pool_elems ks memp k).
Proof using Hsize.
  revert memp. induction ks as [|j ks IH]; intros memp; cbn; [constructor|]. case_decide; [|apply IH].
  apply elems_from_nodup, sizes_pos.
Qed.

Lemma elements_length memp_memory k : length (elements memp_memory k) = memp_num k.
Proof. unfold elements. destruct k; cbn -[elems_from memp_num]; apply elems_from_length. Qed.

Lemma elements_ok memp_memory : 0 < memp_memory → elems_ok sizes (elements memp_memory).
Proof using Hsize.
  intros Hm. split.
  - intros k p Hp. split; [eapply pool_elems_mod; [|exact Hp]; by rewrite Z_mod_mult|].
    apply pool_elems_from in Hp. Z.to_euclidean_division_equations; lia.
  - intros k j p q. apply pool_elems_apart.
  - intros k. apply sizes_pos.
  - intros k. apply pool_elems_nodup.
Qed.

(** ** [memp_init] *)

(** Lists whose elements all lie below the memory still to be handed out. *)
Definition below (free : memp_t → list Z) (memp : Z) st : Prop :=
  ∀ k, free_list (mnext st) (memp_tab st k) (free k) ∧ ∀ x, x ∈ free k → x < memp.

Lemma push_below free memp k st n : below free memp st → 0 < memp → 0 < n →
  below (set_free free k (memp :: free k)) (memp + n) (push k memp st).
Proof.
  intros B Hm Hn j. unfold set_free, push, set_tab. cbn.
  assert (Fr : ∀ i, free_list (<[memp := memp_tab st k]> (mnext st)) (memp_tab st i) (free i)).
  { intros i. destruct (B i) as [F L]. eapply free_list_frame; [|exact F]. intros x Hx. apply lookup_insert_ne.
    specialize (L x Hx). lia. }
  case_decide as Hj; [subst j|].
  - split.
    + split; [done|]. split; [lia|]. exists (memp_tab st k). rewrite lookup_insert_eq. done.
    + intros x [->|Hx]%elem_of_cons; [lia|]. apply (B k) in Hx. lia.
  - split; [done|]. intros x Hx. apply (B j) in Hx. lia.
Qed.

Lemma below_ext free free' memp st : (∀ k, free k = free' k) → below free memp st → below free' memp st.
Proof. intros E B k. rewrite <- E. apply B. Qed.

Lemma init_pool_ok n : ∀ k memp st free, below free memp st → 0 < memp →
  let '(st', memp') := init_pool sizeof_element n k memp st in
  memp' = memp + Z.of_nat n * sizes k
  ∧ below (set_free free k (rev (elems_from n (sizes k) memp) ++ free k)) memp' st'.
Proof using Hsize.
  induction n as [|n IH]; intros k memp st free B Hm; cbn [init_pool elems_from].
  - split; [lia|]. eapply below_ext; [|exact B]. intros j. unfold set_free. by case_decide; subst.
  - pose proof (sizes_pos k) as [Hs _]. pose proof (push_below free memp k st (sizes k) B Hm Hs) as B'.
    specialize (IH k (memp + sizes k) _ _ B' ltac:(lia)). destruct init_pool as [st' memp']. destruct IH as [-> IH].
    split; [lia|]. eapply below_ext; [|exact IH]. intros j. unfold set_free. cbn [rev].
    rewrite <- app_assoc. repeat case_decide; subst; done.
Qed.

Lemma init_pools_ok ks : ∀ memp st free, below free memp st → 0 < memp → NoDup ks →
  ∀ k, free_list (mnext (init_pools sizeof_element ks memp st)) (memp_tab (init_pools sizeof_element ks memp st) k)
         (if decide (k ∈ ks) then rev (pool_elems ks memp k) else free k).
Proof using Hsize.
  induction ks as [|j ks IH]; intros memp st free B Hm ND k; cbn [init_pools pool_elems].
  - rewrite decide_False by set_solver. apply B.
  - apply NoDup_cons in ND as [Hj ND]. pose proof (sizes_pos j) as [Hs _].
    assert (B0 : below (set_free free j []) memp (set_tab j 0 st)).
    { intros i. unfold set_free, set_tab. cbn. case_decide; [|apply B]. split; [done|set_solver]. }
    pose proof (init_pool_ok (memp_num j) j memp _ _ B0 Hm) as P. destruct init_pool as [st' memp']. destruct P as [-> P].
    specialize (IH _ _ _ P ltac:(nia) ND k). destruct (decide (k = j)) as [->|Hkj].
    + rewrite decide_True by set_solver. rewrite decide_False in IH by done. unfold set_free in IH.
      rewrite !decide_True in IH by done. by rewrite app_nil_r in IH.
    + destruct (decide (k ∈ ks)).
      * rewrite decide_True by set_solver. done.
      * rewrite decide_False by set_solver. unfold set_free in IH. by rewrite !decide_False in IH.
Qed.

Lemma all_pools_nodup : NoDup all_pools.
Proof. by apply (bool_decide_unpack _). Qed.

Lemma all_pools_in k : k ∈ all_pools.
Proof. apply list_elem_of_In. destruct k; cbn; tauto. Qed.

Lemma memp_init_ok memp_memory : 0 < memp_memory →
  refines (elements memp_memory) (λ k, rev (elements memp_memory k)) (memp_init sizeof_element memp_memory).
Proof using Hsize.
  intros Hm. assert (Hp : 0 < (memp_memory + 3) / 4 * 4) by (Z.to_euclidean_division_equations; lia).
  assert (B : below (λ _, []) ((memp_memory + 3) / 4 * 4) (MkMemp (λ _, 0) ∅)) by (intros k; split; [done|set_solver]).
  split; intros k.
  - pose proof (init_pools_ok all_pools _ _ _ B Hp all_pools_nodup k) as F.
    rewrite decide_True in F by apply all_pools_in. exact F.
  - rewrite <- Permutation_rev. apply pool_elems_nodup.
  - intros p. by rewrite <- Permutation_rev.
Qed.
End layout.

(** ** A client of the pools

    [live] maps the elements it holds to their pools. *)
Section client.
Context (sizeof_element : memp_t → Z) (memp_memory : Z).
Context (Hsize : ∀ k, 0 < sizeof_element k) (Hmem : 0 < memp_memory).
Abbreviation sizes := (memp_sizes sizeof_element).
Abbreviation elems := (elements sizeof_element memp_memory).

Inductive memp_step : memp_state * gmap Z memp_t → memp_state * gmap Z memp_t → Prop :=
  | step_malloc k st st' p live : memp_malloc k st = Some (st', p) →
      memp_step (st, live) (st', if p =? 0 then live else <[p := k]> live)
  | step_free k st st' p live : live !! p = Some k → memp_free k p st = Some st' →
      memp_step (st, live) (st', delete p live).

Definition client_inv (s : memp_state * gmap Z memp_t) : Prop :=
  ∃ free, refines elems free s.1 ∧ ∀ p k, s.2 !! p = Some k ↔ p ∈ elems k ∧ p ∉ free k.

Lemma malloc_inv free st live k p l st' :
  refines elems free st → (∀ p k, live !! p = Some k ↔ p ∈ elems k ∧ p ∉ free k) → free k = p :: l →
  refines elems (set_free free k l) st' →
  ∀ q j, <[p := k]> live !! q = Some j ↔ q ∈ elems j ∧ q ∉ set_free free k l j.
Proof using Hsize Hmem.
  intros R L E R' q j. pose proof (elements_ok _ Hsize memp_memory Hmem) as O.
  pose proof (ref_elems _ _ _ R k p ltac:(rewrite E; set_solver)) as Hp.
  pose proof (ref_nodup _ _ _ R k) as ND. rewrite E in ND. apply NoDup_cons in ND as [Hpl _]. unfold set_free.
  destruct (decide (p = q)) as [<-|Hne].
  - rewrite lookup_insert_eq. split.
    + intros [= <-]. rewrite decide_True by done. done.
    + intros [Hj _]. f_equal. by eapply el_disjoint.
  - rewrite lookup_insert_ne, L by done. case_decide; [subst j|done]. rewrite E. set_solver.
Qed.

Lemma free_inv free st live k p st' :
  refines elems free st → (∀ p k, live !! p = Some k ↔ p ∈ elems k ∧ p ∉ free k) → live !! p = Some k →
  refines elems (set_free free k (p :: free k)) st' →
  ∀ q j, delete p live !! q = Some j ↔ q ∈ elems j ∧ q ∉ set_free free k (p :: free k) j.
Proof using Hsize Hmem.
  intros R L E R' q j. pose proof (elements_ok _ Hsize memp_memory Hmem) as O.
  apply L in E as [Hp Hf]. unfold set_free. destruct (decide (p = q)) as [<-|Hne].
  - rewrite lookup_delete_eq. split; [done|]. intros [Hj Hn]. exfalso. apply Hn.
    rewrite decide_True by (by eapply el_disjoint). set_solver.
  - rewrite lookup_delete_ne, L by done. case_decide; [subst j|done]. set_solver.
Qed.

Lemma memp_step_inv s s' : client_inv s → memp_step s s' → client_inv s'.
Proof using Hsize Hmem.
  intros (free & R & L) S. pose proof (elements_ok _ Hsize memp_memory Hmem) as O. destruct S as [k st st' p live E|k st st' p live E1 E2].
  - pose proof (memp_malloc_refines _ _ _ _ k O R) as M. cbn in M. destruct (free k) as [|x l] eqn:Ef.
    + rewrite E in M. injection M as -> ->. by exists free.
    + destruct M as (st1 & E1 & R1). rewrite E in E1. injection E1 as <- ->. exists (set_free free k l).
      assert (x ≠ 0). { pose proof (el_aligned _ _ O k x (ref_elems _ _ _ R k x ltac:(rewrite Ef; set_solver))). lia. }
      rewrite (proj2 (Z.eqb_neq x 0)) by done. split; [done|]. by eapply malloc_inv.
  - cbn in *. destruct (proj1 (L p k) E1) as [Hp Hf].
    destruct (memp_free_refines _ _ _ _ _ _ O R Hp Hf) as (st1 & E3 & R1). rewrite E2 in E3. injection E3 as <-.
    exists (set_free free k (p :: free k)). split; [done|]. by eapply free_inv.
Qed.

(** The elements of a pool are free or held. *)
Lemma pool_count free st live k :
  refines elems free st → (∀ p k, live !! p = Some k ↔ p ∈ elems k ∧ p ∉ free k) →
  (length (free k) + size (filter (λ x, x.2 = k) live))%nat = memp_num k.
Proof using Hsize.
  intros R L. rewrite <- (elements_length sizeof_element memp_memory k), <- size_dom.
  assert (E : dom (filter (λ x, x.2 = k) live) = list_to_set (elems k) ∖ (list_to_set (free k) : gset Z)).
  { apply set_eq. intros p. rewrite elem_of_dom, elem_of_difference, !elem_of_list_to_set. split.
    - intros [j [Hl Hj]%map_lookup_filter_Some]. cbn in Hj. subst j. by apply L.
    - intros Hp. exists k. apply map_lookup_filter_Some. split; [by apply L|done]. }
  rewrite E, size_difference.
  - rewrite !size_list_to_set by (apply (ref_nodup _ _ _ R) || apply pool_elems_nodup, Hsize).
    enough (length (free k) ≤ length (elems k))%nat by lia.
    apply submseteq_length, NoDup_submseteq; [apply (ref_nodup _ _ _ R)|apply (ref_elems _ _ _ R)].
  - intros p. rewrite !elem_of_list_to_set. apply (ref_elems _ _ _ R).
Qed.

(** Whatever sequence of allocations and releases of held elements a
    program makes after [memp_init]: the elements held are aligned and do not
    overlap, no call fails an assertion, and a pool answers NULL exactly when
    all its elements are held. *)
Theorem memp_client_safe st live :
  rtc memp_step (memp_init sizeof_element memp_memory, ∅) (st, live) →
  (∀ p k, live !! p = Some k → p mod 4 = 0 ∧ 0 < p ∧
     ∀ q j, live !! q = Some j → q ≠ p → p + sizes k <= q ∨ q + sizes j <= p)
  ∧ (∀ p k, live !! p = Some k → is_Some (memp_free k p st))
  ∧ (∀ k, ∃ st' p, memp_malloc k st = Some (st', p)
       ∧ (p = 0 ↔ size (filter (λ x, x.2 = k) live) = memp_num k) ∧ live !! p = None).
Proof using Hsize Hmem.
  intros R. pose proof (elements_ok _ Hsize memp_memory Hmem) as O. assert (I : client_inv (st, live)).
  { remember (memp_init sizeof_element memp_memory, ∅) as s0 eqn:E0. remember (st, live) as s1 eqn:E1.
    assert (client_inv s0) as I0.
    { subst. eexists. split; [by apply memp_init_ok|]. intros p k. cbn. rewrite lookup_empty, <- Permutation_rev. naive_solver. }
    clear E0 E1. induction R as [s|s s' s'' S R IH]; [done|]. apply IH. by eapply memp_step_inv. }
  destruct I as (free & Rf & L). cbn in Rf, L. split; [|split].
  - intros p k [Hp _]%L. destruct (el_aligned _ _ O k p Hp). split_and!; try done.
    intros q j [Hq _]%L Hne. destruct (el_apart _ _ O k j p q Hp Hq) as [[_ ?]|?]; [done|tauto].
  - intros p k [Hp Hf]%L. destruct (memp_free_refines _ _ _ _ _ _ O Rf Hp Hf) as (? & -> & _). by eexists.
  - intros k. pose proof (memp_malloc_refines _ _ _ _ k O Rf) as M. pose proof (pool_count free st live k Rf L) as C.
    destruct (free k) as [|p l] eqn:Ef.
    + exists st, 0. split; [done|]. cbn in C. split; [done|].
      destruct (live !! 0) as [j|] eqn:E; [|done]. apply L in E as [E _]. apply (el_aligned _ _ O) in E. lia.
    + destruct M as (st' & E & _). exists st', p. split; [done|]. cbn in C.
      pose proof (ref_elems _ _ _ Rf k p ltac:(rewrite Ef; set_solver)) as Hp. pose proof (el_aligned _ _ O k p Hp).
      split; [split; lia|]. destruct (live !! p) as [j|] eqn:El; [|done]. apply L in El as [Hj Hn].
      exfalso. apply Hn. rewrite <- (el_disjoint _ _ k j p O Hp Hj), Ef. set_solver.
Qed.
End client.

Lemma memp_client_safe_witness :
  ∃ st, rtc memp_step (memp_init (λ _, 10) 4097, ∅) (st, {[ 4136 := MEMP_RAW_PCB ]})
    ∧ is_Some (memp_free MEMP_RAW_PCB 4136 st).
Proof.
  destruct (memp_malloc MEMP_RAW_PCB (memp_init (λ _, 10) 4097)) as [[st p]|] eqn:E; [|by vm_compute in E].
  assert (p = 4136) as -> by (vm_compute in E; congruence). exists st.
  assert (R : rtc memp_step (memp_init (λ _, 10) 4097, ∅) (st, {[ 4136 := MEMP_RAW_PCB ]})).
  { eapply rtc_l; [|apply rtc_refl]. exact (step_malloc MEMP_RAW_PCB _ st 4136 ∅ E). }
  split; [exact R|]. destruct (memp_client_safe (λ _, 10) 4097 ltac:(lia) ltac:(lia) st _ R) as (_ & F & _).
  apply (F 4136 MEMP_RAW_PCB). apply lookup_singleton_eq.
Defined.
