(* ===== verification/Tiles.v ===== *)
(** * Memory as a sequence of adjacent blocks

    The abstract view shared by the two heaps of the system: FreeRTOS's
    heap_4.c and lwIP's mem.c both cut one region into adjacent blocks, used
    or free, with a multiple of the alignment as size. *)
From S2P Require Import Prelude.
Local Open Scope Z_scope.

Record tile := Tile { at_ : Z; sz : Z; used : bool }.

Implicit Types (al : Z) (ts us pre post : list tile) (t : tile) (e : Z).

(** The address of the first free block, or of the end marker. *)
Fixpoint fnext ts e : Z :=
  match ts with
  | [] => e
  | t :: ts => if used t then fnext ts e else at_ t
  end.

Fixpoint tiles_from (al a : Z) ts e : Prop :=
  match ts with
  | [] => a = e
  | t :: ts => at_ t = a ∧ 0 < sz t ∧ sz t mod al = 0 ∧ tiles_from al (a + sz t) ts e
  end.

Fixpoint no_adj ts : Prop :=
  match ts with
  | t1 :: ((t2 :: _) as ts) => (used t1 = true ∨ used t2 = true) ∧ no_adj ts
  | _ => True
  end.

Definition all_used ts : Prop := Forall (λ t, used t = true) ts.

Definition taken ts : list tile := filter (λ t, used t = true) ts.

Definition free_size ts : Z := foldr (λ t n, if used t then n else sz t + n) 0 ts.

(** ** Lists of blocks *)
Section tiles.
Context {al : Z}.

Lemma fnext_app ts1 ts2 e : fnext (ts1 ++ ts2) e = fnext ts1 (fnext ts2 e).
Proof. induction ts1 as [|t ts1 IH]; cbn; [done|]. by rewrite IH. Qed.

Lemma fnext_used us e : all_used us → fnext us e = e.
Proof. induction 1 as [|t us Ht _ IH]; cbn; [done|]. by rewrite Ht. Qed.

Lemma tiles_app a ts1 ts2 e : tiles_from al a (ts1 ++ ts2) e ↔ ∃ x, tiles_from al a ts1 x ∧ tiles_from al x ts2 e.
Proof.
  revert a. induction ts1 as [|t ts1 IH]; intros a; cbn.
  - split; [eauto|]. by intros (x & -> & ?).
  - rewrite IH. split.
    + intros (? & ? & ? & x & ? & ?). eauto 10.
    + intros (x & (? & ? & ? & ?) & ?). eauto 10.
Qed.

Lemma tiles_le a ts e : tiles_from al a ts e → a <= e.
Proof. revert a. induction ts as [|t ts IH]; intros a; cbn; [lia|]. intros (_ & ? & _ & T). apply IH in T. lia. Qed.

Lemma tiles_in a ts e t : tiles_from al a ts e → t ∈ ts → a <= at_ t ∧ 0 < sz t ∧ at_ t + sz t <= e.
Proof.
  revert a. induction ts as [|x ts IH]; intros a; cbn; [set_solver|]. intros (? & ? & _ & T) [->|Ht]%elem_of_cons.
  - apply tiles_le in T. lia.
  - destruct (IH _ T Ht). lia.
Qed.

Lemma tiles_aligned a ts e t : a mod al = 0 → tiles_from al a ts e → t ∈ ts → at_ t mod al = 0.
Proof.
  revert a. induction ts as [|x ts IH]; intros a Ha; cbn; [set_solver|].
  intros (<- & _ & Hs & T) [->|Ht]%elem_of_cons; [done|]. eapply IH; [|done..]. by rewrite Zplus_mod, Ha, Hs.
Qed.

Lemma fnext_bounds a ts e : tiles_from al a ts e → a <= fnext ts e <= e.
Proof.
  revert a. induction ts as [|t ts IH]; intros a; cbn; [lia|]. intros (? & ? & _ & T).
  pose proof (tiles_le _ _ _ T). specialize (IH _ T). case_match; lia.
Qed.

(** After a free block, or at the end of the heap, the next free block does
    not begin at once. *)
Lemma fnext_far t a post e : used t = false → no_adj (t :: post) → tiles_from al a post e →
  fnext post e = a → fnext post e = e.
Proof.
  intros Hu N T. destruct post as [|t2 post]; [done|]. destruct N as [[N|N] _]; [congruence|].
  cbn in T |- *. destruct T as (? & ? & _ & T). rewrite N. intros E. pose proof (fnext_bounds _ _ _ T). lia.
Qed.

Lemma free_size_app ts1 ts2 : free_size (ts1 ++ ts2) = free_size ts1 + free_size ts2.
Proof. induction ts1 as [|t ts1 IH]; cbn; [done|]. unfold free_size in *. rewrite IH. case_match; lia. Qed.

Lemma free_size_used us : all_used us → free_size us = 0.
Proof. induction 1 as [|t us Ht _ IH]; cbn; [done|]. by rewrite Ht. Qed.

Lemma taken_free t ts : used t = false → taken (t :: ts) = taken ts.
Proof. intros Hu. unfold taken. apply filter_cons_False. congruence. Qed.

Lemma taken_used t ts : used t = true → taken (t :: ts) = t :: taken ts.
Proof. intros Hu. unfold taken. by apply filter_cons_True. Qed.

Lemma taken_app ts1 ts2 : taken (ts1 ++ ts2) = taken ts1 ++ taken ts2.
Proof. apply filter_app. Qed.

Lemma free_size_bounds a ts e : tiles_from al a ts e → 0 <= free_size ts <= e - a.
Proof.
  revert a. induction ts as [|t ts IH]; intros a; cbn; [lia|]. intros (_ & ? & _ & T). specialize (IH _ T).
  unfold free_size in *. case_match; lia.
Qed.

Lemma no_adj_app_r ts1 ts2 : no_adj (ts1 ++ ts2) → no_adj ts2.
Proof. induction ts1 as [|t ts1 IH]; [done|]. cbn [app]. intros N. apply IH. destruct (ts1 ++ ts2); [done|]. apply N. Qed.

Lemma no_adj_app_l ts1 ts2 : no_adj (ts1 ++ ts2) → no_adj ts1.
Proof.
  induction ts1 as [|t [|t2 ts1] IH]; cbn; [done|done|]. cbn in IH. intros [? N]. split; [done|by apply IH].
Qed.

(** Two lists joined at a used block, or with a used block between them. *)
Lemma no_adj_join ts1 t ts2 : no_adj (ts1 ++ [t]) → no_adj (t :: ts2) → no_adj (ts1 ++ t :: ts2).
Proof.
  induction ts1 as [|x [|y ts1] IH]; cbn [app]; [done| |].
  - intros [? _] N. split; [done|exact N].
  - intros [? N1] N2. split; [done|]. by apply IH.
Qed.

Lemma no_adj_replace t t' ts1 ts2 : used t' = true ∨ used t' = used t →
  no_adj (ts1 ++ t :: ts2) → no_adj (ts1 ++ t' :: ts2).
Proof.
  intros Hu. assert (C : no_adj (t :: ts2) → no_adj (t' :: ts2)).
  { destruct ts2 as [|y ts2]; [done|]. intros [? N]. split; [|done]. destruct Hu as [->| ->]; auto. }
  induction ts1 as [|x [|y ts1] IH]; cbn [app]; [exact C| |].
  - intros [? N]. split; [|by apply C]. destruct Hu as [->| ->]; auto.
  - intros [? N]. split; [done|]. by apply IH.
Qed.

Lemma tiles_nil a us : tiles_from al a us a → us = [].
Proof. destruct us as [|t us]; [done|]. cbn. intros (_ & ? & _ & T). apply tiles_le in T. lia. Qed.

Lemma no_adj_snoc pre t : no_adj pre → (∀ t', last pre = Some t' → used t' = true) → no_adj (pre ++ [t]).
Proof.
  induction pre as [|x [|y pre] IH]; [done| |].
  - intros _ Hl. cbn. split; [left; by apply Hl|done].
  - intros [? N] Hl. split; [done|]. apply IH; [done|]. intros t' Ht'. apply Hl. by rewrite last_cons_cons.
Qed.

Lemma no_adj_snoc_used pre t : no_adj pre → used t = true → no_adj (pre ++ [t]).
Proof.
  intros N Hu. induction pre as [|x [|y pre] IH]; [done|by split; [right|]|].
  destruct N as [? N]. split; [done|by apply IH].
Qed.

Lemma tiles_nodup a ts e : tiles_from al a ts e → NoDup (at_ <$> ts).
Proof.
  revert a. induction ts as [|t ts IH]; intros a; cbn; [constructor|]. intros (<- & ? & _ & T).
  constructor; [|by eapply IH]. intros (t' & Heq & Ht')%list_elem_of_fmap. pose proof (tiles_in _ _ _ _ T Ht'). lia.
Qed.

Lemma free_size_le_block b ts e t : tiles_from al b ts e → t ∈ ts → used t = false → sz t <= free_size ts.
Proof.
  intros T. revert b T. induction ts as [|x ts IH]; intros b; [set_solver|]. cbn. intros (_ & ? & _ & T).
  pose proof (free_size_bounds _ _ _ T). intros [->|Ht]%elem_of_cons Hu.
  - rewrite Hu. unfold free_size in *. lia.
  - specialize (IH _ T Ht Hu). unfold free_size in *. case_match; lia.
Qed.

Lemma elem_of_taken t ts : t ∈ taken ts ↔ t ∈ ts ∧ used t = true.
Proof. unfold taken. rewrite list_elem_of_filter. tauto. Qed.

Lemma tiles_apart b ts e t t' : tiles_from al b ts e → t ∈ ts → t' ∈ ts → t = t' ∨ at_ t + sz t <= at_ t' ∨ at_ t' + sz t' <= at_ t.
Proof.
  revert b. induction ts as [|x ts IH]; intros b T; [set_solver|]. destruct T as (<- & ? & _ & T).
  intros [->|Ht]%elem_of_cons [->|Ht']%elem_of_cons; [by left|right; left|right; right|by eapply IH].
  - destruct (tiles_in _ _ _ _ T Ht'). lia.
  - destruct (tiles_in _ _ _ _ T Ht). lia.
Qed.

(** Every allocated block is somewhere in the sequence. *)
Lemma taken_split ts k1 t k2 : taken ts = k1 ++ t :: k2 →
  ∃ pre post, ts = pre ++ t :: post ∧ taken pre = k1 ∧ taken post = k2.
Proof.
  revert k1. induction ts as [|x ts IH]; intros k1 E; [by destruct k1|]. destruct (used x) eqn:Hu.
  - rewrite taken_used in E by done. destruct k1 as [|y k1]; injection E as -> E.
    + by exists [], ts.
    + destruct (IH _ E) as (pre & post & -> & <- & <-). exists (y :: pre), post. by rewrite taken_used.
  - rewrite taken_free in E by done. destruct (IH _ E) as (pre & post & -> & <- & <-).
    exists (x :: pre), post. by rewrite taken_free.
Qed.

(** A region with nothing allocated is one free block. *)
Lemma single_free b ts e : tiles_from al b ts e → no_adj ts → b < e → taken ts = [] → ts = [Tile b (e - b) false].
Proof.
  intros T N Hbe E. destruct ts as [|t ts]; [cbn in T; lia|]. destruct (used t) eqn:Hu; [by rewrite taken_used in E|].
  rewrite taken_free in E by done. destruct ts as [|t2 ts].
  - cbn in T. destruct T as (<- & _ & _ & <-). destruct t as [a s u]. cbn in *. subst u. do 2 f_equal. lia.
  - destruct N as [[?|Hu2] _]; [congruence|]. by rewrite taken_used in E.
Qed.
End tiles.
