(* ===== verification/Mem.v ===== *)
(** * lwip-1.4.1/src/core/mem.c: lwIP's heap, definitions

    Configuration: MEM_SIZE 100 KiB, MEM_ALIGNMENT 4, no LIBC malloc, no
    pools, no freeing from other contexts; with NO_SYS 1 the mutex is empty.
    A [struct mem] is indexed by its offset in [ram], as the fields [next] and
    [prev] are.  The statistics counters are left out. *)
From S2P Require Import Prelude.
Local Open Scope Z_scope.

Definition MEM_SIZE_ALIGNED : Z := 102400.
(** Two [mem_size_t] of 32 bits (MEM_SIZE > 64000) and an octet, aligned. *)
Definition SIZEOF_STRUCT_MEM : Z := 12.
Definition MIN_SIZE_ALIGNED : Z := 12.

(** [LWIP_MEM_ALIGN_SIZE] on a [mem_size_t]. *)
Definition align_size (n : Z) : Z := u32 (n + 3) / 4 * 4.

Record smem := MkMem { next : Z; prev : Z; mused : Z }.

(** [lfree] is the offset of the block it points to; [content] the octets of
    the memory. *)
Record mem_heap := MkHeap {
  ram : Z;
  blocks : gmap Z smem;
  lfree : Z;
  content : Z → Z }.

Implicit Types (st : mem_heap).

Definition ram_end : Z := MEM_SIZE_ALIGNED.

Definition set_blocks (m : gmap Z smem) st : mem_heap := MkHeap (ram st) m (lfree st) (content st).
Definition set_lfree (p : Z) st : mem_heap := MkHeap (ram st) (blocks st) p (content st).

Definition set_next (x : Z) (b : smem) : smem := MkMem x (prev b) (mused b).
Definition set_prev (x : Z) (b : smem) : smem := MkMem (next b) x (mused b).
Definition set_used (x : Z) (b : smem) : smem := MkMem (next b) (prev b) x.

(** An assignment to a field of a block. *)
Definition upd (p : Z) (f : smem → smem) st : option mem_heap :=
  b ← blocks st !! p; Some (set_blocks (<[p := f b]> (blocks st)) st).

(** A [struct mem] written where there was none. *)
Definition new_block (p next prev : Z) st : mem_heap := set_blocks (<[p := MkMem next prev 0]> (blocks st)) st.

Definition mem_init (ram_heap : Z) (bytes : Z → Z) : mem_heap :=
  let ram := (ram_heap + 3) / 4 * 4 in
  MkHeap ram (<[ram_end := MkMem MEM_SIZE_ALIGNED MEM_SIZE_ALIGNED 1]> {[ 0 := MkMem MEM_SIZE_ALIGNED 0 0 ]}) 0 bytes.

Definition plug_holes (mem : Z) st : option mem_heap :=
  _ ← lwip_assert (0 <=? mem);
  _ ← lwip_assert (mem <? ram_end);
  b ← blocks st !! mem;
  _ ← lwip_assert (mused b =? 0);
  _ ← lwip_assert (next b <=? MEM_SIZE_ALIGNED);
  let nmem := next b in
  n ← blocks st !! nmem;
  st ← (if negb (mem =? nmem) && (mused n =? 0) && negb (nmem =? ram_end) then
          let st := if lfree st =? nmem then set_lfree mem st else st in
          st ← upd mem (set_next (next n)) st;
          upd (next n) (set_prev mem) st
        else Some st);
  b ← blocks st !! mem;
  let pmem := prev b in
  p ← blocks st !! pmem;
  if negb (pmem =? mem) && (mused p =? 0) then
    let st := if lfree st =? mem then set_lfree pmem st else st in
    st ← upd pmem (set_next (next b)) st;
    upd (next b) (set_prev pmem) st
  else Some st.

Definition mem_free (rmem : Z) st : option mem_heap :=
  if rmem =? 0 then Some st else
  _ ← lwip_assert (rmem mod 4 =? 0);
  _ ← lwip_assert ((ram st <=? rmem) && (rmem <? ram st + ram_end));
  if (rmem <? ram st) || (ram st + ram_end <=? rmem) then Some st else
  let mem := rmem - SIZEOF_STRUCT_MEM - ram st in
  b ← blocks st !! mem;
  _ ← lwip_assert (negb (mused b =? 0));
  st ← upd mem (set_used 0) st;
  let st := if mem <? lfree st then set_lfree mem st else st in
  plug_holes mem st.

(** The requested size, aligned and at least MIN_SIZE_ALIGNED. *)
Definition block_size (size : Z) : Z :=
  let size := align_size size in
  if size <? MIN_SIZE_ALIGNED then MIN_SIZE_ALIGNED else size.

(** Putting the free block [mem2] between [mem] and [next]. *)
Definition insert_free (mem mem2 next : Z) st : option mem_heap :=
  let st := new_block mem2 next mem st in
  st ← upd mem (set_next mem2) st;
  if negb (next =? MEM_SIZE_ALIGNED) then upd next (set_prev mem2) st else Some st.

(** The address returned, NULL being 0. *)
Definition mem_trim (rmem newsize : Z) st : option (mem_heap * Z) :=
  let newsize := block_size newsize in
  if MEM_SIZE_ALIGNED <? newsize then Some (st, 0) else
  _ ← lwip_assert ((ram st <=? rmem) && (rmem <? ram st + ram_end));
  if (rmem <? ram st) || (ram st + ram_end <=? rmem) then Some (st, rmem) else
  let mem := rmem - SIZEOF_STRUCT_MEM - ram st in
  b ← blocks st !! mem;
  let ptr := mem in
  let size := u32 (next b - ptr - SIZEOF_STRUCT_MEM) in
  _ ← lwip_assert (newsize <=? size);
  if size <? newsize then Some (st, 0) else
  if newsize =? size then Some (st, rmem) else
  let mem2 := next b in
  b2 ← blocks st !! mem2;
  let ptr2 := u32 (ptr + SIZEOF_STRUCT_MEM + newsize) in
  if mused b2 =? 0 then
    let st := if lfree st =? mem2 then set_lfree ptr2 st else st in
    st ← insert_free mem ptr2 (next b2) st;
    Some (st, rmem)
  else if u32 (newsize + SIZEOF_STRUCT_MEM + MIN_SIZE_ALIGNED) <=? size then
    let st := if ptr2 <? lfree st then set_lfree ptr2 st else st in
    st ← insert_free mem ptr2 (next b) st;
    Some (st, rmem)
  else Some (st, rmem).

(** [while (cur->used && cur != ram_end)] *)
Fixpoint next_free (fuel : nat) (cur : Z) st : option Z :=
  b ← blocks st !! cur;
  if negb (mused b =? 0) && negb (cur =? ram_end) then
    match fuel with
    | O => None
    | S fuel => next_free fuel (next b) st
    end
  else Some cur.

(** Taking the free block [mem], found large enough. *)
Definition take (mem size : Z) st : option (mem_heap * Z) :=
  b ← blocks st !! mem;
  st ← (if u32 (size + SIZEOF_STRUCT_MEM + MIN_SIZE_ALIGNED) <=? u32 (next b - u32 (mem + SIZEOF_STRUCT_MEM)) then
          st ← insert_free mem (u32 (mem + SIZEOF_STRUCT_MEM + size)) (next b) st;
          upd mem (set_used 1) st
        else upd mem (set_used 1) st);
  st ← (if mem =? lfree st then
          cur ← next_free (base.size (blocks st)) mem st;
          bc ← blocks st !! cur;
          _ ← lwip_assert ((cur =? ram_end) || (mused bc =? 0));
          Some (set_lfree cur st)
        else Some st);
  _ ← lwip_assert (ram st + mem + SIZEOF_STRUCT_MEM + size <=? ram st + ram_end);
  _ ← lwip_assert ((ram st + mem + SIZEOF_STRUCT_MEM) mod 4 =? 0);
  _ ← lwip_assert ((ram st + mem) mod 4 =? 0);
  Some (st, ram st + mem + SIZEOF_STRUCT_MEM).

Fixpoint malloc_loop (fuel : nat) (ptr size : Z) st : option (mem_heap * Z) :=
  if negb (ptr <? u32 (MEM_SIZE_ALIGNED - size)) then Some (st, 0) else
  b ← blocks st !! ptr;
  if (mused b =? 0) && (size <=? u32 (next b - u32 (ptr + SIZEOF_STRUCT_MEM))) then take ptr size st
  else
    match fuel with
    | O => None
    | S fuel => malloc_loop fuel (next b) size st
    end.

Definition mem_malloc (size : Z) st : option (mem_heap * Z) :=
  if size =? 0 then Some (st, 0) else
  let sz := block_size size in
  if MEM_SIZE_ALIGNED <? sz then Some (st, 0)
  else malloc_loop (base.size (blocks st)) (lfree st) sz st.

Definition mem_calloc (count size : Z) st : option (mem_heap * Z) :=
  '(st, p) ← mem_malloc (u32 (count * size)) st;
  if negb (p =? 0)
  then Some (MkHeap (ram st) (blocks st) (lfree st)
               (λ x, if decide (p <= x < p + u32 (count * size)) then 0 else content st x), p)
  else Some (st, p).
