(* ===== verification/MemOk.v ===== *)
(** * mem.c: the heap is a sequence of blocks

    The abstract view is the list of the blocks in address order; the
    invariant ties the doubly linked list of headers and [lfree] to it. *)
From S2P Require Import Prelude Tiles Mem.
Local Open Scope Z_scope.

Implicit Types (m : gmap Z smem) (ts us pre mid post : list tile) (t : tile) (st : mem_heap).

Abbreviation tiles_from := (Tiles.tiles_from 4).

(** The headers of [ts], the first of which points back to [p]. *)
Fixpoint hdrs m (p : Z) ts : Prop :=
  match ts with
  | [] => True
  | t :: ts => m !! at_ t = Some (MkMem (at_ t + sz t) p (if used t then 1 else 0)) ∧ hdrs m (at_ t) ts
  end.

(** The block before the end of [ts]. *)
Fixpoint last_at (p : Z) ts : Z := match ts with [] => p | t :: ts => last_at (at_ t) ts end.

Definition rep m ts : Prop := hdrs m 0 ts ∧ ∃ p, m !! MEM_SIZE_ALIGNED = Some (MkMem MEM_SIZE_ALIGNED p 1).

Definition big ts : Prop := Forall (λ t, SIZEOF_STRUCT_MEM + MIN_SIZE_ALIGNED <= sz t) ts.

Record mem_inv st ts : Prop := {
  inv_ram : 0 < ram st ∧ ram st mod 4 = 0 ∧ ram st + MEM_SIZE_ALIGNED + SIZEOF_STRUCT_MEM < 2 ^ 32;
  inv_rep : rep (blocks st) ts;
  inv_tiles : tiles_from 0 ts MEM_SIZE_ALIGNED;
  inv_adj : no_adj ts;
  inv_big : big ts;
  inv_lfree : lfree st = fnext ts MEM_SIZE_ALIGNED }.

(** ** Headers *)
Lemma last_at_app p ts1 ts2 : last_at p (ts1 ++ ts2) = last_at (last_at p ts1) ts2.
Proof. revert p. induction ts1 as [|t ts1 IH]; intros p; [done|]. cbn. apply IH. Qed.

Lemma hdrs_app m p ts1 ts2 : hdrs m p (ts1 ++ ts2) ↔ hdrs m p ts1 ∧ hdrs m (last_at p ts1) ts2.
Proof.
  revert p. induction ts1 as [|t ts1 IH]; intros p; [cbn; tauto|]. cbn. rewrite IH. tauto.
Qed.

Lemma hdrs_frame m m' p ts : (∀ t, t ∈ ts → m' !! at_ t = m !! at_ t) → hdrs m p ts → hdrs m' p ts.
Proof.
  revert p. induction ts as [|t ts IH]; intros p Hf; cbn; [done|]. intros [Ht R]. rewrite Hf by set_solver.
  split; [done|]. apply IH; [|done]. intros x Hx. apply Hf. set_solver.
Qed.

Lemma hdrs_in m p ts t : hdrs m p ts → t ∈ ts →
  ∃ q, m !! at_ t = Some (MkMem (at_ t + sz t) q (if used t then 1 else 0)).
Proof.
  revert p. induction ts as [|x ts IH]; intros p; cbn; [set_solver|].
  intros [Hx R] [->|Ht]%elem_of_cons; [by eexists|by eapply IH].
Qed.

(** Replacing the blocks [mid] by [mid']: only their headers change, and the
    back pointer of the block that follows. *)
Lemma splice m m' pre mid mid' post a b :
  rep m (pre ++ mid ++ post) → tiles_from 0 pre a → tiles_from a mid b → tiles_from b post MEM_SIZE_ALIGNED →
  (∀ z, z < a ∨ b < z → m' !! z = m !! z) → hdrs m' (last_at 0 pre) mid' →
  (∀ h, m !! b = Some h → ∃ h', m' !! b = Some h' ∧ next h' = next h ∧ mused h' = mused h
     ∧ (b ≠ MEM_SIZE_ALIGNED → prev h' = last_at (last_at 0 pre) mid')) →
  rep m' (pre ++ mid' ++ post).
Proof.
  intros [R [pe E]] T1 T2 T3 Fr Hm Hb. apply hdrs_app in R as [R1 R2]. apply hdrs_app in R2 as [_ R3].
  pose proof (tiles_le _ _ _ T1). pose proof (tiles_le _ _ _ T2). pose proof (tiles_le _ _ _ T3).
  split.
  - apply hdrs_app. split.
    { eapply hdrs_frame; [|exact R1]. intros t Ht. apply Fr. pose proof (tiles_in _ _ _ _ T1 Ht). lia. }
    apply hdrs_app. split; [exact Hm|]. destruct post as [|t post]; [done|].
    cbn in T3, R3 |- *. destruct T3 as (<- & ? & _ & T3). destruct R3 as [Ht R3].
    destruct (Hb _ Ht) as ([n q u] & -> & En & Eu & Ep). cbn in En, Eu, Ep.
    pose proof (tiles_le _ _ _ T3). rewrite En, Eu, Ep by lia. split; [done|].
    eapply hdrs_frame; [|exact R3]. intros x Hx. apply Fr. pose proof (tiles_in _ _ _ _ T3 Hx). lia.
  - destruct (decide (b = MEM_SIZE_ALIGNED)) as [->|].
    + destruct (Hb _ E) as ([n q u] & -> & En & Eu & _). cbn in En, Eu. subst. by exists q.
    + exists pe. rewrite Fr by lia. exact E.
Qed.

Lemma mem_rep_size m ts : rep m ts → tiles_from 0 ts MEM_SIZE_ALIGNED → (length ts ≤ size m)%nat.
Proof.
  intros [R _] T. rewrite <- (length_fmap at_ ts), <- size_dom, <- (size_list_to_set (C := gset Z)).
  - apply subseteq_size. intros a (t & -> & Ht)%elem_of_list_to_set%list_elem_of_fmap.
    destruct (hdrs_in _ _ _ _ R Ht) as [q Hq]. apply elem_of_dom. by eexists.
  - by eapply tiles_nodup.
Qed.

(** The header at the end of a sequence of blocks: of the block that follows,
    or of [ram_end]. *)
Lemma header_at m pre post b : rep m (pre ++ post) → tiles_from b post MEM_SIZE_ALIGNED →
  ∃ h, m !! b = Some h ∧ (mused h = 0 ↔ ∃ t post', post = t :: post' ∧ used t = false)
    ∧ (b ≠ MEM_SIZE_ALIGNED → prev h = last_at 0 pre)
    ∧ (b = MEM_SIZE_ALIGNED → mused h = 1).
Proof.
  intros [R [p E]] T. apply hdrs_app in R as [_ R]. destruct post as [|t post]; cbn in T.
  - subst. eexists. split; [exact E|]. split; [split; [done|by intros (? & ? & ? & _)]|done].
  - destruct T as (<- & ? & _ & T). destruct R as [Ht _]. pose proof (tiles_le _ _ _ T). eexists. split; [exact Ht|].
    cbn. split; [|split; [done|lia]]. destruct (used t) eqn:Hu; split; try done; [|eauto].
    intros (? & ? & [= <- <-] & ?). congruence.
Qed.

(** ** The three changes of the list: a flag, a split, a join *)
Definition same_rest st st' : Prop := ram st' = ram st ∧ lfree st' = lfree st ∧ content st' = content st.

Lemma set_used_ok st pre a s u v post :
  rep (blocks st) (pre ++ Tile a s u :: post) → tiles_from 0 (pre ++ Tile a s u :: post) MEM_SIZE_ALIGNED →
  ∃ st', upd a (set_used (if v : bool then 1 else 0)) st = Some st' ∧ same_rest st st'
    ∧ rep (blocks st') (pre ++ Tile a s v :: post).
Proof.
  intros R T. pose proof T as (x & T1 & T2)%tiles_app. cbn in T2. destruct T2 as (<- & Hs & Hm & T2).
  pose proof R as [R1 _]. apply hdrs_app in R1 as [_ [Ha _]]. cbn in Ha.
  unfold upd. rewrite Ha. cbn [mbind option_bind]. eexists. split; [done|]. split; [done|].
  apply (splice (blocks st) _ pre [Tile a s u] [Tile a s v] post a (a + s)); cbn; try done.
  - intros z Hz. apply lookup_insert_ne. lia.
  - rewrite lookup_insert_eq. done.
  - intros h Hh. exists h. rewrite lookup_insert_ne by lia. split_and!; try done.
    intros Hne. destruct (header_at (blocks st) (pre ++ [Tile a s u]) post (a + s)) as (h' & Hh' & _ & Hp & _).
    + by rewrite <- app_assoc.
    + done.
    + rewrite Hh in Hh'. injection Hh' as <-. rewrite Hp, last_at_app by done. done.
Qed.

Lemma insert_free_ok st pre mid post a e p2 n u :
  rep (blocks st) (pre ++ mid ++ post) → tiles_from 0 pre a → tiles_from a mid e → tiles_from e post MEM_SIZE_ALIGNED →
  blocks st !! a = Some (MkMem n (last_at 0 pre) (if u : bool then 1 else 0)) → a < p2 < e →
  ∃ st', insert_free a p2 e st = Some st' ∧ same_rest st st'
    ∧ rep (blocks st') (pre ++ [Tile a (p2 - a) u; Tile p2 (e - p2) false] ++ post).
Proof.
  intros R T1 T2 T3 Ha Hp. unfold insert_free, new_block, upd. cbn [blocks set_blocks].
  rewrite lookup_insert_ne by lia. rewrite Ha. cbn [mbind option_bind blocks set_blocks].
  destruct (header_at (blocks st) (pre ++ mid) post e) as (h & Hh & _ & _ & _); [by rewrite <- app_assoc|done|].
  set (m1 := <[a := set_next p2 _]> (<[p2 := MkMem e a 0]> (blocks st))).
  assert (M1 : m1 !! e = Some h) by (unfold m1; by rewrite !lookup_insert_ne by lia).
  assert (S : ∀ m', m' !! a = m1 !! a → m' !! p2 = m1 !! p2 → (∀ z, z < a ∨ e < z → m' !! z = m1 !! z) →
    (∃ h', m' !! e = Some h' ∧ next h' = next h ∧ mused h' = mused h ∧ (e ≠ MEM_SIZE_ALIGNED → prev h' = p2)) →
    rep m' (pre ++ [Tile a (p2 - a) u; Tile p2 (e - p2) false] ++ post)).
  { intros m' Ea Ep Ez Ee. eapply splice; [exact R|exact T1|exact T2|exact T3|..].
    - intros z Hz. rewrite Ez by done. unfold m1. by rewrite !lookup_insert_ne by lia.
    - cbn. rewrite Ea, Ep. unfold m1. rewrite lookup_insert_eq, (lookup_insert_ne _ a p2), lookup_insert_eq by lia.
      unfold set_next; cbn. split; [|split; [|done]]; repeat f_equal; lia.
    - intros h0 Hh0. rewrite Hh in Hh0. injection Hh0 as <-. exact Ee. }
  destruct (Z.eqb_spec e MEM_SIZE_ALIGNED) as [E|E]; cbn [negb].
  - eexists. split; [done|]. split; [done|]. cbn [blocks set_blocks]. apply S; try done. by exists h.
  - rewrite M1. cbn [mbind option_bind]. eexists. split; [done|]. split; [done|]. cbn [blocks set_blocks]. apply S.
    + apply lookup_insert_ne. lia.
    + apply lookup_insert_ne. lia.
    + intros z Hz. apply lookup_insert_ne. lia.
    + rewrite lookup_insert_eq. eexists. by split_and!.
Qed.

Lemma join_ok st pre a s u s2 v post :
  rep (blocks st) (pre ++ Tile a s u :: Tile (a + s) s2 v :: post) →
  tiles_from 0 (pre ++ Tile a s u :: Tile (a + s) s2 v :: post) MEM_SIZE_ALIGNED →
  ∃ st', (st ← upd a (set_next (a + s + s2)) st; upd (a + s + s2) (set_prev a) st) = Some st' ∧ same_rest st st'
    ∧ rep (blocks st') (pre ++ Tile a (s + s2) u :: post).
Proof.
  intros R T. pose proof T as (x & T1 & T2)%tiles_app. cbn in T2. destruct T2 as (<- & Hs & Hm & _ & Hs2 & Hm2 & T2).
  pose proof R as [R1 _]. apply hdrs_app in R1 as [_ [Ha [Hb _]]]. cbn in Ha, Hb.
  unfold upd. rewrite Ha. cbn [mbind option_bind blocks set_blocks].
  destruct (header_at (blocks st) (pre ++ [Tile a s u; Tile (a + s) s2 v]) post (a + s + s2)) as (h & Hh & _ & _ & _);
    [by rewrite <- app_assoc|done|].
  rewrite lookup_insert_ne by lia. rewrite Hh. cbn [mbind option_bind]. eexists. split; [done|]. split; [done|].
  cbn [blocks set_blocks].
  eapply (splice (blocks st) _ pre [Tile a s u; Tile (a + s) s2 v] [Tile a (s + s2) u] post a (a + s + s2)); cbn; try done.
  - intros z Hz. by rewrite !lookup_insert_ne by lia.
  - rewrite lookup_insert_ne by lia. rewrite lookup_insert_eq. split; [|done]. unfold set_next; cbn. do 2 f_equal. lia.
  - intros h0 Hh0. rewrite Hh in Hh0. injection Hh0 as <-. rewrite lookup_insert_eq. eexists. by split_and!.
Qed.

(** ** [lfree] *)
Lemma fnext_at_end a pre e : tiles_from a pre e → fnext pre e = e → all_used pre.
Proof.
  revert a. induction pre as [|t pre IH]; intros a; [constructor|]. cbn. intros (<- & ? & _ & T).
  pose proof (tiles_le _ _ _ T). destruct (used t) eqn:Hu; [|lia]. intros E. constructor; [done|]. by eapply IH.
Qed.

Lemma fnext_inside a pre e x : tiles_from a pre e → fnext pre e ≠ e → fnext pre x = fnext pre e.
Proof.
  revert a. induction pre as [|t pre IH]; intros a; cbn; [intros ->; done|]. intros (_ & _ & _ & T).
  destruct (used t); [|done]. by eapply IH.
Qed.

Lemma next_free_ok st : ∀ ts fuel pre a,
  rep (blocks st) (pre ++ ts) → tiles_from a ts MEM_SIZE_ALIGNED → (length ts ≤ fuel)%nat →
  next_free fuel a st = Some (fnext ts MEM_SIZE_ALIGNED).
Proof.
  induction ts as [|t ts IH]; intros fuel pre a R T Hf.
  - cbn in T. subst a. destruct R as [_ [p E]]. destruct fuel; cbn; rewrite E; done.
  - cbn in T. destruct T as (<- & ? & _ & T). pose proof (tiles_le _ _ _ T).
    pose proof R as [R1 _]. apply hdrs_app in R1 as [_ [Ha _]]. destruct fuel as [|fuel]; [cbn in Hf; lia|].
    cbn [next_free]. rewrite Ha. cbn [mbind option_bind mused next]. destruct (used t) eqn:Hu; cbn [Z.eqb negb andb].
    + rewrite (proj2 (Z.eqb_neq (at_ t) ram_end)) by (unfold ram_end; lia). cbn [negb].
      rewrite (IH fuel (pre ++ [t]) (at_ t + sz t)); [|by rewrite <- app_assoc|done|cbn in Hf; lia].
      cbn. by rewrite Hu.
    + cbn. by rewrite Hu.
Qed.

(** ** Sizes *)
Lemma block_size_bounds n : is_u32 n →
  12 <= block_size n ∧ block_size n mod 4 = 0 ∧ (n <= 4294967292 → n <= block_size n <= Z.max 12 (n + 3))
  ∧ (4294967292 < n → block_size n = 12).
Proof.
  unfold is_u32, block_size, align_size, MIN_SIZE_ALIGNED, u32. intros Hn.
  destruct (Z.ltb_spec ((n + 3) mod 4294967296 / 4 * 4) 12); Z.to_euclidean_division_equations; lia.
Qed.

Lemma big_app ts1 ts2 : big (ts1 ++ ts2) ↔ big ts1 ∧ big ts2.
Proof. apply Forall_app. Qed.

Lemma inv_taken st pre t post : mem_inv st (pre ++ t :: post) →
  rep (blocks st) (pre ++ t :: post) ∧ tiles_from 0 (pre ++ t :: post) MEM_SIZE_ALIGNED
  ∧ tiles_from 0 pre (at_ t) ∧ 24 <= sz t ∧ sz t mod 4 = 0 ∧ tiles_from (at_ t + sz t) post MEM_SIZE_ALIGNED
  ∧ blocks st !! at_ t = Some (MkMem (at_ t + sz t) (last_at 0 pre) (if used t then 1 else 0))
  ∧ 0 <= at_ t ∧ at_ t + sz t <= MEM_SIZE_ALIGNED ∧ at_ t mod 4 = 0.
Proof.
  intros [Ir R T N B Lf]. pose proof T as (x & T1 & T2)%tiles_app. cbn in T2. destruct T2 as (<- & Hs & Hm & T2).
  pose proof R as [R1 _]. apply hdrs_app in R1 as [_ [Ha _]].
  apply big_app in B as [_ B]. apply Forall_cons in B as [B _].
  pose proof (tiles_le _ _ _ T1). pose proof (tiles_le _ _ _ T2).
  split_and!; try done. assert (t ∈ pre ++ t :: post) by set_solver.
  by apply (tiles_aligned 0 (pre ++ t :: post) MEM_SIZE_ALIGNED).
Qed.

(** The search for a block. *)
Lemma malloc_loop_ok st size : 12 <= size <= MEM_SIZE_ALIGNED → ∀ ts fuel p a,
  hdrs (blocks st) p ts → tiles_from a ts MEM_SIZE_ALIGNED → 0 <= a → big ts → (length ts ≤ fuel)%nat →
  (malloc_loop fuel a size st = Some (st, 0) ∧ ∀ t, t ∈ ts → used t = false → sz t < size + 12)
  ∨ ∃ pre t post, ts = pre ++ t :: post ∧ used t = false ∧ size + 12 <= sz t
      ∧ malloc_loop fuel a size st = take (at_ t) size st.
Proof.
  intros Hsz. unfold MEM_SIZE_ALIGNED in *. induction ts as [|t ts IH]; intros fuel p a R T Ha B Hf.
  - left. cbn in T. subst a. split; [|set_solver].
    assert ((102400 <? u32 (102400 - size)) = false) as E by (rewrite u32_id by (unfold is_u32; lia); lia).
    destruct fuel; cbn [malloc_loop]; unfold MEM_SIZE_ALIGNED; by rewrite E.
  - pose proof T as T0. cbn in T. destruct T as (<- & Hs & _ & T). destruct R as [Ht R]. apply Forall_cons in B as [Bt B].
    pose proof (tiles_le _ _ _ T). unfold SIZEOF_STRUCT_MEM, MIN_SIZE_ALIGNED in Bt.
    destruct fuel as [|fuel]; [cbn in Hf; lia|].
    destruct (Z.ltb_spec (at_ t) (u32 (102400 - size))) as [L|L]; rewrite u32_id in L by (unfold is_u32; lia).
    2:{ left. cbn [malloc_loop]. unfold MEM_SIZE_ALIGNED. rewrite u32_id by (unfold is_u32; lia).
        rewrite (proj2 (Z.ltb_ge _ _) L). split; [done|]. intros t' Ht' _. pose proof (tiles_in _ _ _ _ T0 Ht'). lia. }
    destruct (decide (used t = false ∧ size + 12 <= sz t)) as [[Hu Hfit]|Hno].
    + right. exists [], t, ts. split_and!; try done. cbn [malloc_loop]. unfold MEM_SIZE_ALIGNED.
      rewrite (u32_id (102400 - size)) by (unfold is_u32; lia). rewrite (proj2 (Z.ltb_lt _ _) L), Ht, Hu.
      cbn [negb mbind option_bind mused next Z.eqb andb]. unfold SIZEOF_STRUCT_MEM.
      rewrite (u32_id (at_ t + 12)), u32_id by (unfold is_u32; lia).
      by rewrite (proj2 (Z.leb_le size (at_ t + sz t - (at_ t + 12)))) by lia.
    + assert (E : malloc_loop (S fuel) (at_ t) size st = malloc_loop fuel (at_ t + sz t) size st).
      { cbn [malloc_loop]. unfold MEM_SIZE_ALIGNED. rewrite (u32_id (102400 - size)) by (unfold is_u32; lia).
        rewrite (proj2 (Z.ltb_lt _ _) L), Ht. cbn [negb mbind option_bind mused next].
        unfold SIZEOF_STRUCT_MEM. rewrite (u32_id (at_ t + 12)), u32_id by (unfold is_u32; lia).
        destruct (used t); [done|]. cbn [Z.eqb andb].
        rewrite (proj2 (Z.leb_gt size (at_ t + sz t - (at_ t + 12)))) by (apply Z.nle_gt; intros ?; apply Hno; split; [done|lia]).
        done. }
      rewrite E. destruct (IH fuel _ _ R T ltac:(lia) B ltac:(cbn in Hf; lia)) as [[E1 H1]|(pre & t' & post & -> & Hu & Hfit & E1)].
      * left. split; [done|]. intros t' [->|Ht']%elem_of_cons Hu; [|by apply H1].
        apply Z.nle_gt. intros ?. apply Hno. split; [done|lia].
      * right. by exists (t :: pre), t', post.
Qed.

(** [lfree] after the block [a] has been taken. *)
Lemma adjust_lfree_ok st pre t post a :
  rep (blocks st) (pre ++ t :: post) → tiles_from 0 (pre ++ t :: post) MEM_SIZE_ALIGNED → at_ t = a → used t = true →
  lfree st = fnext pre a →
  ∃ st', (if a =? lfree st then
            cur ← next_free (size (blocks st)) a st;
            bc ← blocks st !! cur;
            _ ← lwip_assert ((cur =? ram_end) || (mused bc =? 0));
            Some (set_lfree cur st)
          else Some st) = Some st'
    ∧ ram st' = ram st ∧ blocks st' = blocks st ∧ lfree st' = fnext (pre ++ t :: post) MEM_SIZE_ALIGNED.
Proof.
  intros R T <- Hu Lf. pose proof T as (x & T1 & T2)%tiles_app. pose proof T2 as (<- & _).
  pose proof (mem_rep_size _ _ R T) as Sz. rewrite length_app in Sz.
  rewrite fnext_app. destruct (Z.eqb_spec (at_ t) (lfree st)) as [E|E].
  - rewrite (next_free_ok st (t :: post) _ pre) by (done || lia). cbn [mbind option_bind].
    set (cur := fnext (t :: post) MEM_SIZE_ALIGNED).
    assert (C : ∃ b, blocks st !! cur = Some b ∧ (cur =? ram_end) || (mused b =? 0) = true).
    { unfold cur. clear -R. destruct R as [R [p E]]. apply hdrs_app in R as [_ R]. revert R.
      generalize (last_at 0 pre). generalize (t :: post) as ts. induction ts as [|t' ts IH]; intros q R; cbn.
      - rewrite E. by eexists.
      - destruct R as [Ht R]. destruct (used t') eqn:Hu; [by eapply IH|]. rewrite Ht. eexists. split; [done|]. cbn. apply orb_true_r. }
    destruct C as (b & -> & Ec). cbn [mbind option_bind]. rewrite Ec. cbn. eexists. split; [done|]. split_and!; try done. cbn [lfree set_lfree].
    unfold cur. by rewrite (fnext_used pre) by (eapply fnext_at_end; [exact T1|congruence]).
  - eexists. split; [done|]. split_and!; try done. rewrite Lf. symmetry. eapply fnext_inside; [exact T1|congruence].
Qed.

(** Taking a free block large enough: the whole of it, or its front. *)
Lemma take_ok st pre a s post size :
  mem_inv st (pre ++ Tile a s false :: post) → 12 <= size → size mod 4 = 0 → size + 12 <= s →
  ∃ st' mid', take a size st = Some (st', ram st + a + 12) ∧ mem_inv st' (pre ++ mid' ++ post) ∧ ram st' = ram st
    ∧ ∃ s', taken mid' = [Tile a s' true] ∧ size + 12 <= s'.
Proof.
  intros K Hsz Hm Hfit. destruct (inv_taken _ _ _ _ K) as (R & T & T1 & Hs & Hms & T2 & Ha & Ha0 & Hend & Ha4).
  cbn [at_ sz used] in *. destruct K as [[Ir1 [Ir2 Ir3]] _ _ N B Lf]. rewrite fnext_app in Lf. cbn in Lf.
  unfold MEM_SIZE_ALIGNED in Hend, Ir3. unfold SIZEOF_STRUCT_MEM in Ir3.
  assert (Npre : no_adj pre) by (by eapply no_adj_app_l).
  unfold take. rewrite Ha. cbn [mbind option_bind next]. unfold SIZEOF_STRUCT_MEM, MIN_SIZE_ALIGNED.
  rewrite (u32_id (size + 12 + 12)), (u32_id (a + 12)), (u32_id (a + s - (a + 12))), (u32_id (a + 12 + size)) by (unfold is_u32; lia).
  assert (F : ∀ st1 mid', ram st1 = ram st → rep (blocks st1) (pre ++ mid' ++ post) →
    tiles_from a mid' (a + s) → lfree st1 = lfree st → no_adj (pre ++ mid' ++ post) → big mid' →
    (∃ t mid'', mid' = t :: mid'' ∧ at_ t = a ∧ used t = true) →
    (∃ s', taken mid' = [Tile a s' true] ∧ size + 12 <= s') →
    ∃ st' mid', (st2 ← (if a =? lfree st1 then
            cur ← next_free (base.size (blocks st1)) a st1;
            bc ← blocks st1 !! cur;
            _ ← lwip_assert ((cur =? ram_end) || (mused bc =? 0));
            Some (set_lfree cur st1)
          else Some st1);
        _ ← lwip_assert (ram st2 + a + 12 + size <=? ram st2 + ram_end);
        _ ← lwip_assert ((ram st2 + a + 12) mod 4 =? 0);
        _ ← lwip_assert ((ram st2 + a) mod 4 =? 0);
        Some (st2, ram st2 + a + 12)) = Some (st', ram st + a + 12)
      ∧ mem_inv st' (pre ++ mid' ++ post) ∧ ram st' = ram st
      ∧ ∃ s', taken mid' = [Tile a s' true] ∧ size + 12 <= s').
  { intros st1 mid' Er R' T' El N' B' (t & mid'' & -> & Et & Hu) Htk.
    assert (T'' : tiles_from 0 (pre ++ (t :: mid'') ++ post) MEM_SIZE_ALIGNED).
    { apply tiles_app. exists a. split; [done|]. apply tiles_app. by exists (a + s). }
    destruct (adjust_lfree_ok st1 pre t (mid'' ++ post) a R' T'' Et Hu ltac:(congruence)) as (st' & -> & E1 & E2 & E3).
    cbn [mbind option_bind]. rewrite E1, Er. unfold ram_end, MEM_SIZE_ALIGNED.
    rewrite (proj2 (Z.leb_le (ram st + a + 12 + size) (ram st + 102400))) by lia.
    rewrite (proj2 (Z.eqb_eq ((ram st + a + 12) mod 4) 0)) by (Z.to_euclidean_division_equations; lia).
    rewrite (proj2 (Z.eqb_eq ((ram st + a) mod 4) 0)) by (Z.to_euclidean_division_equations; lia).
    exists st', (t :: mid''). split; [done|]. split; [|split; [congruence|done]].
    constructor; rewrite ?E1, ?E2, ?Er; try done.
    apply big_app. split; [by apply big_app in B as [? _]|]. apply big_app. split; [done|].
    apply big_app in B as [_ [_ ?]%Forall_cons]. done. }
  destruct (Z.leb_spec (size + 12 + 12) (a + s - (a + 12))) as [Hsp|Hsp].
  - destruct (insert_free_ok st pre [Tile a s false] post a (a + s) (a + 12 + size) (a + s) false R T1) as (st1 & -> & (E1 & E2 & _) & R1);
      try done; [cbn; split_and!; done || lia|lia|]. cbn [mbind option_bind].
    assert (Q : tiles_from 0 (pre ++ [Tile a (a + 12 + size - a) false; Tile (a + 12 + size) (a + s - (a + 12 + size)) false] ++ post) MEM_SIZE_ALIGNED).
    { apply tiles_app. exists a. split; [done|]. cbn. replace (a + (a + 12 + size - a)) with (a + 12 + size) by lia.
      replace (a + 12 + size + (a + s - (a + 12 + size))) with (a + s) by lia. split_and!; try done; try lia; Z.to_euclidean_division_equations; lia. }
    destruct (set_used_ok st1 pre a _ false true _ R1 Q) as (st2 & -> & (E3 & E4 & _) & R2). cbn [mbind option_bind].
    apply (F st2 [Tile a (a + 12 + size - a) true; Tile (a + 12 + size) (a + s - (a + 12 + size)) false]); try congruence; try exact R2.
    + cbn. split_and!; try lia; Z.to_euclidean_division_equations; lia.
    + apply no_adj_join.
      * apply (no_adj_replace (Tile a s false) _ pre []); [by left|]. apply no_adj_app_l with post. by rewrite <- app_assoc.
      * cbn. split; [by left|]. apply no_adj_app_r in N. destruct post as [|y post]; [done|]. exact N.
    + unfold big; rewrite ?Forall_cons, Forall_nil; unfold SIZEOF_STRUCT_MEM, MIN_SIZE_ALIGNED; cbn; lia.
    + by eexists _, _.
    + eexists. split; [done|]. lia.
  - destruct (set_used_ok st pre a s false true post R T) as (st1 & -> & (E1 & E2 & _) & R1). cbn [mbind option_bind].
    apply (F st1 [Tile a s true]); try congruence; try exact R1.
    + cbn. split_and!; done || lia.
    + by apply (no_adj_replace (Tile a s false)); [left|].
    + unfold big; rewrite ?Forall_cons, Forall_nil; unfold SIZEOF_STRUCT_MEM, MIN_SIZE_ALIGNED; cbn; lia.
    + by eexists _, _.
    + eexists. split; [done|]. lia.
Qed.

Lemma fnext_split a ts e : tiles_from a ts e →
  ∃ us rest, ts = us ++ rest ∧ all_used us ∧ tiles_from a us (fnext ts e) ∧ tiles_from (fnext ts e) rest e.
Proof.
  revert a. induction ts as [|t ts IH]; intros a T; cbn in T |- *.
  - subst. exists [], []. split_and!; try done. constructor.
  - destruct T as (<- & ? & ? & T). destruct (used t) eqn:Hu.
    + destruct (IH _ T) as (us & rest & -> & U & T1 & T2). exists (t :: us), rest.
      split; [done|]. split; [by constructor|]. by split_and!.
    + exists [], (t :: ts). split_and!; try done. constructor.
Qed.

Lemma mem_malloc_ok st ts n : mem_inv st ts → is_u32 n →
  ∃ st' p, mem_malloc n st = Some (st', p) ∧
    ((p = 0 ∧ st' = st ∧ (n = 0 ∨ ∀ t, t ∈ ts → used t = false → sz t < block_size n + 12))
     ∨ ∃ ts' k1 k2 s, mem_inv st' ts' ∧ ram st' = ram st ∧ taken ts = k1 ++ k2
         ∧ taken ts' = k1 ++ Tile (p - ram st - 12) s true :: k2 ∧ block_size n + 12 <= s ∧ ram st < p).
Proof.
  intros K Hn. destruct (block_size_bounds n Hn) as (Hb & Hm & _ & _). unfold mem_malloc.
  destruct (Z.eqb_spec n 0) as [->|Hn0]; [eexists _, 0; split; [done|]; left; auto|].
  pose proof (inv_tiles _ _ K) as T. pose proof (inv_ram _ _ K) as [Ir _].
  destruct (Z.ltb_spec MEM_SIZE_ALIGNED (block_size n)) as [L|L].
  { eexists _, 0. split; [done|]. left. split_and!; try done. right. intros t Ht _.
    pose proof (tiles_in _ _ _ _ T Ht). lia. }
  destruct (fnext_split _ _ _ T) as (us & rest & E & U & T1 & T2). pose proof (inv_rep _ _ K) as R.
  pose proof (mem_rep_size _ _ R T) as Sz. pose proof (tiles_le _ _ _ T1). rewrite E in R, Sz. rewrite length_app in Sz.
  destruct R as [R _]. apply hdrs_app in R as [_ R]. rewrite (inv_lfree _ _ K).
  pose proof (inv_big _ _ K) as B. rewrite E in B. apply big_app in B as [_ B].
  destruct (malloc_loop_ok st (block_size n) ltac:(lia) rest (base.size (blocks st)) _ _ R T2 ltac:(lia) B ltac:(lia))
    as [[-> H1]|(pre & [a s u] & post & -> & Hu & Hfit & ->)].
  - eexists _, 0. split; [done|]. left. split_and!; try done. right. intros t Ht Hu. rewrite E in Ht.
    apply elem_of_app in Ht as [Ht|Ht]; [|by apply H1]. unfold all_used in U. rewrite Forall_forall in U.
    specialize (U _ Ht). cbn in U. congruence.
  - cbn [at_ sz used] in Hu, Hfit |- *. subst u. rewrite E in K |- *. rewrite app_assoc in K |- *.
    destruct (inv_taken _ _ _ _ K) as (_ & _ & _ & _ & _ & _ & _ & Ha0 & _). cbn in Ha0.
    destruct (take_ok st (us ++ pre) a s post (block_size n) K Hb Hm Hfit) as (st' & mid' & -> & K' & Er & s' & Etk & Hs').
    eexists _, _. split; [done|]. right. exists ((us ++ pre) ++ mid' ++ post), (taken (us ++ pre)), (taken post), s'.
    split; [done|]. split; [done|]. split; [by rewrite taken_app, taken_free|].
    split; [|split; [done|cbn; lia]]. rewrite !(taken_app _ (_ ++ _)), (taken_app mid'), Etk. cbn.
    by replace (ram st + a + 12 - ram st - 12) with a by lia.
Qed.

(** ** [plug_holes] *)
Lemma join_right_ok st pre a s post :
  rep (blocks st) (pre ++ Tile a s false :: post) → tiles_from 0 (pre ++ Tile a s false :: post) MEM_SIZE_ALIGNED →
  lfree st ≠ a + s →
  ∃ n st' s' post', blocks st !! (a + s) = Some n ∧
      (if negb (a =? a + s) && (mused n =? 0) && negb (a + s =? ram_end) then
          let st := if lfree st =? a + s then set_lfree a st else st in
          st ← upd a (set_next (next n)) st;
          upd (next n) (set_prev a) st
      else Some st) = Some st' ∧ same_rest st st'
    ∧ rep (blocks st') (pre ++ Tile a s' false :: post')
    ∧ tiles_from 0 (pre ++ Tile a s' false :: post') MEM_SIZE_ALIGNED
    ∧ taken post' = taken post ∧ s <= s' ∧ (no_adj post → no_adj (Tile a s' false :: post')) ∧ (big post → big post').
Proof.
  intros R T Lf. rewrite (proj2 (Z.eqb_neq (lfree st) (a + s)) Lf).
  pose proof T as (x & T1 & T2)%tiles_app. cbn in T2. destruct T2 as (<- & Hs & Hm & T2).
  destruct (header_at (blocks st) (pre ++ [Tile a s false]) post (a + s)) as (h & Hh & Hu & _ & He);
    [by rewrite <- app_assoc|done|].
  exists h. rewrite (proj2 (Z.eqb_neq a (a + s))) by lia. cbn [negb andb].
  destruct (Z.eqb_spec (mused h) 0) as [E|E]; cbn [andb].
  - apply Hu in E as E'. destruct E' as ([b s2 u] & post' & -> & Hub). cbn in Hub. subst u.
    pose proof T2 as (Eb & Hs2 & Hm2 & T2'). cbn in Eb, Hs2, Hm2, T2'. subst b. pose proof (tiles_le _ _ _ T2').
    rewrite (proj2 (Z.eqb_neq (a + s) ram_end)) by (unfold ram_end; lia). cbn [negb].
    pose proof R as [R1 _]. apply hdrs_app in R1 as [_ [_ [Hb _]]]. cbn in Hb. rewrite Hh in Hb. injection Hb as ->. cbn [next].
    destruct (join_ok st pre a s false s2 false post' R T) as (st' & E1 & S & R').
    exists st', (s + s2), post'. split; [done|]. split; [exact E1|]. split; [done|]. split; [done|].
    split. { apply tiles_app. exists a. split; [done|]. cbn. replace (a + (s + s2)) with (a + s + s2) by lia.
      split_and!; try done; try lia. by rewrite Zplus_mod, Hm, Hm2. }
    split; [by rewrite taken_free|]. split; [lia|]. split.
    + intros N. destruct post' as [|y post']; [done|]. destruct N as [[?|?] N]; [done|]. split; [by right|done].
    + by intros [_ ?]%Forall_cons.
  - eexists _, s, post. split; [done|]. split; [done|]. split; [done|]. split; [done|]. split; [done|]. split; [done|]. split; [lia|].
    split; [|done]. intros N. destruct post as [|y post]; [done|]. split; [|done]. right.
    destruct (used y) eqn:Hy; [done|]. exfalso. apply E, Hu. eauto.
Qed.

Lemma join_left_ok st pre a s post :
  rep (blocks st) (pre ++ Tile a s false :: post) → tiles_from 0 (pre ++ Tile a s false :: post) MEM_SIZE_ALIGNED →
  lfree st = fnext pre a → no_adj pre → no_adj (Tile a s false :: post) →
  ∃ p st' pre' a' s', blocks st !! last_at 0 pre = Some p ∧
      (if negb (last_at 0 pre =? a) && (mused p =? 0) then
        let st := if lfree st =? a then set_lfree (last_at 0 pre) st else st in
        st ← upd (last_at 0 pre) (set_next (a + s)) st;
        upd (a + s) (set_prev (last_at 0 pre)) st
      else Some st) = Some st' ∧ ram st' = ram st ∧ lfree st' = fnext (pre' ++ Tile a' s' false :: post) MEM_SIZE_ALIGNED
    ∧ rep (blocks st') (pre' ++ Tile a' s' false :: post)
    ∧ tiles_from 0 (pre' ++ Tile a' s' false :: post) MEM_SIZE_ALIGNED
    ∧ taken pre' = taken pre ∧ s <= s' ∧ no_adj (pre' ++ Tile a' s' false :: post) ∧ (big pre → big pre').
Proof.
  intros R T Lf N1 N2. pose proof T as (x & T1 & T2)%tiles_app. cbn in T2. destruct T2 as (<- & Hs & Hm & T2).
  pose proof R as [R1 _]. apply hdrs_app in R1 as [R0 [Ha R2]]. cbn in Ha.
  assert (Nothing : (∀ t, last pre = Some t → used t = true) →
    ∃ st' pre' a' s', Some st = Some st' ∧ ram st' = ram st ∧ lfree st' = fnext (pre' ++ Tile a' s' false :: post) MEM_SIZE_ALIGNED
    ∧ rep (blocks st') (pre' ++ Tile a' s' false :: post)
    ∧ tiles_from 0 (pre' ++ Tile a' s' false :: post) MEM_SIZE_ALIGNED
    ∧ taken pre' = taken pre ∧ s <= s' ∧ no_adj (pre' ++ Tile a' s' false :: post) ∧ (big pre → big pre')).
  { intros Hl. exists st, pre, a, s. rewrite fnext_app. cbn. split_and!; try done; try lia.
    by apply no_adj_join; [apply no_adj_snoc|]. }
  destruct pre as [|l pre' _] using rev_ind; cbn [last_at].
  - cbn in T1. subst a. eexists. destruct Nothing as (? & ? & ? & ? & ?); [done|]. eauto 10.
  - rewrite last_at_app. cbn [last_at]. apply tiles_app in T1 as (y & T1 & T1'). destruct l as [c s0 u].
    cbn in T1'. destruct T1' as (<- & Hs0 & Hm0 & T1'). subst a. cbn [at_].
    apply hdrs_app in R0 as [_ [Hc _]]. cbn in Hc. rewrite Hc.
    rewrite (proj2 (Z.eqb_neq c (c + s0))) by lia. destruct u; eexists; cbn [negb Z.eqb andb mused].
    + destruct Nothing as (? & ? & ? & ? & ?); [|by eauto 10]. intros t. rewrite last_snoc. by intros [= <-].
    + rewrite fnext_app in Lf. cbn in Lf. pose proof (fnext_bounds _ _ _ T1). pose proof (tiles_le _ _ _ T1).
      rewrite (proj2 (Z.eqb_neq (lfree st) (c + s0))) by lia.
      rewrite <- app_assoc in R, T. cbn [app] in R, T.
      destruct (join_ok st pre' c s0 false s false post R T) as (st' & -> & (E1 & E2 & _) & R').
      exists st', pre', c, (s0 + s). split; [done|]. split; [done|]. split; [done|]. rewrite fnext_app. cbn [fnext used at_].
      split; [congruence|]. split; [done|].
      split. { apply tiles_app. exists c. split; [done|]. cbn. replace (c + (s0 + s)) with (c + s0 + s) by lia.
        split_and!; try done; try lia. by rewrite Zplus_mod, Hm, Hm0. }
      split; [by rewrite taken_app, app_nil_r|]. split; [lia|]. split; [|by intros [? _]%big_app].
      apply no_adj_join.
      * by apply (no_adj_replace (Tile c s0 false) _ pre' []); [right|].
      * destruct post as [|z post]; [done|]. destruct N2 as [[?|?] ?]; [done|]. split; [by right|done].
Qed.

(** Freeing the block between [pre] and [post]. *)
Lemma mem_free_ok st pre a s post :
  mem_inv st (pre ++ Tile a s true :: post) →
  ∃ st' ts', mem_free (ram st + a + 12) st = Some st' ∧ mem_inv st' ts' ∧ ram st' = ram st
    ∧ taken ts' = taken pre ++ taken post.
Proof.
  intros K. destruct (inv_taken _ _ _ _ K) as (R & T & T1 & Hs & Hms & T2 & Ha & Ha0 & Hend & Ha4).
  cbn [at_ sz used] in *. destruct K as [[Ir1 [Ir2 Ir3]] _ _ N B Lf]. rewrite fnext_app in Lf. cbn in Lf.
  apply big_app in B as [B1 [_ B2]%Forall_cons].
  unfold mem_free, ram_end. rewrite (proj2 (Z.eqb_neq (ram st + a + 12) 0)) by lia.
  rewrite (proj2 (Z.eqb_eq ((ram st + a + 12) mod 4) 0)) by (Z.to_euclidean_division_equations; lia).
  cbn [lwip_assert mbind option_bind]. pose proof (tiles_le _ _ _ T1). pose proof (tiles_le _ _ _ T2).
  assert ((ram st <=? ram st + a + 12) && (ram st + a + 12 <? ram st + MEM_SIZE_ALIGNED) = true) as -> by lia.
  assert ((ram st + a + 12 <? ram st) || (ram st + MEM_SIZE_ALIGNED <=? ram st + a + 12) = false) as -> by lia.
  unfold SIZEOF_STRUCT_MEM in *. replace (ram st + a + 12 - 12 - ram st) with a by lia. rewrite Ha. cbn [lwip_assert mbind option_bind mused Z.eqb negb].
  destruct (set_used_ok st pre a s true false post R T) as (st1 & -> & (E1 & E2 & _) & R1). cbn [mbind option_bind].
  set (st2 := if a <? lfree st1 then set_lfree a st1 else st1).
  assert (ram st2 = ram st ∧ blocks st2 = blocks st1 ∧ lfree st2 = fnext pre a) as (F1 & F2 & F3).
  { unfold st2. rewrite E2, Lf. pose proof (fnext_bounds _ _ _ T1). pose proof (fnext_bounds _ _ _ T2).
    destruct (Z.eq_dec (fnext pre a) a) as [E|E].
    - rewrite !(fnext_used pre) by (by eapply fnext_at_end).
      rewrite (proj2 (Z.ltb_lt a (fnext post MEM_SIZE_ALIGNED))) by lia. by split_and!.
    - rewrite (fnext_inside _ _ _ _ T1 E). rewrite (proj2 (Z.ltb_ge a (fnext pre a))) by lia.
      split_and!; try done. by rewrite E2, Lf, (fnext_inside _ _ _ _ T1 E). }
  clearbody st2. rewrite <- F2 in R1.
  assert (T' : tiles_from 0 (pre ++ Tile a s false :: post) MEM_SIZE_ALIGNED).
  { apply tiles_app. exists a. split; [done|]. cbn. split_and!; done || lia. }
  unfold plug_holes, ram_end. rewrite (proj2 (Z.leb_le 0 a)), (proj2 (Z.ltb_lt a MEM_SIZE_ALIGNED)) by lia.
  cbn [lwip_assert mbind option_bind].
  pose proof R1 as [R1' _]. apply hdrs_app in R1' as [_ [Ha' _]]. cbn in Ha'. rewrite Ha'.
  cbn [lwip_assert mbind option_bind mused Z.eqb next]. rewrite (proj2 (Z.leb_le (a + s) MEM_SIZE_ALIGNED)) by lia.
  cbn [lwip_assert mbind option_bind].
  pose proof (fnext_bounds _ _ _ T1).
  destruct (join_right_ok st2 pre a s post R1 T') as (n & st3 & s' & post' & Hn & E3 & (G1 & G2 & _) & R3 & T3 & Tk & Hs' & N3 & B3); [lia|].
  unfold ram_end in E3. rewrite Hn. cbn [mbind option_bind]. cbn [mbind option_bind] in E3. rewrite E3. cbn [mbind option_bind].
  pose proof R3 as [R3' _]. apply hdrs_app in R3' as [_ [Ha3 _]]. cbn in Ha3. rewrite Ha3. cbn [mbind option_bind prev next].
  destruct (join_left_ok st3 pre a s' post' R3 T3) as (p & st4 & pre' & a' & s4 & Hp & E4 & J1 & J2 & R4 & T4 & Tk4 & Hs4 & N4 & B4);
    [congruence|by eapply no_adj_app_l|apply N3, (no_adj_app_r (pre ++ [Tile a s true])); by rewrite <- app_assoc|].
  rewrite Hp. cbn [mbind option_bind]. cbn [mbind option_bind] in E4. rewrite E4.
  exists st4, (pre' ++ Tile a' s4 false :: post'). split; [done|]. split; [|split; [congruence|]].
  - constructor; rewrite ?J1, ?G1, ?F1, ?E1; try done. apply big_app. split; [by apply B4|].
    apply Forall_cons. split; [unfold SIZEOF_STRUCT_MEM, MIN_SIZE_ALIGNED; cbn; lia|by apply B3].
  - rewrite taken_app, taken_free by done. congruence.
Qed.

(** ** [mem_trim] *)
(** The block split off behind the shrunk one reaches up to [e]. *)
Lemma split_off_ok st pre mid post a w e n :
  0 < ram st ∧ ram st mod 4 = 0 ∧ ram st + MEM_SIZE_ALIGNED + SIZEOF_STRUCT_MEM < 2 ^ 32 →
  rep (blocks st) (pre ++ mid ++ post) → blocks st !! a = Some (MkMem n (last_at 0 pre) 1) →
  tiles_from 0 pre a → tiles_from a mid e → tiles_from e post MEM_SIZE_ALIGNED →
  12 <= w → w mod 4 = 0 → (e - a) mod 4 = 0 → a + 12 + w + 24 <= e → lfree st = fnext pre (a + 12 + w) →
  no_adj pre → no_adj post → (∀ t, head post = Some t → used t = true) → big pre → big post →
  ∃ st', insert_free a (a + 12 + w) e st = Some st' ∧ ram st' = ram st
    ∧ mem_inv st' (pre ++ Tile a (w + 12) true :: Tile (a + 12 + w) (e - (a + 12 + w)) false :: post).
Proof.
  intros Ir R Ha T1 T2 T3 Hw Hwm Hem Hle Lf N1 N2 Hh B1 B2.
  destruct (insert_free_ok st pre mid post a e (a + 12 + w) n true R T1 T2 T3 Ha ltac:(lia)) as (st' & E & (F1 & F2 & _) & R').
  exists st'. split; [done|]. split; [done|]. replace (a + 12 + w - a) with (w + 12) in R' by lia.
  constructor; rewrite ?F1, ?F2; try done.
  - apply tiles_app. exists a. split; [done|]. cbn. replace (a + (w + 12)) with (a + 12 + w) by lia.
    replace (a + 12 + w + (e - (a + 12 + w))) with e by lia.
    split_and!; try done; try lia; Z.to_euclidean_division_equations; lia.
  - apply no_adj_join; [by apply no_adj_snoc_used|].
    split; [by left|]. destruct post as [|y post]; [done|]. split; [right; by apply Hh|done].
  - apply big_app. split; [done|]. unfold big. rewrite !Forall_cons. unfold SIZEOF_STRUCT_MEM, MIN_SIZE_ALIGNED.
    cbn. split_and!; try lia. done.
  - rewrite Lf, fnext_app. done.
Qed.

(** [lfree] when the block that begins at [x] behind [a] is the first free one
    of the rest. *)
Lemma lfree_move pre a x y : tiles_from 0 pre a → a < x → a < y →
  (if fnext pre x =? x then y else fnext pre x) = fnext pre y
  ∧ (if y <? fnext pre x then y else fnext pre x) = fnext pre (Z.min x y).
Proof.
  intros T Hx Hy. pose proof (fnext_bounds _ _ _ T). destruct (Z.eq_dec (fnext pre a) a) as [E|E].
  - pose proof (fnext_at_end _ _ _ T E) as U. rewrite !(fnext_used pre _ U), Z.eqb_refl. split; [done|].
    destruct (Z.ltb_spec y x); lia.
  - rewrite (fnext_inside _ _ _ x T E), (fnext_inside _ _ _ y T E), (fnext_inside _ _ _ (x `min` y) T E).
    rewrite (proj2 (Z.eqb_neq (fnext pre a) x)) by lia.
    by rewrite (proj2 (Z.ltb_ge y (fnext pre a))) by lia.
Qed.

Lemma mem_trim_ok st pre a s post n :
  mem_inv st (pre ++ Tile a s true :: post) → is_u32 n → block_size n + 12 <= s →
  ∃ st' s' mid, mem_trim (ram st + a + 12) n st = Some (st', ram st + a + 12) ∧ ram st' = ram st
    ∧ mem_inv st' (pre ++ Tile a s' true :: mid) ∧ taken mid = taken post ∧ block_size n + 12 <= s' <= s.
Proof.
  intros K Hn Hfit. destruct (block_size_bounds n Hn) as (Hb & Hbm & _ & _).
  destruct (inv_taken _ _ _ _ K) as (R & T & T1 & Hs & Hms & T2 & Ha & Ha0 & Hend & Ha4).
  cbn [at_ sz used] in *. pose proof K as [[Ir1 [Ir2 Ir3]] _ _ N B Lf]. rewrite fnext_app in Lf. cbn in Lf.
  unfold MEM_SIZE_ALIGNED in Hend, Ir3. unfold SIZEOF_STRUCT_MEM in Ir3.
  apply big_app in B as [B1 [_ B2]%Forall_cons].
  unfold mem_trim, ram_end. set (w := block_size n) in *.
  assert ((MEM_SIZE_ALIGNED <? w) = false) as -> by (unfold MEM_SIZE_ALIGNED; lia).
  assert (((ram st <=? ram st + a + 12) && (ram st + a + 12 <? ram st + MEM_SIZE_ALIGNED)) = true) as -> by (unfold MEM_SIZE_ALIGNED; lia).
  assert (((ram st + a + 12 <? ram st) || (ram st + MEM_SIZE_ALIGNED <=? ram st + a + 12)) = false) as -> by (unfold MEM_SIZE_ALIGNED; lia).
  unfold SIZEOF_STRUCT_MEM, MIN_SIZE_ALIGNED in *. replace (ram st + a + 12 - 12 - ram st) with a by lia. rewrite Ha.
  cbn [lwip_assert mbind option_bind next].
  rewrite (u32_id (a + s - a - 12)), (u32_id (a + 12 + w)), (u32_id (w + 12 + 12)) by (unfold is_u32; lia).
  rewrite (proj2 (Z.leb_le w (a + s - a - 12))), (proj2 (Z.ltb_ge (a + s - a - 12) w)) by lia. cbn [lwip_assert mbind option_bind].
  assert (Same : ∃ st' s' mid, Some (st, ram st + a + 12) = Some (st', ram st + a + 12) ∧ ram st' = ram st
    ∧ mem_inv st' (pre ++ Tile a s' true :: mid) ∧ taken mid = taken post ∧ w + 12 <= s' <= s).
  { exists st, s, post. by split_and!. }
  destruct (Z.eqb_spec w (a + s - a - 12)) as [E|E]; [exact Same|].
  destruct (header_at (blocks st) (pre ++ [Tile a s true]) post (a + s)) as (h & Hh & Hu & _ & _); [by rewrite <- app_assoc|done|].
  rewrite Hh. cbn [mbind option_bind].
  pose proof (no_adj_app_l _ _ N) as Npre. pose proof (no_adj_app_r _ _ N) as Nt.
  destruct (Z.eqb_spec (mused h) 0) as [Eu|Eu].
  - apply Hu in Eu as ([b s2 u] & post' & -> & Hub). cbn in Hub. subst u.
    destruct T2 as (Eb & Hs2 & Hm2 & T2). cbn in Eb, Hs2, Hm2, T2. subst b.
    pose proof R as [R1 _]. apply hdrs_app in R1 as [_ [_ [Hr _]]]. cbn in Hr. rewrite Hh in Hr. injection Hr as ->. cbn [next].
    cbn in Lf. destruct (lfree_move pre a (a + s) (a + 12 + w) T1 ltac:(lia) ltac:(lia)) as [L1 _].
    apply Forall_cons in B2 as [B20 B2]. cbn in B20.
    destruct (split_off_ok (if lfree st =? a + s then set_lfree (a + 12 + w) st else st) pre
      [Tile a s true; Tile (a + s) s2 false] post' a w (a + s + s2) (a + s)) as (st' & -> & E1 & K');
      try (destruct (lfree st =? a + s); done); try done.
    + cbn. split_and!; done || lia.
    + Z.to_euclidean_division_equations; lia.
    + Z.to_euclidean_division_equations; lia.
    + rewrite Lf in *. destruct (fnext pre (a + s) =? a + s); cbn; congruence.
    + destruct post'; [done|]. apply Nt.
    + intros t Ht. destruct post' as [|y post']; [done|]. injection Ht as ->. destruct Nt as [_ [[?|?] _]]; [done|done].
    + cbn [mbind option_bind]. eexists _, _, _. split; [done|].
      split; [rewrite E1; by destruct (lfree st =? a + s)|]. split; [exact K'|]. split; [by rewrite !taken_free|lia].
  - destruct (Z.leb_spec (w + 12 + 12) (a + s - a - 12)) as [Hsp|Hsp]; [|exact Same].
    pose proof (fnext_bounds _ _ _ T2) as Fb.
    destruct (lfree_move pre a (fnext post MEM_SIZE_ALIGNED) (a + 12 + w) T1 ltac:(lia) ltac:(lia)) as [_ L2].
    destruct (split_off_ok (if a + 12 + w <? lfree st then set_lfree (a + 12 + w) st else st) pre
      [Tile a s true] post a w (a + s) (a + s)) as (st' & -> & E1 & K');
      try (destruct (a + 12 + w <? lfree st); done); try done.
    + cbn. split_and!; done || lia.
    + Z.to_euclidean_division_equations; lia.
    + lia.
    + rewrite Z.min_r in L2 by lia. rewrite Lf in *. destruct (a + 12 + w <? fnext pre _); cbn; congruence.
    + destruct post; [done|]. apply Nt.
    + intros t Ht. destruct post as [|y post]; [done|]. injection Ht as ->. destruct (used t) eqn:Hut; [done|].
      exfalso. apply Eu, Hu. eauto.
    + cbn [mbind option_bind]. eexists _, _, _. split; [done|].
      split; [rewrite E1; by destruct (a + 12 + w <? lfree st)|]. split; [exact K'|]. split; [by rewrite taken_free|lia].
Qed.

(** ** The blocks of a heap *)
Lemma mem_init_ok ram_heap bytes : 0 < ram_heap → ram_heap + MEM_SIZE_ALIGNED + SIZEOF_STRUCT_MEM + 4 < 2 ^ 32 →
  mem_inv (mem_init ram_heap bytes) [Tile 0 MEM_SIZE_ALIGNED false].
Proof.
  unfold MEM_SIZE_ALIGNED, SIZEOF_STRUCT_MEM. intros H0 H1. constructor; cbn [ram mem_init blocks lfree].
  - unfold MEM_SIZE_ALIGNED, SIZEOF_STRUCT_MEM. split; [|split]; Z.to_euclidean_division_equations; lia.
  - split; [by split|by eexists].
  - by split_and!.
  - done.
  - by constructor.
  - done.
Qed.

(** [mem_free] and [mem_trim] of an allocated block. *)
Lemma mem_free_block st ts k1 k2 a s :
  mem_inv st ts → taken ts = k1 ++ Tile a s true :: k2 →
  ∃ st' ts', mem_free (ram st + a + 12) st = Some st' ∧ mem_inv st' ts' ∧ ram st' = ram st ∧ taken ts' = k1 ++ k2.
Proof.
  intros K E. apply taken_split in E as (pre & post & -> & <- & <-). by apply mem_free_ok with s.
Qed.

Lemma mem_trim_block st ts k1 k2 a s n :
  mem_inv st ts → taken ts = k1 ++ Tile a s true :: k2 → is_u32 n → block_size n + 12 <= s →
  ∃ st' ts' s', mem_trim (ram st + a + 12) n st = Some (st', ram st + a + 12) ∧ mem_inv st' ts' ∧ ram st' = ram st
    ∧ taken ts' = k1 ++ Tile a s' true :: k2 ∧ block_size n + 12 <= s' <= s.
Proof.
  intros K E Hn Hs. apply taken_split in E as (pre & post & -> & <- & <-).
  destruct (mem_trim_ok st pre a s post n K Hn Hs) as (st' & s' & mid & E1 & Er & K' & Et & Hs').
  exists st', (pre ++ Tile a s' true :: mid), s'. split_and!; try done; [|lia..].
  by rewrite taken_app, taken_used, Et.
Qed.

(** ** A client of the heap

    [live] maps the pointers it holds to the sizes it asked for. *)
Inductive mem_step : mem_heap * gmap Z Z → mem_heap * gmap Z Z → Prop :=
  | step_malloc n st st' p (live : gmap Z Z) : 0 <= n <= 4294967292 → mem_malloc n st = Some (st', p) →
      mem_step (st, live) (st', if p =? 0 then live else <[p := n]> live)
  | step_free p n st st' (live : gmap Z Z) : live !! p = Some n → mem_free p st = Some st' →
      mem_step (st, live) (st', delete p live)
  | step_trim p n n' st st' q (live : gmap Z Z) : live !! p = Some n → 0 <= n' <= n → mem_trim p n' st = Some (st', q) →
      mem_step (st, live) (st', <[p := n']> live).

(** What the client holds is what is allocated. *)
Record client_inv (s : mem_heap * gmap Z Z) ts : Prop := {
  cl_inv : mem_inv s.1 ts;
  cl_live p n : s.2 !! p = Some n →
    0 <= n <= 4294967292 ∧ ∃ t, t ∈ taken ts ∧ p = ram s.1 + at_ t + 12 ∧ block_size n + 12 <= sz t;
  cl_taken t : t ∈ taken ts → is_Some (s.2 !! (ram s.1 + at_ t + 12)) }.

Lemma taken_at_inj st ts t t' : mem_inv st ts → t ∈ taken ts → t' ∈ taken ts → at_ t = at_ t' → t = t'.
Proof.
  intros K [Ht _]%elem_of_taken [Ht' _]%elem_of_taken E.
  destruct (tiles_apart _ _ _ t t' (inv_tiles _ _ K) Ht Ht') as [->|H]; [done|].
  pose proof (tiles_in _ _ _ _ (inv_tiles _ _ K) Ht). pose proof (tiles_in _ _ _ _ (inv_tiles _ _ K) Ht'). lia.
Qed.

Lemma block_size_mono n n' : 0 <= n <= n' → n' <= 4294967292 → block_size n <= block_size n'.
Proof.
  intros ? ?. unfold block_size, align_size, MIN_SIZE_ALIGNED. rewrite !u32_id by (unfold is_u32; lia).
  destruct (Z.ltb_spec ((n + 3) / 4 * 4) 12), (Z.ltb_spec ((n' + 3) / 4 * 4) 12); Z.to_euclidean_division_equations; lia.
Qed.

Lemma taken_nodup st ts : mem_inv st ts → NoDup (taken ts).
Proof.
  intros K. unfold taken. apply NoDup_filter, (NoDup_fmap_1 at_). by eapply tiles_nodup, inv_tiles.
Qed.

(** A held pointer and its block. *)
Lemma held_block st live ts p n : client_inv (st, live) ts → live !! p = Some n →
  ∃ k1 k2 a s, taken ts = k1 ++ Tile a s true :: k2 ∧ p = ram st + a + 12 ∧ block_size n + 12 <= s
    ∧ 0 <= n <= 4294967292 ∧ Tile a s true ∉ k1 ++ k2.
Proof.
  intros [K L _] E. cbn in *. destruct (L _ _ E) as (Hn & [a s u] & Ht & -> & Hs).
  pose proof Ht as [_ Hu]%elem_of_taken. cbn in Hu. subst u.
  pose proof (taken_nodup _ _ K) as ND. apply list_elem_of_split in Ht as (k1 & k2 & E2). exists k1, k2, a, s.
  split_and!; try done; try lia. rewrite E2 in ND. rewrite <- Permutation_middle in ND. by apply NoDup_cons in ND as [? _].
Qed.

Lemma mem_step_inv s s' ts : client_inv s ts → mem_step s s' → ∃ ts', client_inv s' ts'.
Proof.
  intros C S. destruct S as [n st st' p live Hn E|p n st st' live El E|p n n' st st' q live El Hn E];
    pose proof (cl_inv _ _ C) as K; pose proof (cl_live _ _ C) as L; pose proof (cl_taken _ _ C) as T; cbn [fst snd] in *.
  - destruct (mem_malloc_ok st ts n K ltac:(unfold is_u32; lia)) as (st1 & p1 & E1 & R). rewrite E in E1. injection E1 as <- <-.
    destruct R as [(-> & -> & _)|(ts' & k1 & k2 & s & K' & Er & Et & Et' & Hs & Hp)]; [by exists ts|].
    pose proof (proj1 (inv_ram _ _ K)). rewrite (proj2 (Z.eqb_neq p 0)) by lia. exists ts'. constructor; cbn [fst snd]; rewrite ?Er; [done|..].
    + intros q m Hq. apply lookup_insert_Some in Hq as [[<- <-]|[_ Hq]].
      * split; [done|]. exists (Tile (p - ram st - 12) s true). rewrite Et'. cbn. split; [set_solver|lia].
      * destruct (L _ _ Hq) as (? & t & Ht & ? & ?). split; [done|]. exists t. rewrite Et' . rewrite Et in Ht. set_solver.
    + intros t Ht. apply lookup_insert_is_Some'. rewrite Et' in Ht. rewrite Et in T. cbn [fst snd] in *.
      assert (t = Tile (p - ram st - 12) s true ∨ t ∈ k1 ++ k2) as [->|Ht'] by set_solver; [left; cbn; lia|right; by apply T].
  - destruct (held_block _ _ _ _ _ C El) as (k1 & k2 & a & s & Et & -> & Hs & _ & Hnew).
    destruct (mem_free_block _ _ _ _ _ _ K Et) as (st1 & ts' & E1 & K' & Er & Et'). rewrite E in E1. injection E1 as <-.
    exists ts'. constructor; cbn [fst snd]; rewrite ?Er; [done|..].
    + intros q m Hq. apply lookup_delete_Some in Hq as [Hne Hq]. destruct (L _ _ Hq) as (? & t & Ht & ? & ?).
      split; [done|]. exists t. rewrite Et'. rewrite Et in Ht. split; [|done].
      assert (t = Tile a s true ∨ t ∈ k1 ++ k2) as [->|?] by set_solver; [|done]. cbn in *. lia.
    + intros t Ht. rewrite Et' in Ht. assert (Ht2 : t ∈ taken ts) by (rewrite Et; set_solver).
      rewrite lookup_delete_ne; [by apply T|]. intros Ha. apply Hnew.
      assert (Tile a s true = t) as ->; [|done]. apply (taken_at_inj st ts); [done|rewrite Et; set_solver|done|cbn; lia].
  - destruct (held_block _ _ _ _ _ C El) as (k1 & k2 & a & s & Et & -> & Hs & Hn2 & Hnew).
    pose proof (block_size_mono n' n ltac:(lia) ltac:(lia)) as Hmono.
    destruct (mem_trim_block st ts k1 k2 a s n' K Et ltac:(unfold is_u32; lia) ltac:(lia)) as (st1 & ts' & s' & E1 & K' & Er & Et' & Hs').
    rewrite E in E1. injection E1 as <- _. exists ts'. constructor; cbn [fst snd]; rewrite ?Er; [done|..].
    + intros q' m Hq. apply lookup_insert_Some in Hq as [[<- <-]|[Hne Hq]].
      * split; [lia|]. exists (Tile a s' true). rewrite Et'. cbn. split; [set_solver|lia].
      * destruct (L _ _ Hq) as (? & t & Ht & ? & ?). split; [done|]. exists t. rewrite Et'. rewrite Et in Ht. split; [|done].
        assert (t = Tile a s true ∨ t ∈ k1 ++ k2) as [->|?] by set_solver; [|set_solver]. cbn in *. lia.
    + intros t Ht. apply lookup_insert_is_Some'. rewrite Et' in Ht. rewrite Et in T.
      assert (t = Tile a s' true ∨ t ∈ k1 ++ k2) as [->|?] by set_solver; [by left|right; apply T; set_solver].
Qed.

(** C20. Whatever sequence of allocations, trims and releases of live pointers
    a program makes after [mem_init], with sizes up to 2^32 - 4: the pointers
    are aligned, the octets asked for lie in the heap and do not overlap those
    of another live pointer, no call fails an assertion, and once all are
    released the whole heap is again a single free block. *)
Theorem mem_client_safe ram_heap bytes st live :
  0 < ram_heap → ram_heap + MEM_SIZE_ALIGNED + SIZEOF_STRUCT_MEM + 4 < 2 ^ 32 →
  rtc mem_step (mem_init ram_heap bytes, ∅) (st, live) →
  (∀ p n, live !! p = Some n → p mod 4 = 0 ∧ ram st + 12 <= p ∧ p + n <= ram st + MEM_SIZE_ALIGNED ∧
     ∀ q n', live !! q = Some n' → q ≠ p → q + n' < p ∨ p + n < q)
  ∧ (∀ p n, live !! p = Some n → is_Some (mem_free p st))
  ∧ (∀ p n n', live !! p = Some n → 0 <= n' <= n → ∃ st', mem_trim p n' st = Some (st', p))
  ∧ (∀ n, is_u32 n → is_Some (mem_malloc n st))
  ∧ (live = ∅ → blocks st !! 0 = Some (MkMem MEM_SIZE_ALIGNED 0 0) ∧ lfree st = 0).
Proof.
  intros H0 H1 R. assert (∃ ts, client_inv (st, live) ts) as [ts C].
  { remember (mem_init ram_heap bytes, ∅) as s0 eqn:E0. remember (st, live) as s1 eqn:E1.
    assert (∃ ts, client_inv s0 ts) as I0.
    { exists [Tile 0 MEM_SIZE_ALIGNED false]. subst. constructor; cbn [fst snd]; [by apply mem_init_ok|done|].
      intros t Ht. rewrite taken_free in Ht by done. set_solver. }
    clear E0 E1. induction R as [s|s s' s'' S R IH]; [done|]. apply IH. destruct I0 as [ts I0]. by eapply mem_step_inv. }
  pose proof (cl_inv _ _ C) as K. pose proof (cl_live _ _ C) as L. cbn [fst snd] in K, L.
  destruct (inv_ram _ _ K) as (Hr0 & Hr4 & Hr). pose proof (inv_tiles _ _ K) as T.
  split; [|split; [|split; [|split]]].
  - intros p n El. destruct (L _ _ El) as (Hn & t & Ht & -> & Hs). pose proof Ht as [Ht' _]%elem_of_taken.
    pose proof (tiles_in _ _ _ _ T Ht'). pose proof (tiles_aligned 0 ts _ t eq_refl T Ht').
    destruct (block_size_bounds n ltac:(unfold is_u32; lia)) as (_ & _ & B & _). specialize (B ltac:(lia)).
    split; [Z.to_euclidean_division_equations; lia|]. split; [lia|]. split; [lia|].
    intros q m Eq Hne. destruct (L _ _ Eq) as (Hm & t2 & Ht2 & -> & Hs2). pose proof Ht2 as [Ht2' _]%elem_of_taken.
    destruct (block_size_bounds m ltac:(unfold is_u32; lia)) as (_ & _ & B2 & _). specialize (B2 ltac:(lia)).
    destruct (tiles_apart _ _ _ t t2 T Ht' Ht2') as [->|?]; [done|lia].
  - intros p n El. destruct (held_block _ _ _ _ _ C El) as (k1 & k2 & a & s & Et & -> & _).
    destruct (mem_free_block _ _ _ _ _ _ K Et) as (? & ? & -> & _). by eexists.
  - intros p n n' El Hn'. destruct (held_block _ _ _ _ _ C El) as (k1 & k2 & a & s & Et & -> & Hs & Hn & _).
    pose proof (block_size_mono n' n ltac:(lia) ltac:(lia)).
    destruct (mem_trim_block st ts k1 k2 a s n' K Et ltac:(unfold is_u32; lia) ltac:(lia)) as (st' & _ & _ & -> & _). by eexists.
  - intros n Hn. destruct (mem_malloc_ok st ts n K Hn) as (? & ? & -> & _). by eexists.
  - intros ->. pose proof (cl_taken _ _ C) as Tk. cbn [fst snd] in Tk.
    assert (Et : taken ts = []).
    { destruct (taken ts) as [|t l]; [done|]. destruct (Tk t) as [? E]; [set_solver|]. by rewrite lookup_empty in E. }
    pose proof (single_free 0 ts MEM_SIZE_ALIGNED T (inv_adj _ _ K) ltac:(done) Et) as ->.
    destruct (inv_rep _ _ K) as [[E _] _]. split; [exact E|]. by rewrite (inv_lfree _ _ K).
Qed.

Lemma mem_client_safe_witness :
  ∃ st, rtc mem_step (mem_init 4097 (λ _, 0), ∅) (st, {[ 4112 := 50 ]}) ∧ is_Some (mem_free 4112 st).
Proof.
  destruct (mem_malloc 50 (mem_init 4097 (λ _, 0))) as [[st p]|] eqn:E; [|by vm_compute in E].
  assert (p = 4112) as -> by (vm_compute in E; congruence). exists st.
  assert (R : rtc mem_step (mem_init 4097 (λ _, 0), ∅) (st, {[ 4112 := 50 ]})).
  { eapply rtc_l; [|apply rtc_refl]. exact (step_malloc 50 _ st 4112 ∅ ltac:(lia) E). }
  split; [exact R|].
  destruct (mem_client_safe 4097 (λ _, 0) st _ ltac:(lia) ltac:(by vm_compute) R) as (_ & F & _).
  apply (F 4112 50). apply lookup_singleton_eq.
Defined.

(** The size arithmetic of [mem_malloc] wraps: the request for 2^32 - 3
    octets is granted with a block of 12, and [mem_calloc] takes 65536 elements
    of 65537 octets for 65536 octets. *)
Theorem mem_malloc_wraps :
  let granted r := match r with Some (st, p) => (p, blocks st !! 0) | None => (0, None) end in
  granted (mem_malloc 4294967293 (mem_init 4096 (λ _, 0))) = (4108, Some (MkMem 24 0 1))
  ∧ granted (mem_calloc 65536 65537 (mem_init 4096 (λ _, 0))) = (4108, Some (MkMem 65548 0 1)).
Proof. split; by vm_compute. Qed.
