(* ===== verification/Pbuf.v ===== *)
(** * lwip-1.4.1/src/core/pbuf.c: packet buffers, definitions

    The structures of all pbufs live in one store indexed by their address,
    so that chains share tails and several owners hold one pbuf, as in C; the
    octets of the payloads live in a byte-addressed memory.  A function
    returns [None] where the code stops at an [LWIP_ASSERT] (the platform's
    assertion loops forever) or would follow a dangling or null pointer. *)
From S2P Require Import Prelude LwipDef Chksum Memp.
Local Open Scope Z_scope.

(** ** Configuration: include/lwip/opt.h with include/arch/lwipopts.h *)
Definition LWIP_MEM_ALIGN_SIZE (n : Z) : Z := (n + 3) / 4 * 4.
Definition PBUF_TRANSPORT_HLEN : Z := 20.
Definition PBUF_IP_HLEN : Z := 20.
Definition PBUF_LINK_HLEN : Z := 14.
(** [LWIP_MEM_ALIGN_SIZE(TCP_MSS+40+PBUF_LINK_HLEN)] with TCP_MSS 1000. *)
Definition PBUF_POOL_BUFSIZE_ALIGNED : Z := 1056.
Definition SIZEOF_STRUCT_PBUF : Z := 16.
Definition PBUF_FLAG_IS_CUSTOM : Z := 2.
Definition ERR_OK : Z := 0.
Definition ERR_VAL : Z := -6.
Definition ERR_ARG : Z := -14.

(** ** Data: include/lwip/pbuf.h *)
Inductive pbuf_layer := PBUF_TRANSPORT | PBUF_IP | PBUF_LINK | PBUF_RAW.
Inductive pbuf_type := PBUF_RAM | PBUF_ROM | PBUF_REF | PBUF_POOL.

#[export] Instance pbuf_type_eq_dec : EqDecision pbuf_type.
Proof. solve_decision. Defined.

Record pbuf := MkPbuf {
  next : option Z;
  payload : Z;
  tot_len : Z;
  len : Z;
  type : pbuf_type;
  flags : Z;
  ref : Z }.

(** ** The memory managers pbuf.c relies on (memp.c, mem.c)

    [live] maps each block handed out to where it came from. *)
Inductive block := POOL (k : memp_t) | HEAP | CUSTOM.

Class Arena (A : Type) := {
  memp_malloc : memp_t → A → option (Z * A);
  memp_free : memp_t → Z → A → A;
  mem_malloc : Z → A → option (Z * A);
  mem_free : Z → A → A;
  mem_trim : Z → Z → A → A;
  custom_free_function : Z → A → A;
  live : A → gmap Z block }.

Class ArenaLaws (A : Type) `{Arena A} := {
  memp_malloc_fresh k a p a' : memp_malloc k a = Some (p, a') →
    live a !! p = None ∧ live a' = <[p := POOL k]> (live a) ∧ p mod 4 = 0 ∧ 0 < p;
  mem_malloc_fresh n a p a' : mem_malloc n a = Some (p, a') →
    live a !! p = None ∧ live a' = <[p := HEAP]> (live a) ∧ p mod 4 = 0 ∧ 0 < p;
  memp_free_live k p a : live a !! p = Some (POOL k) → live (memp_free k p a) = delete p (live a);
  mem_free_live p a : live a !! p = Some HEAP → live (mem_free p a) = delete p (live a);
  custom_free_live p a : live a !! p = Some CUSTOM → live (custom_free_function p a) = delete p (live a);
  mem_trim_live p n a : live a !! p = Some HEAP → live (mem_trim p n a) = live a }.

(** ** The state

    [raw_flags] is the flags octet a block holds before pbuf.c writes it. *)
Record heap (A : Type) := MkHeap {
  pbufs : gmap Z pbuf;
  mem : Z → Z;
  arena : A;
  raw_flags : Z → Z;
  ooseq_pending : bool }.
Arguments MkHeap {A}.
Arguments pbufs {A}.
Arguments mem {A}.
Arguments arena {A}.
Arguments raw_flags {A}.
Arguments ooseq_pending {A}.

Section operations.
Context {A : Type} `{Arena A}.
Implicit Types (h : heap A) (p q : Z) (b : pbuf).

Definition with_pbufs (m : gmap Z pbuf) h : heap A :=
  MkHeap m (mem h) (arena h) (raw_flags h) (ooseq_pending h).
Definition with_mem (m : Z → Z) h : heap A :=
  MkHeap (pbufs h) m (arena h) (raw_flags h) (ooseq_pending h).
Definition with_arena (a : A) h : heap A :=
  MkHeap (pbufs h) (mem h) a (raw_flags h) (ooseq_pending h).
Definition with_pending (f : bool) h : heap A :=
  MkHeap (pbufs h) (mem h) (arena h) (raw_flags h) f.

(** Field updates of a pbuf. *)
Definition upd (p : Z) (f : pbuf → pbuf) h : option (heap A) :=
  b ← pbufs h !! p; Some (with_pbufs (<[p := f b]> (pbufs h)) h).

Definition set_next (n : option Z) b := MkPbuf n (payload b) (tot_len b) (len b) (type b) (flags b) (ref b).
Definition set_payload (a : Z) b := MkPbuf (next b) a (tot_len b) (len b) (type b) (flags b) (ref b).
Definition set_tot_len (n : Z) b := MkPbuf (next b) (payload b) n (len b) (type b) (flags b) (ref b).
Definition set_len (n : Z) b := MkPbuf (next b) (payload b) (tot_len b) n (type b) (flags b) (ref b).
Definition set_flags (n : Z) b := MkPbuf (next b) (payload b) (tot_len b) (len b) (type b) n (ref b).
Definition set_ref (n : Z) b := MkPbuf (next b) (payload b) (tot_len b) (len b) (type b) (flags b) n.

(** The block of a freed pbuf goes back to where it came from and is no pbuf
    any more.  The flags octet of a block of the pools or the heap stays in
    its memory; a custom pbuf lies outside of them. *)
Definition dealloc p b h : heap A :=
  let custom := negb (Z.land (flags b) PBUF_FLAG_IS_CUSTOM =? 0) in
  let a :=
    if custom then custom_free_function p (arena h)
    else match type b with
         | PBUF_POOL => memp_free MEMP_PBUF_POOL p (arena h)
         | PBUF_ROM | PBUF_REF => memp_free MEMP_PBUF p (arena h)
         | PBUF_RAM => mem_free p (arena h)
         end in
  MkHeap (delete p (pbufs h)) (mem h) a
    (λ x, if (x =? p) && negb custom then flags b else raw_flags h x) (ooseq_pending h).

(** ** [pbuf_free] *)
Fixpoint free_loop (fuel : nat) (p : option Z) (count : Z) h : option (heap A * Z) :=
  match p with
  | None => Some (h, count)
  | Some p =>
      match fuel with
      | O => None
      | S fuel =>
          b ← pbufs h !! p;
          _ ← lwip_assert (0 <? ref b);
          let r := u16 (ref b - 1) in
          let b := set_ref r b in
          let h := with_pbufs (<[p := b]> (pbufs h)) h in
          if r =? 0
          then free_loop fuel (next b) (u8 (count + 1)) (dealloc p b h)
          else Some (h, count)
      end
  end.

Definition pbuf_free (p : option Z) h : option (heap A * Z) :=
  match p with
  | None => None  (* LWIP_ASSERT("p != NULL", p != NULL) *)
  | Some _ => free_loop (size (pbufs h)) p 0 h
  end.

(** ** [pbuf_alloc] *)
Definition layer_offset (layer : pbuf_layer) : Z :=
  match layer with
  | PBUF_TRANSPORT => PBUF_LINK_HLEN + PBUF_IP_HLEN + PBUF_TRANSPORT_HLEN
  | PBUF_IP => PBUF_LINK_HLEN + PBUF_IP_HLEN
  | PBUF_LINK => PBUF_LINK_HLEN
  | PBUF_RAW => 0
  end.

Definition LWIP_MEM_ALIGN (a : Z) : Z := (a + 3) / 4 * 4.

(** The [while (rem_len > 0)] loop: [r] is the last pbuf of the chain under
    construction.  [inl] is the chain built, [inr] the failure after which
    the first pbuf has been freed. *)
Fixpoint alloc_loop (fuel : nat) (p r rem_len : Z) h : option (heap A * bool) :=
  if negb (0 <? rem_len) then Some (h, true) else
  match fuel with
  | O => None
  | S fuel =>
      match memp_malloc MEMP_PBUF_POOL (arena h) with
      | None =>
          let h := with_pending true h in
          '(h, _) ← pbuf_free (Some p) h; Some (h, false)
      | Some (q, a) =>
          let h := with_arena a h in
          h ← upd r (set_next (Some q)) h;
          _ ← lwip_assert (rem_len <? 65535);
          let l := Z.min (u16 rem_len) PBUF_POOL_BUFSIZE_ALIGNED in
          let pl := q + SIZEOF_STRUCT_PBUF in
          _ ← lwip_assert (pl mod 4 =? 0);
          b ← pbufs h !! p;
          _ ← lwip_assert (payload b + len b <=? p + SIZEOF_STRUCT_PBUF + PBUF_POOL_BUFSIZE_ALIGNED);
          let h := with_pbufs (<[q := MkPbuf None pl (u16 rem_len) l PBUF_POOL 0 1]> (pbufs h)) h in
          alloc_loop fuel p q (rem_len - l) h
      end
  end.

Definition pbuf_alloc (layer : pbuf_layer) (length : Z) (ty : pbuf_type) h : option (heap A * option Z) :=
  let offset := layer_offset layer in
  match ty with
  | PBUF_POOL =>
      match memp_malloc MEMP_PBUF_POOL (arena h) with
      | None => Some (with_pending true h, None)
      | Some (p, a) =>
          let pl := LWIP_MEM_ALIGN (p + (SIZEOF_STRUCT_PBUF + offset)) in
          _ ← lwip_assert (pl mod 4 =? 0);
          let l := u16 (Z.min length (PBUF_POOL_BUFSIZE_ALIGNED - LWIP_MEM_ALIGN_SIZE offset)) in
          _ ← lwip_assert (pl + l <=? p + SIZEOF_STRUCT_PBUF + PBUF_POOL_BUFSIZE_ALIGNED);
          _ ← lwip_assert (0 <? PBUF_POOL_BUFSIZE_ALIGNED - LWIP_MEM_ALIGN_SIZE offset);
          let b := MkPbuf None pl length l PBUF_POOL (raw_flags h p) 1 in
          let h := with_pbufs (<[p := b]> (pbufs h)) (with_arena a h) in
          let rem_len := length - l in
          '(h, ok) ← alloc_loop (Z.to_nat rem_len) p p rem_len h;
          if ok : bool
          then h ← upd p (set_ref 1) h; h ← upd p (set_flags 0) h; Some (h, Some p)
          else Some (h, None)
      end
  | PBUF_RAM =>
      match mem_malloc (LWIP_MEM_ALIGN_SIZE (SIZEOF_STRUCT_PBUF + offset) + LWIP_MEM_ALIGN_SIZE length) (arena h) with
      | None => Some (h, None)
      | Some (p, a) =>
          let pl := LWIP_MEM_ALIGN (p + SIZEOF_STRUCT_PBUF + offset) in
          _ ← lwip_assert (pl mod 4 =? 0);
          let b := MkPbuf None pl length length PBUF_RAM 0 1 in
          Some (with_pbufs (<[p := b]> (pbufs h)) (with_arena a h), Some p)
      end
  | PBUF_ROM | PBUF_REF =>
      match memp_malloc MEMP_PBUF (arena h) with
      | None => Some (h, None)
      | Some (p, a) =>
          let b := MkPbuf None 0 length length ty 0 1 in
          Some (with_pbufs (<[p := b]> (pbufs h)) (with_arena a h), Some p)
      end
  end.

(** [pbuf_alloced_custom]: the structure [p] is provided by the caller. *)
Definition pbuf_alloced_custom (l : pbuf_layer) (length : Z) (ty : pbuf_type) (p : Z)
    (payload_mem : option Z) (payload_mem_len : Z) h : heap A * option Z :=
  let offset := layer_offset l in
  if payload_mem_len <? LWIP_MEM_ALIGN_SIZE offset + length then (h, None)
  else
    let pl := match payload_mem with
              | Some a => a + LWIP_MEM_ALIGN_SIZE offset
              | None => 0
              end in
    (with_pbufs (<[p := MkPbuf None pl length length ty PBUF_FLAG_IS_CUSTOM 1]> (pbufs h)) h, Some p).

(** ** [pbuf_realloc] *)

(** The walk to the pbuf in which the new length ends. *)
Fixpoint realloc_loop (fuel : nat) (q rem_len grow : Z) h : option (heap A * Z * Z) :=
  b ← pbufs h !! q;
  if rem_len <=? len b then Some (h, q, rem_len) else
  match fuel with
  | O => None
  | S fuel =>
      _ ← lwip_assert (grow <? 65535);
      let rem_len := u16 (rem_len - len b) in
      h ← upd q (set_tot_len (u16 (tot_len b + u16 grow))) h;
      q ← next b;  (* LWIP_ASSERT("pbuf_realloc: q != NULL", q != NULL) *)
      realloc_loop fuel q rem_len grow h
  end.

Definition pbuf_realloc (p : Z) (new_len : Z) h : option (heap A) :=
  b ← pbufs h !! p;
  if tot_len b <=? new_len then Some h else
  let grow := new_len - tot_len b in
  '(h, q, rem_len) ← realloc_loop (size (pbufs h)) p new_len grow h;
  b ← pbufs h !! q;
  let h := if decide (type b = PBUF_RAM) then
             if rem_len =? len b then h
             else with_arena (mem_trim q (u16 (payload b - q) + rem_len) (arena h)) h
           else h in
  h ← upd q (set_len rem_len) h;
  h ← upd q (set_tot_len rem_len) h;
  '(h, _) ← match next b with None => Some (h, 0) | Some _ => pbuf_free (next b) h end;
  upd q (set_next None) h.

(** ** [pbuf_header]: 0 on success, 1 on failure *)
Definition pbuf_header (p : Z) (inc : Z) h : option (heap A * Z) :=
  b ← pbufs h !! p;
  if inc =? 0 then Some (h, 0) else
  let mag := u16 (if inc <? 0 then - inc else inc) in
  if (inc <? 0) && negb (mag <=? len b) then Some (h, 1) else
  let finish b' :=
    let b' := set_len (u16 (len b' + inc)) b' in
    let b' := set_tot_len (u16 (tot_len b' + inc)) b' in
    Some (with_pbufs (<[p := b']> (pbufs h)) h, 0) in
  match type b with
  | PBUF_RAM | PBUF_POOL =>
      if payload b - inc <? p + SIZEOF_STRUCT_PBUF then Some (h, 1)
      else finish (set_payload (payload b - inc) b)
  | PBUF_REF | PBUF_ROM =>
      if (inc <? 0) && (mag <=? len b) then finish (set_payload (payload b - inc) b)
      else Some (h, 1)
  end.

(** ** Chains *)
Fixpoint clen_loop (fuel : nat) (p : option Z) (l : Z) h : option Z :=
  match p with
  | None => Some l
  | Some p =>
      match fuel with
      | O => None
      | S fuel => b ← pbufs h !! p; clen_loop fuel (next b) (u8 (l + 1)) h
      end
  end.

Definition pbuf_clen (p : option Z) h : option Z := clen_loop (size (pbufs h)) p 0 h.

Definition pbuf_ref (p : option Z) h : option (heap A) :=
  match p with
  | None => Some h
  | Some p => b ← pbufs h !! p; upd p (set_ref (u16 (ref b + 1))) h
  end.

(** The walk of [pbuf_cat] to the last pbuf of [h], adding the tail's length. *)
Fixpoint cat_loop (fuel : nat) (p t : Z) h : option (heap A * Z) :=
  b ← pbufs h !! p;
  match next b with
  | None => Some (h, p)
  | Some n =>
      match fuel with
      | O => None
      | S fuel =>
          bt ← pbufs h !! t;
          h ← upd p (set_tot_len (u16 (tot_len b + tot_len bt))) h;
          cat_loop fuel n t h
      end
  end.

Definition pbuf_cat (hd t : option Z) h : option (heap A) :=
  match hd, t with
  | Some hd, Some t =>
      '(h, p) ← cat_loop (size (pbufs h)) hd t h;
      b ← pbufs h !! p;
      _ ← lwip_assert (tot_len b =? len b);
      bt ← pbufs h !! t;
      h ← upd p (set_tot_len (u16 (tot_len b + tot_len bt))) h;
      upd p (set_next (Some t)) h
  | _, _ => Some h
  end.

Definition pbuf_chain (hd t : option Z) h : option (heap A) :=
  h ← pbuf_cat hd t h; pbuf_ref t h.

Definition pbuf_dechain (p : Z) h : option (heap A * option Z) :=
  b ← pbufs h !! p;
  match next b with
  | None =>
      _ ← lwip_assert (tot_len b =? len b);
      Some (h, None)
  | Some q =>
      bq ← pbufs h !! q;
      _ ← lwip_assert (tot_len bq =? tot_len b - len b);
      h ← upd q (set_tot_len (u16 (tot_len b - len b))) h;
      h ← upd p (set_next None) h;
      h ← upd p (set_tot_len (len b)) h;
      '(h, tail_gone) ← pbuf_free (Some q) h;
      b ← pbufs h !! p;
      _ ← lwip_assert (tot_len b =? len b);
      Some (h, if 0 <? tail_gone then None else Some q)
  end.

(** ** Data *)
Definition read_mem (m : Z → Z) (a : Z) (n : nat) : list Z := (λ i, m (a + Z.of_nat i)) <$> seq 0 n.

Definition write_mem (m : Z → Z) (a : Z) (l : list Z) : Z → Z :=
  λ x, if decide (a <= x < a + Z.of_nat (length l)) then nth (Z.to_nat (x - a)) l 0 else m x.

Definition MEMCPY (dst src n : Z) (m : Z → Z) : Z → Z :=
  write_mem m dst (read_mem m src (Z.to_nat n)).

(** [pbuf_copy_partial] on a destination buffer at [dataptr] (0 is NULL): the
    memory after the call and the number of octets copied. *)
Fixpoint copy_partial_loop (fuel : nat) (p : option Z) (dataptr len_ left offset total : Z) h
    : option (heap A * Z) :=
  if len_ =? 0 then Some (h, total) else
  match p with
  | None => Some (h, total)
  | Some p =>
      match fuel with
      | O => None
      | S fuel =>
          b ← pbufs h !! p;
          if negb (offset =? 0) && (len b <=? offset)
          then copy_partial_loop fuel (next b) dataptr len_ left (u16 (offset - len b)) total h
          else
            let n := u16 (len b - offset) in
            let n := if len_ <? n then len_ else n in
            let h := with_mem (MEMCPY (dataptr + left) (payload b + offset) n (mem h)) h in
            copy_partial_loop fuel (next b) dataptr (u16 (len_ - n)) (u16 (left + n)) 0 (u16 (total + n)) h
      end
  end.

Definition pbuf_copy_partial (buf : option Z) (dataptr len_ offset : Z) h : option (heap A * Z) :=
  match buf with
  | None => Some (h, 0)
  | Some _ =>
      if dataptr =? 0 then Some (h, 0)
      else copy_partial_loop (size (pbufs h)) buf dataptr len_ 0 offset 0 h
  end.

(** [pbuf_take] from the buffer at [dataptr] (0 is NULL). *)
Fixpoint take_loop (fuel : nat) (p : option Z) (dataptr total_copy_len copied_total : Z) h
    : option (heap A * Z * Z) :=
  if total_copy_len =? 0 then Some (h, total_copy_len, copied_total) else
  match fuel with
  | O => None
  | S fuel =>
      p ← p;  (* LWIP_ASSERT("pbuf_take: invalid pbuf", p != NULL) *)
      b ← pbufs h !! p;
      let n := if len b <? total_copy_len then len b else total_copy_len in
      let h := with_mem (MEMCPY (payload b) (dataptr + copied_total) n (mem h)) h in
      take_loop fuel (next b) dataptr (u16 (total_copy_len - n)) (u16 (copied_total + n)) h
  end.

Definition pbuf_take (buf : option Z) (dataptr len_ : Z) h : option (heap A * Z) :=
  match buf with
  | None => Some (h, 0)
  | Some p =>
      if dataptr =? 0 then Some (h, 0) else
      b ← pbufs h !! p;
      if tot_len b <? len_ then Some (h, ERR_ARG)
      else
        '(h, rest, copied) ← take_loop (S (size (pbufs h))) buf dataptr len_ 0 h;
        _ ← lwip_assert ((rest =? 0) && (copied =? len_));
        Some (h, ERR_OK)
  end.

(** [pbuf_copy]: one pass of the [do] loop per unit of fuel. *)
Definition starts_queue (p : option Z) h : option bool :=
  match p with
  | None => Some false
  | Some p =>
      b ← pbufs h !! p;
      Some ((len b =? tot_len b) && match next b with None => false | Some _ => true end)
  end.

Fixpoint copy_loop (fuel : nat) (p_to p_from : option Z) (offset_to offset_from : Z) h
    : option (heap A * Z) :=
  match fuel with
  | O => None
  | S fuel =>
      to ← p_to; bt ← pbufs h !! to;
      from ← p_from; bf ← pbufs h !! from;
      let n := u16 (if len bf - offset_from <=? len bt - offset_to
                    then len bf - offset_from else len bt - offset_to) in
      let h := with_mem (MEMCPY (payload bt + offset_to) (payload bf + offset_from) n (mem h)) h in
      let offset_to := u16 (offset_to + n) in
      let offset_from := u16 (offset_from + n) in
      _ ← lwip_assert (offset_to <=? len bt);
      _ ← lwip_assert (offset_from <=? len bf);
      let '(p_from, offset_from) :=
        if len bf <=? offset_from then (next bf, 0) else (p_from, offset_from) in
      let '(p_to, offset_to) :=
        if offset_to =? len bt then (next bt, 0) else (p_to, offset_to) in
      if bool_decide (p_to = None) && negb (bool_decide (p_from = None)) then Some (h, ERR_ARG) else
      qf ← starts_queue p_from h;
      if qf : bool then Some (h, ERR_VAL) else
      qt ← starts_queue p_to h;
      if qt : bool then Some (h, ERR_VAL) else
      match p_from with
      | None => Some (h, ERR_OK)
      | Some _ => copy_loop fuel p_to p_from offset_to offset_from h
      end
  end.

Definition pbuf_copy (p_to p_from : option Z) h : option (heap A * Z) :=
  match p_to, p_from with
  | Some to, Some from =>
      bt ← pbufs h !! to; bf ← pbufs h !! from;
      if tot_len bf <=? tot_len bt
      then copy_loop (2 * size (pbufs h)) p_to p_from 0 0 h
      else Some (h, ERR_ARG)
  | _, _ => Some (h, ERR_ARG)
  end.

Definition pbuf_coalesce (p : Z) (layer : pbuf_layer) h : option (heap A * Z) :=
  b ← pbufs h !! p;
  match next b with
  | None => Some (h, p)
  | Some _ =>
      '(h, q) ← pbuf_alloc layer (tot_len b) PBUF_RAM h;
      match q with
      | None => Some (h, p)
      | Some q =>
          '(h, err) ← pbuf_copy (Some q) (Some p) h;
          _ ← lwip_assert (err =? ERR_OK);
          '(h, _) ← pbuf_free (Some p) h;
          Some (h, q)
      end
  end.

(** [pbuf_fill_chksum] (LWIP_CHECKSUM_ON_COPY): the new value of [*chksum]. *)
Definition pbuf_fill_chksum (p : Z) (start_offset : Z) (data : list Z) (chksum : Z) h
    : option (heap A * Z * Z) :=
  b ← pbufs h !! p;
  let n := Z.of_nat (length data) in
  _ ← lwip_assert (negb (n =? 0));
  if (len b <=? start_offset) || (len b <? start_offset + n) then Some (h, chksum, ERR_ARG)
  else
    let dst := payload b + start_offset in
    let '(copied, cc) := lwip_chksum_copy dst data in
    let h := with_mem (write_mem (mem h) dst copied) h in
    let cc := if negb (Z.land start_offset 1 =? 0) then u16 (SWAP_BYTES_IN_WORD cc) else cc in
    Some (h, u16 (FOLD_U32T (u32 (chksum + cc))), ERR_OK).

(** The walk of [pbuf_get_at] and [pbuf_memcmp] to the pbuf that holds an
    offset. *)
Fixpoint skip_loop (fuel : nat) (q : option Z) (off : Z) h : option (option Z * Z) :=
  match q with
  | None => Some (None, off)
  | Some p =>
      b ← pbufs h !! p;
      if len b <=? off then
        match fuel with
        | O => None
        | S fuel => skip_loop fuel (next b) (u16 (off - len b)) h
        end
      else Some (Some p, off)
  end.

Definition pbuf_get_at (p : option Z) (offset : Z) h : option Z :=
  '(q, copy_from) ← skip_loop (size (pbufs h)) p offset h;
  match q with
  | None => Some 0
  | Some q =>
      b ← pbufs h !! q;
      if copy_from <? len b then Some (mem h (payload b + copy_from)) else Some 0
  end.

(** The comparison loop of [pbuf_memcmp] from index [i] on. *)
Fixpoint memcmp_loop (q : option Z) (start i : Z) (s2 : list Z) h : option Z :=
  match s2 with
  | [] => Some 0
  | b :: s2 =>
      a ← pbuf_get_at q (u16 (start + i)) h;
      if negb (a =? b) then Some (u16 (i + 1)) else memcmp_loop q start (u16 (i + 1)) s2 h
  end.

Definition pbuf_memcmp (p : option Z) (offset : Z) (s2 : list Z) h : option Z :=
  '(q, start) ← skip_loop (size (pbufs h)) p offset h;
  match q with
  | None => Some 65535
  | Some q' =>
      b ← pbufs h !! q';
      if start <? len b then memcmp_loop q start 0 s2 h else Some 65535
  end.

Fixpoint memfind_loop (fuel : nat) (p : option Z) (i max : Z) (mem_ : list Z) h : option Z :=
  if negb (i <=? max) then Some 65535 else
  match fuel with
  | O => None
  | S fuel =>
      plus ← pbuf_memcmp p i mem_ h;
      if plus =? 0 then Some i else memfind_loop fuel p (u16 (i + plus)) max mem_ h
  end.

Definition pbuf_memfind (p : Z) (mem_ : list Z) (start_offset : Z) h : option Z :=
  b ← pbufs h !! p;
  let mem_len := Z.of_nat (length mem_) in
  let max := u16 (tot_len b - mem_len) in
  if mem_len + start_offset <=? tot_len b
  then memfind_loop (S (Z.to_nat max)) (Some p) start_offset max mem_ h
  else Some 65535.

(** [substr] is the octets of the C string, without the terminating zero. *)
Definition pbuf_strstr (p : Z) (substr : list Z) h : option Z :=
  b ← pbufs h !! p;
  if (Z.of_nat (length substr) =? 0) || (tot_len b =? 65535) then Some 65535
  else if 65535 <=? Z.of_nat (length substr) then Some 65535
  else pbuf_memfind p substr 0 h.

End operations.
