(* ===== verification/PbufRef.v ===== *)
(** * Ownership of packet buffers: reference counts, chains, no leak and no
    dangling pointer (pbuf.c) *)
From S2P Require Import Prelude LwipDef Chksum Memp Pbuf.
Local Open Scope Z_scope.

(** ** The reference-count invariant

    "The reference count always equals the number of pointers that refer to
    this pbuf. This can be pointers from an application, the stack itself, or
    pbuf->next pointers from a chain" (pbuf.h).  [E] counts the pointers held
    outside of the pbufs. *)
Definition links_to (m : gmap Z pbuf) (p : Z) : nat :=
  size (filter (λ kb, next kb.2 = Some p) m).

Definition link (b : pbuf) (p : Z) : nat := if decide (next b = Some p) then 1 else 0.

Definition inc (p : Z) (E : Z → nat) : Z → nat := λ x, if decide (x = p) then S (E x) else E x.

Definition inc_opt (p : option Z) (E : Z → nat) : Z → nat :=
  match p with Some p => inc p E | None => E end.

Lemma links_to_insert_new m p b q :
  m !! p = None → links_to (<[p := b]> m) q = (links_to m q + link b q)%nat.
Proof.
  intros Hp. unfold links_to, link. rewrite map_filter_insert. simpl. case_decide.
  - rewrite map_size_insert_None; [lia|]. apply map_lookup_filter_None. by left.
  - rewrite delete_id; [lia|]. done.
Qed.

Lemma links_to_delete m p b q :
  m !! p = Some b → links_to m q = (links_to (delete p m) q + link b q)%nat.
Proof.
  intros Hp. rewrite <- (insert_delete_id m p b Hp) at 1. by apply links_to_insert_new, lookup_delete_eq.
Qed.

Lemma links_to_insert m p b b' q :
  m !! p = Some b → (links_to (<[p := b']> m) q + link b q = links_to m q + link b' q)%nat.
Proof.
  intros Hp. rewrite (links_to_delete m p b q Hp), <- (insert_delete_eq m p b').
  rewrite links_to_insert_new by apply lookup_delete_eq. lia.
Qed.

Lemma links_to_same_next m p b b' q :
  m !! p = Some b → next b' = next b → links_to (<[p := b']> m) q = links_to m q.
Proof.
  intros Hp Hn. pose proof (links_to_insert m p b b' q Hp) as L. unfold link in L. rewrite Hn in L. lia.
Qed.

Lemma links_to_zero m p : links_to m p = 0%nat → ∀ x b, m !! x = Some b → next b ≠ Some p.
Proof.
  intros H x b Hx Hn. unfold links_to in H. apply map_size_empty_iff in H.
  eapply map_filter_empty_not_lookup in H; [|exact Hn]. by rewrite Hx in H.
Qed.

Section ownership.
Context {A : Type} `{HL : ArenaLaws A}.
Implicit Types (h : heap A) (b : pbuf) (E : Z → nat).

(** Where the block of a pbuf belongs. *)
Definition is_custom (flags : Z) : bool := negb (Z.land flags PBUF_FLAG_IS_CUSTOM =? 0).

Definition block_of b : block :=
  if is_custom (flags b) then CUSTOM
  else match type b with
       | PBUF_POOL => POOL MEMP_PBUF_POOL
       | PBUF_ROM | PBUF_REF => POOL MEMP_PBUF
       | PBUF_RAM => HEAP
       end.

(** Besides the counts: every pbuf lies in a live block of its kind, and the
    pools hold no octet that would make a new pbuf a custom one. *)
Record heap_ok h E : Prop := {
  ok_ref p b : pbufs h !! p = Some b →
    ref b = Z.of_nat (links_to (pbufs h) p + E p) ∧ 0 < ref b < 65536;
  ok_next p b q : pbufs h !! p = Some b → next b = Some q → is_Some (pbufs h !! q);
  ok_ext p : E p ≠ 0%nat → is_Some (pbufs h !! p);
  ok_live p b : pbufs h !! p = Some b → live (arena h) !! p = Some (block_of b);
  ok_raw p : is_custom (raw_flags h p) = false }.

(** What survives in a pbuf that is not freed: everything but the count. *)
Definition same_contents b b' : Prop := b' = set_ref (ref b') b.

Definition survivors h h' : Prop :=
  mem h' = mem h ∧ ooseq_pending h' = ooseq_pending h ∧
  ∀ x b', pbufs h' !! x = Some b' → ∃ b, pbufs h !! x = Some b ∧ same_contents b b'.

Lemma survivors_trans h1 h2 h3 : survivors h1 h2 → survivors h2 h3 → survivors h1 h3.
Proof.
  intros (M1 & O1 & S1) (M2 & O2 & S2). split_and!; [congruence..|]. intros x b' Hx.
  destruct (S2 _ _ Hx) as (b2 & H2 & E2). destruct (S1 _ _ H2) as (b1 & H1' & E1).
  exists b1. split; [done|]. unfold same_contents in *. rewrite E2, E1. by destruct b1.
Qed.

Lemma not_live_none h E q : heap_ok h E → live (arena h) !! q = None → pbufs h !! q = None.
Proof. intros K Hq. destruct (pbufs h !! q) as [b|] eqn:E1; [|done]. by rewrite (ok_live _ _ K _ _ E1) in Hq. Qed.

Lemma dealloc_live p b h : live (arena h) !! p = Some (block_of b) →
  live (arena (dealloc p b h)) = delete p (live (arena h)).
Proof.
  unfold block_of, is_custom, dealloc. intros Hp. simpl. case_match; [by apply custom_free_live|].
  destruct (type b); by first [apply mem_free_live|apply memp_free_live].
Qed.

Lemma dealloc_raw p b h x : is_custom (raw_flags h x) = false → is_custom (raw_flags (dealloc p b h) x) = false.
Proof. intros Hx. simpl. fold (is_custom (flags b)). destruct (x =? p), (is_custom (flags b)) eqn:E; done. Qed.

(** A heap with other pbufs in the same blocks. *)
Lemma live_upd h E p b b' : heap_ok h E → pbufs h !! p = Some b → block_of b' = block_of b →
  ∀ x bx, <[p := b']> (pbufs h) !! x = Some bx → live (arena h) !! x = Some (block_of bx).
Proof.
  intros K Hp Hb x bx [[<- <-]|[_ Hx]]%lookup_insert_Some; [|by apply (ok_live _ _ K)].
  rewrite Hb. by apply (ok_live _ _ K).
Qed.

(** A pbuf of count 1 owned from outside can go: its own pointer to the next
    pbuf is then owned by the caller. *)
Lemma dealloc_ok h p b E c :
  heap_ok h (inc p E) → pbufs h !! p = Some b → ref b = 1 →
  let h' := dealloc p (set_ref c b) (with_pbufs (<[p := set_ref c b]> (pbufs h)) h) in
  heap_ok h' (inc_opt (next b) E) ∧ survivors h h' ∧ size (pbufs h') = pred (size (pbufs h))
  ∧ pbufs h' = delete p (pbufs h).
Proof.
  intros K Hp Hr h'. destruct (ok_ref _ _ K p b Hp) as [Hc _].
  unfold inc in Hc. rewrite decide_True in Hc by done.
  assert (Hl : links_to (pbufs h) p = 0%nat) by lia. assert (He : E p = 0%nat) by lia.
  assert (Hd : pbufs h' = delete p (pbufs h)).
  { unfold h', dealloc. simpl. by rewrite delete_insert_eq. }
  split; [|split; [|split; [rewrite Hd, map_size_delete, Hp; done|done]]].
  - constructor; rewrite ?Hd.
    + intros x bx [Hne Hx]%lookup_delete_Some. destruct (ok_ref _ _ K x bx Hx) as [Hrx Hb].
      split; [|done]. rewrite Hrx, (links_to_delete _ p b x Hp). unfold inc. rewrite decide_False by done.
      unfold link. destruct (next b) as [q|] eqn:Hq; simpl; [|lia].
      unfold inc. repeat case_decide; simplify_eq; lia.
    + intros x bx y [Hne Hx]%lookup_delete_Some Hy. rewrite lookup_delete_ne.
      * by eapply (ok_next _ _ K).
      * intros ->. by eapply (links_to_zero _ _ Hl).
    + intros x Hx. rewrite lookup_delete_ne.
      * destruct (next b) as [q|] eqn:Hq; simpl in Hx.
        -- unfold inc in Hx. case_decide; [subst; by eapply (ok_next _ _ K)|].
           apply (ok_ext _ _ K). unfold inc. case_decide; lia.
        -- apply (ok_ext _ _ K). unfold inc. case_decide; lia.
      * intros <-. destruct (next b) as [q|] eqn:Hq; simpl in Hx; [|done].
        unfold inc in Hx. case_decide; [|done]. subst. by eapply (links_to_zero _ _ Hl).
    + unfold h'. rewrite dealloc_live by exact (ok_live _ _ K p b Hp).
      intros x bx [Hne Hx]%lookup_delete_Some. simpl. rewrite lookup_delete_ne by done. by apply (ok_live _ _ K).
    + intros x. apply dealloc_raw, (ok_raw _ _ K).
  - split; [done|]. split; [done|]. rewrite Hd. intros x bx [_ Hx]%lookup_delete_Some.
    exists bx. split; [done|]. unfold same_contents. by destruct bx.
Qed.

Lemma decr_ok h p b E :
  heap_ok h (inc p E) → pbufs h !! p = Some b → 1 < ref b →
  let h' := with_pbufs (<[p := set_ref (ref b - 1) b]> (pbufs h)) h in
  heap_ok h' E ∧ survivors h h'.
Proof.
  intros K Hp Hr h'. split.
  - constructor; simpl.
    + intros x bx. destruct (decide (p = x)) as [<-|Hne].
      * rewrite lookup_insert_eq. intros [= <-]. rewrite (links_to_same_next _ _ b) by done.
        destruct (ok_ref _ _ K p b Hp) as [Hc ?]. unfold inc in Hc. rewrite decide_True in Hc by done.
        simpl. lia.
      * rewrite lookup_insert_ne by done. intros Hx. rewrite (links_to_same_next _ _ b) by done.
        destruct (ok_ref _ _ K x bx Hx) as [Hc ?]. unfold inc in Hc. by rewrite decide_False in Hc.
    + intros x bx y Hx Hy. rewrite lookup_insert_is_Some. destruct (decide (p = y)); [auto|right].
      split; [done|]. apply lookup_insert_Some in Hx as [[<- <-]|[_ Hx]]; by eapply (ok_next _ _ K).
    + intros x Hx. rewrite lookup_insert_is_Some. destruct (decide (p = x)); [auto|right].
      split; [done|]. apply (ok_ext _ _ K). unfold inc. by rewrite decide_False.
    + by apply (live_upd _ _ _ b _ K).
    + apply (ok_raw _ _ K).
  - split; [done|]. split; [done|]. simpl. intros x bx [[<- <-]|[_ Hx]]%lookup_insert_Some.
    + exists b. split; [done|]. by destruct b.
    + exists bx. split; [done|]. unfold same_contents. by destruct bx.
Qed.

Lemma free_loop_ok fuel : ∀ h (p : option Z) E c,
  heap_ok h (inc_opt p E) → (size (pbufs h) ≤ fuel)%nat → is_u8 c →
  ∃ h' n, free_loop fuel p c h = Some (h', n) ∧ heap_ok h' E ∧ survivors h h'
    ∧ (size (pbufs h') ≤ size (pbufs h))%nat
    ∧ n = u8 (c + Z.of_nat (size (pbufs h) - size (pbufs h'))).
Proof.
  induction fuel as [|fuel IH]; intros h [p|] E c K Hf Hc8; simpl.
  - destruct (ok_ext _ _ K p) as [b Hb]; [simpl; unfold inc; rewrite decide_True; done|].
    assert (size (pbufs h) = 0%nat) as Hs by lia. apply map_size_empty_inv in Hs.
    by rewrite Hs in Hb.
  - exists h, c. split_and!; [done..| |lia|rewrite Nat.sub_diag, Z.add_0_r; symmetry; by apply u8_id].
    split_and!; [done..|]. intros x b Hx. exists b. split; [done|]. by destruct b.
  - destruct (ok_ext _ _ K p) as [b Hb]; [simpl; unfold inc; rewrite decide_True; done|].
    rewrite Hb. simpl. destruct (ok_ref _ _ K p b Hb) as [Hc Hr].
    unfold lwip_assert. rewrite (proj2 (Z.ltb_lt 0 (ref b))) by lia. simpl.
    rewrite (u16_id (ref b - 1)) by (unfold is_u16; lia).
    destruct (Z.eqb_spec (ref b - 1) 0) as [H1|H1].
    + destruct (dealloc_ok h p b E (ref b - 1) K Hb ltac:(lia)) as (K' & S' & Sz & _).
      destruct (IH _ (next b) E (u8 (c + 1)) K') as (h2 & n & -> & K2 & S2 & Le & Hn); [lia|apply u8_range|].
      assert (0 < size (pbufs h))%nat.
      { apply Nat.neq_0_lt_0. intros Hs%map_size_empty_inv. by rewrite Hs in Hb. }
      exists h2, n. split_and!; [done|done|by eapply survivors_trans|lia|].
      rewrite Hn. unfold u8. rewrite Zplus_mod_idemp_l. f_equal. lia.
    + destruct (decr_ok h p b E K Hb ltac:(lia)) as [K' S'].
      eexists _, c. split; [done|]. split; [exact K'|]. split; [exact S'|].
      assert (size (<[p:=set_ref (ref b - 1) b]> (pbufs h)) = size (pbufs h)) as Hs
        by (by rewrite map_size_insert, Hb).
      simpl. rewrite Hs. split; [lia|]. rewrite Nat.sub_diag, Z.add_0_r. symmetry. by apply u8_id.
  - exists h, c. split_and!; [done..| |lia|rewrite Nat.sub_diag, Z.add_0_r; symmetry; by apply u8_id].
    split_and!; [done..|]. intros x b Hx. exists b. split; [done|]. by destruct b.
Qed.

Lemma pbuf_free_ok h p E :
  heap_ok h (inc p E) →
  ∃ h' n, pbuf_free (Some p) h = Some (h', n) ∧ heap_ok h' E ∧ survivors h h'
    ∧ (size (pbufs h') ≤ size (pbufs h))%nat
    ∧ n = u8 (Z.of_nat (size (pbufs h) - size (pbufs h'))).
Proof. intros K. by apply (free_loop_ok _ h (Some p) E 0). Qed.

(** ** Chains *)
Fixpoint chain_of h (p : option Z) (l : list Z) : Prop :=
  match l with
  | [] => p = None
  | a :: l => p = Some a ∧ ∃ b, pbufs h !! a = Some b ∧ chain_of h (next b) l
  end.

Lemma chain_of_functional h : ∀ l l' p, chain_of h p l → chain_of h p l' → l = l'.
Proof.
  induction l as [|a l IH]; intros [|a' l'] p; simpl; [done|naive_solver..|].
  intros (-> & b & Hb & C) ([= <-] & b' & Hb' & C'). simplify_eq. f_equal. by eapply IH.
Qed.

Lemma chain_of_suffix h l1 : ∀ l2 p, chain_of h p (l1 ++ l2) → ∃ q, chain_of h q l2.
Proof. induction l1 as [|a l1 IH]; simpl; [eauto|]. intros l2 p (-> & b & _ & C). eauto. Qed.

Lemma chain_of_head h p l : chain_of h p l → p = head l.
Proof. destruct l; simpl; [done|naive_solver]. Qed.

Lemma chain_of_nodup h : ∀ l p, chain_of h p l → NoDup l.
Proof.
  induction l as [|a l IH]; intros p C; [constructor|]. pose proof C as C0.
  destruct C as (-> & b & Hb & C). constructor; [|eauto].
  intros (l1 & l2 & ->)%list_elem_of_split.
  destruct (chain_of_suffix _ _ _ _ C) as [q C2]. pose proof (chain_of_head _ _ _ C2) as ->.
  pose proof (chain_of_functional _ _ _ _ C0 C2) as Heq.
  apply (f_equal length) in Heq. simpl in Heq. rewrite length_app in Heq. simpl in Heq. lia.
Qed.

Lemma chain_of_frame h h' : ∀ l p,
  (∀ a b, a ∈ l → pbufs h !! a = Some b → ∃ b', pbufs h' !! a = Some b' ∧ next b' = next b) →
  chain_of h p l → chain_of h' p l.
Proof.
  induction l as [|a l IH]; intros p Hf; simpl; [done|]. intros (-> & b & Hb & C). split; [done|].
  destruct (Hf a b) as (b' & Hb' & Hn); [set_solver|done|]. exists b'. split; [done|].
  rewrite Hn. apply IH; [|done]. intros x bx Hx. apply Hf. set_solver.
Qed.

Lemma chain_of_in h : ∀ l p a, chain_of h p l → a ∈ l → is_Some (pbufs h !! a).
Proof.
  induction l as [|x l IH]; intros p a; simpl; [set_solver|].
  intros (-> & b & Hb & C) [->|Ha]%elem_of_cons; [by eexists|by eapply IH].
Qed.

Lemma chain_of_size h l p : chain_of h p l → (length l ≤ size (pbufs h))%nat.
Proof.
  intros C. rewrite <- size_dom, <- (size_list_to_set (C := gset Z) l) by (by eapply chain_of_nodup).
  apply subseteq_size. intros a Ha%elem_of_list_to_set. apply elem_of_dom. by eapply chain_of_in.
Qed.

(** What [pbuf_free] does to a chain, without its loop: pbufs go as long as
    their count is 1, the first one that is still referenced loses one
    reference. *)
Fixpoint free_prefix (l : list Z) (m : gmap Z pbuf) : gmap Z pbuf :=
  match l with
  | [] => m
  | p :: l =>
      match m !! p with
      | Some b => if ref b =? 1 then free_prefix l (delete p m) else <[p := set_ref (ref b - 1) b]> m
      | None => m
      end
  end.

Lemma free_loop_chain l : ∀ fuel h p c,
  chain_of h p l → (length l ≤ fuel)%nat →
  (∀ a b, a ∈ l → pbufs h !! a = Some b → 0 < ref b < 65536) →
  ∃ h' n, free_loop fuel p c h = Some (h', n) ∧ pbufs h' = free_prefix l (pbufs h) ∧ mem h' = mem h.
Proof.
  induction l as [|a l IH]; intros fuel h p c; simpl.
  - intros -> _ _. exists h, c. by destruct fuel.
  - intros (-> & b & Hb & C) Hf Hr. destruct fuel as [|fuel]; [simpl in Hf; lia|]. simpl.
    rewrite Hb. simpl. destruct (Hr a b ltac:(set_solver) Hb) as [R1 R2]. unfold lwip_assert.
    rewrite (proj2 (Z.ltb_lt 0 (ref b))) by lia. simpl.
    rewrite (u16_id (ref b - 1)) by (unfold is_u16; lia).
    assert (HC : chain_of h (Some a) (a :: l)) by (simpl; eauto).
    pose proof (chain_of_nodup _ _ _ HC) as [Hal _]%NoDup_cons.
    destruct (Z.eqb_spec (ref b - 1) 0), (Z.eqb_spec (ref b) 1); try lia.
    + edestruct IH as (h' & n & -> & Hp & Hm); [|simpl in Hf; lia| |].
      * eapply chain_of_frame; [|exact C]. intros x bx Hx Hbx. exists bx. simpl.
        rewrite lookup_delete_ne, lookup_insert_ne by (intros ->; done). done.
      * intros x bx Hx Hbx. simpl in Hbx. apply lookup_delete_Some in Hbx as [Hne Hbx].
        rewrite lookup_insert_ne in Hbx by done. apply (Hr x); [set_solver|done].
      * exists h', n. split; [done|]. rewrite Hp, Hm. simpl. by rewrite delete_insert_eq.
    + eexists _, c. done.
Qed.

(** [q] is not on the chain being freed: its [next] field is not looked at. *)
Lemma free_loop_upd_next fuel : ∀ h (p : option Z) c h' n l q bq x,
  chain_of h p l → q ∉ l → pbufs h !! q = Some bq →
  free_loop fuel p c h = Some (h', n) →
  pbufs h' !! q = Some bq ∧
  free_loop fuel p c (with_pbufs (<[q := set_next x bq]> (pbufs h)) h)
    = Some (with_pbufs (<[q := set_next x bq]> (pbufs h')) h', n).
Proof.
  induction fuel as [|fuel IH]; intros h p c h' n l q bq x C Hq Hb Hfree.
  { destruct p; [done|]. simpl in *. by simplify_eq. }
  destruct p as [p|]; simpl in *; [|by simplify_eq].
  destruct l as [|a l]; [done|]. destruct C as ([= <-] & b & Hp & C).
  assert (p ≠ q) by set_solver. rewrite lookup_insert_ne by done. rewrite Hp in *. simpl in *.
  destruct (lwip_assert (0 <? ref b)); [|done]. simpl in *.
  pose proof (chain_of_nodup h (p :: l) (Some p) ltac:(simpl; eauto)) as [Hpl _]%NoDup_cons.
  destruct (u16 (ref b - 1) =? 0).
  - assert (Hql : q ∉ l) by set_solver.
    pose proof (λ C' Hb', IH _ _ _ _ _ l q bq x C' Hql Hb' Hfree) as IH'.
    destruct IH' as [Hq' E].
    + eapply chain_of_frame; [|exact C]. intros y b_y Hy Hby. exists b_y. simpl.
      by rewrite lookup_delete_ne, lookup_insert_ne by (intros ->; done).
    + simpl. by rewrite lookup_delete_ne, lookup_insert_ne.
    + split; [done|]. rewrite <- E. f_equal. unfold dealloc, with_pbufs. simpl. f_equal.
      by rewrite !delete_insert_eq, delete_insert_ne.
  - simplify_eq. split; [simpl; by rewrite lookup_insert_ne|]. unfold with_pbufs. simpl.
    by rewrite insert_insert_ne.
Qed.

(** ** Changing the fields of one pbuf *)
Lemma relink_ok h p b b' E E' :
  heap_ok h E → pbufs h !! p = Some b → ref b' = ref b → block_of b' = block_of b →
  (∀ x, E' x + link b' x = E x + link b x)%nat →
  (∀ q, next b' = Some q → is_Some (pbufs h !! q)) →
  heap_ok (with_pbufs (<[p := b']> (pbufs h)) h) E'.
Proof.
  intros K Hp Hr Hbk HE Hn. constructor; simpl.
  - intros x bx Hx. pose proof (links_to_insert _ _ _ b' x Hp) as L. specialize (HE x).
    apply lookup_insert_Some in Hx as [[<- <-]|[Hne Hx]].
    + destruct (ok_ref _ _ K p b Hp) as [Hc Hb]. rewrite Hr. split; [lia|done].
    + destruct (ok_ref _ _ K x bx Hx) as [Hc Hb]. split; [lia|done].
  - intros x bx y Hx Hy. rewrite lookup_insert_is_Some. destruct (decide (p = y)); [auto|right].
    split; [done|]. apply lookup_insert_Some in Hx as [[<- <-]|[_ Hx]]; [by apply Hn|].
    by eapply (ok_next _ _ K).
  - intros x Hx. rewrite lookup_insert_is_Some. destruct (decide (p = x)); [auto|right].
    split; [done|]. specialize (HE x). unfold link in HE.
    destruct (decide (next b = Some x)); [by eapply (ok_next _ _ K)|].
    apply (ok_ext _ _ K). lia.
  - by apply (live_upd _ _ _ b _ K).
  - apply (ok_raw _ _ K).
Qed.

Lemma upd_ok h p b b' E :
  heap_ok h E → pbufs h !! p = Some b → ref b' = ref b → block_of b' = block_of b → next b' = next b →
  heap_ok (with_pbufs (<[p := b']> (pbufs h)) h) E.
Proof.
  intros K Hp Hr Hbk Hn. eapply relink_ok; [done..| |].
  - intros x. unfold link. by rewrite Hn.
  - rewrite Hn. intros q Hq. by eapply (ok_next _ _ K).
Qed.

Lemma fresh_ok h q b a E :
  heap_ok h E → live (arena h) !! q = None → live a = <[q := block_of b]> (live (arena h)) →
  ref b = 1 → next b = None →
  heap_ok (with_pbufs (<[q := b]> (pbufs h)) (with_arena a h)) (inc q E).
Proof.
  intros K Hq Ha Hr Hn. assert (Hnone : pbufs h !! q = None).
  { by eapply not_live_none. }
  assert (HE : E q = 0%nat).
  { destruct (Nat.eq_dec (E q) 0) as [|Hne]; [done|]. apply (ok_ext _ _ K) in Hne as [? ?]. congruence. }
  assert (Hl : links_to (pbufs h) q = 0%nat).
  { destruct (Nat.eq_dec (links_to (pbufs h) q) 0) as [|Hne]; [done|]. exfalso.
    unfold links_to in Hne. apply Hne, map_size_empty_iff, map_empty. intros x.
    apply map_lookup_filter_None. right. intros bx Hx Hnx. simpl in Hnx.
    destruct (ok_next _ _ K x bx q Hx Hnx). congruence. }
  assert (Hlb : ∀ x, link b x = 0%nat) by (intros x; unfold link; by rewrite Hn).
  constructor; simpl.
  - intros x bx Hx. rewrite links_to_insert_new, Hlb by done. unfold inc.
    apply lookup_insert_Some in Hx as [[<- <-]|[Hne Hx]].
    + rewrite decide_True by done. lia.
    + rewrite decide_False by done. destruct (ok_ref _ _ K x bx Hx). lia.
  - intros x bx y Hx Hy. rewrite lookup_insert_is_Some. destruct (decide (q = y)); [auto|right].
    split; [done|]. apply lookup_insert_Some in Hx as [[<- <-]|[_ Hx]]; [congruence|].
    by eapply (ok_next _ _ K).
  - intros x. unfold inc. rewrite lookup_insert_is_Some. destruct (decide (q = x)); [auto|right].
    split; [done|]. rewrite decide_False in H0 by done. by apply (ok_ext _ _ K).
  - rewrite Ha. intros x bx [[<- <-]|[Hne Hx]]%lookup_insert_Some; [apply lookup_insert_eq|].
    rewrite lookup_insert_ne by done. by apply (ok_live _ _ K).
  - apply (ok_raw _ _ K).
Qed.

(** ** Packets: chains whose [tot_len] fields are right

    [rem] octets of the total are still to come after the last pbuf. *)
Fixpoint packet h (p : option Z) (l : list Z) (n rem : Z) : Prop :=
  match l with
  | [] => p = None ∧ n = rem
  | a :: l => p = Some a ∧ ∃ b, pbufs h !! a = Some b ∧ tot_len b = n ∧ 0 <= len b
      ∧ packet h (next b) l (n - len b) rem
  end.

Lemma packet_chain h rem : ∀ l p n, packet h p l n rem → chain_of h p l.
Proof. induction l as [|a l IH]; intros p n; simpl; [tauto|]. intros (-> & b & Hb & _ & _ & K). eauto. Qed.

Lemma packet_le h rem : ∀ l p n, packet h p l n rem → rem <= n.
Proof.
  induction l as [|a l IH]; intros p n; simpl; [lia|]. intros (_ & b & _ & _ & ? & K). apply IH in K. lia.
Qed.

Lemma packet_frame h h' rem : ∀ l p n,
  (∀ a, a ∈ l → pbufs h' !! a = pbufs h !! a) → packet h p l n rem → packet h' p l n rem.
Proof.
  induction l as [|a l IH]; intros p n Hf; simpl; [done|]. intros (-> & b & Hb & Ht & Hl & K).
  split; [done|]. exists b. rewrite Hf by set_solver. split_and!; [done..|].
  apply IH; [|done]. intros x Hx. apply Hf. set_solver.
Qed.

(** Which fields a function may have changed. *)
Definition same_payload b b' : Prop :=
  payload b' = payload b ∧ len b' = len b ∧ type b' = type b ∧ flags b' = flags b ∧ ref b' = ref b.

Definition meta_only h h' : Prop :=
  mem h' = mem h ∧ arena h' = arena h ∧ raw_flags h' = raw_flags h ∧ ooseq_pending h' = ooseq_pending h
  ∧ ∀ x, (∀ b, pbufs h !! x = Some b → ∃ b', pbufs h' !! x = Some b' ∧ same_payload b b')
       ∧ (pbufs h !! x = None → pbufs h' !! x = None).

Lemma meta_only_refl h : meta_only h h.
Proof. split_and!; try done. intros x. split; [|done]. intros b ->. exists b. by split_and!. Qed.

Lemma meta_only_trans h1 h2 h3 : meta_only h1 h2 → meta_only h2 h3 → meta_only h1 h3.
Proof.
  intros (A1 & A2 & A3 & A4 & A5) (B1 & B2 & B3 & B4 & B5). split_and!; try congruence.
  intros x. destruct (A5 x) as [P1 P2], (B5 x) as [Q1 Q2]. split; [|auto].
  intros b Hb. destruct (P1 _ Hb) as (b1 & Hb1 & S1). destruct (Q1 _ Hb1) as (b2 & Hb2 & S2).
  exists b2. split; [done|]. unfold same_payload in *. intuition congruence.
Qed.

Lemma meta_only_upd h p b b' :
  pbufs h !! p = Some b → same_payload b b' → meta_only h (with_pbufs (<[p := b']> (pbufs h)) h).
Proof.
  intros Hp S. split_and!; try done. intros x. simpl. destruct (decide (p = x)) as [<-|].
  - rewrite lookup_insert_eq, Hp. split; [|done]. intros ? [= <-]. eauto.
  - rewrite lookup_insert_ne by done. split; [|done]. intros bx ->. exists bx. by split_and!.
Qed.

(** ** [pbuf_cat], [pbuf_chain], [pbuf_dechain] *)
Lemma cat_loop_spec (t : Z) bt n2 : ∀ l1 fuel h hd n1 E,
  packet h (Some hd) l1 n1 0 → t ∉ l1 → pbufs h !! t = Some bt → tot_len bt = n2 →
  0 <= n2 → n1 + n2 < 65536 → (length l1 ≤ S fuel)%nat → heap_ok h E →
  ∃ h' z bz, cat_loop fuel hd t h = Some (h', z) ∧ pbufs h' !! z = Some bz ∧ z ∈ l1
    ∧ next bz = None ∧ tot_len bz = len bz ∧ 0 <= len bz ∧ len bz + n2 < 65536
    ∧ heap_ok h' E ∧ meta_only h h' ∧ (∀ x, x ∉ l1 → pbufs h' !! x = pbufs h !! x)
    ∧ ∀ h2 l2, (∀ x, x ∈ l1 → x ≠ z → pbufs h2 !! x = pbufs h' !! x) →
        pbufs h2 !! z = Some (set_next (Some t) (set_tot_len (len bz + n2) bz)) →
        packet h2 (Some t) l2 n2 0 → packet h2 (Some hd) (l1 ++ l2) (n1 + n2) 0.
Proof.
  induction l1 as [|a l1 IH]; intros fuel h hd n1 E Pk Ht Hbt Hn2 Hn2' Hlt Hf K; [by destruct Pk|].
  pose proof (packet_chain _ _ _ _ _ Pk) as Hch. pose proof (chain_of_nodup _ _ _ Hch) as [Hal _]%NoDup_cons.
  pose proof Pk as ([= ->] & b & Hb & Htb & Hlb & Pk'). pose proof (packet_le _ _ _ _ _ Pk') as Hle.
  destruct l1 as [|a1 l1].
  - destruct Pk' as [Hnx Hn0]. exists h, a, b.
    assert (cat_loop fuel a t h = Some (h, a)) as -> by (destruct fuel; simpl; rewrite Hb; simpl; by rewrite Hnx).
    split_and!; try done; try lia; [set_solver|apply meta_only_refl|].
    intros h2 l2 _ Hz Pk2. simpl. split; [done|]. eexists. split; [exact Hz|]. simpl.
    split_and!; [lia|done|]. by replace (n1 + n2 - len b) with n2 by lia.
  - pose proof Pk' as (Hnx & _). destruct fuel as [|fuel]; [simpl in Hf; lia|]. simpl.
    rewrite Hb. simpl. rewrite Hnx, Hbt. simpl. unfold upd. rewrite Hb. simpl.
    rewrite Htb, Hn2, (u16_id (n1 + n2)) by (unfold is_u16; lia).
    set (h1 := with_pbufs (<[a:=set_tot_len (n1 + n2) b]> (pbufs h)) h).
    assert (M1 : meta_only h h1) by (by apply (meta_only_upd _ _ b)).
    assert (K1 : heap_ok h1 E) by (by apply (upd_ok _ _ b)).
    assert (Pk1 : packet h1 (Some a1) (a1 :: l1) (n1 - len b) 0).
    { rewrite <- Hnx. eapply packet_frame; [|exact Pk']. intros x Hx. simpl.
      rewrite lookup_insert_ne; [done|]. intros ->. done. }
    assert (Hbt1 : pbufs h1 !! t = Some bt) by (simpl; rewrite lookup_insert_ne; set_solver).
    destruct (IH fuel h1 a1 (n1 - len b) E Pk1 ltac:(set_solver) Hbt1 Hn2 Hn2' ltac:(lia)
      ltac:(simpl in *; lia) K1) as (h' & z & bz & -> & Hz & Hzl & Hnz & Htz & Hlz & Hlz' & K' & M' & Fr & Pfin).
    assert (z ≠ a) by (intros ->; done).
    exists h', z, bz. split_and!; try done; [set_solver|by eapply meta_only_trans| |].
    + intros x Hx. rewrite Fr by set_solver. simpl. rewrite lookup_insert_ne; [done|set_solver].
    + intros h2 l2 Hf2 Hz2 Pk2. simpl. split; [done|]. exists (set_tot_len (n1 + n2) b).
      split; [rewrite Hf2, Fr by set_solver; simpl; by rewrite lookup_insert_eq|].
      split; [done|]. split; [done|]. cbn [set_tot_len next len]. rewrite Hnx.
      replace (n1 + n2 - len b) with (n1 - len b + n2) by lia.
      apply (Pfin h2 l2); [|done|done]. intros x Hx Hxz. apply Hf2; [set_solver|done].
Qed.

Lemma pbuf_cat_ok h hd t l1 l2 n1 n2 E :
  heap_ok h (inc t E) → packet h (Some hd) l1 n1 0 → packet h (Some t) l2 n2 0 →
  (∀ x, x ∈ l1 → x ∉ l2) → n1 + n2 < 65536 →
  ∃ h', pbuf_cat (Some hd) (Some t) h = Some h' ∧ heap_ok h' E ∧ meta_only h h'
    ∧ packet h' (Some hd) (l1 ++ l2) (n1 + n2) 0
    ∧ (∀ x, x ∉ l1 → pbufs h' !! x = pbufs h !! x).
Proof.
  intros K P1 P2 Hd Hlt. pose proof P2 as P2'. destruct l2 as [|t' l2]; [by destruct P2|].
  destruct P2' as ([= <-] & bt & Hbt & Htt & Hlt' & P2'). pose proof (packet_le _ _ _ _ _ P2).
  assert (Htl : t ∉ l1) by (intros ?; eapply Hd; [done|set_solver]).
  pose proof (chain_of_size _ _ _ (packet_chain _ _ _ _ _ P1)).
  destruct (cat_loop_spec t bt n2 l1 (size (pbufs h)) h hd n1 (inc t E) P1 Htl Hbt Htt ltac:(done) Hlt
    ltac:(lia) K) as (h1 & z & bz & E1 & Hz & Hzl & Hnz & Htz & Hlz & Hlz' & K1 & M1 & Fr & Pfin).
  assert (Hbt1 : pbufs h1 !! t = Some bt) by (by rewrite Fr).
  assert (z ≠ t) by (intros ->; done).
  unfold pbuf_cat. rewrite E1. simpl. rewrite Hz. simpl. unfold lwip_assert. rewrite Htz, Z.eqb_refl. simpl.
  rewrite Hbt1. simpl. unfold upd. rewrite Hz. simpl. rewrite lookup_insert_eq. simpl.
  rewrite insert_insert_eq, Htt, (u16_id (len bz + n2)) by (unfold is_u16; lia).
  exists (with_pbufs (<[z := set_next (Some t) (set_tot_len (len bz + n2) bz)]> (pbufs h1)) h1).
  split; [done|]. split.
  { eapply (relink_ok h1 z bz); [done..| |].
    - intros x. unfold link, inc. rewrite Hnz. simpl.
      destruct (decide (x = t)) as [->|]; [rewrite decide_True by done|rewrite decide_False by congruence]; simpl; lia.
    - simpl. intros q [= <-]. by eexists. }
  split.
  { eapply meta_only_trans; [exact M1|]. by apply (meta_only_upd _ _ bz). }
  split.
  { apply Pfin; [simpl|simpl|].
    - intros x Hx Hxz. by rewrite lookup_insert_ne.
    - by rewrite lookup_insert_eq.
    - eapply packet_frame; [|exact P2]. intros x Hx. simpl. rewrite lookup_insert_ne.
      + apply Fr. intros ?. by eapply Hd.
      + intros ->. by eapply Hd. }
  intros x Hx. simpl. rewrite lookup_insert_ne by (intros ->; done). by apply Fr.
Qed.

Lemma pbuf_ref_ok h p b E :
  heap_ok h E → pbufs h !! p = Some b → ref b < 65535 →
  ∃ h', pbuf_ref (Some p) h = Some h' ∧ heap_ok h' (inc p E)
    ∧ pbufs h' = <[p := set_ref (ref b + 1) b]> (pbufs h).
Proof.
  intros K Hp Hr. destruct (ok_ref _ _ K p b Hp) as [Hc Hb]. simpl. rewrite Hp. simpl.
  unfold upd. rewrite Hp. simpl. rewrite u16_id by (unfold is_u16; lia). eexists. split; [done|]. split; [|done].
  constructor; simpl.
  - intros x bx. rewrite (links_to_same_next _ _ b) by done. unfold inc.
    destruct (decide (p = x)) as [<-|Hne].
    + rewrite lookup_insert_eq, decide_True by done. intros [= <-]. simpl. lia.
    + rewrite lookup_insert_ne, decide_False by done. apply (ok_ref _ _ K).
  - intros x bx y Hx Hy. rewrite lookup_insert_is_Some. destruct (decide (p = y)); [auto|right].
    split; [done|]. apply lookup_insert_Some in Hx as [[<- <-]|[_ Hx]]; by eapply (ok_next _ _ K).
  - intros x. unfold inc. rewrite lookup_insert_is_Some. destruct (decide (p = x)); [auto|right].
    split; [done|]. rewrite decide_False in H0 by done. by apply (ok_ext _ _ K).
  - by apply (live_upd _ _ _ b _ K).
  - apply (ok_raw _ _ K).
Qed.
End ownership.
