(* ===== verification/PbufOwn.v ===== *)
(** * pbuf.c: allocation, chaining and release keep the ownership discipline

    The operations of the API on the reference-count invariant of PbufRef.v:
    [pbuf_alloc] delivers a fresh packet or leaves the heap as it was,
    [pbuf_dechain] undoes [pbuf_chain], and a client that frees only what it
    owns never makes pbuf.c touch a freed pbuf or fail an assertion. *)
From S2P Require Import Prelude LwipDef Chksum Memp Pbuf PbufRef.
Local Open Scope Z_scope.

(** ** The calls to the memory managers

    pbuf.c asks for blocks, and gives back blocks that it holds, to the pool
    or the heap they came from. *)
Section discipline.
Context {A : Type} `{HL : ArenaLaws A}.
Implicit Types (h : heap A) (a : A) (E : Z → nat).

Inductive arena_step : A → A → Prop :=
  | step_memp_malloc k a p a' : memp_malloc k a = Some (p, a') → arena_step a a'
  | step_mem_malloc n a p a' : mem_malloc n a = Some (p, a') → arena_step a a'
  | step_memp_free k p a : live a !! p = Some (POOL k) → arena_step a (memp_free k p a)
  | step_mem_free p a : live a !! p = Some HEAP → arena_step a (mem_free p a)
  | step_custom_free p a : live a !! p = Some CUSTOM → arena_step a (custom_free_function p a).

Lemma dealloc_step p b h : live (arena h) !! p = Some (block_of b) → arena_step (arena h) (arena (dealloc p b h)).
Proof using Type.
  unfold block_of, is_custom, dealloc. simpl. intros L. case_match; [by constructor|].
  destruct (type b); by constructor.
Qed.

Lemma free_loop_steps : ∀ fuel h (o : option Z) E c h' n,
  heap_ok h (inc_opt o E) → free_loop fuel o c h = Some (h', n) → rtc arena_step (arena h) (arena h').
Proof.
  induction fuel as [|fuel IH]; intros h [p|] E c h' n K Ef; simpl in Ef; try (by simplify_eq).
  bind_step Ef as b Hb. bind_step Ef as u Hu.
  destruct (ok_ref _ _ K p b Hb) as [Hc Hr]. rewrite (u16_id (ref b - 1)) in Ef by (unfold is_u16; lia).
  destruct (Z.eqb_spec (ref b - 1) 0) as [H1|H1]; [|by simplify_eq].
  destruct (dealloc_ok h p b E (ref b - 1) K Hb ltac:(lia)) as (K' & _).
  eapply rtc_l; [|exact (IH _ _ _ _ _ _ K' Ef)].
  exact (dealloc_step p (set_ref (ref b - 1) b) (with_pbufs _ h) (ok_live _ _ K p b Hb)).
Qed.

Lemma pbuf_free_steps h p E h' c : heap_ok h (inc p E) → pbuf_free (Some p) h = Some (h', c) →
  rtc arena_step (arena h) (arena h').
Proof. intros K Ef. exact (free_loop_steps (size (pbufs h)) h (Some p) E 0 h' c K Ef). Qed.
End discipline.

Section alloc.
Context {A : Type} `{HL : ArenaLaws A}.
Implicit Types (h : heap A) (b : pbuf) (E : Z → nat).

(** [h'] is [h] and the new pbufs [l], each with one reference. *)
Definition extends h h' (l : list Z) : Prop :=
  (∀ x, x ∈ l → pbufs h !! x = None ∧ ∃ b, pbufs h' !! x = Some b ∧ ref b = 1)
  ∧ (∀ x, x ∉ l → pbufs h' !! x = pbufs h !! x) ∧ mem h' = mem h.

Lemma packet_extend h h' (q rem : Z) bq : ∀ l r br p n,
  packet h (Some p) l n rem → last l = Some r → pbufs h !! r = Some br → next br = None → q ∉ l →
  (∀ x, x ∈ l → x ≠ r → pbufs h' !! x = pbufs h !! x) →
  pbufs h' !! r = Some (set_next (Some q) br) → pbufs h' !! q = Some bq →
  next bq = None → tot_len bq = rem → 0 <= len bq →
  packet h' (Some p) (l ++ [q]) n (rem - len bq).
Proof.
  induction l as [|a l IH]; intros r br p n P Hlast Hr Hnr Hq Hf Hr' Hq' Hnq Htq Hlq; [done|].
  pose proof (chain_of_nodup _ _ _ (packet_chain _ _ _ _ _ P)) as [Hal _]%NoDup_cons.
  destruct P as ([= ->] & b & Hb & Ht & Hl & P). destruct l as [|a' l].
  - simpl in Hlast. injection Hlast as ->. simplify_eq. destruct P as [_ Hrem]. simpl.
    split; [done|]. eexists. split; [exact Hr'|]. simpl. split_and!; [done..|].
    exists bq. split_and!; try done; lia.
  - assert (a ≠ r).
    { intros ->. apply Hal. rewrite last_cons_cons in Hlast. by apply last_Some_elem_of. }
    pose proof P as [Hnx _]. change ((a :: a' :: l) ++ [q]) with (a :: (a' :: l) ++ [q]).
    split; [done|]. exists b. rewrite Hf by (set_solver || done). split; [done|]. split; [done|]. split; [done|].
    rewrite Hnx in *. eapply IH; try done; [set_solver|]. intros x Hx. apply Hf. set_solver.
Qed.

Lemma packet_last h rem : ∀ l p n, packet h (Some p) l n rem →
  ∃ r br, last l = Some r ∧ pbufs h !! r = Some br ∧ next br = None ∧ r ∈ l.
Proof.
  induction l as [|a l IH]; intros p n; simpl; [naive_solver|]. intros ([= ->] & b & Hb & _ & _ & P).
  destruct l as [|a' l].
  - destruct P as [Hn _]. exists a, b. split_and!; [done..|set_solver].
  - pose proof P as (Hn & _). rewrite Hn in P. destruct (IH _ _ P) as (r & br & ? & ? & ? & ?).
    exists r, br. split_and!; [done..|set_solver].
Qed.

(** Freeing a packet nobody else refers to gives back the heap before its
    allocation. *)
Lemma free_fresh h0 h p l : chain_of h (Some p) l → extends h0 h l →
  ∃ h' n, pbuf_free (Some p) h = Some (h', n) ∧ pbufs h' = pbufs h0 ∧ mem h' = mem h0.
Proof.
  intros C (Fr & Same & M).
  destruct (free_loop_chain l (size (pbufs h)) h (Some p) 0 C) as (h' & n & E & Hp & Hm).
  - by eapply chain_of_size.
  - intros a b Ha Hb. destruct (Fr a Ha) as (_ & b' & Hb' & ?). simplify_eq. lia.
  - exists h', n. split; [exact E|]. split; [|congruence]. rewrite Hp.
    pose proof (chain_of_nodup _ _ _ C) as ND. clear -Fr Same ND. revert h0 h Fr Same ND.
    enough (∀ m0 m : gmap Z pbuf,
      (∀ x, x ∈ l → m0 !! x = None ∧ ∃ b, m !! x = Some b ∧ ref b = 1) →
      (∀ x, x ∉ l → m !! x = m0 !! x) → NoDup l → free_prefix l m = m0) as X.
    { intros h0 h Fr Same ND. by apply X. }
    induction l as [|a l IH]; intros m0 m Fr Same ND; simpl.
    + apply map_eq. intros x. apply Same. set_solver.
    + apply NoDup_cons in ND as [Ha ND]. destruct (Fr a) as (N0 & b & -> & ->); [set_solver|]. simpl.
      apply IH; [| |done].
      * intros x Hx. rewrite lookup_delete_ne by (intros ->; done). apply Fr. set_solver.
      * intros x Hx. destruct (decide (a = x)) as [->|]; [by rewrite lookup_delete_eq|].
        rewrite lookup_delete_ne by done. apply Same. set_solver.
Qed.

Lemma with_pbufs_pending_ok f h E : heap_ok h E → heap_ok (with_pending f h) E.
Proof. by intros []. Qed.

Lemma chain_of_pending f h : ∀ l p, chain_of h p l → chain_of (with_pending f h) p l.
Proof. induction l; simpl; [done|]. intros p (-> & b & ? & ?). eauto. Qed.

Lemma alloc_loop_ok h0 E : ∀ fuel l p r rem n h,
  heap_ok h (inc p E) → packet h (Some p) l n rem → last l = Some r → extends h0 h l →
  (Z.to_nat rem ≤ fuel)%nat → n < 65536 → rem < 65535 →
  (∃ b, pbufs h !! p = Some b ∧ payload b + len b <= p + SIZEOF_STRUCT_PBUF + PBUF_POOL_BUFSIZE_ALIGNED) →
  ∃ h' ok, alloc_loop fuel p r rem h = Some (h', ok) ∧ rtc arena_step (arena h) (arena h') ∧
    if ok : bool
    then ∃ l', heap_ok h' (inc p E) ∧ packet h' (Some p) (l ++ l') n (Z.min rem 0) ∧ extends h0 h' (l ++ l')
           ∧ live (arena h') !! p = live (arena h) !! p
    else heap_ok h' E ∧ pbufs h' = pbufs h0 ∧ mem h' = mem h0 ∧ ooseq_pending h' = true.
Proof.
  induction fuel as [|fuel IH]; intros l p r rem n h K P Hlast X Hf Hn Hr Hfirst.
  { assert (rem <= 0) by lia. exists h, true. cbn [alloc_loop].
    rewrite (proj2 (Z.ltb_ge 0 rem)) by lia. split; [done|]. split; [done|]. exists []. rewrite app_nil_r, Z.min_l by lia. done. }
  cbn [alloc_loop]. destruct (Z.ltb_spec 0 rem); simpl.
  2:{ exists h, true. split; [done|]. split; [done|]. exists []. rewrite app_nil_r, Z.min_l by lia. done. }
  destruct (memp_malloc MEMP_PBUF_POOL (arena h)) as [[q a]|] eqn:Hm.
  2:{ apply (with_pbufs_pending_ok true) in K.
      pose proof (chain_of_pending true _ _ _ (packet_chain _ _ _ _ _ P)) as C.
      destruct (pbuf_free_ok _ _ _ K) as (h1 & k & E1 & K1 & (_ & O1 & _) & _).
      destruct (free_fresh h0 _ _ _ C X) as (h2 & k2 & E2 & ? & ?).
      pose proof (pbuf_free_steps _ _ _ _ _ K E1) as St.
      rewrite E1 in E2. injection E2 as <- <-. exists h1, false.
      split; [|done]. transitivity (pbuf_free (Some p) (with_pending true h) ≫= λ '(h, _), Some (h, false)); [done|].
      by rewrite E1. }
  destruct (memp_malloc_fresh _ _ _ _ Hm) as (Hq & Ha & Hq4 & Hq0).
  destruct (packet_last _ _ _ _ _ P) as (r' & br & Hr' & Hbr & Hnr & Hrl). rewrite Hlast in Hr'. injection Hr' as <-.
  assert (Hql : pbufs h !! q = None).
  { by eapply not_live_none. }
  assert (Hqnl : q ∉ l).
  { intros ?. destruct (chain_of_in _ _ _ _ (packet_chain _ _ _ _ _ P) H1) as [? ?]. congruence. }
  assert (q ≠ r) by (intros ->; done).
  unfold upd. cbn [with_arena pbufs]. rewrite Hbr. simpl. unfold lwip_assert.
  rewrite (proj2 (Z.ltb_lt rem 65535)) by lia. simpl.
  assert (((q + SIZEOF_STRUCT_PBUF) mod 4 =? 0) = true) as ->.
  { apply Z.eqb_eq. unfold SIZEOF_STRUCT_PBUF. rewrite Zplus_mod, Hq4. done. }
  simpl. destruct Hfirst as (b0 & Hb0 & Hle).
  assert (∃ b1, <[r:=set_next (Some q) br]> (pbufs h) !! p = Some b1 ∧ payload b1 = payload b0 ∧ len b1 = len b0)
    as (b1 & Hb1 & Hpb1 & Hlb1).
  { destruct (decide (r = p)) as [->|].
    - rewrite lookup_insert_eq. eexists. split; [done|]. by simplify_eq.
    - rewrite lookup_insert_ne by done. eauto. }
  rewrite Hb1. simpl. rewrite Hpb1, Hlb1, (proj2 (Z.leb_le _ _) Hle). simpl.
  rewrite !(u16_id rem) by (unfold is_u16; lia).
  set (lq := rem `min` PBUF_POOL_BUFSIZE_ALIGNED).
  set (bq := MkPbuf None (q + SIZEOF_STRUCT_PBUF) rem lq PBUF_POOL 0 1).
  assert (0 < lq) by (unfold lq, PBUF_POOL_BUFSIZE_ALIGNED; lia). assert (lq <= rem) by lia.
  assert (Kq : heap_ok (with_pbufs (<[r:=set_next (Some q) br]> (<[q:=bq]> (pbufs h))) (with_arena a h)) (inc p E)).
  { refine (relink_ok (with_pbufs (<[q:=bq]> (pbufs h)) (with_arena a h)) r br
      (set_next (Some q) br) (inc q (inc p E)) (inc p E) _ _ _ _ _ _).
    - by eapply (fresh_ok h q bq a (inc p E)).
    - simpl. by rewrite lookup_insert_ne.
    - done.
    - done.
    - intros x. unfold link. rewrite Hnr. unfold inc at 2. simpl.
      destruct (decide (x = q)) as [->|]; [rewrite decide_True by done|rewrite decide_False by congruence]; simpl; lia.
    - simpl. intros ? [= <-]. rewrite lookup_insert_eq. by eexists. }
  rewrite insert_insert_ne in Kq by done.
  set (h1 := with_pbufs (<[q:=bq]> (<[r:=set_next (Some q) br]> (pbufs h))) (with_arena a h)) in *.
  destruct (IH (l ++ [q]) p q (rem - lq) n h1) as (h' & ok & Eh & R).
  - done.
  - eapply (packet_extend h h1 q rem bq l r br); try done; unfold h1; simpl.
    + intros x Hx Hxr. rewrite !lookup_insert_ne; [done|done|]. intros ->. done.
    + rewrite lookup_insert_ne by done. by rewrite lookup_insert_eq.
    + by rewrite lookup_insert_eq.
    + lia.
  - by rewrite last_snoc.
  - destruct X as (X1 & X2 & X3). split; [|split].
    + intros x [Hx| ->%list_elem_of_singleton]%elem_of_app; unfold h1; simpl.
      * destruct (X1 x Hx) as (? & bx & Hbx & Hrx). split; [done|].
        rewrite lookup_insert_ne by (intros ->; done). destruct (decide (r = x)) as [<-|].
        -- rewrite lookup_insert_eq. eexists. split; [done|]. simpl. by simplify_eq.
        -- rewrite lookup_insert_ne by done. eauto.
      * rewrite <- (X2 q) by done. split; [done|]. rewrite lookup_insert_eq. by eexists.
    + intros x Hx. unfold h1. simpl. rewrite !lookup_insert_ne by set_solver. apply X2. set_solver.
    + done.
  - lia.
  - done.
  - lia.
  - unfold h1. simpl. destruct (decide (q = p)) as [->|].
    + exfalso. apply Hqnl. destruct l; simpl in P; [naive_solver|]. destruct P as ([= ->] & _). set_solver.
    + rewrite lookup_insert_ne by done. exists b1. split; [done|]. lia.
  - destruct R as [St R]. exists h', ok. split; [exact Eh|].
    split; [eapply rtc_l; [exact (step_memp_malloc _ _ _ _ Hm)|exact St]|]. destruct ok; [|done]. destruct R as (l' & R1 & R2 & R3 & R4).
    exists (q :: l'). rewrite <- app_assoc in R2, R3. simpl in *. split; [done|].
    replace (rem `min` 0) with ((rem - lq) `min` 0) by lia. split_and!; try done.
    rewrite R4. unfold h1. simpl. rewrite Ha. apply lookup_insert_ne. intros ->. congruence.
Qed.

Lemma align_4 a : LWIP_MEM_ALIGN a mod 4 = 0 ∧ a <= LWIP_MEM_ALIGN a < a + 4.
Proof. unfold LWIP_MEM_ALIGN. split; [by rewrite Z_mod_mult|]. pose proof (Z_div_mod_eq_full (a + 3) 4).
  pose proof (Z.mod_pos_bound (a + 3) 4). lia. Qed.

Lemma extends_singleton h q b a : pbufs h !! q = None → ref b = 1 →
  extends h (with_pbufs (<[q := b]> (pbufs h)) (with_arena a h)) [q].
Proof.
  intros Hq Hb. split_and!; [|intros x Hx; simpl; apply lookup_insert_ne; set_solver|done].
  intros x ->%list_elem_of_singleton. split; [done|]. simpl. rewrite lookup_insert_eq. eauto.
Qed.

Lemma alloc_one_ok h E q b a :
  heap_ok h E → live (arena h) !! q = None → live a = <[q := block_of b]> (live (arena h)) →
  next b = None → ref b = 1 → 0 <= len b →
  let h' := with_pbufs (<[q := b]> (pbufs h)) (with_arena a h) in
  heap_ok h' (inc q E) ∧ packet h' (Some q) [q] (tot_len b) (tot_len b - len b) ∧ extends h h' [q].
Proof.
  intros K Hq Ha Hn Hr Hl h'. split; [by apply fresh_ok|]. split; [|apply extends_singleton; [by eapply not_live_none|done]].
  split; [done|]. exists b. unfold h'. simpl. rewrite lookup_insert_eq, Hn. done.
Qed.

Lemma layer_offset_bound layer : 0 <= layer_offset layer <= 54.
Proof. destruct layer; unfold layer_offset, PBUF_LINK_HLEN, PBUF_IP_HLEN, PBUF_TRANSPORT_HLEN; lia. Qed.

Lemma alloc_finish_ok h0 h p l n E :
  heap_ok h (inc p E) → packet h (Some p) l n 0 → extends h0 h l →
  live (arena h) !! p = Some (POOL MEMP_PBUF_POOL) →
  ∃ h', (h ← upd p (set_ref 1) h; h ← upd p (set_flags 0) h; Some (h, Some p)) = Some (h', Some p)
    ∧ arena h' = arena h ∧ heap_ok h' (inc p E) ∧ packet h' (Some p) l n 0 ∧ extends h0 h' l.
Proof.
  intros K P (X1 & X2 & X3) Hpool. destruct l as [|p' l]; [by destruct P|].
  pose proof (chain_of_nodup _ _ _ (packet_chain _ _ _ _ _ P)) as [Hpl _]%NoDup_cons.
  destruct P as ([= <-] & b & Hb & Ht & Hl & P).
  destruct (X1 p) as (N & b' & Hb' & Hr); [set_solver|]. simplify_eq.
  unfold upd. rewrite Hb. simpl. rewrite lookup_insert_eq. simpl. rewrite insert_insert_eq.
  exists (with_pbufs (<[p := set_flags 0 (set_ref 1 b)]> (pbufs h)) h). split; [done|]. split; [done|]. split; [|split].
  - apply (upd_ok _ _ b); try done. pose proof (ok_live _ _ K _ _ Hb) as Hk. rewrite Hpool in Hk. injection Hk as Hk.
    rewrite <- Hk. unfold block_of in *. simpl. destruct (is_custom (flags b)); [done|]. by destruct (type b).
  - split; [done|]. exists (set_flags 0 (set_ref 1 b)). simpl. rewrite lookup_insert_eq. split_and!; try done.
    eapply packet_frame; [|exact P]. intros x Hx. simpl. rewrite lookup_insert_ne; [done|]. by intros ->.
  - split_and!; simpl; [|intros x Hx; rewrite lookup_insert_ne by set_solver; by apply X2|done].
    intros x Hx. destruct (decide (p = x)) as [<-|].
    + rewrite lookup_insert_eq. eauto.
    + rewrite lookup_insert_ne by done. by apply X1.
Qed.

Lemma pbuf_alloc_ok h E layer length ty :
  heap_ok h E → 0 <= length < 65536 →
  ∃ h' r, pbuf_alloc layer length ty h = Some (h', r) ∧ rtc arena_step (arena h) (arena h') ∧
    match r with
    | Some p => ∃ l, heap_ok h' (inc p E) ∧ packet h' (Some p) l length 0 ∧ extends h h' l
    | None => heap_ok h' E ∧ pbufs h' = pbufs h ∧ mem h' = mem h
    end.
Proof.
  intros K Hlen. unfold pbuf_alloc, lwip_assert. pose proof (layer_offset_bound layer) as Hoff.
  destruct ty.
  - destruct mem_malloc as [[p a]|] eqn:Hm; [|exists h, None; done].
    destruct (mem_malloc_fresh _ _ _ _ Hm) as (Hq & Ha & _). rewrite (proj1 (align_4 _)). simpl.
    destruct (alloc_one_ok h E p (MkPbuf None (LWIP_MEM_ALIGN (p + SIZEOF_STRUCT_PBUF + layer_offset layer))
      length length PBUF_RAM 0 1) a) as (? & Pk & ?); try done; [simpl; lia|].
    eexists _, (Some p). split; [done|]. split; [by apply rtc_once; econstructor|]. exists [p]. simpl in Pk. by rewrite Z.sub_diag in Pk.
  - destruct memp_malloc as [[p a]|] eqn:Hm; [|exists h, None; done].
    destruct (memp_malloc_fresh _ _ _ _ Hm) as (Hq & Ha & _).
    destruct (alloc_one_ok h E p (MkPbuf None 0 length length PBUF_ROM 0 1) a) as (? & Pk & ?); try done; [simpl; lia|].
    eexists _, (Some p). split; [done|]. split; [by apply rtc_once; econstructor|]. exists [p]. simpl in Pk. by rewrite Z.sub_diag in Pk.
  - destruct memp_malloc as [[p a]|] eqn:Hm; [|exists h, None; done].
    destruct (memp_malloc_fresh _ _ _ _ Hm) as (Hq & Ha & _).
    destruct (alloc_one_ok h E p (MkPbuf None 0 length length PBUF_REF 0 1) a) as (? & Pk & ?); try done; [simpl; lia|].
    eexists _, (Some p). split; [done|]. split; [by apply rtc_once; econstructor|]. exists [p]. simpl in Pk. by rewrite Z.sub_diag in Pk.
  - destruct memp_malloc as [[p a]|] eqn:Hm.
    2:{ exists (with_pending true h), None. split; [done|]. split; [done|]. split; [by apply with_pbufs_pending_ok|done]. }
    destruct (memp_malloc_fresh _ _ _ _ Hm) as (Hq & Ha & _). rewrite (proj1 (align_4 _)). simpl.
    set (off := layer_offset layer) in *. pose proof (align_4 (p + (SIZEOF_STRUCT_PBUF + off))) as [_ Hal].
    assert (LWIP_MEM_ALIGN_SIZE off = LWIP_MEM_ALIGN off) as Has by done.
    pose proof (align_4 off) as [_ Hao]. rewrite Has.
    assert (0 <= Z.min length (PBUF_POOL_BUFSIZE_ALIGNED - LWIP_MEM_ALIGN off) < 65536)
      by (unfold PBUF_POOL_BUFSIZE_ALIGNED in *; lia).
    rewrite (u16_id (Z.min _ _)) by (unfold is_u16; lia).
    set (l := Z.min length (PBUF_POOL_BUFSIZE_ALIGNED - LWIP_MEM_ALIGN off)) in *.
    assert (Hfit : LWIP_MEM_ALIGN (p + (SIZEOF_STRUCT_PBUF + off)) + l
      <= p + SIZEOF_STRUCT_PBUF + PBUF_POOL_BUFSIZE_ALIGNED).
    { enough (LWIP_MEM_ALIGN (p + (SIZEOF_STRUCT_PBUF + off)) <= p + SIZEOF_STRUCT_PBUF + LWIP_MEM_ALIGN off) by lia.
      destruct (memp_malloc_fresh _ _ _ _ Hm) as (_ & _ & Hp4 & _). clear -Hp4.
      unfold LWIP_MEM_ALIGN, SIZEOF_STRUCT_PBUF. apply Z.mod_divide in Hp4 as [k ->]; [|done].
      replace (k * 4 + (16 + off) + 3) with (off + 3 + (k + 4) * 4) by lia. rewrite Z.div_add by done. lia. }
    rewrite (proj2 (Z.leb_le _ _) Hfit). simpl.
    rewrite (proj2 (Z.ltb_lt 0 (PBUF_POOL_BUFSIZE_ALIGNED - LWIP_MEM_ALIGN off)))
      by (unfold PBUF_POOL_BUFSIZE_ALIGNED; lia). simpl.
    set (b := MkPbuf None (LWIP_MEM_ALIGN (p + (SIZEOF_STRUCT_PBUF + off))) length l PBUF_POOL (raw_flags h p) 1).
    assert (Hbk : block_of b = POOL MEMP_PBUF_POOL) by (unfold block_of; simpl; by rewrite (ok_raw _ _ K)).
    destruct (alloc_one_ok h E p b a) as (K1 & P1 & X1); try done; [by rewrite Hbk|simpl; lia|].
    destruct (alloc_loop_ok h E (Z.to_nat (length - l)) [p] p p (length - l) length _ K1 P1) as (h' & ok & Eh & R);
      try done; try lia.
    + unfold l, PBUF_POOL_BUFSIZE_ALIGNED. lia.
    + exists b. simpl. rewrite lookup_insert_eq. split; [done|]. exact Hfit.
    + rewrite Eh. simpl. destruct R as [St R].
      assert (rtc arena_step (arena h) (arena h')) as St' by (eapply rtc_l; [exact (step_memp_malloc _ _ _ _ Hm)|exact St]).
      destruct ok.
      * destruct R as (l' & K2 & P2 & X2 & Lp). rewrite Z.min_r in P2 by lia.
        assert (live (arena h') !! p = Some (POOL MEMP_PBUF_POOL)) as Lp' by (rewrite Lp; simpl; rewrite Ha; apply lookup_insert_eq).
        destruct (alloc_finish_ok h h' p _ length E K2 P2 X2 Lp') as (h2 & -> & Ea & ?).
        eexists h2, (Some p). rewrite Ea. eauto.
      * eexists h', None. split; [done|]. split; [done|]. tauto.
Qed.
End alloc.

Section chaining.
Context {A : Type} `{HL : ArenaLaws A}.
Implicit Types (h : heap A) (b : pbuf) (E : Z → nat).

Lemma pbuf_chain_ok h hd t l1 l2 n1 n2 bt E :
  heap_ok h (inc t E) → packet h (Some hd) l1 n1 0 → packet h (Some t) l2 n2 0 →
  (∀ x, x ∈ l1 → x ∉ l2) → n1 + n2 < 65536 → pbufs h !! t = Some bt → ref bt < 65535 →
  ∃ h', pbuf_chain (Some hd) (Some t) h = Some h' ∧ heap_ok h' (inc t E)
    ∧ packet h' (Some hd) (l1 ++ l2) (n1 + n2) 0
    ∧ mem h' = mem h ∧ arena h' = arena h.
Proof.
  intros K P1 P2 Hd Hlt Hbt Hr.
  destruct (pbuf_cat_ok h hd t l1 l2 n1 n2 E K P1 P2 Hd Hlt) as (h1 & E1 & K1 & M1 & P & Fr).
  pose proof M1 as (Mm & Ma & _ & _ & M). destruct (M t) as [Mt _]. destruct (Mt _ Hbt) as (bt1 & Hbt1 & S).
  destruct S as (_ & _ & _ & _ & S).
  destruct (pbuf_ref_ok h1 t bt1 E K1 Hbt1 ltac:(lia)) as (h2 & E2 & K2 & Hp2).
  exists h2. unfold pbuf_chain. rewrite E1. cbn [option_bind mbind]. split; [exact E2|]. split; [done|].
  cbn in E2. rewrite Hbt1 in E2. cbn in E2. unfold upd in E2. rewrite Hbt1 in E2. cbn in E2. injection E2 as <-.
  split; [|done]. generalize P. generalize (l1 ++ l2), (Some hd), (n1 + n2). clear -Hbt1.
  induction l as [|a l IH]; intros p n; cbn; [done|]. intros (-> & b & Hb & Ht & Hl & P). split; [done|].
  destruct (decide (t = a)) as [->|].
  - rewrite lookup_insert_eq. simplify_eq. eexists. split; [done|]. cbn. split_and!; [done..|]. by apply IH.
  - rewrite lookup_insert_ne by done. exists b. split_and!; [done..|]. by apply IH.
Qed.

(** The number of pbufs a call has freed. *)
Definition freed h h' : nat := (size (pbufs h) - size (pbufs h'))%nat.

Lemma free_prefix_None x : ∀ l m, m !! x = None → free_prefix l m !! x = None.
Proof.
  induction l as [|a l IH]; intros m Hm; cbn; [done|]. destruct (m !! a) as [b|] eqn:Ha; [|done].
  case_match; [|rewrite lookup_insert_ne; [done|congruence]].
  apply IH. destruct (decide (a = x)) as [->|]; [apply lookup_delete_eq|by rewrite lookup_delete_ne].
Qed.

Lemma free_prefix_size : ∀ l m, (size (free_prefix l m) ≤ size m)%nat.
Proof.
  induction l as [|a l IH]; intros m; cbn; [done|]. destruct (m !! a) as [b|] eqn:Ha; [|done].
  case_match; [|by rewrite map_size_insert, Ha].
  etrans; [apply IH|]. rewrite map_size_delete, Ha. lia.
Qed.

Lemma pbuf_dechain_ok h p q l n E :
  heap_ok h E → packet h (Some p) (p :: q :: l) n 0 → n < 65536 →
  ∃ h' r b, pbuf_dechain p h = Some (h', r) ∧ heap_ok h' E ∧ rtc arena_step (arena h) (arena h')
    ∧ pbufs h !! p = Some b ∧ pbufs h' !! p = Some (set_tot_len (len b) (set_next None b))
    ∧ (freed h h' = 0%nat → r = Some q ∧ packet h' (Some q) (q :: l) (n - len b) 0)
    ∧ (freed h h' ≠ 0%nat → pbufs h' !! q = None ∧ (r = None ↔ u8 (Z.of_nat (freed h h')) ≠ 0)).
Proof.
  intros K P Hn. pose proof (packet_chain _ _ _ _ _ P) as C.
  pose proof (chain_of_nodup _ _ _ C) as [Hpl NDl]%NoDup_cons.
  destruct P as (_ & b & Hb & Htb & Hlb & P). pose proof P as (Hnx & bq & Hbq & Htq & Hlq & P').
  pose proof (packet_le _ _ _ _ _ P) as Hle.
  assert (Hpq : p ≠ q) by set_solver.
  unfold pbuf_dechain. rewrite Hb. cbn. rewrite Hnx, Hbq. cbn. unfold lwip_assert.
  rewrite Htq, Htb, Z.eqb_refl. cbn. unfold upd. rewrite Hbq. cbn.
  rewrite lookup_insert_ne by done. rewrite Hb. cbn. rewrite lookup_insert_eq. cbn.
  rewrite u16_id by (unfold is_u16; lia). rewrite insert_insert_eq.
  rewrite insert_insert_ne by done.
  assert (<[q:=set_tot_len (n - len b) bq]> (<[p:=set_tot_len (len b) (set_next None b)]> (pbufs h))
    = <[p:=set_tot_len (len b) (set_next None b)]> (pbufs h)) as ->.
  { rewrite insert_id; [done|]. rewrite lookup_insert_ne, Hbq by done. rewrite <- Htq. by destruct bq. }
  set (h1 := with_pbufs (<[p:=set_tot_len (len b) (set_next None b)]> (pbufs h)) h).
  change (with_pbufs _ (with_pbufs _ _)) with h1.
  assert (K1 : heap_ok h1 (inc q E)).
  { refine (relink_ok h p b _ E (inc q E) K Hb _ _ _ _); [done|done| |done].
    intros x. unfold link, inc. rewrite Hnx. cbn. repeat case_decide; simplify_eq; lia. }
  assert (C1 : chain_of h1 (Some q) (q :: l)).
  { rewrite <- Hnx. destruct C as (_ & b' & Hb' & C). simplify_eq. eapply chain_of_frame; [|exact C].
    intros x bx Hx Hbx. exists bx. unfold h1. cbn. rewrite lookup_insert_ne; [done|]. intros ->. done. }
  assert (Hs : size (pbufs h1) = size (pbufs h)) by (unfold h1; cbn; by rewrite map_size_insert, Hb).
  destruct (pbuf_free_ok _ _ _ K1) as (h2 & k & Ef & K2 & S2 & Sz & Hk).
  pose proof (pbuf_free_steps _ _ _ _ _ K1 Ef) as St.
  assert (Hp1 : pbufs h1 !! p = Some (set_tot_len (len b) (set_next None b))) by (unfold h1; cbn; apply lookup_insert_eq).
  destruct (free_loop_upd_next _ _ _ _ _ _ _ p _ None C1 Hpl Hp1 Ef) as [Hp2 _].
  destruct (free_loop_chain (q :: l) (size (pbufs h1)) h1 (Some q) 0 C1) as (h2' & k' & Ef' & Hfp & _).
  { by eapply chain_of_size. }
  { intros a ba _ Ha. by destruct (ok_ref _ _ K1 a ba Ha). }
  assert (Hbq1 : pbufs h1 !! q = Some bq) by (unfold h1; cbn; by rewrite lookup_insert_ne).
  change (pbuf_free (Some q) h1) with (free_loop (size (pbufs h1)) (Some q) 0 h1) in Ef.
  rewrite Ef in Ef'. injection Ef' as <- <-.
  change (size (<[p:=set_tot_len (len b) (set_next None b)]> (pbufs h))) with (size (pbufs h1)).
  rewrite Ef. cbn. rewrite Hp2. cbn. rewrite Z.eqb_refl. cbn.
  eexists h2, _, b. split; [done|]. split; [done|]. split; [exact St|]. split; [done|]. split; [exact Hp2|].
  unfold freed. rewrite <- Hs, Hk. clear Ef Hk. cbn [free_prefix] in Hfp. rewrite Hbq1 in Hfp.
  destruct (ok_ref _ _ K1 q bq Hbq1) as [_ Hrq]. destruct (Z.eqb_spec (ref bq) 1) as [H1|H1].
  - assert (0 < size (pbufs h1))%nat.
    { apply Nat.neq_0_lt_0. intros E0%map_size_empty_inv. by rewrite E0 in Hbq1. }
    pose proof (free_prefix_size l (delete q (pbufs h1))) as Hfs.
    rewrite <- Hfp, map_size_delete, Hbq1 in Hfs. split; [lia|]. intros _. split.
    + rewrite Hfp. apply free_prefix_None, lookup_delete_eq.
    + pose proof (u8_range (Z.of_nat (size (pbufs h1) - size (pbufs h2)))) as R. unfold is_u8 in R.
      destruct (Z.ltb_spec 0 (u8 (Z.of_nat (size (pbufs h1) - size (pbufs h2))))); split; intros; try done; lia.
  - rewrite Hfp, map_size_insert, Hbq1, Nat.sub_diag. split; [|done]. intros _. split; [done|].
    split; [done|]. eexists. rewrite lookup_insert_eq. split; [done|]. cbn. split; [done|]. split; [done|].
    rewrite <- Htq in P' |- *. eapply packet_frame; [|exact P']. intros x Hx. rewrite Hfp.
    apply NoDup_cons in NDl as [? _].
    rewrite lookup_insert_ne by (intros ->; done). unfold h1. cbn. apply lookup_insert_ne. set_solver.
Qed.

Lemma heap_ok_ext h E E' : (∀ x, E x = E' x) → heap_ok h E → heap_ok h E'.
Proof.
  intros X [K1 K2 K3 K4 K5]. constructor; [|done| |done|done].
  - intros x b Hb. rewrite <- X. by apply K1.
  - intros x. rewrite <- X. apply K3.
Qed.

Definition disown (p : Z) E : Z → nat := λ x, if decide (x = p) then pred (E x) else E x.

Lemma inc_disown p E x : E p ≠ 0%nat → inc p (disown p E) x = E x.
Proof. unfold inc, disown. intros. case_decide; subst; lia. Qed.

Lemma disown_ok h p E : heap_ok h E → E p ≠ 0%nat → heap_ok h (inc p (disown p E)).
Proof. intros K Hp. eapply heap_ok_ext; [|exact K]. intros x. by rewrite inc_disown. Qed.

Lemma free_owned_ok h p E : heap_ok h E → E p ≠ 0%nat →
  ∃ h' n, pbuf_free (Some p) h = Some (h', n) ∧ heap_ok h' (disown p E).
Proof.
  intros K Hp. destruct (pbuf_free_ok h p (disown p E) (disown_ok _ _ _ K Hp)) as (h' & n & ? & ? & _). eauto.
Qed.

(** Freeing pbufs touches the blocks of pbufs only. *)
Lemma free_loop_live x : ∀ fuel h (o : option Z) E c h' n,
  heap_ok h (inc_opt o E) → pbufs h !! x = None → free_loop fuel o c h = Some (h', n) →
  live (arena h') !! x = live (arena h) !! x.
Proof.
  induction fuel as [|fuel IH]; intros h [p|] E c h' n K Hx Ef; simpl in Ef; try (by simplify_eq).
  bind_step Ef as b Hb. bind_step Ef as u Hu. assert (Hpx : p ≠ x) by congruence.
  destruct (ok_ref _ _ K p b Hb) as [Hc Hr]. rewrite (u16_id (ref b - 1)) in Ef by (unfold is_u16; lia).
  destruct (Z.eqb_spec (ref b - 1) 0) as [H1|H1].
  - destruct (dealloc_ok h p b E (ref b - 1) K Hb ltac:(lia)) as (K' & _ & _ & Ep).
    rewrite (IH _ _ _ _ _ _ K' ltac:(rewrite Ep, lookup_delete_ne by done; done) Ef).
    rewrite dealloc_live; [by rewrite lookup_delete_ne|]. apply (ok_live _ _ K p b Hb).
  - simplify_eq. done.
Qed.

Lemma pbuf_free_live h p E h' c x : heap_ok h E → E p ≠ 0%nat → pbuf_free (Some p) h = Some (h', c) → pbufs h !! x = None →
  live (arena h') !! x = live (arena h) !! x.
Proof. intros K He Ef Hx. eapply free_loop_live; [|done|exact Ef]. simpl. by apply disown_ok. Qed.

(** ** A client of the API

    It holds [E p] references to each pbuf, frees only what it holds, and
    joins packets only where pbuf.h allows it: the tail is its own, the
    packets are disjoint, and the sum of their lengths fits in [tot_len]. *)
Inductive op :=
  | OpAlloc (layer : pbuf_layer) (n : Z) (ty : pbuf_type)
  | OpFree (p : Z)
  | OpRef (p : Z)
  | OpCat (p q : Z)
  | OpChain (p q : Z)
  | OpDechain (p : Z).

Definition run (o : op) h : option (heap A * option Z) :=
  match o with
  | OpAlloc layer n ty => pbuf_alloc layer n ty h
  | OpFree p => '(h, _) ← pbuf_free (Some p) h; Some (h, None)
  | OpRef p => h ← pbuf_ref (Some p) h; Some (h, None)
  | OpCat p q => h ← pbuf_cat (Some p) (Some q) h; Some (h, None)
  | OpChain p q => h ← pbuf_chain (Some p) (Some q) h; Some (h, None)
  | OpDechain p => pbuf_dechain p h
  end.

Definition owns (o : op) (r : option Z) E : Z → nat :=
  match o with
  | OpAlloc _ _ _ => inc_opt r E
  | OpFree p => disown p E
  | OpRef p => inc p E
  | OpCat _ q => disown q E
  | OpChain _ _ | OpDechain _ => E
  end.

Definition joinable h (p q : Z) : Prop := ∃ l1 l2 n1 n2,
  packet h (Some p) l1 n1 0 ∧ packet h (Some q) l2 n2 0 ∧ (∀ x, x ∈ l1 → x ∉ l2) ∧ n1 + n2 < 65536.

Definition allowed h E (o : op) : Prop :=
  match o with
  | OpAlloc _ n _ => is_u16 n
  | OpFree p => E p ≠ 0%nat
  | OpRef p => ∃ b, pbufs h !! p = Some b ∧ ref b < 65535
  | OpCat p q => E q ≠ 0%nat ∧ joinable h p q
  | OpChain p q => E q ≠ 0%nat ∧ joinable h p q ∧ ∃ b, pbufs h !! q = Some b ∧ ref b < 65535
  | OpDechain p => ∃ l n, packet h (Some p) (p :: l) n 0 ∧ n < 65536
  end.

Lemma pbuf_ref_arena p h h' : pbuf_ref p h = Some h' → arena h' = arena h.
Proof. unfold pbuf_ref, upd. destruct p as [p|]; [|by intros [= <-]]. destruct (pbufs h !! p); [|done]. by intros [= <-]. Qed.

Lemma dechain_single_ok h p n E : heap_ok h E → packet h (Some p) [p] n 0 →
  pbuf_dechain p h = Some (h, None).
Proof.
  intros K (_ & b & Hb & Ht & _ & Hn & ?). unfold pbuf_dechain. rewrite Hb. cbn. rewrite Hn.
  assert ((tot_len b =? len b) = true) as -> by lia. done.
Qed.

Lemma run_ok_steps o h E : heap_ok h E → allowed h E o →
  ∃ h' r, run o h = Some (h', r) ∧ heap_ok h' (owns o r E) ∧ rtc arena_step (arena h) (arena h').
Proof.
  intros K Ho. destruct o as [layer n ty|p|p|p q|p q|p]; cbn [allowed run owns] in Ho |- *.
  - destruct (pbuf_alloc_ok h E layer n ty K Ho) as (h' & r & -> & St & R). exists h', r. split; [done|].
    destruct r; [naive_solver|tauto].
  - destruct (free_owned_ok h p E K Ho) as (h' & n & E1 & K'). pose proof (pbuf_free_steps _ _ _ _ _ (disown_ok _ _ _ K Ho) E1).
    rewrite E1. cbn. eauto.
  - destruct Ho as (b & Hb & Hr). destruct (pbuf_ref_ok h p b E K Hb Hr) as (h' & E1 & K' & _).
    apply pbuf_ref_arena in E1 as Ea. rewrite E1. cbn. eexists _, _. split; [done|]. split; [done|]. by rewrite Ea.
  - destruct Ho as (Hq & l1 & l2 & n1 & n2 & P1 & P2 & D & Hn).
    destruct (pbuf_cat_ok h p q l1 l2 n1 n2 _ (disown_ok _ _ _ K Hq) P1 P2 D Hn) as (h' & E1 & K' & (_ & Ea & _) & _).
    rewrite E1. cbn. eexists _, _. split; [done|]. split; [done|]. by rewrite Ea.
  - destruct Ho as (Hq & (l1 & l2 & n1 & n2 & P1 & P2 & D & Hn) & b & Hb & Hr).
    destruct (pbuf_chain_ok h p q l1 l2 n1 n2 b _ (disown_ok _ _ _ K Hq) P1 P2 D Hn Hb Hr) as (h' & E1 & K' & _ & _ & Ea).
    rewrite E1. cbn. eexists _, _. split; [done|]. split; [|by rewrite Ea].
    eapply heap_ok_ext; [|exact K']. intros x. by apply inc_disown.
  - destruct Ho as (l & n & P & Hn). destruct l as [|q l].
    + rewrite (dechain_single_ok h p n E K P). eexists _, _. split; [done|]. by split.
    + destruct (pbuf_dechain_ok h p q l n E K P Hn) as (h' & r & b & E1 & K' & St & _). eauto.
Qed.

Lemma run_ok o h E : heap_ok h E → allowed h E o → ∃ h' r, run o h = Some (h', r) ∧ heap_ok h' (owns o r E).
Proof. intros K Ho. destruct (run_ok_steps o h E K Ho) as (? & ? & ? & ? & _). eauto. Qed.

Inductive client_step : heap A * (Z → nat) → heap A * (Z → nat) → Prop :=
  | client_run o h h' r E : allowed h E o → run o h = Some (h', r) →
      client_step (h, E) (h', owns o r E).

Lemma client_reach h E h' E' :
  heap_ok h E → rtc client_step (h, E) (h', E') →
  heap_ok h' E' ∧ ∀ o, allowed h' E' o → is_Some (run o h').
Proof.
  intros K R. assert (K' : heap_ok h' E').
  { remember (h, E) as s. remember (h', E') as s'. revert h E Heqs K h' E' Heqs'.
    induction R as [s|s s1 s2 S R IH]; intros h E -> K h' E' Heq; [by simplify_eq|].
    inversion S as [o h0 h1 r E0 Ho Hrun]. simplify_eq. destruct (run_ok o h E K Ho) as (h2 & r2 & E2 & K2).
    rewrite Hrun in E2. simplify_eq. by eapply IH. }
  split; [done|]. intros o Ho. destruct (run_ok o h' E' K' Ho) as (? & ? & -> & _). by eexists.
Qed.

(** The memory managers see their own steps only. *)
Lemma client_steps h E h' E' : heap_ok h E → rtc client_step (h, E) (h', E') → rtc arena_step (arena h) (arena h').
Proof.
  intros K R. remember (h, E) as s. remember (h', E') as s'. revert h E Heqs K h' E' Heqs'.
  induction R as [s|s s1 s2 S R IH]; intros h E -> K h' E' Heq; [by simplify_eq|].
  inversion S as [o h0 h1 r E0 Ho Hrun]. simplify_eq. destruct (run_ok_steps o h E K Ho) as (h2 & r2 & E2 & K2 & St).
  rewrite Hrun in E2. simplify_eq. etrans; [exact St|]. by eapply IH.
Qed.

(** C2. A client that frees only references it holds and joins only disjoint
    packets never brings pbuf.c to a failed assertion or a freed pbuf: after
    any sequence of its calls every count is again the number of pointers to
    the pbuf, and each call it may make next returns. *)
Theorem pbuf_client_safe h E h' E' :
  heap_ok h E → rtc client_step (h, E) (h', E') →
  heap_ok h' E' ∧ ∀ o, allowed h' E' o → is_Some (run o h').
Proof. apply client_reach. Qed.

(** C8. [pbuf_alloc] never fails an assertion.  It returns NULL and leaves no
    pbuf behind, or it returns a packet of the length asked for that
    [pbuf_free] takes back entirely. *)
Theorem pbuf_alloc_free_restores h E layer length ty :
  heap_ok h E → is_u16 length →
  ∃ h' r, pbuf_alloc layer length ty h = Some (h', r) ∧
    match r with
    | None => pbufs h' = pbufs h
    | Some p => (∃ l, packet h' (Some p) l length 0) ∧
        ∃ h2 n, pbuf_free (Some p) h' = Some (h2, n) ∧ pbufs h2 = pbufs h ∧ mem h2 = mem h
    end.
Proof.
  intros K Hn. destruct (pbuf_alloc_ok h E layer length ty K Hn) as (h' & r & E1 & _ & R). exists h', r.
  split; [done|]. destruct r as [p|]; [|tauto]. destruct R as (l & K' & P & X). split; [eauto|].
  by eapply free_fresh; [eapply packet_chain|].
Qed.

(** C30. [pbuf_dechain] undoes [pbuf_chain] when the head packet is a single pbuf
    (behind a longer head it cuts after the first pbuf): both packets have the
    lengths they had, the counts are right, and the tail, whatever its number
    of pbufs, is returned.  The packets are disjoint, their lengths together fit
    16 bits, and the tail has fewer than 65535 references. *)
Theorem pbuf_chain_dechain h p t l2 n1 n2 b E :
  heap_ok h (inc t E) → packet h (Some p) [p] n1 0 → packet h (Some t) l2 n2 0 →
  p ∉ l2 → n1 + n2 < 65536 → pbufs h !! t = Some b → ref b < 65535 →
  ∃ h1 h2, pbuf_chain (Some p) (Some t) h = Some h1 ∧ pbuf_dechain p h1 = Some (h2, Some t)
    ∧ heap_ok h2 (inc t E) ∧ packet h2 (Some p) [p] n1 0 ∧ packet h2 (Some t) l2 n2 0.
Proof.
  intros K P1 P2 D Hn Hb Hr. destruct l2 as [|t' l2]; [by destruct P2|]. pose proof P2 as [[= <-] _].
  destruct (pbuf_cat_ok h p t [p] (t :: l2) n1 n2 E K P1 P2 ltac:(set_solver) Hn) as (h0 & E0 & _ & M0 & _).
  destruct (pbuf_chain_ok h p t [p] (t :: l2) n1 n2 b E K P1 P2 ltac:(set_solver) Hn Hb Hr)
    as (h1 & E1 & K1 & P & _).
  destruct (pbuf_dechain_ok h1 p t l2 (n1 + n2) _ K1 P Hn) as (h2 & r & bp & E2 & K2 & _ & Hbp & Hbp2 & Z0 & Zn).
  exists h1, h2. destruct (Nat.eq_dec (freed h1 h2) 0) as [F|F].
  2:{ destruct (Zn F) as [N _]. destruct (ok_ext _ _ K2 t) as [? ?]; [unfold inc; by rewrite decide_True|congruence]. }
  destruct (Z0 F) as [-> P2']. split; [done|]. split; [done|]. split; [done|].
  assert (Hl : len bp = n1).
  { destruct P1 as (_ & b1 & Hb1 & Ht1 & _ & _ & Hz). destruct M0 as (_ & _ & _ & _ & M0).
    destruct (M0 p) as [M0p _]. destruct (M0p _ Hb1) as (b0 & Hb0 & S0).
    unfold pbuf_chain in E1. rewrite E0 in E1. cbn in E1.
    destruct (pbufs h0 !! t) as [bt|] eqn:Ht; [|done]. cbn in E1. unfold upd in E1. rewrite Ht in E1. cbn in E1.
    injection E1 as <-. cbn in Hbp. rewrite lookup_insert_ne in Hbp by set_solver. simplify_eq.
    destruct S0 as (_ & ? & _). lia. }
  split.
  - split; [done|]. eexists. split; [exact Hbp2|]. cbn. destruct P1 as (_ & b1 & _ & ? & ? & _ & ?).
    split_and!; lia || done.
  - by replace (n1 + n2 - len bp) with n2 in P2' by lia.
Qed.
End chaining.

(** ** A concrete memory manager

    Blocks of 2048 octets in address order, none of which is handed out twice
    while it is in use. *)
Record bump := MkBump { brk : Z; blocks : gmap Z block }.

Definition bump_ok (a : bump) : bool :=
  bool_decide (blocks a !! brk a = None) && (brk a mod 4 =? 0) && (0 <? brk a).

Definition bump_take (k : block) (a : bump) : option (Z * bump) :=
  if bump_ok a then Some (brk a, MkBump (brk a + 2048) (<[brk a := k]> (blocks a))) else None.

Definition bump_release (p : Z) (a : bump) : bump := MkBump (brk a) (delete p (blocks a)).

#[export] Instance bump_arena : Arena bump := {|
  memp_malloc := λ k, bump_take (POOL k);
  memp_free := λ _, bump_release;
  mem_malloc := λ _, bump_take HEAP;
  mem_free := bump_release;
  mem_trim := λ _ _ a, a;
  custom_free_function := bump_release;
  live := blocks |}.

Lemma bump_take_fresh k a p a' : bump_take k a = Some (p, a') →
  blocks a !! p = None ∧ blocks a' = <[p := k]> (blocks a) ∧ p mod 4 = 0 ∧ 0 < p.
Proof.
  unfold bump_take, bump_ok. case_match eqn:E; [|done]. intros [= <- <-].
  rewrite !andb_true_iff, bool_decide_eq_true in E. destruct E as [[? ?] ?]. split_and!; [done..|lia|lia].
Qed.

#[export] Instance bump_laws : ArenaLaws bump.
Proof. split; simpl; try done; intros; by apply bump_take_fresh. Qed.

Definition empty_heap : heap bump := MkHeap ∅ (λ _, 0) (MkBump 4096 ∅) (λ _, 0) false.

Definition run_ops (l : list op) (h : heap bump) : option (heap bump) :=
  foldl (λ h o, h ← h; '(h, _) ← run o h; Some h) (Some h) l.

Lemma empty_heap_ok : heap_ok empty_heap (λ _, 0%nat).
Proof. by split. Qed.

Lemma pbuf_client_safe_witness :
  heap_ok empty_heap (λ _, 0%nat)
  ∧ ∃ h', rtc client_step (empty_heap, λ _, 0%nat) (h', inc 4096 (λ _, 0%nat))
      ∧ heap_ok h' (inc 4096 (λ _, 0%nat)) ∧ is_Some (run (OpFree 4096) h').
Proof.
  split; [exact empty_heap_ok|].
  destruct (run (OpAlloc PBUF_TRANSPORT 3000 PBUF_POOL) empty_heap) as [[h' r]|] eqn:E; [|by vm_compute in E].
  assert (r = Some 4096) as -> by (vm_compute in E; congruence).
  assert (R : rtc client_step (empty_heap, λ _, 0%nat) (h', inc 4096 (λ _, 0%nat))).
  { eapply rtc_l; [|apply rtc_refl]. apply (client_run (OpAlloc PBUF_TRANSPORT 3000 PBUF_POOL) _ _ (Some 4096)).
    - unfold allowed, is_u16. lia.
    - exact E. }
  exists h'. split; [exact R|].
  destruct (pbuf_client_safe _ _ _ _ empty_heap_ok R) as [K S]. split; [exact K|].
  apply S. unfold allowed, inc. rewrite decide_True by done. done.
Defined.

Lemma pbuf_alloc_free_restores_witness :
  ∃ h' r, pbuf_alloc PBUF_TRANSPORT 3000 PBUF_POOL empty_heap = Some (h', r) ∧ r = Some 4096
    ∧ ∃ h2 n, pbuf_free r h' = Some (h2, n) ∧ pbufs h2 = ∅ ∧ n = 3.
Proof.
  assert (H : is_u16 3000) by (unfold is_u16; lia).
  destruct (pbuf_alloc_free_restores _ _ PBUF_TRANSPORT 3000 PBUF_POOL empty_heap_ok H) as (h' & r & E & R).
  exists h', r. split; [exact E|]. assert (Hr : r = Some 4096) by (vm_compute in E; congruence). rewrite Hr in *.
  split; [done|]. destruct R as (_ & h2 & n & F & X & _). exists h2, n. split; [exact F|]. split; [exact X|].
  assert (V : (h ← option_map fst (pbuf_alloc PBUF_TRANSPORT 3000 PBUF_POOL empty_heap);
    option_map snd (pbuf_free (Some 4096) h)) = Some 3) by by vm_compute.
  rewrite E in V. cbn [option_map fst mbind option_bind] in V. rewrite F in V. cbn in V. congruence.
Defined.

(** Two packets, each with one reference. *)
Definition two_packets : heap bump :=
  MkHeap {[ 4096 := MkPbuf None 4112 20 20 PBUF_RAM 0 1; 8192 := MkPbuf None 8208 30 30 PBUF_RAM 0 1 ]}
    (λ _, 0) (MkBump 12288 {[4096 := HEAP; 8192 := HEAP]}) (λ _, 0) false.

Lemma two_packets_ok : heap_ok two_packets (inc 8192 (inc 4096 (λ _, 0%nat))).
Proof.
  constructor.
  - intros p b Hb. cbn in Hb.
    apply lookup_insert_Some in Hb as [[<- <-]|[_ Hb]]; [by vm_compute|].
    apply lookup_singleton_Some in Hb as [<- <-]. by vm_compute.
  - intros p b q Hb Hq. cbn in Hb.
    apply lookup_insert_Some in Hb as [[<- <-]|[_ Hb]]; [done|].
    by apply lookup_singleton_Some in Hb as [<- <-].
  - intros p. unfold inc. repeat case_decide; subst; [by eexists..|done].
  - intros p b Hb. cbn in Hb. apply lookup_insert_Some in Hb as [[<- <-]|[_ Hb]]; [done|].
    by apply lookup_singleton_Some in Hb as [<- <-].
  - done.
Qed.

Lemma pbuf_chain_dechain_witness :
  ∃ h1 h2, pbuf_chain (Some 4096) (Some 8192) two_packets = Some h1
    ∧ pbuf_dechain 4096 h1 = Some (h2, Some 8192) ∧ packet h2 (Some 8192) [8192] 30 0.
Proof.
  destruct (pbuf_chain_dechain two_packets 4096 8192 [8192] 20 30 (MkPbuf None 8208 30 30 PBUF_RAM 0 1)
    (inc 4096 (λ _, 0%nat))) as (h1 & h2 & E1 & E2 & _ & _ & P).
  - exact two_packets_ok.
  - split; [done|]. by eexists.
  - split; [done|]. by eexists.
  - set_solver.
  - lia.
  - done.
  - cbn. lia.
  - exists h1, h2. done.
Defined.

(** ** [pbuf_free] counts the freed pbufs in an octet *)

(** A packet of 257 pbufs of one octet, at the addresses 16, 32, ... *)
Definition long_packet : heap bump :=
  MkHeap (list_to_map ((λ i, (Z.of_nat i * 16,
      MkPbuf (if (i =? 257)%nat then None else Some (Z.of_nat i * 16 + 16)) 0 (258 - Z.of_nat i) 1 PBUF_RAM 0 1))
    <$> seq 1 257)) (λ _, 0) (MkBump 8192 ∅) (λ _, 0) false.

(** When the 256 pbufs behind the first one are all freed, [pbuf_dechain]
    takes the wrapped count 0 for "not freed" and returns a pointer to a
    deallocated pbuf, where it should return NULL. *)
Theorem pbuf_dechain_dangling :
  match pbuf_dechain 16 long_packet with
  | Some (h, r) => r = Some 32 ∧ pbufs h !! 32 = None ∧ freed long_packet h = 256%nat
  | None => False
  end.
Proof. vm_compute. done. Qed.
