(* ===== verification/PbufData.v ===== *)
(** * pbuf.c: the data of a packet, read and copied across the pbufs of a
    chain *)
From S2P Require Import Prelude LwipDef Chksum Memp Pbuf PbufRef PbufOwn.
Local Open Scope Z_scope.

Section data.
Context {A : Type} `{HL : ArenaLaws A}.
Implicit Types (h : heap A) (b : pbuf).

(** The octets of a packet whose pbufs are [l]. *)
Definition pbuf_data h (a : Z) : list Z :=
  match pbufs h !! a with
  | Some b => read_mem (mem h) (payload b) (Z.to_nat (len b))
  | None => []
  end.

Definition packet_data h (l : list Z) : list Z := mjoin (pbuf_data h <$> l).

Lemma length_read_mem m a n : length (read_mem m a n) = n.
Proof. unfold read_mem. by rewrite length_fmap, length_seq. Qed.

Lemma lookup_read_mem m a n i : (i < n)%nat → read_mem m a n !! i = Some (m (a + Z.of_nat i)).
Proof. intros Hi. unfold read_mem. rewrite list_lookup_fmap, lookup_seq_lt by done. done. Qed.

Lemma length_pbuf_data h a b : pbufs h !! a = Some b → 0 <= len b → Z.of_nat (length (pbuf_data h a)) = len b.
Proof. intros Hb Hl. unfold pbuf_data. rewrite Hb, length_read_mem. lia. Qed.

Lemma length_packet_data h rem : ∀ l p n, packet h p l n rem → Z.of_nat (length (packet_data h l)) = n - rem.
Proof.
  induction l as [|a l IH]; intros p n; [cbn; lia|]. intros (_ & b & Hb & _ & Hl & P).
  change (packet_data h (a :: l)) with (pbuf_data h a ++ packet_data h l).
  rewrite length_app, Nat2Z.inj_add, (length_pbuf_data h a b), (IH _ _ P) by done. lia.
Qed.

(** The walk to the pbuf that holds an offset. *)
Lemma skip_loop_spec h : ∀ l fuel p n off,
  packet h p l n 0 → 0 <= off < n → n < 65536 → (length l ≤ S fuel)%nat →
  ∃ l1 a l2 b off' n', l = l1 ++ a :: l2 ∧ skip_loop fuel p off h = Some (Some a, off')
    ∧ pbufs h !! a = Some b ∧ 0 <= off' < len b ∧ off' = off - Z.of_nat (length (packet_data h l1))
    ∧ packet h (Some a) (a :: l2) n' 0 ∧ n' <= n.
Proof.
  induction l as [|a l IH]; intros fuel p n off P Hoff Hn Hf; [cbn in P; lia|].
  pose proof P as P0. destruct P as (-> & b & Hb & Ht & Hl & P).
  pose proof (packet_le _ _ _ _ _ P) as Hle.
  assert (skip_loop fuel (Some a) off h = if len b <=? off then
        match fuel with O => None | S fuel => skip_loop fuel (next b) (u16 (off - len b)) h end
      else Some (Some a, off)) as -> by (destruct fuel; cbn; by rewrite Hb).
  destruct (Z.leb_spec (len b) off).
  - destruct fuel as [|fuel]. { cbn in Hf. destruct l; cbn in *; [lia|lia]. }
    rewrite u16_id by (unfold is_u16; lia).
    destruct (IH fuel (next b) (n - len b) (off - len b) P ltac:(lia) ltac:(lia) ltac:(cbn in Hf; lia))
      as (l1 & a' & l2 & b' & off' & n' & -> & -> & Hb' & Ho & -> & P' & Hn').
    exists (a :: l1), a', l2, b', (off - len b - Z.of_nat (length (packet_data h l1))), n'.
    split; [done|]. split; [done|]. split; [done|]. split; [done|]. split; [|split; [done|lia]].
    change (packet_data h (a :: l1)) with (pbuf_data h a ++ packet_data h l1).
    rewrite length_app, Nat2Z.inj_add, (length_pbuf_data h a b) by done. lia.
  - exists [], a, l, b, off, n. split_and!; try done; [lia|cbn; lia].
Qed.

Lemma packet_data_app h l1 l2 : packet_data h (l1 ++ l2) = packet_data h l1 ++ packet_data h l2.
Proof. unfold packet_data. by rewrite fmap_app, join_app. Qed.

Lemma packet_data_lookup h l1 a l2 b off :
  pbufs h !! a = Some b → 0 <= off < len b →
  packet_data h (l1 ++ a :: l2) !! (length (packet_data h l1) + Z.to_nat off)%nat = Some (mem h (payload b + off)).
Proof.
  intros Hb Ho. rewrite packet_data_app, lookup_app_r by lia.
  replace (_ + _ - _)%nat with (Z.to_nat off) by lia. unfold packet_data at 1. cbn.
  rewrite lookup_app_l; unfold pbuf_data; rewrite Hb, ?length_read_mem; [|lia].
  rewrite lookup_read_mem by lia. do 2 f_equal. lia.
Qed.

Lemma pbuf_get_at_ok h p l n off :
  packet h p l n 0 → 0 <= off < n → n < 65536 →
  pbuf_get_at p off h = packet_data h l !! Z.to_nat off.
Proof.
  intros P Ho Hn. pose proof (chain_of_size _ _ _ (packet_chain _ _ _ _ _ P)).
  destruct (skip_loop_spec h l (size (pbufs h)) p n off P Ho Hn ltac:(lia))
    as (l1 & a & l2 & b & off' & n' & -> & E & Hb & Ho' & Eo & _ & _).
  unfold pbuf_get_at. rewrite E. cbn. rewrite Hb. cbn. rewrite (proj2 (Z.ltb_lt _ _)) by lia.
  symmetry. rewrite <- (packet_data_lookup h l1 a l2 b off' Hb Ho'). f_equal. lia.
Qed.

(** What [pbuf_memcmp] returns, on the octets. *)
Fixpoint first_difference (i : Z) (d s : list Z) : Z :=
  match d, s with
  | x :: d, y :: s => if x =? y then first_difference (i + 1) d s else i + 1
  | _, _ => 0
  end.

Lemma memcmp_loop_ok h p l n start : ∀ s i,
  packet h p l n 0 → n < 65536 → 0 <= start → 0 <= i → start + i + Z.of_nat (length s) <= n →
  memcmp_loop p start i s h = Some (first_difference i (drop (Z.to_nat (start + i)) (packet_data h l)) s).
Proof.
  intros s. induction s as [|y s IH]; intros i P Hn Hs Hi Hlen; cbn [memcmp_loop first_difference]; cbn [length] in Hlen.
  { by destruct (drop _ _). }
  rewrite !u16_id by (unfold is_u16; lia). rewrite (pbuf_get_at_ok h p l n) by (done || lia).
  pose proof (length_packet_data h 0 l p n P) as Hdl.
  destruct (lookup_lt_is_Some_2 (packet_data h l) (Z.to_nat (start + i))) as [x Hx]; [lia|].
  rewrite Hx. cbn. rewrite (drop_S _ x) by done. cbn.
  destruct (Z.eqb_spec x y); cbn; [|done]. rewrite IH by (done || lia). do 2 f_equal. f_equal. lia.
Qed.

Lemma pbuf_memcmp_ok h p l n off s :
  packet h p l n 0 → n < 65536 → 0 <= off → s ≠ [] → off + Z.of_nat (length s) <= n →
  pbuf_memcmp p off s h = Some (first_difference 0 (drop (Z.to_nat off) (packet_data h l)) s).
Proof.
  intros P Hn Ho Hs Hlen. destruct s as [|y s]; [done|]. cbn -[Z.of_nat] in Hlen.
  pose proof (chain_of_size _ _ _ (packet_chain _ _ _ _ _ P)).
  destruct (skip_loop_spec h l (size (pbufs h)) p n off P ltac:(lia) Hn ltac:(lia))
    as (l1 & a & l2 & b & off' & n' & -> & E & Hb & Ho' & Eo & P' & Hn').
  unfold pbuf_memcmp. rewrite E. cbn -[memcmp_loop first_difference]. rewrite Hb. cbn -[memcmp_loop first_difference].
  rewrite (proj2 (Z.ltb_lt _ _)) by lia.
  pose proof (length_packet_data h 0 _ _ _ P') as L'. pose proof (length_packet_data h 0 _ _ _ P) as L.
  rewrite packet_data_app, length_app, Nat2Z.inj_add in L.
  rewrite (memcmp_loop_ok h (Some a) (a :: l2) n') by (done || cbn -[Z.of_nat]; lia).
  do 2 f_equal. rewrite packet_data_app, drop_app, (drop_ge (packet_data h l1)) by lia. cbn [app].
  f_equal. lia.
Qed.

Lemma first_difference_zero : ∀ s d i, 0 <= i → (length s ≤ length d)%nat →
  first_difference i d s = 0 ↔ take (length s) d = s.
Proof.
  induction s as [|y s IH]; intros d i Hi Hl; [destruct d; done|]. destruct d as [|x d]; [cbn in Hl; lia|].
  cbn. destruct (Z.eqb_spec x y) as [->|Hne].
  - rewrite IH by (cbn in Hl; lia). split; [by intros ->|by intros [=]].
  - split; [lia|]. by intros [= ->].
Qed.

Lemma first_difference_bound : ∀ s d i, 0 <= i → 0 <= first_difference i d s <= i + Z.of_nat (length s).
Proof.
  induction s as [|y s IH]; intros d i Hi; [destruct d; cbn; lia|]. destruct d as [|x d]; cbn -[Z.of_nat]; [lia|].
  destruct (x =? y); [|lia]. specialize (IH d (i + 1) ltac:(lia)). lia.
Qed.

Lemma memfind_loop_sound h p l n s : ∀ fuel i max r,
  packet h p l n 0 → n < 65535 → s ≠ [] → 0 <= i → max = n - Z.of_nat (length s) →
  memfind_loop fuel p i max s h = Some r → r ≠ 65535 →
  i <= r <= max ∧ take (length s) (drop (Z.to_nat r) (packet_data h l)) = s.
Proof.
  induction fuel as [|fuel IH]; intros i max r P Hn Hs Hi Hmax Hr Hne; cbn in Hr;
    (destruct (Z.leb_spec i max); cbn in Hr; [|congruence]); [done|].
  rewrite (pbuf_memcmp_ok h p l n) in Hr by (done || lia). cbn in Hr.
  set (d := drop (Z.to_nat i) (packet_data h l)) in *.
  pose proof (length_packet_data h 0 _ _ _ P) as L.
  assert (Ld : length d = (length (packet_data h l) - Z.to_nat i)%nat) by (unfold d; by rewrite length_drop).
  pose proof (first_difference_bound s d 0 ltac:(lia)) as B.
  destruct (Z.eqb_spec (first_difference 0 d s) 0) as [Z0|Z0].
  - injection Hr as <-. split; [lia|]. apply (first_difference_zero s d 0) in Z0; [done|lia|lia].
  - rewrite u16_id in Hr by (unfold is_u16; lia).
    destruct (IH (i + first_difference 0 d s) max r P Hn Hs ltac:(lia) Hmax Hr Hne). split; [lia|done].
Qed.

Lemma memfind_loop_total h p l n s : ∀ fuel i max,
  packet h p l n 0 → n < 65535 → s ≠ [] → 0 <= i → max = n - Z.of_nat (length s) →
  max < i + Z.of_nat fuel → is_Some (memfind_loop fuel p i max s h).
Proof.
  induction fuel as [|fuel IH]; intros i max P Hn Hs Hi Hmax Hf; cbn;
    (destruct (Z.leb_spec i max); cbn; [|by eexists]); [lia|].
  rewrite (pbuf_memcmp_ok h p l n) by (done || lia). cbn.
  set (d := drop (Z.to_nat i) (packet_data h l)).
  pose proof (first_difference_bound s d 0 ltac:(lia)) as B.
  destruct (Z.eqb_spec (first_difference 0 d s) 0) as [Z0|Z0]; [by eexists|].
  rewrite u16_id by (unfold is_u16; lia). apply IH; done || lia.
Qed.

(** [pbuf_get_at] reads the octet at an offset of the packet, wherever the
    boundaries of its pbufs are. *)
Theorem pbuf_get_at_data h p l n off :
  packet h p l n 0 → 0 <= off < n → n < 65536 →
  pbuf_get_at p off h = packet_data h l !! Z.to_nat off ∧ is_Some (packet_data h l !! Z.to_nat off).
Proof.
  intros P Ho Hn. split; [by eapply pbuf_get_at_ok|]. apply lookup_lt_is_Some_2.
  pose proof (length_packet_data h 0 _ _ _ P). lia.
Qed.

(** [pbuf_memfind] always ends, and an offset it returns is one where the
    string occurs in the packet. *)
Theorem pbuf_memfind_sound h p l n s start :
  packet h (Some p) l n 0 → n < 65535 → s ≠ [] → 0 <= start →
  ∃ r, pbuf_memfind p s start h = Some r ∧
    (r ≠ 65535 → start <= r ∧ take (length s) (drop (Z.to_nat r) (packet_data h l)) = s).
Proof.
  intros P Hn Hs Hst. destruct l as [|a l]; [by destruct P|]. pose proof P as ([= <-] & b & Hb & Ht & _).
  unfold pbuf_memfind. rewrite Hb. cbn. rewrite Ht. destruct (Z.leb_spec (Z.of_nat (length s) + start) n); [|by exists 65535].
  rewrite u16_id by (unfold is_u16; lia).
  destruct (memfind_loop_total h (Some p) (p :: l) n s (S (Z.to_nat (n - Z.of_nat (length s)))) start
    (n - Z.of_nat (length s)) P Hn Hs Hst eq_refl ltac:(lia)) as [r Hr].
  exists r. split; [exact Hr|]. intros Hne.
  destruct (memfind_loop_sound h (Some p) (p :: l) n s _ start _ r P Hn Hs Hst eq_refl Hr Hne). split; [lia|done].
Qed.

(** ** [pbuf_copy_partial] *)
Lemma pbuf_data_mem h m a :
  (∀ b i, pbufs h !! a = Some b → 0 <= i < len b → m (payload b + i) = mem h (payload b + i)) →
  pbuf_data (with_mem m h) a = pbuf_data h a.
Proof.
  intros Hm. unfold pbuf_data. cbn. destruct (pbufs h !! a) as [b|] eqn:Hb; [|done].
  unfold read_mem. apply list_fmap_ext. intros i x Hx. apply lookup_seq in Hx as [-> Hi]. apply (Hm b); [done|lia].
Qed.

Lemma packet_data_mem h m l :
  (∀ a b i, a ∈ l → pbufs h !! a = Some b → 0 <= i < len b → m (payload b + i) = mem h (payload b + i)) →
  packet_data (with_mem m h) l = packet_data h l.
Proof.
  intros Hm. unfold packet_data. f_equal. apply list_fmap_ext. intros i a Ha%list_elem_of_lookup_2.
  apply pbuf_data_mem. intros b j. by apply Hm.
Qed.

(** The buffer at [d] does not overlap the payloads of [l]. *)
Definition apart h (l : list Z) (d n : Z) : Prop :=
  ∀ a b i, a ∈ l → pbufs h !! a = Some b → 0 <= i < len b → ¬ (d <= payload b + i < d + n).

Definition copied (old : Z → Z) (data : list Z) (d off k : Z) : Z → Z :=
  λ x, if decide (d <= x < d + k) then nth (Z.to_nat (off + (x - d))) data 0 else old x.

Lemma MEMCPY_lookup m d s n x : 0 <= n →
  MEMCPY d s n m x = if decide (d <= x < d + n) then m (s + (x - d)) else m x.
Proof.
  intros Hn. unfold MEMCPY, write_mem. rewrite length_read_mem, Z2Nat.id by done. case_decide; [|done].
  apply nth_lookup_Some with (d := 0). rewrite lookup_read_mem by lia. do 2 f_equal. lia.
Qed.

Lemma nth_packet_cons_lt h a b l i : pbufs h !! a = Some b → 0 <= i < len b →
  nth (Z.to_nat i) (packet_data h (a :: l)) 0 = mem h (payload b + i).
Proof.
  intros Hb Hi. apply nth_lookup_Some with (d := 0).
  change (a :: l) with ([] ++ a :: l). by rewrite <- (packet_data_lookup h [] a l b i Hb Hi).
Qed.

Lemma nth_packet_cons_ge h a b l i : pbufs h !! a = Some b → 0 <= len b <= i →
  nth (Z.to_nat i) (packet_data h (a :: l)) 0 = nth (Z.to_nat (i - len b)) (packet_data h l) 0.
Proof.
  intros Hb Hi. change (packet_data h (a :: l)) with (pbuf_data h a ++ packet_data h l).
  pose proof (length_pbuf_data h a b Hb ltac:(lia)).
  rewrite app_nth2 by lia. f_equal. lia.
Qed.

Lemma copy_partial_loop_ok (d : Z) : ∀ l fuel p n len_ left off total h,
  packet h p l n 0 → n < 65536 → 0 <= off < 65536 → 0 <= len_ → 0 <= left → left + len_ < 65536 →
  0 <= total → total + len_ < 65536 → (length l ≤ fuel)%nat → apart h l (d + left) len_ →
  let k := Z.max 0 (Z.min len_ (n - off)) in
  ∃ h', copy_partial_loop fuel p d len_ left off total h = Some (h', total + k) ∧ pbufs h' = pbufs h
    ∧ ∀ x, mem h' x = copied (mem h) (packet_data h l) (d + left) off k x.
Proof.
  induction l as [|a l IH]; intros fuel p n len_ left off total h P Hn Ho Hlen Hleft Hl2 Ht Ht2 Hf Ap k.
  - destruct P as [-> Hn0]. exists h. replace (total + k) with total by lia. split; [|split; [done|]].
    + destruct fuel; cbn; by case_match.
    + intros x. unfold copied. rewrite decide_False by lia. done.
  - destruct P as (-> & b & Hb & Htb & Hlb & P). destruct fuel as [|fuel]; [cbn in Hf; lia|].
    pose proof (packet_le _ _ _ _ _ P) as Hle.
    cbn [copy_partial_loop]. destruct (Z.eqb_spec len_ 0) as [->|Hl0].
    { exists h. replace (total + k) with total by lia. split_and!; [done..|].
      intros x. unfold copied. rewrite decide_False by lia. done. }
    rewrite Hb. cbn [mbind option_bind].
    destruct (negb (off =? 0) && (len b <=? off)) eqn:Hskip.
    + apply andb_true_iff in Hskip as [_ Hskip]. apply Z.leb_le in Hskip. rewrite u16_id by (unfold is_u16; lia).
      destruct (IH fuel (next b) (n - len b) len_ left (off - len b) total h P) as (h' & E & Hp & Hm); try lia.
      { cbn in Hf. lia. }
      { intros a' b' i Ha'. apply Ap. set_solver. }
      exists h'. replace (n - len b - (off - len b)) with (n - off) in * by lia. split; [exact E|]. split; [done|].
      intros x. rewrite Hm. unfold copied. fold k. case_decide; [|done].
      rewrite (nth_packet_cons_ge h a b l) by (done || lia). do 2 f_equal. lia.
    + assert (Hob : off <= len b).
      { apply andb_false_iff in Hskip as [E|E]; [apply negb_false_iff in E; lia|lia]. }
      rewrite !(u16_id (len b - off)) by (unfold is_u16; lia).
      set (c := if len_ <? len b - off then len_ else len b - off).
      assert (Hc : c = Z.min len_ (len b - off)) by (unfold c; destruct (Z.ltb_spec len_ (len b - off)); lia).
      rewrite !u16_id by (unfold is_u16; lia).
      set (h1 := with_mem (MEMCPY (d + left) (payload b + off) c (mem h)) h).
      assert (Same : packet_data h1 l = packet_data h l).
      { apply packet_data_mem. intros a' b' i Ha' Hb' Hi. rewrite MEMCPY_lookup by lia.
        rewrite decide_False; [done|]. pose proof (Ap a' b' i ltac:(set_solver) Hb' Hi). lia. }
      assert (P1 : packet h1 (next b) l (n - len b) 0) by (eapply packet_frame; [|exact P]; done).
      destruct (IH fuel (next b) (n - len b) (len_ - c) (left + c) 0 (total + c) h1 P1) as (h' & E & Hp & Hm); try lia.
      { cbn in Hf. lia. }
      { intros a' b' i Ha' Hb' Hi. pose proof (Ap a' b' i ltac:(set_solver) Hb' Hi). lia. }
      exists h'. replace (total + k) with (total + c + Z.max 0 (Z.min (len_ - c) (n - len b - 0))) by lia.
      split; [exact E|]. split; [done|]. intros x. rewrite Hm, Same. unfold copied, h1. cbn [mem with_mem].
      rewrite MEMCPY_lookup by lia.
      destruct (decide (d + left <= x < d + left + c)).
      * rewrite decide_False, decide_True by lia. rewrite (nth_packet_cons_lt h a b l) by (done || lia). f_equal. lia.
      * destruct (decide (d + left <= x < d + left + k)).
        -- rewrite decide_True by lia. rewrite (nth_packet_cons_ge h a b l) by (done || lia). do 2 f_equal. lia.
        -- rewrite decide_False by lia. done.
Qed.

(** C36. [pbuf_copy_partial] copies the octets of the packet from [off] on, up
    to the end of the packet or [len_] octets, into the buffer and touches
    nothing else; it returns their number. With a NULL buffer it copies
    nothing and returns 0. The packet has fewer than 65536 octets and its
    pbufs do not overlap the buffer. *)
Theorem pbuf_copy_partial_data h p l n d len_ off :
  packet h (Some p) l n 0 → n < 65536 → is_u16 off → is_u16 len_ → apart h l d len_ →
  let k := if d =? 0 then 0 else Z.max 0 (Z.min len_ (n - off)) in
  ∃ h', pbuf_copy_partial (Some p) d len_ off h = Some (h', k) ∧ pbufs h' = pbufs h ∧
    ∀ x, mem h' x = if decide (d <= x < d + k)
                    then nth (Z.to_nat (off + (x - d))) (packet_data h l) 0 else mem h x.
Proof.
  intros P Hn Ho Hl Ap k. unfold is_u16 in *. pose proof (chain_of_size _ _ _ (packet_chain _ _ _ _ _ P)).
  unfold pbuf_copy_partial. subst k. case_match.
  { exists h. repeat split. intros x. by rewrite decide_False by lia. }
  destruct (copy_partial_loop_ok d l (size (pbufs h)) (Some p) n len_ 0 off 0 h P) as (h' & E & Hp & Hm); try lia.
  { by rewrite Z.add_0_r. }
  rewrite Z.add_0_r in Hm. exists h'. split; [exact E|]. split; [done|]. exact Hm.
Qed.

(** ** [pbuf_header] *)

(** Moving the payload pointer over a header and back restores the pbuf;
    a move that is refused changes nothing. *)
Theorem pbuf_header_roundtrip h p b n :
  pbufs h !! p = Some b → is_u16 (len b) → is_u16 (tot_len b) → -32768 < n < 32768 →
  len b + n < 65536 → tot_len b + n < 65536 → len b <= tot_len b →
  ∃ h' r, pbuf_header p n h = Some (h', r) ∧
    (r ≠ 0 → h' = h) ∧
    (r = 0 → (∃ b', pbufs h' !! p = Some b' ∧ is_u16 (len b') ∧ len b' = len b + n ∧ tot_len b' = tot_len b + n
                ∧ (n ≠ 0 → payload b' = payload b - n))
       ∧ (type b = PBUF_RAM ∨ type b = PBUF_POOL → p + SIZEOF_STRUCT_PBUF <= payload b →
          ∃ h2, pbuf_header p (- n) h' = Some (h2, 0) ∧ pbufs h2 = pbufs h ∧ mem h2 = mem h)).
Proof.
  intros Hb Hl Ht Hn Hl2 Ht2 Hlt. unfold is_u16 in *. unfold pbuf_header at 1. rewrite Hb. cbn [mbind option_bind].
  destruct (Z.eqb_spec n 0) as [->|Hn0].
  { exists h, 0. split; [done|]. split; [done|]. intros _. split.
    - exists b. split_and!; try done; lia.
    - intros _ _. exists h. unfold pbuf_header. by rewrite Hb. }
  rewrite u16_id by (unfold is_u16; case_match; lia).
  destruct ((n <? 0) && negb ((if n <? 0 then - n else n) <=? len b)) eqn:Hshort.
  { exists h, 1. split; [done|]. split; [done|]. lia. }
  assert (0 <= len b + n) by (destruct (Z.ltb_spec n 0); cbn in Hshort; lia).
  set (b' := MkPbuf (next b) (payload b - n) (tot_len b + n) (len b + n) (type b) (flags b) (ref b)).
  assert (Hb' : set_tot_len (u16 (tot_len b + n)) (set_len (u16 (len b + n)) (set_payload (payload b - n) b)) = b').
  { unfold b', set_tot_len, set_len, set_payload. cbn. by rewrite !u16_id by (unfold is_u16; lia). }
  set (h' := with_pbufs (<[p := b']> (pbufs h)) h).
  assert (Fin : Some (with_pbufs (<[p := set_tot_len (u16 (tot_len b + n)) (set_len (u16 (len b + n))
    (set_payload (payload b - n) b))]> (pbufs h)) h, 0) = Some (h', 0)) by (by rewrite Hb').
  assert (Grow : ∃ b1, pbufs h' !! p = Some b1 ∧ (0 <= len b1 < 65536) ∧ len b1 = len b + n
    ∧ tot_len b1 = tot_len b + n ∧ (n ≠ 0 → payload b1 = payload b - n)).
  { exists b'. unfold h'. cbn. rewrite lookup_insert_eq. unfold b'. cbn. split_and!; done || lia. }
  assert (Back : type b = PBUF_RAM ∨ type b = PBUF_POOL → p + SIZEOF_STRUCT_PBUF <= payload b →
    ∃ h2, pbuf_header p (- n) h' = Some (h2, 0) ∧ pbufs h2 = pbufs h ∧ mem h2 = mem h).
  { intros Hty Hpl. unfold pbuf_header, h'. cbn [pbufs with_pbufs]. rewrite lookup_insert_eq. cbn [mbind option_bind].
    rewrite (proj2 (Z.eqb_neq (- n) 0)) by lia. rewrite (u16_id (if - n <? 0 then - - n else - n)) by (unfold is_u16; destruct (Z.ltb_spec (- n) 0); lia).
    assert ((- n <? 0) && negb ((if - n <? 0 then - - n else - n) <=? len b') = false) as ->.
    { unfold b'. cbn. destruct (Z.ltb_spec (- n) 0); cbn; [|done]. apply negb_false_iff. lia. }
    assert (type b' = type b) as -> by done. assert (payload b' - - n = payload b) as -> by (unfold b'; cbn; lia).
    rewrite (proj2 (Z.ltb_ge (payload b) (p + SIZEOF_STRUCT_PBUF))) by lia.
    exists (with_pbufs (<[p := b]> (<[p := b']> (pbufs h))) h).
    assert (set_tot_len (u16 (tot_len (set_len (u16 (len (set_payload (payload b) b') + - n)) (set_payload (payload b) b')) + - n))
      (set_len (u16 (len (set_payload (payload b) b') + - n)) (set_payload (payload b) b')) = b) as ->.
    { unfold b', set_tot_len, set_len, set_payload. cbn. rewrite !u16_id by (unfold is_u16; lia).
      replace (tot_len b + n + - n) with (tot_len b) by lia. replace (len b + n + - n) with (len b) by lia. by destruct b. }
    split; [|cbn; by rewrite insert_insert_eq, insert_id].
    by destruct Hty as [-> | ->]. }
  destruct (type b) eqn:Hty.
  2,3: destruct ((n <? 0) && ((if n <? 0 then - n else n) <=? len b)).
  1,6: destruct (Z.ltb_spec (payload b - n) (p + SIZEOF_STRUCT_PBUF)).
  all: try (exists h, 1; split; [done|split; [done|lia]]).
  all: exists h', 0; split; [exact Fin|]; split; [done|]; intros _; split; [exact Grow|].
  all: intros [?|?]; try done; intros; by apply Back; auto.
Qed.
End data.

(** ** Concrete packets *)

(** The packet of the given pieces, at the addresses 16, 32, ... with the
    payloads from 1000, 2000, ... on. *)
Definition piece_mem (pieces : list (list Z)) : Z → Z := λ x,
  nth (Z.to_nat (x mod 1000)) (nth (Z.to_nat (x / 1000) - 1) pieces []) 0.

Fixpoint piece_pbufs (i : Z) (pieces : list (list Z)) : gmap Z pbuf :=
  match pieces with
  | [] => ∅
  | d :: rest => <[16 * i := MkPbuf (match rest with [] => None | _ => Some (16 * i + 16) end) (1000 * i)
      (Z.of_nat (length (mjoin pieces))) (Z.of_nat (length d)) PBUF_RAM 0 1]> (piece_pbufs (i + 1) rest)
  end.

Definition of_pieces (pieces : list (list Z)) : heap bump :=
  MkHeap (piece_pbufs 1 pieces) (piece_mem pieces) (MkBump 4096 ∅) (λ _, 0) false.

Ltac concrete_packet := repeat (split; [done|]); eexists; split; [vm_compute; reflexivity|]; cbn; split; [done|]; split; [lia|].

Lemma two_pieces : packet (of_pieces [[97; 97]; [97; 98]]) (Some 16) [16; 32] 4 0.
Proof.
  split; [done|]. eexists. split; [vm_compute; reflexivity|]. cbn. split; [done|]. split; [lia|].
  split; [done|]. eexists. split; [vm_compute; reflexivity|]. cbn. split; [done|]. split; [lia|]. done.
Qed.

Lemma pbuf_get_at_data_witness :
  pbuf_get_at (Some 16) 3 (of_pieces [[97; 97]; [97; 98]]) = Some 98
  ∧ is_Some (packet_data (of_pieces [[97; 97]; [97; 98]]) [16; 32] !! 3%nat).
Proof.
  destruct (pbuf_get_at_data _ (Some 16) [16; 32] 4 3 two_pieces) as [E S]; [lia..|].
  split; [|exact S]. rewrite E. by vm_compute.
Defined.

Lemma pbuf_memfind_sound_witness :
  ∃ r, pbuf_memfind 16 [97; 98] 0 (of_pieces [[97; 97]; [97; 98]]) = Some r ∧ r ≠ 65535.
Proof.
  destruct (pbuf_memfind_sound _ 16 [16; 32] 4 [97; 98] 0 two_pieces) as (r & E & _); [lia|done|lia|].
  exists r. split; [exact E|]. intros ->. by vm_compute in E.
Defined.

(** [pbuf_memfind] advances past a partial match by the length of that
    match, so that it misses an occurrence inside: "aab" is not found in
    "aaab", although it occurs there at offset 1. *)
Theorem pbuf_memfind_misses :
  let h := of_pieces [[97; 97; 97; 98]] in
  pbuf_memfind 16 [97; 97; 98] 0 h = Some 65535 ∧ pbuf_memcmp (Some 16) 1 [97; 97; 98] h = Some 0.
Proof. vm_compute. done. Qed.

Lemma pbuf_copy_partial_data_witness :
  ∃ h', pbuf_copy_partial (Some 16) 50000 10 1 (of_pieces [[97; 97]; [97; 98]]) = Some (h', 3)
    ∧ mem h' 50002 = 98.
Proof.
  destruct (pbuf_copy_partial_data _ 16 [16; 32] 4 50000 10 1 two_pieces) as (h' & E & _ & M).
  - lia.
  - unfold is_u16. lia.
  - unfold is_u16. lia.
  - intros a b i Ha Hb Hi. apply elem_of_cons in Ha as [->|Ha%list_elem_of_singleton]; subst;
      vm_compute in Hb; injection Hb as <-; cbn in Hi |- *; lia.
  - exists h'. split; [exact E|]. rewrite M. by vm_compute.
Defined.

Lemma pbuf_header_roundtrip_witness :
  ∃ h' r, pbuf_header 4096 (-8) two_packets = Some (h', r) ∧ r = 0
    ∧ ∃ h2, pbuf_header 4096 (- -8) h' = Some (h2, 0) ∧ pbufs h2 = pbufs two_packets.
Proof.
  destruct (pbuf_header_roundtrip two_packets 4096 (MkPbuf None 4112 20 20 PBUF_RAM 0 1) (-8)) as (h' & r & E & _ & R);
    try (unfold is_u16; cbn; lia); [done|].
  exists h', r. split; [exact E|]. assert (Hr : r = 0) by (vm_compute in E; congruence). split; [exact Hr|].
  destruct (R Hr) as [_ B]. destruct B as (h2 & E2 & P2 & _); [by left|cbn; unfold SIZEOF_STRUCT_PBUF; lia|].
  exists h2. done.
Defined.
