(* ===== verification/LwipMem.v ===== *)
(** * The memory managers under pbuf.c: memp.c and mem.c as an [Arena]

    A state of the two managers that satisfies their invariants is an arena:
    [mem_malloc] and [memp_malloc] are those of Mem.v and Memp.v, and the laws
    Pbuf.v relies on are theorems about them.  A call that would fail an
    assertion of the managers or corrupt them (releasing what is not held,
    trimming to a larger size) breaks the arena for good; that pbuf.c never
    makes one is part of the theorem.  No block is custom: the only custom
    pbufs of this configuration come from ip_frag.c. *)
From S2P Require Import Prelude Tiles LwipDef Chksum Memp Pbuf PbufRef PbufOwn.
From S2P Require Mem MemOk.
Local Open Scope Z_scope.

Record lwip_memory := MkMemory { pools : memp_state; ramheap : Mem.mem_heap }.

Implicit Types (s : lwip_memory) (k : memp_t).

Definition set_pools (x : memp_state) s : lwip_memory := MkMemory x (ramheap s).
Definition set_ramheap (x : Mem.mem_heap) s : lwip_memory := MkMemory (pools s) x.

(** ** The abstract views, read off the state *)
Fixpoint walk (fuel : nat) (m : gmap Z Z) (p : Z) : list Z :=
  match fuel with
  | O => []
  | S fuel =>
      if p =? 0 then [] else p :: match m !! p with Some n => walk fuel m n | None => [] end
  end.

Definition free_of k s : list Z := walk (memp_num k) (mnext (pools s)) (memp_tab (pools s) k).

Fixpoint tiles_of (fuel : nat) (a : Z) (st : Mem.mem_heap) : list tile :=
  match fuel with
  | O => []
  | S fuel =>
      if a =? Mem.MEM_SIZE_ALIGNED then [] else
      match Mem.blocks st !! a with
      | Some b => Tile a (Mem.next b - a) (negb (Mem.mused b =? 0)) :: tiles_of fuel (Mem.next b) st
      | None => []
      end
  end.

Definition tiles s : list tile := tiles_of (size (Mem.blocks (ramheap s))) 0 (ramheap s).

Lemma walk_list m l : ∀ n p, free_list m p l → (length l ≤ n)%nat → walk n m p = l.
Proof.
  induction l as [|x l IH]; intros n p; cbn.
  - intros -> _. destruct n; [done|]. done.
  - intros (-> & Hx & y & Hy & F) Hn. destruct n as [|n]; [cbn in Hn; lia|]. cbn.
    rewrite (proj2 (Z.eqb_neq x 0)), Hy by done. f_equal. apply IH; [done|lia].
Qed.

Lemma tiles_of_inv st ts : ∀ n a p, MemOk.hdrs (Mem.blocks st) p ts → Tiles.tiles_from 4 a ts Mem.MEM_SIZE_ALIGNED →
  (length ts ≤ n)%nat → tiles_of n a st = ts.
Proof.
  induction ts as [|t ts IH]; intros n a p R T Hn; cbn in T.
  - subst a. destruct n; [done|]. cbn. done.
  - destruct T as (<- & Ht & _ & T). destruct R as [Hb R]. destruct n as [|n]; [cbn in Hn; lia|].
    pose proof (tiles_le _ _ _ T). cbn [tiles_of]. rewrite (proj2 (Z.eqb_neq (at_ t) Mem.MEM_SIZE_ALIGNED)), Hb by lia.
    cbn [Mem.next Mem.mused]. rewrite (IH n (at_ t + sz t) _ R T) by (cbn in Hn; lia).
    destruct t as [a z u]. cbn. do 2 f_equal; [lia|]. by destruct u.
Qed.

Section arena.
Context (sizeof_element : memp_t → Z) (memp_memory ram_heap : Z).
Abbreviation elems := (elements sizeof_element memp_memory).
Abbreviation sizes := (memp_sizes sizeof_element).

(** Where the linker put the two arrays: apart from each other. *)
Definition pool_end : Z :=
  (memp_memory + 3) / 4 * 4 + foldr (λ k n, Z.of_nat (memp_num k) * sizes k + n) 0 all_pools.

Record placed : Prop := {
  pl_size k : 0 < sizeof_element k;
  pl_memp : 0 < memp_memory;
  pl_ram : 0 < ram_heap ∧ ram_heap + Mem.MEM_SIZE_ALIGNED + Mem.SIZEOF_STRUCT_MEM + 4 < 2 ^ 32;
  pl_apart : pool_end <= ram_heap ∨ ram_heap + 3 + Mem.MEM_SIZE_ALIGNED + Mem.SIZEOF_STRUCT_MEM <= memp_memory }.

Existing Class placed.
Context (Hplaced : placed).

Definition memory_ok s : Prop :=
  (∃ free, refines elems free (pools s)) ∧ (∃ ts, MemOk.mem_inv (ramheap s) ts)
  ∧ Mem.ram (ramheap s) = (ram_heap + 3) / 4 * 4.

Definition held_elements k s : list Z := filter (λ p, p ∉ free_of k s) (elems k).

Definition heap_pointers s : list Z := (λ t, Mem.ram (ramheap s) + at_ t + 12) <$> taken (tiles s).

Definition held s : list (Z * block) :=
  ((λ p, (p, HEAP)) <$> heap_pointers s)
  ++ mjoin ((λ k, (λ p, (p, POOL k)) <$> held_elements k s) <$> all_pools).

Definition live_blocks s : gmap Z block := list_to_map (held s).

(** ** What is live *)
Lemma free_of_refines s free k : refines elems free (pools s) → free_of k s = free k.
Proof using Hplaced.
  intros R. apply walk_list; [apply R|]. rewrite <- (elements_length sizeof_element memp_memory k).
  apply submseteq_length, NoDup_submseteq; [apply (ref_nodup _ _ _ R)|apply (ref_elems _ _ _ R)].
Qed.

Lemma tiles_inv s ts : MemOk.mem_inv (ramheap s) ts → tiles s = ts.
Proof.
  intros K. apply (tiles_of_inv _ _ _ _ 0); [apply (MemOk.inv_rep _ _ K)|apply (MemOk.inv_tiles _ _ K)|].
  apply MemOk.mem_rep_size; [apply (MemOk.inv_rep _ _ K)|apply (MemOk.inv_tiles _ _ K)].
Qed.

Lemma pool_range ks memp k x : x ∈ pool_elems sizeof_element ks memp k →
  memp <= x ∧ x + sizes k <= memp + foldr (λ k n, Z.of_nat (memp_num k) * sizes k + n) 0 ks.
Proof using Hplaced.
  pose proof (sizes_pos _ (pl_size Hplaced)) as Sp.
  assert (Nn : ∀ ks, 0 <= foldr (λ k n, Z.of_nat (memp_num k) * sizes k + n) 0 ks).
  { induction ks0 as [|j ks0 IH]; cbn; [lia|]. pose proof (Sp j). nia. }
  revert memp. induction ks as [|j ks IH]; intros memp; cbn; [set_solver|]. pose proof (Sp j) as [? _]. specialize (Nn ks).
  case_decide; subst.
  - intros Hx. destruct (elems_from_in _ _ _ _ (proj1 (Sp j)) Hx). lia.
  - intros Hx%IH. nia.
Qed.

Lemma pool_apart s k p q ts : memory_ok s → MemOk.mem_inv (ramheap s) ts → p ∈ elems k → q ∈ taken ts →
  p + sizes k <= Mem.ram (ramheap s) + at_ q ∨ Mem.ram (ramheap s) + at_ q + sz q <= p.
Proof using Hplaced.
  intros (_ & _ & Hr) K Hp [Hq _]%elem_of_taken. pose proof (tiles_in _ _ _ _ (MemOk.inv_tiles _ _ K) Hq).
  apply pool_range in Hp. destruct (pl_apart Hplaced) as [X|X]; unfold pool_end in X; rewrite Hr;
    unfold Mem.SIZEOF_STRUCT_MEM in X; Z.to_euclidean_division_equations; lia.
Qed.

Lemma held_in s p b : (p, b) ∈ held s ↔
  (b = HEAP ∧ p ∈ heap_pointers s) ∨ ∃ k, b = POOL k ∧ p ∈ elems k ∧ p ∉ free_of k s.
Proof.
  unfold held. rewrite elem_of_app, list_elem_of_fmap. split.
  - intros [(? & [= -> ->] & ?)|H]; [by left|right]. apply list_elem_of_join in H as (l & H & Hl).
    apply list_elem_of_fmap in Hl as (k & -> & _). apply list_elem_of_fmap in H as (q & [= -> ->] & Hq).
    apply list_elem_of_filter in Hq as [? ?]. eauto.
  - intros [[-> H]|(k & -> & Hp & Hf)]; [left; eauto|right]. apply list_elem_of_join.
    eexists. split; [|apply list_elem_of_fmap; exists k; split; [done|apply all_pools_in]].
    apply list_elem_of_fmap. exists p. split; [done|]. by apply list_elem_of_filter.
Qed.

Lemma held_functional s p b b' : memory_ok s → (p, b) ∈ held s → (p, b') ∈ held s → b = b'.
Proof using Hplaced.
  intros Ok. pose proof Ok as ([free R] & [ts K] & Hr). pose proof (elements_ok _ (pl_size Hplaced) _ (pl_memp Hplaced)) as O.
  assert (X : ∀ k, p ∈ heap_pointers s → p ∈ elems k → False).
  { intros k (t & -> & Ht)%list_elem_of_fmap Hp. rewrite (tiles_inv _ _ K) in Ht.
    destruct (pool_apart s k _ t ts Ok K Hp Ht); pose proof (sizes_pos _ (pl_size Hplaced) k); [lia|].
    pose proof (MemOk.inv_big _ _ K) as B. apply elem_of_taken in Ht as [Ht _]. unfold MemOk.big in B. rewrite Forall_forall in B.
    specialize (B _ Ht). unfold Mem.SIZEOF_STRUCT_MEM, Mem.MIN_SIZE_ALIGNED in B. lia. }
  intros [[-> H]|(k & -> & Hp & _)]%held_in [[-> H']|(k' & -> & Hp' & _)]%held_in; try done.
  - by destruct (X k').
  - by destruct (X k).
  - f_equal. by eapply el_disjoint.
Qed.

Lemma live_lookup s p b : memory_ok s → live_blocks s !! p = Some b ↔ (p, b) ∈ held s.
Proof using Hplaced.
  intros Ok. split; [apply elem_of_list_to_map_2|]. intros H. apply elem_of_list_to_map_1'; [|done].
  intros b' H'. by eapply held_functional.
Qed.

Lemma live_grow s s' p b : memory_ok s → memory_ok s' → (p, b) ∉ held s →
  (∀ q c, (q, c) ∈ held s' ↔ (q, c) = (p, b) ∨ (q, c) ∈ held s) →
  live_blocks s !! p = None ∧ live_blocks s' = <[p := b]> (live_blocks s).
Proof using Hplaced.
  intros Ok Ok' Hn Hi. assert (E : live_blocks s !! p = None).
  { destruct (live_blocks s !! p) as [c|] eqn:E; [|done]. apply live_lookup in E as Hc; [|done].
    assert (c = b) as ->; [|done]. eapply (held_functional s' p); [done|apply Hi; by right|apply Hi; by left]. }
  split; [done|]. apply map_eq. intros q. apply option_eq. intros c.
  rewrite live_lookup, Hi, lookup_insert_Some, live_lookup by done. split.
  - intros [[= -> ->]|H]; [by left|]. destruct (decide (p = q)) as [<-|]; [|by right].
    apply live_lookup in H; [congruence|done].
  - intros [[-> ->]|[_ ?]]; [by left|by right].
Qed.

Lemma live_shrink s s' p b : memory_ok s → memory_ok s' → (p, b) ∉ held s' →
  (∀ q c, (q, c) ∈ held s ↔ (q, c) = (p, b) ∨ (q, c) ∈ held s') → live_blocks s' = delete p (live_blocks s).
Proof using Hplaced.
  intros Ok Ok' Hn Hi. destruct (live_grow s' s p b Ok' Ok Hn Hi) as [E ->]. by rewrite delete_insert_id.
Qed.

(** *** mem.c *)
Lemma heap_pointers_in s ts q : MemOk.mem_inv (ramheap s) ts →
  q ∈ heap_pointers s ↔ ∃ t, t ∈ taken ts ∧ q = Mem.ram (ramheap s) + at_ t + 12.
Proof.
  intros K. unfold heap_pointers. rewrite (tiles_inv _ _ K), list_elem_of_fmap. naive_solver.
Qed.

(** A block more, or one less, between the same others. *)
Lemma block_added s s' ts ts' (k1 k2 : list tile) a z : pools s' = pools s →
  MemOk.mem_inv (ramheap s) ts → MemOk.mem_inv (ramheap s') ts' → Mem.ram (ramheap s') = Mem.ram (ramheap s) →
  taken ts = k1 ++ k2 → taken ts' = k1 ++ Tile a z true :: k2 →
  let p := Mem.ram (ramheap s) + a + 12 in
  ((p, HEAP) ∉ held s) ∧ (∀ q c, (q, c) ∈ held s' ↔ (q, c) = (p, HEAP) ∨ (q, c) ∈ held s).
Proof.
  intros Ep K K' Er Et Et' p.
  assert (Hf : ∀ q, q ∈ heap_pointers s' ↔ q = p ∨ q ∈ heap_pointers s).
  { intros q. rewrite (heap_pointers_in s' ts'), (heap_pointers_in s ts), Et, Et', Er by done. split.
    - intros (t & Ht & ->). assert (t = Tile a z true ∨ t ∈ k1 ++ k2) as [->|?] by set_solver; [by left|eauto].
    - intros [->|(t & Ht & ->)]; [exists (Tile a z true)|exists t]; set_solver. }
  assert (Hn : p ∉ heap_pointers s).
  { rewrite (heap_pointers_in s ts), Et by done. intros (t & Ht & Heq).
    pose proof (MemOk.taken_nodup _ _ K') as ND. rewrite Et', <- Permutation_middle in ND. apply NoDup_cons in ND as [ND _].
    apply ND. assert (Tile a z true = t) as ->; [|done].
    apply (MemOk.taken_at_inj (ramheap s') ts'); [done|rewrite Et'; set_solver|rewrite Et'; set_solver|cbn; lia]. }
  split.
  - intros [[_ ?]|(k & ? & _)]%held_in; done.
  - intros q c. rewrite !held_in, Hf. assert (∀ k, free_of k s' = free_of k s) as Ef by (intros; unfold free_of; by rewrite Ep).
    setoid_rewrite Ef. split.
    + intros [[-> [->|?]]|?]; auto.
    + intros [[= -> ->]|[[-> ?]|?]]; auto.
Qed.

Definition c_malloc (n : Z) s : option (lwip_memory * Z) :=
  '(h, p) ← Mem.mem_malloc (u32 n) (ramheap s); Some (set_ramheap h s, p).

Definition c_free (p : Z) s : option lwip_memory :=
  h ← Mem.mem_free p (ramheap s); Some (set_ramheap h s).

Lemma c_malloc_ok n s : memory_ok s → ∃ s' p, c_malloc n s = Some (s', p) ∧ memory_ok s' ∧
  (p ≠ 0 → live_blocks s !! p = None ∧ live_blocks s' = <[p := HEAP]> (live_blocks s) ∧ p mod 4 = 0 ∧ 0 < p).
Proof using Hplaced.
  intros Ok. pose proof Ok as (Hp & [ts K] & Hr). unfold c_malloc.
  destruct (MemOk.mem_malloc_ok (ramheap s) ts (u32 n) K (u32_range n)) as (h & p & -> & R). cbn [mbind option_bind].
  exists (set_ramheap h s), p. split; [done|].
  destruct R as [(-> & -> & _)|(ts' & k1 & k2 & z & K' & Er & Et & Et' & Hs & Hp0)]; [by split|].
  assert (Ok' : memory_ok (set_ramheap h s)) by (split; [done|split; [by exists ts'|cbn; by rewrite Er]]).
  split; [done|]. intros Hne. destruct (block_added s (set_ramheap h s) ts ts' k1 k2 _ z eq_refl K K' Er Et Et') as [Hn Hi].
  replace (Mem.ram (ramheap s) + (p - Mem.ram (ramheap s) - 12) + 12) with p in * by lia.
  destruct (live_grow s _ p HEAP Ok Ok' Hn Hi) as [E1 E2]. split_and!; try done.
  - assert (Hin : Tile (p - Mem.ram (ramheap s) - 12) z true ∈ ts').
    { assert (Tile (p - Mem.ram (ramheap s) - 12) z true ∈ taken ts') as [? _]%elem_of_taken by (rewrite Et'; set_solver). done. }
    pose proof (tiles_aligned 0 ts' _ _ eq_refl (MemOk.inv_tiles _ _ K') Hin) as Ha. cbn in Ha.
    destruct (MemOk.inv_ram _ _ K) as (_ & Hr4 & _). Z.to_euclidean_division_equations; lia.
  - pose proof (MemOk.inv_ram _ _ K). lia.
Qed.

Lemma held_heap s ts p : memory_ok s → MemOk.mem_inv (ramheap s) ts → live_blocks s !! p = Some HEAP →
  ∃ (k1 k2 : list tile) a z, taken ts = k1 ++ Tile a z true :: k2 ∧ p = Mem.ram (ramheap s) + a + 12.
Proof using Hplaced.
  intros Ok K [[_ H]|(k & ? & _)]%live_lookup%held_in; try done.
  apply (heap_pointers_in s ts) in H as ([a z u] & Ht & ->); [|done]. pose proof Ht as [_ Hu]%elem_of_taken. cbn in Hu. subst u.
  apply list_elem_of_split in Ht as (k1 & k2 & E). by exists k1, k2, a, z.
Qed.

Lemma c_free_ok p s : memory_ok s → live_blocks s !! p = Some HEAP →
  ∃ s', c_free p s = Some s' ∧ memory_ok s' ∧ live_blocks s' = delete p (live_blocks s).
Proof using Hplaced.
  intros Ok Hl. pose proof Ok as (Hp & [ts K] & Hr). destruct (held_heap s ts p Ok K Hl) as (k1 & k2 & a & z & Et & ->).
  destruct (MemOk.mem_free_block _ _ _ _ _ _ K Et) as (h & ts' & E & K' & Er & Et'). unfold c_free. rewrite E. cbn [mbind option_bind].
  exists (set_ramheap h s). assert (Ok' : memory_ok (set_ramheap h s)) by (split; [done|split; [by exists ts'|cbn; by rewrite Er]]).
  split; [done|]. split; [done|].
  destruct (block_added (set_ramheap h s) s ts' ts k1 k2 a z eq_refl K' K (eq_sym Er) Et' Et) as [Hn Hi]. cbn in Hn, Hi. rewrite Er in Hn, Hi.
  by apply (live_shrink s _ _ HEAP).
Qed.

(** *** memp.c *)
Lemma free_list_changed s s' free k p : ramheap s' = ramheap s →
  refines elems free (pools s) → refines elems (set_free free k (p :: free k)) (pools s') → p ∉ free k → p ∈ elems k →
  ((p, POOL k) ∉ held s') ∧ (∀ q c, (q, c) ∈ held s ↔ (q, c) = (p, POOL k) ∨ (q, c) ∈ held s').
Proof using Hplaced.
  intros Eh R R' Hf Hp.
  assert (Ef : ∀ j, free_of j s' = set_free free k (p :: free k) j) by (intros; by apply free_of_refines).
  assert (Ef0 : ∀ j, free_of j s = free j) by (intros; by apply free_of_refines).
  assert (Eq : ∀ q, q ∈ heap_pointers s' ↔ q ∈ heap_pointers s) by (intros; unfold heap_pointers, tiles; by rewrite Eh).
  split.
  - intros [[? _]|(j & [= <-] & _ & H)]%held_in; [done|]. apply H. rewrite Ef. unfold set_free. rewrite decide_True by done. set_solver.
  - intros q c. rewrite !held_in, Eq. setoid_rewrite Ef. setoid_rewrite Ef0. unfold set_free. split.
    + intros [?|(j & -> & Hq & Hn)]; [by right; left|]. destruct (decide (j = k)) as [->|].
      * destruct (decide (q = p)) as [->|]; [by left|]. right; right. exists k. rewrite decide_True by done. set_solver.
      * right; right. exists j. by rewrite decide_False.
    + intros [[= -> ->]|[?|(j & -> & Hq & Hn)]]; [right; by exists k|by left|]. right. exists j. case_decide; set_solver.
Qed.

Definition c_pool_malloc k s : option (lwip_memory * Z) :=
  '(st, p) ← Memp.memp_malloc k (pools s); Some (set_pools st s, p).

Definition c_pool_free k (p : Z) s : option lwip_memory :=
  st ← Memp.memp_free k p (pools s); Some (set_pools st s).

Lemma c_pool_malloc_ok k s : memory_ok s → ∃ s' p, c_pool_malloc k s = Some (s', p) ∧ memory_ok s' ∧
  (p ≠ 0 → live_blocks s !! p = None ∧ live_blocks s' = <[p := POOL k]> (live_blocks s) ∧ p mod 4 = 0 ∧ 0 < p).
Proof using Hplaced.
  intros Ok. pose proof Ok as ([free R] & Hh & Hr). pose proof (elements_ok _ (pl_size Hplaced) _ (pl_memp Hplaced)) as O.
  unfold c_pool_malloc. pose proof (memp_malloc_refines _ _ _ _ k O R) as M. destruct (free k) as [|p l] eqn:Ef.
  - rewrite M. cbn. exists (set_pools (pools s) s), 0. split; [done|]. by split; [destruct s|].
  - destruct M as (st & -> & R'). cbn. exists (set_pools st s), p. split; [done|].
    assert (Ok' : memory_ok (set_pools st s)) by (split; [by eexists|done]). split; [done|]. intros _.
    pose proof (ref_elems _ _ _ R k p ltac:(rewrite Ef; set_solver)) as Hp. destruct (el_aligned _ _ O k p Hp).
    pose proof (ref_nodup _ _ _ R k) as ND. rewrite Ef in ND. apply NoDup_cons in ND as [Hpl _].
    destruct (free_list_changed (set_pools st s) s (set_free free k l) k p eq_refl R') as [Hn Hi].
    + eapply refines_ext; [|exact R]. intros j. unfold set_free. destruct (decide (j = k)) as [->|]; [|done]. by rewrite decide_True.
    + unfold set_free. by rewrite decide_True.
    + done.
    + destruct (live_grow s _ p (POOL k) Ok Ok' Hn Hi). done.
Qed.

Lemma c_pool_free_ok k p s : memory_ok s → live_blocks s !! p = Some (POOL k) →
  ∃ s', c_pool_free k p s = Some s' ∧ memory_ok s' ∧ live_blocks s' = delete p (live_blocks s).
Proof using Hplaced.
  intros Ok Hl. pose proof Ok as ([free R] & Hh & Hr). pose proof (elements_ok _ (pl_size Hplaced) _ (pl_memp Hplaced)) as O.
  apply live_lookup in Hl; [|done]. apply held_in in Hl as [[? _]|(j & [= <-] & Hp & Hf)]; [done|].
  rewrite (free_of_refines s free k R) in Hf.
  destruct (memp_free_refines _ _ _ _ _ _ O R Hp Hf) as (st & E & R'). unfold c_pool_free. rewrite E. cbn.
  exists (set_pools st s). assert (Ok' : memory_ok (set_pools st s)) by (split; [by eexists|done]).
  split; [done|]. split; [done|].
  destruct (free_list_changed s (set_pools st s) free k p eq_refl R R' Hf Hp) as [Hn Hi].
  by apply (live_shrink s _ _ (POOL k)).
Qed.

(** *** Trimming *)
Definition c_trim (p n : Z) s : option lwip_memory :=
  '(h, _) ← Mem.mem_trim p (u32 n) (ramheap s); Some (set_ramheap h s).

(** The octets of the block at [p]. *)
Definition room (p : Z) s : Z :=
  match Mem.blocks (ramheap s) !! (p - 12 - Mem.ram (ramheap s)) with
  | Some b => Mem.next b - (p - Mem.ram (ramheap s))
  | None => 0
  end.

Lemma room_block s ts t : MemOk.mem_inv (ramheap s) ts → t ∈ taken ts →
  room (Mem.ram (ramheap s) + at_ t + 12) s = sz t - 12.
Proof.
  intros K [Ht _]%elem_of_taken. unfold room.
  replace (Mem.ram (ramheap s) + at_ t + 12 - 12 - Mem.ram (ramheap s)) with (at_ t) by lia.
  destruct (MemOk.inv_rep _ _ K) as [R _]. destruct (MemOk.hdrs_in _ _ _ _ R Ht) as [q Hq]. rewrite Hq. cbn. lia.
Qed.

Lemma c_trim_ok p n s : memory_ok s → live_blocks s !! p = Some HEAP → Mem.block_size (u32 n) <= room p s →
  ∃ s', c_trim p n s = Some s' ∧ memory_ok s' ∧ live_blocks s' = live_blocks s.
Proof using Hplaced.
  intros Ok Hl Hroom. pose proof Ok as (Hp & [ts K] & Hr). destruct (held_heap s ts p Ok K Hl) as (k1 & k2 & a & z & Et & ->).
  assert (Hz : room (Mem.ram (ramheap s) + a + 12) s = z - 12).
  { apply (room_block s ts (Tile a z true)); [done|rewrite Et; set_solver]. }
  rewrite Hz in Hroom.
  destruct (MemOk.mem_trim_block (ramheap s) ts k1 k2 a z (u32 n) K Et (u32_range n) ltac:(lia)) as (h & ts' & z' & E & K' & Er & Et' & _).
  unfold c_trim. rewrite E. cbn [mbind option_bind]. exists (set_ramheap h s). split; [done|].
  assert (Ok' : memory_ok (set_ramheap h s)) by (split; [done|split; [by exists ts'|cbn; by rewrite Er]]).
  split; [done|]. apply map_eq. intros q. apply option_eq. intros c. rewrite !live_lookup, !held_in by done.
  enough (q ∈ heap_pointers (set_ramheap h s) ↔ q ∈ heap_pointers s) as -> by done.
  rewrite (heap_pointers_in (set_ramheap h s) ts'), (heap_pointers_in s ts) by done. cbn [ramheap set_ramheap]. rewrite Et, Et', Er.
  split; intros (t & Ht & ->).
  - assert (t = Tile a z' true ∨ t ∈ k1 ++ k2) as [->|?] by set_solver; [by exists (Tile a z true); set_solver|exists t; set_solver].
  - assert (t = Tile a z true ∨ t ∈ k1 ++ k2) as [->|?] by set_solver; [by exists (Tile a z' true); set_solver|exists t; set_solver].
Qed.

(** ** The arena

    [Sound] managers satisfy their invariants.  [Broken] managers have failed
    an assertion or were given a block that they did not hand out: nothing is
    known of them any more but which blocks [l] had been handed out. *)
Definition some_live (l : gmap Z block) : Prop := ∃ s, memory_ok s ∧ l ⊆ live_blocks s.

Inductive arena_state : Type :=
  | Sound (s : lwip_memory) (K : memory_ok s)
  | Broken (l : gmap Z block) (Hl : some_live l).

Implicit Types (a : arena_state).

Lemma delete_some_live p l : some_live l → some_live (delete p l).
Proof. intros (s & K & H). exists s. split; [done|]. etrans; [apply delete_subseteq|done]. Qed.

Lemma live_some_live s : memory_ok s → some_live (live_blocks s).
Proof. by exists s. Qed.

(** Blocks come from managers that answer: [None], a failed assertion, is
    excluded by the first argument; the address 0 is NULL. *)
Definition give (r : option (lwip_memory * Z)) :
    is_Some r → (∀ s' p, r = Some (s', p) → memory_ok s') → option (Z * arena_state) :=
  match r with
  | Some (s', p) => λ _ H, if decide (p = 0) then None else Some (p, Sound s' (H s' p eq_refl))
  | None => λ T _, False_rect _ (is_Some_None T)
  end.

Definition keep (r : option lwip_memory) : is_Some r → (∀ s', r = Some s' → memory_ok s') → arena_state :=
  match r with
  | Some s' => λ _ H, Sound s' (H s' eq_refl)
  | None => λ T _, False_rect _ (is_Some_None T)
  end.

Lemma give_spec r T H p a' : give r T H = Some (p, a') → ∃ s' K, a' = Sound s' K ∧ p ≠ 0 ∧ r = Some (s', p).
Proof. destruct r as [[s' q]|]; cbn; [|by destruct T]. case_decide; [done|]. intros [= <- <-]. eauto. Qed.

Lemma keep_spec r T H : ∃ s' K, keep r T H = Sound s' K ∧ r = Some s'.
Proof. destruct r as [s'|]; [|by destruct T]. cbn. eauto. Qed.

Lemma c_malloc_total n s : memory_ok s → is_Some (c_malloc n s).
Proof using Hplaced. intros K. destruct (c_malloc_ok n s K) as (? & ? & -> & _). by eexists. Qed.

Lemma c_malloc_keeps n s s' p : memory_ok s → c_malloc n s = Some (s', p) → memory_ok s'.
Proof using Hplaced. intros K E. destruct (c_malloc_ok n s K) as (? & ? & E' & ? & _). by simplify_eq. Qed.

Lemma c_pool_malloc_total k s : memory_ok s → is_Some (c_pool_malloc k s).
Proof using Hplaced. intros K. destruct (c_pool_malloc_ok k s K) as (? & ? & -> & _). by eexists. Qed.

Lemma c_pool_malloc_keeps k s s' p : memory_ok s → c_pool_malloc k s = Some (s', p) → memory_ok s'.
Proof using Hplaced. intros K E. destruct (c_pool_malloc_ok k s K) as (? & ? & E' & ? & _). by simplify_eq. Qed.

Lemma c_free_total p s : memory_ok s → live_blocks s !! p = Some HEAP → is_Some (c_free p s).
Proof using Hplaced. intros K L. destruct (c_free_ok p s K L) as (? & -> & _). by eexists. Qed.

Lemma c_free_keeps p s s' : memory_ok s → live_blocks s !! p = Some HEAP → c_free p s = Some s' → memory_ok s'.
Proof using Hplaced. intros K L E. destruct (c_free_ok p s K L) as (? & ? & ? & _). by simplify_eq. Qed.

Lemma c_pool_free_total k p s : memory_ok s → live_blocks s !! p = Some (POOL k) → is_Some (c_pool_free k p s).
Proof using Hplaced. intros K L. destruct (c_pool_free_ok k p s K L) as (? & -> & _). by eexists. Qed.

Lemma c_pool_free_keeps k p s s' : memory_ok s → live_blocks s !! p = Some (POOL k) → c_pool_free k p s = Some s' → memory_ok s'.
Proof using Hplaced. intros K L E. destruct (c_pool_free_ok k p s K L) as (? & ? & ? & _). by simplify_eq. Qed.

Definition trims p n s : Prop := live_blocks s !! p = Some HEAP ∧ Mem.block_size (u32 n) <= room p s.

Lemma c_trim_total p n s : memory_ok s → trims p n s → is_Some (c_trim p n s).
Proof using Hplaced. intros K [L R]. destruct (c_trim_ok p n s K L R) as (? & -> & _). by eexists. Qed.

Lemma c_trim_keeps p n s s' : memory_ok s → trims p n s → c_trim p n s = Some s' → memory_ok s'.
Proof using Hplaced. intros K [L R] E. destruct (c_trim_ok p n s K L R) as (? & ? & ? & _). by simplify_eq. Qed.

#[export] Instance block_eq_dec : EqDecision block.
Proof. solve_decision. Defined.

#[export] Instance trims_dec p n s : Decision (trims p n s).
Proof. unfold trims. apply _. Defined.

Definition arena_live a : gmap Z block :=
  match a with Sound s _ => live_blocks s | Broken l _ => l end.

(** The managers break: the block at [p] counts as released. *)
Definition break_at (p : Z) s (K : memory_ok s) : arena_state :=
  Broken (delete p (live_blocks s)) (delete_some_live p _ (live_some_live s K)).

#[export] Instance lwip_arena : Arena arena_state := {|
  memp_malloc k a :=
    match a with
    | Sound s K => give (c_pool_malloc k s) (c_pool_malloc_total k s K) (λ s' p, c_pool_malloc_keeps k s s' p K)
    | Broken _ _ => None
    end;
  memp_free k p a :=
    match a with
    | Sound s K =>
        match decide (live_blocks s !! p = Some (POOL k)) with
        | left L => keep (c_pool_free k p s) (c_pool_free_total k p s K L) (λ s', c_pool_free_keeps k p s s' K L)
        | right _ => break_at p s K
        end
    | Broken l Hl => Broken (delete p l) (delete_some_live p l Hl)
    end;
  mem_malloc n a :=
    match a with
    | Sound s K => give (c_malloc n s) (c_malloc_total n s K) (λ s' p, c_malloc_keeps n s s' p K)
    | Broken _ _ => None
    end;
  mem_free p a :=
    match a with
    | Sound s K =>
        match decide (live_blocks s !! p = Some HEAP) with
        | left L => keep (c_free p s) (c_free_total p s K L) (λ s', c_free_keeps p s s' K L)
        | right _ => break_at p s K
        end
    | Broken l Hl => Broken (delete p l) (delete_some_live p l Hl)
    end;
  mem_trim p n a :=
    match a with
    | Sound s K =>
        match decide (trims p n s) with
        | left L => keep (c_trim p n s) (c_trim_total p n s K L) (λ s', c_trim_keeps p n s s' K L)
        | right _ => Broken (live_blocks s) (live_some_live s K)
        end
    | Broken l Hl => Broken l Hl
    end;
  custom_free_function p a :=
    match a with
    | Sound s K => break_at p s K
    | Broken l Hl => Broken (delete p l) (delete_some_live p l Hl)
    end;
  live := arena_live |}.

#[export] Instance lwip_arena_laws : ArenaLaws arena_state.
Proof using Hplaced.
  split.
  - intros k [s K|] p a' E; [|done]. apply give_spec in E as (s' & K' & -> & Hp & E).
    destruct (c_pool_malloc_ok k s K) as (s2 & p2 & E2 & _ & H). cbn. simplify_eq. by apply H.
  - intros n [s K|] p a' E; [|done]. apply give_spec in E as (s' & K' & -> & Hp & E).
    destruct (c_malloc_ok n s K) as (s2 & p2 & E2 & _ & H). cbn. simplify_eq. by apply H.
  - intros k p [s K|] L; [|done]. cbn in L |- *. rewrite decide_True_pi with (HP := L).
    destruct (keep_spec _ (c_pool_free_total k p s K L) (λ s', c_pool_free_keeps k p s s' K L)) as (s' & K' & -> & E).
    destruct (c_pool_free_ok k p s K L) as (s2 & E2 & _ & H). cbn. by simplify_eq.
  - intros p [s K|] L; [|done]. cbn in L |- *. rewrite decide_True_pi with (HP := L).
    destruct (keep_spec _ (c_free_total p s K L) (λ s', c_free_keeps p s s' K L)) as (s' & K' & -> & E).
    destruct (c_free_ok p s K L) as (s2 & E2 & _ & H). cbn. by simplify_eq.
  - by intros p [s K|] L.
  - intros p n [s K|] L; [|done]. cbn in L |- *. destruct (decide _) as [T|]; [|done].
    destruct (keep_spec _ (c_trim_total p n s K T) (λ s', c_trim_keeps p n s s' K T)) as (s' & K' & -> & E).
    destruct T as [L' R]. destruct (c_trim_ok p n s K L' R) as (s2 & E2 & _ & H). cbn. by simplify_eq.
Qed.

(** The calls that pbuf.c makes keep the managers sound. *)
Definition sound a : Prop := ∃ s K, a = Sound s K.

Lemma step_sound a a' : arena_step a a' → sound a → sound a'.
Proof using Hplaced.
  intros St (s & K & ->). inversion St; subst; cbn in *.
  - match goal with H : give _ _ _ = _ |- _ => apply give_spec in H as (s' & K' & -> & _); by exists s', K' end.
  - match goal with H : give _ _ _ = _ |- _ => apply give_spec in H as (s' & K' & -> & _); by exists s', K' end.
  - destruct (decide _); [|done]. match goal with |- sound (keep ?r ?T ?H) => destruct (keep_spec r T H) as (s' & K' & -> & _) end.
    by exists s', K'.
  - destruct (decide _); [|done]. match goal with |- sound (keep ?r ?T ?H) => destruct (keep_spec r T H) as (s' & K' & -> & _) end.
    by exists s', K'.
  - match goal with H : live_blocks _ !! _ = Some CUSTOM |- _ => apply live_lookup, held_in in H as [[? _]|(? & ? & _)]; done end.
Qed.

Lemma steps_sound a a' : rtc arena_step a a' → sound a → sound a'.
Proof using Hplaced. induction 1; eauto using step_sound. Qed.

(** ** pbuf.c on top of the two managers *)

(** The octets of a live block. *)
Definition extent (p : Z) s : Z :=
  match live_blocks s !! p with
  | Some (POOL k) => sizes k
  | Some HEAP => room p s
  | _ => 0
  end.

Lemma live_apart s p q : memory_ok s → is_Some (live_blocks s !! p) → is_Some (live_blocks s !! q) → p ≠ q →
  p + extent p s <= q ∨ q + extent q s <= p.
Proof using Hplaced.
  intros Ok [b Hb] [c Hc] Hne. pose proof Ok as (_ & [ts K] & _).
  pose proof (elements_ok _ (pl_size Hplaced) _ (pl_memp Hplaced)) as O. unfold extent. rewrite Hb, Hc.
  apply live_lookup, held_in in Hb; [|done]. apply live_lookup, held_in in Hc; [|done].
  destruct Hb as [[-> Hb]|(k & -> & Hb & _)], Hc as [[-> Hc]|(j & -> & Hc & _)].
  - apply (heap_pointers_in s ts) in Hb as (t & Ht & ->); [|done]. apply (heap_pointers_in s ts) in Hc as (t2 & Ht2 & ->); [|done].
    rewrite !(room_block s ts) by done. apply elem_of_taken in Ht as [Ht _], Ht2 as [Ht2 _].
    destruct (tiles_apart _ _ _ t t2 (MemOk.inv_tiles _ _ K) Ht Ht2) as [->|?]; [done|lia].
  - apply (heap_pointers_in s ts) in Hb as (t & Ht & ->); [|done]. rewrite (room_block s ts) by done.
    destruct (pool_apart s j q t ts Ok K Hc Ht); lia.
  - apply (heap_pointers_in s ts) in Hc as (t & Ht & ->); [|done]. rewrite (room_block s ts) by done.
    destruct (pool_apart s k p t ts Ok K Hb Ht); lia.
  - destruct (el_apart _ _ O k j p q Hb Hc) as [[_ ?]|?]; [done|tauto].
Qed.

Lemma boot_ok bytes : memory_ok (MkMemory (memp_init sizeof_element memp_memory) (Mem.mem_init ram_heap bytes)).
Proof using Hplaced.
  destruct (pl_ram Hplaced). split; [|split; [|done]]; eexists.
  - apply memp_init_ok; [apply Hplaced|apply Hplaced].
  - by apply MemOk.mem_init_ok.
Qed.

(** The state after [mem_init] and [memp_init], with no pbuf. *)
Definition boot (bytes : Z → Z) : heap arena_state :=
  MkHeap ∅ bytes (Sound _ (boot_ok bytes)) (λ _, 0) false.

Lemma boot_heap_ok bytes : heap_ok (boot bytes) (λ _, 0%nat).
Proof. by split. Qed.

Lemma reached_sound bytes h E : rtc client_step (boot bytes, λ _, 0%nat) (h, E) → sound (arena h).
Proof using Hplaced.
  intros R. apply (steps_sound (arena (boot bytes))); [exact (client_steps _ _ _ _ (boot_heap_ok bytes) R)|by eexists _, _].
Qed.

(** C14. pbuf.c on the real memory managers: after any sequence of calls by a
    client that keeps to the rules, from start-up on, the next call returns
    without a failed assertion.  The managers themselves are sound: no call
    of pbuf.c has failed an assertion of theirs or given back a block that
    they did not hand out, and they answer every next request, for any size
    and from any pool, and take back every block that is handed out.  Every
    pbuf lies in a block the managers hold as handed out, and the blocks of
    two pbufs do not overlap. *)
Theorem pbuf_on_lwip_memory bytes h E :
  rtc client_step (boot bytes, λ _, 0%nat) (h, E) →
  (∀ o, allowed h E o → is_Some (run o h))
  ∧ ∃ s K, arena h = Sound s K
  ∧ (∀ n, is_Some (c_malloc n s)) ∧ (∀ k, is_Some (c_pool_malloc k s))
  ∧ (∀ p, live_blocks s !! p = Some HEAP → is_Some (c_free p s))
  ∧ (∀ k p, live_blocks s !! p = Some (POOL k) → is_Some (c_pool_free k p s))
  ∧ (∀ p b, pbufs h !! p = Some b → live_blocks s !! p = Some (block_of b))
  ∧ (∀ p q b c, pbufs h !! p = Some b → pbufs h !! q = Some c → p ≠ q →
       p + extent p s <= q ∨ q + extent q s <= p).
Proof using Hplaced.
  intros R. destruct (client_reach _ _ _ _ (boot_heap_ok bytes) R) as [Ok S]. split; [exact S|].
  destruct (reached_sound bytes h E R) as (s & K & Ea). exists s, K. split; [exact Ea|].
  assert (L : ∀ p b, pbufs h !! p = Some b → live_blocks s !! p = Some (block_of b)).
  { intros p b Hp. pose proof (ok_live _ _ Ok p b Hp) as L. by rewrite Ea in L. }
  split_and!; [by intros; apply c_malloc_total|by intros; apply c_pool_malloc_total|by intros; apply c_free_total
    |by intros; apply c_pool_free_total|exact L|].
  intros p q b c Hp Hq Hne. apply live_apart; [done|by eexists; apply L|by eexists; apply L|done].
Qed.
End arena.

(** Two arrays: the pools at 65536, the heap at 1048576. *)
Definition sizeof_example (k : memp_t) : Z :=
  match k with MEMP_PBUF => 16 | MEMP_PBUF_POOL => 1072 | _ => 40 end.

#[export] Instance placed_example : placed sizeof_example 65536 1048576.
Proof.
  split; [by intros []|done| |left]; vm_compute; [split; congruence|congruence].
Qed.

Lemma pbuf_on_lwip_memory_witness :
  ∃ h E, rtc client_step (boot sizeof_example 65536 1048576 placed_example (λ _, 0), λ _, 0%nat) (h, E)
    ∧ is_Some (run (OpAlloc PBUF_RAW 60 PBUF_RAM) h).
Proof.
  pose proof (boot_heap_ok sizeof_example 65536 1048576 placed_example (λ _, 0)) as K.
  assert (A : allowed (boot sizeof_example 65536 1048576 placed_example (λ _, 0)) (λ _, 0%nat)
    (OpAlloc PBUF_TRANSPORT 3000 PBUF_POOL)) by (split; lia).
  destruct (run_ok (OpAlloc PBUF_TRANSPORT 3000 PBUF_POOL) _ _ K A) as (h & r & E & _).
  assert (R : rtc client_step (boot sizeof_example 65536 1048576 placed_example (λ _, 0), λ _, 0%nat)
    (h, inc_opt r (λ _, 0%nat))) by (eapply rtc_l; [exact (client_run _ _ _ _ _ A E)|apply rtc_refl]).
  exists h, (inc_opt r (λ _, 0%nat)). split; [exact R|].
  apply (pbuf_on_lwip_memory sizeof_example 65536 1048576 placed_example (λ _, 0) h _ R). split; lia.
Defined.
