(* ===== verification/Heap4.v ===== *)
(** * FreeRTOS-Kernel/portable/MemMang/heap_4.c: the kernel's heap

    The [BlockLink_t] headers are a store indexed by the address of the block;
    [xStart] is the header at [addr_xStart].  [configASSERT] only prints on
    this board, so it has no effect here.  The scheduler is suspended during
    each operation, which is therefore one step. *)
From S2P Require Import Prelude.
Local Open Scope Z_scope.

(** ** Data *)
Record BlockLink_t := MkLink { pxNextFreeBlock : Z; xBlockSize : Z }.

Record heap4 := MkHeap4 {
  links : gmap Z BlockLink_t;
  bytes : Z → Z;
  pxEnd : Z;
  xFreeBytesRemaining : Z;
  xMinimumEverFreeBytesRemaining : Z;
  xNumberOfSuccessfulAllocations : Z;
  xNumberOfSuccessfulFrees : Z }.

Definition portBYTE_ALIGNMENT : Z := 8.
Definition portBYTE_ALIGNMENT_MASK : Z := 7.
(** [(sizeof(BlockLink_t) + 7) & ~7] with 32-bit pointers. *)
Definition xHeapStructSize : Z := 8.
Definition heapMINIMUM_BLOCK_SIZE : Z := 16.
Definition configTOTAL_HEAP_SIZE : Z := 1048576.
Definition portMAX_DELAY : Z := 4294967295.
Definition heapSIZE_MAX : Z := 4294967295.
Definition heapBLOCK_ALLOCATED_BITMASK : Z := 2147483648.

Definition heapMULTIPLY_WILL_OVERFLOW (a b : Z) : bool := (0 <? a) && (heapSIZE_MAX / a <? b).
Definition heapADD_WILL_OVERFLOW (a b : Z) : bool := heapSIZE_MAX - b <? a.
Definition heapBLOCK_SIZE_IS_VALID (s : Z) : bool := Z.land s heapBLOCK_ALLOCATED_BITMASK =? 0.
Definition heapBLOCK_IS_ALLOCATED (l : BlockLink_t) : bool :=
  negb (Z.land (xBlockSize l) heapBLOCK_ALLOCATED_BITMASK =? 0).
Definition heapALLOCATE_BLOCK (l : BlockLink_t) : BlockLink_t :=
  MkLink (pxNextFreeBlock l) (Z.lor (xBlockSize l) heapBLOCK_ALLOCATED_BITMASK).
Definition heapFREE_BLOCK (l : BlockLink_t) : BlockLink_t :=
  MkLink (pxNextFreeBlock l) (Z.land (xBlockSize l) (heapSIZE_MAX - heapBLOCK_ALLOCATED_BITMASK)).

Definition memset_zero (m : Z → Z) (a n : Z) : Z → Z := λ x, if decide (a <= x < a + n) then 0 else m x.

Section operations.
Context (ucHeap addr_xStart : Z).
Implicit Types (st : heap4) (m : gmap Z BlockLink_t).

Definition set_links m st : heap4 :=
  MkHeap4 m (bytes st) (pxEnd st) (xFreeBytesRemaining st) (xMinimumEverFreeBytesRemaining st)
    (xNumberOfSuccessfulAllocations st) (xNumberOfSuccessfulFrees st).

(** The state at reset: [xStart] is zero, [pxEnd] is NULL. *)
Definition heap_reset : heap4 := MkHeap4 {[ addr_xStart := MkLink 0 0 ]} (λ _, 0) 0 0 0 0 0.

Definition prvHeapInit st : heap4 :=
  let uxAddress := ucHeap in
  let '(uxAddress, xTotalHeapSize) :=
    if negb (Z.land uxAddress portBYTE_ALIGNMENT_MASK =? 0)
    then let a := Z.land (uxAddress + (portBYTE_ALIGNMENT - 1)) (heapSIZE_MAX - portBYTE_ALIGNMENT_MASK) in
         (a, u32 (configTOTAL_HEAP_SIZE - (a - ucHeap)))
    else (uxAddress, configTOTAL_HEAP_SIZE) in
  let pucAlignedHeap := uxAddress in
  let m := <[addr_xStart := MkLink pucAlignedHeap 0]> (links st) in
  let uxAddress := pucAlignedHeap + xTotalHeapSize - xHeapStructSize in
  let uxAddress := Z.land uxAddress (heapSIZE_MAX - portBYTE_ALIGNMENT_MASK) in
  let m := <[uxAddress := MkLink 0 0]> m in
  let size := u32 (uxAddress - pucAlignedHeap) in
  let m := <[pucAlignedHeap := MkLink uxAddress size]> m in
  MkHeap4 m (bytes st) uxAddress size size
    (xNumberOfSuccessfulAllocations st) (xNumberOfSuccessfulFrees st).

(** [for (pxIterator = &xStart; pxIterator->pxNextFreeBlock < x; ...)] *)
Fixpoint insert_loop (fuel : nat) (pxIterator x : Z) m : option Z :=
  l ← m !! pxIterator;
  if pxNextFreeBlock l <? x then
    match fuel with
    | O => None
    | S fuel => insert_loop fuel (pxNextFreeBlock l) x m
    end
  else Some pxIterator.

Definition prvInsertBlockIntoFreeList (pxBlockToInsert pxEnd : Z) m : option (gmap Z BlockLink_t) :=
  pxIterator ← insert_loop (size m) addr_xStart pxBlockToInsert m;
  it ← m !! pxIterator;
  b ← m !! pxBlockToInsert;
  let '(m, pxBlockToInsert) :=
    if pxIterator + xBlockSize it =? pxBlockToInsert
    then (<[pxIterator := MkLink (pxNextFreeBlock it) (u32 (xBlockSize it + xBlockSize b))]> m, pxIterator)
    else (m, pxBlockToInsert) in
  it ← m !! pxIterator;
  b ← m !! pxBlockToInsert;
  m ← (if pxBlockToInsert + xBlockSize b =? pxNextFreeBlock it then
         if negb (pxNextFreeBlock it =? pxEnd) then
           n ← m !! pxNextFreeBlock it;
           Some (<[pxBlockToInsert := MkLink (pxNextFreeBlock n) (u32 (xBlockSize b + xBlockSize n))]> m)
         else Some (<[pxBlockToInsert := MkLink pxEnd (xBlockSize b)]> m)
       else Some (<[pxBlockToInsert := MkLink (pxNextFreeBlock it) (xBlockSize b)]> m));
  if negb (pxIterator =? pxBlockToInsert)
  then it ← m !! pxIterator; Some (<[pxIterator := MkLink pxBlockToInsert (xBlockSize it)]> m)
  else Some m.

(** The first-fit walk: the block found and its predecessor. *)
Fixpoint search_loop (fuel : nat) (pxPreviousBlock pxBlock xWantedSize : Z) m : option (Z * Z) :=
  l ← m !! pxBlock;
  if (xBlockSize l <? xWantedSize) && negb (pxNextFreeBlock l =? 0) then
    match fuel with
    | O => None
    | S fuel => search_loop fuel pxBlock (pxNextFreeBlock l) xWantedSize m
    end
  else Some (pxPreviousBlock, pxBlock).

(** The size of the block that holds [xWantedSize] octets: 0 on overflow. *)
Definition block_size_for (xWantedSize : Z) : Z :=
  if 0 <? xWantedSize then
    let xAdditionalRequiredSize :=
      xHeapStructSize + portBYTE_ALIGNMENT - Z.land xWantedSize portBYTE_ALIGNMENT_MASK in
    if heapADD_WILL_OVERFLOW xWantedSize xAdditionalRequiredSize then 0
    else xWantedSize + xAdditionalRequiredSize
  else xWantedSize.

(** Taking [pxBlock] off the free list, splitting it when it is too large. *)
Definition take_block (pxPreviousBlock pxBlock xWantedSize : Z) st : option heap4 :=
  let m := links st in
  prev ← m !! pxPreviousBlock;
  blk ← m !! pxBlock;
  let m := <[pxPreviousBlock := MkLink (pxNextFreeBlock blk) (xBlockSize prev)]> m in
  m ← (if heapMINIMUM_BLOCK_SIZE <? u32 (xBlockSize blk - xWantedSize) then
         let pxNewBlockLink := pxBlock + xWantedSize in
         let old := default (MkLink 0 0) (m !! pxNewBlockLink) in
         let m := <[pxNewBlockLink := MkLink (pxNextFreeBlock old) (u32 (xBlockSize blk - xWantedSize))]> m in
         let m := <[pxBlock := MkLink (pxNextFreeBlock blk) xWantedSize]> m in
         prvInsertBlockIntoFreeList pxNewBlockLink (pxEnd st) m
       else Some m);
  blk ← m !! pxBlock;
  let free := u32 (xFreeBytesRemaining st - xBlockSize blk) in
  let min := if free <? xMinimumEverFreeBytesRemaining st then free else xMinimumEverFreeBytesRemaining st in
  let m := <[pxBlock := MkLink 0 (xBlockSize (heapALLOCATE_BLOCK blk))]> m in
  Some (MkHeap4 m (bytes st) (pxEnd st) free min
    (u32 (xNumberOfSuccessfulAllocations st + 1)) (xNumberOfSuccessfulFrees st)).

(** NULL is 0. *)
Definition pvPortMalloc (xWantedSize : Z) st : option (heap4 * Z) :=
  let st := if pxEnd st =? 0 then prvHeapInit st else st in
  let xWantedSize := block_size_for xWantedSize in
  if heapBLOCK_SIZE_IS_VALID xWantedSize then
    if (0 <? xWantedSize) && (xWantedSize <=? xFreeBytesRemaining st) then
      start ← links st !! addr_xStart;
      '(pxPreviousBlock, pxBlock) ←
        search_loop (size (links st)) addr_xStart (pxNextFreeBlock start) xWantedSize (links st);
      if negb (pxBlock =? pxEnd st) then
        prev ← links st !! pxPreviousBlock;
        let pvReturn := pxNextFreeBlock prev + xHeapStructSize in
        st ← take_block pxPreviousBlock pxBlock xWantedSize st;
        Some (st, pvReturn)
      else Some (st, 0)
    else Some (st, 0)
  else Some (st, 0).

Definition vPortFree (pv : Z) st : option heap4 :=
  if pv =? 0 then Some st else
  let pxLink := pv - xHeapStructSize in
  l ← links st !! pxLink;
  if heapBLOCK_IS_ALLOCATED l then
    if pxNextFreeBlock l =? 0 then
      let l := heapFREE_BLOCK l in
      let b := memset_zero (bytes st) (pxLink + xHeapStructSize) (u32 (xBlockSize l - xHeapStructSize)) in
      let free := u32 (xFreeBytesRemaining st + xBlockSize l) in
      m ← prvInsertBlockIntoFreeList pxLink (pxEnd st) (<[pxLink := l]> (links st));
      Some (MkHeap4 m b (pxEnd st) free (xMinimumEverFreeBytesRemaining st)
        (xNumberOfSuccessfulAllocations st) (u32 (xNumberOfSuccessfulFrees st + 1)))
    else Some st
  else Some st.

Definition pvPortCalloc (xNum xSize : Z) st : option (heap4 * Z) :=
  if heapMULTIPLY_WILL_OVERFLOW xNum xSize then Some (st, 0) else
  '(st, pv) ← pvPortMalloc (u32 (xNum * xSize)) st;
  if negb (pv =? 0) then
    Some (MkHeap4 (links st) (memset_zero (bytes st) pv (u32 (xNum * xSize))) (pxEnd st)
      (xFreeBytesRemaining st) (xMinimumEverFreeBytesRemaining st)
      (xNumberOfSuccessfulAllocations st) (xNumberOfSuccessfulFrees st), pv)
  else Some (st, pv).

Definition xPortGetFreeHeapSize st : Z := xFreeBytesRemaining st.
Definition xPortGetMinimumEverFreeHeapSize st : Z := xMinimumEverFreeBytesRemaining st.

Record HeapStats_t := MkStats {
  xAvailableHeapSpaceInBytes : Z;
  xSizeOfLargestFreeBlockInBytes : Z;
  xSizeOfSmallestFreeBlockInBytes : Z;
  xNumberOfFreeBlocks : Z;
  stats_MinimumEverFreeBytesRemaining : Z;
  stats_NumberOfSuccessfulAllocations : Z;
  stats_NumberOfSuccessfulFrees : Z }.

Fixpoint stats_loop (fuel : nat) (pxBlock xBlocks xMaxSize xMinSize : Z) st : option (Z * Z * Z) :=
  if pxBlock =? pxEnd st then Some (xBlocks, xMaxSize, xMinSize) else
  match fuel with
  | O => None
  | S fuel =>
      l ← links st !! pxBlock;
      let xMaxSize := if xMaxSize <? xBlockSize l then xBlockSize l else xMaxSize in
      let xMinSize := if xBlockSize l <? xMinSize then xBlockSize l else xMinSize in
      stats_loop fuel (pxNextFreeBlock l) (u32 (xBlocks + 1)) xMaxSize xMinSize st
  end.

Definition vPortGetHeapStats st : option HeapStats_t :=
  start ← links st !! addr_xStart;
  '(n, max, min) ←
    (if negb (pxNextFreeBlock start =? 0)
     then stats_loop (size (links st)) (pxNextFreeBlock start) 0 0 portMAX_DELAY st
     else Some (0, 0, portMAX_DELAY));
  Some (MkStats (xFreeBytesRemaining st) max min n (xMinimumEverFreeBytesRemaining st)
    (xNumberOfSuccessfulAllocations st) (xNumberOfSuccessfulFrees st)).

End operations.
