(* ===== verification/Heap4Ok.v ===== *)
(** * heap_4.c: the heap is a sequence of blocks

    The abstract view of the heap is the list of its blocks in address order.
    The invariant ties the free list and the headers to it: the blocks tile
    the heap, the free list links the free ones in address order, and no two
    free blocks are adjacent. *)
From S2P Require Import Prelude Heap4 Tiles.
Local Open Scope Z_scope.

Implicit Types (m : gmap Z BlockLink_t) (ts us pre post : list tile) (t : tile) (e : Z).

Abbreviation tiles_from := (Tiles.tiles_from 8).

(** The headers of [ts], whose free list goes on at [e]. *)
Fixpoint rep m ts e : Prop :=
  match ts with
  | [] => True
  | t :: ts =>
      m !! at_ t = Some (if used t then MkLink 0 (sz t + heapBLOCK_ALLOCATED_BITMASK) else MkLink (fnext ts e) (sz t))
      ∧ rep m ts e
  end.

Lemma rep_app m ts1 ts2 e : rep m (ts1 ++ ts2) e ↔ rep m ts1 (fnext ts2 e) ∧ rep m ts2 e.
Proof. induction ts1 as [|t ts1 IH]; cbn; [tauto|]. rewrite IH, fnext_app. tauto. Qed.

Lemma rep_used m us e e' : all_used us → rep m us e → rep m us e'.
Proof. induction 1 as [|t us Ht _ IH]; cbn; [done|]. rewrite Ht. tauto. Qed.

Lemma rep_frame m m' ts e : (∀ t, t ∈ ts → m' !! at_ t = m !! at_ t) → rep m ts e → rep m' ts e.
Proof.
  induction ts as [|t ts IH]; intros Hf; cbn; [done|]. intros [Ht R]. rewrite Hf by set_solver.
  split; [done|]. apply IH; [|done]. intros x Hx. apply Hf. set_solver.
Qed.

Lemma rep_lookup m ts e t : rep m ts e → t ∈ ts → is_Some (m !! at_ t).
Proof.
  induction ts as [|x ts IH]; cbn; [set_solver|]. intros [Hx R] [->|Ht]%elem_of_cons; [by eexists|by apply IH].
Qed.

(** ** Size arithmetic *)
Lemma high_bits s i : 0 <= s < 2 ^ 31 → 31 <= i → Z.testbit s i = false.
Proof.
  intros Hs Hi. destruct (decide (s = 0)) as [->|]; [apply Z.bits_0|].
  apply Z.bits_above_log2; [lia|]. apply Z.log2_lt_pow2; [lia|].
  eapply Z.lt_le_trans; [apply Hs|]. apply Z.pow_le_mono_r; lia.
Qed.

Lemma mask_disjoint s : 0 <= s < 2 ^ 31 → Z.land s (2 ^ 31) = 0.
Proof.
  intros Hs. apply Z.bits_inj'. intros i Hi. rewrite Z.land_spec, Z.bits_0, Z.pow2_bits_eqb by lia.
  destruct (Z.eqb_spec 31 i) as [<-|]; [by rewrite high_bits|apply andb_false_r].
Qed.

Lemma allocate_size s n : 0 <= s < heapBLOCK_ALLOCATED_BITMASK →
  heapALLOCATE_BLOCK (MkLink n s) = MkLink n (s + heapBLOCK_ALLOCATED_BITMASK).
Proof.
  change heapBLOCK_ALLOCATED_BITMASK with (2 ^ 31). intros Hs. unfold heapALLOCATE_BLOCK. cbn [xBlockSize pxNextFreeBlock].
  change heapBLOCK_ALLOCATED_BITMASK with (2 ^ 31). f_equal.
  pose proof (Z.add_lor_land s (2 ^ 31)) as E. rewrite mask_disjoint in E by done. lia.
Qed.

Lemma mask_add s : 0 <= s < heapBLOCK_ALLOCATED_BITMASK →
  Z.land (s + heapBLOCK_ALLOCATED_BITMASK) heapBLOCK_ALLOCATED_BITMASK = heapBLOCK_ALLOCATED_BITMASK
  ∧ Z.land (s + heapBLOCK_ALLOCATED_BITMASK) (heapSIZE_MAX - heapBLOCK_ALLOCATED_BITMASK) = s
  ∧ Z.land s heapBLOCK_ALLOCATED_BITMASK = 0.
Proof.
  change heapBLOCK_ALLOCATED_BITMASK with (2 ^ 31). change (heapSIZE_MAX - 2 ^ 31) with (Z.ones 31).
  intros Hs. pose proof (mask_disjoint s Hs) as D.
  pose proof (Z.add_lor_land s (2 ^ 31)) as E. rewrite D, Z.add_0_r in E. rewrite <- E.
  rewrite !Z.land_lor_distr_l, D. split_and!; [by rewrite Z.land_diag| |done].
  rewrite Z.land_ones by lia. rewrite Z.mod_small by done. apply Z.lor_0_r.
Qed.

(** ** Walking the free list *)
Lemma insert_loop_ok m x nx : ∀ ts t fuel,
  rep m (t :: ts) nx → used t = false → (∀ t', t' ∈ ts → used t' = false → at_ t' < x) → x <= nx →
  (length ts ≤ fuel)%nat →
  ∃ ts1 t1 us, t :: ts = ts1 ++ t1 :: us ∧ used t1 = false ∧ all_used us ∧ insert_loop fuel (at_ t) x m = Some (at_ t1).
Proof.
  enough (∀ ts t us fuel,
    m !! at_ t = Some (MkLink (fnext ts nx) (sz t)) → rep m ts nx → used t = false → all_used us →
    (∀ t', t' ∈ ts → used t' = false → at_ t' < x) → x <= nx → (length ts ≤ fuel)%nat →
    ∃ ts1 t1 us1, t :: us ++ ts = ts1 ++ t1 :: us1 ∧ used t1 = false ∧ all_used us1
      ∧ insert_loop fuel (at_ t) x m = Some (at_ t1)) as X.
  { intros ts t fuel [Ht R] Hu. rewrite Hu in Ht. intros. apply (X ts t [] fuel); try done. constructor. }
  assert (Hnil : all_used []) by constructor.
  induction ts as [|t2 ts IH]; intros t us fuel Ht R Hu Hus Hx Hnx Hf.
  - exists [], t, us. rewrite app_nil_r. split_and!; try done.
    destruct fuel; cbn; rewrite Ht; cbn; by rewrite (proj2 (Z.ltb_ge _ _)) by lia.
  - destruct R as [Ht2 R]. destruct (used t2) eqn:Hu2.
    + cbn [fnext] in Ht. rewrite Hu2 in Ht. replace (us ++ t2 :: ts) with ((us ++ [t2]) ++ ts) by (by rewrite <- app_assoc).
      apply IH; try done; [|intros t' Ht'; apply Hx; set_solver|cbn in Hf; lia].
      apply Forall_app. split; [done|]. by constructor.
    + cbn [fnext] in Ht. rewrite Hu2 in Ht. destruct fuel as [|fuel]; [cbn in Hf; lia|]. cbn. rewrite Ht. cbn.
      rewrite (proj2 (Z.ltb_lt _ _)) by (apply Hx; [set_solver|done]).
      destruct (IH t2 [] fuel) as (ts1 & t1 & us1 & E & ? & ? & ?); try done;
        [intros t' Ht'; apply Hx; set_solver|cbn in Hf; lia|].
      exists (t :: us ++ ts1), t1, us1. cbn in E. split; [cbn; rewrite <- app_assoc; by rewrite E|done].
Qed.

Lemma search_loop_ok m want e : 0 < want → m !! e = Some (MkLink 0 0) → ∀ ts t us fuel,
  m !! at_ t = Some (MkLink (fnext ts e) (sz t)) → rep m ts e → used t = false → all_used us →
  0 < fnext ts e → (∀ t', t' ∈ ts → 0 < at_ t') → 0 < e → (length ts ≤ fuel)%nat →
  (search_loop fuel (at_ t) (fnext ts e) want m = None → False) ∧
  ∀ p b, search_loop fuel (at_ t) (fnext ts e) want m = Some (p, b) →
    (b = e ∧ ∀ t', t' ∈ ts → used t' = false → sz t' < want)
    ∨ ∃ ts1 t1 us1 t2 post, t :: us ++ ts = ts1 ++ t1 :: us1 ++ t2 :: post ∧ p = at_ t1 ∧ b = at_ t2 ∧ t2 ∈ ts
        ∧ used t1 = false ∧ all_used us1 ∧ used t2 = false ∧ want <= sz t2.
Proof.
  assert (Hnil : all_used []) by constructor.
  intros Hw He. induction ts as [|t2 ts IH]; intros t us fuel Ht R Hu Hus Hn Hpos He0 Hf.
  - cbn [fnext]. assert (search_loop fuel (at_ t) e want m = Some (at_ t, e)) as ->.
    { destruct fuel; cbn; rewrite He; cbn; by rewrite (proj2 (Z.ltb_lt 0 want)) by lia. }
    split; [done|]. intros p b [= <- <-]. left. split; [done|]. set_solver.
  - destruct R as [Ht2 R]. destruct (used t2) eqn:Hu2.
    + cbn [fnext] in *. rewrite Hu2 in *. destruct (IH t (us ++ [t2]) fuel) as [I1 I2]; try done.
      { apply Forall_app. split; [done|]. by constructor. } { set_solver. } { cbn in Hf; lia. }
      split; [done|]. intros p b E. destruct (I2 p b E) as [[-> Hall]|(ts1 & t1 & us1 & t3 & post & E1 & ? & ? & ? & Hr)].
      * left. split; [done|]. intros t' [->|Ht']%elem_of_cons; [congruence|by apply Hall].
      * right. exists ts1, t1, us1, t3, post. rewrite <- app_assoc in E1. split_and!; try done; [set_solver|tauto..].
    + cbn [fnext] in *. rewrite Hu2 in *. destruct fuel as [|fuel]; [cbn in Hf; lia|]. cbn [search_loop]. rewrite Ht2. cbn [mbind option_bind xBlockSize pxNextFreeBlock].
      assert (0 < fnext ts e).
      { assert (∀ l, (∀ t', t' ∈ l → 0 < at_ t') → 0 < fnext l e) as Y.
        { induction l as [|y l IHl]; intros Hl; cbn; [done|]. case_match; [apply IHl; set_solver|apply Hl; set_solver]. }
        apply Y. set_solver. }
      rewrite (proj2 (Z.eqb_neq (fnext ts e) 0)) by lia. rewrite andb_true_r.
      destruct (Z.ltb_spec (sz t2) want).
      * destruct (IH t2 [] fuel) as [I1 I2]; try done; [set_solver|cbn in Hf; lia|]. split; [done|]. intros p b E.
        destruct (I2 p b E) as [[-> Hall]|(ts1 & t1 & us1 & t3 & post & E1 & ? & ? & ? & Hr)].
        -- left. split; [done|]. intros t' [->|Ht']%elem_of_cons; [done|by apply Hall].
        -- right. exists (t :: us ++ ts1), t1, us1, t3, post. cbn in E1.
           split; [cbn; rewrite <- app_assoc; by rewrite E1|]. split_and!; try done; [set_solver|tauto..].
      * split; [done|]. intros p b [= <- <-]. right. exists [], t, us, t2, ts. split_and!; try done. set_solver.
Qed.

Section heap.
Context (ucHeap X : Z).

Lemma prvInsert_ok m pre0 a s l post e ly :
  let pre := Tile X 0 false :: pre0 in
  let y := fnext post e in
  rep m pre y → m !! a = Some (MkLink l s) → m !! y = Some ly → a <> y → (∀ t, t ∈ pre → at_ t ≠ y ∧ at_ t ≠ a) →
  (∀ t, t ∈ pre0 → used t = false → at_ t < a) → a <= y → (length pre0 ≤ size m)%nat →
  ∃ ts1 t us m', pre = ts1 ++ t :: us ∧ used t = false ∧ all_used us
    ∧ prvInsertBlockIntoFreeList X a e m = Some m'
    ∧ let adjL := at_ t + sz t =? a in
      let x := if adjL then at_ t else a in
      let s1 := if adjL then u32 (sz t + s) else s in
      m' !! x = Some (if (x + s1 =? y) && negb (y =? e) then MkLink (pxNextFreeBlock ly) (u32 (s1 + xBlockSize ly))
                      else MkLink y s1)
      ∧ (adjL = false → m' !! at_ t = Some (MkLink a (sz t)))
      ∧ (∀ z, z ≠ x → z ≠ at_ t → m' !! z = m !! z).
Proof.
  intros pre y R Ha Hy Hay Hne Hlt Hle Hsz.
  destruct (insert_loop_ok m a y pre0 (Tile X 0 false) (size m) R eq_refl Hlt Hle Hsz)
    as (ts1 & t & us & E & Hu & Hus & EL).
  assert (Ht : m !! at_ t = Some (MkLink y (sz t))).
  { unfold pre in R. rewrite E in R. apply rep_app in R as [_ R]. destruct R as [Ht _].
    rewrite Hu, fnext_used in Ht by done. exact Ht. }
  destruct (Hne t) as [Hty Hta]; [unfold pre; rewrite E; set_solver|].
  exists ts1, t, us. unfold prvInsertBlockIntoFreeList. cbn [at_] in EL. rewrite EL. cbn [mbind option_bind].
  rewrite Ht. cbn [mbind option_bind]. rewrite Ha. cbn [mbind option_bind xBlockSize pxNextFreeBlock].
  destruct (at_ t + sz t =? a) eqn:EadjL.
  - rewrite lookup_insert_eq. cbn [mbind option_bind xBlockSize pxNextFreeBlock].
    rewrite Z.eqb_refl. cbn [negb]. destruct (at_ t + u32 (sz t + s) =? y) eqn:EadjR; cbn [andb].
    + destruct (negb (y =? e)) eqn:Eend.
      * rewrite lookup_insert_ne by done. rewrite Hy. cbn [mbind option_bind].
        eexists. split; [exact E|]. split; [done|]. split; [done|]. split; [done|].
        split; [by rewrite lookup_insert_eq|]. split; [done|]. intros z Hz _. by rewrite !lookup_insert_ne by done.
      * apply negb_false_iff, Z.eqb_eq in Eend. cbn [mbind option_bind].
        eexists. split; [exact E|]. split; [done|]. split; [done|]. split; [done|].
        split; [rewrite lookup_insert_eq; by rewrite Eend|]. split; [done|]. intros z Hz _. by rewrite !lookup_insert_ne by done.
    + cbn [mbind option_bind]. eexists. split; [exact E|]. split; [done|]. split; [done|]. split; [done|].
      split; [by rewrite lookup_insert_eq|]. split; [done|]. intros z Hz _. by rewrite !lookup_insert_ne by done.
  - rewrite Ht. cbn [mbind option_bind]. rewrite Ha. cbn [mbind option_bind xBlockSize pxNextFreeBlock].
    rewrite (proj2 (Z.eqb_neq (at_ t) a)) by done. cbn [negb].
    assert (Fin : ∀ lk, ∃ m', (it ← <[a := lk]> m !! at_ t;
        Some (<[at_ t := MkLink a (xBlockSize it)]> (<[a := lk]> m))) = Some m' ∧ m' !! a = Some lk ∧
        m' !! at_ t = Some (MkLink a (sz t)) ∧ ∀ z, z ≠ a → z ≠ at_ t → m' !! z = m !! z).
    { intros lk. rewrite lookup_insert_ne by done. rewrite Ht. cbn. eexists. split; [done|].
      split; [rewrite lookup_insert_ne by done; apply lookup_insert_eq|]. split; [apply lookup_insert_eq|].
      intros z Hz1 Hz2. by rewrite !lookup_insert_ne by done. }
    destruct (a + s =? y) eqn:EadjR; cbn [andb].
    + destruct (negb (y =? e)) eqn:Eend.
      * rewrite Hy. cbn [mbind option_bind].
        destruct (Fin (MkLink (pxNextFreeBlock ly) (u32 (s + xBlockSize ly)))) as (m' & -> & ? & ? & ?).
        exists m'. split_and!; done.
      * apply negb_false_iff, Z.eqb_eq in Eend. cbn [mbind option_bind].
        destruct (Fin (MkLink e s)) as (m' & -> & ? & ? & ?). exists m'. rewrite Eend. split_and!; done.
    + cbn [mbind option_bind]. destruct (Fin (MkLink y s)) as (m' & -> & ? & ? & ?). exists m'. split_and!; done.
Qed.

Definition outside (b e : Z) : Prop := X < b ∨ e < X.

Lemma header_next m post e le : rep m post e → m !! e = Some le → ∃ ly, m !! fnext post e = Some ly.
Proof.
  induction post as [|t post IH]; cbn; [eauto|]. intros [Ht R] He. destruct (used t); [by apply IH|]. eauto.
Qed.

(** The block to the right joins if it is free. *)
Lemma right_merge m x s1 post e ly :
  rep m post e → tiles_from (x + s1) post e → no_adj post → m !! fnext post e = Some ly →
  0 < s1 → s1 mod 8 = 0 → 0 <= e - x < 2 ^ 31 →
  ∃ r s2, (if (x + s1 =? fnext post e) && negb (fnext post e =? e)
           then MkLink (pxNextFreeBlock ly) (u32 (s1 + xBlockSize ly)) else MkLink (fnext post e) s1)
            = MkLink (fnext r e) s2
    ∧ tiles_from (x + s2) r e ∧ no_adj (Tile x s2 false :: r) ∧ rep m r e ∧ taken r = taken post
    ∧ s2 + free_size r = s1 + free_size post ∧ 0 < s2 ∧ s2 mod 8 = 0 ∧ (∀ t, t ∈ r → t ∈ post).
Proof.
  intros R T N Hy Hs1 Hm Hb. destruct post as [|t post].
  - exists [], s1. cbn. rewrite Z.eqb_refl, andb_false_r. split_and!; done.
  - cbn in T. destruct T as (Ha & Hs & Hm2 & T). pose proof (tiles_le _ _ _ T). destruct R as [Ht R].
    destruct (used t) eqn:Hu.
    + exists (t :: post), s1. cbn [fnext]. rewrite Hu. pose proof (fnext_bounds _ _ _ T).
      rewrite (proj2 (Z.eqb_neq (x + s1) (fnext post e))) by lia. cbn [andb].
      split; [done|]. split; [cbn; by rewrite Ha|]. split; [split; [by right|exact N]|].
      split; [cbn [rep]; by rewrite Hu|]. done.
    + cbn [fnext] in *. rewrite Hu in *. exists post, (s1 + sz t).
      rewrite Ht in Hy. injection Hy as <-. rewrite Ha, Z.eqb_refl.
      rewrite (proj2 (Z.eqb_neq (x + s1) e)) by lia. cbn.
      split; [by rewrite u32_id by (unfold is_u32; lia)|]. split; [by rewrite Z.add_assoc|].
      split. { destruct post as [|t3 post]; [done|]. cbn in N |- *. destruct N as [[?|?] ?]; [congruence|]. split; [by right|done]. }
      split; [done|]. split; [symmetry; by apply taken_free|].
      split; [unfold free_size in *; cbn; rewrite Hu; lia|]. split; [lia|].
      split; [by rewrite Zplus_mod, Hm, Hm2|set_solver].
Qed.

Lemma rep_size m b ts e nx : rep m ts nx → tiles_from b ts e → (length ts ≤ size m)%nat.
Proof.
  intros R T. rewrite <- (length_fmap at_ ts), <- size_dom, <- (size_list_to_set (C := gset Z)).
  - apply subseteq_size. intros a (t & -> & Ht)%elem_of_list_to_set%list_elem_of_fmap.
    apply elem_of_dom. by eapply rep_lookup.
  - by eapply tiles_nodup.
Qed.

Lemma rep_upd m ts nx z lk : (∀ t, t ∈ ts → at_ t ≠ z) → rep m ts nx → rep (<[z := lk]> m) ts nx.
Proof. intros Hz. apply rep_frame. intros t Ht. apply lookup_insert_ne. intros E. by apply (Hz t Ht). Qed.

(** A free block between two sequences of blocks. *)
Lemma assemble m q x s2 r b e (k : list tile) n :
  rep m (Tile X 0 false :: q) x → m !! x = Some (MkLink (fnext r e) s2) → rep m r e → m !! e = Some (MkLink 0 0) →
  tiles_from b q x → 0 < s2 → s2 mod 8 = 0 → tiles_from (x + s2) r e → no_adj q →
  (∀ t', last q = Some t' → used t' = true) → no_adj (Tile x s2 false :: r) →
  taken (q ++ r) = k → free_size (q ++ r) + s2 = n →
  ∃ ts', rep m (Tile X 0 false :: ts') e ∧ m !! e = Some (MkLink 0 0) ∧ tiles_from b ts' e ∧ no_adj ts'
    ∧ taken ts' = k ∧ free_size ts' = n.
Proof.
  intros R Hx Rr He Tq Hs2 Hm Tr Nq Hl Nr Hk Hn. exists (q ++ Tile x s2 false :: r).
  split. { change (rep m ((Tile X 0 false :: q) ++ Tile x s2 false :: r) e). apply rep_app. cbn [fnext used]. split; [exact R|]. split; [exact Hx|done]. }
  split; [done|]. split. { apply tiles_app. exists x. split; [done|]. cbn. done. }
  split. { apply no_adj_join; [by apply no_adj_snoc|done]. }
  rewrite !taken_app, !free_size_app in *. split; [exact Hk|]. cbn. unfold free_size in *. lia.
Qed.

(** Giving the block [a] of [s] octets between [pre] and [post] back. *)
Lemma insert_tiles m pre a s l post b e :
  rep m (Tile X 0 false :: pre) (fnext post e) → rep m post e → m !! e = Some (MkLink 0 0) →
  m !! a = Some (MkLink l s) → tiles_from b pre a → 0 < s → s mod 8 = 0 → tiles_from (a + s) post e →
  no_adj pre → no_adj post → outside b e → e - b < 2 ^ 31 →
  ∃ m' ts', prvInsertBlockIntoFreeList X a e m = Some m' ∧ rep m' (Tile X 0 false :: ts') e
    ∧ m' !! e = Some (MkLink 0 0) ∧ tiles_from b ts' e ∧ no_adj ts'
    ∧ taken ts' = taken (pre ++ post) ∧ free_size ts' = free_size (pre ++ post) + s.
Proof.
  intros R R2 He Ha T1 Hs Hm T2 N1 N2 Out Hsz.
  pose proof (tiles_le _ _ _ T1) as L1. pose proof (tiles_le _ _ _ T2) as L2.
  pose proof (fnext_bounds _ _ _ T2) as Fy. destruct (header_next m post e _ R2 He) as [ly Hly].
  assert (Hpre : ∀ t, t ∈ pre → b <= at_ t ∧ at_ t + sz t <= a ∧ 0 < sz t).
  { intros t Ht. pose proof (tiles_in _ _ _ _ T1 Ht). lia. }
  assert (Hpost : ∀ t, t ∈ post → a + s <= at_ t ∧ at_ t < e).
  { intros t Ht. pose proof (tiles_in _ _ _ _ T2 Ht). lia. }
  destruct (prvInsert_ok m pre a s l post e ly R Ha Hly) as (ts1 & t & us & m' & E & Hu & Hus & EI & Spec).
  { lia. }
  { intros t [->|Ht]%elem_of_cons; [destruct Out; cbn; lia|]. pose proof (Hpre t Ht). lia. }
  { intros t Ht _. pose proof (Hpre t Ht). lia. }
  { lia. }
  { destruct R as [_ R]. by eapply rep_size. }
  assert (Hcase : (ts1 = [] ∧ t = Tile X 0 false ∧ us = pre) ∨ ∃ p1, ts1 = Tile X 0 false :: p1 ∧ pre = p1 ++ t :: us).
  { destruct ts1 as [|t0 p1]; cbn in E; injection E as -> E; [left|right]; eauto. }
  assert (ND : NoDup (at_ <$> Tile X 0 false :: pre)).
  { cbn. constructor; [|by eapply tiles_nodup]. intros (t' & Ex & Ht')%list_elem_of_fmap.
    pose proof (Hpre t' Ht'). destruct Out; lia. }
  enough (∃ ts', rep m' (Tile X 0 false :: ts') e ∧ m' !! e = Some (MkLink 0 0) ∧ tiles_from b ts' e ∧ no_adj ts'
    ∧ taken ts' = taken (pre ++ post) ∧ free_size ts' = free_size (pre ++ post) + s) as (ts' & F)
    by (exists m', ts'; split; [exact EI|exact F]). clear EI.
  destruct (at_ t + sz t =? a) eqn:EL; cbn zeta in Spec; destruct Spec as (Sx & St & Sf).
  - (* joined with the block before *)
    apply Z.eqb_eq in EL. destruct Hcase as [(-> & -> & ->)|(p1 & -> & Ep)].
    { cbn in EL. destruct Out; lia. }
    rewrite Ep in T1. apply tiles_app in T1 as (y1 & Tp & Ht & Hst & Hmt & Tu). subst y1. rewrite EL in Tu.
    assert (us = []) as -> by (by eapply tiles_nil). subst pre.
    rewrite u32_id in Sx by (unfold is_u32; pose proof (tiles_le _ _ _ Tp); lia).
    pose proof (tiles_le _ _ _ Tp).
    destruct (right_merge m (at_ t) (sz t + s) post e ly) as (r & s2 & Er & Tr & Nr & Rr & Ktr & Fr & Hs2 & Hm2 & Sub);
      try done; try lia.
    { replace (at_ t + (sz t + s)) with (a + s) by lia. done. } { by rewrite Zplus_mod, Hm, Hmt. }
    rewrite Er in Sx. change (Tile X 0 false :: p1 ++ [t]) with ((Tile X 0 false :: p1) ++ [t]) in *.
    eapply (assemble m' p1 (at_ t) s2 r); try done.
    + apply rep_app in R as [R _]. cbn [fnext] in R. rewrite Hu in R. eapply rep_frame; [|exact R].
      intros t' Ht'. apply Sf; intros Heq; rewrite fmap_app in ND; apply NoDup_app in ND as (_ & D & _);
      (apply (D (at_ t')); [by apply list_elem_of_fmap_2|rewrite Heq; cbn; set_solver]).
    + eapply rep_frame; [|exact Rr]. intros t' Ht'. pose proof (Hpost t' (Sub t' Ht')). apply Sf; lia.
    + rewrite Sf by lia. done.
    + by eapply no_adj_app_l.
    + intros t' Ht'. destruct (used t') eqn:Hu'; [done|]. exfalso.
      apply last_Some in Ht' as [p2 ->]. rewrite <- app_assoc in N1. apply no_adj_app_r in N1.
      cbn in N1. destruct N1 as [[?|?] _]; congruence.
    + rewrite !taken_app, Ktr, (taken_free t []) by done. cbn. by rewrite app_nil_r.
    + rewrite !free_size_app. unfold free_size in *. cbn. rewrite Hu. lia.
  - (* not joined *)
    apply Z.eqb_neq in EL. specialize (St eq_refl).
    destruct (right_merge m a s post e ly) as (r & s2 & Er & Tr & Nr & Rr & Ktr & Fr & Hs2 & Hm2 & Sub);
      try done; try lia.
    assert (Hta : at_ t < a ∨ at_ t = X).
    { destruct Hcase as [(_ & -> & _)|(p1 & _ & ->)]; [by right|left]. pose proof (Hpre t ltac:(set_solver)). lia. }
    assert (Hte : ∀ z, a + s <= z <= e → z ≠ at_ t).
    { intros z Hz ->. destruct Out, Hta; lia. }
    rewrite Er in Sx. eapply (assemble m' pre a s2 r); try done.
    + rewrite E in R, ND |- *. apply rep_app in R as [Ra Rb]. cbn [fnext rep] in Ra, Rb. rewrite Hu in Ra, Rb.
      destruct Rb as [_ Rb]. rewrite fmap_app in ND. apply NoDup_app in ND as (_ & D & ND). cbn in ND.
      apply NoDup_cons in ND as [D2 _].
      assert (Hin : ∀ t', t' ∈ ts1 ++ us → at_ t' ≠ a).
      { intros t' Ht' Heq. assert (t' ∈ Tile X 0 false :: pre) as [->|Hin]%elem_of_cons by (rewrite E; set_solver).
        - cbn in Heq. destruct Out; lia.
        - pose proof (Hpre t' Hin). lia. }
      apply rep_app. cbn [fnext rep]. rewrite Hu, fnext_used by done. split; [|split; [exact St|]].
      * eapply rep_frame; [|exact Ra]. intros t' Ht'. apply Sf; [apply Hin; set_solver|].
        intros Heq. apply (D (at_ t')); [by apply list_elem_of_fmap_2|]. rewrite Heq. cbn. set_solver.
      * apply (rep_used _ _ (fnext post e)); [done|]. eapply rep_frame; [|exact Rb]. intros t' Ht'. apply Sf; [apply Hin; set_solver|].
        intros Heq. apply D2. rewrite <- Heq. by apply list_elem_of_fmap_2.
    + eapply rep_frame; [|exact Rr]. intros t' Ht'. pose proof (Hpost t' (Sub t' Ht')). apply Sf; [lia|apply Hte; lia].
    + rewrite Sf; [done|lia|apply Hte; lia].
    + intros t' Ht'. destruct (used t') eqn:Hu'; [done|]. exfalso. apply last_Some in Ht' as [p2 Ep].
      destruct Hcase as [(_ & _ & ->)|(p1 & _ & Ep')].
      * rewrite Ep in Hus. apply Forall_app in Hus as [_ [? _]%Forall_cons]. congruence.
      * destruct us as [|u us _] using rev_ind.
        -- rewrite Ep' in T1. rewrite Ep in Ep'. apply tiles_app in T1 as (y1 & _ & ? & _ & _ & E0). cbn in E0. lia.
        -- rewrite Ep in Ep'. rewrite app_comm_cons, app_assoc in Ep'. apply app_inj_tail in Ep' as [_ ->].
           apply Forall_app in Hus as [_ [? _]%Forall_cons]. congruence.
    + by rewrite !taken_app, Ktr.
    + rewrite !free_size_app. lia.
Qed.

(** ** The invariant *)
Record heap_inv st ts (b e : Z) : Prop := {
  inv_end : pxEnd st = e;
  inv_base : 0 < b ∧ b mod 8 = 0;
  inv_size : e - b < 2 ^ 31;
  inv_out : outside b e;
  inv_rep : rep (links st) (Tile X 0 false :: ts) e;
  inv_mark : links st !! e = Some (MkLink 0 0);
  inv_tiles : tiles_from b ts e;
  inv_adj : no_adj ts;
  inv_free : xFreeBytesRemaining st = free_size ts;
  inv_min : 0 <= xMinimumEverFreeBytesRemaining st <= xFreeBytesRemaining st }.

(** [vPortFree] of an allocated block. *)
Lemma free_ok st pre s post b e a :
  heap_inv st (pre ++ Tile a s true :: post) b e →
  ∃ st' ts', vPortFree X (a + xHeapStructSize) st = Some st' ∧ heap_inv st' ts' b e
    ∧ taken ts' = taken pre ++ taken post
    ∧ xFreeBytesRemaining st' = xFreeBytesRemaining st + s.
Proof.
  intros [Ie [Ib Ibm] Is Io Ir Im It Ia If Imin].
  pose proof It as It'. apply tiles_app in It' as (y & T1 & Hy & Hs & Hm & T2). cbn in Hy, Hs, Hm, T2. subst y.
  pose proof (tiles_le _ _ _ T1). pose proof (tiles_le _ _ _ T2).
  unfold vPortFree. unfold xHeapStructSize in *. rewrite (proj2 (Z.eqb_neq (a + 8) 0)) by lia.
  replace (a + 8 - 8) with a by lia.
  rewrite app_comm_cons in Ir. apply rep_app in Ir as [R1 [Ha R2]]. cbn [used fnext at_ sz] in R1, Ha.
  rewrite Ha. cbn [mbind option_bind]. unfold heapBLOCK_IS_ALLOCATED, heapFREE_BLOCK. cbn [xBlockSize pxNextFreeBlock].
  destruct (mask_add s) as (M1 & M2 & _). { unfold heapBLOCK_ALLOCATED_BITMASK. lia. }
  rewrite M1, M2. cbn [Z.eqb negb heapBLOCK_ALLOCATED_BITMASK].
  assert (Hf : ∀ z, z ≠ a → <[a := MkLink 0 s]> (links st) !! z = links st !! z) by (intros; by rewrite lookup_insert_ne).
  pose proof (no_adj_app_l _ _ Ia) as N1. pose proof (no_adj_app_r _ _ Ia) as N2.
  destruct (insert_tiles (<[a := MkLink 0 s]> (links st)) pre a s 0 post b e) as (m' & ts' & EI & R & Mk & T & N & K & F);
    try done.
  - apply rep_upd; [|done]. intros t [->|Ht]%elem_of_cons; [destruct Io; cbn; lia|].
    pose proof (tiles_in _ _ _ _ T1 Ht). lia.
  - apply rep_upd; [|done]. intros t Ht. pose proof (tiles_in _ _ _ _ T2 Ht). lia.
  - rewrite Hf by lia. done.
  - apply lookup_insert_eq.
  - destruct post; [done|]. apply N2.
  - rewrite Ie, EI. cbn [mbind option_bind]. eexists _, ts'. split; [done|].
    pose proof (free_size_bounds _ _ _ T) as Fb. rewrite free_size_app in F.
    assert (Fo : free_size (pre ++ Tile a s true :: post) = free_size pre + free_size post) by (by rewrite free_size_app).
    rewrite (u32_id (xFreeBytesRemaining st + s)) by (unfold is_u32; lia).
    split; [|split; [by rewrite K, taken_app|done]].
    constructor; cbn [pxEnd links xFreeBytesRemaining xMinimumEverFreeBytesRemaining]; done || lia.
Qed.

Lemma block_size_for_bounds w : is_u32 w →
  (block_size_for w = 0 ∧ (w = 0 ∨ heapSIZE_MAX - 16 < w))
  ∨ (0 < w ∧ block_size_for w mod 8 = 0 ∧ w + 8 < block_size_for w <= w + 16).
Proof.
  unfold is_u32, block_size_for. intros Hw. destruct (Z.ltb_spec 0 w); [|left; split; [lia|left; lia]].
  change portBYTE_ALIGNMENT_MASK with (Z.ones 3). rewrite Z.land_ones by lia.
  pose proof (Z.mod_pos_bound w (2 ^ 3) ltac:(lia)) as B. unfold xHeapStructSize, portBYTE_ALIGNMENT, heapADD_WILL_OVERFLOW, heapSIZE_MAX.
  change (2 ^ 3) with 8 in *.
  destruct (Z.ltb_spec (4294967295 - (8 + 8 - w mod 8)) w); [left; split; [done|right; lia]|right].
  split; [done|]. split; [|lia].
  replace (w + (8 + 8 - w mod 8)) with (8 * (w / 8) + 16) by (pose proof (Z_div_mod_eq_full w 8); lia).
  rewrite Zplus_mod, Z.mul_comm, Z_mod_mult. done.
Qed.

(** Every header but those of the list's end and of the block taken. *)
Lemma relink_last m ts1 t1 us y y' : used t1 = false → all_used us → NoDup (at_ <$> ts1 ++ t1 :: us) →
  rep m (ts1 ++ t1 :: us) y →
  m !! at_ t1 = Some (MkLink y (sz t1)) ∧ rep (<[at_ t1 := MkLink y' (sz t1)]> m) (ts1 ++ t1 :: us) y'.
Proof.
  intros Hu Hus ND R. apply rep_app in R as [Ra Rb]. cbn [fnext rep] in Ra, Rb. rewrite Hu in Ra, Rb.
  rewrite fnext_used in Rb by done. destruct Rb as [Ht Rb]. split; [exact Ht|].
  rewrite fmap_app in ND. apply NoDup_app in ND as (_ & D & ND). cbn in ND. apply NoDup_cons in ND as [D2 _].
  apply rep_app. cbn [fnext rep]. rewrite Hu, fnext_used by done. split; [|split].
  - apply rep_upd; [|exact Ra]. intros t Ht' Heq. apply (D (at_ t)); [by apply list_elem_of_fmap_2|].
    rewrite Heq. cbn. set_solver.
  - apply lookup_insert_eq.
  - apply (rep_used _ _ y); [done|]. apply rep_upd; [|exact Rb]. intros t Ht' Heq. apply D2. rewrite <- Heq.
    by apply list_elem_of_fmap_2.
Qed.

Lemma take_block_ok st ts b e ts1 t1 us t2 post want :
  heap_inv st ts b e → Tile X 0 false :: ts = ts1 ++ t1 :: us ++ t2 :: post →
  t2 ∈ ts → used t1 = false → all_used us → used t2 = false → 0 < want <= sz t2 → want mod 8 = 0 →
  ∃ st' pre s post', take_block X (at_ t1) (at_ t2) want st = Some st' ∧ ts = pre ++ t2 :: post
    ∧ heap_inv st' (pre ++ Tile (at_ t2) s true :: post') b e ∧ taken post' = taken post
    ∧ want <= s < want + 24 ∧ xFreeBytesRemaining st' = xFreeBytesRemaining st - s
    ∧ links st !! at_ t1 = Some (MkLink (at_ t2) (sz t1)).
Proof.
  intros [Ie [Ib Ibm] Is Io Ir Im It Ia If Imin] E Hin Hu1 Hus Hu2 Hw Hwm.
  assert (Hpre : ∃ pre, ts = pre ++ t2 :: post ∧ Tile X 0 false :: pre = ts1 ++ t1 :: us).
  { rewrite app_comm_cons, app_assoc in E. destruct (ts1 ++ t1 :: us) as [|x pre] eqn:E2.
    { by destruct ts1. }
    cbn in E. injection E as <- ->. by exists pre. }
  destruct Hpre as (pre & -> & Epre). apply tiles_app in It as (y & T1 & Hy & Hs2 & Hm2 & T2). subst y.
  pose proof (tiles_le _ _ _ T1). pose proof (tiles_le _ _ _ T2). pose proof (fnext_bounds _ _ _ T2) as Fb.
  assert (Hpre : ∀ t, t ∈ pre → b <= at_ t ∧ at_ t + sz t <= at_ t2 ∧ 0 < sz t).
  { intros t Ht. pose proof (tiles_in _ _ _ _ T1 Ht). lia. }
  assert (Hpost : ∀ t, t ∈ post → at_ t2 + sz t2 <= at_ t ∧ at_ t < e).
  { intros t Ht. pose proof (tiles_in _ _ _ _ T2 Ht). lia. }
  assert (HX : ∀ z, b <= z <= e → X ≠ z) by (intros z Hz; destruct Io; lia).
  assert (Hxpre : ∀ t z, t ∈ Tile X 0 false :: pre → at_ t2 <= z <= e → at_ t ≠ z).
  { intros t z [->|Ht]%elem_of_cons Hz; [apply HX; lia|]. pose proof (tiles_in _ _ _ _ T1 Ht). lia. }
  assert (ND : NoDup (at_ <$> Tile X 0 false :: pre)).
  { cbn. constructor; [|by eapply tiles_nodup]. intros (t' & Ex & Ht')%list_elem_of_fmap.
    pose proof (Hpre t' Ht'). apply (HX (at_ t')); [lia|done]. }
  rewrite app_comm_cons in Ir. apply rep_app in Ir as [R1 [Ht2 R2]]. cbn [fnext] in R1. rewrite Hu2 in R1, Ht2.
  assert (Ht1 : t1 ∈ Tile X 0 false :: pre) by (rewrite Epre; set_solver).
  rewrite Epre in R1, ND.
  destruct (relink_last _ _ _ _ _ (fnext post e) Hu1 Hus ND R1) as [Hh1 Rr]. rewrite <- Epre in Rr, ND.
  unfold take_block. rewrite Hh1. cbn [mbind option_bind]. rewrite Ht2. cbn [mbind option_bind xBlockSize pxNextFreeBlock].
  set (m1 := <[at_ t1:=_]> (links st)) in *.
  assert (Hf1 : ∀ z, at_ t2 <= z <= e → m1 !! z = links st !! z).
  { intros z Hz. unfold m1. apply lookup_insert_ne. by apply Hxpre. }
  rewrite (u32_id (sz t2 - want)) by (unfold is_u32; lia). unfold heapMINIMUM_BLOCK_SIZE.
  pose proof (free_size_le_block _ _ _ t2 (proj2 (tiles_app b pre (t2 :: post) e) (ex_intro _ (at_ t2) (conj T1 (conj eq_refl (conj Hs2 (conj Hm2 T2)))))) Hin Hu2) as Hfl.
  rewrite free_size_app in If, Hfl. cbn [free_size foldr] in If, Hfl. rewrite Hu2 in If, Hfl.
  pose proof (free_size_bounds _ _ _ T1). pose proof (free_size_bounds _ _ _ T2) as FB2. unfold free_size in FB2.
  assert (Fin : ∀ m2 s post', at_ t2 + s + (sz t2 - s) = at_ t2 + sz t2 →
    m2 !! at_ t2 = Some (MkLink (fnext post e) s) → rep m2 (Tile X 0 false :: pre) (fnext post' e) →
    rep m2 post' e → m2 !! e = Some (MkLink 0 0) → tiles_from (at_ t2 + s) post' e → no_adj post' →
    taken post' = taken post → free_size post' = free_size post + (sz t2 - s) → want <= s < want + 24 → s mod 8 = 0 →
    s <= sz t2 →
    ∃ st' pre0 s0 post0, (blk ← m2 !! at_ t2;
      let free := u32 (xFreeBytesRemaining st - xBlockSize blk) in
      let min := if free <? xMinimumEverFreeBytesRemaining st then free else xMinimumEverFreeBytesRemaining st in
      let m := <[at_ t2 := MkLink 0 (xBlockSize (heapALLOCATE_BLOCK blk))]> m2 in
      Some (MkHeap4 m (bytes st) e free min
        (u32 (xNumberOfSuccessfulAllocations st + 1)) (xNumberOfSuccessfulFrees st))) = Some st'
      ∧ pre ++ t2 :: post = pre0 ++ t2 :: post ∧ heap_inv st' (pre0 ++ Tile (at_ t2) s0 true :: post0) b e
      ∧ taken post0 = taken post ∧ want <= s0 < want + 24
      ∧ xFreeBytesRemaining st' = xFreeBytesRemaining st - s0
      ∧ Some (MkLink (at_ t2) (sz t1)) = Some (MkLink (at_ t2) (sz t1))).
  { intros m2 s post' _ Hb R1' R2' Mk T2' N' K' F' Hws Hsm Hss. rewrite Hb. cbn [mbind option_bind xBlockSize].
    rewrite allocate_size by (unfold heapBLOCK_ALLOCATED_BITMASK; lia). cbn zeta. cbn [xBlockSize].
    unfold free_size in F'. rewrite (u32_id (_ - s)) by (unfold is_u32; lia).
    eexists _, pre, s, post'. split; [done|]. split; [done|]. split; [|done].
    constructor; cbn [pxEnd links xFreeBytesRemaining xMinimumEverFreeBytesRemaining].
    - done. - done. - done. - done.
    - rewrite app_comm_cons. apply rep_app. cbn [fnext used]. split.
      + apply rep_upd; [|done]. intros t Ht. apply Hxpre; [done|lia].
      + cbn [rep used at_ sz]. split; [apply lookup_insert_eq|]. apply rep_upd; [|done]. intros t Ht. pose proof (tiles_in _ _ _ _ T2' Ht). lia.
    - rewrite lookup_insert_ne by lia. done.
    - apply tiles_app. exists (at_ t2). split; [done|]. cbn. split; [done|]. split; [lia|]. done.
    - apply no_adj_join.
      + apply (no_adj_replace t2 (Tile (at_ t2) s true) pre []); [by left|].
        replace (pre ++ t2 :: post) with ((pre ++ [t2]) ++ post) in Ia by (by rewrite <- app_assoc). by apply no_adj_app_l in Ia.
      + destruct post'; [done|]. split; [by left|done].
    - rewrite free_size_app. cbn. unfold free_size in *. lia.
    - case_match; lia. }
  pose proof (no_adj_app_r _ _ Ia) as Ia2.
  assert (N2 : no_adj post) by (destruct post; [done|apply Ia2]).
  assert (R2' : rep m1 post e).
  { eapply rep_frame; [|exact R2]. intros t Ht. pose proof (Hpost t Ht). apply Hf1. lia. }
  destruct (Z.ltb_spec 16 (sz t2 - want)) as [Hsplit|Hno].
  - set (n := at_ t2 + want). set (old := default _ _).
    set (m2 := <[at_ t2:=_]> (<[n:=_]> m1)).
    assert (Hf2 : ∀ z, z ≠ at_ t2 → z ≠ n → m2 !! z = m1 !! z).
    { intros z Hz1 Hz2. unfold m2. by rewrite !lookup_insert_ne by done. }
    destruct (header_next m1 post e (MkLink 0 0) R2') as [ly Hly]; [rewrite Hf1 by lia; exact Im|].
    assert (R12 : rep m2 (Tile X 0 false :: pre) (fnext post e)).
    { eapply rep_frame; [|exact Rr]. intros t Ht. apply Hf2; apply Hxpre; try done; unfold n; lia. }
    assert (Hm2t2 : m2 !! at_ t2 = Some (MkLink (fnext post e) want)) by (unfold m2; apply lookup_insert_eq).
    destruct (prvInsert_ok m2 pre n (sz t2 - want) (pxNextFreeBlock old) post e ly) as (ts1' & t1' & us' & m3 & E3 & Hu1' & Hus' & EI & Spec).
    + exact R12.
    + unfold m2. rewrite lookup_insert_ne by (unfold n; lia). apply lookup_insert_eq.
    + rewrite Hf2 by (unfold n; lia). exact Hly.
    + unfold n. lia.
    + intros t Ht. split; apply Hxpre; try done; unfold n; lia.
    + intros t Ht _. pose proof (Hpre t Ht). unfold n. lia.
    + unfold n. lia.
    + destruct R12 as [_ R12]. by eapply rep_size.
    + assert (Ht1' : t1' ∈ Tile X 0 false :: pre) by (rewrite E3; set_solver).
      rewrite (proj2 (Z.eqb_neq (at_ t1' + sz t1') n)) in Spec.
      2:{ apply elem_of_cons in Ht1' as [->|Ht]; [cbn; rewrite Z.add_0_r; apply HX; unfold n; lia|].
          pose proof (Hpre _ Ht). unfold n. lia. }
      cbn zeta in Spec. destruct Spec as (Sn & St & Sf). specialize (St eq_refl).
      assert ((n + (sz t2 - want) =? fnext post e) && negb (fnext post e =? e) = false) as E0.
      { destruct (Z.eqb_spec (n + (sz t2 - want)) (fnext post e)) as [Q|Q]; [|done]. cbn.
        rewrite (fnext_far t2 (at_ t2 + sz t2) post e) by (done || unfold n in *; lia). by rewrite Z.eqb_refl. }
      rewrite E0 in Sn. rewrite Ie, EI. cbn [mbind option_bind].
      assert (Ht1n : ∀ z, at_ t2 <= z <= e → z ≠ at_ t1') by (intros z Hz Heq; by apply (Hxpre t1' z Ht1' Hz)).
      apply (Fin m3 want (Tile n (sz t2 - want) false :: post)).
      * lia.
      * rewrite Sf; [exact Hm2t2|unfold n; lia|apply Ht1n; lia].
      * cbn [fnext used at_]. rewrite E3 in R12, ND |- *.
        destruct (relink_last m2 ts1' t1' us' _ n Hu1' Hus' ND R12) as [_ R3].
        eapply rep_frame; [|exact R3]. intros t Ht. destruct (decide (at_ t = at_ t1')) as [->|Hne].
        -- by rewrite lookup_insert_eq.
        -- rewrite lookup_insert_ne by done. apply Sf; [|done]. rewrite <- E3 in Ht. apply Hxpre; [done|unfold n; lia].
      * cbn [rep fnext used at_ sz]. split; [exact Sn|]. eapply rep_frame; [|exact R2']. intros t Ht.
        pose proof (Hpost t Ht). rewrite Sf; [apply Hf2; unfold n; lia|unfold n; lia|apply Ht1n; lia].
      * rewrite Sf, Hf2, Hf1; [exact Im|lia|lia|unfold n; lia|unfold n; lia|apply Ht1n; lia].
      * cbn [tiles_from at_ sz]. unfold n. split; [done|]. split; [lia|].
        split; [by rewrite Zminus_mod, Hm2, Hwm|]. by replace (at_ t2 + want + (sz t2 - want)) with (at_ t2 + sz t2) by lia.
      * destruct post as [|t3 post]; [done|]. destruct Ia2 as [[?|?] ?]; [congruence|]. split; [by right|done].
      * by apply taken_free.
      * unfold free_size. cbn. lia.
      * lia.
      * done.
      * lia.
  - rewrite Ie. cbn [mbind option_bind]. apply (Fin m1 (sz t2) post); try done; try lia.
    + rewrite Hf1 by lia. exact Ht2.
    + rewrite Hf1 by lia. exact Im.
Qed.

Lemma malloc_ok st ts b e w :
  heap_inv st ts b e → is_u32 w →
  ∃ st' p, pvPortMalloc ucHeap X w st = Some (st', p) ∧
    ((p = 0 ∧ st' = st ∧ (block_size_for w = 0 ∨ ∀ t, t ∈ ts → used t = false → sz t < block_size_for w))
     ∨ ∃ ts' k1 k2 s, heap_inv st' ts' b e ∧ taken ts = k1 ++ k2
         ∧ taken ts' = k1 ++ Tile (p - xHeapStructSize) s true :: k2
         ∧ w + xHeapStructSize < s ∧ p mod 8 = 0 ∧ 0 < p ∧ xFreeBytesRemaining st' = xFreeBytesRemaining st - s).
Proof.
  intros K Hw. pose proof K as [Ie [Ib Ibm] Is Io Ir Im It Ia If Imin]. pose proof (tiles_le _ _ _ It).
  unfold pvPortMalloc. rewrite Ie, (proj2 (Z.eqb_neq e 0)), Ie by lia.
  pose proof (free_size_bounds _ _ _ It).
  assert (Hall : ∀ t, t ∈ ts → used t = false → sz t <= xFreeBytesRemaining st).
  { intros t Ht Hu. rewrite If. by eapply free_size_le_block. }
  destruct (heapBLOCK_SIZE_IS_VALID (block_size_for w)) eqn:EV.
  2:{ exists st, 0. split; [done|]. left. split_and!; [done..|]. right. intros t Ht Hu. pose proof (Hall t Ht Hu).
      destruct (decide (sz t < block_size_for w)); [done|]. exfalso.
      destruct (mask_add (block_size_for w)) as (_ & _ & M).
      { unfold heapBLOCK_ALLOCATED_BITMASK. destruct (block_size_for_bounds w Hw) as [[-> _]|]; lia. }
      unfold heapBLOCK_SIZE_IS_VALID in EV. rewrite M in EV. done. }
  destruct (Z.ltb_spec 0 (block_size_for w)); cbn [andb].
  2:{ exists st, 0. split; [done|]. left. split_and!; [done..|]. left.
      destruct (block_size_for_bounds w Hw) as [[-> _]|]; lia. }
  destruct (Z.leb_spec (block_size_for w) (xFreeBytesRemaining st)).
  2:{ exists st, 0. split; [done|]. left. split_and!; [done..|]. right. intros t Ht Hu. pose proof (Hall t Ht Hu). lia. }
  destruct (block_size_for_bounds w Hw) as [[B _]|(Hw0 & Bm & B)]; [lia|].
  pose proof Ir as [HX Ir']. cbn [used at_ sz] in HX. rewrite HX. cbn [mbind option_bind pxNextFreeBlock].
  assert (Hpos : ∀ t, t ∈ ts → 0 < at_ t) by (intros t Ht; pose proof (tiles_in _ _ _ _ It Ht); lia).
  pose proof (fnext_bounds _ _ _ It). destruct Io as [?|?]; (
  destruct (search_loop_ok (links st) (block_size_for w) e ltac:(lia) Im ts (Tile X 0 false) [] (size (links st)) HX Ir'
    eq_refl ltac:(constructor) ltac:(lia) Hpos ltac:(lia) ltac:(by eapply rep_size)) as [S1 S2];
  cbn [at_] in S1, S2; destruct (search_loop (size (links st)) X (fnext ts e) _ (links st)) as [[pr bl]|]; [|done];
  cbn [mbind option_bind]; destruct (S2 pr bl eq_refl) as [[-> Hno]|(ts1 & t1 & us & t2 & post & E & -> & -> & Hin & Hu1 & Hus & Hu2 & Hs)];
  [rewrite Z.eqb_refl; cbn [negb]; exists st, 0; split; [done|]; left; split_and!; [done..|]; by right|];
  pose proof (tiles_in _ _ _ _ It Hin);
  rewrite (proj2 (Z.eqb_neq (at_ t2) e)) by lia; cbn [negb];
  destruct (take_block_ok st ts b e ts1 t1 us t2 post (block_size_for w) K E Hin Hu1 Hus Hu2 ltac:(lia) Bm)
    as (st' & pre & s & post' & ET & Ets & K' & Kt & Hs' & Fr & Hh); rewrite Hh; cbn [mbind option_bind pxNextFreeBlock];
  rewrite ET; cbn [mbind option_bind]; eexists st', (at_ t2 + xHeapStructSize); split; [done|]; right;
  exists (pre ++ Tile (at_ t2) s true :: post'), (taken pre), (taken post), s; unfold xHeapStructSize;
  split; [done|]; split; [by rewrite Ets, taken_app, taken_free|];
  split; [rewrite taken_app, taken_used, Kt by done; do 2 f_equal; f_equal; lia|];
  split; [lia|]; split; [|split; [lia|done]];
  rewrite Zplus_mod, (tiles_aligned _ _ _ _ Ibm It Hin); done).
Qed.

Lemma land_align x : 0 <= x < 2 ^ 32 → Z.land x (heapSIZE_MAX - portBYTE_ALIGNMENT_MASK) = 8 * (x / 8).
Proof.
  intros Hx. change (heapSIZE_MAX - portBYTE_ALIGNMENT_MASK) with (Z.ldiff (Z.ones 32) (Z.ones 3)).
  rewrite (Z.ldiff_land (Z.ones 32)), Z.land_assoc, Z.land_ones, (Z.mod_small x) by lia.
  rewrite <- Z.ldiff_land, Z.ldiff_ones_r by lia. rewrite Z.shiftl_mul_pow2, Z.shiftr_div_pow2 by lia.
  change (2 ^ 3) with 8. lia.
Qed.

(** The array [ucHeap] lies in the address space, [xStart] outside of it. *)
Definition placed : Prop :=
  0 < ucHeap ∧ ucHeap + configTOTAL_HEAP_SIZE + 8 < 2 ^ 32
  ∧ (X < ucHeap ∨ ucHeap + configTOTAL_HEAP_SIZE < X).

Definition heap_base : Z := 8 * ((ucHeap + 7) / 8).
Definition heap_end : Z := 8 * ((ucHeap + configTOTAL_HEAP_SIZE - 8) / 8).

Lemma init_ok : placed →
  heap_inv (prvHeapInit ucHeap X (heap_reset X)) [Tile heap_base (heap_end - heap_base) false] heap_base heap_end.
Proof.
  intros (H1 & H2 & H3). unfold prvHeapInit.
  assert (E : (if negb (Z.land ucHeap portBYTE_ALIGNMENT_MASK =? 0)
    then (Z.land (ucHeap + (portBYTE_ALIGNMENT - 1)) (heapSIZE_MAX - portBYTE_ALIGNMENT_MASK),
          u32 (configTOTAL_HEAP_SIZE - (Z.land (ucHeap + (portBYTE_ALIGNMENT - 1)) (heapSIZE_MAX - portBYTE_ALIGNMENT_MASK) - ucHeap)))
    else (ucHeap, configTOTAL_HEAP_SIZE)) = (heap_base, ucHeap + configTOTAL_HEAP_SIZE - heap_base)).
  { unfold configTOTAL_HEAP_SIZE in *. change portBYTE_ALIGNMENT_MASK with (Z.ones 3) at 1. rewrite Z.land_ones by lia.
    change (2 ^ 3) with 8. unfold portBYTE_ALIGNMENT. rewrite land_align by lia. unfold heap_base.
    destruct (Z.eqb_spec (ucHeap mod 8) 0) as [Z0|Z0]; cbn [negb].
    - assert (8 * ((ucHeap + 7) / 8) = ucHeap) as -> by (Z.to_euclidean_division_equations; lia). f_equal. lia.
    - replace (ucHeap + (8 - 1)) with (ucHeap + 7) by lia. f_equal. rewrite u32_id; [lia|].
      unfold is_u32. Z.to_euclidean_division_equations; lia. }
  cbn zeta. rewrite E. cbn iota.
  assert (Hbase : ucHeap <= heap_base < ucHeap + 8) by (unfold heap_base; Z.to_euclidean_division_equations; lia).
  unfold configTOTAL_HEAP_SIZE, xHeapStructSize in *. rewrite land_align by lia.
  replace (heap_base + (ucHeap + 1048576 - heap_base) - 8) with (ucHeap + configTOTAL_HEAP_SIZE - 8)
    by (unfold configTOTAL_HEAP_SIZE; lia). fold heap_end.
  assert (Hend : ucHeap + 1048576 - 16 < heap_end <= ucHeap + 1048576 - 8)
    by (unfold heap_end, configTOTAL_HEAP_SIZE; Z.to_euclidean_division_equations; lia).
  assert (Hm : heap_base mod 8 = 0) by (unfold heap_base; rewrite Z.mul_comm; apply Z_mod_mult).
  assert (Hme : heap_end mod 8 = 0) by (unfold heap_end; rewrite Z.mul_comm; apply Z_mod_mult).
  rewrite u32_id by (unfold is_u32; lia).
  constructor; cbn [pxEnd links xFreeBytesRemaining xMinimumEverFreeBytesRemaining].
  - done.
  - lia.
  - lia.
  - unfold outside. lia.
  - cbn [rep at_ used fnext sz]. rewrite (lookup_insert_ne _ heap_base X) by lia.
    rewrite lookup_insert_ne by lia. rewrite !lookup_insert_eq. done.
  - rewrite lookup_insert_ne by lia. apply lookup_insert_eq.
  - cbn. split; [done|]. split; [lia|]. split; [rewrite Zminus_mod, Hm, Hme; done|lia].
  - done.
  - cbn. lia.
  - lia.
Qed.

Lemma vPortFree_block st ts b e k1 k2 a s :
  heap_inv st ts b e → taken ts = k1 ++ Tile a s true :: k2 →
  ∃ st' ts', vPortFree X (a + xHeapStructSize) st = Some st' ∧ heap_inv st' ts' b e
    ∧ taken ts' = k1 ++ k2 ∧ xFreeBytesRemaining st' = xFreeBytesRemaining st + s.
Proof.
  intros K E.
  assert (∃ pre post, ts = pre ++ Tile a s true :: post ∧ taken pre = k1 ∧ taken post = k2) as (pre & post & -> & <- & <-).
  { clear K. revert k1 E. induction ts as [|t ts IH]; intros k1 E; [by destruct k1|].
    destruct (used t) eqn:Hu.
    - rewrite taken_used in E by done. destruct k1 as [|t' k1]; injection E as -> E.
      + by exists [], ts.
      + destruct (IH k1 E) as (pre & post & -> & <- & <-). exists (t' :: pre), post. by rewrite taken_used.
    - rewrite taken_free in E by done. destruct (IH k1 E) as (pre & post & -> & <- & <-).
      exists (t :: pre), post. by rewrite taken_free. }
  by apply free_ok.
Qed.

(** ** A client of the heap

    [live] is the list of the pointers it holds, with the sizes it asked for. *)
Inductive heap_step : heap4 * list (Z * Z) → heap4 * list (Z * Z) → Prop :=
  | step_malloc w st st' p live : is_u32 w → pvPortMalloc ucHeap X w st = Some (st', p) →
      heap_step (st, live) (st', if p =? 0 then live else (p, w) :: live)
  | step_free p w st st' live1 live2 : vPortFree X p st = Some st' →
      heap_step (st, live1 ++ (p, w) :: live2) (st', live1 ++ live2).

Definition held (x : tile * Z) : Z * Z := (at_ x.1 + xHeapStructSize, x.2).

Definition blocks_of ts (live : list (Z * Z)) : Prop :=
  ∃ l : list (tile * Z), l.*1 = taken ts ∧ live ≡ₚ held <$> l ∧ Forall (λ x, x.2 + xHeapStructSize <= sz x.1) l.

Definition client_inv (s : heap4 * list (Z * Z)) : Prop :=
  s = (heap_reset X, []) ∨ ∃ ts, heap_inv s.1 ts heap_base heap_end ∧ blocks_of ts s.2.

Lemma malloc_reset w : placed → pvPortMalloc ucHeap X w (heap_reset X) = pvPortMalloc ucHeap X w (prvHeapInit ucHeap X (heap_reset X)).
Proof.
  intros P. pose proof (init_ok P) as K. pose proof (inv_end _ _ _ _ K) as Ie.
  pose proof (tiles_le _ _ _ (inv_tiles _ _ _ _ K)). pose proof (inv_base _ _ _ _ K).
  unfold pvPortMalloc. rewrite Ie, (proj2 (Z.eqb_neq heap_end 0)) by lia. cbn [pxEnd heap_reset Z.eqb]. by rewrite Ie.
Qed.

Lemma fst_app_inv (l : list (tile * Z)) k1 k2 : l.*1 = k1 ++ k2 → ∃ l1 l2, l = l1 ++ l2 ∧ l1.*1 = k1 ∧ l2.*1 = k2.
Proof. intros E. apply fmap_app_inv in E as (l1 & l2 & -> & -> & ->). eauto. Qed.

Lemma step_inv s s' : placed → client_inv s → heap_step s s' → client_inv s'.
Proof.
  intros P I S. destruct S as [w st st' p live Hw E|p w st st' live1 live2 E].
  - assert (∃ ts0 st0, heap_inv st0 ts0 heap_base heap_end ∧ blocks_of ts0 live
        ∧ pvPortMalloc ucHeap X w st0 = Some (st', p)) as (ts0 & st0 & K & L & E').
    { destruct I as [[= -> ->]|(ts & K & L)]; [|eauto]. exists [Tile heap_base (heap_end - heap_base) false].
      eexists. split; [exact (init_ok P)|]. split; [by exists []|]. by rewrite <- malloc_reset. }
    destruct (malloc_ok st0 ts0 _ _ w K Hw) as (st1 & p1 & E1 & R). rewrite E' in E1. injection E1 as <- <-.
    right. destruct R as [(-> & -> & _)|(ts' & k1 & k2 & s & K' & T & T' & Hs & _ & Hp & _)]; [by exists ts0|].
    exists ts'. rewrite (proj2 (Z.eqb_neq p 0)) by lia. split; [done|]. cbn [snd].
    destruct L as (l & El & Pl & Fl). rewrite T in El. apply fst_app_inv in El as (l1 & l2 & -> & E1 & E2).
    exists (l1 ++ (Tile (p - xHeapStructSize) s true, w) :: l2). split; [by rewrite T', fmap_app, E1; cbn; rewrite E2|].
    rewrite fmap_app in Pl. split.
    + rewrite Pl, fmap_app. cbn. unfold held at 4. cbn. replace (p - xHeapStructSize + xHeapStructSize) with p by lia.
      by rewrite Permutation_middle.
    + apply Forall_app in Fl as [F1 F2]. apply Forall_app. split; [done|]. constructor; [cbn; lia|done].
  - right. destruct I as [[= -> I]|(ts & K & L)]; [by destruct live1|]. cbn [fst snd] in *.
    destruct L as (l & El & Pl & Fl). assert (Hp : (p, w) ∈ held <$> l) by (rewrite <- Pl; set_solver).
    apply list_elem_of_fmap in Hp as ([t w'] & [= -> ->] & Hin). cbn [fst snd] in *.
    apply list_elem_of_split in Hin as (l1 & l2 & ->). rewrite fmap_app in El. cbn in El.
    assert (Hu : t ∈ ts ∧ used t = true) by (apply elem_of_taken; rewrite <- El; set_solver).
    destruct Hu as [Ht Hu]. symmetry in El. destruct t as [a s u]. cbn in Hu. subst u.
    destruct (vPortFree_block st ts _ _ _ _ a s K El) as (st1 & ts' & E1 & K' & T' & _). cbn [at_] in E. rewrite E in E1.
    injection E1 as <-. exists ts'. split; [done|]. exists (l1 ++ l2). split; [by rewrite T', fmap_app|].
    rewrite !fmap_app in *. cbn in Pl. rewrite <- !Permutation_middle in Pl. apply Permutation_cons_inv in Pl.
    split; [done|]. apply Forall_app in Fl as [F1 F2]. apply Forall_cons in F2 as [_ F2]. by apply Forall_app.
Qed.

(** C35. [pvPortMalloc] keeps the heap a sequence of blocks and always returns.
    NULL means that no free block is large enough and changes nothing;
    otherwise the pointer is aligned, its block is new, holds more than the
    octets asked for, and every other allocated block is as before. *)
Theorem pvPortMalloc_correct st ts b e w :
  heap_inv st ts b e → is_u32 w →
  ∃ st' p, pvPortMalloc ucHeap X w st = Some (st', p) ∧
    ((p = 0 ∧ st' = st ∧ (block_size_for w = 0 ∨ ∀ t, t ∈ ts → used t = false → sz t < block_size_for w))
     ∨ ∃ ts' k1 k2 s, heap_inv st' ts' b e ∧ taken ts = k1 ++ k2
         ∧ taken ts' = k1 ++ Tile (p - xHeapStructSize) s true :: k2
         ∧ w + xHeapStructSize < s ∧ p mod 8 = 0 ∧ 0 < p ∧ xFreeBytesRemaining st' = xFreeBytesRemaining st - s).
Proof. apply malloc_ok. Qed.

(** [vPortFree] of an allocated block gives its octets back, joins it with
    its free neighbours and leaves every other allocated block as it was. *)
Theorem vPortFree_correct st ts b e k1 k2 a s :
  heap_inv st ts b e → taken ts = k1 ++ Tile a s true :: k2 →
  ∃ st' ts', vPortFree X (a + xHeapStructSize) st = Some st' ∧ heap_inv st' ts' b e
    ∧ taken ts' = k1 ++ k2 ∧ xFreeBytesRemaining st' = xFreeBytesRemaining st + s.
Proof. apply vPortFree_block. Qed.

Lemma single_free_block st ts b e : heap_inv st ts b e → b < e → taken ts = [] →
  ts = [Tile b (e - b) false].
Proof. intros K. eapply single_free; [apply (inv_tiles _ _ _ _ K)|apply (inv_adj _ _ _ _ K)]. Qed.

(** C15. Whatever sequence of allocations and releases of live pointers a
    program makes from reset on: the live pointers are aligned, the octets
    asked for at each lie in the heap and do not overlap those of another, no
    call fails, and once all are released the heap is either still untouched
    or a single free block again. *)
Theorem heap4_client_safe st live :
  placed → rtc heap_step (heap_reset X, []) (st, live) →
  (∀ p w, (p, w) ∈ live → p mod 8 = 0 ∧ heap_base < p ∧ p + w <= heap_end ∧
     ∀ q v, (q, v) ∈ live → q ≠ p → q + v < p ∨ p + w < q)
  ∧ (∀ p w, (p, w) ∈ live → is_Some (vPortFree X p st))
  ∧ (∀ w, is_u32 w → is_Some (pvPortMalloc ucHeap X w st))
  ∧ (live = [] → st = heap_reset X ∨ xFreeBytesRemaining st = heap_end - heap_base
       ∧ links st !! X = Some (MkLink heap_base 0) ∧ links st !! heap_base = Some (MkLink heap_end (heap_end - heap_base))).
Proof.
  intros P R. assert (I : client_inv (st, live)).
  { remember (heap_reset X, []) as s0 eqn:E0. remember (st, live) as s1 eqn:E1.
    assert (client_inv s0) as I0 by (left; done). clear E0 E1.
    induction R as [s|s s' s'' S R IH]; [done|]. apply IH. by eapply step_inv. }
  destruct I as [[= -> ->]|(ts & K & l & El & Pl & Fl)].
  { split_and!; [set_solver|set_solver| |by left]. intros w Hw. rewrite malloc_reset by done.
    destruct (malloc_ok _ _ _ _ w (init_ok P) Hw) as (? & ? & -> & _). by eexists. }
  cbn [fst snd] in K, Pl. pose proof (inv_tiles _ _ _ _ K) as T. pose proof (inv_base _ _ _ _ K) as [B0 Bm].
  assert (Hlive : ∀ p w, (p, w) ∈ live → ∃ t, t ∈ ts ∧ used t = true ∧ p = at_ t + xHeapStructSize ∧ w + xHeapStructSize <= sz t).
  { intros p w Hp. rewrite Pl in Hp. apply list_elem_of_fmap in Hp as ([t w'] & [= -> ->] & Hx).
    rewrite Forall_forall in Fl. specialize (Fl _ Hx). exists t.
    assert (t ∈ taken ts) as [? ?]%elem_of_taken by (rewrite <- El; apply list_elem_of_fmap; by exists (t, w')). done. }
  assert (Hbe : heap_base < heap_end).
  { destruct P as (? & ? & _). unfold heap_base, heap_end, configTOTAL_HEAP_SIZE. Z.to_euclidean_division_equations; lia. }
  split; [|split; [|split]].
  - intros p w Hp. destruct (Hlive p w Hp) as (t & Ht & _ & -> & Hw). pose proof (tiles_in _ _ _ _ T Ht).
    unfold xHeapStructSize in *. split; [by rewrite Zplus_mod, (tiles_aligned _ _ _ _ Bm T Ht)|].
    split; [lia|]. split; [lia|]. intros q v Hq Hne. destruct (Hlive q v Hq) as (t' & Ht' & _ & -> & Hv).
    unfold xHeapStructSize in *. destruct (tiles_apart _ _ _ t t' T Ht Ht') as [->|?]; [done|lia].
  - intros p w Hp. destruct (Hlive p w Hp) as (t & Ht & Hu & -> & _).
    apply list_elem_of_split in Ht as (pre & post & ->). destruct t as [a s u]. cbn in Hu. subst u.
    destruct (free_ok st pre s post _ _ a K) as (? & ? & E & _). cbn [at_]. rewrite E. by eexists.
  - intros w Hw. destruct (malloc_ok _ _ _ _ w K Hw) as (? & ? & -> & _). by eexists.
  - intros ->. right. apply Permutation_nil, fmap_nil_inv in Pl. subst l. cbn in El. symmetry in El.
    pose proof (single_free_block _ _ _ _ K Hbe El) as Ets. rewrite Ets in *.
    destruct (inv_rep _ _ _ _ K) as (H1 & H2 & _). split; [rewrite (inv_free _ _ _ _ K); cbn; lia|]. done.
Qed.
End heap.

(** ** Witnesses: the array at 4100, [xStart] at 16 *)
Lemma placed_4100 : placed 4100 16.
Proof. unfold placed, configTOTAL_HEAP_SIZE. lia. Qed.

Lemma pvPortMalloc_correct_witness :
  ∃ st' p, pvPortMalloc 4100 16 100 (prvHeapInit 4100 16 (heap_reset 16)) = Some (st', p) ∧ p = 4112.
Proof.
  assert (W : is_u32 100) by (unfold is_u32; lia).
  destruct (pvPortMalloc_correct 4100 16 _ _ _ _ 100 (init_ok 4100 16 placed_4100) W) as (st' & p & E & _).
  exists st', p. split; [exact E|]. assert (V : snd <$> Some (st', p) = Some 4112) by (rewrite <- E; by vm_compute).
  by injection V.
Defined.

Lemma heap4_client_safe_witness :
  ∃ st, rtc (heap_step 4100 16) (heap_reset 16, []) (st, [(4224, 50); (4112, 100)]) ∧ is_Some (vPortFree 16 4112 st).
Proof.
  destruct (pvPortMalloc 4100 16 100 (heap_reset 16)) as [[s1 p1]|] eqn:E1; 
    [|assert (V : pvPortMalloc 4100 16 100 (heap_reset 16) ≠ None) by (by vm_compute); destruct (V E1)].
  assert (p1 = 4112) as ->.
  { assert (V : snd <$> Some (s1, p1) = Some 4112) by (rewrite <- E1; by vm_compute). by injection V. }
  destruct (pvPortMalloc 4100 16 50 s1) as [[s2 p2]|] eqn:E2.
  2:{ assert (V : (pvPortMalloc 4100 16 100 (heap_reset 16) ≫= λ x, pvPortMalloc 4100 16 50 x.1) ≠ None) by by vm_compute.
      rewrite E1 in V. destruct (V E2). }
  assert (p2 = 4224) as ->.
  { assert (V : snd <$> (pvPortMalloc 4100 16 100 (heap_reset 16) ≫= λ x, pvPortMalloc 4100 16 50 x.1) = Some 4224) by by vm_compute.
    rewrite E1 in V. change (snd <$> pvPortMalloc 4100 16 50 s1 = Some 4224) in V. rewrite E2 in V. by injection V. }
  assert (R : rtc (heap_step 4100 16) (heap_reset 16, []) (s2, [(4224, 50); (4112, 100)])).
  { eapply rtc_l; [apply (step_malloc _ _ 100 _ s1 4112 []); [unfold is_u32; lia|exact E1]|].
    eapply rtc_l; [|apply rtc_refl]. apply (step_malloc _ _ 50 s1 s2 4224 [(4112, 100)]); [unfold is_u32; lia|exact E2]. }
  exists s2. split; [exact R|].
  destruct (heap4_client_safe 4100 16 s2 _ placed_4100 R) as (_ & F & _). apply (F 4112 100). clear. set_solver.
Defined.

(** One allocated block of 32 octets at the start of a heap of 96. *)
Definition small_heap : heap4 :=
  MkHeap4 {[ 16 := MkLink 4128 0; 4096 := MkLink 0 2147483680; 4128 := MkLink 4192 64; 4192 := MkLink 0 0 ]}
    (λ _, 0) 4192 64 64 1 0.

Lemma small_heap_inv : heap_inv 16 small_heap [Tile 4096 32 true; Tile 4128 64 false] 4096 4192.
Proof.
  constructor; try done; try (cbn; lia).
  - left. lia.
Qed.

Lemma vPortFree_correct_witness :
  ∃ st' ts', vPortFree 16 (4096 + xHeapStructSize) small_heap = Some st'
    ∧ heap_inv 16 st' ts' 4096 4192 ∧ xFreeBytesRemaining st' = 96.
Proof.
  destruct (vPortFree_correct 16 small_heap _ _ _ [] [] 4096 32 small_heap_inv) as (st' & ts' & E & K & _ & F);
    [reflexivity|].
  exists st', ts'. split; [exact E|]. split; [exact K|]. rewrite F. reflexivity.
Defined.
