(* ===== verification/IpAddr.v ===== *)
(** * lwip-1.4.1/src/core/ipv4/ip_addr.c: IPv4 addresses and their text

    An address is the 32-bit value in network order, as the CPU of the board
    (little endian) reads it.  A C string is the list of its octets before
    the terminating zero. *)
From S2P Require Import Prelude LwipDef.
Local Open Scope Z_scope.

Definition IPADDR_ANY : Z := 0.
Definition IPADDR_NONE : Z := 4294967295.
Definition IPADDR_BROADCAST : Z := 4294967295.
Definition NETIF_FLAG_BROADCAST : Z := 2.

(** [~x] on u32_t *)
Definition not32 (x : Z) : Z := 4294967295 - x.

Definition ip_addr_netcmp (addr1 addr2 mask : Z) : bool := Z.land addr1 mask =? Z.land addr2 mask.

Definition ip4_addr_isbroadcast (addr if_flags if_addr if_netmask : Z) : bool :=
  if (not32 addr =? IPADDR_ANY) || (addr =? IPADDR_ANY) then true
  else if Z.land if_flags NETIF_FLAG_BROADCAST =? 0 then false
  else if addr =? if_addr then false
  else if ip_addr_netcmp addr if_addr if_netmask &&
          (Z.land addr (not32 if_netmask) =? Z.land IPADDR_BROADCAST (not32 if_netmask)) then true
  else false.

(** The two loops of [ip4_addr_netmask_valid]. *)
Fixpoint first_zero (fuel : nat) (mask nm : Z) : Z :=
  if mask =? 0 then mask else
  match fuel with
  | O => mask
  | S fuel => if Z.land nm mask =? 0 then mask else first_zero fuel (Z.shiftr mask 1) nm
  end.

Fixpoint no_one (fuel : nat) (mask nm : Z) : bool :=
  if mask =? 0 then true else
  match fuel with
  | O => true
  | S fuel => if negb (Z.land nm mask =? 0) then false else no_one fuel (Z.shiftr mask 1) nm
  end.

Definition ip4_addr_netmask_valid (netmask : Z) : bool :=
  let nm_hostorder := lwip_htonl netmask in
  let mask := first_zero 32 (Z.shiftl 1 31) nm_hostorder in
  no_one 32 mask nm_hostorder.

(** ** Text *)
Definition in_range (c lo up : Z) : bool := (lo <=? c) && (c <=? up).
Definition isdigit (c : Z) : bool := in_range c 48 57.
Definition isxdigit (c : Z) : bool := isdigit c || in_range c 97 102 || in_range c 65 70.
Definition islower (c : Z) : bool := in_range c 97 122.
Definition isspace (c : Z) : bool :=
  (c =? 32) || (c =? 12) || (c =? 10) || (c =? 13) || (c =? 9) || (c =? 11).

(** [*cp] *)
Definition deref (cp : list Z) : Z := match cp with [] => 0 | c :: _ => c end.

Fixpoint scan_digits (base val : Z) (cp : list Z) : Z * list Z :=
  match cp with
  | [] => (val, [])
  | c :: cp' =>
      if isdigit c then scan_digits base (u32 (u32 (val * base) + (c - 48))) cp'
      else if (base =? 16) && isxdigit c
      then scan_digits base (Z.lor (u32 (Z.shiftl val 4)) (c + 10 - (if islower c then 97 else 65))) cp'
      else (val, cp)
  end.

(** A number with its C prefix: [0x] hexadecimal, [0] octal. *)
Definition scan_number (cp : list Z) : Z * list Z :=
  if deref cp =? 48 then
    let cp := tail cp in
    if (deref cp =? 120) || (deref cp =? 88) then scan_digits 16 0 (tail cp)
    else scan_digits 8 0 cp
  else scan_digits 10 0 cp.

(** At most four numbers; [None] is [return (0)]. *)
Fixpoint aton_loop (fuel : nat) (parts : list Z) (cp : list Z) : option (list Z * Z * list Z) :=
  match fuel with
  | O => None
  | S fuel =>
      if negb (isdigit (deref cp)) then None else
      let '(val, cp) := scan_number cp in
      if deref cp =? 46 then
        if (3 <=? Z.of_nat (length parts)) then None
        else aton_loop fuel (parts ++ [val]) (tail cp)
      else Some (parts, val, cp)
  end.

Definition ipaddr_aton (cp : list Z) : option Z :=
  '(parts, val, cp) ← aton_loop 4 [] cp;
  let c := deref cp in
  if negb (c =? 0) && negb (isspace c) then None else
  val ← match parts with
        | [] => Some val
        | [p0] => if 16777215 <? val then None else Some (Z.lor val (u32 (Z.shiftl p0 24)))
        | [p0; p1] =>
            if 65535 <? val then None
            else Some (Z.lor val (Z.lor (u32 (Z.shiftl p0 24)) (u32 (Z.shiftl p1 16))))
        | [p0; p1; p2] =>
            if 255 <? val then None
            else Some (Z.lor val (Z.lor (Z.lor (u32 (Z.shiftl p0 24)) (u32 (Z.shiftl p1 16))) (u32 (Z.shiftl p2 8))))
        | _ => None
        end;
  Some (lwip_htonl val).

Definition ipaddr_addr (cp : list Z) : Z :=
  match ipaddr_aton cp with Some val => val | None => IPADDR_NONE end.

(** The digits of an octet, last one first ([inv]). *)
Fixpoint octet_digits (fuel : nat) (ap : Z) : list Z :=
  match fuel with
  | O => []
  | S fuel =>
      let rem := ap mod 10 in
      let ap := ap / 10 in
      (48 + rem) :: (if ap =? 0 then [] else octet_digits fuel ap)
  end.

(** [*rp++ = c] for each octet of [cs], with the test of the buffer's length. *)
Fixpoint put_chars (cs : list Z) (len buflen : Z) (buf : list Z) : option (Z * list Z) :=
  match cs with
  | [] => Some (len, buf)
  | c :: cs => if buflen <=? len then None else put_chars cs (len + 1) buflen (buf ++ [c])
  end.

Fixpoint ntoa_loop (octets : list Z) (len buflen : Z) (buf : list Z) : option (Z * list Z) :=
  match octets with
  | [] => Some (len, buf)
  | ap :: octets =>
      '(len, buf) ← put_chars (rev (octet_digits 3 ap) ++ [46]) len buflen buf;
      ntoa_loop octets len buflen buf
  end.

(** The last dot is overwritten by the terminating zero. *)
Definition ipaddr_ntoa_r (addr buflen : Z) : option (list Z) :=
  '(_, buf) ← ntoa_loop [addr mod 256; addr / 256 mod 256; addr / 65536 mod 256; addr / 16777216 mod 256] 0 buflen [];
  Some (removelast buf).

Definition ipaddr_ntoa (addr : Z) : option (list Z) := ipaddr_ntoa_r addr 16.

(** ** Text round trip *)
Lemma put_chars_ok cs : ∀ len buflen buf, len + Z.of_nat (length cs) <= buflen →
  put_chars cs len buflen buf = Some (len + Z.of_nat (length cs), buf ++ cs).
Proof.
  induction cs as [|c cs IH]; intros len buflen buf Hl; cbn -[Z.of_nat] in *.
  - by rewrite app_nil_r, Z.add_0_r.
  - rewrite (proj2 (Z.leb_gt buflen len)) by lia. rewrite IH, <- app_assoc by lia. do 2 f_equal. lia.
Qed.

Definition octet_text (x : Z) : list Z := rev (octet_digits 3 x).

(** The facts about one octet, by cases. *)
Definition octet_ok (x : Z) : bool :=
  forallb isdigit (octet_text x)
  && (Z.of_nat (length (octet_text x)) <=? 3)
  && (fst (scan_digits 10 0 (octet_text x ++ [46])) =? x)
  && ((x =? 0) || negb (deref (octet_text x) =? 48))
  && isdigit (deref (octet_text x)).

Lemma octets_ok : forallb octet_ok (Z.of_nat <$> seq 0 256) = true.
Proof. by vm_compute. Qed.

Lemma octet_ok_all x : is_u8 x → octet_ok x = true.
Proof.
  intros Hx. pose proof octets_ok as F. rewrite forallb_forall in F. apply F.
  apply list_elem_of_In, list_elem_of_fmap. exists (Z.to_nat x). unfold is_u8 in Hx. split; [lia|].
  apply elem_of_seq. lia.
Qed.

Lemma scan_digits_app base c ds : ∀ val rest, isdigit c = false → isxdigit c = false → forallb isdigit ds = true →
  scan_digits base val (ds ++ c :: rest) = (fst (scan_digits base val (ds ++ [46])), c :: rest).
Proof.
  induction ds as [|d ds IH]; intros val rest Hc Hx Hd; cbn -[isdigit isxdigit].
  - rewrite Hc, Hx, andb_false_r. change (isdigit 46) with false. change (isxdigit 46) with false. by rewrite andb_false_r.
  - cbn -[isdigit] in Hd. apply andb_true_iff in Hd as [-> Hd]. by apply IH.
Qed.

Lemma scan_digits_end base ds : ∀ val, forallb isdigit ds = true →
  scan_digits base val ds = (fst (scan_digits base val (ds ++ [46])), []).
Proof.
  induction ds as [|d ds IH]; intros val Hd; cbn -[isdigit isxdigit].
  - change (isdigit 46) with false. change (isxdigit 46) with false. by rewrite andb_false_r.
  - cbn -[isdigit] in Hd. apply andb_true_iff in Hd as [-> Hd]. by apply IH.
Qed.

Lemma scan_octet x : is_u8 x →
  isdigit (deref (octet_text x)) = true
  ∧ (∀ rest, scan_number (octet_text x ++ 46 :: rest) = (x, 46 :: rest))
  ∧ scan_number (octet_text x) = (x, []).
Proof.
  intros Hx. pose proof (octet_ok_all x Hx) as O. unfold octet_ok in O. rewrite !andb_true_iff in O.
  destruct O as [[[[Hd _] Hs] H0] Hf]. split; [done|]. apply Z.eqb_eq in Hs.
  destruct (Z.eqb_spec x 0) as [->|Hne]; [done|]. rewrite orb_false_l in H0. apply negb_true_iff in H0.
  unfold scan_number. split; [intros rest|]; [|by rewrite H0, scan_digits_end, Hs].
  assert (deref (octet_text x ++ 46 :: rest) = deref (octet_text x)) as -> by (by destruct (octet_text x)).
  by rewrite H0, scan_digits_app, Hs.
Qed.

Lemma octet_length x : is_u8 x → (1 ≤ length (octet_text x) ≤ 3)%nat.
Proof.
  intros Hx. pose proof (octet_ok_all x Hx) as O. unfold octet_ok in O. rewrite !andb_true_iff in O.
  destruct O as [[[[_ Hl] _] _] Hf]. destruct (octet_text x); [done|]. apply Z.leb_le in Hl. cbn [length] in *. lia.
Qed.

Lemma octet_deref x rest : is_u8 x → isdigit (deref (octet_text x ++ rest)) = true.
Proof. intros Hx. destruct (scan_octet x Hx) as [Hd _]. by destruct (octet_text x). Qed.

Definition dotted (a b c d : Z) : list Z :=
  octet_text a ++ 46 :: octet_text b ++ 46 :: octet_text c ++ 46 :: octet_text d.

Lemma ntoa_dotted addr buflen : is_u32 addr → 16 <= buflen →
  ipaddr_ntoa_r addr buflen = Some (dotted (addr mod 256) (addr / 256 mod 256) (addr / 65536 mod 256) (addr / 16777216 mod 256)).
Proof.
  intros Ha Hb. unfold ipaddr_ntoa_r, dotted.
  assert (B : ∀ y, is_u8 (y mod 256)) by (intros y; unfold is_u8; apply Z.mod_pos_bound; lia).
  generalize (B addr) (B (addr / 256)) (B (addr / 65536)) (B (addr / 16777216)).
  generalize (addr mod 256) (addr / 256 mod 256) (addr / 65536 mod 256) (addr / 16777216 mod 256).
  intros a b c d Ba Bb Bc Bd. cbn [ntoa_loop]. fold (octet_text a) (octet_text b) (octet_text c) (octet_text d).
  pose proof (octet_length a Ba). pose proof (octet_length b Bb). pose proof (octet_length c Bc). pose proof (octet_length d Bd).
  do 4 (rewrite put_chars_ok by (rewrite ?length_app; cbn [length]; lia); cbn [mbind option_bind]).
  f_equal. rewrite (app_assoc _ (octet_text d)), removelast_last. rewrite <- !app_assoc. cbn. by rewrite <- ?app_assoc.
Qed.

Lemma aton_step fuel parts x rest : is_u8 x → (length parts < 3)%nat →
  aton_loop (S fuel) parts (octet_text x ++ 46 :: rest) = aton_loop fuel (parts ++ [x]) rest.
Proof.
  intros Hx Hl. cbn [aton_loop]. rewrite octet_deref by done. cbn [negb].
  destruct (scan_octet x Hx) as (_ & -> & _). cbn [deref tail Z.eqb Pos.eqb].
  by rewrite (proj2 (Z.leb_gt _ _)) by lia.
Qed.

Lemma aton_dotted a b c d : is_u8 a → is_u8 b → is_u8 c → is_u8 d →
  ipaddr_aton (dotted a b c d) =
    Some (lwip_htonl (Z.lor d (Z.lor (Z.lor (u32 (Z.shiftl a 24)) (u32 (Z.shiftl b 16))) (u32 (Z.shiftl c 8))))).
Proof.
  intros Ha Hb Hc Hd. unfold ipaddr_aton, dotted.
  rewrite !aton_step by (done || cbn; lia). cbn [aton_loop app].
  destruct (scan_octet d Hd) as (-> & _ & ->). cbn -[Z.lor Z.shiftl u32 lwip_htonl].
  unfold is_u8 in Hd. by rewrite (proj2 (Z.ltb_ge 255 d)) by lia.
Qed.

Lemma host_value a b c d : is_u8 a → is_u8 b → is_u8 c → is_u8 d →
  Z.lor d (Z.lor (Z.lor (u32 (Z.shiftl a 24)) (u32 (Z.shiftl b 16))) (u32 (Z.shiftl c 8))) = le_num [d; c; b; a].
Proof.
  unfold is_u8. intros Ha Hb Hc Hd. rewrite !Z.shiftl_mul_pow2, !u32_id by (unfold is_u32; lia).
  rewrite (lor_low (a * 2 ^ 24) (b * 2 ^ 16) 24) by (try apply Z_mod_mult; lia).
  rewrite (lor_low _ (c * 2 ^ 8) 16);
    [|lia|replace (a * 2 ^ 24 + b * 2 ^ 16) with ((a * 2 ^ 8 + b) * 2 ^ 16) by lia; apply Z_mod_mult|lia].
  rewrite Z.lor_comm, (lor_low _ d 8);
    [|lia|replace (a * 2 ^ 24 + b * 2 ^ 16 + c * 2 ^ 8) with ((a * 2 ^ 16 + b * 2 ^ 8 + c) * 2 ^ 8) by lia; apply Z_mod_mult|lia].
  cbn. lia.
Qed.

(** C38. [ipaddr_aton] reads back the address [ipaddr_ntoa_r] printed, for
    every address and every buffer of at least 16 octets; the text fits. *)
Theorem ipaddr_roundtrip addr buflen :
  is_u32 addr → 16 <= buflen →
  ∃ s, ipaddr_ntoa_r addr buflen = Some s ∧ (length s < 16)%nat ∧ ipaddr_aton s = Some addr.
Proof.
  intros Ha Hb. assert (B : ∀ y, is_u8 (y mod 256)) by (intros y; unfold is_u8; apply Z.mod_pos_bound; lia).
  eexists. split; [by apply ntoa_dotted|]. split.
  - unfold dotted. repeat rewrite ?length_app; cbn [length].
    pose proof (octet_length _ (B addr)). pose proof (octet_length _ (B (addr / 256))).
    pose proof (octet_length _ (B (addr / 65536))). pose proof (octet_length _ (B (addr / 16777216))).
    repeat (rewrite ?length_app; cbn [length]). lia.
  - rewrite aton_dotted, host_value, lwip_htonl_bytes by done. f_equal. by apply (le_num_split addr).
Qed.

Lemma ipaddr_roundtrip_witness :
  ∃ s, ipaddr_ntoa_r 16820416 16 = Some s ∧ ipaddr_aton s = Some 16820416
    ∧ s = [49; 57; 50; 46; 49; 54; 56; 46; 48; 46; 49].
Proof.
  destruct (ipaddr_roundtrip 16820416 16) as (s & E & _ & A); [unfold is_u32; lia|lia|].
  exists s. split; [exact E|]. split; [exact A|]. vm_compute in E. congruence.
Defined.

(** Only the last number of a dotted address is checked: "1.256.0.1" is
    accepted as 2.0.0.1, the digit 8 is accepted in an octal number, and "0x"
    without a digit is 0. *)
Theorem ipaddr_aton_lax :
  ipaddr_aton [49; 46; 50; 53; 54; 46; 48; 46; 49] = ipaddr_aton [49; 46; 48; 46; 48; 46; 49]
  ∧ ipaddr_aton [50; 53; 55; 46; 48; 46; 48; 46; 49] = ipaddr_aton [49; 46; 48; 46; 48; 46; 49]
  ∧ ipaddr_aton [48; 56; 46; 48; 46; 48; 46; 49] = ipaddr_aton [56; 46; 48; 46; 48; 46; 49]
  ∧ ipaddr_aton [48; 120; 46; 48; 46; 48; 46; 49] = ipaddr_aton [48; 46; 48; 46; 48; 46; 49]
  ∧ is_Some (ipaddr_aton [49; 46; 48; 46; 48; 46; 49]) ∧ is_Some (ipaddr_aton [48; 46; 48; 46; 48; 46; 49]).
Proof. vm_compute. eauto 10. Qed.

(** ** Netmasks *)
Lemma land_pow2 x n : 0 <= n → (Z.land x (2 ^ n) =? 0) = negb (Z.testbit x n).
Proof.
  intros Hn. destruct (Z.testbit x n) eqn:E; cbn.
  - apply Z.eqb_neq. intros Q. apply (f_equal (λ y, Z.testbit y n)) in Q.
    rewrite Z.land_spec, E, Z.pow2_bits_true, Z.bits_0 in Q by done. done.
  - apply Z.eqb_eq, Z.bits_inj'. intros i Hi. rewrite Z.land_spec, Z.pow2_bits_eqb, Z.bits_0 by done.
    destruct (Z.eqb_spec n i) as [->|]; [by rewrite E|apply andb_false_r].
Qed.

Lemma half_pow2 (n : nat) : Z.shiftr (2 ^ Z.of_nat (S n)) 1 = 2 ^ Z.of_nat n.
Proof.
  rewrite Z.shiftr_div_pow2, Nat2Z.inj_succ, Z.pow_succ_r by lia. change (2 ^ 1) with 2.
  by rewrite Z.mul_comm, Z.div_mul.
Qed.

(** The loops on the numbers of the bits. *)
Fixpoint first_zero_bit (n : nat) (x : Z) : nat :=
  match n with O => O | S n' => if Z.testbit x (Z.of_nat n') then first_zero_bit n' x else n end.

Fixpoint no_one_bit (n : nat) (x : Z) : bool :=
  match n with O => true | S n' => negb (Z.testbit x (Z.of_nat n')) && no_one_bit n' x end.

Definition mask_of (n : nat) : Z := match n with O => 0 | S n' => 2 ^ Z.of_nat n' end.

Lemma mask_of_succ n : (mask_of (S n) =? 0) = false ∧ Z.shiftr (mask_of (S n)) 1 = mask_of n.
Proof.
  split; [apply Z.eqb_neq; cbn; lia|]. destruct n as [|n]; [done|]. exact (half_pow2 n).
Qed.

Lemma first_zero_ok x : ∀ n fuel, (n ≤ fuel)%nat → first_zero fuel (mask_of n) x = mask_of (first_zero_bit n x).
Proof.
  induction n as [|n IH]; intros fuel Hf; [by destruct fuel|]. destruct fuel as [|fuel]; [lia|].
  cbn [first_zero]. destruct (mask_of_succ n) as [-> ->]. cbn [mask_of first_zero_bit].
  rewrite land_pow2 by lia. destruct (Z.testbit x (Z.of_nat n)); cbn; [apply IH; lia|done].
Qed.

Lemma no_one_ok x : ∀ n fuel, (n ≤ fuel)%nat → no_one fuel (mask_of n) x = no_one_bit n x.
Proof.
  induction n as [|n IH]; intros fuel Hf; [by destruct fuel|]. destruct fuel as [|fuel]; [lia|].
  cbn [no_one]. destruct (mask_of_succ n) as [-> ->]. cbn [mask_of no_one_bit].
  rewrite land_pow2 by lia. destruct (Z.testbit x (Z.of_nat n)); cbn; [done|apply IH; lia].
Qed.

Lemma first_zero_bit_spec x : ∀ n, (first_zero_bit n x ≤ n)%nat
  ∧ (∀ i, (first_zero_bit n x <= i < n)%nat → Z.testbit x (Z.of_nat i) = true)
  ∧ (first_zero_bit n x ≠ 0%nat → Z.testbit x (Z.of_nat (pred (first_zero_bit n x))) = false).
Proof.
  induction n as [|n (I1 & I2 & I3)]; cbn [first_zero_bit]; [split; [lia|split; [intros; lia|done]]|].
  destruct (Z.testbit x (Z.of_nat n)) eqn:E.
  - split; [lia|split; [|done]]. intros i Hi. destruct (decide (i = n)) as [->|]; [done|]. apply I2. lia.
  - split; [lia|split; [intros i Hi; lia|done]].
Qed.

Lemma no_one_bit_spec x : ∀ n, no_one_bit n x = true ↔ ∀ i, (i < n)%nat → Z.testbit x (Z.of_nat i) = false.
Proof.
  induction n as [|n IH]; cbn; [split; [lia|done]|]. rewrite andb_true_iff, negb_true_iff, IH. split.
  - intros [H1 H2] i Hi. destruct (decide (i = n)) as [->|]; [done|]. apply H2. lia.
  - intros H. split; [apply H; lia|]. intros i Hi. apply H. lia.
Qed.

(** [32 - k] ones from the top. *)
Definition prefix_mask (k : nat) : Z := 2 ^ 32 - 2 ^ Z.of_nat k.

Lemma prefix_mask_bits k i : (k ≤ 32)%nat → 0 <= i < 32 →
  Z.testbit (prefix_mask k) i = negb (i <? Z.of_nat k).
Proof.
  intros Hk Hi. assert (prefix_mask k = Z.shiftl (Z.ones (32 - Z.of_nat k)) (Z.of_nat k)) as ->.
  { unfold prefix_mask. rewrite Z.shiftl_mul_pow2, Z.ones_equiv by lia.
    replace 32 with (32 - Z.of_nat k + Z.of_nat k) at 1 by lia. rewrite Z.pow_add_r by lia. lia. }
  rewrite Z.shiftl_spec by lia. destruct (Z.ltb_spec i (Z.of_nat k)); cbn [negb].
  - apply Z.testbit_neg_r. lia.
  - apply Z.ones_spec_low. lia.
Qed.

Lemma u32_bits_eq x y : is_u32 x → is_u32 y → (∀ i, 0 <= i < 32 → Z.testbit x i = Z.testbit y i) → x = y.
Proof.
  unfold is_u32. intros Hx Hy H. rewrite <- (Z.mod_small x (2 ^ 32)), <- (Z.mod_small y (2 ^ 32)) by lia.
  apply Z.bits_inj'. intros i Hi. rewrite <- !Z.land_ones, !Z.land_spec by lia.
  destruct (decide (i < 32)); [by rewrite H|]. rewrite Z.ones_spec_high by lia. by rewrite !andb_false_r.
Qed.

(** [ip4_addr_netmask_valid] accepts exactly the masks that are, in host
    order, a run of ones followed by zeros. *)
Theorem ip4_addr_netmask_valid_iff netmask :
  is_u32 netmask →
  ip4_addr_netmask_valid netmask = true ↔ ∃ k, (k ≤ 32)%nat ∧ lwip_htonl netmask = prefix_mask k.
Proof.
  intros Hn. unfold ip4_addr_netmask_valid. change (Z.shiftl 1 31) with (mask_of 32).
  rewrite first_zero_ok by lia. set (x := lwip_htonl netmask).
  destruct (first_zero_bit_spec x 32) as (F1 & F2 & F3). rewrite no_one_ok, no_one_bit_spec by lia.
  assert (Hx : is_u32 x) by apply u32_range.
  assert (Hp : ∀ k, (k ≤ 32)%nat → is_u32 (prefix_mask k)).
  { intros k Hk. unfold is_u32, prefix_mask. pose proof (Z.pow_le_mono_r 2 (Z.of_nat k) 32).
    assert (0 < 2 ^ Z.of_nat k) by (apply Z.pow_pos_nonneg; lia). lia. }
  split.
  - intros H. exists (first_zero_bit 32 x). split; [done|]. apply u32_bits_eq; [done|by apply Hp|].
    intros i Hi. rewrite prefix_mask_bits by done. rewrite <- (Z2Nat.id i) by lia.
    destruct (Z.ltb_spec (Z.of_nat (Z.to_nat i)) (Z.of_nat (first_zero_bit 32 x))); cbn; [apply H; lia|apply F2; lia].
  - intros (k & Hk & E). assert (Bits : ∀ i, 0 <= i < 32 → Z.testbit x i = negb (i <? Z.of_nat k)).
    { intros i Hi. rewrite E. by apply prefix_mask_bits. }
    intros i Hi. rewrite Bits by lia. destruct (Nat.eq_dec (first_zero_bit 32 x) 0) as [Z0|Z0]; [lia|].
    specialize (F3 Z0). rewrite Bits in F3 by lia.
    destruct (Z.ltb_spec (Z.of_nat (pred (first_zero_bit 32 x))) (Z.of_nat k)); [|done].
    by rewrite (proj2 (Z.ltb_lt _ _)) by lia.
Qed.

Lemma ip4_addr_netmask_valid_iff_witness :
  ip4_addr_netmask_valid 16777215 = true ∧ ∃ k, (k ≤ 32)%nat ∧ lwip_htonl 16777215 = prefix_mask k.
Proof.
  assert (H : is_u32 16777215) by (unfold is_u32; lia).
  split; [reflexivity|]. apply (ip4_addr_netmask_valid_iff 16777215 H). reflexivity.
Defined.
