(* ===== verification/SysTimeouts.v ===== *)
(** * lwip-1.4.1/src/core/timers.c: the list of timeouts

    [next_timeout] is a list in which each entry holds the time after the
    entry before it.  Configuration NO_SYS = 1.  The functions the timers call
    ([tcp_tmr], [etharp_tmr], ..., and the handlers of other modules) are the
    parameter [ext], an arbitrary change of the state, since a handler may set
    and cancel timeouts itself. *)
From S2P Require Import Prelude.
Local Open Scope Z_scope.

Inductive sys_timeout_handler :=
  | tcpip_tcp_timer | ip_reass_timer | arp_timer | dhcp_timer_coarse | dhcp_timer_fine
  | autoip_timer | igmp_timer | dns_timer
  | other_handler (h : Z).

#[export] Instance sys_timeout_handler_eq_dec : EqDecision sys_timeout_handler.
Proof. solve_decision. Defined.

Definition TCP_TMR_INTERVAL : Z := 250.
Definition IP_TMR_INTERVAL : Z := 1000.
Definition ARP_TMR_INTERVAL : Z := 5000.
Definition DHCP_COARSE_TIMER_MSECS : Z := 60000.
Definition DHCP_FINE_TIMER_MSECS : Z := 500.
Definition AUTOIP_TMR_INTERVAL : Z := 100.
Definition IGMP_TMR_INTERVAL : Z := 100.
Definition DNS_TMR_INTERVAL : Z := 1000.

(** struct sys_timeo of include/lwip/timers.h, without [next]. *)
Record sys_timeo := MkTimeo { time : Z; h : sys_timeout_handler; arg : Z }.

(** [free] is the number of free elements of the pool MEMP_SYS_TIMEOUT;
    [tcp_pcbs] is [tcp_active_pcbs || tcp_tw_pcbs]; [fired] records the calls
    of handlers. *)
Record timers := MkTimers {
  next_timeout : list sys_timeo;
  timeouts_last_time : Z;
  tcpip_tcp_timer_active : bool;
  tcp_pcbs : bool;
  free : nat;
  fired : list (sys_timeout_handler * Z) }.

Definition set_list (l : list sys_timeo) (st : timers) : timers :=
  MkTimers l (timeouts_last_time st) (tcpip_tcp_timer_active st) (tcp_pcbs st) (free st) (fired st).
Definition set_last_time (t : Z) (st : timers) : timers :=
  MkTimers (next_timeout st) t (tcpip_tcp_timer_active st) (tcp_pcbs st) (free st) (fired st).
Definition set_active (b : bool) (st : timers) : timers :=
  MkTimers (next_timeout st) (timeouts_last_time st) b (tcp_pcbs st) (free st) (fired st).
Definition set_free (n : nat) (st : timers) : timers :=
  MkTimers (next_timeout st) (timeouts_last_time st) (tcpip_tcp_timer_active st) (tcp_pcbs st) n (fired st).
Definition log_fired (x : sys_timeout_handler * Z) (st : timers) : timers :=
  MkTimers (next_timeout st) (timeouts_last_time st) (tcpip_tcp_timer_active st) (tcp_pcbs st) (free st) (fired st ++ [x]).

Definition set_time (n : Z) (t : sys_timeo) : sys_timeo := MkTimeo n (h t) (arg t).

(** The [for] loop of [sys_timeout] from the entry [t] on. *)
Fixpoint insert_after (timeout t : sys_timeo) (rest : list sys_timeo) : list sys_timeo :=
  let timeout := set_time (u32 (time timeout - time t)) timeout in
  match rest with
  | [] => [t; timeout]
  | n :: rest' =>
      if time timeout <? time n
      then t :: timeout :: set_time (u32 (time n - time timeout)) n :: rest'
      else t :: insert_after timeout n rest'
  end.

Definition insert_timeout (timeout : sys_timeo) (l : list sys_timeo) : list sys_timeo :=
  match l with
  | [] => [timeout]
  | n :: rest =>
      if time timeout <? time n
      then timeout :: set_time (u32 (time n - time timeout)) n :: rest
      else insert_after timeout n rest
  end.

(** [None] when the pool is empty: the assertion stops the program. *)
Definition sys_timeout (msecs : Z) (handler : sys_timeout_handler) (a : Z) (st : timers) : option timers :=
  match free st with
  | O => None
  | S n => Some (set_list (insert_timeout (MkTimeo msecs handler a) (next_timeout st)) (set_free n st))
  end.

(** The list after [sys_untimeout], and whether an entry was freed. *)
Fixpoint remove_timeout (handler : sys_timeout_handler) (a : Z) (l : list sys_timeo) : list sys_timeo * bool :=
  match l with
  | [] => ([], false)
  | t :: rest =>
      if bool_decide (h t = handler) && (arg t =? a) then
        (match rest with [] => [] | n :: rest' => set_time (u32 (time n + time t)) n :: rest' end, true)
      else let '(rest, b) := remove_timeout handler a rest in (t :: rest, b)
  end.

Definition sys_untimeout (handler : sys_timeout_handler) (a : Z) (st : timers) : timers :=
  let '(l, b) := remove_timeout handler a (next_timeout st) in
  let st := set_list l st in
  if b then set_free (S (free st)) st else st.

Section handlers.
Context (ext : sys_timeout_handler → Z → timers → option timers).

Definition tcp_timer_needed (st : timers) : option timers :=
  if negb (tcpip_tcp_timer_active st) && tcp_pcbs st
  then sys_timeout TCP_TMR_INTERVAL tcpip_tcp_timer 0 (set_active true st)
  else Some st.

(** The call [handler(arg)]. *)
Definition call_handler (handler : sys_timeout_handler) (a : Z) (st : timers) : option timers :=
  let st := log_fired (handler, a) st in
  st ← ext handler a st;
  match handler with
  | tcpip_tcp_timer =>
      if tcp_pcbs st then sys_timeout TCP_TMR_INTERVAL tcpip_tcp_timer 0 st else Some (set_active false st)
  | ip_reass_timer => sys_timeout IP_TMR_INTERVAL ip_reass_timer 0 st
  | arp_timer => sys_timeout ARP_TMR_INTERVAL arp_timer 0 st
  | dhcp_timer_coarse => sys_timeout DHCP_COARSE_TIMER_MSECS dhcp_timer_coarse 0 st
  | dhcp_timer_fine => sys_timeout DHCP_FINE_TIMER_MSECS dhcp_timer_fine 0 st
  | autoip_timer => sys_timeout AUTOIP_TMR_INTERVAL autoip_timer 0 st
  | igmp_timer => sys_timeout IGMP_TMR_INTERVAL igmp_timer 0 st
  | dns_timer => sys_timeout DNS_TMR_INTERVAL dns_timer 0 st
  | other_handler _ => Some st
  end.

Record config := MkConfig {
  IP_REASSEMBLY : bool; LWIP_ARP : bool; LWIP_DHCP : bool; LWIP_AUTOIP : bool; LWIP_IGMP : bool; LWIP_DNS : bool }.

Definition when (b : bool) (f : timers → option timers) (st : timers) : option timers :=
  if b then f st else Some st.

Definition sys_timeouts_init (c : config) (sys_now : Z) (st : timers) : option timers :=
  st ← when (IP_REASSEMBLY c) (sys_timeout IP_TMR_INTERVAL ip_reass_timer 0) st;
  st ← when (LWIP_ARP c) (sys_timeout ARP_TMR_INTERVAL arp_timer 0) st;
  st ← when (LWIP_DHCP c) (sys_timeout DHCP_COARSE_TIMER_MSECS dhcp_timer_coarse 0) st;
  st ← when (LWIP_DHCP c) (sys_timeout DHCP_FINE_TIMER_MSECS dhcp_timer_fine 0) st;
  st ← when (LWIP_AUTOIP c) (sys_timeout AUTOIP_TMR_INTERVAL autoip_timer 0) st;
  st ← when (LWIP_IGMP c) (sys_timeout IGMP_TMR_INTERVAL igmp_timer 0) st;
  st ← when (LWIP_DNS c) (sys_timeout DNS_TMR_INTERVAL dns_timer 0) st;
  Some (set_last_time sys_now st).

(** The [do ... while (had_one)] loop.  A handler that sets a timeout of 0
    for itself makes it endless: then every fuel runs out. *)
Fixpoint check_loop (fuel : nat) (now diff : Z) (st : timers) : option timers :=
  match next_timeout st with
  | [] => Some st
  | t :: rest =>
      if time t <=? diff then
        match fuel with
        | O => None
        | S fuel =>
            let st := set_last_time now st in
            let diff := u32 (diff - time t) in
            let st := set_free (S (free st)) (set_list rest st) in
            st ← call_handler (h t) (arg t) st;
            check_loop fuel now diff st
        end
      else Some st
  end.

Definition sys_check_timeouts (fuel : nat) (sys_now : Z) (st : timers) : option timers :=
  match next_timeout st with
  | [] => Some st
  | _ => check_loop fuel sys_now (u32 (sys_now - timeouts_last_time st)) st
  end.

Definition sys_restart_timeouts (sys_now : Z) (st : timers) : timers := set_last_time sys_now st.

End handlers.

(** ** Deadlines

    The time of each entry after [base], with what is called then. *)
Definition entry : Type := Z * sys_timeout_handler * Z.

Fixpoint deadlines (base : Z) (l : list sys_timeo) : list entry :=
  match l with
  | [] => []
  | t :: l => (base + time t, h t, arg t) :: deadlines (base + time t) l
  end.

(** Every entry's deadline is a time that was asked for. *)
Definition list_ok (base : Z) (l : list sys_timeo) : Prop :=
  Forall (λ t, 0 <= time t) l ∧ Forall (λ d : entry, d.1.1 < 4294967296) (deadlines base l).

(** A new entry goes behind the entries with the same deadline. *)
Fixpoint insert_deadline (x : entry) (l : list entry) : list entry :=
  match l with
  | [] => [x]
  | y :: l => if x.1.1 <? y.1.1 then x :: y :: l else y :: insert_deadline x l
  end.

Lemma list_ok_cons base t l : list_ok base (t :: l) ↔
  0 <= time t ∧ base + time t < 4294967296 ∧ list_ok (base + time t) l.
Proof. unfold list_ok. cbn. rewrite !Forall_cons. cbn. tauto. Qed.

Lemma insert_after_ok : ∀ rest t timeout base, 0 <= base → list_ok base (t :: rest) →
  time t <= time timeout → base + time timeout < 4294967296 →
  list_ok base (insert_after timeout t rest) ∧
  deadlines base (insert_after timeout t rest)
    = (base + time t, h t, arg t) :: insert_deadline (base + time timeout, h timeout, arg timeout) (deadlines (base + time t) rest).
Proof.
  induction rest as [|n rest IH]; intros t tm base Hb Ok Hle Hlt; apply list_ok_cons in Ok as (H1 & H2 & Ok); cbn.
  - rewrite u32_id by (unfold is_u32; lia). replace (base + time t + (time tm - time t)) with (base + time tm) by lia.
    rewrite !list_ok_cons. cbn. split; [|done]. split_and!; try lia; repeat constructor.
  - pose proof Ok as (Hn1 & Hn2 & Ok2)%list_ok_cons. cbn. rewrite !(u32_id (time tm - time t)) by (unfold is_u32; lia).
    destruct (Z.ltb_spec (time tm - time t) (time n)).
    + rewrite (proj2 (Z.ltb_lt _ _)) by lia. cbn. rewrite u32_id by (unfold is_u32; lia).
      replace (base + time t + (time tm - time t)) with (base + time tm) by lia.
      replace (base + time tm + (time n - (time tm - time t))) with (base + time t + time n) by lia. split; [|done].
      rewrite !list_ok_cons. cbn. replace (base + time t + (time tm - time t) + (time n - (time tm - time t)))
        with (base + time t + time n) by lia. split_and!; try lia; apply Ok2.
    + rewrite (proj2 (Z.ltb_ge _ _)) by lia.
      destruct (IH n (set_time (time tm - time t) tm) (base + time t)) as [I1 I2]; try done; cbn; try lia.
      cbn in I2. replace (base + time t + (time tm - time t)) with (base + time tm) in I2 by lia.
      rewrite I2. split; [|done]. rewrite list_ok_cons. split_and!; try lia; apply I1.
Qed.

Lemma insert_timeout_ok l timeout : list_ok 0 l → is_u32 (time timeout) →
  list_ok 0 (insert_timeout timeout l) ∧
  deadlines 0 (insert_timeout timeout l) = insert_deadline (time timeout, h timeout, arg timeout) (deadlines 0 l).
Proof.
  unfold is_u32. intros Ok Ht. destruct l as [|n rest]; cbn; rewrite ?Z.add_0_l.
  - rewrite list_ok_cons. split; [|done]. split_and!; try lia; repeat constructor.
  - pose proof Ok as (Hn1 & Hn2 & Ok2)%list_ok_cons. rewrite Z.add_0_l in Hn2, Ok2.
    destruct (Z.ltb_spec (time timeout) (time n)).
    + rewrite u32_id by (unfold is_u32; lia). cbn. rewrite Z.add_0_l.
      replace (time timeout + (time n - time timeout)) with (time n) by lia.
      split; [|done]. rewrite !list_ok_cons. cbn. rewrite Z.add_0_l.
      replace (time timeout + (time n - time timeout)) with (time n) by lia.
      split_and!; try lia; apply Ok2.
    + destruct (insert_after_ok rest n timeout 0 ltac:(lia) Ok ltac:(lia) ltac:(lia)) as [I1 I2]. split; [done|].
      rewrite I2. by rewrite !Z.add_0_l.
Qed.

(** [sys_timeout] adds the entry at its place in the order of deadlines,
    behind those of the same time, and moves no other deadline; the unsigned
    subtractions never wrap. *)
Theorem sys_timeout_inserts msecs handler a st n :
  list_ok 0 (next_timeout st) → is_u32 msecs → free st = S n →
  ∃ st', sys_timeout msecs handler a st = Some st' ∧ list_ok 0 (next_timeout st') ∧ free st' = n
    ∧ deadlines 0 (next_timeout st') = insert_deadline (msecs, handler, a) (deadlines 0 (next_timeout st)).
Proof.
  intros Ok Hm Hf. unfold sys_timeout. rewrite Hf. eexists. split; [done|]. cbn.
  destruct (insert_timeout_ok (next_timeout st) (MkTimeo msecs handler a) Ok Hm). done.
Qed.

Definition matches (handler : sys_timeout_handler) (a : Z) (d : entry) : bool := bool_decide (d.1.2 = handler) && (d.2 =? a).

Fixpoint remove_first (f : entry → bool) (l : list entry) : list entry :=
  match l with [] => [] | d :: l => if f d then l else d :: remove_first f l end.

Lemma remove_timeout_ok handler a : ∀ l base, 0 <= base → list_ok base l →
  list_ok base (remove_timeout handler a l).1
  ∧ deadlines base (remove_timeout handler a l).1 = remove_first (matches handler a) (deadlines base l)
  ∧ ((remove_timeout handler a l).2 = true ↔ Exists (matches handler a) (deadlines base l)).
Proof.
  induction l as [|t l IH]; intros base Hb Ok; cbn [remove_timeout deadlines remove_first].
  { split; [done|]. split; [done|]. split; [done|]. intros H. inversion H. }
  pose proof Ok as (H1 & H2 & Ok2)%list_ok_cons. unfold matches at 1. cbn [fst snd].
  rewrite Exists_cons. unfold matches at 2. cbn [fst snd].
  destruct (bool_decide (h t = handler) && (arg t =? a)) eqn:E.
  - cbn [fst snd]. destruct l as [|n l]; [split; [split; constructor|split; [done|]]; split; [by left|done]|].
    apply list_ok_cons in Ok2 as (H3 & H4 & Ok3). rewrite list_ok_cons. cbn.
    rewrite u32_id by (unfold is_u32; lia). replace (base + (time n + time t)) with (base + time t + time n) by lia.
    split; [|split; [done|]].
    + split; [lia|]. split; [lia|done].
    + split; [by left|done].
  - destruct (IH (base + time t) ltac:(lia) Ok2) as (I1 & I2 & I3).
    destruct (remove_timeout handler a l) as [l' b]. cbn [fst snd] in *. cbn [deadlines]. rewrite I2.
    rewrite list_ok_cons. split; [done|]. split; [done|]. rewrite I3. split; [by right|]. intros [?|?]; [done|done].
Qed.

(** [sys_untimeout] cancels the first timeout of that handler and argument
    and moves no other deadline. *)
Theorem sys_untimeout_removes handler a st :
  list_ok 0 (next_timeout st) →
  let st' := sys_untimeout handler a st in
  list_ok 0 (next_timeout st')
  ∧ deadlines 0 (next_timeout st') = remove_first (matches handler a) (deadlines 0 (next_timeout st))
  ∧ free st' = (if existsb (matches handler a) (deadlines 0 (next_timeout st)) then S (free st) else free st).
Proof.
  intros Ok st'. destruct (remove_timeout_ok handler a (next_timeout st) 0 ltac:(lia) Ok) as (I1 & I2 & I3).
  unfold st', sys_untimeout. destruct (remove_timeout handler a (next_timeout st)) as [l b]. cbn [fst snd] in *.
  destruct b; cbn [next_timeout set_list set_free free]; split; try done; split; try done.
  - assert (Exists (matches handler a) (deadlines 0 (next_timeout st))) as X by (by apply I3).
    apply Exists_exists in X as (d & Hd & Hm).
    assert (existsb (matches handler a) (deadlines 0 (next_timeout st)) = true) as ->; [|done].
    apply existsb_exists. exists d. split; [by apply list_elem_of_In|]. by apply Is_true_true.
  - destruct (existsb _ _) eqn:X; [|done]. apply existsb_exists in X as (d & Hd & Hm).
    assert (false = true) by (apply I3, Exists_exists; exists d; split; [by apply list_elem_of_In|by rewrite Hm]). done.
Qed.

(** ** [sys_check_timeouts] *)
Lemma deadlines_ge : ∀ l base, list_ok base l → Forall (λ d : entry, base <= d.1.1) (deadlines base l).
Proof.
  induction l as [|t l IH]; intros base Ok; cbn; [constructor|]. apply list_ok_cons in Ok as (H1 & H2 & Ok).
  constructor; [cbn; lia|]. eapply Forall_impl; [by apply IH|]. intros d Hd. cbn in Hd |- *. lia.
Qed.

Definition due (diff : Z) (d : entry) : Prop := d.1.1 <= diff.
#[export] Instance due_dec diff d : Decision (due diff d).
Proof. unfold due. apply _. Defined.

Definition plain (t : sys_timeo) : Prop := ∃ k, h t = other_handler k.

Section firing.
Context (ext : sys_timeout_handler → Z → timers → option timers).
Context (ext_quiet : ∀ k a st, ext (other_handler k) a st = Some st).

Lemma check_loop_ok now : ∀ l base fuel diff st,
  next_timeout st = l → list_ok base l → Forall plain l → 0 <= base → 0 <= diff < 4294967296 → (length l ≤ fuel)%nat →
  ∃ st' last, check_loop ext fuel now diff st = Some st'
    ∧ fired st' = fired st ++ ((λ d : entry, (d.1.2, d.2)) <$> filter (due (base + diff)) (deadlines base l))
    ∧ deadlines last (next_timeout st') = filter (λ d, ¬ due (base + diff) d) (deadlines base l)
    ∧ list_ok last (next_timeout st') ∧ base <= last <= base + diff
    ∧ (last = base ∨ ∃ d, d ∈ deadlines base l ∧ d.1.1 = last)
    ∧ timeouts_last_time st' = (if decide (filter (due (base + diff)) (deadlines base l) = []) then timeouts_last_time st else now).
Proof.
  induction l as [|t l IH]; intros base fuel diff st Hl Ok Pl Hb Hd Hf.
  - exists st, base. assert (check_loop ext fuel now diff st = Some st) as -> by (destruct fuel; cbn; by rewrite Hl).
    rewrite Hl. cbn. rewrite app_nil_r. split_and!; try done; try lia; by left.
  - pose proof Ok as (H1 & H2 & Ok2)%list_ok_cons. apply Forall_cons in Pl as [[k Hk] Pl].
    destruct (Z.leb_spec (time t) diff) as [Hle|Hgt].
    + destruct fuel as [|fuel]; [cbn in Hf; lia|]. cbn [check_loop]. rewrite Hl, (proj2 (Z.leb_le _ _)) by lia.
      rewrite Hk. unfold call_handler. rewrite ext_quiet. cbn [mbind option_bind].
      rewrite u32_id by (unfold is_u32; lia).
      destruct (IH (base + time t) fuel (diff - time t)
        (log_fired (other_handler k, arg t) (set_free (S (free (set_last_time now st))) (set_list l (set_last_time now st)))))
        as (st' & last & E & F & D & O & B & L & T); try done; try lia; [cbn in Hf; lia|].
      exists st', last. replace (base + time t + (diff - time t)) with (base + diff) in * by lia.
      split; [exact E|]. cbn [deadlines]. rewrite !filter_cons.
      rewrite (decide_True (P := due (base + diff) _)) by (unfold due; cbn; lia).
      rewrite (decide_False (P := ¬ due (base + diff) _)) by (unfold due; cbn; lia).
      rewrite F. cbn. rewrite <- app_assoc, Hk. split; [done|]. split; [done|]. split; [done|]. split; [lia|]. split.
      { right. destruct L as [->|(d & Hin & <-)]; [eexists; split; [by left|done]|exists d; split; [by right|done]]. }
      rewrite T. cbn. by case_decide.
    + exists st, base. assert (check_loop ext fuel now diff st = Some st) as ->.
      { destruct fuel; cbn; by rewrite Hl, (proj2 (Z.leb_gt _ _)) by lia. }
      assert (Forall (λ d, ¬ due (base + diff) d) (deadlines base (t :: l))) as N.
      { cbn. constructor; [unfold due; cbn; lia|]. eapply Forall_impl; [by apply deadlines_ge|].
        intros d Hd'. unfold due. cbn in Hd' |- *. lia. }
      assert (filter (due (base + diff)) (deadlines base (t :: l)) = []) as ->.
      { by apply filter_none. }
      assert (filter (λ d, ¬ due (base + diff) d) (deadlines base (t :: l)) = deadlines base (t :: l)) as ->.
      { by apply filter_all. }
      rewrite Hl. cbn [fmap list_fmap]. rewrite app_nil_r. split_and!; try done; try lia; by left.
Qed.
End firing.

(** With handlers that set no timeouts themselves, [sys_check_timeouts]
    ends and calls exactly the handlers whose deadline has passed, in the
    order of their deadlines; the others keep their distance to the last one
    that fired. *)
Theorem sys_check_timeouts_fires ext now st fuel :
  (∀ k a st, ext (other_handler k) a st = Some st) →
  list_ok 0 (next_timeout st) → Forall plain (next_timeout st) → (length (next_timeout st) ≤ fuel)%nat →
  let diff := u32 (now - timeouts_last_time st) in
  ∃ st' last, sys_check_timeouts ext fuel now st = Some st'
    ∧ fired st' = fired st ++ ((λ d : entry, (d.1.2, d.2)) <$> filter (due diff) (deadlines 0 (next_timeout st)))
    ∧ deadlines last (next_timeout st') = filter (λ d, ¬ due diff d) (deadlines 0 (next_timeout st))
    ∧ list_ok last (next_timeout st') ∧ 0 <= last <= diff
    ∧ (last = 0 ∨ ∃ d, d ∈ deadlines 0 (next_timeout st) ∧ d.1.1 = last).
Proof.
  intros Q Ok Pl Hf diff. pose proof (u32_range (now - timeouts_last_time st)) as B. unfold is_u32 in B. fold diff in B.
  destruct (check_loop_ok ext Q now (next_timeout st) 0 fuel diff st eq_refl Ok Pl ltac:(lia) B Hf)
    as (st' & last & E & F & D & O & Bl & L & _). rewrite !Z.add_0_l in *.
  exists st', last. split; [|done]. unfold sys_check_timeouts. destruct (next_timeout st) eqn:Hl; [|exact E].
  destruct fuel; cbn in E; by rewrite Hl in E.
Qed.

Definition quiet (_ : sys_timeout_handler) (_ : Z) (st : timers) : option timers := Some st.

Definition no_timers (now : Z) : timers := MkTimers [] now false false 8 [].

Definition two_timers : timers :=
  MkTimers [MkTimeo 100 (other_handler 1) 0; MkTimeo 50 (other_handler 2) 7] 1000 false false 6 [].

Lemma two_timers_ok : list_ok 0 (next_timeout two_timers) ∧ Forall plain (next_timeout two_timers).
Proof.
  split; [split; repeat constructor; cbn; lia|]. repeat constructor; by eexists.
Qed.

Lemma sys_timeout_inserts_witness :
  ∃ st', sys_timeout 120 (other_handler 3) 1 two_timers = Some st'
    ∧ deadlines 0 (next_timeout st') = [(100, other_handler 1, 0); (120, other_handler 3, 1); (150, other_handler 2, 7)].
Proof.
  destruct (sys_timeout_inserts 120 (other_handler 3) 1 two_timers 5) as (st' & E & _ & _ & D).
  - apply two_timers_ok.
  - unfold is_u32. lia.
  - reflexivity.
  - exists st'. split; [exact E|]. rewrite D. reflexivity.
Defined.

Lemma sys_untimeout_removes_witness :
  deadlines 0 (next_timeout (sys_untimeout (other_handler 1) 0 two_timers)) = [(150, other_handler 2, 7)].
Proof.
  destruct (sys_untimeout_removes (other_handler 1) 0 two_timers (proj1 two_timers_ok)) as (_ & D & _).
  rewrite D. reflexivity.
Defined.

Lemma sys_check_timeouts_fires_witness :
  ∃ st', sys_check_timeouts quiet 2 1110 two_timers = Some st' ∧ fired st' = [(other_handler 1, 0)].
Proof.
  destruct (sys_check_timeouts_fires quiet 1110 two_timers 2) as (st' & last & E & F & _).
  - done.
  - apply two_timers_ok.
  - apply two_timers_ok.
  - cbn. lia.
  - exists st'. split; [exact E|]. rewrite F. reflexivity.
Defined.

(** ** When timeouts really fire *)

(** The list counts from the last time a timeout fired, not from the call
    of [sys_timeout]: a timeout of 100 ms set at 100 fires at once when the
    last one fired at 0. *)
Theorem sys_timeout_early :
  (st ← sys_timeout 100 (other_handler 1) 0 (no_timers 0); sys_check_timeouts quiet 1 100 st)
    = Some (MkTimers [] 100 false false 8 [(other_handler 1, 0)]).
Proof. reflexivity. Qed.

(** The time that has passed since the deadline of the last handler that
    fired is lost: of two timeouts of 100 and 150 ms, checked at 140 and 189,
    the second one has not fired at 189. *)
Theorem sys_check_timeouts_drift :
  (st ← sys_check_timeouts quiet 2 1140 two_timers; sys_check_timeouts quiet 2 1189 st)
    = Some (MkTimers [MkTimeo 50 (other_handler 2) 7] 1140 false false 7 [(other_handler 1, 0)]).
Proof. reflexivity. Qed.
