(* ===== verification/Etharp.v ===== *)
(** * lwip-1.4.1/src/netif/etharp.c: the ARP cache, definitions

    Configuration: ARP_TABLE_SIZE 10, no queueing of several packets, no
    static entries, no VLAN, ETHARP_TRUST_IP_MAC 0, LWIP_AUTOIP 0, LWIP_DEBUG
    defined (so that a freed entry is cleaned out).  A null netif is 0.  Packets
    are those of Pbuf.v.  The driver's [linkoutput] is a parameter that
    decides about the error code; the frames handed to it are recorded. *)
From S2P Require Import Prelude LwipDef Chksum Memp Pbuf IpAddr.
Local Open Scope Z_scope.

Definition ARP_TABLE_SIZE : nat := 10.
Definition ARP_MAXAGE : Z := 240.
Definition ARP_AGE_REREQUEST_USED : Z := 228.
Definition ARP_MAXPENDING : Z := 2.
Definition ETHARP_FLAG_TRY_HARD : Z := 1.
Definition ETHARP_FLAG_FIND_ONLY : Z := 2.
Definition ETHARP_HWADDR_LEN : Z := 6.
Definition SIZEOF_ETH_HDR : Z := 14.
Definition SIZEOF_ETHARP_PACKET : Z := 42.
Definition ARP_REQUEST : Z := 1.
Definition ARP_REPLY : Z := 2.
Definition PBUF_FLAG_LLBCAST : Z := 8.
Definition PBUF_FLAG_LLMCAST : Z := 16.
Definition NETIF_FLAG_ETHARP : Z := 32.
Definition ERR_MEM : Z := -1.
Definition ERR_BUF : Z := -2.
Definition ERR_RTE : Z := -4.

(** 16-bit constants in network order, as they lie in memory. *)
Definition be16 (n : Z) : list Z := [n / 256; n mod 256].
Definition ETHTYPE_ARP : list Z := be16 2054.
Definition ETHTYPE_IP : list Z := be16 2048.
Definition HWTYPE_ETHERNET : list Z := be16 1.

Definition ethbroadcast : list Z := [255; 255; 255; 255; 255; 255].
Definition ethzero : list Z := [0; 0; 0; 0; 0; 0].

Inductive etharp_state :=
  | ETHARP_STATE_EMPTY | ETHARP_STATE_PENDING | ETHARP_STATE_STABLE | ETHARP_STATE_STABLE_REREQUESTING.

#[export] Instance etharp_state_eq_dec : EqDecision etharp_state.
Proof. solve_decision. Defined.

(** [state >= ETHARP_STATE_STABLE] *)
Definition at_least_stable (s : etharp_state) : bool :=
  match s with ETHARP_STATE_STABLE | ETHARP_STATE_STABLE_REREQUESTING => true | _ => false end.

Record etharp_entry := MkEntry {
  q : option Z;
  ipaddr : Z;
  netif_of : Z;
  ethaddr : list Z;
  state : etharp_state;
  ctime : Z }.

Record netif := MkNetif {
  netif_id : Z;
  hwaddr : list Z;
  hwaddr_len : Z;
  ip_addr : Z;
  netmask : Z;
  gw : Z;
  nflags : Z;
  mtu : Z }.

Definition ip_addr_isany (a : Z) : bool := a =? IPADDR_ANY.
(** [(addr & PP_HTONL(0xf0000000)) == PP_HTONL(0xe0000000)] *)
Definition ip_addr_ismulticast (a : Z) : bool := Z.land a 240 =? 224.
(** [(addr & PP_HTONL(0xffff0000)) == PP_HTONL(0xa9fe0000)] *)
Definition ip_addr_islinklocal (a : Z) : bool := Z.land a 65535 =? 65193.
Definition ip_addr_isbroadcast (a : Z) (n : netif) : bool :=
  ip4_addr_isbroadcast a (nflags n) (ip_addr n) (netmask n).

Definition set_q (p : option Z) (e : etharp_entry) : etharp_entry :=
  MkEntry p (ipaddr e) (netif_of e) (ethaddr e) (state e) (ctime e).
Definition set_ipaddr (a : Z) (e : etharp_entry) : etharp_entry :=
  MkEntry (q e) a (netif_of e) (ethaddr e) (state e) (ctime e).
Definition set_netif (n : Z) (e : etharp_entry) : etharp_entry :=
  MkEntry (q e) (ipaddr e) n (ethaddr e) (state e) (ctime e).
Definition set_ethaddr (m : list Z) (e : etharp_entry) : etharp_entry :=
  MkEntry (q e) (ipaddr e) (netif_of e) m (state e) (ctime e).
Definition set_state (s : etharp_state) (e : etharp_entry) : etharp_entry :=
  MkEntry (q e) (ipaddr e) (netif_of e) (ethaddr e) s (ctime e).
Definition set_ctime (n : Z) (e : etharp_entry) : etharp_entry :=
  MkEntry (q e) (ipaddr e) (netif_of e) (ethaddr e) (state e) n.

(** ** The state of the module *)
Record arp (A : Type) := MkArp {
  arp_table : list etharp_entry;
  etharp_cached_entry : Z;
  pheap : heap A;
  sent : list (Z * Z * list Z) }.
Arguments MkArp {A}.
Arguments arp_table {A}.
Arguments etharp_cached_entry {A}.
Arguments pheap {A}.
Arguments sent {A}.

(** The candidates [etharp_find_entry] collects: index and age. *)
Record candidates := MkCand {
  c_empty : option nat;
  old_stable : option nat; age_stable : Z;
  old_pending : option nat; age_pending : Z;
  old_queue : option nat; age_queue : Z }.

Definition no_candidates : candidates := MkCand None None 0 None 0 None 0.

(** One entry of the search: the match, or the candidates so far. *)
Definition search_entry (ip : option Z) (i : nat) (e : etharp_entry) (c : candidates) : nat + candidates :=
  if bool_decide (c_empty c = None) && bool_decide (state e = ETHARP_STATE_EMPTY)
  then inr (MkCand (Some i) (old_stable c) (age_stable c) (old_pending c) (age_pending c) (old_queue c) (age_queue c))
  else match state e with
  | ETHARP_STATE_EMPTY => inr c
  | s =>
      if match ip with Some a => a =? ipaddr e | None => false end then inl i else
      match s with
      | ETHARP_STATE_PENDING =>
          match q e with
          | Some _ =>
              if age_queue c <=? ctime e
              then inr (MkCand (c_empty c) (old_stable c) (age_stable c) (old_pending c) (age_pending c) (Some i) (ctime e))
              else inr c
          | None =>
              if age_pending c <=? ctime e
              then inr (MkCand (c_empty c) (old_stable c) (age_stable c) (Some i) (ctime e) (old_queue c) (age_queue c))
              else inr c
          end
      | _ =>
          if age_stable c <=? ctime e
          then inr (MkCand (c_empty c) (Some i) (ctime e) (old_pending c) (age_pending c) (old_queue c) (age_queue c))
          else inr c
      end
  end.

Fixpoint search_table (ip : option Z) (i : nat) (t : list etharp_entry) (c : candidates) : nat + candidates :=
  match t with
  | [] => inr c
  | e :: t => match search_entry ip i e c with inl i => inl i | inr c => search_table ip (S i) t c end
  end.

(** The entry to recycle when none is empty. *)
Definition recycle (c : candidates) : option nat :=
  match old_stable c with
  | Some i => Some i
  | None => match old_pending c with Some i => Some i | None => old_queue c end
  end.

Section operations.
Context {A : Type} `{Arena A}.
Context (linkoutput : netif → Z → heap A → Z).
Implicit Types (st : arp A) (n : netif).

Definition set_table (t : list etharp_entry) st : arp A := MkArp t (etharp_cached_entry st) (pheap st) (sent st).
Definition set_cached (i : Z) st : arp A := MkArp (arp_table st) i (pheap st) (sent st).
Definition set_heap (h : heap A) st : arp A := MkArp (arp_table st) (etharp_cached_entry st) h (sent st).

Definition upd_entry (i : nat) (f : etharp_entry → etharp_entry) st : arp A :=
  set_table (alter f i (arp_table st)) st.

Definition free_pbuf (p : Z) st : option (arp A) :=
  '(h, _) ← pbuf_free (Some p) (pheap st); Some (set_heap h st).

Definition etharp_free_entry (i : nat) st : option (arp A) :=
  e ← arp_table st !! i;
  st ← match q e with
       | Some p => st ← free_pbuf p st; Some (upd_entry i (set_q None) st)
       | None => Some st
       end;
  let st := upd_entry i (set_state ETHARP_STATE_EMPTY) st in
  let st := upd_entry i (set_ctime 0) st in
  let st := upd_entry i (set_netif 0) st in
  let st := upd_entry i (set_ipaddr 0) st in
  Some (upd_entry i (set_ethaddr ethzero) st).

(** The body of the loop of [etharp_tmr]. *)
Definition tmr_entry (i : nat) st : option (arp A) :=
  e ← arp_table st !! i;
  match state e with
  | ETHARP_STATE_EMPTY => Some st
  | _ =>
      let st := upd_entry i (set_ctime (u8 (ctime e + 1))) st in
      e ← arp_table st !! i;
      if (ARP_MAXAGE <=? ctime e) || (bool_decide (state e = ETHARP_STATE_PENDING) && (ARP_MAXPENDING <=? ctime e))
      then etharp_free_entry i st
      else if bool_decide (state e = ETHARP_STATE_STABLE_REREQUESTING)
           then Some (upd_entry i (set_state ETHARP_STATE_STABLE) st)
           else Some st
  end.

Fixpoint for_entries (f : nat → arp A → option (arp A)) (i k : nat) st : option (arp A) :=
  match k with
  | O => Some st
  | S k => st ← f i st; for_entries f (S i) k st
  end.

Definition etharp_tmr st : option (arp A) := for_entries tmr_entry 0 ARP_TABLE_SIZE st.

(** The index, or a negative error. *)
Definition etharp_find_entry (ip : option Z) (flags : Z) st : option (arp A * Z) :=
  match search_table ip 0 (arp_table st) no_candidates with
  | inl i => Some (st, Z.of_nat i)
  | inr c =>
      if negb (Z.land flags ETHARP_FLAG_FIND_ONLY =? 0)
         || (bool_decide (c_empty c = None) && (Z.land flags ETHARP_FLAG_TRY_HARD =? 0))
      then Some (st, ERR_MEM)
      else
        let finish i st :=
          e ← arp_table st !! i;
          _ ← lwip_assert (bool_decide (state e = ETHARP_STATE_EMPTY));
          let st := match ip with Some a => upd_entry i (set_ipaddr a) st | None => st end in
          Some (upd_entry i (set_ctime 0) st, Z.of_nat i) in
        match c_empty c with
        | Some i => finish i st
        | None =>
            match recycle c with
            | None => Some (st, ERR_MEM)
            | Some i =>
                e ← arp_table st !! i;
                _ ← lwip_assert (bool_decide (old_stable c = None) || bool_decide (q e = None));
                st ← etharp_free_entry i st;
                finish i st
            end
        end
  end.

(** [linkoutput]: the frame is the first pbuf's payload. *)
Definition link_output n (p : Z) st : option (arp A * Z) :=
  b ← pbufs (pheap st) !! p;
  let frame := read_mem (mem (pheap st)) (payload b) (Z.to_nat (len b)) in
  Some (MkArp (arp_table st) (etharp_cached_entry st) (pheap st) (sent st ++ [(netif_id n, p, frame)]),
        linkoutput n p (pheap st)).

Definition poke (a : Z) (l : list Z) (h : heap A) : heap A := with_mem (write_mem (mem h) a l) h.

Definition etharp_send_ip n (p : Z) (src dst : list Z) st : option (arp A * Z) :=
  b ← pbufs (pheap st) !! p;
  _ ← lwip_assert (hwaddr_len n =? ETHARP_HWADDR_LEN);
  let h := poke (payload b) dst (pheap st) in
  let h := poke (payload b + 6) src h in
  let h := poke (payload b + 12) ETHTYPE_IP h in
  link_output n p (set_heap h st).

Definition etharp_update_arp_entry n (ip : Z) (mac : list Z) (flags : Z) st : option (arp A * Z) :=
  _ ← lwip_assert (hwaddr_len n =? ETHARP_HWADDR_LEN);
  if ip_addr_isany ip || ip_addr_isbroadcast ip n || ip_addr_ismulticast ip then Some (st, ERR_ARG) else
  '(st, i) ← etharp_find_entry (Some ip) flags st;
  if i <? 0 then Some (st, i) else
  let i := Z.to_nat i in
  let st := upd_entry i (set_state ETHARP_STATE_STABLE) st in
  let st := upd_entry i (set_netif (netif_id n)) st in
  let st := upd_entry i (set_ethaddr mac) st in
  let st := upd_entry i (set_ctime 0) st in
  e ← arp_table st !! i;
  match q e with
  | None => Some (st, ERR_OK)
  | Some p =>
      let st := upd_entry i (set_q None) st in
      '(st, _) ← etharp_send_ip n p (hwaddr n) mac st;
      st ← free_pbuf p st;
      Some (st, ERR_OK)
  end.

Definition cleanup_entry n (i : nat) st : option (arp A) :=
  e ← arp_table st !! i;
  if negb (bool_decide (state e = ETHARP_STATE_EMPTY)) && (netif_of e =? netif_id n)
  then etharp_free_entry i st else Some st.

Definition etharp_cleanup_netif n st : option (arp A) := for_entries (cleanup_entry n) 0 ARP_TABLE_SIZE st.

(** The index and the addresses found, or [None] for -1. *)
Definition etharp_find_addr (ip : Z) st : option (arp A * option (Z * list Z * Z)) :=
  '(st, i) ← etharp_find_entry (Some ip) ETHARP_FLAG_FIND_ONLY st;
  if i <? 0 then Some (st, None) else
  e ← arp_table st !! Z.to_nat i;
  if at_least_stable (state e) then Some (st, Some (i, ethaddr e, ipaddr e)) else Some (st, None).

(** The ARP packet at [eth], laid out as struct eth_hdr and struct etharp_hdr. *)
Definition write_arp (eth : Z) (ethsrc ethdst hwsrc : list Z) (ipsrc : Z) (hwdst : list Z) (ipdst opcode : Z) (h : heap A) : heap A :=
  let hdr := eth + SIZEOF_ETH_HDR in
  let h := poke (hdr + 6) (be16 opcode) h in
  let h := poke (hdr + 8) hwsrc h in
  let h := poke (hdr + 18) hwdst h in
  let h := poke eth ethdst h in
  let h := poke (eth + 6) ethsrc h in
  let h := poke (hdr + 14) (le_split ipsrc) h in
  let h := poke (hdr + 24) (le_split ipdst) h in
  let h := poke hdr HWTYPE_ETHERNET h in
  let h := poke (hdr + 2) ETHTYPE_IP h in
  let h := poke (hdr + 4) [ETHARP_HWADDR_LEN] h in
  let h := poke (hdr + 5) [4] h in
  poke (eth + 12) ETHTYPE_ARP h.

Definition etharp_raw n (ethsrc ethdst hwsrc : list Z) (ipsrc : Z) (hwdst : list Z) (ipdst opcode : Z) st
    : option (arp A * Z) :=
  '(h, p) ← pbuf_alloc PBUF_RAW SIZEOF_ETHARP_PACKET PBUF_RAM (pheap st);
  match p with
  | None => Some (set_heap h st, ERR_MEM)
  | Some p =>
      b ← pbufs h !! p;
      _ ← lwip_assert (SIZEOF_ETHARP_PACKET <=? len b);
      _ ← lwip_assert (hwaddr_len n =? ETHARP_HWADDR_LEN);
      let h := write_arp (payload b) ethsrc ethdst hwsrc ipsrc hwdst ipdst opcode h in
      '(st, result) ← link_output n p (set_heap h st);
      st ← free_pbuf p st;
      Some (st, result)
  end.

Definition etharp_request n (ip : Z) st : option (arp A * Z) :=
  etharp_raw n (hwaddr n) ethbroadcast (hwaddr n) (ip_addr n) ethzero ip ARP_REQUEST st.

Definition etharp_output_to_arp_index n (p : Z) (i : nat) st : option (arp A * Z) :=
  e ← arp_table st !! i;
  _ ← lwip_assert (at_least_stable (state e));
  st ← (if bool_decide (state e = ETHARP_STATE_STABLE) && (ARP_AGE_REREQUEST_USED <=? ctime e)
        then '(st, r) ← etharp_request n (ipaddr e) st;
             Some (if r =? ERR_OK then upd_entry i (set_state ETHARP_STATE_STABLE_REREQUESTING) st else st)
        else Some st);
  e ← arp_table st !! i;
  etharp_send_ip n p (hwaddr n) (ethaddr e) st.

(** The scan for a pbuf that must be copied: the pbuf where it stopped. *)
Fixpoint copy_scan (fuel : nat) (p : option Z) (h : heap A) : option (option Z) :=
  match p with
  | None => Some None
  | Some p =>
      match fuel with
      | O => None
      | S fuel =>
          b ← pbufs h !! p;
          _ ← lwip_assert (negb (len b =? tot_len b) || bool_decide (next b = None));
          if decide (type b = PBUF_ROM) then copy_scan fuel (next b) h else Some (Some p)
      end
  end.

(** Taking the packet [pkt] over: the pbuf to queue, if any. *)
Definition take_over (pkt : Z) (h : heap A) : option (heap A * option Z) :=
  p ← copy_scan (size (pbufs h)) (Some pkt) h;
  match p with
  | Some p =>
      b ← pbufs h !! p;
      '(h, c) ← pbuf_alloc PBUF_RAW (tot_len b) PBUF_RAM h;
      match c with
      | None => Some (h, None)
      | Some c =>
          '(h, err) ← pbuf_copy (Some c) (Some pkt) h;
          if err =? ERR_OK then Some (h, Some c)
          else '(h, _) ← pbuf_free (Some c) h; Some (h, None)
      end
  | None => h ← pbuf_ref (Some pkt) h; Some (h, Some pkt)
  end.

Definition etharp_query n (ip : Z) (pkt : option Z) st : option (arp A * Z) :=
  if ip_addr_isbroadcast ip n || ip_addr_ismulticast ip || ip_addr_isany ip then Some (st, ERR_ARG) else
  '(st, i) ← etharp_find_entry (Some ip) ETHARP_FLAG_TRY_HARD st;
  if i <? 0 then Some (st, i) else
  let k := Z.to_nat i in
  e ← arp_table st !! k;
  let st := if bool_decide (state e = ETHARP_STATE_EMPTY) then upd_entry k (set_state ETHARP_STATE_PENDING) st else st in
  e ← arp_table st !! k;
  '(st, result) ← (if bool_decide (state e = ETHARP_STATE_PENDING) || bool_decide (pkt = None)
                   then etharp_request n ip st else Some (st, ERR_MEM));
  match pkt with
  | None => Some (st, result)
  | Some pkt =>
      e ← arp_table st !! k;
      if at_least_stable (state e) then
        etharp_send_ip n pkt (hwaddr n) (ethaddr e) (set_cached i st)
      else if bool_decide (state e = ETHARP_STATE_PENDING) then
        '(h, p) ← take_over pkt (pheap st);
        let st := set_heap h st in
        match p with
        | Some p =>
            st ← match q e with Some old => free_pbuf old st | None => Some st end;
            Some (upd_entry k (set_q (Some p)) st, ERR_OK)
        | None => Some (st, ERR_MEM)
        end
      else Some (st, result)
  end.

(** The first stable entry for the address. *)
Fixpoint find_stable (ip : Z) (i : nat) (t : list etharp_entry) : option nat :=
  match t with
  | [] => None
  | e :: t => if at_least_stable (state e) && (ip =? ipaddr e) then Some i else find_stable ip (S i) t
  end.

Definition mcast_mac (ip : Z) : list Z :=
  [1; 0; 94; Z.land (ip / 256 mod 256) 127; ip / 65536 mod 256; ip / 16777216 mod 256].

Definition etharp_output n (pkt : Z) (ip : Z) st : option (arp A * Z) :=
  '(h, r) ← pbuf_header pkt SIZEOF_ETH_HDR (pheap st);
  let st := set_heap h st in
  if negb (r =? 0) then Some (st, ERR_BUF) else
  if ip_addr_isbroadcast ip n then etharp_send_ip n pkt (hwaddr n) ethbroadcast st
  else if ip_addr_ismulticast ip then etharp_send_ip n pkt (hwaddr n) (mcast_mac ip) st
  else
    let local := ip_addr_netcmp ip (ip_addr n) (netmask n) || ip_addr_islinklocal ip in
    if negb local && ip_addr_isany (gw n) then Some (st, ERR_RTE) else
    let dst := if local then ip else gw n in
    e ← arp_table st !! Z.to_nat (etharp_cached_entry st);
    if at_least_stable (state e) && (dst =? ipaddr e)
    then etharp_output_to_arp_index n pkt (Z.to_nat (etharp_cached_entry st)) st
    else match find_stable dst 0 (arp_table st) with
         | Some i => etharp_output_to_arp_index n pkt i (set_cached (Z.of_nat i) st)
         | None => etharp_query n dst (Some pkt) st
         end.

Definition peek (h : heap A) (a : Z) (k : nat) : list Z := read_mem (mem h) a k.

(** The reply to an ARP request for our address, in the packet received. *)
Definition make_reply n (mac : list Z) (eth : Z) (h : heap A) : heap A :=
  let hdr := eth + SIZEOF_ETH_HDR in
  let h := poke (hdr + 6) (be16 ARP_REPLY) h in
  let h := poke (hdr + 24) (peek h (hdr + 14) 4) h in
  let h := poke (hdr + 14) (le_split (ip_addr n)) h in
  let h := poke (hdr + 18) (peek h (hdr + 8) 6) h in
  let h := poke eth (peek h (hdr + 8) 6) h in
  let h := poke (hdr + 8) mac h in
  poke (eth + 6) mac h.

Definition etharp_arp_input n (mac : list Z) (p : Z) st : option (arp A) :=
  b ← pbufs (pheap st) !! p;
  if len b <? SIZEOF_ETHARP_PACKET then free_pbuf p st else
  let h := pheap st in
  let eth := payload b in
  let hdr := eth + SIZEOF_ETH_HDR in
  if negb (bool_decide (peek h hdr 2 = HWTYPE_ETHERNET)) || negb (bool_decide (peek h (hdr + 4) 1 = [ETHARP_HWADDR_LEN]))
     || negb (bool_decide (peek h (hdr + 5) 1 = [4])) || negb (bool_decide (peek h (hdr + 2) 2 = ETHTYPE_IP))
  then free_pbuf p st else
  let sipaddr := le_num (peek h (hdr + 14) 4) in
  let dipaddr := le_num (peek h (hdr + 24) 4) in
  let for_us := if ip_addr_isany (ip_addr n) then false else dipaddr =? ip_addr n in
  '(st, _) ← etharp_update_arp_entry n sipaddr (peek h (hdr + 8) 6)
               (if for_us then ETHARP_FLAG_TRY_HARD else ETHARP_FLAG_FIND_ONLY) st;
  st ← (if bool_decide (peek (pheap st) (hdr + 6) 2 = be16 ARP_REQUEST) && for_us then
          _ ← lwip_assert (hwaddr_len n =? ETHARP_HWADDR_LEN);
          '(st, _) ← link_output n p (set_heap (make_reply n mac eth (pheap st)) st);
          Some st
        else Some st);
  free_pbuf p st.

(** [ip_input] is the IP layer's entry. *)
Definition ethernet_input (ip_input : Z → netif → arp A → option (arp A)) (p : Z) n st : option (arp A) :=
  b ← pbufs (pheap st) !! p;
  if len b <=? SIZEOF_ETH_HDR then free_pbuf p st else
  let h := pheap st in
  let dest := peek h (payload b) 6 in
  let type := peek h (payload b + 12) 2 in
  let fl :=
    if negb (Z.land (default 0 (dest !! 0%nat)) 1 =? 0) then
      if default 0 (dest !! 0%nat) =? 1 then
        if bool_decide (take 2 (drop 1 dest) = [0; 94]) then Z.lor (flags b) PBUF_FLAG_LLMCAST else flags b
      else if bool_decide (dest = ethbroadcast) then Z.lor (flags b) PBUF_FLAG_LLBCAST else flags b
    else flags b in
  h ← upd p (set_flags fl) h;
  let st := set_heap h st in
  if bool_decide (type = ETHTYPE_IP) then
    if Z.land (nflags n) NETIF_FLAG_ETHARP =? 0 then free_pbuf p st else
    '(h, r) ← pbuf_header p (- SIZEOF_ETH_HDR) (pheap st);
    _ ← lwip_assert (r =? 0);
    ip_input p n (set_heap h st)
  else if bool_decide (type = ETHTYPE_ARP) then
    if Z.land (nflags n) NETIF_FLAG_ETHARP =? 0 then free_pbuf p st else
    etharp_arp_input n (hwaddr n) p st
  else free_pbuf p st.

End operations.
