(* ===== verification/EtharpOk.v ===== *)
(** * etharp.c: the cache holds what it was told, frees what it queues and
    forgets what is old *)
From S2P Require Import Prelude LwipDef Chksum Memp Pbuf PbufRef PbufOwn IpAddr Etharp.
Local Open Scope Z_scope.

Implicit Types (t : list etharp_entry) (e : etharp_entry) (E : Z → nat).

Definition occupied e : bool := negb (bool_decide (state e = ETHARP_STATE_EMPTY)).

(** Each address has at most one entry; only pending entries hold a packet;
    the ages are those of live entries. *)
Record table_ok t : Prop := {
  tab_len : length t = ARP_TABLE_SIZE;
  tab_uniq i j e1 e2 : t !! i = Some e1 → t !! j = Some e2 → occupied e1 → occupied e2 → ipaddr e1 = ipaddr e2 → i = j;
  tab_queue i e : t !! i = Some e → q e ≠ None → state e = ETHARP_STATE_PENDING;
  tab_age i e : t !! i = Some e → 0 <= ctime e < ARP_MAXAGE }.

(** The references the table holds, besides [E]. *)
Definition holds (p : Z) e : nat := if decide (q e = Some p) then 1 else 0.

Fixpoint queue_refs t (p : Z) : nat :=
  match t with [] => 0 | e :: t => holds p e + queue_refs t p end.

Definition with_queue t E : Z → nat := λ p, (E p + queue_refs t p)%nat.

Lemma queue_refs_alter t i e f p : t !! i = Some e →
  (queue_refs (alter f i t) p + holds p e = queue_refs t p + holds p (f e))%nat.
Proof.
  revert i. induction t as [|x t IH]; intros [|i] Hi; [done..| |].
  - injection Hi as ->. change (alter f 0%nat (e :: t)) with (f e :: t). cbn [queue_refs]. lia.
  - change (alter f (S i) (x :: t)) with (x :: alter f i t). cbn [queue_refs]. specialize (IH i Hi). lia.
Qed.

Lemma queue_refs_same t i f p : (∀ e, q (f e) = q e) → queue_refs (alter f i t) p = queue_refs t p.
Proof.
  intros Hf. destruct (t !! i) as [e|] eqn:Hi.
  - pose proof (queue_refs_alter t i e f p Hi) as L. unfold holds in L. rewrite Hf in L. lia.
  - revert i Hi. induction t as [|x t IH]; intros [|i] Hi; [done..|].
    change (alter f (S i) (x :: t)) with (x :: alter f i t). cbn [queue_refs]. by rewrite IH.
Qed.

Lemma alter_insert f t i e : t !! i = Some e → alter f i t = <[i := f e]> t.
Proof.
  revert i. induction t as [|x t IH]; intros [|i] Hi; [done..|by injection Hi as ->|].
  change (alter f (S i) (x :: t)) with (x :: alter f i t). by rewrite (IH i).
Qed.

Lemma queue_refs_drop t i e p x : t !! i = Some e → q e = Some p →
  queue_refs t x = (queue_refs (alter (set_q None) i t) x + if decide (x = p) then 1 else 0)%nat.
Proof.
  intros Hi Hq. pose proof (queue_refs_alter t i e (set_q None) x Hi) as L. unfold holds in L. rewrite Hq in L.
  change (q (set_q None e)) with (@None Z) in L.
  destruct (decide (Some p = Some x)), (decide (@None Z = Some x)), (decide (x = p)); simplify_eq; lia.
Qed.

Lemma nth_lookup_Some' (l : list Z) i : (i < length l)%nat → l !! i = Some (nth i l 0).
Proof. intros Hi. destruct (lookup_lt_is_Some_2 l i Hi) as [x Hx]. rewrite Hx. f_equal. symmetry. by apply nth_lookup_Some. Qed.

Section arp.
Context {A : Type} `{HL : ArenaLaws A}.
Context (linkoutput : netif → Z → heap A → Z).
Implicit Types (st : arp A).

Definition arp_ok E st : Prop := heap_ok (pheap st) (with_queue (arp_table st) E) ∧ table_ok (arp_table st).

(** An operation that changes the table only where the queue is not. *)
Lemma heap_ok_table E st f i : (∀ e, q (f e) = q e) →
  heap_ok (pheap st) (with_queue (arp_table st) E) →
  heap_ok (pheap (upd_entry i f st)) (with_queue (arp_table (upd_entry i f st)) E).
Proof.
  intros Hf K. eapply heap_ok_ext; [|exact K]. intros p. unfold with_queue. cbn. by rewrite queue_refs_same.
Qed.

Definition empty_entry : etharp_entry := MkEntry None 0 0 ethzero ETHARP_STATE_EMPTY 0.

Lemma free_entry_ok E st i e :
  heap_ok (pheap st) (with_queue (arp_table st) E) → arp_table st !! i = Some e →
  ∃ st', etharp_free_entry i st = Some st'
    ∧ heap_ok (pheap st') (with_queue (arp_table st') E)
    ∧ arp_table st' = <[i := empty_entry]> (arp_table st)
    ∧ sent st' = sent st.
Proof.
  intros K Hi. unfold etharp_free_entry. rewrite Hi. cbn [mbind option_bind].
  assert (∃ st1, match q e with
       | Some p => st ← free_pbuf p st; Some (upd_entry i (set_q None) st)
       | None => Some st
       end = Some st1 ∧ heap_ok (pheap st1) (with_queue (arp_table st1) E)
       ∧ arp_table st1 = <[i := set_q None e]> (arp_table st) ∧ sent st1 = sent st) as (st1 & -> & K1 & T1 & S1).
  { destruct (q e) as [p|] eqn:Hq.
    - destruct (free_owned_ok (pheap st) p (with_queue (arp_table st) E) K) as (h' & n & Ef & K').
      { unfold with_queue. rewrite (queue_refs_drop _ i e p p Hi Hq), decide_True by done. lia. }
      unfold free_pbuf. rewrite Ef. cbn [mbind option_bind]. eexists. split; [done|]. cbn. split.
      + eapply heap_ok_ext; [|exact K']. intros x. unfold disown, with_queue.
        rewrite (queue_refs_drop _ i e p x Hi Hq). case_decide; lia.
      + split; [|done]. by rewrite (alter_insert _ _ i e).
    - exists st. split_and!; try done. rewrite list_insert_id; [done|]. rewrite Hi. f_equal. destruct e. cbn in *. by subst. }
  cbn [mbind option_bind]. eexists. split; [done|]. split; [by repeat apply heap_ok_table|]. split; [|done].
  cbn. rewrite T1. assert (Hi' : (i < length (arp_table st))%nat) by (by eapply lookup_lt_Some).
  do 5 (rewrite (alter_insert _ (<[i := _]> _) i _ (list_lookup_insert_eq _ i _ Hi')), list_insert_insert_eq).
  done.
Qed.

Lemma table_ok_insert t i e e0 : table_ok t → t !! i = Some e0 →
  (occupied e → occupied e0 ∧ ipaddr e = ipaddr e0 ∨ ∀ j e1, t !! j = Some e1 → j ≠ i → occupied e1 → ipaddr e1 ≠ ipaddr e) →
  (q e ≠ None → state e = ETHARP_STATE_PENDING) → 0 <= ctime e < ARP_MAXAGE →
  table_ok (<[i := e]> t).
Proof.
  intros [L U Q G] Hi Ho Hq Hc. constructor.
  - by rewrite length_insert.
  - intros a b e1 e2 Ha Hb O1 O2 Heq.
    apply list_lookup_insert_Some in Ha as [(<- & <- & _)|[Ha1 Ha]];
    apply list_lookup_insert_Some in Hb as [(<- & <- & _)|[Hb1 Hb]]; [done| | |by eapply U].
    + destruct (Ho O1) as [[O0 Hip]|Hne]; [apply (U i b e0 e2); congruence|].
      exfalso. eapply (Hne b e2); [done|congruence|done|congruence].
    + destruct (Ho O2) as [[O0 Hip]|Hne]; [apply (U a i e1 e0); congruence|].
      exfalso. eapply (Hne a e1); [done|congruence|done|congruence].
  - intros a e1 Ha. apply list_lookup_insert_Some in Ha as [(<- & <- & _)|[_ Ha]]; [done|by eapply Q].
  - intros a e1 Ha. apply list_lookup_insert_Some in Ha as [(<- & <- & _)|[_ Ha]]; [done|by eapply G].
Qed.

Lemma table_ok_empty t i e : table_ok t → t !! i = Some e → table_ok (<[i := empty_entry]> t).
Proof.
  intros K Hi. eapply table_ok_insert; [done|done| | |unfold ARP_MAXAGE; cbn; lia].
  - intros Ho. by vm_compute in Ho.
  - by intros [].
Qed.

(** ** [etharp_tmr] *)

(** What one tick makes of an entry. *)
Definition aged e : etharp_entry :=
  match state e with
  | ETHARP_STATE_EMPTY => e
  | s =>
      if (ARP_MAXAGE <=? ctime e + 1) || (bool_decide (s = ETHARP_STATE_PENDING) && (ARP_MAXPENDING <=? ctime e + 1))
      then empty_entry
      else set_state (if bool_decide (s = ETHARP_STATE_STABLE_REREQUESTING) then ETHARP_STATE_STABLE else s)
             (set_ctime (ctime e + 1) e)
  end.

Lemma tmr_entry_ok E st i e : arp_ok E st → arp_table st !! i = Some e →
  ∃ st', tmr_entry i st = Some st' ∧ arp_ok E st' ∧ arp_table st' = <[i := aged e]> (arp_table st) ∧ sent st' = sent st.
Proof.
  intros [K T] Hi. unfold tmr_entry. rewrite Hi. cbn [mbind option_bind].
  destruct (decide (state e = ETHARP_STATE_EMPTY)) as [He|He].
  { rewrite He. exists st. split; [done|]. split; [done|]. split; [|done]. unfold aged. rewrite He. by rewrite list_insert_id. }
  pose proof (tab_age _ T i e Hi) as Hage. unfold ARP_MAXAGE in Hage.
  set (st1 := upd_entry i (set_ctime (u8 (ctime e + 1))) st).
  assert (Ht1 : arp_table st1 = <[i := set_ctime (ctime e + 1) e]> (arp_table st)).
  { unfold st1. cbn. rewrite (alter_insert _ _ i e) by done. by rewrite u8_id by (unfold is_u8; lia). }
  assert (Hl : (i < length (arp_table st))%nat) by (by eapply lookup_lt_Some).
  assert (K1 : heap_ok (pheap st1) (with_queue (arp_table st1) E)) by (by apply heap_ok_table).
  assert (Hi1 : arp_table st1 !! i = Some (set_ctime (ctime e + 1) e)) by (by rewrite Ht1, list_lookup_insert_eq).
  assert (Hs1 : sent st1 = sent st) by done. clearbody st1.
  assert (match state e with ETHARP_STATE_EMPTY => Some st | _ =>
      e ← arp_table st1 !! i;
      if (ARP_MAXAGE <=? ctime e) || (bool_decide (state e = ETHARP_STATE_PENDING) && (ARP_MAXPENDING <=? ctime e))
      then etharp_free_entry i st1
      else if bool_decide (state e = ETHARP_STATE_STABLE_REREQUESTING)
           then Some (upd_entry i (set_state ETHARP_STATE_STABLE) st1) else Some st1 end
    = (e ← arp_table st1 !! i;
      if (ARP_MAXAGE <=? ctime e) || (bool_decide (state e = ETHARP_STATE_PENDING) && (ARP_MAXPENDING <=? ctime e))
      then etharp_free_entry i st1
      else if bool_decide (state e = ETHARP_STATE_STABLE_REREQUESTING)
           then Some (upd_entry i (set_state ETHARP_STATE_STABLE) st1) else Some st1)) as -> by (by destruct (state e)).
  rewrite Hi1. cbn [mbind option_bind ctime set_ctime state].
  assert (Ha : aged e = if (ARP_MAXAGE <=? ctime e + 1) || (bool_decide (state e = ETHARP_STATE_PENDING) && (ARP_MAXPENDING <=? ctime e + 1))
      then empty_entry
      else set_state (if bool_decide (state e = ETHARP_STATE_STABLE_REREQUESTING) then ETHARP_STATE_STABLE else state e)
             (set_ctime (ctime e + 1) e)) by (unfold aged; by destruct (state e)).
  rewrite Ha. destruct (_ || _) eqn:Eold.
  - destruct (free_entry_ok E st1 i _ K1 Hi1) as (st' & -> & K' & T' & S'). exists st'. split; [done|]. rewrite Hs1 in S'.
    assert (T2 : arp_table st' = <[i := empty_entry]> (arp_table st)) by (by rewrite T', Ht1, list_insert_insert_eq).
    split; [|done]. split; [done|]. rewrite T2. by eapply table_ok_empty.
  - apply orb_false_iff in Eold as [E1 _]. unfold ARP_MAXAGE in E1.
    assert (Hnew : ∀ s, occupied (set_state s (set_ctime (ctime e + 1) e)) → (s = state e ∨ (s = ETHARP_STATE_STABLE ∧ state e = ETHARP_STATE_STABLE_REREQUESTING)) →
      table_ok (<[i := set_state s (set_ctime (ctime e + 1) e)]> (arp_table st))).
    { intros s Ho Hs. eapply table_ok_insert; [done|done| | |unfold ARP_MAXAGE; cbn; lia].
      - intros _. left. split; [|done]. unfold occupied. by rewrite bool_decide_false.
      - cbn. intros Hq. pose proof (tab_queue _ T i e Hi Hq). destruct Hs as [->|[_ ?]]; congruence. }
    case_bool_decide as Hr.
    + eexists. split; [done|]. split; [split; [by apply heap_ok_table|]|split; [|done]]; cbn; rewrite Ht1.
      * rewrite (alter_insert _ _ i (set_ctime (ctime e + 1) e)) by (by rewrite list_lookup_insert_eq).
        rewrite list_insert_insert_eq. apply Hnew; auto.
      * rewrite (alter_insert _ _ i (set_ctime (ctime e + 1) e)) by (by rewrite list_lookup_insert_eq).
        by rewrite list_insert_insert_eq.
    + assert (set_state (state e) (set_ctime (ctime e + 1) e) = set_ctime (ctime e + 1) e) as Es by done.
      exists st1. split; [done|]. split; [split; [done|]|split; [by rewrite Es|done]].
      rewrite Ht1, <- Es. apply Hnew; [|by left]. unfold occupied. cbn. by rewrite bool_decide_false.
Qed.

Lemma for_entries_ok E (f : nat → arp A → option (arp A)) (g : etharp_entry → etharp_entry) :
  (∀ st i e, arp_ok E st → arp_table st !! i = Some e →
     ∃ st', f i st = Some st' ∧ arp_ok E st' ∧ arp_table st' = <[i := g e]> (arp_table st) ∧ sent st' = sent st) →
  ∀ k i st, arp_ok E st → (i + k = length (arp_table st))%nat →
  ∃ st', for_entries f i k st = Some st' ∧ arp_ok E st'
    ∧ arp_table st' = take i (arp_table st) ++ (g <$> drop i (arp_table st)) ∧ sent st' = sent st.
Proof.
  intros Hf. induction k as [|k IH]; intros i st K Hk; cbn [for_entries].
  - exists st. split; [done|]. split; [done|]. split; [|done]. rewrite drop_ge, take_ge by lia. by rewrite app_nil_r.
  - destruct (lookup_lt_is_Some_2 (arp_table st) i) as [e Hi]; [lia|].
    destruct (Hf st i e K Hi) as (st1 & -> & K1 & T1 & S1). cbn [mbind option_bind].
    destruct (IH (S i) st1 K1) as (st' & E' & K' & T' & S'); [rewrite T1, length_insert; lia|].
    exists st'. split; [exact E'|]. split; [done|]. split; [|congruence]. rewrite T', T1.
    assert (Hl : (i < length (arp_table st))%nat) by lia.
    rewrite (take_S_r _ i (g e)) by (by apply list_lookup_insert_eq).
    rewrite take_insert_ge, drop_insert_lt by lia. rewrite (drop_S (arp_table st) e i Hi), fmap_cons.
    by rewrite <- app_assoc.
Qed.

Lemma etharp_tmr_aged E st : arp_ok E st →
  ∃ st', etharp_tmr st = Some st' ∧ arp_ok E st' ∧ arp_table st' = aged <$> arp_table st ∧ sent st' = sent st.
Proof.
  intros K. destruct (for_entries_ok E tmr_entry aged (tmr_entry_ok E) ARP_TABLE_SIZE 0 st K) as (st' & Et & R).
  - destruct K as [_ T]. by rewrite (tab_len _ T).
  - exists st'. split; [exact Et|]. by rewrite take_0, drop_0 in R.
Qed.

Fixpoint ticks (k : nat) st : option (arp A) :=
  match k with O => Some st | S k => st ← etharp_tmr st; ticks k st end.

Lemma aged_older e n : (state e = ETHARP_STATE_EMPTY ∨ n <= ctime e) → 
  state (aged e) = ETHARP_STATE_EMPTY ∨ n + 1 <= ctime (aged e).
Proof.
  intros He. unfold aged. destruct (state e) eqn:Hs; [by left|..];
    (case_match; [by left|right; destruct He as [?|?]; [congruence|cbn; lia]]).
Qed.

(** C40. Every call of [etharp_tmr] ages all entries and frees the packets of
    those that expire, so that an entry that is not refreshed is gone after
    240 ticks (20 minutes), with no packet left behind. *)
Theorem etharp_entries_expire E st k :
  arp_ok E st → (240 ≤ k)%nat →
  ∃ st', ticks k st = Some st' ∧ heap_ok (pheap st') E ∧ Forall (λ e, state e = ETHARP_STATE_EMPTY) (arp_table st').
Proof.
  intros K Hk.
  assert (∀ n st, arp_ok E st → Forall (λ e, state e = ETHARP_STATE_EMPTY ∨ Z.of_nat n <= ctime e) (arp_table st) →
    ∃ st', ticks k st = Some st' ∧ arp_ok E st'
      ∧ Forall (λ e, state e = ETHARP_STATE_EMPTY ∨ Z.of_nat (n + k) <= ctime e) (arp_table st')) as X.
  { clear Hk K st. induction k as [|k IH]; intros n st K F; cbn [ticks].
    - exists st. by rewrite Nat.add_0_r.
    - destruct (etharp_tmr_aged E st K) as (st1 & -> & K1 & T1 & _). cbn [mbind option_bind].
      destruct (IH (S n) st1 K1) as (st' & E' & K' & F').
      { rewrite T1, Forall_fmap. eapply Forall_impl; [exact F|]. intros e He. cbn.
        rewrite Nat2Z.inj_succ, <- Z.add_1_r. by apply aged_older. }
      exists st'. by replace (n + S k)%nat with (S n + k)%nat by lia. }
  destruct (X 0%nat st K) as (st' & E' & [K' T'] & F').
  { apply Forall_forall. intros e He. right. apply list_elem_of_lookup in He as [i Hi].
    destruct K as [_ T]. pose proof (tab_age _ T i e Hi). lia. }
  assert (F2 : Forall (λ e, state e = ETHARP_STATE_EMPTY) (arp_table st')).
  { apply Forall_forall. intros e He. rewrite Forall_forall in F'. destruct (F' e He) as [?|?]; [done|].
    apply list_elem_of_lookup in He as [i Hi]. pose proof (tab_age _ T' i e Hi). unfold ARP_MAXAGE in *. lia. }
  exists st'. split; [done|]. split; [|done]. eapply heap_ok_ext; [|exact K']. intros p. unfold with_queue.
  assert (queue_refs (arp_table st') p = 0%nat) as ->; [|lia].
  assert (Q : ∀ i e, arp_table st' !! i = Some e → q e = None).
  { intros i e Hi. destruct (q e) eqn:Hq; [|done]. pose proof (tab_queue _ T' i e Hi ltac:(by rewrite Hq)).
    rewrite Forall_forall in F2. pose proof (F2 e ltac:(by eapply list_elem_of_lookup_2)). congruence. }
  clear -Q. induction (arp_table st') as [|e t IH]; [done|]. cbn. rewrite IH by (intros i; apply (Q (S i))).
  unfold holds. rewrite (Q 0%nat e eq_refl). by rewrite decide_False.
Qed.

(** ** [etharp_find_entry] *)
Definition in_class (P : etharp_entry → Prop) (pre : list etharp_entry) (o : option nat) (age : Z) : Prop :=
  match o with
  | Some i => ∃ e, pre !! i = Some e ∧ P e ∧ ctime e = age ∧ (∀ j e', pre !! j = Some e' → P e' → ctime e' <= age)
  | None => age = 0 ∧ ∀ j e, pre !! j = Some e → ¬ P e
  end.

Definition stable e : Prop := at_least_stable (state e) = true.
Definition pending_free e : Prop := state e = ETHARP_STATE_PENDING ∧ q e = None.
Definition pending_queued e : Prop := state e = ETHARP_STATE_PENDING ∧ q e ≠ None.

Record cand_ok (c : candidates) (pre : list etharp_entry) : Prop := {
  cand_empty : match c_empty c with
               | Some i => ∃ e, pre !! i = Some e ∧ state e = ETHARP_STATE_EMPTY
               | None => ∀ j e, pre !! j = Some e → state e ≠ ETHARP_STATE_EMPTY
               end;
  cand_stable : in_class stable pre (old_stable c) (age_stable c);
  cand_pending : in_class pending_free pre (old_pending c) (age_pending c);
  cand_queue : in_class pending_queued pre (old_queue c) (age_queue c) }.

Lemma in_class_skip (P : etharp_entry → Prop) pre o age e : ¬ P e → in_class P pre o age → in_class P (pre ++ [e]) o age.
Proof.
  intros Hn. destruct o as [i|]; cbn.
  - intros (e' & Hi & HP & Ha & Hmax). exists e'. split; [by apply lookup_app_l_Some|]. split; [done|]. split; [done|].
    intros j e2 [Hj|[_ Hj]]%lookup_app_Some HP2; [by eapply Hmax|]. apply list_lookup_singleton_Some in Hj as [_ <-]. done.
  - intros [Ha Hno]. split; [done|]. intros j e2 [Hj|[_ Hj]]%lookup_app_Some; [by eapply Hno|].
    apply list_lookup_singleton_Some in Hj as [_ <-]. done.
Qed.

Lemma in_class_take (P : etharp_entry → Prop) pre o age e : P e → age <= ctime e → in_class P pre o age →
  in_class P (pre ++ [e]) (Some (length pre)) (ctime e).
Proof.
  intros HP Hle C. exists e. split; [by rewrite lookup_app_r, Nat.sub_diag by lia|]. split; [done|]. split; [done|].
  intros j e2 [Hj|[_ Hj]]%lookup_app_Some HP2.
  - destruct o as [i|]; cbn in C; [destruct C as (_ & _ & _ & _ & Hmax); specialize (Hmax _ _ Hj HP2); lia|].
    destruct C as [_ Hno]. by destruct (Hno _ _ Hj).
  - apply list_lookup_singleton_Some in Hj as [_ <-]. lia.
Qed.

Lemma in_class_keep (P : etharp_entry → Prop) pre o age e : P e → ctime e < age → 0 <= ctime e → in_class P pre o age →
  in_class P (pre ++ [e]) o age.
Proof.
  intros HP Hlt H0 C. destruct o as [i|]; cbn in C |- *; [|lia].
  destruct C as (e' & Hi & HP' & Ha & Hmax). exists e'. split; [by apply lookup_app_l_Some|]. split; [done|]. split; [done|].
  intros j e2 [Hj|[_ Hj]]%lookup_app_Some HP2; [by eapply Hmax|]. apply list_lookup_singleton_Some in Hj as [_ <-]. lia.
Qed.

Lemma in_class_next (P : etharp_entry → Prop) pre o age e : P e → 0 <= ctime e → in_class P pre o age →
  in_class P (pre ++ [e]) (if age <=? ctime e then Some (length pre) else o) (if age <=? ctime e then ctime e else age).
Proof.
  intros HP H0 C. destruct (Z.leb_spec age (ctime e)); [by eapply in_class_take|by apply in_class_keep].
Qed.

Definition matching (ip : option Z) e : Prop := occupied e ∧ ip = Some (ipaddr e).

Lemma search_entry_ok ip e c pre : cand_ok c pre → 0 <= ctime e →
  match search_entry ip (length pre) e c with
  | inl i => i = length pre ∧ matching ip e
  | inr c' => cand_ok c' (pre ++ [e]) ∧ ¬ matching ip e
  end.
Proof.
  intros [C1 C2 C3 C4] H0.
  assert (Hc : match c_empty c with
     | Some i => ∃ e', (pre ++ [e]) !! i = Some e' ∧ state e' = ETHARP_STATE_EMPTY
     | None => state e ≠ ETHARP_STATE_EMPTY → ∀ j e', (pre ++ [e]) !! j = Some e' → state e' ≠ ETHARP_STATE_EMPTY end).
  { destruct (c_empty c) as [i|].
    - destruct C1 as (e' & ? & ?). exists e'. split; [by apply lookup_app_l_Some|done].
    - intros Hne j e' [Hj|[_ Hj]]%lookup_app_Some; [by eapply C1|]. by apply list_lookup_singleton_Some in Hj as [_ <-]. }
  unfold search_entry. destruct (decide (state e = ETHARP_STATE_EMPTY)) as [He|He].
  - assert (Hm : ¬ matching ip e) by (intros [Ho _]; unfold occupied in Ho; by rewrite bool_decide_true in Ho).
    assert (S1 : ¬ stable e) by (unfold stable; by rewrite He).
    assert (S2 : ¬ pending_free e) by (intros [? _]; congruence). assert (S3 : ¬ pending_queued e) by (intros [? _]; congruence).
    rewrite (bool_decide_true (state e = _)) by done. rewrite andb_true_r. case_bool_decide as Hce.
    + split; [|done]. constructor; cbn; [|by apply in_class_skip..]. exists e. by rewrite lookup_app_r, Nat.sub_diag by lia.
    + rewrite He. split; [|done]. constructor; [|by apply in_class_skip..]. revert Hc Hce. destruct (c_empty c); [done|congruence].
  - rewrite (bool_decide_false (state e = _)) by done. rewrite andb_false_r.
    assert (Hc' : match c_empty c with
     | Some i => ∃ e', (pre ++ [e]) !! i = Some e' ∧ state e' = ETHARP_STATE_EMPTY
     | None => ∀ j e', (pre ++ [e]) !! j = Some e' → state e' ≠ ETHARP_STATE_EMPTY end) by (revert Hc; destruct (c_empty c); [exact (λ x, x)|exact (λ x, x He)]).
    assert (Ho : occupied e) by (unfold occupied; by rewrite bool_decide_false).
    destruct (match ip with Some a => a =? ipaddr e | None => false end) eqn:Em.
    { assert (M : matching ip e).
      { split; [done|]. destruct ip as [a|]; [|done]. apply Z.eqb_eq in Em. by subst. }
      destruct (state e) eqn:Hs; [done|..]; (split; [done|exact M]). }
    assert (Hm : ¬ matching ip e).
    { intros [_ ->]. by rewrite Z.eqb_refl in Em. }
    destruct (state e) eqn:Hs; [done|..].
    + assert (S1 : ¬ stable e) by (unfold stable; by rewrite Hs).
      destruct (q e) eqn:Hq.
      * assert (S2 : ¬ pending_free e) by (intros [_ ?]; congruence).
        assert (S3 : pending_queued e) by (split; [done|congruence]).
        pose proof (in_class_next _ _ _ _ e S3 H0 C4) as N.
        destruct (age_queue c <=? ctime e); (split; [|done]; constructor; cbn; [done|by apply in_class_skip|by apply in_class_skip|done]).
      * assert (S2 : pending_free e) by done. assert (S3 : ¬ pending_queued e) by (intros [_ ?]; congruence).
        pose proof (in_class_next _ _ _ _ e S2 H0 C3) as N.
        destruct (age_pending c <=? ctime e); (split; [|done]; constructor; cbn; [done|by apply in_class_skip|done|by apply in_class_skip]).
    + assert (S1 : stable e) by (unfold stable; by rewrite Hs).
      assert (S2 : ¬ pending_free e) by (intros [? _]; congruence). assert (S3 : ¬ pending_queued e) by (intros [? _]; congruence).
      pose proof (in_class_next _ _ _ _ e S1 H0 C2) as N.
      destruct (age_stable c <=? ctime e); (split; [|done]; constructor; cbn; [done|done|by apply in_class_skip|by apply in_class_skip]).
    + assert (S1 : stable e) by (unfold stable; by rewrite Hs).
      assert (S2 : ¬ pending_free e) by (intros [? _]; congruence). assert (S3 : ¬ pending_queued e) by (intros [? _]; congruence).
      pose proof (in_class_next _ _ _ _ e S1 H0 C2) as N.
      destruct (age_stable c <=? ctime e); (split; [|done]; constructor; cbn; [done|done|by apply in_class_skip|by apply in_class_skip]).
Qed.

Lemma search_table_ok ip : ∀ t pre c, cand_ok c pre → (∀ i e, t !! i = Some e → 0 <= ctime e) →
  match search_table ip (length pre) t c with
  | inl i => ∃ e, (pre ++ t) !! i = Some e ∧ matching ip e
  | inr c' => cand_ok c' (pre ++ t) ∧ ∀ i e, t !! i = Some e → ¬ matching ip e
  end.
Proof.
  induction t as [|e t IH]; intros pre c C H0; cbn [search_table].
  - rewrite app_nil_r. split; [done|]. intros i e Hi. by rewrite lookup_nil in Hi.
  - pose proof (search_entry_ok ip e c pre C (H0 0%nat e eq_refl)) as S.
    destruct (search_entry ip (length pre) e c) as [i|c'].
    + destruct S as [-> M]. exists e. by rewrite lookup_app_r, Nat.sub_diag by lia.
    + destruct S as [C' M]. specialize (IH (pre ++ [e]) c' C' (λ i e2, H0 (S i) e2)).
      rewrite length_app in IH. cbn in IH. rewrite Nat.add_1_r in IH.
      destruct (search_table ip (S (length pre)) t c') as [i|c2]; rewrite <- app_assoc in IH; [done|].
      destruct IH as [IH1 IH2]. split; [done|]. intros [|i] e2 Hi; [by injection Hi as <-|by eapply IH2].
Qed.

Lemma no_candidates_ok : cand_ok no_candidates [].
Proof. by repeat split. Qed.

(** A full table always has an entry to recycle, the oldest of the least
    valuable kind there is. *)
Lemma recycle_some c t : cand_ok c t → c_empty c = None → t ≠ [] →
  ∃ i e, recycle c = Some i ∧ t !! i = Some e ∧ state e ≠ ETHARP_STATE_EMPTY
    ∧ (old_stable c ≠ None → stable e).
Proof.
  intros [C1 C2 C3 C4] He Hne. rewrite He in C1. unfold recycle.
  destruct (old_stable c) as [i|].
  { destruct C2 as (e & Hi & HP & _). exists i, e. split_and!; [done|done|by eapply C1|done]. }
  destruct (old_pending c) as [i|].
  { destruct C3 as (e & Hi & HP & _). exists i, e. split_and!; [done|done|by eapply C1|done]. }
  destruct (old_queue c) as [i|].
  { destruct C4 as (e & Hi & HP & _). exists i, e. split_and!; [done|done|by eapply C1|done]. }
  exfalso. destruct t as [|e t]; [done|]. destruct C2 as [_ N2], C3 as [_ N3], C4 as [_ N4].
  specialize (C1 0%nat e eq_refl). specialize (N2 0%nat e eq_refl). specialize (N3 0%nat e eq_refl). specialize (N4 0%nat e eq_refl).
  unfold stable, pending_free, pending_queued in *. destruct (state e); try done. destruct (q e); [apply N4|apply N3]; by split.
Qed.

Definition fresh_entry (ip : Z) e : etharp_entry := set_ctime 0 (set_ipaddr ip e).

Lemma find_entry_ok E ip flags st : arp_ok E st →
  ∃ st' r, etharp_find_entry (Some ip) flags st = Some (st', r) ∧ arp_ok E st' ∧ sent st' = sent st
  ∧ ((∃ i e, r = Z.of_nat i ∧ st' = st ∧ arp_table st !! i = Some e ∧ occupied e ∧ ipaddr e = ip)
     ∨ (r = ERR_MEM ∧ st' = st ∧ (Z.land flags ETHARP_FLAG_FIND_ONLY ≠ 0 ∨ Z.land flags ETHARP_FLAG_TRY_HARD = 0)
         ∧ ∀ i e, arp_table st !! i = Some e → occupied e → ipaddr e ≠ ip)
     ∨ (∃ i e0 e, r = Z.of_nat i ∧ arp_table st !! i = Some e0 ∧ Z.land flags ETHARP_FLAG_FIND_ONLY = 0
         ∧ arp_table st' = <[i := e]> (arp_table st) ∧ state e = ETHARP_STATE_EMPTY ∧ ipaddr e = ip ∧ q e = None ∧ ctime e = 0
         ∧ (occupied e0 → (∀ j e', arp_table st !! j = Some e' → occupied e'))
         ∧ ∀ j e', arp_table st !! j = Some e' → occupied e' → ipaddr e' ≠ ip)).
Proof.
  intros [K T]. unfold etharp_find_entry.
  pose proof (search_table_ok (Some ip) (arp_table st) [] no_candidates no_candidates_ok) as S.
  cbn [length app] in S. specialize (S (λ i e Hi, proj1 (tab_age _ T i e Hi))).
  destruct (search_table (Some ip) 0 (arp_table st) no_candidates) as [i|c].
  { destruct S as (e & Hi & Ho & Hip). exists st, (Z.of_nat i). injection Hip as Hip. split_and!; try done. left. eauto 10. }
  destruct S as [C M].
  assert (Hno : ∀ j e', arp_table st !! j = Some e' → occupied e' → ipaddr e' ≠ ip).
  { intros j e' Hj Ho Heq. apply (M j e' Hj). split; [done|congruence]. }
  destruct (Z.eqb_spec (Z.land flags ETHARP_FLAG_FIND_ONLY) 0) as [F0|F0]; cbn [negb orb].
  2:{ exists st, ERR_MEM. split_and!; try done. right; left. split_and!; auto. }
  set (fin := λ i st, e ← arp_table st !! i;
          _ ← lwip_assert (bool_decide (state e = ETHARP_STATE_EMPTY));
          Some (upd_entry i (set_ctime 0) (upd_entry i (set_ipaddr ip) st), Z.of_nat i)).
  assert (Fin : ∀ i e st, arp_table st !! i = Some e → state e = ETHARP_STATE_EMPTY → q e = None → arp_ok E st →
     ∃ st', fin i st = Some (st', Z.of_nat i) ∧ arp_ok E st' ∧ sent st' = sent st
       ∧ arp_table st' = <[i := fresh_entry ip e]> (arp_table st)).
  { clear. intros i e st Hi He Hq [K T]. unfold fin. rewrite Hi. cbn [mbind option_bind]. unfold lwip_assert.
    rewrite bool_decide_true by done. cbn [mbind option_bind]. eexists. split; [done|].
    assert (Hl : (i < length (arp_table st))%nat) by (by eapply lookup_lt_Some).
    assert (Ht : arp_table (upd_entry i (set_ctime 0) (upd_entry i (set_ipaddr ip) st)) = <[i := fresh_entry ip e]> (arp_table st)).
    { cbn. rewrite (alter_insert _ (arp_table st) i e Hi), (alter_insert _ _ i _ (list_lookup_insert_eq _ i _ Hl)).
      by rewrite list_insert_insert_eq. }
    split; [|split; [done|exact Ht]]. split; [by repeat apply heap_ok_table|]. rewrite Ht.
    eapply table_ok_insert; [done|done| | |unfold ARP_MAXAGE; cbn; lia].
    - intros Ho. unfold occupied in Ho. cbn in Ho. by rewrite bool_decide_true in Ho.
    - cbn. congruence. }
  destruct (c_empty c) as [i|] eqn:Hce.
  - rewrite bool_decide_false by done. cbn [andb].
    pose proof (cand_empty _ _ C) as Ce. rewrite Hce in Ce. destruct Ce as (e & Hi & He).
    assert (Hq : q e = None).
    { destruct (q e) eqn:Hq; [|done]. pose proof (tab_queue _ T i e Hi ltac:(by rewrite Hq)). congruence. }
    destruct (Fin i e st Hi He Hq (conj K T)) as (st' & Ef & K' & Se & T'). exists st', (Z.of_nat i).
    split; [exact Ef|]. split; [done|]. split; [done|]. right; right. exists i, e, (fresh_entry ip e).
    split_and!; try done. intros Ho. unfold occupied in Ho. by rewrite bool_decide_true in Ho.
  - rewrite bool_decide_true by done. cbn [andb].
    assert (Hall : ∀ j e', arp_table st !! j = Some e' → occupied e').
    { intros j e' Hj. pose proof (cand_empty _ _ C) as Ce. rewrite Hce in Ce. unfold occupied. rewrite bool_decide_false; [done|]. by eapply Ce. }
    destruct (Z.eqb_spec (Z.land flags ETHARP_FLAG_TRY_HARD) 0) as [T0|T0].
    { exists st, ERR_MEM. split_and!; try done. right; left. split_and!; auto. }
    destruct (recycle_some c _ C Hce) as (i & e & -> & Hi & Hne & Hst).
    { intros Hnil. pose proof (tab_len _ T) as L. by rewrite Hnil in L. }
    rewrite Hi. cbn [mbind option_bind]. unfold lwip_assert at 1.
    assert (bool_decide (old_stable c = None) || bool_decide (q e = None) = true) as ->.
    { apply orb_true_iff. destruct (decide (old_stable c = None)) as [|Hs]; [left; by rewrite bool_decide_true|right].
      rewrite bool_decide_true; [done|]. specialize (Hst Hs). destruct (q e) eqn:Hq; [|done].
      pose proof (tab_queue _ T i e Hi ltac:(by rewrite Hq)) as P. unfold stable in Hst. by rewrite P in Hst. }
    cbn [mbind option_bind]. destruct (free_entry_ok E st i e K Hi) as (st1 & -> & K1 & T1 & S1). cbn [mbind option_bind].
    assert (Hl : (i < length (arp_table st))%nat) by (by eapply lookup_lt_Some).
    assert (K1' : arp_ok E st1). { split; [done|]. rewrite T1. by eapply table_ok_empty. }
    destruct (Fin i empty_entry st1 ltac:(by rewrite T1, list_lookup_insert_eq) eq_refl eq_refl K1') as (st' & Ef & K' & Se & T').
    exists st', (Z.of_nat i). split; [exact Ef|]. split; [done|]. split; [congruence|]. right; right.
    exists i, e, (fresh_entry ip empty_entry). rewrite T', T1, list_insert_insert_eq. split_and!; try done; by eapply Hall.
Qed.

(** ** Sending and [etharp_update_arp_entry] *)
Lemma heap_ok_same h h' E : pbufs h' = pbufs h → (arena h' = arena h ∧ raw_flags h' = raw_flags h) →
  heap_ok h E → heap_ok h' E.
Proof. intros Hp [Ha Hr] [K1 K2 K3 K4 K5]. constructor; rewrite ?Hp, ?Ha, ?Hr; done. Qed.

Lemma poke_mem a l (h : heap A) x :
  mem (poke a l h) x = if decide (a <= x < a + Z.of_nat (length l)) then nth (Z.to_nat (x - a)) l 0 else mem h x.
Proof. done. Qed.

Lemma send_ip_ok n p src dst st b :
  pbufs (pheap st) !! p = Some b → hwaddr_len n = ETHARP_HWADDR_LEN → length src = 6%nat → length dst = 6%nat →
  ∃ st' r frame, etharp_send_ip linkoutput n p src dst st = Some (st', r)
    ∧ arp_table st' = arp_table st ∧ pbufs (pheap st') = pbufs (pheap st) ∧ (arena (pheap st') = arena (pheap st) ∧ raw_flags (pheap st') = raw_flags (pheap st))
    ∧ sent st' = sent st ++ [(netif_id n, p, frame)] ∧ (14 <= len b → take 14 frame = dst ++ src ++ ETHTYPE_IP
    ∧ drop 14 frame = drop 14 (read_mem (mem (pheap st)) (payload b) (Z.to_nat (len b)))).
Proof.
  intros Hb Hh Hs Hd. unfold etharp_send_ip. rewrite Hb. cbn [mbind option_bind]. unfold lwip_assert.
  rewrite Hh, Z.eqb_refl. cbn [mbind option_bind]. unfold link_output. cbn [pheap set_heap].
  assert (∀ a l (h : heap A), pbufs (poke a l h) = pbufs h) as Pp by done. rewrite !Pp, Hb. cbn [mbind option_bind].
  set (m := mem (poke (payload b + 12) ETHTYPE_IP _)).
  assert (Hm : ∀ k, 0 <= k → m (payload b + k) = if decide (k < 14) then nth (Z.to_nat k) (dst ++ src ++ ETHTYPE_IP) 0
    else mem (pheap st) (payload b + k)).
  { intros k Hk. unfold m. rewrite !poke_mem. rewrite Hs, Hd. change (length ETHTYPE_IP) with 2%nat.
    destruct (decide (k < 14)).
    - destruct (decide (payload b + 12 <= payload b + k < payload b + 12 + Z.of_nat 2)).
      { rewrite !app_nth2 by lia. f_equal. lia. }
      destruct (decide (payload b + 6 <= payload b + k < payload b + 6 + Z.of_nat 6)).
      { rewrite app_nth2, app_nth1 by lia. f_equal. lia. }
      rewrite decide_True, app_nth1 by lia. f_equal. lia.
    - rewrite !decide_False by lia. done. }
  eexists _, _, _. split; [done|]. cbn. split; [done|]. split; [done|]. split; [done|]. split; [done|]. intros Hl. split.
  - apply list_eq. intros i. destruct (decide (i < 14)%nat) as [Hi|Hi].
    + rewrite lookup_take_lt by done. unfold read_mem. rewrite list_lookup_fmap, lookup_seq_lt by lia. cbn [fmap option_fmap option_map].
      rewrite Nat.add_0_l, Hm, decide_True by lia. rewrite Nat2Z.id. symmetry. apply nth_lookup_Some'.
      rewrite !length_app, Hs, Hd. cbn. lia.
    + rewrite !lookup_ge_None_2; [done|rewrite !length_app, Hs, Hd; cbn; lia|rewrite length_take; lia].
  - apply list_eq. intros i. rewrite !lookup_drop. unfold read_mem. rewrite !list_lookup_fmap.
    destruct (decide (14 + i < Z.to_nat (len b))%nat).
    + rewrite !lookup_seq_lt by lia. cbn [fmap option_fmap option_map]. by rewrite Hm, decide_False by lia.
    + by rewrite !lookup_seq_ge by lia.
Qed.

Lemma queue_refs_insert t i e e' p : t !! i = Some e →
  (queue_refs (<[i := e']> t) p + holds p e = queue_refs t p + holds p e')%nat.
Proof.
  intros Hi. rewrite <- (alter_insert (λ _, e') t i e Hi). by apply (queue_refs_alter t i e (λ _, e')).
Qed.

(** The packet [p] goes out to [mac], with the Ethernet header in its first 14
    octets and the rest as it was. *)
Definition sends_frame n mac p st st' : Prop :=
  ∃ b frame, pbufs (pheap st) !! p = Some b ∧ sent st' = sent st ++ [(netif_id n, p, frame)]
    ∧ (14 <= len b → take 14 frame = mac ++ hwaddr n ++ ETHTYPE_IP
       ∧ drop 14 frame = drop 14 (read_mem (mem (pheap st)) (payload b) (Z.to_nat (len b)))).

Lemma update_found E n mac st i e :
  arp_ok E st → arp_table st !! i = Some e → (q e ≠ None → occupied e) →
  (∀ j e1, arp_table st !! j = Some e1 → j ≠ i → occupied e1 → ipaddr e1 ≠ ipaddr e) →
  hwaddr_len n = ETHARP_HWADDR_LEN → length (hwaddr n) = 6%nat → length mac = 6%nat →
  let e' := MkEntry None (ipaddr e) (netif_id n) mac ETHARP_STATE_STABLE 0 in
  ∃ st', (let st := upd_entry i (set_state ETHARP_STATE_STABLE) st in
    let st := upd_entry i (set_netif (netif_id n)) st in
    let st := upd_entry i (set_ethaddr mac) st in
    let st := upd_entry i (set_ctime 0) st in
    e ← arp_table st !! i;
    match q e with
    | None => Some (st, ERR_OK)
    | Some p =>
        let st := upd_entry i (set_q None) st in
        '(st, _) ← etharp_send_ip linkoutput n p (hwaddr n) mac st;
        st ← free_pbuf p st;
        Some (st, ERR_OK)
    end) = Some (st', ERR_OK)
    ∧ arp_ok E st' ∧ arp_table st' = <[i := e']> (arp_table st)
    ∧ match q e with
      | None => sent st' = sent st
      | Some p => sends_frame n mac p st st'
      end.
Proof.
  intros [K T] Hi Hqo Hu Hh Hw Hm e'. cbn zeta. assert (Hl : (i < length (arp_table st))%nat) by (by eapply lookup_lt_Some).
  set (st4 := upd_entry i (set_ctime 0) _).
  assert (T4 : arp_table st4 = <[i := set_q (q e) e']> (arp_table st)).
  { unfold st4. cbn. rewrite (alter_insert _ (arp_table st) i e Hi).
    do 3 (rewrite (alter_insert _ (<[i := _]> _) i _ (list_lookup_insert_eq _ i _ Hl)), list_insert_insert_eq). done. }
  assert (P4 : pheap st4 = pheap st ∧ sent st4 = sent st) by done. clearbody st4. destruct P4 as [P4 S4].
  rewrite T4, list_lookup_insert_eq by done. cbn [mbind option_bind q set_q].
  assert (T' : table_ok (<[i := e']> (arp_table st))).
  { eapply table_ok_insert; [done|done| |done|unfold ARP_MAXAGE; cbn; lia]. intros _. right. exact Hu. }
  destruct (q e) as [p|] eqn:Hq.
  - assert (K' : heap_ok (pheap st) (inc p (with_queue (<[i := e']> (arp_table st)) E))).
    { eapply heap_ok_ext; [|exact K]. intros x. unfold inc, with_queue.
      pose proof (queue_refs_insert _ i e e' x Hi) as L. unfold holds in L. rewrite Hq in L. cbn [q e'] in L.
      destruct (decide (x = p)) as [->|]; [rewrite decide_True, decide_False in L by done; lia|].
      rewrite !decide_False in L by congruence. lia. }
    destruct (ok_ext _ _ K' p) as [b Hb]; [unfold inc; by rewrite decide_True|].
    destruct (send_ip_ok n p (hwaddr n) mac (upd_entry i (set_q None) st4) b) as (st5 & r & frame & E5 & T5 & P5 & A5 & S5 & F5);
      [by cbn; rewrite P4|done|done|done|].
    rewrite E5. cbn [mbind option_bind].
    assert (T5' : arp_table st5 = <[i := e']> (arp_table st)).
    { rewrite T5. cbn. rewrite T4, (alter_insert _ _ i _ (list_lookup_insert_eq _ i _ Hl)), list_insert_insert_eq. done. }
    destruct (pbuf_free_ok (pheap st5) p (with_queue (<[i := e']> (arp_table st)) E)) as (h6 & k & E6 & K6 & _).
    { eapply (heap_ok_same (pheap st)); [by rewrite P5; cbn; rewrite P4|destruct A5 as [-> ->]; cbn; by rewrite P4|done]. }
    unfold free_pbuf. rewrite E6. cbn [mbind option_bind]. eexists. split; [done|]. cbn. rewrite T5'.
    split; [by split; cbn; rewrite ?T5'|]. split; [done|]. exists b, frame. split; [done|]. split; [by cbn; rewrite S5; cbn; rewrite S4|].
    intros H14. destruct (F5 H14) as [F6 F7]. split; [exact F6|]. rewrite F7. cbn. by rewrite P4.
  - exists st4. split; [done|]. assert (set_q None e' = e') as Ee by done. rewrite Ee in T4. split; [|by split].
    split; [|by rewrite T4]. rewrite P4, T4. eapply heap_ok_ext; [|exact K]. intros x. unfold with_queue.
    pose proof (queue_refs_insert _ i e e' x Hi) as L. unfold holds in L. rewrite Hq in L. cbn [q e'] in L. lia.
Qed.

Lemma search_entry_miss ip e k c j : search_entry (Some ip) k e c = inl j → j = k ∧ occupied e ∧ ipaddr e = ip.
Proof.
  unfold search_entry. case_match; [done|]. intros Hs.
  assert (occupied e) as Ho. { unfold occupied. destruct (decide (state e = ETHARP_STATE_EMPTY)) as [He|He];
    [rewrite He in Hs; discriminate|by rewrite bool_decide_false]. }
  destruct (Z.eqb_spec ip (ipaddr e)) as [->|]; destruct (state e); repeat case_match; simplify_eq; try discriminate; done.
Qed.

Lemma search_table_hit ip : ∀ t k c i e, t !! i = Some e → occupied e → ipaddr e = ip →
  (∀ j e1, t !! j = Some e1 → occupied e1 → ipaddr e1 = ip → j = i) → search_table (Some ip) k t c = inl (k + i)%nat.
Proof.
  induction t as [|x t IH]; intros k c i e Hi Ho Hip Hu; [done|]. cbn [search_table].
  destruct i as [|i].
  - injection Hi as ->. unfold search_entry.
    assert (state e ≠ ETHARP_STATE_EMPTY) as Hne by (unfold occupied in Ho; by case_bool_decide).
    rewrite (bool_decide_false (state e = _)) by done. rewrite andb_false_r, Hip, Z.eqb_refl, Nat.add_0_r.
    by destruct (state e).
  - pose proof (search_entry_miss ip x k c) as M.
    destruct (search_entry (Some ip) k x c) as [j|c'].
    + destruct (M j eq_refl) as (_ & Ho' & Hip'). by specialize (Hu 0%nat x eq_refl Ho' Hip').
    + rewrite (IH (S k) c' i e Hi Ho Hip); [f_equal; lia|]. intros j e1 Hj Ho1 Hip1. specialize (Hu (S j) e1 Hj Ho1 Hip1). lia.
Qed.

(** The entry [i] is updated, and found afterwards. *)
Lemma update_known E n ip mac st i e : arp_ok E st → arp_table st !! i = Some e → ipaddr e = ip → (q e ≠ None → occupied e) →
  (∀ j e1, arp_table st !! j = Some e1 → j ≠ i → occupied e1 → ipaddr e1 ≠ ip) →
  hwaddr_len n = ETHARP_HWADDR_LEN → length (hwaddr n) = 6%nat → length mac = 6%nat →
  ∃ st', (let st := upd_entry i (set_state ETHARP_STATE_STABLE) st in
      let st := upd_entry i (set_netif (netif_id n)) st in
      let st := upd_entry i (set_ethaddr mac) st in
      let st := upd_entry i (set_ctime 0) st in
      e ← arp_table st !! i;
      match q e with
      | None => Some (st, ERR_OK)
      | Some p =>
          let st := upd_entry i (set_q None) st in
          '(st, _) ← etharp_send_ip linkoutput n p (hwaddr n) mac st;
          st ← free_pbuf p st;
          Some (st, ERR_OK)
      end) = Some (st', ERR_OK) ∧ arp_ok E st'
    ∧ arp_table st' = <[i := MkEntry None ip (netif_id n) mac ETHARP_STATE_STABLE 0]> (arp_table st)
    ∧ etharp_find_addr ip st' = Some (st', Some (Z.of_nat i, mac, ip))
    ∧ match q e with Some p => sends_frame n mac p st st' | None => sent st' = sent st end.
Proof.
  intros K Hi Hipe Hqo Hu Hh Hw Hm.
  destruct (update_found E n mac st i e K Hi Hqo ltac:(by rewrite Hipe) Hh Hw Hm) as (st' & E' & K' & T' & Sn).
  exists st'. split; [exact E'|]. split; [done|]. rewrite Hipe in T'. split; [done|].
  assert (Hl : (i < length (arp_table st))%nat) by (by eapply lookup_lt_Some).
  assert (Hi' : arp_table st' !! i = Some (MkEntry None ip (netif_id n) mac ETHARP_STATE_STABLE 0))
    by (by rewrite T', list_lookup_insert_eq).
  split; [|by destruct (q e)]. unfold etharp_find_addr, etharp_find_entry.
  rewrite (search_table_hit ip (arp_table st') 0 no_candidates i _ Hi'); [|done|done|].
  2:{ intros j e1 Hj Ho1 Hip1. destruct K' as [_ T2]. by eapply (tab_uniq _ T2 j i). }
  cbn [mbind option_bind]. rewrite Nat.add_0_l, (proj2 (Z.ltb_ge (Z.of_nat i) 0)), Nat2Z.id by lia.
  by rewrite Hi'.
Qed.

(** The packet that waits for the address. *)
Definition waiting (ip : Z) e : option Z := if occupied e && (ipaddr e =? ip) then q e else None.

(** The entry for [ip]: the one that has it, or, unless [flags] forbids it, an
    entry that is empty, or any one when all are in use. *)
Definition entry_for (ip flags : Z) t e : Prop :=
  (occupied e ∧ ipaddr e = ip) ∨
  (flags = ETHARP_FLAG_TRY_HARD ∧ (∀ j e', t !! j = Some e' → occupied e' → ipaddr e' ≠ ip)
   ∧ (occupied e → ∀ j e', t !! j = Some e' → occupied e')).

(** C39. [etharp_update_arp_entry] records the pair of addresses, for a netif with a
    6-octet hardware address and a unicast IP address: the entry of the
    address, an empty one, or, in a full table, a recycled one, is stable, new
    and holds the hardware address, where [etharp_find_addr] finds it; all
    other entries are as before.  If a packet waited for the address, exactly
    that packet is sent, as a frame from the netif to the hardware address,
    and then freed (the counts are exact, [arp_ok]); otherwise nothing is
    sent.  With ETHARP_FLAG_TRY_HARD it always succeeds; with
    ETHARP_FLAG_FIND_ONLY it only touches an existing entry. *)
Theorem etharp_update_correct E n ip mac flags st :
  arp_ok E st → hwaddr_len n = ETHARP_HWADDR_LEN → length (hwaddr n) = 6%nat → length mac = 6%nat →
  ip_addr_isany ip || ip_addr_isbroadcast ip n || ip_addr_ismulticast ip = false →
  flags = ETHARP_FLAG_TRY_HARD ∨ flags = ETHARP_FLAG_FIND_ONLY →
  ∃ st' r, etharp_update_arp_entry linkoutput n ip mac flags st = Some (st', r) ∧ arp_ok E st'
    ∧ ((r = ERR_OK ∧ ∃ i e, arp_table st !! i = Some e ∧ entry_for ip flags (arp_table st) e
          ∧ arp_table st' = <[i := MkEntry None ip (netif_id n) mac ETHARP_STATE_STABLE 0]> (arp_table st)
          ∧ etharp_find_addr ip st' = Some (st', Some (Z.of_nat i, mac, ip))
          ∧ match waiting ip e with Some p => sends_frame n mac p st st' | None => sent st' = sent st end)
       ∨ (r = ERR_MEM ∧ flags = ETHARP_FLAG_FIND_ONLY ∧ st' = st
          ∧ ∀ i e, arp_table st !! i = Some e → occupied e → ipaddr e ≠ ip)).
Proof.
  intros K Hh Hw Hm Hip Hfl. unfold etharp_update_arp_entry. unfold lwip_assert at 1. rewrite Hh, Z.eqb_refl.
  cbn [mbind option_bind]. rewrite Hip.
  destruct (find_entry_ok E ip flags st K) as (st1 & r & Ef & K1 & S1 & Cases). rewrite Ef. cbn [mbind option_bind].
  destruct Cases as [(i & e & -> & -> & Hi & Ho & Hipe)|[(-> & -> & Hf & Hno)|(i & e0 & e & -> & Hi0 & Hfo & T1 & Hs & Hipe & Hq & _ & Hall & Hno)]].
  - destruct (update_known E n ip mac st i e K Hi Hipe) as (st' & E' & K' & T' & F' & Sn); try done.
    { intros j e1 Hj Hne Ho1 Hip1. apply Hne. destruct K as [_ T]. eapply (tab_uniq _ T j i); try done. congruence. }
    rewrite (proj2 (Z.ltb_ge (Z.of_nat i) 0)), Nat2Z.id by lia.
    exists st', ERR_OK. split; [exact E'|]. split; [done|]. left. split; [done|]. exists i, e. split; [done|]. split; [by left|].
    split; [done|]. split; [done|]. unfold waiting. by rewrite Hipe, Z.eqb_refl, (Is_true_true_1 _ Ho).
  - exists st, ERR_MEM. split; [done|]. split; [done|]. right. split_and!; try done.
    destruct Hfl as [->| ->]; [|done]. exfalso. by destruct Hf as [Hf|Hf]; vm_compute in Hf.
  - assert (Hl : (i < length (arp_table st))%nat) by (by eapply lookup_lt_Some).
    destruct (update_known E n ip mac st1 i e K1) as (st' & E' & K' & T' & F' & Sn); try done.
    { by rewrite T1, list_lookup_insert_eq. }
    { intros j e1 Hj Hne Ho1. rewrite T1, list_lookup_insert_ne in Hj by done. by eapply Hno. }
    rewrite Hq in Sn. rewrite T1, list_insert_insert_eq in T'.
    rewrite (proj2 (Z.ltb_ge (Z.of_nat i) 0)), Nat2Z.id by lia.
    exists st', ERR_OK. split; [exact E'|]. split; [done|]. left. split; [done|]. exists i, e0. split; [done|].
    split; [right; split; [destruct Hfl as [->| ->]; [done|by vm_compute in Hfo]|done]|].
    split; [done|]. split; [done|]. rewrite <- S1, <- Sn. unfold waiting. destruct (occupied e0) eqn:Ho; [|done].
    specialize (Hno i e0 Hi0 ltac:(by rewrite Ho)). by destruct (Z.eqb_spec (ipaddr e0) ip).
Qed.

(** One tick of the timer ages every live entry, turns a re-requesting
    entry back to stable and empties those that are too old, and the cache
    stays well formed: no address twice, packets only on pending entries, and
    the references of the queued packets exactly accounted for. *)
Theorem etharp_tmr_ages E st : arp_ok E st →
  ∃ st', etharp_tmr st = Some st' ∧ arp_ok E st' ∧ arp_table st' = aged <$> arp_table st ∧ sent st' = sent st.
Proof. apply etharp_tmr_aged. Qed.

(** [etharp_find_entry] returns the entry of the address if there is one;
    otherwise, if it may create one, an empty entry with that address, taken
    from the empty ones while there are any; all other entries stay. *)
Theorem etharp_find_entry_correct E ip flags st : arp_ok E st →
  ∃ st' r, etharp_find_entry (Some ip) flags st = Some (st', r) ∧ arp_ok E st' ∧ sent st' = sent st
  ∧ ((∃ i e, r = Z.of_nat i ∧ st' = st ∧ arp_table st !! i = Some e ∧ occupied e ∧ ipaddr e = ip)
     ∨ (r = ERR_MEM ∧ st' = st ∧ (Z.land flags ETHARP_FLAG_FIND_ONLY ≠ 0 ∨ Z.land flags ETHARP_FLAG_TRY_HARD = 0)
         ∧ ∀ i e, arp_table st !! i = Some e → occupied e → ipaddr e ≠ ip)
     ∨ (∃ i e0 e, r = Z.of_nat i ∧ arp_table st !! i = Some e0 ∧ Z.land flags ETHARP_FLAG_FIND_ONLY = 0
         ∧ arp_table st' = <[i := e]> (arp_table st) ∧ state e = ETHARP_STATE_EMPTY ∧ ipaddr e = ip ∧ q e = None ∧ ctime e = 0
         ∧ (occupied e0 → (∀ j e', arp_table st !! j = Some e' → occupied e'))
         ∧ ∀ j e', arp_table st !! j = Some e' → occupied e' → ipaddr e' ≠ ip)).
Proof. apply find_entry_ok. Qed.
End arp.

(** ** Witnesses *)
Definition eth0 : netif := MkNetif 1 [2; 0; 0; 0; 0; 1] 6 16820416 16777215 33597632 34 1500.
Definition quiet_link (_ : netif) (_ : Z) (_ : heap bump) : Z := ERR_OK.
Definition no_arp : arp bump := MkArp (replicate 10 empty_entry) 0 empty_heap [].

Lemma no_arp_ok : arp_ok (λ _, 0%nat) no_arp.
Proof.
  split.
  - eapply heap_ok_ext; [|exact empty_heap_ok]. done.
  - change (arp_table no_arp) with (replicate 10 empty_entry). constructor; [done| | |].
    + intros i j e1 e2 [-> _]%lookup_replicate_1 _ Ho. by vm_compute in Ho.
    + intros i e [-> _]%lookup_replicate_1. by intros [].
    + intros i e [-> _]%lookup_replicate_1. cbn. unfold ARP_MAXAGE. lia.
Qed.

(** A packet of 34 octets at 16 waits for the address 192.168.2.2. *)
Definition waiting_entry : etharp_entry := MkEntry (Some 16) 33597632 1 ethzero ETHARP_STATE_PENDING 0.
Definition one_waiting : arp bump :=
  MkArp (waiting_entry :: replicate 9 empty_entry) 0
    (MkHeap {[ 16 := MkPbuf None 1000 34 34 PBUF_RAM 0 1 ]} (λ _, 7) (MkBump 4096 {[16 := HEAP]}) (λ _, 0) false) [].

Lemma one_waiting_entries i e : arp_table one_waiting !! i = Some e → (i = 0%nat ∧ e = waiting_entry) ∨ e = empty_entry.
Proof.
  change (arp_table one_waiting) with (waiting_entry :: replicate 9 empty_entry).
  destruct i as [|i]; [intros [= <-]; by left|]. intros [-> _]%(lookup_replicate_1 9); by right.
Qed.

Lemma one_waiting_pbuf p b : pbufs (pheap one_waiting) !! p = Some b → 16 = p ∧ b = MkPbuf None 1000 34 34 PBUF_RAM 0 1.
Proof. cbn. rewrite lookup_singleton_Some. naive_solver. Qed.

Lemma one_waiting_ok : arp_ok (λ _, 0%nat) one_waiting.
Proof.
  split; constructor.
  - intros p b [<- ->]%one_waiting_pbuf. by vm_compute.
  - by intros p b r [<- ->]%one_waiting_pbuf.
  - intros p Hp. unfold with_queue in Hp. cbn in Hp. unfold holds in Hp. cbn in Hp.
    destruct (decide (Some 16 = Some p)) as [[= <-]|]; [by eexists|done].
  - by intros p b [<- ->]%one_waiting_pbuf.
  - done.
  - done.
  - intros i j e1 e2 [[-> ->]| ->]%one_waiting_entries [[-> ->]| ->]%one_waiting_entries O1 O2 _; [done|..]; by vm_compute in O1, O2.
  - intros i e [[-> ->]| ->]%one_waiting_entries; [done|by intros []].
  - intros i e [[-> ->]| ->]%one_waiting_entries; cbn; unfold ARP_MAXAGE; lia.
Qed.

Lemma etharp_entries_expire_witness :
  ∃ st', ticks 240 one_waiting = Some st' ∧ heap_ok (pheap st') (λ _, 0%nat) ∧ Forall (λ e, state e = ETHARP_STATE_EMPTY) (arp_table st').
Proof.
  destruct (etharp_entries_expire (λ _, 0%nat) one_waiting 240 one_waiting_ok) as (st' & Et & K & F); [lia|].
  exists st'. split; [exact Et|]. split; [exact K|exact F].
Defined.

Lemma etharp_update_correct_witness :
  ∃ st', etharp_update_arp_entry quiet_link eth0 33597632 [2; 0; 0; 0; 0; 9] ETHARP_FLAG_TRY_HARD one_waiting = Some (st', ERR_OK)
    ∧ ∃ frame, sent st' = [(1, 16, frame)] ∧ take 14 frame = [2; 0; 0; 0; 0; 9; 2; 0; 0; 0; 0; 1; 8; 0].
Proof.
  destruct (etharp_update_correct quiet_link (λ _, 0%nat) eth0 33597632 [2; 0; 0; 0; 0; 9] ETHARP_FLAG_TRY_HARD one_waiting one_waiting_ok)
    as (st' & r & Et & _ & [[-> F]|(_ & Hf & _)]).
  - reflexivity.
  - reflexivity.
  - reflexivity.
  - vm_compute. reflexivity.
  - left. reflexivity.
  - exists st'. split; [exact Et|]. destruct F as (i & e & Hi & He & _ & _ & S).
    apply one_waiting_entries in Hi as [[-> ->]| ->].
    + destruct S as (b & frame & Hb & S & F). exists frame. split; [exact S|].
      apply one_waiting_pbuf in Hb as [_ ->]. apply F. vm_compute. congruence.
    + exfalso. destruct He as [[Ho _]|(_ & Hno & _)]; [by vm_compute in Ho|].
      by apply (Hno 0%nat waiting_entry).
  - discriminate Hf.
Defined.

Lemma etharp_tmr_ages_witness : ∃ st', etharp_tmr no_arp = Some st' ∧ arp_table st' = arp_table no_arp.
Proof.
  destruct (etharp_tmr_ages (λ _, 0%nat) no_arp no_arp_ok) as (st' & Et & _ & T & _). exists st'. split; [exact Et|].
  rewrite T. reflexivity.
Defined.

Lemma etharp_find_entry_correct_witness :
  ∃ st' r, etharp_find_entry (Some 33597632) ETHARP_FLAG_TRY_HARD no_arp = Some (st', r) ∧ arp_ok (λ _, 0%nat) st' ∧ r = 0.
Proof.
  destruct (etharp_find_entry_correct (λ _, 0%nat) 33597632 ETHARP_FLAG_TRY_HARD no_arp no_arp_ok) as (st' & r & Et & K & _).
  exists st', r. split; [exact Et|]. split; [exact K|]. vm_compute in Et. congruence.
Defined.

(** ** A packet whose first pbuf is in ROM *)

(** A packet of a PBUF_ROM of 20 octets and a pbuf of 10 octets of type [ty]. *)
Definition rom_packet (ty : pbuf_type) : arp bump :=
  MkArp (replicate 10 empty_entry) 0
    (MkHeap {[ 16 := MkPbuf (Some 32) 1000 30 20 PBUF_ROM 0 1; 32 := MkPbuf None 2000 10 10 ty 0 1 ]}
      (λ _, 0) (MkBump 4096 {[16 := POOL MEMP_PBUF; 32 := block_of (MkPbuf None 2000 10 10 ty 0 1)]}) (λ _, 0) false) [].

(** [etharp_query] allocates the copy of a packet that waits for an
    address with the length from the first pbuf that is not in ROM on: when
    that is not the first one, [pbuf_copy] refuses the copy and the packet is
    lost with ERR_MEM although there is memory. *)
Theorem etharp_query_drops_rom_ram :
  option_map snd (etharp_query quiet_link eth0 33597632 (Some 16) (rom_packet PBUF_RAM)) = Some ERR_MEM
  ∧ option_map snd (etharp_query quiet_link eth0 33597632 (Some 16) (rom_packet PBUF_ROM)) = Some ERR_OK
  ∧ option_map snd (etharp_query quiet_link eth0 33597632 (Some 32) (rom_packet PBUF_RAM)) = Some ERR_OK.
Proof. vm_compute. done. Qed.
