(* ===== verification/KList.v ===== *)
(** * The kernel's lists as an interface

    tasks.c, queue.c and event_groups.c use the lists of list.c only through
    the operations and macros of list.h.  [KLists] is that interface; the
    kernel's functions are written against it.  Two instances are given: the
    store of pointers of RtosList.v, on which the C code runs, and its
    abstract state, on which the kernel is reasoned about.  [KListsSim] says
    that a computation on the abstract state is one on the store. *)
From S2P Require Import Prelude RtosList.
Local Open Scope Z_scope.

(** The operations: those of list.c, and the two points where the memory of a
    list item appears (pvPortMalloc of a TCB, then [vListInitialiseItem],
    [listSET_LIST_ITEM_OWNER] and [listSET_LIST_ITEM_VALUE]) and disappears
    (vPortFree), and the point where the memory of a list disappears. *)
Inductive kop :=
  | KOp (o : op)
  | KNew (i : positive) (v o : Z)
  | KDrop (i : positive)
  | KFree (l : positive).

(** The macros that read: [listCURRENT_LIST_LENGTH] (and [listLIST_IS_EMPTY]),
    [listGET_LIST_ITEM_VALUE], [listGET_ITEM_VALUE_OF_HEAD_ENTRY],
    [listGET_OWNER_OF_HEAD_ENTRY], [listGET_LIST_ITEM_OWNER], and [listGET_NEXT]
    of an item of [l], or of its end marker ([listGET_HEAD_ENTRY]): 0 is the
    end marker, another value an item. *)
Inductive kread :=
  | RdLength (l : positive)
  | RdValue (i : positive)
  | RdHeadValue (l : positive)
  | RdHeadOwner (l : positive)
  | RdOwner (i : positive)
  | RdNext (l : positive) (i : option positive).

Class KLists (S : Type) := {
  kl_exec : kop → S → option (S * Z);
  kl_read : kread → S → option Z;
  kl_container : positive → S → option (option positive) }.

(** All operations but the last, which tasks.c does not use. *)
Class KeepsLists (o : kop) : Prop := keeps_lists : match o with KFree _ => False | _ => True end.
#[export] Instance KOp_keeps o : KeepsLists (KOp o) := Logic.I.
#[export] Instance KNew_keeps i v o : KeepsLists (KNew i v o) := Logic.I.
#[export] Instance KDrop_keeps i : KeepsLists (KDrop i) := Logic.I.

(** [R] relates a state of the implementation to one of the specification. *)
Class KListsSim (S A : Type) `{KLists S, KLists A} (R : S → A → Prop) : Prop := {
  sim_exec s a o a' r : KeepsLists o → R s a → kl_exec o a = Some (a', r) →
    ∃ s', kl_exec o s = Some (s', r) ∧ R s' a';
  sim_read s a q r : R s a → kl_read q a = Some r → kl_read q s = Some r;
  sim_container s a i c : R s a → kl_container i a = Some c → kl_container i s = Some c }.

Class KListsFreeSim (S A : Type) `{KLists S, KLists A} (R : S → A → Prop) : Prop :=
  sim_free s a l a' r : R s a → kl_exec (KFree l) a = Some (a', r) →
    ∃ s', kl_exec (KFree l) s = Some (s', r) ∧ R s' a'.

(** ** The store of list.c *)

Definition store_new (i : positive) (v o : Z) (st : store) : option store :=
  match links st !! Item i with
  | Some _ => None
  | None => Some (MkStore (<[Item i := MkLinks (u32 v) None None]> (links st))
                    (<[i := MkExt o None]> (exts st)) (hdrs st))
  end.

Definition store_drop (i : positive) (st : store) : store :=
  MkStore (delete (Item i) (links st)) (delete i (exts st)) (hdrs st).

(** vPortFree clears the memory. *)
Definition store_free (l : positive) (st : store) : store :=
  MkStore (<[End l := MkLinks 0 None None]> (links st)) (exts st) (<[l := MkHdr 0 None]> (hdrs st)).

Definition store_exec (o : kop) (st : store) : option (store * Z) :=
  match o with
  | KOp o => exec o st
  | KNew i v w => (λ s, (s, 0)) <$> store_new i v w st
  | KDrop i => Some (store_drop i st, 0)
  | KFree l => Some (store_free l st, 0)
  end.

Definition next_entry (l : positive) (i : option positive) (st : store) : option Z :=
  n ← nxt st (cursor_ptr l i);
  match n with
  | Item j => Some (Zpos j)
  | End l' => if bool_decide (l' = l) then Some 0 else None
  end.

Definition store_read (q : kread) (st : store) : option Z :=
  match q with
  | RdLength l => h ← hdrs st !! l; Some (uxNumberOfItems h)
  | RdValue i => val st (Item i)
  | RdHeadValue l => listGET_ITEM_VALUE_OF_HEAD_ENTRY l st
  | RdHeadOwner l => listGET_OWNER_OF_HEAD_ENTRY l st
  | RdOwner i => own st i
  | RdNext l i => next_entry l i st
  end.

#[export] Instance store_klists : KLists store :=
  { kl_exec := store_exec; kl_read := store_read; kl_container := λ i st, cont st i }.

(** ** The abstract state *)

Definition holds (A : astate) (l i : positive) : Prop :=
  ∃ a, a_lists A !! l = Some a ∧ i ∈ elems a.

(** The list that holds an item. *)
Definition a_container (A : astate) (i : positive) : option positive :=
  fst <$> head (filter (λ la, i ∈ elems la.2) (map_to_list (a_lists A))).

Definition a_new (i : positive) (v o : Z) (A : astate) : astate :=
  MkAstate (a_mem A) (a_lists A) ({[i]} ∪ a_items A)
    (λ j, if decide (j = i) then u32 v else a_val A j) (λ j, if decide (j = i) then o else a_own A j).

Definition a_drop (i : positive) (A : astate) : astate :=
  MkAstate (a_mem A) (a_lists A) (a_items A ∖ {[i]}) (a_val A) (a_own A).

Definition a_free (A : astate) (i : positive) : bool :=
  bool_decide (i ∈ a_items A) && bool_decide (a_container A i = None).

(** Only an empty list may be freed: an item on it would keep pointing to it. *)
Definition a_free_list (l : positive) (A : astate) : option astate :=
  a ← a_lists A !! l;
  if bool_decide (elems a = [])
  then Some (MkAstate (a_mem A) (delete l (a_lists A)) (a_items A) (a_val A) (a_own A)) else None.

(** [a_step] as a function. *)
Definition a_exec_op (o : op) (A : astate) : option (astate * Z) :=
  match o with
  | OpInit l =>
      if bool_decide (l ∈ a_mem A) && bool_decide (a_lists A !! l = None)
      then Some (set_alist l (MkAlist [] None) A, 0) else None
  | OpInitItem i => if a_free A i then Some (A, 0) else None
  | OpInsertEnd l i =>
      a ← a_lists A !! l;
      if a_free A i then Some (set_alist l (a_insert_end i a) A, 0) else None
  | OpInsert l i =>
      a ← a_lists A !! l;
      if a_free A i then Some (set_alist l (a_insert (a_val A) i a) A, 0) else None
  | OpRemove i =>
      l ← a_container A i; a ← a_lists A !! l;
      Some (set_alist l (a_remove i a) A, u32 (Z.of_nat (length (elems (a_remove i a)))))
  | OpNext l =>
      a ← a_lists A !! l; j ← a_next a;
      Some (set_alist l (set_cursor (Some j) a) A, a_own A j)
  | OpSetValue i v =>
      if bool_decide (i ∈ a_items A) && bool_decide (0 ≤ v < 4294967296)
      then Some (a_set_value i v A, 0) else None
  end.

Definition a_exec (o : kop) (A : astate) : option (astate * Z) :=
  match o with
  | KOp o => a_exec_op o A
  | KNew i v w => if bool_decide (i ∈ a_items A) then None else Some (a_new i v w A, 0)
  | KDrop i => if a_free A i then Some (a_drop i A, 0) else None
  | KFree l => (λ A', (A', 0)) <$> a_free_list l A
  end.

Definition a_next_entry (l : positive) (i : option positive) (A : astate) : option Z :=
  a ← a_lists A !! l;
  match i with
  | None => Some (match head (elems a) with Some j => Zpos j | None => 0 end)
  | Some i => if bool_decide (i ∈ elems a)
              then Some (match succ_of i (elems a) with Some j => Zpos j | None => 0 end) else None
  end.

Definition a_read (q : kread) (A : astate) : option Z :=
  match q with
  | RdLength l => a ← a_lists A !! l; Some (u32 (Z.of_nat (length (elems a))))
  | RdValue i => if decide (i ∈ a_items A) then Some (a_val A i) else None
  | RdHeadValue l =>
      a ← a_lists A !! l; Some (match elems a with [] => portMAX_DELAY | x :: _ => a_val A x end)
  | RdHeadOwner l => a ← a_lists A !! l; x ← head (elems a); Some (a_own A x)
  | RdOwner i => if decide (i ∈ a_items A) then Some (a_own A i) else None
  | RdNext l i => a_next_entry l i A
  end.

#[export] Instance astate_klists : KLists astate :=
  { kl_exec := a_exec; kl_read := a_read;
    kl_container := λ i A, if decide (i ∈ a_items A) then Some (a_container A i) else None }.

(** ** The abstract state simulates *)

Lemma a_container_None A i : a_container A i = None ↔ ∀ l, ¬ holds A l i.
Proof.
  unfold a_container. rewrite fmap_None, head_None. split.
  - intros E l (a & Ha & Hi).
    assert ((l, a) ∈ filter (λ la, i ∈ elems la.2) (map_to_list (a_lists A))) as Hin.
    { rewrite list_elem_of_filter, elem_of_map_to_list. by split. }
    rewrite E in Hin. by apply elem_of_nil in Hin.
  - intros H. destruct (filter _ _) as [|[l a] r] eqn:E; [done|].
    assert ((l, a) ∈ filter (λ la, i ∈ elems la.2) (map_to_list (a_lists A))) as Hin.
    { rewrite E. by left. }
    rewrite list_elem_of_filter, elem_of_map_to_list in Hin. destruct Hin. destruct (H l). by exists a.
Qed.

Lemma a_container_Some A i l : a_container A i = Some l → holds A l i.
Proof.
  unfold a_container. rewrite fmap_Some. intros ([l' a] & E & ->). simpl.
  apply head_Some in E as [r E].
  assert ((l', a) ∈ filter (λ la, i ∈ elems la.2) (map_to_list (a_lists A))) as Hin.
  { rewrite E. by left. }
  rewrite list_elem_of_filter, elem_of_map_to_list in Hin. exists a. naive_solver.
Qed.

Lemma a_free_spec A i : a_free A i = true ↔ free_item A i.
Proof.
  unfold a_free, free_item. rewrite andb_true_iff, !bool_decide_eq_true, a_container_None.
  unfold holds. naive_solver.
Qed.

(** The store's containers are the abstract ones. *)
Lemma cont_container st A i :
  refines st A → i ∈ a_items A → cont st i = Some (a_container A i).
Proof.
  intros R Hi. pose proof Hi as [e He]%(rf_items _ _ R).
  destruct (a_container A i) as [l|] eqn:E.
  - apply a_container_Some in E as (a & Ha & Hin). apply (il_cont _ _ _ (rf_lists _ _ R _ _ Ha) _ Hin).
  - apply (free_cont st A i R). apply a_free_spec. unfold a_free.
    by rewrite E, bool_decide_eq_true_2.
Qed.

Lemma holds_unique st A i l l' : refines st A → holds A l i → holds A l' i → l = l'.
Proof.
  intros R (a & Ha & Hi) (b & Hb & Hj).
  pose proof (il_cont _ _ _ (rf_lists _ _ R _ _ Ha) _ Hi).
  pose proof (il_cont _ _ _ (rf_lists _ _ R _ _ Hb) _ Hj). congruence.
Qed.

Lemma a_exec_op_step A o A' r :
  a_exec_op o A = Some (A', r) → a_step A o A' r.
Proof.
  destruct o as [l|i|l i|l i|i|l|i v]; simpl; intros E.
  - case_bool_decide; [|done]. case_bool_decide; [|done]. simplify_eq/=. by constructor.
  - destruct (a_free A i) eqn:F; [|done]. simplify_eq/=. constructor. by apply a_free_spec.
  - bind_step E as a Ha. destruct (a_free A i) eqn:F; [|done]. simplify_eq/=.
    constructor; [done|]. by apply a_free_spec.
  - bind_step E as a Ha. destruct (a_free A i) eqn:F; [|done]. simplify_eq/=.
    constructor; [done|]. by apply a_free_spec.
  - bind_step E as l Hl. bind_step E as a Ha. simplify_eq/=.
    apply a_container_Some in Hl as (b & Hb & Hi). simplify_eq. by constructor.
  - bind_step E as a Ha. bind_step E as j Hj. simplify_eq/=. by constructor.
  - do 2 (case_bool_decide; [|done]). simplify_eq/=. by constructor.
Qed.

Lemma new_refines st A i v o :
  refines st A → i ∉ a_items A →
  ∃ st', store_new i v o st = Some st' ∧ refines st' (a_new i v o A).
Proof.
  intros R Hi. unfold store_new.
  assert (exts st !! i = None) as He by (apply eq_None_not_Some; by rewrite <- (rf_items _ _ R)).
  assert (links st !! Item i = None) as HL by (apply eq_None_not_Some; rewrite <- (rf_dom _ _ R), He; by intros []).
  rewrite HL. eexists. split; [done|].
  assert (Nin : ∀ l b, a_lists A !! l = Some b → i ∉ elems b).
  { intros l b Hb Hin. destruct (cont_exts _ _ _ (il_cont _ _ _ (rf_lists _ _ R _ _ Hb) _ Hin)). congruence. }
  pose proof R as [Rl Rc Rd Rm Ri Rv Ro]. constructor; simpl; [| | | | | |].
  - intros l b Hb. apply (is_list_frame st); [| | |done|by apply Rl].
    + unfold nxt, prv. simpl. intros x Hx.
      rewrite lookup_insert_ne; [done|]. intros <-. destruct Hx as [?|(j & Hj & [= <-])]; [done|].
      by apply (Nin _ _ Hb).
    + unfold val. simpl. by rewrite lookup_insert_ne by done.
    + intros j Hj. unfold cont. simpl. rewrite lookup_insert_ne; [done|]. intros <-. by apply (Nin _ _ Hb).
  - intros j l. unfold cont. simpl.
    destruct (decide (j = i)) as [->|]; [by rewrite lookup_insert_eq|].
    rewrite lookup_insert_ne by done. apply Rc.
  - intros j. rewrite !lookup_insert_is_Some, Rd. split; (intros [E|[? ?]]; [left; congruence|right; split; congruence]).
  - intros l [??]%Rm. by rewrite lookup_insert_ne.
  - intros j. rewrite lookup_insert_is_Some, <- Ri, elem_of_union, elem_of_singleton.
    destruct (decide (i = j)); naive_solver.
  - intros j w. unfold val. simpl. destruct (decide (j = i)) as [->|].
    + rewrite lookup_insert_eq. intros [= <-]. split; [done|apply u32_range].
    + rewrite lookup_insert_ne by congruence. apply Rv.
  - intros j w. unfold own. simpl. destruct (decide (j = i)) as [->|].
    + rewrite lookup_insert_eq. by intros [= <-].
    + rewrite lookup_insert_ne by congruence. apply Ro.
Qed.

Lemma drop_refines st A i : refines st A → free_item A i → refines (store_drop i st) (a_drop i A).
Proof.
  intros [Rl Rc Rd Rm Ri Rv Ro] [Hi Hf]. constructor; simpl.
  - intros l b Hb. apply (is_list_frame st); [| | |done|by apply Rl].
    + unfold nxt, prv. simpl. intros x Hx. rewrite lookup_delete_ne; [done|].
      intros <-. destruct Hx as [?|(j & Hj & [= <-])]; [done|]. by apply (Hf _ _ Hb).
    + unfold val. simpl. by rewrite lookup_delete_ne by done.
    + intros j Hj. unfold cont. simpl. rewrite lookup_delete_ne; [done|]. intros <-. by apply (Hf _ _ Hb).
  - intros j l. unfold cont. simpl.
    destruct (decide (j = i)) as [->|]; [by rewrite lookup_delete_eq|].
    rewrite lookup_delete_ne by done. apply Rc.
  - intros j. rewrite !lookup_delete_is_Some, Rd. split; intros [??]; split; congruence.
  - intros l [??]%Rm. by rewrite lookup_delete_ne.
  - intros j. rewrite lookup_delete_is_Some, <- Ri, elem_of_difference, elem_of_singleton.
    split; intros [??]; split; congruence.
  - intros j w. unfold val. simpl. destruct (decide (j = i)) as [->|].
    + by rewrite lookup_delete_eq.
    + rewrite lookup_delete_ne by congruence. apply Rv.
  - intros j w. unfold own. simpl. destruct (decide (j = i)) as [->|].
    + by rewrite lookup_delete_eq.
    + rewrite lookup_delete_ne by congruence. apply Ro.
Qed.

Lemma free_refines st A A' l : refines st A → a_free_list l A = Some A' → refines (store_free l st) A'.
Proof.
  intros R E. unfold a_free_list in E. bind_step E as a Ha. case_bool_decide as Ee; [|done]. simplify_eq.
  destruct R as [Rl Rc Rd Rm Ri Rv Ro]. constructor; simpl; [| |by intros ?; rewrite Rd, lookup_insert_ne| |done| |done].
  - intros l' b. rewrite lookup_delete_Some. intros [Hne Hb]. apply (is_list_frame st); [| |done| |by apply Rl].
    + unfold nxt, prv. simpl. intros x Hx. rewrite lookup_insert_ne; [done|].
      intros <-. destruct Hx as [[= ->]|(j & _ & ?)]; done.
    + unfold val. simpl. by rewrite lookup_insert_ne by congruence.
    + simpl. by rewrite lookup_insert_ne.
  - intros i l' Hc. destruct (Rc i l' Hc) as (b & Hb & Hi). exists b. split; [|done].
    rewrite lookup_delete_ne; [done|]. intros ->. simplify_eq. rewrite Ee in Hi. by apply elem_of_nil in Hi.
  - intros l' [H1 H2]%Rm. rewrite !lookup_insert_is_Some'. by split; right.
  - intros i v. unfold val. simpl. rewrite lookup_insert_ne by done. apply Rv.
Qed.

Lemma head_owner_spec st A l a x xs :
  refines st A → a_lists A !! l = Some a → elems a = x :: xs →
  listGET_OWNER_OF_HEAD_ENTRY l st = Some (a_own A x).
Proof.
  intros R Ha E. pose proof (rf_lists _ _ R _ _ Ha) as L. unfold listGET_OWNER_OF_HEAD_ENTRY.
  pose proof (il_chain _ _ _ L) as C. rewrite E in C. destruct C as (C & _).
  unfold nxt, ld in *. simpl in *. destruct (links st !! End l) as [Le|]; [|done]. simpl in *. rewrite C. simpl.
  destruct (cont_exts _ _ _ (il_cont _ _ _ L x ltac:(rewrite E; by left))) as [e He].
  rewrite He. simpl. rewrite (rf_own _ _ R x (pvOwner e)); [done|]. unfold own. by rewrite He.
Qed.

Lemma head_value_empty st A l a :
  refines st A → a_lists A !! l = Some a → elems a = [] →
  listGET_ITEM_VALUE_OF_HEAD_ENTRY l st = Some portMAX_DELAY.
Proof.
  intros R Ha E. pose proof (rf_lists _ _ R _ _ Ha) as L. unfold listGET_ITEM_VALUE_OF_HEAD_ENTRY.
  pose proof (il_chain _ _ _ L) as C. rewrite E in C. destruct C as (C & _).
  pose proof (il_end _ _ _ L) as V. unfold val, nxt, ld in *. simpl in *.
  destruct (links st !! End l) as [Le|] eqn:HL; [|done]. simpl in *. rewrite C. simpl. rewrite HL. exact V.
Qed.

Lemma value_exists st A i : refines st A → i ∈ a_items A → val st (Item i) = Some (a_val A i).
Proof.
  intros R Hi. pose proof Hi as [L HL]%(rf_items _ _ R)%(rf_dom _ _ R).
  unfold val. rewrite HL. simpl. f_equal. symmetry. apply (rf_val _ _ R i). unfold val. by rewrite HL.
Qed.

Lemma own_exists st A i : refines st A → i ∈ a_items A → own st i = Some (a_own A i).
Proof.
  intros R Hi. pose proof Hi as [e He]%(rf_items _ _ R).
  unfold own. rewrite He. simpl. f_equal. symmetry. apply (rf_own _ _ R i). unfold own. by rewrite He.
Qed.

(** The next entry after the first ones [pre]. *)
Lemma next_entry_split st A l a pre suf :
  refines st A → a_lists A !! l = Some a → elems a = pre ++ suf →
  next_entry l (last pre) st = Some (match head suf with Some j => Zpos j | None => 0 end).
Proof.
  intros R Ha E. pose proof (il_chain _ _ _ (rf_lists _ _ R _ _ Ha)) as C. rewrite E in C.
  apply ring_split in C as (_ & N & _ & _). unfold next_entry. unfold last_ptr in N. rewrite N. simpl.
  unfold head_ptr, cursor_ptr. destruct (head suf); simpl; [done|]. by rewrite bool_decide_eq_true_2.
Qed.

Lemma a_next_entry_spec st A l i r : refines st A → a_next_entry l i A = Some r → next_entry l i st = Some r.
Proof.
  intros R E. unfold a_next_entry in E. bind_step E as a Ha. destruct i as [i|].
  - case_bool_decide as Hi; [|done]. injection E as <-. destruct (list_elem_of_split _ _ Hi) as (pre & suf & Es).
    pose proof (il_nodup _ _ _ (rf_lists _ _ R _ _ Ha)) as ND. rewrite Es in ND. rewrite Es, succ_of_split.
    + replace (Some i) with (last (pre ++ [i])) by apply last_snoc.
      apply (next_entry_split st A l a); [done..|]. by rewrite Es, <- app_assoc.
    + apply NoDup_app in ND as (_ & Hd & _). intros ?. eapply Hd; [done|set_solver].
  - injection E as <-. by apply (next_entry_split st A l a []).
Qed.

#[export] Instance store_astate_sim : KListsSim store astate refines.
Proof.
  constructor; simpl.
  - intros st A o A' r Hk R E. destruct o as [o|i v w|i|l]; simpl in *; [| | |done].
    + apply (exec_step _ A); [done|]. by apply a_exec_op_step.
    + case_bool_decide; [done|]. simplify_eq.
      destruct (new_refines st A i v w R) as (st' & -> & R'); [done|]. by eexists.
    + destruct (a_free A i) eqn:F; [|done]. simplify_eq. eexists. split; [done|].
      apply drop_refines; [done|]. by apply a_free_spec.
  - intros st A q r R E. destruct q as [l|i|l|l|i|l i]; simpl in *.
    + bind_step E as a Ha. simplify_eq. by rewrite (il_hdr _ _ _ (rf_lists _ _ R _ _ Ha)).
    + destruct (decide (i ∈ a_items A)); [|done]. simplify_eq. by apply value_exists.
    + bind_step E as a Ha. simplify_eq. destruct (elems a) as [|x xs] eqn:El.
      * by eapply head_value_empty.
      * by eapply head_value_spec.
    + bind_step E as a Ha. bind_step E as x Hx. simplify_eq.
      destruct (elems a) as [|y xs] eqn:El; simplify_eq/=. by eapply head_owner_spec.
    + destruct (decide (i ∈ a_items A)); [|done]. simplify_eq. by apply own_exists.
    + by eapply a_next_entry_spec.
  - intros st A i c R E. destruct (decide (i ∈ a_items A)); [|done]. simplify_eq. by apply cont_container.
Qed.

#[export] Instance store_astate_free_sim : KListsFreeSim store astate refines.
Proof.
  intros st A l A' r R E. simpl in *.
  destruct (a_free_list l A) as [A1|] eqn:F; [|done]. simplify_eq/=. eexists. split; [done|].
  by eapply free_refines.
Qed.

(** ** What every function of tasks.c leaves alone

    The lists of [X] stay initialised and the memory of lists is the same: a
    simulation of the abstract state by itself. *)
Definition keeps (X : positive → Prop) (M : gset positive) (s a : astate) : Prop :=
  s = a ∧ (∀ l, X l → is_Some (a_lists a !! l)) ∧ a_mem a = M.

#[export] Instance keeps_sim X M : KListsSim astate astate (keeps X M).
Proof.
  assert (HS : ∀ A l b l', is_Some (a_lists A !! l') → is_Some (a_lists (set_alist l b A) !! l')).
  { intros A l b l' HX. simpl. apply lookup_insert_is_Some'. by right. }
  constructor.
  - intros s a o a' r Hk (-> & HX & HM) E. exists a'. split; [done|]. split; [done|].
    destruct o as [o|i v w|i|l]; simpl in E; [|case_bool_decide; by simplify_eq|destruct (a_free a i); by simplify_eq|done].
    apply a_exec_op_step in E. destruct E; naive_solver.
  - by intros s a q r (-> & _ & _).
  - by intros s a i c (-> & _ & _).
Qed.
