(* ===== verification/Tasks.v ===== *)
(** * FreeRTOS-Kernel/tasks.c: the scheduler

    The kernel's state is the lists (through the interface of KList.v) and the
    file-scope variables of tasks.c.  A function of tasks.c is a computation
    in the state monad [K] with failure; a critical section is the function
    itself.  Failure is a dangling or [NULL] pointer or an index out of range:
    [configASSERT] only prints on this board and the code goes on.  A yield
    ([portYIELD], the instruction SWI 0, whose handler calls
    [vTaskSwitchContext]) is a call of [vTaskSwitchContext]: afterwards
    [pxCurrentTCB] is the task whose code runs next. *)
From S2P Require Import Prelude RtosList KList.
Local Open Scope Z_scope.

(** ** Data

    [TaskHandle_t] is the address of a TCB, a [positive]; [NULL] is [None].
    The two list items of the TCB at [t] are [St t] and [Ev t].  Of the TCB
    the members that the scheduler reads are kept. *)
Record TCB := MkTCB {
  uxPriority : Z;
  ulNotifiedValue : list Z;
  ucNotifyState : list Z }.

Abbreviation TaskHandle_t := positive.

Definition xStateListItem (t : TaskHandle_t) : positive := xO t.
Definition xEventListItem (t : TaskHandle_t) : positive := xI t.
Abbreviation St := xStateListItem.
Abbreviation Ev := xEventListItem.

Definition configMAX_PRIORITIES : Z := 5.
Definition configTASK_NOTIFICATION_ARRAY_ENTRIES : nat := 3.
Definition tskIDLE_PRIORITY : Z := 0.
Definition taskEVENT_LIST_ITEM_VALUE_IN_USE : Z := 2147483648.
Definition taskNOT_WAITING_NOTIFICATION : Z := 0.
Definition taskWAITING_NOTIFICATION : Z := 1.
Definition taskNOTIFICATION_RECEIVED : Z := 2.

(** The lists of the kernel; the lists of queues and event groups lie
    elsewhere. *)
Definition pxReadyTasksLists (p : Z) : option positive :=
  if (0 <=? p) && (p <? configMAX_PRIORITIES) then Some (Z.to_pos (p + 1)) else None.
Definition xDelayedTaskList1 : positive := 6.
Definition xDelayedTaskList2 : positive := 7.
Definition xPendingReadyList : positive := 8.
Definition xSuspendedTaskList : positive := 9.
Definition xTasksWaitingTermination : positive := 10.

Record kdata := MkData {
  tcbs : gmap positive TCB;
  pxCurrentTCB : option positive;
  uxCurrentNumberOfTasks : Z;
  xTickCount : Z;
  uxTopReadyPriority : Z;
  xSchedulerRunning : bool;
  xPendedTicks : Z;
  xYieldPending : bool;
  xNumOfOverflows : Z;
  xNextTaskUnblockTime : Z;
  uxSchedulerSuspended : Z;
  pxDelayedTaskList : positive;
  pxOverflowDelayedTaskList : positive;
  uxDeletedTasksWaitingCleanUp : Z }.

(** Assignments to the variables. *)
Definition set_tcbs (x : gmap positive TCB) (d : kdata) : kdata :=
  MkData x (pxCurrentTCB d) (uxCurrentNumberOfTasks d) (xTickCount d) (uxTopReadyPriority d)
    (xSchedulerRunning d) (xPendedTicks d) (xYieldPending d) (xNumOfOverflows d) (xNextTaskUnblockTime
    d) (uxSchedulerSuspended d) (pxDelayedTaskList d) (pxOverflowDelayedTaskList d)
    (uxDeletedTasksWaitingCleanUp d).
Definition set_pxCurrentTCB (x : option positive) (d : kdata) : kdata :=
  MkData (tcbs d) x (uxCurrentNumberOfTasks d) (xTickCount d) (uxTopReadyPriority d)
    (xSchedulerRunning d) (xPendedTicks d) (xYieldPending d) (xNumOfOverflows d) (xNextTaskUnblockTime
    d) (uxSchedulerSuspended d) (pxDelayedTaskList d) (pxOverflowDelayedTaskList d)
    (uxDeletedTasksWaitingCleanUp d).
Definition set_uxCurrentNumberOfTasks (x : Z) (d : kdata) : kdata :=
  MkData (tcbs d) (pxCurrentTCB d) x (xTickCount d) (uxTopReadyPriority d) (xSchedulerRunning d)
    (xPendedTicks d) (xYieldPending d) (xNumOfOverflows d) (xNextTaskUnblockTime d)
    (uxSchedulerSuspended d) (pxDelayedTaskList d) (pxOverflowDelayedTaskList d)
    (uxDeletedTasksWaitingCleanUp d).
Definition set_xTickCount (x : Z) (d : kdata) : kdata :=
  MkData (tcbs d) (pxCurrentTCB d) (uxCurrentNumberOfTasks d) x (uxTopReadyPriority d)
    (xSchedulerRunning d) (xPendedTicks d) (xYieldPending d) (xNumOfOverflows d) (xNextTaskUnblockTime
    d) (uxSchedulerSuspended d) (pxDelayedTaskList d) (pxOverflowDelayedTaskList d)
    (uxDeletedTasksWaitingCleanUp d).
Definition set_uxTopReadyPriority (x : Z) (d : kdata) : kdata :=
  MkData (tcbs d) (pxCurrentTCB d) (uxCurrentNumberOfTasks d) (xTickCount d) x (xSchedulerRunning d)
    (xPendedTicks d) (xYieldPending d) (xNumOfOverflows d) (xNextTaskUnblockTime d)
    (uxSchedulerSuspended d) (pxDelayedTaskList d) (pxOverflowDelayedTaskList d)
    (uxDeletedTasksWaitingCleanUp d).
Definition set_xSchedulerRunning (x : bool) (d : kdata) : kdata :=
  MkData (tcbs d) (pxCurrentTCB d) (uxCurrentNumberOfTasks d) (xTickCount d) (uxTopReadyPriority d) x
    (xPendedTicks d) (xYieldPending d) (xNumOfOverflows d) (xNextTaskUnblockTime d)
    (uxSchedulerSuspended d) (pxDelayedTaskList d) (pxOverflowDelayedTaskList d)
    (uxDeletedTasksWaitingCleanUp d).
Definition set_xPendedTicks (x : Z) (d : kdata) : kdata :=
  MkData (tcbs d) (pxCurrentTCB d) (uxCurrentNumberOfTasks d) (xTickCount d) (uxTopReadyPriority d)
    (xSchedulerRunning d) x (xYieldPending d) (xNumOfOverflows d) (xNextTaskUnblockTime d)
    (uxSchedulerSuspended d) (pxDelayedTaskList d) (pxOverflowDelayedTaskList d)
    (uxDeletedTasksWaitingCleanUp d).
Definition set_xYieldPending (x : bool) (d : kdata) : kdata :=
  MkData (tcbs d) (pxCurrentTCB d) (uxCurrentNumberOfTasks d) (xTickCount d) (uxTopReadyPriority d)
    (xSchedulerRunning d) (xPendedTicks d) x (xNumOfOverflows d) (xNextTaskUnblockTime d)
    (uxSchedulerSuspended d) (pxDelayedTaskList d) (pxOverflowDelayedTaskList d)
    (uxDeletedTasksWaitingCleanUp d).
Definition set_xNumOfOverflows (x : Z) (d : kdata) : kdata :=
  MkData (tcbs d) (pxCurrentTCB d) (uxCurrentNumberOfTasks d) (xTickCount d) (uxTopReadyPriority d)
    (xSchedulerRunning d) (xPendedTicks d) (xYieldPending d) x (xNextTaskUnblockTime d)
    (uxSchedulerSuspended d) (pxDelayedTaskList d) (pxOverflowDelayedTaskList d)
    (uxDeletedTasksWaitingCleanUp d).
Definition set_xNextTaskUnblockTime (x : Z) (d : kdata) : kdata :=
  MkData (tcbs d) (pxCurrentTCB d) (uxCurrentNumberOfTasks d) (xTickCount d) (uxTopReadyPriority d)
    (xSchedulerRunning d) (xPendedTicks d) (xYieldPending d) (xNumOfOverflows d) x (uxSchedulerSuspended
    d) (pxDelayedTaskList d) (pxOverflowDelayedTaskList d) (uxDeletedTasksWaitingCleanUp d).
Definition set_uxSchedulerSuspended (x : Z) (d : kdata) : kdata :=
  MkData (tcbs d) (pxCurrentTCB d) (uxCurrentNumberOfTasks d) (xTickCount d) (uxTopReadyPriority d)
    (xSchedulerRunning d) (xPendedTicks d) (xYieldPending d) (xNumOfOverflows d) (xNextTaskUnblockTime
    d) x (pxDelayedTaskList d) (pxOverflowDelayedTaskList d) (uxDeletedTasksWaitingCleanUp d).
Definition set_pxDelayedTaskList (x : positive) (d : kdata) : kdata :=
  MkData (tcbs d) (pxCurrentTCB d) (uxCurrentNumberOfTasks d) (xTickCount d) (uxTopReadyPriority d)
    (xSchedulerRunning d) (xPendedTicks d) (xYieldPending d) (xNumOfOverflows d) (xNextTaskUnblockTime
    d) (uxSchedulerSuspended d) x (pxOverflowDelayedTaskList d) (uxDeletedTasksWaitingCleanUp d).
Definition set_pxOverflowDelayedTaskList (x : positive) (d : kdata) : kdata :=
  MkData (tcbs d) (pxCurrentTCB d) (uxCurrentNumberOfTasks d) (xTickCount d) (uxTopReadyPriority d)
    (xSchedulerRunning d) (xPendedTicks d) (xYieldPending d) (xNumOfOverflows d) (xNextTaskUnblockTime
    d) (uxSchedulerSuspended d) (pxDelayedTaskList d) x (uxDeletedTasksWaitingCleanUp d).
Definition set_uxDeletedTasksWaitingCleanUp (x : Z) (d : kdata) : kdata :=
  MkData (tcbs d) (pxCurrentTCB d) (uxCurrentNumberOfTasks d) (xTickCount d) (uxTopReadyPriority d)
    (xSchedulerRunning d) (xPendedTicks d) (xYieldPending d) (xNumOfOverflows d) (xNextTaskUnblockTime
    d) (uxSchedulerSuspended d) (pxDelayedTaskList d) (pxOverflowDelayedTaskList d) x.

Record kernel (L : Type) := MkKernel { lists : L; data : kdata }.
Arguments MkKernel {L}.
Arguments lists {L}.
Arguments data {L}.

(** ** The monad *)
Definition K (L R : Type) : Type := kernel L → option (kernel L * R).

#[export] Instance K_ret L : MRet (K L) := λ R r k, Some (k, r).
#[export] Instance K_bind L : MBind (K L) := λ R Q f m k, '(k', r) ← m k; f r k'.

Section operations.
Context `{KLists L}.
Implicit Types t : TaskHandle_t.

Definition fault {R} : K L R := λ _, None.
Definition deref {R} (p : option R) : K L R := λ k, x ← p; Some (k, x).
Definition gets {R} (f : kdata → R) : K L R := λ k, Some (k, f (data k)).
Definition upd (f : kdata → kdata) : K L unit := λ k, Some (MkKernel (lists k) (f (data k)), ()).
Definition lst (o : kop) : K L Z := λ k, '(s, r) ← kl_exec o (lists k); Some (MkKernel s (data k), r).
Definition rd (q : kread) : K L Z := λ k, v ← kl_read q (lists k); Some (k, v).
Definition container (i : positive) : K L (option positive) :=
  λ k, c ← kl_container i (lists k); Some (k, c).

Definition when (c : bool) (m : K L unit) : K L unit := if c then m else mret ().

(** The operations of list.h with their names there. *)
Definition listINSERT_END (l i : positive) : K L unit := lst (KOp (OpInsertEnd l i));; mret ().
Definition listINSERT (l i : positive) : K L unit := lst (KOp (OpInsert l i));; mret ().
Definition listREMOVE_ITEM (i : positive) : K L unit := lst (KOp (OpRemove i));; mret ().
Definition listSET_LIST_ITEM_VALUE (i : positive) (v : Z) : K L unit :=
  lst (KOp (OpSetValue i v));; mret ().
Definition listLIST_IS_EMPTY (l : positive) : K L bool := n ← rd (RdLength l); mret (n =? 0).
(** The owner of a list item is the address of its TCB. *)
Definition listGET_OWNER_OF_HEAD_ENTRY (l : positive) : K L TaskHandle_t :=
  o ← rd (RdHeadOwner l); mret (Z.to_pos o).
Definition listGET_OWNER_OF_NEXT_ENTRY (l : positive) : K L TaskHandle_t :=
  o ← lst (KOp (OpNext l)); mret (Z.to_pos o).

(** Members of TCBs. *)
Definition tcb (t : TaskHandle_t) : K L TCB := m ← gets tcbs; deref (m !! t).
Definition current : K L TaskHandle_t := c ← gets pxCurrentTCB; deref c.
Definition priority_of (t : TaskHandle_t) : K L Z := T ← tcb t; mret (uxPriority T).
Definition wr_tcb (t : TaskHandle_t) (f : TCB → TCB) : K L unit :=
  T ← tcb t; upd (λ d, set_tcbs (<[t := f T]> (tcbs d)) d).

(** ** Ready lists *)

Definition taskRECORD_READY_PRIORITY (p : Z) : K L unit :=
  top ← gets uxTopReadyPriority;
  when (top <? p) (upd (set_uxTopReadyPriority p)).

Definition prvAddTaskToReadyList (t : TaskHandle_t) : K L unit :=
  p ← priority_of t;
  taskRECORD_READY_PRIORITY p;;
  l ← deref (pxReadyTasksLists p);
  listINSERT_END l (St t).

(** The [while] loop: down from [uxTopPriority] to a list that is not empty. *)
Fixpoint select_loop (fuel : nat) (uxTopPriority : Z) : K L Z :=
  match fuel with
  | O => fault
  | S fuel =>
      l ← deref (pxReadyTasksLists uxTopPriority);
      e ← listLIST_IS_EMPTY l;
      if (e : bool) then select_loop fuel (u32 (uxTopPriority - 1)) else mret uxTopPriority
  end.

Definition taskSELECT_HIGHEST_PRIORITY_TASK : K L unit :=
  top ← gets uxTopReadyPriority;
  p ← select_loop (S (Z.to_nat top)) top;
  l ← deref (pxReadyTasksLists p);
  t ← listGET_OWNER_OF_NEXT_ENTRY l;
  upd (set_pxCurrentTCB (Some t));;
  upd (set_uxTopReadyPriority p).

Definition vTaskSwitchContext : K L unit :=
  n ← gets uxSchedulerSuspended;
  if negb (n =? 0) then upd (set_xYieldPending true)
  else upd (set_xYieldPending false);; taskSELECT_HIGHEST_PRIORITY_TASK.

Definition portYIELD : K L unit := vTaskSwitchContext.
Abbreviation portYIELD_WITHIN_API := portYIELD.
Abbreviation taskYIELD_IF_USING_PREEMPTION := portYIELD.

(** ** Delayed lists *)

Definition prvResetNextTaskUnblockTime : K L unit :=
  l ← gets pxDelayedTaskList;
  e ← listLIST_IS_EMPTY l;
  if (e : bool) then upd (set_xNextTaskUnblockTime portMAX_DELAY)
  else v ← rd (RdHeadValue l); upd (set_xNextTaskUnblockTime v).

Definition taskSWITCH_DELAYED_LISTS : K L unit :=
  cur ← gets pxDelayedTaskList; ovf ← gets pxOverflowDelayedTaskList;
  upd (set_pxDelayedTaskList ovf);;
  upd (set_pxOverflowDelayedTaskList cur);;
  upd (λ d, set_xNumOfOverflows (u32 (xNumOfOverflows d + 1)) d);;
  prvResetNextTaskUnblockTime.

Definition prvAddCurrentTaskToDelayedList (xTicksToWait : Z) (xCanBlockIndefinitely : bool) : K L unit :=
  xConstTickCount ← gets xTickCount;
  cur ← current;
  listREMOVE_ITEM (St cur);;
  if (xTicksToWait =? portMAX_DELAY) && xCanBlockIndefinitely
  then listINSERT_END xSuspendedTaskList (St cur)
  else
    let xTimeToWake := u32 (xConstTickCount + xTicksToWait) in
    listSET_LIST_ITEM_VALUE (St cur) xTimeToWake;;
    if xTimeToWake <? xConstTickCount
    then l ← gets pxOverflowDelayedTaskList; listINSERT l (St cur)
    else
      l ← gets pxDelayedTaskList;
      listINSERT l (St cur);;
      next ← gets xNextTaskUnblockTime;
      when (xTimeToWake <? next) (upd (set_xNextTaskUnblockTime xTimeToWake)).

(** [if( listLIST_ITEM_CONTAINER( i ) != NULL ) listREMOVE_ITEM( i )] *)
Definition remove_if_linked (i : positive) : K L unit :=
  c ← container i;
  match c with Some _ => listREMOVE_ITEM i | None => mret () end.

(** ** The tick *)

(** The [for( ; ; )] loop; the result is [xSwitchRequired]. *)
Fixpoint tick_loop (fuel : nat) (xConstTickCount : Z) (xSwitchRequired : bool) : K L bool :=
  match fuel with
  | O => fault
  | S fuel =>
      l ← gets pxDelayedTaskList;
      e ← listLIST_IS_EMPTY l;
      if (e : bool) then upd (set_xNextTaskUnblockTime portMAX_DELAY);; mret xSwitchRequired
      else
        t ← listGET_OWNER_OF_HEAD_ENTRY l;
        xItemValue ← rd (RdValue (St t));
        if xConstTickCount <? xItemValue
        then upd (set_xNextTaskUnblockTime xItemValue);; mret xSwitchRequired
        else
          listREMOVE_ITEM (St t);;
          remove_if_linked (Ev t);;
          prvAddTaskToReadyList t;;
          p ← priority_of t; c ← current; pc ← priority_of c;
          tick_loop fuel xConstTickCount (xSwitchRequired || (pc <? p))
  end.

Definition xTaskIncrementTick : K L bool :=
  susp ← gets uxSchedulerSuspended;
  if susp =? 0 then
    tc ← gets xTickCount;
    let xConstTickCount := u32 (tc + 1) in
    upd (set_xTickCount xConstTickCount);;
    when (xConstTickCount =? 0) taskSWITCH_DELAYED_LISTS;;
    next ← gets xNextTaskUnblockTime;
    l ← gets pxDelayedTaskList;
    n ← rd (RdLength l);
    sw ← (if next <=? xConstTickCount then tick_loop (S (Z.to_nat n)) xConstTickCount false
          else mret false);
    c ← current; p ← priority_of c;
    rl ← deref (pxReadyTasksLists p);
    m ← rd (RdLength rl);
    y ← gets xYieldPending;
    mret (sw || (1 <? m) || y)
  else
    upd (λ d, set_xPendedTicks (u32 (xPendedTicks d + 1)) d);;
    mret false.

(** portISR.c: the tick interrupt. *)
Definition vTickISR : K L unit :=
  sw ← xTaskIncrementTick;
  when sw vTaskSwitchContext.

(** ** Suspending the scheduler *)

Definition vTaskSuspendAll : K L unit :=
  upd (λ d, set_uxSchedulerSuspended (u32 (uxSchedulerSuspended d + 1)) d).

(** The loop that empties xPendingReadyList; the result says whether a task
    was moved ([pxTCB != NULL]). *)
Fixpoint pending_loop (fuel : nat) (moved : bool) : K L bool :=
  match fuel with
  | O => fault
  | S fuel =>
      e ← listLIST_IS_EMPTY xPendingReadyList;
      if (e : bool) then mret moved
      else
        t ← listGET_OWNER_OF_HEAD_ENTRY xPendingReadyList;
        listREMOVE_ITEM (Ev t);;
        listREMOVE_ITEM (St t);;
        prvAddTaskToReadyList t;;
        p ← priority_of t; c ← current; pc ← priority_of c;
        when (pc <=? p) (upd (set_xYieldPending true));;
        pending_loop fuel true
  end.

(** The [do ... while] loop over the pended ticks. *)
Fixpoint pended_ticks_loop (xPendedCounts : nat) : K L unit :=
  match xPendedCounts with
  | O => mret ()
  | S xPendedCounts =>
      sw ← xTaskIncrementTick;
      when sw (upd (set_xYieldPending true));;
      pended_ticks_loop xPendedCounts
  end.

Definition xTaskResumeAll : K L bool :=
  upd (λ d, set_uxSchedulerSuspended (u32 (uxSchedulerSuspended d - 1)) d);;
  susp ← gets uxSchedulerSuspended;
  num ← gets uxCurrentNumberOfTasks;
  if (susp =? 0) && (0 <? num) then
    n ← rd (RdLength xPendingReadyList);
    moved ← pending_loop (S (Z.to_nat n)) false;
    when moved prvResetNextTaskUnblockTime;;
    pended ← gets xPendedTicks;
    when (0 <? pended) (pended_ticks_loop (Z.to_nat pended);; upd (set_xPendedTicks 0));;
    y ← gets xYieldPending;
    if (y : bool) then taskYIELD_IF_USING_PREEMPTION;; mret true else mret false
  else mret false.

Definition xTaskCatchUpTicks (xTicksToCatchUp : Z) : K L bool :=
  vTaskSuspendAll;;
  upd (λ d, set_xPendedTicks (u32 (xPendedTicks d + xTicksToCatchUp)) d);;
  xTaskResumeAll.

(** ** Delays *)

Definition vTaskDelay (xTicksToDelay : Z) : K L unit :=
  y ← (if 0 <? xTicksToDelay then
         vTaskSuspendAll;;
         prvAddCurrentTaskToDelayedList xTicksToDelay false;;
         xTaskResumeAll
       else mret false);
  when (negb y) portYIELD_WITHIN_API.

(** The decision of [xTaskDelayUntil]. *)
Definition should_delay (xConstTickCount prev xTimeToWake : Z) : bool :=
  if xConstTickCount <? prev
  then (xTimeToWake <? prev) && (xConstTickCount <? xTimeToWake)
  else (xTimeToWake <? prev) || (xConstTickCount <? xTimeToWake).

(** The result is [*pxPreviousWakeTime] and the value returned. *)
Definition xTaskDelayUntil (prev xTimeIncrement : Z) : K L (Z * bool) :=
  vTaskSuspendAll;;
  xConstTickCount ← gets xTickCount;
  let xTimeToWake := u32 (prev + xTimeIncrement) in
  let xShouldDelay := should_delay xConstTickCount prev xTimeToWake in
  when xShouldDelay (prvAddCurrentTaskToDelayedList (u32 (xTimeToWake - xConstTickCount)) false);;
  y ← xTaskResumeAll;
  when (negb y) portYIELD_WITHIN_API;;
  mret (xTimeToWake, xShouldDelay).

(** ** Creating, deleting, suspending and resuming tasks *)

Definition configINITIAL_TICK_COUNT : Z := 0.

(** The [for] loop over pxReadyTasksLists, from [uxPriority] on. *)
Fixpoint init_ready_lists (n : nat) (uxPriority : Z) : K L unit :=
  match n with
  | O => mret ()
  | S n =>
      l ← deref (pxReadyTasksLists uxPriority);
      lst (KOp (OpInit l));; init_ready_lists n (uxPriority + 1)
  end.

Definition prvInitialiseTaskLists : K L unit :=
  init_ready_lists (Z.to_nat configMAX_PRIORITIES) 0;;
  lst (KOp (OpInit xDelayedTaskList1));;
  lst (KOp (OpInit xDelayedTaskList2));;
  lst (KOp (OpInit xPendingReadyList));;
  lst (KOp (OpInit xTasksWaitingTermination));;
  lst (KOp (OpInit xSuspendedTaskList));;
  upd (set_pxDelayedTaskList xDelayedTaskList1);;
  upd (set_pxOverflowDelayedTaskList xDelayedTaskList2).

(** The TCB at [t] has just been allocated and zeroed. *)
Definition prvInitialiseNewTask (t : TaskHandle_t) (uxPriority : Z) : K L unit :=
  let uxPriority := if configMAX_PRIORITIES <=? uxPriority then configMAX_PRIORITIES - 1 else uxPriority in
  upd (λ d, set_tcbs (<[t := MkTCB uxPriority
    (replicate configTASK_NOTIFICATION_ARRAY_ENTRIES 0)
    (replicate configTASK_NOTIFICATION_ARRAY_ENTRIES taskNOT_WAITING_NOTIFICATION)]> (tcbs d)) d);;
  lst (KNew (St t) 0 (Z.pos t));;
  lst (KNew (Ev t) (configMAX_PRIORITIES - uxPriority) (Z.pos t));;
  mret ().

Definition prvAddNewTaskToReadyList (t : TaskHandle_t) : K L unit :=
  upd (λ d, set_uxCurrentNumberOfTasks (u32 (uxCurrentNumberOfTasks d + 1)) d);;
  cur ← gets pxCurrentTCB;
  running ← gets xSchedulerRunning;
  p ← priority_of t;
  match cur with
  | None =>
      upd (set_pxCurrentTCB (Some t));;
      n ← gets uxCurrentNumberOfTasks;
      when (n =? 1) prvInitialiseTaskLists
  | Some c =>
      pc ← priority_of c;
      when (negb running && (pc <=? p)) (upd (set_pxCurrentTCB (Some t)))
  end;;
  prvAddTaskToReadyList t;;
  if (running : bool) then
    c ← current; pc ← priority_of c;
    when (pc <? p) taskYIELD_IF_USING_PREEMPTION
  else mret ().

(** [mem] is what the two calls of pvPortMalloc give: the address of a TCB,
    or [None] when one of them fails. *)
Definition xTaskCreate (mem : option TaskHandle_t) (uxPriority : Z) : K L bool :=
  match mem with
  | Some t => prvInitialiseNewTask t uxPriority;; prvAddNewTaskToReadyList t;; mret true
  | None => mret false
  end.

(** [mem] is the memory for the idle task. *)
Definition vTaskStartScheduler (mem : option TaskHandle_t) : K L unit :=
  ok ← xTaskCreate mem tskIDLE_PRIORITY;
  when ok (
    upd (set_xNextTaskUnblockTime portMAX_DELAY);;
    upd (set_xSchedulerRunning true);;
    upd (set_xTickCount configINITIAL_TICK_COUNT)).

(** [NULL] stands for the calling task. *)
Definition prvGetTCBFromHandle (h : option TaskHandle_t) : K L TaskHandle_t :=
  match h with Some t => mret t | None => current end.

(** vPortFree of the TCB (and of the stack, which is not modelled). *)
Definition prvDeleteTCB (t : TaskHandle_t) : K L unit :=
  lst (KDrop (St t));; lst (KDrop (Ev t));;
  upd (λ d, set_tcbs (delete t (tcbs d)) d).

Definition vTaskDelete (xTaskToDelete : option TaskHandle_t) : K L unit :=
  t ← prvGetTCBFromHandle xTaskToDelete;
  listREMOVE_ITEM (St t);;
  remove_if_linked (Ev t);;
  cur ← gets pxCurrentTCB;
  running ← gets xSchedulerRunning;
  if bool_decide (cur = Some t) then
    listINSERT_END xTasksWaitingTermination (St t);;
    upd (λ d, set_uxDeletedTasksWaitingCleanUp (u32 (uxDeletedTasksWaitingCleanUp d + 1)) d);;
    when running portYIELD_WITHIN_API
  else
    upd (λ d, set_uxCurrentNumberOfTasks (u32 (uxCurrentNumberOfTasks d - 1)) d);;
    prvResetNextTaskUnblockTime;;
    prvDeleteTCB t.

(** The [while] loop runs [uxDeletedTasksWaitingCleanUp] times. *)
Fixpoint cleanup_loop (n : nat) : K L unit :=
  match n with
  | O => mret ()
  | S n =>
      t ← listGET_OWNER_OF_HEAD_ENTRY xTasksWaitingTermination;
      listREMOVE_ITEM (St t);;
      upd (λ d, set_uxCurrentNumberOfTasks (u32 (uxCurrentNumberOfTasks d - 1)) d);;
      upd (λ d, set_uxDeletedTasksWaitingCleanUp (u32 (uxDeletedTasksWaitingCleanUp d - 1)) d);;
      prvDeleteTCB t;;
      cleanup_loop n
  end.

Definition prvCheckTasksWaitingTermination : K L unit :=
  n ← gets uxDeletedTasksWaitingCleanUp; cleanup_loop (Z.to_nat n).

(** The loop of [vTaskSuspend] over the notification states. *)
Definition stop_waiting (T : TCB) : TCB :=
  MkTCB (uxPriority T) (ulNotifiedValue T)
    ((λ s, if s =? taskWAITING_NOTIFICATION then taskNOT_WAITING_NOTIFICATION else s) <$> ucNotifyState T).

Definition vTaskSuspend (xTaskToSuspend : option TaskHandle_t) : K L unit :=
  t ← prvGetTCBFromHandle xTaskToSuspend;
  listREMOVE_ITEM (St t);;
  remove_if_linked (Ev t);;
  listINSERT_END xSuspendedTaskList (St t);;
  wr_tcb t stop_waiting;;
  running ← gets xSchedulerRunning;
  when running prvResetNextTaskUnblockTime;;
  cur ← gets pxCurrentTCB;
  if bool_decide (cur = Some t) then
    if (running : bool) then portYIELD_WITHIN_API
    else
      n ← rd (RdLength xSuspendedTaskList);
      num ← gets uxCurrentNumberOfTasks;
      if n =? num then upd (set_pxCurrentTCB None) else vTaskSwitchContext
  else mret ().

Definition prvTaskIsTaskSuspended (t : TaskHandle_t) : K L bool :=
  c ← container (St t);
  if bool_decide (c = Some xSuspendedTaskList) then
    e ← container (Ev t);
    if bool_decide (e = Some xPendingReadyList) then mret false
    else mret (bool_decide (e = None))
  else mret false.

Definition vTaskResume (xTaskToResume : option TaskHandle_t) : K L unit :=
  cur ← gets pxCurrentTCB;
  match xTaskToResume with
  | Some t =>
      if bool_decide (cur = Some t) then mret ()
      else
        s ← prvTaskIsTaskSuspended t;
        when s (
          listREMOVE_ITEM (St t);;
          prvAddTaskToReadyList t;;
          p ← priority_of t; c ← current; pc ← priority_of c;
          when (pc <=? p) taskYIELD_IF_USING_PREEMPTION)
  | None => mret ()
  end.

Definition xTaskResumeFromISR (t : TaskHandle_t) : K L bool :=
  s ← prvTaskIsTaskSuspended t;
  if (s : bool) then
    susp ← gets uxSchedulerSuspended;
    if susp =? 0 then
      p ← priority_of t; c ← current; pc ← priority_of c;
      when (pc <=? p) (upd (set_xYieldPending true));;
      listREMOVE_ITEM (St t);;
      prvAddTaskToReadyList t;;
      mret (pc <=? p)
    else listINSERT_END xPendingReadyList (Ev t);; mret false
  else mret false.

(** ** Priorities *)

Definition uxTaskPriorityGet (h : option TaskHandle_t) : K L Z :=
  t ← prvGetTCBFromHandle h; priority_of t.

(** [xYieldRequired]; [cur] is [pxCurrentTCB], [pc] its priority. *)
Definition priority_yield (t cur : TaskHandle_t) (old new pc : Z) : bool :=
  if old <? new then negb (bool_decide (t = cur)) && (pc <=? new)
  else bool_decide (t = cur).

Definition vTaskPrioritySet (xTask : option TaskHandle_t) (uxNewPriority : Z) : K L unit :=
  let uxNewPriority := if configMAX_PRIORITIES <=? uxNewPriority then configMAX_PRIORITIES - 1 else uxNewPriority in
  t ← prvGetTCBFromHandle xTask;
  uxCurrentBasePriority ← priority_of t;
  if uxCurrentBasePriority =? uxNewPriority then mret ()
  else
    cur ← current; pc ← priority_of cur;
    let xYieldRequired := priority_yield t cur uxCurrentBasePriority uxNewPriority pc in
    wr_tcb t (λ T, MkTCB uxNewPriority (ulNotifiedValue T) (ucNotifyState T));;
    v ← rd (RdValue (Ev t));
    when (Z.land v taskEVENT_LIST_ITEM_VALUE_IN_USE =? 0)
      (listSET_LIST_ITEM_VALUE (Ev t) (configMAX_PRIORITIES - uxNewPriority));;
    c ← container (St t);
    old ← deref (pxReadyTasksLists uxCurrentBasePriority);
    when (bool_decide (c = Some old))
      (listREMOVE_ITEM (St t);; prvAddTaskToReadyList t);;
    when xYieldRequired taskYIELD_IF_USING_PREEMPTION.

(** ** Waiting for events *)

Definition vTaskPlaceOnEventList (l : positive) (xTicksToWait : Z) : K L unit :=
  cur ← current;
  listINSERT l (Ev cur);;
  prvAddCurrentTaskToDelayedList xTicksToWait true.

Definition vTaskPlaceOnUnorderedEventList (l : positive) (xItemValue xTicksToWait : Z) : K L unit :=
  cur ← current;
  listSET_LIST_ITEM_VALUE (Ev cur) (Z.lor xItemValue taskEVENT_LIST_ITEM_VALUE_IN_USE);;
  listINSERT_END l (Ev cur);;
  prvAddCurrentTaskToDelayedList xTicksToWait true.

(** What [xTaskRemoveFromEventList] does once the event item is off its list;
    the notification functions for interrupts repeat it.  The result is
    whether the task is above the running one. *)
Definition ready_or_pend (t : TaskHandle_t) : K L bool :=
  susp ← gets uxSchedulerSuspended;
  (if susp =? 0 then listREMOVE_ITEM (St t);; prvAddTaskToReadyList t
   else listINSERT_END xPendingReadyList (Ev t));;
  p ← priority_of t; c ← current; pc ← priority_of c;
  when (pc <? p) (upd (set_xYieldPending true));;
  mret (pc <? p).

Definition xTaskRemoveFromEventList (l : positive) : K L bool :=
  t ← listGET_OWNER_OF_HEAD_ENTRY l;
  listREMOVE_ITEM (Ev t);;
  ready_or_pend t.

(** [t] is the owner of the event list item given. *)
Definition vTaskRemoveFromUnorderedEventList (t : TaskHandle_t) (xItemValue : Z) : K L unit :=
  listSET_LIST_ITEM_VALUE (Ev t) (Z.lor xItemValue taskEVENT_LIST_ITEM_VALUE_IN_USE);;
  listREMOVE_ITEM (Ev t);;
  listREMOVE_ITEM (St t);;
  prvAddTaskToReadyList t;;
  p ← priority_of t; c ← current; pc ← priority_of c;
  when (pc <? p) (upd (set_xYieldPending true)).

Definition vTaskMissedYield : K L unit := upd (set_xYieldPending true).

Definition uxTaskResetEventItemValue : K L Z :=
  c ← current;
  r ← rd (RdValue (Ev c));
  p ← priority_of c;
  listSET_LIST_ITEM_VALUE (Ev c) (configMAX_PRIORITIES - p);;
  mret r.

(** ** Time-outs *)

(** [TimeOut_t]: [xOverflowCount], [xTimeOnEntering]. *)
Definition vTaskSetTimeOutState : K L (Z * Z) :=
  o ← gets xNumOfOverflows; t ← gets xTickCount; mret (o, t).

Abbreviation vTaskInternalSetTimeOutState := vTaskSetTimeOutState.

(** The result: the value returned, [*pxTimeOut] and [*pxTicksToWait]. *)
Definition xTaskCheckForTimeOut (to : Z * Z) (xTicksToWait : Z) : K L (bool * (Z * Z) * Z) :=
  xConstTickCount ← gets xTickCount;
  ov ← gets xNumOfOverflows;
  let xElapsedTime := u32 (xConstTickCount - to.2) in
  if xTicksToWait =? portMAX_DELAY then mret (false, to, xTicksToWait)
  else if negb (ov =? to.1) && (to.2 <=? xConstTickCount) then mret (true, to, 0)
  else if xElapsedTime <? xTicksToWait then
    to' ← vTaskInternalSetTimeOutState; mret (false, to', u32 (xTicksToWait - xElapsedTime))
  else mret (true, to, 0).

Definition xTaskGetSchedulerState : K L Z :=
  running ← gets xSchedulerRunning; susp ← gets uxSchedulerSuspended;
  mret (if (running : bool) then (if susp =? 0 then 2 else 0) else 1).

End operations.

(** The state before the first task is created: no list is initialised. *)
Definition boot_data : kdata :=
  MkData ∅ None 0 configINITIAL_TICK_COUNT tskIDLE_PRIORITY false 0 false 0 0 0
    xDelayedTaskList1 xDelayedTaskList2 0.
