(* ===== verification/TasksSim.v ===== *)
(** * tasks.c on the lists of list.c

    The functions of Tasks.v are written against the interface [KLists].  For
    two implementations related by [KListsSim] every function that succeeds
    on the second succeeds on the first with the same result and related
    states.  So what is proved on abstract lists holds on list.c's pointers. *)
From S2P Require Import Prelude RtosList KList Tasks.
Local Open Scope Z_scope.

Section sim.
Context `{HL : KLists L, HA : KLists A} {R : L → A → Prop} {HS : KListsSim L A R}.

(** Related kernels: related lists and the same variables. *)
Definition krel (k1 : kernel L) (k2 : kernel A) : Prop :=
  R (lists k1) (lists k2) ∧ data k1 = data k2.

Definition ksim {Q} (m1 : K L Q) (m2 : K A Q) : Prop :=
  ∀ k1 k2 k2' r, krel k1 k2 → m2 k2 = Some (k2', r) →
    ∃ k1', m1 k1 = Some (k1', r) ∧ krel k1' k2'.

Lemma ksim_ret {Q} (r : Q) : ksim (mret r) (mret r).
Proof. intros k1 k2 k2' q HK [= <- <-]. by eexists. Qed.

Lemma ksim_bind {P Q} (m1 : K L P) m2 (f1 : P → K L Q) f2 :
  ksim m1 m2 → (∀ r, ksim (f1 r) (f2 r)) → ksim (m1 ≫= f1) (m2 ≫= f2).
Proof.
  intros Hm Hf k1 k2 k2' q HK E. unfold mbind, K_bind in *.
  apply bind_Some in E as ([k r] & E1 & E2).
  destruct (Hm _ _ _ _ HK E1) as (k1' & -> & HK'). simpl. by eapply Hf.
Qed.

Lemma ksim_deref {Q} (p : option Q) : ksim (deref p) (deref p).
Proof. intros k1 k2 k2' q HK E. destruct p; [|done]. simplify_eq/=. by eexists. Qed.

Lemma ksim_fault {Q} : ksim (fault (R := Q)) fault.
Proof. by intros k1 k2 k2' q HK E. Qed.

Lemma ksim_gets {Q} (f : kdata → Q) : ksim (gets f) (gets f).
Proof. intros k1 k2 k2' q [HR HD] [= <- <-]. unfold gets. rewrite HD. by eexists. Qed.

Lemma ksim_upd f : ksim (upd f) (upd f).
Proof. intros k1 k2 k2' q [HR HD] [= <- <-]. eexists. split; [done|]. split; simpl; [done|by rewrite HD]. Qed.

Lemma ksim_lst o : KeepsLists o → ksim (lst o) (lst o).
Proof.
  intros Hk k1 k2 k2' q [HR HD] E. unfold lst in *. bind_step E as [a r] E1. simplify_eq.
  destruct (sim_exec _ _ _ _ _ Hk HR E1) as (s' & -> & HR'). by eexists.
Qed.

Lemma ksim_rd q : ksim (rd q) (rd q).
Proof.
  intros k1 k2 k2' r HK E. unfold rd in *. bind_step E as v E1. simplify_eq.
  rewrite (sim_read _ _ _ _ (proj1 HK) E1). by eexists.
Qed.

Lemma ksim_container i : ksim (container i) (container i).
Proof.
  intros k1 k2 k2' r HK E. unfold container in *. bind_step E as v E1. simplify_eq.
  rewrite (sim_container _ _ _ _ (proj1 HK) E1). by eexists.
Qed.

Lemma ksim_if {Q} (b : bool) (m1 n1 : K L Q) m2 n2 :
  ksim m1 m2 → ksim n1 n2 → ksim (if b then m1 else n1) (if b then m2 else n2).
Proof. by destruct b. Qed.

Lemma ksim_option {P Q} (o : option P) (f1 : P → K L Q) f2 n1 n2 :
  (∀ x, ksim (f1 x) (f2 x)) → ksim n1 n2 →
  ksim (match o with Some x => f1 x | None => n1 end) (match o with Some x => f2 x | None => n2 end).
Proof. by destruct o. Qed.

Lemma ksim_let {P Q} (x : P) (f1 : P → K L Q) f2 : (∀ x, ksim (f1 x) (f2 x)) → ksim (f1 x) (f2 x).
Proof. done. Qed.
End sim.

Create HintDb ksim.
#[export] Hint Extern 1 (KeepsLists _) => exact Logic.I : ksim.
#[export] Hint Resolve ksim_ret ksim_deref ksim_fault ksim_gets ksim_upd ksim_lst ksim_rd ksim_container : ksim.

(** Follows the structure of a function. *)
Ltac ksim_step :=
  first
    [ solve [eauto with ksim typeclass_instances]
    | apply ksim_bind; [|intros ?]
    | apply ksim_if
    | apply ksim_option; [intros ?|]
    | progress cbv zeta
    | progress unfold when ].

Ltac ksim := repeat ksim_step.

Section functions.
Context `{HL : KLists L, HA : KLists A} {R : L → A → Prop} {HS : KListsSim L A R}.
Local Abbreviation sim f := (ksim (R := R) f f).

Lemma sim_listINSERT_END l i : sim (listINSERT_END l i).
Proof. unfold listINSERT_END. ksim. Qed.
Lemma sim_listINSERT l i : sim (listINSERT l i).
Proof. unfold listINSERT. ksim. Qed.
Lemma sim_listREMOVE_ITEM i : sim (listREMOVE_ITEM i).
Proof. unfold listREMOVE_ITEM. ksim. Qed.
Lemma sim_listSET_LIST_ITEM_VALUE i v : sim (listSET_LIST_ITEM_VALUE i v).
Proof. unfold listSET_LIST_ITEM_VALUE. ksim. Qed.
Lemma sim_listLIST_IS_EMPTY l : sim (listLIST_IS_EMPTY l).
Proof. unfold listLIST_IS_EMPTY. ksim. Qed.
Lemma sim_head_owner l : sim (listGET_OWNER_OF_HEAD_ENTRY l).
Proof. unfold listGET_OWNER_OF_HEAD_ENTRY. ksim. Qed.
Lemma sim_next_owner l : sim (listGET_OWNER_OF_NEXT_ENTRY l).
Proof. unfold listGET_OWNER_OF_NEXT_ENTRY. ksim. Qed.
Lemma sim_tcb t : sim (tcb t).
Proof. unfold tcb. ksim. Qed.
Lemma sim_current : sim current.
Proof. unfold current. ksim. Qed.
#[local] Hint Resolve sim_listINSERT_END sim_listINSERT sim_listREMOVE_ITEM sim_listSET_LIST_ITEM_VALUE
  sim_listLIST_IS_EMPTY sim_head_owner sim_next_owner sim_tcb sim_current : ksim.
Lemma sim_priority_of t : sim (priority_of t).
Proof. unfold priority_of. ksim. Qed.
Lemma sim_wr_tcb t f : sim (wr_tcb t f).
Proof. unfold wr_tcb. ksim. Qed.
#[local] Hint Resolve sim_priority_of sim_wr_tcb : ksim.
Lemma sim_taskRECORD_READY_PRIORITY p : sim (taskRECORD_READY_PRIORITY p).
Proof. unfold taskRECORD_READY_PRIORITY. ksim. Qed.
#[local] Hint Resolve sim_taskRECORD_READY_PRIORITY : ksim.
Lemma sim_prvAddTaskToReadyList t : sim (prvAddTaskToReadyList t).
Proof. unfold prvAddTaskToReadyList. ksim. Qed.
Lemma sim_select_loop n p : sim (select_loop n p).
Proof. revert p. induction n as [|n IH]; intros p; simpl; ksim. Qed.
#[local] Hint Resolve sim_prvAddTaskToReadyList sim_select_loop : ksim.
Lemma sim_vTaskSwitchContext : sim vTaskSwitchContext.
Proof. unfold vTaskSwitchContext, taskSELECT_HIGHEST_PRIORITY_TASK. ksim. Qed.
#[local] Hint Resolve sim_vTaskSwitchContext : ksim.
Lemma sim_portYIELD : sim portYIELD.
Proof. apply sim_vTaskSwitchContext. Qed.
Lemma sim_prvResetNextTaskUnblockTime : sim prvResetNextTaskUnblockTime.
Proof. unfold prvResetNextTaskUnblockTime. ksim. Qed.
#[local] Hint Resolve sim_portYIELD sim_prvResetNextTaskUnblockTime : ksim.
Lemma sim_taskSWITCH_DELAYED_LISTS : sim taskSWITCH_DELAYED_LISTS.
Proof. unfold taskSWITCH_DELAYED_LISTS. ksim. Qed.
Lemma sim_prvAddCurrentTaskToDelayedList n b : sim (prvAddCurrentTaskToDelayedList n b).
Proof. unfold prvAddCurrentTaskToDelayedList. ksim. Qed.
Lemma sim_remove_if_linked i : sim (remove_if_linked i).
Proof. unfold remove_if_linked. ksim. Qed.
#[local] Hint Resolve sim_taskSWITCH_DELAYED_LISTS sim_prvAddCurrentTaskToDelayedList sim_remove_if_linked : ksim.
Lemma sim_tick_loop n c b : sim (tick_loop n c b).
Proof. revert b. induction n as [|n IH]; intros b; simpl; ksim. Qed.
#[local] Hint Resolve sim_tick_loop : ksim.
Lemma sim_xTaskIncrementTick : sim xTaskIncrementTick.
Proof. unfold xTaskIncrementTick. ksim. Qed.
#[local] Hint Resolve sim_xTaskIncrementTick : ksim.
Lemma sim_vTickISR : sim vTickISR.
Proof. unfold vTickISR. ksim. Qed.
Lemma sim_vTaskSuspendAll : sim vTaskSuspendAll.
Proof. unfold vTaskSuspendAll. ksim. Qed.
Lemma sim_pending_loop n b : sim (pending_loop n b).
Proof. revert b. induction n as [|n IH]; intros b; simpl; ksim. Qed.
Lemma sim_pended_ticks_loop n : sim (pended_ticks_loop n).
Proof. induction n as [|n IH]; simpl; ksim. Qed.
#[local] Hint Resolve sim_vTaskSuspendAll sim_pending_loop sim_pended_ticks_loop : ksim.
Lemma sim_xTaskResumeAll : sim xTaskResumeAll.
Proof. unfold xTaskResumeAll. ksim. Qed.
#[local] Hint Resolve sim_xTaskResumeAll : ksim.
Lemma sim_xTaskCatchUpTicks n : sim (xTaskCatchUpTicks n).
Proof. unfold xTaskCatchUpTicks. ksim. Qed.
Lemma sim_vTaskDelay n : sim (vTaskDelay n).
Proof. unfold vTaskDelay. ksim. Qed.
Lemma sim_xTaskDelayUntil p n : sim (xTaskDelayUntil p n).
Proof. unfold xTaskDelayUntil. ksim. Qed.
Lemma sim_init_ready_lists n p : sim (init_ready_lists n p).
Proof. revert p. induction n as [|n IH]; intros p; simpl; ksim. Qed.
#[local] Hint Resolve sim_init_ready_lists : ksim.
Lemma sim_prvInitialiseTaskLists : sim prvInitialiseTaskLists.
Proof. unfold prvInitialiseTaskLists. ksim. Qed.
Lemma sim_prvInitialiseNewTask t p : sim (prvInitialiseNewTask t p).
Proof. unfold prvInitialiseNewTask. ksim. Qed.
#[local] Hint Resolve sim_prvInitialiseTaskLists sim_prvInitialiseNewTask : ksim.
Lemma sim_prvAddNewTaskToReadyList t : sim (prvAddNewTaskToReadyList t).
Proof. unfold prvAddNewTaskToReadyList. ksim. Qed.
#[local] Hint Resolve sim_prvAddNewTaskToReadyList : ksim.
Lemma sim_xTaskCreate m p : sim (xTaskCreate m p).
Proof. unfold xTaskCreate. ksim. Qed.
#[local] Hint Resolve sim_xTaskCreate : ksim.
Lemma sim_vTaskStartScheduler m : sim (vTaskStartScheduler m).
Proof. unfold vTaskStartScheduler. ksim. Qed.
Lemma sim_prvGetTCBFromHandle h : sim (prvGetTCBFromHandle h).
Proof. unfold prvGetTCBFromHandle. ksim. Qed.
Lemma sim_prvDeleteTCB t : sim (prvDeleteTCB t).
Proof. unfold prvDeleteTCB. ksim. Qed.
#[local] Hint Resolve sim_prvGetTCBFromHandle sim_prvDeleteTCB : ksim.
Lemma sim_vTaskDelete h : sim (vTaskDelete h).
Proof. unfold vTaskDelete. ksim. Qed.
Lemma sim_cleanup_loop n : sim (cleanup_loop n).
Proof. induction n as [|n IH]; simpl; ksim. Qed.
#[local] Hint Resolve sim_cleanup_loop : ksim.
Lemma sim_prvCheckTasksWaitingTermination : sim prvCheckTasksWaitingTermination.
Proof. unfold prvCheckTasksWaitingTermination. ksim. Qed.
Lemma sim_vTaskSuspend h : sim (vTaskSuspend h).
Proof. unfold vTaskSuspend. ksim. Qed.
Lemma sim_prvTaskIsTaskSuspended t : sim (prvTaskIsTaskSuspended t).
Proof. unfold prvTaskIsTaskSuspended. ksim. Qed.
#[local] Hint Resolve sim_prvTaskIsTaskSuspended : ksim.
Lemma sim_vTaskResume h : sim (vTaskResume h).
Proof. unfold vTaskResume. ksim. Qed.
Lemma sim_xTaskResumeFromISR t : sim (xTaskResumeFromISR t).
Proof. unfold xTaskResumeFromISR. ksim. Qed.
Lemma sim_uxTaskPriorityGet h : sim (uxTaskPriorityGet h).
Proof. unfold uxTaskPriorityGet. ksim. Qed.
Lemma sim_vTaskPrioritySet h p : sim (vTaskPrioritySet h p).
Proof. unfold vTaskPrioritySet. ksim. Qed.
Lemma sim_vTaskPlaceOnEventList l n : sim (vTaskPlaceOnEventList l n).
Proof. unfold vTaskPlaceOnEventList. ksim. Qed.
Lemma sim_vTaskPlaceOnUnorderedEventList l v n : sim (vTaskPlaceOnUnorderedEventList l v n).
Proof. unfold vTaskPlaceOnUnorderedEventList. ksim. Qed.
Lemma sim_ready_or_pend t : sim (ready_or_pend t).
Proof. unfold ready_or_pend. ksim. Qed.
#[local] Hint Resolve sim_ready_or_pend : ksim.
Lemma sim_xTaskRemoveFromEventList l : sim (xTaskRemoveFromEventList l).
Proof. unfold xTaskRemoveFromEventList. ksim. Qed.
Lemma sim_vTaskRemoveFromUnorderedEventList t v : sim (vTaskRemoveFromUnorderedEventList t v).
Proof. unfold vTaskRemoveFromUnorderedEventList. ksim. Qed.
Lemma sim_vTaskMissedYield : sim vTaskMissedYield.
Proof. unfold vTaskMissedYield. ksim. Qed.
Lemma sim_uxTaskResetEventItemValue : sim uxTaskResetEventItemValue.
Proof. unfold uxTaskResetEventItemValue. ksim. Qed.
Lemma sim_vTaskSetTimeOutState : sim vTaskSetTimeOutState.
Proof. unfold vTaskSetTimeOutState. ksim. Qed.
#[local] Hint Resolve sim_vTaskSetTimeOutState : ksim.
Lemma sim_xTaskCheckForTimeOut o n : sim (xTaskCheckForTimeOut o n).
Proof. unfold xTaskCheckForTimeOut. ksim. Qed.
End functions.

#[export] Hint Resolve sim_listINSERT_END sim_listINSERT sim_listREMOVE_ITEM sim_listSET_LIST_ITEM_VALUE
  sim_listLIST_IS_EMPTY sim_head_owner sim_next_owner sim_tcb sim_current sim_priority_of sim_wr_tcb
  sim_prvAddTaskToReadyList sim_vTaskSwitchContext sim_portYIELD sim_prvAddCurrentTaskToDelayedList
  sim_vTickISR sim_vTaskSuspendAll sim_xTaskResumeAll sim_xTaskCatchUpTicks sim_vTaskDelay sim_xTaskDelayUntil
  sim_xTaskCreate sim_vTaskStartScheduler sim_vTaskDelete sim_prvCheckTasksWaitingTermination sim_vTaskSuspend
  sim_vTaskResume sim_xTaskResumeFromISR sim_uxTaskPriorityGet sim_vTaskPrioritySet sim_vTaskPlaceOnEventList
  sim_vTaskPlaceOnUnorderedEventList sim_xTaskRemoveFromEventList sim_vTaskRemoveFromUnorderedEventList
  sim_vTaskMissedYield sim_uxTaskResetEventItemValue sim_vTaskSetTimeOutState sim_xTaskCheckForTimeOut
  sim_prvGetTCBFromHandle sim_ready_or_pend : ksim.
