(* ===== verification/TasksInv.v ===== *)
(** * The scheduler's invariant

    Rules to reason about the functions of Tasks.v on abstract lists, and the
    invariant: where the two list items of every task may be. *)
From S2P Require Import Prelude RtosList KList Tasks.
Local Open Scope Z_scope.

(** ** Total correctness: [m] returns, and its result satisfies [Q] *)
Definition wp {L R} (m : K L R) (Q : R → kernel L → Prop) (k : kernel L) : Prop :=
  match m k with Some (k', r) => Q r k' | None => False end.

Section wp.
Context {L : Type}.

Lemma wp_ret {R} (r : R) Q (k : kernel L) : Q r k → wp (mret r) Q k.
Proof. done. Qed.

Lemma wp_bind {P R} (m : K L P) (f : P → K L R) Q k :
  wp m (λ r k', wp (f r) Q k') k → wp (m ≫= f) Q k.
Proof. unfold wp, mbind, K_bind. by destruct (m k) as [[k' r]|]. Qed.

Lemma wp_mono {R} (m : K L R) (P Q : R → kernel L → Prop) k :
  wp m P k → (∀ r k', P r k' → Q r k') → wp m Q k.
Proof. unfold wp. destruct (m k) as [[k' r]|]; eauto. Qed.

Lemma wp_result {R} (m : K L R) Q k : wp m Q k ↔ ∃ k' r, m k = Some (k', r) ∧ Q r k'.
Proof. unfold wp. destruct (m k) as [[k' r]|]; naive_solver. Qed.

Lemma wp_deref {R} (p : option R) x Q (k : kernel L) : p = Some x → Q x k → wp (deref p) Q k.
Proof. by intros ->. Qed.

Lemma wp_gets {R} (f : kdata → R) Q (k : kernel L) : Q (f (data k)) k → wp (gets f) Q k.
Proof. done. Qed.

Lemma wp_upd f Q (k : kernel L) : Q () (MkKernel (lists k) (f (data k))) → wp (upd f) Q k.
Proof. done. Qed.

Lemma wp_when (c : bool) (m : K L unit) Q k :
  (c = true → wp m Q k) → (c = false → Q () k) → wp (when c m) Q k.
Proof. unfold when. destruct c; intros H1 H2; [by apply H1|by apply H2]. Qed.

Lemma wp_if {R} (c : bool) (m n : K L R) Q k :
  (c = true → wp m Q k) → (c = false → wp n Q k) → wp (if c then m else n) Q k.
Proof. destruct c; auto. Qed.
End wp.

(** One step of symbolic execution. *)
Ltac wp_step :=
  lazymatch goal with
  | |- wp (_ ≫= _) _ _ => apply wp_bind
  | |- wp (mret _) _ _ => apply wp_ret
  | |- wp (gets _) _ _ => apply wp_gets
  | |- wp (upd _) _ _ => apply wp_upd; cbn [lists data]
  | |- wp (when _ _) _ _ => apply wp_when
  | |- wp (if true then ?m else _) ?Q ?k => change (wp m Q k)
  | |- wp (if false then _ else ?m) ?Q ?k => change (wp m Q k)
  end.

(** ** Abstract lists under the operations *)

Abbreviation akernel := (kernel astate).
Implicit Types (A : astate) (d : kdata) (k : akernel) (i j l : positive) (t : TaskHandle_t).

Record lists_ok (A : astate) : Prop := {
  lo_nodup : ∀ l a, a_lists A !! l = Some a → NoDup (elems a);
  lo_unique : ∀ l l' i, holds A l i → holds A l' i → l = l';
  lo_items : ∀ l i, holds A l i → i ∈ a_items A;
  lo_cursor : ∀ l a j, a_lists A !! l = Some a → cursor a = Some j → j ∈ elems a;
  lo_size : Z.of_nat (size (a_items A)) < 4294967296 }.

Lemma holds_container A l i : lists_ok A → holds A l i ↔ a_container A i = Some l.
Proof.
  intros O. split; [|apply a_container_Some]. intros H.
  destruct (a_container A i) as [l'|] eqn:E.
  - f_equal. apply (lo_unique _ O _ _ i); [|done]. by apply a_container_Some.
  - by apply (proj1 (a_container_None A i) E l) in H.
Qed.

Lemma a_free_intro A i : i ∈ a_items A → (∀ l, ¬ holds A l i) → a_free A i = true.
Proof.
  intros Hi Hf. unfold a_free. rewrite (proj2 (a_container_None A i) Hf).
  by rewrite bool_decide_eq_true_2.
Qed.

Lemma list_length A l a : lists_ok A → a_lists A !! l = Some a →
  u32 (Z.of_nat (length (elems a))) = Z.of_nat (length (elems a)).
Proof.
  intros O Ha. apply u32_id. split; [lia|]. pose proof (lo_size _ O).
  assert (length (elems a) ≤ size (a_items A))%nat; [|lia].
  rewrite <- (size_list_to_set (C := gset positive) (elems a)) by by apply (lo_nodup _ O l).
  apply subseteq_size. intros i Hi. apply (lo_items _ O l). exists a. split; [done|]. set_solver.
Qed.

Definition list_sorted A l : Prop := ∀ a, a_lists A !! l = Some a → ascending (a_val A) (elems a).

(** [A'] is [A] with the item [i] moved to the list [c], or to no list; [ord]
    says that the list it went to stays in order. *)
Record moved (A A' : astate) (i : positive) (c : option positive) (ord : Prop) : Prop := {
  mv_ok : lists_ok A';
  mv_holds : ∀ l j, holds A' l j ↔ (j = i ∧ c = Some l) ∨ (j ≠ i ∧ holds A l j);
  mv_lists : ∀ l, is_Some (a_lists A' !! l) ↔ is_Some (a_lists A !! l);
  mv_other : ∀ l, c ≠ Some l → ¬ holds A l i → a_lists A' !! l = a_lists A !! l;
  mv_sorted : ∀ l, (c = Some l → ord) → list_sorted A l → list_sorted A' l;
  mv_val : a_val A' = a_val A;
  mv_own : a_own A' = a_own A;
  mv_items : a_items A' = a_items A;
  mv_mem : a_mem A' = a_mem A }.

Lemma moved_holds_ne A A' i c o l j : moved A A' i c o → j ≠ i → holds A' l j ↔ holds A l j.
Proof. intros M Hj. rewrite (mv_holds _ _ _ _ _ M). naive_solver. Qed.

Lemma moved_holds_eq A A' i c o l : moved A A' i c o → holds A' l i ↔ c = Some l.
Proof. intros M. rewrite (mv_holds _ _ _ _ _ M). naive_solver. Qed.

Lemma set_alist_holds A l a l' j :
  holds (set_alist l a A) l' j ↔ if decide (l' = l) then j ∈ elems a else holds A l' j.
Proof.
  unfold holds, set_alist. simpl. destruct (decide (l' = l)) as [->|].
  - rewrite lookup_insert_eq. naive_solver.
  - rewrite lookup_insert_ne by done. naive_solver.
Qed.

(** An insertion: the new contents are the old ones and [i]. *)
Lemma insert_moved A l a b i (ord : Prop) :
  lists_ok A → a_lists A !! l = Some a → i ∈ a_items A → (∀ l, ¬ holds A l i) →
  elems b ≡ₚ i :: elems a → cursor b = cursor a →
  (ord → list_sorted A l → ascending (a_val A) (elems b)) →
  moved A (set_alist l b A) i (Some l) ord.
Proof.
  intros O Ha Hi Hf P Hc Hs.
  assert (HH : ∀ l' j, holds (set_alist l b A) l' j ↔ (j = i ∧ Some l = Some l') ∨ (j ≠ i ∧ holds A l' j)).
  { intros l' j. rewrite set_alist_holds. destruct (decide (l' = l)) as [->|Hl].
    - rewrite P, elem_of_cons. split.
      + intros [->|Hj]; [by left|right]. assert (holds A l j) by by exists a.
        split; [|done]. intros ->. by destruct (Hf l).
      + intros [[-> _]|[_ (a' & Ha' & Hj)]]; [by left|right]. congruence.
    - split; [intros Hj; right; split; [intros ->; by destruct (Hf l')|done]|]. naive_solver. }
  constructor; simpl; [|exact HH| | | |done..].
  - constructor; simpl.
    + intros l' c. rewrite lookup_insert_Some. intros [[<- <-]|[_ Hl]]; [|by apply (lo_nodup _ O l')].
      rewrite P. constructor; [|by apply (lo_nodup _ O l)]. intros Hin. destruct (Hf l). by exists a.
    + intros l1 l2 j. rewrite !HH. intros [[-> [= <-]]|[? H1]] [[? [= <-]]|[? H2]]; try done.
      by apply (lo_unique _ O _ _ j).
    + intros l' j. rewrite HH. intros [[-> _]|[_ Hj]]; [done|]. by apply (lo_items _ O l').
    + intros l' c j. rewrite lookup_insert_Some. intros [[<- <-]|[_ Hl]] Hj; [|by apply (lo_cursor _ O l')].
      rewrite P. right. apply (lo_cursor _ O l _ _ Ha). congruence.
    + apply O.
  - intros l'. rewrite lookup_insert_is_Some. destruct (decide (l = l')) as [<-|]; [|naive_solver].
    split; [eauto|by left].
  - intros l' Hl _. by rewrite lookup_insert_ne by congruence.
  - intros l' Ho Sl c. simpl. rewrite lookup_insert_Some. intros [[<- <-]|[_ Hl]]; auto.
Qed.

Lemma insert_before_perm n i xs : insert_before n i xs ≡ₚ i :: xs.
Proof.
  induction xs as [|x xs IH]; simpl; [done|]. destruct (decide (x = n)); [done|].
  rewrite IH. apply Permutation_swap.
Qed.

Section rules.
Context (k : akernel) (O : lists_ok (lists k)).

Lemma wp_listINSERT_END l i Q :
  is_Some (a_lists (lists k) !! l) → i ∈ a_items (lists k) → (∀ l, ¬ holds (lists k) l i) →
  (∀ A', moved (lists k) A' i (Some l) False → Q () (MkKernel A' (data k))) →
  wp (listINSERT_END l i) Q k.
Proof using O.
  intros [a Ha] Hi Hf HQ. unfold listINSERT_END, wp, lst, mbind, K_bind. simpl. rewrite Ha. simpl.
  rewrite a_free_intro by done. simpl. apply HQ. apply (insert_moved _ _ a); [done..| | |done];
    unfold a_insert_end; destruct (cursor a); simpl; [|rewrite Permutation_app_comm; done|done..].
  apply insert_before_perm.
Qed.

Lemma wp_listINSERT l i Q :
  is_Some (a_lists (lists k) !! l) → i ∈ a_items (lists k) → (∀ l, ¬ holds (lists k) l i) →
  (∀ A', moved (lists k) A' i (Some l) True → Q () (MkKernel A' (data k))) →
  wp (listINSERT l i) Q k.
Proof using O.
  intros [a Ha] Hi Hf HQ. unfold listINSERT, wp, lst, mbind, K_bind. simpl. rewrite Ha. simpl.
  rewrite a_free_intro by done. simpl. apply HQ. apply (insert_moved _ _ a); [done..| |done|].
  - apply insert_by_perm.
  - intros _ Sl. apply insert_by_sorted. by apply Sl.
Qed.

Lemma remove_item_split_in i xs : i ∈ xs → NoDup xs →
  ∃ pre suf, xs = pre ++ i :: suf ∧ (i ∉ pre) ∧ (i ∉ suf) ∧ remove_item i xs = pre ++ suf.
Proof.
  intros (pre & suf & ->)%list_elem_of_split ND. apply NoDup_app in ND as (_ & H1 & ND).
  apply NoDup_cons in ND as [H2 _].
  assert (i ∉ pre) by (intros Hi; apply (H1 _ Hi); by left).
  exists pre, suf. split_and!; [done..|]. by apply remove_item_split.
Qed.

Lemma wp_listREMOVE_ITEM l i Q :
  holds (lists k) l i →
  (∀ A', moved (lists k) A' i None False → Q () (MkKernel A' (data k))) →
  wp (listREMOVE_ITEM i) Q k.
Proof using O.
  intros Hl HQ. unfold listREMOVE_ITEM, wp, lst, mbind, K_bind. simpl.
  rewrite (proj1 (holds_container _ l i O) Hl). simpl. destruct Hl as (a & Ha & Hi). rewrite Ha. simpl.
  apply HQ. set (A := lists k) in *.
  destruct (remove_item_split_in i (elems a) Hi (lo_nodup _ O _ _ Ha)) as (pre & suf & E & N1 & N2 & E').
  assert (Hb : ∀ j, j ∈ elems (a_remove i a) ↔ j ≠ i ∧ j ∈ elems a).
  { intros j. unfold a_remove. simpl. rewrite E', E, !elem_of_app, elem_of_cons.
    destruct (decide (j = i)) as [->|]; naive_solver. }
  assert (HH : ∀ l' j, holds (set_alist l (a_remove i a) A) l' j ↔ (j = i ∧ None = Some l') ∨ (j ≠ i ∧ holds A l' j)).
  { intros l' j. rewrite set_alist_holds. destruct (decide (l' = l)) as [->|Hne].
    - rewrite Hb. split; [intros [??]; right; split; [done|by exists a]|].
      intros [[??]|[? (b & Hb' & ?)]]; [done|]. split; [done|]. congruence.
    - split; [intros Hj; right; split; [|done]|naive_solver]. intros ->.
      apply Hne. apply (lo_unique _ O _ _ i); [done|by exists a]. }
  constructor; simpl; [|exact HH| | | |done..].
  - constructor; simpl.
    + intros l' b. rewrite lookup_insert_Some. intros [[<- <-]|[_ Hl]]; [|by apply (lo_nodup _ O l')].
      pose proof (lo_nodup _ O _ _ Ha) as ND. unfold a_remove. simpl. rewrite E'. rewrite E in ND.
      rewrite <- Permutation_middle in ND. by apply NoDup_cons in ND as [_ ?].
    + intros l1 l2 j. rewrite !HH. intros [[_ ?]|[? H1]] [[_ ?]|[? H2]]; [done..|].
      by apply (lo_unique _ O _ _ j).
    + intros l' j. rewrite HH. intros [[_ ?]|[_ Hj]]; [done|]. by apply (lo_items _ O l').
    + intros l' b j. rewrite lookup_insert_Some. intros [[<- <-]|[_ Hl]] Hj; [|by apply (lo_cursor _ O l')].
      apply Hb. unfold a_remove in Hj. simpl in Hj. case_decide as Dj.
      * rewrite E in Hj. rewrite pred_of_split in Hj by done.
        destruct (last pre) as [y|] eqn:Ly; [|done]. simplify_eq.
        apply last_elem_of in Ly. split; [congruence|]. rewrite E. set_solver.
      * split; [congruence|]. by apply (lo_cursor _ O l).
    + apply O.
  - intros l'. rewrite lookup_insert_is_Some. destruct (decide (l = l')) as [<-|]; [|naive_solver].
    split; [eauto|by left].
  - intros l' _ Hn. rewrite lookup_insert_ne; [done|]. intros <-. destruct Hn. by exists a.
  - intros l' _ Sl b. simpl. rewrite lookup_insert_Some. intros [[<- <-]|[_ Hl]]; [|by apply Sl].
    specialize (Sl _ Ha). unfold a_remove. simpl. rewrite E'. rewrite E in Sl.
    revert Sl. clear. induction pre as [|y pre IH]; simpl.
    + by intros [? _]%StronglySorted_inv.
    + intros [H1 F]%StronglySorted_inv. constructor; [by apply IH|].
      rewrite Forall_forall in F |- *. intros z Hz. apply F. set_solver.
Qed.

(** The same with the list that is left. *)
Lemma wp_listREMOVE_ITEM_exact l a i Q :
  a_lists (lists k) !! l = Some a → i ∈ elems a →
  (∀ A', moved (lists k) A' i None False → A' = set_alist l (a_remove i a) (lists k) → Q () (MkKernel A' (data k))) →
  wp (listREMOVE_ITEM i) Q k.
Proof using O.
  intros Ha Hi HQ. assert (Hl : holds (lists k) l i) by by exists a.
  pose proof (wp_listREMOVE_ITEM l i (λ _ k', moved (lists k) (lists k') i None False) Hl (λ A' M, M)) as W.
  unfold wp, listREMOVE_ITEM, lst, mbind, K_bind in *. simpl in *.
  rewrite (proj1 (holds_container _ l i O) Hl) in *. simpl in *. rewrite Ha in *. simpl in *. by apply HQ.
Qed.

Lemma wp_length l a Q :
  a_lists (lists k) !! l = Some a → Q (Z.of_nat (length (elems a))) k → wp (rd (RdLength l)) Q k.
Proof using O. intros Ha HQ. unfold wp, rd. simpl. rewrite Ha. simpl. by rewrite (list_length (lists k) l a). Qed.

Lemma wp_is_empty l a Q :
  a_lists (lists k) !! l = Some a → Q (bool_decide (elems a = [])) k → wp (listLIST_IS_EMPTY l) Q k.
Proof using O.
  intros Ha HQ. unfold listLIST_IS_EMPTY. wp_step. apply (wp_length _ a); [done|]. wp_step.
  destruct (elems a); [exact HQ|]. rewrite bool_decide_eq_false_2 in HQ by done.
  by replace (_ =? 0) with false by (symmetry; apply Z.eqb_neq; simpl; lia).
Qed.

Lemma wp_value i Q : i ∈ a_items (lists k) → Q (a_val (lists k) i) k → wp (rd (RdValue i)) Q k.
Proof. intros Hi HQ. unfold wp, rd. simpl. by rewrite decide_True. Qed.

Lemma wp_head_value l a i xs Q :
  a_lists (lists k) !! l = Some a → elems a = i :: xs → Q (a_val (lists k) i) k → wp (rd (RdHeadValue l)) Q k.
Proof. intros Ha E HQ. unfold wp, rd. simpl. rewrite Ha. simpl. by rewrite E. Qed.

Lemma wp_container i Q : i ∈ a_items (lists k) → Q (a_container (lists k) i) k → wp (container i) Q k.
Proof. intros Hi HQ. unfold wp, container. simpl. by rewrite decide_True. Qed.

Lemma wp_head_owner l a i xs Q :
  a_lists (lists k) !! l = Some a → elems a = i :: xs → Q (Z.to_pos (a_own (lists k) i)) k →
  wp (listGET_OWNER_OF_HEAD_ENTRY l) Q k.
Proof.
  intros Ha E HQ. unfold listGET_OWNER_OF_HEAD_ENTRY, wp, rd, mbind, K_bind. simpl.
  rewrite Ha. simpl. by rewrite E.
Qed.

(** The walk stays on the list and moves nothing. *)
Lemma wp_next_owner l a Q :
  a_lists (lists k) !! l = Some a → elems a ≠ [] →
  (∀ A' j, a_next a = Some j → holds (lists k) l j → A' = set_alist l (set_cursor (Some j) a) (lists k) →
    moved (lists k) A' j (Some l) True →
    Q (Z.to_pos (a_own (lists k) j)) (MkKernel A' (data k))) →
  wp (listGET_OWNER_OF_NEXT_ENTRY l) Q k.
Proof using O.
  intros Ha E HQ. unfold listGET_OWNER_OF_NEXT_ENTRY, wp, lst, mbind, K_bind. simpl. rewrite Ha. simpl.
  set (A := lists k) in *.
  assert (∃ j, a_next a = Some j ∧ j ∈ elems a) as (j & Hj & Hin).
  { unfold a_next. destruct (elems a) as [|x xs] eqn:Ex; [done|].
    destruct (cursor a) as [c|]; simpl; [|exists x; split; [done|by left]].
    destruct (decide (x = c)) as [->|].
    - destruct xs; simpl; eexists; (split; [done|set_solver]).
    - destruct (succ_of c xs) as [j|] eqn:Es; [|exists x; split; [done|by left]].
      exists j. split; [done|]. right. revert Es. clear. induction xs as [|z xs IH]; simpl; [done|].
      destruct (decide (z = c)); [|set_solver]. intros H. apply head_Some in H as [? ->]. set_solver. }
  rewrite Hj. simpl. apply (HQ _ j); [done|by exists a|done|].
  assert (HH : ∀ l' i, holds (set_alist l (set_cursor (Some j) a) A) l' i ↔ holds A l' i).
  { intros l' i. rewrite set_alist_holds. destruct (decide (l' = l)) as [->|]; [|done]. simpl.
    split; [intros ?; by exists a|intros (b & Hb & ?); congruence]. }
  constructor; simpl; [| | | | |done..].
  - constructor; simpl.
    + intros l' b. rewrite lookup_insert_Some. intros [[<- <-]|[_ Hl]]; [|by apply (lo_nodup _ O l')].
      apply (lo_nodup _ O l a Ha).
    + intros l1 l2 i. rewrite !HH. apply (lo_unique _ O).
    + intros l' i. rewrite HH. apply (lo_items _ O).
    + intros l' b i. rewrite lookup_insert_Some. intros [[<- <-]|[_ Hl]] Hi; [simpl in *; congruence|].
      by apply (lo_cursor _ O l').
    + apply O.
  - intros l' i. rewrite HH. split.
    + intros Hi. destruct (decide (i = j)) as [->|]; [left|by right]. split; [done|f_equal].
      apply (lo_unique _ O _ _ j); [by exists a|done].
    + intros [[-> [= <-]]|[_ ?]]; [by exists a|done].
  - intros l'. rewrite lookup_insert_is_Some. destruct (decide (l = l')) as [<-|]; [|naive_solver].
    split; [eauto|by left].
  - intros l' Hl _. by rewrite lookup_insert_ne by congruence.
  - intros l' _ Sl b. simpl. rewrite lookup_insert_Some. intros [[<- <-]|[_ Hl]]; [|by apply Sl].
    by apply (Sl a).
Qed.

Lemma wp_listSET_LIST_ITEM_VALUE i v Q :
  i ∈ a_items (lists k) → is_u32 v → Q () (MkKernel (a_set_value i v (lists k)) (data k)) →
  wp (listSET_LIST_ITEM_VALUE i v) Q k.
Proof.
  intros Hi Hv HQ. unfold listSET_LIST_ITEM_VALUE, wp, lst, mbind, K_bind. simpl.
  by rewrite !bool_decide_eq_true_2.
Qed.

Lemma wp_tcb t T Q : tcbs (data k) !! t = Some T → Q T k → wp (tcb t) Q k.
Proof. intros E HQ. unfold tcb. wp_step. wp_step. by apply (wp_deref _ T). Qed.

Lemma wp_current t Q : pxCurrentTCB (data k) = Some t → Q t k → wp current Q k.
Proof. intros E HQ. unfold current. wp_step. wp_step. by apply (wp_deref _ t). Qed.

Lemma wp_priority_of t T Q : tcbs (data k) !! t = Some T → Q (uxPriority T) k → wp (priority_of t) Q k.
Proof. intros E HQ. unfold priority_of. wp_step. by apply (wp_tcb _ T). Qed.

Lemma wp_wr_tcb t T f Q : tcbs (data k) !! t = Some T →
  Q () (MkKernel (lists k) (set_tcbs (<[t := f T]> (tcbs (data k))) (data k))) → wp (wr_tcb t f) Q k.
Proof. intros E HQ. unfold wr_tcb. wp_step. by apply (wp_tcb _ T). Qed.
End rules.

Lemma set_value_ok A i v : lists_ok A → lists_ok (a_set_value i v A).
Proof. intros []. by constructor. Qed.

(** ** The lists a task can be on *)
Definition state_list l : Prop := (l ≤ 10)%positive ∧ l ≠ xPendingReadyList.
Definition blocked_list l : Prop := l = xDelayedTaskList1 ∨ l = xDelayedTaskList2 ∨ l = xSuspendedTaskList.

Definition ready A (p : Z) t : Prop := ∃ l, pxReadyTasksLists p = Some l ∧ holds A l (St t).

Lemma ready_list_Some p l : pxReadyTasksLists p = Some l ↔ 0 ≤ p < 5 ∧ l = Z.to_pos (p + 1).
Proof.
  unfold pxReadyTasksLists, configMAX_PRIORITIES. split.
  - intros E. destruct (0 <=? p) eqn:?, (p <? 5) eqn:?; simplify_eq/=. split; [lia|done].
  - intros [? ->]. replace (0 <=? p) with true by lia. by replace (p <? 5) with true by lia.
Qed.

Lemma ready_list_inj p q l : pxReadyTasksLists p = Some l → pxReadyTasksLists q = Some l → p = q.
Proof. intros [? ->]%ready_list_Some [? ?]%ready_list_Some. lia. Qed.

Lemma ready_list_bound p l : pxReadyTasksLists p = Some l → (l ≤ 5)%positive.
Proof. intros [? ->]%ready_list_Some. lia. Qed.

Ltac list_lia :=
  unfold state_list, blocked_list, xDelayedTaskList1, xDelayedTaskList2, xPendingReadyList,
    xSuspendedTaskList, xTasksWaitingTermination in *; lia.

#[export] Instance St_inj : Inj (=) (=) xStateListItem.
Proof. by intros ?? [=]. Qed.

(** Items of different tasks, and the two items of one, differ. *)
Ltac item_ne := unfold xStateListItem, xEventListItem in *; congruence.

(** ** Well-formedness

    Of a TCB: a priority in range, and arrays of the configured size. *)
Record tcb_ok (T : TCB) : Prop := {
  to_prio : 0 ≤ uxPriority T < 5;
  to_values : length (ulNotifiedValue T) = configTASK_NOTIFICATION_ARRAY_ENTRIES;
  to_states : length (ucNotifyState T) = configTASK_NOTIFICATION_ARRAY_ENTRIES }.

(** Of the kernel:

    [x] is a task whose state item has just been taken off its list; [y] one
    whose event item waits for an event although the task is not blocked yet. *)
Section wf.
Context (idle : TaskHandle_t).

Record wf (x y : option positive) (A : astate) (d : kdata) : Prop := {
  wf_ok : lists_ok A;
  wf_exist : ∀ l, (l ≤ 10)%positive → is_Some (a_lists A !! l);
  wf_items : ∀ t, is_Some (tcbs d !! t) → St t ∈ a_items A ∧ Ev t ∈ a_items A;
  wf_tasks : ∀ i, i ∈ a_items A → ∃ t, is_Some (tcbs d !! t) ∧ (i = St t ∨ i = Ev t);
  wf_own : ∀ t, is_Some (tcbs d !! t) → a_own A (St t) = Z.pos t ∧ a_own A (Ev t) = Z.pos t;
  wf_tcb : ∀ t T, tcbs d !! t = Some T → tcb_ok T;
  wf_state : ∀ t, is_Some (tcbs d !! t) → x ≠ Some t → ∃ l, holds A l (St t);
  wf_transit : ∀ t l, x = Some t → ¬ holds A l (St t);
  wf_st : ∀ t l, holds A l (St t) → state_list l;
  wf_ev : ∀ t l, holds A l (Ev t) → ¬ state_list l;
  wf_ready : ∀ p t T, ready A p t → tcbs d !! t = Some T → uxPriority T = p ∧ p ≤ uxTopReadyPriority d;
  wf_waiting : ∀ t l, holds A l (Ev t) → x ≠ Some t → y ≠ Some t → ∃ l', blocked_list l' ∧ holds A l' (St t);
  wf_top : 0 ≤ uxTopReadyPriority d < 5;
  wf_current : ∃ c, pxCurrentTCB d = Some c ∧ is_Some (tcbs d !! c);
  wf_idle : xSchedulerRunning d = true →
    (∃ T, tcbs d !! idle = Some T ∧ uxPriority T = 0) ∧ (x ≠ Some idle → ready A 0 idle) }.

Lemma wf_prio x y A d t T : wf x y A d → tcbs d !! t = Some T → 0 ≤ uxPriority T < 5.
Proof. intros W HT. apply (wf_tcb _ _ _ _ W _ _ HT). Qed.

Lemma wf_st_item x y A d t : wf x y A d → is_Some (tcbs d !! t) → St t ∈ a_items A.
Proof. intros W Ht. by apply (wf_items _ _ _ _ W). Qed.

Lemma wf_ev_item x y A d t : wf x y A d → is_Some (tcbs d !! t) → Ev t ∈ a_items A.
Proof. intros W Ht. by apply (wf_items _ _ _ _ W). Qed.

(** Every item on a list is one of a task. *)
Lemma wf_holds_task x y A d l i : wf x y A d → holds A l i →
  ∃ t, is_Some (tcbs d !! t) ∧ (i = St t ∨ i = Ev t).
Proof. intros W Hi. apply (wf_tasks _ _ _ _ W), (lo_items _ (wf_ok _ _ _ _ W) _ _ Hi). Qed.

Lemma wf_st_task x y A d l t : wf x y A d → holds A l (St t) → is_Some (tcbs d !! t).
Proof. intros W (t' & Ht & [[= ->]|[=]])%(wf_holds_task _ _ _ _ _ _ W). done. Qed.

Lemma wf_ev_task x y A d l t : wf x y A d → holds A l (Ev t) → is_Some (tcbs d !! t).
Proof. intros W (t' & Ht & [[=]|[= ->]])%(wf_holds_task _ _ _ _ _ _ W). done. Qed.

(** The items on a state list are state items. *)
Lemma wf_on_state_list x y A d l i : wf x y A d → state_list l → holds A l i →
  ∃ t, i = St t ∧ is_Some (tcbs d !! t) ∧ Z.to_pos (a_own A i) = t.
Proof.
  intros W Sl Hi. destruct (wf_holds_task _ _ _ _ _ _ W Hi) as (t & Ht & [->| ->]).
  - exists t. split_and!; [done..|]. by rewrite (proj1 (wf_own _ _ _ _ W t Ht)).
  - by destruct (wf_ev _ _ _ _ W _ _ Hi).
Qed.

Lemma wf_on_event_list x y A d l i : wf x y A d → ¬ state_list l → holds A l i →
  ∃ t, i = Ev t ∧ is_Some (tcbs d !! t) ∧ Z.to_pos (a_own A i) = t.
Proof.
  intros W Sl Hi. destruct (wf_holds_task _ _ _ _ _ _ W Hi) as (t & Ht & [->| ->]).
  - by destruct Sl, (wf_st _ _ _ _ W _ _ Hi).
  - exists t. split_and!; [done..|]. by rewrite (proj2 (wf_own _ _ _ _ W t Ht)).
Qed.

(** *** How the invariant follows the items *)

(** Taking a state item off its list. *)
Lemma wf_remove_st y A A' d t l o :
  wf None y A d → holds A l (St t) → moved A A' (St t) None o → wf (Some t) y A' d.
Proof.
  intros W Hl M. pose proof (mv_holds _ _ _ _ _ M) as HH. destruct W as [Wok Wex Wit Wta Wow Wpr Wst Wtr Ws We Wr Ww Wto Wc Wi].
  constructor; rewrite ?(mv_items _ _ _ _ _ M), ?(mv_own _ _ _ _ _ M); try done.
  - apply M.
  - intros. by apply (mv_lists _ _ _ _ _ M), Wex.
  - intros u Hu Hne. destruct (Wst u Hu) as [l' Hl']; [done|]. exists l'. apply HH. right. split; [item_ne|done].
  - intros u l' [= <-]. rewrite HH. naive_solver.
  - intros u l'. rewrite HH. intros [[_ ?]|[_ ?]]; [done|eauto].
  - intros u l'. rewrite HH. intros [[_ ?]|[_ ?]]; [done|eauto].
  - intros p u T (l' & Hp & Hh). apply HH in Hh as [[_ ?]|[_ ?]]; [done|]. apply Wr. by exists l'.
  - intros u l'. rewrite HH. intros [[_ ?]|[_ Hh]] Hx Hy; [done|].
    destruct (Ww u l' Hh) as (l2 & B & Hh2); [done|done|]. exists l2. split; [done|]. apply HH. right.
    split; [item_ne|done].
  - intros Hr. destruct (Wi Hr) as [H1 H2]. split; [done|]. intros Hne.
    destruct (H2 ltac:(done)) as (l' & Hp & Hh). exists l'. split; [done|]. apply HH. right. split; [item_ne|done].
Qed.

(** Putting it on one. *)
Lemma wf_insert_st y y' A A' d t T l o :
  wf (Some t) y A d → tcbs d !! t = Some T → moved A A' (St t) (Some l) o → state_list l →
  (∀ p, pxReadyTasksLists p = Some l → uxPriority T = p ∧ p ≤ uxTopReadyPriority d) →
  (∀ u, u ≠ t → y' ≠ Some u → y ≠ Some u) → (∀ l', holds A l' (Ev t) → y' ≠ Some t → blocked_list l) →
  (xSchedulerRunning d = true → t = idle → pxReadyTasksLists 0 = Some l) → wf None y' A' d.
Proof.
  intros W HT M Sl Hr Hy Hw Hid. pose proof (mv_holds _ _ _ _ _ M) as HH.
  destruct W as [Wok Wex Wit Wta Wow Wpr Wst Wtr Ws We Wr Ww Wto Wc Wi].
  constructor; rewrite ?(mv_items _ _ _ _ _ M), ?(mv_own _ _ _ _ _ M); try done.
  - apply M.
  - intros. by apply (mv_lists _ _ _ _ _ M), Wex.
  - intros u Hu _. destruct (decide (u = t)) as [->|Hne]; [exists l; apply HH; by left|].
    destruct (Wst u Hu) as [l' Hl']; [congruence|]. exists l'. apply HH. right. split; [item_ne|done].
  - intros u l'. rewrite HH. intros [[_ [= <-]]|[_ ?]]; [done|eauto].
  - intros u l'. rewrite HH. intros [[[=] _]|[_ ?]]. eauto.
  - intros p u U (l' & Hp & Hh). apply HH in Hh as [[[= ->] [= <-]]|[_ Hh]].
    + intros E. destruct (Hr p Hp). by simplify_eq.
    + apply Wr. by exists l'.
  - intros u l' Hh _ Hu. apply HH in Hh as [[[=] _]|[_ Hh]].
    destruct (decide (u = t)) as [->|Hne]; [exists l; split; [eauto|]; apply HH; by left|].
    destruct (Ww u l' Hh) as (l2 & B & Hh2); [congruence|by apply Hy|].
    exists l2. split; [done|]. apply HH. right. split; [item_ne|done].
  - intros Hrun. destruct (Wi Hrun) as [H1 H2]. split; [done|]. intros _.
    destruct (decide (t = idle)) as [->|Hne]; [exists l; split; [auto|]; apply HH; by left|].
    destruct (H2 ltac:(congruence)) as (l' & Hp & Hh). exists l'. split; [done|]. apply HH. right.
    split; [item_ne|done].
Qed.

(** Moving an event item. *)
Lemma wf_move_ev x y y' A A' d t c o :
  wf x y A d → moved A A' (Ev t) c o → (∀ l, c = Some l → ¬ state_list l) →
  (∀ u, u ≠ t → y' ≠ Some u → y ≠ Some u) →
  (∀ l, c = Some l → x ≠ Some t → y' ≠ Some t → ∃ l', blocked_list l' ∧ holds A l' (St t)) →
  wf x y' A' d.
Proof.
  intros W M Hc Hy Hw. pose proof (mv_holds _ _ _ _ _ M) as HH.
  assert (HS : ∀ l u, holds A' l (St u) ↔ holds A l (St u)).
  { intros l u. rewrite HH. split; [intros [[[=] _]|[_ ?]]; done|intros ?; right; split; [item_ne|done]]. }
  destruct W as [Wok Wex Wit Wta Wow Wpr Wst Wtr Ws We Wr Ww Wto Wc Wi].
  constructor; rewrite ?(mv_items _ _ _ _ _ M), ?(mv_own _ _ _ _ _ M); try done.
  - apply M.
  - intros. by apply (mv_lists _ _ _ _ _ M), Wex.
  - intros u Hu Hx. destruct (Wst u Hu Hx) as [l Hl]. exists l. by apply HS.
  - intros u l ->. rewrite HS. by apply Wtr.
  - intros u l. rewrite HS. apply Ws.
  - intros u l. rewrite HH. intros [[_ ?]|[_ ?]]; [auto|eauto].
  - intros p u T (l & Hp & Hh%HS). apply Wr. by exists l.
  - intros u l Hh Hx Hu. apply HH in Hh as [[[= ->] ->]|[Hne Hh]].
    + destruct (Hw l) as (l' & B & Hl); [done..|]. exists l'. split; [done|]. by apply HS.
    + destruct (Ww u l Hh Hx) as (l' & B & Hl); [apply Hy; [congruence|done]|].
      exists l'. split; [done|]. by apply HS.
  - intros Hrun. destruct (Wi Hrun) as [H1 H2]. split; [done|]. intros Hx.
    destruct (H2 Hx) as (l & Hp & Hh). exists l. split; [done|]. by apply HS.
Qed.

Lemma wf_tcbs_items x y A d : wf x y A d → (size (tcbs d) ≤ size (a_items A))%nat.
Proof.
  intros W. set (ts := map_to_list (tcbs d)). transitivity (length (St <$> ts.*1)).
  { rewrite !length_fmap. unfold ts. by rewrite length_map_to_list. }
  rewrite <- (size_list_to_set (C := gset positive)).
  - apply subseteq_size. intros i. rewrite elem_of_list_to_set, list_elem_of_fmap.
    intros (t & -> & ([u T] & -> & Hu)%list_elem_of_fmap). apply (wf_st_item _ _ _ _ _ W).
    apply elem_of_map_to_list in Hu. by exists T.
  - apply (NoDup_fmap_2 _), NoDup_fst_map_to_list.
Qed.

Lemma wf_size x y A d : wf x y A d → Z.of_nat (size (tcbs d)) < 4294967296.
Proof. intros W. pose proof (lo_size _ (wf_ok _ _ _ _ W)). pose proof (wf_tcbs_items _ _ _ _ W). lia. Qed.

(** Changes that move nothing. *)
Lemma wf_same_place x y A A' d :
  wf x y A d → lists_ok A' → (∀ l i, holds A' l i ↔ holds A l i) →
  (∀ l, is_Some (a_lists A' !! l) ↔ is_Some (a_lists A !! l)) →
  a_items A' = a_items A → a_own A' = a_own A → wf x y A' d.
Proof.
  intros W O HH HL Hi Ho. unfold ready in *.
  destruct W as [Wok Wex Wit Wta Wow Wpr Wst Wtr Ws We Wr Ww Wto Wc Wi].
  constructor; rewrite ?Hi, ?Ho; unfold ready in *; try done; try (setoid_rewrite HH; done).
  intros l Hl. rewrite HL. by apply Wex.
Qed.

Lemma wf_set_value x y A d i v : wf x y A d → wf x y (a_set_value i v A) d.
Proof. intros W. apply (wf_same_place _ _ A); [done| |done..]. apply set_value_ok, W. Qed.

Lemma wf_next x y A A' d l i o : wf x y A d → holds A l i → moved A A' i (Some l) o → wf x y A' d.
Proof.
  intros W Hl M. apply (wf_same_place _ _ A); [done|apply M| |apply M..].
  intros l' j. rewrite (mv_holds _ _ _ _ _ M). split.
  - intros [[-> [= <-]]|[_ ?]]; done.
  - intros Hj. destruct (decide (j = i)) as [->|]; [left|by right]. split; [done|f_equal].
    apply (lo_unique _ (wf_ok _ _ _ _ W) _ _ i); done.
Qed.

Lemma wf_data x y A d d' :
  wf x y A d → tcbs d' = tcbs d → (∃ c, pxCurrentTCB d' = Some c ∧ is_Some (tcbs d !! c)) →
  xSchedulerRunning d' = xSchedulerRunning d → uxTopReadyPriority d ≤ uxTopReadyPriority d' < 5 → wf x y A d'.
Proof.
  intros [Wok Wex Wit Wta Wow Wpr Wst Wtr Ws We Wr Ww Wto Wc Wi] Ht Hc Hr Hp.
  constructor; rewrite ?Ht, ?Hr; try done; [|lia].
  intros p t T R E. destruct (Wr p t T R E). lia.
Qed.

(** The highest ready priority may also be lowered to one that bounds the ready tasks. *)
Lemma wf_select x y A d p t :
  wf x y A d → is_Some (tcbs d !! t) → 0 ≤ p < 5 → (∀ q u, ready A q u → q ≤ p) →
  wf x y A (set_uxTopReadyPriority p (set_pxCurrentTCB (Some t) d)).
Proof.
  intros [Wok Wex Wit Wta Wow Wpr Wst Wtr Ws We Wr Ww Wto Wc Wi] Ht Hp Hq.
  constructor; simpl; try done; [|by exists t].
  intros q u U R E. destruct (Wr q u U R E). eauto.
Qed.

(** A new TCB content for a task that is not ready, or one of the same priority. *)
Lemma wf_set_tcb x y A d t T T' :
  wf x y A d → tcbs d !! t = Some T → tcb_ok T' →
  (uxPriority T' = uxPriority T ∨ t ≠ idle ∧ ∀ p, ¬ ready A p t) →
  wf x y A (set_tcbs (<[t := T']> (tcbs d)) d).
Proof.
  intros [Wok Wex Wit Wta Wow Wpr Wst Wtr Ws We Wr Ww Wto Wc Wi] HT Hp Hs.
  assert (HD : ∀ u, is_Some (<[t := T']> (tcbs d) !! u) ↔ is_Some (tcbs d !! u)).
  { intros u. rewrite lookup_insert_is_Some. destruct (decide (t = u)) as [<-|]; [|naive_solver].
    split; [by exists T|by left]. }
  constructor; simpl; try done; try (setoid_rewrite HD; done).
  - intros u U. rewrite lookup_insert_Some. intros [[<- <-]|[_ HU]]; eauto.
  - intros p u U R. rewrite lookup_insert_Some. intros [[<- <-]|[_ HU]]; [|eauto].
    destruct Hs as [->|[_ Hs]]; [eauto|]. by destruct (Hs p).
  - intros Hrun. destruct (Wi Hrun) as [(I & HI & Hz) H2]. split; [|done].
    destruct (decide (t = idle)) as [->|].
    + exists T'. rewrite lookup_insert_eq. split; [done|]. destruct Hs as [Hs|[Hs _]]; [|done]. simplify_eq. lia.
    + exists I. by rewrite lookup_insert_ne.
Qed.
End wf.
