(* ===== verification/TasksOk.v ===== *)
(** * The scheduler keeps its invariant

    Timing, counters and priorities; then every function of Tasks.v in turn. *)
From S2P Require Import Prelude RtosList KList Tasks TasksInv.
Local Open Scope Z_scope.
Implicit Types (A : astate) (d : kdata) (k : akernel) (i j l : positive) (t : TaskHandle_t).

(** ** Timing

    [lo] is a lower bound for the wake times on the current delayed list,
    [nx] the value of [xNextTaskUnblockTime] promised for it: between ticks
    they are the next tick and the variable itself. *)
Record timed (lo nx : Z) (A : astate) (d : kdata) : Prop := {
  td_pair : (pxDelayedTaskList d = xDelayedTaskList1 ∧ pxOverflowDelayedTaskList d = xDelayedTaskList2)
          ∨ (pxDelayedTaskList d = xDelayedTaskList2 ∧ pxOverflowDelayedTaskList d = xDelayedTaskList1);
  td_cur : ∀ t, holds A (pxDelayedTaskList d) (St t) → lo ≤ a_val A (St t) ∧ nx ≤ a_val A (St t);
  td_ovf : ∀ t, holds A (pxOverflowDelayedTaskList d) (St t) → a_val A (St t) < xTickCount d;
  td_sort : list_sorted A (pxDelayedTaskList d) ∧ list_sorted A (pxOverflowDelayedTaskList d);
  td_word : ∀ t l, l = xDelayedTaskList1 ∨ l = xDelayedTaskList2 → holds A l (St t) → is_u32 (a_val A (St t));
  td_tick : is_u32 (xTickCount d) }.

Definition timely A d : Prop := timed (xTickCount d + 1) (xNextTaskUnblockTime d) A d.

Definition delayed_list l : Prop := l = xDelayedTaskList1 ∨ l = xDelayedTaskList2.

Lemma td_dl lo nx A d : timed lo nx A d → delayed_list (pxDelayedTaskList d).
Proof. intros T. destruct (td_pair _ _ _ _ T) as [[-> _]|[-> _]]; [by left|by right]. Qed.

Lemma td_ol lo nx A d : timed lo nx A d → delayed_list (pxOverflowDelayedTaskList d).
Proof. intros T. destruct (td_pair _ _ _ _ T) as [[_ ->]|[_ ->]]; [by right|by left]. Qed.

Lemma td_ne lo nx A d : timed lo nx A d → pxDelayedTaskList d ≠ pxOverflowDelayedTaskList d.
Proof. intros T. destruct (td_pair _ _ _ _ T) as [[-> ->]|[-> ->]]; done. Qed.

Lemma delayed_state l : delayed_list l → state_list l ∧ blocked_list l ∧ l ≠ xTasksWaitingTermination.
Proof. intros [->| ->]; repeat split; list_lia. Qed.

(** Moves that do not put anything on a delayed list. *)
Lemma timed_moved lo nx A A' d i c o :
  timed lo nx A d → moved A A' i c o → (∀ l, c = Some l → ¬ delayed_list l) → timed lo nx A' d.
Proof.
  intros T M Hc. pose proof (td_dl _ _ _ _ T) as D1. pose proof (td_ol _ _ _ _ T) as D2.
  assert (HH : ∀ l t, delayed_list l → holds A' l (St t) → holds A l (St t)).
  { intros l t Dl. rewrite (mv_holds _ _ _ _ _ M). intros [[_ E]|[_ ?]]; [|done]. by destruct (Hc _ E). }
  destruct T as [Tp Tc To Ts Tw Tt]. constructor; rewrite ?(mv_val _ _ _ _ _ M); [done| | | | |done].
  - intros t H%HH; auto.
  - intros t H%HH; auto.
  - destruct Ts. split; (apply (mv_sorted _ _ _ _ _ M); [intros E; by destruct (Hc _ E)|done]).
  - intros t l Dl H%HH; [|done]. eauto.
Qed.

(** A task goes on a delayed list. *)
Lemma timed_insert lo nx A A' d t l :
  timed lo nx A d → moved A A' (St t) (Some l) True → delayed_list l → is_u32 (a_val A (St t)) →
  (l = pxDelayedTaskList d → lo ≤ a_val A (St t) ∧ nx ≤ a_val A (St t)) →
  (l = pxOverflowDelayedTaskList d → a_val A (St t) < xTickCount d) → timed lo nx A' d.
Proof.
  intros T M Dl Hv Hc Ho. destruct T as [Tp Tc To Ts Tw Tt].
  constructor; rewrite ?(mv_val _ _ _ _ _ M); [done| | | | |done].
  - intros u. rewrite (mv_holds _ _ _ _ _ M). intros [[[= ->] [= ->]]|[_ ?]]; auto.
  - intros u. rewrite (mv_holds _ _ _ _ _ M). intros [[[= ->] [= ->]]|[_ ?]]; auto.
  - destruct Ts. split; by apply (mv_sorted _ _ _ _ _ M).
  - intros u l' Dl'. rewrite (mv_holds _ _ _ _ _ M). intros [[[= ->] _]|[_ ?]]; eauto.
Qed.

Lemma timed_set_value lo nx A d i v :
  timed lo nx A d → (∀ l, delayed_list l → ¬ holds A l i) → timed lo nx (a_set_value i v A) d.
Proof.
  intros T Hi. pose proof (td_dl _ _ _ _ T) as D1. pose proof (td_ol _ _ _ _ T) as D2.
  assert (HV : ∀ l j, delayed_list l → holds A l j → a_val (a_set_value i v A) j = a_val A j).
  { intros l j Dl Hj. simpl. rewrite decide_False; [done|]. intros ->. by destruct (Hi l Dl). }
  assert (HS : ∀ l, delayed_list l → list_sorted A l → list_sorted (a_set_value i v A) l).
  { intros l Dl Sl a Ha. simpl in Ha. specialize (Sl a Ha).
    assert (HE : ∀ j, j ∈ elems a → a_val (a_set_value i v A) j = a_val A j)
      by (intros j Hj; apply (HV l); [done|by exists a]).
    revert Sl HE. generalize (elems a). intros xs. induction 1 as [|x xs Sx IH F]; intros HE; constructor.
    - apply IH. intros j Hj. apply HE. by right.
    - rewrite Forall_forall in F |- *. intros y Hy. rewrite !HE by set_solver. auto. }
  destruct T as [Tp Tc To Ts Tw Tt].
  constructor; [done| | | | |done].
  - intros t Ht. rewrite (HV (pxDelayedTaskList d)) by done. by apply Tc.
  - intros t Ht. rewrite (HV (pxOverflowDelayedTaskList d)) by done. by apply To.
  - destruct Ts. auto.
  - intros t l Dl Ht. rewrite (HV l) by done. by apply (Tw t l).
Qed.

Lemma timed_data lo nx lo' nx' A d d' :
  timed lo nx A d → pxDelayedTaskList d' = pxDelayedTaskList d →
  pxOverflowDelayedTaskList d' = pxOverflowDelayedTaskList d → xTickCount d' = xTickCount d →
  lo' ≤ lo → nx' ≤ nx → timed lo' nx' A d'.
Proof.
  intros [Tp Tc To Ts Tw Tt] E1 E2 E3 H1 H2. constructor; rewrite ?E1, ?E2, ?E3; try done.
  intros t Ht. specialize (Tc t Ht). lia.
Qed.

(** ** Counters *)
Record counted A d : Prop := {
  ct_tasks : uxCurrentNumberOfTasks d = Z.of_nat (size (tcbs d));
  ct_deleted : ∀ a, a_lists A !! xTasksWaitingTermination = Some a →
    uxDeletedTasksWaitingCleanUp d = Z.of_nat (length (elems a));
  ct_gone : ∀ t l, holds A xTasksWaitingTermination (St t) → ¬ holds A l (Ev t) }.

Lemma counted_moved A A' d i c o :
  counted A d → moved A A' i c o → c ≠ Some xTasksWaitingTermination → ¬ holds A xTasksWaitingTermination i →
  (∀ t, i = Ev t → c = None ∨ ¬ holds A xTasksWaitingTermination (St t)) → counted A' d.
Proof.
  intros [Cn Cd Cg] M Hc Hi He. constructor; [done| |].
  - intros a. rewrite (mv_other _ _ _ _ _ M) by done. apply Cd.
  - intros t l. rewrite !(mv_holds _ _ _ _ _ M). intros [[_ ?]|[_ H1]] [[E Hcl]|[_ H2]]; [done..| |].
    + destruct (He t) as [->|Hn]; done.
    + by apply (Cg t l).
Qed.

Lemma counted_data A d d' :
  counted A d → tcbs d' = tcbs d → uxCurrentNumberOfTasks d' = uxCurrentNumberOfTasks d →
  uxDeletedTasksWaitingCleanUp d' = uxDeletedTasksWaitingCleanUp d → counted A d'.
Proof. intros [Cn Cd Cg] E1 E2 E3. constructor; rewrite ?E1, ?E2, ?E3; done. Qed.

Lemma counted_same_place A A' d :
  counted A d → a_lists A' = a_lists A → counted A' d.
Proof.
  intros [Cn Cd Cg] E. constructor; [done|by rewrite E|]. unfold holds in *. rewrite E. done.
Qed.

(** Ticks and readied tasks are held back only while the scheduler is
    suspended; [n] ticks are still to be made up for when it is resumed. *)
Definition calm (n : Z) A d : Prop :=
  (is_u32 (uxSchedulerSuspended d) ∧ is_u32 (xPendedTicks d)) ∧
  (uxSchedulerSuspended d = 0 → xPendedTicks d = n ∧ ∀ i, ¬ holds A xPendingReadyList i).

Lemma calm_moved {n} A A' d i c o :
  calm n A d → moved A A' i c o → (uxSchedulerSuspended d = 0 → c ≠ Some xPendingReadyList) → calm n A' d.
Proof.
  intros [H1 H2] M Hc. split; [done|]. intros Hs. destruct (H2 Hs) as [? Hp]. split; [done|].
  intros j. rewrite (mv_holds _ _ _ _ _ M). intros [[_ ?]|[_ Hj]]; [|by apply (Hp j)]. by apply Hc.
Qed.

Lemma calm_data {n} A d d' :
  calm n A d → uxSchedulerSuspended d' = uxSchedulerSuspended d → xPendedTicks d' = xPendedTicks d → calm n A d'.
Proof. intros C E1 E2. unfold calm. by rewrite E1, E2. Qed.

Lemma calm_same_place {n} A A' d : calm n A d → a_lists A' = a_lists A → calm n A' d.
Proof. intros C E. unfold calm, holds. by rewrite E. Qed.

(** ** Priorities

    Unless a switch is due, no ready task has a higher priority than the
    running one. *)
Definition top_runs A d : Prop :=
  xYieldPending d = false →
  ∀ c C p t, pxCurrentTCB d = Some c → tcbs d !! c = Some C → ready A p t → p ≤ uxPriority C.

Lemma top_runs_sub A A' d d' :
  top_runs A d → (∀ p t, ready A' p t → ready A p t) →
  (xYieldPending d' = false → xYieldPending d = false) →
  pxCurrentTCB d' = pxCurrentTCB d → tcbs d' = tcbs d → top_runs A' d'.
Proof. intros H HR Hy Hc Ht Y c C p t. rewrite Hc, Ht. intros H1 H2 H3%HR. apply (H (Hy Y) _ _ _ _ H1 H2 H3). Qed.

Lemma top_runs_data A d d' :
  top_runs A d → (xYieldPending d' = false → xYieldPending d = false) →
  pxCurrentTCB d' = pxCurrentTCB d → tcbs d' = tcbs d → top_runs A d'.
Proof. intros H. by apply (top_runs_sub A A d d'). Qed.

(** Moves that ready nothing. *)
Lemma ready_moved A A' i c o p t :
  moved A A' i c o → (∀ l, c = Some l → pxReadyTasksLists p ≠ Some l) → ready A' p t → ready A p t.
Proof.
  intros M Hc (l & Hp & Hh). apply (mv_holds _ _ _ _ _ M) in Hh as [[_ E]|[_ Hh]]; [by destruct (Hc _ E)|by exists l].
Qed.

(** ** The invariant, in one piece *)
Record core (idle : TaskHandle_t) (x y : option positive) (lo nx : Z) A d : Prop := {
  co_wf : wf idle x y A d;
  co_timed : timed lo nx A d;
  co_counted : counted A d }.

(** Between the kernel's functions. *)
Record inv (idle : TaskHandle_t) (k : akernel) : Prop := {
  inv_core : core idle None None (xTickCount (data k) + 1) (xNextTaskUnblockTime (data k)) (lists k) (data k);
  inv_run : xSchedulerRunning (data k) = true;
  inv_calm : calm 0 (lists k) (data k);
  inv_top : top_runs (lists k) (data k) }.

Section specs.
Context (idle : TaskHandle_t).

Lemma core_remove_st y lo nx A A' d t l o :
  core idle None y lo nx A d → holds A l (St t) → l ≠ xTasksWaitingTermination →
  moved A A' (St t) None o → core idle (Some t) y lo nx A' d.
Proof.
  intros [W T C] Hl Hne M. constructor.
  - by eapply wf_remove_st.
  - by eapply timed_moved.
  - apply (counted_moved _ _ _ _ _ _ C M); [done| |done]. intros H. apply Hne.
    by apply (lo_unique _ (wf_ok _ _ _ _ _ W) _ _ (St t)).
Qed.

Lemma core_transit y lo nx A d t l : core idle (Some t) y lo nx A d → ¬ holds A l (St t).
Proof. intros [W _ _]. by apply (wf_transit _ _ _ _ _ W). Qed.

Lemma core_insert_ready y lo nx A A' d t T l o :
  core idle (Some t) y lo nx A d → tcbs d !! t = Some T → pxReadyTasksLists (uxPriority T) = Some l →
  uxPriority T ≤ uxTopReadyPriority d → moved A A' (St t) (Some l) o →
  y = None ∨ y = Some t → (∀ l', ¬ holds A l' (Ev t)) → core idle None None lo nx A' d.
Proof.
  intros K HT Hp Htop M Hy He. pose proof (core_transit _ _ _ _ _ _ xTasksWaitingTermination K) as Hf.
  destruct K as [W Ti C]. pose proof (ready_list_bound _ _ Hp).
  constructor.
  - apply (wf_insert_st _ y _ _ _ _ t T l _ W HT M).
    + list_lia.
    + intros p Hp'. by rewrite (ready_list_inj _ _ _ Hp' Hp).
    + destruct Hy as [->| ->]; congruence.
    + intros l' Hl'. by destruct (He l').
    + intros Hr ->. destruct (wf_idle _ _ _ _ _ W Hr) as [(I & HI & Hz) _]. simplify_eq. by rewrite <- Hz.
  - eapply timed_moved; [done..|]. intros ? [= <-]. unfold delayed_list. list_lia.
  - apply (counted_moved _ _ _ _ _ _ C M); [|done|done]. intros [= ->]. list_lia.
Qed.

Lemma core_insert_suspended y lo nx A A' d t T o :
  core idle (Some t) y lo nx A d → tcbs d !! t = Some T → moved A A' (St t) (Some xSuspendedTaskList) o →
  y = None ∨ y = Some t → (xSchedulerRunning d = true → t ≠ idle) → core idle None None lo nx A' d.
Proof.
  intros K HT M Hy Hi. pose proof (core_transit _ _ _ _ _ _ xTasksWaitingTermination K) as Hf.
  destruct K as [W Ti C]. constructor.
  - apply (wf_insert_st _ y _ _ _ _ t T _ _ W HT M).
    + list_lia.
    + intros p Hp. pose proof (ready_list_bound _ _ Hp). list_lia.
    + destruct Hy as [->| ->]; congruence.
    + intros. list_lia.
    + intros Hr ->. by destruct (Hi Hr).
  - eapply timed_moved; [done..|]. intros ? [= <-]. unfold delayed_list. list_lia.
  - by apply (counted_moved _ _ _ _ _ _ C M).
Qed.

Lemma core_insert_delayed y lo nx A A' d t T l :
  core idle (Some t) y lo nx A d → tcbs d !! t = Some T → moved A A' (St t) (Some l) True →
  y = None ∨ y = Some t → (xSchedulerRunning d = true → t ≠ idle) → delayed_list l → is_u32 (a_val A (St t)) →
  (l = pxDelayedTaskList d → lo ≤ a_val A (St t) ∧ nx ≤ a_val A (St t)) →
  (l = pxOverflowDelayedTaskList d → a_val A (St t) < xTickCount d) → core idle None None lo nx A' d.
Proof.
  intros K HT M Hy Hi Dl Hv Hc Ho. pose proof (core_transit _ _ _ _ _ _ xTasksWaitingTermination K) as Hf.
  destruct K as [W Ti C]. destruct (delayed_state l Dl) as (S1 & S2 & S3). constructor.
  - apply (wf_insert_st _ y _ _ _ _ t T _ _ W HT M); [done| | |done|].
    + intros p Hp. pose proof (ready_list_bound _ _ Hp). unfold delayed_list in Dl. list_lia.
    + destruct Hy as [->| ->]; congruence.
    + intros Hr ->. by destruct (Hi Hr).
  - by eapply timed_insert.
  - apply (counted_moved _ _ _ _ _ _ C M); [congruence|done|done].
Qed.

Lemma core_remove_ev x y lo nx A A' d t o :
  core idle x y lo nx A d → moved A A' (Ev t) None o → core idle x y lo nx A' d.
Proof.
  intros [W T C] M. constructor.
  - eapply (wf_move_ev _ x y y); [done..| |]; done.
  - by eapply timed_moved.
  - apply (counted_moved _ _ _ _ _ _ C M); [done| |by left]. intros H.
    destruct (wf_ev _ _ _ _ _ W _ _ H). list_lia.
Qed.

(** An event item goes on an event list: the task is in transit, or will be
    blocked next ([y']), or is blocked. *)
Lemma core_insert_ev x y' lo nx A A' d t l o :
  core idle x None lo nx A d → moved A A' (Ev t) (Some l) o → ¬ state_list l → l ≠ xTasksWaitingTermination →
  ¬ holds A xTasksWaitingTermination (St t) →
  (x = Some t ∨ y' = Some t ∨ ∃ l', blocked_list l' ∧ holds A l' (St t)) → y' = None ∨ y' = Some t →
  core idle x y' lo nx A' d.
Proof.
  intros [W T C] M Hl Hl' Ht Hb Hy. constructor.
  - eapply (wf_move_ev _ x None y'); [done..| |done|].
    + by intros ? [= <-].
    + intros ? [= <-] Hx Hy'. destruct Hb as [?|[?|(l' & B & Hh)]]; [done..|]. by exists l'.
  - eapply timed_moved; [done..|]. intros ? [= <-]. intros Dl. by apply Hl, delayed_state.
  - apply (counted_moved _ _ _ _ _ _ C M); [congruence| |].
    + intros H. apply (wf_ev _ _ _ _ _ W _ _ H). list_lia.
    + intros u [= <-]. by right.
Qed.

(** Assignments to the other variables. *)
Lemma core_data x y lo nx A d d' :
  core idle x y lo nx A d →
  (tcbs d', pxCurrentTCB d', xSchedulerRunning d', uxTopReadyPriority d', pxDelayedTaskList d',
    pxOverflowDelayedTaskList d', xTickCount d', uxCurrentNumberOfTasks d', uxDeletedTasksWaitingCleanUp d') =
  (tcbs d, pxCurrentTCB d, xSchedulerRunning d, uxTopReadyPriority d, pxDelayedTaskList d,
    pxOverflowDelayedTaskList d, xTickCount d, uxCurrentNumberOfTasks d, uxDeletedTasksWaitingCleanUp d) →
  core idle x y lo nx A d'.
Proof.
  intros [W T C] [= E1 E2 E3 E4 E5 E6 E7 E8 E9]. constructor.
  - apply (wf_data _ _ _ _ d); [done|done|rewrite E2; apply W|done|rewrite E4]. pose proof (wf_top _ _ _ _ _ W). lia.
  - by apply (timed_data lo nx _ _ _ d).
  - by apply (counted_data _ d).
Qed.

(** ** Ready lists *)
Lemma wp_taskRECORD_READY_PRIORITY p Q k :
  Q () (MkKernel (lists k) (set_uxTopReadyPriority (Z.max (uxTopReadyPriority (data k)) p) (data k))) →
  wp (taskRECORD_READY_PRIORITY p) Q k.
Proof.
  intros HQ. unfold taskRECORD_READY_PRIORITY. do 2 wp_step. wp_step; intros Hp.
  - wp_step. apply Z.ltb_lt in Hp. by rewrite Z.max_r in HQ by lia.
  - apply Z.ltb_ge in Hp. rewrite Z.max_l in HQ by lia. destruct k as [A []]. exact HQ.
Qed.

Lemma core_top x y lo nx A d p :
  core idle x y lo nx A d → 0 ≤ p < 5 →
  core idle x y lo nx A (set_uxTopReadyPriority (Z.max (uxTopReadyPriority d) p) d).
Proof.
  intros [W T C] Hp. constructor.
  - apply (wf_data _ _ _ _ d); [done..|apply W|done|]. simpl. pose proof (wf_top _ _ _ _ _ W). lia.
  - by apply (timed_data lo nx _ _ _ d).
  - by apply (counted_data _ d).
Qed.

Lemma wp_prvAddTaskToReadyList y lo nx t T Q k :
  core idle (Some t) y lo nx (lists k) (data k) → tcbs (data k) !! t = Some T →
  y = None ∨ y = Some t → (∀ l, ¬ holds (lists k) l (Ev t)) →
  (∀ A' l d', d' = set_uxTopReadyPriority (Z.max (uxTopReadyPriority (data k)) (uxPriority T)) (data k) →
     pxReadyTasksLists (uxPriority T) = Some l → moved (lists k) A' (St t) (Some l) False →
     core idle None None lo nx A' d' → Q () (MkKernel A' d')) →
  wp (prvAddTaskToReadyList t) Q k.
Proof.
  intros K HT Hy He HQ. pose proof (co_wf _ _ _ _ _ _ _ K) as W.
  pose proof (wf_prio _ _ _ _ _ _ _ W HT) as Hp.
  unfold prvAddTaskToReadyList. wp_step. apply (wp_priority_of _ t T); [done|].
  wp_step. apply wp_taskRECORD_READY_PRIORITY. wp_step.
  assert (HL : pxReadyTasksLists (uxPriority T) = Some (Z.to_pos (uxPriority T + 1))) by by apply ready_list_Some.
  apply (wp_deref _ _ _ _ HL). pose proof (ready_list_bound _ _ HL).
  apply wp_listINSERT_END; simpl; [apply W| | | |].
  - apply W. lia.
  - apply (wf_st_item _ _ _ _ _ _ W). by exists T.
  - intros l. by apply (wf_transit _ _ _ _ _ W).
  - intros A' M. eapply HQ; [done..|].
    eapply (core_insert_ready y _ _ (lists k) _ _ t T _ False); simpl; try done; [by apply core_top|lia].
Qed.

(** Selecting a task: the loop stops at the highest ready priority. *)
Lemma wp_select_loop n p Q k :
  lists_ok (lists k) → (∀ l, (l ≤ 10)%positive → is_Some (a_lists (lists k) !! l)) →
  0 ≤ p < 5 → (Z.to_nat p < n)%nat → (∃ q l i, q ≤ p ∧ pxReadyTasksLists q = Some l ∧ holds (lists k) l i) →
  (∀ q l i, q ≤ p → pxReadyTasksLists q = Some l → holds (lists k) l i →
     (∀ q' l' i', q < q' ≤ p → pxReadyTasksLists q' = Some l' → ¬ holds (lists k) l' i') → Q q k) →
  wp (select_loop n p) Q k.
Proof.
  intros O Ex. revert p. induction n as [|n IH]; intros p Hp Hn (q & l & i & Hq & Hl & Hh) HQ; [lia|].
  simpl. wp_step. destruct (Ex (Z.to_pos (p + 1))) as [a Ha]; [lia|].
  assert (HL : pxReadyTasksLists p = Some (Z.to_pos (p + 1))) by by apply ready_list_Some.
  apply (wp_deref _ _ _ _ HL). wp_step. apply (wp_is_empty _ O _ a); [done|].
  destruct (decide (elems a = [])) as [E|E].
  - rewrite bool_decide_eq_true_2 by done.
    assert (Hne : ∀ i', ¬ holds (lists k) (Z.to_pos (p + 1)) i').
    { intros i' (b & Hb & Hi'). simplify_eq. rewrite E in Hi'. by apply elem_of_nil in Hi'. }
    assert (q ≠ p). { intros ->. apply (Hne i). congruence. }
    destruct (ready_list_Some q l) as [[? _] _]; [done|].
    rewrite u32_id by (unfold is_u32; lia). apply IH; [lia|lia| |].
    + exists q, l, i. split; [lia|done].
    + intros q1 l1 i1 H1 H2 H3 H4. apply (HQ q1 l1 i1); [lia|done..|].
      intros q2 l2 i2 H5 H6. destruct (decide (q2 = p)) as [->|]; [|apply (H4 q2); [lia|done]].
      replace l2 with (Z.to_pos (p + 1)) by congruence. apply Hne.
  - rewrite bool_decide_eq_false_2 by done. wp_step.
    destruct (elems a) as [|j xs] eqn:Ex'; [done|].
    apply (HQ p (Z.to_pos (p + 1)) j); [lia|done| |lia]. exists a. split; [done|]. rewrite Ex'. by left.
Qed.

(** ** The context switch *)
Inductive switched (k : akernel) : akernel → Prop :=
  | switched_pending :
      uxSchedulerSuspended (data k) ≠ 0 →
      switched k (MkKernel (lists k) (set_xYieldPending true (data k)))
  | switched_to p l t a A' :
      uxSchedulerSuspended (data k) = 0 →
      pxReadyTasksLists p = Some l → a_lists (lists k) !! l = Some a → a_next a = Some (St t) →
      is_Some (tcbs (data k) !! t) → ready (lists k) p t → (∀ q u, ready (lists k) q u → q ≤ p) →
      moved (lists k) A' (St t) (Some l) True →
      A' = set_alist l (set_cursor (Some (St t)) a) (lists k) →
      switched k (MkKernel A' (set_uxTopReadyPriority p (set_pxCurrentTCB (Some t)
        (set_xYieldPending false (data k))))).

Lemma ready_task x y A d p l i :
  wf idle x y A d → pxReadyTasksLists p = Some l → holds A l i →
  ∃ t T, i = St t ∧ tcbs d !! t = Some T ∧ uxPriority T = p ∧ p ≤ uxTopReadyPriority d ∧ Z.to_pos (a_own A i) = t.
Proof.
  intros W Hp Hh. pose proof (ready_list_bound _ _ Hp).
  destruct (wf_on_state_list _ _ _ _ _ l i W ltac:(list_lia) Hh) as (t & -> & [T HT] & Ho).
  destruct (wf_ready _ _ _ _ _ W p t T) as [H1 H2]; [by exists l|done|].
  exists t, T. done.
Qed.

Lemma wp_vTaskSwitchContext x y Q k :
  wf idle x y (lists k) (data k) → x ≠ Some idle → xSchedulerRunning (data k) = true →
  (∀ k', switched k k' → Q () k') → wp vTaskSwitchContext Q k.
Proof.
  intros W Hx Hr HQ. unfold vTaskSwitchContext. do 2 wp_step.
  destruct (Z.eqb_spec (uxSchedulerSuspended (data k)) 0) as [Hs|Hs]; simpl.
  2:{ wp_step. by apply HQ, switched_pending. }
  do 2 wp_step. unfold taskSELECT_HIGHEST_PRIORITY_TASK. do 3 wp_step.
  pose proof (wf_ok _ _ _ _ _ W) as O. pose proof (wf_top _ _ _ _ _ W).
  destruct (wf_idle _ _ _ _ _ W Hr) as [_ (l0 & Hl0 & H0)]; [done|].
  apply wp_select_loop; simpl; [done|apply W|done|lia| |].
  { exists 0, l0, (St idle). split_and!; [lia|done..]. }
  intros p l i Hp Hl Hh Htop. pose proof Hh as (a & Ha & Hi).
  wp_step. apply (wp_deref _ _ _ _ Hl). wp_step. eapply wp_next_owner; [done|exact Ha|by intros E; rewrite E in Hi; apply elem_of_nil in Hi|].
  intros A' j Hj Hjl EA M. simpl in *. wp_step. wp_step. wp_step. simpl.
  destruct (ready_task _ _ _ _ _ _ _ W Hl Hjl) as (t & T & -> & HT & Hpt & _ & ->).
  apply HQ. eapply switched_to; [done..| |by exists l| |done|done]; [by exists T|].
  intros q u (lu & Hlu & Hu). destruct (Z.le_gt_cases q p) as [?|Hq]; [done|].
  destruct (ready_task _ _ _ _ _ _ _ W Hlu Hu) as (_ & _ & _ & _ & _ & ? & _).
  destruct (Htop q lu (St u)); [lia|done..].
Qed.

Lemma switched_core x y lo nx k k' :
  core idle x y lo nx (lists k) (data k) → switched k k' → core idle x y lo nx (lists k') (data k').
Proof.
  intros [W T C] S. destruct S as [Hs|p l t a A' Hs Hp Ha Hn Ht Hr Htop M]; simpl.
  - constructor; [|by apply (timed_data lo nx _ _ _ (data k))|by apply (counted_data _ (data k))].
    apply (wf_data _ _ _ _ (data k)); [done..|apply (wf_current _ _ _ _ _ W)|done|].
    pose proof (wf_top _ _ _ _ _ W). simpl. lia.
  - pose proof Hr as (l' & Hp' & Hh). assert (l' = l) as -> by congruence.
    pose proof (proj1 (ready_list_Some _ _) Hp) as [? _]. pose proof (ready_list_bound _ _ Hp).
    assert (Hnd : ¬ delayed_list l) by (unfold delayed_list; list_lia).
    constructor.
    + eapply wf_next; [|exact Hh|exact M]. apply (wf_select _ _ _ _ (set_xYieldPending false (data k))); [|done..].
      apply (wf_data _ _ _ _ (data k)); [done..|apply (wf_current _ _ _ _ _ W)|done|].
      pose proof (wf_top _ _ _ _ _ W). simpl. lia.
    + apply (timed_data lo nx _ _ _ (data k)); try done. apply (timed_moved _ _ (lists k) A' _ _ _ _ T M).
      by intros ? [= <-].
    + apply (counted_data _ (data k)); try done. apply (counted_moved _ _ _ _ _ _ C M); [|intros H10|done].
      * intros [= ->]. list_lia.
      * pose proof (lo_unique _ (wf_ok _ _ _ _ _ W) _ _ _ Hh H10). list_lia.
Qed.

Lemma switched_calm n k k' : calm n (lists k) (data k) → switched k k' → calm n (lists k') (data k').
Proof.
  intros C S. destruct S as [Hs|p l t a A' Hs Hp Ha Hn Ht Hr Htop M]; simpl.
  - by apply (calm_data _ (data k)).
  - apply (calm_data _ (data k)); [|done..]. apply (calm_moved _ _ _ _ _ _ C M).
    intros _ [= ->]. pose proof (ready_list_bound _ _ Hp). list_lia.
Qed.

Lemma switched_susp k k' : switched k k' → uxSchedulerSuspended (data k') = uxSchedulerSuspended (data k).
Proof. by intros []. Qed.

Lemma switched_top x y k k' :
  wf idle x y (lists k) (data k) → switched k k' → top_runs (lists k') (data k').
Proof.
  intros W S. destruct S as [Hs|p l t a A' Hs Hp Ha Hn Ht Hr Htop M]; simpl; [done|].
  intros _ c C q u [= <-] HC Hu. simpl in *.
  destruct (wf_ready _ _ _ _ _ W p t C Hr HC) as [-> _]. apply Htop with u.
  destruct Hu as (lu & Hlu & Hu). exists lu. split; [done|].
  apply (mv_holds _ _ _ _ _ M) in Hu as [[[= ->] [= ->]]|[_ ?]]; [|done].
  destruct Hr as (l' & Hp' & Hh). congruence.
Qed.

(** A switch from any state that satisfies the rest of the invariant. *)
Lemma wp_yield Q k :
  core idle None None (xTickCount (data k) + 1) (xNextTaskUnblockTime (data k)) (lists k) (data k) →
  calm 0 (lists k) (data k) → xSchedulerRunning (data k) = true →
  (∀ k', switched k k' → inv idle k' → Q () k') → wp portYIELD Q k.
Proof.
  intros C Ca Hr HQ. apply (wp_vTaskSwitchContext None None); [apply C|done..|].
  intros k' S. apply HQ; [done|]. pose proof (switched_core _ _ _ _ _ _ C S) as C'.
  constructor; [by destruct S|by destruct S|by apply (switched_calm 0 k)|eapply switched_top; [apply C|done]].
Qed.

(** ** Delayed lists *)
Lemma head_least A l a i xs :
  list_sorted A l → a_lists A !! l = Some a → elems a = i :: xs → ∀ j, holds A l j → a_val A i ≤ a_val A j.
Proof.
  intros Sl Ha E j (b & Hb & Hj). simplify_eq. specialize (Sl _ Ha). rewrite E in Sl, Hj.
  apply StronglySorted_inv in Sl as [_ F]. rewrite Forall_forall in F.
  apply elem_of_cons in Hj as [->|Hj]; [lia|auto].
Qed.

Lemma core_bounds x y lo nx lo' v A d :
  core idle x y lo nx A d →
  (∀ t, holds A (pxDelayedTaskList d) (St t) → lo' ≤ a_val A (St t) ∧ v ≤ a_val A (St t)) →
  core idle x y lo' v A (set_xNextTaskUnblockTime v d).
Proof.
  intros [W T C] Hv. constructor.
  - apply (wf_data _ _ _ _ d); [done..|apply (wf_current _ _ _ _ _ W)|done|].
    pose proof (wf_top _ _ _ _ _ W). simpl. lia.
  - by destruct T as [Tp Tc To Ts Tw Tt].
  - by apply (counted_data _ d).
Qed.

Lemma core_next x y lo nx v A d :
  core idle x y lo nx A d → (∀ t, holds A (pxDelayedTaskList d) (St t) → v ≤ a_val A (St t)) →
  core idle x y lo v A (set_xNextTaskUnblockTime v d).
Proof.
  intros C Hv. apply (core_bounds _ _ lo nx); [done|]. intros t Ht. split; [|auto].
  by apply (td_cur _ _ _ _ (co_timed _ _ _ _ _ _ _ C)).
Qed.

Lemma wp_reset_timed x y lo nx Q k :
  wf idle x y (lists k) (data k) → timed lo nx (lists k) (data k) →
  (∀ v, timed lo v (lists k) (set_xNextTaskUnblockTime v (data k)) →
    Q () (MkKernel (lists k) (set_xNextTaskUnblockTime v (data k)))) →
  wp prvResetNextTaskUnblockTime Q k.
Proof.
  intros W T HQ. unfold prvResetNextTaskUnblockTime. do 3 wp_step.
  destruct (wf_exist _ _ _ _ _ W (pxDelayedTaskList (data k))) as [a Ha];
    [by destruct (td_dl _ _ _ _ T) as [->| ->]|].
  assert (HT : ∀ v, (∀ t, holds (lists k) (pxDelayedTaskList (data k)) (St t) → v ≤ a_val (lists k) (St t)) →
    timed lo v (lists k) (set_xNextTaskUnblockTime v (data k))).
  { intros v Hv. destruct T as [Tp Tc To Ts Tw Tt]. constructor; simpl; try done.
    intros t Ht. split; [by apply Tc|auto]. }
  apply (wp_is_empty _ (wf_ok _ _ _ _ _ W) _ a); [done|]. case_bool_decide as E.
  - wp_step. apply HQ, HT. intros t (b & Hb & Ht). simplify_eq. rewrite E in Ht.
    by apply elem_of_nil in Ht.
  - destruct (elems a) as [|i xs] eqn:Ei; [done|]. wp_step. apply (wp_head_value _ _ a i xs); [done..|].
    wp_step. apply HQ, HT. intros t. apply (head_least _ _ a i xs); [apply T|done..].
Qed.

Lemma wp_prvResetNextTaskUnblockTime x y lo nx Q k :
  core idle x y lo nx (lists k) (data k) →
  (∀ v, core idle x y lo v (lists k) (set_xNextTaskUnblockTime v (data k)) →
    Q () (MkKernel (lists k) (set_xNextTaskUnblockTime v (data k)))) →
  wp prvResetNextTaskUnblockTime Q k.
Proof.
  intros [W T C] HQ. apply (wp_reset_timed x y lo nx); [done..|]. intros v Tv. apply HQ.
  constructor; [|done|by apply (counted_data _ (data k))].
  apply (wf_data _ _ _ _ (data k)); [done..|apply (wf_current _ _ _ _ _ W)|done|].
  pose proof (wf_top _ _ _ _ _ W). simpl. lia.
Qed.

Lemma moved_refl A i o : lists_ok A → (∀ l, ¬ holds A l i) → moved A A i None o.
Proof.
  intros O Hi. constructor; try done. intros l j. split; [|naive_solver].
  intros Hj. right. split; [|done]. intros ->. by apply (Hi l).
Qed.

Lemma wp_remove_if_linked x y t Q k :
  wf idle x y (lists k) (data k) → is_Some (tcbs (data k) !! t) →
  (∀ A', moved (lists k) A' (Ev t) None False → Q () (MkKernel A' (data k))) →
  wp (remove_if_linked (Ev t)) Q k.
Proof.
  intros W Ht HQ. pose proof (wf_ok _ _ _ _ _ W) as O. unfold remove_if_linked. wp_step.
  apply wp_container; [by apply (wf_ev_item _ _ _ _ _ _ W)|].
  destruct (a_container (lists k) (Ev t)) as [l|] eqn:E.
  - apply (wp_listREMOVE_ITEM _ O l); [by apply a_container_Some|done].
  - wp_step. destruct k as [A d]. apply HQ. apply moved_refl; [done|]. by apply a_container_None.
Qed.

(** What [prvAddCurrentTaskToDelayedList] does. *)
Record blocked_for (n : Z) (indef : bool) (c : TaskHandle_t) (k k' : akernel) : Prop := {
  bf_data : ∃ v, data k' = set_xNextTaskUnblockTime v (data k);
  bf_other : ∀ l i, i ≠ St c → holds (lists k') l i ↔ holds (lists k) l i;
  bf_val : ∀ i, i ≠ St c → a_val (lists k') i = a_val (lists k) i;
  bf_where : if (n =? portMAX_DELAY) && indef then holds (lists k') xSuspendedTaskList (St c)
    else let w := u32 (xTickCount (data k) + n) in
      a_val (lists k') (St c) = w ∧
      holds (lists k') (if w <? xTickCount (data k) then pxOverflowDelayedTaskList (data k)
                        else pxDelayedTaskList (data k)) (St c) }.

Lemma core_set_value x y lo nx A d i v :
  core idle x y lo nx A d → (∀ l, delayed_list l → ¬ holds A l i) → core idle x y lo nx (a_set_value i v A) d.
Proof.
  intros [W T C] Hi. constructor; [by apply wf_set_value|by apply timed_set_value|].
  by apply (counted_same_place A).
Qed.

Lemma wake_later tick n : is_u32 tick → 0 < n < 4294967296 → ¬ u32 (tick + n) < tick → tick + 1 ≤ u32 (tick + n).
Proof. word_lia. Qed.

Lemma wp_prvAddCurrentTaskToDelayedList y n indef c l0 Q k :
  core idle None y (xTickCount (data k) + 1) (xNextTaskUnblockTime (data k)) (lists k) (data k) →
  xSchedulerRunning (data k) = true → pxCurrentTCB (data k) = Some c → c ≠ idle →
  holds (lists k) l0 (St c) → l0 ≠ xTasksWaitingTermination → y = None ∨ y = Some c → 0 < n < 4294967296 →
  (∀ k', core idle None None (xTickCount (data k) + 1) (xNextTaskUnblockTime (data k')) (lists k') (data k') →
    blocked_for n indef c k k' → Q () k') →
  wp (prvAddCurrentTaskToDelayedList n indef) Q k.
Proof.
  intros C Hr Hc Hci Hl0 Hl0' Hy Hn HQ. pose proof (co_wf _ _ _ _ _ _ _ C) as W.
  unfold prvAddCurrentTaskToDelayedList. do 3 wp_step. apply (wp_current _ c); [done|]. wp_step.
  apply (wp_listREMOVE_ITEM _ (wf_ok _ _ _ _ _ W) l0); [done|]. intros A1 M1.
  pose proof (core_remove_st _ _ _ _ _ _ _ _ _ C Hl0 Hl0' M1) as C1.
  pose proof (co_wf _ _ _ _ _ _ _ C1) as W1. pose proof (co_timed _ _ _ _ _ _ _ C) as T.
  destruct (wf_current _ _ _ _ _ W) as (c' & Hc' & [Tc HTc]). simplify_eq.
  assert (Hfree : ∀ l, ¬ holds A1 l (St c)) by (intros l; by apply (wf_transit _ _ _ _ _ W1)).
  assert (Hit : St c ∈ a_items A1) by (apply (wf_st_item _ _ _ _ _ _ W1); by exists Tc).
  assert (Hoth : ∀ A' o c' l i, moved A1 A' (St c) c' o → i ≠ St c → holds A' l i ↔ holds (lists k) l i).
  { intros A' o c' l i M' Hi. by rewrite (moved_holds_ne _ _ _ _ _ _ _ M'), (moved_holds_ne _ _ _ _ _ _ _ M1). }
  destruct ((n =? portMAX_DELAY) && indef) eqn:Hind.
  - apply wp_listINSERT_END; simpl; [apply W1|apply W1; list_lia|done|done|]. intros A' M2. apply HQ.
    + apply (core_insert_suspended y _ _ A1 _ _ c Tc False); done.
    + constructor; simpl.
      * exists (xNextTaskUnblockTime (data k)). by destruct (data k).
      * eauto.
      * intros i _. by rewrite (mv_val _ _ _ _ _ M2), (mv_val _ _ _ _ _ M1).
      * rewrite Hind. by apply (moved_holds_eq _ _ _ _ _ _ M2).
  - cbv zeta. set (w := u32 (xTickCount (data k) + n)). wp_step.
    apply wp_listSET_LIST_ITEM_VALUE; [done|apply u32_range|]. simpl.
    set (A2 := a_set_value (St c) w A1).
    assert (C2 : core idle (Some c) y (xTickCount (data k) + 1) (xNextTaskUnblockTime (data k)) A2 (data k)).
    { apply core_set_value; [done|]. eauto. }
    pose proof (co_wf _ _ _ _ _ _ _ C2) as W2. pose proof (co_timed _ _ _ _ _ _ _ C2) as T2.
    assert (Hv2 : a_val A2 (St c) = w) by (simpl; by rewrite decide_True).
    assert (Hvo : ∀ A' o c', moved A2 A' (St c) c' o → ∀ i, i ≠ St c → a_val A' i = a_val (lists k) i).
    { intros A' o c' M' i Hi. rewrite (mv_val _ _ _ _ _ M'). simpl. rewrite decide_False by done.
      by rewrite (mv_val _ _ _ _ _ M1). }
    assert (Hho : ∀ A' o c', moved A2 A' (St c) c' o → ∀ l i, i ≠ St c → holds A' l i ↔ holds (lists k) l i).
    { intros A' o c' M' l i Hi. rewrite (moved_holds_ne _ _ _ _ _ _ _ M') by done.
      apply (moved_holds_ne _ _ _ _ _ _ _ M1 Hi). }
    destruct (Z.ltb_spec w (xTickCount (data k))) as [Hw|Hw].
    + wp_step. wp_step. apply wp_listINSERT; simpl; [apply W2| |done|done|].
      { apply W2. destruct (td_ol _ _ _ _ T) as [->| ->]; list_lia. }
      intros A' M2. apply HQ.
      * eapply (core_insert_delayed y _ _ A2 _ _ c Tc); simpl; try done; [apply (td_ol _ _ _ _ T)|..]; rewrite ?Hv2.
        -- rewrite decide_True by done. apply u32_range.
        -- intros E. by destruct (td_ne _ _ _ _ T).
        -- rewrite decide_True by done. done.
      * constructor; simpl; [|eauto..|].
        -- exists (xNextTaskUnblockTime (data k)). by destruct (data k).
        -- rewrite Hind. fold w. split; [by rewrite (mv_val _ _ _ _ _ M2)|].
           rewrite (proj2 (Z.ltb_lt _ _) Hw). by apply (moved_holds_eq _ _ _ _ _ _ M2).
    + wp_step. wp_step. wp_step. apply wp_listINSERT; simpl; [apply W2| |done|done|].
      { apply W2. destruct (td_dl _ _ _ _ T) as [->| ->]; list_lia. }
      intros A' M2.
      assert (HF : ∀ v, v = Z.min w (xNextTaskUnblockTime (data k)) →
        Q () (MkKernel A' (set_xNextTaskUnblockTime v (data k)))).
      { intros v ->. apply HQ.
        - apply (core_next _ _ _ (Z.min w (xNextTaskUnblockTime (data k)))); simpl; [|].
          + eapply (core_insert_delayed y _ _ A2 _ _ c Tc); simpl; try done; [|apply (td_dl _ _ _ _ T)|..]; rewrite ?Hv2.
            * destruct C2 as [? ? ?]. constructor; [done| |done].
              apply (timed_data _ _ _ _ _ _ _ T2); try done; lia.
            * rewrite decide_True by done. apply u32_range.
            * intros _. rewrite decide_True by done. split; [|lia]. apply wake_later; [apply T|done|fold w; lia].
            * intros E. by destruct (td_ne _ _ _ _ T).
          + intros u Hu. rewrite (mv_val _ _ _ _ _ M2).
            apply (mv_holds _ _ _ _ _ M2) in Hu as [[[= ->] _]|[Hne Hu]]; [rewrite Hv2; lia|].
            pose proof (td_cur _ _ _ _ T2 u Hu). lia.
        - constructor; simpl; [|eauto..|].
          + by eexists.
          + rewrite Hind. fold w. split; [by rewrite (mv_val _ _ _ _ _ M2)|].
            rewrite (proj2 (Z.ltb_ge _ _) Hw). by apply (moved_holds_eq _ _ _ _ _ _ M2). }
      do 2 wp_step. simpl. wp_step; intros Hlt.
      * wp_step. apply Z.ltb_lt in Hlt. apply HF. lia.
      * apply Z.ltb_ge in Hlt. specialize (HF _ eq_refl). rewrite Z.min_r in HF by lia. by destruct (data k).
Qed.

(** ** The tick *)
Definition due (c : Z) (k : akernel) t : Prop :=
  holds (lists k) (pxDelayedTaskList (data k)) (St t) ∧ a_val (lists k) (St t) ≤ c.

(** A task is ready and waits for no event. *)
Definition awake (k : akernel) t : Prop :=
  (∃ T, tcbs (data k) !! t = Some T ∧ ready (lists k) (uxPriority T) t) ∧ ∀ l, ¬ holds (lists k) l (Ev t).

Definition same_place (k k' : akernel) t : Prop :=
  ∀ l, (holds (lists k') l (St t) ↔ holds (lists k) l (St t)) ∧ (holds (lists k') l (Ev t) ↔ holds (lists k) l (Ev t)).

(** From [k] to [k'] the tasks whose time has come by [c] became ready, the
    others stayed where they were. *)
Record woken (c : Z) (k k' : akernel) : Prop := {
  wk_data : ∃ top nx, data k' = set_uxTopReadyPriority top (set_xNextTaskUnblockTime nx (data k));
  wk_val : a_val (lists k') = a_val (lists k);
  wk_due : ∀ t, due c k t → awake k' t;
  wk_rest : ∀ t, ¬ due c k t → same_place k k' t }.

Lemma woken_none c k v : (∀ t, ¬ due c k t) → woken c k (MkKernel (lists k) (set_xNextTaskUnblockTime v (data k))).
Proof.
  intros Hd. constructor; simpl; [|done| |done].
  - exists (uxTopReadyPriority (data k)), v. by destruct (data k).
  - intros t H. by destruct (Hd t).
Qed.

Lemma awake_same_place k k' t : same_place k k' t → tcbs (data k') = tcbs (data k) → awake k t → awake k' t.
Proof.
  intros P E [(T & HT & l & Hl & Hh) He]. split.
  - exists T. rewrite E. split; [done|]. exists l. split; [done|]. by apply P.
  - intros l'. rewrite (proj2 (P l')). apply He.
Qed.

Lemma woken_step c k k1 k' t :
  due c k t → awake k1 t → (∀ u, u ≠ t → same_place k k1 u) → ¬ due c k1 t →
  (∃ top, data k1 = set_uxTopReadyPriority top (data k)) → a_val (lists k1) = a_val (lists k) →
  woken c k1 k' → woken c k k'.
Proof.
  intros Dt At Hu Nt [top E1] Ev1 W.
  assert (HD : ∀ u, u ≠ t → due c k1 u ↔ due c k u).
  { intros u Hne. unfold due. rewrite E1, Ev1. simpl. by rewrite (proj1 (Hu u Hne _)). }
  destruct W as [(top' & nx & E2) Ev2 Wd Wr]. constructor.
  - exists top', nx. rewrite E2, E1. by destruct (data k).
  - by rewrite Ev2.
  - intros u Du. destruct (decide (u = t)) as [->|Hne]; [|by apply Wd, HD].
    apply (awake_same_place k1); [by apply Wr| |done]. rewrite E2. done.
  - intros u Du. assert (Hne : u ≠ t) by (intros ->; done).
    specialize (Wr u ltac:(by rewrite HD)). intros l. specialize (Hu u Hne l). specialize (Wr l). naive_solver.
Qed.

(** Readying a task that is on a delayed list. *)
Lemma ready_task_step k A1 A2 A3 t T rl o1 o2 o3 d' :
  tcbs (data k) !! t = Some T → tcbs d' = tcbs (data k) → pxReadyTasksLists (uxPriority T) = Some rl →
  moved (lists k) A1 (St t) None o1 → moved A1 A2 (Ev t) None o2 → moved A2 A3 (St t) (Some rl) o3 →
  awake (MkKernel A3 d') t ∧ (∀ u, u ≠ t → same_place k (MkKernel A3 d') u).
Proof.
  intros HT Ed Hrl M1 M2 M3. split; [split|]; simpl.
  - exists T. rewrite Ed. split; [done|]. exists rl. split; [done|]. by apply (moved_holds_eq _ _ _ _ _ _ M3).
  - intros l'. rewrite (moved_holds_ne _ _ _ _ _ _ _ M3) by item_ne. by rewrite (moved_holds_eq _ _ _ _ _ _ M2).
  - intros u Hu l'. simpl. split.
    + rewrite (moved_holds_ne _ _ _ _ _ _ _ M3) by item_ne. rewrite (moved_holds_ne _ _ _ _ _ _ _ M2) by item_ne.
      by rewrite (moved_holds_ne _ _ _ _ _ _ _ M1) by item_ne.
    + rewrite (moved_holds_ne _ _ _ _ _ _ _ M3) by item_ne. rewrite (moved_holds_ne _ _ _ _ _ _ _ M2) by item_ne.
      by rewrite (moved_holds_ne _ _ _ _ _ _ _ M1) by item_ne.
Qed.

(** What keeps [top_runs] when [t] is made ready: a switch is noted unless
    its priority is not above the running task's. *)
Lemma top_runs_ready A A' d d' t T :
  top_runs A d → tcbs d !! t = Some T →
  (∀ p u, ready A' p u → ready A p u ∨ (u = t ∧ p = uxPriority T)) →
  (xYieldPending d' = false → xYieldPending d = false) → pxCurrentTCB d' = pxCurrentTCB d → tcbs d' = tcbs d →
  (xYieldPending d' = false → ∀ c C, pxCurrentTCB d = Some c → tcbs d !! c = Some C → uxPriority T ≤ uxPriority C) →
  top_runs A' d'.
Proof.
  intros H HT HR Hy Hc Ht Hp Y c C p u. rewrite Hc, Ht. intros E1 E2 [Hu|[-> ->]]%HR.
  - apply (H (Hy Y) _ _ _ _ E1 E2 Hu).
  - by apply (Hp Y c).
Qed.

Lemma ready_after_insert A A' t T rl o p u :
  moved A A' (St t) (Some rl) o → pxReadyTasksLists (uxPriority T) = Some rl → ready A' p u →
  ready A p u ∨ (u = t ∧ p = uxPriority T).
Proof.
  intros M Hrl (l & Hl & Hh). apply (mv_holds _ _ _ _ _ M) in Hh as [[[= ->] [= ->]]|[_ Hh]].
  - right. split; [done|]. by eapply ready_list_inj.
  - left. by exists l.
Qed.

(** Two moves off lists in a row, then on a ready list. *)
Lemma ready_three A A1 A2 A3 t T rl o1 o2 o3 i1 i2 p u :
  moved A A1 i1 None o1 → moved A1 A2 i2 None o2 → moved A2 A3 (St t) (Some rl) o3 →
  pxReadyTasksLists (uxPriority T) = Some rl → ready A3 p u → ready A p u ∨ (u = t ∧ p = uxPriority T).
Proof.
  intros M1 M2 M3 Hrl [Hr|?]%(ready_after_insert _ _ _ T _ _ _ _ M3 Hrl); [left|by right].
  eapply ready_moved; [exact M1|done|]. by eapply ready_moved.
Qed.

Lemma calm_three {n} A A1 A2 A3 d d' t rl o1 o2 o3 i1 i2 :
  moved A A1 i1 None o1 → moved A1 A2 i2 None o2 → moved A2 A3 (St t) (Some rl) o3 →
  rl ≠ xPendingReadyList → uxSchedulerSuspended d' = uxSchedulerSuspended d → xPendedTicks d' = xPendedTicks d →
  calm n A d → calm n A3 d'.
Proof.
  intros M1 M2 M3 Hrl E1 E2 C. apply (calm_data _ d); [|done..]. apply (calm_moved _ _ _ _ _ _ (calm_moved _ _ _ _ _ _
    (calm_moved _ _ _ _ _ _ C M1 ltac:(done)) M2 ltac:(done)) M3). congruence.
Qed.

Lemma wp_tick_loop n c nx sw Q k a :
  core idle None None c nx (lists k) (data k) → xTickCount (data k) = c →
  a_lists (lists k) !! pxDelayedTaskList (data k) = Some a → (length (elems a) < n)%nat →
  (∀ k' sw', core idle None None (c + 1) (xNextTaskUnblockTime (data k')) (lists k') (data k') →
     woken c k k' → (∀ m, calm m (lists k) (data k) → calm m (lists k') (data k')) →
     (sw = true ∨ top_runs (lists k) (data k) → sw' = true ∨ top_runs (lists k') (data k')) → Q sw' k') →
  wp (tick_loop n c sw) Q k.
Proof.
  intros C Htick Ha Hn HQ. revert k a nx sw C Htick Ha Hn HQ. induction n as [|n IH]; intros k a nx sw C Htick Ha Hn HQ; [lia|].
  pose proof (co_wf _ _ _ _ _ _ _ C) as W. pose proof (co_timed _ _ _ _ _ _ _ C) as T. simpl.
  do 3 wp_step. apply (wp_is_empty _ (wf_ok _ _ _ _ _ W) _ a); [done|]. case_bool_decide as E.
  { do 3 wp_step.
    assert (He : ∀ t, ¬ holds (lists k) (pxDelayedTaskList (data k)) (St t)).
    { intros t (b & Hb & Ht). simplify_eq. rewrite E in Ht. by apply elem_of_nil in Ht. }
    apply HQ; simpl.
    - apply (core_bounds _ _ c nx); [done|]. intros t Ht. by destruct (He t).
    - apply woken_none. intros t [Ht _]. by apply (He t).
    - intros m Ca. by apply (calm_data _ (data k)).
    - intros [?|HT]; [by left|right]. by apply (top_runs_data _ (data k)). }
  destruct (elems a) as [|i xs] eqn:Ei; [done|]. wp_step. apply (wp_head_owner _ _ a i xs); [done..|].
  assert (Hi : holds (lists k) (pxDelayedTaskList (data k)) i) by (exists a; split; [done|rewrite Ei; by left]).
  destruct (delayed_state _ (td_dl _ _ _ _ T)) as (D1 & D2 & D3).
  destruct (wf_on_state_list _ _ _ _ _ _ _ W D1 Hi) as (t & -> & [Tc HT] & ->).
  wp_step. apply wp_value; [apply (wf_st_item _ _ _ _ _ _ W); by exists Tc|].
  pose proof (head_least _ _ _ _ _ (proj1 (td_sort _ _ _ _ T)) Ha Ei) as Hmin.
  destruct (Z.ltb_spec c (a_val (lists k) (St t))) as [Hlt|Hge].
  { do 3 wp_step. apply HQ; simpl.
    - apply (core_bounds _ _ c nx); [done|]. intros u Hu. specialize (Hmin _ Hu). lia.
    - apply woken_none. intros u [Hu Hle]. specialize (Hmin _ Hu). lia.
    - intros m Ca. by apply (calm_data _ (data k)).
    - intros [?|HTr]; [by left|right]. by apply (top_runs_data _ (data k)). }
  wp_step. apply (wp_listREMOVE_ITEM _ (wf_ok _ _ _ _ _ W) _ _ _ Hi). intros A1 M1.
  pose proof (core_remove_st _ _ _ _ _ _ _ _ _ C Hi D3 M1) as C1.
  wp_step. eapply wp_remove_if_linked; [apply C1|by exists Tc|]. simpl. intros A2 M2.
  pose proof (core_remove_ev _ _ _ _ _ _ _ _ _ C1 M2) as C2.
  wp_step. apply (wp_prvAddTaskToReadyList None c nx t Tc); simpl; [done..|by left| |].
  { intros l. by rewrite (moved_holds_eq _ _ _ _ _ _ M2). }
  intros A3 rl d' Ed' Hrl M3 C3. pose proof (ready_list_bound _ _ Hrl).
  wp_step. apply (wp_priority_of _ _ Tc); simpl; [by rewrite Ed'|].
  wp_step. destruct (wf_current _ _ _ _ _ W) as (cu & Hcu & [Cu HCu]).
  apply (wp_current _ cu); [by rewrite Ed'|]. wp_step. apply (wp_priority_of _ _ Cu); simpl; [by rewrite Ed'|].
  destruct (ready_task_step k A1 A2 A3 t Tc rl False False False d' HT) as [Aw Pl]; try done; [by rewrite Ed'|].
  assert (Hdl : pxDelayedTaskList d' = pxDelayedTaskList (data k)) by by rewrite Ed'.
  assert (Hdne : rl ≠ pxDelayedTaskList (data k)) by (destruct (td_dl _ _ _ _ T) as [->| ->]; list_lia).
  destruct (wf_exist _ _ _ _ _ (co_wf _ _ _ _ _ _ _ C3) (pxDelayedTaskList (data k))) as [a3 Ha3];
    [destruct (td_dl _ _ _ _ T) as [->| ->]; list_lia|].
  assert (Hh3 : ∀ u, holds A3 (pxDelayedTaskList (data k)) (St u) → u ≠ t ∧ holds (lists k) (pxDelayedTaskList (data k)) (St u)).
  { intros u Hu. assert (Hut : u ≠ t).
    { intros ->. apply (moved_holds_eq _ _ _ _ _ _ M3) in Hu. congruence. }
    split; [done|]. by apply (Pl u Hut). }
  assert (Hlen : (length (elems a3) ≤ length xs)%nat).
  { apply submseteq_length, NoDup_submseteq.
    - apply (lo_nodup _ (wf_ok _ _ _ _ _ (co_wf _ _ _ _ _ _ _ C3)) _ _ Ha3).
    - intros j Hj. assert (Hj3 : holds A3 (pxDelayedTaskList (data k)) j) by by exists a3.
      destruct (wf_on_state_list _ _ _ _ _ _ _ (co_wf _ _ _ _ _ _ _ C3) D1 Hj3) as (u & -> & _ & _).
      destruct (Hh3 u Hj3) as (Hne & b & Hb & Hu). simplify_eq. rewrite Ei in Hu.
      apply elem_of_cons in Hu as [[= ->]|?]; done. }
  simpl in Hn. apply (IH (MkKernel A3 d') a3 nx); simpl; [done|by rewrite Ed'|by rewrite Hdl|lia|].
  assert (HV : a_val A3 = a_val (lists k))
    by by rewrite (mv_val _ _ _ _ _ M3), (mv_val _ _ _ _ _ M2), (mv_val _ _ _ _ _ M1).
  intros k' sw' C' Wk Ca Tr. apply HQ; [done| | |].
  - apply (woken_step c k (MkKernel A3 d') k' t); simpl; try done.
    + intros [Hd _]. simpl in Hd. rewrite Hdl in Hd. by destruct (Hh3 t Hd).
    + by eexists.
  - intros m Cal. apply Ca. apply (calm_three _ _ _ _ (data k) d' _ _ _ _ _ _ _ M1 M2 M3); rewrite ?Ed'; try done. list_lia.
  - intros Hsw. apply Tr. destruct Hsw as [->|HTr]; [by left|].
    destruct (Z.ltb_spec (uxPriority Cu) (uxPriority Tc)) as [?|Hle]; [left; by destruct sw|right].
    apply (top_runs_ready (lists k) _ (data k) _ t Tc HTr HT); rewrite ?Ed'; try done.
    + intros p u. apply (ready_three _ _ _ _ _ _ _ _ _ _ _ _ _ _ M1 M2 M3 Hrl).
    + intros _ c' C0 Hc' HC0. simplify_eq. lia.
Qed.

(** The ticks a delayed task still has to wait. *)
Definition time_left (k : akernel) t (n : Z) : Prop :=
  (holds (lists k) (pxDelayedTaskList (data k)) (St t) ∧ n = a_val (lists k) (St t) - xTickCount (data k)) ∨
  (holds (lists k) (pxOverflowDelayedTaskList (data k)) (St t)
     ∧ n = 4294967296 - xTickCount (data k) + a_val (lists k) (St t)).

(** One tick: the tasks with one tick left become ready, the others stay. *)
Record ticked (k k' : akernel) : Prop := {
  tk_data : ∃ top nx o dl ol, data k' = set_uxTopReadyPriority top (set_xNextTaskUnblockTime nx
    (set_xNumOfOverflows o (set_pxDelayedTaskList dl (set_pxOverflowDelayedTaskList ol
      (set_xTickCount (u32 (xTickCount (data k) + 1)) (data k))))));
  tk_lists : if u32 (xTickCount (data k) + 1) =? 0
    then pxDelayedTaskList (data k') = pxOverflowDelayedTaskList (data k)
       ∧ pxOverflowDelayedTaskList (data k') = pxDelayedTaskList (data k)
       ∧ xNumOfOverflows (data k') = u32 (xNumOfOverflows (data k) + 1)
    else pxDelayedTaskList (data k') = pxDelayedTaskList (data k)
       ∧ pxOverflowDelayedTaskList (data k') = pxOverflowDelayedTaskList (data k)
       ∧ xNumOfOverflows (data k') = xNumOfOverflows (data k);
  tk_val : a_val (lists k') = a_val (lists k);
  tk_due : ∀ t, time_left k t 1 → awake k' t;
  tk_rest : ∀ t, ¬ time_left k t 1 → same_place k k' t }.

(** The tick count advances; the lists change places when it wraps. *)
Definition advanced (k : akernel) (o : Z) (dl ol : positive) : akernel :=
  MkKernel (lists k) (set_xNumOfOverflows o (set_pxDelayedTaskList dl (set_pxOverflowDelayedTaskList ol
    (set_xTickCount (u32 (xTickCount (data k) + 1)) (data k))))).

Lemma next_tick tick : is_u32 tick →
  (u32 (tick + 1) = 0 ∧ tick = 4294967295) ∨ (u32 (tick + 1) = tick + 1 ∧ 0 < tick + 1 < 4294967296).
Proof. word_lia. Qed.

(** At the wrap the current delayed list is empty. *)
Lemma empty_at_wrap nx A d t l :
  timed (xTickCount d + 1) nx A d → u32 (xTickCount d + 1) = 0 → l = pxDelayedTaskList d → ¬ holds A l (St t).
Proof.
  intros T E -> Ht. pose proof (td_cur _ _ _ _ T t Ht). pose proof (td_dl _ _ _ _ T) as D.
  pose proof (td_word _ _ _ _ T t _ D Ht). pose proof (td_tick _ _ _ _ T).
  destruct (next_tick (xTickCount d)); unfold is_u32 in *; [done|lia..].
Qed.

Lemma core_advanced nx k :
  core idle None None (xTickCount (data k) + 1) nx (lists k) (data k) →
  let c := u32 (xTickCount (data k) + 1) in
  if c =? 0 then
    core idle None None c 0 (lists k) (data (advanced k (u32 (xNumOfOverflows (data k) + 1))
      (pxOverflowDelayedTaskList (data k)) (pxDelayedTaskList (data k))))
  else core idle None None c nx (lists k) (data (advanced k (xNumOfOverflows (data k))
      (pxDelayedTaskList (data k)) (pxOverflowDelayedTaskList (data k)))).
Proof.
  intros [W T C]. simpl. pose proof (wf_top _ _ _ _ _ W) as Htop. pose proof (td_tick _ _ _ _ T) as Htk.
  assert (HW : ∀ d', tcbs d' = tcbs (data k) → pxCurrentTCB d' = pxCurrentTCB (data k) →
    xSchedulerRunning d' = xSchedulerRunning (data k) → uxTopReadyPriority d' = uxTopReadyPriority (data k) →
    wf idle None None (lists k) d').
  { intros d' E1 E2 E3 E4. apply (wf_data _ _ _ _ (data k)); [done|done| |done|rewrite E4; lia].
    rewrite E2. apply W. }
  destruct (Z.eqb_spec (u32 (xTickCount (data k) + 1)) 0) as [E|E]; (constructor; [by apply HW| |by apply (counted_data _ (data k))]).
  - pose proof (fun t => empty_at_wrap nx _ _ t _ T E eq_refl) as He. pose proof (td_ol _ _ _ _ T) as Dol.
    destruct T as [Tp Tc To Ts Tw Tt].
    constructor; simpl; [naive_solver| | |naive_solver|done|by apply u32_range].
    + intros t Ht. pose proof (Tw t _ Dol Ht). unfold is_u32 in *. rewrite E. lia.
    + intros t Ht. by destruct (He t).
  - destruct T as [Tp Tc To Ts Tw Tt]. destruct (next_tick _ Htk) as [[? _]|[E' _]]; [done|].
    constructor; simpl; [done| | |done|done|by apply u32_range]; rewrite E'.
    + intros t Ht. by apply Tc.
    + intros t Ht. specialize (To t Ht). lia.
Qed.

(** From the woken tasks to the tick. *)
Lemma woken_ticked nx k k0 k' o dl ol :
  timed (xTickCount (data k) + 1) nx (lists k) (data k) →
  (if u32 (xTickCount (data k) + 1) =? 0
   then dl = pxOverflowDelayedTaskList (data k) ∧ ol = pxDelayedTaskList (data k)
        ∧ o = u32 (xNumOfOverflows (data k) + 1)
   else dl = pxDelayedTaskList (data k) ∧ ol = pxOverflowDelayedTaskList (data k)
        ∧ o = xNumOfOverflows (data k)) →
  k0 = advanced k o dl ol →
  (∃ v, woken (u32 (xTickCount (data k) + 1)) (MkKernel (lists k0) (set_xNextTaskUnblockTime v (data k0))) k') →
  ticked k k'.
Proof.
  intros T Hl -> [v Wk]. destruct Wk as [(top & nx' & E) Ev Wd Wr]. simpl in *.
  assert (HD : ∀ t, due (u32 (xTickCount (data k) + 1)) (MkKernel (lists k)
    (set_xNextTaskUnblockTime v (data (advanced k o dl ol)))) t ↔ time_left k t 1).
  { intros t. unfold due, time_left. simpl. pose proof (td_tick _ _ _ _ T) as Htk.
    pose proof (td_dl _ _ _ _ T) as D1. pose proof (td_ol _ _ _ _ T) as D2.
    destruct (next_tick _ Htk) as [[E1 E2]|[E1 E2]]; rewrite E1 in *.
    - destruct Hl as (-> & -> & _). rewrite E2 in *. split.
      + intros [Ht Hv]. right. pose proof (td_word _ _ _ _ T t _ D2 Ht). unfold is_u32 in *. split; [done|lia].
      + intros [[Ht Hv]|[Ht Hv]].
        * pose proof (td_cur _ _ _ _ T t Ht). pose proof (td_word _ _ _ _ T t _ D1 Ht). unfold is_u32 in *. lia.
        * split; [done|lia].
    - rewrite (proj2 (Z.eqb_neq (xTickCount (data k) + 1) 0) ltac:(lia)) in Hl. destruct Hl as (-> & -> & _). split.
      + intros [Ht Hv]. left. pose proof (td_cur _ _ _ _ T t Ht). split; [done|lia].
      + intros [[Ht Hv]|[Ht Hv]]; [split; [done|lia]|].
        pose proof (td_word _ _ _ _ T t _ D2 Ht). unfold is_u32 in *. lia. }
  constructor.
  - exists top, nx', o, dl, ol. rewrite E. by destruct (data k).
  - rewrite E. simpl. destruct (u32 (xTickCount (data k) + 1) =? 0); naive_solver.
  - done.
  - intros t Ht. by apply Wd, HD.
  - intros t Ht. rewrite <- HD in Ht. apply (Wr t Ht).
Qed.

(** What is true between [xTaskIncrementTick] and the switch it asks for. *)
Record tick_inv (n : Z) (sw : bool) (k : akernel) : Prop := {
  ti_core : core idle None None (xTickCount (data k) + 1) (xNextTaskUnblockTime (data k)) (lists k) (data k);
  ti_run : xSchedulerRunning (data k) = true;
  ti_calm : calm n (lists k) (data k);
  ti_top : sw = true ∨ top_runs (lists k) (data k) }.

Lemma set_next_id d : set_xNextTaskUnblockTime (xNextTaskUnblockTime d) d = d.
Proof. by destruct d. Qed.

Lemma kernel_eta (k : akernel) : MkKernel (lists k) (data k) = k.
Proof. by destruct k. Qed.

(** The part of the tick after the count and the lists are advanced. *)
Lemma wp_tick_tail m0 nx k0 Q :
  core idle None None (xTickCount (data k0)) nx (lists k0) (data k0) → nx = xNextTaskUnblockTime (data k0) →
  is_u32 (xTickCount (data k0)) → xSchedulerRunning (data k0) = true → calm m0 (lists k0) (data k0) → top_runs (lists k0) (data k0) →
  (∀ k' sw, tick_inv m0 sw k' → woken (xTickCount (data k0)) k0 k' → Q sw k') →
  wp (next ← gets xNextTaskUnblockTime;
      l ← gets pxDelayedTaskList;
      n ← rd (RdLength l);
      sw ← (if next <=? xTickCount (data k0) then tick_loop (S (Z.to_nat n)) (xTickCount (data k0)) false
            else mret false);
      c ← current; p ← priority_of c;
      rl ← deref (pxReadyTasksLists p);
      m ← rd (RdLength rl);
      y ← gets xYieldPending;
      mret (sw || (1 <? m) || y)) Q k0.
Proof.
  intros C -> Htk Hr Ca Tr HQ. pose proof (co_wf _ _ _ _ _ _ _ C) as W. pose proof (co_timed _ _ _ _ _ _ _ C) as T.
  do 5 wp_step. destruct (wf_exist _ _ _ _ _ W (pxDelayedTaskList (data k0))) as [a Ha];
    [by destruct (td_dl _ _ _ _ T) as [->| ->]|].
  apply (wp_length _ (wf_ok _ _ _ _ _ W) _ a); [done|]. wp_step.
  (* the rest is a function of the state after the loop *)
  assert (Rest : ∀ k' sw, core idle None None (xTickCount (data k0) + 1) (xNextTaskUnblockTime (data k')) (lists k') (data k') →
    woken (xTickCount (data k0)) k0 k' → calm m0 (lists k') (data k') → (sw = true ∨ top_runs (lists k') (data k')) →
    wp (c ← current; p ← priority_of c; rl ← deref (pxReadyTasksLists p); m ← rd (RdLength rl);
        y ← gets xYieldPending; mret (sw || (1 <? m) || y)) Q k').
  { intros k' sw C' Wk Ca' Tr'. pose proof (co_wf _ _ _ _ _ _ _ C') as W'.
    destruct (wf_current _ _ _ _ _ W') as (c & Hc & [Tc HTc]). wp_step. apply (wp_current _ c); [done|].
    wp_step. apply (wp_priority_of _ _ Tc); [done|]. pose proof (wf_prio _ _ _ _ _ _ _ W' HTc).
    assert (HL : pxReadyTasksLists (uxPriority Tc) = Some (Z.to_pos (uxPriority Tc + 1))) by by apply ready_list_Some.
    wp_step. apply (wp_deref _ _ _ _ HL). wp_step.
    destruct (wf_exist _ _ _ _ _ W' (Z.to_pos (uxPriority Tc + 1))) as [b Hb]; [lia|].
    apply (wp_length _ (wf_ok _ _ _ _ _ W') _ b); [done|]. do 3 wp_step. apply HQ; [|done].
    destruct (wk_data _ _ _ Wk) as (top & v & E). constructor; [|by rewrite E|done|].
    - rewrite E in *. done.
    - destruct Tr' as [->|?]; [by left|by right]. }
  destruct (Z.leb_spec (xNextTaskUnblockTime (data k0)) (xTickCount (data k0))) as [Hle|Hgt].
  - eapply (wp_tick_loop _ _ _ _ _ _ a); [exact C|done|done|lia|]. intros k' sw C' Wk Ca' Tr'.
    apply Rest; [done|done|auto|]. apply Tr'. by right.
  - assert (Hl : ∀ t, holds (lists k0) (pxDelayedTaskList (data k0)) (St t) →
      xTickCount (data k0) + 1 ≤ a_val (lists k0) (St t) ∧ xNextTaskUnblockTime (data k0) ≤ a_val (lists k0) (St t)).
    { intros t Ht. pose proof (td_cur _ _ _ _ T t Ht). lia. }
    wp_step. apply Rest; [| |done|by right].
    + pose proof (core_bounds _ _ _ _ _ _ _ _ C Hl) as C'. by rewrite set_next_id in C'.
    + pose proof (woken_none (xTickCount (data k0)) k0 (xNextTaskUnblockTime (data k0))) as Wn.
      rewrite set_next_id, kernel_eta in Wn. apply Wn. intros t [Ht Hv]. specialize (Hl t Ht). lia.
Qed.

Lemma wp_xTaskIncrementTick n Q k :
  core idle None None (xTickCount (data k) + 1) (xNextTaskUnblockTime (data k)) (lists k) (data k) →
  xSchedulerRunning (data k) = true → calm n (lists k) (data k) → top_runs (lists k) (data k) →
  uxSchedulerSuspended (data k) = 0 →
  (∀ k' sw, tick_inv n sw k' → ticked k k' → Q sw k') → wp xTaskIncrementTick Q k.
Proof.
  intros C Hr Ca Tr Hs HQ. pose proof (co_timed _ _ _ _ _ _ _ C) as T. pose proof (td_tick _ _ _ _ T) as Htk.
  pose proof (core_advanced _ _ C) as CA. simpl in CA.
  unfold xTaskIncrementTick. do 2 wp_step. rewrite Hs. cbn [Z.eqb]. do 5 wp_step.
  set (c := u32 (xTickCount (data k) + 1)) in *. wp_step; intros E.
  - apply Z.eqb_eq in E. rewrite (proj2 (Z.eqb_eq _ _) E) in CA.
    unfold taskSWITCH_DELAYED_LISTS. do 10 wp_step. simpl.
    set (k0 := advanced k (u32 (xNumOfOverflows (data k) + 1)) (pxOverflowDelayedTaskList (data k)) (pxDelayedTaskList (data k))).
    eapply (wp_prvResetNextTaskUnblockTime _ _ _ _ _ k0); [exact CA|]. intros v Cv.
    apply (wp_tick_tail n v (MkKernel (lists k0) (set_xNextTaskUnblockTime v (data k0)))); simpl;
      [done|done|apply u32_range|done|by apply (calm_data _ (data k))|by apply (top_runs_data _ (data k))|].
    intros k' sw Ti Wk. apply HQ; [done|]. eapply (woken_ticked _ k k0); [done| |done|by exists v].
    fold c. by rewrite E.
  - apply Z.eqb_neq in E. rewrite (proj2 (Z.eqb_neq _ _) E) in CA.
    set (k0 := advanced k (xNumOfOverflows (data k)) (pxDelayedTaskList (data k)) (pxOverflowDelayedTaskList (data k))).
    assert (E0 : k0 = MkKernel (lists k) (set_xTickCount c (data k))) by by destruct k as [A []].
    rewrite <- E0.
    apply (wp_tick_tail n (xNextTaskUnblockTime (data k)) k0); simpl;
      [done|done|apply u32_range|done|by apply (calm_data _ (data k))|by apply (top_runs_data _ (data k))|].
    intros k' sw Ti Wk. apply HQ; [done|]. eapply (woken_ticked _ k k0); [done| |done|].
    + fold c. by rewrite (proj2 (Z.eqb_neq _ _) E).
    + exists (xNextTaskUnblockTime (data k0)). by rewrite set_next_id, kernel_eta.
Qed.

Lemma wp_tick_pended Q k :
  uxSchedulerSuspended (data k) ≠ 0 →
  Q false (MkKernel (lists k) (set_xPendedTicks (u32 (xPendedTicks (data k) + 1)) (data k))) →
  wp xTaskIncrementTick Q k.
Proof.
  intros Hs HQ. unfold xTaskIncrementTick. do 2 wp_step.
  rewrite (proj2 (Z.eqb_neq _ _) Hs). by do 3 wp_step.
Qed.

(** A switch after the tick. *)
Definition ticked_then (k k' : akernel) : Prop := ticked k k' ∨ ∃ k1, ticked k k1 ∧ lists_ok (lists k1) ∧ switched k1 k'.

Lemma wp_vTickISR Q k :
  inv idle k →
  (∀ k', inv idle k' →
     (if uxSchedulerSuspended (data k) =? 0 then ticked_then k k'
      else k' = MkKernel (lists k) (set_xPendedTicks (u32 (xPendedTicks (data k) + 1)) (data k))) → Q () k') →
  wp vTickISR Q k.
Proof.
  intros I HQ. unfold vTickISR. wp_step.
  destruct (Z.eqb_spec (uxSchedulerSuspended (data k)) 0) as [Hs|Hs].
  - apply (wp_xTaskIncrementTick 0); [apply I..|done|]. intros k' sw [C Hr Ca Tr] Tk. wp_step; intros ->.
    + apply wp_yield; [done..|]. intros k2 S I2. apply HQ; [done|]. right. exists k'. split; [done|]. split; [apply C|done].
    + apply HQ; [|by left]. destruct Tr; [done|]. by constructor.
  - apply wp_tick_pended; [done|]. wp_step; [done|]. intros _. apply HQ; [|done].
    destruct I as [C Hr Ca Tr]. constructor; simpl; [|done| |by apply (top_runs_data _ (data k))].
    + by apply (core_data _ _ _ _ _ (data k)).
    + destruct Ca as [[H1 _] H2]. split; [split; [done|apply u32_range]|]. by intros ?%Hs.
Qed.

(** ** Suspending and resuming the scheduler *)
Lemma wp_vTaskSuspendAll Q k :
  inv idle k → uxSchedulerSuspended (data k) + 1 < 4294967296 →
  (∀ k', k' = MkKernel (lists k) (set_uxSchedulerSuspended (uxSchedulerSuspended (data k) + 1) (data k)) →
     inv idle k' → Q () k') → wp vTaskSuspendAll Q k.
Proof.
  intros [C Hr [Cw Cc] Tr] Hs HQ. unfold vTaskSuspendAll. wp_step. unfold is_u32 in *.
  rewrite u32_id by (unfold is_u32; lia). apply HQ; [done|]. constructor; simpl; [|done| |by apply (top_runs_data _ (data k))].
  - by apply (core_data _ _ _ _ _ (data k)).
  - split; simpl; unfold is_u32; lia.
Qed.

(** The tasks held back on xPendingReadyList become ready, the others stay. *)
Record unpended (k k' : akernel) : Prop := {
  up_data : ∃ top y, data k' = set_uxTopReadyPriority top (set_xYieldPending y (data k));
  up_val : a_val (lists k') = a_val (lists k);
  up_wake : ∀ t, holds (lists k) xPendingReadyList (Ev t) → awake k' t;
  up_rest : ∀ t, ¬ holds (lists k) xPendingReadyList (Ev t) → same_place k k' t }.

Lemma unpended_none k : (∀ t, ¬ holds (lists k) xPendingReadyList (Ev t)) → unpended k k.
Proof.
  intros Hn. constructor; [|done| |done].
  - exists (uxTopReadyPriority (data k)), (xYieldPending (data k)). by destruct (data k).
  - intros t Ht. by destruct (Hn t).
Qed.

Lemma unpended_step k k1 k' t :
  holds (lists k) xPendingReadyList (Ev t) → awake k1 t → (∀ u, u ≠ t → same_place k k1 u) →
  (∃ top y, data k1 = set_uxTopReadyPriority top (set_xYieldPending y (data k))) →
  a_val (lists k1) = a_val (lists k) → unpended k1 k' → unpended k k'.
Proof.
  intros Ht Aw Hu (top & y & E) Ev1 [(top' & y' & E') Ev' Wk Wr]. constructor.
  - exists top', y'. rewrite E', E. by destruct (data k).
  - by rewrite Ev'.
  - intros u Hu'. destruct (decide (u = t)) as [->|Hne]; [|by apply Wk, Hu].
    apply (awake_same_place k1); [|by rewrite E'|done]. apply Wr. apply Aw.
  - intros u Hu'. assert (Hne : u ≠ t) by (intros ->; done).
    assert (Hp : ¬ holds (lists k1) xPendingReadyList (Ev u)) by by rewrite (proj2 (Hu u Hne _)).
    specialize (Wr u Hp). specialize (Hu u Hne). intros l. specialize (Wr l). specialize (Hu l). naive_solver.
Qed.

(** Like [ready_task_step], with the event item taken first. *)
Lemma ready_event_step k A1 A2 A3 t T rl o1 o2 o3 d' :
  tcbs (data k) !! t = Some T → tcbs d' = tcbs (data k) → pxReadyTasksLists (uxPriority T) = Some rl →
  moved (lists k) A1 (Ev t) None o1 → moved A1 A2 (St t) None o2 → moved A2 A3 (St t) (Some rl) o3 →
  awake (MkKernel A3 d') t ∧ (∀ u, u ≠ t → same_place k (MkKernel A3 d') u).
Proof.
  intros HT Ed Hrl M1 M2 M3. split; [split|]; simpl.
  - exists T. rewrite Ed. split; [done|]. exists rl. split; [done|]. by apply (moved_holds_eq _ _ _ _ _ _ M3).
  - intros l'. rewrite (moved_holds_ne _ _ _ _ _ _ _ M3), (moved_holds_ne _ _ _ _ _ _ _ M2) by item_ne.
    by rewrite (moved_holds_eq _ _ _ _ _ _ M1).
  - intros u Hu l'. simpl.
    rewrite !(moved_holds_ne _ _ _ _ _ _ _ M3), !(moved_holds_ne _ _ _ _ _ _ _ M2) by item_ne.
    by rewrite !(moved_holds_ne _ _ _ _ _ _ _ M1) by item_ne.
Qed.

Lemma wp_pending_loop n m lo nx Q k a :
  core idle None None lo nx (lists k) (data k) → top_runs (lists k) (data k) →
  a_lists (lists k) !! xPendingReadyList = Some a → (length (elems a) < n)%nat →
  (∀ k' m', core idle None None lo nx (lists k') (data k') → top_runs (lists k') (data k') → unpended k k' →
     (∀ i, ¬ holds (lists k') xPendingReadyList i) → Q m' k') →
  wp (pending_loop n m) Q k.
Proof.
  revert k a m. induction n as [|n IH]; intros k a m C Tr Ha Hn HQ; [lia|].
  pose proof (co_wf _ _ _ _ _ _ _ C) as W. simpl. wp_step.
  apply (wp_is_empty _ (wf_ok _ _ _ _ _ W) _ a); [done|]. case_bool_decide as E.
  { wp_step. assert (Hn8 : ∀ i, ¬ holds (lists k) xPendingReadyList i).
    { intros i (b & Hb & Hi). simplify_eq. rewrite E in Hi. by apply elem_of_nil in Hi. }
    apply HQ; [done|done| |done]. by apply unpended_none. }
  destruct (elems a) as [|i xs] eqn:Ei; [done|]. wp_step. apply (wp_head_owner _ _ a i xs); [done..|].
  assert (Hi : holds (lists k) xPendingReadyList i) by (exists a; split; [done|rewrite Ei; by left]).
  destruct (wf_on_event_list _ _ _ _ _ xPendingReadyList i W ltac:(list_lia) Hi) as (t & -> & [Tc HT] & ->).
  wp_step. apply (wp_listREMOVE_ITEM _ (wf_ok _ _ _ _ _ W) _ _ _ Hi). intros A1 M1.
  pose proof (core_remove_ev _ _ _ _ _ _ _ _ _ C M1) as C1.
  destruct (wf_state _ _ _ _ _ W t) as [l Hl]; [by exists Tc|done|].
  assert (Hl1 : holds A1 l (St t)) by (apply (moved_holds_ne _ _ _ _ _ _ _ M1); [item_ne|done]).
  assert (Hl10 : l ≠ xTasksWaitingTermination).
  { intros ->. by apply (ct_gone _ _ (co_counted _ _ _ _ _ _ _ C) t xPendingReadyList Hl). }
  wp_step. eapply wp_listREMOVE_ITEM; [apply C1|exact Hl1|]. simpl. intros A2 M2.
  pose proof (core_remove_st _ _ _ _ _ _ _ _ _ C1 Hl1 Hl10 M2) as C2.
  wp_step. apply (wp_prvAddTaskToReadyList None lo nx t Tc); simpl; [done..|by left| |].
  { intros l'. rewrite (moved_holds_ne _ _ _ _ _ _ _ M2) by item_ne. by rewrite (moved_holds_eq _ _ _ _ _ _ M1). }
  intros A3 rl d' Ed' Hrl M3 C3. pose proof (ready_list_bound _ _ Hrl).
  wp_step. apply (wp_priority_of _ _ Tc); simpl; [by rewrite Ed'|].
  wp_step. destruct (wf_current _ _ _ _ _ W) as (cu & Hcu & [Cu HCu]).
  apply (wp_current _ cu); [by rewrite Ed'|]. wp_step. apply (wp_priority_of _ _ Cu); simpl; [by rewrite Ed'|].
  assert (Hlen : ∀ a3, a_lists A3 !! xPendingReadyList = Some a3 → (length (elems a3) ≤ length xs)%nat).
  { intros a3 Ha3. apply submseteq_length, NoDup_submseteq.
    - apply (lo_nodup _ (wf_ok _ _ _ _ _ (co_wf _ _ _ _ _ _ _ C3)) _ _ Ha3).
    - intros j Hj. assert (Hj3 : holds A3 xPendingReadyList j) by by exists a3.
      apply (mv_holds _ _ _ _ _ M3) in Hj3 as [[_ [= ->]]|[_ Hj3]]; [list_lia|].
      apply (mv_holds _ _ _ _ _ M2) in Hj3 as [[_ ?]|[_ Hj3]]; [done|].
      apply (mv_holds _ _ _ _ _ M1) in Hj3 as [[_ ?]|[Hne (b & Hb & Hjb)]]; [done|]. simplify_eq.
      rewrite Ei in Hjb. by apply elem_of_cons in Hjb as [->|?]. }
  destruct (wf_exist _ _ _ _ _ (co_wf _ _ _ _ _ _ _ C3) xPendingReadyList) as [a3 Ha3]; [list_lia|].
  specialize (Hlen a3 Ha3). simpl in Hn.
  assert (HV : a_val A3 = a_val (lists k))
    by by rewrite (mv_val _ _ _ _ _ M3), (mv_val _ _ _ _ _ M2), (mv_val _ _ _ _ _ M1).
  assert (Rest : ∀ y, (y = false → xYieldPending (data k) = false ∧ uxPriority Tc < uxPriority Cu) →
    wp (pending_loop n true) Q (MkKernel A3 (set_xYieldPending y d'))).
  { intros y Hy. apply (IH _ a3); simpl; [by apply (core_data _ _ _ _ _ d')| |done|lia|].
    - apply (top_runs_ready (lists k) _ (data k) _ t Tc Tr HT); rewrite ?Ed'; simpl; try done.
      + intros p u. apply (ready_three _ _ _ _ _ _ _ _ _ _ _ _ _ _ M1 M2 M3 Hrl).
      + intros Y. by destruct (Hy Y).
      + intros Y c' C0 Hc' HC0. simplify_eq. destruct (Hy eq_refl). lia.
    - intros k' m' C' Tr' Up Hn8. apply HQ; [done|done| |done].
      destruct (ready_event_step k A1 A2 A3 t Tc rl False False False (set_xYieldPending y d') HT) as [Aw Pl]; try done.
      { by rewrite Ed'. }
      apply (unpended_step k (MkKernel A3 (set_xYieldPending y d')) k' t); simpl; try done.
      exists (Z.max (uxTopReadyPriority (data k)) (uxPriority Tc)), y. rewrite Ed'. by destruct (data k). }
  do 2 wp_step; intros Hc; [wp_step|]; simpl.
  - apply Rest. done.
  - replace d' with (set_xYieldPending (xYieldPending (data k)) d') by (rewrite Ed'; by destruct (data k)).
    apply Rest. apply Z.leb_gt in Hc. done.
Qed.

Definition sane (k : akernel) : Prop := lists_ok (lists k) ∧ timely (lists k) (data k).

(** [n] ticks in a row; a switch asked for is only noted. *)
Inductive ticks : nat → akernel → akernel → Prop :=
  | ticks_O k : ticks O k k
  | ticks_S n k k1 y k' :
      sane k → sane k1 → ticked k k1 → ticks n (MkKernel (lists k1) (set_xYieldPending y (data k1))) k' → ticks (S n) k k'.

Lemma ticked_susp k k' : ticked k k' →
  uxSchedulerSuspended (data k') = uxSchedulerSuspended (data k) ∧ xPendedTicks (data k') = xPendedTicks (data k)
  ∧ tcbs (data k') = tcbs (data k) ∧ uxCurrentNumberOfTasks (data k') = uxCurrentNumberOfTasks (data k).
Proof. intros [(top & nx & o & dl & ol & E) _ _ _ _]. by rewrite E. Qed.

Lemma wp_pended_ticks_loop m n Q k :
  core idle None None (xTickCount (data k) + 1) (xNextTaskUnblockTime (data k)) (lists k) (data k) →
  xSchedulerRunning (data k) = true → calm m (lists k) (data k) → top_runs (lists k) (data k) →
  uxSchedulerSuspended (data k) = 0 →
  (∀ k', core idle None None (xTickCount (data k') + 1) (xNextTaskUnblockTime (data k')) (lists k') (data k') →
     xSchedulerRunning (data k') = true → calm m (lists k') (data k') → top_runs (lists k') (data k') →
     uxSchedulerSuspended (data k') = 0 → ticks n k k' → Q () k') →
  wp (pended_ticks_loop n) Q k.
Proof.
  revert k. induction n as [|n IH]; intros k C Hr Ca Tr Hs HQ; simpl.
  { wp_step. apply HQ; [done..|]. constructor. }
  wp_step. apply (wp_xTaskIncrementTick m); [done..|]. intros k1 sw [C1 Hr1 Ca1 Tr1] Tk.
  destruct (ticked_susp _ _ Tk) as (Hs1 & _).
  assert (Rest : ∀ y, (y = false → top_runs (lists k1) (data k1) ∧ y = xYieldPending (data k1)) →
    wp (pended_ticks_loop n) Q (MkKernel (lists k1) (set_xYieldPending y (data k1)))).
  { intros y Hy. apply IH; simpl; [by apply (core_data _ _ _ _ _ (data k1))|done|by apply (calm_data _ (data k1))| |by rewrite Hs1|].
    - destruct y; [done|]. destruct (Hy eq_refl) as [Ht Ey]. by apply (top_runs_data _ (data k1)).
    - intros k' C' Hr' Ca' Tr' Hs' Tks. apply HQ; [done..|]. econstructor; [| |done|done];
        (split; [by eapply wf_ok, co_wf|by eapply co_timed]). }
  do 2 wp_step; intros Hsw; [wp_step; by apply Rest|].
  specialize (Rest (xYieldPending (data k1))). destruct k1 as [A1 []]. apply Rest. simpl.
  intros ->. destruct Tr1 as [?|?]; [congruence|done].
Qed.

(** Nothing changes for any task. *)
Record quiet (k k' : akernel) : Prop := {
  qu_data : (tcbs (data k'), xTickCount (data k'), xNumOfOverflows (data k'), pxDelayedTaskList (data k'),
    pxOverflowDelayedTaskList (data k')) =
    (tcbs (data k), xTickCount (data k), xNumOfOverflows (data k), pxDelayedTaskList (data k),
      pxOverflowDelayedTaskList (data k));
  qu_val : a_val (lists k') = a_val (lists k);
  qu_place : ∀ t, same_place k k' t }.

Lemma quiet_data k d' :
  (tcbs d', xTickCount d', xNumOfOverflows d', pxDelayedTaskList d', pxOverflowDelayedTaskList d') =
  (tcbs (data k), xTickCount (data k), xNumOfOverflows (data k), pxDelayedTaskList (data k),
    pxOverflowDelayedTaskList (data k)) → quiet k (MkKernel (lists k) d').
Proof. intros E. by constructor. Qed.

Lemma quiet_refl k : quiet k k.
Proof. by constructor. Qed.

Lemma quiet_trans k1 k2 k3 : quiet k1 k2 → quiet k2 k3 → quiet k1 k3.
Proof.
  intros [E1 V1 P1] [E2 V2 P2]. constructor; [by rewrite E2|by rewrite V2|].
  intros t l. specialize (P1 t l). specialize (P2 t l). naive_solver.
Qed.

Lemma switched_quiet k k' : lists_ok (lists k) → switched k k' → quiet k k'.
Proof.
  intros O S. destruct S as [Hs|p l t a A' Hs Hp Ha Hn Ht (l' & Hp' & Hh) Htop M]; [by apply quiet_data|].
  assert (l' = l) as -> by congruence.
  constructor; simpl; [done|apply M|]. intros u l2. simpl. rewrite !(mv_holds _ _ _ _ _ M).
  assert (HU : ∀ j, (j = St t ∧ Some l = Some l2 ∨ j ≠ St t ∧ holds (lists k) l2 j) ↔ holds (lists k) l2 j).
  { intros j. split; [intros [[-> [= <-]]|[_ ?]]; done|]. intros Hj.
    destruct (decide (j = St t)) as [->|]; [left|by right]. split; [done|f_equal].
    by apply (lo_unique _ O _ _ (St t)). }
  by rewrite !HU.
Qed.

Definition set_susp (n : Z) (k : akernel) : akernel := MkKernel (lists k) (set_uxSchedulerSuspended n (data k)).

(** The result of resuming: the tasks held back, then the ticks, then a switch. *)
Definition resumed (k k' : akernel) : Prop :=
  ∃ k1 v k2, unpended (set_susp 0 k) k1 ∧
    ticks (Z.to_nat (xPendedTicks (data k))) (MkKernel (lists k1) (set_xNextTaskUnblockTime v (data k1))) k2 ∧
    quiet k2 k'.

Lemma wp_xTaskResumeAll_nested Q k :
  inv idle k → 1 < uxSchedulerSuspended (data k) →
  (inv idle (set_susp (uxSchedulerSuspended (data k) - 1) k) → Q false (set_susp (uxSchedulerSuspended (data k) - 1) k)) →
  wp xTaskResumeAll Q k.
Proof.
  intros [C Hr [Cw Cc] Tr] Hs HQ. unfold xTaskResumeAll. do 6 wp_step. simpl.
  rewrite u32_id by (unfold is_u32 in *; lia). rewrite (proj2 (Z.eqb_neq _ _)) by lia. simpl. wp_step.
  apply HQ. constructor; simpl; [|done| |by apply (top_runs_data _ (data k))].
  - by apply (core_data _ _ _ _ _ (data k)).
  - unfold is_u32 in *. split; simpl; unfold is_u32; lia.
Qed.

Lemma wp_xTaskResumeAll Q k :
  inv idle k → uxSchedulerSuspended (data k) = 1 →
  (∀ k' y, inv idle k' → resumed k k' → uxSchedulerSuspended (data k') = 0 → Q y k') → wp xTaskResumeAll Q k.
Proof.
  intros [C Hr [Cw Cc] Tr] Hs HQ. unfold xTaskResumeAll. do 6 wp_step. simpl. rewrite Hs. cbn [Z.sub Z.add Z.opp].
  change (u32 (1 - 1)) with 0. cbn [Z.eqb andb].
  assert (Hnum : (0 <? uxCurrentNumberOfTasks (data k)) = true).
  { rewrite (ct_tasks _ _ (co_counted _ _ _ _ _ _ _ C)). apply Z.ltb_lt.
    destruct (wf_current _ _ _ _ _ (co_wf _ _ _ _ _ _ _ C)) as (c & _ & [Tc HTc]).
    assert (size (tcbs (data k)) ≠ 0)%nat; [|lia]. intros E. apply map_size_empty_inv in E. by rewrite E in HTc. }
  rewrite Hnum. set (k0 := MkKernel (lists k) (set_uxSchedulerSuspended 0 (data k))).
  assert (C0 : core idle None None (xTickCount (data k) + 1) (xNextTaskUnblockTime (data k)) (lists k0) (data k0))
    by by apply (core_data _ _ _ _ _ (data k)).
  pose proof (co_wf _ _ _ _ _ _ _ C0) as W0.
  destruct (wf_exist _ _ _ _ _ W0 xPendingReadyList) as [a Ha]; [list_lia|].
  wp_step. apply (wp_length k0 (wf_ok _ _ _ _ _ W0) _ a); [done|]. wp_step.
  apply (wp_pending_loop (S (Z.to_nat (Z.of_nat (length (elems a))))) false
    (xTickCount (data k) + 1) (xNextTaskUnblockTime (data k)) _ k0 a); [exact C0|by apply (top_runs_data _ (data k))|done|lia|].
  intros k1 m C1 Tr1 Up Hn8. destruct (up_data _ _ Up) as (top & y & E1).
  assert (Rest : ∀ v, core idle None None (xTickCount (data k) + 1) v (lists k1) (set_xNextTaskUnblockTime v (data k1)) →
    wp (pended ← gets xPendedTicks;
        when (0 <? pended) (pended_ticks_loop (Z.to_nat pended);; upd (set_xPendedTicks 0));;
        y ← gets xYieldPending;
        if (y : bool) then portYIELD;; mret true else mret false) Q
      (MkKernel (lists k1) (set_xNextTaskUnblockTime v (data k1)))).
  { intros v Cv. set (kv := MkKernel (lists k1) (set_xNextTaskUnblockTime v (data k1))).
    assert (Fin : ∀ k2, core idle None None (xTickCount (data k2) + 1) (xNextTaskUnblockTime (data k2)) (lists k2) (data k2) →
      xSchedulerRunning (data k2) = true → calm (xPendedTicks (data k)) (lists k2) (data k2) → top_runs (lists k2) (data k2) →
      uxSchedulerSuspended (data k2) = 0 → ticks (Z.to_nat (xPendedTicks (data k))) kv k2 →
      wp (y ← gets xYieldPending; if (y : bool) then portYIELD;; mret true else mret false) Q
        (MkKernel (lists k2) (set_xPendedTicks 0 (data k2)))).
    { intros k2 C2 Hr2 Ca2 Tr2 Hs2 Tks. do 2 wp_step. simpl.
      set (k3 := MkKernel (lists k2) (set_xPendedTicks 0 (data k2))).
      assert (C3 : core idle None None (xTickCount (data k3) + 1) (xNextTaskUnblockTime (data k3)) (lists k3) (data k3))
        by by apply (core_data _ _ _ _ _ (data k2)).
      assert (Ca3 : calm 0 (lists k3) (data k3)) by (destruct Ca2 as [[H1 _] H2]; split; [by split|]; intros _; split; [done|by apply H2]).
      assert (Q3 : quiet k2 k3) by by apply quiet_data.
      apply wp_if; intros _.
      - wp_step. apply wp_yield; [done..|]. intros k4 S4 I4. wp_step. apply HQ; [done| |by rewrite (switched_susp _ _ S4)].
        exists k1, v, k2. split; [exact Up|]. split; [done|]. eapply quiet_trans; [exact Q3|].
        apply switched_quiet; [apply C3|done].
      - wp_step. apply HQ; [constructor; [done..|by apply (top_runs_data _ (data k2))]| |done].
        by exists k1, v, k2. }
    assert (Ekv : xPendedTicks (data kv) = xPendedTicks (data k) ∧ uxSchedulerSuspended (data kv) = 0
      ∧ xTickCount (data kv) = xTickCount (data k) ∧ xSchedulerRunning (data kv) = true)
      by (unfold kv; simpl; rewrite E1; done).
    destruct Ekv as (E2 & E3 & E4 & E5).
    assert (Cav : calm (xPendedTicks (data k)) (lists kv) (data kv)).
    { split; [rewrite E3, E2; split; [done|apply Cw]|]. intros _. by split. }
    do 2 wp_step. rewrite E2. wp_step. apply wp_when; intros Hp.
    - wp_step. apply (wp_pended_ticks_loop (xPendedTicks (data k))); [by rewrite E4|done|done|by apply (top_runs_data _ (data k1))|done|].
      intros k2 C2 Hr2 Ca2 Tr2 Hs2 Tks. wp_step. by apply Fin.
    - assert (Hp0 : xPendedTicks (data k) = 0) by (destruct Cw as [_ Cw]; unfold is_u32 in Cw; lia).
      assert (Ek : kv = MkKernel (lists kv) (set_xPendedTicks 0 (data kv))).
      { rewrite <- Hp0, <- E2. by destruct kv as [Av []]. }
      rewrite Ek. apply Fin; [by rewrite E4|done|done|by apply (top_runs_data _ (data k1))|done|].
      rewrite Hp0. constructor. }
  do 2 wp_step; intros _.
  - eapply (wp_prvResetNextTaskUnblockTime _ _ _ _ _ k1); [exact C1|]. intros v Cv. by apply Rest.
  - specialize (Rest (xNextTaskUnblockTime (data k))).
    assert (Ev1 : set_xNextTaskUnblockTime (xNextTaskUnblockTime (data k)) (data k1) = data k1)
      by (rewrite E1; unfold k0; simpl; by destruct (data k)).
    rewrite Ev1, kernel_eta in Rest. by apply Rest.
Qed.
End specs.




