(* ===== verification/TasksApi.v ===== *)
(** * The functions that tasks and interrupts call keep the invariant *)
From S2P Require Import Prelude RtosList KList Tasks TasksInv TasksOk.
Local Open Scope Z_scope.
Implicit Types (A : astate) (d : kdata) (k : akernel) (i j l : positive) (t : TaskHandle_t).

Section api.
Context (idle : TaskHandle_t).

(** The task that calls: it runs, so it is ready. *)
Definition running k (c : TaskHandle_t) : Prop :=
  pxCurrentTCB (data k) = Some c ∧ ∃ p, ready (lists k) p c.

(** A task that exists and has not been deleted. *)
Definition alive k t : Prop :=
  is_Some (tcbs (data k) !! t) ∧ ¬ holds (lists k) xTasksWaitingTermination (St t).

Lemma ready_not_terminated x y A d p t l :
  wf idle x y A d → ready A p t → holds A l (St t) → l ≠ xTasksWaitingTermination ∧ pxReadyTasksLists p = Some l.
Proof.
  intros W (l' & Hp & Hh) Hl. assert (l' = l) as -> by by apply (lo_unique _ (wf_ok _ _ _ _ _ W) _ _ (St t)).
  split; [|done]. pose proof (ready_list_bound _ _ Hp). intros ->. list_lia.
Qed.

Lemma ready_ev_free A d p t l : wf idle None None A d → ready A p t → ¬ holds A l (Ev t).
Proof.
  intros W (l' & Hp & Hh) He. destruct (wf_waiting _ _ _ _ _ W t l He) as (l2 & B & H2); [done..|].
  assert (l' = l2) as -> by by apply (lo_unique _ (wf_ok _ _ _ _ _ W) _ _ (St t)).
  pose proof (ready_list_bound _ _ Hp). list_lia.
Qed.

(** ** Delays *)
Lemma time_left_same k k' t n :
  same_place k k' t → xTickCount (data k') = xTickCount (data k) →
  pxDelayedTaskList (data k') = pxDelayedTaskList (data k) →
  pxOverflowDelayedTaskList (data k') = pxOverflowDelayedTaskList (data k) →
  a_val (lists k') = a_val (lists k) → time_left k t n → time_left k' t n.
Proof.
  intros P E1 E2 E3 E4. unfold time_left. rewrite E1, E2, E3, E4.
  by rewrite !(proj1 (P _)).
Qed.

Lemma time_left_quiet k k' t n : quiet k k' → time_left k t n → time_left k' t n.
Proof. intros [[=] V P]. by apply time_left_same. Qed.

Lemma blocked_time_left k k' c n :
  blocked_for n false c k k' → is_u32 (xTickCount (data k)) → 0 < n < 4294967296 → time_left k' c n.
Proof.
  intros [(v & E) _ _ Hw] Htk Hn. rewrite andb_false_r in Hw. simpl in Hw. destruct Hw as [Hv Hw].
  unfold time_left. rewrite E. simpl. rewrite Hv.
  destruct (Z.ltb_spec (u32 (xTickCount (data k) + n)) (xTickCount (data k))); [right|left];
    (split; [done|]); word_lia.
Qed.

Lemma blocked_others k k' n b c u : blocked_for n b c k k' → u ≠ c → same_place k k' u.
Proof. intros B Hu l. split; apply (bf_other _ _ _ _ _ B); item_ne. Qed.

Lemma unpended_quiet k k' :
  unpended k k' → (∀ i, ¬ holds (lists k) xPendingReadyList i) → quiet k k'.
Proof.
  intros [(top & y & E) V _ P] Hn. constructor; [by rewrite E|done|]. intros t. by apply P.
Qed.

(** Resuming when nothing was held back. *)
Lemma resumed_quiet k k' :
  resumed k k' → xPendedTicks (data k) = 0 → (∀ i, ¬ holds (lists k) xPendingReadyList i) → quiet k k'.
Proof.
  intros (k1 & v & k2 & Up & Tk & Qu) Hp Hn. rewrite Hp in Tk. inversion Tk; subst.
  eapply quiet_trans; [|exact Qu]. eapply quiet_trans; [by apply (quiet_data k (data (set_susp 0 k)))|].
  eapply quiet_trans; [apply (unpended_quiet _ _ Up); done|]. by apply quiet_data.
Qed.

Lemma calm_blocked m k k' n b c :
  calm m (lists k) (data k) → blocked_for n b c k k' → wf idle None None (lists k') (data k') →
  calm m (lists k') (data k').
Proof.
  intros [H1 H2] B W. destruct (bf_data _ _ _ _ _ B) as [v E]. rewrite E. split; [done|]. intros Hs.
  destruct (H2 Hs) as [H3 H4]. split; [done|]. intros i Hi.
  destruct (decide (i = St c)) as [->|Hne]; [destruct (wf_st _ _ _ _ _ W _ _ Hi); done|].
  apply (H4 i). by apply (bf_other _ _ _ _ _ B).
Qed.

Lemma top_blocked k k' n b c l :
  top_runs (lists k) (data k) → blocked_for n b c k k' → holds (lists k') l (St c) → blocked_list l →
  lists_ok (lists k') → top_runs (lists k') (data k').
Proof.
  intros Tr B Hl Bl O. destruct (bf_data _ _ _ _ _ B) as [v E].
  apply (top_runs_sub (lists k) _ (data k)); rewrite ?E; try done.
  intros p u (l' & Hp & Hh). exists l'. split; [done|]. apply (bf_other _ _ _ _ _ B); [|done].
  intros [= ->]. assert (l' = l) as -> by by apply (lo_unique _ O _ _ (St c)).
  pose proof (ready_list_bound _ _ Hp). list_lia.
Qed.

Lemma blocked_where k k' n b c : timed (xTickCount (data k) + 1) (xNextTaskUnblockTime (data k)) (lists k) (data k) →
  blocked_for n b c k k' → ∃ l, blocked_list l ∧ holds (lists k') l (St c).
Proof.
  intros T [_ _ _ Hw]. destruct ((n =? portMAX_DELAY) && b).
  - exists xSuspendedTaskList. split; [list_lia|done].
  - destruct Hw as [_ Hw]. eexists. split; [|exact Hw].
    destruct (_ <? _); [destruct (td_ol _ _ _ _ T) as [->| ->]|destruct (td_dl _ _ _ _ T) as [->| ->]]; list_lia.
Qed.

(** Blocking keeps the whole invariant. *)
Lemma inv_blocked y k k' n b c :
  core idle None y (xTickCount (data k) + 1) (xNextTaskUnblockTime (data k)) (lists k) (data k) →
  xSchedulerRunning (data k) = true → calm 0 (lists k) (data k) → top_runs (lists k) (data k) →
  blocked_for n b c k k' →
  core idle None None (xTickCount (data k) + 1) (xNextTaskUnblockTime (data k')) (lists k') (data k') → inv idle k'.
Proof.
  intros C Hr Ca Tr B C'. destruct (bf_data _ _ _ _ _ B) as [v E].
  destruct (blocked_where _ _ _ _ _ (co_timed _ _ _ _ _ _ _ C) B) as (l & Bl & Hl).
  pose proof (co_wf _ _ _ _ _ _ _ C') as W'. constructor.
  - by rewrite E in *.
  - by rewrite E.
  - by apply (calm_blocked _ k _ n b c).
  - by apply (top_blocked k _ n b c l Tr B Hl Bl), W'.
Qed.

Lemma wp_block n b c Q k :
  inv idle k → running k c → c ≠ idle → 0 < n < 4294967296 →
  (∀ k', inv idle k' → blocked_for n b c k k' → Q () k') → wp (prvAddCurrentTaskToDelayedList n b) Q k.
Proof.
  intros I [Hc [p R]] Hci Hn HQ. pose proof I as [C Hr Ca Tr]. pose proof R as (l & Hp & Hl).
  destruct (ready_not_terminated _ _ _ _ _ _ _ (co_wf _ _ _ _ _ _ _ C) R Hl) as [Hl10 _].
  eapply wp_prvAddCurrentTaskToDelayedList; [exact C|done|done|done|exact Hl|done|by left|done|].
  intros k' C' B. apply HQ; [|done]. by eapply inv_blocked.
Qed.

Lemma wp_vTaskDelay n c Q k :
  inv idle k → running k c → c ≠ idle → uxSchedulerSuspended (data k) = 0 → 0 <= n < 4294967296 →
  (∀ k', inv idle k' → (if n =? 0 then quiet k k' else
     time_left k' c n ∧ xTickCount (data k') = xTickCount (data k) ∧ uxSchedulerSuspended (data k') = 0 ∧
     ∀ u, u ≠ c → same_place k k' u) → Q () k') →
  wp (vTaskDelay n) Q k.
Proof.
  intros I R Hci Hs Hn HQ. pose proof (td_tick _ _ _ _ (co_timed _ _ _ _ _ _ _ (inv_core _ _ I))) as Htk.
  unfold vTaskDelay. wp_step. destruct (Z.ltb_spec 0 n) as [Hp|Hp].
  - wp_step. apply (wp_vTaskSuspendAll idle); [done|rewrite Hs; lia|]. intros k1 E1 I1.
    assert (R1 : running k1 c) by by rewrite E1.
    wp_step. apply (wp_block n false c); [done..|lia|]. intros k2 I2 B.
    destruct (bf_data _ _ _ _ _ B) as [v E2].
    apply (wp_xTaskResumeAll idle); [done|rewrite E2, E1; simpl; lia|]. intros k3 y I3 Re Hs3.
    pose proof (inv_calm _ _ I) as [_ Hcalm]. destruct (Hcalm Hs) as [Hpend Hn8].
    assert (Q3 : quiet k2 k3).
    { apply resumed_quiet; [done|by rewrite E2, E1|]. intros i Hi. destruct (decide (i = St c)) as [->|Hne].
      - by destruct (wf_st _ _ _ _ _ (co_wf _ _ _ _ _ _ _ (inv_core _ _ I2)) _ _ Hi).
      - apply (bf_other _ _ _ _ _ B) in Hi; [|done]. rewrite E1 in Hi. by apply (Hn8 i). }
    assert (Fin : ∀ k', inv idle k' → quiet k3 k' → uxSchedulerSuspended (data k') = 0 → Q () k').
    { intros k' I' Q' Hs'. pose proof (quiet_trans _ _ _ Q3 Q') as Q2. apply HQ; [done|].
      rewrite (proj2 (Z.eqb_neq _ _)) by lia. split_and!.
      - apply (time_left_quiet k2); [done|]. apply (blocked_time_left k1 _ _ _ B); [by rewrite E1|lia].
      - destruct Q2 as [[= _ ->]  _ _]. by rewrite E2, E1.
      - done.
      - intros u Hu l. pose proof (blocked_others _ _ _ _ _ _ B Hu l) as P1. rewrite E1 in P1.
        pose proof (qu_place _ _ Q2 u l). naive_solver. }
    wp_step; intros _; [|by apply Fin; [|apply quiet_refl|]].
    apply (wp_yield idle); [apply I3..|]. intros k4 S4 I4. apply Fin; [done| |by rewrite (switched_susp _ _ S4)].
    apply switched_quiet; [apply I3|done].
  - assert (n = 0) as -> by lia. wp_step. wp_step; [|done]. intros _.
    apply (wp_yield idle); [apply I..|]. intros k4 S4 I4. apply HQ; [done|].
    apply switched_quiet; [apply I|done].
Qed.

(** [should_delay] on the times themselves: [P] the previous wake time, [T]
    now, both counted without wrapping, at most one wrap apart. *)
Lemma should_delay_spec P T inc :
  0 ≤ P ≤ T → T - P < 4294967296 → 0 < inc < 4294967296 →
  should_delay (u32 T) (u32 P) (u32 (u32 P + inc)) = true ↔ T < P + inc.
Proof.
  intros H1 H2 H3. unfold should_delay.
  destruct (Z.ltb_spec (u32 T) (u32 P));
    rewrite ?andb_true_iff, ?orb_true_iff, !Z.ltb_lt; word_lia.
Qed.

Lemma wp_xTaskDelayUntil prev inc c Q k :
  inv idle k → running k c → c ≠ idle → uxSchedulerSuspended (data k) = 0 → is_u32 prev → is_u32 inc →
  (∀ k', inv idle k' →
     let w := u32 (prev + inc) in
     let b := should_delay (xTickCount (data k)) prev w in
     (if b then time_left k' c (u32 (w - xTickCount (data k))) else same_place k k' c) →
     Q (w, b) k') →
  wp (xTaskDelayUntil prev inc) Q k.
Proof.
  intros I R Hci Hs Hprev Hinc HQ. pose proof (td_tick _ _ _ _ (co_timed _ _ _ _ _ _ _ (inv_core _ _ I))) as Htk.
  unfold xTaskDelayUntil. wp_step. apply (wp_vTaskSuspendAll idle); [done|rewrite Hs; lia|]. intros k1 E1 I1.
  assert (R1 : running k1 c) by by rewrite E1.
  do 2 wp_step. cbv zeta. assert (Et : xTickCount (data k1) = xTickCount (data k)) by by rewrite E1.
  rewrite Et. set (w := u32 (prev + inc)) in *. set (b := should_delay (xTickCount (data k)) prev w) in *.
  pose proof (inv_calm _ _ I) as [_ Hcalm]. destruct (Hcalm Hs) as [Hpend Hn8].
  assert (Tail : ∀ k2, inv idle k2 → uxSchedulerSuspended (data k2) = 1 → xPendedTicks (data k2) = 0 →
    (∀ i, ¬ holds (lists k2) xPendingReadyList i) →
    (∀ k', quiet k2 k' → if b then time_left k' c (u32 (w - xTickCount (data k))) else same_place k k' c) →
    wp (y ← xTaskResumeAll; when (negb y) portYIELD;; mret (w, b)) Q k2).
  { intros k2 I2 Hs2 Hp2 Hn2 Hk2. wp_step. apply (wp_xTaskResumeAll idle); [done..|]. intros k3 y I3 Re _.
    pose proof (resumed_quiet _ _ Re Hp2 Hn2) as Q3. do 2 wp_step; intros _.
    - apply (wp_yield idle); [apply I3..|]. intros k4 S4 I4. wp_step. apply HQ; [done|]. apply Hk2.
      eapply quiet_trans; [exact Q3|]. apply switched_quiet; [apply I3|done].
    - wp_step. apply HQ; [done|]. by apply Hk2. }
  do 2 wp_step; intros Hb.
  - assert (Hn : 0 < u32 (w - xTickCount (data k)) < 4294967296).
    { unfold b, should_delay in Hb. unfold w in *. clear -Hb Hprev Hinc Htk. unfold is_u32, u32 in *.
      destruct (Z.ltb_spec (xTickCount (data k)) prev);
        rewrite ?andb_true_iff, ?orb_true_iff, ?Z.ltb_lt in Hb; Z.to_euclidean_division_equations; lia. }
    apply (wp_block _ false c); [done..|]. intros k2 I2 B. destruct (bf_data _ _ _ _ _ B) as [v E2].
    apply Tail; [done|rewrite E2, E1; simpl; lia|by rewrite E2, E1| |].
    + intros i Hi. destruct (decide (i = St c)) as [->|Hne].
      * by destruct (wf_st _ _ _ _ _ (co_wf _ _ _ _ _ _ _ (inv_core _ _ I2)) _ _ Hi).
      * apply (bf_other _ _ _ _ _ B) in Hi; [|done]. rewrite E1 in Hi. by apply (Hn8 i).
    + intros k' Qu. rewrite Hb. apply (time_left_quiet k2); [done|].
      apply (blocked_time_left k1 _ _ _ B); [by rewrite Et|done].
  - rewrite E1 in *. apply Tail; [done|simpl; lia|done|done|]. intros k' Qu. rewrite Hb. apply (qu_place _ _ Qu).
Qed.

Lemma wp_xTaskCatchUpTicks n Q k :
  inv idle k → uxSchedulerSuspended (data k) = 0 → is_u32 n →
  (∀ k' y, inv idle k' → (∃ k1 v k2, quiet k k1 ∧
     ticks (Z.to_nat n) (MkKernel (lists k1) (set_xNextTaskUnblockTime v (data k1))) k2 ∧ quiet k2 k') → Q y k') →
  wp (xTaskCatchUpTicks n) Q k.
Proof.
  intros I Hs Hn HQ. unfold xTaskCatchUpTicks. pose proof (inv_calm _ _ I) as [[_ Hw] Hcalm].
  destruct (Hcalm Hs) as [Hpend Hn8]. wp_step.
  apply (wp_vTaskSuspendAll idle); [done|rewrite Hs; lia|]. intros k1 E1 I1. do 2 wp_step.
  set (k2 := MkKernel (lists k1) (set_xPendedTicks (u32 (xPendedTicks (data k1) + n)) (data k1))).
  assert (E2 : xPendedTicks (data k2) = n) by (unfold k2; simpl; rewrite E1; simpl; rewrite Hpend; by apply u32_id).
  assert (I2 : inv idle k2).
  { destruct I1 as [C Hr [Cw Cc] Tr]. constructor; simpl; [by apply (core_data _ _ _ _ _ _ (data k1))|done| |by apply (top_runs_data _ (data k1))].
    split; [split; [apply Cw|apply u32_range]|]. simpl. rewrite E1. simpl. rewrite Hs. done. }
  apply (wp_xTaskResumeAll idle); [done|unfold k2; rewrite E1; simpl; lia|].
  intros k3 y I3 (k4 & v & k5 & Up & Tk & Qu) _. apply HQ; [done|]. exists k4, v, k5. rewrite E2 in Tk. split_and!; [|done|done].
  eapply (quiet_trans _ (set_susp 0 k2)); [unfold k2, set_susp; rewrite E1; by apply (quiet_data k)|].
  apply (unpended_quiet _ _ Up). unfold k2. rewrite E1. done.
Qed.

(** ** Events *)
Definition event_list k l : Prop := (10 < l)%positive ∧ is_Some (a_lists (lists k) !! l).

Lemma event_not_state l : (10 < l)%positive → ¬ state_list l ∧ l ≠ xTasksWaitingTermination ∧ l ≠ xPendingReadyList.
Proof. intros. split_and!; list_lia. Qed.

(** The running task has put its event item on [l] and blocks. *)
Lemma wp_wait_and_block n c l A1 o Q k :
  inv idle k → running k c → c ≠ idle → 0 < n < 4294967296 → (10 < l)%positive →
  moved (lists k) A1 (Ev c) (Some l) o →
  (∀ k', inv idle k' → blocked_for n true c (MkKernel A1 (data k)) k' → Q () k') →
  wp (prvAddCurrentTaskToDelayedList n true) Q (MkKernel A1 (data k)).
Proof.
  intros I [Hc [p R]] Hci Hn Hl M HQ. pose proof I as [C Hr Ca Tr]. destruct (event_not_state l Hl) as (L1 & L2 & L3).
  pose proof (co_wf _ _ _ _ _ _ _ C) as W. pose proof R as (rl & Hp & Hrl).
  destruct (ready_not_terminated _ _ _ _ _ _ _ W R Hrl) as [Hrl10 _].
  assert (C1 : core idle None (Some c) (xTickCount (data k) + 1) (xNextTaskUnblockTime (data k)) A1 (data k)).
  { eapply core_insert_ev; [exact C|exact M|done|done| |right; by left|by right].
    intros Ht. apply Hrl10. by apply (lo_unique _ (wf_ok _ _ _ _ _ W) _ _ (St c)). }
  eapply (wp_prvAddCurrentTaskToDelayedList _ _ _ _ _ rl _ (MkKernel A1 (data k))); simpl; [exact C1|done|done|done| |done|by right|done|].
  { apply (moved_holds_ne _ _ _ _ _ _ _ M); [item_ne|done]. }
  intros k' C' B. apply HQ; [|done]. eapply (inv_blocked _ (MkKernel A1 (data k))); [exact C1|done| | |exact B|done]; simpl.
  - apply (calm_moved _ _ _ _ _ _ Ca M). congruence.
  - apply (top_runs_sub (lists k) _ (data k)); try done. intros q u. apply (ready_moved _ _ _ _ _ _ _ M).
    intros ? [= <-] Hq. pose proof (ready_list_bound _ _ Hq). lia.
Qed.

Lemma wp_vTaskPlaceOnEventList l n c Q k :
  inv idle k → running k c → c ≠ idle → 0 < n < 4294967296 → event_list k l →
  (∀ k' A1, inv idle k' → moved (lists k) A1 (Ev c) (Some l) True →
     blocked_for n true c (MkKernel A1 (data k)) k' → Q () k') →
  wp (vTaskPlaceOnEventList l n) Q k.
Proof.
  intros I R Hci Hn [Hl Ex] HQ. pose proof R as [Hc [p Rp]]. pose proof (co_wf _ _ _ _ _ _ _ (inv_core _ _ I)) as W.
  unfold vTaskPlaceOnEventList. wp_step. apply (wp_current _ c); [done|]. wp_step.
  destruct (wf_current _ _ _ _ _ W) as (c' & Hc' & Ht). simplify_eq.
  apply wp_listINSERT; [apply W|done|by apply (wf_ev_item _ _ _ _ _ _ W)| |].
  { intros l'. by apply (ready_ev_free _ _ _ _ _ W Rp). }
  intros A1 M. eapply wp_wait_and_block; [done..|exact M|]. intros k' I' B. by eapply HQ.
Qed.

Lemma inv_set_value i v k :
  inv idle k → (∀ l, delayed_list l → ¬ holds (lists k) l i) → inv idle (MkKernel (a_set_value i v (lists k)) (data k)).
Proof.
  intros [C Hr Ca Tr] Hi. constructor; simpl; [by apply core_set_value|done|by apply (calm_same_place (lists k))|].
  apply (top_runs_sub (lists k) _ (data k)); done.
Qed.

Lemma ev_not_delayed x y A d t l : wf idle x y A d → delayed_list l → ¬ holds A l (Ev t).
Proof. intros W Dl Hh. by apply (wf_ev _ _ _ _ _ W _ _ Hh), delayed_state. Qed.

Lemma in_use_word v : is_u32 v → is_u32 (Z.lor v taskEVENT_LIST_ITEM_VALUE_IN_USE).
Proof.
  unfold is_u32, taskEVENT_LIST_ITEM_VALUE_IN_USE. intros Hv. split; [apply Z.lor_nonneg; lia|].
  destruct (Z.eq_dec (Z.lor v 2147483648) 0) as [->|]; [done|].
  assert (0 ≤ Z.lor v 2147483648) by (apply Z.lor_nonneg; lia).
  change 4294967296 with (2 ^ 32). apply Z.log2_lt_pow2; [lia|]. rewrite Z.log2_lor by lia.
  apply Z.max_lub_lt; [|done]. destruct (Z.eq_dec v 0) as [->|]; [done|]. apply Z.log2_lt_pow2; lia.
Qed.

Lemma wp_vTaskPlaceOnUnorderedEventList l v n c Q k :
  inv idle k → running k c → c ≠ idle → 0 < n < 4294967296 → event_list k l → is_u32 v →
  (∀ k' A1, inv idle k' →
     moved (a_set_value (Ev c) (Z.lor v taskEVENT_LIST_ITEM_VALUE_IN_USE) (lists k)) A1 (Ev c) (Some l) False →
     blocked_for n true c (MkKernel A1 (data k)) k' → Q () k') →
  wp (vTaskPlaceOnUnorderedEventList l v n) Q k.
Proof.
  intros I R Hci Hn [Hl Ex] Hv HQ. pose proof R as [Hc [p Rp]]. pose proof (co_wf _ _ _ _ _ _ _ (inv_core _ _ I)) as W.
  unfold vTaskPlaceOnUnorderedEventList. wp_step. apply (wp_current _ c); [done|].
  destruct (wf_current _ _ _ _ _ W) as (c' & Hc' & Ht). simplify_eq.
  pose proof (wf_ev_item _ _ _ _ _ _ W Ht) as Hi. wp_step. apply wp_listSET_LIST_ITEM_VALUE; [done| |].
  { by apply in_use_word. }
  set (k1 := MkKernel (a_set_value (Ev c) (Z.lor v taskEVENT_LIST_ITEM_VALUE_IN_USE) (lists k)) (data k)).
  assert (I1 : inv idle k1) by (apply inv_set_value; [done|]; intros l' Dl; by apply (ev_not_delayed _ _ _ _ _ _ W)).
  pose proof (co_wf _ _ _ _ _ _ _ (inv_core _ _ I1)) as W1.
  wp_step. apply (wp_listINSERT_END k1); [apply W1|done|done| |].
  { intros l'. by apply (ready_ev_free _ _ p _ _ W1). }
  intros A1 M. apply (wp_wait_and_block n c l A1 False Q k1); [done..|]. intros k' I' B. by apply (HQ k' A1).
Qed.

(** ** Waking *)
Record readied (T : TCB) t k k' : Prop := {
  re_data : ∃ top, data k' = set_uxTopReadyPriority top (data k);
  re_val : a_val (lists k') = a_val (lists k);
  re_awake : awake k' t;
  re_rest : ∀ u, u ≠ t → same_place k k' u;
  re_ready : ∀ p u, ready (lists k') p u → ready (lists k) p u ∨ (u = t ∧ p = uxPriority T);
  re_lists : ∀ l, is_Some (a_lists (lists k') !! l) ↔ is_Some (a_lists (lists k) !! l);
  re_events : ∀ l, (10 < l)%positive → a_lists (lists k') !! l = a_lists (lists k) !! l;
  re_calm : ∀ m, calm m (lists k) (data k) → calm m (lists k') (data k') }.

(** From any list but that of the deleted tasks to the ready list. *)
Lemma wp_ready_again lo nx t T l Q k :
  core idle None None lo nx (lists k) (data k) → holds (lists k) l (St t) → l ≠ xTasksWaitingTermination →
  (∀ l, ¬ holds (lists k) l (Ev t)) → tcbs (data k) !! t = Some T →
  (∀ k', core idle None None lo nx (lists k') (data k') → readied T t k k' → Q () k') →
  wp (listREMOVE_ITEM (St t)) (λ _, wp (prvAddTaskToReadyList t) Q) k.
Proof.
  intros C Hl Hl10 He HT HQ. pose proof (co_wf _ _ _ _ _ _ _ C) as W.
  apply (wp_listREMOVE_ITEM _ (wf_ok _ _ _ _ _ W) l); [done|]. intros A1 M1.
  pose proof (core_remove_st _ _ _ _ _ _ _ _ _ _ C Hl Hl10 M1) as C1.
  assert (He1 : ∀ l', ¬ holds A1 l' (Ev t)) by (intros l'; by rewrite (moved_holds_ne _ _ _ _ _ _ _ M1) by item_ne).
  apply (wp_prvAddTaskToReadyList idle None lo nx t T); simpl; [done|done|by left|done|].
  intros A2 rl d' Ed' Hrl M2 C2. pose proof (ready_list_bound _ _ Hrl).
  assert (M1' : moved A1 A1 (Ev t) None False) by (apply moved_refl; [apply M1|done]).
  destruct (ready_task_step k A1 A1 A2 t T rl False False False d' HT) as [Aw Pl]; [by rewrite Ed'|done..|].
  apply HQ; [done|]. constructor; simpl; [by eexists| |done|done| | | |].
  - by rewrite (mv_val _ _ _ _ _ M2), (mv_val _ _ _ _ _ M1).
  - intros p u. apply (ready_three _ _ _ _ _ _ _ _ _ _ _ _ _ _ M1 M1' M2 Hrl).
  - intros l'. by rewrite (mv_lists _ _ _ _ _ M2), (mv_lists _ _ _ _ _ M1).
  - intros l' Hl'. destruct (event_not_state l' Hl') as (Sl & _ & _).
    assert (Hn : ¬ holds (lists k) l' (St t)) by (intros Hh; by apply Sl, (wf_st _ _ _ _ _ W t)).
    rewrite (mv_other _ _ _ _ _ M2), (mv_other _ _ _ _ _ M1); [done|done|done|intros [= ->]; lia|].
    rewrite (mv_holds _ _ _ _ _ M1). naive_solver.
  - intros m Ca. apply (calm_three _ _ _ _ (data k) d' _ _ _ _ _ _ _ M1 M1' M2); rewrite ?Ed'; try done. list_lia.
Qed.

(** After waking [t]: a switch is noted when its priority is above. *)
Lemma top_readied T t k k' d' :
  top_runs (lists k) (data k) → readied T t k k' → tcbs (data k) !! t = Some T →
  (∃ y, d' = set_xYieldPending y (data k') ∧
     (y = false → xYieldPending (data k) = false ∧
        ∀ c C, pxCurrentTCB (data k) = Some c → tcbs (data k) !! c = Some C → uxPriority T ≤ uxPriority C)) →
  top_runs (lists k') d'.
Proof.
  intros Tr Re HT (y & -> & Hy). destruct (re_data _ _ _ _ Re) as [top E].
  apply (top_runs_ready (lists k) _ (data k) _ t T Tr HT); rewrite ?E; simpl; try done.
  - apply (re_ready _ _ _ _ Re).
  - intros Y. by destruct (Hy Y).
  - intros Y. by destruct (Hy Y).
Qed.

Lemma set_yield_id d : set_xYieldPending (xYieldPending d) d = d.
Proof. by destruct d. Qed.

Lemma yield_if_above T t k k' (b : bool) c C Q :
  core idle None None (xTickCount (data k) + 1) (xNextTaskUnblockTime (data k)) (lists k') (data k') →
  xSchedulerRunning (data k) = true → calm 0 (lists k) (data k) → top_runs (lists k) (data k) →
  readied T t k k' → tcbs (data k) !! t = Some T →
  pxCurrentTCB (data k) = Some c → tcbs (data k) !! c = Some C → (b = false → uxPriority T ≤ uxPriority C) →
  (∀ k2 y, inv idle k2 → k2 = MkKernel (lists k') (set_xYieldPending y (data k')) → Q () k2) →
  wp (when b (upd (set_xYieldPending true))) Q k'.
Proof.
  intros C' Hr Ca Tr Re HT Hc HC Hb HQ. destruct (re_data _ _ _ _ Re) as [top E].
  assert (I : ∀ y, (y = false → xYieldPending (data k) = false ∧ uxPriority T ≤ uxPriority C) →
    inv idle (MkKernel (lists k') (set_xYieldPending y (data k')))).
  { intros y Hy. constructor; simpl.
    - rewrite E in *. by apply (core_data _ _ _ _ _ _ (set_uxTopReadyPriority top (data k))).
    - by rewrite E.
    - apply (calm_data _ (data k')); [by apply (re_calm _ _ _ _ Re)|done..].
    - apply (top_readied T t k k'); [done..|]. exists y. split; [done|]. intros Y. destruct (Hy Y). split; [done|].
      intros c' C0 ? ?. by simplify_eq. }
  wp_step; intros Hb'.
  - wp_step. by eapply HQ; [apply I|].
  - specialize (I (xYieldPending (data k'))). rewrite set_yield_id, kernel_eta in I.
    apply (HQ k' (xYieldPending (data k'))); [|by rewrite set_yield_id, kernel_eta]. apply I.
    rewrite E. simpl. auto.
Qed.

Lemma inv_remove_ev k A' t o :
  inv idle k → moved (lists k) A' (Ev t) None o → inv idle (MkKernel A' (data k)).
Proof.
  intros [C Hr Ca Tr] M. constructor; simpl; [by eapply core_remove_ev|done|by eapply calm_moved|].
  apply (top_runs_sub (lists k) _ (data k)); try done. intros p u. by apply (ready_moved _ _ _ _ _ _ _ M).
Qed.

(** Taking a blocked task's event item off, to hold it back or to ready it. *)
Lemma waiting_not_terminated k t l : inv idle k → holds (lists k) l (Ev t) →
  ∃ l', blocked_list l' ∧ holds (lists k) l' (St t).
Proof. intros I Hl. by apply (wf_waiting _ _ _ _ _ (co_wf _ _ _ _ _ _ _ (inv_core _ _ I)) t l Hl). Qed.

Lemma inv_pend k t A1 A2 o1 o2 Q (b : bool) :
  inv idle k → moved (lists k) A1 (Ev t) None o1 → moved A1 A2 (Ev t) (Some xPendingReadyList) o2 →
  (∃ l', blocked_list l' ∧ holds (lists k) l' (St t)) → uxSchedulerSuspended (data k) ≠ 0 →
  (∀ k2 y, inv idle k2 → k2 = MkKernel A2 (set_xYieldPending y (data k)) → Q () k2) →
  wp (when b (upd (set_xYieldPending true))) Q (MkKernel A2 (data k)).
Proof.
  intros I M1 M2 (l' & Bl & Hl') Hs HQ. pose proof (inv_remove_ev _ _ _ _ I M1) as [C1 Hr1 Ca1 Tr1].
  assert (Hl1 : holds A1 l' (St t)) by (apply (moved_holds_ne _ _ _ _ _ _ _ M1); [item_ne|done]).
  assert (I2 : ∀ y, (y = false → xYieldPending (data k) = false) → inv idle (MkKernel A2 (set_xYieldPending y (data k)))).
  { intros y Hy. constructor; simpl.
    - apply (core_data _ _ _ _ _ _ (data k)); [|done]. eapply core_insert_ev; [exact C1|exact M2|list_lia|list_lia| |right; right; by exists l'|by left].
      intros Ht. assert (l' = xTasksWaitingTermination) as -> by by apply (lo_unique _ (mv_ok _ _ _ _ _ M1) _ _ (St t)).
      list_lia.
    - done.
    - apply (calm_data _ (data k)); [|done..]. by apply (calm_moved _ _ _ _ _ _ Ca1 M2).
    - apply (top_runs_sub A1 _ (data k)); try done. intros p u. apply (ready_moved _ _ _ _ _ _ _ M2).
      intros ? [= <-] Hp. pose proof (ready_list_bound _ _ Hp). list_lia. }
  wp_step; intros _; [wp_step; by eapply HQ; [apply I2|]|].
  specialize (I2 (xYieldPending (data k)) ltac:(done)). rewrite set_yield_id in I2.
  apply (HQ _ (xYieldPending (data k))); [done|by rewrite set_yield_id].
Qed.

(** [t] is ready, or held back while the scheduler is suspended; no other task
    moved. *)
Record woke t k k' : Prop := {
  wo_data : ∃ top y, data k' = set_uxTopReadyPriority top (set_xYieldPending y (data k));
  wo_rest : ∀ u, u ≠ t → same_place k k' u;
  wo_free : ∀ l, l ≠ xPendingReadyList → ¬ holds (lists k') l (Ev t);
  wo_where : if uxSchedulerSuspended (data k) =? 0 then awake k' t
             else holds (lists k') xPendingReadyList (Ev t) ∧ ∀ l, holds (lists k') l (St t) ↔ holds (lists k) l (St t);
  wo_lists : ∀ l, is_Some (a_lists (lists k') !! l) ↔ is_Some (a_lists (lists k) !! l) }.

(** Readying a task, or holding it back, once it waits for no event. *)
Lemma wp_ready_or_pend t T l' Q k :
  inv idle k → tcbs (data k) !! t = Some T → (∀ l, ¬ holds (lists k) l (Ev t)) →
  holds (lists k) l' (St t) → l' ≠ xTasksWaitingTermination →
  (uxSchedulerSuspended (data k) ≠ 0 → blocked_list l') →
  (∀ k' y, inv idle k' → woke t k k' → Q y k') →
  wp (ready_or_pend t) Q k.
Proof.
  intros I HT Hf Hl' Hl10 Bl HQ. pose proof I as [C Hr Ca Tr]. pose proof (co_wf _ _ _ _ _ _ _ C) as W.
  destruct (wf_current _ _ _ _ _ W) as (c & Hc & [Cu HC]).
  assert (Tail : ∀ b k1, tcbs (data k1) = tcbs (data k) → pxCurrentTCB (data k1) = pxCurrentTCB (data k) →
    (∀ Q', (∀ k2 y, inv idle k2 → k2 = MkKernel (lists k1) (set_xYieldPending y (data k1)) → Q' () k2) →
      (b = false → uxPriority T ≤ uxPriority Cu) → wp (when b (upd (set_xYieldPending true))) Q' k1) →
    (∀ y, woke t k (MkKernel (lists k1) (set_xYieldPending y (data k1)))) →
    b = (uxPriority Cu <? uxPriority T) →
    wp (p ← priority_of t; c ← current; pc ← priority_of c; when (pc <? p) (upd (set_xYieldPending true));;
        mret (pc <? p)) Q k1).
  { intros b k1 E1 E2 Hw Aw ->. wp_step. apply (wp_priority_of _ _ T); [by rewrite E1|].
    wp_step. apply (wp_current _ c); [by rewrite E2|]. wp_step. apply (wp_priority_of _ _ Cu); [by rewrite E1|].
    wp_step. apply Hw; [|intros ?%Z.ltb_ge; lia]. intros k2 y I2 ->. wp_step. by apply HQ. }
  unfold ready_or_pend. do 3 wp_step. destruct (Z.eqb_spec (uxSchedulerSuspended (data k)) 0) as [Hs|Hs].
  - wp_step. apply (wp_ready_again (xTickCount (data k) + 1) (xNextTaskUnblockTime (data k)) t T l');
      [done..|].
    intros k2 C2 Re. destruct (re_data _ _ _ _ Re) as [top E2]. eapply Tail; try done; [by rewrite E2..| |].
    + intros Q' HQ' Hb. by eapply (yield_if_above T t k k2 _ c Cu).
    + intros y. constructor; simpl; [exists top, y; by rewrite E2|apply Re|intros ? _; apply Re| |apply Re].
      rewrite Hs. apply Re.
  - apply wp_listINSERT_END; simpl; [apply C|apply C; list_lia| |done|].
    { apply (wf_ev_item _ _ _ _ _ _ W). by exists T. }
    assert (M1 : moved (lists k) (lists k) (Ev t) None False) by (apply moved_refl; [apply W|done]).
    intros A2 M2. eapply (Tail _ (MkKernel A2 (data k))); simpl; try done.
    + intros Q' HQ' Hb. apply (inv_pend k t (lists k) A2 False False); [done..| |done|done]. exists l'. auto.
    + intros y. constructor; simpl; [exists (uxTopReadyPriority (data k)), y; by destruct (data k)| | | |apply M2].
      * intros u Hu l2. simpl. split; apply (moved_holds_ne _ _ _ _ _ _ _ M2); item_ne.
      * intros l2 Hl2. rewrite (moved_holds_eq _ _ _ _ _ _ M2). congruence.
      * rewrite (proj2 (Z.eqb_neq _ _)) by done. split; [by apply (moved_holds_eq _ _ _ _ _ _ M2)|].
        intros l2. apply (moved_holds_ne _ _ _ _ _ _ _ M2). item_ne.
Qed.

(** The task at the head of [l] leaves it. *)
Lemma wp_xTaskRemoveFromEventList l a i xs Q k :
  inv idle k → (10 < l)%positive → a_lists (lists k) !! l = Some a → elems a = i :: xs →
  (∀ k' y t, inv idle k' → i = Ev t → woke t k k' → Q y k') →
  wp (xTaskRemoveFromEventList l) Q k.
Proof.
  intros I Hl Ha Ei HQ. pose proof (co_wf _ _ _ _ _ _ _ (inv_core _ _ I)) as W.
  unfold xTaskRemoveFromEventList. wp_step. apply (wp_head_owner _ _ a i xs); [done..|].
  assert (Hi : holds (lists k) l i) by (exists a; split; [done|rewrite Ei; by left]).
  destruct (event_not_state l Hl) as (L1 & L2 & L3).
  destruct (wf_on_event_list _ _ _ _ _ l i W L1 Hi) as (t & -> & [T HT] & ->).
  destruct (waiting_not_terminated _ _ _ I Hi) as (l' & Bl & Hl').
  wp_step. apply (wp_listREMOVE_ITEM _ (wf_ok _ _ _ _ _ W) _ _ _ Hi). intros A1 M1.
  apply (wp_ready_or_pend t T l'); simpl; [by eapply inv_remove_ev|done| | |list_lia|done|].
  - intros ?. by rewrite (moved_holds_eq _ _ _ _ _ _ M1).
  - apply (moved_holds_ne _ _ _ _ _ _ _ M1); [item_ne|done].
  - intros k' y I' [Wd Wr Wf Ww Wl]. apply (HQ k' y t); [done..|]. constructor; simpl in *; [done| |done| |].
    + intros u Hu l2. specialize (Wr u Hu l2). simpl in Wr.
      rewrite !(moved_holds_ne _ _ _ _ _ _ _ M1) in Wr by item_ne. done.
    + destruct (_ =? 0); [done|]. destruct Ww as [H1 H2]. split; [done|]. intros l2. rewrite H2.
      apply (moved_holds_ne _ _ _ _ _ _ _ M1). item_ne.
    + intros l2. rewrite Wl. apply M1.
Qed.

(** [t] is ready, with [w] in its event item. *)
Record unhooked (w : Z) t k k' : Prop := {
  uh_data : ∃ top y, data k' = set_uxTopReadyPriority top (set_xYieldPending y (data k));
  uh_val : a_val (lists k') = a_val (a_set_value (Ev t) w (lists k));
  uh_awake : awake k' t;
  uh_rest : ∀ u, u ≠ t → same_place k k' u;
  uh_events : ∀ l a, (10 < l)%positive → a_lists (lists k) !! l = Some a →
    a_lists (lists k') !! l = Some (if decide (Ev t ∈ elems a) then a_remove (Ev t) a else a);
  uh_lists : ∀ l, is_Some (a_lists (lists k') !! l) ↔ is_Some (a_lists (lists k) !! l) }.

Lemma wp_vTaskRemoveFromUnorderedEventList l t v Q k :
  inv idle k → (10 < l)%positive → holds (lists k) l (Ev t) → is_u32 v →
  (∀ k', inv idle k' → unhooked (Z.lor v taskEVENT_LIST_ITEM_VALUE_IN_USE) t k k' → Q () k') →
  wp (vTaskRemoveFromUnorderedEventList t v) Q k.
Proof.
  intros I Hl Hi Hv HQ. pose proof (co_wf _ _ _ _ _ _ _ (inv_core _ _ I)) as W0.
  destruct (wf_ev_task _ _ _ _ _ _ _ W0 Hi) as [T HT].
  unfold vTaskRemoveFromUnorderedEventList. wp_step.
  apply wp_listSET_LIST_ITEM_VALUE; [apply (wf_ev_item _ _ _ _ _ _ W0); by exists T|by apply in_use_word|].
  set (k1 := MkKernel (a_set_value (Ev t) (Z.lor v taskEVENT_LIST_ITEM_VALUE_IN_USE) (lists k)) (data k)).
  assert (I1 : inv idle k1) by (apply inv_set_value; [done|]; intros l' Dl; by apply (ev_not_delayed _ _ _ _ _ _ W0)).
  pose proof (co_wf _ _ _ _ _ _ _ (inv_core _ _ I1)) as W.
  destruct (waiting_not_terminated k1 t l I1 Hi) as (l' & Bl & Hl').
  destruct Hi as (a & Ha & Hi). wp_step.
  apply (wp_listREMOVE_ITEM_exact k1 (wf_ok _ _ _ _ _ W) l a); [done..|]. intros A1 M1 EA1.
  pose proof (inv_remove_ev _ _ _ _ I1 M1) as [C1 Hr1 Ca1 Tr1]. simpl in *.
  destruct (wf_current _ _ _ _ _ W) as (c & Hc & [Cu HC]).
  wp_step. eapply wp_mono; [apply (wp_ready_again (xTickCount (data k) + 1) (xNextTaskUnblockTime (data k)) t T l'
      (λ _ k2, readied T t (MkKernel A1 (data k)) k2 ∧
        core idle None None (xTickCount (data k) + 1) (xNextTaskUnblockTime (data k)) (lists k2) (data k2)))|].
  - done.
  - apply (moved_holds_ne _ _ _ _ _ _ _ M1); [item_ne|done].
  - list_lia.
  - intros ?. by rewrite (moved_holds_eq _ _ _ _ _ _ M1).
  - done.
  - auto.
  - intros [] k2 H2. wp_step. eapply wp_mono; [exact H2|]. intros [] k3 [Re C3]. simpl.
    destruct (re_data _ _ _ _ Re) as [top E3].
    wp_step. apply (wp_priority_of _ _ T); [by rewrite E3|].
    wp_step. apply (wp_current _ c); [by rewrite E3|]. wp_step. apply (wp_priority_of _ _ Cu); [by rewrite E3|].
    apply (yield_if_above T t (MkKernel A1 (data k)) k3 _ c Cu); simpl; try done; [intros ?%Z.ltb_ge; lia|].
    intros k4 y I4 ->. apply HQ; [done|]. constructor; simpl.
    + exists top, y. by rewrite E3.
    + rewrite (re_val _ _ _ _ Re). simpl. by rewrite (mv_val _ _ _ _ _ M1).
    + by apply (awake_same_place k3), Re.
    + intros u Hu l2. pose proof (re_rest _ _ _ _ Re u Hu l2) as P. simpl in P.
      rewrite !(moved_holds_ne _ _ _ _ _ _ _ M1) in P by item_ne. done.
    + intros l2 a2 Hl2 Ha2. rewrite (re_events _ _ _ _ Re) by done. simpl. rewrite EA1. simpl.
      destruct (decide (l2 = l)) as [->|Hne].
      * rewrite lookup_insert_eq. rewrite Ha in Ha2. injection Ha2 as <-. by rewrite decide_True.
      * rewrite lookup_insert_ne by done. rewrite decide_False; [done|]. intros Hi2.
        apply Hne. apply (lo_unique _ (wf_ok _ _ _ _ _ W0) _ _ (Ev t)); [by exists a2|by exists a].
    + intros l2. rewrite (re_lists _ _ _ _ Re). simpl. apply M1.
Qed.

(** ** Suspending and resuming a task *)
Lemma wp_prvGetTCBFromHandle h Q k :
  wf idle None None (lists k) (data k) →
  (∀ t, (match h with Some u => t = u | None => pxCurrentTCB (data k) = Some t end) → Q t k) →
  wp (prvGetTCBFromHandle h) Q k.
Proof.
  intros W HQ. destruct h as [u|]; simpl; [wp_step; by apply HQ|].
  destruct (wf_current _ _ _ _ _ W) as (c & Hc & _). apply (wp_current _ c); auto.
Qed.

(** Changing the notification state only. *)
Lemma inv_stop_waiting k t T :
  core idle None None (xTickCount (data k) + 1) (xNextTaskUnblockTime (data k)) (lists k) (data k) →
  tcbs (data k) !! t = Some T →
  core idle None None (xTickCount (data k) + 1) (xNextTaskUnblockTime (data k)) (lists k)
    (set_tcbs (<[t := stop_waiting T]> (tcbs (data k))) (data k)).
Proof.
  intros [W Ti [Cn Cd Cg]] HT. constructor.
  - apply (wf_set_tcb _ _ _ _ _ t T); [done|done| |by left].
    destruct (wf_tcb _ _ _ _ _ W _ _ HT). constructor; simpl; [done|done|]. by rewrite length_fmap.
  - eapply timed_data; [exact Ti|done..|lia|lia].
  - constructor; simpl; [|done|done]. rewrite map_size_insert, HT. done.
Qed.

Lemma top_set_tcb k t T T' A' d' :
  top_runs (lists k) (data k) → tcbs (data k) !! t = Some T → uxPriority T' = uxPriority T →
  (∀ p u, ready A' p u → ready (lists k) p u) → tcbs d' = <[t := T']> (tcbs (data k)) →
  pxCurrentTCB d' = pxCurrentTCB (data k) → xYieldPending d' = xYieldPending (data k) → top_runs A' d'.
Proof.
  intros Tr HT Hp HR E1 E2 E3 Y c C p u. rewrite E1, E2. intros Hc HC Hu%HR. rewrite E3 in Y.
  apply lookup_insert_Some in HC as [[<- <-]|[_ HC]]; [rewrite Hp; by apply (Tr Y t T p u)|by apply (Tr Y c C p u)].
Qed.

Lemma wp_vTaskSuspend h Q k :
  inv idle k → (∀ t, (match h with Some u => t = u | None => pxCurrentTCB (data k) = Some t end) → alive k t ∧ t ≠ idle) →
  (∀ k' t, inv idle k' → holds (lists k') xSuspendedTaskList (St t) → (∀ l, ¬ holds (lists k') l (Ev t)) → Q () k') →
  wp (vTaskSuspend h) Q k.
Proof.
  intros I Ht HQ. pose proof I as [C Hr Ca Tr]. pose proof (co_wf _ _ _ _ _ _ _ C) as W.
  unfold vTaskSuspend. wp_step. apply wp_prvGetTCBFromHandle; [done|]. intros t Htu.
  destruct (Ht t Htu) as [[[T HT] Hal] Hti].
  destruct (wf_state _ _ _ _ _ W t) as [l Hl]; [by exists T|done|].
  assert (Hl10 : l ≠ xTasksWaitingTermination) by (intros ->; done).
  wp_step. apply (wp_listREMOVE_ITEM _ (wf_ok _ _ _ _ _ W) l); [done|]. intros A1 M1.
  pose proof (core_remove_st _ _ _ _ _ _ _ _ _ _ C Hl Hl10 M1) as C1.
  wp_step. eapply wp_remove_if_linked; [apply C1|by exists T|]. simpl. intros A2 M2.
  pose proof (core_remove_ev _ _ _ _ _ _ _ _ _ _ C1 M2) as C2. pose proof (co_wf _ _ _ _ _ _ _ C2) as W2.
  wp_step. apply wp_listINSERT_END; simpl; [apply W2|apply W2; list_lia| | |].
  { apply (wf_st_item _ _ _ _ _ _ W2). by exists T. }
  { intros l'. by apply (wf_transit _ _ _ _ _ W2). }
  intros A3 M3.
  assert (C3 : core idle None None (xTickCount (data k) + 1) (xNextTaskUnblockTime (data k)) A3 (data k))
    by (apply (core_insert_suspended idle None _ _ A2 _ _ t T False); [done|done|done|by left|done]).
  assert (Ca3 : calm 0 A3 (data k)).
  { apply (calm_moved _ _ _ _ _ _ (calm_moved _ _ _ _ _ _ (calm_moved _ _ _ _ _ _ Ca M1 ltac:(done)) M2 ltac:(done)) M3). done. }
  assert (HR : ∀ p u, ready A3 p u → ready (lists k) p u).
  { intros p u Hu. eapply ready_moved; [exact M1|done|]. eapply ready_moved; [exact M2|done|].
    eapply ready_moved; [exact M3| |done]. intros ? [= <-] Hp. pose proof (ready_list_bound _ _ Hp). list_lia. }
  pose proof (inv_stop_waiting (MkKernel A3 (data k)) t T C3 HT) as C4. simpl in C4.
  wp_step. apply (wp_wr_tcb _ _ T); [done|]. simpl.
  set (d4 := set_tcbs (<[t := stop_waiting T]> (tcbs (data k))) (data k)) in *.
  do 3 wp_step. wp_step; intros Hr4; [clear Hr4|simpl in Hr4; congruence].
  eapply (wp_prvResetNextTaskUnblockTime _ _ _ _ _ _ (MkKernel A3 d4)); [exact C4|]. simpl. intros v C5.
  set (k5 := MkKernel A3 (set_xNextTaskUnblockTime v d4)) in *.
  assert (Tr5 : top_runs (lists k5) (data k5)) by (apply (top_set_tcb k t T (stop_waiting T)); done).
  assert (Ca5 : calm 0 (lists k5) (data k5)) by by apply (calm_data _ (data k)).
  assert (Hs : ∀ k', quiet k5 k' → holds (lists k') xSuspendedTaskList (St t) ∧ ∀ l, ¬ holds (lists k') l (Ev t)).
  { intros k' Qu. split.
    - apply (qu_place _ _ Qu t). simpl. by apply (moved_holds_eq _ _ _ _ _ _ M3).
    - intros l'. rewrite (proj2 (qu_place _ _ Qu t l')). simpl. rewrite (moved_holds_ne _ _ _ _ _ _ _ M3) by item_ne.
      by rewrite (moved_holds_eq _ _ _ _ _ _ M2). }
  do 2 wp_step. simpl. case_bool_decide.
  - rewrite Hr. apply (wp_yield idle); [done..|]. intros k6 S6 I6.
    destruct (Hs k6) as [H1 H2]; [apply switched_quiet; [apply C5|done]|]. by apply (HQ k6 t).
  - wp_step. destruct (Hs k5 (quiet_refl _)) as [H1 H2]. by apply (HQ k5 t).
Qed.

(** [prvTaskIsTaskSuspended]: on the suspended list and waiting for no event. *)
Lemma wp_prvTaskIsTaskSuspended t Q k :
  wf idle None None (lists k) (data k) → is_Some (tcbs (data k) !! t) →
  Q (bool_decide (a_container (lists k) (St t) = Some xSuspendedTaskList ∧ a_container (lists k) (Ev t) = None)) k →
  wp (prvTaskIsTaskSuspended t) Q k.
Proof.
  intros W Ht HQ. unfold prvTaskIsTaskSuspended. wp_step.
  apply wp_container; [by apply (wf_st_item _ _ _ _ _ _ W)|].
  apply wp_if; [intros E1%bool_decide_eq_true|intros E1%bool_decide_eq_false].
  - wp_step. apply wp_container; [by apply (wf_ev_item _ _ _ _ _ _ W)|].
    apply wp_if; [intros E2%bool_decide_eq_true|intros E2%bool_decide_eq_false]; wp_step.
    + rewrite bool_decide_eq_false_2 in HQ; [done|]. intros [_ E]. congruence.
    + rewrite (bool_decide_ext _ (a_container (lists k) (Ev t) = None)) in HQ; [done|]. tauto.
  - wp_step. rewrite bool_decide_eq_false_2 in HQ; [done|]. tauto.
Qed.

Lemma suspended_places A t : lists_ok A →
  a_container A (St t) = Some xSuspendedTaskList ∧ a_container A (Ev t) = None →
  holds A xSuspendedTaskList (St t) ∧ ∀ l, ¬ holds A l (Ev t).
Proof. intros O [H1 H2]. split; [by apply holds_container|by apply a_container_None]. Qed.

(** Readying a task and yielding at least when its priority is above. *)
Lemma readied_yield T t k k' (b : bool) c C Q :
  core idle None None (xTickCount (data k) + 1) (xNextTaskUnblockTime (data k)) (lists k') (data k') →
  inv idle k → readied T t k k' → tcbs (data k) !! t = Some T →
  pxCurrentTCB (data k) = Some c → tcbs (data k) !! c = Some C → (b = false → uxPriority T ≤ uxPriority C) →
  (∀ k2, inv idle k2 → quiet k' k2 → Q () k2) →
  wp (when b portYIELD) Q k'.
Proof.
  intros C' [C0 Hr Ca Tr] Re HT Hc HC Hb HQ. destruct (re_data _ _ _ _ Re) as [top E].
  assert (C2 : core idle None None (xTickCount (data k') + 1) (xNextTaskUnblockTime (data k')) (lists k') (data k'))
    by by rewrite E in *.
  assert (Hr2 : xSchedulerRunning (data k') = true) by by rewrite E.
  wp_step; intros Hp.
  - apply (wp_yield idle); [done|by apply (re_calm _ _ _ _ Re)|done|]. intros k2 S2 I2. apply HQ; [done|].
    apply switched_quiet; [apply C2|done].
  - apply HQ; [|apply quiet_refl]. constructor; [done|done|by apply (re_calm _ _ _ _ Re)|].
    apply (top_readied T t k k'); [done..|]. exists (xYieldPending (data k')). split; [by rewrite set_yield_id|].
    intros Y. rewrite E in Y. split; [done|]. intros. simplify_eq. auto.
Qed.

Lemma wp_vTaskResume h Q k :
  inv idle k → (∀ t, h = Some t → is_Some (tcbs (data k) !! t)) →
  (∀ k', inv idle k' →
     (∀ t, h = Some t → pxCurrentTCB (data k) ≠ Some t →
        a_container (lists k) (St t) = Some xSuspendedTaskList → a_container (lists k) (Ev t) = None → awake k' t) → Q () k') →
  wp (vTaskResume h) Q k.
Proof.
  intros I Ht HQ. pose proof I as [C Hr Ca Tr]. pose proof (co_wf _ _ _ _ _ _ _ C) as W.
  unfold vTaskResume. do 2 wp_step. destruct h as [t|]; [|wp_step; by apply HQ].
  case_bool_decide as Hcur; [wp_step; apply HQ; [done|by intros ? [= ->]]|].
  destruct (Ht t eq_refl) as [T HT]. wp_step. apply wp_prvTaskIsTaskSuspended; [done|by exists T|].
  wp_step; intros Hs.
  - apply bool_decide_eq_true in Hs. destruct (suspended_places _ _ (wf_ok _ _ _ _ _ W) Hs) as [Hl He].
    destruct (wf_current _ _ _ _ _ W) as (c & Hc & [Cu HC]).
    wp_step. eapply wp_mono; [apply (wp_ready_again (xTickCount (data k) + 1) (xNextTaskUnblockTime (data k)) t T xSuspendedTaskList
      (λ _ k2, readied T t k k2 ∧
        core idle None None (xTickCount (data k) + 1) (xNextTaskUnblockTime (data k)) (lists k2) (data k2)))|];
      [done|done|list_lia|done|done|auto|].
    intros [] k2 H2. wp_step. eapply wp_mono; [exact H2|]. intros [] k3 [Re C3]. simpl.
    destruct (re_data _ _ _ _ Re) as [top E3].
    wp_step. apply (wp_priority_of _ _ T); [by rewrite E3|].
    wp_step. apply (wp_current _ c); [by rewrite E3|]. wp_step. apply (wp_priority_of _ _ Cu); [by rewrite E3|].
    eapply (readied_yield T t k k3 _ c Cu); [done..|intros ?%Z.leb_gt; lia|]. intros k4 I4 Qu. apply HQ; [done|].
    intros t' [= <-] _ _ _. apply (awake_same_place k3); [apply Qu|by destruct Qu as [[= ->]]|apply Re].
  - apply HQ; [done|]. intros t' [= <-] _ H1 H2. apply bool_decide_eq_false in Hs. tauto.
Qed.

Lemma wp_xTaskResumeFromISR t Q k :
  inv idle k → is_Some (tcbs (data k) !! t) →
  (∀ k' y, inv idle k' → Q y k') → wp (xTaskResumeFromISR t) Q k.
Proof.
  intros I [T HT] HQ. pose proof I as [C Hr Ca Tr]. pose proof (co_wf _ _ _ _ _ _ _ C) as W.
  unfold xTaskResumeFromISR. wp_step. apply wp_prvTaskIsTaskSuspended; [done|by exists T|].
  apply wp_if; intros Hs; [|wp_step; by apply HQ].
  apply bool_decide_eq_true in Hs. destruct (suspended_places _ _ (wf_ok _ _ _ _ _ W) Hs) as [Hl He].
  destruct (wf_current _ _ _ _ _ W) as (c & Hc & [Cu HC]).
  do 2 wp_step. apply wp_if; intros Hsusp.
  - wp_step. apply (wp_priority_of _ _ T); [done|]. wp_step. apply (wp_current _ c); [done|].
    wp_step. apply (wp_priority_of _ _ Cu); [done|].
    assert (Rest : ∀ y, (y = false → xYieldPending (data k) = false ∧ uxPriority T ≤ uxPriority Cu) →
      wp (listREMOVE_ITEM (St t);; prvAddTaskToReadyList t;; mret (uxPriority Cu <=? uxPriority T)) Q
        (MkKernel (lists k) (set_xYieldPending y (data k)))).
    { intros y Hy. set (k1 := MkKernel (lists k) (set_xYieldPending y (data k))).
      assert (C1 : core idle None None (xTickCount (data k) + 1) (xNextTaskUnblockTime (data k)) (lists k1) (data k1))
        by by apply (core_data _ _ _ _ _ _ (data k)).
      wp_step. eapply wp_mono; [apply (wp_ready_again (xTickCount (data k) + 1) (xNextTaskUnblockTime (data k)) t T xSuspendedTaskList
        (λ _ k2, readied T t k1 k2 ∧
          core idle None None (xTickCount (data k) + 1) (xNextTaskUnblockTime (data k)) (lists k2) (data k2)))|];
        [done|done|list_lia|done|done|auto|].
      intros [] k2 H2. wp_step. eapply wp_mono; [exact H2|]. intros [] k3 [Re C3]. wp_step. apply HQ.
      destruct (re_data _ _ _ _ Re) as [top E3]. constructor; [by rewrite E3 in *|by rewrite E3| |].
      - apply (re_calm _ _ _ _ Re). by apply (calm_data _ (data k)).
      - intros Y. rewrite E3 in Y. simpl in Y. destruct (Hy Y) as [Hy1 Hy2].
        apply (top_runs_ready (lists k) _ (data k) _ t T Tr HT); rewrite ?E3; simpl; try done.
        + apply (re_ready _ _ _ _ Re).
        + intros _ c' C0 ? ?. by simplify_eq. }
    do 2 wp_step; intros Hp.
    + wp_step. by apply Rest.
    + specialize (Rest (xYieldPending (data k))). rewrite set_yield_id, kernel_eta in Rest. apply Rest.
      intros ->. apply Z.leb_gt in Hp. split; [done|lia].
  - apply Z.eqb_neq in Hsusp. wp_step. apply wp_listINSERT_END; [apply W|apply W; list_lia| |done|].
    { apply (wf_ev_item _ _ _ _ _ _ W). by exists T. }
    intros A2 M2. wp_step. apply HQ.
    assert (M1 : moved (lists k) (lists k) (Ev t) None False) by (apply moved_refl; [apply W|done]).
    assert (E : wp (when false (upd (set_xYieldPending true))) (λ _ k2, inv idle k2) (MkKernel A2 (data k))).
    { apply (inv_pend k t (lists k) A2 False False); [done..| |done|done]. exists xSuspendedTaskList. split; [list_lia|done]. }
    exact E.
Qed.

(** ** Priorities *)
Definition with_priority (p : Z) (T : TCB) : TCB := MkTCB p (ulNotifiedValue T) (ucNotifyState T).

Lemma counted_set_tcb A d t T T' :
  counted A d → tcbs d !! t = Some T → counted A (set_tcbs (<[t := T']> (tcbs d)) d).
Proof. intros [Cn Cd Cg] HT. constructor; simpl; [|done|done]. by rewrite map_size_insert, HT. Qed.

(** A task that is not ready may get any priority. *)
Lemma core_set_priority x y lo nx A d t T p :
  core idle x y lo nx A d → tcbs d !! t = Some T → 0 ≤ p < 5 → t ≠ idle → (∀ q, ¬ ready A q t) →
  core idle x y lo nx A (set_tcbs (<[t := with_priority p T]> (tcbs d)) d).
Proof.
  intros [W Ti C] HT Hp Hi Hr. constructor.
  - apply (wf_set_tcb _ _ _ _ _ t T); [done|done| |by right]. by destruct (wf_tcb _ _ _ _ _ W _ _ HT).
  - eapply timed_data; [exact Ti|done..|lia|lia].
  - by apply (counted_set_tcb _ _ _ T).
Qed.

(** The state after the priority is written and the task is on its list. *)
Lemma priority_top k A' d' t T cur pc p :
  inv idle k → tcbs (data k) !! t = Some T → pxCurrentTCB (data k) = Some cur →
  (∃ C, tcbs (data k) !! cur = Some C ∧ uxPriority C = pc) → uxPriority T ≠ p →
  priority_yield t cur (uxPriority T) p pc = false →
  tcbs d' = <[t := with_priority p T]> (tcbs (data k)) → pxCurrentTCB d' = pxCurrentTCB (data k) →
  xYieldPending d' = xYieldPending (data k) →
  (∀ q u, ready A' q u → (u = t ∧ q = p ∧ ready (lists k) (uxPriority T) t) ∨ (u ≠ t ∧ ready (lists k) q u)) →
  top_runs A' d'.
Proof.
  intros I HT Hcur (C & HC & <-) Hne Hy E1 E2 E3 HR Y c C' q u. rewrite E1, E2. intros Hc HC' Hu.
  rewrite E3 in Y. assert (cur = c) as -> by congruence. pose proof (inv_top _ _ I Y) as Tr. unfold priority_yield in Hy.
  destruct (decide (t = c)) as [->|Htc].
  - rewrite lookup_insert_eq in HC'. injection HC' as <-. simpl. rewrite bool_decide_eq_true_2 in Hy by done.
    assert (T = C) as -> by congruence.
    destruct (Z.ltb_spec (uxPriority C) p) as [Hlt|?]; [|done].
    destruct (HR q u Hu) as [(-> & -> & _)|[_ Hr]]; [lia|]. specialize (Tr c C q u Hc HC Hr). lia.
  - rewrite lookup_insert_ne in HC' by done. assert (C' = C) as -> by congruence.
    rewrite bool_decide_eq_false_2 in Hy by done. simpl in Hy.
    destruct (HR q u Hu) as [(-> & -> & Hr)|[_ Hr]]; [|by apply (Tr c C q u)].
    specialize (Tr c C _ t Hc HC Hr). destruct (Z.ltb_spec (uxPriority T) p) as [?|?]; [|lia].
    apply Z.leb_gt in Hy. lia.
Qed.

Lemma ready_own x y A d p t T : wf idle x y A d → ready A p t → tcbs d !! t = Some T → p = uxPriority T.
Proof. intros W R HT. by destruct (wf_ready _ _ _ _ _ W p t T R HT). Qed.

Lemma wp_vTaskPrioritySet h p Q k :
  inv idle k → 0 ≤ p →
  (∀ t, (match h with Some u => t = u | None => pxCurrentTCB (data k) = Some t end) →
     is_Some (tcbs (data k) !! t) ∧ t ≠ idle) →
  (∀ k', inv idle k' → Q () k') → wp (vTaskPrioritySet h p) Q k.
Proof.
  intros I Hp Ht HQ. pose proof I as [C Hr Ca Tr]. pose proof (co_wf _ _ _ _ _ _ _ C) as W.
  unfold vTaskPrioritySet. cbv zeta. unfold configMAX_PRIORITIES.
  set (p' := if 5 <=? p then 5 - 1 else p).
  assert (Hp' : 0 ≤ p' < 5) by (unfold p'; destruct (Z.leb_spec 5 p); lia).
  wp_step. apply wp_prvGetTCBFromHandle; [done|]. intros t Htu. destruct (Ht t Htu) as [[T HT] Hti].
  pose proof (wf_prio _ _ _ _ _ _ _ W HT) as Hold.
  wp_step. apply (wp_priority_of _ _ T); [done|]. destruct (Z.eqb_spec (uxPriority T) p') as [E|Hne]; [wp_step; by apply HQ|].
  destruct (wf_current _ _ _ _ _ W) as (c & Hc & [Cu HC]).
  wp_step. apply (wp_current _ c); [done|]. wp_step. apply (wp_priority_of _ _ Cu); [done|].
  set (y := priority_yield t c (uxPriority T) p' (uxPriority Cu)).
  wp_step. apply (wp_wr_tcb _ _ T); [done|]. simpl. fold (with_priority p' T).
  set (d1 := set_tcbs (<[t := with_priority p' T]> (tcbs (data k))) (data k)).
  assert (HiE : Ev t ∈ a_items (lists k)) by (apply (wf_ev_item _ _ _ _ _ _ W); by exists T).
  assert (HiS : St t ∈ a_items (lists k)) by (apply (wf_st_item _ _ _ _ _ _ W); by exists T).
  wp_step. apply wp_value; [done|]. wp_step. cbn [lists].
  (* the rest, from either event item value *)
  assert (Rest : ∀ A1, inv idle (MkKernel A1 (data k)) → (∀ l i, holds A1 l i ↔ holds (lists k) l i) →
    a_items A1 = a_items (lists k) →
    wp (c ← container (St t);
        old ← deref (pxReadyTasksLists (uxPriority T));
        when (bool_decide (c = Some old)) (listREMOVE_ITEM (St t);; prvAddTaskToReadyList t);;
        when y portYIELD) Q (MkKernel A1 d1)).
  { intros A1 I1 HH Hit. pose proof I1 as [C1 _ Ca1 Tr1]. pose proof (co_wf _ _ _ _ _ _ _ C1) as W1. simpl in *.
    assert (Fin : ∀ A2 d2,
      core idle None None (xTickCount (data k) + 1) (xNextTaskUnblockTime (data k)) A2 d2 → calm 0 A2 d2 →
      (∃ top, d2 = set_uxTopReadyPriority top d1) →
      (∀ q u, ready A2 q u → (u = t ∧ q = p' ∧ ready A1 (uxPriority T) t) ∨ (u ≠ t ∧ ready A1 q u)) →
      wp (when y portYIELD) Q (MkKernel A2 d2)).
    { intros A2 d2 C2 Ca2 [top E2] HR2. wp_step; intros Hy.
      - apply (wp_yield idle); simpl; [by rewrite E2 in *|done|by rewrite E2|auto].
      - apply HQ. constructor; simpl; [by rewrite E2 in *|by rewrite E2|done|].
        apply (priority_top (MkKernel A1 (data k)) A2 d2 t T c (uxPriority Cu) p'); try done; rewrite ?E2; try done.
        by exists Cu. }
    wp_step. apply wp_container; [simpl; by rewrite Hit|]. wp_step.
    assert (HL : pxReadyTasksLists (uxPriority T) = Some (Z.to_pos (uxPriority T + 1))) by by apply ready_list_Some.
    apply (wp_deref _ _ _ _ HL). pose proof (ready_list_bound _ _ HL). wp_step.
    apply wp_when; [intros E%bool_decide_eq_true|intros E%bool_decide_eq_false]; simpl in E.
    - apply holds_container in E; [|apply W1].
      assert (Hrt : ready A1 (uxPriority T) t) by by exists (Z.to_pos (uxPriority T + 1)).
      wp_step. apply (wp_listREMOVE_ITEM (MkKernel A1 d1) (wf_ok _ _ _ _ _ W1) _ _ _ E). simpl. intros A2 M2.
      pose proof (core_remove_st _ _ _ _ _ _ _ _ _ _ C1 E ltac:(list_lia) M2) as C2.
      assert (He2 : ∀ l, ¬ holds A2 l (Ev t)).
      { intros l. rewrite (moved_holds_ne _ _ _ _ _ _ _ M2) by item_ne. by apply (ready_ev_free _ _ _ _ _ W1 Hrt). }
      assert (C2' : core idle (Some t) None (xTickCount (data k) + 1) (xNextTaskUnblockTime (data k)) A2 d1).
      { apply core_set_priority; [done|done|done|done|]. intros q (l & _ & Hl).
        by apply (wf_transit _ _ _ _ _ (co_wf _ _ _ _ _ _ _ C2)) in Hl. }
      apply (wp_prvAddTaskToReadyList idle None (xTickCount (data k) + 1) (xNextTaskUnblockTime (data k)) t (with_priority p' T));
        simpl; [done|by rewrite lookup_insert_eq|by left|done|].
      intros A3 rl d3 E3 Hrl M3 C3. pose proof (ready_list_bound _ _ Hrl).
      assert (M2' : moved A2 A2 (Ev t) None False) by (apply moved_refl; [apply M2|done]).
      apply Fin; [done| |by eexists|].
      + apply (calm_three _ _ _ _ (data k) d3 _ _ _ _ _ _ _ M2 M2' M3); rewrite ?E3; try done. list_lia.
      + intros q u Hu. destruct (ready_after_insert _ _ _ (with_priority p' T) _ _ _ _ M3 Hrl Hu) as [Hu2|[-> ->]]; [|by left].
        right. assert (u ≠ t).
        { intros ->. destruct Hu2 as (l2 & _ & Hl2). by apply (wf_transit _ _ _ _ _ (co_wf _ _ _ _ _ _ _ C2)) in Hl2. }
        split; [done|]. by apply (ready_moved _ _ _ _ _ _ _ M2).
    - assert (Hnr : ∀ q, ¬ ready A1 q t).
      { intros q Hq. pose proof (ready_own _ _ _ _ _ _ _ W1 Hq HT) as ->. destruct Hq as (l & Hl & Hh).
        apply E. apply holds_container; [apply W1|]. congruence. }
      apply Fin; [by apply core_set_priority|by apply (calm_data _ (data k))|exists (uxTopReadyPriority (data k)); unfold d1; by destruct (data k)|].
      intros q u Hu. right. split; [intros ->; by apply (Hnr q)|done]. }
  wp_step; intros _.
  - apply wp_listSET_LIST_ITEM_VALUE; [done|unfold is_u32; lia|]. simpl. apply Rest; [|done|done].
    apply (inv_set_value (Ev t) _ k); [done|]. intros l Dl. by apply (ev_not_delayed _ _ _ _ _ _ W).
  - apply Rest; [by rewrite kernel_eta|done|done].
Qed.

(** ** Small ones *)
Lemma inv_yield_pending y k : inv idle k → (y = false → xYieldPending (data k) = false) →
  inv idle (MkKernel (lists k) (set_xYieldPending y (data k))).
Proof.
  intros [C Hr Ca Tr] Hy. constructor; simpl; [by apply (core_data _ _ _ _ _ _ (data k))|done|by apply (calm_data _ (data k))|].
  by apply (top_runs_data _ (data k)).
Qed.

Lemma wp_vTaskMissedYield Q k : inv idle k → (∀ k', inv idle k' → Q () k') → wp vTaskMissedYield Q k.
Proof. intros I HQ. unfold vTaskMissedYield. wp_step. by apply HQ, inv_yield_pending. Qed.

Lemma wp_uxTaskResetEventItemValue Q k :
  inv idle k →
  (∀ c C, pxCurrentTCB (data k) = Some c → tcbs (data k) !! c = Some C →
     inv idle (MkKernel (a_set_value (Ev c) (configMAX_PRIORITIES - uxPriority C) (lists k)) (data k)) →
     Q (a_val (lists k) (Ev c)) (MkKernel (a_set_value (Ev c) (configMAX_PRIORITIES - uxPriority C) (lists k)) (data k))) →
  wp uxTaskResetEventItemValue Q k.
Proof.
  intros I HQ. pose proof (co_wf _ _ _ _ _ _ _ (inv_core _ _ I)) as W. unfold uxTaskResetEventItemValue.
  destruct (wf_current _ _ _ _ _ W) as (c & Hc & [Cu HC]). pose proof (wf_prio _ _ _ _ _ _ _ W HC).
  assert (HiE : Ev c ∈ a_items (lists k)) by (apply (wf_ev_item _ _ _ _ _ _ W); by exists Cu).
  wp_step. apply (wp_current _ c); [done|]. wp_step. apply wp_value; [done|].
  wp_step. apply (wp_priority_of _ _ Cu); [done|]. wp_step.
  apply wp_listSET_LIST_ITEM_VALUE; [done|unfold configMAX_PRIORITIES, is_u32; lia|]. wp_step.
  apply HQ; [done..|]. apply inv_set_value; [done|]. intros l Dl. by apply (ev_not_delayed _ _ _ _ _ _ W).
Qed.
End api.
