(* ===== verification/TasksLife.v ===== *)
(** * Creating and deleting tasks, and starting the scheduler *)
From S2P Require Import Prelude RtosList KList Tasks TasksInv TasksOk TasksApi.
Local Open Scope Z_scope.
Implicit Types (A : astate) (d : kdata) (k : akernel) (i j l : positive) (t : TaskHandle_t).

Section life.
Context (idle : TaskHandle_t).

(** ** The memory of a TCB appears and disappears *)
Definition new_items (t : TaskHandle_t) (p : Z) A : astate :=
  a_new (Ev t) (configMAX_PRIORITIES - p) (Z.pos t) (a_new (St t) 0 (Z.pos t) A).

Definition drop_items (t : TaskHandle_t) A : astate := a_drop (Ev t) (a_drop (St t) A).

Lemma new_items_fresh x y A d t :
  wf idle x y A d → tcbs d !! t = None → (St t ∉ a_items A) ∧ (Ev t ∉ a_items A).
Proof.
  intros W Ht. split; intros Hi; destruct (wf_tasks _ _ _ _ _ W _ Hi) as (u & [U HU] & [E|E]); try done;
    injection E as ->; congruence.
Qed.

Lemma list_sorted_ext A A' l :
  a_lists A' = a_lists A → (∀ j, holds A l j → a_val A' j = a_val A j) → list_sorted A l → list_sorted A' l.
Proof.
  intros El Hv Sl a Ha. rewrite El in Ha. specialize (Sl a Ha).
  assert (HE : ∀ j, j ∈ elems a → a_val A' j = a_val A j) by (intros j Hj; apply Hv; by exists a).
  revert Sl HE. generalize (elems a). intros xs. induction 1 as [|x xs Sx IH F]; intros HE; constructor.
  - apply IH. intros j Hj. apply HE. by right.
  - rewrite Forall_forall in F |- *. intros y Hy. rewrite !HE by set_solver. auto.
Qed.

(** Timing depends on the lists and the wake times on them only. *)
Lemma timed_ext lo nx A A' d d' :
  timed lo nx A d → a_lists A' = a_lists A → (∀ l j, holds A l j → a_val A' j = a_val A j) →
  pxDelayedTaskList d' = pxDelayedTaskList d → pxOverflowDelayedTaskList d' = pxOverflowDelayedTaskList d →
  xTickCount d' = xTickCount d → timed lo nx A' d'.
Proof.
  intros T El Hv E1 E2 E3.
  assert (HH : ∀ l j, holds A' l j ↔ holds A l j) by (intros l j; unfold holds; by rewrite El).
  destruct T as [Tp Tc To Ts Tw Tt]. constructor; rewrite ?E1, ?E2, ?E3; try done.
  - intros t Ht%HH. rewrite (Hv _ _ Ht). auto.
  - intros t Ht%HH. rewrite (Hv _ _ Ht). auto.
  - destruct Ts. split; eapply list_sorted_ext; eauto.
  - intros t l Dl Ht%HH. rewrite (Hv _ _ Ht). eauto.
Qed.

Lemma core_new lo nx A d t T p :
  core idle None None lo nx A d → tcbs d !! t = None → tcb_ok T →
  Z.of_nat (size (a_items A)) + 2 < 4294967296 →
  core idle (Some t) None lo nx (new_items t p A)
    (set_uxCurrentNumberOfTasks (u32 (uxCurrentNumberOfTasks d + 1)) (set_tcbs (<[t := T]> (tcbs d)) d)).
Proof.
  intros [W Ti C] Ht Hp Hsz. destruct (new_items_fresh _ _ _ _ _ W Ht) as [F1 F2].
  assert (HN : ∀ l i, holds A l i → i ≠ St t ∧ i ≠ Ev t).
  { intros l i Hi%(lo_items _ (wf_ok _ _ _ _ _ W)). split; intros ->; done. }
  assert (Hsz' : size (a_items (new_items t p A)) = (size (a_items A) + 2)%nat).
  { simpl. rewrite !size_union, !size_singleton by set_solver. lia. }
  assert (HD : ∀ u, is_Some (<[t := T]> (tcbs d) !! u) → u = t ∨ is_Some (tcbs d !! u)).
  { intros u [U HU]. apply lookup_insert_Some in HU as [[<- _]|[_ HU]]; [by left|right; by exists U]. }
  pose proof (wf_tcbs_items _ _ _ _ _ W) as Hsz2. destruct W as [Wok Wex Wit Wta Wow Wpr Wst Wtr Ws We Wr Ww Wto Wc Wi].
  constructor.
  - constructor; simpl; try done.
    + destruct Wok as [L1 L2 L3 L4 L5]. constructor; try done; [|rewrite Hsz'; lia].
      intros l i Hi. pose proof (L3 l i Hi). simpl. set_solver.
    + intros u Hu. destruct (decide (u = t)) as [->|Hne]; [set_solver|].
      apply HD in Hu as [?|Hu]; [done|]. destruct (Wit u Hu). set_solver.
    + intros i. rewrite !elem_of_union, !elem_of_singleton. intros Hi.
      assert (Hcase : (i = St t ∨ i = Ev t) ∨ i ∈ a_items A) by tauto.
      destruct Hcase as [?|Hi']; [exists t; split; [rewrite lookup_insert_eq; by exists T|done]|]. clear Hi; rename Hi' into Hi.
      destruct (Wta i Hi) as (u & [U HU] & Hiu). exists u. split; [|done].
      rewrite lookup_insert_ne by congruence. by exists U.
    + intros u Hu. destruct (decide (u = t)) as [->|Hne].
      * split; by rewrite decide_True.
      * apply HD in Hu as [?|Hu]; [done|]. rewrite !decide_False by item_ne. by apply Wow.
    + intros u U. rewrite lookup_insert_Some. intros [[<- <-]|[_ HU]]; [done|eauto].
    + intros u Hu Hx. apply HD in Hu as [?|Hu]; [congruence|]. by apply Wst.
    + intros u l [= <-] Hl. by destruct (HN _ _ Hl).
    + intros q u U R. rewrite lookup_insert_Some. intros [[<- <-]|[_ HU]]; [|eauto].
      destruct R as (l & _ & Hl). by destruct (HN _ _ Hl).
    + intros u l Hl _ _. by apply (Ww u l).
    + destruct Wc as (c & Hc & [C0 HC0]). exists c. split; [done|]. rewrite lookup_insert_ne by congruence. by exists C0.
    + intros Hr. destruct (Wi Hr) as [(I & HI & Hz) Hrdy]. split; [|intros _; by apply Hrdy].
      exists I. rewrite lookup_insert_ne by congruence. done.
  - apply (timed_ext _ _ A _ d); try done. intros l j Hj. destruct (HN _ _ Hj). simpl. by rewrite !decide_False by done.
  - destruct C as [Cn Cd Cg]. constructor; simpl; [|done|done].
    rewrite map_size_insert, Ht, Cn. simpl. rewrite u32_id by (unfold is_u32; lia). lia.
Qed.

Lemma core_drop lo nx A d t :
  core idle (Some t) None lo nx A d → is_Some (tcbs d !! t) → (∀ l, ¬ holds A l (Ev t)) →
  t ≠ idle → pxCurrentTCB d ≠ Some t →
  core idle None None lo nx (drop_items t A)
    (set_tcbs (delete t (tcbs d)) (set_uxCurrentNumberOfTasks (u32 (uxCurrentNumberOfTasks d - 1)) d)).
Proof.
  intros [W Ti C] Ht He Hi Hcu.
  assert (HN : ∀ l i, holds A l i → i ≠ St t ∧ i ≠ Ev t).
  { intros l i Hl. split; intros ->; [by apply (wf_transit _ _ _ _ _ W) in Hl|by apply (He l)]. }
  assert (HD : ∀ u, is_Some (delete t (tcbs d) !! u) → u ≠ t ∧ is_Some (tcbs d !! u)).
  { intros u [U HU]. apply lookup_delete_Some in HU as [? HU]. split; [congruence|by exists U]. }
  assert (HD2 : ∀ u, u ≠ t → is_Some (tcbs d !! u) → is_Some (delete t (tcbs d) !! u))
    by (intros u Hu; by rewrite lookup_delete_ne).
  pose proof (wf_size _ _ _ _ _ W) as Hsz2. destruct W as [Wok Wex Wit Wta Wow Wpr Wst Wtr Ws We Wr Ww Wto Wc Wi].
  constructor.
  - constructor; simpl; try done.
    + destruct Wok as [L1 L2 L3 L4 L5]. constructor; try done.
      * intros l i Hl. pose proof (L3 l i Hl). destruct (HN _ _ Hl). simpl. set_solver.
      * simpl. assert (size (a_items A ∖ {[St t]} ∖ {[Ev t]}) ≤ size (a_items A))%nat; [|lia].
        apply subseteq_size. set_solver.
    + intros u Hu. apply HD in Hu as [Hne Hu]. destruct (Wit u Hu).
      rewrite !elem_of_difference, !elem_of_singleton. split; (split; [split|]); try done; item_ne.
    + intros i. rewrite !elem_of_difference, !elem_of_singleton. intros [[Hii ?] ?].
      destruct (Wta i Hii) as (u & Hu & Hiu). exists u. split; [|done]. apply HD2; [|done].
      intros ->. naive_solver.
    + intros u [_ Hu]%HD. by apply Wow.
    + intros u U [_ HU]%lookup_delete_Some. eauto.
    + intros u [Hne Hu]%HD _. apply Wst; [done|congruence].
    + intros q u U R [_ HU]%lookup_delete_Some. eauto.
    + intros u l Hl _ _. apply (Ww u l Hl); [|done]. intros [= ->]. by apply (He l).
    + destruct Wc as (c & Hc & Hcs). exists c. split; [done|]. apply HD2; [congruence|done].
    + intros Hr. destruct (Wi Hr) as [(I & HI & Hz) Hrdy]. split; [|intros _; apply Hrdy; congruence].
      exists I. by rewrite lookup_delete_ne.
  - by apply (timed_ext _ _ A _ d).
  - destruct C as [Cn Cd Cg]. constructor; simpl; [|done|done]. destruct Ht as [T HT].
    rewrite map_size_delete, HT, Cn. simpl.
    assert (size (tcbs d) ≠ 0)%nat by (intros E; apply map_size_empty_inv in E; by rewrite E in HT).
    rewrite u32_id by (unfold is_u32; lia). lia.
Qed.
(** ** Creation *)
Definition new_tcb (p : Z) : TCB :=
  MkTCB p (replicate configTASK_NOTIFICATION_ARRAY_ENTRIES 0)
    (replicate configTASK_NOTIFICATION_ARRAY_ENTRIES taskNOT_WAITING_NOTIFICATION).

Lemma new_tcb_ok p : 0 ≤ p < 5 → tcb_ok (new_tcb p).
Proof. by constructor. Qed.

(** The priority a task gets: too high a one is lowered. *)
Definition clamped (p : Z) : Z := if configMAX_PRIORITIES <=? p then configMAX_PRIORITIES - 1 else p.

Lemma clamped_range p : 0 ≤ p → 0 ≤ clamped p < 5.
Proof. unfold clamped, configMAX_PRIORITIES. destruct (Z.leb_spec 5 p); lia. Qed.

Definition counted_one (d : kdata) : kdata := set_uxCurrentNumberOfTasks (u32 (uxCurrentNumberOfTasks d + 1)) d.

(** The kernel with the new task in memory, and on no list. *)
Definition with_task (t : TaskHandle_t) (p : Z) k : akernel :=
  MkKernel (new_items t p (lists k)) (set_tcbs (<[t := new_tcb p]> (tcbs (data k))) (data k)).

Lemma wp_prvInitialiseNewTask t p Q k :
  (St t ∉ a_items (lists k)) → (Ev t ∉ a_items (lists k)) → Q () (with_task t (clamped p) k) →
  wp (prvInitialiseNewTask t p) Q k.
Proof.
  intros F1 F2 HQ. unfold prvInitialiseNewTask. fold (clamped p). fold (new_tcb (clamped p)).
  do 2 wp_step. unfold wp, mbind, K_bind, lst. simpl.
  rewrite bool_decide_eq_false_2 by done. simpl. rewrite bool_decide_eq_false_2 by set_solver. exact HQ.
Qed.

(** The running task may change while [x] is in transit. *)
Lemma core_current x y lo nx A d t :
  core idle x y lo nx A d → is_Some (tcbs d !! t) → core idle x y lo nx A (set_pxCurrentTCB (Some t) d).
Proof.
  intros [W Ti C] Ht. constructor; [|by apply (timed_data lo nx _ _ _ d)|by apply (counted_data _ d)].
  apply (wf_data _ _ _ _ d); [done|done|by exists t|done|]. pose proof (wf_top _ _ _ _ _ W). simpl. lia.
Qed.

Lemma top_new A A' d d' t T c C :
  top_runs A d → tcbs d !! t = None → tcbs d' = <[t := T]> (tcbs d) →
  (∀ p u, ready A' p u → ready A p u ∨ (u = t ∧ p = uxPriority T)) →
  pxCurrentTCB d = Some c → tcbs d !! c = Some C → xYieldPending d' = xYieldPending d →
  (pxCurrentTCB d' = Some c ∧ uxPriority T ≤ uxPriority C ∨ pxCurrentTCB d' = Some t ∧ uxPriority C ≤ uxPriority T) →
  top_runs A' d'.
Proof.
  intros Tr Ht E HR Hc HC Ey Hcase Y c' C' p u Hc' HC' Hu. rewrite E in HC'. rewrite Ey in Y.
  assert (c ≠ t) by congruence.
  assert (HP : p ≤ uxPriority C ∨ p = uxPriority T).
  { destruct (HR p u Hu) as [Hr|[_ ?]]; [left|by right]. by apply (Tr Y c C p u). }
  destruct Hcase as [[E' ?]|[E' ?]]; rewrite E' in Hc'; injection Hc' as <-.
  - rewrite lookup_insert_ne in HC' by done. simplify_eq. lia.
  - rewrite lookup_insert_eq in HC'. injection HC' as <-. lia.
Qed.

Record created (t : TaskHandle_t) (p : Z) k k' : Prop := {
  cr_tcb : ∃ T, tcbs (data k') = <[t := T]> (tcbs (data k)) ∧ uxPriority T = clamped p;
  cr_ready : ready (lists k') (clamped p) t;
  cr_rest : ∀ u, u ≠ t → same_place k k' u }.

Lemma same_place_new k k' t p l :
  moved (new_items t p (lists k)) (lists k') (St t) (Some l) False → ∀ u, u ≠ t → same_place k k' u.
Proof.
  intros M u Hu l'. split; (rewrite (moved_holds_ne _ _ _ _ _ _ _ M) by item_ne; done).
Qed.

(** Up to the yield at the end. *)
Lemma wp_add_new lo nx t p c C Q k :
  core idle None None lo nx (lists k) (data k) → tcbs (data k) !! t = None → 0 ≤ p < 5 →
  Z.of_nat (size (a_items (lists k))) + 2 < 4294967296 →
  pxCurrentTCB (data k) = Some c → tcbs (data k) !! c = Some C →
  (∀ A' l top cur d', moved (new_items t p (lists k)) A' (St t) (Some l) False → pxReadyTasksLists p = Some l →
     cur = (if negb (xSchedulerRunning (data k)) && (uxPriority C <=? p) then t else c) →
     d' = set_uxTopReadyPriority top (set_pxCurrentTCB (Some cur) (counted_one (data (with_task t p k)))) →
     core idle None None lo nx A' d' →
     wp (if xSchedulerRunning (data k) then
           c ← current; pc ← priority_of c; when (pc <? p) portYIELD
         else mret ()) Q (MkKernel A' d')) →
  wp (prvAddNewTaskToReadyList t) Q (with_task t p k).
Proof.
  intros K Ht Hp Hsz Hc HC HQ. unfold prvAddNewTaskToReadyList.
  pose proof (core_new lo nx (lists k) (data k) t (new_tcb p) p K Ht (new_tcb_ok p Hp) Hsz) as K1.
  set (k1 := MkKernel (new_items t p (lists k)) (counted_one (data (with_task t p k)))).
  assert (Hct : c ≠ t) by congruence.
  assert (HT1 : tcbs (data k1) !! t = Some (new_tcb p)) by (simpl; by rewrite lookup_insert_eq).
  assert (HC1 : tcbs (data k1) !! c = Some C) by (simpl; by rewrite lookup_insert_ne).
  do 2 wp_step. fold (counted_one (data (with_task t p k))). fold k1. do 4 wp_step. simpl xSchedulerRunning.
  wp_step. apply (wp_priority_of _ _ _ _ HT1). simpl pxCurrentTCB. rewrite Hc. wp_step.
  wp_step. apply (wp_priority_of _ _ _ _ HC1). simpl uxPriority.
  set (b := negb (xSchedulerRunning (data k)) && (uxPriority C <=? p)) in *.
  assert (Rest : ∀ cur, cur = (if b then t else c) →
    wp (prvAddTaskToReadyList t;; if xSchedulerRunning (data k) then
           c ← current; pc ← priority_of c; when (pc <? p) portYIELD else mret ()) Q
      (MkKernel (lists k1) (set_pxCurrentTCB (Some cur) (data k1)))).
  { intros cur Hcur. set (k2 := MkKernel (lists k1) (set_pxCurrentTCB (Some cur) (data k1))).
    assert (K2 : core idle (Some t) None lo nx (lists k2) (data k2)).
    { apply core_current; [exact K1|]. subst cur. destruct b; [by exists (new_tcb p)|by exists C]. }
    wp_step. eapply (wp_prvAddTaskToReadyList idle None lo nx t (new_tcb p) _ k2); [exact K2|exact HT1|by left| |].
    { intros l Hl. destruct (new_items_fresh _ _ _ _ _ (co_wf _ _ _ _ _ _ _ K) Ht) as [_ F2].
      apply F2. by apply (lo_items _ (wf_ok _ _ _ _ _ (co_wf _ _ _ _ _ _ _ K)) l). }
    intros A' l d' Ed' Hl M K3. by eapply (HQ A' l _ cur d'). }
  wp_step; intros Hb.
  - wp_step. apply Rest. by rewrite Hb.
  - specialize (Rest c). rewrite Hb in Rest. specialize (Rest eq_refl).
    assert (E : set_pxCurrentTCB (Some c) (data k1) = data k1) by (unfold k1; simpl; rewrite <- Hc; by destruct (data k)).
    by rewrite E in Rest.
Qed.

Lemma created_quiet t p k k1 k2 : created t p k k1 → quiet k1 k2 → created t p k k2.
Proof.
  intros [(T & E & HT) (l & Hl & Hh) HR] [[= E1 _ _ _ _] _ P]. constructor.
  - exists T. by rewrite E1.
  - exists l. split; [done|]. by apply P.
  - intros u Hu l'. specialize (HR u Hu l'). specialize (P u l'). naive_solver.
Qed.

Lemma created_added t p k A' l d' :
  moved (new_items t (clamped p) (lists k)) A' (St t) (Some l) False → pxReadyTasksLists (clamped p) = Some l →
  tcbs d' = <[t := new_tcb (clamped p)]> (tcbs (data k)) → created t p k (MkKernel A' d').
Proof.
  intros M Hl E. constructor; simpl.
  - by exists (new_tcb (clamped p)).
  - exists l. split; [done|]. by apply (moved_holds_eq _ _ _ _ _ _ M).
  - by apply (same_place_new k (MkKernel A' d') t (clamped p) l).
Qed.

Lemma calm_new m k A' d' t p l :
  calm m (lists k) (data k) → moved (new_items t p (lists k)) A' (St t) (Some l) False → l ≠ xPendingReadyList →
  uxSchedulerSuspended d' = uxSchedulerSuspended (data k) → xPendedTicks d' = xPendedTicks (data k) → calm m A' d'.
Proof.
  intros Ca M Hl E1 E2. apply (calm_data _ (data k)); [|done..].
  eapply calm_moved; [|exact M|congruence]. by apply (calm_same_place (lists k)).
Qed.

(** Creation while the scheduler runs. *)
Lemma wp_xTaskCreate t p Q k :
  inv idle k → tcbs (data k) !! t = None → 0 ≤ p → Z.of_nat (size (a_items (lists k))) + 2 < 4294967296 →
  (∀ k', inv idle k' → created t p k k' → Q true k') → wp (xTaskCreate (Some t) p) Q k.
Proof.
  intros [K Hr Ca Tr] Ht Hp Hsz HQ. pose proof (co_wf _ _ _ _ _ _ _ K) as W.
  destruct (new_items_fresh _ _ _ _ _ W Ht) as [F1 F2]. pose proof (clamped_range p Hp) as Hp'.
  destruct (wf_current _ _ _ _ _ W) as (c & Hc & [C HC]).
  unfold xTaskCreate. wp_step. apply wp_prvInitialiseNewTask; [done..|]. wp_step.
  eapply wp_add_new; [exact K|done..|]. rewrite Hr. simpl. intros A' l top cur d' M Hl -> Ed' K'.
  pose proof (ready_list_bound _ _ Hl). assert (Hc' : pxCurrentTCB d' = Some c) by by rewrite Ed'.
  assert (HC' : tcbs d' !! c = Some C) by (rewrite Ed'; simpl; rewrite lookup_insert_ne by congruence; done).
  assert (Cr : created t p k (MkKernel A' d')) by (apply (created_added t p k A' l d'); [done..|by rewrite Ed']).
  assert (Ca' : calm 0 A' d') by (apply (calm_new 0 k A' d' t (clamped p) l); rewrite ?Ed'; try done; list_lia).
  assert (K2 : core idle None None (xTickCount d' + 1) (xNextTaskUnblockTime d') A' d') by by rewrite Ed' in *.
  assert (Hr' : xSchedulerRunning d' = true) by by rewrite Ed'.
  wp_step. apply (wp_current _ c); [done|]. wp_step. apply (wp_priority_of _ _ C); [done|].
  wp_step; intros Hlt.
  - apply (wp_yield idle); [done..|]. intros k2 S2 I2. wp_step. apply HQ; [done|].
    apply (created_quiet _ _ _ _ _ Cr), switched_quiet; [apply K2|done].
  - apply Z.ltb_ge in Hlt. wp_step. apply HQ; [|done]. constructor; simpl; [done..|].
    apply (top_new (lists k) A' (data k) d' t (new_tcb (clamped p)) c C); rewrite ?Ed'; try done.
    + intros q u Hu. destruct (ready_after_insert _ _ _ (new_tcb (clamped p)) _ _ _ _ M Hl Hu) as [?|?]; [by left|by right].
    + left. by rewrite <- Hc.
Qed.

(** ** Before the scheduler starts *)
Record unstarted k : Prop := {
  un_core : core idle None None 1 portMAX_DELAY (lists k) (data k);
  un_run : xSchedulerRunning (data k) = false;
  un_tick : xTickCount (data k) = configINITIAL_TICK_COUNT;
  un_calm : calm 0 (lists k) (data k);
  un_top : top_runs (lists k) (data k) }.

Lemma wp_xTaskCreate_unstarted t p Q k :
  unstarted k → tcbs (data k) !! t = None → 0 ≤ p → Z.of_nat (size (a_items (lists k))) + 2 < 4294967296 →
  (∀ k', unstarted k' → created t p k k' → a_items (lists k') = {[Ev t]} ∪ ({[St t]} ∪ a_items (lists k)) → Q true k') →
  wp (xTaskCreate (Some t) p) Q k.
Proof.
  intros [K Hr Htk Ca Tr] Ht Hp Hsz HQ. pose proof (co_wf _ _ _ _ _ _ _ K) as W.
  destruct (new_items_fresh _ _ _ _ _ W Ht) as [F1 F2]. pose proof (clamped_range p Hp) as Hp'.
  destruct (wf_current _ _ _ _ _ W) as (c & Hc & [C HC]).
  unfold xTaskCreate. wp_step. apply wp_prvInitialiseNewTask; [done..|]. wp_step.
  eapply wp_add_new; [exact K|done..|]. rewrite Hr. cbn [negb andb].
  intros A' l top cur d' M Hl Hcur Ed' K'. pose proof (ready_list_bound _ _ Hl).
  do 2 wp_step. apply HQ.
  - constructor; simpl; [done|by rewrite Ed'..| |].
    + apply (calm_new 0 k A' d' t (clamped p) l); rewrite ?Ed'; try done. list_lia.
    + apply (top_new (lists k) A' (data k) d' t (new_tcb (clamped p)) c C); rewrite ?Ed'; try done.
      * intros q u Hu. destruct (ready_after_insert _ _ _ (new_tcb (clamped p)) _ _ _ _ M Hl Hu) as [?|?]; [by left|by right].
      * simpl. rewrite Hcur. destruct (Z.leb_spec (uxPriority C) (clamped p)); [right; by split|left; split; [done|lia]].
  - apply (created_added t p k A' l d'); [done..|by rewrite Ed'].
  - simpl. by rewrite (mv_items _ _ _ _ _ M).
Qed.

(** The lists of [X] are initialised, and no other. *)
Record initialised (X : gset positive) A0 A : Prop := {
  in_lists : ∀ l, a_lists A !! l = if decide (l ∈ X) then Some (MkAlist [] None) else None;
  in_mem : a_mem A = a_mem A0;
  in_items : a_items A = a_items A0;
  in_val : a_val A = a_val A0;
  in_own : a_own A = a_own A0 }.

Lemma wp_init_list {R} l X A0 (m : K astate R) Q k :
  initialised X A0 (lists k) → l ∉ X → l ∈ a_mem A0 →
  (∀ A', initialised ({[l]} ∪ X) A0 A' → wp m Q (MkKernel A' (data k))) →
  wp (lst (KOp (OpInit l));; m) Q k.
Proof.
  intros [Il Im Ii Iv Io] Hl Hm HQ. wp_step. unfold wp at 1, lst. simpl.
  rewrite Im, (Il l), decide_False, !bool_decide_eq_true_2 by done. simpl.
  apply HQ. constructor; simpl; [|done..]. intros l'. destruct (decide (l' = l)) as [->|Hne].
  - rewrite lookup_insert_eq, decide_True; set_solver.
  - rewrite lookup_insert_ne, Il by done. destruct (decide (l' ∈ X)), (decide (l' ∈ {[l]} ∪ X)); set_solver.
Qed.

Definition kernel_lists : gset positive := list_to_set [1; 2; 3; 4; 5; 6; 7; 8; 9; 10]%positive.

Lemma in_kernel_lists l : l ∈ kernel_lists ↔ (l ≤ 10)%positive.
Proof.
  unfold kernel_lists. rewrite elem_of_list_to_set, !elem_of_cons, elem_of_nil. lia.
Qed.

Lemma wp_prvInitialiseTaskLists Q k :
  kernel_lists ⊆ a_mem (lists k) → a_lists (lists k) = ∅ →
  (∀ A', initialised kernel_lists (lists k) A' →
     Q () (MkKernel A' (set_pxOverflowDelayedTaskList xDelayedTaskList2 (set_pxDelayedTaskList xDelayedTaskList1 (data k))))) →
  wp prvInitialiseTaskLists Q k.
Proof.
  intros Hm He HQ. assert (HM : ∀ l, (l ≤ 10)%positive → l ∈ a_mem (lists k)) by (intros l ?%in_kernel_lists; set_solver).
  assert (I0 : initialised ∅ (lists k) (lists k)).
  { constructor; [|done..]. intros l. by rewrite He, decide_False by set_solver. }
  unfold prvInitialiseTaskLists. wp_step. change (Z.to_nat configMAX_PRIORITIES) with 5%nat.
  cbn [init_ready_lists]. do 5 (wp_step; eapply wp_deref; [reflexivity|]; eapply wp_init_list;
    [exact I0|apply (bool_decide_unpack _); vm_compute; reflexivity|apply HM; lia|]; clear I0; intros ? I0).
  wp_step. do 5 (eapply wp_init_list;
    [exact I0|apply (bool_decide_unpack _); vm_compute; reflexivity|apply HM; list_lia|]; clear I0; intros ? I0).
  wp_step. wp_step. wp_step. apply HQ. cbn [lists].
  match type of I0 with initialised ?X _ _ => replace X with kernel_lists in I0 by (vm_compute; reflexivity) end.
  done.
Qed.

(** The variables once the first task is in memory and the lists are empty. *)
Definition first_data (t : TaskHandle_t) (p : Z) : kdata :=
  set_pxOverflowDelayedTaskList xDelayedTaskList2 (set_pxDelayedTaskList xDelayedTaskList1
    (set_pxCurrentTCB (Some t) (counted_one (set_tcbs {[t := new_tcb p]} boot_data)))).

Lemma initialised_none A0 A l i : initialised kernel_lists A0 A → ¬ holds A l i.
Proof.
  intros I (a & Ha & Hi). rewrite (in_lists _ _ _ I) in Ha. case_decide; simplify_eq/=. by apply elem_of_nil in Hi.
Qed.

Lemma core_first A A1 t p :
  a_items A = ∅ → 0 ≤ p < 5 → initialised kernel_lists (new_items t p A) A1 →
  core idle (Some t) None 1 portMAX_DELAY A1 (first_data t p).
Proof.
  intros Hi Hp I. pose proof (λ l i, initialised_none _ _ l i I) as HN. pose proof I as [Il Im Ii Iv Io].
  assert (HD : ∀ u, is_Some (({[t := new_tcb p]} : gmap positive TCB) !! u) → u = t).
  { intros u [U [? _]%lookup_singleton_Some]. done. }
  assert (HI : a_items A1 = {[Ev t]} ∪ {[St t]}) by (rewrite Ii; simpl; rewrite Hi; set_solver).
  assert (HE : ∀ l a, a_lists A1 !! l = Some a → elems a = [] ∧ cursor a = None).
  { intros l a. rewrite Il. case_decide; [|done]. by intros [= <-]. }
  constructor.
  - constructor; simpl; try done; try (intros; by destruct (HN _ _ ltac:(eassumption))).
    + constructor; try (intros; by destruct (HN _ _ ltac:(eassumption))).
      * intros l a Ha. destruct (HE _ _ Ha) as [-> _]. constructor.
      * intros l a j Ha Hj. destruct (HE _ _ Ha) as [_ Hc]. congruence.
      * rewrite HI, size_union, !size_singleton by set_solver. done.
    + intros l Hl%in_kernel_lists. rewrite Il, decide_True by done. by eexists.
    + intros u ->%HD. rewrite HI. set_solver.
    + intros i. rewrite HI, elem_of_union, !elem_of_singleton. intros Hc. exists t. split; [|tauto].
      rewrite lookup_singleton_eq. by eexists.
    + intros u ->%HD. rewrite Io. simpl. split; by rewrite decide_True.
    + intros u U [<- <-]%lookup_singleton_Some. by apply new_tcb_ok.
    + intros u ->%HD Hx. done.
    + intros q u U (l & _ & Hl). by destruct (HN l _ Hl).
    + exists t. split; [done|]. rewrite lookup_singleton_eq. by eexists.
  - constructor; simpl; try (intros; by destruct (HN _ _ ltac:(eassumption))).
    + by left.
    + split; intros a Ha; destruct (HE _ _ Ha) as [-> _]; constructor.
    + done.
  - constructor; simpl; [by rewrite map_size_singleton| |].
    + intros a Ha. by destruct (HE _ _ Ha) as [-> _].
    + intros u l Hl. by destruct (HN _ _ Hl).
Qed.

(** The memory before the first task: room for the lists, nothing else. *)
Definition blank A : Prop := kernel_lists ⊆ a_mem A ∧ a_lists A = ∅ ∧ a_items A = ∅.

Lemma wp_first_create t p Q A :
  blank A → 0 ≤ p →
  (∀ k', unstarted k' → dom (tcbs (data k')) = {[t]} → a_items (lists k') = {[Ev t]} ∪ {[St t]} →
     ready (lists k') (clamped p) t → Q true k') →
  wp (xTaskCreate (Some t) p) Q (MkKernel A boot_data).
Proof.
  intros (Hm & Hl0 & Hi) Hp HQ. pose proof (clamped_range p Hp) as Hp'.
  unfold xTaskCreate. wp_step. apply wp_prvInitialiseNewTask; [simpl; rewrite Hi; set_solver..|].
  wp_step. unfold prvAddNewTaskToReadyList. do 6 wp_step. cbn [lists].
  wp_step. eapply wp_priority_of; [simpl; by rewrite lookup_insert_eq|]. simpl pxCurrentTCB.
  wp_step. wp_step. wp_step. wp_step. wp_step. wp_step; [|done]. intros _.
  apply wp_prvInitialiseTaskLists; [done|done|]. cbn [lists data]. intros A1 I1.
  match goal with |- wp _ _ (MkKernel _ ?d) => assert (E : d = first_data t (clamped p)) by
    (unfold first_data, counted_one; simpl; by rewrite insert_empty) end.
  rewrite E. clear E. pose proof (core_first A A1 t (clamped p) Hi Hp' I1) as K1.
  wp_step. eapply (wp_prvAddTaskToReadyList idle None 1 portMAX_DELAY t (new_tcb (clamped p)) _ (MkKernel A1 (first_data t (clamped p))));
    [exact K1|simpl; by rewrite lookup_singleton_eq|by left|intros l; by apply (initialised_none _ _ _ _ I1)|].
  cbn [lists data]. intros A' l d' Ed' Hl M K'. pose proof (ready_list_bound _ _ Hl).
  simpl xSchedulerRunning. wp_step. wp_step. apply HQ.
  - constructor; simpl; [done|by rewrite Ed'..| |].
    + apply (calm_data _ (first_data t (clamped p))); [|by rewrite Ed'..].
      eapply calm_moved; [|exact M|intros _ [= ->]; list_lia]. split; [done|]. intros _. split; [done|].
      intros i. by apply (initialised_none _ _ _ _ I1).
    + intros _ c C q u. rewrite Ed'. simpl. intros [= <-] HC (lq & Hq & Hh).
      rewrite lookup_singleton_eq in HC. injection HC as <-. simpl.
      apply (mv_holds _ _ _ _ _ M) in Hh as [[_ [= <-]]|[_ Hh]]; [|by destruct (initialised_none _ _ _ _ I1 Hh)].
      by rewrite (ready_list_inj _ _ _ Hq Hl).
  - rewrite Ed'. simpl. apply dom_singleton_L.
  - simpl. rewrite (mv_items _ _ _ _ _ M), (in_items _ _ _ I1). simpl. rewrite Hi. set_solver.
  - exists l. split; [done|]. by apply (moved_holds_eq _ _ _ _ _ _ M).
Qed.
End life.

(** Before the start the idle task does not matter. *)
Lemma unstarted_any idle idle' k : unstarted idle k → unstarted idle' k.
Proof.
  intros [[W Ti C] Hr Htk Ca Tr]. constructor; [|done..]. constructor; [|done..].
  destruct W as [Wok Wex Wit Wta Wow Wpr Wst Wtr Ws We Wr Ww Wto Wc Wi]. constructor; try done. congruence.
Qed.

(** Starting the scheduler establishes the invariant. *)
Lemma wp_vTaskStartScheduler idle Q k :
  unstarted idle k → tcbs (data k) !! idle = None → Z.of_nat (size (a_items (lists k))) + 2 < 4294967296 →
  (∀ k', inv idle k' → created idle 0 k k' → Q () k') → wp (vTaskStartScheduler (Some idle)) Q k.
Proof.
  intros U Ht Hsz HQ. unfold vTaskStartScheduler. wp_step.
  apply (wp_xTaskCreate_unstarted idle); [done..|]. intros k1 [[W Ti C] Hr Htk Ca Tr] Cr Hit.
  wp_step; [|done]. intros _. do 3 wp_step. do 2 wp_step. cbn [lists data].
  pose proof Cr as [(T & ET & HT) HR _]. apply HQ.
  - constructor; simpl; [|done|by apply (calm_data _ (data k1))|by apply (top_runs_data _ (data k1))].
    constructor.
    + destruct W as [Wok Wex Wit Wta Wow Wpr Wst Wtr Ws We Wr Ww Wto Wc Wi]. constructor; try done.
      intros _. split; [|by intros _]. simpl. exists T. split; [|done]. by rewrite ET, lookup_insert_eq.
    + destruct Ti as [Tp Tc To Ts Tw Tt]. constructor; simpl; try done. rewrite Htk in To. done.
    + by apply (counted_data _ (data k1)).
  - destruct Cr as [(T' & E & HT') R P]. constructor; [by exists T'|done|done].
Qed.

(** ** Deletion *)

(** The length of a list that gains or loses an item. *)
Lemma moved_length A A' i c o l a a' :
  lists_ok A → moved A A' i c o → a_lists A !! l = Some a → a_lists A' !! l = Some a' →
  (c = Some l → ¬ holds A l i → length (elems a') = S (length (elems a))) ∧
  (c ≠ Some l → holds A l i → length (elems a) = S (length (elems a'))).
Proof.
  intros O M Ha Ha'. pose proof (lo_nodup _ O _ _ Ha) as N. pose proof (lo_nodup _ (mv_ok _ _ _ _ _ M) _ _ Ha') as N'.
  assert (HH : ∀ j, j ∈ elems a' ↔ (j = i ∧ c = Some l) ∨ (j ≠ i ∧ j ∈ elems a)).
  { intros j. pose proof (mv_holds _ _ _ _ _ M l j) as HH. unfold holds in HH. rewrite Ha, Ha' in HH. naive_solver. }
  assert (Hin : holds A l i ↔ i ∈ elems a) by (unfold holds; rewrite Ha; naive_solver).
  rewrite Hin. split; intros Hc Hi.
  - apply (Permutation_length (l' := i :: elems a)), NoDup_Permutation; [done|by constructor|].
    intros j. rewrite HH, elem_of_cons. naive_solver.
  - apply (Permutation_length (l' := i :: elems a')), NoDup_Permutation; [done| |].
    + constructor; [|done]. rewrite HH. naive_solver.
    + intros j. rewrite elem_of_cons, HH. destruct (decide (j = i)); naive_solver.
Qed.

Section deletion.
Context (idle : TaskHandle_t).

Lemma core_insert_terminated lo nx A A' d t T o :
  core idle (Some t) None lo nx A d → tcbs d !! t = Some T → (∀ l, ¬ holds A l (Ev t)) →
  moved A A' (St t) (Some xTasksWaitingTermination) o → (xSchedulerRunning d = true → t ≠ idle) →
  core idle None None lo nx A' (set_uxDeletedTasksWaitingCleanUp (u32 (uxDeletedTasksWaitingCleanUp d + 1)) d).
Proof.
  intros [W Ti [Cn Cd Cg]] HT He M Hi. pose proof (wf_ok _ _ _ _ _ W) as O. constructor.
  - eapply (wf_data _ _ _ _ d); [|done|apply (wf_current _ _ _ _ _ W)|done|pose proof (wf_top _ _ _ _ _ W); simpl; lia].
    eapply wf_insert_st; [exact W|exact HT|exact M|list_lia| |done| |].
    + intros p Hp. pose proof (ready_list_bound _ _ Hp). list_lia.
    + intros l' Hl'. by destruct (He l').
    + intros Hr ->. by destruct (Hi Hr).
  - eapply (timed_data lo nx _ _ _ d); [|done..|lia|lia]. eapply timed_moved; [done..|].
    intros ? [= <-]. unfold delayed_list. list_lia.
  - constructor; simpl; [done| |].
    + intros a' Ha'. destruct (wf_exist _ _ _ _ _ W xTasksWaitingTermination) as [a Ha]; [list_lia|].
      destruct (moved_length _ _ _ _ _ _ _ _ O M Ha Ha') as [E _]. specialize (E eq_refl ltac:(by apply (wf_transit _ _ _ _ _ W))).
      pose proof (list_length _ _ _ (mv_ok _ _ _ _ _ M) Ha') as EL. rewrite E in EL |- *. rewrite (Cd _ Ha), <- EL.
      f_equal. lia.
    + intros u l. rewrite (moved_holds_ne _ _ _ _ _ l (Ev u) M) by item_ne.
      rewrite (mv_holds _ _ _ _ _ M). intros [[[= ->] _]|[_ Hu]]; [apply He|by apply Cg].
Qed.

(** A task leaves the list of deleted tasks. *)
Lemma core_remove_terminated lo nx A A' d t o :
  core idle None None lo nx A d → holds A xTasksWaitingTermination (St t) → moved A A' (St t) None o →
  core idle (Some t) None lo nx A' (set_uxDeletedTasksWaitingCleanUp (u32 (uxDeletedTasksWaitingCleanUp d - 1)) d).
Proof.
  intros [W Ti [Cn Cd Cg]] Hh M. pose proof (wf_ok _ _ _ _ _ W) as O. constructor.
  - eapply (wf_data _ _ _ _ d); [|done|apply (wf_current _ _ _ _ _ W)|done|pose proof (wf_top _ _ _ _ _ W); simpl; lia].
    by eapply wf_remove_st.
  - eapply (timed_data lo nx _ _ _ d); [|done..|lia|lia]. by eapply timed_moved.
  - constructor; simpl; [done| |].
    + intros a' Ha'. destruct (wf_exist _ _ _ _ _ W xTasksWaitingTermination) as [a Ha]; [list_lia|].
      destruct (moved_length _ _ _ _ _ _ _ _ O M Ha Ha') as [_ E]. specialize (E ltac:(done) Hh).
      rewrite (Cd _ Ha), E. rewrite <- (list_length _ _ _ (mv_ok _ _ _ _ _ M) Ha'). f_equal. lia.
    + intros u l. rewrite (moved_holds_ne _ _ _ _ _ l (Ev u) M) by item_ne.
      rewrite (mv_holds _ _ _ _ _ M). intros [[_ ?]|[_ Hu]]; [done|by apply Cg].
Qed.

Lemma wp_prvDeleteTCB t Q k :
  (St t ∈ a_items (lists k)) → (Ev t ∈ a_items (lists k)) →
  (∀ l, ¬ holds (lists k) l (St t)) → (∀ l, ¬ holds (lists k) l (Ev t)) →
  Q () (MkKernel (drop_items t (lists k)) (set_tcbs (delete t (tcbs (data k))) (data k))) →
  wp (prvDeleteTCB t) Q k.
Proof.
  intros H1 H2 H3 H4 HQ. unfold prvDeleteTCB, wp, mbind, K_bind, lst. simpl.
  rewrite (a_free_intro _ _ H1 H3). simpl. rewrite a_free_intro; [exact HQ| |done]. simpl. set_solver.
Qed.

Lemma top_drop A A' d d' t :
  top_runs A d → (∀ p u, ready A' p u → ready A p u) → tcbs d' = delete t (tcbs d) → pxCurrentTCB d ≠ Some t →
  pxCurrentTCB d' = pxCurrentTCB d → xYieldPending d' = xYieldPending d → top_runs A' d'.
Proof.
  intros Tr HR E Hne E1 E2 Y c C p u. rewrite E, E1. intros Hc [_ HC]%lookup_delete_Some Hu%HR.
  rewrite E2 in Y. by apply (Tr Y c C p u).
Qed.

(** Deleting the running task leaves its memory to the idle task. *)
Lemma wp_delete_self t T l A2 o1 o2 A1 Q k :
  inv idle k → tcbs (data k) !! t = Some T → pxCurrentTCB (data k) = Some t → t ≠ idle →
  holds (lists k) l (St t) → l ≠ xTasksWaitingTermination →
  moved (lists k) A1 (St t) None o1 → moved A1 A2 (Ev t) None o2 →
  (∀ k', inv idle k' → holds (lists k') xTasksWaitingTermination (St t) → Q () k') →
  wp (listINSERT_END xTasksWaitingTermination (St t);;
      upd (λ d, set_uxDeletedTasksWaitingCleanUp (u32 (uxDeletedTasksWaitingCleanUp d + 1)) d);;
      when (xSchedulerRunning (data k)) portYIELD) Q (MkKernel A2 (data k)).
Proof.
  intros [C Hr Ca Tr] HT Hc Hi Hl Hl10 M1 M2 HQ.
  pose proof (core_remove_ev _ _ _ _ _ _ _ _ _ _ (core_remove_st _ _ _ _ _ _ _ _ _ _ C Hl Hl10 M1) M2) as C2.
  pose proof (co_wf _ _ _ _ _ _ _ C2) as W2.
  wp_step. apply wp_listINSERT_END; simpl; [apply W2|apply W2; list_lia| | |].
  { apply (wf_st_item _ _ _ _ _ _ W2). by exists T. }
  { intros l'. by apply (wf_transit _ _ _ _ _ W2). }
  intros A3 M3. do 2 wp_step. wp_step; [intros _|congruence].
  assert (C3 := core_insert_terminated _ _ A2 A3 (data k) t T False C2 HT
    ltac:(intros l'; by rewrite (moved_holds_eq _ _ _ _ _ _ M2)) M3 ltac:(done)).
  apply (wp_yield idle); simpl; [done| |done|].
  - apply (calm_data _ (data k)); [|done..].
    by apply (calm_moved _ _ _ _ _ _ (calm_moved _ _ _ _ _ _ (calm_moved _ _ _ _ _ _ Ca M1 ltac:(done)) M2 ltac:(done)) M3).
  - intros k4 S4 I4. apply HQ; [done|]. apply switched_quiet in S4; [|apply C3]. apply (qu_place _ _ S4).
    by apply (moved_holds_eq _ _ _ _ _ _ M3).
Qed.

(** Another task's memory goes at once. *)
Lemma wp_delete_other t T l A2 o1 o2 A1 Q k :
  inv idle k → tcbs (data k) !! t = Some T → pxCurrentTCB (data k) ≠ Some t → t ≠ idle →
  holds (lists k) l (St t) → l ≠ xTasksWaitingTermination →
  moved (lists k) A1 (St t) None o1 → moved A1 A2 (Ev t) None o2 →
  (∀ k', inv idle k' → tcbs (data k') = delete t (tcbs (data k)) → Q () k') →
  wp (upd (λ d, set_uxCurrentNumberOfTasks (u32 (uxCurrentNumberOfTasks d - 1)) d);;
      prvResetNextTaskUnblockTime;; prvDeleteTCB t) Q (MkKernel A2 (data k)).
Proof.
  intros [C Hr Ca Tr] HT Hc Hi Hl Hl10 M1 M2 HQ.
  pose proof (core_remove_ev _ _ _ _ _ _ _ _ _ _ (core_remove_st _ _ _ _ _ _ _ _ _ _ C Hl Hl10 M1) M2) as C2.
  pose proof C2 as [W2 T2 N2].
  do 2 wp_step. set (d2 := set_uxCurrentNumberOfTasks (u32 (uxCurrentNumberOfTasks (data k) - 1)) (data k)). wp_step.
  eapply (wp_reset_timed idle (Some t) None _ _ _ (MkKernel A2 d2)).
  { apply (wf_data _ _ _ _ (data k)); [done|done|apply (wf_current _ _ _ _ _ W2)|done|].
    pose proof (wf_top _ _ _ _ _ W2). simpl. lia. }
  { eapply timed_data; [exact T2|done..|reflexivity|reflexivity]. }
  simpl. intros v Tv.
  assert (He : ∀ l', ¬ holds A2 l' (Ev t)) by (intros l'; by rewrite (moved_holds_eq _ _ _ _ _ _ M2)).
  assert (Cv : core idle (Some t) None (xTickCount (data k) + 1) v A2 (set_xNextTaskUnblockTime v (data k))).
  { constructor; [|by destruct Tv|by apply (counted_data _ (data k))].
    apply (wf_data _ _ _ _ (data k)); [done|done|apply (wf_current _ _ _ _ _ W2)|done|].
    pose proof (wf_top _ _ _ _ _ W2). simpl. lia. }
  pose proof (core_drop _ _ _ _ _ _ Cv ltac:(by exists T) He Hi Hc) as C3.
  apply wp_prvDeleteTCB; simpl; [apply (wf_st_item _ _ _ _ _ _ W2); by exists T|
    apply (wf_ev_item _ _ _ _ _ _ W2); by exists T|intros l'; by apply (wf_transit _ _ _ _ _ W2)|done|].
  apply HQ; [|done]. constructor; simpl; [exact C3|done| |].
  - apply (calm_data _ (data k)); [|done..].
    apply (calm_same_place A2); [|done]. by apply (calm_moved _ _ _ _ _ _ (calm_moved _ _ _ _ _ _ Ca M1 ltac:(done)) M2).
  - apply (top_drop (lists k) _ (data k) _ t); try done. intros p u Hu.
    eapply ready_moved; [exact M1|done|]. by eapply ready_moved; [exact M2|..].
Qed.

Lemma wp_vTaskDelete h Q k :
  inv idle k → (∀ t, (match h with Some u => t = u | None => pxCurrentTCB (data k) = Some t end) → alive k t ∧ t ≠ idle) →
  (∀ k' t, inv idle k' →
     (if bool_decide (pxCurrentTCB (data k) = Some t) then holds (lists k') xTasksWaitingTermination (St t)
      else tcbs (data k') = delete t (tcbs (data k))) → Q () k') →
  wp (vTaskDelete h) Q k.
Proof.
  intros I Ht HQ. pose proof I as [C Hr Ca Tr]. pose proof (co_wf _ _ _ _ _ _ _ C) as W.
  unfold vTaskDelete. wp_step. apply wp_prvGetTCBFromHandle with idle; [done|]. intros t Htu.
  destruct (Ht t Htu) as [[[T HT] Hal] Hti].
  destruct (wf_state _ _ _ _ _ W t) as [l Hl]; [by exists T|done|].
  assert (Hl10 : l ≠ xTasksWaitingTermination) by (intros ->; done).
  wp_step. apply (wp_listREMOVE_ITEM _ (wf_ok _ _ _ _ _ W) l); [done|]. intros A1 M1.
  pose proof (core_remove_st _ _ _ _ _ _ _ _ _ _ C Hl Hl10 M1) as C1.
  wp_step. eapply wp_remove_if_linked; [apply C1|by exists T|]. simpl. intros A2 M2.
  do 4 wp_step. simpl. apply wp_if; [intros Hc%bool_decide_eq_true|intros Hc%bool_decide_eq_false].
  - eapply wp_delete_self; [exact I|exact HT|done|done|exact Hl|done|exact M1|exact M2|].
    intros k' I' Hk'. apply (HQ k' t); [done|]. by rewrite bool_decide_eq_true_2.
  - eapply wp_delete_other; [exact I|exact HT|done|done|exact Hl|done|exact M1|exact M2|].
    intros k' I' Hk'. apply (HQ k' t); [done|]. by rewrite bool_decide_eq_false_2.
Qed.

(** The idle task frees the deleted tasks. *)
Lemma wp_cleanup_loop n Q k a :
  inv idle k → (∃ c p, pxCurrentTCB (data k) = Some c ∧ ready (lists k) p c) →
  a_lists (lists k) !! xTasksWaitingTermination = Some a → length (elems a) = n →
  (∀ k', inv idle k' → (∀ t, ¬ holds (lists k') xTasksWaitingTermination (St t)) →
     (∀ t, ¬ holds (lists k) xTasksWaitingTermination (St t) → tcbs (data k') !! t = tcbs (data k) !! t) → Q () k') →
  wp (cleanup_loop n) Q k.
Proof.
  revert k a. induction n as [|n IH]; intros k a I Hrun Ha Hn HQ; simpl.
  { wp_step. apply HQ; [done| |done]. intros t (b & Hb & Hh). simplify_eq. apply nil_length_inv in Hn.
    rewrite Hn in Hh. by apply elem_of_nil in Hh. }
  pose proof I as [C Hr Ca Tr]. pose proof (co_wf _ _ _ _ _ _ _ C) as W.
  destruct (elems a) as [|i xs] eqn:Ei; [done|]. wp_step. apply (wp_head_owner _ _ a i xs); [done..|].
  assert (Hi : holds (lists k) xTasksWaitingTermination i) by (exists a; split; [done|rewrite Ei; by left]).
  destruct (wf_on_state_list _ _ _ _ _ xTasksWaitingTermination i W ltac:(list_lia) Hi) as (t & -> & [T HT] & ->).
  assert (Hready : ∀ p u, ready (lists k) p u → u ≠ t).
  { intros p u R ->. destruct (ready_not_terminated _ _ _ _ _ _ _ _ W R Hi). done. }
  assert (Hti : t ≠ idle).
  { intros ->. destruct (wf_idle _ _ _ _ _ W Hr) as [_ R]. by apply (Hready 0 idle); [apply R|]. }
  destruct Hrun as (c & p & Hc & Rc). assert (Hct : c ≠ t) by by apply (Hready p).
  wp_step. apply (wp_listREMOVE_ITEM _ (wf_ok _ _ _ _ _ W) _ _ _ Hi). intros A1 M1.
  pose proof (core_remove_terminated _ _ _ _ _ _ _ C Hi M1) as C1. pose proof (co_wf _ _ _ _ _ _ _ C1) as W1.
  assert (He : ∀ l, ¬ holds A1 l (Ev t)).
  { intros l. rewrite (moved_holds_ne _ _ _ _ _ _ _ M1) by item_ne. by apply (ct_gone _ _ (co_counted _ _ _ _ _ _ _ C)). }
  pose proof (core_drop _ _ _ _ _ _ C1 ltac:(by exists T) He Hti ltac:(simpl; congruence)) as C2.
  do 4 wp_step. wp_step. apply wp_prvDeleteTCB; simpl; [apply (wf_st_item _ _ _ _ _ _ W1); by exists T|
    apply (wf_ev_item _ _ _ _ _ _ W1); by exists T|intros l'; by apply (wf_transit _ _ _ _ _ W1)|done|].
  set (k2 := MkKernel _ _).
  assert (I2 : inv idle k2).
  { constructor; simpl; [exact C2|done| |].
    - apply (calm_data _ (data k)); [|done..]. apply (calm_same_place A1); [|done]. by apply (calm_moved _ _ _ _ _ _ Ca M1).
    - apply (top_drop (lists k) _ (data k) _ t); try done; [|simpl; congruence]. intros q u. by apply (ready_moved _ _ _ _ _ _ _ M1). }
  destruct (wf_exist _ _ _ _ _ (co_wf _ _ _ _ _ _ _ C2) xTasksWaitingTermination) as [a2 Ha2]; [list_lia|].
  apply (IH k2 a2); [done| |done| |].
  - exists c, p. split; [done|]. destruct Rc as (l & Hl & Hh). exists l. split; [done|].
    apply (moved_holds_ne _ _ _ _ _ _ _ M1); [item_ne|done].
  - destruct (moved_length _ _ _ _ _ _ _ _ (wf_ok _ _ _ _ _ W) M1 Ha Ha2) as [_ E]. specialize (E ltac:(done) Hi).
    rewrite Ei in E. simpl in *. congruence.
  - intros k' I' Hn' Hk'. apply HQ; [done|done|]. intros u Hu. rewrite Hk'.
    + simpl. apply lookup_delete_ne. by intros ->.
    + intros H1. apply Hu. by apply (mv_holds _ _ _ _ _ M1) in H1 as [[_ ?]|[_ ?]].
Qed.

Lemma wp_prvCheckTasksWaitingTermination Q k :
  inv idle k → (∃ c p, pxCurrentTCB (data k) = Some c ∧ ready (lists k) p c) →
  (∀ k', inv idle k' → (∀ t, ¬ holds (lists k') xTasksWaitingTermination (St t)) →
     (∀ t, ¬ holds (lists k) xTasksWaitingTermination (St t) → tcbs (data k') !! t = tcbs (data k) !! t) → Q () k') →
  wp prvCheckTasksWaitingTermination Q k.
Proof.
  intros I Hrun HQ. unfold prvCheckTasksWaitingTermination. do 2 wp_step.
  destruct (wf_exist _ _ _ _ _ (co_wf _ _ _ _ _ _ _ (inv_core _ _ I)) xTasksWaitingTermination) as [a Ha]; [list_lia|].
  apply (wp_cleanup_loop _ _ _ a); [done..| |done].
  rewrite (ct_deleted _ _ (co_counted _ _ _ _ _ _ _ (inv_core _ _ I)) _ Ha). lia.
Qed.
End deletion.
