(* ===== verification/TaskNotify.v ===== *)
(** * Task notifications (FreeRTOS-Kernel/tasks.c)

    Every task has an array of notification values, each with a state.  A
    task waits for one of them to be notified; others, and interrupts, change
    the value and wake it.  The two critical sections of a waiting function
    are two definitions: between them other tasks run. *)
From S2P Require Import Prelude RtosList KList Tasks TasksSim TasksInv TasksOk TasksApi.
Local Open Scope Z_scope.
Implicit Types (k : akernel) (l : positive) (t : TaskHandle_t) (i : nat).

Inductive eNotifyAction :=
  | eNoAction
  | eSetBits
  | eIncrement
  | eSetValueWithOverwrite
  | eSetValueWithoutOverwrite.

(** The [switch( eAction )]: the new value and [xReturn], from the state and
    the value before. *)
Definition notify_value (eAction : eNotifyAction) (ulValue state v : Z) : Z * bool :=
  match eAction with
  | eSetBits => (Z.lor v ulValue, true)
  | eIncrement => (u32 (v + 1), true)
  | eSetValueWithOverwrite => (ulValue, true)
  | eSetValueWithoutOverwrite =>
      if negb (state =? taskNOTIFICATION_RECEIVED) then (ulValue, true) else (v, false)
  | eNoAction => (v, true)
  end.

Definition clear_bits (v bits : Z) : Z := Z.land v (Z.lnot bits).

(** A TCB with entry [i] of the two arrays written. *)
Definition with_notification (i : nat) (v s : Z) (T : TCB) : TCB :=
  MkTCB (uxPriority T) (<[i := v]> (ulNotifiedValue T)) (<[i := s]> (ucNotifyState T)).

Section operations.
Context `{KLists L}.

(** Value and state of entry [i]; out of range there is none. *)
Definition notification (t : TaskHandle_t) (i : nat) : K L (Z * Z) :=
  T ← tcb t; v ← deref (ulNotifiedValue T !! i); s ← deref (ucNotifyState T !! i); mret (v, s).

(** The first critical section of [ulTaskGenericNotifyTake]. *)
Definition ulTaskGenericNotifyTake_block (i : nat) (xTicksToWait : Z) : K L unit :=
  c ← current; vs ← notification c i;
  when (vs.1 =? 0)
    (wr_tcb c (with_notification i vs.1 taskWAITING_NOTIFICATION);;
     when (0 <? xTicksToWait) (prvAddCurrentTaskToDelayedList xTicksToWait true;; portYIELD)).

(** The second one. *)
Definition ulTaskGenericNotifyTake_return (i : nat) (xClearCountOnExit : bool) : K L Z :=
  c ← current; vs ← notification c i;
  let v := if negb (vs.1 =? 0) then (if xClearCountOnExit then 0 else u32 (vs.1 - 1)) else vs.1 in
  wr_tcb c (with_notification i v taskNOT_WAITING_NOTIFICATION);;
  mret vs.1.

(** The same two of [xTaskGenericNotifyWait]; the result is
    [*pulNotificationValue] and [xReturn]. *)
Definition xTaskGenericNotifyWait_block (i : nat) (ulBitsToClearOnEntry xTicksToWait : Z) : K L unit :=
  c ← current; vs ← notification c i;
  when (negb (vs.2 =? taskNOTIFICATION_RECEIVED))
    (wr_tcb c (with_notification i (clear_bits vs.1 ulBitsToClearOnEntry) taskWAITING_NOTIFICATION);;
     when (0 <? xTicksToWait) (prvAddCurrentTaskToDelayedList xTicksToWait true;; portYIELD)).

Definition xTaskGenericNotifyWait_return (i : nat) (ulBitsToClearOnExit : Z) : K L (Z * bool) :=
  c ← current; vs ← notification c i;
  let received := vs.2 =? taskNOTIFICATION_RECEIVED in
  let v := if received then clear_bits vs.1 ulBitsToClearOnExit else vs.1 in
  wr_tcb c (with_notification i v taskNOT_WAITING_NOTIFICATION);;
  mret (vs.1, received).

(** The result is [xReturn] and [*pulPreviousNotificationValue]. *)
Definition xTaskGenericNotify (t : TaskHandle_t) (i : nat) (ulValue : Z) (eAction : eNotifyAction) : K L (bool * Z) :=
  vs ← notification t i;
  let r := notify_value eAction ulValue vs.2 vs.1 in
  wr_tcb t (with_notification i r.1 taskNOTIFICATION_RECEIVED);;
  when (vs.2 =? taskWAITING_NOTIFICATION)
    (listREMOVE_ITEM (St t);; prvAddTaskToReadyList t;;
     p ← priority_of t; c ← current; pc ← priority_of c;
     when (pc <? p) portYIELD);;
  mret (r.2, vs.1).

(** The result is [xReturn], [*pulPreviousNotificationValue] and
    [*pxHigherPriorityTaskWoken]. *)
Definition xTaskGenericNotifyFromISR (t : TaskHandle_t) (i : nat) (ulValue : Z) (eAction : eNotifyAction)
    : K L (bool * Z * bool) :=
  vs ← notification t i;
  let r := notify_value eAction ulValue vs.2 vs.1 in
  wr_tcb t (with_notification i r.1 taskNOTIFICATION_RECEIVED);;
  w ← (if vs.2 =? taskWAITING_NOTIFICATION then ready_or_pend t else mret false);
  mret (r.2, vs.1, w).

Definition vTaskGenericNotifyGiveFromISR (t : TaskHandle_t) (i : nat) : K L bool :=
  vs ← notification t i;
  wr_tcb t (with_notification i (u32 (vs.1 + 1)) taskNOTIFICATION_RECEIVED);;
  if vs.2 =? taskWAITING_NOTIFICATION then ready_or_pend t else mret false.

Definition xTaskGenericNotifyStateClear (h : option TaskHandle_t) (i : nat) : K L bool :=
  t ← prvGetTCBFromHandle h; vs ← notification t i;
  if vs.2 =? taskNOTIFICATION_RECEIVED
  then wr_tcb t (with_notification i vs.1 taskNOT_WAITING_NOTIFICATION);; mret true
  else mret false.

Definition ulTaskGenericNotifyValueClear (h : option TaskHandle_t) (i : nat) (ulBitsToClear : Z) : K L Z :=
  t ← prvGetTCBFromHandle h; vs ← notification t i;
  wr_tcb t (with_notification i (clear_bits vs.1 ulBitsToClear) vs.2);;
  mret vs.1.
End operations.

(** ** On the store as on the abstract state *)
Section sim.
Context `{HL : KLists L, HA : KLists A} {R : L → A → Prop} {HS : KListsSim L A R}.
Local Abbreviation sim f := (ksim (R := R) f f).

Lemma sim_notification t i : sim (notification t i).
Proof. unfold notification. ksim. Qed.
#[local] Hint Resolve sim_notification : ksim.
Lemma sim_NotifyTake_block i n : sim (ulTaskGenericNotifyTake_block i n).
Proof. unfold ulTaskGenericNotifyTake_block. ksim. Qed.
Lemma sim_NotifyTake_return i b : sim (ulTaskGenericNotifyTake_return i b).
Proof. unfold ulTaskGenericNotifyTake_return. ksim. Qed.
Lemma sim_NotifyWait_block i b n : sim (xTaskGenericNotifyWait_block i b n).
Proof. unfold xTaskGenericNotifyWait_block. ksim. Qed.
Lemma sim_NotifyWait_return i b : sim (xTaskGenericNotifyWait_return i b).
Proof. unfold xTaskGenericNotifyWait_return. ksim. Qed.
Lemma sim_xTaskGenericNotify t i v a : sim (xTaskGenericNotify t i v a).
Proof. unfold xTaskGenericNotify. ksim. Qed.
Lemma sim_xTaskGenericNotifyFromISR t i v a : sim (xTaskGenericNotifyFromISR t i v a).
Proof. unfold xTaskGenericNotifyFromISR. ksim. Qed.
Lemma sim_vTaskGenericNotifyGiveFromISR t i : sim (vTaskGenericNotifyGiveFromISR t i).
Proof. unfold vTaskGenericNotifyGiveFromISR. ksim. Qed.
Lemma sim_xTaskGenericNotifyStateClear h i : sim (xTaskGenericNotifyStateClear h i).
Proof. unfold xTaskGenericNotifyStateClear. ksim. Qed.
Lemma sim_ulTaskGenericNotifyValueClear h i b : sim (ulTaskGenericNotifyValueClear h i b).
Proof. unfold ulTaskGenericNotifyValueClear. ksim. Qed.
End sim.

#[export] Hint Resolve sim_NotifyTake_block sim_NotifyTake_return sim_NotifyWait_block sim_NotifyWait_return
  sim_xTaskGenericNotify sim_xTaskGenericNotifyFromISR sim_vTaskGenericNotifyGiveFromISR
  sim_xTaskGenericNotifyStateClear sim_ulTaskGenericNotifyValueClear : ksim.

(** ** The invariant *)
Definition waiting k t i : Prop := ∃ T, tcbs (data k) !! t = Some T ∧ ucNotifyState T !! i = Some taskWAITING_NOTIFICATION.

(** Entry [i] of task [t]: value and state. *)
Definition notified k t i (v s : Z) : Prop :=
  ∃ T, tcbs (data k) !! t = Some T ∧ ulNotifiedValue T !! i = Some v ∧ ucNotifyState T !! i = Some s.

Section specs.
Context (idle : TaskHandle_t).

Lemma notified_exists k t i :
  inv idle k → is_Some (tcbs (data k) !! t) → (i < configTASK_NOTIFICATION_ARRAY_ENTRIES)%nat → ∃ v s, notified k t i v s.
Proof.
  intros I [T HT] Hi. destruct (wf_tcb _ _ _ _ _ (co_wf _ _ _ _ _ _ _ (inv_core _ _ I)) _ _ HT) as [_ L1 L2].
  destruct (lookup_lt_is_Some_2 (ulNotifiedValue T) i) as [v Hv]; [by rewrite L1|].
  destruct (lookup_lt_is_Some_2 (ucNotifyState T) i) as [s Hs]; [by rewrite L2|]. by exists v, s, T.
Qed.

Lemma wp_notification k t i v s Q : notified k t i v s → Q (v, s) k → wp (notification t i) Q k.
Proof.
  intros (T & HT & Hv & Hs) HQ. unfold notification. wp_step. apply (wp_tcb _ _ T); [done|].
  wp_step. apply (wp_deref _ _ _ _ Hv). wp_step. by apply (wp_deref _ _ _ _ Hs).
Qed.

(** Writing an entry. *)
Definition notify_entry (t : TaskHandle_t) (i : nat) (v s : Z) k : akernel :=
  MkKernel (lists k) (set_tcbs (alter (with_notification i v s) t (tcbs (data k))) (data k)).

Lemma wp_write_notification k t i v s Q :
  is_Some (tcbs (data k) !! t) → Q () (notify_entry t i v s k) → wp (wr_tcb t (with_notification i v s)) Q k.
Proof.
  intros [T HT] HQ. apply (wp_wr_tcb _ _ T); [done|]. unfold notify_entry in HQ.
  replace (alter _ t _) with (<[t := with_notification i v s T]> (tcbs (data k))) in HQ; [done|].
  apply map_eq. intros u. destruct (decide (t = u)) as [<-|].
  - by rewrite lookup_insert_eq, lookup_alter_eq, HT.
  - by rewrite lookup_insert_ne, lookup_alter_ne.
Qed.

Lemma inv_notify_entry k t i v s : inv idle k → inv idle (notify_entry t i v s k).
Proof.
  intros I. destruct (tcbs (data k) !! t) as [T|] eqn:HT.
  - unfold notify_entry. replace (alter _ t _) with (<[t := with_notification i v s T]> (tcbs (data k))).
    2:{ apply map_eq. intros u. destruct (decide (t = u)) as [<-|].
        - by rewrite lookup_insert_eq, lookup_alter_eq, HT.
        - by rewrite lookup_insert_ne, lookup_alter_ne. }
    destruct I as [[W Ti C] Hr Ca Tr]. constructor; simpl; [|done|by apply (calm_data _ (data k))|].
    + constructor; [|eapply timed_data; [exact Ti|done..|reflexivity|reflexivity]|by apply (counted_set_tcb _ _ _ T)].
      apply (wf_set_tcb _ _ _ _ _ t T); [done|done| |by left].
      destruct (wf_tcb _ _ _ _ _ W _ _ HT). constructor; simpl; [done|by rewrite length_insert..].
    + by apply (top_set_tcb k t T (with_notification i v s T)).
  - unfold notify_entry. rewrite alter_id; [|intros x; by rewrite HT].
    replace (set_tcbs _ _) with (data k) by by destruct (data k). by rewrite kernel_eta.
Qed.

Lemma notify_entry_exists k t i v s u : is_Some (tcbs (data (notify_entry t i v s k)) !! u) ↔ is_Some (tcbs (data k) !! u).
Proof.
  simpl. destruct (decide (t = u)) as [<-|]; [|by rewrite lookup_alter_ne].
  rewrite lookup_alter_eq. destruct (tcbs (data k) !! t); simpl; by split; intros [? ?]; eexists.
Qed.

Lemma notify_entry_spec k t i v s v' s' :
  notified k t i v' s' → notified (notify_entry t i v s k) t i v s.
Proof.
  intros (T & HT & Hv & Hs). exists (with_notification i v s T). simpl. rewrite lookup_alter_eq, HT. split; [done|].
  split; apply list_lookup_insert_eq; [by apply lookup_lt_Some in Hv|by apply lookup_lt_Some in Hs].
Qed.

Lemma notified_same k k' t i v s : tcbs (data k') = tcbs (data k) → notified k t i v s → notified k' t i v s.
Proof. unfold notified. by intros ->. Qed.

(** Blocked for [n] ticks, or until woken when [n] is [portMAX_DELAY]. *)
Definition parked k t (n : Z) : Prop :=
  if n =? portMAX_DELAY then holds (lists k) xSuspendedTaskList (St t) else time_left k t n.

Lemma parked_quiet k k' t n : quiet k k' → parked k t n → parked k' t n.
Proof.
  intros Qu. unfold parked. destruct (_ =? _); [apply (qu_place _ _ Qu)|by apply time_left_quiet].
Qed.

Lemma blocked_parked k k' c n :
  blocked_for n true c k k' → is_u32 (xTickCount (data k)) → 0 < n < 4294967296 → parked k' c n.
Proof.
  intros B Ht Hn. unfold parked. destruct (Z.eqb_spec n portMAX_DELAY) as [->|Hne].
  - apply (bf_where _ _ _ _ _ B).
  - apply (blocked_time_left k); [|done..]. destruct B as [H1 H2 H3 H4]. constructor; [done..|].
    rewrite (proj2 (Z.eqb_neq _ _)) in H4 |- * by done. done.
Qed.

(** Blocking on an entry that has just been marked. *)
Lemma wp_wait_notification n c i v Q k :
  inv idle k → running k c → c ≠ idle → 0 <= n < 4294967296 → (∃ v' s', notified k c i v' s') →
  (∀ k', inv idle k' → notified k' c i v taskWAITING_NOTIFICATION → (0 < n → parked k' c n) →
     (∀ u, u ≠ c → same_place k k' u) → Q () k') →
  wp (wr_tcb c (with_notification i v taskWAITING_NOTIFICATION);;
      when (0 <? n) (prvAddCurrentTaskToDelayedList n true;; portYIELD)) Q k.
Proof.
  intros I R Hci Hn (v' & s' & Hvs) HQ. wp_step.
  apply wp_write_notification; [destruct Hvs as (T & HT & _); by exists T|].
  set (k1 := notify_entry c i v taskWAITING_NOTIFICATION k).
  pose proof (inv_notify_entry k c i v taskWAITING_NOTIFICATION I) as I1. fold k1 in I1.
  pose proof (notify_entry_spec k c i v taskWAITING_NOTIFICATION _ _ Hvs) as Hvs1. fold k1 in Hvs1.
  wp_step; intros Hp.
  - apply Z.ltb_lt in Hp. wp_step. apply (wp_block idle n true c); [done|done|done|lia|]. intros k2 I2 B.
    destruct (bf_data _ _ _ _ _ B) as [w E2].
    apply (wp_yield idle); [apply I2..|]. intros k3 S3 I3.
    pose proof (switched_quiet _ _ (wf_ok _ _ _ _ _ (co_wf _ _ _ _ _ _ _ (inv_core _ _ I2))) S3) as Q3.
    apply HQ; [done| | |].
    + apply (notified_same k1); [|done]. destruct Q3 as [[= ->]]. by rewrite E2.
    + intros _. apply (parked_quiet k2); [done|]. apply (blocked_parked k1); [done| |lia].
      apply (td_tick _ _ _ _ (co_timed _ _ _ _ _ _ _ (inv_core _ _ I1))).
    + intros u Hu l. pose proof (blocked_others _ _ _ _ _ _ B Hu l) as P1. pose proof (qu_place _ _ Q3 u l). simpl in *. naive_solver.
  - apply Z.ltb_ge in Hp. apply HQ; [done|done|lia|done].
Qed.

Lemma wp_NotifyTake_block i n c v s Q k :
  inv idle k → running k c → c ≠ idle → 0 <= n < 4294967296 → notified k c i v s →
  (v ≠ 0 → Q () k) →
  (v = 0 → ∀ k', inv idle k' → notified k' c i 0 taskWAITING_NOTIFICATION → (0 < n → parked k' c n) → Q () k') →
  wp (ulTaskGenericNotifyTake_block i n) Q k.
Proof.
  intros I R Hci Hn Hvs H1 H2. unfold ulTaskGenericNotifyTake_block. wp_step. apply (wp_current _ c); [apply R|].
  wp_step. apply (wp_notification _ _ _ v s); [done|]. wp_step; simpl; intros Hv.
  - apply Z.eqb_eq in Hv as ->. apply wp_wait_notification; [done..|by eauto|auto].
  - apply Z.eqb_neq in Hv. auto.
Qed.

Lemma wp_NotifyWait_block i bits n c v s Q k :
  inv idle k → running k c → c ≠ idle → 0 <= n < 4294967296 → notified k c i v s →
  (s = taskNOTIFICATION_RECEIVED → Q () k) →
  (s ≠ taskNOTIFICATION_RECEIVED → ∀ k', inv idle k' → notified k' c i (clear_bits v bits) taskWAITING_NOTIFICATION →
     (0 < n → parked k' c n) → Q () k') →
  wp (xTaskGenericNotifyWait_block i bits n) Q k.
Proof.
  intros I R Hci Hn Hvs H1 H2. unfold xTaskGenericNotifyWait_block. wp_step. apply (wp_current _ c); [apply R|].
  wp_step. apply (wp_notification _ _ _ v s); [done|]. wp_step; simpl; intros Hv.
  - apply negb_true_iff, Z.eqb_neq in Hv. apply wp_wait_notification; [done..|by eauto|auto].
  - apply negb_false_iff, Z.eqb_eq in Hv. auto.
Qed.

(** The functions that only write an entry. *)
Lemma wp_NotifyTake_return i (b : bool) c v s Q k :
  inv idle k → pxCurrentTCB (data k) = Some c → notified k c i v s →
  (∀ k', inv idle k' → k' = notify_entry c i (if v =? 0 then 0 else if b then 0 else u32 (v - 1)) taskNOT_WAITING_NOTIFICATION k →
     Q v k') →
  wp (ulTaskGenericNotifyTake_return i b) Q k.
Proof.
  intros I Hc Hvs HQ. unfold ulTaskGenericNotifyTake_return. wp_step. apply (wp_current _ c); [done|].
  wp_step. apply (wp_notification _ _ _ v s); [done|]. cbv zeta. wp_step.
  apply wp_write_notification; [destruct Hvs as (T & HT & _); by exists T|]. wp_step.
  apply HQ; [by apply inv_notify_entry|]. f_equal. simpl. by destruct (Z.eqb_spec v 0) as [->|].
Qed.

Lemma wp_NotifyWait_return i bits c v s Q k :
  inv idle k → pxCurrentTCB (data k) = Some c → notified k c i v s →
  (∀ k', inv idle k' → k' = notify_entry c i (if s =? taskNOTIFICATION_RECEIVED then clear_bits v bits else v)
       taskNOT_WAITING_NOTIFICATION k → Q (v, s =? taskNOTIFICATION_RECEIVED) k') →
  wp (xTaskGenericNotifyWait_return i bits) Q k.
Proof.
  intros I Hc Hvs HQ. unfold xTaskGenericNotifyWait_return. wp_step. apply (wp_current _ c); [done|].
  wp_step. apply (wp_notification _ _ _ v s); [done|]. cbv zeta. wp_step.
  apply wp_write_notification; [destruct Hvs as (T & HT & _); by exists T|]. wp_step.
  apply HQ; [by apply inv_notify_entry|done].
Qed.

Lemma wp_NotifyStateClear h i Q k :
  inv idle k → (i < configTASK_NOTIFICATION_ARRAY_ENTRIES)%nat →
  (∀ t, (match h with Some u => t = u | None => pxCurrentTCB (data k) = Some t end) → is_Some (tcbs (data k) !! t)) →
  (∀ k' y, inv idle k' → Q y k') → wp (xTaskGenericNotifyStateClear h i) Q k.
Proof.
  intros I Hi Ht HQ. unfold xTaskGenericNotifyStateClear. wp_step.
  apply (wp_prvGetTCBFromHandle idle); [apply I|]. intros t Htu. specialize (Ht t Htu).
  destruct (notified_exists k t i I Ht Hi) as (v & s & Hvs). wp_step. apply (wp_notification _ _ _ v s); [done|].
  apply wp_if; intros _; [|wp_step; by apply HQ]. wp_step. apply wp_write_notification; [done|]. wp_step.
  by apply HQ, inv_notify_entry.
Qed.

Lemma wp_NotifyValueClear h i bits Q k :
  inv idle k → (i < configTASK_NOTIFICATION_ARRAY_ENTRIES)%nat →
  (∀ t, (match h with Some u => t = u | None => pxCurrentTCB (data k) = Some t end) → is_Some (tcbs (data k) !! t)) →
  (∀ k' v, inv idle k' → Q v k') → wp (ulTaskGenericNotifyValueClear h i bits) Q k.
Proof.
  intros I Hi Ht HQ. unfold ulTaskGenericNotifyValueClear. wp_step.
  apply (wp_prvGetTCBFromHandle idle); [apply I|]. intros t Htu. specialize (Ht t Htu).
  destruct (notified_exists k t i I Ht Hi) as (v & s & Hvs). wp_step. apply (wp_notification _ _ _ v s); [done|].
  wp_step. apply wp_write_notification; [done|]. wp_step. by apply HQ, inv_notify_entry.
Qed.

(** ** Notifying

    A task that waits for a notification waits for no event. *)
Definition notifiable k t i : Prop :=
  alive k t ∧ (i < configTASK_NOTIFICATION_ARRAY_ENTRIES)%nat ∧
  (waiting k t i → ∀ l, ¬ holds (lists k) l (Ev t)).

Lemma notified_waiting k t i v s : notified k t i v s → waiting k t i ↔ s = taskWAITING_NOTIFICATION.
Proof.
  intros (T & HT & Hv & Hs). split.
  - intros (T' & HT' & Hs'). congruence.
  - intros ->. by exists T.
Qed.

Lemma wp_xTaskGenericNotify t i w a v s Q k :
  inv idle k → notifiable k t i → notified k t i v s →
  (∀ k', inv idle k' →
     notified k' t i (notify_value a w s v).1 taskNOTIFICATION_RECEIVED →
     (s = taskWAITING_NOTIFICATION → awake k' t) → (∀ u, u ≠ t → same_place k k' u) →
     Q ((notify_value a w s v).2, v) k') →
  wp (xTaskGenericNotify t i w a) Q k.
Proof.
  intros I ([[T HT] Hal] & Hi & Hw) Hvs HQ. unfold xTaskGenericNotify.
  wp_step. apply (wp_notification _ _ _ v s); [done|]. cbv zeta. cbn [fst snd].
  set (r := notify_value a w s v) in *. wp_step. apply wp_write_notification; [by exists T|].
  set (k1 := notify_entry t i r.1 taskNOTIFICATION_RECEIVED k).
  pose proof (inv_notify_entry k t i r.1 taskNOTIFICATION_RECEIVED I) as I1. fold k1 in I1.
  pose proof (notify_entry_spec k t i r.1 taskNOTIFICATION_RECEIVED _ _ Hvs) as Hvs1. fold k1 in Hvs1.
  assert (Ht1 : is_Some (tcbs (data k1) !! t)) by (apply notify_entry_exists; by exists T). destruct Ht1 as [T1 HT1].
  wp_step. apply wp_when; [intros E%Z.eqb_eq|intros E%Z.eqb_neq]; cbn [snd] in E.
  - pose proof I1 as [C1 Hr1 Ca1 Tr1]. pose proof (co_wf _ _ _ _ _ _ _ C1) as W1.
    destruct (wf_state _ _ _ _ _ W1 t) as [l Hl]; [by exists T1|done|].
    assert (Hf : ∀ l, ¬ holds (lists k1) l (Ev t)) by (apply Hw, (notified_waiting _ _ _ v s); done).
    destruct (wf_current _ _ _ _ _ W1) as (c & Hc & [Cu HC]).
    wp_step. eapply wp_mono; [apply (wp_ready_again idle (xTickCount (data k1) + 1) (xNextTaskUnblockTime (data k1)) t T1 l
      (λ _ k2, readied T1 t k1 k2 ∧
        core idle None None (xTickCount (data k1) + 1) (xNextTaskUnblockTime (data k1)) (lists k2) (data k2)))|];
      [done|done|by intros ->|done|done|auto|].
    intros [] k2 H2. wp_step. eapply wp_mono; [exact H2|]. intros [] k3 [Re C3]. simpl.
    destruct (re_data _ _ _ _ Re) as [top E3].
    wp_step. apply (wp_priority_of _ _ T1); [by rewrite E3|].
    wp_step. apply (wp_current _ c); [by rewrite E3|]. wp_step. apply (wp_priority_of _ _ Cu); [by rewrite E3|].
    eapply (readied_yield idle T1 t k1 k3 _ c Cu); [done..|intros ?%Z.ltb_ge; lia|]. intros k4 I4 Qu.
    wp_step. apply HQ; [done| | |].
    + apply (notified_same k1); [|done]. destruct Qu as [[= ->]]. by rewrite E3.
    + intros _. apply (awake_same_place k3); [apply Qu|by destruct Qu as [[= ->]]|apply Re].
    + intros u Hu l'. pose proof (re_rest _ _ _ _ Re u Hu l'). pose proof (qu_place _ _ Qu u l'). simpl in *. naive_solver.
  - wp_step. apply HQ; [done|done|done|done].
Qed.

(** Waking from an interrupt, after the entry is written. *)
Lemma wp_notify_isr t i x v s (b : bool) Q k :
  inv idle k → notifiable k t i → notified k t i v s → b = (s =? taskWAITING_NOTIFICATION) →
  (waiting k t i → uxSchedulerSuspended (data k) ≠ 0 → ∃ l, blocked_list l ∧ holds (lists k) l (St t)) →
  (∀ k' y, inv idle k' → notified k' t i x taskNOTIFICATION_RECEIVED →
     (b = true → if uxSchedulerSuspended (data k) =? 0 then awake k' t else holds (lists k') xPendingReadyList (Ev t)) →
     Q y k') →
  wp (if b then ready_or_pend t else mret false) Q (notify_entry t i x taskNOTIFICATION_RECEIVED k).
Proof.
  intros I ([[T HT] Hal] & Hi & Hw) Hvs -> Hb HQ.
  set (k1 := notify_entry t i x taskNOTIFICATION_RECEIVED k).
  pose proof (inv_notify_entry k t i x taskNOTIFICATION_RECEIVED I) as I1. fold k1 in I1.
  pose proof (notify_entry_spec k t i x taskNOTIFICATION_RECEIVED _ _ Hvs) as Hvs1. fold k1 in Hvs1.
  assert (Ht1 : is_Some (tcbs (data k1) !! t)) by (apply notify_entry_exists; by exists T). destruct Ht1 as [T1 HT1].
  apply wp_if; intros E; [|wp_step; apply HQ; [done|done|congruence]]. apply Z.eqb_eq in E.
  assert (Hwt : waiting k t i) by by apply (notified_waiting _ _ _ v s).
  destruct (wf_state _ _ _ _ _ (co_wf _ _ _ _ _ _ _ (inv_core _ _ I1)) t) as [l Hl]; [by exists T1|done|].
  apply (wp_ready_or_pend idle t T1 l); [done|done|by apply Hw|done|by intros ->| |].
  - intros Hs. destruct (Hb Hwt Hs) as (l' & Bl & Hl'). assert (l = l') as ->; [|done].
    apply (lo_unique _ (wf_ok _ _ _ _ _ (co_wf _ _ _ _ _ _ _ (inv_core _ _ I1))) _ _ (St t)); done.
  - intros k' y I' Wo. apply HQ; [done| |].
    + apply (notified_same k1); [|done]. destruct (wo_data _ _ _ Wo) as (top & y' & ->). done.
    + intros _. pose proof (wo_where _ _ _ Wo) as Hk'. simpl in Hk'. destruct (_ =? 0); [done|apply Hk'].
Qed.

Lemma wp_xTaskGenericNotifyFromISR t i w a v s Q k :
  inv idle k → notifiable k t i → notified k t i v s →
  (waiting k t i → uxSchedulerSuspended (data k) ≠ 0 → ∃ l, blocked_list l ∧ holds (lists k) l (St t)) →
  (∀ k' y, inv idle k' → notified k' t i (notify_value a w s v).1 taskNOTIFICATION_RECEIVED →
     (s = taskWAITING_NOTIFICATION →
        if uxSchedulerSuspended (data k) =? 0 then awake k' t else holds (lists k') xPendingReadyList (Ev t)) →
     Q ((notify_value a w s v).2, v, y) k') →
  wp (xTaskGenericNotifyFromISR t i w a) Q k.
Proof.
  intros I N Hvs Hb HQ. unfold xTaskGenericNotifyFromISR. wp_step. apply (wp_notification _ _ _ v s); [done|].
  cbv zeta. cbn [fst snd]. wp_step. apply wp_write_notification; [apply N|]. wp_step.
  apply (wp_notify_isr _ _ _ v s); [done..|]. intros k' y I' H1 H2. wp_step. apply HQ; [done|done|].
  intros ->. by apply H2.
Qed.

Lemma wp_vTaskGenericNotifyGiveFromISR t i v s Q k :
  inv idle k → notifiable k t i → notified k t i v s →
  (waiting k t i → uxSchedulerSuspended (data k) ≠ 0 → ∃ l, blocked_list l ∧ holds (lists k) l (St t)) →
  (∀ k' y, inv idle k' → notified k' t i (u32 (v + 1)) taskNOTIFICATION_RECEIVED →
     (s = taskWAITING_NOTIFICATION →
        if uxSchedulerSuspended (data k) =? 0 then awake k' t else holds (lists k') xPendingReadyList (Ev t)) → Q y k') →
  wp (vTaskGenericNotifyGiveFromISR t i) Q k.
Proof.
  intros I N Hvs Hb HQ. unfold vTaskGenericNotifyGiveFromISR. wp_step. apply (wp_notification _ _ _ v s); [done|].
  wp_step. apply wp_write_notification; [apply N|]. cbn [fst snd].
  apply (wp_notify_isr _ _ _ v s); [done..|]. intros k' y I' H1 H2. apply HQ; [done|done|].
  intros ->. by apply H2.
Qed.
End specs.
