(* ===== verification/TasksMain.v ===== *)
(** * The scheduler as a whole

    What tasks and interrupts may ask of the kernel, as steps; the invariant
    over any sequence of steps, on the abstract lists and on the store of
    list.c; and what the user of the scheduler relies on. *)
From S2P Require Import Prelude RtosList KList Tasks TasksSim TasksInv TasksOk TasksApi TasksLife TaskNotify.
Local Open Scope Z_scope.

(** ** Steps *)
Inductive kcall :=
  | CTick
  | CYield
  | CSuspendAll
  | CResumeAll
  | CCatchUp (n : Z)
  | CDelay (n : Z)
  | CDelayUntil (prev inc : Z)
  | CNewList (l : positive)
  | CPlaceOnEvent (l : positive) (n : Z)
  | CPlaceOnUnordered (l : positive) (v n : Z)
  | CRemoveFromEvent (l : positive)
  | CRemoveFromUnordered (l : positive) (t : TaskHandle_t) (v : Z)
  | CMissedYield
  | CResetEventItem
  | CSuspend (h : option TaskHandle_t)
  | CResume (h : option TaskHandle_t)
  | CResumeFromISR (t : TaskHandle_t)
  | CPrioritySet (h : option TaskHandle_t) (p : Z)
  | CCreate (mem : option TaskHandle_t) (p : Z)
  | CDelete (h : option TaskHandle_t)
  | CCleanUp
  | CNotifyTake (i : nat) (n : Z)
  | CNotifyTaken (i : nat) (clear : bool)
  | CNotifyWait (i : nat) (bits n : Z)
  | CNotifyWaited (i : nat) (bits : Z)
  | CNotify (t : TaskHandle_t) (i : nat) (v : Z) (a : eNotifyAction)
  | CNotifyFromISR (t : TaskHandle_t) (i : nat) (v : Z) (a : eNotifyAction)
  | CNotifyGiveFromISR (t : TaskHandle_t) (i : nat)
  | CNotifyStateClear (h : option TaskHandle_t) (i : nat)
  | CNotifyValueClear (h : option TaskHandle_t) (i : nat) (bits : Z).

Definition ignore {L R} (m : K L R) : K L unit := m;; mret ().

(** The function that a step runs. *)
Definition run_call `{KLists L} (c : kcall) : K L unit :=
  match c with
  | CTick => vTickISR
  | CYield => portYIELD
  | CSuspendAll => vTaskSuspendAll
  | CResumeAll => ignore xTaskResumeAll
  | CCatchUp n => ignore (xTaskCatchUpTicks n)
  | CDelay n => vTaskDelay n
  | CDelayUntil prev inc => ignore (xTaskDelayUntil prev inc)
  | CNewList l => ignore (lst (KOp (OpInit l)))
  | CPlaceOnEvent l n => vTaskPlaceOnEventList l n
  | CPlaceOnUnordered l v n => vTaskPlaceOnUnorderedEventList l v n
  | CRemoveFromEvent l => ignore (xTaskRemoveFromEventList l)
  | CRemoveFromUnordered _ t v => vTaskRemoveFromUnorderedEventList t v
  | CMissedYield => vTaskMissedYield
  | CResetEventItem => ignore uxTaskResetEventItemValue
  | CSuspend h => vTaskSuspend h
  | CResume h => vTaskResume h
  | CResumeFromISR t => ignore (xTaskResumeFromISR t)
  | CPrioritySet h p => vTaskPrioritySet h p
  | CCreate mem p => ignore (xTaskCreate mem p)
  | CDelete h => vTaskDelete h
  | CCleanUp => prvCheckTasksWaitingTermination
  | CNotifyTake i n => ulTaskGenericNotifyTake_block i n
  | CNotifyTaken i b => ignore (ulTaskGenericNotifyTake_return i b)
  | CNotifyWait i b n => xTaskGenericNotifyWait_block i b n
  | CNotifyWaited i b => ignore (xTaskGenericNotifyWait_return i b)
  | CNotify t i v a => ignore (xTaskGenericNotify t i v a)
  | CNotifyFromISR t i v a => ignore (xTaskGenericNotifyFromISR t i v a)
  | CNotifyGiveFromISR t i => ignore (vTaskGenericNotifyGiveFromISR t i)
  | CNotifyStateClear h i => ignore (xTaskGenericNotifyStateClear h i)
  | CNotifyValueClear h i b => ignore (ulTaskGenericNotifyValueClear h i b)
  end.

Fixpoint run_calls `{KLists L} (cs : list kcall) : K L unit :=
  match cs with
  | [] => mret ()
  | c :: cs => run_call c;; run_calls cs
  end.

(** ** What each step requires

    The obligations of the caller: a handle names a task that exists, the
    idle task is neither blocked nor deleted, a task blocks itself only, and
    only while it runs. *)
Section permitted.
Context (idle : TaskHandle_t).
Implicit Types (k : akernel) (t : TaskHandle_t) (h : option TaskHandle_t).

Definition names k h t : Prop := match h with Some u => t = u | None => pxCurrentTCB (data k) = Some t end.

Definition may_block k (n : Z) : Prop := ∃ c, running k c ∧ c ≠ idle ∧ 0 <= n < 4294967296.

Definition permitted k (c : kcall) : Prop :=
  match c with
  | CTick | CYield | CMissedYield | CResetEventItem => True
  | CSuspendAll => uxSchedulerSuspended (data k) + 1 < 4294967296
  | CResumeAll => 0 < uxSchedulerSuspended (data k)
  | CCatchUp n => uxSchedulerSuspended (data k) = 0 ∧ is_u32 n
  | CDelay n => may_block k n ∧ uxSchedulerSuspended (data k) = 0
  | CDelayUntil prev inc => may_block k 0 ∧ uxSchedulerSuspended (data k) = 0 ∧ is_u32 prev ∧ is_u32 inc
  | CNewList l => (10 < l)%positive ∧ l ∈ a_mem (lists k) ∧ a_lists (lists k) !! l = None
  | CPlaceOnEvent l n => may_block k n ∧ 0 < n ∧ event_list k l
  | CPlaceOnUnordered l v n => may_block k n ∧ 0 < n ∧ event_list k l ∧ is_u32 v
  | CRemoveFromEvent l => event_list k l ∧ ∃ i, holds (lists k) l i
  | CRemoveFromUnordered l t v => event_list k l ∧ holds (lists k) l (Ev t) ∧ is_u32 v
  | CSuspend h | CDelete h => ∀ t, names k h t → alive k t ∧ t ≠ idle
  | CResume h => ∀ t, h = Some t → is_Some (tcbs (data k) !! t)
  | CResumeFromISR t => is_Some (tcbs (data k) !! t)
  | CPrioritySet h p => 0 ≤ p ∧ ∀ t, names k h t → is_Some (tcbs (data k) !! t) ∧ t ≠ idle
  | CCreate mem p => 0 ≤ p ∧ ∀ t, mem = Some t →
      tcbs (data k) !! t = None ∧ Z.of_nat (size (a_items (lists k))) + 2 < 4294967296
  | CCleanUp => running k idle
  | CNotifyTake i n | CNotifyWait i _ n => may_block k n ∧ (i < configTASK_NOTIFICATION_ARRAY_ENTRIES)%nat
  | CNotifyTaken i _ | CNotifyWaited i _ => (i < configTASK_NOTIFICATION_ARRAY_ENTRIES)%nat
  | CNotify t i _ _ => notifiable k t i
  | CNotifyFromISR t i _ _ | CNotifyGiveFromISR t i => notifiable k t i ∧
      (waiting k t i → uxSchedulerSuspended (data k) ≠ 0 → ∃ l, blocked_list l ∧ holds (lists k) l (St t))
  | CNotifyStateClear h i | CNotifyValueClear h i _ => (i < configTASK_NOTIFICATION_ARRAY_ENTRIES)%nat ∧
      ∀ t, names k h t → is_Some (tcbs (data k) !! t)
  end.

(** Lists beyond the kernel's own come and go while they are empty. *)
Lemma core_other_lists x y lo nx A A' d :
  core idle x y lo nx A d → lists_ok A' → (∀ l j, holds A' l j ↔ holds A l j) →
  (∀ l, (l ≤ 10)%positive → a_lists A' !! l = a_lists A !! l) →
  a_items A' = a_items A → a_own A' = a_own A → a_val A' = a_val A → core idle x y lo nx A' d.
Proof.
  intros [W Ti C] O HH HL Ei Eo Ev. pose proof (td_dl _ _ _ _ Ti) as D1. pose proof (td_ol _ _ _ _ Ti) as D2.
  constructor.
  - destruct W as [Wok Wex Wit Wta Wow Wpr Wst Wtr Ws We Wr Ww Wto Wc Wi].
    constructor; unfold ready in *; rewrite ?Ei, ?Eo; try done; try (setoid_rewrite HH; done).
    intros l Hl. rewrite HL by done. by apply Wex.
  - destruct Ti as [Tp Tc To Ts Tw Tt]. constructor; rewrite ?Ev; try done; try (setoid_rewrite HH; done).
    destruct Ts as [S1 S2]. unfold list_sorted in *.
    split; intros a; rewrite HL, Ev by (unfold delayed_list in *; list_lia); auto.
  - destruct C as [Cn Cd Cg]. constructor; try done; [|by setoid_rewrite HH].
    intros a. rewrite HL by list_lia. apply Cd.
Qed.

Lemma inv_other_lists k A' :
  inv idle k → lists_ok A' → (∀ l j, holds A' l j ↔ holds (lists k) l j) →
  (∀ l, (l ≤ 10)%positive → a_lists A' !! l = a_lists (lists k) !! l) →
  a_items A' = a_items (lists k) → a_own A' = a_own (lists k) → a_val A' = a_val (lists k) →
  inv idle (MkKernel A' (data k)).
Proof.
  intros [C Hr Ca Tr] O HH HL Ei Eo Ev. constructor; simpl; [by apply (core_other_lists _ _ _ _ (lists k))|done| |].
  - destruct Ca as [H1 H2]. split; [done|]. intros Hs. destruct (H2 Hs) as [? H3]. split; [done|].
    intros i Hi. by apply (H3 i), HH.
  - apply (top_runs_sub (lists k) _ (data k)); try done. intros p t (l' & Hp & Hh). exists l'. split; [done|]. by apply HH.
Qed.

(** A new list is empty. *)
Lemma wp_new_list l Q k :
  inv idle k → (10 < l)%positive → l ∈ a_mem (lists k) → a_lists (lists k) !! l = None →
  (∀ k', inv idle k' → k' = MkKernel (set_alist l (MkAlist [] None) (lists k)) (data k) → Q 0 k') →
  wp (lst (KOp (OpInit l))) Q k.
Proof.
  intros I Hl Hm Hn HQ. unfold wp, lst. simpl.
  rewrite Hn, !bool_decide_eq_true_2 by done. simpl. apply HQ; [|done].
  assert (HH : ∀ l' j, holds (set_alist l (MkAlist [] None) (lists k)) l' j ↔ holds (lists k) l' j).
  { intros l' j. rewrite set_alist_holds. destruct (decide (l' = l)) as [->|]; [|done]. simpl.
    rewrite elem_of_nil. split; [done|]. intros (a & Ha & _). congruence. }
  pose proof (wf_ok _ _ _ _ _ (co_wf _ _ _ _ _ _ _ (inv_core _ _ I))) as [L1 L2 L3 L4 L5].
  apply inv_other_lists; try done; [|intros l' Hl'; simpl; rewrite lookup_insert_ne by lia; done].
  constructor; simpl; [| |by setoid_rewrite HH| |done].
  - intros l' a. rewrite lookup_insert_Some. intros [[_ <-]|[_ ?]]; [constructor|eauto].
  - intros l1 l2 j. rewrite !HH. apply L2.
  - intros l' a j. rewrite lookup_insert_Some. intros [[_ <-]|[_ ?]]; [done|eauto].
Qed.

(** An empty list may be freed. *)
Lemma wp_free_list l a Q k :
  inv idle k → (10 < l)%positive → a_lists (lists k) !! l = Some a → elems a = [] →
  (∀ k', inv idle k' → k' = MkKernel (MkAstate (a_mem (lists k)) (delete l (a_lists (lists k))) (a_items (lists k))
     (a_val (lists k)) (a_own (lists k))) (data k) → Q 0 k') →
  wp (lst (KFree l)) Q k.
Proof.
  intros I Hl Ha E HQ. unfold wp, lst. simpl. unfold a_free_list. rewrite Ha. simpl.
  rewrite bool_decide_eq_true_2 by done. simpl. apply HQ; [|done].
  set (A' := MkAstate _ _ _ _ _).
  assert (HH : ∀ l' j, holds A' l' j ↔ holds (lists k) l' j).
  { intros l' j. unfold holds. simpl. split.
    - intros (b & [_ Hb]%lookup_delete_Some & Hj). by exists b.
    - intros (b & Hb & Hj). exists b. split; [|done]. rewrite lookup_delete_ne; [done|]. intros ->. simplify_eq.
      rewrite E in Hj. by apply elem_of_nil in Hj. }
  pose proof (wf_ok _ _ _ _ _ (co_wf _ _ _ _ _ _ _ (inv_core _ _ I))) as [L1 L2 L3 L4 L5].
  apply inv_other_lists; try done; [|intros l' Hl'; simpl; rewrite lookup_delete_ne by lia; done].
  constructor; simpl; [| |by setoid_rewrite HH| |done].
  - intros l' b [_ ?]%lookup_delete_Some. eauto.
  - intros l1 l2 j. rewrite !HH. apply L2.
  - intros l' b j [_ ?]%lookup_delete_Some. eauto.
Qed.

Lemma wp_ignore {R} (m : K astate R) Q k : wp m (λ _ k', Q () k') k → wp (ignore m) Q k.
Proof. intros H. unfold ignore. wp_step. eapply wp_mono; [exact H|]. intros r k' HQ. by wp_step. Qed.

(** A waiting task that is current has its entry. *)
Lemma current_entry k i : inv idle k → (i < configTASK_NOTIFICATION_ARRAY_ENTRIES)%nat →
  ∃ c v s, pxCurrentTCB (data k) = Some c ∧ notified k c i v s.
Proof.
  intros I Hi. destruct (wf_current _ _ _ _ _ (co_wf _ _ _ _ _ _ _ (inv_core _ _ I))) as (c & Hc & Ht).
  destruct (notified_exists idle k c i I Ht Hi) as (v & s & Hvs). by exists c, v, s.
Qed.

(** Every permitted step returns and keeps the invariant. *)
Lemma inv_step k c : inv idle k → permitted k c → wp (run_call c) (λ _ k', inv idle k') k.
Proof.
  intros I P. destruct c; simpl in *; try (apply wp_ignore).
  - by apply (wp_vTickISR idle).
  - apply (wp_yield idle); [apply I..|done].
  - by apply (wp_vTaskSuspendAll idle).
  - destruct (decide (uxSchedulerSuspended (data k) = 1)).
    + by apply (wp_xTaskResumeAll idle).
    + apply (wp_xTaskResumeAll_nested idle); [done|lia|done].
  - destruct P. by apply (wp_xTaskCatchUpTicks idle).
  - destruct P as [(c & R & Hc & Hn) Hs]. by apply (wp_vTaskDelay idle n c).
  - destruct P as [(c & R & Hc & _) (Hs & Hp & Hi)]. by apply (wp_xTaskDelayUntil idle prev inc c).
  - destruct P as (Hl & Hm & Hn). apply (wp_new_list l); auto.
  - destruct P as [(c & R & Hc & Hn) [Hp He]]. apply (wp_vTaskPlaceOnEventList idle l n c); [done..|lia|done|auto].
  - destruct P as [(c & R & Hc & Hn) (Hp & He & Hv)]. apply (wp_vTaskPlaceOnUnorderedEventList idle l v n c); [done..|lia|done|done|auto].
  - destruct P as [[Hl _] (i & a & Ha & Hi)]. destruct (elems a) as [|j xs] eqn:E; [by apply elem_of_nil in Hi|].
    by apply (wp_xTaskRemoveFromEventList idle l a j xs).
  - destruct P as ([Hl _] & Hh & Hv). by apply (wp_vTaskRemoveFromUnorderedEventList idle l).
  - by apply (wp_vTaskMissedYield idle).
  - by apply (wp_uxTaskResetEventItemValue idle).
  - by apply (wp_vTaskSuspend idle).
  - by apply (wp_vTaskResume idle).
  - by apply (wp_xTaskResumeFromISR idle).
  - destruct P. by apply (wp_vTaskPrioritySet idle).
  - destruct P as [Hp Hm]. destruct mem as [t|]; [|done]. destruct (Hm t eq_refl). by apply (wp_xTaskCreate idle).
  - by apply (wp_vTaskDelete idle).
  - apply (wp_prvCheckTasksWaitingTermination idle); [done| |done]. destruct P as [Hc [p R]]. by exists idle, p.
  - destruct P as [(c & R & Hc & Hn) Hi]. destruct (current_entry k i I Hi) as (c' & v & s & Hc' & Hvs).
    assert (c' = c) as -> by (destruct R; congruence). by apply (wp_NotifyTake_block idle i n c v s).
  - destruct (current_entry k i I P) as (c & v & s & Hc & Hvs). by apply (wp_NotifyTake_return idle i clear c v s).
  - destruct P as [(c & R & Hc & Hn) Hi]. destruct (current_entry k i I Hi) as (c' & v & s & Hc' & Hvs).
    assert (c' = c) as -> by (destruct R; congruence). by apply (wp_NotifyWait_block idle i bits n c v s).
  - destruct (current_entry k i I P) as (c & v & s & Hc & Hvs). by apply (wp_NotifyWait_return idle i bits c v s).
  - destruct (notified_exists idle k t i I (proj1 (proj1 P)) (proj1 (proj2 P))) as (v0 & s & Hvs).
    by apply (wp_xTaskGenericNotify idle t i v a v0 s).
  - destruct P as [P Hb]. destruct (notified_exists idle k t i I (proj1 (proj1 P)) (proj1 (proj2 P))) as (v0 & s & Hvs).
    by apply (wp_xTaskGenericNotifyFromISR idle t i v a v0 s).
  - destruct P as [P Hb]. destruct (notified_exists idle k t i I (proj1 (proj1 P)) (proj1 (proj2 P))) as (v0 & s & Hvs).
    by apply (wp_vTaskGenericNotifyGiveFromISR idle t i v0 s).
  - destruct P. by apply (wp_NotifyStateClear idle).
  - destruct P. by apply (wp_NotifyValueClear idle).
Qed.
End permitted.

(** ** From boot *)
Section boot.
Context `{KLists L}.

(** main() creates its tasks, then starts the scheduler; [mem] is the address
    each allocation gives. *)
Fixpoint create_all (ts : list (TaskHandle_t * Z)) : K L unit :=
  match ts with
  | [] => mret ()
  | (mem, p) :: ts => xTaskCreate (Some mem) p;; create_all ts
  end.

Definition run_main (ts : list (TaskHandle_t * Z)) (idle : TaskHandle_t) : K L unit :=
  create_all ts;; vTaskStartScheduler (Some idle).
End boot.

(** The tasks of main() have different addresses, and there is room. *)
Definition main_ok (ts : list (TaskHandle_t * Z)) (idle : TaskHandle_t) : Prop :=
  ts ≠ [] ∧ NoDup (idle :: ts.*1) ∧ Forall (λ tp, 0 ≤ tp.2) ts ∧ 2 * Z.of_nat (length ts) + 2 < 4294967296.

Lemma size_add_le (i : positive) (X : gset positive) : (size ({[i]} ∪ X) ≤ size X + 1)%nat.
Proof.
  rewrite size_union_alt, size_singleton. pose proof (subseteq_size (X ∖ {[i]}) X ltac:(set_solver)). lia.
Qed.

Lemma wp_create_all idle ts Q k :
  unstarted idle k → NoDup (ts.*1) → Forall (λ tp, 0 ≤ tp.2) ts → (∀ t, t ∈ ts.*1 → tcbs (data k) !! t = None) →
  Z.of_nat (size (a_items (lists k))) + 2 * Z.of_nat (length ts) < 4294967296 →
  (∀ k', unstarted idle k' → dom (tcbs (data k')) = list_to_set ts.*1 ∪ dom (tcbs (data k)) →
     Z.of_nat (size (a_items (lists k'))) ≤ Z.of_nat (size (a_items (lists k))) + 2 * Z.of_nat (length ts) → Q () k') →
  wp (create_all ts) Q k.
Proof.
  revert k. induction ts as [|[t p] ts IH]; intros k U ND Fp Hf Hsz HQ; simpl.
  { wp_step. apply HQ; [done|simpl; set_solver|simpl; lia]. }
  simpl in *. apply NoDup_cons in ND as [Hnt ND]. apply Forall_cons in Fp as [Hp Fp]. simpl in Hp.
  wp_step. apply (wp_xTaskCreate_unstarted idle); [done|apply Hf; by left|done|lia|].
  intros k1 U1 [(T & ET & _) _ _] Ei.
  assert (Hs1 : (size (a_items (lists k1)) ≤ size (a_items (lists k)) + 2)%nat).
  { rewrite Ei. pose proof (size_add_le (Ev t) ({[St t]} ∪ a_items (lists k))). pose proof (size_add_le (St t) (a_items (lists k))). lia. }
  apply IH; [done..| |lia|].
  - intros u Hu. rewrite ET, lookup_insert_ne; [|by intros ->]. apply Hf. by right.
  - intros k2 U2 D2 S2. apply HQ; [done| |lia]. rewrite D2, ET, dom_insert_L. set_solver.
Qed.

Lemma main_inv A ts idle :
  blank A → main_ok ts idle →
  ∃ k, run_main ts idle (MkKernel A boot_data) = Some (k, ()) ∧ inv idle k ∧
    dom (tcbs (data k)) = {[idle]} ∪ list_to_set ts.*1.
Proof.
  intros B (Hne & ND & Fp & Hlen). destruct ts as [|[t p] ts]; [done|].
  assert (E : wp (run_main ((t, p) :: ts) idle) (λ _ k, inv idle k ∧ dom (tcbs (data k)) = {[idle]} ∪ list_to_set (t :: ts.*1))
    (MkKernel A boot_data)).
  { simpl in *. apply NoDup_cons in ND as [Hi ND]. apply NoDup_cons in ND as [Ht ND]. apply Forall_cons in Fp as [Hp Fp].
    unfold run_main. simpl. do 2 wp_step. apply (wp_first_create idle); [done..|]. intros k1 U1 D1 E1 _.
    assert (Hs1 : size (a_items (lists k1)) = 2%nat) by (rewrite E1, size_union, !size_singleton; [done|set_solver]).
    apply (wp_create_all idle); [done..| |lia|].
    { intros u Hu. apply not_elem_of_dom. rewrite D1, elem_of_singleton. by intros ->. }
    intros k2 U2 D2 S2. apply wp_vTaskStartScheduler; [done| |lia|].
    { apply not_elem_of_dom. rewrite D2, D1. set_solver. }
    intros k3 I3 [(T & ET & _) _ _]. split; [done|]. rewrite ET, dom_insert_L, D2, D1. set_solver. }
  apply wp_result in E as (k & [] & E & I & D). by exists k.
Qed.

(** C37.  Start-up: from memory in which nothing is initialised, main() creates
    its tasks and [vTaskStartScheduler] returns with the scheduler running,
    exactly the tasks of main() and the idle task in existence, and the
    invariant of the scheduler established. *)
Theorem scheduler_starts A ts idle :
  blank A → main_ok ts idle →
  ∃ k, run_main ts idle (MkKernel A boot_data) = Some (k, ()) ∧ inv idle k ∧
    dom (tcbs (data k)) = {[idle]} ∪ list_to_set ts.*1.
Proof. apply main_inv. Qed.

(** ** Safety *)

(** What holds between the steps, in the terms of the lists and variables. *)
Record kernel_ok (idle : TaskHandle_t) (k : akernel) : Prop := {
  ok_one_list : ∀ t, is_Some (tcbs (data k) !! t) →
    ∃ l, state_list l ∧ ∀ l', holds (lists k) l' (St t) ↔ l' = l;
  ok_ready : ∀ p l t, pxReadyTasksLists p = Some l → holds (lists k) l (St t) →
    ∃ T, tcbs (data k) !! t = Some T ∧ uxPriority T = p;
  ok_highest : xYieldPending (data k) = false → ∀ c C p t,
    pxCurrentTCB (data k) = Some c → tcbs (data k) !! c = Some C → ready (lists k) p t → p ≤ uxPriority C;
  ok_waiting : ∀ t l, holds (lists k) l (Ev t) → ∃ l', blocked_list l' ∧ holds (lists k) l' (St t);
  ok_not_late : ∀ t, holds (lists k) (pxDelayedTaskList (data k)) (St t) →
    xTickCount (data k) < a_val (lists k) (St t) ∧ xNextTaskUnblockTime (data k) ≤ a_val (lists k) (St t);
  ok_overflow : ∀ t, holds (lists k) (pxOverflowDelayedTaskList (data k)) (St t) →
    a_val (lists k) (St t) < xTickCount (data k);
  ok_number : uxCurrentNumberOfTasks (data k) = Z.of_nat (size (tcbs (data k)));
  ok_nothing_held : uxSchedulerSuspended (data k) = 0 →
    xPendedTicks (data k) = 0 ∧ ∀ i, ¬ holds (lists k) xPendingReadyList i;
  ok_idle : ready (lists k) 0 idle }.

Lemma inv_kernel_ok idle k : inv idle k → kernel_ok idle k.
Proof.
  intros [[W Ti C] Hr Ca Tr]. constructor.
  - intros t Ht. destruct (wf_state _ _ _ _ _ W t Ht) as [l Hl]; [done|]. exists l.
    split; [by apply (wf_st _ _ _ _ _ W t)|]. intros l'. split; [|by intros ->].
    intros Hl'. by apply (lo_unique _ (wf_ok _ _ _ _ _ W) _ _ (St t)).
  - intros p l t Hp Hl. destruct (wf_st_task _ _ _ _ _ _ _ W Hl) as [T HT]. exists T. split; [done|].
    apply (wf_ready _ _ _ _ _ W p t T); [by exists l|done].
  - done.
  - intros t l Hl. by apply (wf_waiting _ _ _ _ _ W t l).
  - intros t Ht. pose proof (td_cur _ _ _ _ Ti t Ht). lia.
  - apply (td_ovf _ _ _ _ Ti).
  - apply (ct_tasks _ _ C).
  - apply Ca.
  - by apply (wf_idle _ _ _ _ _ W Hr).
Qed.

(** A sequence of permitted steps. *)
Inductive permitted_run (idle : TaskHandle_t) : akernel → list kcall → akernel → Prop :=
  | run_nil k : permitted_run idle k [] k
  | run_cons k c k1 cs k' :
      permitted idle k c → run_call c k = Some (k1, ()) → permitted_run idle k1 cs k' →
      permitted_run idle k (c :: cs) k'.

Lemma permitted_run_inv idle k cs k' : permitted_run idle k cs k' → inv idle k → inv idle k'.
Proof.
  induction 1 as [|k c k1 cs k' P E R IH]; [done|]. intros I. apply IH.
  pose proof (inv_step idle k c I P) as W. unfold wp in W. by rewrite E in W.
Qed.

Lemma permitted_run_calls idle k cs k' : permitted_run idle k cs k' → run_calls cs k = Some (k', ()).
Proof.
  induction 1 as [|k c k1 cs k' P E R IH]; [done|]. simpl. unfold mbind, K_bind. by rewrite E.
Qed.

(** C3.  Safety of the scheduler: from start-up on, after any sequence of steps
    the callers are entitled to, every task is on exactly one of the lists of
    task states; the ready list of a priority holds tasks of that priority
    only; unless a switch is already due no ready task has a priority above
    the running one; a task on an event list is blocked; no delayed task is
    overdue and [xNextTaskUnblockTime] is not later than any wake time;
    nothing is held back while the scheduler is not suspended; and every
    further permitted step returns. *)
Theorem kernel_safe A ts idle k0 cs k :
  blank A → main_ok ts idle → run_main ts idle (MkKernel A boot_data) = Some (k0, ()) →
  permitted_run idle k0 cs k →
  kernel_ok idle k ∧ ∀ c, permitted idle k c → ∃ k', run_call c k = Some (k', ()) ∧ kernel_ok idle k'.
Proof.
  intros B M E0 R. destruct (main_inv A ts idle B M) as (k1 & E1 & I1 & _).
  assert (k1 = k0) as -> by congruence. pose proof (permitted_run_inv _ _ _ _ R I1) as I.
  split; [by apply inv_kernel_ok|]. intros c P. pose proof (inv_step idle k c I P) as W.
  apply wp_result in W as (k' & [] & E & I'). exists k'. split; [done|by apply inv_kernel_ok].
Qed.

(** *** The store of list.c *)
Section sim.
Context `{HL : KLists L, HA : KLists A} {R : L → A → Prop} {HS : KListsSim L A R}.

Lemma sim_ignore {Q} (m1 : K L Q) (m2 : K A Q) : ksim (R := R) m1 m2 → ksim (R := R) (ignore m1) (ignore m2).
Proof. intros Hm. unfold ignore. apply ksim_bind; [done|]. intros r. apply ksim_ret. Qed.

Lemma sim_run_call c : ksim (R := R) (run_call c) (run_call c).
Proof. destruct c; simpl; try apply sim_ignore; first [apply ksim_lst; exact Logic.I|eauto with ksim typeclass_instances]. Qed.

Lemma sim_run_calls cs : ksim (R := R) (run_calls cs) (run_calls cs).
Proof.
  induction cs as [|c cs IH]; simpl; [apply ksim_ret|]. apply ksim_bind; [apply sim_run_call|done].
Qed.
End sim.

(** *** What calls of the kernel leave alone *)
Definition lists_kept (k k' : akernel) : Prop :=
  (∀ l, is_Some (a_lists (lists k) !! l) → is_Some (a_lists (lists k') !! l)) ∧ a_mem (lists k') = a_mem (lists k).

Lemma lists_kept_refl (k : akernel) : lists_kept k k.
Proof. by split. Qed.

Lemma lists_kept_trans (k1 k2 k3 : akernel) : lists_kept k1 k2 → lists_kept k2 k3 → lists_kept k1 k3.
Proof. intros [H1 E1] [H2 E2]. split; [auto|congruence]. Qed.

Lemma wp_kept {R} (m : K astate R) P (k : akernel) :
  (∀ X M, ksim (R := keeps X M) m m) → wp m (λ r k', lists_kept k k' → P r k') k → wp m P k.
Proof.
  intros Hm (k' & r & E & HP)%wp_result. apply wp_result. exists k', r. split; [done|]. apply HP.
  destruct (Hm (λ l, is_Some (a_lists (lists k) !! l)) (a_mem (lists k)) k k k' r) as (k1 & E1 & (_ & H1 & H2) & _);
    [by split|done|]. by split.
Qed.

Lemma sim_run_main ts idle : ksim (R := refines) (run_main ts idle) (run_main ts idle).
Proof.
  unfold run_main. apply ksim_bind; [|intros []; apply (sim_vTaskStartScheduler (R := refines))].
  induction ts as [|[t p] ts IH]; simpl; [apply ksim_ret|].
  apply ksim_bind; [apply (sim_xTaskCreate (R := refines) (Some t))|done].
Qed.

(** C4.  Refinement: the scheduler over the doubly linked lists of list.c (the
    store of pointers) does what the scheduler over abstract lists does.  From
    a store that represents blank memory, start-up and any sequence of
    permitted steps return, without a dangling pointer on the way, in a store
    that represents the abstract lists, with the same variables. *)
Theorem kernel_on_store st A ts idle k0 cs k :
  refines st A → blank A → main_ok ts idle →
  run_main ts idle (MkKernel A boot_data) = Some (k0, ()) → permitted_run idle k0 cs k →
  ∃ ks, (run_main ts idle;; run_calls cs) (MkKernel st boot_data) = Some (ks, ()) ∧
    refines (lists ks) (lists k) ∧ data ks = data k ∧ kernel_ok idle k.
Proof.
  intros R B M E0 P. destruct (main_inv A ts idle B M) as (k1 & E1 & I1 & _).
  assert (k1 = k0) as -> by congruence. pose proof (permitted_run_inv _ _ _ _ P I1) as I.
  assert (S : ksim (R := refines) (run_main ts idle;; run_calls cs) (run_main ts idle;; run_calls cs)).
  { apply ksim_bind; [apply sim_run_main|]. intros _. apply sim_run_calls. }
  destruct (S (MkKernel st boot_data) (MkKernel A boot_data) k ()) as (ks & E & HR & HD).
  - by split.
  - unfold mbind, K_bind. rewrite E0. simpl. by apply (permitted_run_calls idle).
  - exists ks. split_and!; [done..|by apply inv_kernel_ok].
Qed.

(** ** The context switch *)

(** As many switches in a row, and the tasks they choose. *)
Fixpoint turns `{KLists L} (n : nat) : K L (list TaskHandle_t) :=
  match n with
  | O => mret []
  | S n => vTaskSwitchContext;; c ← current; cs ← turns n; mret (c :: cs)
  end.

Section switch.
Context (idle : TaskHandle_t).

(** The priority of the ready tasks that no ready task is above. *)
Definition top_priority k (p : Z) : Prop := (∃ t, ready (lists k) p t) ∧ ∀ q u, ready (lists k) q u → q ≤ p.

Lemma top_priority_quiet k k' p : quiet k k' → inv idle k → inv idle k' → top_priority k p → top_priority k' p.
Proof.
  intros Qu I I' [[t (l & Hl & Hh)] Ht]. split.
  - exists t, l. split; [done|]. by apply (qu_place _ _ Qu).
  - intros q u (l' & Hl' & Hh'). apply (Ht q u). exists l'. split; [done|]. by apply (qu_place _ _ Qu).
Qed.

Lemma wp_switch_top p l a x Q k :
  inv idle k → uxSchedulerSuspended (data k) = 0 → top_priority k p → pxReadyTasksLists p = Some l →
  a_lists (lists k) !! l = Some a → a_next a = Some x →
  (∀ k' t, inv idle k' → quiet k k' → x = St t → pxCurrentTCB (data k') = Some t → uxSchedulerSuspended (data k') = 0 →
     xYieldPending (data k') = false → a_lists (lists k') !! l = Some (set_cursor (Some x) a) → Q () k') →
  wp vTaskSwitchContext Q k.
Proof.
  intros I Hs [[u Hu] Ht] Hl Ha Hx HQ. apply (wp_yield idle); [apply I..|]. intros k' S I'.
  pose proof (switched_quiet _ _ (wf_ok _ _ _ _ _ (co_wf _ _ _ _ _ _ _ (inv_core _ _ I))) S) as Qu.
  destruct S as [?|p' l' t a' A' _ Hp' Ha' Hn' Ht' Hr' Htop M EA]; [done|].
  assert (p' = p) as -> by (specialize (Ht _ _ Hr'); specialize (Htop _ _ Hu); lia).
  assert (l' = l) as -> by congruence. assert (a' = a) as -> by congruence. assert (x = St t) as -> by congruence.
  apply (HQ _ t); try done. simpl. rewrite EA. simpl. by rewrite lookup_insert_eq.
Qed.

Lemma wp_turns p l mid pre suf Q k :
  inv idle k → uxSchedulerSuspended (data k) = 0 → top_priority k p → pxReadyTasksLists p = Some l →
  a_lists (lists k) !! l = Some (MkAlist (pre ++ mid ++ suf) (last pre)) →
  (∀ k' ts, inv idle k' → uxSchedulerSuspended (data k') = 0 → top_priority k' p → St <$> ts = mid →
     a_lists (lists k') !! l = Some (MkAlist (pre ++ mid ++ suf) (last (pre ++ mid))) → Q ts k') →
  wp (turns (length mid)) Q k.
Proof.
  revert k pre Q. induction mid as [|x mid IH]; intros k pre Q I Hs Ht Hl Ha HQ; simpl.
  { wp_step. rewrite app_nil_r in HQ. by apply HQ. }
  pose proof (lo_nodup _ (wf_ok _ _ _ _ _ (co_wf _ _ _ _ _ _ _ (inv_core _ _ I))) _ _ Ha) as ND. simpl in ND.
  wp_step. eapply wp_switch_top; [done..|by apply a_next_mid|]. intros k1 t I1 Qu -> Hc1 Hs1 _ Ha1.
  wp_step. apply (wp_current _ t); [done|]. wp_step.
  apply (IH k1 (pre ++ [St t])); [done|done|by apply (top_priority_quiet k)|done| |].
  - rewrite Ha1. unfold set_cursor. simpl. by rewrite last_snoc, <- app_assoc.
  - intros k2 ts I2 Hs2 Ht2 E Ha2. wp_step. apply HQ; [done..| |].
    + csimpl. by rewrite E.
    + rewrite Ha2. by rewrite <- !app_assoc.
Qed.

Lemma wp_turns_add n m Q k :
  wp (turns n) (λ ts k1, wp (turns m) (λ us, Q (ts ++ us)) k1) k → wp (turns (n + m)) Q k.
Proof.
  revert k Q. induction n as [|n IH]; intros k Q W; simpl in *; [exact W|].
  unfold wp, mbind, K_bind in *. destruct (vTaskSwitchContext k) as [[k1 []]|]; [|done].
  simpl in *. destruct (current k1) as [[k2 c]|]; [|done]. simpl in *.
  specialize (IH k2 (λ us, Q (c :: us))). unfold wp in IH.
  destruct (turns n k2) as [[k3 ts]|]; [|done]. simpl in *. specialize (IH W).
  destruct (turns (n + m) k2) as [[k4 vs]|]; [done|done].
Qed.

(** Once around: from the end of the list every item comes in order. *)
Lemma wp_turns_wrap p l x xs suf Q k :
  inv idle k → uxSchedulerSuspended (data k) = 0 → top_priority k p → pxReadyTasksLists p = Some l →
  a_lists (lists k) !! l = Some (MkAlist (x :: xs ++ suf) (last (x :: xs ++ suf))) →
  (∀ k' ts, inv idle k' → St <$> ts = x :: xs → Q ts k') → wp (turns (S (length xs))) Q k.
Proof.
  intros I Hs Ht Hl Ha HQ. simpl.
  pose proof (lo_nodup _ (wf_ok _ _ _ _ _ (co_wf _ _ _ _ _ _ _ (inv_core _ _ I))) _ _ Ha) as ND. simpl in ND.
  wp_step. eapply wp_switch_top; [done..|by apply a_next_wrap|]. intros k1 t I1 Qu -> Hc1 Hs1 _ Ha1.
  wp_step. apply (wp_current _ t); [done|]. wp_step.
  apply (wp_turns p l xs [St t] suf); [done|done|by apply (top_priority_quiet k)|done|done|].
  intros k2 ts I2 Hs2 Ht2 E Ha2. wp_step. apply HQ; [done|]. csimpl. by rewrite E.
Qed.
End switch.

(** C16.  The context switch: when the scheduler is not suspended,
    [vTaskSwitchContext] gives the processor to a task of the highest priority
    that has a ready task, the one after the last that ran in the ready list of
    that priority, and no switch is due any more; no task moves between
    lists. *)
Theorem vTaskSwitchContext_highest idle k p l a :
  inv idle k → uxSchedulerSuspended (data k) = 0 → top_priority k p → pxReadyTasksLists p = Some l →
  a_lists (lists k) !! l = Some a →
  ∃ k' t, vTaskSwitchContext k = Some (k', ()) ∧ pxCurrentTCB (data k') = Some t ∧ ready (lists k') p t ∧
    (∀ q u, ready (lists k') q u → q ≤ p) ∧ a_next a = Some (St t) ∧ xYieldPending (data k') = false ∧
    ∀ u, same_place k k' u.
Proof.
  intros I Hs Ht Hl Ha. destruct (Ht) as [[u (l' & Hl' & b & Hb & Hu)] _]. simplify_eq.
  assert (∃ x, a_next a = Some x) as [x Hx].
  { unfold a_next. destruct (cursor a) as [c|]; simpl; [|destruct (elems a); [by apply elem_of_nil in Hu|by eexists]].
    destruct (succ_of c (elems a)); [by eexists|]. destruct (elems a); [by apply elem_of_nil in Hu|by eexists]. }
  assert (E : wp vTaskSwitchContext (λ _ k', ∃ t, pxCurrentTCB (data k') = Some t ∧ ready (lists k') p t ∧
    (∀ q u, ready (lists k') q u → q ≤ p) ∧ a_next a = Some (St t) ∧ xYieldPending (data k') = false ∧
    ∀ u, same_place k k' u) k).
  { eapply wp_switch_top; [done..|]. intros k' t I' Qu -> Hc Hs' Hy Ha'. exists t.
    pose proof (top_priority_quiet idle _ _ _ Qu I I' Ht) as [_ Ht']. split_and!; [done| |done..|apply Qu].
    exists l. split; [done|]. exists (set_cursor (Some (St t)) a). split; [done|]. simpl.
    pose proof (co_wf _ _ _ _ _ _ _ (inv_core _ _ I')) as W'.
    by apply (lo_cursor _ (wf_ok _ _ _ _ _ W') _ _ _ Ha'). }
  apply wp_result in E as (k' & [] & E & t & H). by exists k', t.
Qed.

(**  Equal turns: as many context switches as there are ready tasks of the
    highest priority choose every one of them exactly once. *)
Theorem vTaskSwitchContext_equal_turns idle k p l a :
  inv idle k → uxSchedulerSuspended (data k) = 0 → top_priority k p → pxReadyTasksLists p = Some l →
  a_lists (lists k) !! l = Some a →
  ∃ k' ts, turns (length (elems a)) k = Some (k', ts) ∧ St <$> ts ≡ₚ elems a ∧ kernel_ok idle k'.
Proof.
  intros I Hs Ht Hl Ha. pose proof (wf_ok _ _ _ _ _ (co_wf _ _ _ _ _ _ _ (inv_core _ _ I))) as O.
  assert (∃ pre suf, elems a = pre ++ suf ∧ cursor a = last pre) as (pre & suf & E & Ec).
  { destruct (cursor a) as [c|] eqn:Ec; [|by exists [], (elems a)].
    destruct (list_elem_of_split _ _ (lo_cursor _ O _ _ _ Ha Ec)) as (p1 & p2 & ->).
    exists (p1 ++ [c]), p2. by rewrite last_snoc, <- app_assoc. }
  assert (W : wp (turns (length (elems a))) (λ ts k', St <$> ts ≡ₚ elems a ∧ kernel_ok idle k') k); [|
    by apply wp_result in W as (k' & ts & ? & ? & ?); exists k', ts].
  destruct a as [xs cu]. simpl in *. subst xs cu. rewrite length_app, Nat.add_comm. apply wp_turns_add.
  apply (wp_turns idle p l suf pre []); rewrite ?app_nil_r; [done..|].
  intros k1 ts I1 Hs1 Ht1 Ets Ha1. destruct pre as [|x pre]; simpl.
  - wp_step. rewrite app_nil_r, Ets. split; [done|by apply inv_kernel_ok].
  - eapply (wp_turns_wrap idle p l x pre suf); [done..|]. intros k2 us I2 Eus.
    split; [|by apply inv_kernel_ok]. rewrite fmap_app, Ets, Eus. by rewrite Permutation_app_comm.
Qed.

(** ** Time *)

(** The tick interrupt, [n] times. *)
Fixpoint isr_ticks `{KLists L} (n : nat) : K L unit :=
  match n with
  | O => mret ()
  | S n => vTickISR;; isr_ticks n
  end.

Section time.
Context (idle : TaskHandle_t).

Lemma inv_sane k : inv idle k → sane k.
Proof. intros [[W Ti C] _ _ _]. split; [apply W|exact Ti]. Qed.

Lemma time_left_unique k t n m : sane k → time_left k t n → time_left k t m → n = m.
Proof.
  intros [O T]. pose proof (td_ne _ _ _ _ T) as Hne. pose proof (lo_unique _ O) as HU.
  intros [[H1 ->]|[H1 ->]] [[H2 ->]|[H2 ->]]; try done; [destruct Hne|destruct Hne; symmetry]; by eapply HU.
Qed.

Lemma awake_no_time_left k t n : sane k → awake k t → ¬ time_left k t n.
Proof.
  intros [O Ti] [(T & HT & l & Hl & Hh) _] TL. pose proof (ready_list_bound _ _ Hl). pose proof (lo_unique _ O) as HU.
  destruct TL as [[H2 _]|[H2 _]]; pose proof (HU _ _ _ Hh H2); subst l;
    [destruct (td_dl _ _ _ _ Ti) as [E|E]|destruct (td_ol _ _ _ _ Ti) as [E|E]]; rewrite E in *; list_lia.
Qed.

(** One tick less to wait. *)
Lemma time_left_ticked k k' t n : sane k → ticked k k' → time_left k t n → n ≠ 1 → time_left k' t (n - 1).
Proof.
  intros Sa Tk TL Hn. pose proof (proj2 Sa) as T.
  assert (P : same_place k k' t).
  { apply (tk_rest _ _ Tk). intros T1. by apply Hn, (time_left_unique k t). }
  pose proof (tk_lists _ _ Tk) as HL. pose proof (tk_val _ _ Tk) as HV.
  assert (HT : xTickCount (data k') = u32 (xTickCount (data k) + 1)).
  { destruct (tk_data _ _ Tk) as (? & ? & ? & ? & ? & E). by rewrite E. }
  pose proof (td_tick _ _ _ _ T) as Htk. unfold time_left. rewrite HV, HT, !(proj1 (P _)).
  destruct (next_tick _ Htk) as [[E E']|[E E']].
  - rewrite E in *. destruct HL as (-> & -> & _). destruct TL as [[H ->]|[H ->]].
    + by destruct (empty_at_wrap _ _ _ _ _ T E eq_refl H).
    + left. split; [done|]. lia.
  - rewrite (proj2 (Z.eqb_neq _ _)) in HL by lia. destruct HL as (-> & -> & _). rewrite E.
    destruct TL as [[H ->]|[H ->]]; [left|right]; (split; [done|lia]).
Qed.

Lemma awake_ticked k k' t : sane k → ticked k k' → awake k t → awake k' t.
Proof.
  intros Sa Tk Aw. apply (awake_same_place k); [|by destruct (ticked_susp _ _ Tk) as (_ & _ & ? & _)|done].
  apply (tk_rest _ _ Tk). by apply awake_no_time_left.
Qed.

(** What is left of a delay of [n] ticks after [j] of them. *)
Definition left_after k t (n j : Z) : Prop := if j <? n then time_left k t (n - j) else awake k t.

Lemma left_after_ticked k k' t n j : sane k → ticked k k' → left_after k t n j → left_after k' t n (j + 1).
Proof.
  intros Sa Tk. unfold left_after. destruct (Z.ltb_spec j n) as [Hj|Hj].
  - intros TL. destruct (decide (n - j = 1)) as [E|E].
    + rewrite (proj2 (Z.ltb_ge _ _)) by lia. rewrite E in TL. by apply (tk_due _ _ Tk).
    + rewrite (proj2 (Z.ltb_lt _ _)) by lia. replace (n - (j + 1)) with (n - j - 1) by lia.
      by apply (time_left_ticked k).
  - rewrite (proj2 (Z.ltb_ge _ _)) by lia. by apply awake_ticked.
Qed.

Lemma awake_quiet k k' t : quiet k k' → awake k t → awake k' t.
Proof. intros Qu. apply awake_same_place; [apply Qu|by destruct Qu as [[= ->]]]. Qed.

Lemma left_after_quiet k k' t n j : quiet k k' → left_after k t n j → left_after k' t n j.
Proof. intros Qu. unfold left_after. destruct (j <? n); [by apply time_left_quiet|by apply awake_quiet]. Qed.

Lemma wp_isr_ticks t n m : ∀ j Q k,
  inv idle k → uxSchedulerSuspended (data k) = 0 → left_after k t n j →
  (∀ k', inv idle k' → left_after k' t n (j + Z.of_nat m) → Q () k') → wp (isr_ticks m) Q k.
Proof.
  induction m as [|m IH]; intros j Q k I Hs Ht HQ; cbn [isr_ticks].
  { wp_step. apply HQ; [done|]. by rewrite Z.add_0_r. }
  wp_step. apply (wp_vTickISR idle); [done|]. rewrite Hs. cbn [Z.eqb]. intros k' I' Tk.
  assert (∃ k1, ticked k k1 ∧ quiet k1 k' ∧ uxSchedulerSuspended (data k') = 0) as (k1 & Tk1 & Qu & Hs').
  { destruct Tk as [Tk|(k1 & Tk & O & S)].
    - exists k'. split; [done|]. split; [apply quiet_refl|]. by rewrite (proj1 (ticked_susp _ _ Tk)).
    - exists k1. split; [done|]. split; [by apply switched_quiet|].
      by rewrite (switched_susp _ _ S), (proj1 (ticked_susp _ _ Tk)). }
  apply (IH (j + 1)); [done|done| |].
  - apply (left_after_quiet k1); [done|]. apply (left_after_ticked k); [by apply inv_sane|done|done].
  - intros k2 I2 H2. apply HQ; [done|]. by replace (j + Z.of_nat (S m)) with (j + 1 + Z.of_nat m) by lia.
Qed.

(** The ticks made up for when the scheduler is resumed. *)
Lemma ticks_left_after m k k' t n : ticks m k k' → ∀ j, left_after k t n j → left_after k' t n (j + Z.of_nat m).
Proof.
  induction 1 as [k|m k k1 y k' Sa Sa1 Tk Tks IH]; intros j Hj; [by rewrite Z.add_0_r|].
  replace (j + Z.of_nat (S m)) with (j + 1 + Z.of_nat m) by lia. apply IH.
  apply (left_after_quiet k1); [by apply quiet_data|]. by apply (left_after_ticked k).
Qed.

Lemma ticks_count m k k' : ticks m k k' → is_u32 (xTickCount (data k)) →
  xTickCount (data k') = u32 (xTickCount (data k) + Z.of_nat m).
Proof.
  induction 1 as [k|m k k1 y k' Sa Sa1 Tk Tks IH]; intros Ht; [by rewrite Z.add_0_r, u32_id|].
  destruct (tk_data _ _ Tk) as (? & ? & ? & ? & ? & E). rewrite E in IH. simpl in IH.
  rewrite IH by apply u32_range. word_lia.
Qed.

(** While the scheduler is suspended the tick interrupt only counts. *)
Lemma wp_isr_pended m : ∀ Q k,
  inv idle k → uxSchedulerSuspended (data k) ≠ 0 → xPendedTicks (data k) + Z.of_nat m < 4294967296 →
  (∀ k', inv idle k' → k' = MkKernel (lists k) (set_xPendedTicks (xPendedTicks (data k) + Z.of_nat m) (data k)) → Q () k') →
  wp (isr_ticks m) Q k.
Proof.
  induction m as [|m IH]; intros Q k I Hs Hm HQ; cbn [isr_ticks].
  { wp_step. apply HQ; [done|]. rewrite Z.add_0_r. by destruct k as [A []]. }
  pose proof (inv_calm _ _ I) as [[_ Hp] _]. unfold is_u32 in Hp.
  wp_step. apply (wp_vTickISR idle); [done|]. rewrite (proj2 (Z.eqb_neq _ _)) by done.
  rewrite u32_id by (unfold is_u32; lia). intros k' I' ->.
  apply IH; [done|done|simpl; lia|]. simpl. intros k2 I2 ->. apply HQ; [done|].
  replace (xPendedTicks (data k) + Z.of_nat (S m)) with (xPendedTicks (data k) + 1 + Z.of_nat m) by lia. done.
Qed.
End time.

(** C9.  Delays are exact: the task that calls [vTaskDelay(n)] becomes ready at
    the [n]-th tick after the call and at no earlier one, whatever the value of
    the tick count, also when the count wraps in between. *)
Theorem vTaskDelay_exact idle k c n j :
  inv idle k → running k c → c ≠ idle → uxSchedulerSuspended (data k) = 0 → 0 < n < 4294967296 →
  ∃ k', (vTaskDelay n;; isr_ticks j) k = Some (k', ()) ∧ kernel_ok idle k' ∧
    (Z.of_nat j < n → time_left k' c (n - Z.of_nat j) ∧ ∀ p, ¬ ready (lists k') p c) ∧
    (n ≤ Z.of_nat j → awake k' c).
Proof.
  intros I R Hc Hs Hn.
  assert (W : wp (vTaskDelay n;; isr_ticks j) (λ _ k', inv idle k' ∧ left_after k' c n (Z.of_nat j)) k).
  { wp_step. apply (wp_vTaskDelay idle n c); [done..|lia|]. rewrite (proj2 (Z.eqb_neq _ _)) by lia.
    intros k1 I1 (TL & _ & Hs1 & _). apply (wp_isr_ticks idle c n j 0); [done|done| |auto].
    unfold left_after. rewrite (proj2 (Z.ltb_lt _ _)) by lia. by rewrite Z.sub_0_r. }
  apply wp_result in W as (k' & [] & E & I' & H). unfold left_after in H. exists k'. split_and!; [done|by apply inv_kernel_ok|..]; intros Hj.
  - rewrite (proj2 (Z.ltb_lt _ _)) in H by lia. split; [done|]. intros p (l & Hl & Hh).
    destruct (wf_st_task _ _ _ _ _ _ _ (co_wf _ _ _ _ _ _ _ (inv_core _ _ I')) Hh) as [T HT].
    destruct (wf_ready _ _ _ _ _ (co_wf _ _ _ _ _ _ _ (inv_core _ _ I')) p c T) as [Hp _]; [by exists l|done|].
    apply (awake_no_time_left k' c (n - Z.of_nat j)); [by apply (inv_sane idle)| |done]. split; [exists T; split; [done|]; rewrite Hp; by exists l|].
    intros l'. apply (ready_ev_free idle (lists k') (data k') p); [apply I'|by exists l].
  - by rewrite (proj2 (Z.ltb_ge _ _)) in H by lia.
Qed.

(** C22.  No tick is lost while the scheduler is suspended: if [j] tick interrupts
    come between [vTaskSuspendAll] and [xTaskResumeAll], the tick count has
    advanced by [j] when the latter returns, and every delayed task stands as
    after [j] ticks: ready if its time has come, with [j] ticks less to wait
    otherwise. *)
Theorem suspended_ticks_kept idle k j t n :
  inv idle k → uxSchedulerSuspended (data k) = 0 → Z.of_nat j < 4294967296 → time_left k t n → 0 < n →
  ∃ k' y, (vTaskSuspendAll;; isr_ticks j;; xTaskResumeAll) k = Some (k', y) ∧ kernel_ok idle k' ∧
    xTickCount (data k') = u32 (xTickCount (data k) + Z.of_nat j) ∧
    (Z.of_nat j < n → time_left k' t (n - Z.of_nat j)) ∧ (n ≤ Z.of_nat j → awake k' t).
Proof.
  intros I Hs Hj TL Hn. pose proof (inv_calm _ _ I) as [_ Hcalm]. destruct (Hcalm Hs) as [Hp Hn8].
  assert (W : wp (vTaskSuspendAll;; isr_ticks j;; xTaskResumeAll) (λ _ k', inv idle k' ∧
    xTickCount (data k') = u32 (xTickCount (data k) + Z.of_nat j) ∧ left_after k' t n (Z.of_nat j)) k).
  { wp_step. apply (wp_vTaskSuspendAll idle); [done|lia|]. intros k1 E1 I1. wp_step.
    apply (wp_isr_pended idle); [done|rewrite E1; simpl; lia|rewrite E1; simpl; lia|]. intros k2 I2 E2.
    apply (wp_xTaskResumeAll idle); [done|rewrite E2, E1; simpl; lia|]. intros k3 y I3 (k4 & v & k5 & Up & Tk & Qu) _.
    assert (Q4 : quiet k k4).
    { apply (quiet_trans _ (set_susp 0 k2)); [unfold set_susp; rewrite E2, E1; by apply (quiet_data k)|].
      apply (unpended_quiet _ _ Up). by rewrite E2, E1. }
    assert (Em : Z.to_nat (xPendedTicks (data k2)) = j) by (rewrite E2, E1; simpl; lia). rewrite Em in Tk.
    assert (Et : xTickCount (data k4) = xTickCount (data k)) by (by destruct Q4 as [[= _ -> _ _ _] _ _]).
    split; [done|]. split.
    - destruct Qu as [[= _ -> _ _ _] _ _]. rewrite (ticks_count _ _ _ Tk); simpl; rewrite Et; [done|].
      apply (td_tick _ _ _ _ (co_timed _ _ _ _ _ _ _ (inv_core _ _ I))).
    - apply (left_after_quiet k5); [done|]. apply (ticks_left_after _ _ _ t n Tk 0).
      apply (left_after_quiet k4); [by apply quiet_data|]. apply (left_after_quiet k); [done|].
      unfold left_after. rewrite (proj2 (Z.ltb_lt _ _)) by done. by rewrite Z.sub_0_r. }
  apply wp_result in W as (k' & y & E & I' & Et & H). unfold left_after in H. exists k', y.
  split_and!; [done|by apply inv_kernel_ok|done|..]; intros Hjn.
  - by rewrite (proj2 (Z.ltb_lt _ _)) in H by lia.
  - by rewrite (proj2 (Z.ltb_ge _ _)) in H by lia.
Qed.

(**  Periodic tasks: on times counted without wrapping, [P] the previous
    wake time and [T] now (less than one wrap of the tick count later),
    [xTaskDelayUntil] sets the wake time to [P + inc] exactly; if that is in
    the future the task waits the difference, otherwise it goes on at once and
    says so.  So a period does not drift with the time its body takes. *)
Theorem xTaskDelayUntil_periodic idle k c P T inc :
  inv idle k → running k c → c ≠ idle → uxSchedulerSuspended (data k) = 0 →
  xTickCount (data k) = u32 T → 0 ≤ P ≤ T → T - P < 4294967296 → 0 < inc < 4294967296 →
  ∃ k', xTaskDelayUntil (u32 P) inc k = Some (k', (u32 (P + inc), bool_decide (T < P + inc))) ∧ kernel_ok idle k' ∧
    (T < P + inc → time_left k' c (P + inc - T)) ∧ (P + inc ≤ T → same_place k k' c).
Proof.
  intros I R Hc Hs HT HP HTP Hinc.
  pose proof (should_delay_spec P T inc HP HTP Hinc) as Hsd.
  assert (Ew : u32 (u32 P + inc) = u32 (P + inc)) by word_lia.
  assert (W : wp (xTaskDelayUntil (u32 P) inc) (λ r k', inv idle k' ∧ r = (u32 (P + inc), bool_decide (T < P + inc)) ∧
    (T < P + inc → time_left k' c (P + inc - T)) ∧ (P + inc ≤ T → same_place k k' c)) k).
  { apply (wp_xTaskDelayUntil idle (u32 P) inc c); [done..|apply u32_range|unfold is_u32; lia|].
    intros k' I'. cbv zeta. rewrite Ew, HT. rewrite Ew in Hsd.
    destruct (should_delay (u32 T) (u32 P) (u32 (P + inc))) eqn:E; intros H; (split; [done|]).
    - assert (HL : T < P + inc) by by apply Hsd. rewrite bool_decide_eq_true_2 by done. split; [done|].
      split; [intros _|lia]. replace (P + inc - T) with (u32 (u32 (P + inc) - u32 T)) by word_lia. done.
    - assert (HL : ¬ T < P + inc) by (intros ?%Hsd; congruence). rewrite bool_decide_eq_false_2 by done.
      by split. }
  apply wp_result in W as (k' & r & E & I' & -> & H1 & H2). exists k'. split_and!; [done|by apply inv_kernel_ok|done|done].
Qed.

(** The clock over [j] ticks. *)
Lemma wp_isr_clock idle j : ∀ Q k,
  inv idle k → uxSchedulerSuspended (data k) = 0 → Z.of_nat j < 4294967296 →
  (∀ k', inv idle k' → uxSchedulerSuspended (data k') = 0 →
     xTickCount (data k') = u32 (xTickCount (data k) + Z.of_nat j) →
     (xTickCount (data k) + Z.of_nat j < 4294967296 → xNumOfOverflows (data k') = xNumOfOverflows (data k)) → Q () k') →
  wp (isr_ticks j) Q k.
Proof.
  induction j as [|j IH]; intros Q k I Hs Hj HQ; cbn [isr_ticks];
    pose proof (td_tick _ _ _ _ (co_timed _ _ _ _ _ _ _ (inv_core _ _ I))) as Htk.
  { wp_step. apply HQ; [done|done| |done]. rewrite Z.add_0_r, u32_id; done. }
  wp_step. apply (wp_vTickISR idle); [done|]. rewrite Hs. cbn [Z.eqb]. intros k' I' Tk.
  assert (∃ k1, ticked k k1 ∧ uxSchedulerSuspended (data k') = 0 ∧ xTickCount (data k') = xTickCount (data k1) ∧
    xNumOfOverflows (data k') = xNumOfOverflows (data k1)) as (k1 & Tk1 & Hs' & Et & Eo).
  { destruct Tk as [Tk|(k1 & Tk & O & S)].
    - exists k'. by rewrite (proj1 (ticked_susp _ _ Tk)).
    - exists k1. rewrite (switched_susp _ _ S), (proj1 (ticked_susp _ _ Tk)).
      pose proof (switched_quiet _ _ O S) as [[= _ -> -> _ _] _ _]. done. }
  assert (HT : xTickCount (data k1) = u32 (xTickCount (data k) + 1)).
  { destruct (tk_data _ _ Tk1) as (? & ? & ? & ? & ? & E). by rewrite E. }
  pose proof (tk_lists _ _ Tk1) as HL.
  apply IH; [done|done|lia|]. intros k2 I2 Hs2 Et2 Eo2. rewrite Et, HT in *. rewrite Eo in Eo2.
  apply HQ; [done|done| |].
  - rewrite Et2. word_lia.
  - intros Hlt. destruct (next_tick _ Htk) as [[E E']|[E E']]; [lia|].
    rewrite (proj2 (Z.eqb_neq _ _)) in HL by lia. destruct HL as (_ & _ & Eo1).
    rewrite Eo2; [done|]. rewrite E. lia.
Qed.

(** C31.  Time-outs: a task that noted the time with [vTaskSetTimeOutState] and
    asks [xTaskCheckForTimeOut] [j] ticks later (fewer than 2^32, wraps of the
    count included) is told that it timed out exactly when [j] has reached the
    ticks to wait; otherwise what is left is the difference.  With
    [portMAX_DELAY] it never times out. *)
Theorem xTaskCheckForTimeOut_exact idle k j wait :
  inv idle k → uxSchedulerSuspended (data k) = 0 → Z.of_nat j < 4294967296 → is_u32 wait →
  let to := (xNumOfOverflows (data k), xTickCount (data k)) in
  ∃ k', (to ← vTaskSetTimeOutState; isr_ticks j;; xTaskCheckForTimeOut to wait) k =
    Some (k', (if wait =? portMAX_DELAY then (false, to, wait)
               else if Z.of_nat j <? wait then (false, (xNumOfOverflows (data k'), xTickCount (data k')), wait - Z.of_nat j)
               else (true, to, 0))) ∧ kernel_ok idle k'.
Proof.
  intros I Hs Hj Hw to.
  assert (W : wp (to ← vTaskSetTimeOutState; isr_ticks j;; xTaskCheckForTimeOut to wait) (λ r k', inv idle k' ∧
    r = (if wait =? portMAX_DELAY then (false, to, wait)
         else if Z.of_nat j <? wait then (false, (xNumOfOverflows (data k'), xTickCount (data k')), wait - Z.of_nat j)
         else (true, to, 0))) k).
  { pose proof (td_tick _ _ _ _ (co_timed _ _ _ _ _ _ _ (inv_core _ _ I))) as Htk.
    wp_step. unfold vTaskSetTimeOutState at 1. do 4 wp_step. wp_step. wp_step. fold to. apply (wp_isr_clock idle); [done..|].
    intros k' I' Hs' Et Eo. unfold xTaskCheckForTimeOut. do 4 wp_step. cbv zeta. cbn [fst snd to].
    replace (u32 (xTickCount (data k') - xTickCount (data k))) with (Z.of_nat j) by (rewrite Et; word_lia).
    destruct (wait =? portMAX_DELAY); [by wp_step|].
    replace (negb (xNumOfOverflows (data k') =? xNumOfOverflows (data k)) && (xTickCount (data k) <=? xTickCount (data k')))
      with false; [destruct (Z.ltb_spec (Z.of_nat j) wait)|].
    - unfold vTaskSetTimeOutState. wp_step. do 5 wp_step. split; [done|]. rewrite u32_id; [done|]. unfold is_u32 in *. lia.
    - by wp_step.
    - symmetry. destruct (Z.leb_spec (xTickCount (data k)) (xTickCount (data k'))); [|by rewrite andb_false_r].
      rewrite Eo; [by rewrite Z.eqb_refl|]. revert Htk Et. word_lia. }
  apply wp_result in W as (k' & r & E & I' & ->). exists k'. split; [done|by apply inv_kernel_ok].
Qed.

(**  Notifying: [xTaskGenericNotify] updates the value as its action says
    and returns the old one, marks the notification received, and a task that
    waited for it is ready afterwards (it waits for nothing else); no other
    task moves. *)
Theorem xTaskGenericNotify_wakes idle k t i w a v s :
  inv idle k → notifiable k t i → notified k t i v s →
  ∃ k', xTaskGenericNotify t i w a k = Some (k', ((notify_value a w s v).2, v)) ∧ kernel_ok idle k' ∧
    notified k' t i (notify_value a w s v).1 taskNOTIFICATION_RECEIVED ∧
    (s = taskWAITING_NOTIFICATION → awake k' t) ∧ ∀ u, u ≠ t → same_place k k' u.
Proof.
  intros I N Hvs.
  assert (W : wp (xTaskGenericNotify t i w a) (λ r k', r = ((notify_value a w s v).2, v) ∧ inv idle k' ∧
    notified k' t i (notify_value a w s v).1 taskNOTIFICATION_RECEIVED ∧
    (s = taskWAITING_NOTIFICATION → awake k' t) ∧ ∀ u, u ≠ t → same_place k k' u) k).
  { by apply (wp_xTaskGenericNotify idle t i w a v s). }
  apply wp_result in W as (k' & r & E & -> & I' & H). exists k'. split; [done|]. split; [by apply inv_kernel_ok|done].
Qed.

(** ** Witnesses: two tasks of priority 2, one of priority 1, the idle task 4,
    and one more list for events *)
Definition main_memory : gset positive := list_to_set [1; 2; 3; 4; 5; 6; 7; 8; 9; 10; 11; 12; 13]%positive.
Definition main_abs : astate := MkAstate main_memory ∅ ∅ (λ _, 0) (λ _, 0).
Definition main_store : store :=
  MkStore (list_to_map ((λ l, (End l, MkLinks 0 None None)) <$> elements main_memory)) ∅
    (list_to_map ((λ l, (l, MkHdr 0 None)) <$> elements main_memory)).
Definition main_tasks : list (TaskHandle_t * Z) := [(1%positive, 2); (2%positive, 2); (3%positive, 1)].

Lemma main_blank : blank main_abs.
Proof. split; [apply (bool_decide_unpack _); vm_compute; reflexivity|done]. Qed.

Lemma main_fine : main_ok main_tasks 4.
Proof.
  split; [done|]. split; [apply (bool_decide_unpack _); vm_compute; reflexivity|].
  split; [apply (bool_decide_unpack _); vm_compute; reflexivity|vm_compute; reflexivity].
Qed.

Lemma main_refines : refines main_store main_abs.
Proof.
  assert (HN : ∀ i, links main_store !! Item i = None).
  { intros i. unfold main_store. simpl. apply not_elem_of_list_to_map_1. rewrite <- list_fmap_compose.
    intros (l & E & _)%list_elem_of_fmap. done. }
  constructor; simpl.
  - done.
  - intros i l. unfold cont. simpl. by rewrite lookup_empty.
  - intros i. rewrite lookup_empty. pose proof (HN i) as E. simpl in E. rewrite E. split; by intros [].
  - assert (HM : set_Forall (λ l, is_Some (links main_store !! End l) ∧ is_Some (hdrs main_store !! l)) main_memory)
      by (apply (bool_decide_unpack _); vm_compute; reflexivity).
    apply HM.
  - intros i. rewrite lookup_empty. split; [set_solver|by intros []].
  - intros i v. unfold val. pose proof (HN i) as E. simpl in *. by rewrite E.
  - intros i o. unfold own. simpl. by rewrite lookup_empty.
Qed.

Definition state_of (r : option (akernel * ())) : akernel :=
  match r with Some (k, _) => k | None => MkKernel main_abs boot_data end.

Lemma state_of_spec (P : akernel → Prop) r k : r = Some (k, ()) → P k → r = Some (state_of r, ()) ∧ P (state_of r).
Proof. by intros ->. Qed.

Definition started : akernel := state_of (run_main main_tasks 4 (MkKernel main_abs boot_data)).

Lemma started_main : run_main main_tasks 4 (MkKernel main_abs boot_data) = Some (started, ()) ∧ inv 4 started.
Proof.
  destruct (main_inv main_abs main_tasks 4 main_blank main_fine) as (k & E & I & _).
  exact (state_of_spec (inv 4) _ k E I).
Qed.

(** Deciding where an item is. *)
Definition holds_b A (l i : positive) : bool :=
  match a_lists A !! l with Some a => bool_decide (i ∈ elems a) | None => false end.

Lemma holds_b_spec A l i : holds_b A l i = true → holds A l i.
Proof. unfold holds_b. destruct (a_lists A !! l) as [a|] eqn:E; [|done]. intros ?%bool_decide_eq_true. by exists a. Qed.

Lemma started_running : running started 2.
Proof. split; [vm_compute; reflexivity|]. exists 2, 3%positive. split; [done|]. apply holds_b_spec. vm_compute. reflexivity. Qed.

Lemma started_top : top_priority started 2.
Proof.
  split; [exists 2%positive, 3%positive; split; [done|]; apply holds_b_spec; vm_compute; reflexivity|].
  intros q u R. apply (inv_top _ _ (proj2 started_main)) with (c := 2%positive) (C := new_tcb 2) (t := u);
    [vm_compute; reflexivity..|done].
Qed.

Lemma started_may_block n : 0 <= n < 4294967296 → may_block 4 started n.
Proof. intros Hn. exists 2%positive. split; [apply started_running|]. by split. Qed.

(** A delay, a tick and a switch. *)
Lemma run_three k n : inv 4 k → permitted 4 k (CDelay n) → ∃ k', permitted_run 4 k [CDelay n; CTick; CYield] k'.
Proof.
  intros I P1. pose proof (inv_step 4 k _ I P1) as W1. apply wp_result in W1 as (k1 & [] & E1 & I1).
  pose proof (inv_step 4 k1 CTick I1 Logic.I) as W2. apply wp_result in W2 as (k2 & [] & E2 & I2).
  pose proof (inv_step 4 k2 CYield I2 Logic.I) as W3. apply wp_result in W3 as (k3 & [] & E3 & I3).
  exists k3. eapply run_cons; [exact P1|exact E1|]. eapply run_cons; [exact Logic.I|exact E2|].
  eapply run_cons; [exact Logic.I|exact E3|]. constructor.
Qed.

Lemma started_run : ∃ k, permitted_run 4 started [CDelay 3; CTick; CYield] k.
Proof.
  apply run_three; [apply started_main|]. split; [by apply started_may_block|vm_compute; reflexivity].
Qed.

Lemma scheduler_starts_witness : ∃ k, run_main main_tasks 4 (MkKernel main_abs boot_data) = Some (k, ()) ∧ inv 4 k.
Proof.
  destruct (scheduler_starts main_abs main_tasks 4 main_blank main_fine) as (k & E & I & _). exists k. split; [exact E|exact I].
Defined.

Lemma kernel_safe_witness : ∃ k, permitted_run 4 started [CDelay 3; CTick; CYield] k ∧ kernel_ok 4 k.
Proof.
  destruct started_run as [k R]. exists k. split; [exact R|].
  exact (proj1 (kernel_safe main_abs main_tasks 4 started _ k main_blank main_fine (proj1 started_main) R)).
Defined.

Lemma kernel_on_store_witness : ∃ k ks,
  (run_main main_tasks 4;; run_calls [CDelay 3; CTick; CYield]) (MkKernel main_store boot_data) = Some (ks, ())
  ∧ refines (lists ks) (lists k).
Proof.
  destruct started_run as [k R]. exists k.
  destruct (kernel_on_store main_store main_abs main_tasks 4 started _ k main_refines main_blank main_fine
    (proj1 started_main) R) as (ks & E & HR & _).
  exists ks. split; [exact E|exact HR].
Defined.

(** The ready list of priority 2. *)
Definition started_list : alist := default (MkAlist [] None) (a_lists (lists started) !! 3%positive).

Lemma vTaskSwitchContext_highest_witness : ∃ k t, vTaskSwitchContext started = Some (k, ()) ∧ pxCurrentTCB (data k) = Some t
  ∧ a_next started_list = Some (St t).
Proof.
  destruct (vTaskSwitchContext_highest 4 started 2 3 started_list (proj2 started_main) ltac:(vm_compute; reflexivity)
    started_top eq_refl ltac:(vm_compute; reflexivity)) as (k & t & E & Ec & _ & _ & En & _).
  exists k, t. split; [exact E|]. split; [exact Ec|exact En].
Defined.

Lemma vTaskSwitchContext_equal_turns_witness : ∃ k ts, turns 2 started = Some (k, ts) ∧ St <$> ts ≡ₚ elems started_list.
Proof.
  destruct (vTaskSwitchContext_equal_turns 4 started 2 3 started_list (proj2 started_main) ltac:(vm_compute; reflexivity)
    started_top eq_refl ltac:(vm_compute; reflexivity)) as (k & ts & E & P & _).
  exists k, ts. split; [exact E|exact P].
Defined.

Lemma vTaskDelay_exact_witness : ∃ k, (vTaskDelay 3;; isr_ticks 3) started = Some (k, ()) ∧ awake k 2.
Proof.
  destruct (vTaskDelay_exact 4 started 2 3 3 (proj2 started_main) started_running ltac:(done)
    ltac:(vm_compute; reflexivity) ltac:(lia)) as (k & E & _ & _ & H).
  exists k. split; [exact E|]. apply H. reflexivity.
Defined.

Lemma xTaskDelayUntil_periodic_witness :
  ∃ k, xTaskDelayUntil (u32 0) 5 started = Some (k, (5, true)) ∧ time_left k 2 5.
Proof.
  destruct (xTaskDelayUntil_periodic 4 started 2 0 0 5 (proj2 started_main) started_running ltac:(done)
    ltac:(vm_compute; reflexivity) ltac:(vm_compute; reflexivity) ltac:(lia) ltac:(lia) ltac:(lia)) as (k & E & _ & H & _).
  exists k. split; [exact E|]. apply (H ltac:(lia)).
Defined.

Lemma xTaskCheckForTimeOut_exact_witness : ∃ k r,
  (to ← vTaskSetTimeOutState; isr_ticks 2;; xTaskCheckForTimeOut to 5) started = Some (k, r) ∧ r.1.1 = false ∧ r.2 = 3.
Proof.
  destruct (xTaskCheckForTimeOut_exact 4 started 2 5 (proj2 started_main) ltac:(vm_compute; reflexivity) ltac:(lia)
    ltac:(unfold is_u32; lia)) as (k & E & _).
  exists k. eexists. split; [exact E|]. split; reflexivity.
Defined.

(** A task that has just blocked has time left; the state is any one. *)
Lemma delayed_exists k c n : inv 4 k → running k c → c ≠ 4%positive → uxSchedulerSuspended (data k) = 0 → 0 < n < 4294967296 →
  ∃ k', inv 4 k' ∧ uxSchedulerSuspended (data k') = 0 ∧ time_left k' c n.
Proof.
  intros I R Hc Hs Hn.
  assert (W : wp (vTaskDelay n) (λ _ k', inv 4 k' ∧ uxSchedulerSuspended (data k') = 0 ∧ time_left k' c n) k).
  { apply (wp_vTaskDelay 4 n c); [done..|lia|]. rewrite (proj2 (Z.eqb_neq _ _)) by lia. naive_solver. }
  apply wp_result in W as (k' & _ & _ & H). by exists k'.
Qed.

Lemma started_delayed : ∃ k, inv 4 k ∧ uxSchedulerSuspended (data k) = 0 ∧ time_left k 2 3.
Proof.
  apply (delayed_exists started); [apply started_main|apply started_running|done|vm_compute; reflexivity|lia].
Qed.

Lemma suspended_ticks_kept_witness : ∃ k k' y,
  (vTaskSuspendAll;; isr_ticks 2;; xTaskResumeAll) k = Some (k', y) ∧ time_left k' 2 1.
Proof.
  destruct started_delayed as (k & I & Hs & TL).
  destruct (suspended_ticks_kept 4 k 2 2 3 I Hs ltac:(lia) TL ltac:(lia)) as (k' & y & E & _ & _ & H & _).
  exists k, k', y. split; [exact E|]. apply (H ltac:(lia)).
Defined.

(** Task 2 waits for a notification. *)
Lemma waiting_exists k c n i v s :
  inv 4 k → running k c → c ≠ 4%positive → 0 < n < 4294967296 → notified k c i v s → v = 0 → alive k c →
  (i < configTASK_NOTIFICATION_ARRAY_ENTRIES)%nat → (∀ l, ¬ holds (lists k) l (Ev c)) →
  ∃ k', ulTaskGenericNotifyTake_block i n k = Some (k', ()) ∧ inv 4 k' ∧ notified k' c i 0 taskWAITING_NOTIFICATION.
Proof.
  intros I R Hc Hn Hvs Hv Hal Hi Hf.
  assert (W : wp (ulTaskGenericNotifyTake_block i n) (λ _ k', inv 4 k' ∧ notified k' c i 0 taskWAITING_NOTIFICATION) k).
  { apply (wp_NotifyTake_block 4 i n c v s); [done..|lia|done|done|auto]. }
  apply wp_result in W as (k' & [] & E & H). by exists k'.
Qed.

Definition started_waiting : akernel := state_of (ulTaskGenericNotifyTake_block 0 7 started).

Lemma started_waiting_main : inv 4 started_waiting ∧ notified started_waiting 2 0 0 taskWAITING_NOTIFICATION.
Proof.
  destruct (waiting_exists started 2 7 0 0 taskNOT_WAITING_NOTIFICATION) as (k & E & H).
  - apply started_main.
  - apply started_running.
  - done.
  - lia.
  - exists (new_tcb 2). split; [vm_compute; reflexivity|done].
  - done.
  - split; [exists (new_tcb 2); vm_compute; reflexivity|].
    intros Hl%holds_container; [|apply (proj2 started_main)]. vm_compute in Hl. discriminate.
  - unfold configTASK_NOTIFICATION_ARRAY_ENTRIES. lia.
  - apply a_container_None. vm_compute. reflexivity.
  - exact (proj2 (state_of_spec (λ k, inv 4 k ∧ notified k 2 0 0 taskWAITING_NOTIFICATION) _ k E H)).
Qed.

Lemma started_notifiable : notifiable started_waiting 2 0.
Proof.
  split; [split|split].
  - destruct started_waiting_main as [_ (T & HT & _)]. by exists T.
  - intros Hl%holds_container; [|apply (proj1 started_waiting_main)]. vm_compute in Hl. discriminate.
  - unfold configTASK_NOTIFICATION_ARRAY_ENTRIES. lia.
  - intros _. apply a_container_None. vm_compute. reflexivity.
Qed.

Lemma xTaskGenericNotify_wakes_witness : ∃ k, xTaskGenericNotify 2 0 9 eSetValueWithOverwrite started_waiting =
  Some (k, (true, 0)) ∧ awake k 2 ∧ notified k 2 0 9 taskNOTIFICATION_RECEIVED.
Proof.
  destruct (xTaskGenericNotify_wakes 4 started_waiting 2 0 9 eSetValueWithOverwrite 0 taskWAITING_NOTIFICATION
    (proj1 started_waiting_main) started_notifiable (proj2 started_waiting_main)) as (k & E & _ & Hn & Hw & _).
  exists k. split; [exact E|]. split; [exact (Hw eq_refl)|exact Hn].
Defined.

(** ** A task that waits for a notification without time limit looks suspended

    [prvTaskIsTaskSuspended] goes by the two list items only, so
    [xTaskResumeFromISR] takes such a task for a suspended one.  With the
    scheduler suspended it puts the event item on xPendingReadyList; a
    notification from an interrupt then puts it there again: the list counts
    two items and holds one. *)
Definition double_insertion : K store Z :=
  run_main main_tasks 4;;
  ulTaskGenericNotifyTake_block 0 portMAX_DELAY;;
  vTaskSuspendAll;;
  xTaskResumeFromISR 2;;
  vTaskGenericNotifyGiveFromISR 2 0;;
  rd (RdLength xPendingReadyList).

Lemma resume_and_notify_corrupts :
  (λ r, r.2) <$> double_insertion (MkKernel main_store boot_data) = Some 2 ∧
  (r ← double_insertion (MkKernel main_store boot_data); nxt (lists r.1) (Item (Ev 2))) = Some (Item (Ev 2)).
Proof. split; vm_compute; reflexivity. Qed.

(** ** An event list is not kept in order when a priority changes

    [vTaskPrioritySet] writes the value of the event item in place.  Tasks 2
    and 1, both of priority 2, wait on list 11; after task 1 is raised to
    priority 4 the head of the list, the task that [xTaskRemoveFromEventList]
    wakes, is still task 2. *)
Definition wait_on (l : positive) : K store unit :=
  vTaskSuspendAll;; vTaskPlaceOnEventList l portMAX_DELAY;; y ← xTaskResumeAll; when (negb y) portYIELD.

Definition raised_waiter : K store (TaskHandle_t * Z * Z) :=
  run_main main_tasks 4;;
  lst (KOp (OpInit 11));;
  wait_on 11;; wait_on 11;;
  vTaskPrioritySet (Some 1%positive) 4;;
  t ← listGET_OWNER_OF_HEAD_ENTRY 11; p ← priority_of t; q ← priority_of 1%positive;
  mret (t, p, q).

Lemma raised_waiter_not_first :
  (λ r, (r.2, contents 11 (lists r.1))) <$> raised_waiter (MkKernel main_store boot_data) =
  Some ((2%positive, 2, 4), Some [Ev 2; Ev 1]).
Proof. vm_compute. reflexivity. Qed.
