(* ===== verification/Queue.v ===== *)
(** * FreeRTOS-Kernel/queue.c: queues and semaphores

    A queue keeps its items in a ring of bytes and two event lists.  Its
    functions run on the scheduler of Tasks.v.  The board's configuration has
    no mutexes and no queue sets.

    A function that may block is a loop; a pass of the loop is a critical
    section ([..._try]), then, with the scheduler suspended, a part that
    interrupts may break into between its own critical sections
    ([..._block]).  What the interrupts do there is an argument, [irq]: one
    computation per point. *)
From S2P Require Import Prelude RtosList KList Tasks.
Local Open Scope Z_scope.

(** ** Data

    [QueueHandle_t] is the address of a queue; the two event lists are inside
    the structure.  The pointers [pcWriteTo], [pcTail] and [pcReadFrom] are
    offsets from [pcHead]; [storage] is the memory at [pcHead]. *)
Abbreviation QueueHandle_t := positive.

Record Queue_t := MkQueue {
  storage : list Z;
  pcWriteTo : Z;
  pcTail : Z;
  pcReadFrom : Z;
  uxMessagesWaiting : Z;
  uxLength : Z;
  uxItemSize : Z;
  cRxLock : Z;
  cTxLock : Z }.

Definition xTasksWaitingToSend (q : QueueHandle_t) : positive := xO q.
Definition xTasksWaitingToReceive (q : QueueHandle_t) : positive := xI q.

Definition queueUNLOCKED : Z := -1.
Definition queueLOCKED_UNMODIFIED : Z := 0.
Definition SIZE_MAX : Z := 4294967295.
(** [sizeof( Queue_t )]: four pointers, two lists of five words each, three
    words, and the two lock bytes padded to a word. *)
Definition sizeof_Queue_t : Z := 72.
Definition configQUEUE_REGISTRY_SIZE : nat := 10.

Inductive xCopyPosition_t := queueSEND_TO_BACK | queueSEND_TO_FRONT | queueOVERWRITE.
#[export] Instance xCopyPosition_eq_dec : EqDecision xCopyPosition_t.
Proof. solve_decision. Defined.

(** The value of an [int8_t] after an assignment. *)
Definition i8 (x : Z) : Z := (x + 128) mod 256 - 128.

(** Assignments to members. *)
Definition set_item_write (m : list Z) (w : Z) (Q : Queue_t) : Queue_t :=
  MkQueue m w (pcTail Q) (pcReadFrom Q) (uxMessagesWaiting Q) (uxLength Q) (uxItemSize Q) (cRxLock Q) (cTxLock Q).
Definition set_item_front (m : list Z) (r : Z) (Q : Queue_t) : Queue_t :=
  MkQueue m (pcWriteTo Q) (pcTail Q) r (uxMessagesWaiting Q) (uxLength Q) (uxItemSize Q) (cRxLock Q) (cTxLock Q).
Definition set_pcReadFrom (r : Z) (Q : Queue_t) : Queue_t :=
  MkQueue (storage Q) (pcWriteTo Q) (pcTail Q) r (uxMessagesWaiting Q) (uxLength Q) (uxItemSize Q) (cRxLock Q) (cTxLock Q).
Definition set_uxMessagesWaiting (n : Z) (Q : Queue_t) : Queue_t :=
  MkQueue (storage Q) (pcWriteTo Q) (pcTail Q) (pcReadFrom Q) n (uxLength Q) (uxItemSize Q) (cRxLock Q) (cTxLock Q).
Definition set_cRxLock (v : Z) (Q : Queue_t) : Queue_t :=
  MkQueue (storage Q) (pcWriteTo Q) (pcTail Q) (pcReadFrom Q) (uxMessagesWaiting Q) (uxLength Q) (uxItemSize Q) v (cTxLock Q).
Definition set_cTxLock (v : Z) (Q : Queue_t) : Queue_t :=
  MkQueue (storage Q) (pcWriteTo Q) (pcTail Q) (pcReadFrom Q) (uxMessagesWaiting Q) (uxLength Q) (uxItemSize Q) (cRxLock Q) v.

(** [memcpy] from and to an area of memory: reading or writing outside it is
    a fault. *)
Definition mem_read (n off : Z) (m : list Z) : option (list Z) :=
  if (0 <=? off) && (0 <=? n) && (off + n <=? Z.of_nat (length m))
  then Some (take (Z.to_nat n) (drop (Z.to_nat off) m)) else None.
Definition mem_write (off : Z) (b m : list Z) : option (list Z) :=
  if (0 <=? off) && (off + Z.of_nat (length b) <=? Z.of_nat (length m))
  then Some (take (Z.to_nat off) m ++ b ++ drop (Z.to_nat off + length b) m) else None.

(** ** State and monad

    The kernel, the queues that exist, and the registry: [pcQueueName] and
    [xHandle] of each entry. *)
Record qkernel (L : Type) := MkQK {
  kern : kernel L;
  queues : gmap positive Queue_t;
  xQueueRegistry : list (option positive * option QueueHandle_t) }.
Arguments MkQK {L}.
Arguments kern {L}.
Arguments queues {L}.
Arguments xQueueRegistry {L}.

Definition QM (L R : Type) : Type := qkernel L → option (qkernel L * R).

#[export] Instance QM_ret L : MRet (QM L) := λ R r s, Some (s, r).
#[export] Instance QM_bind L : MBind (QM L) := λ R Q f m s, '(s', r) ← m s; f r s'.

(** How a pass of a blocking function ends: the function returns, or goes on
    to wait with the time-out structure set. *)
Inductive attempt (R : Type) := Return (r : R) | Wait (xTimeOut : Z * Z).
Arguments Return {R}.
Arguments Wait {R}.

(** How the second part ends: the time has expired, or the loop goes round
    with new values of [xTimeOut] and [xTicksToWait], after a yield if
    [yield]. *)
Inductive waited := Expired | Again (xTimeOut : Z * Z) (xTicksToWait : Z) (yield : bool).

Section operations.
Context `{KLists L}.
Implicit Types q : QueueHandle_t.

Definition lift {R} (m : K L R) : QM L R :=
  λ s, '(k, r) ← m (kern s); Some (MkQK k (queues s) (xQueueRegistry s), r).
Definition access {R} (p : option R) : QM L R := λ s, x ← p; Some (s, x).
Definition getq q : QM L Queue_t := λ s, Q ← queues s !! q; Some (s, Q).
Definition updq q (f : Queue_t → Queue_t) : QM L unit :=
  λ s, Q ← queues s !! q; Some (MkQK (kern s) (<[q := f Q]> (queues s)) (xQueueRegistry s), ()).
Definition upd_queues (f : gmap positive Queue_t → gmap positive Queue_t) : QM L unit :=
  λ s, Some (MkQK (kern s) (f (queues s)) (xQueueRegistry s), ()).
Definition whenq (c : bool) (m : QM L unit) : QM L unit := if c then m else mret ().

Definition queueYIELD_IF_USING_PREEMPTION : QM L unit := lift portYIELD.

(** [if( listLIST_IS_EMPTY( l ) == pdFALSE ) ... xTaskRemoveFromEventList( l )]:
    whether a switch is needed. *)
Definition unblock_first (l : positive) : K L bool :=
  e ← listLIST_IS_EMPTY l;
  if (e : bool) then mret false else xTaskRemoveFromEventList l.

(** ** Locks *)

Definition prvLockQueue q : QM L unit :=
  updq q (λ Q, if cRxLock Q =? queueUNLOCKED then set_cRxLock queueLOCKED_UNMODIFIED Q else Q);;
  updq q (λ Q, if cTxLock Q =? queueUNLOCKED then set_cTxLock queueLOCKED_UNMODIFIED Q else Q).

Definition prvIncrementQueueTxLock q (lock : Z) : QM L unit :=
  uxNumberOfTasks ← lift (gets uxCurrentNumberOfTasks);
  whenq (u32 lock <? uxNumberOfTasks) (updq q (set_cTxLock (i8 (lock + 1)))).

Definition prvIncrementQueueRxLock q (lock : Z) : QM L unit :=
  uxNumberOfTasks ← lift (gets uxCurrentNumberOfTasks);
  whenq (u32 lock <? uxNumberOfTasks) (updq q (set_cRxLock (i8 (lock + 1)))).

(** The [while] loop of [prvUnlockQueue] over a lock count, for either list. *)
Fixpoint unlock_loop (count : nat) (l : positive) : K L unit :=
  match count with
  | O => mret ()
  | S count =>
      e ← listLIST_IS_EMPTY l;
      if (e : bool) then mret ()
      else
        y ← xTaskRemoveFromEventList l;
        when y vTaskMissedYield;;
        unlock_loop count l
  end.

Definition prvUnlockQueue_tx q : QM L unit :=
  Q ← getq q;
  lift (unlock_loop (Z.to_nat (cTxLock Q)) (xTasksWaitingToReceive q));;
  updq q (set_cTxLock queueUNLOCKED).

Definition prvUnlockQueue_rx q : QM L unit :=
  Q ← getq q;
  lift (unlock_loop (Z.to_nat (cRxLock Q)) (xTasksWaitingToSend q));;
  updq q (set_cRxLock queueUNLOCKED).

Definition prvUnlockQueue (irq : QM L unit) q : QM L unit :=
  prvUnlockQueue_tx q;; irq;; prvUnlockQueue_rx q.

Definition prvIsQueueEmpty q : QM L bool := Q ← getq q; mret (uxMessagesWaiting Q =? 0).
Definition prvIsQueueFull q : QM L bool := Q ← getq q; mret (uxMessagesWaiting Q =? uxLength Q).
Definition xQueueIsQueueEmptyFromISR q : QM L bool := Q ← getq q; mret (uxMessagesWaiting Q =? 0).
Definition xQueueIsQueueFullFromISR q : QM L bool := Q ← getq q; mret (uxMessagesWaiting Q =? uxLength Q).
Definition uxQueueMessagesWaiting q : QM L Z := Q ← getq q; mret (uxMessagesWaiting Q).
Definition uxQueueMessagesWaitingFromISR q : QM L Z := Q ← getq q; mret (uxMessagesWaiting Q).
Definition uxQueueSpacesAvailable q : QM L Z := Q ← getq q; mret (u32 (uxLength Q - uxMessagesWaiting Q)).

(** ** The ring

    [item] is the memory at [pvItemToQueue].  The result is [xReturn]. *)
Definition prvCopyDataToQueue q (item : list Z) (pos : xCopyPosition_t) : QM L bool :=
  Q ← getq q;
  n ← (if uxItemSize Q =? 0 then mret (uxMessagesWaiting Q)
       else
         b ← access (mem_read (uxItemSize Q) 0 item);
         match pos with
         | queueSEND_TO_BACK =>
             m ← access (mem_write (pcWriteTo Q) b (storage Q));
             let w := pcWriteTo Q + uxItemSize Q in
             updq q (set_item_write m (if pcTail Q <=? w then 0 else w));;
             mret (uxMessagesWaiting Q)
         | _ =>
             m ← access (mem_write (pcReadFrom Q) b (storage Q));
             let r := pcReadFrom Q - uxItemSize Q in
             updq q (set_item_front m (if r <? 0 then pcTail Q - uxItemSize Q else r));;
             mret (if bool_decide (pos = queueOVERWRITE) && (0 <? uxMessagesWaiting Q)
                   then uxMessagesWaiting Q - 1 else uxMessagesWaiting Q)
         end);
  updq q (set_uxMessagesWaiting (u32 (n + 1)));;
  mret false.

(** The result is what is written at [pvBuffer]. *)
Definition prvCopyDataFromQueue q : QM L (list Z) :=
  Q ← getq q;
  if uxItemSize Q =? 0 then mret []
  else
    let r := pcReadFrom Q + uxItemSize Q in
    let r := if pcTail Q <=? r then 0 else r in
    updq q (set_pcReadFrom r);;
    access (mem_read (uxItemSize Q) r (storage Q)).

(** ** Creating, resetting and deleting *)

Definition xQueueGenericReset q (xNewQueue : bool) : QM L bool :=
  Q ← getq q;
  if (1 <=? uxLength Q) && (uxItemSize Q <=? SIZE_MAX / uxLength Q) then
    let bytes := u32 (uxLength Q * uxItemSize Q) in
    updq q (λ Q, MkQueue (storage Q) 0 bytes (u32 ((uxLength Q - 1) * uxItemSize Q)) 0
      (uxLength Q) (uxItemSize Q) queueUNLOCKED queueUNLOCKED);;
    (if (xNewQueue : bool) then
       lift (lst (KOp (OpInit (xTasksWaitingToSend q))));;
       lift (lst (KOp (OpInit (xTasksWaitingToReceive q))));;
       mret ()
     else
       y ← lift (unblock_first (xTasksWaitingToSend q));
       whenq y queueYIELD_IF_USING_PREEMPTION);;
    mret true
  else mret false.

(** The memory of the queue has just been allocated; the bytes of its storage
    area are [mem]. *)
Definition prvInitialiseNewQueue (uxQueueLength uxItemSize : Z) (mem : list Z) (pxNewQueue : QueueHandle_t) : QM L unit :=
  upd_queues <[pxNewQueue := MkQueue mem 0 0 0 0 uxQueueLength uxItemSize 0 0]>;;
  xQueueGenericReset pxNewQueue true;;
  mret ().

(** [alloc] is the result of pvPortMalloc as a function of the bytes asked
    for: an address and the contents of the storage area, or [None]. *)
Definition xQueueGenericCreate (alloc : Z → option (QueueHandle_t * list Z)) (uxQueueLength uxItemSize : Z)
  : QM L (option QueueHandle_t) :=
  if (0 <? uxQueueLength) && (uxItemSize <=? SIZE_MAX / uxQueueLength)
     && (u32 (uxQueueLength * uxItemSize) <=? SIZE_MAX - sizeof_Queue_t)
  then
    match alloc (u32 (sizeof_Queue_t + u32 (uxQueueLength * uxItemSize))) with
    | Some (q, mem) => prvInitialiseNewQueue uxQueueLength uxItemSize mem q;; mret (Some q)
    | None => mret None
    end
  else mret None.

(** ** The registry *)

Definition vQueueAddToRegistry_slot (q : QueueHandle_t) (reg : list (option positive * option QueueHandle_t)) : option nat :=
  match list_find (λ e, e.2 = Some q) reg with
  | Some (i, _) => Some i
  | None => fst <$> list_find (λ e, e.1 = None) reg
  end.

Definition vQueueAddToRegistry (q : QueueHandle_t) (pcQueueName : option positive) : QM L unit :=
  λ s, Some (match pcQueueName, vQueueAddToRegistry_slot q (xQueueRegistry s) with
             | Some _, Some i => MkQK (kern s) (queues s) (<[i := (pcQueueName, Some q)]> (xQueueRegistry s))
             | _, _ => s
             end, ()).

Definition pcQueueGetName (q : QueueHandle_t) : QM L (option positive) :=
  λ s, Some (s, match list_find (λ e, e.2 = Some q) (xQueueRegistry s) with Some (_, e) => e.1 | None => None end).

Definition vQueueUnregisterQueue (q : QueueHandle_t) : QM L unit :=
  λ s, Some (match list_find (λ e, e.2 = Some q) (xQueueRegistry s) with
             | Some (i, _) => MkQK (kern s) (queues s) (<[i := (None, None)]> (xQueueRegistry s))
             | None => s
             end, ()).

(** vPortFree takes the memory of the queue, its lists included. *)
Definition vQueueDelete q : QM L unit :=
  vQueueUnregisterQueue q;;
  getq q;;
  lift (lst (KFree (xTasksWaitingToSend q)));;
  lift (lst (KFree (xTasksWaitingToReceive q)));;
  upd_queues (delete q).

(** ** Sending *)

Definition xQueueGenericSend_try q (item : list Z) (pos : xCopyPosition_t) (xTicksToWait : Z)
    (entry : option (Z * Z)) : QM L (attempt bool) :=
  Q ← getq q;
  if (uxMessagesWaiting Q <? uxLength Q) || bool_decide (pos = queueOVERWRITE) then
    xYieldRequired ← prvCopyDataToQueue q item pos;
    e ← lift (listLIST_IS_EMPTY (xTasksWaitingToReceive q));
    (if negb e then
       y ← lift (xTaskRemoveFromEventList (xTasksWaitingToReceive q));
       whenq y queueYIELD_IF_USING_PREEMPTION
     else whenq xYieldRequired queueYIELD_IF_USING_PREEMPTION);;
    mret (Return true)
  else if xTicksToWait =? 0 then mret (Return false)
  else match entry with
       | None => to ← lift vTaskSetTimeOutState; mret (Wait to)
       | Some to => mret (Wait to)
       end.

(** The part with the scheduler suspended; [blocked] is [prvIsQueueFull] or
    [prvIsQueueEmpty], [l] the list to wait on. *)
Definition wait_on_queue (irq : nat → QM L unit) q (l : positive) (blocked : QM L bool)
    (xTimeOut : Z * Z) (xTicksToWait : Z) : QM L waited :=
  lift vTaskSuspendAll;; irq 0%nat;;
  prvLockQueue q;; irq 1%nat;;
  '(expired, xTimeOut, xTicksToWait) ← lift (xTaskCheckForTimeOut xTimeOut xTicksToWait);
  irq 2%nat;;
  if negb expired then
    b ← blocked; irq 3%nat;;
    if (b : bool) then
      lift (vTaskPlaceOnEventList l xTicksToWait);; irq 4%nat;;
      prvUnlockQueue (irq 5%nat) q;; irq 6%nat;;
      y ← lift xTaskResumeAll;
      mret (Again xTimeOut xTicksToWait (negb y))
    else
      prvUnlockQueue (irq 5%nat) q;; irq 6%nat;;
      lift xTaskResumeAll;;
      mret (Again xTimeOut xTicksToWait false)
  else
    prvUnlockQueue (irq 5%nat) q;; irq 6%nat;;
    lift xTaskResumeAll;;
    mret Expired.

Definition xQueueGenericSend_block (irq : nat → QM L unit) q (xTimeOut : Z * Z) (xTicksToWait : Z) : QM L waited :=
  wait_on_queue irq q (xTasksWaitingToSend q) (prvIsQueueFull q) xTimeOut xTicksToWait.

(** The function as a whole: [irq n] are the interrupts of the [n]-th pass,
    [env n] is what other tasks and interrupts do in that pass while the
    scheduler runs, before the wait and after it.  [None]: the loop is still
    going after [fuel] passes. *)
Fixpoint xQueueGenericSend (env : nat → QM L unit * QM L unit) (irq : nat → nat → QM L unit) (fuel n : nat)
    q (item : list Z) (pos : xCopyPosition_t) (xTicksToWait : Z) (entry : option (Z * Z)) : QM L (option bool) :=
  match fuel with
  | O => mret None
  | S fuel =>
      a ← xQueueGenericSend_try q item pos xTicksToWait entry;
      match a with
      | Return r => mret (Some r)
      | Wait to =>
          (env n).1;;
          w ← xQueueGenericSend_block (irq n) q to xTicksToWait;
          match w with
          | Expired => mret (Some false)
          | Again to' ticks' y =>
              whenq y (lift portYIELD);; (env n).2;;
              xQueueGenericSend env irq fuel (S n) q item pos ticks' (Some to')
          end
      end
  end.

(** The result: the value returned, and whether
    [*pxHigherPriorityTaskWoken] is set. *)
Definition xQueueGenericSendFromISR q (item : list Z) (pos : xCopyPosition_t) : QM L (bool * bool) :=
  Q ← getq q;
  if (uxMessagesWaiting Q <? uxLength Q) || bool_decide (pos = queueOVERWRITE) then
    let lock := cTxLock Q in
    prvCopyDataToQueue q item pos;;
    if lock =? queueUNLOCKED then
      w ← lift (unblock_first (xTasksWaitingToReceive q)); mret (true, w)
    else prvIncrementQueueTxLock q lock;; mret (true, false)
  else mret (false, false).

Definition xQueueGiveFromISR q : QM L (bool * bool) :=
  Q ← getq q;
  let n := uxMessagesWaiting Q in
  if n <? uxLength Q then
    let lock := cTxLock Q in
    updq q (set_uxMessagesWaiting (u32 (n + 1)));;
    if lock =? queueUNLOCKED then
      w ← lift (unblock_first (xTasksWaitingToReceive q)); mret (true, w)
    else prvIncrementQueueTxLock q lock;; mret (true, false)
  else mret (false, false).

(** ** Receiving *)

(** What every failed pass of a receiving function does. *)
Definition receive_failed {R} (xTicksToWait : Z) (entry : option (Z * Z)) : QM L (attempt (option R)) :=
  if xTicksToWait =? 0 then mret (Return None)
  else match entry with
       | None => to ← lift vTaskSetTimeOutState; mret (Wait to)
       | Some to => mret (Wait to)
       end.

(** [None] is errQUEUE_EMPTY, [Some b] is pdPASS with [b] at [pvBuffer]. *)
Definition xQueueReceive_try q (xTicksToWait : Z) (entry : option (Z * Z)) : QM L (attempt (option (list Z))) :=
  Q ← getq q;
  let n := uxMessagesWaiting Q in
  if 0 <? n then
    b ← prvCopyDataFromQueue q;
    updq q (set_uxMessagesWaiting (u32 (n - 1)));;
    y ← lift (unblock_first (xTasksWaitingToSend q));
    whenq y queueYIELD_IF_USING_PREEMPTION;;
    mret (Return (Some b))
  else receive_failed xTicksToWait entry.

Definition xQueueReceive_block (irq : nat → QM L unit) q (xTimeOut : Z * Z) (xTicksToWait : Z) : QM L waited :=
  wait_on_queue irq q (xTasksWaitingToReceive q) (prvIsQueueEmpty q) xTimeOut xTicksToWait.

(** A semaphore has no data. *)
Definition xQueueSemaphoreTake_try q (xTicksToWait : Z) (entry : option (Z * Z)) : QM L (attempt (option (list Z))) :=
  Q ← getq q;
  let n := uxMessagesWaiting Q in
  if 0 <? n then
    updq q (set_uxMessagesWaiting (u32 (n - 1)));;
    y ← lift (unblock_first (xTasksWaitingToSend q));
    whenq y queueYIELD_IF_USING_PREEMPTION;;
    mret (Return (Some []))
  else receive_failed xTicksToWait entry.

Definition xQueueSemaphoreTake_block := xQueueReceive_block.

Definition xQueuePeek_try q (xTicksToWait : Z) (entry : option (Z * Z)) : QM L (attempt (option (list Z))) :=
  Q ← getq q;
  let n := uxMessagesWaiting Q in
  if 0 <? n then
    let pcOriginalReadPosition := pcReadFrom Q in
    b ← prvCopyDataFromQueue q;
    updq q (set_pcReadFrom pcOriginalReadPosition);;
    y ← lift (unblock_first (xTasksWaitingToReceive q));
    whenq y queueYIELD_IF_USING_PREEMPTION;;
    mret (Return (Some b))
  else receive_failed xTicksToWait entry.

Definition xQueuePeek_block := xQueueReceive_block.

(** The loop of [xQueueReceive], [xQueueSemaphoreTake] and [xQueuePeek],
    which differ in [try].  After an expired wait they look at the queue once
    more. *)
Fixpoint receive_loop (try : Z → option (Z * Z) → QM L (attempt (option (list Z))))
    (env : nat → QM L unit * QM L unit) (irq : nat → nat → QM L unit) (fuel n : nat)
    q (xTicksToWait : Z) (entry : option (Z * Z)) : QM L (option (option (list Z))) :=
  match fuel with
  | O => mret None
  | S fuel =>
      a ← try xTicksToWait entry;
      match a with
      | Return r => mret (Some r)
      | Wait to =>
          (env n).1;;
          w ← xQueueReceive_block (irq n) q to xTicksToWait;
          match w with
          | Expired =>
              (env n).2;;
              e ← prvIsQueueEmpty q;
              if (e : bool) then mret (Some None)
              else receive_loop try env irq fuel (S n) q 0 (Some to)
          | Again to' ticks' y =>
              whenq y (lift portYIELD);; (env n).2;;
              receive_loop try env irq fuel (S n) q ticks' (Some to')
          end
      end
  end.

Definition xQueueReceive env irq fuel q ticks := receive_loop (xQueueReceive_try q) env irq fuel 0 q ticks None.
Definition xQueueSemaphoreTake env irq fuel q ticks :=
  receive_loop (xQueueSemaphoreTake_try q) env irq fuel 0 q ticks None.
Definition xQueuePeek env irq fuel q ticks := receive_loop (xQueuePeek_try q) env irq fuel 0 q ticks None.

Definition xQueueReceiveFromISR q : QM L (option (list Z) * bool) :=
  Q ← getq q;
  let n := uxMessagesWaiting Q in
  if 0 <? n then
    let lock := cRxLock Q in
    b ← prvCopyDataFromQueue q;
    updq q (set_uxMessagesWaiting (u32 (n - 1)));;
    if lock =? queueUNLOCKED then
      w ← lift (unblock_first (xTasksWaitingToSend q)); mret (Some b, w)
    else prvIncrementQueueRxLock q lock;; mret (Some b, false)
  else mret (None, false).

Definition xQueuePeekFromISR q : QM L (option (list Z)) :=
  Q ← getq q;
  if 0 <? uxMessagesWaiting Q then
    let pcOriginalReadPosition := pcReadFrom Q in
    b ← prvCopyDataFromQueue q;
    updq q (set_pcReadFrom pcOriginalReadPosition);;
    mret (Some b)
  else mret None.

End operations.
