(* ===== verification/QueueData.v ===== *)
(** * The ring of a queue is a FIFO list

    What the copying functions of Queue.v do to the items that the ring
    holds, whatever the scheduler does. *)
From S2P Require Import Prelude RtosList KList Tasks TasksInv Queue.
Local Open Scope Z_scope.
Implicit Types (Q : Queue_t) (q : QueueHandle_t) (xs : list (list Z)).

(** ** Memory areas *)
Lemma mem_read_Some n off m b :
  mem_read n off m = Some b ↔
  (0 ≤ off ∧ 0 ≤ n ∧ off + n ≤ Z.of_nat (length m)) ∧ b = take (Z.to_nat n) (drop (Z.to_nat off) m).
Proof.
  unfold mem_read. destruct (Z.leb_spec 0 off), (Z.leb_spec 0 n), (Z.leb_spec (off + n) (Z.of_nat (length m))); simpl;
    naive_solver lia.
Qed.

Lemma mem_write_Some off b m m' :
  mem_write off b m = Some m' ↔
  (0 ≤ off ∧ off + Z.of_nat (length b) ≤ Z.of_nat (length m)) ∧
  m' = take (Z.to_nat off) m ++ b ++ drop (Z.to_nat off + length b) m.
Proof.
  unfold mem_write. destruct (Z.leb_spec 0 off), (Z.leb_spec (off + Z.of_nat (length b)) (Z.of_nat (length m))); simpl;
    naive_solver lia.
Qed.

Lemma mem_read_total n off m : 0 ≤ off → 0 ≤ n → off + n ≤ Z.of_nat (length m) →
  ∃ b, mem_read n off m = Some b ∧ Z.of_nat (length b) = n.
Proof.
  intros. eexists. split; [by apply mem_read_Some|]. rewrite length_take, length_drop. lia.
Qed.

Lemma mem_read_length n off m b : mem_read n off m = Some b → Z.of_nat (length b) = n.
Proof. intros [? ->]%mem_read_Some. rewrite length_take, length_drop. lia. Qed.

Lemma mem_write_total off b m : 0 ≤ off → off + Z.of_nat (length b) ≤ Z.of_nat (length m) →
  ∃ m', mem_write off b m = Some m' ∧ length m' = length m.
Proof.
  intros. eexists. split; [by apply mem_write_Some|]. rewrite !length_app, length_take, length_drop. lia.
Qed.

(** Reading what was written, and what was not. *)
Lemma mem_read_written off b m m' :
  mem_write off b m = Some m' → mem_read (Z.of_nat (length b)) off m' = Some b.
Proof.
  intros [H ->]%mem_write_Some. apply mem_read_Some. rewrite !length_app, length_take, length_drop.
  split; [lia|]. rewrite drop_app_length' by (rewrite length_take; lia). by rewrite Nat2Z.id, take_app_length.
Qed.

Lemma mem_read_other n off' off b m m' :
  mem_write off b m = Some m' → off' + n ≤ off ∨ off + Z.of_nat (length b) ≤ off' →
  mem_read n off' m' = mem_read n off' m.
Proof.
  intros [H ->]%mem_write_Some Hd. unfold mem_read.
  rewrite !length_app, length_take, length_drop.
  replace (Z.of_nat (Z.to_nat off `min` length m + (length b + (length m - (Z.to_nat off + length b)))))
    with (Z.of_nat (length m)) by lia.
  destruct (Z.leb_spec 0 off'), (Z.leb_spec 0 n), (Z.leb_spec (off' + n) (Z.of_nat (length m))); simpl; try done.
  f_equal. apply list_eq. intros i. rewrite !lookup_take. case_decide as Hi; [|done].
  rewrite !lookup_drop. destruct Hd.
  - rewrite lookup_app_l by (rewrite length_take; lia). rewrite lookup_take. rewrite decide_True by lia. done.
  - rewrite lookup_app_r by (rewrite length_take; lia). rewrite length_take.
    rewrite lookup_app_r by lia. rewrite lookup_drop. f_equal. lia.
Qed.

(** ** The ring

    Slot [j] of the ring starts at [j * uxItemSize]; the oldest item is in
    the slot after [pcReadFrom]. *)
Definition slot Q (j : Z) : option (list Z) := mem_read (uxItemSize Q) (j * uxItemSize Q) (storage Q).

Record ring_at (r : Z) Q xs : Prop := {
  rg_length : 1 ≤ uxLength Q < 4294967296;
  rg_size : 0 ≤ uxItemSize Q;
  rg_bytes : uxLength Q * uxItemSize Q < 4294967296;
  rg_storage : Z.of_nat (length (storage Q)) = uxLength Q * uxItemSize Q;
  rg_tail : pcTail Q = uxLength Q * uxItemSize Q;
  rg_waiting : uxMessagesWaiting Q = Z.of_nat (length xs);
  rg_fits : Z.of_nat (length xs) ≤ uxLength Q;
  rg_slot : 0 ≤ r < uxLength Q;
  rg_read : pcReadFrom Q = r * uxItemSize Q;
  rg_write : pcWriteTo Q = (r + 1 + Z.of_nat (length xs)) mod uxLength Q * uxItemSize Q;
  rg_items : ∀ i x, xs !! i = Some x → slot Q ((r + 1 + Z.of_nat i) mod uxLength Q) = Some x }.

(** [Q] holds the items [xs], the oldest first. *)
Definition ring Q xs : Prop := ∃ r, ring_at r Q xs.

(** The items, computed. *)
Definition items Q : list (list Z) :=
  (λ i, default [] (slot Q ((pcReadFrom Q / Z.max 1 (uxItemSize Q) + 1 + Z.of_nat i) mod uxLength Q)))
    <$> seq 0 (Z.to_nat (uxMessagesWaiting Q)).

Lemma ring_items Q xs : ring Q xs → items Q = xs.
Proof.
  intros [r [L1 L2 L3 L4 L5 L6 L7 L8 L9 L10 L11]]. apply list_eq. intros i. unfold items.
  rewrite L6, Nat2Z.id, list_lookup_fmap. destruct (decide (i < length xs)%nat) as [Hi|Hi].
  - rewrite lookup_seq_lt by done. simpl. destruct (lookup_lt_is_Some_2 xs i Hi) as [x Hx]. rewrite Hx. f_equal.
    destruct (decide (uxItemSize Q = 0)) as [E|E].
    + pose proof (L11 _ _ Hx) as S. unfold slot in *. rewrite E in *. rewrite Z.mul_0_r in *.
      assert (x = []) as ->. { apply mem_read_length in S. by destruct x. }
      by rewrite S.
    + rewrite L9. rewrite Z.max_r by lia. rewrite Z.div_mul by done. by rewrite (L11 _ _ Hx).
  - rewrite (proj2 (lookup_ge_None xs i)) by lia. by rewrite (proj2 (lookup_ge_None (seq _ _) i)) by (rewrite length_seq; lia).
Qed.

Lemma ring_item_length Q xs x : ring Q xs → x ∈ xs → Z.of_nat (length x) = uxItemSize Q.
Proof. intros [r R] [i Hi]%list_elem_of_lookup. by eapply mem_read_length, (rg_items _ _ _ R). Qed.

(** What stays of a queue when items come and go. *)
Record same_queue Q Q' : Prop := {
  sq_length : uxLength Q' = uxLength Q;
  sq_size : uxItemSize Q' = uxItemSize Q;
  sq_rx : cRxLock Q' = cRxLock Q;
  sq_tx : cTxLock Q' = cTxLock Q }.

#[export] Instance same_queue_refl : Reflexive same_queue.
Proof. by constructor. Qed.

#[export] Instance same_queue_trans : Transitive same_queue.
Proof. intros Q1 Q2 Q3 [] []. constructor; congruence. Qed.

(** Where an item goes. *)
Definition enqueue (pos : xCopyPosition_t) (x : list Z) xs : list (list Z) :=
  match pos with
  | queueSEND_TO_BACK => xs ++ [x]
  | queueSEND_TO_FRONT => x :: xs
  | queueOVERWRITE => x :: drop 1 xs
  end.

(** Room for it: overwriting is for queues of length one that hold data. *)
Definition may_enqueue Q (pos : xCopyPosition_t) : Prop :=
  match pos with
  | queueOVERWRITE => uxLength Q = 1 ∧ uxItemSize Q ≠ 0
  | _ => uxMessagesWaiting Q < uxLength Q
  end.

Lemma mod_slot_ne n a b : 0 < n → a mod n ≠ b mod n → ∀ z, 0 ≤ z → (a mod n) * z + z ≤ (b mod n) * z ∨ (b mod n) * z + z ≤ (a mod n) * z.
Proof.
  intros Hn Hne z Hz. destruct (Z.lt_total (a mod n) (b mod n)) as [?|[?|?]]; [left|done|right]; nia.
Qed.

Lemma mod_ne n a b : 0 < b - a < n → a mod n ≠ b mod n.
Proof.
  intros H E. assert ((b - a) mod n = 0) as H0. { rewrite Zminus_mod, E, Z.sub_diag. by apply Z.mod_0_l; lia. }
  rewrite Z.mod_small in H0 by lia. lia.
Qed.

Lemma mod_add3 a b c n : (a mod n + b + c) mod n = (a + b + c) mod n.
Proof. by rewrite <- !Z.add_assoc, Zplus_mod_idemp_l. Qed.

Lemma next_slot n z j : 0 < z → 0 ≤ j < n → (if n * z <=? j * z + z then 0 else j * z + z) = (j + 1) mod n * z.
Proof.
  intros Hz Hj. destruct (Z.leb_spec (n * z) (j * z + z)) as [H|H].
  - assert (j + 1 = n) as -> by nia. by rewrite Z.mod_same by lia.
  - rewrite Z.mod_small by nia. lia.
Qed.

Lemma prev_slot n z j : 0 < z → 0 ≤ j < n → (if j * z - z <? 0 then n * z - z else j * z - z) = (j - 1) mod n * z.
Proof.
  intros Hz Hj. destruct (Z.ltb_spec (j * z - z) 0) as [H|H].
  - assert (j = 0) as -> by nia. replace (0 - 1) with (n - 1 + (-1) * n) by lia.
    rewrite Z.mod_add, Z.mod_small by lia. lia.
  - rewrite Z.mod_small by nia. lia.
Qed.

Section pure.
Context (r : Z) Q xs (R : ring_at r Q xs).

Lemma slot_total j : 0 ≤ j < uxLength Q → ∃ x, slot Q j = Some x ∧ Z.of_nat (length x) = uxItemSize Q.
Proof using R.
  destruct R as [L1 L2 L3 L4 L5 L6 L7 L8 L9 L10 L11]. intros Hj. unfold slot. apply mem_read_total; nia.
Qed.

(** Storing an item in the free slot at the end. *)
Lemma ring_send_back x m :
  uxItemSize Q ≠ 0 → Z.of_nat (length x) = uxItemSize Q → uxMessagesWaiting Q < uxLength Q →
  mem_write (pcWriteTo Q) x (storage Q) = Some m →
  ring (set_uxMessagesWaiting (u32 (uxMessagesWaiting Q + 1))
    (set_item_write m (if pcTail Q <=? pcWriteTo Q + uxItemSize Q then 0 else pcWriteTo Q + uxItemSize Q) Q)) (xs ++ [x]).
Proof using R.
  intros Hz Hx Hroom Hw. destruct R as [L1 L2 L3 L4 L5 L6 L7 L8 L9 L10 L11].
  pose proof (Z.mod_pos_bound (r + 1 + Z.of_nat (length xs)) (uxLength Q) ltac:(lia)) as Hb.
  exists r. constructor; simpl; try done.
  - apply mem_write_Some in Hw as [? ->]. rewrite !length_app, length_take, length_drop. lia.
  - rewrite length_app. simpl. rewrite u32_id by (unfold is_u32; lia). lia.
  - rewrite length_app. simpl. lia.
  - rewrite L5, L10, next_slot by lia. rewrite Zplus_mod_idemp_l. rewrite length_app. simpl. do 2 f_equal. lia.
  - intros i y Hy. unfold slot. simpl. apply lookup_app_Some in Hy as [Hy|[Hi Hy]].
    + pose proof (lookup_lt_Some _ _ _ Hy). rewrite (mem_read_other _ _ _ _ _ _ Hw); [by apply L11|].
      rewrite L10, Hx. apply mod_slot_ne; [lia| |lia]. apply mod_ne. lia.
    + apply list_lookup_singleton_Some in Hy as [E <-]. replace (Z.of_nat i) with (Z.of_nat (length xs)) by lia.
      rewrite <- L10. rewrite <- Hx. by eapply mem_read_written.
Qed.

(** Storing one in the slot before the oldest. *)
Lemma ring_send_front x m n :
  uxItemSize Q ≠ 0 → Z.of_nat (length x) = uxItemSize Q →
  mem_write (pcReadFrom Q) x (storage Q) = Some m → (n ≤ 1)%nat →
  Z.of_nat (length (drop n xs)) < uxLength Q → (n = 1%nat → uxLength Q = 1) →
  ring (set_uxMessagesWaiting (u32 (Z.of_nat (length (drop n xs)) + 1))
    (set_item_front m (if pcReadFrom Q - uxItemSize Q <? 0 then pcTail Q - uxItemSize Q else pcReadFrom Q - uxItemSize Q) Q))
    (x :: drop n xs).
Proof using R.
  intros Hz Hx Hw Hn Hroom H1. destruct R as [L1 L2 L3 L4 L5 L6 L7 L8 L9 L10 L11].
  exists ((r - 1) mod uxLength Q). rewrite length_drop in *. constructor; simpl; try done; rewrite ?length_drop.
  - apply mem_write_Some in Hw as [? ->]. rewrite !length_app, length_take, length_drop. lia.
  - rewrite u32_id by (unfold is_u32; lia). lia.
  - lia.
  - apply Z.mod_pos_bound. lia.
  - rewrite L5, L9. by apply prev_slot; lia.
  - rewrite L10. f_equal. rewrite mod_add3.
    destruct n as [|[|n]]; [|rewrite H1 by done; by rewrite !Z.mod_1_r|lia]. rewrite Nat.sub_0_r. f_equal. lia.
  - intros i y Hy. unfold slot. simpl.
    replace (((r - 1) mod uxLength Q + 1 + Z.of_nat i) mod uxLength Q) with ((r + Z.of_nat i) mod uxLength Q)
      by (rewrite mod_add3; f_equal; lia).
    destruct i as [|i]; simpl in Hy.
    + injection Hy as <-. rewrite Z.add_0_r, Z.mod_small by lia. rewrite <- L9, <- Hx. by eapply mem_read_written.
    + rewrite lookup_drop in Hy. pose proof (lookup_lt_Some _ _ _ Hy). rewrite (mem_read_other _ _ _ _ _ _ Hw).
      * destruct n as [|[|n]]; [|rewrite H1 in * by done; lia|lia].
        replace (r + Z.of_nat (S i)) with (r + 1 + Z.of_nat i) by lia. by apply L11.
      * rewrite L9, Hx. rewrite <- (Z.mod_small r (uxLength Q)) at 2 3 by lia.
        destruct n as [|[|n]]; [|rewrite H1 in * by done; lia|lia].
        destruct (mod_slot_ne (uxLength Q) (r + Z.of_nat (S i)) r ltac:(lia)
          ltac:(apply not_eq_sym, mod_ne; lia) (uxItemSize Q) ltac:(lia)); lia.
Qed.

(** A queue without data counts. *)
Lemma ring_count ys :
  uxItemSize Q = 0 → Forall (λ y, y = []) ys → Z.of_nat (length ys) ≤ uxLength Q →
  ring (set_uxMessagesWaiting (Z.of_nat (length ys)) Q) ys.
Proof using R.
  intros Hz Hy Hl. destruct R as [L1 L2 L3 L4 L5 L6 L7 L8 L9 L10 L11].
  exists r. constructor; simpl; try done; [by rewrite L10, Hz, !Z.mul_0_r|].
  intros i y Hi. rewrite Forall_lookup in Hy. rewrite (Hy _ _ Hi). unfold slot. simpl.
  apply mem_read_Some. rewrite Hz, Z.mul_0_r. split; [lia|done].
Qed.

(** Taking the oldest item. *)
Lemma ring_receive x ys :
  xs = x :: ys → uxItemSize Q ≠ 0 →
  let r' := if pcTail Q <=? pcReadFrom Q + uxItemSize Q then 0 else pcReadFrom Q + uxItemSize Q in
  mem_read (uxItemSize Q) r' (storage Q) = Some x ∧
  ring (set_uxMessagesWaiting (u32 (uxMessagesWaiting Q - 1)) (set_pcReadFrom r' Q)) ys.
Proof using R.
  intros -> Hz. destruct R as [L1 L2 L3 L4 L5 L6 L7 L8 L9 L10 L11]. cbv zeta.
  rewrite L5, L9, next_slot by lia. simpl in *. split.
  - specialize (L11 0%nat x eq_refl). by rewrite Z.add_0_r in L11.
  - exists ((r + 1) mod uxLength Q). constructor; simpl; try done.
    + rewrite u32_id by (unfold is_u32; lia). lia.
    + lia.
    + apply Z.mod_pos_bound. lia.
    + rewrite L10. f_equal. rewrite mod_add3. f_equal. lia.
    + intros i y Hi. unfold slot. simpl. specialize (L11 (S i) y Hi). unfold slot in L11. rewrite <- L11.
      f_equal. f_equal. rewrite mod_add3. f_equal. lia.
Qed.
End pure.

(** A queue without data: every item is the empty one, only their number
    counts. *)
Lemma ring_no_data Q xs : ring Q xs → uxItemSize Q = 0 → Forall (λ y, y = []) xs.
Proof.
  intros R E. apply Forall_forall. intros y Hy. pose proof (ring_item_length _ _ y R Hy).
  destruct y; [done|simpl in *; lia].
Qed.

Lemma ring_recount Q xs ys n :
  ring Q xs → uxItemSize Q = 0 → Forall (λ y, y = []) ys → n = Z.of_nat (length ys) → 0 ≤ n ≤ uxLength Q →
  ring (set_uxMessagesWaiting (u32 n) Q) ys.
Proof.
  intros [r R] E Hy -> Hn. pose proof (rg_length _ _ _ R). rewrite u32_id by (unfold is_u32; lia).
  apply (ring_count r Q xs R); [done|done|lia].
Qed.

(** ** Total correctness of the queue functions *)
Definition wpq {L R} (m : QM L R) (P : R → qkernel L → Prop) (s : qkernel L) : Prop :=
  match m s with Some (s', r) => P r s' | None => False end.

Definition set_queue {L} q Q (s : qkernel L) : qkernel L := MkQK (kern s) (<[q := Q]> (queues s)) (xQueueRegistry s).
Definition set_kern {L} (k : kernel L) (s : qkernel L) : qkernel L := MkQK k (queues s) (xQueueRegistry s).

Section wpq.
Context {L : Type}.

Lemma wpq_ret {R} (r : R) P (s : qkernel L) : P r s → wpq (mret r) P s.
Proof. done. Qed.

Lemma wpq_returns {R} (m : QM L R) P s s' r : m s = Some (s', r) → P r s' → wpq m P s.
Proof. unfold wpq. by intros ->. Qed.

Lemma wpq_bind {S R} (m : QM L S) (f : S → QM L R) P s :
  wpq m (λ r s', wpq (f r) P s') s → wpq (m ≫= f) P s.
Proof. unfold wpq, mbind, QM_bind. by destruct (m s) as [[s' r]|]. Qed.

Lemma wpq_bind_assoc {S T R} (m : QM L S) (f : S → QM L T) (g : T → QM L R) P s :
  wpq (m ≫= f) (λ r s', wpq (g r) P s') s → wpq (m ≫= λ x, f x ≫= g) P s.
Proof.
  unfold wpq, mbind, QM_bind. destruct (m s) as [[s' r]|]; [|done]. simpl. by destruct (f r s') as [[]|].
Qed.

Lemma wpq_mono {R} (m : QM L R) (P P' : R → qkernel L → Prop) s :
  wpq m P s → (∀ r s', P r s' → P' r s') → wpq m P' s.
Proof. unfold wpq. destruct (m s) as [[s' r]|]; eauto. Qed.

Lemma wpq_result {R} (m : QM L R) P s : wpq m P s ↔ ∃ s' r, m s = Some (s', r) ∧ P r s'.
Proof. unfold wpq. destruct (m s) as [[s' r]|]; naive_solver. Qed.

Lemma wpq_lift {R} (m : K L R) P s : wp m (λ r k, P r (set_kern k s)) (kern s) → wpq (lift m) P s.
Proof. unfold wp, wpq, lift. by destruct (m (kern s)) as [[k r]|]. Qed.

Lemma wpq_access {R} (p : option R) x P (s : qkernel L) : p = Some x → P x s → wpq (access p) P s.
Proof. by intros ->. Qed.

Lemma wpq_getq q Q P (s : qkernel L) : queues s !! q = Some Q → P Q s → wpq (getq q) P s.
Proof. unfold wpq, getq. by intros ->. Qed.

Lemma wpq_updq q Q f P (s : qkernel L) : queues s !! q = Some Q → P () (set_queue q (f Q) s) → wpq (updq q f) P s.
Proof. unfold wpq, updq. by intros ->. Qed.

Lemma wpq_whenq (c : bool) (m : QM L unit) P s :
  (c = true → wpq m P s) → (c = false → P () s) → wpq (whenq c m) P s.
Proof. unfold whenq. destruct c; intros H1 H2; [by apply H1|by apply H2]. Qed.

Lemma wpq_if {R} (c : bool) (m n : QM L R) P s :
  (c = true → wpq m P s) → (c = false → wpq n P s) → wpq (if c then m else n) P s.
Proof. destruct c; auto. Qed.

Lemma set_queue_twice q Q Q' (s : qkernel L) : set_queue q Q' (set_queue q Q s) = set_queue q Q' s.
Proof. unfold set_queue. simpl. by rewrite insert_insert_eq. Qed.

Lemma set_queue_lookup q Q (s : qkernel L) : queues (set_queue q Q s) !! q = Some Q.
Proof. apply lookup_insert_eq. Qed.

Lemma set_queue_id q Q (s : qkernel L) : queues s !! q = Some Q → set_queue q Q s = s.
Proof. intros HQ. destruct s. unfold set_queue. simpl in *. by rewrite insert_id. Qed.

Lemma set_kern_queue q Q k (s : qkernel L) : set_kern k (set_queue q Q s) = set_queue q Q (set_kern k s).
Proof. done. Qed.
End wpq.

(** One step of symbolic execution. *)
Ltac wpq_step :=
  lazymatch goal with
  | |- wpq (_ ≫= _) _ _ => apply wpq_bind
  | |- wpq (mret _) _ _ => apply wpq_ret
  | |- wpq (whenq _ _) _ _ => apply wpq_whenq
  | |- wpq (if true then ?m else _) ?P ?s => change (wpq m P s)
  | |- wpq (if false then _ else ?m) ?P ?s => change (wpq m P s)
  end.

(** ** The copying functions *)
Section copying.
Context {L : Type} `{HL : !KLists L}.
Implicit Types s : qkernel L.

Lemma ring_write_in r Q xs j : ring_at r Q xs → 0 ≤ j < uxLength Q → ∀ x,
  Z.of_nat (length x) = uxItemSize Q → ∃ m, mem_write (j * uxItemSize Q) x (storage Q) = Some m.
Proof.
  intros R Hj x Hx. destruct (mem_write_total (j * uxItemSize Q) x (storage Q)) as (m & ? & _); [| |by exists m];
    pose proof (rg_storage _ _ _ R); pose proof (rg_size _ _ _ R); nia.
Qed.

Lemma wp_prvCopyDataToQueue q item pos Q xs P s :
  queues s !! q = Some Q → ring Q xs → uxItemSize Q ≤ Z.of_nat (length item) → may_enqueue Q pos →
  (∀ Q', ring Q' (enqueue pos (take (Z.to_nat (uxItemSize Q)) item) xs) → same_queue Q Q' →
     P false (set_queue q Q' s)) →
  wpq (prvCopyDataToQueue q item pos) P s.
Proof.
  intros HQ R Hi Hm HP. pose proof R as [r Ra]. pose proof (rg_size _ _ _ Ra) as Hz. pose proof (rg_waiting _ _ _ Ra) as Hn.
  set (x := take (Z.to_nat (uxItemSize Q)) item) in *.
  assert (Hx : Z.of_nat (length x) = uxItemSize Q) by (unfold x; rewrite length_take; lia).
  unfold prvCopyDataToQueue. wpq_step. apply (wpq_getq _ Q); [done|]. wpq_step.
  destruct (Z.eqb_spec (uxItemSize Q) 0) as [E|E].
  - wpq_step. wpq_step. apply (wpq_updq _ Q); [done|]. wpq_step. apply HP; [|done].
    assert (x = []) as -> by (destruct x; [done|simpl in *; lia]).
    assert (Hroom : Z.of_nat (length xs) < uxLength Q).
    { destruct pos; simpl in Hm; [lia..|]. by destruct Hm. }
    pose proof (ring_no_data Q xs R E) as Hnil. apply (ring_recount Q xs); [done|done| | |lia].
    + destruct pos; simpl; [apply Forall_app; split; [done|by constructor]|by constructor|by destruct Hm].
    + destruct pos; simpl in *; [rewrite length_app; simpl; lia|lia|by destruct Hm].
  - wpq_step. apply (wpq_access _ x); [apply mem_read_Some; split; [lia|by rewrite drop_0]|].
    destruct (decide (pos = queueSEND_TO_BACK)) as [->|Hpos].
    + simpl in Hm. destruct (ring_write_in r Q xs _ Ra (Z.mod_pos_bound (r + 1 + Z.of_nat (length xs)) (uxLength Q)
        ltac:(pose proof (rg_length _ _ _ Ra); lia)) x Hx) as [m Hw]. rewrite <- (rg_write _ _ _ Ra) in Hw.
      wpq_step. apply (wpq_access _ m); [done|]. cbv zeta. wpq_step. apply (wpq_updq _ Q); [done|].
      wpq_step. wpq_step. eapply wpq_updq; [apply set_queue_lookup|]. wpq_step. rewrite set_queue_twice. apply HP.
      * by apply (ring_send_back r Q xs Ra x m).
      * done.
    + destruct (ring_write_in r Q xs r Ra (rg_slot _ _ _ Ra) x Hx) as [m Hw]. rewrite <- (rg_read _ _ _ Ra) in Hw.
      set (n := if bool_decide (pos = queueOVERWRITE) then 1%nat else 0%nat).
      assert (Hn1 : n = 1%nat → uxLength Q = 1).
      { unfold n. case_bool_decide as Hp; [|done]. rewrite Hp in Hm. intros _. apply Hm. }
      assert (Hroom : Z.of_nat (length (drop n xs)) < uxLength Q).
      { pose proof (rg_fits _ _ _ Ra). rewrite length_drop. unfold n in *. destruct pos; simpl in *; [done|lia|]. lia. }
      assert (Rg : ring (set_uxMessagesWaiting (u32 ((if bool_decide (pos = queueOVERWRITE) && (0 <? uxMessagesWaiting Q)
          then uxMessagesWaiting Q - 1 else uxMessagesWaiting Q) + 1)) (set_item_front m
          (if pcReadFrom Q - uxItemSize Q <? 0 then pcTail Q - uxItemSize Q else pcReadFrom Q - uxItemSize Q) Q))
          (enqueue pos x xs)).
      { replace (enqueue pos x xs) with (x :: drop n xs) by by destruct pos.
        replace (if bool_decide (pos = queueOVERWRITE) && (0 <? uxMessagesWaiting Q) then _ else _)
          with (Z.of_nat (length (drop n xs))).
        - apply (ring_send_front r Q xs Ra); try done. unfold n. case_bool_decide; lia.
        - rewrite length_drop, Hn. unfold n. case_bool_decide; simpl; [|lia].
          destruct (Z.ltb_spec 0 (Z.of_nat (length xs))); lia. }
      destruct pos; [done| |]; (wpq_step; apply (wpq_access _ m); [done|]; cbv zeta; wpq_step; apply (wpq_updq _ Q); [done|];
        wpq_step; wpq_step; eapply wpq_updq; [apply set_queue_lookup|]; wpq_step; rewrite set_queue_twice; by apply HP).
Qed.

Lemma wp_prvCopyDataFromQueue q Q x xs P s :
  queues s !! q = Some Q → ring Q (x :: xs) →
  (∀ Q', same_queue Q Q' → set_pcReadFrom (pcReadFrom Q) Q' = Q → uxMessagesWaiting Q' = uxMessagesWaiting Q →
     ring (set_uxMessagesWaiting (u32 (uxMessagesWaiting Q - 1)) Q') xs → P x (set_queue q Q' s)) →
  wpq (prvCopyDataFromQueue q) P s.
Proof.
  intros HQ R HP. pose proof R as [r Ra].
  unfold prvCopyDataFromQueue. wpq_step. apply (wpq_getq _ Q); [done|]. destruct (Z.eqb_spec (uxItemSize Q) 0) as [E|E].
  - pose proof (ring_no_data Q _ R E) as [-> Hnil]%Forall_cons.
    wpq_step. specialize (HP Q). rewrite set_queue_id in HP by done. apply HP; [done|by destruct Q|done|].
    pose proof (rg_waiting _ _ _ Ra) as Hn. pose proof (rg_fits _ _ _ Ra) as Hf. simpl in Hn, Hf.
    apply (ring_recount Q _ _ _ R); [done|done|lia|lia].
  - cbv zeta. destruct (ring_receive r Q _ Ra x xs eq_refl E) as [Hr Rg]. wpq_step. apply (wpq_updq _ Q); [done|].
    eapply wpq_access; [exact Hr|]. by apply HP; [done|by destruct Q|..].
Qed.
End copying.
