(* ===== verification/QueueOk.v ===== *)
(** * The functions of queue.c keep the invariant

    The scheduler's invariant, and of every queue: its event lists exist, its
    ring holds a list of items, and it is locked only while a task is between
    the two halves of a wait. *)
From S2P Require Import Prelude RtosList KList Tasks TasksSim TasksInv TasksOk TasksApi TasksMain Queue QueueData.
Local Open Scope Z_scope.
Implicit Types (A : astate) (k : akernel) (l : positive) (t : TaskHandle_t) (q : QueueHandle_t) (Q : Queue_t)
  (s : qkernel astate).

(** The kernel while interrupts act and the scheduler is suspended: no task
    starts to wait, no ready task stops being ready. *)
Record stable k k' : Prop := {
  st_data : (pxCurrentTCB (data k'), uxSchedulerSuspended (data k'), xTickCount (data k'), xNumOfOverflows (data k'),
      pxDelayedTaskList (data k'), pxOverflowDelayedTaskList (data k'), tcbs (data k'), uxCurrentNumberOfTasks (data k')) =
    (pxCurrentTCB (data k), uxSchedulerSuspended (data k), xTickCount (data k), xNumOfOverflows (data k),
      pxDelayedTaskList (data k), pxOverflowDelayedTaskList (data k), tcbs (data k), uxCurrentNumberOfTasks (data k));
  st_ready : ∀ p t, ready (lists k) p t → ready (lists k') p t;
  st_wait : ∀ l t, (10 < l)%positive → holds (lists k') l (Ev t) → holds (lists k) l (Ev t) }.

Lemma stable_refl k : stable k k.
Proof. by constructor. Qed.

Lemma stable_trans k1 k2 k3 : stable k1 k2 → stable k2 k3 → stable k1 k3.
Proof.
  intros [E1 R1 W1] [E2 R2 W2]. constructor; [congruence|auto|auto].
Qed.

Lemma stable_running k k' c : stable k k' → running k c → running k' c.
Proof. intros [[=] R _] [Hc [p Hp]]. split; [congruence|]. exists p. auto. Qed.

Section ok.
Context (idle : TaskHandle_t).

(** ** Waking the first waiter *)
Definition first_waiter k l t : Prop := ∃ a xs, a_lists (lists k) !! l = Some a ∧ elems a = Ev t :: xs.

(** [unblock_first]: the first waiter of [l] leaves it, if there is one. *)
Definition unblocked l k k' : Prop :=
  (k' = k ∧ ∀ i, ¬ holds (lists k) l i) ∨ ∃ t, first_waiter k l t ∧ woke t k k'.

Lemma first_waiter_holds k l t : first_waiter k l t → holds (lists k) l (Ev t).
Proof. intros (a & xs & Ha & E). exists a. split; [done|]. rewrite E. by left. Qed.

Lemma first_waiter_unique k l t u : first_waiter k l t → first_waiter k l u → t = u.
Proof. intros (a & xs & Ha & E) (a' & xs' & Ha' & E'). simplify_eq. rewrite E in E'. by simplify_eq. Qed.

Lemma woke_stable t l k k' : inv idle k → holds (lists k) l (Ev t) → woke t k k' → stable k k'.
Proof.
  intros I Hl [(top & y & E) Wr Wf Ww Wl]. constructor; simpl; [by rewrite E| |].
  - intros p u (rl & Hp & Hu). exists rl. split; [done|]. apply Wr; [|done]. intros ->.
    apply (ready_ev_free idle (lists k) (data k) p t l); [apply I|by exists rl|done].
  - intros l' u Hl' Hu. destruct (decide (u = t)) as [->|Hne]; [|by apply (Wr u Hne)].
    destruct (Wf l'); [list_lia|done].
Qed.

Lemma unblocked_stable l k k' : inv idle k → unblocked l k k' → stable k k'.
Proof.
  intros I [[-> _]|(t & Hf & Wo)]; [apply stable_refl|]. by apply (woke_stable t l), Wo; [|apply first_waiter_holds].
Qed.

Lemma unblocked_first l k k' t : unblocked l k k' → (10 < l)%positive → first_waiter k l t → ¬ holds (lists k') l (Ev t).
Proof.
  intros [[_ Hn]|(u & Hu & Wo)] Hl Ht; [by destruct (Hn _ (first_waiter_holds _ _ _ Ht))|].
  assert (u = t) as -> by by eapply first_waiter_unique. apply (wo_free _ _ _ Wo). list_lia.
Qed.

Lemma event_waiter k l a i xs :
  inv idle k → (10 < l)%positive → a_lists (lists k) !! l = Some a → elems a = i :: xs → ∃ t, i = Ev t ∧ first_waiter k l t.
Proof.
  intros I Hl Ha E. destruct (event_not_state l Hl) as (L1 & _ & _).
  destruct (wf_on_event_list _ _ _ _ _ l i (co_wf _ _ _ _ _ _ _ (inv_core _ _ I)) L1) as (t & -> & _);
    [exists a; split; [done|rewrite E; by left]|]. exists t. split; [done|]. by exists a, xs.
Qed.

Lemma wp_unblock_first l P k :
  inv idle k → event_list k l →
  (∀ k' y, inv idle k' → unblocked l k k' → lists_kept k k' → P y k') →
  wp (unblock_first l) P k.
Proof.
  intros I [Hl [a Ha]] HP. pose proof (co_wf _ _ _ _ _ _ _ (inv_core _ _ I)) as W.
  apply wp_kept; [intros X M; unfold unblock_first; ksim|]. unfold unblock_first. wp_step.
  apply (wp_is_empty _ (wf_ok _ _ _ _ _ W) _ a); [done|]. case_bool_decide as E.
  - wp_step. apply HP; [done|left]. split; [done|]. intros i (b & Hb & Hi). simplify_eq. rewrite E in Hi. by apply elem_of_nil in Hi.
  - destruct (elems a) as [|i xs] eqn:Ei; [done|]. destruct (event_waiter k l a i xs I Hl Ha Ei) as (t & -> & Hf).
    apply (wp_xTaskRemoveFromEventList idle l a (Ev t) xs); [done..|]. intros k' y t' I' [= <-] Wo. apply HP; [done|right].
    by exists t.
Qed.

(** The loop of [prvUnlockQueue]. *)
Lemma wp_unlock_loop n l P k :
  inv idle k → event_list k l →
  (∀ k', inv idle k' → stable k k' → lists_kept k k' →
     ((0 < n)%nat → ∀ t, first_waiter k l t → ¬ holds (lists k') l (Ev t)) → P () k') →
  wp (unlock_loop n l) P k.
Proof.
  revert k. induction n as [|n IH]; intros k I He HP; simpl.
  { wp_step. apply HP; [done|apply stable_refl|apply lists_kept_refl|lia]. }
  pose proof He as [Hl [a Ha]]. pose proof (co_wf _ _ _ _ _ _ _ (inv_core _ _ I)) as W.
  wp_step. apply (wp_is_empty _ (wf_ok _ _ _ _ _ W) _ a); [done|]. case_bool_decide as E.
  { wp_step. apply HP; [done|apply stable_refl|apply lists_kept_refl|]. intros _ t (b & xs & Hb & Eb). simplify_eq. congruence. }
  destruct (elems a) as [|i xs] eqn:Ei; [done|]. destruct (event_waiter k l a i xs I Hl Ha Ei) as (t & -> & Hf).
  wp_step. apply wp_kept; [intros X M; ksim|]. apply (wp_xTaskRemoveFromEventList idle l a (Ev t) xs); [done..|].
  intros k1 y t' I1 [= <-] Wo Kp1. pose proof (woke_stable t l _ _ I (first_waiter_holds _ _ _ Hf) Wo) as S1.
  assert (Next : ∀ k2, inv idle k2 → stable k1 k2 → lists_kept k1 k2 → wp (unlock_loop n l) P k2).
  { intros k2 I2 S2 Kp2. apply IH; [done|split; [done|]|].
    - apply Kp2, Kp1. by exists a.
    - intros k3 I3 S3 Kp3 _. apply HP; [done|by eapply stable_trans, stable_trans|by eapply lists_kept_trans, lists_kept_trans|].
      intros _ u (b & ys & Hb & Eb). simplify_eq. rewrite Ei in Eb. simplify_eq.
      intros Hh. apply (wo_free _ _ _ Wo l); [list_lia|]. by apply (st_wait _ _ S2), (st_wait _ _ S3). }
  wp_step. wp_step; intros Hy.
  - unfold vTaskMissedYield. wp_step. apply Next; [by apply inv_yield_pending|by constructor|by split].
  - apply Next; [done|apply stable_refl|apply lists_kept_refl].
Qed.

(** ** The invariant *)
Record queue_ok A (locked : bool) q Q : Prop := {
  qo_addr : (5 < q)%positive;
  qo_send : is_Some (a_lists A !! xTasksWaitingToSend q);
  qo_receive : is_Some (a_lists A !! xTasksWaitingToReceive q);
  qo_ring : ∃ xs, ring Q xs;
  qo_unlocked : locked = false → cRxLock Q = queueUNLOCKED ∧ cTxLock Q = queueUNLOCKED }.

(** [lk] is the queue that the running task has locked. *)
Record qinv (lk : option QueueHandle_t) s : Prop := {
  qi_kernel : inv idle (kern s);
  qi_queues : ∀ q Q, queues s !! q = Some Q → queue_ok (lists (kern s)) (bool_decide (lk = Some q)) q Q }.

Lemma qi_ring lk s q Q : qinv lk s → queues s !! q = Some Q → ∃ xs, ring Q xs.
Proof. intros I HQ. apply (qi_queues _ _ I _ _ HQ). Qed.

Lemma qi_send lk s q Q : qinv lk s → queues s !! q = Some Q → event_list (kern s) (xTasksWaitingToSend q).
Proof. intros I HQ. destruct (qi_queues _ _ I _ _ HQ). split; [unfold xTasksWaitingToSend; lia|done]. Qed.

Lemma qi_receive lk s q Q : qinv lk s → queues s !! q = Some Q → event_list (kern s) (xTasksWaitingToReceive q).
Proof. intros I HQ. destruct (qi_queues _ _ I _ _ HQ). split; [unfold xTasksWaitingToReceive; lia|done]. Qed.

Lemma qinv_kern lk s k : qinv lk s → inv idle k → lists_kept (kern s) k → qinv lk (set_kern k s).
Proof.
  intros [_ HQ] I [Kp _]. constructor; simpl; [done|]. intros q Q E. destruct (HQ q Q E). constructor; auto.
Qed.

Lemma qinv_queue lk lk' s q Q Q' xs :
  qinv lk s → queues s !! q = Some Q → ring Q' xs → (∀ q', q' ≠ q → lk' = Some q' ↔ lk = Some q') →
  (lk' ≠ Some q → cRxLock Q' = queueUNLOCKED ∧ cTxLock Q' = queueUNLOCKED) → qinv lk' (set_queue q Q' s).
Proof.
  intros [I HQ] E R Hl HU. constructor; simpl; [done|]. intros q' Q2. rewrite lookup_insert_Some. intros [[<- <-]|[Hne E2]].
  - destruct (HQ q Q E). constructor; [done..|by exists xs|]. intros ?%bool_decide_eq_false. auto.
  - destruct (HQ q' Q2 E2) as [O1 O2 O3 O4 O5]. constructor; try done. intros Hb%bool_decide_eq_false. apply O5.
    apply bool_decide_eq_false. by rewrite <- Hl.
Qed.

(** Same locks. *)
Lemma qinv_same lk s q Q Q' xs :
  qinv lk s → queues s !! q = Some Q → ring Q' xs → same_queue Q Q' → qinv lk (set_queue q Q' s).
Proof.
  intros I E R S. eapply qinv_queue; [done..|]. intros Hl. rewrite (sq_rx _ _ S), (sq_tx _ _ S).
  apply (qi_queues _ _ I _ _ E). by apply bool_decide_eq_false.
Qed.

(** From one state to another only the kernel and the queue [q] changed. *)
Record step_on q Q' (K : akernel → akernel → Prop) s s' : Prop := {
  so_kern : K (kern s) (kern s');
  so_queue : queues s' = <[q := Q']> (queues s);
  so_registry : xQueueRegistry s' = xQueueRegistry s }.

(** [m] woke the first waiter of [l], and a switch may have happened. *)
Definition signalled l k k' : Prop := ∃ k1, unblocked l k k1 ∧ quiet k1 k'.

(** What a signal means: the first waiter is ready (or held back), every other
    task is where it was. *)
Lemma signalled_spec l k k' : signalled l k k' →
  (∀ t, first_waiter k l t → (if uxSchedulerSuspended (data k) =? 0 then awake k' t else holds (lists k') xPendingReadyList (Ev t))
     ∧ ∀ u, u ≠ t → same_place k k' u) ∧
  ((∀ i, ¬ holds (lists k) l i) → ∀ u, same_place k k' u).
Proof.
  intros (k1 & U & Qu). split.
  - intros t Ht. destruct U as [[-> Hn]|(u & Hu & Wo)]; [by destruct (Hn _ (first_waiter_holds _ _ _ Ht))|].
    assert (u = t) as -> by by eapply first_waiter_unique.
    split.
    + pose proof (wo_where _ _ _ Wo) as Hw. destruct (_ =? 0).
      * by apply (awake_same_place k1); [apply Qu|destruct Qu as [[=]]|].
      * apply (qu_place _ _ Qu t). apply Hw.
    + intros u Hne l'. pose proof (wo_rest _ _ _ Wo u Hne l'). pose proof (qu_place _ _ Qu u l'). naive_solver.
  - intros Hn u. destruct U as [[-> _]|(t & Ht & _)]; [apply Qu|]. by destruct (Hn _ (first_waiter_holds _ _ _ Ht)).
Qed.

(** [unblock_first], then a yield if it asks for one. *)
Lemma wp_signal l lk (r : bool → QM astate unit) P s :
  qinv lk s → event_list (kern s) l → (∀ y, r y = whenq y queueYIELD_IF_USING_PREEMPTION) →
  (∀ k', qinv lk (set_kern k' s) → signalled l (kern s) k' → lists_kept (kern s) k' →
     uxSchedulerSuspended (data k') = uxSchedulerSuspended (data (kern s)) → P () (set_kern k' s)) →
  wpq (y ← lift (unblock_first l); r y) P s.
Proof.
  intros I He Hr HP. pose proof (qi_kernel _ _ I) as Ik. wpq_step. apply wpq_lift. apply wp_unblock_first; [done..|].
  intros k1 y I1 U Kp1. rewrite Hr.
  assert (Hsu : uxSchedulerSuspended (data k1) = uxSchedulerSuspended (data (kern s))).
  { pose proof (st_data _ _ (unblocked_stable _ _ _ Ik U)) as E. by injection E. }
  wpq_step; intros _.
  - unfold queueYIELD_IF_USING_PREEMPTION. apply wpq_lift. simpl.
    apply wp_kept; [intros X M; ksim|]. apply (wp_yield idle); [apply I1..|]. intros k2 S2 I2 Kp2. pose proof (lists_kept_trans _ _ _ Kp1 Kp2) as Kp.
    apply HP; [by apply qinv_kern| |done|by rewrite (switched_susp _ _ S2)]. exists k1. split; [done|].
    apply switched_quiet; [apply I1|done].
  - apply HP; [by apply qinv_kern| |done|done]. exists k1. split; [done|apply quiet_refl].
Qed.

(** The same in the form in which [xQueueGenericSend] has it. *)
Lemma wpq_signal_inline {R} l (Y : QM astate unit) (c : QM astate R) P s :
  wpq (y ← lift (unblock_first l); whenq y Y) (λ _ s', wpq c P s') s →
  wpq (e ← lift (listLIST_IS_EMPTY l);
       (if negb e then y ← lift (xTaskRemoveFromEventList l); whenq y Y else whenq false Y);; c) P s.
Proof.
  unfold wpq, unblock_first, lift, mbind, QM_bind, K_bind. destruct (listLIST_IS_EMPTY l (kern s)) as [[k [|]]|]; [done| |done].
  simpl. destruct (xTaskRemoveFromEventList l k) as [[k1 y]|]; [|done]. simpl. by destruct (whenq y Y _) as [[s' r]|].
Qed.

(** ** Functions called by tasks *)
Definition may_send Q (item : list Z) (pos : xCopyPosition_t) : Prop :=
  uxItemSize Q ≤ Z.of_nat (length item) ∧ (pos = queueOVERWRITE → uxLength Q = 1 ∧ uxItemSize Q ≠ 0).

(** The test of the sending functions. *)
Definition room Q (pos : xCopyPosition_t) : bool :=
  (uxMessagesWaiting Q <? uxLength Q) || bool_decide (pos = queueOVERWRITE).

Lemma room_may_enqueue Q item pos : may_send Q item pos → room Q pos = true → may_enqueue Q pos.
Proof.
  intros [_ Ho] [?%Z.ltb_lt| ->%bool_decide_eq_true]%orb_true_iff; [|by apply Ho].
  destruct pos; [done..|]. by apply Ho.
Qed.

(** [Wait]: with the time-out of the first pass. *)
Definition waits (entry : option (Z * Z)) k (to : Z * Z) : Prop :=
  to = default (xNumOfOverflows (data k), xTickCount (data k)) entry.

Definition sent_item Q (item : list Z) : list Z := take (Z.to_nat (uxItemSize Q)) item.

Lemma wp_xQueueGenericSend_try lk q Q xs item pos ticks entry P s :
  qinv lk s → queues s !! q = Some Q → ring Q xs → may_send Q item pos →
  (if room Q pos then
     ∀ s' Q', qinv lk s' → step_on q Q' (signalled (xTasksWaitingToReceive q)) s s' →
       uxSchedulerSuspended (data (kern s')) = uxSchedulerSuspended (data (kern s)) →
       ring Q' (enqueue pos (sent_item Q item) xs) → same_queue Q Q' → P (Return true) s'
   else if ticks =? 0 then P (Return false) s else ∀ to, waits entry (kern s) to → P (Wait to) s) →
  wpq (xQueueGenericSend_try q item pos ticks entry) P s.
Proof.
  intros I HQ R Hs HP. unfold xQueueGenericSend_try. wpq_step. apply (wpq_getq _ Q); [done|]. fold (room Q pos).
  destruct (room Q pos) eqn:Er.
  - wpq_step. apply (wp_prvCopyDataToQueue q item pos Q xs); [done|done|apply Hs|by eapply room_may_enqueue|].
    intros Q' R' S'. pose proof (qinv_same _ _ _ _ _ _ I HQ R' S') as I'.
    apply wpq_signal_inline. apply (wp_signal _ lk (λ y, whenq y queueYIELD_IF_USING_PREEMPTION)); [done|by apply (qi_receive lk _ q Q'); [|apply set_queue_lookup]|done|].
    intros k' I2 Sg Kp Hsu. wpq_step. by apply (HP _ Q').
  - destruct (ticks =? 0); [by wpq_step|]. destruct entry as [to|].
    + wpq_step. by apply HP.
    + wpq_step. apply wpq_lift. unfold vTaskSetTimeOutState. do 4 wp_step. wp_step. wpq_step. destruct s, kern. by apply HP.
Qed.

Lemma wp_receive_failed {R} ticks entry (P : attempt (option R) → qkernel astate → Prop) s :
  (if ticks =? 0 then P (Return None) s else ∀ to, waits entry (kern s) to → P (Wait to) s) →
  wpq (receive_failed ticks entry) P s.
Proof.
  intros HP. unfold receive_failed. destruct (ticks =? 0); [by wpq_step|]. destruct entry as [to|].
  - wpq_step. by apply HP.
  - wpq_step. apply wpq_lift. unfold vTaskSetTimeOutState. do 4 wp_step. wp_step. wpq_step. destruct s, kern. by apply HP.
Qed.

(** What a receiving function does with the items. *)
Definition received (ticks : Z) (entry : option (Z * Z)) q Q xs (rest : list (list Z) → list (list Z)) l
    (P : attempt (option (list Z)) → qkernel astate → Prop) lk s : Prop :=
  match xs with
  | x :: ys =>
      ∀ s' Q', qinv lk s' → step_on q Q' (signalled l) s s' →
        uxSchedulerSuspended (data (kern s')) = uxSchedulerSuspended (data (kern s)) →
        ring Q' (rest xs) → same_queue Q Q' → P (Return (Some x)) s'
  | [] => if ticks =? 0 then P (Return None) s else ∀ to, waits entry (kern s) to → P (Wait to) s
  end.

Lemma ring_nonempty Q xs : ring Q xs → (0 <? uxMessagesWaiting Q) = match xs with [] => false | _ => true end.
Proof. intros [r R]. rewrite (rg_waiting _ _ _ R). by destruct xs. Qed.

Lemma wp_xQueueReceive_try lk q Q xs ticks entry P s :
  qinv lk s → queues s !! q = Some Q → ring Q xs →
  received ticks entry q Q xs tail (xTasksWaitingToSend q) P lk s →
  wpq (xQueueReceive_try q ticks entry) P s.
Proof.
  intros I HQ R HP. unfold xQueueReceive_try. wpq_step. apply (wpq_getq _ Q); [done|]. cbv zeta.
  rewrite (ring_nonempty Q xs R). destruct xs as [|x ys]; [by apply wp_receive_failed|].
  wpq_step. apply (wp_prvCopyDataFromQueue q Q x ys); [done..|]. intros Q1 S1 _ _ R1.
  wpq_step. eapply wpq_updq; [apply set_queue_lookup|]. rewrite set_queue_twice.
  set (Q' := set_uxMessagesWaiting _ Q1) in *. assert (S' : same_queue Q Q') by (by etrans).
  pose proof (qinv_same _ _ _ _ _ _ I HQ R1 S') as I'.
  apply wpq_bind_assoc.
  apply (wp_signal _ lk (λ y, whenq y queueYIELD_IF_USING_PREEMPTION)); [done|by apply (qi_send lk _ q Q'); [|apply set_queue_lookup]|done|].
  intros k' I2 Sg Kp Hsu. wpq_step. by apply (HP _ Q').
Qed.

Lemma wp_xQueueSemaphoreTake_try lk q Q xs ticks entry P s :
  qinv lk s → queues s !! q = Some Q → ring Q xs → uxItemSize Q = 0 →
  received ticks entry q Q xs tail (xTasksWaitingToSend q) P lk s →
  wpq (xQueueSemaphoreTake_try q ticks entry) P s.
Proof.
  intros I HQ R Hz HP. unfold xQueueSemaphoreTake_try. wpq_step. apply (wpq_getq _ Q); [done|]. cbv zeta.
  rewrite (ring_nonempty Q xs R). destruct xs as [|x ys]; [by apply wp_receive_failed|].
  pose proof (ring_no_data Q _ R Hz) as [-> Hnil]%Forall_cons.
  set (Q' := set_uxMessagesWaiting (u32 (uxMessagesWaiting Q - 1)) Q).
  assert (R' : ring Q' ys).
  { pose proof R as [r Ra]. pose proof (rg_waiting _ _ _ Ra) as Hn. pose proof (rg_fits _ _ _ Ra) as Hf. simpl in Hn, Hf.
    apply (ring_recount Q _ _ _ R); [done|done|lia|lia]. }
  assert (S' : same_queue Q Q') by by constructor. pose proof (qinv_same _ _ _ _ _ _ I HQ R' S') as I'.
  wpq_step. apply (wpq_updq _ Q); [done|]. apply wpq_bind_assoc.
  apply (wp_signal _ lk (λ y, whenq y queueYIELD_IF_USING_PREEMPTION)); [done|by apply (qi_send lk _ q Q'); [|apply set_queue_lookup]|done|].
  intros k' I2 Sg Kp Hsu. wpq_step. by apply (HP _ Q').
Qed.

Lemma wp_xQueuePeek_try lk q Q xs ticks entry P s :
  qinv lk s → queues s !! q = Some Q → ring Q xs →
  received ticks entry q Q xs id (xTasksWaitingToReceive q) P lk s →
  wpq (xQueuePeek_try q ticks entry) P s.
Proof.
  intros I HQ R HP. unfold xQueuePeek_try. wpq_step. apply (wpq_getq _ Q); [done|]. cbv zeta.
  rewrite (ring_nonempty Q xs R). destruct xs as [|x ys]; [by apply wp_receive_failed|].
  wpq_step. apply (wp_prvCopyDataFromQueue q Q x ys); [done..|]. intros Q1 S1 E1 _ _.
  wpq_step. eapply wpq_updq; [apply set_queue_lookup|]. rewrite set_queue_twice, E1.
  pose proof (qinv_same _ _ _ _ _ _ I HQ R (reflexivity Q)) as I'. apply wpq_bind_assoc.
  apply (wp_signal _ lk (λ y, whenq y queueYIELD_IF_USING_PREEMPTION)); [done|by apply (qi_receive lk _ q Q); [|apply set_queue_lookup]|done|].
  intros k' I2 Sg Kp Hsu. wpq_step. by apply (HP _ Q).
Qed.

Lemma ring_reset Q xs : ring Q xs →
  (1 <=? uxLength Q) && (uxItemSize Q <=? SIZE_MAX / uxLength Q) = true ∧
  ring (MkQueue (storage Q) 0 (u32 (uxLength Q * uxItemSize Q)) (u32 ((uxLength Q - 1) * uxItemSize Q)) 0
    (uxLength Q) (uxItemSize Q) queueUNLOCKED queueUNLOCKED) [].
Proof.
  intros [r [L1 L2 L3 L4 L5 L6 L7 L8 L9 L10 L11]]. split.
  - apply andb_true_iff. rewrite !Z.leb_le. split; [lia|]. apply Z.div_le_lower_bound; unfold SIZE_MAX; lia.
  - exists (uxLength Q - 1). constructor; simpl; try done; try lia.
    + apply u32_id. unfold is_u32. nia.
    + apply u32_id. unfold is_u32. nia.
    + rewrite Z.add_0_r, Z.sub_add, Z.mod_same by lia. lia.
Qed.

(** Resetting empties the queue and lets the first sender in. *)
Lemma wp_xQueueGenericReset q Q xs P s :
  qinv None s → queues s !! q = Some Q → ring Q xs →
  (∀ s' Q', qinv None s' → step_on q Q' (signalled (xTasksWaitingToSend q)) s s' → ring Q' [] → same_queue Q Q' → P true s') →
  wpq (xQueueGenericReset q false) P s.
Proof.
  intros I HQ R HP. unfold xQueueGenericReset. wpq_step. apply (wpq_getq _ Q); [done|].
  destruct (ring_reset Q xs R) as [-> R']. cbv zeta. wpq_step. apply (wpq_updq _ Q); [done|].
  set (Q' := MkQueue (storage Q) _ _ _ _ _ _ _ _) in *.
  assert (S' : same_queue Q Q') by (constructor; simpl; [done..|symmetry; by apply (qi_queues _ _ I _ _ HQ)
    |symmetry; by apply (qi_queues _ _ I _ _ HQ)]).
  pose proof (qinv_same _ _ _ _ _ _ I HQ R' S') as I'. wpq_step.
  apply (wp_signal _ None (λ y, whenq y queueYIELD_IF_USING_PREEMPTION)); [done|by apply (qi_send None _ q Q'); [|apply set_queue_lookup]|done|].
  intros k' I2 Sg Kp Hsu. wpq_step. by apply (HP _ Q').
Qed.

(** ** Creating and deleting *)

(** Memory for a queue at [q] with a storage area of [n] bytes. *)
Definition fresh_queue s q (mem : list Z) (n : Z) : Prop :=
  (5 < q)%positive ∧ queues s !! q = None ∧ Z.of_nat (length mem) = n ∧
  (∀ l, l = xTasksWaitingToSend q ∨ l = xTasksWaitingToReceive q →
     l ∈ a_mem (lists (kern s)) ∧ a_lists (lists (kern s)) !! l = None).

(** The sizes that [xQueueGenericCreate] accepts. *)
Definition size_ok (n z : Z) : bool :=
  (0 <? n) && (z <=? SIZE_MAX / n) && (u32 (n * z) <=? SIZE_MAX - sizeof_Queue_t).

Lemma size_ok_spec n z : 0 ≤ n < 4294967296 → 0 ≤ z →
  size_ok n z = true ↔ 1 ≤ n ∧ n * z + 72 < 4294967296.
Proof.
  intros Hn Hz. unfold size_ok, SIZE_MAX, sizeof_Queue_t. rewrite !andb_true_iff, Z.ltb_lt, !Z.leb_le. split.
  - intros [[H1 H2] H3]. assert (n * z ≤ 4294967295).
    { transitivity (n * (4294967295 / n)); [nia|]. apply Z.mul_div_le. lia. }
    rewrite u32_id in H3 by (unfold is_u32; nia). lia.
  - intros [H1 H2]. rewrite u32_id by (unfold is_u32; nia). split; [split; [lia|]|lia].
    apply Z.div_le_lower_bound; lia.
Qed.

Lemma wp_xQueueGenericCreate alloc n z P s :
  qinv None s → 0 ≤ n < 4294967296 → 0 ≤ z →
  (∀ b q mem, size_ok n z = true → b = n * z + sizeof_Queue_t → alloc b = Some (q, mem) → fresh_queue s q mem (n * z)) →
  (if size_ok n z then
     match alloc (n * z + sizeof_Queue_t) with
     | Some (q, mem) => ∀ s' Q, qinv None s' → queues s' = <[q := Q]> (queues s) → xQueueRegistry s' = xQueueRegistry s →
         ring Q [] → uxLength Q = n → uxItemSize Q = z →
         data (kern s') = data (kern s) → (∀ l i, holds (lists (kern s')) l i ↔ holds (lists (kern s)) l i) → P (Some q) s'
     | None => P None s
     end
   else P None s) →
  wpq (xQueueGenericCreate alloc n z) P s.
Proof.
  intros I Hn Hz Hal HP. unfold xQueueGenericCreate. fold (size_ok n z).
  destruct (size_ok n z) eqn:Es; [|by wpq_step]. pose proof (proj1 (size_ok_spec n z Hn Hz) Es) as [Hn1 Hb].
  replace (u32 (sizeof_Queue_t + u32 (n * z))) with (n * z + sizeof_Queue_t)
    by (rewrite (u32_id (n * z)) by (unfold is_u32; nia); rewrite u32_id; unfold sizeof_Queue_t, is_u32; nia).
  destruct (alloc (n * z + sizeof_Queue_t)) as [[q mem]|] eqn:Ea; [|by wpq_step].
  destruct (Hal _ _ _ eq_refl eq_refl Ea) as (Hq & Hnew & Hlen & Hmem).
  destruct (Hmem (xTasksWaitingToSend q)) as [Hm1 Hl1]; [by left|].
  destruct (Hmem (xTasksWaitingToReceive q)) as [Hm2 Hl2]; [by right|].
  set (Q0 := MkQueue mem 0 0 0 0 n z 0 0). set (s0 := set_queue q Q0 s).
  wpq_step. unfold prvInitialiseNewQueue. wpq_step. apply (wpq_returns _ _ s s0 ()); [done|].
  wpq_step. unfold xQueueGenericReset. wpq_step. apply (wpq_getq _ Q0); [apply set_queue_lookup|]. simpl.
  assert (H1 : (1 <=? n) && (z <=? SIZE_MAX / n) = true).
  { apply andb_true_iff. rewrite !Z.leb_le. split; [lia|]. apply Z.div_le_lower_bound; unfold SIZE_MAX; lia. }
  rewrite H1. wpq_step. eapply wpq_updq; [apply set_queue_lookup|]. unfold s0. rewrite set_queue_twice. simpl.
  set (Q1 := MkQueue mem 0 _ _ 0 n z queueUNLOCKED queueUNLOCKED).
  assert (R1 : ring Q1 []).
  { exists (n - 1). constructor; simpl; try done; try lia.
    - apply u32_id. unfold is_u32. nia.
    - apply u32_id. unfold is_u32. nia.
    - rewrite Z.add_0_r, Z.sub_add, Z.mod_same by lia. lia. }
  wpq_step. wpq_step. apply wpq_lift. apply (wp_new_list idle); simpl;
    [apply I|unfold xTasksWaitingToSend; lia|done|done|]. intros k1 I1 E1.
  wpq_step. apply wpq_lift. apply (wp_new_list idle); rewrite ?E1; simpl; [by rewrite <- E1|unfold xTasksWaitingToReceive; lia|done| |].
  { rewrite lookup_insert_ne; [done|]. unfold xTasksWaitingToSend, xTasksWaitingToReceive. congruence. }
  intros k2 I2 E2. do 4 wpq_step. apply (HP _ Q1); simpl; try done.
  - constructor; simpl; [done|]. intros q' Q'. rewrite lookup_insert_Some. intros [[<- <-]|[Hne HQ']].
    + constructor; [done| | |by exists []|done]; rewrite E2; simpl.
      * apply lookup_insert_is_Some'. right. rewrite lookup_insert_eq. by eexists.
      * rewrite lookup_insert_eq. by eexists.
    + destruct (qi_queues _ _ I _ _ HQ') as [O1 O2 O3 O4 O5]. constructor; try done; rewrite E2; simpl;
        rewrite !lookup_insert_is_Some'; auto.
  - by rewrite E2.
  - intros l i. rewrite E2. simpl. rewrite !set_alist_holds.
    assert (HH : ∀ l', a_lists (lists (kern s)) !! l' = None → ¬ holds (lists (kern s)) l' i)
      by (intros l' El (a & Ea' & _); congruence).
    case_decide as D2; [subst; simpl; rewrite elem_of_nil; split; [done|intros H; by destruct (HH _ Hl2)]|].
    rewrite set_alist_holds. case_decide as D1; [subst; simpl; rewrite elem_of_nil; split; [done|intros H; by destruct (HH _ Hl1)]|done].
Qed.

(** No task may wait on a queue that is deleted. *)
Definition no_waiters k q : Prop :=
  ∀ l i, l = xTasksWaitingToSend q ∨ l = xTasksWaitingToReceive q → ¬ holds (lists k) l i.

Lemma no_holds_nil A l a : a_lists A !! l = Some a → (∀ i, ¬ holds A l i) → elems a = [].
Proof.
  intros Ha Hn. destruct (elems a) as [|i xs] eqn:E; [done|]. destruct (Hn i). exists a. split; [done|]. rewrite E. by left.
Qed.

Lemma wp_vQueueDelete q Q P s :
  qinv None s → queues s !! q = Some Q → no_waiters (kern s) q →
  (∀ s', qinv None s' → queues s' = delete q (queues s) →
     (∀ l i, holds (lists (kern s')) l i ↔ holds (lists (kern s)) l i) → data (kern s') = data (kern s) →
     (∀ l, l = xTasksWaitingToSend q ∨ l = xTasksWaitingToReceive q → a_lists (lists (kern s')) !! l = None) → P () s') →
  wpq (vQueueDelete q) P s.
Proof.
  intros I HQ Hw HP. destruct (qi_queues _ _ I _ _ HQ) as [Hq [a1 H1] [a2 H2] _ _].
  set (s1 := match list_find (λ e, e.2 = Some q) (xQueueRegistry s) with
             | Some (i, _) => MkQK (kern s) (queues s) (<[i := (None, None)]> (xQueueRegistry s)) | None => s end).
  assert (Es : kern s1 = kern s ∧ queues s1 = queues s) by (unfold s1; by destruct (list_find _ _) as [[]|]).
  destruct Es as [Ek Eq]. unfold vQueueDelete. wpq_step.
  apply (wpq_returns _ _ s s1 ()); [done|].
  wpq_step. apply (wpq_getq _ Q); [by rewrite Eq|].
  wpq_step. apply wpq_lift. rewrite Ek. apply (wp_free_list idle _ a1); [apply I|unfold xTasksWaitingToSend; lia|done| |].
  { apply (no_holds_nil _ _ _ H1). intros i. apply Hw. by left. }
  intros k2 I2 E2. wpq_step. apply wpq_lift. simpl.
  apply (wp_free_list idle _ a2); [done|unfold xTasksWaitingToReceive; lia| | |].
  { rewrite E2. simpl. rewrite lookup_delete_ne; [done|]. unfold xTasksWaitingToSend, xTasksWaitingToReceive. congruence. }
  { apply (no_holds_nil _ _ _ H2). intros i. apply Hw. by right. }
  intros k3 I3 E3. eapply wpq_returns; [done|]. simpl. rewrite Eq.
  assert (EL : a_lists (lists k3) = delete (xTasksWaitingToReceive q) (delete (xTasksWaitingToSend q) (a_lists (lists (kern s)))))
    by (rewrite E3; simpl; by rewrite E2).
  apply HP; simpl; [|done| |by rewrite E3; simpl; rewrite E2|].
  - constructor; simpl; [done|]. intros q' Q' [Hne HQ']%lookup_delete_Some.
    destruct (qi_queues _ _ I _ _ HQ') as [O1 O2 O3 O4 O5].
    constructor; try done; rewrite EL, !lookup_delete_ne; try done;
      unfold xTasksWaitingToSend, xTasksWaitingToReceive; congruence.
  - intros l i. unfold holds. rewrite EL. split.
    + intros (a & [_ [_ Ha]%lookup_delete_Some]%lookup_delete_Some & Hi). by exists a.
    + intros (a & Ha & Hi). exists a. split; [|done].
      rewrite !lookup_delete_ne; [done|intros <-; apply (Hw (xTasksWaitingToSend q) i); [by left|by exists a]|
        intros <-; apply (Hw (xTasksWaitingToReceive q) i); [by right|by exists a]].
  - intros l [->| ->]; rewrite EL.
    + rewrite lookup_delete_ne, lookup_delete_eq; [done|]. unfold xTasksWaitingToSend, xTasksWaitingToReceive. congruence.
    + apply lookup_delete_eq.
Qed.
End ok.
