(* ===== verification/QueueWait.v ===== *)
(** * Interrupts and waiting

    What the functions for interrupts do to a queue, locked or not, and the
    part of a blocking function that runs with the scheduler suspended, with
    interrupts at any point of it. *)
From S2P Require Import Prelude RtosList KList Tasks TasksSim TasksInv TasksOk TasksApi TasksMain Queue QueueData QueueOk.
Local Open Scope Z_scope.
Implicit Types (A : astate) (k : akernel) (l : positive) (t : TaskHandle_t) (q : QueueHandle_t) (Q : Queue_t)
  (s : qkernel astate).

Section wait.
Context (idle : TaskHandle_t).

(** ** Functions called by interrupts *)

(** The lock count after an event on a locked queue. *)
Definition bump (n lock : Z) : Z := if u32 lock <? n then i8 (lock + 1) else lock.

(** An event: the first waiter of [l] is woken, or counted if locked. *)
Definition event (lock : Z) l k k' : Prop := if lock =? queueUNLOCKED then unblocked l k k' else k' = k.

Definition event_lock (n lock : Z) : Z := if lock =? queueUNLOCKED then lock else bump n lock.

Lemma event_stable lock l k k' : inv idle k → event lock l k k' → stable k k'.
Proof.
  intros I. unfold event. destruct (_ =? _); [by apply (unblocked_stable idle)|]. intros ->. apply stable_refl.
Qed.

(** A change of a lock count of the locked queue. *)
Lemma ring_locks Q xs rx tx : ring Q xs → ring (set_cTxLock tx (set_cRxLock rx Q)) xs.
Proof. intros [r []]. exists r. by constructor. Qed.

Lemma ring_set_tx Q xs tx : ring Q xs → ring (set_cTxLock tx Q) xs.
Proof. intros [r []]. exists r. by constructor. Qed.

Lemma ring_set_rx Q xs rx : ring Q xs → ring (set_cRxLock rx Q) xs.
Proof. intros [r []]. exists r. by constructor. Qed.

Lemma set_tx_id Q : set_cTxLock (cTxLock Q) Q = Q.
Proof. by destruct Q. Qed.

Lemma set_rx_id Q : set_cRxLock (cRxLock Q) Q = Q.
Proof. by destruct Q. Qed.

Lemma wp_IncrementTx q Q lock P s :
  queues s !! q = Some Q → cTxLock Q = lock →
  P () (set_queue q (set_cTxLock (bump (uxCurrentNumberOfTasks (data (kern s))) lock) Q) s) →
  wpq (prvIncrementQueueTxLock q lock) P s.
Proof.
  intros HQ El HP. unfold prvIncrementQueueTxLock, bump in *. wpq_step. apply wpq_lift. wp_step.
  wpq_step; intros E; rewrite E in HP.
  - apply (wpq_updq _ Q); [done|]. by destruct s.
  - rewrite <- El, set_tx_id, set_queue_id in HP by done. by destruct s.
Qed.

Lemma wp_IncrementRx q Q lock P s :
  queues s !! q = Some Q → cRxLock Q = lock →
  P () (set_queue q (set_cRxLock (bump (uxCurrentNumberOfTasks (data (kern s))) lock) Q) s) →
  wpq (prvIncrementQueueRxLock q lock) P s.
Proof.
  intros HQ El HP. unfold prvIncrementQueueRxLock, bump in *. wpq_step. apply wpq_lift. wp_step.
  wpq_step; intros E; rewrite E in HP.
  - apply (wpq_updq _ Q); [done|]. by destruct s.
  - rewrite <- El, set_rx_id, set_queue_id in HP by done. by destruct s.
Qed.

(** A queue whose lock count is not [queueUNLOCKED] is the locked one. *)
Lemma locked_queue lk s q Q : qinv idle lk s → queues s !! q = Some Q →
  cTxLock Q ≠ queueUNLOCKED ∨ cRxLock Q ≠ queueUNLOCKED → lk = Some q.
Proof.
  intros I HQ Hl. destruct (qi_queues _ _ _ I _ _ HQ) as [_ _ _ _ HU].
  case_bool_decide as E; [done|]. destruct (HU eq_refl). tauto.
Qed.

(** What an interrupt's function does: the queue becomes [Q'], an event
    happens on [l]. *)
Record isr_step q Q' lock l s s' : Prop := {
  is_kern : event lock l (kern s) (kern s');
  is_kept : lists_kept (kern s) (kern s');
  is_queue : queues s' = <[q := Q']> (queues s);
  is_registry : xQueueRegistry s' = xQueueRegistry s }.

(** After the data is in place: wake or count. *)
Lemma wp_send_event lk q Q Q1 xs P s :
  qinv idle lk s → queues s !! q = Some Q → ring Q1 xs → same_queue Q Q1 →
  (∀ s' y, let Q' := set_cTxLock (event_lock (uxCurrentNumberOfTasks (data (kern s))) (cTxLock Q)) Q1 in
     qinv idle lk s' → isr_step q Q' (cTxLock Q) (xTasksWaitingToReceive q) s s' → P (true, y) s') →
  wpq (if cTxLock Q =? queueUNLOCKED then w ← lift (unblock_first (xTasksWaitingToReceive q)); mret (true, w)
       else prvIncrementQueueTxLock q (cTxLock Q);; mret (true, false)) P (set_queue q Q1 s).
Proof.
  intros I HQ R S HP. pose proof (qinv_same _ _ _ _ _ _ _ I HQ R S) as I1. unfold event_lock, event in *.
  destruct (Z.eqb_spec (cTxLock Q) queueUNLOCKED) as [E|E]; simpl in HP.
  - rewrite <- (sq_tx _ _ S), set_tx_id in HP. wpq_step. apply wpq_lift.
    apply (wp_unblock_first idle); [apply I1|by eapply qi_receive, set_queue_lookup|].
    intros k' y I' U Kp. wpq_step. apply HP; [by apply qinv_kern|]. constructor; simpl; [|done..].
    unfold event. by rewrite (sq_tx _ _ S), E.
  - wpq_step. apply (wp_IncrementTx _ Q1); [apply set_queue_lookup|apply S|]. wpq_step. rewrite set_queue_twice.
    apply HP; [|constructor; simpl; try done; unfold event; by rewrite (proj2 (Z.eqb_neq _ _))].
    eapply qinv_queue; [done..|by apply ring_set_tx|done|]. intros Hl. destruct Hl.
    apply (locked_queue _ _ _ _ I HQ). by left.
Qed.

Lemma wp_receive_event {R} (r : R) lk q Q Q1 xs P s :
  qinv idle lk s → queues s !! q = Some Q → ring Q1 xs → same_queue Q Q1 →
  (∀ s' y, let Q' := set_cRxLock (event_lock (uxCurrentNumberOfTasks (data (kern s))) (cRxLock Q)) Q1 in
     qinv idle lk s' → isr_step q Q' (cRxLock Q) (xTasksWaitingToSend q) s s' → P (Some r, y) s') →
  wpq (if cRxLock Q =? queueUNLOCKED then w ← lift (unblock_first (xTasksWaitingToSend q)); mret (Some r, w)
       else prvIncrementQueueRxLock q (cRxLock Q);; mret (Some r, false)) P (set_queue q Q1 s).
Proof.
  intros I HQ R' S HP. pose proof (qinv_same _ _ _ _ _ _ _ I HQ R' S) as I1. unfold event_lock, event in *.
  destruct (Z.eqb_spec (cRxLock Q) queueUNLOCKED) as [E|E]; simpl in HP.
  - rewrite <- (sq_rx _ _ S), set_rx_id in HP. wpq_step. apply wpq_lift.
    apply (wp_unblock_first idle); [apply I1|by eapply qi_send, set_queue_lookup|].
    intros k' y I' U Kp. wpq_step. apply HP; [by apply qinv_kern|]. constructor; simpl; [|done..].
    unfold event. by rewrite (sq_rx _ _ S), E.
  - wpq_step. apply (wp_IncrementRx _ Q1); [apply set_queue_lookup|apply S|]. wpq_step. rewrite set_queue_twice.
    apply HP; [|constructor; simpl; try done; unfold event; by rewrite (proj2 (Z.eqb_neq _ _))].
    eapply qinv_queue; [done..|by apply ring_set_rx|done|]. intros Hl. destruct Hl.
    apply (locked_queue _ _ _ _ I HQ). by right.
Qed.

Lemma wp_xQueueGenericSendFromISR lk q Q xs item pos P s :
  qinv idle lk s → queues s !! q = Some Q → ring Q xs → may_send Q item pos →
  (if room Q pos then
     ∀ s' y Q1, let Q' := set_cTxLock (event_lock (uxCurrentNumberOfTasks (data (kern s))) (cTxLock Q)) Q1 in
       qinv idle lk s' → isr_step q Q' (cTxLock Q) (xTasksWaitingToReceive q) s s' →
       ring Q1 (enqueue pos (sent_item Q item) xs) → same_queue Q Q1 → P (true, y) s'
   else P (false, false) s) →
  wpq (xQueueGenericSendFromISR q item pos) P s.
Proof.
  intros I HQ R Hs HP. unfold xQueueGenericSendFromISR. wpq_step. apply (wpq_getq _ Q); [done|]. fold (room Q pos).
  destruct (room Q pos) eqn:Er; [|by wpq_step]. cbv zeta. wpq_step.
  apply (wp_prvCopyDataToQueue q item pos Q xs); [done|done|apply Hs|by eapply room_may_enqueue|].
  intros Q1 R1 S1. eapply (wp_send_event lk q Q Q1); [done..|]. cbv zeta. intros s' y I' St. by apply (HP s' y Q1).
Qed.

Lemma wp_xQueueGiveFromISR lk q Q xs P s :
  qinv idle lk s → queues s !! q = Some Q → ring Q xs → uxItemSize Q = 0 →
  (if uxMessagesWaiting Q <? uxLength Q then
     ∀ s' y Q1, let Q' := set_cTxLock (event_lock (uxCurrentNumberOfTasks (data (kern s))) (cTxLock Q)) Q1 in
       qinv idle lk s' → isr_step q Q' (cTxLock Q) (xTasksWaitingToReceive q) s s' →
       ring Q1 (xs ++ [[]]) → same_queue Q Q1 → P (true, y) s'
   else P (false, false) s) →
  wpq (xQueueGiveFromISR q) P s.
Proof.
  intros I HQ R Hz HP. unfold xQueueGiveFromISR. wpq_step. apply (wpq_getq _ Q); [done|]. cbv zeta.
  destruct (Z.ltb_spec (uxMessagesWaiting Q) (uxLength Q)) as [Hlt|_]; [|by wpq_step].
  set (Q1 := set_uxMessagesWaiting (u32 (uxMessagesWaiting Q + 1)) Q).
  assert (R1 : ring Q1 (xs ++ [[]])).
  { pose proof R as [r Ra]. pose proof (rg_waiting _ _ _ Ra). apply (ring_recount Q xs); [done|done| | |lia].
    - apply Forall_app. split; [by apply (ring_no_data Q)|by constructor].
    - rewrite length_app. simpl. lia. }
  assert (S1 : same_queue Q Q1) by by constructor.
  wpq_step. apply (wpq_updq _ Q); [done|]. eapply (wp_send_event lk q Q Q1); [done..|]. cbv zeta.
  intros s' y I' St. by apply (HP s' y Q1).
Qed.

Lemma wp_xQueueReceiveFromISR lk q Q xs P s :
  qinv idle lk s → queues s !! q = Some Q → ring Q xs →
  match xs with
  | x :: ys =>
     ∀ s' y Q1, let Q' := set_cRxLock (event_lock (uxCurrentNumberOfTasks (data (kern s))) (cRxLock Q)) Q1 in
       qinv idle lk s' → isr_step q Q' (cRxLock Q) (xTasksWaitingToSend q) s s' →
       ring Q1 ys → same_queue Q Q1 → P (Some x, y) s'
  | [] => P (None, false) s
  end →
  wpq (xQueueReceiveFromISR q) P s.
Proof.
  intros I HQ R HP. unfold xQueueReceiveFromISR. wpq_step. apply (wpq_getq _ Q); [done|]. cbv zeta.
  rewrite (ring_nonempty Q xs R). destruct xs as [|x ys]; [by wpq_step|].
  wpq_step. apply (wp_prvCopyDataFromQueue q Q x ys); [done..|]. intros Q1 S1 _ _ R1.
  wpq_step. eapply wpq_updq; [apply set_queue_lookup|]. rewrite set_queue_twice.
  set (Q2 := set_uxMessagesWaiting _ Q1) in *. assert (S2 : same_queue Q Q2) by (by etrans).
  eapply (wp_receive_event x lk q Q Q2); [done..|]. cbv zeta. intros s' y I' St. by apply (HP s' y Q2).
Qed.

Lemma wp_xQueuePeekFromISR q Q xs P s :
  queues s !! q = Some Q → ring Q xs → P (head xs) s → wpq (xQueuePeekFromISR q) P s.
Proof.
  intros HQ R HP. unfold xQueuePeekFromISR. wpq_step. apply (wpq_getq _ Q); [done|].
  rewrite (ring_nonempty Q xs R). destruct xs as [|x ys]; [by wpq_step|]. cbv zeta.
  wpq_step. apply (wp_prvCopyDataFromQueue q Q x ys); [done..|]. intros Q1 S1 E1 _ _.
  wpq_step. eapply wpq_updq; [apply set_queue_lookup|]. rewrite set_queue_twice, E1, set_queue_id by done. by wpq_step.
Qed.

(** ** Interrupts *)
Inductive icall :=
  | ITick
  | ISend q (item : list Z) (pos : xCopyPosition_t)
  | IGive q
  | IReceive q
  | IPeek q.

Definition run_icall `{KLists L} (c : icall) : QM L unit :=
  match c with
  | ITick => lift vTickISR
  | ISend q item pos => xQueueGenericSendFromISR q item pos;; mret ()
  | IGive q => xQueueGiveFromISR q;; mret ()
  | IReceive q => xQueueReceiveFromISR q;; mret ()
  | IPeek q => xQueuePeekFromISR q;; mret ()
  end.

Fixpoint run_icalls `{KLists L} (cs : list icall) : QM L unit :=
  match cs with
  | [] => mret ()
  | c :: cs => run_icall c;; run_icalls cs
  end.

(** The handle is that of a queue, of the kind that the function asks for. *)
Definition ipermitted s (c : icall) : Prop :=
  match c with
  | ITick => True
  | ISend q item pos => ∃ Q, queues s !! q = Some Q ∧ may_send Q item pos
  | IGive q => ∃ Q, queues s !! q = Some Q ∧ uxItemSize Q = 0
  | IReceive q | IPeek q => is_Some (queues s !! q)
  end.

(** What such a call does while the scheduler is suspended. *)
Definition ieffect (c : icall) s s' : Prop :=
  match c with
  | ITick => s' = set_kern (MkKernel (lists (kern s)) (set_xPendedTicks (u32 (xPendedTicks (data (kern s)) + 1)) (data (kern s)))) s
  | ISend q item pos => ∃ Q xs, queues s !! q = Some Q ∧ ring Q xs ∧
      if room Q pos then ∃ Q1, ring Q1 (enqueue pos (sent_item Q item) xs) ∧ same_queue Q Q1 ∧
        isr_step q (set_cTxLock (event_lock (uxCurrentNumberOfTasks (data (kern s))) (cTxLock Q)) Q1) (cTxLock Q)
          (xTasksWaitingToReceive q) s s'
      else s' = s
  | IGive q => ∃ Q xs, queues s !! q = Some Q ∧ ring Q xs ∧
      if uxMessagesWaiting Q <? uxLength Q then ∃ Q1, ring Q1 (xs ++ [[]]) ∧ same_queue Q Q1 ∧
        isr_step q (set_cTxLock (event_lock (uxCurrentNumberOfTasks (data (kern s))) (cTxLock Q)) Q1) (cTxLock Q)
          (xTasksWaitingToReceive q) s s'
      else s' = s
  | IReceive q => ∃ Q xs, queues s !! q = Some Q ∧ ring Q xs ∧
      match xs with
      | x :: ys => ∃ Q1, ring Q1 ys ∧ same_queue Q Q1 ∧
          isr_step q (set_cRxLock (event_lock (uxCurrentNumberOfTasks (data (kern s))) (cRxLock Q)) Q1) (cRxLock Q)
            (xTasksWaitingToSend q) s s'
      | [] => s' = s
      end
  | IPeek q => s' = s
  end.

Lemma wp_run_icall lk c s :
  qinv idle lk s → uxSchedulerSuspended (data (kern s)) ≠ 0 → ipermitted s c →
  wpq (run_icall c) (λ _ s', qinv idle lk s' ∧ ieffect c s s') s.
Proof.
  intros I Hs Pc. destruct c as [|q item pos|q|q|q]; simpl in *.
  - apply wpq_lift. apply wp_kept; [intros X M; ksim|]. apply (wp_vTickISR idle); [apply I|]. intros k' I' Ek Kp.
    rewrite (proj2 (Z.eqb_neq _ _)) in Ek by done. rewrite Ek in *. split; [by apply qinv_kern|done].
  - destruct Pc as (Q & HQ & Hm). destruct (qi_ring _ _ _ _ _ I HQ) as [xs R].
    wpq_step. apply (wp_xQueueGenericSendFromISR lk q Q xs); [done..|].
    destruct (room Q pos) eqn:Er; [cbv zeta; intros s' y Q1 I' St R1 S1|]; wpq_step; (split; [done|]);
      exists Q, xs; rewrite Er; (split; [done|split; [done|]]); first [done|by exists Q1].
  - destruct Pc as (Q & HQ & Hz). destruct (qi_ring _ _ _ _ _ I HQ) as [xs R].
    wpq_step. apply (wp_xQueueGiveFromISR lk q Q xs); [done..|].
    destruct (uxMessagesWaiting Q <? uxLength Q) eqn:Er; [cbv zeta; intros s' y Q1 I' St R1 S1|]; wpq_step; (split; [done|]);
      exists Q, xs; rewrite Er; (split; [done|split; [done|]]); first [done|by exists Q1].
  - destruct Pc as (Q & HQ). destruct (qi_ring _ _ _ _ _ I HQ) as [xs R].
    wpq_step. apply (wp_xQueueReceiveFromISR lk q Q xs); [done..|].
    destruct xs as [|x ys] eqn:Er; [|cbv zeta; intros s' y Q1 I' St R1 S1]; wpq_step; (split; [done|]).
    + by exists Q, [].
    + exists Q, (x :: ys). split; [done|split; [done|]]. by exists Q1.
  - destruct Pc as (Q & HQ). destruct (qi_ring _ _ _ _ _ I HQ) as [xs R].
    wpq_step. apply (wp_xQueuePeekFromISR q Q xs); [done..|]. by wpq_step.
Qed.

(** The queues are the same ones, with the same sizes. *)
Definition shapes s s' : Prop :=
  ∀ q, (λ Q, (uxLength Q, uxItemSize Q)) <$> queues s' !! q = (λ Q, (uxLength Q, uxItemSize Q)) <$> queues s !! q.

Lemma shapes_refl s : shapes s s.
Proof. done. Qed.

Lemma shapes_trans s1 s2 s3 : shapes s1 s2 → shapes s2 s3 → shapes s1 s3.
Proof. intros H1 H2 q. by rewrite H2. Qed.

Lemma shapes_queue s q Q Q' k :
  queues s !! q = Some Q → uxLength Q' = uxLength Q → uxItemSize Q' = uxItemSize Q → shapes s (set_queue q Q' (set_kern k s)).
Proof.
  intros HQ E1 E2 q'. simpl. destruct (decide (q = q')) as [<-|Hne].
  - rewrite lookup_insert_eq, HQ. simpl. by rewrite E1, E2.
  - by rewrite lookup_insert_ne.
Qed.

Lemma shapes_lookup s s' q Q : shapes s s' → queues s !! q = Some Q →
  ∃ Q', queues s' !! q = Some Q' ∧ uxLength Q' = uxLength Q ∧ uxItemSize Q' = uxItemSize Q.
Proof.
  intros H HQ. specialize (H q). rewrite HQ in H. simpl in H. apply fmap_Some in H as (Q' & E & [= -> ->]). by exists Q'.
Qed.

Lemma shapes_permitted s s' c : shapes s s' → ipermitted s c → ipermitted s' c.
Proof.
  intros H. destruct c as [|q item pos|q|q|q]; simpl; [done|..].
  - intros (Q & HQ & Hm). destruct (shapes_lookup _ _ _ _ H HQ) as (Q' & HQ' & E1 & E2). exists Q'. split; [done|].
    unfold may_send in *. by rewrite E1, E2.
  - intros (Q & HQ & Hz). destruct (shapes_lookup _ _ _ _ H HQ) as (Q' & HQ' & E1 & E2). exists Q'. by rewrite E2.
  - intros (Q & HQ). destruct (shapes_lookup _ _ _ _ H HQ) as (Q' & HQ' & _). by exists Q'.
  - intros (Q & HQ). destruct (shapes_lookup _ _ _ _ H HQ) as (Q' & HQ' & _). by exists Q'.
Qed.

Lemma isr_step_stable q Q' lock l s s' Q :
  inv idle (kern s) → isr_step q Q' lock l s s' → queues s !! q = Some Q → uxLength Q' = uxLength Q → uxItemSize Q' = uxItemSize Q →
  stable (kern s) (kern s') ∧ shapes s s'.
Proof.
  intros I [Ek _ Eq _] HQ E1 E2. split; [by apply (event_stable lock l)|].
  intros q'. rewrite Eq. apply (shapes_queue s q Q Q' (kern s) HQ E1 E2 q').
Qed.

Lemma ieffect_stable c s s' : inv idle (kern s) → ieffect c s s' → stable (kern s) (kern s') ∧ shapes s s'.
Proof.
  intros I. destruct c as [|q item pos|q|q|q]; simpl.
  - intros ->. split; [by constructor|by intros q'].
  - intros (Q & xs & HQ & R & E). destruct (room Q pos); [|subst; split; [apply stable_refl|apply shapes_refl]].
    destruct E as (Q1 & _ & S & St). eapply isr_step_stable; [done..|apply S|apply S].
  - intros (Q & xs & HQ & R & E). destruct (_ <? _); [|subst; split; [apply stable_refl|apply shapes_refl]].
    destruct E as (Q1 & _ & S & St). eapply isr_step_stable; [done..|apply S|apply S].
  - intros (Q & xs & HQ & R & E). destruct xs; [subst; split; [apply stable_refl|apply shapes_refl]|].
    destruct E as (Q1 & _ & S & St). eapply isr_step_stable; [done..|apply S|apply S].
  - intros ->. split; [apply stable_refl|apply shapes_refl].
Qed.

(** A sequence of calls, with an assertion [J] that each of them keeps. *)
Lemma wp_run_icalls (J : qkernel astate → Prop) lk cs s :
  qinv idle lk s → uxSchedulerSuspended (data (kern s)) ≠ 0 → Forall (ipermitted s) cs →
  (∀ c s1 s2, qinv idle lk s1 → stable (kern s) (kern s1) → ipermitted s1 c → ieffect c s1 s2 → J s1 → J s2) → J s →
  wpq (run_icalls cs) (λ _ s', qinv idle lk s' ∧ stable (kern s) (kern s') ∧ shapes s s' ∧ J s') s.
Proof.
  intros I Hs Pc HJ H0. revert s I Hs Pc HJ H0. induction cs as [|c cs IH]; intros s I Hs Pc HJ H0; simpl.
  { wpq_step. split_and!; [done|apply stable_refl|apply shapes_refl|done]. }
  apply Forall_cons in Pc as [Pc Pcs]. wpq_step. eapply wpq_mono; [by apply wp_run_icall|].
  intros [] s1 [I1 E1]. destruct (ieffect_stable _ _ _ (qi_kernel _ _ _ I) E1) as [S1 H1].
  assert (Hs1 : uxSchedulerSuspended (data (kern s1)) = uxSchedulerSuspended (data (kern s)))
    by (pose proof (st_data _ _ S1) as E; by injection E).
  eapply wpq_mono; [apply IH|].
  - done.
  - by rewrite Hs1.
  - eapply Forall_impl; [exact Pcs|]. intros c'. by apply shapes_permitted.
  - intros c' s2 s3 I2 S2. apply HJ; [done|]. by eapply stable_trans.
  - eapply (HJ c s s1); [done|apply stable_refl|done..].
  - intros [] s2 (I2 & S2 & H2 & J2). split_and!; [done|by eapply stable_trans|by eapply shapes_trans|done].
Qed.
End wait.
