(* ===== verification/QueueBlock.v ===== *)
(** * Waiting on a queue

    A proof rule for the half of a blocking function that runs with the
    scheduler suspended, with assertions for its stages; by it no wake-up is
    lost, whatever the interrupts do between its critical sections. *)
From S2P Require Import Prelude RtosList KList Tasks TasksSim TasksInv TasksOk TasksApi TasksMain Queue QueueData QueueOk QueueWait.
Local Open Scope Z_scope.
Implicit Types (A : astate) (k : akernel) (l : positive) (t : TaskHandle_t) (q : QueueHandle_t) (Q : Queue_t)
  (s : qkernel astate).

(** ** The parts *)

(** [xTaskCheckForTimeOut] changes nothing. *)
Definition check_time (k : akernel) (to : Z * Z) (n : Z) : bool * (Z * Z) * Z :=
  let elapsed := u32 (xTickCount (data k) - to.2) in
  if n =? portMAX_DELAY then (false, to, n)
  else if negb (xNumOfOverflows (data k) =? to.1) && (to.2 <=? xTickCount (data k)) then (true, to, 0)
  else if elapsed <? n then (false, (xNumOfOverflows (data k), xTickCount (data k)), u32 (n - elapsed))
  else (true, to, 0).

Lemma wp_xTaskCheckForTimeOut to n P k : P (check_time k to n) k → wp (xTaskCheckForTimeOut to n) P k.
Proof.
  unfold xTaskCheckForTimeOut, check_time, vTaskSetTimeOutState. intros HP. do 4 wp_step.
  destruct (n =? portMAX_DELAY); [by wp_step|]. destruct (negb _ && _); [by wp_step|].
  destruct (_ <? _); [|by wp_step]. wp_step. do 5 wp_step. done.
Qed.

Lemma check_time_left k to n to' n' : check_time k to n = (false, to', n') → 0 < n < 4294967296 → 0 < n' < 4294967296.
Proof.
  unfold check_time. intros E Hn. destruct (n =? portMAX_DELAY); [by simplify_eq|]. destruct (negb _ && _); [done|].
  destruct (Z.ltb_spec (u32 (xTickCount (data k) - to.2)) n); simplify_eq.
  pose proof (u32_range (xTickCount (data k) - to.2)). rewrite u32_id; unfold is_u32 in *; lia.
Qed.

(** Resuming adds no waiter. *)
Lemma unpended_waits k k' l t : unpended k k' → holds (lists k') l (Ev t) → holds (lists k) l (Ev t).
Proof.
  intros [_ _ Wk Wr] Hh. apply Wr; [|done]. intros Hp. by apply (proj2 (Wk t Hp) l).
Qed.

Lemma ticks_waits n k k' l t : ticks n k k' → holds (lists k') l (Ev t) → holds (lists k) l (Ev t).
Proof.
  induction 1 as [k|n k k1 y k' _ _ Tk _ IH]; [done|]. intros Hh%IH. simpl in Hh.
  apply (tk_rest _ _ Tk); [|done]. intros Hd. by apply (proj2 (tk_due _ _ Tk t Hd) l).
Qed.

Lemma resumed_waits k k' l t : resumed k k' → holds (lists k') l (Ev t) → holds (lists k) l (Ev t).
Proof.
  intros (k1 & v & k2 & Up & Tk & Qu) Hh. apply (unpended_waits _ _ _ _ Up). apply (ticks_waits _ _ _ _ _ Tk).
  by apply (qu_place _ _ Qu t).
Qed.

Section block.
Context (idle : TaskHandle_t).

Definition locked_state Q : Queue_t := set_cTxLock queueLOCKED_UNMODIFIED (set_cRxLock queueLOCKED_UNMODIFIED Q).

Lemma wp_prvLockQueue q Q P s :
  qinv idle None s → queues s !! q = Some Q →
  (qinv idle (Some q) (set_queue q (locked_state Q) s) → P () (set_queue q (locked_state Q) s)) → wpq (prvLockQueue q) P s.
Proof.
  intros I HQ HP. destruct (qi_queues _ _ _ I _ _ HQ) as [_ _ _ [xs R] HU]. destruct HU as [H1 H2]; [done|].
  unfold prvLockQueue. wpq_step. apply (wpq_updq _ Q); [done|]. rewrite H1. simpl.
  eapply wpq_updq; [apply set_queue_lookup|]. rewrite set_queue_twice. unfold set_cRxLock at 1. simpl. rewrite H2. simpl.
  apply HP. eapply qinv_queue; [done..|by apply ring_set_tx, ring_set_rx| |done].
  intros q' Hne. split; [congruence|done].
Qed.

Lemma wp_prvUnlockQueue_tx q Q P s :
  qinv idle (Some q) s → queues s !! q = Some Q →
  (∀ k', qinv idle (Some q) (set_queue q (set_cTxLock queueUNLOCKED Q) (set_kern k' s)) → stable (kern s) k' →
     (0 < cTxLock Q → ∀ t, first_waiter (kern s) (xTasksWaitingToReceive q) t → ¬ holds (lists k') (xTasksWaitingToReceive q) (Ev t)) →
     P () (set_queue q (set_cTxLock queueUNLOCKED Q) (set_kern k' s))) →
  wpq (prvUnlockQueue_tx q) P s.
Proof.
  intros I HQ HP. unfold prvUnlockQueue_tx. wpq_step. apply (wpq_getq _ Q); [done|]. wpq_step. apply wpq_lift.
  apply (wp_unlock_loop idle); [apply I|by eapply qi_receive|]. intros k' I' St Kp Hf.
  apply (wpq_updq _ Q); [done|]. destruct (qi_ring _ _ _ _ _ I HQ) as [xs R]. apply HP; [|done|].
  - eapply qinv_queue; [by apply qinv_kern|done|by apply ring_set_tx|done|done].
  - intros H0. apply Hf. lia.
Qed.

Lemma wp_prvUnlockQueue_rx q Q P s :
  qinv idle (Some q) s → queues s !! q = Some Q → cTxLock Q = queueUNLOCKED →
  (∀ k', qinv idle None (set_queue q (set_cRxLock queueUNLOCKED Q) (set_kern k' s)) → stable (kern s) k' →
     (0 < cRxLock Q → ∀ t, first_waiter (kern s) (xTasksWaitingToSend q) t → ¬ holds (lists k') (xTasksWaitingToSend q) (Ev t)) →
     P () (set_queue q (set_cRxLock queueUNLOCKED Q) (set_kern k' s))) →
  wpq (prvUnlockQueue_rx q) P s.
Proof.
  intros I HQ Ht HP. unfold prvUnlockQueue_rx. wpq_step. apply (wpq_getq _ Q); [done|]. wpq_step. apply wpq_lift.
  apply (wp_unlock_loop idle); [apply I|by eapply qi_send|]. intros k' I' St Kp Hf.
  apply (wpq_updq _ Q); [done|]. destruct (qi_ring _ _ _ _ _ I HQ) as [xs R]. apply HP; [|done|].
  - eapply qinv_queue; [by apply qinv_kern|done|by apply ring_set_rx| |done].
    intros q' Hne. split; [done|congruence].
  - intros H0. apply Hf. lia.
Qed.

(** The Tx lock stays open once it is. *)
Definition tx_open q s : Prop := ∃ Q, queues s !! q = Some Q ∧ cTxLock Q = queueUNLOCKED.

Lemma isr_tx_open q q' Q' lock l s s' :
  isr_step q' Q' lock l s s' → (q' = q → cTxLock Q' = queueUNLOCKED) → tx_open q s → tx_open q s'.
Proof.
  intros [_ _ Eq _] Hq (Q & HQ & Ht). unfold tx_open. rewrite Eq. destruct (decide (q' = q)) as [->|].
  - exists Q'. rewrite lookup_insert_eq. auto.
  - exists Q. by rewrite lookup_insert_ne.
Qed.

Lemma ieffect_tx_open q c s s' : ieffect c s s' → tx_open q s → tx_open q s'.
Proof.
  destruct c as [|q' item pos|q'|q'|q']; simpl; [by intros ->| | | |by intros ->].
  - intros (Q & xs & HQ & _ & E) O. destruct (room Q pos); [|by subst].
    destruct E as (Q1 & _ & S & St). eapply isr_tx_open; [exact St| |done]. intros ->. destruct O as (Q2 & HQ2 & Ht). simplify_eq.
    simpl. by rewrite Ht.
  - intros (Q & xs & HQ & _ & E) O. destruct (_ <? _); [|by subst].
    destruct E as (Q1 & _ & S & St). eapply isr_tx_open; [exact St| |done]. intros ->. destruct O as (Q2 & HQ2 & Ht). simplify_eq.
    simpl. by rewrite Ht.
  - intros (Q & xs & HQ & _ & E) O. destruct xs; [by subst|].
    destruct E as (Q1 & _ & S & St). eapply isr_tx_open; [exact St| |done]. intros ->. destruct O as (Q2 & HQ2 & Ht). simplify_eq.
    simpl. by rewrite (sq_tx _ _ S).
Qed.

(** ** Assertions *)

(** Interrupts keep it. *)
Definition irq_closed (J : qkernel astate → Prop) : Prop :=
  ∀ lk c s s', qinv idle lk s → ipermitted s c → ieffect c s s' → J s → J s'.

(** So do unlocking [q] and resuming. *)
Record closed q (J : qkernel astate → Prop) : Prop := {
  cl_irq : irq_closed J;
  cl_tx s Q k' : qinv idle (Some q) s → queues s !! q = Some Q → stable (kern s) k' →
    (0 < cTxLock Q → ∀ t, first_waiter (kern s) (xTasksWaitingToReceive q) t → ¬ holds (lists k') (xTasksWaitingToReceive q) (Ev t)) →
    J s → J (set_queue q (set_cTxLock queueUNLOCKED Q) (set_kern k' s));
  cl_rx s Q k' : qinv idle (Some q) s → queues s !! q = Some Q → stable (kern s) k' →
    (0 < cRxLock Q → ∀ t, first_waiter (kern s) (xTasksWaitingToSend q) t → ¬ holds (lists k') (xTasksWaitingToSend q) (Ev t)) →
    J s → J (set_queue q (set_cRxLock queueUNLOCKED Q) (set_kern k' s));
  cl_resume s k' : qinv idle None s → resumed (kern s) k' → J s → J (set_kern k' s) }.

Lemma closed_true q : closed q (λ _, True).
Proof. by constructor. Qed.

Section rule.
Context (irqs : nat → list icall) (q : QueueHandle_t).
Abbreviation irq := (λ i, run_icalls (irqs i)).

Definition irqs_permitted s : Prop := ∀ i, Forall (ipermitted s) (irqs i).

Lemma irqs_shapes s s' : shapes s s' → irqs_permitted s → irqs_permitted s'.
Proof. intros H Pc i. eapply Forall_impl; [apply Pc|]. intros c. by apply shapes_permitted. Qed.

(** Interrupts at a point. *)
Lemma wp_irq (J : qkernel astate → Prop) i lk P s :
  qinv idle lk s → uxSchedulerSuspended (data (kern s)) = 1 → irqs_permitted s → irq_closed J → J s →
  (∀ s', qinv idle lk s' → uxSchedulerSuspended (data (kern s')) = 1 → irqs_permitted s' → stable (kern s) (kern s') →
     shapes s s' → J s' → P () s') →
  wpq (irq i) P s.
Proof.
  intros I Hs Pc HJ H0 HP. eapply wpq_mono; [apply (wp_run_icalls idle J lk); [done|by rewrite Hs|apply Pc| |done]|].
  - intros c s1 s2 I1 _. by apply (HJ lk).
  - intros [] s' (I' & St & Sh & J'). apply HP; [done| |by eapply irqs_shapes|done..].
    pose proof (st_data _ _ St) as E. injection E. congruence.
Qed.

(** From the unlocking on. *)
Lemma wp_finish (J : qkernel astate → Prop) (g : bool → waited) P s :
  qinv idle (Some q) s → uxSchedulerSuspended (data (kern s)) = 1 → irqs_permitted s → is_Some (queues s !! q) →
  closed q J → J s →
  (∀ s' y, qinv idle None s' → uxSchedulerSuspended (data (kern s')) = 0 → shapes s s' → J s' → P (g y) s') →
  wpq (prvUnlockQueue (irq 5%nat) q;; irq 6%nat;; y ← lift xTaskResumeAll; mret (g y)) P s.
Proof.
  intros I Hs Pc [Q HQ] HJ J0 HP. wpq_step. unfold prvUnlockQueue.
  wpq_step. apply (wp_prvUnlockQueue_tx q Q); [done..|]. intros k1 I1 St1 Hf1.
  set (s1 := set_queue q _ (set_kern k1 s)) in *.
  assert (J1 : J s1) by by apply (cl_tx _ _ HJ).
  assert (Sh1 : shapes s s1) by by apply (shapes_queue s q Q).
  assert (Hs1 : uxSchedulerSuspended (data (kern s1)) = 1).
  { pose proof (st_data _ _ St1) as E. injection E. simpl. congruence. }
  wpq_step. apply (wp_irq (λ s, J s ∧ tx_open q s) 5 (Some q)); [done|done|by eapply irqs_shapes| | |].
  { intros lk c s2 s3 I2 Pi E [H1 H2]. split; [by eapply (cl_irq _ _ HJ)|by eapply ieffect_tx_open]. }
  { split; [done|]. eexists. split; [apply set_queue_lookup|done]. }
  intros s2 I2 Hs2 Pc2 St2 Sh2 [J2 (Q2 & HQ2 & Ht2)].
  apply (wp_prvUnlockQueue_rx q Q2); [done..|]. intros k3 I3 St3 Hf3.
  set (s3 := set_queue q _ (set_kern k3 s2)) in *.
  assert (J3 : J s3) by by apply (cl_rx _ _ HJ).
  assert (Sh3 : shapes s2 s3) by by apply (shapes_queue s2 q Q2).
  assert (Hs3 : uxSchedulerSuspended (data (kern s3)) = 1).
  { pose proof (st_data _ _ St3) as E. injection E. simpl. congruence. }
  wpq_step. apply (wp_irq J 6 None); [done|done|by eapply irqs_shapes|apply HJ|done|].
  intros s4 I4 Hs4 Pc4 St4 Sh4 J4.
  wpq_step. apply wpq_lift. apply wp_kept; [intros X M; ksim|].
  apply (wp_xTaskResumeAll idle); [apply I4|done|]. intros k5 y I5 Re Hs5 Kp5. wpq_step. apply HP.
  - by apply qinv_kern.
  - done.
  - eapply shapes_trans; [exact Sh1|]. eapply shapes_trans; [exact Sh2|]. by eapply shapes_trans.
  - by apply (cl_resume _ _ HJ).
Qed.

(** ** The rule

    [full] is the test that makes the task wait; [J0] holds up to the locking,
    [J1] up to the test, [J3] up to the placing, [J4] from there on, [J5] where
    the task does not wait. *)
Context (l : positive) (full : Queue_t → bool) (blocked : QM astate bool) (c : TaskHandle_t) (J0 J1 J3 J4 J5 : qkernel astate → Prop).

Record stages : Prop := {
  sg_list : l = xTasksWaitingToSend q ∨ l = xTasksWaitingToReceive q;
  sg_test s Q : queues s !! q = Some Q → blocked s = Some (s, full Q);
  sg_irq0 : irq_closed J0;
  sg_irq1 : irq_closed J1;
  sg_irq3 : irq_closed J3;
  sg_lock s Q : qinv idle None s → queues s !! q = Some Q → J0 s → J1 (set_queue q (locked_state Q) s);
  sg_full s Q : queues s !! q = Some Q → full Q = true → J1 s → J3 s;
  sg_place s k' A1 n : inv idle (kern s) → running (kern s) c → moved (lists (kern s)) A1 (Ev c) (Some l) True →
    blocked_for n true c (MkKernel A1 (data (kern s))) k' → J3 s → J4 (set_kern k' s);
  sg_finish4 : closed q J4;
  sg_finish5 : closed q J5;
  sg_skip s : J1 s → J5 s }.

Lemma blocked_susp n b k k' : blocked_for n b c k k' → uxSchedulerSuspended (data k') = uxSchedulerSuspended (data k).
Proof. intros [(v & E) _ _ _]. by rewrite E. Qed.

Lemma wp_wait_on_queue to n P s :
  stages → qinv idle None s → uxSchedulerSuspended (data (kern s)) = 0 → running (kern s) c → c ≠ idle →
  0 < n < 4294967296 → irqs_permitted s → is_Some (queues s !! q) →
  (∀ k', k' = MkKernel (lists (kern s)) (set_uxSchedulerSuspended 1 (data (kern s))) → J0 (set_kern k' s)) →
  (∀ s' w, qinv idle None s' → uxSchedulerSuspended (data (kern s')) = 0 → shapes s s' →
     (w = Expired ∨ ∃ to' n' y, w = Again to' n' y ∧ 0 < n' < 4294967296) → (J4 s' ∨ J5 s') → P w s') →
  wpq (wait_on_queue irq q l blocked to n) P s.
Proof.
  intros [Hl Hblk H0 H1 H3 Hlock Hfull Hplace H4 H5 Hskip] I Hs R Hci Hn Pc [Q HQ] HJ0 HP. unfold wait_on_queue.
  wpq_step. apply wpq_lift. apply wp_kept; [intros X M; ksim|]. apply (wp_vTaskSuspendAll idle); [apply I|rewrite Hs; lia|].
  intros k1 E1 I1 Kp1. rewrite Hs in E1. specialize (HJ0 k1 E1).
  assert (Hs1 : uxSchedulerSuspended (data k1) = 1) by by rewrite E1.
  wpq_step. apply (wp_irq J0 0 None); [by apply qinv_kern|done|by eapply (irqs_shapes s)|done|done|].
  intros s2 I2 Hs2 Pc2 St2 Sh2 J02. destruct (shapes_lookup _ _ _ _ Sh2 HQ) as (Q2 & HQ2 & _).
  assert (R2 : running (kern s2) c) by (apply (stable_running _ _ _ St2); by rewrite E1).
  wpq_step. apply (wp_prvLockQueue q Q2); [done..|]. intros I3. set (s3 := set_queue q (locked_state Q2) s2) in *.
  assert (Sh3 : shapes s s3) by (eapply shapes_trans; [exact Sh2|by apply (shapes_queue s2 q Q2 _ (kern s2))]).
  wpq_step. apply (wp_irq J1 1 (Some q)); [done|done|by eapply irqs_shapes|done|by apply Hlock|].
  intros s4 I4 Hs4 Pc4 St4 Sh4 J14. simpl in St4.
  wpq_step. apply wpq_lift. apply wp_xTaskCheckForTimeOut.
  destruct (check_time (kern s4) to n) as [[expired to'] n'] eqn:Ec. replace (set_kern (kern s4) s4) with s4 by by destruct s4.
  wpq_step. apply (wp_irq J1 2 (Some q)); [done..|]. intros s5 I5 Hs5 Pc5 St5 Sh5 J15.
  assert (Sh : shapes s s5) by by eapply shapes_trans, shapes_trans.
  destruct (shapes_lookup _ _ _ _ Sh HQ) as (Q5 & HQ5 & _).
  assert (R5 : running (kern s5) c) by by apply (stable_running _ _ _ St5), (stable_running _ _ _ St4).
  destruct expired; simpl.
  { apply (wp_finish J5 (λ _, Expired)); [done|done|done|by exists Q5|done|by apply Hskip|].
    intros s' y I' Hs' Sh' J'. apply HP; [done|done|by eapply shapes_trans|by left|by right]. }
  pose proof (check_time_left _ _ _ _ _ Ec Hn) as Hn'.
  assert (Hres : ∀ s' y, Again to' n' y = Expired ∨ ∃ to0 n0 y0, Again to' n' y = Again to0 n0 y0 ∧ 0 < n0 < 4294967296)
    by (intros _ y; right; by exists to', n', y).
  wpq_step. eapply wpq_returns; [by apply Hblk|].
  destruct (full Q5) eqn:Ef.
  - wpq_step. apply (wp_irq J3 3 (Some q)); [done|done|done|done|by eapply Hfull|].
    intros s6 I6 Hs6 Pc6 St6 Sh6 J36. destruct (shapes_lookup _ _ _ _ Sh6 HQ5) as (Q6 & HQ6 & _).
    pose proof (stable_running _ _ _ St6 R5) as R6.
    wpq_step. apply wpq_lift. apply wp_kept; [intros X M; ksim|].
    apply (wp_vTaskPlaceOnEventList idle l n' c); [apply I6|done..| |].
    { destruct Hl as [->| ->]; [by eapply qi_send|by eapply qi_receive]. }
    intros k7 A1 I7 M B Kp7. wpq_step. apply (wp_irq J4 4 (Some q)); [by apply qinv_kern| |done|apply H4|by apply (Hplace s6 k7 A1 n'); [apply I6|..]|].
    { simpl. rewrite (blocked_susp _ _ _ _ B). done. }
    intros s8 I8 Hs8 Pc8 St8 Sh8 J48. assert (Sh68 : shapes s6 s8) by done.
    apply (wp_finish J4 (λ y, Again to' n' (negb y))); [done|done|done| |done|done|].
    + destruct (shapes_lookup _ _ _ _ Sh68 HQ6) as (Q8 & HQ8 & _). by exists Q8.
    + intros s' y I' Hs' Sh' J'. apply HP; [done|done| |by apply Hres|by left].
      eapply shapes_trans; [exact Sh|]. eapply shapes_trans; [exact Sh6|]. by eapply shapes_trans.
  - wpq_step. apply (wp_irq J1 3 (Some q)); [done..|]. intros s6 I6 Hs6 Pc6 St6 Sh6 J16.
    apply (wp_finish J5 (λ _, Again to' n' false)); [done|done|done| |done|by apply Hskip|].
    + destruct (shapes_lookup _ _ _ _ Sh6 HQ5) as (Q8 & HQ8 & _). by exists Q8.
    + intros s' y I' Hs' Sh' J'. apply HP; [done|done| |by apply (Hres s')|by right].
      eapply shapes_trans; [exact Sh|]. by eapply shapes_trans.
Qed.
End rule.
End block.
