(* ===== verification/QueueWake.v ===== *)
(** * No wake-up is lost

    A task that finds a queue empty (or full) and goes to sleep on it is still
    asleep when the wait has been set up only if the queue is empty (full)
    then, although interrupts send to and receive from the queue at every
    point in between. *)
From S2P Require Import Prelude RtosList KList Tasks TasksSim TasksInv TasksOk TasksApi TasksMain Queue.
From S2P Require Import QueueData QueueOk QueueWait QueueBlock.
Local Open Scope Z_scope.
Implicit Types (k : akernel) (l : positive) (t : TaskHandle_t) (q : QueueHandle_t) (Q : Queue_t) (s : qkernel astate).

(** ** The two directions *)
Inductive side := ToReceive | ToSend.

Definition side_list (d : side) q : positive :=
  match d with ToReceive => xTasksWaitingToReceive q | ToSend => xTasksWaitingToSend q end.
Definition side_lock (d : side) Q : Z := match d with ToReceive => cTxLock Q | ToSend => cRxLock Q end.
Definition side_full (d : side) Q : bool :=
  match d with ToReceive => uxMessagesWaiting Q =? 0 | ToSend => uxMessagesWaiting Q =? uxLength Q end.

Definition ntasks k : Z := Z.of_nat (size (tcbs (data k))).

Section wake.
Context (idle : TaskHandle_t) (d : side) (q : QueueHandle_t) (c : TaskHandle_t).
Local Abbreviation L := (side_list d q).

Definition no_waiter k : Prop := ∀ t, ¬ holds (lists k) L (Ev t).

(** A lock count in range: the queue is open, or locked and the count has not
    overflowed. *)
Definition lock_range Q : Prop := side_lock d Q = queueUNLOCKED ∨ 0 ≤ side_lock d Q ≤ 127.

(** The signal for [c] is safe: there is nothing to wait for, or nobody waits
    any more, or the lock count will wake [c]. *)
Definition safe k Q : Prop :=
  side_full d Q = true ∨ if side_lock d Q =? queueUNLOCKED then no_waiter k else 0 < side_lock d Q.

Record signal_safe s : Prop := {
  ss_only : ∀ t, holds (lists (kern s)) L (Ev t) → t = c;
  ss_tasks : ntasks (kern s) ≤ 127;
  ss_queue : ∃ Q, queues s !! q = Some Q ∧ lock_range Q ∧ safe (kern s) Q }.

Lemma queue_event s lk Q : qinv idle lk s → queues s !! q = Some Q → (10 < L)%positive.
Proof.
  intros I HQ. destruct (qi_queues _ _ _ I _ _ HQ).
  unfold side_list, xTasksWaitingToReceive, xTasksWaitingToSend. destruct d; lia.
Qed.

Lemma stable_tasks k k' : stable k k' → ntasks k' = ntasks k.
Proof. intros S. pose proof (st_data _ _ S) as E. unfold ntasks. injection E. congruence. Qed.

Lemma number_tasks k : inv idle k → uxCurrentNumberOfTasks (data k) = ntasks k ∧ 1 ≤ ntasks k.
Proof.
  intros I. split; [apply (ct_tasks _ _ (co_counted _ _ _ _ _ _ _ (inv_core _ _ I)))|].
  destruct (wf_current _ _ _ _ _ (co_wf _ _ _ _ _ _ _ (inv_core _ _ I))) as (c' & _ & [T HT]). unfold ntasks.
  assert (size (tcbs (data k)) ≠ 0)%nat; [|lia]. intros E. apply map_size_empty_inv in E. by rewrite E in HT.
Qed.

Lemma bump_positive n lock : 1 ≤ n ≤ 127 → 0 ≤ lock ≤ 127 → 0 < bump n lock ≤ 127.
Proof.
  intros Hn Hl. unfold bump. rewrite u32_id by (unfold is_u32; lia). destruct (Z.ltb_spec lock n); [|lia].
  unfold i8. rewrite Z.mod_small by lia. lia.
Qed.

(** Only [c] waits, and the first waiter leaves: nobody waits. *)
Lemma none_left k k' :
  inv idle k → (10 < L)%positive → (∀ t, holds (lists k) L (Ev t) → t = c) → stable k k' →
  (∀ t, first_waiter k L t → ¬ holds (lists k') L (Ev t)) → no_waiter k'.
Proof.
  intros I Hl Ho St Hf t Ht. pose proof (st_wait _ _ St _ _ Hl Ht) as Hk. pose proof Hk as (a & Ha & Hi).
  destruct (elems a) as [|i xs] eqn:E; [by apply elem_of_nil in Hi|].
  destruct (event_waiter idle k L a i xs I Hl Ha E) as (u & -> & Hu).
  assert (u = t) as -> by (transitivity c; [apply Ho, first_waiter_holds, Hu|symmetry; by apply Ho]).
  by apply (Hf t).
Qed.

(** An interrupt's event on this side of [q]. *)
Lemma served s s' lk Q Q' :
  qinv idle lk s → signal_safe s → queues s !! q = Some Q → isr_step q Q' (side_lock d Q) L s s' →
  side_lock d Q' = event_lock (uxCurrentNumberOfTasks (data (kern s))) (side_lock d Q) → signal_safe s'.
Proof.
  intros I [Ho Ht (Q0 & HQ0 & Hr & _)] HQ St El. rewrite HQ in HQ0. injection HQ0 as <-. pose proof (queue_event _ _ _ I HQ) as Hl.
  pose proof (event_stable _ _ _ _ _ (qi_kernel _ _ _ I) (is_kern _ _ _ _ _ _ St)) as Sk.
  constructor.
  - intros t Hh. apply Ho. by apply (st_wait _ _ Sk).
  - by rewrite (stable_tasks _ _ Sk).
  - exists Q'. rewrite (is_queue _ _ _ _ _ _ St), lookup_insert_eq. split; [done|].
    destruct (number_tasks _ (qi_kernel _ _ _ I)) as [En Hn]. rewrite En in El. unfold lock_range, safe. rewrite El.
    unfold event_lock. pose proof (is_kern _ _ _ _ _ _ St) as Ev. unfold event in Ev.
    destruct (Z.eqb_spec (side_lock d Q) queueUNLOCKED) as [E|E].
    + rewrite E. split; [by left|right]. simpl.
      apply (none_left (kern s)); [apply I|done|done|done|]. intros t. by apply unblocked_first.
    + destruct Hr as [?|Hr]; [done|]. pose proof (bump_positive (ntasks (kern s)) (side_lock d Q) ltac:(lia) Hr).
      split; [right; lia|right]. rewrite (proj2 (Z.eqb_neq _ _)); unfold queueUNLOCKED; lia.
Qed.

(** Anything that leaves this side's lock alone, and what was there to wait for. *)
Lemma untouched s s' Q Q' :
  signal_safe s → (10 < L)%positive → stable (kern s) (kern s') → queues s !! q = Some Q → queues s' !! q = Some Q' →
  side_lock d Q' = side_lock d Q → (side_full d Q = true → side_full d Q' = true) → signal_safe s'.
Proof.
  intros [Ho Ht (Q0 & HQ0 & Hr & Hs)] Hl St HQ HQ' El Ef. rewrite HQ in HQ0. injection HQ0 as <-. constructor.
  - intros t Hh. apply Ho. by apply (st_wait _ _ St).
  - by rewrite (stable_tasks _ _ St).
  - exists Q'. split; [done|]. unfold lock_range, safe in *. rewrite El. split; [done|].
    destruct Hs as [Hs|Hs]; [left; auto|right]. destruct (_ =? _); [|done]. intros t Hh. apply (Hs t). by apply (st_wait _ _ St).
Qed.

End wake.

Section effects.
Context (idle : TaskHandle_t) (q : QueueHandle_t) (c : TaskHandle_t).

Lemma ring_full_receive Q xs : ring Q xs → (uxMessagesWaiting Q =? 0) = bool_decide (xs = []).
Proof. intros [r R]. rewrite (rg_waiting _ _ _ R). destruct xs; [done|]. by rewrite bool_decide_eq_false_2. Qed.

Lemma ring_full_send Q xs : ring Q xs → (uxMessagesWaiting Q =? uxLength Q) = (Z.of_nat (length xs) =? uxLength Q).
Proof. intros [r R]. by rewrite (rg_waiting _ _ _ R). Qed.

(** The effect of a sending or receiving interrupt on [q] itself. *)
Lemma sent_safe d lk s s' q' Q Q1 xs ys :
  qinv idle lk s → signal_safe d q c s → queues s !! q' = Some Q → ring Q xs → ring Q1 ys → same_queue Q Q1 →
  (length ys = S (length xs) ∨ length ys = length xs ∧ uxLength Q = 1 ∧ ys ≠ []) →
  isr_step q' (set_cTxLock (event_lock (uxCurrentNumberOfTasks (data (kern s))) (cTxLock Q)) Q1) (cTxLock Q)
    (xTasksWaitingToReceive q') s s' → signal_safe d q c s'.
Proof.
  intros I S HQ R R1 Sq Hlen St. pose proof S as [_ _ (Q0 & HQ0 & _)]. pose proof (queue_event idle d q _ _ _ I HQ0) as Hl.
  pose proof (event_stable _ _ _ _ _ (qi_kernel _ _ _ I) (is_kern _ _ _ _ _ _ St)) as Sk.
  destruct (decide (q' = q)) as [->|Hne].
  - rewrite HQ in HQ0. injection HQ0 as <-.
    assert (HQ' := is_queue _ _ _ _ _ _ St). apply (f_equal (lookup q)) in HQ'. rewrite lookup_insert_eq in HQ'.
    destruct d; [by eapply (served idle)|]. eapply (untouched _ q c s s'); [done..|simpl; apply Sq|]. simpl.
    rewrite (ring_full_send _ _ R), (ring_full_send _ _ R1).
    rewrite (sq_length _ _ Sq), !Z.eqb_eq. pose proof R1 as [r1 Ra1]. pose proof (rg_fits _ _ _ Ra1).
    rewrite (sq_length _ _ Sq) in *. destruct Hlen as [?|[? _]]; lia.
  - eapply (untouched _ q c s s' Q0 Q0); try done. by rewrite (is_queue _ _ _ _ _ _ St), lookup_insert_ne.
Qed.

Lemma taken_safe d lk s s' q' Q Q1 x xs :
  qinv idle lk s → signal_safe d q c s → queues s !! q' = Some Q → ring Q (x :: xs) → ring Q1 xs → same_queue Q Q1 →
  isr_step q' (set_cRxLock (event_lock (uxCurrentNumberOfTasks (data (kern s))) (cRxLock Q)) Q1) (cRxLock Q)
    (xTasksWaitingToSend q') s s' → signal_safe d q c s'.
Proof.
  intros I S HQ R R1 Sq St. pose proof S as [_ _ (Q0 & HQ0 & _)]. pose proof (queue_event idle d q _ _ _ I HQ0) as Hl.
  pose proof (event_stable _ _ _ _ _ (qi_kernel _ _ _ I) (is_kern _ _ _ _ _ _ St)) as Sk.
  destruct (decide (q' = q)) as [->|Hne].
  - rewrite HQ in HQ0. injection HQ0 as <-.
    assert (HQ' := is_queue _ _ _ _ _ _ St). apply (f_equal (lookup q)) in HQ'. rewrite lookup_insert_eq in HQ'.
    destruct d; [|by eapply (served idle)]. eapply (untouched _ q c s s'); [done..|simpl; apply Sq|]. simpl.
    by rewrite (ring_full_receive _ _ R).
  - eapply (untouched _ q c s s' Q0 Q0); try done. by rewrite (is_queue _ _ _ _ _ _ St), lookup_insert_ne.
Qed.

Lemma enqueue_length pos x xs Q : room Q pos = true → ring Q xs → (pos = queueOVERWRITE → uxLength Q = 1) →
  length (enqueue pos x xs) = S (length xs) ∨
  length (enqueue pos x xs) = length xs ∧ uxLength Q = 1 ∧ enqueue pos x xs ≠ [].
Proof.
  intros Hr [r R] Ho. destruct pos; simpl; [left; rewrite length_app; simpl; lia|by left|].
  specialize (Ho eq_refl). pose proof (rg_fits _ _ _ R). destruct xs as [|y [|z xs]]; simpl in *; [by left|by right|lia].
Qed.
End effects.

(** ** Interrupts keep the signal safe *)
Section effects2.
Context (idle : TaskHandle_t) (d : side) (q : QueueHandle_t) (c : TaskHandle_t).
Local Abbreviation L := (side_list d q).

Lemma ieffect_signal_safe lk ic s s' :
  qinv idle lk s → ieffect ic s s' → ipermitted s ic → signal_safe d q c s → signal_safe d q c s'.
Proof.
  intros I E Pc S. destruct ic as [|q' item pos|q'|q'|q']; simpl in *.
  - subst. destruct S as [S1 S2 S3]. by constructor.
  - destruct E as (Q & xs & HQ & R & E). destruct (room Q pos) eqn:Er; [|by subst]. destruct E as (Q1 & R1 & Sq & St).
    destruct Pc as (Q0 & HQ0 & _ & Ho). rewrite HQ in HQ0. injection HQ0 as <-.
    eapply (sent_safe idle q c d lk s s' q' Q Q1); [done..| |exact St]. apply (enqueue_length pos _ _ Q Er R). intros Hp. by apply Ho.
  - destruct E as (Q & xs & HQ & R & E). destruct (_ <? _); [|by subst]. destruct E as (Q1 & R1 & Sq & St).
    eapply (sent_safe idle q c d lk s s' q' Q Q1); [done..| |exact St]. left. rewrite length_app. simpl. lia.
  - destruct E as (Q & xs & HQ & R & E). destruct xs as [|x xs]; [by subst|]. destruct E as (Q1 & R1 & Sq & St).
    by eapply (taken_safe idle q c d lk s s' q' Q Q1 x xs).
  - by subst.
Qed.
End effects2.

(** ** Before the wait *)

(** Nobody waits and the lock count is in range. *)
Record calm_side d q s : Prop := {
  ca_none : no_waiter d q (kern s);
  ca_tasks : ntasks (kern s) ≤ 127;
  ca_queue : ∃ Q, queues s !! q = Some Q ∧ 0 ≤ side_lock d Q ≤ 127 }.

(** A step of an interrupt leaves the lock of either side, or signals it. *)
Lemma isr_lock d q q' Q' lock l s s' Q n :
  isr_step q' Q' lock l s s' → queues s !! q = Some Q →
  (q' = q → side_lock d Q' = side_lock d Q ∨ side_lock d Q' = event_lock n (side_lock d Q)) →
  ∃ Q2, queues s' !! q = Some Q2 ∧ (side_lock d Q2 = side_lock d Q ∨ side_lock d Q2 = event_lock n (side_lock d Q)).
Proof.
  intros [_ _ Eq _] HQ Hl. destruct (decide (q' = q)) as [->|Hne].
  - exists Q'. rewrite Eq, lookup_insert_eq. auto.
  - exists Q. rewrite Eq, lookup_insert_ne by done. auto.
Qed.

Lemma ieffect_lock d q ic s s' Q :
  ieffect ic s s' → queues s !! q = Some Q →
  ∃ Q', queues s' !! q = Some Q' ∧
    (side_lock d Q' = side_lock d Q ∨ side_lock d Q' = event_lock (uxCurrentNumberOfTasks (data (kern s))) (side_lock d Q)).
Proof.
  intros E HQ. assert (Same : s' = s → ∃ Q', queues s' !! q = Some Q' ∧
    (side_lock d Q' = side_lock d Q ∨ side_lock d Q' = event_lock (uxCurrentNumberOfTasks (data (kern s))) (side_lock d Q)))
    by (intros ->; exists Q; auto).
  destruct ic as [|q' item pos|q'|q'|q']; simpl in E; [subst; exists Q; auto| | | |auto].
  - destruct E as (Q0 & xs & HQ0 & _ & E). destruct (room Q0 pos); [|auto]. destruct E as (Q1 & _ & Sq & St).
    eapply isr_lock; [done..|]. intros ->. rewrite HQ in HQ0. injection HQ0 as <-. destruct d; [by right|left; simpl; apply Sq].
  - destruct E as (Q0 & xs & HQ0 & _ & E). destruct (_ <? _); [|auto]. destruct E as (Q1 & _ & Sq & St).
    eapply isr_lock; [done..|]. intros ->. rewrite HQ in HQ0. injection HQ0 as <-. destruct d; [by right|left; simpl; apply Sq].
  - destruct E as (Q0 & xs & HQ0 & _ & E). destruct xs as [|x xs]; [auto|]. destruct E as (Q1 & _ & Sq & St).
    eapply isr_lock; [done..|]. intros ->. rewrite HQ in HQ0. injection HQ0 as <-. destruct d; [left; simpl; apply Sq|by right].
Qed.

Section stages.
Context (idle : TaskHandle_t) (d : side) (q : QueueHandle_t) (c : TaskHandle_t).
Local Abbreviation L := (side_list d q).

Lemma idle_side_irq : irq_closed idle (calm_side d q).
Proof.
  intros lk ic s s' I _ E [Hn Ht (Q & HQ & Hl)]. destruct (ieffect_stable idle _ _ _ (qi_kernel _ _ _ I) E) as [St _].
  pose proof (queue_event idle d q _ _ _ I HQ) as HL. constructor.
  - intros t Hh. apply (Hn t). by apply (st_wait _ _ St).
  - by rewrite (stable_tasks _ _ St).
  - destruct (ieffect_lock d q _ _ _ Q E HQ) as (Q' & HQ' & Hl'). exists Q'. split; [done|].
    destruct (number_tasks idle _ (qi_kernel _ _ _ I)) as [En H1]. rewrite En in Hl'.
    destruct Hl' as [->|Hl']; [done|]. unfold event_lock in Hl'.
    rewrite (proj2 (Z.eqb_neq _ _)) in Hl' by (unfold queueUNLOCKED; lia).
    pose proof (bump_positive (ntasks (kern s)) (side_lock d Q) ltac:(lia) Hl). rewrite Hl'. lia.
Qed.

Lemma signal_safe_irq : irq_closed idle (signal_safe d q c).
Proof. intros lk ic s s' I Pc E. by apply (ieffect_signal_safe idle d q c lk ic). Qed.

Lemma nobody_irq : irq_closed idle (λ s, no_waiter d q (kern s) ∧ ntasks (kern s) ≤ 127 ∧ is_Some (queues s !! q)).
Proof.
  intros lk ic s s' I _ E (Hn & Ht & Q & HQ). destruct (ieffect_stable idle _ _ _ (qi_kernel _ _ _ I) E) as [St _].
  pose proof (queue_event idle d q _ _ _ I HQ) as HL. split_and!.
  - intros t Hh. apply (Hn t). by apply (st_wait _ _ St).
  - by rewrite (stable_tasks _ _ St).
  - destruct (ieffect_lock d q _ _ _ Q E HQ) as (Q' & HQ' & _). by exists Q'.
Qed.

(** Resuming leaves the tasks. *)
Lemma resumed_tasks k k' : resumed k k' → ntasks k' = ntasks k.
Proof.
  assert (Tk : ∀ n k1 k2, ticks n k1 k2 → tcbs (data k2) = tcbs (data k1)).
  { induction 1 as [|n k1 k2 y k3 _ _ Tk _ IH]; [done|]. rewrite IH. by apply (ticked_susp _ _ Tk). }
  intros (k1 & v & k2 & [(top & y & E) _ _ _] & T%Tk & [[=] _ _]). simpl in T. unfold ntasks.
  assert (E2 : tcbs (data k') = tcbs (data k)); [|by rewrite E2]. transitivity (tcbs (data k2)); [done|]. by rewrite T, E.
Qed.

(** Unlocking the side. *)
Lemma unlock_safe s Q Q' k' lk :
  qinv idle lk s → queues s !! q = Some Q → stable (kern s) k' → side_lock d Q' = queueUNLOCKED →
  side_full d Q' = side_full d Q →
  (0 < side_lock d Q → ∀ t, first_waiter (kern s) L t → ¬ holds (lists k') L (Ev t)) →
  signal_safe d q c s → signal_safe d q c (set_queue q Q' (set_kern k' s)).
Proof.
  intros I HQ St El Ef Hf [Ho Ht (Q0 & HQ0 & Hr & Hs)]. rewrite HQ in HQ0. injection HQ0 as <-.
  pose proof (queue_event idle d q _ _ _ I HQ) as HL. constructor; simpl.
  - intros t Hh. apply Ho. by apply (st_wait _ _ St).
  - by rewrite (stable_tasks _ _ St).
  - exists Q'. rewrite lookup_insert_eq. split; [done|]. unfold lock_range, safe. rewrite El, Ef. split; [by left|].
    destruct Hs as [Hs|Hs]; [by left|right]. simpl. destruct (_ =? _).
    + intros t Hh. apply (Hs t). by apply (st_wait _ _ St).
    + apply (none_left idle d q c (kern s)); [apply I|done|done|done|auto].
Qed.

End stages.

Lemma signal_safe_closed idle d q c : closed idle q (signal_safe d q c).
Proof.
  constructor.
  - apply signal_safe_irq.
  - intros s Q k' I HQ St Hf J. destruct d; [by apply (unlock_safe idle ToReceive q c s Q _ k' (Some q))|].
    apply (untouched ToSend q c s _ Q (set_cTxLock queueUNLOCKED Q)); simpl; try done.
    + by apply (queue_event idle ToSend q s (Some q) Q).
    + apply lookup_insert_eq.
  - intros s Q k' I HQ St Hf J. destruct d; [|by apply (unlock_safe idle ToSend q c s Q _ k' (Some q))].
    apply (untouched ToReceive q c s _ Q (set_cRxLock queueUNLOCKED Q)); simpl; try done.
    + by apply (queue_event idle ToReceive q s (Some q) Q).
    + apply lookup_insert_eq.
  - intros s k' I Re [Ho Ht (Q & HQ & Hr & Hs)]. constructor; simpl.
    + intros t Hh. apply Ho. by eapply resumed_waits.
    + by rewrite (resumed_tasks _ _ Re).
    + exists Q. split; [done|]. split; [done|]. destruct Hs as [Hs|Hs]; [by left|right]. destruct (_ =? _); [|done].
      intros t Hh. apply (Hs t). by eapply resumed_waits.
Qed.

Definition nobody d q s : Prop := no_waiter d q (kern s) ∧ ntasks (kern s) ≤ 127 ∧ is_Some (queues s !! q).

Lemma nobody_closed idle d q : closed idle q (nobody d q).
Proof.
  assert (Shrink : ∀ s k' (f : gmap positive Queue_t → gmap positive Queue_t), (10 < side_list d q)%positive → ntasks k' = ntasks (kern s) →
    (∀ t, holds (lists k') (side_list d q) (Ev t) → holds (lists (kern s)) (side_list d q) (Ev t)) →
    is_Some (f (queues s) !! q) → nobody d q s → nobody d q (MkQK k' (f (queues s)) (xQueueRegistry s))).
  { intros s k' f Hl En Hw Hf (Hn & Ht & _). split_and!; simpl; [intros t Hh; by apply (Hn t), Hw|by rewrite En|done]. }
  constructor.
  - apply nobody_irq.
  - intros s Q k' I HQ St _ J. pose proof (queue_event idle d q _ _ _ I HQ). apply (Shrink s k' <[q:=_]>); try done.
    + by apply stable_tasks.
    + intros t. by apply (st_wait _ _ St).
    + rewrite lookup_insert_eq. by eexists.
  - intros s Q k' I HQ St _ J. pose proof (queue_event idle d q _ _ _ I HQ). apply (Shrink s k' <[q:=_]>); try done.
    + by apply stable_tasks.
    + intros t. by apply (st_wait _ _ St).
    + rewrite lookup_insert_eq. by eexists.
  - intros s k' I Re J. destruct J as (Hn & Ht & [Q HQ]) eqn:EJ. pose proof (queue_event idle d q _ _ _ I HQ).
    apply (Shrink s k' id); try done.
    + by apply resumed_tasks.
    + intros t. by apply resumed_waits.
Qed.

Definition side_blocked {A} `{KLists A} (d : side) q : QM A bool :=
  match d with ToReceive => prvIsQueueEmpty q | ToSend => prvIsQueueFull q end.

(** The stages of a wait. *)
Lemma wake_stages idle d q c :
  stages idle q (side_list d q) (side_full d) (side_blocked d q) c
    (nobody d q) (calm_side d q) (λ s, calm_side d q s ∧ signal_safe d q c s) (signal_safe d q c) (nobody d q).
Proof.
  constructor.
  - destruct d; [by right|by left].
  - intros s Q HQ. destruct d; unfold side_blocked, prvIsQueueEmpty, prvIsQueueFull, mbind, QM_bind, getq; by rewrite HQ.
  - apply nobody_irq.
  - apply idle_side_irq.
  - intros lk ic s s' I Pc E [H1 H2]. split; [by eapply idle_side_irq|by eapply signal_safe_irq].
  - intros s Q I HQ (Hn & Ht & _). constructor; [done..|]. eexists. split; [apply lookup_insert_eq|]. by destruct d.
  - intros s Q HQ Ef J. split; [done|]. destruct J as [Hn Ht (Q1 & HQ1 & Hl)]. rewrite HQ in HQ1. injection HQ1 as <-.
    constructor; [intros t Hh; by destruct (Hn t)|done|]. exists Q. split; [done|]. split; [by right|by left].
  - intros s k' A1 n I R M B [[Hn _ (Q & HQ & Hl)] [_ Ht (Q1 & HQ1 & Hr & Hs)]]. rewrite HQ in HQ1. injection HQ1 as <-.
    constructor; simpl.
    + intros t Hh. apply (bf_other _ _ _ _ _ B) in Hh; [|done]. simpl in Hh. apply (mv_holds _ _ _ _ _ M) in Hh.
      destruct Hh as [[[= ->] _]|[_ Hh]]; [done|]. by destruct (Hn t).
    + destruct (bf_data _ _ _ _ _ B) as [v E]. unfold ntasks. by rewrite E.
    + exists Q. split; [done|]. split; [done|]. unfold safe in *. destruct Hs as [Hs|Hs]; [by left|right].
      rewrite (proj2 (Z.eqb_neq _ _)) in * by (unfold queueUNLOCKED; lia). done.
  - apply signal_safe_closed.
  - apply nobody_closed.
  - intros s [Hn Ht (Q & HQ & _)]. split_and!; [done..|by exists Q].
Qed.

(** ** No wake-up is lost *)
Lemma wp_no_lost_wakeup idle d q c irqs to n P s :
  qinv idle None s → uxSchedulerSuspended (data (kern s)) = 0 → running (kern s) c → c ≠ idle → 0 < n < 4294967296 →
  irqs_permitted irqs s → is_Some (queues s !! q) → nobody d q s →
  (∀ s' w, qinv idle None s' → uxSchedulerSuspended (data (kern s')) = 0 → shapes s s' →
     (∀ t, holds (lists (kern s')) (side_list d q) (Ev t) → ∃ Q', queues s' !! q = Some Q' ∧ side_full d Q' = true) → P w s') →
  wpq (wait_on_queue (λ i, run_icalls (irqs i)) q (side_list d q) (side_blocked d q) to n) P s.
Proof.
  intros I Hs R Hci Hn Pc HQ J HP. eapply wp_wait_on_queue; [apply wake_stages|done..| |].
  - intros k' ->. exact J.
  - intros s' w I' Hs' Sh _ J'. apply HP; [done..|]. intros t Ht. destruct J' as [[Ho _ (Q & HQ' & _ & Hf)]|[Hn' _]].
    + exists Q. split; [done|]. destruct Hf as [Hf|Hf]; [done|].
      pose proof (qi_queues _ _ _ I' _ _ HQ') as O. destruct (qo_unlocked _ _ _ _ O eq_refl) as [E1 E2].
      assert (El : side_lock d Q = queueUNLOCKED) by by destruct d. rewrite El in Hf. simpl in Hf. by destruct (Hf t).
    + by destruct (Hn' t).
Qed.

(** C11. No wake-up is lost on the way into a wait, when no other task waits to
    receive from the queue and at most 127 tasks exist (the lock count is 8 bits
    wide, [lock_count_wraps]).  A task that goes to wait on an empty queue does
    so in several critical sections; interrupts that send to and receive from
    any queues, or are ticks, may come before each of them.  Whatever they do,
    the function gets to its end with the invariant and the scheduler resumed,
    and if the task is still on the queue's event list then, the queue is
    empty. *)
Theorem xQueueReceive_block_no_lost_wakeup idle irqs q c to n s :
  qinv idle None s → uxSchedulerSuspended (data (kern s)) = 0 → running (kern s) c → c ≠ idle → 0 < n < 4294967296 →
  (∀ i, Forall (ipermitted s) (irqs i)) → is_Some (queues s !! q) → ntasks (kern s) ≤ 127 →
  (∀ t, ¬ holds (lists (kern s)) (xTasksWaitingToReceive q) (Ev t)) →
  ∃ s' w, xQueueReceive_block (λ i, run_icalls (irqs i)) q to n s = Some (s', w) ∧ qinv idle None s' ∧
    uxSchedulerSuspended (data (kern s')) = 0 ∧
    ∀ t, holds (lists (kern s')) (xTasksWaitingToReceive q) (Ev t) → ∃ Q', queues s' !! q = Some Q' ∧ ring Q' [].
Proof.
  intros I Hs R Hci Hn Pc HQ Ht Hw. apply wpq_result. apply (wp_no_lost_wakeup idle ToReceive q c); [done..|].
  intros s' w I' Hs' _ Hf. split_and!; [done..|]. intros t (Q' & HQ' & Ef)%Hf. exists Q'. split; [done|].
  destruct (qi_ring _ _ _ _ _ I' HQ') as [xs Rx]. simpl in Ef. rewrite (ring_full_receive _ _ Rx) in Ef.
  by apply bool_decide_eq_true in Ef as ->.
Qed.

(** The same for a task that goes to wait for room: if it is still on the
    event list in the end, the queue is full. *)
Theorem xQueueGenericSend_block_no_lost_wakeup idle irqs q c to n s :
  qinv idle None s → uxSchedulerSuspended (data (kern s)) = 0 → running (kern s) c → c ≠ idle → 0 < n < 4294967296 →
  (∀ i, Forall (ipermitted s) (irqs i)) → is_Some (queues s !! q) → ntasks (kern s) ≤ 127 →
  (∀ t, ¬ holds (lists (kern s)) (xTasksWaitingToSend q) (Ev t)) →
  ∃ s' w, xQueueGenericSend_block (λ i, run_icalls (irqs i)) q to n s = Some (s', w) ∧ qinv idle None s' ∧
    uxSchedulerSuspended (data (kern s')) = 0 ∧
    ∀ t, holds (lists (kern s')) (xTasksWaitingToSend q) (Ev t) →
      ∃ Q' xs, queues s' !! q = Some Q' ∧ ring Q' xs ∧ Z.of_nat (length xs) = uxLength Q'.
Proof.
  intros I Hs R Hci Hn Pc HQ Ht Hw. apply wpq_result. apply (wp_no_lost_wakeup idle ToSend q c); [done..|].
  intros s' w I' Hs' _ Hf. split_and!; [done..|]. intros t (Q' & HQ' & Ef)%Hf.
  destruct (qi_ring _ _ _ _ _ I' HQ') as [xs Rx]. simpl in Ef. rewrite (ring_full_send _ _ Rx) in Ef.
  exists Q', xs. split_and!; [done..|]. by apply Z.eqb_eq.
Qed.

(** The bound on the tasks is needed: the count of a locked queue is an
    [int8_t]; with more than 127 tasks the 128th event makes it negative, and
    the loop of [prvUnlockQueue] then does nothing. *)
Lemma lock_count_wraps : bump 128 127 = -128 ∧ Z.to_nat (bump 128 127) = 0%nat.
Proof. split; reflexivity. Qed.
