(* ===== verification/QueueMain.v ===== *)
(** * Queues as a whole

    What tasks and interrupts may ask of the kernel and its queues, as steps.
    Over any sequence of them the queues behave as bounded FIFO lists, and the
    program over the pointers of list.c does what the program over abstract
    lists does. *)
From S2P Require Import Prelude RtosList KList Tasks TasksSim TasksInv TasksOk TasksApi TasksLife TasksMain.
From S2P Require Import Queue QueueData QueueOk QueueWait QueueBlock QueueWake.
Local Open Scope Z_scope.
Implicit Types (k : akernel) (l : positive) (t : TaskHandle_t) (q : QueueHandle_t) (Q : Queue_t) (s : qkernel astate).

(** ** The specification: bounded lists of items *)
Record aqueue := AQueue { aq_length : Z; aq_size : Z; aq_items : list (list Z) }.

Definition with_items (xs : list (list Z)) (a : aqueue) : aqueue := AQueue (aq_length a) (aq_size a) xs.
Definition a_room (a : aqueue) (pos : xCopyPosition_t) : bool :=
  (Z.of_nat (length (aq_items a)) <? aq_length a) || bool_decide (pos = queueOVERWRITE).
Definition a_put (item : list Z) (pos : xCopyPosition_t) (a : aqueue) : aqueue :=
  with_items (enqueue pos (take (Z.to_nat (aq_size a)) item) (aq_items a)) a.
Definition a_send (item : list Z) (pos : xCopyPosition_t) (a : aqueue) : aqueue :=
  if a_room a pos then a_put item pos a else a.
Definition a_give (a : aqueue) : aqueue :=
  if Z.of_nat (length (aq_items a)) <? aq_length a then with_items (aq_items a ++ [[]]) a else a.
Definition a_take (a : aqueue) : aqueue := with_items (tail (aq_items a)) a.

Abbreviation aqueues := (gmap positive aqueue).

(** What an interrupt does. *)
Definition a_icall (A : aqueues) (c : icall) : aqueues :=
  match c with
  | ITick | IPeek _ => A
  | ISend q item pos => alter (a_send item pos) q A
  | IGive q => alter a_give q A
  | IReceive q => alter a_take q A
  end.

(** ** Steps *)
Inductive qcall :=
  | QKernel (c : kcall)
  | QCreate (mem : option (QueueHandle_t * list Z)) (n z : Z)
  | QDelete q
  | QReset q
  | QAddToRegistry q (name : option positive)
  | QUnregister q
  | QSend q (item : list Z) (pos : xCopyPosition_t) (ticks : Z) (entry : option (Z * Z))
  | QReceive q (ticks : Z) (entry : option (Z * Z))
  | QTake q (ticks : Z) (entry : option (Z * Z))
  | QPeek q (ticks : Z) (entry : option (Z * Z))
  | QWait (d : side) (irqs : nat → list icall) q (to : Z * Z) (ticks : Z)
  | QSendFromISR q (item : list Z) (pos : xCopyPosition_t)
  | QGiveFromISR q
  | QReceiveFromISR q
  | QPeekFromISR q
  | QMessagesWaiting q
  | QSpacesAvailable q.

(** What a caller learns. *)
Inductive qresult :=
  | RDone
  | RHandle (h : option QueueHandle_t)
  | RBool (b : bool)
  | RItem (x : option (list Z))
  | RNumber (n : Z)
  | RWait.

Definition attempted {R} (f : R → qresult) (a : attempt R) : qresult :=
  match a with Return r => f r | Wait _ => RWait end.

Definition run_qcall `{KLists L} (c : qcall) : QM L qresult :=
  match c with
  | QKernel c => lift (run_call c);; mret RDone
  | QCreate mem n z => h ← xQueueGenericCreate (λ _, mem) n z; mret (RHandle h)
  | QDelete q => vQueueDelete q;; mret RDone
  | QReset q => b ← xQueueGenericReset q false; mret (RBool b)
  | QAddToRegistry q name => vQueueAddToRegistry q name;; mret RDone
  | QUnregister q => vQueueUnregisterQueue q;; mret RDone
  | QSend q item pos ticks entry => a ← xQueueGenericSend_try q item pos ticks entry; mret (attempted RBool a)
  | QReceive q ticks entry => a ← xQueueReceive_try q ticks entry; mret (attempted RItem a)
  | QTake q ticks entry => a ← xQueueSemaphoreTake_try q ticks entry; mret (attempted RItem a)
  | QPeek q ticks entry => a ← xQueuePeek_try q ticks entry; mret (attempted RItem a)
  | QWait d irqs q to ticks =>
      match d with
      | ToReceive => xQueueReceive_block (λ i, run_icalls (irqs i)) q to ticks;; mret RDone
      | ToSend => xQueueGenericSend_block (λ i, run_icalls (irqs i)) q to ticks;; mret RDone
      end
  | QSendFromISR q item pos => '(b, _) ← xQueueGenericSendFromISR q item pos; mret (RBool b)
  | QGiveFromISR q => '(b, _) ← xQueueGiveFromISR q; mret (RBool b)
  | QReceiveFromISR q => '(x, _) ← xQueueReceiveFromISR q; mret (RItem x)
  | QPeekFromISR q => x ← xQueuePeekFromISR q; mret (RItem x)
  | QMessagesWaiting q => n ← uxQueueMessagesWaiting q; mret (RNumber n)
  | QSpacesAvailable q => n ← uxQueueSpacesAvailable q; mret (RNumber n)
  end.

(** The obligations of the callers. *)
Section permitted.
Context (idle : TaskHandle_t).

Definition qpermitted s (c : qcall) : Prop :=
  match c with
  | QKernel c => permitted idle (kern s) c
  | QCreate mem n z => 0 ≤ n < 4294967296 ∧ 0 ≤ z ∧
      ∀ q m, size_ok n z = true → mem = Some (q, m) → fresh_queue s q m (n * z)
  | QDelete q => is_Some (queues s !! q) ∧ no_waiters (kern s) q
  | QAddToRegistry _ _ | QUnregister _ => True
  | QSend q item pos _ _ | QSendFromISR q item pos => ∃ Q, queues s !! q = Some Q ∧ may_send Q item pos
  | QTake q _ _ | QGiveFromISR q => ∃ Q, queues s !! q = Some Q ∧ uxItemSize Q = 0
  | QReset q | QReceive q _ _ | QPeek q _ _ | QReceiveFromISR q | QPeekFromISR q
  | QMessagesWaiting q | QSpacesAvailable q => is_Some (queues s !! q)
  | QWait _ irqs q _ ticks => uxSchedulerSuspended (data (kern s)) = 0 ∧ (∃ c, running (kern s) c ∧ c ≠ idle) ∧
      0 < ticks < 4294967296 ∧ irqs_permitted irqs s ∧ is_Some (queues s !! q)
  end.
End permitted.

(** What the specification says of a step. *)


Definition a_receive q (rest : aqueue → aqueue) (none : qresult) (A : aqueues) (r : qresult) (A' : aqueues) : Prop :=
  ∃ a, A !! q = Some a ∧
    match aq_items a with
    | x :: _ => r = RItem (Some x) ∧ A' = <[q := rest a]> A
    | [] => r = none ∧ A' = A
    end.

Definition qspec (c : qcall) (A : aqueues) (r : qresult) (A' : aqueues) : Prop :=
  match c with
  | QKernel _ | QAddToRegistry _ _ | QUnregister _ => r = RDone ∧ A' = A
  | QCreate mem n z =>
      match mem with
      | Some (q, _) => if size_ok n z then r = RHandle (Some q) ∧ A' = <[q := AQueue n z []]> A else r = RHandle None ∧ A' = A
      | None => r = RHandle None ∧ A' = A
      end
  | QDelete q => r = RDone ∧ A' = delete q A
  | QReset q => ∃ a, A !! q = Some a ∧ r = RBool true ∧ A' = <[q := with_items [] a]> A
  | QSend q item pos ticks _ => ∃ a, A !! q = Some a ∧
      if a_room a pos then r = RBool true ∧ A' = <[q := a_put item pos a]> A
      else r = (if ticks =? 0 then RBool false else RWait) ∧ A' = A
  | QReceive q ticks _ | QTake q ticks _ => a_receive q a_take (if ticks =? 0 then RItem None else RWait) A r A'
  | QPeek q ticks _ => a_receive q id (if ticks =? 0 then RItem None else RWait) A r A'
  | QWait _ _ _ _ _ => r = RDone ∧ ∃ cs, A' = fold_left a_icall cs A
  | QSendFromISR q item pos => ∃ a, A !! q = Some a ∧
      if a_room a pos then r = RBool true ∧ A' = <[q := a_put item pos a]> A else r = RBool false ∧ A' = A
  | QGiveFromISR q => ∃ a, A !! q = Some a ∧
      if Z.of_nat (length (aq_items a)) <? aq_length a
      then r = RBool true ∧ A' = <[q := with_items (aq_items a ++ [[]]) a]> A else r = RBool false ∧ A' = A
  | QReceiveFromISR q => a_receive q a_take (RItem None) A r A'
  | QPeekFromISR q => a_receive q id (RItem None) A r A'
  | QMessagesWaiting q => ∃ a, A !! q = Some a ∧ r = RNumber (Z.of_nat (length (aq_items a))) ∧ A' = A
  | QSpacesAvailable q => ∃ a, A !! q = Some a ∧ r = RNumber (aq_length a - Z.of_nat (length (aq_items a))) ∧ A' = A
  end.

(** ** The abstraction *)
Definition abs_queue Q : aqueue := AQueue (uxLength Q) (uxItemSize Q) (items Q).
Definition contents s : aqueues := abs_queue <$> queues s.

Lemma abs_ring Q xs : ring Q xs → abs_queue Q = AQueue (uxLength Q) (uxItemSize Q) xs.
Proof. intros R. unfold abs_queue. by rewrite (ring_items Q xs R). Qed.

Lemma abs_same Q Q' xs ys : ring Q xs → ring Q' ys → same_queue Q Q' → abs_queue Q' = with_items ys (abs_queue Q).
Proof. intros R R' [E1 E2 _ _]. rewrite (abs_ring Q' ys R'), E1, E2. done. Qed.

Lemma contents_lookup s q Q xs :
  queues s !! q = Some Q → ring Q xs → contents s !! q = Some (AQueue (uxLength Q) (uxItemSize Q) xs).
Proof. intros HQ R. unfold contents. by rewrite lookup_fmap, HQ, <- (abs_ring Q xs R). Qed.

Lemma contents_insert s s' q Q Q' xs ys :
  queues s' = <[q := Q']> (queues s) → queues s !! q = Some Q → ring Q xs → ring Q' ys → same_queue Q Q' →
  contents s' = <[q := AQueue (uxLength Q) (uxItemSize Q) ys]> (contents s).
Proof.
  intros E HQ R R' S. unfold contents. rewrite E, fmap_insert. f_equal. rewrite (abs_same Q Q' xs ys R R' S).
  by rewrite (abs_ring Q xs R).
Qed.

Lemma contents_kern k s : contents (set_kern k s) = contents s.
Proof. done. Qed.

Lemma room_abs Q xs pos : ring Q xs → room Q pos = a_room (AQueue (uxLength Q) (uxItemSize Q) xs) pos.
Proof. intros [r R]. unfold room, a_room. simpl. by rewrite (rg_waiting _ _ _ R). Qed.

Lemma contents_alter s s' q Q Q' xs ys (f : aqueue → aqueue) :
  queues s' = <[q := Q']> (queues s) → queues s !! q = Some Q → ring Q xs → ring Q' ys → same_queue Q Q' →
  f (AQueue (uxLength Q) (uxItemSize Q) xs) = AQueue (uxLength Q) (uxItemSize Q) ys →
  contents s' = alter f q (contents s).
Proof.
  intros E HQ R R' S Ef. rewrite (contents_insert _ _ _ _ _ _ _ E HQ R R' S). apply map_eq. intros q'.
  destruct (decide (q = q')) as [<-|Hne].
  - by rewrite lookup_insert_eq, lookup_alter_eq, (contents_lookup _ _ _ _ HQ R), <- Ef.
  - by rewrite lookup_insert_ne, lookup_alter_ne.
Qed.

Lemma contents_unaltered s q Q xs (f : aqueue → aqueue) :
  queues s !! q = Some Q → ring Q xs → f (AQueue (uxLength Q) (uxItemSize Q) xs) = AQueue (uxLength Q) (uxItemSize Q) xs →
  contents s = alter f q (contents s).
Proof.
  intros HQ R Ef. apply map_eq. intros q'. destruct (decide (q = q')) as [<-|Hne]; [|by rewrite lookup_alter_ne].
  rewrite lookup_alter_eq, (contents_lookup _ _ _ _ HQ R). simpl. by rewrite Ef.
Qed.

(** The queue after an interrupt, its locks aside. *)
Lemma isr_contents q Q Q1 Q' lock l s s' xs ys f :
  isr_step q Q' lock l s s' → queues s !! q = Some Q → ring Q xs → ring Q1 ys → same_queue Q Q1 →
  abs_queue Q' = abs_queue Q1 → f (AQueue (uxLength Q) (uxItemSize Q) xs) = AQueue (uxLength Q) (uxItemSize Q) ys →
  contents s' = alter f q (contents s).
Proof.
  intros [_ _ Eq _] HQ R R1 S Ea Ef. rewrite <- (contents_alter s (set_queue q Q1 s) q Q Q1 xs ys f); try done.
  unfold contents. rewrite Eq. simpl. by rewrite !fmap_insert, Ea.
Qed.

Lemma ieffect_contents ic s s' : ieffect ic s s' → contents s' = a_icall (contents s) ic.
Proof.
  destruct ic as [|q item pos|q|q|q]; simpl; [by intros ->| | | |by intros ->].
  - intros (Q & xs & HQ & R & E). rewrite (room_abs Q xs pos R) in E. destruct (a_room _ pos) eqn:Er.
    + destruct E as (Q1 & R1 & S & St). eapply isr_contents; [done..|]. unfold a_send. by rewrite Er.
    + subst. eapply contents_unaltered; [done..|]. unfold a_send. by rewrite Er.
  - intros (Q & xs & HQ & R & E). assert (En : uxMessagesWaiting Q = Z.of_nat (length xs)) by (destruct R as [r []]; done).
    rewrite En in E. destruct (_ <? _) eqn:Er.
    + destruct E as (Q1 & R1 & S & St). eapply isr_contents; [done..|]. unfold a_give. simpl. by rewrite Er.
    + subst. eapply contents_unaltered; [done..|]. unfold a_give. simpl. by rewrite Er.
  - intros (Q & xs & HQ & R & E). destruct xs as [|x xs].
    + subst. by eapply contents_unaltered.
    + destruct E as (Q1 & R1 & S & St). by eapply isr_contents.
Qed.

(** A wait changes the contents as its interrupts do. *)
Definition reached (A : aqueues) s : Prop := ∃ cs, contents s = fold_left a_icall cs A.

Lemma reached_irq idle A : irq_closed idle (reached A).
Proof.
  intros lk c s s' _ _ E [cs Ec]. exists (cs ++ [c]). by rewrite fold_left_app, <- Ec, (ieffect_contents _ _ _ E).
Qed.

Lemma reached_queue A s q Q Q' k : queues s !! q = Some Q → abs_queue Q' = abs_queue Q →
  reached A s → reached A (set_queue q Q' (set_kern k s)).
Proof.
  intros HQ E [cs Ec]. exists cs. rewrite <- Ec. unfold contents. simpl. rewrite fmap_insert, E.
  apply insert_id. by rewrite lookup_fmap, HQ.
Qed.

Lemma reached_closed idle q A : closed idle q (reached A).
Proof.
  constructor; [apply reached_irq| | |done].
  - intros s Q k' _ HQ _ _. by apply reached_queue with (Q := Q).
  - intros s Q k' _ HQ _ _. by apply reached_queue with (Q := Q).
Qed.

Lemma reached_stages idle d q c A :
  stages idle q (side_list d q) (side_full d) (side_blocked d q) c (reached A) (reached A) (reached A) (reached A) (reached A).
Proof.
  constructor; try apply reached_irq; try apply reached_closed; try done.
  - destruct d; [by right|by left].
  - intros s Q HQ. destruct d; unfold side_blocked, prvIsQueueEmpty, prvIsQueueFull, mbind, QM_bind, getq; by rewrite HQ.
  - intros s Q _ HQ. by apply (reached_queue A s q Q (locked_state Q) (kern s)).
Qed.

(** ** Every step *)
Section steps.
Context (idle : TaskHandle_t).

Definition step_ok c s (r : qresult) s' : Prop := qinv idle None s' ∧ qspec c (contents s) r (contents s').

Lemma wp_QCreate mem n z s :
  qinv idle None s → qpermitted idle s (QCreate mem n z) → wpq (run_qcall (QCreate mem n z)) (step_ok (QCreate mem n z) s) s.
Proof.
  intros I (Hn & Hz & Hm). unfold step_ok. simpl. wpq_step.
  apply (wp_xQueueGenericCreate idle); [done..| |]; [intros b q m Es _ E; by apply Hm|].
  destruct (size_ok n z) eqn:Es; [|wpq_step; split; [done|by destruct mem as [[]|]]].
  destruct mem as [[q m]|]; [|by wpq_step]. intros s' Q I' EQ _ R <- <- _ _. wpq_step. split; [done|]. split; [done|].
  unfold contents. rewrite EQ, fmap_insert. f_equal. by apply abs_ring.
Qed.

Lemma wp_QSend q item pos ticks entry s :
  qinv idle None s → qpermitted idle s (QSend q item pos ticks entry) →
  wpq (run_qcall (QSend q item pos ticks entry)) (step_ok (QSend q item pos ticks entry) s) s.
Proof.
  intros I (Q & HQ & Hm). destruct (qi_ring _ _ _ _ _ I HQ) as [xs R]. unfold step_ok. simpl. wpq_step.
  apply (wp_xQueueGenericSend_try idle None q Q xs); [done..|]. pose proof (contents_lookup _ _ _ _ HQ R) as Hc.
  rewrite (room_abs Q xs pos R). destruct (a_room _ pos) eqn:Er.
  - intros s' Q' I' St _ R' S'. wpq_step. split; [done|]. eexists. split; [done|]. rewrite Er. split; [done|].
    by rewrite (contents_insert s s' q Q Q' xs _ (so_queue _ _ _ _ _ St) HQ R R' S').
  - destruct (ticks =? 0) eqn:Et; [|intros to _]; wpq_step; (split; [done|]); eexists; (split; [done|]); by rewrite Er, ?Et.
Qed.

(** The receiving functions. *)
Lemma wp_receiving q ticks entry rest (f : aqueue → aqueue) l c s Q xs (m : QM astate (attempt (option (list Z)))) :
  (∀ r s', a_receive q f (if ticks =? 0 then RItem None else RWait) (contents s) r (contents s') → qspec c (contents s) r (contents s')) →
  (∀ a, f a = with_items (rest (aq_items a)) a) →
  qinv idle None s → queues s !! q = Some Q → ring Q xs →
  (∀ P, received idle ticks entry q Q xs rest l P None s → wpq m P s) →
  wpq (a ← m; mret (attempted RItem a)) (step_ok c s) s.
Proof.
  intros Hc Hf I HQ R Hm. unfold step_ok. wpq_step. pose proof (contents_lookup _ _ _ _ HQ R) as HC.
  apply Hm. unfold received. destruct xs as [|x ys].
  - destruct (ticks =? 0) eqn:Et; [|intros to _]; wpq_step; (split; [done|]); apply Hc; eexists; (split; [exact HC|]); simpl; by rewrite ?Et.
  - intros s' Q' I' St _ R' S'. wpq_step. split; [done|]. apply Hc. eexists. split; [exact HC|]. simpl. split; [done|].
    rewrite Hf. by rewrite (contents_insert s s' q Q Q' (x :: ys) _ (so_queue _ _ _ _ _ St) HQ R R' S').
Qed.

Lemma wp_QReceive q ticks entry s :
  qinv idle None s → qpermitted idle s (QReceive q ticks entry) →
  wpq (run_qcall (QReceive q ticks entry)) (step_ok (QReceive q ticks entry) s) s.
Proof.
  intros I [Q HQ]. destruct (qi_ring _ _ _ _ _ I HQ) as [xs R].
  apply (wp_receiving q ticks entry tail a_take (xTasksWaitingToSend q) _ s Q xs); [done..|].
  intros P. by apply wp_xQueueReceive_try.
Qed.

Lemma wp_QTake q ticks entry s :
  qinv idle None s → qpermitted idle s (QTake q ticks entry) →
  wpq (run_qcall (QTake q ticks entry)) (step_ok (QTake q ticks entry) s) s.
Proof.
  intros I (Q & HQ & Hz). destruct (qi_ring _ _ _ _ _ I HQ) as [xs R].
  apply (wp_receiving q ticks entry tail a_take (xTasksWaitingToSend q) _ s Q xs); [done..|].
  intros P. by apply wp_xQueueSemaphoreTake_try.
Qed.

Lemma wp_QPeek q ticks entry s :
  qinv idle None s → qpermitted idle s (QPeek q ticks entry) →
  wpq (run_qcall (QPeek q ticks entry)) (step_ok (QPeek q ticks entry) s) s.
Proof.
  intros I [Q HQ]. destruct (qi_ring _ _ _ _ _ I HQ) as [xs R].
  apply (wp_receiving q ticks entry id id (xTasksWaitingToReceive q) _ s Q xs); [done|by intros []|done..|].
  intros P. by apply wp_xQueuePeek_try.
Qed.

Lemma wp_QWait d irqs q to ticks s :
  qinv idle None s → qpermitted idle s (QWait d irqs q to ticks) →
  wpq (run_qcall (QWait d irqs q to ticks)) (step_ok (QWait d irqs q to ticks) s) s.
Proof.
  intros I (Hs & (c & R & Hc) & Ht & Pc & HQ).
  assert (W : wpq (wait_on_queue (λ i, run_icalls (irqs i)) q (side_list d q) (side_blocked d q) to ticks)
    (λ _ s', qinv idle None s' ∧ reached (contents s) s') s).
  { eapply (wp_wait_on_queue idle); [apply (reached_stages idle d q c (contents s))|done..| |].
    - intros k' ->. by exists [].
    - intros s' w I' _ _ _ J. split; [done|]. by destruct J. }
  unfold step_ok. simpl. destruct d; (wpq_step; eapply wpq_mono; [exact W|]; intros w s' [I' [cs Ec]]; wpq_step);
    (split; [done|]; split; [done|by exists cs]).
Qed.

(** The functions for interrupts. *)
Lemma isr_abs q Q Q1 Q' lock l s s' xs ys :
  isr_step q Q' lock l s s' → queues s !! q = Some Q → ring Q xs → ring Q1 ys → same_queue Q Q1 →
  abs_queue Q' = abs_queue Q1 → contents s' = <[q := AQueue (uxLength Q) (uxItemSize Q) ys]> (contents s).
Proof.
  intros St HQ R R1 S Ea. rewrite <- (contents_insert s (set_queue q Q1 s) q Q Q1 xs ys); try done.
  unfold contents. rewrite (is_queue _ _ _ _ _ _ St). simpl. by rewrite !fmap_insert, Ea.
Qed.

Lemma wp_QSendFromISR q item pos s :
  qinv idle None s → qpermitted idle s (QSendFromISR q item pos) →
  wpq (run_qcall (QSendFromISR q item pos)) (step_ok (QSendFromISR q item pos) s) s.
Proof.
  intros I (Q & HQ & Hm). destruct (qi_ring _ _ _ _ _ I HQ) as [xs R]. unfold step_ok. simpl. wpq_step.
  apply (wp_xQueueGenericSendFromISR idle None q Q xs); [done..|]. pose proof (contents_lookup _ _ _ _ HQ R) as Hc.
  rewrite (room_abs Q xs pos R). destruct (a_room _ pos) eqn:Er; [cbv zeta; intros s' y Q1 I' St R1 S1|]; wpq_step;
    (split; [done|]); eexists; (split; [done|]); rewrite Er; (split; [done|]); [|done].
  by rewrite (isr_abs q Q Q1 _ _ _ s s' xs _ St HQ R R1 S1).
Qed.

Lemma wp_QGiveFromISR q s :
  qinv idle None s → qpermitted idle s (QGiveFromISR q) →
  wpq (run_qcall (QGiveFromISR q)) (step_ok (QGiveFromISR q) s) s.
Proof.
  intros I (Q & HQ & Hz). destruct (qi_ring _ _ _ _ _ I HQ) as [xs R]. unfold step_ok. simpl. wpq_step.
  apply (wp_xQueueGiveFromISR idle None q Q xs); [done..|]. pose proof (contents_lookup _ _ _ _ HQ R) as Hc.
  assert (uxMessagesWaiting Q = Z.of_nat (length xs)) as -> by (destruct R as [r []]; done).
  destruct (_ <? _) eqn:Er; [cbv zeta; intros s' y Q1 I' St R1 S1|]; wpq_step;
    (split; [done|]); eexists; (split; [done|]); simpl; rewrite Er; (split; [done|]); [|done].
  by rewrite (isr_abs q Q Q1 _ _ _ s s' xs _ St HQ R R1 S1).
Qed.

Lemma wp_QReceiveFromISR q s :
  qinv idle None s → qpermitted idle s (QReceiveFromISR q) →
  wpq (run_qcall (QReceiveFromISR q)) (step_ok (QReceiveFromISR q) s) s.
Proof.
  intros I [Q HQ]. destruct (qi_ring _ _ _ _ _ I HQ) as [xs R]. unfold step_ok. simpl. wpq_step.
  apply (wp_xQueueReceiveFromISR idle None q Q xs); [done..|]. pose proof (contents_lookup _ _ _ _ HQ R) as Hc.
  destruct xs as [|x ys]; [|cbv zeta; intros s' y Q1 I' St R1 S1]; wpq_step; (split; [done|]); eexists; (split; [done|]);
    (split; [done|]); [done|]. by rewrite (isr_abs q Q Q1 _ _ _ s s' _ _ St HQ R R1 S1).
Qed.

Lemma wp_QPeekFromISR q s :
  qinv idle None s → qpermitted idle s (QPeekFromISR q) →
  wpq (run_qcall (QPeekFromISR q)) (step_ok (QPeekFromISR q) s) s.
Proof.
  intros I [Q HQ]. destruct (qi_ring _ _ _ _ _ I HQ) as [xs R]. unfold step_ok. simpl. wpq_step.
  apply (wp_xQueuePeekFromISR q Q xs); [done..|]. pose proof (contents_lookup _ _ _ _ HQ R) as Hc.
  wpq_step. split; [done|]. eexists. split; [done|]. destruct xs; (split; [done|]); [done|]. by rewrite insert_id.
Qed.

Lemma wp_QReset q s :
  qinv idle None s → qpermitted idle s (QReset q) → wpq (run_qcall (QReset q)) (step_ok (QReset q) s) s.
Proof.
  intros I [Q HQ]. destruct (qi_ring _ _ _ _ _ I HQ) as [xs R]. unfold step_ok. simpl. wpq_step.
  apply (wp_xQueueGenericReset idle q Q xs); [done..|]. intros s' Q' I' St R' S'. wpq_step. split; [done|].
  eexists. split; [by eapply contents_lookup|]. split; [done|].
  by rewrite (contents_insert s s' q Q Q' xs _ (so_queue _ _ _ _ _ St) HQ R R' S').
Qed.

Lemma wp_QDelete q s :
  qinv idle None s → qpermitted idle s (QDelete q) → wpq (run_qcall (QDelete q)) (step_ok (QDelete q) s) s.
Proof.
  intros I [[Q HQ] Hw]. unfold step_ok. simpl. wpq_step. apply (wp_vQueueDelete idle q Q); [done..|].
  intros s' I' EQ _ _ _. wpq_step. split; [done|]. split; [done|]. unfold contents. by rewrite EQ, fmap_delete.
Qed.

Lemma wp_QKernel c s :
  qinv idle None s → qpermitted idle s (QKernel c) → wpq (run_qcall (QKernel c)) (step_ok (QKernel c) s) s.
Proof.
  intros I P. unfold step_ok. simpl. wpq_step. apply wpq_lift. apply wp_kept; [intros X M; apply sim_run_call|].
  eapply wp_mono; [by apply (inv_step idle); [apply I|]|]. intros [] k' I' Kp. wpq_step. split; [by apply qinv_kern|done].
Qed.

Lemma wp_numbers q s :
  qinv idle None s → is_Some (queues s !! q) →
  wpq (run_qcall (QMessagesWaiting q)) (step_ok (QMessagesWaiting q) s) s ∧
  wpq (run_qcall (QSpacesAvailable q)) (step_ok (QSpacesAvailable q) s) s.
Proof.
  intros I [Q HQ]. destruct (qi_ring _ _ _ _ _ I HQ) as [xs R]. pose proof (contents_lookup _ _ _ _ HQ R) as Hc.
  pose proof R as [r Ra]. pose proof (rg_waiting _ _ _ Ra). pose proof (rg_fits _ _ _ Ra). pose proof (rg_length _ _ _ Ra).
  unfold step_ok; simpl; split; wpq_step; (eapply wpq_returns; [unfold uxQueueMessagesWaiting, uxQueueSpacesAvailable,
    mbind, QM_bind, getq; by rewrite HQ|]); wpq_step; (split; [done|]); eexists; (split; [done|]); (split; [|done]); f_equal; simpl.
  - done.
  - rewrite u32_id; unfold is_u32; lia.
Qed.

Lemma qinv_registry s reg : qinv idle None s → qinv idle None (MkQK (kern s) (queues s) reg).
Proof. intros [I1 I2]. by constructor. Qed.

(** Every permitted step returns, keeps the invariant and does what the
    specification says. *)
Lemma wp_qcall c s : qinv idle None s → qpermitted idle s c → wpq (run_qcall c) (step_ok c s) s.
Proof.
  intros I P. destruct c.
  - by apply wp_QKernel.
  - by apply wp_QCreate.
  - by apply wp_QDelete.
  - by apply wp_QReset.
  - simpl. wpq_step. eapply wpq_returns; [done|]. wpq_step. unfold step_ok.
    destruct name as [nm|]; [destruct (vQueueAddToRegistry_slot q (xQueueRegistry s))|]; (split; [|done]); try done. by apply qinv_registry.
  - simpl. wpq_step. eapply wpq_returns; [done|]. wpq_step. unfold step_ok.
    destruct (list_find _ (xQueueRegistry s)) as [[]|]; (split; [|done]); try done. by apply qinv_registry.
  - by apply wp_QSend.
  - by apply wp_QReceive.
  - by apply wp_QTake.
  - by apply wp_QPeek.
  - by apply wp_QWait.
  - by apply wp_QSendFromISR.
  - by apply wp_QGiveFromISR.
  - by apply wp_QReceiveFromISR.
  - by apply wp_QPeekFromISR.
  - by apply wp_numbers.
  - by apply wp_numbers.
Qed.
End steps.

(** ** Runs from start-up *)

(** No queue exists and the registry is empty. *)
Definition no_queues {L} (k : kernel L) : qkernel L := MkQK k ∅ (replicate configQUEUE_REGISTRY_SIZE (None, None)).

Inductive qrun (idle : TaskHandle_t) : qkernel astate → list (qcall * qresult) → qkernel astate → Prop :=
  | qrun_nil s : qrun idle s [] s
  | qrun_cons s c r s1 tr s' :
      qpermitted idle s c → run_qcall c s = Some (s1, r) → qrun idle s1 tr s' → qrun idle s ((c, r) :: tr) s'.

Inductive spec_run : aqueues → list (qcall * qresult) → aqueues → Prop :=
  | spec_nil A : spec_run A [] A
  | spec_cons A c r A1 tr A' : qspec c A r A1 → spec_run A1 tr A' → spec_run A ((c, r) :: tr) A'.

Lemma qrun_ok idle s tr s' : qrun idle s tr s' → qinv idle None s → qinv idle None s' ∧ spec_run (contents s) tr (contents s').
Proof.
  induction 1 as [s|s c r s1 tr s' P E R IH]; intros I; [split; [done|constructor]|].
  pose proof (wp_qcall idle c s I P) as W. unfold wpq in W. rewrite E in W. destruct W as [I1 S1].
  destruct (IH I1) as [I' S']. split; [done|]. by econstructor.
Qed.

Lemma qinv_start idle k : inv idle k → qinv idle None (no_queues k).
Proof. intros I. constructor; [done|]. intros q Q. simpl. by rewrite lookup_empty. Qed.

(** What holds between the steps. *)
Record queues_ok s : Prop := {
  qk_bounds q Q : queues s !! q = Some Q →
    0 ≤ uxMessagesWaiting Q ≤ uxLength Q ∧ Z.of_nat (length (items Q)) = uxMessagesWaiting Q ∧
    Forall (λ x, Z.of_nat (length x) = uxItemSize Q) (items Q);
  qk_inside q Q : queues s !! q = Some Q → uxItemSize Q ≠ 0 →
    0 ≤ pcWriteTo Q ∧ pcWriteTo Q + uxItemSize Q ≤ Z.of_nat (length (storage Q)) ∧
    0 ≤ pcReadFrom Q ∧ pcReadFrom Q + uxItemSize Q ≤ Z.of_nat (length (storage Q));
  qk_unlocked q Q : queues s !! q = Some Q → cRxLock Q = queueUNLOCKED ∧ cTxLock Q = queueUNLOCKED }.

Lemma qinv_queues_ok idle s : qinv idle None s → queues_ok s.
Proof.
  intros I. constructor; intros q Q HQ; destruct (qi_ring _ _ _ _ _ I HQ) as [xs R]; pose proof R as [r Ra].
  - rewrite (ring_items Q xs R). pose proof (rg_waiting _ _ _ Ra). pose proof (rg_fits _ _ _ Ra). split_and!; [lia..|].
    apply Forall_forall. intros x. by apply ring_item_length.
  - intros Hz. pose proof (rg_size _ _ _ Ra). pose proof (rg_length _ _ _ Ra). pose proof (rg_slot _ _ _ Ra).
    rewrite (rg_write _ _ _ Ra), (rg_read _ _ _ Ra), (rg_storage _ _ _ Ra).
    pose proof (Z.mod_pos_bound (r + 1 + Z.of_nat (length xs)) (uxLength Q) ltac:(lia)). nia.
  - by apply (qo_unlocked _ _ _ _ (qi_queues _ _ _ I _ _ HQ)).
Qed.

(** C10. Safety of the queues: from start-up on, after any sequence of calls and
    interrupts that the callers are entitled to, the scheduler's guarantees
    hold, every queue holds at most [uxLength] items of its item size, the read
    and write pointers are inside its storage area, no queue is left locked, and
    every further permitted call returns. *)
Theorem queues_safe A ts idle k0 tr s :
  blank A → main_ok ts idle → run_main ts idle (MkKernel A boot_data) = Some (k0, ()) → qrun idle (no_queues k0) tr s →
  kernel_ok idle (kern s) ∧ queues_ok s ∧
  ∀ c, qpermitted idle s c → ∃ s' r, run_qcall c s = Some (s', r) ∧ kernel_ok idle (kern s') ∧ queues_ok s'.
Proof.
  intros B M E0 R. destruct (main_inv A ts idle B M) as (k1 & E1 & I1 & _).
  assert (k1 = k0) as -> by congruence. destruct (qrun_ok _ _ _ _ R (qinv_start idle k0 I1)) as [I _].
  split; [by apply inv_kernel_ok, I|]. split; [by apply (qinv_queues_ok idle)|]. intros c P.
  pose proof (wp_qcall idle c s I P) as W. apply wpq_result in W as (s' & r & E & I' & _). exists s', r.
  split; [done|]. split; [by apply inv_kernel_ok, I'|by apply (qinv_queues_ok idle)].
Qed.

(** C5. The queues are bounded FIFO lists: whatever the sequence of permitted calls
    and interrupts from start-up on, each call's result and its effect on the
    contents of all queues are those that the specification [qspec] of bounded
    lists gives: an item sent to the back goes to the end, one sent to the front
    or overwriting to the beginning, receiving takes the first, peeking leaves
    it, a full or empty queue refuses at once or makes the caller wait, and a
    wait changes the contents only as the interrupts that come during it do. *)
Theorem queues_are_fifo A ts idle k0 tr s :
  blank A → main_ok ts idle → run_main ts idle (MkKernel A boot_data) = Some (k0, ()) → qrun idle (no_queues k0) tr s →
  spec_run ∅ tr (contents s).
Proof.
  intros B M E0 R. destruct (main_inv A ts idle B M) as (k1 & E1 & I1 & _).
  assert (k1 = k0) as -> by congruence. apply (qrun_ok _ _ _ _ R (qinv_start idle k0 I1)).
Qed.
