(* ===== verification/QueueSim.v ===== *)
(** * queue.c on the lists of list.c

    The functions of Queue.v use lists by the interface [KLists] only: over
    the pointers of list.c they do what they do over abstract lists. *)
From S2P Require Import Prelude RtosList KList Tasks TasksSim TasksInv TasksOk TasksApi TasksLife TaskNotify.
From S2P Require Import TasksMain Queue QueueData QueueOk QueueWait QueueBlock QueueWake QueueMain.
Local Open Scope Z_scope.

Section sim.
Context `{HL : KLists L, HA : KLists A} {R : L → A → Prop} {HS : KListsSim L A R}.

(** Related states: related kernels, the same queues, the same registry. *)
Definition qrel (s1 : qkernel L) (s2 : qkernel A) : Prop :=
  krel (R := R) (kern s1) (kern s2) ∧ queues s1 = queues s2 ∧ xQueueRegistry s1 = xQueueRegistry s2.

Definition qsim {Q} (m1 : QM L Q) (m2 : QM A Q) : Prop :=
  ∀ s1 s2 s2' r, qrel s1 s2 → m2 s2 = Some (s2', r) → ∃ s1', m1 s1 = Some (s1', r) ∧ qrel s1' s2'.

Lemma qsim_ret {Q} (r : Q) : qsim (mret r) (mret r).
Proof. intros s1 s2 s2' q HR [= <- <-]. by eexists. Qed.

Lemma qsim_bind {P Q} (m1 : QM L P) m2 (f1 : P → QM L Q) f2 :
  qsim m1 m2 → (∀ r, qsim (f1 r) (f2 r)) → qsim (m1 ≫= f1) (m2 ≫= f2).
Proof.
  intros Hm Hf s1 s2 s2' q HR E. unfold mbind, QM_bind in *. apply bind_Some in E as ([s r] & E1 & E2).
  destruct (Hm _ _ _ _ HR E1) as (s1' & -> & HR'). simpl. by eapply Hf.
Qed.

Lemma qsim_lift {Q} (m1 : K L Q) m2 : ksim (R := R) m1 m2 → qsim (lift m1) (lift m2).
Proof.
  intros Hm s1 s2 s2' q (HR & Eq & Er) E. unfold lift in *. apply bind_Some in E as ([k r] & E1 & E2).
  destruct (Hm _ _ _ _ HR E1) as (k1 & -> & HR'). simplify_eq/=. rewrite Eq, Er. by eexists.
Qed.

Lemma qsim_access {Q} (p : option Q) : qsim (access p) (access p).
Proof. intros s1 s2 s2' q HR E. destruct p; [|done]. simplify_eq/=. by eexists. Qed.

Lemma qsim_getq q : qsim (getq q) (getq q).
Proof.
  intros s1 s2 s2' r (HR & Eq & Er) E. unfold getq in *. rewrite Eq. destruct (queues s2 !! q); [|done]. simplify_eq/=.
  by eexists.
Qed.

Lemma qsim_updq q f : qsim (updq q f) (updq q f).
Proof.
  intros s1 s2 s2' r (HR & Eq & Er) E. unfold updq in *. rewrite Eq, Er. destruct (queues s2 !! q); [|done]. simplify_eq/=.
  by eexists.
Qed.

Lemma qsim_upd_queues f : qsim (upd_queues f) (upd_queues f).
Proof. intros s1 s2 s2' r (HR & Eq & Er) E. unfold upd_queues in *. rewrite Eq, Er. simplify_eq/=. by eexists. Qed.

Lemma qsim_if {Q} (b : bool) (m1 n1 : QM L Q) m2 n2 :
  qsim m1 m2 → qsim n1 n2 → qsim (if b then m1 else n1) (if b then m2 else n2).
Proof. by destruct b. Qed.
End sim.

Create HintDb qsim.
#[export] Hint Resolve qsim_ret qsim_access qsim_getq qsim_updq qsim_upd_queues : qsim.

(** Follows the structure of a function. *)
Ltac qsim_step :=
  first
    [ solve [eauto with qsim typeclass_instances]
    | apply qsim_bind; [|intros ?]
    | apply qsim_if
    | apply qsim_lift; first [apply ksim_lst; exact Logic.I | solve [ksim]]
    | progress cbv zeta
    | progress unfold whenq
    | progress unfold queueYIELD_IF_USING_PREEMPTION
    | match goal with |- qsim (let '(_, _) := ?p in _) _ => destruct p end
    | match goal with |- qsim (match ?p with _ => _ end) _ => destruct p end ].

Ltac qsim := repeat qsim_step.

Section functions.
Context `{HL : KLists L, HA : KLists A} {R : L → A → Prop} {HS : KListsSim L A R} {HF : KListsFreeSim L A R}.
Local Abbreviation sim f := (qsim (R := R) f f).

Lemma sim_unblock_first l : ksim (R := R) (unblock_first l) (unblock_first l).
Proof. unfold unblock_first. ksim. Qed.
Lemma sim_unlock_loop n l : ksim (R := R) (unlock_loop n l) (unlock_loop n l).
Proof. induction n as [|n IH]; simpl; ksim. Qed.
#[local] Hint Resolve sim_unblock_first sim_unlock_loop : ksim.
Lemma qsim_prvLockQueue q : sim (prvLockQueue q).
Proof. unfold prvLockQueue. qsim. Qed.
Lemma qsim_prvUnlockQueue irq1 irq2 q : qsim (R := R) irq1 irq2 → qsim (R := R) (prvUnlockQueue irq1 q) (prvUnlockQueue irq2 q).
Proof. intros Hi. unfold prvUnlockQueue, prvUnlockQueue_tx, prvUnlockQueue_rx. qsim. Qed.
Lemma qsim_IncTx q v : sim (prvIncrementQueueTxLock q v).
Proof. unfold prvIncrementQueueTxLock. qsim. Qed.
Lemma qsim_IncRx q v : sim (prvIncrementQueueRxLock q v).
Proof. unfold prvIncrementQueueRxLock. qsim. Qed.
Lemma qsim_CopyTo q item pos : sim (prvCopyDataToQueue q item pos).
Proof. unfold prvCopyDataToQueue. qsim. Qed.
Lemma qsim_CopyFrom q : sim (prvCopyDataFromQueue q).
Proof. unfold prvCopyDataFromQueue. qsim. Qed.
#[local] Hint Resolve qsim_prvLockQueue qsim_prvUnlockQueue qsim_IncTx qsim_IncRx qsim_CopyTo qsim_CopyFrom : qsim.
Lemma qsim_Reset q b : sim (xQueueGenericReset q b).
Proof. unfold xQueueGenericReset. qsim. Qed.
#[local] Hint Resolve qsim_Reset : qsim.
Lemma qsim_Create alloc n z : sim (xQueueGenericCreate alloc n z).
Proof. unfold xQueueGenericCreate, prvInitialiseNewQueue. qsim. Qed.

(** A computation that may change the registry only. *)
Lemma qsim_registry {Q} (f : list (option positive * option QueueHandle_t) → list (option positive * option QueueHandle_t) * Q)
    (m1 : QM L Q) (m2 : QM A Q) :
  (∀ s, m1 s = Some (MkQK (kern s) (queues s) (f (xQueueRegistry s)).1, (f (xQueueRegistry s)).2)) →
  (∀ s, m2 s = Some (MkQK (kern s) (queues s) (f (xQueueRegistry s)).1, (f (xQueueRegistry s)).2)) →
  qsim (R := R) m1 m2.
Proof.
  intros H1 H2 s1 s2 s2' r (HR & Eq & Er) E. rewrite H2 in E. simplify_eq. rewrite H1, Eq, Er. by eexists.
Qed.

Lemma qsim_vQueueUnregisterQueue q : sim (vQueueUnregisterQueue q).
Proof.
  apply (qsim_registry (λ reg, (match list_find (λ e, e.2 = Some q) reg with
    Some (i, _) => <[i := (None, None)]> reg | None => reg end, ())));
    intros []; unfold vQueueUnregisterQueue; simpl; by destruct (list_find _ _) as [[]|].
Qed.

Lemma qsim_vQueueAddToRegistry q name : sim (vQueueAddToRegistry q name).
Proof.
  apply (qsim_registry (λ reg, (match name, vQueueAddToRegistry_slot q reg with
    Some _, Some i => <[i := (name, Some q)]> reg | _, _ => reg end, ())));
    intros [kn qs reg]; unfold vQueueAddToRegistry; simpl; (destruct name as [nm|]; [|done]); by destruct (vQueueAddToRegistry_slot q reg).
Qed.
#[local] Hint Resolve qsim_Create qsim_vQueueUnregisterQueue qsim_vQueueAddToRegistry : qsim.

Lemma ksim_free l : ksim (R := R) (lst (KFree l)) (lst (KFree l)).
Proof.
  intros k1 k2 k2' q [HR HD] E. unfold lst in *. bind_step E as [a r] E1. simplify_eq.
  destruct (sim_free _ _ _ _ _ HR E1) as (s' & -> & HR'). by eexists.
Qed.

Lemma qsim_vQueueDelete q : sim (vQueueDelete q).
Proof.
  unfold vQueueDelete. repeat (apply qsim_bind; [|intros ?]); try (apply qsim_lift, ksim_free); qsim.
Qed.

Lemma qsim_Send_try q item pos ticks entry : sim (xQueueGenericSend_try q item pos ticks entry).
Proof. unfold xQueueGenericSend_try. qsim. Qed.
Lemma qsim_receive_failed Q ticks entry : sim (receive_failed (R := Q) ticks entry).
Proof. unfold receive_failed. qsim. Qed.
#[local] Hint Resolve qsim_receive_failed : qsim.
Lemma qsim_Receive_try q ticks entry : sim (xQueueReceive_try q ticks entry).
Proof. unfold xQueueReceive_try. qsim. Qed.
Lemma qsim_Take_try q ticks entry : sim (xQueueSemaphoreTake_try q ticks entry).
Proof. unfold xQueueSemaphoreTake_try. qsim. Qed.
Lemma qsim_Peek_try q ticks entry : sim (xQueuePeek_try q ticks entry).
Proof. unfold xQueuePeek_try. qsim. Qed.
Lemma qsim_SendFromISR q item pos : sim (xQueueGenericSendFromISR q item pos).
Proof. unfold xQueueGenericSendFromISR. qsim. Qed.
Lemma qsim_GiveFromISR q : sim (xQueueGiveFromISR q).
Proof. unfold xQueueGiveFromISR. qsim. Qed.
Lemma qsim_ReceiveFromISR q : sim (xQueueReceiveFromISR q).
Proof. unfold xQueueReceiveFromISR. qsim. Qed.
Lemma qsim_PeekFromISR q : sim (xQueuePeekFromISR q).
Proof. unfold xQueuePeekFromISR. qsim. Qed.
#[local] Hint Resolve qsim_vQueueDelete qsim_Send_try qsim_Receive_try qsim_Take_try qsim_Peek_try qsim_SendFromISR
  qsim_GiveFromISR qsim_ReceiveFromISR qsim_PeekFromISR : qsim.

Lemma qsim_run_icalls cs : sim (run_icalls cs).
Proof. induction cs as [|[] cs IH]; simpl; qsim. Qed.

Lemma qsim_wait_on_queue irqs q l b1 b2 to n :
  qsim (R := R) b1 b2 →
  qsim (R := R) (wait_on_queue (λ i, run_icalls (irqs i)) q l b1 to n) (wait_on_queue (λ i, run_icalls (irqs i)) q l b2 to n).
Proof. intros Hb. pose proof qsim_run_icalls. unfold wait_on_queue. qsim. Qed.

Lemma qsim_run_qcall c : sim (run_qcall c).
Proof.
  destruct c; simpl.
  1: apply qsim_bind; [apply qsim_lift, sim_run_call|intros ?; apply qsim_ret].
  1-9: qsim.
  2-7: unfold uxQueueMessagesWaiting, uxQueueSpacesAvailable; qsim.
  destruct d; (apply qsim_bind; [apply qsim_wait_on_queue; unfold prvIsQueueEmpty, prvIsQueueFull; qsim|intros ?; apply qsim_ret]).
Qed.
End functions.

(** The calls in order, with their results. *)
Fixpoint run_qcalls `{KLists L} (cs : list qcall) : QM L (list qresult) :=
  match cs with
  | [] => mret []
  | c :: cs => r ← run_qcall c; rs ← run_qcalls cs; mret (r :: rs)
  end.

Lemma qrun_calls idle s tr s' : qrun idle s tr s' → run_qcalls (tr.*1) s = Some (s', tr.*2).
Proof.
  induction 1 as [|s c r s1 tr s' P E R IH]; [done|]. csimpl. unfold mbind at 1, QM_bind. rewrite E. simpl. unfold mbind at 1, QM_bind. by rewrite IH.
Qed.

Lemma qsim_run_qcalls cs : qsim (R := refines) (run_qcalls cs) (run_qcalls cs).
Proof.
  induction cs as [|c cs IH]; simpl; [apply qsim_ret|].
  apply qsim_bind; [apply (qsim_run_qcall (R := refines))|intros r]. apply qsim_bind; [done|intros rs; apply qsim_ret].
Qed.

(** Refinement: the kernel and its queues over the doubly linked lists of
    list.c do what they do over abstract lists.  From a store that represents
    blank memory, start-up and any sequence of permitted calls (creating and
    deleting queues included) return, without a dangling pointer on the way,
    with the same results, in a store that represents the abstract lists, with
    the same queues. *)
Theorem queues_on_store st A ts idle k0 tr s :
  refines st A → blank A → main_ok ts idle →
  run_main ts idle (MkKernel A boot_data) = Some (k0, ()) → qrun idle (no_queues k0) tr s →
  ∃ ks ss, run_main ts idle (MkKernel st boot_data) = Some (ks, ()) ∧
    run_qcalls (tr.*1) (no_queues ks) = Some (ss, tr.*2) ∧
    refines (lists (kern ss)) (lists (kern s)) ∧ data (kern ss) = data (kern s) ∧ queues ss = queues s.
Proof.
  intros R B M E0 Q. destruct (sim_run_main ts idle (MkKernel st boot_data) (MkKernel A boot_data) k0 ()) as (ks & Es & HR);
    [by split|done|]. exists ks.
  destruct (qsim_run_qcalls (tr.*1) (no_queues ks) (no_queues k0) s (tr.*2)) as (ss & E & (HR' & Eq & _)).
  - by split_and!.
  - by apply (qrun_calls idle).
  - exists ss. split_and!; [done|done|apply HR'|apply HR'|done].
Qed.
