(* ===== verification/QueueUse.v ===== *)
(** * What the users of a queue rely on

    Sending and receiving wake the task that has waited longest among those of
    the highest priority; runs of the kernel with queues from start-up, at
    which the theorems on queues are applied. *)
From S2P Require Import Prelude RtosList KList Tasks TasksSim TasksInv TasksOk TasksApi TasksLife TasksMain.
From S2P Require Import Queue QueueData QueueOk QueueWait QueueBlock QueueWake QueueMain QueueSim.
Local Open Scope Z_scope.
Implicit Types (k : akernel) (l : positive) (t : TaskHandle_t) (q : QueueHandle_t) (Q : Queue_t) (s : qkernel astate).

(** ** Waking *)

(** Sending wakes: when tasks wait to receive from a queue that has room and
    the scheduler is not suspended, [xQueueGenericSend] puts the item into the
    queue and makes the first of them ready, off every event list; no other task
    moves, and unless a switch is still due no ready task is above the running
    one. *)
Theorem xQueueGenericSend_wakes idle q Q item pos ticks entry t s :
  qinv idle None s → queues s !! q = Some Q → may_send Q item pos → room Q pos = true →
  uxSchedulerSuspended (data (kern s)) = 0 → first_waiter (kern s) (xTasksWaitingToReceive q) t →
  ∃ s' Q', xQueueGenericSend_try q item pos ticks entry s = Some (s', Return true) ∧
    queues s' = <[q := Q']> (queues s) ∧ items Q' = enqueue pos (sent_item Q item) (items Q) ∧
    awake (kern s') t ∧ (∀ u, u ≠ t → same_place (kern s) (kern s') u) ∧ kernel_ok idle (kern s').
Proof.
  intros I HQ Hm Hr Hs Hf. destruct (qi_ring _ _ _ _ _ I HQ) as [xs R].
  assert (W : wpq (xQueueGenericSend_try q item pos ticks entry) (λ a s', a = Return true ∧ ∃ Q',
    queues s' = <[q := Q']> (queues s) ∧ items Q' = enqueue pos (sent_item Q item) (items Q) ∧
    awake (kern s') t ∧ (∀ u, u ≠ t → same_place (kern s) (kern s') u) ∧ kernel_ok idle (kern s')) s).
  { apply (wp_xQueueGenericSend_try idle None q Q xs); [done..|]. rewrite Hr. intros s' Q' I' St _ R' S'. split; [done|].
    exists Q'. destruct (signalled_spec _ _ _ (so_kern _ _ _ _ _ St)) as [H _]. destruct (H t Hf) as [H1 H2]. rewrite Hs in H1.
    rewrite (ring_items Q' _ R'), (ring_items Q _ R). split_and!; [apply St|done..|by apply inv_kernel_ok, I']. }
  apply wpq_result in W as (s' & a & E & -> & Q' & H). by exists s', Q'.
Qed.

(** Receiving wakes: when tasks wait to send to a queue that is not empty and
    the scheduler is not suspended, [xQueueReceive] takes the oldest item and
    makes the first of them ready, off every event list; no other task moves,
    and unless a switch is still due no ready task is above the running one. *)
Theorem xQueueReceive_wakes idle q Q ticks entry t s :
  qinv idle None s → queues s !! q = Some Q → uxMessagesWaiting Q ≠ 0 →
  uxSchedulerSuspended (data (kern s)) = 0 → first_waiter (kern s) (xTasksWaitingToSend q) t →
  ∃ s' Q' x, xQueueReceive_try q ticks entry s = Some (s', Return (Some x)) ∧
    queues s' = <[q := Q']> (queues s) ∧ items Q = x :: items Q' ∧
    awake (kern s') t ∧ (∀ u, u ≠ t → same_place (kern s) (kern s') u) ∧ kernel_ok idle (kern s').
Proof.
  intros I HQ Hn Hs Hf. destruct (qi_ring _ _ _ _ _ I HQ) as [xs R].
  assert (W : wpq (xQueueReceive_try q ticks entry) (λ a s', ∃ Q' x, a = Return (Some x) ∧
    queues s' = <[q := Q']> (queues s) ∧ items Q = x :: items Q' ∧
    awake (kern s') t ∧ (∀ u, u ≠ t → same_place (kern s) (kern s') u) ∧ kernel_ok idle (kern s')) s).
  { apply (wp_xQueueReceive_try idle None q Q xs); [done..|]. destruct xs as [|x ys].
    { destruct R as [r Ra]. by destruct Hn; rewrite (rg_waiting _ _ _ Ra). }
    intros s' Q' I' St _ R' S'. exists Q', x.
    destruct (signalled_spec _ _ _ (so_kern _ _ _ _ _ St)) as [H _]. destruct (H t Hf) as [H1 H2]. rewrite Hs in H1.
    rewrite (ring_items Q' _ R'), (ring_items Q _ R). split_and!; [done|apply St|done..|by apply inv_kernel_ok, I']. }
  apply wpq_result in W as (s' & a & E & Q' & x & -> & H). by exists s', Q', x.
Qed.

(** ** A run

    From the start-up of the example of TasksMain.v: a queue of one item of
    four bytes is created at 6; task 2 waits to receive from it, or the queue
    is filled and task 2 waits to send. *)
Definition result_state {R} (r : option (qkernel astate * R)) s : qkernel astate := match r with Some (s', _) => s' | None => s end.

Definition after (c : qcall) s : qkernel astate := result_state (run_qcall c s) s.

Lemma after_spec c s : qinv 4 None s → qpermitted 4 s c → (∃ r, run_qcall c s = Some (after c s, r)) ∧ qinv 4 None (after c s).
Proof.
  intros I P. pose proof (wp_qcall 4 c s I P) as W. unfold wpq, after in *. destruct (run_qcall c s) as [[s' r]|]; [|done].
  split; [by exists r|]. apply W.
Qed.

Definition q_start : qkernel astate := no_queues started.
Definition example_item : list Z := [1; 2; 3; 4].
Definition create_6 : qcall := QCreate (Some (6%positive, [0; 0; 0; 0])) 1 4.
Definition send_6 : qcall := QSend 6 example_item queueSEND_TO_BACK 0 None.
Definition q_created : qkernel astate := after create_6 q_start.
Definition q_full : qkernel astate := after send_6 q_created.
Definition q_receiver : qkernel astate := after (QWait ToReceive (λ _, []) 6 (0, 0) 9) q_created.
Definition q_sender : qkernel astate := after (QWait ToSend (λ _, []) 6 (0, 0) 9) q_full.

Lemma q_start_inv : qinv 4 None q_start.
Proof. apply qinv_start, started_main. Qed.

Lemma create_6_permitted : qpermitted 4 q_start create_6.
Proof.
  split; [lia|]. split; [lia|]. intros q m _ [= <- <-]. split; [done|]. split; [done|]. split; [done|].
  intros l [->| ->]; (split; [apply (bool_decide_unpack _)|]; vm_compute; reflexivity).
Qed.

Lemma q_created_inv : qinv 4 None q_created.
Proof. apply (after_spec create_6 q_start q_start_inv create_6_permitted). Qed.

(** The queue at 6, if it is there. *)
Definition queue_6 s : Queue_t := default (MkQueue [] 0 0 0 0 0 0 0 0) (queues s !! 6%positive).

Lemma queue_6_created : queues q_created !! 6%positive = Some (queue_6 q_created).
Proof. vm_compute. reflexivity. Qed.

Lemma queue_6_full : queues q_full !! 6%positive = Some (queue_6 q_full).
Proof. vm_compute. reflexivity. Qed.

Lemma queue_6_may_send s item pos : uxItemSize (queue_6 s) = 4 → length item = 4%nat → pos ≠ queueOVERWRITE → may_send (queue_6 s) item pos.
Proof. intros E Hl Hp. unfold may_send. rewrite E, Hl. done. Qed.

Lemma send_6_permitted : qpermitted 4 q_created send_6.
Proof. exists (queue_6 q_created). split; [apply queue_6_created|]. by apply queue_6_may_send; [vm_compute; reflexivity|..]. Qed.

Lemma q_full_inv : qinv 4 None q_full.
Proof. apply (after_spec send_6 q_created q_created_inv send_6_permitted). Qed.

(** Task 2 runs in both. *)
Lemma running_by_list k c l : pxCurrentTCB (data k) = Some c → pxReadyTasksLists 2 = Some l → holds_b (lists k) l (St c) = true → running k c.
Proof. intros Hc Hl Hh. split; [done|]. exists 2, l. split; [done|]. by apply holds_b_spec. Qed.

Lemma q_created_running : running (kern q_created) 2.
Proof. apply (running_by_list _ _ 3); vm_compute; reflexivity. Qed.

Lemma q_full_running : running (kern q_full) 2.
Proof. apply (running_by_list _ _ 3); vm_compute; reflexivity. Qed.

(** An interrupt that sends before the waiting task is on the event list, and
    one that receives after it is. *)
Definition irq_send (i : nat) : list icall := if Nat.eqb i 3 then [ITick; ISend 6 example_item queueSEND_TO_BACK] else [].
Definition irq_receive (i : nat) : list icall := if Nat.eqb i 4 then [IReceive 6; ITick] else [].

Lemma irq_send_permitted i : Forall (ipermitted q_created) (irq_send i).
Proof.
  unfold irq_send. destruct (Nat.eqb i 3); [|constructor]. constructor; [done|]. constructor; [|constructor].
  exists (queue_6 q_created). split; [apply queue_6_created|]. by apply queue_6_may_send; [vm_compute; reflexivity|..].
Qed.

Lemma irq_receive_permitted i : Forall (ipermitted q_full) (irq_receive i).
Proof.
  unfold irq_receive. destruct (Nat.eqb i 4); [|constructor]. constructor; [|by constructor].
  exists (queue_6 q_full). apply queue_6_full.
Qed.

(** Nobody waits. *)
Lemma empty_list k l : (a ← a_lists (lists k) !! l; Some (elems a)) = Some [] → ∀ t, ¬ holds (lists k) l (Ev t).
Proof. intros E t (a & Ha & Hi). rewrite Ha in E. injection E as E. rewrite E in Hi. by apply elem_of_nil in Hi. Qed.

(** The first waiter, computed. *)
Lemma first_by_list k l t : (a ← a_lists (lists k) !! l; head (elems a)) = Some (Ev t) → first_waiter k l t.
Proof.
  intros E. bind_step E as a Ha. destruct (elems a) as [|i xs] eqn:Ei; [done|]. injection E as ->. by exists a, xs.
Qed.

Lemma wait_permitted d s irqs : uxSchedulerSuspended (data (kern s)) = 0 → running (kern s) 2 →
  (∀ i, Forall (ipermitted s) (irqs i)) → is_Some (queues s !! 6%positive) → qpermitted 4 s (QWait d irqs 6 (0, 0) 9).
Proof. intros Hs R Pc HQ. split_and!; [done| |lia|lia|done|done]. by exists 2%positive. Qed.

Lemma q_receiver_inv : qinv 4 None q_receiver.
Proof.
  apply after_spec; [apply q_created_inv|]. apply wait_permitted; [vm_compute; reflexivity|apply q_created_running|by constructor|].
  eexists. apply queue_6_created.
Qed.

Lemma q_sender_inv : qinv 4 None q_sender.
Proof.
  apply after_spec; [apply q_full_inv|]. apply wait_permitted; [vm_compute; reflexivity|apply q_full_running|by constructor|].
  eexists. apply queue_6_full.
Qed.

Lemma example_run s c1 c2 : qinv 4 None s → qpermitted 4 s c1 → qpermitted 4 (after c1 s) c2 →
  ∃ r1 r2, qrun 4 s [(c1, r1); (c2, r2)] (after c2 (after c1 s)).
Proof.
  intros I P1 P2. destruct (after_spec c1 s I P1) as [[r1 E1] I1]. destruct (after_spec c2 _ I1 P2) as [[r2 E2] _].
  exists r1, r2. econstructor; [done..|]. econstructor; [done..|]. constructor.
Qed.

Lemma q_full_run : ∃ r1 r2, qrun 4 q_start [(create_6, r1); (send_6, r2)] q_full.
Proof. apply example_run; [apply q_start_inv|apply create_6_permitted|apply send_6_permitted]. Qed.

Lemma queues_safe_witness : ∃ tr, qrun 4 (no_queues started) tr q_full ∧ kernel_ok 4 (kern q_full) ∧ queues_ok q_full.
Proof.
  destruct q_full_run as (r1 & r2 & R). eexists. split; [exact R|].
  destruct (queues_safe main_abs main_tasks 4 started _ q_full main_blank main_fine (proj1 started_main) R) as (H1 & H2 & _).
  split; [exact H1|exact H2].
Defined.

Lemma queues_are_fifo_witness : ∃ tr, qrun 4 (no_queues started) tr q_full ∧ spec_run ∅ tr (contents q_full).
Proof.
  destruct q_full_run as (r1 & r2 & R). eexists. split; [exact R|].
  exact (queues_are_fifo main_abs main_tasks 4 started _ q_full main_blank main_fine (proj1 started_main) R).
Defined.

Lemma queues_on_store_witness : ∃ ks ss rs, run_main main_tasks 4 (MkKernel main_store boot_data) = Some (ks, ()) ∧
  run_qcalls [create_6; send_6] (no_queues ks) = Some (ss, rs) ∧ refines (lists (kern ss)) (lists (kern q_full)).
Proof.
  destruct q_full_run as (r1 & r2 & R).
  destruct (queues_on_store main_store main_abs main_tasks 4 started _ q_full main_refines main_blank main_fine
    (proj1 started_main) R) as (ks & ss & E1 & E2 & HR & _).
  exists ks, ss. eexists. split; [exact E1|]. split; [exact E2|exact HR].
Defined.

Lemma xQueueReceive_block_no_lost_wakeup_witness : ∃ s' w,
  xQueueReceive_block (λ i, run_icalls (irq_send i)) 6 (0, 0) 9 q_created = Some (s', w) ∧ qinv 4 None s'.
Proof.
  destruct (xQueueReceive_block_no_lost_wakeup 4 irq_send 6 2 (0, 0) 9 q_created q_created_inv ltac:(vm_compute; reflexivity)
    q_created_running ltac:(done) ltac:(lia) irq_send_permitted ltac:(eexists; apply queue_6_created)
    ltac:(vm_compute; discriminate) (empty_list (kern q_created) (xTasksWaitingToReceive 6) ltac:(vm_compute; reflexivity))) as (s' & w & E & I & _).
  exists s', w. split; [exact E|exact I].
Defined.

Lemma xQueueGenericSend_block_no_lost_wakeup_witness : ∃ s' w,
  xQueueGenericSend_block (λ i, run_icalls (irq_receive i)) 6 (0, 0) 9 q_full = Some (s', w) ∧ qinv 4 None s'.
Proof.
  destruct (xQueueGenericSend_block_no_lost_wakeup 4 irq_receive 6 2 (0, 0) 9 q_full q_full_inv ltac:(vm_compute; reflexivity)
    q_full_running ltac:(done) ltac:(lia) irq_receive_permitted ltac:(eexists; apply queue_6_full)
    ltac:(vm_compute; discriminate) (empty_list (kern q_full) (xTasksWaitingToSend 6) ltac:(vm_compute; reflexivity))) as (s' & w & E & I & _).
  exists s', w. split; [exact E|exact I].
Defined.

Lemma queue_6_receiver : queues q_receiver !! 6%positive = Some (queue_6 q_receiver).
Proof. vm_compute. reflexivity. Qed.

Lemma queue_6_sender : queues q_sender !! 6%positive = Some (queue_6 q_sender).
Proof. vm_compute. reflexivity. Qed.

Lemma xQueueGenericSend_wakes_witness : ∃ s',
  xQueueGenericSend_try 6 example_item queueSEND_TO_BACK 0 None q_receiver = Some (s', Return true) ∧ awake (kern s') 2.
Proof.
  destruct (xQueueGenericSend_wakes 4 6 (queue_6 q_receiver) example_item queueSEND_TO_BACK 0 None 2 q_receiver q_receiver_inv
    queue_6_receiver (queue_6_may_send q_receiver example_item queueSEND_TO_BACK ltac:(vm_compute; reflexivity) eq_refl ltac:(done))
    ltac:(vm_compute; reflexivity) ltac:(vm_compute; reflexivity) (first_by_list (kern q_receiver) (xTasksWaitingToReceive 6) 2 ltac:(vm_compute; reflexivity)))
    as (s' & Q' & E & _ & _ & Aw & _).
  exists s'. split; [exact E|exact Aw].
Defined.

Lemma xQueueReceive_wakes_witness : ∃ s' x,
  xQueueReceive_try 6 0 None q_sender = Some (s', Return (Some x)) ∧ awake (kern s') 2.
Proof.
  destruct (xQueueReceive_wakes 4 6 (queue_6 q_sender) 0 None 2 q_sender q_sender_inv queue_6_sender
    ltac:(vm_compute; discriminate) ltac:(vm_compute; reflexivity) (first_by_list (kern q_sender) (xTasksWaitingToSend 6) 2 ltac:(vm_compute; reflexivity)))
    as (s' & Q' & x & E & _ & _ & Aw & _).
  exists s', x. split; [exact E|exact Aw].
Defined.
