(* ===== verification/EventGroup.v ===== *)
(** * FreeRTOS-Kernel/event_groups.c: event groups

    A group is a word of event bits and a list of waiting tasks; the condition
    a task waits for is in the value of its event item.  The functions run on
    the scheduler of Tasks.v.  A function that suspends the scheduler around
    its work is one step; the part of a waiting function after the yield is a
    step of its own, [..._return]. *)
From S2P Require Import Prelude RtosList KList Tasks.
Local Open Scope Z_scope.

(** ** Data *)
Definition eventCLEAR_EVENTS_ON_EXIT_BIT : Z := 16777216.   (* 0x01000000 *)
Definition eventUNBLOCKED_DUE_TO_BIT_SET : Z := 33554432.   (* 0x02000000 *)
Definition eventWAIT_FOR_ALL_BITS : Z := 67108864.          (* 0x04000000 *)
Definition eventEVENT_BITS_CONTROL_BYTES : Z := 4278190080. (* 0xff000000 *)

(** [EventGroupHandle_t] is the address of a group; the list is inside it. *)
Abbreviation EventGroupHandle_t := positive.
Definition xTasksWaitingForBits (g : EventGroupHandle_t) : positive := xO g.

(** The kernel, and [uxEventBits] of the groups that exist. *)
Record ekernel (L : Type) := MkEK { ekern : kernel L; groups : gmap positive Z }.
Arguments MkEK {L}.
Arguments ekern {L}.
Arguments groups {L}.

Definition EM (L R : Type) : Type := ekernel L → option (ekernel L * R).

#[export] Instance EM_ret L : MRet (EM L) := λ R r s, Some (s, r).
#[export] Instance EM_bind L : MBind (EM L) := λ R Q f m s, '(s', r) ← m s; f r s'.

Section operations.
Context `{KLists L}.
Implicit Types g : EventGroupHandle_t.

Definition elift {R} (m : K L R) : EM L R := λ s, '(k, r) ← m (ekern s); Some (MkEK k (groups s), r).
Definition getbits g : EM L Z := λ s, b ← groups s !! g; Some (s, b).
Definition setbits g (b : Z) : EM L unit := λ s, groups s !! g;; Some (MkEK (ekern s) (<[g := b]> (groups s)), ()).
Definition upd_groups (f : gmap positive Z → gmap positive Z) : EM L unit :=
  λ s, Some (MkEK (ekern s) (f (groups s)), ()).
Definition efault {R} : EM L R := λ _, None.
Definition whene (c : bool) (m : EM L unit) : EM L unit := if c then m else mret ().

(** [a &= ~b] *)
Definition clear_bits (a b : Z) : Z := Z.land a (Z.lnot b).

(** ** Creating *)

(** [mem] is the result of pvPortMalloc. *)
Definition xEventGroupCreate (mem : option EventGroupHandle_t) : EM L (option EventGroupHandle_t) :=
  match mem with
  | Some g =>
      upd_groups <[g := 0]>;;
      elift (lst (KOp (OpInit (xTasksWaitingForBits g))));;
      mret (Some g)
  | None => mret None
  end.

(** ** Conditions *)
Definition prvTestWaitCondition (uxCurrentEventBits uxBitsToWaitFor : Z) (xWaitForAllBits : bool) : bool :=
  if negb xWaitForAllBits then negb (Z.land uxCurrentEventBits uxBitsToWaitFor =? 0)
  else Z.land uxCurrentEventBits uxBitsToWaitFor =? uxBitsToWaitFor.

(** [xMatchFound] for an item of value [w]: its control and its waited-for
    bits. *)
Definition control_bits (w : Z) : Z := Z.land w eventEVENT_BITS_CONTROL_BYTES.
Definition waited_bits (w : Z) : Z := clear_bits w eventEVENT_BITS_CONTROL_BYTES.

Definition match_found (bits w : Z) : bool :=
  if Z.land (control_bits w) eventWAIT_FOR_ALL_BITS =? 0
  then negb (Z.land (waited_bits w) bits =? 0)
  else Z.land (waited_bits w) bits =? waited_bits w.

(** ** Setting bits *)

(** The list item at an address, [None] for the end marker. *)
Definition as_item (z : Z) : option positive := match z with Zpos i => Some i | _ => None end.

(** The loop over the waiting tasks; the result is [uxBitsToClear].  [fuel]:
    the length of the list. *)
Fixpoint set_bits_loop (fuel : nat) g (pxListItem : option positive) (uxBitsToClear : Z) : EM L Z :=
  match pxListItem, fuel with
  | None, _ => mret uxBitsToClear
  | Some _, O => efault
  | Some i, S fuel =>
      pxNext ← elift (rd (RdNext (xTasksWaitingForBits g) (Some i)));
      w ← elift (rd (RdValue i));
      bits ← getbits g;
      if match_found bits w then
        o ← elift (rd (RdOwner i));
        elift (vTaskRemoveFromUnorderedEventList (Z.to_pos o) (Z.lor bits eventUNBLOCKED_DUE_TO_BIT_SET));;
        set_bits_loop fuel g (as_item pxNext)
          (if negb (Z.land (control_bits w) eventCLEAR_EVENTS_ON_EXIT_BIT =? 0)
           then Z.lor uxBitsToClear (waited_bits w) else uxBitsToClear)
      else set_bits_loop fuel g (as_item pxNext) uxBitsToClear
  end.

Definition xEventGroupSetBits g (uxBitsToSet : Z) : EM L Z :=
  elift vTaskSuspendAll;;
  first ← elift (rd (RdNext (xTasksWaitingForBits g) None));
  n ← elift (rd (RdLength (xTasksWaitingForBits g)));
  b ← getbits g;
  setbits g (Z.lor b uxBitsToSet);;
  uxBitsToClear ← set_bits_loop (Z.to_nat n) g (as_item first) 0;
  b ← getbits g;
  setbits g (clear_bits b uxBitsToClear);;
  elift xTaskResumeAll;;
  getbits g.

Definition xEventGroupClearBits g (uxBitsToClear : Z) : EM L Z :=
  b ← getbits g;
  setbits g (clear_bits b uxBitsToClear);;
  mret b.

Definition xEventGroupGetBitsFromISR g : EM L Z := getbits g.

(** ** Waiting *)

(** Resume, and yield if that has not happened yet and the task waits: [None];
    [Some r] is the value returned without waiting. *)
Definition finish_wait (r : option Z) : EM L (option Z) :=
  xAlreadyYielded ← elift xTaskResumeAll;
  match r with
  | None => elift (when (negb xAlreadyYielded) portYIELD);; mret None
  | Some r => mret (Some r)
  end.

Definition xEventGroupWaitBits g (uxBitsToWaitFor : Z) (xClearOnExit xWaitForAllBits : bool) (xTicksToWait : Z)
  : EM L (option Z) :=
  elift vTaskSuspendAll;;
  uxCurrentEventBits ← getbits g;
  r ← (if prvTestWaitCondition uxCurrentEventBits uxBitsToWaitFor xWaitForAllBits then
         whene xClearOnExit (setbits g (clear_bits uxCurrentEventBits uxBitsToWaitFor));;
         mret (Some uxCurrentEventBits)
       else if xTicksToWait =? 0 then mret (Some uxCurrentEventBits)
       else
         let uxControlBits := Z.lor (if xClearOnExit then eventCLEAR_EVENTS_ON_EXIT_BIT else 0)
                                (if xWaitForAllBits then eventWAIT_FOR_ALL_BITS else 0) in
         elift (vTaskPlaceOnUnorderedEventList (xTasksWaitingForBits g) (Z.lor uxBitsToWaitFor uxControlBits) xTicksToWait);;
         mret None);
  finish_wait r.

(** When the task that waited runs again. *)
Definition xEventGroupWaitBits_return g (uxBitsToWaitFor : Z) (xClearOnExit xWaitForAllBits : bool) : EM L Z :=
  uxReturn ← elift uxTaskResetEventItemValue;
  uxReturn ← (if Z.land uxReturn eventUNBLOCKED_DUE_TO_BIT_SET =? 0 then
                b ← getbits g;
                whene (prvTestWaitCondition b uxBitsToWaitFor xWaitForAllBits && xClearOnExit)
                  (setbits g (clear_bits b uxBitsToWaitFor));;
                mret b
              else mret uxReturn);
  mret (clear_bits uxReturn eventEVENT_BITS_CONTROL_BYTES).

Definition xEventGroupSync g (uxBitsToSet uxBitsToWaitFor xTicksToWait : Z) : EM L (option Z) :=
  elift vTaskSuspendAll;;
  uxOriginalBitValue ← getbits g;
  xEventGroupSetBits g uxBitsToSet;;
  r ← (if Z.land (Z.lor uxOriginalBitValue uxBitsToSet) uxBitsToWaitFor =? uxBitsToWaitFor then
         b ← getbits g;
         setbits g (clear_bits b uxBitsToWaitFor);;
         mret (Some (Z.lor uxOriginalBitValue uxBitsToSet))
       else if negb (xTicksToWait =? 0) then
         elift (vTaskPlaceOnUnorderedEventList (xTasksWaitingForBits g)
           (Z.lor (Z.lor uxBitsToWaitFor eventCLEAR_EVENTS_ON_EXIT_BIT) eventWAIT_FOR_ALL_BITS) xTicksToWait);;
         mret None
       else b ← getbits g; mret (Some b));
  finish_wait r.

Definition xEventGroupSync_return g (uxBitsToWaitFor : Z) : EM L Z :=
  uxReturn ← elift uxTaskResetEventItemValue;
  uxReturn ← (if Z.land uxReturn eventUNBLOCKED_DUE_TO_BIT_SET =? 0 then
                b ← getbits g;
                whene (Z.land b uxBitsToWaitFor =? uxBitsToWaitFor) (setbits g (clear_bits b uxBitsToWaitFor));;
                mret b
              else mret uxReturn);
  mret (clear_bits uxReturn eventEVENT_BITS_CONTROL_BYTES).

(** ** Deleting *)

(** The loop that unblocks all waiting tasks; [fuel]: the length of the list. *)
Fixpoint delete_loop (fuel : nat) g : EM L unit :=
  n ← elift (rd (RdLength (xTasksWaitingForBits g)));
  if 0 <? n then
    match fuel with
    | O => efault
    | S fuel =>
        o ← elift (rd (RdHeadOwner (xTasksWaitingForBits g)));
        elift (vTaskRemoveFromUnorderedEventList (Z.to_pos o) eventUNBLOCKED_DUE_TO_BIT_SET);;
        delete_loop fuel g
    end
  else mret ().

(** vPortFree takes the memory of the group, its list included. *)
Definition vEventGroupDelete g : EM L unit :=
  elift vTaskSuspendAll;;
  n ← elift (rd (RdLength (xTasksWaitingForBits g)));
  delete_loop (Z.to_nat n) g;;
  elift xTaskResumeAll;;
  elift (lst (KFree (xTasksWaitingForBits g)));;
  upd_groups (delete g).

(** ** Callbacks *)
Definition vEventGroupSetBitsCallback g (ulBitsToSet : Z) : EM L unit := xEventGroupSetBits g ulBitsToSet;; mret ().
Definition vEventGroupClearBitsCallback g (ulBitsToClear : Z) : EM L unit := xEventGroupClearBits g ulBitsToClear;; mret ().

End operations.
