(* ===== verification/EventGroupOk.v ===== *)
(** * What event_groups.c does to waiting tasks

    A task waits with its condition in the value of its event item.  Setting
    bits wakes exactly the tasks whose condition is met, hands them the bits
    and clears what they asked to be cleared. *)
From S2P Require Import Prelude RtosList KList Tasks TasksSim TasksInv TasksOk TasksApi TasksMain EventGroup.
Local Open Scope Z_scope.
Implicit Types (A : astate) (k : akernel) (l g : positive) (t : TaskHandle_t) (s : ekernel astate) (b w : Z).

(** ** The encoding of conditions

    Event bits are the low 24 bits of a word, control bits the others. *)
Definition event_bits b : Prop := 0 ≤ b < 16777216.

Lemma high_bits_zero b n : event_bits b → 24 ≤ n → Z.testbit b n = false.
Proof.
  intros Hb Hn. destruct (Z.eq_dec b 0) as [->|]; [apply Z.testbit_0_l|].
  apply Z.bits_above_log2; [unfold event_bits in *; lia|]. apply Z.log2_lt_pow2; [unfold event_bits in *; lia|].
  apply Z.lt_le_trans with (2 ^ 24); [unfold event_bits in *; lia|]. by apply Z.pow_le_mono_r; lia.
Qed.

Lemma control_testbit n : 0 ≤ n → Z.testbit eventEVENT_BITS_CONTROL_BYTES n = (24 <=? n) && (n <? 32).
Proof.
  intros Hn. change eventEVENT_BITS_CONTROL_BYTES with (Z.shiftl (Z.ones 8) 24). rewrite Z.shiftl_spec by done.
  destruct (Z.leb_spec 24 n).
  - rewrite Z.testbit_ones_nonneg by lia. destruct (Z.ltb_spec (n - 24) 8), (Z.ltb_spec n 32); lia.
  - rewrite Z.testbit_neg_r by lia. done.
Qed.

(** A control word: the bits from 24 to 31 only. *)
Definition control_word c : Prop := ∀ n, 0 ≤ n → Z.testbit c n = true → 24 ≤ n < 32.

Lemma pow_control m : 24 ≤ m < 32 → control_word (2 ^ m).
Proof. intros Hm n Hn. rewrite Z.pow2_bits_eqb by lia. intros ->%Z.eqb_eq. done. Qed.

Lemma lor_control c d : control_word c → control_word d → control_word (Z.lor c d).
Proof. intros Hc Hd n Hn. rewrite Z.lor_spec. intros [?|?]%orb_true_iff; auto. Qed.

Lemma zero_control : control_word 0.
Proof. intros n Hn. by rewrite Z.testbit_0_l. Qed.

Lemma waited_of b c : event_bits b → control_word c → waited_bits (Z.lor b c) = b.
Proof.
  intros Hb Hc. apply Z.bits_inj'. intros n Hn. unfold waited_bits, clear_bits.
  rewrite Z.land_spec, Z.lnot_spec, Z.lor_spec, control_testbit by done.
  destruct (Z.leb_spec 24 n).
  - rewrite (high_bits_zero b n) by done. destruct (Z.ltb_spec n 32); simpl; [by rewrite andb_false_r|].
    destruct (Z.testbit c n) eqn:E; [|done]. apply Hc in E; lia.
  - destruct (Z.testbit c n) eqn:E; [apply Hc in E; lia|]. simpl. by rewrite orb_false_r, andb_true_r.
Qed.

Lemma control_of b c : event_bits b → control_word c → control_bits (Z.lor b c) = c.
Proof.
  intros Hb Hc. apply Z.bits_inj'. intros n Hn. unfold control_bits.
  rewrite Z.land_spec, Z.lor_spec, control_testbit by done.
  destruct (Z.leb_spec 24 n).
  - rewrite (high_bits_zero b n) by done. destruct (Z.ltb_spec n 32); simpl; [by rewrite andb_true_r|].
    rewrite andb_false_r. destruct (Z.testbit c n) eqn:E; [apply Hc in E; lia|done].
  - simpl. rewrite andb_false_r. destruct (Z.testbit c n) eqn:E; [apply Hc in E; lia|done].
Qed.

(** The control bits of a waiting task. *)
Definition wait_control (xClearOnExit xWaitForAllBits : bool) : Z :=
  Z.lor (if xClearOnExit then eventCLEAR_EVENTS_ON_EXIT_BIT else 0) (if xWaitForAllBits then eventWAIT_FOR_ALL_BITS else 0).

(** The value of its event item. *)
Definition wait_value b (xClearOnExit xWaitForAllBits : bool) : Z :=
  Z.lor (Z.lor b (wait_control xClearOnExit xWaitForAllBits)) taskEVENT_LIST_ITEM_VALUE_IN_USE.

Lemma wait_control_word cl al : control_word (Z.lor (wait_control cl al) taskEVENT_LIST_ITEM_VALUE_IN_USE).
Proof.
  apply lor_control; [apply lor_control|by apply (pow_control 31)].
  - destruct cl; [by apply (pow_control 24)|apply zero_control].
  - destruct al; [by apply (pow_control 26)|apply zero_control].
Qed.

(** The test of the setting loop is the test of the waiting task. *)
Lemma match_found_value b w cl al : event_bits w → match_found b (wait_value w cl al) = prvTestWaitCondition b w al.
Proof.
  intros Hw. unfold match_found, wait_value, prvTestWaitCondition. rewrite <- Z.lor_assoc.
  rewrite waited_of, control_of by (done || apply wait_control_word). rewrite (Z.land_comm b w). by destruct cl, al.
Qed.

Lemma clears_value w cl al : event_bits w →
  waited_bits (wait_value w cl al) = w ∧
  negb (Z.land (control_bits (wait_value w cl al)) eventCLEAR_EVENTS_ON_EXIT_BIT =? 0) = cl.
Proof.
  intros Hw. unfold wait_value. rewrite <- Z.lor_assoc.
  rewrite waited_of, control_of by (done || apply wait_control_word). split; [done|]. by destruct cl, al.
Qed.

(** What a woken task finds: the bits, marked. *)
Definition woken_value b : Z := Z.lor (Z.lor b eventUNBLOCKED_DUE_TO_BIT_SET) taskEVENT_LIST_ITEM_VALUE_IN_USE.

Lemma woken_value_bits b : event_bits b →
  (Z.land (woken_value b) eventUNBLOCKED_DUE_TO_BIT_SET =? 0) = false ∧
  clear_bits (woken_value b) eventEVENT_BITS_CONTROL_BYTES = b.
Proof.
  intros Hb. unfold woken_value. rewrite <- Z.lor_assoc. split.
  - apply Z.eqb_neq. intros E. apply (f_equal (λ z, Z.testbit z 25)) in E. rewrite Z.land_spec, Z.lor_spec in E.
    rewrite Z.testbit_0_l in E. change (Z.testbit (Z.lor eventUNBLOCKED_DUE_TO_BIT_SET taskEVENT_LIST_ITEM_VALUE_IN_USE) 25) with true in E.
    by rewrite orb_true_r in E.
  - apply waited_of; [done|]. apply lor_control; [by apply (pow_control 25)|by apply (pow_control 31)].
Qed.

Lemma wait_value_not_woken w cl al : event_bits w →
  (Z.land (wait_value w cl al) eventUNBLOCKED_DUE_TO_BIT_SET =? 0) = true.
Proof.
  intros Hw. unfold wait_value. rewrite Z.land_lor_distr_l, Z.land_lor_distr_l.
  replace (Z.land w eventUNBLOCKED_DUE_TO_BIT_SET) with 0; [by destruct cl, al|]. symmetry. apply Z.bits_inj'. intros n Hn.
  rewrite Z.land_spec, Z.testbit_0_l. change eventUNBLOCKED_DUE_TO_BIT_SET with (2 ^ 25). rewrite Z.pow2_bits_eqb by lia.
  destruct (Z.eqb_spec 25 n) as [<-|]; [|by rewrite andb_false_r]. by rewrite (high_bits_zero w 25) by (done || lia).
Qed.

Lemma lor_event b c : event_bits b → event_bits c → event_bits (Z.lor b c).
Proof.
  unfold event_bits. intros Hb Hc. split; [apply Z.lor_nonneg; lia|]. destruct (Z.eq_dec (Z.lor b c) 0) as [->|]; [lia|].
  assert (0 ≤ Z.lor b c) by (apply Z.lor_nonneg; lia). change 16777216 with (2 ^ 24). apply Z.log2_lt_pow2; [lia|].
  rewrite Z.log2_lor by lia.
  apply Z.max_lub_lt; [destruct (Z.eq_dec b 0) as [->|]|destruct (Z.eq_dec c 0) as [->|]]; try done; apply Z.log2_lt_pow2; lia.
Qed.

Lemma clear_event b c : event_bits b → event_bits (clear_bits b c).
Proof.
  unfold event_bits, clear_bits. intros Hb. assert (E : Z.land b (Z.ones 24) = b) by (rewrite Z.land_ones, Z.mod_small; lia).
  rewrite <- E, <- Z.land_assoc, (Z.land_comm (Z.ones 24)), Z.land_assoc, Z.land_ones by lia.
  by apply Z.mod_pos_bound.
Qed.

(** ** Total correctness of the functions *)
Definition wpe {L R} (m : EM L R) (P : R → ekernel L → Prop) (s : ekernel L) : Prop :=
  match m s with Some (s', r) => P r s' | None => False end.

Definition set_ekern {L} (k : kernel L) (s : ekernel L) : ekernel L := MkEK k (groups s).
Definition set_bits {L} g b (s : ekernel L) : ekernel L := MkEK (ekern s) (<[g := b]> (groups s)).

Section wpe.
Context {L : Type}.

Lemma wpe_ret {R} (r : R) P (s : ekernel L) : P r s → wpe (mret r) P s.
Proof. done. Qed.

Lemma wpe_bind {Q R} (m : EM L Q) (f : Q → EM L R) P (s : ekernel L) : wpe m (λ r (s' : ekernel L), wpe (f r) P s') s → wpe (m ≫= f) P s.
Proof. unfold wpe, mbind, EM_bind. by destruct (m s) as [[s' r]|]. Qed.

Lemma wpe_mono {R} (m : EM L R) (P P' : R → ekernel L → Prop) (s : ekernel L) : wpe m P s → (∀ r (s' : ekernel L), P r s' → P' r s') → wpe m P' s.
Proof. unfold wpe. destruct (m s) as [[s' r]|]; eauto. Qed.

Lemma wpe_result {R} (m : EM L R) P (s : ekernel L) : wpe m P s ↔ ∃ (s' : ekernel L) r, m s = Some (s', r) ∧ P r s'.
Proof. unfold wpe. destruct (m s) as [[s' r]|]; naive_solver. Qed.

Lemma wpe_elift {R} (m : K L R) P (s : ekernel L) : wp m (λ r (k : kernel L), P r (set_ekern k s)) (ekern s) → wpe (elift m) P s.
Proof. unfold wp, wpe, elift. by destruct (m (ekern s)) as [[k r]|]. Qed.

Lemma wpe_getbits g b P (s : ekernel L) : groups s !! g = Some b → P b s → wpe (getbits g) P s.
Proof. unfold wpe, getbits. by intros ->. Qed.

Lemma wpe_setbits g b b' P (s : ekernel L) : groups s !! g = Some b → P () (set_bits g b' s) → wpe (setbits g b') P s.
Proof. unfold wpe, setbits, set_bits. by intros ->. Qed.

Lemma wpe_whene (c : bool) (m : EM L unit) P (s : ekernel L) : (c = true → wpe m P s) → (c = false → P () s) → wpe (whene c m) P s.
Proof. unfold whene. destruct c; intros H1 H2; [by apply H1|by apply H2]. Qed.

Lemma wpe_if {R} (c : bool) (m n : EM L R) P (s : ekernel L) : (c = true → wpe m P s) → (c = false → wpe n P s) → wpe (if c then m else n) P s.
Proof. destruct c; auto. Qed.
End wpe.

(** One step of symbolic execution. *)
Ltac wpe_step :=
  lazymatch goal with
  | |- wpe (_ ≫= _) _ _ => apply wpe_bind
  | |- wpe (mret _) _ _ => apply wpe_ret
  | |- wpe (whene _ _) _ _ => apply wpe_whene
  | |- wpe (elift _) _ _ => apply wpe_elift
  end.

(** ** Reading the lists *)
Lemma wp_rd q r Q k : kl_read q (lists k) = Some r → Q r k → wp (rd q) Q k.
Proof. unfold wp, rd. by intros ->. Qed.

Definition entry_of (xs : list positive) : Z := match head xs with Some j => Zpos j | None => 0 end.

Lemma as_item_entry xs : as_item (entry_of xs) = head xs.
Proof. by destruct xs. Qed.

Lemma read_first k l a : a_lists (lists k) !! l = Some a → kl_read (RdNext l None) (lists k) = Some (entry_of (elems a)).
Proof. intros Ha. simpl. unfold a_next_entry. by rewrite Ha. Qed.

Lemma read_next k l a pre i xs : a_lists (lists k) !! l = Some a → elems a = pre ++ i :: xs → NoDup (elems a) →
  kl_read (RdNext l (Some i)) (lists k) = Some (entry_of xs).
Proof.
  intros Ha E ND. simpl. unfold a_next_entry. rewrite Ha. simpl. rewrite E in *.
  rewrite bool_decide_eq_true_2 by set_solver. rewrite succ_of_split; [done|].
  apply NoDup_app in ND as (_ & Hd & _). intros ?. eapply Hd; [done|by left].
Qed.

(** ** The loop that sets bits

    From [k] to [k'] the tasks of [xs] whose condition is met by [b] were
    woken and handed [v]; the others are where they were. *)
Record delivered (met : Z → bool) (v : Z) (xs : list positive) k k' : Prop := {
  de_data : (tcbs (data k'), xTickCount (data k'), xNumOfOverflows (data k'), pxDelayedTaskList (data k'),
      pxOverflowDelayedTaskList (data k')) =
    (tcbs (data k), xTickCount (data k), xNumOfOverflows (data k), pxDelayedTaskList (data k), pxOverflowDelayedTaskList (data k));
  de_woken t : Ev t ∈ xs → met (a_val (lists k) (Ev t)) = true → awake k' t ∧ a_val (lists k') (Ev t) = v;
  de_rest t : Ev t ∉ xs ∨ met (a_val (lists k) (Ev t)) = false →
    same_place k k' t ∧ a_val (lists k') (Ev t) = a_val (lists k) (Ev t);
  de_lists l : is_Some (a_lists (lists k) !! l) → is_Some (a_lists (lists k') !! l) }.

Lemma delivered_nil met v k : delivered met v [] k k.
Proof. constructor; [done|intros t Ht; by apply elem_of_nil in Ht|done..]. Qed.

Lemma delivered_skip met v i xs k k' : (∀ t, i = Ev t → met (a_val (lists k) (Ev t)) = false) →
  delivered met v xs k k' → delivered met v (i :: xs) k k'.
Proof.
  intros Hi [D W R Ls]. constructor; [done| | |done].
  - intros t [E|Ht]%elem_of_cons Hm; [|by apply W]. rewrite (Hi t) in Hm; done.
  - intros t Ht. apply R. rewrite elem_of_cons in Ht. naive_solver.
Qed.

Lemma delivered_step met v t xs k k1 k' :
  unhooked v t k k1 → Ev t ∉ xs → met (a_val (lists k) (Ev t)) = true → delivered met v xs k1 k' →
  delivered met v (Ev t :: xs) k k'.
Proof.
  intros [(top & y & Ed) Uv Ua Ur _ Ul] Hx Hm [D W R Ls]. assert (Hv : ∀ u, u ≠ t → a_val (lists k1) (Ev u) = a_val (lists k) (Ev u)).
  { intros u Hne. rewrite Uv. simpl. rewrite decide_False; [done|]. intros [=]; done. }
  constructor; [by rewrite D, Ed| | |by intros l Hl; apply Ls, Ul].
  - intros u Hu Hmu. destruct (decide (u = t)) as [->|Hne].
    + destruct (R t) as [P Pv]; [by left|]. injection D as Et _ _ _ _. split.
      * apply (awake_same_place k1); [done|by rewrite Et|done].
      * rewrite Pv, Uv. simpl. by rewrite decide_True.
    + apply W; [|by rewrite Hv]. apply elem_of_cons in Hu as [[=]|Hu]; done.
  - intros u Hu. assert (Hne : u ≠ t). { intros ->. destruct Hu as [Hu|Hu]; [apply Hu; by left|congruence]. }
    destruct (R u) as [P Pv]; [rewrite Hv by done; rewrite elem_of_cons in Hu; naive_solver|].
    rewrite Hv in Pv by done. split; [|done]. intros l. destruct (P l) as [P1 P2]. destruct (Ur u Hne l) as [U1 U2].
    by rewrite P1, P2, U1, U2.
Qed.

Lemma delivered_quiet met v xs k k1 k' :
  delivered met v xs k k1 → quiet k1 k' → lists_kept k1 k' → delivered met v xs k k'.
Proof.
  intros [D W R Ls] [Qd Qv Qp] [Kp _]. constructor; [by rewrite Qd, D| | |auto].
  - intros t Ht Hm. destruct (W t Ht Hm) as [Aw Ev]. rewrite Qv. split; [|done]. injection Qd as Et _ _ _ _.
    apply (awake_same_place k1); [apply Qp|by rewrite Et|done].
  - intros t Ht. destruct (R t Ht) as [P Pv]. rewrite Qv. split; [|done]. intros l. destruct (P l) as [P1 P2].
    destruct (Qp t l) as [Q1 Q2]. by rewrite Q1, Q2.
Qed.

(** Readying tasks touches two variables. *)
Definition readies k k' : Prop := ∃ top y, data k' = set_uxTopReadyPriority top (set_xYieldPending y (data k)).

Lemma readies_refl k : readies k k.
Proof. exists (uxTopReadyPriority (data k)), (xYieldPending (data k)). by destruct (data k). Qed.

Lemma readies_trans k1 k2 k3 : readies k1 k2 → readies k2 k3 → readies k1 k3.
Proof. intros (top & y & E) (top' & y' & E'). exists top', y'. rewrite E', E. by destruct (data k1). Qed.

Section ok.
Context (idle : TaskHandle_t).

(** What is cleared: the bits waited for by the woken tasks that ask for it. *)
Definition cleared_by b w : Z :=
  if match_found b w && negb (Z.land (control_bits w) eventCLEAR_EVENTS_ON_EXIT_BIT =? 0) then waited_bits w else 0.
Definition to_clear A b (xs : list positive) (c : Z) : Z := foldl (λ c i, Z.lor c (cleared_by b (a_val A i))) c xs.

Lemma to_clear_ext A A' b xs c : (∀ i, i ∈ xs → a_val A' i = a_val A i) → to_clear A' b xs c = to_clear A b xs c.
Proof.
  unfold to_clear. revert c. induction xs as [|i xs IH]; intros c H; simpl; [done|].
  rewrite H by by left. apply IH. intros j Hj. apply H. by right.
Qed.

Lemma bits_word b c : event_bits b → is_u32 c → is_u32 (Z.lor b c).
Proof.
  unfold event_bits, is_u32. intros Hb Hc. split; [apply Z.lor_nonneg; lia|]. destruct (Z.eq_dec (Z.lor b c) 0) as [->|]; [lia|].
  assert (0 ≤ Z.lor b c) by (apply Z.lor_nonneg; lia). change 4294967296 with (2 ^ 32). apply Z.log2_lt_pow2; [lia|].
  rewrite Z.log2_lor by lia.
  apply Z.max_lub_lt; [destruct (Z.eq_dec b 0) as [->|]|destruct (Z.eq_dec c 0) as [->|]]; try done; apply Z.log2_lt_pow2; lia.
Qed.

Lemma wp_set_bits_loop g b fuel pre xs a clear P s :
  inv idle (ekern s) → (5 < g)%positive → groups s !! g = Some b → event_bits b →
  a_lists (lists (ekern s)) !! xTasksWaitingForBits g = Some a → elems a = pre ++ xs → (length xs ≤ fuel)%nat →
  (∀ k', inv idle k' → delivered (match_found b) (woken_value b) xs (ekern s) k' → readies (ekern s) k' →
     P (to_clear (lists (ekern s)) b xs clear) (set_ekern k' s)) →
  wpe (set_bits_loop fuel g (head xs) clear) P s.
Proof.
  revert pre xs a clear s. induction fuel as [|fuel IH]; intros pre xs a clear s I Hg Hb Hev Ha E Hf HP.
  { destruct xs; [|simpl in Hf; lia]. simpl. wpe_step. destruct s. apply HP; [done|apply delivered_nil|apply readies_refl]. }
  destruct xs as [|i xs]; simpl.
  { wpe_step. destruct s. apply HP; [done|apply delivered_nil|apply readies_refl]. }
  pose proof (co_wf _ _ _ _ _ _ _ (inv_core _ _ I)) as W.
  assert (Hl : (10 < xTasksWaitingForBits g)%positive) by (unfold xTasksWaitingForBits; lia).
  assert (Hi : holds (lists (ekern s)) (xTasksWaitingForBits g) i) by (exists a; split; [done|rewrite E; set_solver]).
  destruct (event_not_state _ Hl) as (L1 & _ & _).
  destruct (wf_on_event_list _ _ _ _ _ _ i W L1 Hi) as (t & -> & Ht & Ho).
  pose proof (lo_nodup _ (wf_ok _ _ _ _ _ W) _ _ Ha) as ND.
  assert (Hx : (Ev t ∉ pre) ∧ (Ev t ∉ xs)).
  { rewrite E in ND. apply NoDup_app in ND as (_ & Hd & [Hn _]%NoDup_cons). split; [|done]. intros ?. eapply Hd; [done|by left]. }
  wpe_step. wpe_step. eapply wp_rd; [by eapply read_next|]. replace (set_ekern (ekern s) s) with s by by destruct s.
  assert (HiE : Ev t ∈ a_items (lists (ekern s))) by by apply (wf_ev_item _ _ _ _ _ _ W).
  wpe_step. wpe_step. apply wp_value; [done|]. replace (set_ekern (ekern s) s) with s by by destruct s.
  wpe_step. apply (wpe_getbits _ b); [done|]. rewrite as_item_entry. destruct (match_found b _) eqn:Em.
  - wpe_step. wpe_step. eapply wp_rd; [simpl; by rewrite decide_True|]. replace (set_ekern (ekern s) s) with s by by destruct s.
    rewrite Ho. wpe_step. wpe_step.
    apply (wp_vTaskRemoveFromUnorderedEventList idle (xTasksWaitingForBits g)); [done..| |].
    { apply bits_word; [done|]. unfold is_u32, eventUNBLOCKED_DUE_TO_BIT_SET. lia. }
    intros k1 I1 U. fold (woken_value b) in U.
    pose proof (uh_events _ _ _ _ U _ _ Hl Ha) as Ha1. rewrite E, decide_True in Ha1 by set_solver.
    eapply (IH pre xs _ _ (set_ekern k1 s)); [done..|exact Ha1| |simpl in Hf; lia|].
    { simpl. rewrite E. apply remove_item_split, Hx. }
    intros k2 I2 D Rd. replace (to_clear _ b xs _) with (to_clear (lists (ekern s)) b (Ev t :: xs) clear).
    + apply (HP k2); [done|eapply delivered_step; [exact U|apply Hx|done|exact D]|].
      eapply readies_trans; [apply (uh_data _ _ _ _ U)|exact Rd].
    + unfold to_clear at 1. simpl. fold (to_clear (lists (ekern s)) b xs (Z.lor clear (cleared_by b (a_val (lists (ekern s)) (Ev t))))).
      rewrite (to_clear_ext (lists (ekern s)) (lists k1)).
      * f_equal. unfold cleared_by. rewrite Em. simpl. destruct (negb _); [done|by rewrite Z.lor_0_r].
      * intros j Hj. rewrite (uh_val _ _ _ _ U). simpl. rewrite decide_False; [done|]. intros ->. by apply Hx.
  - eapply (IH (pre ++ [Ev t]) xs a); [done..|by rewrite <- app_assoc|simpl in Hf; lia|].
    intros k2 I2 D Rd. replace (to_clear _ b xs _) with (to_clear (lists (ekern s)) b (Ev t :: xs) clear).
    + apply (HP k2); [done| |done]. apply delivered_skip; [|done]. by intros u [= <-].
    + unfold to_clear at 1. simpl. unfold cleared_by at 2. rewrite Em. simpl. by rewrite Z.lor_0_r.
Qed.

(** ** Suspending and resuming around the work *)
Lemma wp_resume_quiet n P k :
  inv idle k → uxSchedulerSuspended (data k) = n + 1 → 0 ≤ n →
  (n = 0 → xPendedTicks (data k) = 0 ∧ ∀ i, ¬ holds (lists k) xPendingReadyList i) →
  (∀ k' y, inv idle k' → quiet k k' → uxSchedulerSuspended (data k') = n → lists_kept k k' →
     (n ≠ 0 → pxCurrentTCB (data k') = pxCurrentTCB (data k) ∧ xPendedTicks (data k') = xPendedTicks (data k)) → P y k') →
  wp xTaskResumeAll P k.
Proof.
  intros I Hs Hn H0 HP. apply wp_kept; [intros X M; ksim|]. destruct (decide (n = 0)) as [->|].
  - destruct (H0 eq_refl). apply (wp_xTaskResumeAll idle); [done|lia|]. intros k' y I' Re Hs' Kp.
    by apply HP; [|apply resumed_quiet|..].
  - apply (wp_xTaskResumeAll_nested idle); [done|lia|]. rewrite Hs. replace (n + 1 - 1) with n by lia. intros I' Kp.
    by apply HP; [|apply quiet_data|..].
Qed.

(** ** The invariant *)
Record einv s : Prop := {
  ei_kernel : inv idle (ekern s);
  ei_groups g b : groups s !! g = Some b →
    (5 < g)%positive ∧ is_Some (a_lists (lists (ekern s)) !! xTasksWaitingForBits g) ∧ event_bits b }.

Lemma einv_kern s k : einv s → inv idle k → (∀ l, is_Some (a_lists (lists (ekern s)) !! l) → is_Some (a_lists (lists k) !! l)) →
  einv (set_ekern k s).
Proof.
  intros [I G] I' Kp. constructor; simpl; [done|]. intros g b Hb. destruct (G g b Hb) as (? & ? & ?). auto.
Qed.

Lemma einv_bits s g b b' : einv s → groups s !! g = Some b → event_bits b' → einv (set_bits g b' s).
Proof.
  intros [I G] Hb Hb'. constructor; simpl; [done|]. intros g' b2. rewrite lookup_insert_Some.
  intros [[<- <-]|[_ H2]]; [|eauto]. by destruct (G g b Hb) as (? & ? & _).
Qed.

Lemma group_list s g b : einv s → groups s !! g = Some b → event_list (ekern s) (xTasksWaitingForBits g).
Proof.
  intros I Hb. destruct (ei_groups _ I g b Hb) as (Hg & He & _). split; [unfold xTasksWaitingForBits; lia|done].
Qed.

(** The state that [xEventGroupSetBits] leaves. *)
Definition bits_after A b u (a : alist) : Z := clear_bits (Z.lor b u) (to_clear A (Z.lor b u) (elems a) 0).

Lemma none_pending k k' met v xs :
  inv idle k → inv idle k' → delivered met v xs k k' → (∀ i, ¬ holds (lists k) xPendingReadyList i) →
  ∀ i, ¬ holds (lists k') xPendingReadyList i.
Proof.
  intros I I' [_ W R _] Hn i Hi. pose proof (co_wf _ _ _ _ _ _ _ (inv_core _ _ I')) as W'.
  destruct (wf_on_event_list _ _ _ _ _ xPendingReadyList i W' ltac:(list_lia) Hi) as (t & -> & _ & _).
  destruct (decide (Ev t ∈ xs)) as [Hx|Hx]; [destruct (met (a_val (lists k) (Ev t))) eqn:Em|].
  - by apply (proj2 (proj1 (W t Hx Em)) xPendingReadyList).
  - apply (Hn (Ev t)). by apply (proj1 (R t (or_intror Em)) xPendingReadyList).
  - apply (Hn (Ev t)). by apply (proj1 (R t (or_introl Hx)) xPendingReadyList).
Qed.

Lemma wp_xEventGroupSetBits g u b a P s :
  einv s → groups s !! g = Some b → event_bits u → uxSchedulerSuspended (data (ekern s)) + 1 < 4294967296 →
  a_lists (lists (ekern s)) !! xTasksWaitingForBits g = Some a →
  (∀ k', einv (set_bits g (bits_after (lists (ekern s)) b u a) (set_ekern k' s)) →
     uxSchedulerSuspended (data k') = uxSchedulerSuspended (data (ekern s)) →
     (uxSchedulerSuspended (data (ekern s)) ≠ 0 → pxCurrentTCB (data k') = pxCurrentTCB (data (ekern s)) ∧
        xPendedTicks (data k') = xPendedTicks (data (ekern s))) →
     delivered (match_found (Z.lor b u)) (woken_value (Z.lor b u)) (elems a) (ekern s) k' →
     P (bits_after (lists (ekern s)) b u a) (set_bits g (bits_after (lists (ekern s)) b u a) (set_ekern k' s))) →
  wpe (xEventGroupSetBits g u) P s.
Proof.
  intros I Hb Hu Hs Ha HP. pose proof (ei_kernel _ I) as Ik. destruct (ei_groups _ I g b Hb) as (Hg & _ & Hev).
  pose proof (lor_event b u Hev Hu) as Hev1. pose proof (inv_calm _ _ Ik) as [[Hw1 Hw2] Hc].
  unfold xEventGroupSetBits. wpe_step. wpe_step. apply (wp_vTaskSuspendAll idle); [done|done|]. intros k1 E1 I1.
  assert (Ha1 : a_lists (lists k1) !! xTasksWaitingForBits g = Some a) by by rewrite E1.
  wpe_step. wpe_step. eapply wp_rd; [by apply read_first|]. wpe_step. wpe_step.
  apply (wp_length k1 (wf_ok _ _ _ _ _ (co_wf _ _ _ _ _ _ _ (inv_core _ _ I1))) _ a); [done|].
  wpe_step. apply (wpe_getbits _ b); [done|]. wpe_step. apply (wpe_setbits _ b); [done|].
  rewrite as_item_entry. wpe_step.
  apply (wp_set_bits_loop g (Z.lor b u) _ [] (elems a) a); [done|done|apply lookup_insert_eq|done|done|done|lia|].
  intros k2 I2 D Rd. simpl in D. wpe_step. apply (wpe_getbits _ (Z.lor b u)); [apply lookup_insert_eq|].
  wpe_step. eapply wpe_setbits; [apply lookup_insert_eq|]. wpe_step. wpe_step. simpl.
  assert (Es2 : uxSchedulerSuspended (data k2) = uxSchedulerSuspended (data (ekern s)) + 1 ∧
    xPendedTicks (data k2) = xPendedTicks (data (ekern s))) by (destruct Rd as (top & y & ->); by rewrite E1).
  destruct Es2 as [Es2 Ep2].
  assert (D' : delivered (match_found (Z.lor b u)) (woken_value (Z.lor b u)) (elems a) (ekern s) k2).
  { destruct D as [D1 D2 D3 D4]. rewrite E1 in *. by constructor. }
  apply (wp_resume_quiet (uxSchedulerSuspended (data (ekern s)))); [done|done|apply Hw1| |].
  { intros H0. destruct (Hc H0) as [Hp Hn]. split; [by rewrite Ep2|]. by eapply (none_pending (ekern s)). }
  intros k3 y I3 Qu Hs3 Kp Hne. eapply wpe_getbits; [simpl; apply lookup_insert_eq|].
  pose proof (delivered_quiet _ _ _ _ _ _ D' Qu Kp) as D3.
  unfold bits_after in *. rewrite E1 in *. simpl in *. unfold set_ekern, set_bits in *. simpl. rewrite insert_insert_eq. apply HP; [|done| |done].
  2: { intros H0. destruct (Hne H0) as [-> ->]. destruct Rd as (top & y' & ->). done. }
  apply (einv_bits (MkEK k3 (groups s)) g b); [|done|by apply clear_event].
  apply (einv_kern s k3); [done|done|apply D3].
Qed.

(** ** Waiting *)

(** The task [c] waits in the group, with [v] in its event item; no other task
    moved. *)
Record waits_for g (v : Z) c k k' : Prop := {
  ws_list : holds (lists k') (xTasksWaitingForBits g) (Ev c);
  ws_value : a_val (lists k') (Ev c) = v;
  ws_others t : t ≠ c → same_place k k' t ∧ a_val (lists k') (Ev t) = a_val (lists k) (Ev t) }.

Lemma waits_quiet g v c k k1 k' : waits_for g v c k k1 → quiet k1 k' → waits_for g v c k k'.
Proof.
  intros [H1 H2 H3] [Qd Qv Qp]. constructor; [by apply Qp|by rewrite Qv|].
  intros t Ht. destruct (H3 t Ht) as [P Pv]. rewrite Qv. split; [|done]. intros l. destruct (P l) as [P1 P2].
  destruct (Qp t l) as [Q1 Q2]. by rewrite Q1, Q2.
Qed.

(** Nothing is held back. *)
Definition undisturbed k : Prop := xPendedTicks (data k) = 0 ∧ ∀ i, ¬ holds (lists k) xPendingReadyList i.

Lemma wp_finish_wait n r P s :
  einv s → uxSchedulerSuspended (data (ekern s)) = n + 1 → 0 ≤ n → (n = 0 → undisturbed (ekern s)) → (r = None → n = 0) →
  (∀ k', einv (set_ekern k' s) → quiet (ekern s) k' → uxSchedulerSuspended (data k') = n → P r (set_ekern k' s)) →
  wpe (finish_wait r) P s.
Proof.
  intros I Hs Hn H0 Hr HP. unfold finish_wait. wpe_step. wpe_step.
  apply (wp_resume_quiet n); [apply I|done..|]. intros k1 y I1 Qu Hs1 Kp _. destruct r as [r|].
  - wpe_step. apply HP; [|done|done]. by apply einv_kern; [..|apply Kp].
  - wpe_step. wpe_step. specialize (Hr eq_refl). subst n. apply wp_kept; [intros X M; ksim|]. wp_step; intros _.
    + apply (wp_yield idle); [apply I1..|]. intros k2 Sw I2 Kp2. wpe_step. apply (HP k2); simpl.
      * apply (einv_kern s k2 I I2). intros l Hl. by apply Kp2, Kp.
      * eapply quiet_trans; [exact Qu|]. apply switched_quiet; [|done].
        apply (wf_ok _ _ _ _ _ (co_wf _ _ _ _ _ _ _ (inv_core _ _ I1))).
      * by rewrite (switched_susp _ _ Sw).
    + intros Kp2. wpe_step. apply (HP k1); [|done|done]. by apply (einv_kern s k1 I I1), Kp.
Qed.

Lemma wp_place g b v n c P s :
  einv s → groups s !! g = Some b → running (ekern s) c → c ≠ idle → 0 < n < 4294967296 → is_u32 v →
  (∀ k', einv (set_ekern k' s) → waits_for g (Z.lor v taskEVENT_LIST_ITEM_VALUE_IN_USE) c (ekern s) k' →
     uxSchedulerSuspended (data k') = uxSchedulerSuspended (data (ekern s)) → (undisturbed (ekern s) → undisturbed k') →
     P () (set_ekern k' s)) →
  wpe (elift (vTaskPlaceOnUnorderedEventList (xTasksWaitingForBits g) v n)) P s.
Proof.
  intros I Hb R Hci Hn Hv HP. wpe_step. apply wp_kept; [intros X M; ksim|].
  apply (wp_vTaskPlaceOnUnorderedEventList idle _ v n c); [apply I|done..|by eapply group_list|done|].
  intros k' A1 I' M B Kp. destruct (bf_data _ _ _ _ _ B) as [nx Ed].
  assert (Far : ∀ l i, i ≠ St c → i ≠ Ev c → holds (lists k') l i ↔ holds (lists (ekern s)) l i).
  { intros l i H1 H2. rewrite (bf_other _ _ _ _ _ B) by done. simpl. rewrite (mv_holds _ _ _ _ _ M). unfold holds. simpl. naive_solver. }
  apply HP; [by apply einv_kern; [..|apply Kp]| |by rewrite Ed|].
  - constructor.
    + apply (bf_other _ _ _ _ _ B); [done|]. apply (mv_holds _ _ _ _ _ M). by left.
    + rewrite (bf_val _ _ _ _ _ B) by done. simpl. rewrite (mv_val _ _ _ _ _ M). simpl. by rewrite decide_True.
    + intros t Ht. split.
      * intros l. by split; apply Far; item_ne.
      * rewrite (bf_val _ _ _ _ _ B) by item_ne. simpl. rewrite (mv_val _ _ _ _ _ M). simpl. rewrite decide_False; [done|]. item_ne.
  - intros [Hp Hn0]. split; [by rewrite Ed|]. intros i Hi.
    pose proof (co_wf _ _ _ _ _ _ _ (inv_core _ _ I')) as W'.
    destruct (wf_on_event_list _ _ _ _ _ xPendingReadyList i W' ltac:(list_lia) Hi) as (t & -> & _ & _).
    apply (bf_other _ _ _ _ _ B) in Hi; [|done]. simpl in Hi. apply (mv_holds _ _ _ _ _ M) in Hi.
    destruct Hi as [[_ [= E]]|[_ Hi]]; [unfold xTasksWaitingForBits, xPendingReadyList in E; destruct (ei_groups _ I g b Hb); lia|].
    by apply (Hn0 (Ev t)).
Qed.

Lemma undisturbed_susp k : inv idle k → uxSchedulerSuspended (data k) = 0 → undisturbed k.
Proof. intros I Hs. apply (proj2 (inv_calm _ _ I) Hs). Qed.

(** A task may wait while it runs and the scheduler is not suspended. *)
Definition may_wait s (ticks : Z) c : Prop :=
  0 < ticks < 4294967296 ∧ uxSchedulerSuspended (data (ekern s)) = 0 ∧ running (ekern s) c ∧ c ≠ idle.

Lemma wait_control_u32 w cl al : event_bits w → is_u32 (Z.lor w (wait_control cl al)).
Proof. intros Hw. apply bits_word; [done|]. unfold is_u32. destruct cl, al; done. Qed.

Lemma set_bits_id g b s : groups s !! g = Some b → set_bits g b s = s.
Proof. intros Hb. destruct s. unfold set_bits. simpl in *. by rewrite insert_id. Qed.

Lemma wp_xEventGroupWaitBits g w (cl al : bool) ticks b P s :
  einv s → groups s !! g = Some b → event_bits w → uxSchedulerSuspended (data (ekern s)) + 1 < 4294967296 →
  (prvTestWaitCondition b w al = false → ticks ≠ 0 → ∃ c, may_wait s ticks c) →
  (∀ k' b', einv (set_bits g b' (set_ekern k' s)) → uxSchedulerSuspended (data k') = uxSchedulerSuspended (data (ekern s)) →
     if prvTestWaitCondition b w al then
       b' = (if cl then clear_bits b w else b) → quiet (ekern s) k' → P (Some b) (set_bits g b' (set_ekern k' s))
     else b' = b →
       if ticks =? 0 then quiet (ekern s) k' → P (Some b) (set_bits g b' (set_ekern k' s))
       else ∀ c, running (ekern s) c → waits_for g (wait_value w cl al) c (ekern s) k' → P None (set_bits g b' (set_ekern k' s))) →
  wpe (xEventGroupWaitBits g w cl al ticks) P s.
Proof.
  intros I Hb Hw Hs Hm HP. destruct (ei_groups _ I g b Hb) as (Hg & _ & Hev). pose proof (ei_kernel _ I) as Ik.
  pose proof (inv_calm _ _ Ik) as [[[Hw1 _] _] Hc].
  unfold xEventGroupWaitBits. wpe_step. wpe_step. apply (wp_vTaskSuspendAll idle); [done|done|]. intros k1 E1 I1.
  assert (Q1 : quiet (ekern s) k1) by (rewrite E1; by apply quiet_data).
  assert (Is1 : einv (set_ekern k1 s)) by (apply einv_kern; [done..|by rewrite E1]).
  assert (Hs1 : uxSchedulerSuspended (data k1) = uxSchedulerSuspended (data (ekern s)) + 1) by by rewrite E1.
  assert (U1 : uxSchedulerSuspended (data (ekern s)) = 0 → undisturbed k1) by (intros H0; rewrite E1; exact (Hc H0)).
  wpe_step. apply (wpe_getbits _ b); [done|]. wpe_step. destruct (prvTestWaitCondition b w al) eqn:Ec.
  - set (b' := if cl then clear_bits b w else b). wpe_step.
    assert (W : wpe (whene cl (setbits g (clear_bits b w))) (λ _ s', s' = set_bits g b' (set_ekern k1 s)) (set_ekern k1 s)).
    { unfold b'. wpe_step; intros ->; [by apply (wpe_setbits _ b)|]. by rewrite set_bits_id. }
    eapply wpe_mono; [exact W|]. intros [] s' ->. wpe_step.
    assert (Is2 : einv (set_bits g b' (set_ekern k1 s))).
    { apply (einv_bits _ _ b); [done..|]. unfold b'. destruct cl; [by apply clear_event|done]. }
    apply (wp_finish_wait (uxSchedulerSuspended (data (ekern s)))); [done..|].
    intros k2 Is3 Qu2 Hs2. apply (HP k2 b'); [done..|]. by eapply quiet_trans.
  - destruct (ticks =? 0) eqn:Et.
    + wpe_step. apply (wp_finish_wait (uxSchedulerSuspended (data (ekern s)))); [done..|].
      intros k2 Is3 Qu2 Hs2. specialize (HP k2 b). rewrite set_bits_id in HP by done. apply HP; [done..|]. by eapply quiet_trans.
    + apply Z.eqb_neq in Et. destruct (Hm eq_refl Et) as (c & Ht & Hs0 & R & Hci). cbv zeta. wpe_step.
      apply (wp_place g b _ ticks c); [done|done|by rewrite E1|done|done|by apply wait_control_u32|].
      intros k2 Is2 Wf Hs2 Hu. wpe_step. apply (wp_finish_wait 0); [done|simpl; simpl in Hs2; lia|lia|auto|done|].
      intros k3 Is3 Qu3 Hs3. specialize (HP k3 b). rewrite set_bits_id in HP by done. apply (HP Is3 ltac:(lia) eq_refl c R).
      eapply waits_quiet; [|exact Qu3]. destruct Wf as [H1 H2 H3]. constructor; [done|done|]. intros t Ht'. rewrite E1 in H3. by apply H3.
Qed.

(** The part after the yield. *)
Definition return_value b v : Z :=
  clear_bits (if Z.land v eventUNBLOCKED_DUE_TO_BIT_SET =? 0 then b else v) eventEVENT_BITS_CONTROL_BYTES.

Lemma wp_wait_return g b (cond : Z → bool) w P s :
  einv s → groups s !! g = Some b →
  (∀ k' b' c, einv (set_bits g b' (set_ekern k' s)) → pxCurrentTCB (data (ekern s)) = Some c →
     data k' = data (ekern s) → (∀ t, same_place (ekern s) k' t) →
     b' = (if (Z.land (a_val (lists (ekern s)) (Ev c)) eventUNBLOCKED_DUE_TO_BIT_SET =? 0) && cond b then clear_bits b w else b) →
     P (return_value b (a_val (lists (ekern s)) (Ev c))) (set_bits g b' (set_ekern k' s))) →
  wpe (uxReturn ← elift uxTaskResetEventItemValue;
       uxReturn ← (if Z.land uxReturn eventUNBLOCKED_DUE_TO_BIT_SET =? 0 then
                     b ← getbits g; whene (cond b) (setbits g (clear_bits b w));; mret b
                   else mret uxReturn);
       mret (clear_bits uxReturn eventEVENT_BITS_CONTROL_BYTES)) P s.
Proof.
  intros I Hb HP. destruct (ei_groups _ I g b Hb) as (Hg & _ & Hev).
  wpe_step. wpe_step. apply (wp_uxTaskResetEventItemValue idle); [apply I|]. intros c C Hc HC I1.
  set (k1 := MkKernel _ _) in *. assert (Is1 : einv (set_ekern k1 s)) by by apply einv_kern.
  wpe_step. destruct (Z.land _ _ =? 0) eqn:Eu.
  - wpe_step. apply (wpe_getbits _ b); [done|]. wpe_step.
    set (b' := if cond b then clear_bits b w else b).
    assert (W : wpe (whene (cond b) (setbits g (clear_bits b w))) (λ _ s', s' = set_bits g b' (set_ekern k1 s)) (set_ekern k1 s)).
    { unfold b'. wpe_step; intros ->; [by apply (wpe_setbits _ b)|]. by rewrite set_bits_id. }
    eapply wpe_mono; [exact W|]. intros [] s' ->. wpe_step. wpe_step. specialize (HP k1 b' c). unfold return_value in HP.
    rewrite Eu in HP. apply HP; [|done..]. apply (einv_bits _ _ b); [done..|]. unfold b'. destruct (cond b); [by apply clear_event|done].
  - wpe_step. wpe_step. specialize (HP k1 b c). unfold return_value in HP. rewrite Eu, set_bits_id in HP by done. by apply HP.
Qed.

Lemma wp_xEventGroupSync g u w ticks b a P s :
  einv s → groups s !! g = Some b → event_bits u → event_bits w → uxSchedulerSuspended (data (ekern s)) + 2 < 4294967296 →
  a_lists (lists (ekern s)) !! xTasksWaitingForBits g = Some a →
  (Z.land (Z.lor b u) w ≠ w → ticks ≠ 0 → ∃ c, may_wait s ticks c) →
  (∀ k1 k' b', einv (set_bits g b' (set_ekern k' s)) → uxSchedulerSuspended (data k') = uxSchedulerSuspended (data (ekern s)) →
     delivered (match_found (Z.lor b u)) (woken_value (Z.lor b u)) (elems a) (ekern s) k1 →
     let b1 := bits_after (lists (ekern s)) b u a in
     if Z.land (Z.lor b u) w =? w then
       b' = clear_bits b1 w → quiet k1 k' → P (Some (Z.lor b u)) (set_bits g b' (set_ekern k' s))
     else b' = b1 →
       if ticks =? 0 then quiet k1 k' → P (Some b1) (set_bits g b' (set_ekern k' s))
       else ∀ c, running (ekern s) c → waits_for g (wait_value w true true) c k1 k' → P None (set_bits g b' (set_ekern k' s))) →
  wpe (xEventGroupSync g u w ticks) P s.
Proof.
  intros I Hb Hu Hw Hs Ha Hm HP. destruct (ei_groups _ I g b Hb) as (Hg & _ & Hev). pose proof (ei_kernel _ I) as Ik.
  pose proof (inv_calm _ _ Ik) as [[[Hw1 _] _] Hc].
  unfold xEventGroupSync. wpe_step. wpe_step. apply (wp_vTaskSuspendAll idle); [done|lia|]. intros k1 E1 I1.
  assert (Is1 : einv (set_ekern k1 s)) by (apply einv_kern; [done..|by rewrite E1]).
  wpe_step. apply (wpe_getbits _ b); [done|]. wpe_step.
  apply (wp_xEventGroupSetBits g u b a); [done..|simpl; rewrite E1; simpl; lia|by rewrite E1|].
  intros k2 Is2 Hs2 Hk2 D. simpl in *. rewrite E1 in *. simpl in *. destruct (Hk2 ltac:(lia)) as [Hcur Hpt].
  set (b1 := bits_after (lists (ekern s)) b u a) in *.
  assert (Hb1 : groups (set_bits g b1 (set_ekern k2 (set_ekern k1 s))) !! g = Some b1) by apply lookup_insert_eq.
  assert (Hev1 : event_bits b1) by by apply (ei_groups _ Is2 g b1 Hb1).
  assert (D2 : delivered (match_found (Z.lor b u)) (woken_value (Z.lor b u)) (elems a) (ekern s) k2).
  { destruct D as [D1 D2 D3 D4]. by constructor. }
  assert (U2 : uxSchedulerSuspended (data (ekern s)) = 0 → undisturbed k2).
  { intros H0. destruct (Hc H0) as [Hp Hn]. split; [by rewrite Hpt|]. eapply (none_pending (ekern s)); [done|apply Is2|done|done]. }
  subst k1. wpe_step. destruct (Z.eqb_spec (Z.land (Z.lor b u) w) w) as [Ew|Ew].
  - wpe_step. apply (wpe_getbits _ b1); [done|]. wpe_step. eapply wpe_setbits; [done|]. wpe_step.
    apply (wp_finish_wait (uxSchedulerSuspended (data (ekern s)))); [|done..|].
    { apply (einv_bits _ g b1); [done..|]. by apply clear_event. }
    intros k3 Is3 Qu3 Hs3. unfold set_ekern, set_bits in *. simpl in *. rewrite insert_insert_eq in *.
    by apply (HP k2 k3 (clear_bits b1 w)).
  - destruct (ticks =? 0) eqn:Et; simpl.
    + wpe_step. apply (wpe_getbits _ b1); [done|]. wpe_step.
      apply (wp_finish_wait (uxSchedulerSuspended (data (ekern s)))); [done..|].
      intros k3 Is3 Qu3 Hs3. by apply (HP k2 k3 b1).
    + apply Z.eqb_neq in Et. destruct (Hm Ew Et) as (c & Ht & Hs0 & R & Hci). wpe_step.
      assert (R2 : running k2 c).
      { destruct R as [Rc [p Rp]]. split; [by rewrite Hcur|]. exists p. destruct Rp as (l & Hp & Hl). exists l. split; [done|].
        apply (de_rest _ _ _ _ _ D2 c); [|done]. left. intros Hx.
        apply (ready_ev_free idle (lists (ekern s)) (data (ekern s)) p c (xTasksWaitingForBits g)); [apply Ik|by exists l|by exists a]. }
      apply (wp_place g b1 _ ticks c); [done|done|done|done|done|rewrite <- Z.lor_assoc; by apply (wait_control_u32 w true true)|].
      intros k3 Is3 Wf Hs3 Hu3. wpe_step. apply (wp_finish_wait 0); [done|simpl; simpl in Hs3; lia|lia|auto|done|].
      intros k4 Is4 Qu4 Hs4. apply (HP k2 k4 b1 Is4 ltac:(lia) D2 eq_refl c R). eapply waits_quiet; [|exact Qu4].
      unfold wait_value. change (wait_control true true) with (Z.lor eventCLEAR_EVENTS_ON_EXIT_BIT eventWAIT_FOR_ALL_BITS).
      rewrite (Z.lor_assoc w). exact Wf.
Qed.

(** ** Creating and deleting *)
Definition fresh_group s g : Prop :=
  (5 < g)%positive ∧ groups s !! g = None ∧ xTasksWaitingForBits g ∈ a_mem (lists (ekern s)) ∧
  a_lists (lists (ekern s)) !! xTasksWaitingForBits g = None.

Lemma wp_xEventGroupCreate mem P s :
  einv s → (∀ g, mem = Some g → fresh_group s g) →
  match mem with
  | Some g => ∀ k', einv (MkEK k' (<[g := 0]> (groups s))) → data k' = data (ekern s) →
      (∀ l i, holds (lists k') l i ↔ holds (lists (ekern s)) l i) → P (Some g) (MkEK k' (<[g := 0]> (groups s)))
  | None => P None s
  end → wpe (xEventGroupCreate mem) P s.
Proof.
  intros I Hm HP. unfold xEventGroupCreate. destruct mem as [g|]; [|by wpe_step].
  destruct (Hm g eq_refl) as (Hg & Hn & Hmem & Hl). wpe_step. unfold upd_groups, wpe at 1. simpl.
  wpe_step. wpe_step. apply (wp_new_list idle); simpl; [apply I|unfold xTasksWaitingForBits; lia|done|done|]. intros k1 I1 E1.
  wpe_step. apply (HP k1); [|by rewrite E1|].
  - constructor; simpl; [done|]. intros g' b'. rewrite lookup_insert_Some. intros [[<- <-]|[Hne Hb']].
    + split; [done|]. split; [|done]. rewrite E1. simpl. rewrite lookup_insert_eq. by eexists.
    + destruct (ei_groups _ I g' b' Hb') as (H1 & H2 & H3). split; [done|]. split; [|done]. rewrite E1. simpl.
      apply lookup_insert_is_Some'. by right.
  - intros l i. rewrite E1. simpl. rewrite set_alist_holds. case_decide as D; [subst; simpl|done].
    rewrite elem_of_nil. split; [done|]. intros (a & Ha & _). congruence.
Qed.

Lemma wp_delete_loop g fuel a P s :
  inv idle (ekern s) → (5 < g)%positive → a_lists (lists (ekern s)) !! xTasksWaitingForBits g = Some a →
  (length (elems a) ≤ fuel)%nat →
  (∀ k', inv idle k' → delivered (λ _, true) (woken_value 0) (elems a) (ekern s) k' → readies (ekern s) k' →
     a_lists (lists k') !! xTasksWaitingForBits g = Some (MkAlist [] None) → P () (set_ekern k' s)) →
  wpe (delete_loop fuel g) P s.
Proof.
  revert a s. induction fuel as [|fuel IH]; intros a s I Hg Ha Hf HP; simpl;
    pose proof (co_wf _ _ _ _ _ _ _ (inv_core _ _ I)) as W;
    wpe_step; wpe_step; (apply (wp_length _ (wf_ok _ _ _ _ _ W) _ a); [done|]);
    replace (set_ekern (ekern s) s) with s by by destruct s.
  { destruct (elems a) as [|i xs] eqn:E; [|simpl in Hf; lia]. simpl. wpe_step. destruct s.
    apply HP; [done|apply delivered_nil|apply readies_refl|]. simpl in *. rewrite Ha. f_equal. destruct a as [xs cu]. simpl in *. subst xs.
    destruct cu as [c|]; [|done]. pose proof (lo_cursor _ (wf_ok _ _ _ _ _ W) _ _ c Ha eq_refl) as H. by apply elem_of_nil in H. }
  destruct (elems a) as [|i xs] eqn:E.
  { simpl. wpe_step. destruct s.
    apply HP; [done|apply delivered_nil|apply readies_refl|]. simpl in *. rewrite Ha. f_equal. destruct a as [xs cu]. simpl in *. subst xs.
    destruct cu as [c|]; [|done]. pose proof (lo_cursor _ (wf_ok _ _ _ _ _ W) _ _ c Ha eq_refl) as H. by apply elem_of_nil in H. }
  replace (0 <? Z.of_nat (length (i :: xs))) with true by (symmetry; apply Z.ltb_lt; simpl; lia).
  assert (Hl : (10 < xTasksWaitingForBits g)%positive) by (unfold xTasksWaitingForBits; lia).
  assert (Hi : holds (lists (ekern s)) (xTasksWaitingForBits g) i) by (exists a; split; [done|rewrite E; by left]).
  destruct (event_not_state _ Hl) as (L1 & _ & _).
  destruct (wf_on_event_list _ _ _ _ _ _ i W L1 Hi) as (t & -> & Ht & Ho).
  pose proof (lo_nodup _ (wf_ok _ _ _ _ _ W) _ _ Ha) as ND. rewrite E in ND. apply NoDup_cons in ND as [Hn ND].
  wpe_step. wpe_step. eapply wp_rd; [simpl; rewrite Ha; simpl; by rewrite E|].
  replace (set_ekern (ekern s) s) with s by by destruct s. rewrite Ho. wpe_step. wpe_step.
  apply (wp_vTaskRemoveFromUnorderedEventList idle (xTasksWaitingForBits g)); [done..| |].
  { unfold is_u32, eventUNBLOCKED_DUE_TO_BIT_SET. lia. }
  intros k1 I1 U. pose proof (uh_events _ _ _ _ U _ _ Hl Ha) as Ha1. rewrite E, decide_True in Ha1 by by left.
  assert (E1 : elems (a_remove (Ev t) a) = xs).
  { simpl. rewrite E. apply (remove_item_split (Ev t) [] xs). apply not_elem_of_nil. }
  eapply (IH _ (set_ekern k1 s)); [done..|exact Ha1|rewrite E1; simpl in Hf; lia|].
  rewrite E1. intros k2 I2 D Rd Hn2. apply HP; [done| | |done].
  - by eapply delivered_step; [exact U|done|done|exact D].
  - eapply readies_trans; [apply (uh_data _ _ _ _ U)|exact Rd].
Qed.

Lemma wp_vEventGroupDelete g b a P s :
  einv s → groups s !! g = Some b → uxSchedulerSuspended (data (ekern s)) + 1 < 4294967296 →
  a_lists (lists (ekern s)) !! xTasksWaitingForBits g = Some a →
  (∀ k', einv (MkEK k' (delete g (groups s))) → delivered (λ _, true) (woken_value 0) (elems a) (ekern s) (MkKernel (set_alist (xTasksWaitingForBits g) (MkAlist [] None) (lists k')) (data k')) →
     uxSchedulerSuspended (data k') = uxSchedulerSuspended (data (ekern s)) →
     a_lists (lists k') !! xTasksWaitingForBits g = None → P () (MkEK k' (delete g (groups s)))) →
  wpe (vEventGroupDelete g) P s.
Proof.
  intros I Hb Hs Ha HP. pose proof (ei_kernel _ I) as Ik. destruct (ei_groups _ I g b Hb) as (Hg & _ & Hev).
  pose proof (inv_calm _ _ Ik) as [[Hw1 Hw2] Hc].
  unfold vEventGroupDelete. wpe_step. wpe_step. apply (wp_vTaskSuspendAll idle); [done|done|]. intros k1 E1 I1.
  assert (Ha1 : a_lists (lists k1) !! xTasksWaitingForBits g = Some a) by by rewrite E1.
  wpe_step. wpe_step. apply (wp_length k1 (wf_ok _ _ _ _ _ (co_wf _ _ _ _ _ _ _ (inv_core _ _ I1))) _ a); [done|].
  wpe_step. apply (wp_delete_loop g _ a); [done|done|done|lia|]. intros k2 I2 D Rd Hn2. simpl in D, Rd. wpe_step. wpe_step. simpl.
  assert (Es2 : uxSchedulerSuspended (data k2) = uxSchedulerSuspended (data (ekern s)) + 1 ∧
    xPendedTicks (data k2) = xPendedTicks (data (ekern s))) by (destruct Rd as (top & y & ->); by rewrite E1).
  destruct Es2 as [Es2 Ep2].
  assert (D' : delivered (λ _, true) (woken_value 0) (elems a) (ekern s) k2).
  { destruct D as [D1 D2 D3 D4]. rewrite E1 in *. by constructor. }
  apply (wp_resume_quiet (uxSchedulerSuspended (data (ekern s)))); [done|done|apply Hw1| |].
  { intros H0. destruct (Hc H0) as [Hp Hn]. split; [by rewrite Ep2|]. by eapply (none_pending (ekern s)). }
  intros k3 y I3 Qu Hs3 Kp Hne. pose proof (delivered_quiet _ _ _ _ _ _ D' Qu Kp) as D3.
  assert (Hl : (10 < xTasksWaitingForBits g)%positive) by (unfold xTasksWaitingForBits; lia).
  destruct (proj1 Kp (xTasksWaitingForBits g) ltac:(by eexists)) as [a3 Ha3].
  assert (Ee : elems a3 = []).
  { destruct (elems a3) as [|i xs] eqn:E; [done|]. destruct (event_not_state _ Hl) as (L1 & _ & _).
    assert (Hi : holds (lists k3) (xTasksWaitingForBits g) i) by (exists a3; split; [done|rewrite E; by left]).
    destruct (wf_on_event_list _ _ _ _ _ _ i (co_wf _ _ _ _ _ _ _ (inv_core _ _ I3)) L1 Hi) as (t & -> & _).
    apply (qu_place _ _ Qu t) in Hi as (a2 & Ha2 & Hi). rewrite Hn2 in Ha2. injection Ha2 as <-. by apply elem_of_nil in Hi. }
  wpe_step. wpe_step. simpl. apply (wp_free_list idle _ a3); [done|done|done|done|]. intros k4 I4 E4.
  assert (EL : lists k4 = MkAstate (a_mem (lists k3)) (delete (xTasksWaitingForBits g) (a_lists (lists k3)))
    (a_items (lists k3)) (a_val (lists k3)) (a_own (lists k3))) by by rewrite E4.
  assert (Same : ∀ l i, holds (set_alist (xTasksWaitingForBits g) (MkAlist [] None) (lists k4)) l i ↔ holds (lists k3) l i).
  { intros l i. rewrite set_alist_holds. case_decide as Dl.
    - subst l. simpl. split; [by intros ?%elem_of_nil|]. intros (a4 & Ha4 & Hi). rewrite Ha3 in Ha4. injection Ha4 as <-.
      by rewrite Ee in Hi.
    - unfold holds. rewrite EL. simpl. by rewrite lookup_delete_ne by done. }
  unfold upd_groups, wpe. simpl. apply (HP k4); simpl; [|..].
  - constructor; simpl; [done|]. intros g' b' [Hne' Hb']%lookup_delete_Some.
    destruct (ei_groups _ I g' b' Hb') as (H1 & H2 & H3). split; [done|]. split; [|done].
    rewrite EL. simpl. rewrite lookup_delete_ne by (unfold xTasksWaitingForBits; congruence). by apply D3.
  - destruct D3 as [Dd Dw Dr Dl]. constructor; simpl.
    + rewrite <- Dd. by rewrite E4.
    + intros t Ht _. destruct (Dw t Ht eq_refl) as [[(T & HT & l & Hl' & Hh) Aw2] Av]. split; [|by rewrite EL].
      split; [exists T; split; [by rewrite E4|]; exists l; split; [done|]; by apply Same|]. intros l'. rewrite Same. apply Aw2.
    + intros t Ht. destruct (Dr t Ht) as [P1 P2]. split; [|by rewrite EL]. intros l'. split; rewrite Same; apply P1.
    + intros l Hl'. apply lookup_insert_is_Some'. destruct (decide (xTasksWaitingForBits g = l)) as [->|Hne']; [by left|right].
      rewrite EL. simpl. rewrite lookup_delete_ne by done. by apply Dl.
  - by rewrite E4.
  - rewrite EL. apply lookup_delete_eq.
Qed.
End ok.
