(* ===== verification/EventGroupMain.v ===== *)
(** * Event groups as a whole

    What tasks ask of the kernel and its event groups, as steps; safety over
    any sequence of them from start-up on, on the abstract lists and on the
    pointers of list.c; and what waiting, setting and the rendezvous promise. *)
From S2P Require Import Prelude RtosList KList Tasks TasksSim TasksInv TasksOk TasksApi TasksLife TasksMain.
From S2P Require Import EventGroup EventGroupOk.
Local Open Scope Z_scope.
Implicit Types (A : astate) (k : akernel) (l g : positive) (t : TaskHandle_t) (s : ekernel astate) (b w u : Z).

(** ** Steps *)
Inductive ecall :=
  | EKernel (c : kcall)
  | ECreate (mem : option EventGroupHandle_t)
  | EDelete g
  | ESet g u
  | EClear g u
  | EGet g
  | EWait g w (xClearOnExit xWaitForAllBits : bool) (ticks : Z)
  | EWaited g w (xClearOnExit xWaitForAllBits : bool)
  | ESync g u w (ticks : Z)
  | ESynced g w.

(** What a caller learns. *)
Inductive eresult :=
  | EDone
  | EHandle (h : option EventGroupHandle_t)
  | EBits b
  | EWaits.

Definition answered (r : option Z) : eresult := match r with Some b => EBits b | None => EWaits end.

Definition run_ecall `{KLists L} (c : ecall) : EM L eresult :=
  match c with
  | EKernel c => elift (run_call c);; mret EDone
  | ECreate mem => h ← xEventGroupCreate mem; mret (EHandle h)
  | EDelete g => vEventGroupDelete g;; mret EDone
  | ESet g u => b ← xEventGroupSetBits g u; mret (EBits b)
  | EClear g u => b ← xEventGroupClearBits g u; mret (EBits b)
  | EGet g => b ← xEventGroupGetBitsFromISR g; mret (EBits b)
  | EWait g w cl al ticks => r ← xEventGroupWaitBits g w cl al ticks; mret (answered r)
  | EWaited g w cl al => b ← xEventGroupWaitBits_return g w cl al; mret (EBits b)
  | ESync g u w ticks => r ← xEventGroupSync g u w ticks; mret (answered r)
  | ESynced g w => b ← xEventGroupSync_return g w; mret (EBits b)
  end.

Section steps.
Context (idle : TaskHandle_t).

(** The obligations of the callers.  A task whose wait is over needs the
    group only if it was not woken by it. *)
Definition was_woken s : Prop :=
  ∃ c, pxCurrentTCB (data (ekern s)) = Some c ∧ Z.land (a_val (lists (ekern s)) (Ev c)) eventUNBLOCKED_DUE_TO_BIT_SET ≠ 0.

Definition epermitted s (c : ecall) : Prop :=
  match c with
  | EKernel c => permitted idle (ekern s) c
  | ECreate mem => ∀ g, mem = Some g → fresh_group s g
  | EDelete g => is_Some (groups s !! g) ∧ uxSchedulerSuspended (data (ekern s)) + 1 < 4294967296
  | ESet g u => is_Some (groups s !! g) ∧ event_bits u ∧ uxSchedulerSuspended (data (ekern s)) + 1 < 4294967296
  | EClear g _ | EGet g => is_Some (groups s !! g)
  | EWait g w _ _ ticks => is_Some (groups s !! g) ∧ event_bits w ∧ w ≠ 0 ∧
      uxSchedulerSuspended (data (ekern s)) + 1 < 4294967296 ∧ (ticks ≠ 0 → ∃ c, may_wait idle s ticks c)
  | ESync g u w ticks => is_Some (groups s !! g) ∧ event_bits u ∧ event_bits w ∧ w ≠ 0 ∧
      uxSchedulerSuspended (data (ekern s)) + 2 < 4294967296 ∧ (ticks ≠ 0 → ∃ c, may_wait idle s ticks c)
  | EWaited g _ _ _ | ESynced g _ => is_Some (groups s !! g) ∨ was_woken s
  end.

Lemma wp_woken_return (m : EM astate Z) s c :
  einv idle s → pxCurrentTCB (data (ekern s)) = Some c →
  Z.land (a_val (lists (ekern s)) (Ev c)) eventUNBLOCKED_DUE_TO_BIT_SET ≠ 0 →
  wpe (uxReturn ← elift uxTaskResetEventItemValue;
       uxReturn ← (if Z.land uxReturn eventUNBLOCKED_DUE_TO_BIT_SET =? 0 then m else mret uxReturn);
       mret (clear_bits uxReturn eventEVENT_BITS_CONTROL_BYTES))
    (λ r s', einv idle s' ∧ groups s' = groups s ∧
       r = clear_bits (a_val (lists (ekern s)) (Ev c)) eventEVENT_BITS_CONTROL_BYTES) s.
Proof.
  intros I H0 Hf. wpe_step. wpe_step. apply (wp_uxTaskResetEventItemValue idle); [apply I|]. intros c' C Hc HC I1.
  assert (c' = c) as -> by congruence. wpe_step. apply Z.eqb_neq in Hf. rewrite Hf. wpe_step. wpe_step.
  split; [|done]. by apply (einv_kern idle).
Qed.

(** Any part after the yield. *)
Lemma einv_wait_return g (cond : Z → bool) w s :
  einv idle s → is_Some (groups s !! g) ∨ was_woken s →
  wpe (uxReturn ← elift uxTaskResetEventItemValue;
       uxReturn ← (if Z.land uxReturn eventUNBLOCKED_DUE_TO_BIT_SET =? 0 then
                     b ← getbits g; whene (cond b) (setbits g (clear_bits b w));; mret b
                   else mret uxReturn);
       mret (clear_bits uxReturn eventEVENT_BITS_CONTROL_BYTES)) (λ _ s', einv idle s') s.
Proof.
  intros I [[b Hb]|(c & Hc & Hf)]; [|by eapply wpe_mono; [by apply (wp_woken_return _ s c)|intros r s' [? _]]]. by apply (wp_wait_return idle g b cond w).
Qed.

Lemma waiting_list s g : einv idle s → is_Some (groups s !! g) → ∃ b a,
  groups s !! g = Some b ∧ a_lists (lists (ekern s)) !! xTasksWaitingForBits g = Some a ∧ event_bits b.
Proof. intros I [b Hb]. destruct (ei_groups _ _ I g b Hb) as (_ & [a Ha] & Hev). by exists b, a. Qed.

(** Every permitted step returns and keeps the invariant. *)
Lemma wp_ecall c s : einv idle s → epermitted s c → wpe (run_ecall c) (λ _ s', einv idle s') s.
Proof.
  intros I P. destruct c as [c|mem|g|g u|g u|g|g w cl al ticks|g w cl al|g u w ticks|g w]; simpl in *; wpe_step.
  - apply wpe_elift. apply wp_kept; [intros X M; apply sim_run_call|].
    eapply wp_mono; [by apply (inv_step idle); [apply I|]|]. intros [] k' I' Kp. wpe_step. by apply einv_kern; [..|apply Kp].
  - apply (wp_xEventGroupCreate idle); [done..|]. destruct mem as [g|]; [|by wpe_step]. intros k' I' _ _. by wpe_step.
  - destruct P as [Hg Hs]. destruct (waiting_list s g I Hg) as (b & a & Hb & Ha & _).
    apply (wp_vEventGroupDelete idle g b a); [done..|]. intros k' I' _ _ _. by wpe_step.
  - destruct P as (Hg & Hu & Hs). destruct (waiting_list s g I Hg) as (b & a & Hb & Ha & _).
    apply (wp_xEventGroupSetBits idle g u b a); [done..|]. intros k' I' _ _ _. by wpe_step.
  - destruct P as [b Hb]. unfold xEventGroupClearBits. wpe_step. apply (wpe_getbits _ b); [done|]. wpe_step.
    apply (wpe_setbits _ b); [done|]. wpe_step. wpe_step. apply (einv_bits idle _ g b); [done..|].
    by apply clear_event, (ei_groups _ _ I g b Hb).
  - destruct P as [b Hb]. apply (wpe_getbits _ b); [done|]. by wpe_step.
  - destruct P as (Hg & Hw & _ & Hs & Hm). destruct (waiting_list s g I Hg) as (b & a & Hb & Ha & _).
    apply (wp_xEventGroupWaitBits idle g w cl al ticks b); [done..|auto|]. intros k' b' I' _.
    destruct (prvTestWaitCondition b w al); [by intros _ _; wpe_step|]. intros _.
    destruct (ticks =? 0) eqn:Et; [by intros _; wpe_step|]. intros c' _ _. by wpe_step.
  - eapply wpe_mono; [apply (einv_wait_return g (λ b, prvTestWaitCondition b w al && cl) w); done|]. intros r s' I'. by wpe_step.
  - destruct P as (Hg & Hu & Hw & _ & Hs & Hm). destruct (waiting_list s g I Hg) as (b & a & Hb & Ha & _).
    apply (wp_xEventGroupSync idle g u w ticks b a); [done..|auto|]. intros k1 k' b' I' _ _. cbv zeta.
    destruct (_ =? w); [by intros _ _; wpe_step|]. intros _. destruct (ticks =? 0); [by intros _; wpe_step|].
    intros c' _ _. by wpe_step.
  - eapply wpe_mono; [apply (einv_wait_return g (λ b, Z.land b w =? w) w); done|]. intros r s' I'. by wpe_step.
Qed.
End steps.

(** ** Runs from start-up *)
Definition no_groups {L} (k : kernel L) : ekernel L := MkEK k ∅.

Inductive erun (idle : TaskHandle_t) : ekernel astate → list (ecall * eresult) → ekernel astate → Prop :=
  | erun_nil s : erun idle s [] s
  | erun_cons s c r s1 tr s' :
      epermitted idle s c → run_ecall c s = Some (s1, r) → erun idle s1 tr s' → erun idle s ((c, r) :: tr) s'.

Lemma erun_inv idle s tr s' : erun idle s tr s' → einv idle s → einv idle s'.
Proof.
  induction 1 as [s|s c r s1 tr s' P E R IH]; intros I; [done|]. pose proof (wp_ecall idle c s I P) as W.
  unfold wpe in W. rewrite E in W. auto.
Qed.

Lemma einv_start idle k : inv idle k → einv idle (no_groups k).
Proof. intros I. constructor; [done|]. intros g b. simpl. by rewrite lookup_empty. Qed.

(** What holds between the steps: the control bits are never in a group. *)
Definition groups_ok s : Prop :=
  ∀ g b, groups s !! g = Some b → event_bits b ∧ Z.land b eventEVENT_BITS_CONTROL_BYTES = 0 ∧
    is_Some (a_lists (lists (ekern s)) !! xTasksWaitingForBits g).

Lemma event_no_control b : event_bits b → Z.land b eventEVENT_BITS_CONTROL_BYTES = 0.
Proof.
  intros Hb. change (control_bits b = 0). rewrite <- (Z.lor_0_r b). by rewrite control_of by (done || apply zero_control).
Qed.

Lemma einv_groups_ok idle s : einv idle s → groups_ok s.
Proof. intros I g b Hb. destruct (ei_groups _ _ I g b Hb) as (_ & He & Hev). split_and!; [done|by apply event_no_control|done]. Qed.

(** C17. Safety of the event groups: from start-up on, after any sequence of calls
    that the callers are entitled to, the scheduler's guarantees hold, no event
    group holds one of the bits that the kernel uses for control, its list of
    waiting tasks exists, and every further permitted call returns. *)
Theorem event_groups_safe A ts idle k0 tr s :
  blank A → main_ok ts idle → run_main ts idle (MkKernel A boot_data) = Some (k0, ()) → erun idle (no_groups k0) tr s →
  kernel_ok idle (ekern s) ∧ groups_ok s ∧
  ∀ c, epermitted idle s c → ∃ s' r, run_ecall c s = Some (s', r) ∧ kernel_ok idle (ekern s') ∧ groups_ok s'.
Proof.
  intros B M E0 R. destruct (main_inv A ts idle B M) as (k1 & E1 & I1 & _).
  assert (k1 = k0) as -> by congruence. pose proof (erun_inv _ _ _ _ R (einv_start idle k0 I1)) as I.
  split; [by apply inv_kernel_ok, I|]. split; [by apply (einv_groups_ok idle)|]. intros c P.
  pose proof (wp_ecall idle c s I P) as W. apply wpe_result in W as (s' & r & E & I'). exists s', r.
  split; [done|]. split; [by apply inv_kernel_ok, I'|by apply (einv_groups_ok idle)].
Qed.

(** ** On the lists of list.c *)
Section sim.
Context `{HL : KLists L, HA : KLists B} {R : L → B → Prop} {HS : KListsSim L B R} {HF : KListsFreeSim L B R}.

Definition erel (s1 : ekernel L) (s2 : ekernel B) : Prop := krel (R := R) (ekern s1) (ekern s2) ∧ groups s1 = groups s2.

Definition esim {Q} (m1 : EM L Q) (m2 : EM B Q) : Prop :=
  ∀ (s1 : ekernel L) (s2 z2 : ekernel B) r, erel s1 s2 → m2 s2 = Some (z2, r) → ∃ z1 : ekernel L, m1 s1 = Some (z1, r) ∧ erel z1 z2.

Lemma esim_ret {Q} (r : Q) : esim (mret r) (mret r).
Proof. intros z1 z2 z2' q HR [= <- <-]. by eexists. Qed.

Lemma esim_bind {P Q} (m1 : EM L P) m2 (f1 : P → EM L Q) f2 :
  esim m1 m2 → (∀ r, esim (f1 r) (f2 r)) → esim (m1 ≫= f1) (m2 ≫= f2).
Proof.
  intros Hm Hf s1 s2 s2' q HR E. unfold mbind, EM_bind in *. apply bind_Some in E as ([z r] & E1 & E2).
  destruct (Hm _ _ _ _ HR E1) as (z1' & -> & HR'). simpl. by eapply Hf.
Qed.

Lemma esim_elift {Q} (m1 : K L Q) m2 : ksim (R := R) m1 m2 → esim (elift m1) (elift m2).
Proof.
  intros Hm s1 s2 s2' q (HR & Eg) E. unfold elift in *. apply bind_Some in E as ([k r] & E1 & E2).
  destruct (Hm _ _ _ _ HR E1) as (k1 & -> & HR'). simplify_eq/=. rewrite Eg. by eexists.
Qed.

Lemma esim_getbits (g : positive) : esim (getbits g) (getbits g).
Proof.
  intros z1 z2 z2' r (HR & Eg) E. unfold getbits in *. rewrite Eg. destruct (groups z2 !! g); [|done]. simplify_eq/=. by eexists.
Qed.

Lemma esim_setbits (g : positive) b : esim (setbits g b) (setbits g b).
Proof.
  intros z1 z2 z2' r (HR & Eg) E. unfold setbits in *. rewrite Eg. destruct (groups z2 !! g); [|done]. simplify_eq/=. by eexists.
Qed.

Lemma esim_upd_groups f : esim (upd_groups f) (upd_groups f).
Proof. intros z1 z2 z2' r (HR & Eg) E. unfold upd_groups in *. rewrite Eg. simplify_eq/=. by eexists. Qed.

Lemma esim_efault {Q} : esim (Q := Q) efault efault.
Proof. done. Qed.

Lemma esim_if {Q} (b : bool) (m1 n1 : EM L Q) m2 n2 :
  esim m1 m2 → esim n1 n2 → esim (if b then m1 else n1) (if b then m2 else n2).
Proof. by destruct b. Qed.

Lemma esim_free (l : positive) : esim (elift (lst (KFree l))) (elift (lst (KFree l))).
Proof.
  apply esim_elift. intros k1 k2 k2' q [HR HD] E. unfold lst in *. bind_step E as [a r] E1. simplify_eq.
  destruct (sim_free _ _ _ _ _ HR E1) as (z' & -> & HR'). by eexists.
Qed.
End sim.

Create HintDb esim.
#[export] Hint Resolve esim_ret esim_getbits esim_setbits esim_upd_groups esim_efault esim_free : esim.

(** Follows the structure of a function. *)
Ltac esim_step :=
  first
    [ solve [eauto with esim typeclass_instances]
    | apply esim_bind; [|intros ?]
    | apply esim_if
    | apply esim_elift; first [apply ksim_lst; exact Logic.I | solve [ksim]]
    | progress cbv zeta
    | progress unfold whene
    | match goal with |- esim (match ?p with _ => _ end) _ => destruct p end ].

Ltac esim := repeat esim_step.

Section functions.
Context `{HL : KLists L, HA : KLists B} {R : L → B → Prop} {HS : KListsSim L B R} {HF : KListsFreeSim L B R}.
Local Abbreviation sim f := (esim (R := R) f f).

Lemma esim_Create mem : sim (xEventGroupCreate mem).
Proof. unfold xEventGroupCreate. esim. Qed.
Lemma esim_set_bits_loop fuel g : ∀ i c, sim (set_bits_loop fuel g i c).
Proof. induction fuel as [|fuel IH]; intros [i|] c; simpl; esim. Qed.
#[local] Hint Resolve esim_set_bits_loop : esim.
Lemma esim_SetBits g u : sim (xEventGroupSetBits g u).
Proof. unfold xEventGroupSetBits. esim. Qed.
Lemma esim_finish_wait r : sim (finish_wait r).
Proof. unfold finish_wait. esim. Qed.
#[local] Hint Resolve esim_SetBits esim_finish_wait : esim.
Lemma esim_WaitBits g w cl al n : sim (xEventGroupWaitBits g w cl al n).
Proof. unfold xEventGroupWaitBits. esim. Qed.
Lemma esim_WaitBits_return g w cl al : sim (xEventGroupWaitBits_return g w cl al).
Proof. unfold xEventGroupWaitBits_return. esim. Qed.
Lemma esim_Sync g u w n : sim (xEventGroupSync g u w n).
Proof. unfold xEventGroupSync. esim. Qed.
Lemma esim_Sync_return g w : sim (xEventGroupSync_return g w).
Proof. unfold xEventGroupSync_return. esim. Qed.
Lemma esim_delete_loop fuel g : sim (delete_loop fuel g).
Proof. induction fuel as [|fuel IH]; simpl; esim. Qed.
#[local] Hint Resolve esim_delete_loop : esim.
Lemma esim_Delete g : sim (vEventGroupDelete g).
Proof. unfold vEventGroupDelete. esim. Qed.
#[local] Hint Resolve esim_Create esim_WaitBits esim_WaitBits_return esim_Sync esim_Sync_return esim_Delete : esim.

Lemma esim_run_ecall c : sim (run_ecall c).
Proof.
  destruct c; simpl.
  1: apply esim_bind; [apply esim_elift, sim_run_call|intros ?; apply esim_ret].
  all: unfold xEventGroupClearBits, xEventGroupGetBitsFromISR; esim.
Qed.
End functions.

(** The calls in order, with their results. *)
Fixpoint run_ecalls `{KLists L} (cs : list ecall) : EM L (list eresult) :=
  match cs with
  | [] => mret []
  | c :: cs => r ← run_ecall c; rs ← run_ecalls cs; mret (r :: rs)
  end.

Lemma erun_calls idle s tr s' : erun idle s tr s' → run_ecalls (tr.*1) s = Some (s', tr.*2).
Proof.
  induction 1 as [s|s c r s1 tr s' P E R IH]; [done|]. csimpl. unfold mbind at 1, EM_bind. rewrite E. simpl.
  unfold mbind at 1, EM_bind. by rewrite IH.
Qed.

Lemma esim_run_ecalls cs : esim (R := refines) (run_ecalls cs) (run_ecalls cs).
Proof.
  induction cs as [|c cs IH]; simpl; [apply esim_ret|].
  apply esim_bind; [apply (esim_run_ecall (R := refines))|intros r]. apply esim_bind; [done|intros rs; apply esim_ret].
Qed.

(** Refinement: the kernel and its event groups over the doubly linked
    lists of list.c do what they do over abstract lists.  From a store that
    represents blank memory, start-up and any sequence of permitted calls
    return, without a dangling pointer on the way (the loop of
    xEventGroupSetBits reads the next item before it unlinks one), with the
    same results and the same event bits, in a store that represents the
    abstract lists. *)
Theorem event_groups_on_store st A ts idle k0 tr s :
  refines st A → blank A → main_ok ts idle →
  run_main ts idle (MkKernel A boot_data) = Some (k0, ()) → erun idle (no_groups k0) tr s →
  ∃ ks ss, run_main ts idle (MkKernel st boot_data) = Some (ks, ()) ∧
    run_ecalls (tr.*1) (no_groups ks) = Some (ss, tr.*2) ∧
    refines (lists (ekern ss)) (lists (ekern s)) ∧ data (ekern ss) = data (ekern s) ∧ groups ss = groups s.
Proof.
  intros R B M E0 Q. destruct (sim_run_main ts idle (MkKernel st boot_data) (MkKernel A boot_data) k0 ()) as (ks & Es & HR);
    [by split|done|]. exists ks.
  destruct (esim_run_ecalls (tr.*1) (no_groups ks) (no_groups k0) s (tr.*2)) as (ss & E & (HR' & Eg)).
  - by split_and!.
  - by apply (erun_calls idle).
  - exists ss. split_and!; [done|done|apply HR'|apply HR'|done].
Qed.
