(* ===== verification/EventGroupUse.v ===== *)
(** * What the users of an event group rely on

    Setting bits wakes the tasks whose condition is met and no others; a task
    that is woken learns the bits; the last task at a rendezvous releases the
    others.  Runs of the kernel with event groups from start-up, at which the
    theorems are applied. *)
From S2P Require Import Prelude RtosList KList Tasks TasksSim TasksInv TasksOk TasksApi TasksLife TasksMain.
From S2P Require Import EventGroup EventGroupOk EventGroupMain.
Local Open Scope Z_scope.
Implicit Types (A : astate) (k : akernel) (l g : positive) (t : TaskHandle_t) (s : ekernel astate) (b w u : Z).

(** The task [t] waits in the group for [w]: one of its bits, or all. *)
Definition waits_in s g t w (xClearOnExit xWaitForAllBits : bool) : Prop :=
  holds (lists (ekern s)) (xTasksWaitingForBits g) (Ev t) ∧
  a_val (lists (ekern s)) (Ev t) = wait_value w xClearOnExit xWaitForAllBits ∧ event_bits w.

(** The tasks in the list came there by the functions of event_groups.c. *)
Definition only_waiters s g : Prop :=
  ∀ t, holds (lists (ekern s)) (xTasksWaitingForBits g) (Ev t) → ∃ w cl al, waits_in s g t w cl al.

(** The task waits in the group: the bits it was woken with are in its item. *)
Definition given s t b : Prop := awake (ekern s) t ∧ a_val (lists (ekern s)) (Ev t) = woken_value b.

Lemma to_clear_bit A b xs c n : 0 ≤ n →
  Z.testbit (to_clear A b xs c) n = true ↔
  Z.testbit c n = true ∨ ∃ i, i ∈ xs ∧ Z.testbit (cleared_by b (a_val A i)) n = true.
Proof.
  intros Hn. unfold to_clear. revert c. induction xs as [|i xs IH]; intros c; simpl.
  - split; [by left|]. intros [?|(j & Hj & _)]; [done|]. by apply elem_of_nil in Hj.
  - rewrite IH, Z.lor_spec, orb_true_iff. setoid_rewrite elem_of_cons. naive_solver.
Qed.

Lemma cleared_by_wait b w cl al : event_bits w →
  cleared_by b (wait_value w cl al) = if prvTestWaitCondition b w al && cl then w else 0.
Proof.
  intros Hw. unfold cleared_by. rewrite match_found_value by done. destruct (clears_value w cl al Hw) as [-> ->]. done.
Qed.

Lemma clear_bits_bit a b n : 0 ≤ n → Z.testbit (clear_bits a b) n = Z.testbit a n && negb (Z.testbit b n).
Proof. intros Hn. unfold clear_bits. by rewrite Z.land_spec, Z.lnot_spec. Qed.

(** The bits that are left: those that no woken task asks to be cleared. *)
Lemma bits_after_bit idle s g b u a n :
  einv idle s → a_lists (lists (ekern s)) !! xTasksWaitingForBits g = Some a → groups s !! g = Some b → only_waiters s g → 0 ≤ n →
  Z.testbit (bits_after (lists (ekern s)) b u a) n = true ↔
  Z.testbit (Z.lor b u) n = true ∧
  ∀ t w al, waits_in s g t w true al → prvTestWaitCondition (Z.lor b u) w al = true → Z.testbit w n = false.
Proof.
  intros I Ha Hb Ho Hn. unfold bits_after. rewrite clear_bits_bit, andb_true_iff, negb_true_iff by done.
  assert (Hl : (10 < xTasksWaitingForBits g)%positive).
  { destruct (ei_groups _ _ I g b Hb). unfold xTasksWaitingForBits. lia. }
  destruct (event_not_state _ Hl) as (L1 & _ & _).
  split; intros [H1 H2]; (split; [done|]).
  - intros t w al (Hh & Hv & Hw) Hc. destruct (Z.testbit w n) eqn:E; [|done].
    rewrite (proj2 (to_clear_bit _ _ _ _ n Hn)) in H2; [done|]. right. exists (Ev t).
    destruct Hh as (a' & Ha' & Hi). assert (a' = a) as -> by congruence. split; [done|].
    rewrite Hv, cleared_by_wait by done. by rewrite Hc.
  - apply not_true_iff_false. intros [Hz|(i & Hi & Hc)]%to_clear_bit; [by rewrite Z.testbit_0_l in Hz| |done].
    assert (Hh : holds (lists (ekern s)) (xTasksWaitingForBits g) i) by by exists a.
    destruct (wf_on_event_list _ _ _ _ _ _ i (co_wf _ _ _ _ _ _ _ (inv_core _ _ (ei_kernel _ _ I))) L1 Hh) as (t & -> & _).
    destruct (Ho t Hh) as (w & cl & al & W). pose proof W as (_ & Hv & Hw).
    rewrite Hv, cleared_by_wait in Hc by done. destruct (prvTestWaitCondition _ w al) eqn:Et, cl; simpl in Hc;
      try by rewrite Z.testbit_0_l in Hc. by rewrite (H2 t w al) in Hc.
Qed.

(** A delivery, in terms of conditions. *)
Lemma delivered_waits s g b xs a k' t w cl al :
  a_lists (lists (ekern s)) !! xTasksWaitingForBits g = Some a → elems a = xs →
  delivered (match_found b) (woken_value b) xs (ekern s) k' → waits_in s g t w cl al →
  if prvTestWaitCondition b w al then awake k' t ∧ a_val (lists k') (Ev t) = woken_value b
  else same_place (ekern s) k' t ∧ a_val (lists k') (Ev t) = wait_value w cl al.
Proof.
  intros Ha <- [_ Dw Dr _] ((a' & Ha' & Hi) & Hv & Hw). assert (a' = a) as -> by congruence.
  destruct (prvTestWaitCondition b w al) eqn:Et.
  - apply Dw; [done|]. by rewrite Hv, match_found_value.
  - rewrite <- Hv. apply Dr. right. by rewrite Hv, match_found_value.
Qed.

(** C23. Setting bits wakes exactly the tasks whose condition is met:
    [xEventGroupSetBits] returns; each task that waits in the group for bits
    [w] is, when the group's bits with the new ones satisfy its condition (one
    of [w], or all of them), ready and off every event list with those bits in
    its event item, and otherwise still where it was, waiting for the same;
    no task outside the group moves.  The bits that are left are the old and
    the new ones without those that a woken task asked to be cleared. *)
Theorem xEventGroupSetBits_wakes idle s g b u :
  einv idle s → groups s !! g = Some b → event_bits u → uxSchedulerSuspended (data (ekern s)) + 1 < 4294967296 →
  only_waiters s g →
  ∃ s' r, xEventGroupSetBits g u s = Some (s', r) ∧ kernel_ok idle (ekern s') ∧ groups s' = <[g := r]> (groups s) ∧
    (∀ t w cl al, waits_in s g t w cl al →
       if prvTestWaitCondition (Z.lor b u) w al then given s' t (Z.lor b u)
       else same_place (ekern s) (ekern s') t ∧ waits_in s' g t w cl al) ∧
    (∀ t, ¬ holds (lists (ekern s)) (xTasksWaitingForBits g) (Ev t) → same_place (ekern s) (ekern s') t) ∧
    (∀ n, 0 ≤ n → Z.testbit r n = true ↔
       Z.testbit (Z.lor b u) n = true ∧
       ∀ t w al, waits_in s g t w true al → prvTestWaitCondition (Z.lor b u) w al = true → Z.testbit w n = false).
Proof.
  intros I Hb Hu Hs Ho. destruct (waiting_list idle s g I ltac:(by eexists)) as (b' & a & Hb' & Ha & _).
  assert (W : wpe (xEventGroupSetBits g u) (λ r s', r = bits_after (lists (ekern s)) b u a ∧ einv idle s' ∧
    groups s' = <[g := r]> (groups s) ∧
    delivered (match_found (Z.lor b u)) (woken_value (Z.lor b u)) (elems a) (ekern s) (ekern s')) s).
  { by apply (wp_xEventGroupSetBits idle g u b a). }
  apply wpe_result in W as (s' & r & E & -> & I' & Eg & D). exists s', (bits_after (lists (ekern s)) b u a).
  split; [done|]. split; [apply inv_kernel_ok, I'|]. split; [done|]. split_and!.
  - intros t w cl al W. pose proof (delivered_waits s g _ _ a _ t w cl al Ha eq_refl D W) as H.
    destruct (prvTestWaitCondition _ w al); [done|]. destruct H as [H1 H2]. split; [done|]. split_and!; [|done|apply W].
    apply H1, W.
  - intros t Ht. apply (de_rest _ _ _ _ _ D). left. intros Hi. apply Ht. by exists a.
  - intros n Hn. by apply (bits_after_bit idle).
Qed.

(** Handing over: a task that finds its condition not met waits, with the
    condition in its event item; when another task then sets the bits that
    were missing, it becomes ready, and whenever it runs again its call of
    [xEventGroupWaitBits] returns exactly the bits of the group at the time
    they were set, without control bits, and leaves all groups as they are. *)
Theorem xEventGroupWaitBits_handover idle s g b w (cl al : bool) ticks c u :
  einv idle s → groups s !! g = Some b → event_bits w → may_wait idle s ticks c →
  prvTestWaitCondition b w al = false → event_bits u → prvTestWaitCondition (Z.lor b u) w al = true →
  ∃ s1 s2 r, xEventGroupWaitBits g w cl al ticks s = Some (s1, None) ∧ waits_in s1 g c w cl al ∧ groups s1 = groups s ∧
    xEventGroupSetBits g u s1 = Some (s2, r) ∧ given s2 c (Z.lor b u) ∧
    ∀ s3, einv idle s3 → pxCurrentTCB (data (ekern s3)) = Some c →
      a_val (lists (ekern s3)) (Ev c) = a_val (lists (ekern s2)) (Ev c) →
      ∃ s4, xEventGroupWaitBits_return g w cl al s3 = Some (s4, Z.lor b u) ∧ groups s4 = groups s3.
Proof.
  intros I Hb Hw M Ht Hu Ht'. pose proof M as (Hn & Hs & R & _).
  assert (W1 : wpe (xEventGroupWaitBits g w cl al ticks) (λ r s1, r = None ∧ einv idle s1 ∧ groups s1 = groups s ∧
    uxSchedulerSuspended (data (ekern s1)) = 0 ∧ waits_in s1 g c w cl al) s).
  { apply (wp_xEventGroupWaitBits idle g w cl al ticks b); [done..|lia|by exists c|]. intros k' b' I' Hs'. rewrite Ht. intros ->.
    rewrite (proj2 (Z.eqb_neq ticks 0)) by lia. intros c' R' [W1 W2 _]. assert (c' = c) as -> by (destruct R, R'; congruence).
    rewrite set_bits_id in * by done. split_and!; [done|done|done|simpl; lia|done..]. }
  apply wpe_result in W1 as (s1 & r & E1 & -> & I1 & Eg & Hs1 & Wt).
  destruct (waiting_list idle s1 g I1 ltac:(rewrite Eg; by eexists)) as (b1 & a & Hb1 & Ha & Hev).
  assert (b1 = b) as -> by congruence.
  assert (W2 : wpe (xEventGroupSetBits g u) (λ _ s2, given s2 c (Z.lor b u)) s1).
  { apply (wp_xEventGroupSetBits idle g u b a); [done|done|done|lia|done|]. intros k' I' _ _ D.
    pose proof (delivered_waits s1 g _ _ a _ c w cl al Ha eq_refl D Wt) as H. rewrite Ht' in H. exact H. }
  apply wpe_result in W2 as (s2 & r & E2 & G). exists s1, s2, r. split_and!; [done..|].
  intros s3 I3 Hc Hv. destruct (woken_value_bits (Z.lor b u)) as [Hf Hr]; [by apply lor_event|].
  assert (W3 : wpe (xEventGroupWaitBits_return g w cl al) (λ r s4, einv idle s4 ∧ groups s4 = groups s3 ∧
    r = clear_bits (a_val (lists (ekern s3)) (Ev c)) eventEVENT_BITS_CONTROL_BYTES) s3).
  { apply (wp_woken_return idle _ s3 c); [done..|]. rewrite Hv, (proj2 G). by apply Z.eqb_neq. }
  apply wpe_result in W3 as (s4 & r4 & E4 & _ & Eg4 & ->). exists s4. rewrite E4, Hv, (proj2 G), Hr. by split.
Qed.

(** The rendezvous: when the bits that a task sets in [xEventGroupSync]
    complete those it waits for, it returns them at once without waiting,
    every task that waits in the group for all of its bits and now has them is
    ready with the same bits in its event item, and none of the bits waited
    for is left in the group, so that the next rendezvous starts anew. *)
Theorem xEventGroupSync_rendezvous idle s g b u w ticks :
  einv idle s → groups s !! g = Some b → event_bits u → event_bits w →
  uxSchedulerSuspended (data (ekern s)) + 2 < 4294967296 → only_waiters s g → Z.land (Z.lor b u) w = w →
  ∃ s' r, xEventGroupSync g u w ticks s = Some (s', Some (Z.lor b u)) ∧ kernel_ok idle (ekern s') ∧
    groups s' = <[g := r]> (groups s) ∧ Z.land r w = 0 ∧
    ∀ t w', waits_in s g t w' true true → Z.land (Z.lor b u) w' = w' → given s' t (Z.lor b u) ∧ Z.land r w' = 0.
Proof.
  intros I Hb Hu Hw Hs Ho Hm. destruct (waiting_list idle s g I ltac:(by eexists)) as (b' & a & Hb' & Ha & _).
  set (r := clear_bits (bits_after (lists (ekern s)) b u a) w).
  assert (W : wpe (xEventGroupSync g u w ticks) (λ o s', o = Some (Z.lor b u) ∧ einv idle s' ∧ groups s' = <[g := r]> (groups s) ∧
    ∃ k1, delivered (match_found (Z.lor b u)) (woken_value (Z.lor b u)) (elems a) (ekern s) k1 ∧ quiet k1 (ekern s')) s).
  { apply (wp_xEventGroupSync idle g u w ticks b a); [done..|]. intros k1 k' b2 I' _ D. cbv zeta. rewrite Hm, Z.eqb_refl.
    intros -> Qu. split_and!; [done..|]. by exists k1. }
  apply wpe_result in W as (s' & o & E & -> & I' & Eg & k1 & D & Qu). exists s', r.
  assert (Cl : ∀ w', (∀ n, 0 ≤ n → Z.testbit r n = true → Z.testbit w' n = false) → Z.land r w' = 0).
  { intros w' H. apply Z.bits_inj'. intros n Hn. rewrite Z.land_spec, Z.testbit_0_l.
    destruct (Z.testbit r n) eqn:Er; [|done]. by rewrite H. }
  split; [done|]. split; [apply inv_kernel_ok, I'|]. split; [done|]. split.
  - apply Cl. intros n Hn. unfold r. rewrite clear_bits_bit by done. by intros [_ ?%negb_true_iff]%andb_true_iff.
  - intros t w' Wt Hm'. pose proof (delivered_waits s g _ _ a _ t w' true true Ha eq_refl D Wt) as H.
    assert (Hc : prvTestWaitCondition (Z.lor b u) w' true = true) by (simpl; by apply Z.eqb_eq). rewrite Hc in H. split.
    + destruct H as [H1 H2]. split; [by eapply awake_quiet|]. by rewrite (qu_val _ _ Qu).
    + apply Cl. intros n Hn. unfold r. rewrite clear_bits_bit by done. intros [H1 _]%andb_true_iff.
      destruct (proj1 (bits_after_bit idle s g b u a n I Ha Hb Ho Hn) H1) as [_ H2]. by apply (H2 t w' true).
Qed.

(** ** A run

    From the start-up of the example of TasksMain.v: a group is created at 6;
    task 2 waits for two bits, or comes first to a rendezvous of two tasks. *)
Definition eafter (c : ecall) s : ekernel astate := match run_ecall c s with Some (s', _) => s' | None => s end.

Lemma eafter_spec c s : einv 4 s → epermitted 4 s c → (∃ r, run_ecall c s = Some (eafter c s, r)) ∧ einv 4 (eafter c s).
Proof.
  intros I P. pose proof (wp_ecall 4 c s I P) as W. unfold wpe, eafter in *. destruct (run_ecall c s) as [[s' r]|]; [|done].
  split; [by exists r|]. apply W.
Qed.

Definition e_start : ekernel astate := no_groups started.
Definition create_group : ecall := ECreate (Some 6%positive).
Definition wait_6 : ecall := EWait 6 5 true true 9.
Definition sync_6 : ecall := ESync 6 1 3 9.
Definition e_created : ekernel astate := eafter create_group e_start.
Definition e_waiting : ekernel astate := eafter wait_6 e_created.
Definition e_first : ekernel astate := eafter sync_6 e_created.

Lemma e_start_inv : einv 4 e_start.
Proof. apply einv_start, started_main. Qed.

Lemma create_group_permitted : epermitted 4 e_start create_group.
Proof.
  intros g [= <-]. split; [done|]. split; [done|]. split; [apply (bool_decide_unpack _)|]; vm_compute; reflexivity.
Qed.

Lemma e_created_inv : einv 4 e_created.
Proof. apply (eafter_spec create_group e_start e_start_inv create_group_permitted). Qed.

Lemma e_created_group : groups e_created !! 6%positive = Some 0.
Proof. vm_compute. reflexivity. Qed.

Lemma e_created_may_wait : may_wait 4 e_created 9 2.
Proof.
  split; [lia|]. split; [vm_compute; reflexivity|]. split; [|done]. split; [vm_compute; reflexivity|].
  exists 2, 3%positive. split; [done|]. apply holds_b_spec. vm_compute. reflexivity.
Qed.

Lemma wait_6_permitted : epermitted 4 e_created wait_6.
Proof.
  split; [eexists; apply e_created_group|]. split; [done|]. split; [done|]. split; [vm_compute; reflexivity|].
  intros _. exists 2%positive. apply e_created_may_wait.
Qed.

Lemma sync_6_permitted : epermitted 4 e_created sync_6.
Proof.
  split; [eexists; apply e_created_group|]. split; [done|]. split; [done|]. split; [done|]. split; [vm_compute; reflexivity|].
  intros _. exists 2%positive. apply e_created_may_wait.
Qed.

Lemma e_waiting_inv : einv 4 e_waiting.
Proof. apply (eafter_spec wait_6 e_created e_created_inv wait_6_permitted). Qed.

Lemma e_first_inv : einv 4 e_first.
Proof. apply (eafter_spec sync_6 e_created e_created_inv sync_6_permitted). Qed.

Lemma e_waiting_group : groups e_waiting !! 6%positive = Some 0.
Proof. vm_compute. reflexivity. Qed.

Lemma e_first_group : groups e_first !! 6%positive = Some 1.
Proof. vm_compute. reflexivity. Qed.

(** The only waiter, computed. *)
Lemma one_waiter s g t w cl al :
  (a ← a_lists (lists (ekern s)) !! xTasksWaitingForBits g; Some (elems a)) = Some [Ev t] →
  a_val (lists (ekern s)) (Ev t) = wait_value w cl al → event_bits w → waits_in s g t w cl al ∧ only_waiters s g.
Proof.
  intros E Hv Hw. bind_step E as a Ha. injection E as E.
  assert (Wt : waits_in s g t w cl al) by (split; [exists a; split; [done|rewrite E; by left]|done]).
  split; [done|]. intros t' (a' & Ha' & Hi). assert (a' = a) as -> by congruence. rewrite E in Hi.
  apply list_elem_of_singleton in Hi. injection Hi as <-. by exists w, cl, al.
Qed.

Lemma e_waiting_task : waits_in e_waiting 6 2 5 true true ∧ only_waiters e_waiting 6.
Proof. apply one_waiter; [vm_compute; reflexivity|vm_compute; reflexivity|done]. Qed.

Lemma e_first_task : waits_in e_first 6 2 3 true true ∧ only_waiters e_first 6.
Proof. apply one_waiter; [vm_compute; reflexivity|vm_compute; reflexivity|done]. Qed.

Lemma example_erun s c1 c2 : einv 4 s → epermitted 4 s c1 → epermitted 4 (eafter c1 s) c2 →
  ∃ r1 r2, erun 4 s [(c1, r1); (c2, r2)] (eafter c2 (eafter c1 s)).
Proof.
  intros I P1 P2. destruct (eafter_spec c1 s I P1) as [[r1 E1] I1]. destruct (eafter_spec c2 _ I1 P2) as [[r2 E2] _].
  exists r1, r2. econstructor; [done..|]. econstructor; [done..|]. constructor.
Qed.

Lemma e_waiting_run : ∃ r1 r2, erun 4 e_start [(create_group, r1); (wait_6, r2)] e_waiting.
Proof. apply example_erun; [apply e_start_inv|apply create_group_permitted|apply wait_6_permitted]. Qed.

Lemma event_groups_safe_witness : ∃ tr, erun 4 (no_groups started) tr e_waiting ∧ kernel_ok 4 (ekern e_waiting) ∧ groups_ok e_waiting.
Proof.
  destruct e_waiting_run as (r1 & r2 & R). eexists. split; [exact R|].
  destruct (event_groups_safe main_abs main_tasks 4 started _ e_waiting main_blank main_fine (proj1 started_main) R) as (H1 & H2 & _).
  split; [exact H1|exact H2].
Defined.

Lemma event_groups_on_store_witness : ∃ ks ss rs, run_main main_tasks 4 (MkKernel main_store boot_data) = Some (ks, ()) ∧
  run_ecalls [create_group; wait_6] (no_groups ks) = Some (ss, rs) ∧ refines (lists (ekern ss)) (lists (ekern e_waiting)).
Proof.
  destruct e_waiting_run as (r1 & r2 & R).
  destruct (event_groups_on_store main_store main_abs main_tasks 4 started _ e_waiting main_refines main_blank main_fine
    (proj1 started_main) R) as (ks & ss & E1 & E2 & HR & _).
  exists ks, ss. eexists. split; [exact E1|]. split; [exact E2|exact HR].
Defined.

Lemma xEventGroupSetBits_wakes_witness : ∃ s' r, xEventGroupSetBits 6 7 e_waiting = Some (s', r) ∧ given s' 2 7.
Proof.
  destruct (xEventGroupSetBits_wakes 4 e_waiting 6 0 7 e_waiting_inv e_waiting_group ltac:(done) ltac:(vm_compute; reflexivity)
    (proj2 e_waiting_task)) as (s' & r & E & _ & _ & H & _).
  exists s', r. split; [exact E|]. exact (H 2%positive 5 true true (proj1 e_waiting_task)).
Defined.

Lemma xEventGroupWaitBits_handover_witness : ∃ s1 s2 r, xEventGroupWaitBits 6 5 true true 9 e_created = Some (s1, None) ∧
  xEventGroupSetBits 6 7 s1 = Some (s2, r) ∧ given s2 2 7.
Proof.
  destruct (xEventGroupWaitBits_handover 4 e_created 6 0 5 true true 9 2 7 e_created_inv e_created_group ltac:(done)
    e_created_may_wait eq_refl ltac:(done) eq_refl) as (s1 & s2 & r & E1 & _ & _ & E2 & G & _).
  exists s1, s2, r. split; [exact E1|]. split; [exact E2|exact G].
Defined.

Lemma xEventGroupSync_rendezvous_witness : ∃ s', xEventGroupSync 6 2 3 9 e_first = Some (s', Some 3) ∧ given s' 2 3.
Proof.
  destruct (xEventGroupSync_rendezvous 4 e_first 6 1 2 3 9 e_first_inv e_first_group ltac:(done) ltac:(done)
    ltac:(vm_compute; reflexivity) (proj2 e_first_task) eq_refl) as (s' & r & E & _ & _ & _ & H).
  exists s'. split; [exact E|]. exact (proj1 (H 2%positive 3 (proj1 e_first_task) eq_refl)).
Defined.
