(* ===== verification/IpReass.v ===== *)
(** * lwip-1.4.1/src/core/ipv4/ip_frag.c: reassembly of IP datagrams, definitions

    Configuration: IP_REASS_CHECK_OVERLAP 1, IP_REASS_FREE_OLDEST 1, LWIP_ICMP
    1, no statistics.  A fragment is a packet of Pbuf.v; once it is queued, the
    first octets of its header hold a [struct ip_reass_helper], in memory.  A
    null pointer is 0 there and [None] elsewhere.  icmp.c's
    [icmp_time_exceeded] is a parameter. *)
From S2P Require Import Prelude LwipDef Chksum Memp Pbuf.
Local Open Scope Z_scope.

Definition IP_HLEN : Z := 20.
Definition IP_MF : Z := 8192.
Definition IP_OFFMASK : Z := 8191.
Definition IP_REASS_MAXAGE : Z := 3.
Definition IP_REASS_MAX_PBUFS : Z := 10.
Definition IP_REASS_FLAG_LASTFRAG : Z := 1.
Definition ICMP_TE_FRAG : Z := 1.

(** ** The IP header, as octets *)
Definition hdr16 (hdr : list Z) (i : nat) : Z := le_num (take 2 (drop i hdr)).
Definition hdr32 (hdr : list Z) (i : nat) : Z := le_num (take 4 (drop i hdr)).
Definition IPH_HL (hdr : list Z) : Z := Z.land (nth 0 hdr 0) 15.
Definition IPH_LEN (hdr : list Z) : Z := hdr16 hdr 2.
Definition IPH_ID (hdr : list Z) : Z := hdr16 hdr 4.
Definition IPH_OFFSET (hdr : list Z) : Z := hdr16 hdr 6.
Definition iph_src (hdr : list Z) : Z := hdr32 hdr 12.
Definition iph_dest (hdr : list Z) : Z := hdr32 hdr 16.

Definition IP_ADDRESSES_AND_ID_MATCH (a b : list Z) : bool :=
  (iph_src a =? iph_src b) && (iph_dest a =? iph_dest b) && (IPH_ID a =? IPH_ID b).

(** [(ntohs(IPH_OFFSET(hdr)) & IP_OFFMASK) * 8] and
    [ntohs(IPH_LEN(hdr)) - IPH_HL(hdr) * 4], in a [u16_t]. *)
Definition frag_offset (hdr : list Z) : Z := u16 (Z.land (lwip_ntohs (IPH_OFFSET hdr)) IP_OFFMASK * 8).
Definition frag_len (hdr : list Z) : Z := u16 (lwip_ntohs (IPH_LEN hdr) - IPH_HL hdr * 4).

(** ** Data *)
Record ip_reassdata := MkReass {
  rnext : option Z;
  rp : option Z;
  iphdr : list Z;
  datagram_len : Z;
  rflags : Z;
  timer : Z }.

Definition set_rnext (n : option Z) r := MkReass n (rp r) (iphdr r) (datagram_len r) (rflags r) (timer r).
Definition set_rp (p : option Z) r := MkReass (rnext r) p (iphdr r) (datagram_len r) (rflags r) (timer r).
Definition set_iphdr (l : list Z) r := MkReass (rnext r) (rp r) l (datagram_len r) (rflags r) (timer r).
Definition set_datagram_len (n : Z) r := MkReass (rnext r) (rp r) (iphdr r) n (rflags r) (timer r).
Definition set_rflags (n : Z) r := MkReass (rnext r) (rp r) (iphdr r) (datagram_len r) n (timer r).
Definition set_timer (n : Z) r := MkReass (rnext r) (rp r) (iphdr r) (datagram_len r) (rflags r) n.

(** [struct ip_reass_helper] *)
Record ip_reass_helper := MkHelper { next_pbuf : option Z; start : Z; end_ : Z }.

(** The variables of the module, the structures of MEMP_REASSDATA by address,
    the packets, and the state of the modules that an ICMP message passes. *)
Record reass (A W : Type) := MkRS {
  reassdatagrams : option Z;
  rdata : gmap Z ip_reassdata;
  ip_reass_pbufcount : Z;
  rheap : heap A;
  below : W }.
Arguments MkRS {A W}.
Arguments reassdatagrams {A W}.
Arguments rdata {A W}.
Arguments ip_reass_pbufcount {A W}.
Arguments rheap {A W}.
Arguments below {A W}.

Section operations.
Context {A W : Type} `{Arena A}.
Context (icmp_time_exceeded : Z → Z → W * heap A → option (W * heap A)).
Implicit Types (h : heap A) (s : reass A W) (p q ipr a : Z).

Definition set_first (r : option Z) s : reass A W := MkRS r (rdata s) (ip_reass_pbufcount s) (rheap s) (below s).
Definition set_rdata (m : gmap Z ip_reassdata) s : reass A W := MkRS (reassdatagrams s) m (ip_reass_pbufcount s) (rheap s) (below s).
Definition set_count (n : Z) s : reass A W := MkRS (reassdatagrams s) (rdata s) n (rheap s) (below s).
Definition set_rheap h s : reass A W := MkRS (reassdatagrams s) (rdata s) (ip_reass_pbufcount s) h (below s).
Definition set_below (w : W) s : reass A W := MkRS (reassdatagrams s) (rdata s) (ip_reass_pbufcount s) (rheap s) w.

Definition upd_ipr ipr (f : ip_reassdata → ip_reassdata) s : option (reass A W) :=
  r ← rdata s !! ipr; Some (set_rdata (<[ipr := f r]> (rdata s)) s).

(** ** Memory *)
Definition octets_at h a (n : nat) : list Z := read_mem (mem h) a n.
Definition store h a (l : list Z) : heap A := with_mem (write_mem (mem h) a l) h.
Definition payload_of h p : option Z := b ← pbufs h !! p; Some (payload b).

Definition le16_split (n : Z) : list Z := [n mod 256; n / 256].
Definition pointer (n : Z) : option Z := if n =? 0 then None else Some n.
Definition address (p : option Z) : Z := match p with Some p => p | None => 0 end.

(** The header and the helper at the payload of a pbuf. *)
Definition iphdr_of h p : option (list Z) := a ← payload_of h p; Some (octets_at h a (Z.to_nat IP_HLEN)).
Definition helper_at h a : ip_reass_helper :=
  MkHelper (pointer (le_num (octets_at h a 4))) (le_num (octets_at h (a + 4) 2)) (le_num (octets_at h (a + 6) 2)).
Definition helper_of h p : option ip_reass_helper := a ← payload_of h p; Some (helper_at h a).
Definition set_next_pbuf p (n : option Z) h : option (heap A) :=
  a ← payload_of h p; Some (store h a (le_split (address n))).

(** ** Dequeuing and freeing *)
Definition ip_reass_dequeue_datagram ipr (prev : option Z) s : option (reass A W) :=
  r ← rdata s !! ipr;
  s ← (if bool_decide (reassdatagrams s = Some ipr) then Some (set_first (rnext r) s)
       else prev ← prev; upd_ipr prev (set_rnext (rnext r)) s);  (* LWIP_ASSERT("sanity check linked list", prev != NULL) *)
  Some (set_rheap (with_arena (memp_free MEMP_REASSDATA ipr (arena (rheap s))) (rheap s))
          (set_rdata (delete ipr (rdata s)) s)).

(** The loop that frees the fragments; the count is [pbufs_freed]. *)
Fixpoint free_frags (fuel : nat) (p : option Z) (pbufs_freed : Z) h : option (heap A * Z) :=
  match p with
  | None => Some (h, pbufs_freed)
  | Some p =>
      match fuel with
      | O => None
      | S fuel =>
          iprh ← helper_of h p;
          clen ← pbuf_clen (Some p) h;
          _ ← lwip_assert (pbufs_freed + clen <=? 65535);
          '(h, _) ← pbuf_free (Some p) h;
          free_frags fuel (next_pbuf iprh) (u16 (pbufs_freed + clen)) h
      end
  end.

(** The first fragment was received: an ICMP time exceeded message is sent with
    its header, and it is unlinked and freed. *)
Definition report_first ipr (r : ip_reassdata) (first : Z) (iprh : ip_reass_helper) s : option (reass A W * Z) :=
  if start iprh =? 0 then
    s ← upd_ipr ipr (set_rp (next_pbuf iprh)) s;
    a ← payload_of (rheap s) first;
    let h := store (rheap s) a (iphdr r) in
    '(w, h) ← icmp_time_exceeded first ICMP_TE_FRAG (below s, h);
    clen ← pbuf_clen (Some first) h;
    _ ← lwip_assert (clen <=? 65535);
    '(h, _) ← pbuf_free (Some first) h;
    Some (set_below w (set_rheap h s), clen)
  else Some (s, 0).

Definition ip_reass_free_complete_datagram ipr (prev : option Z) s : option (reass A W * Z) :=
  _ ← lwip_assert (negb (bool_decide (prev = Some ipr)));
  _ ← match prev with
      | Some prev => rprev ← rdata s !! prev; lwip_assert (bool_decide (rnext rprev = Some ipr))
      | None => Some ()
      end;
  r ← rdata s !! ipr;
  first ← rp r;
  iprh ← helper_of (rheap s) first;
  '(s, pbufs_freed) ← report_first ipr r first iprh s;
  r ← rdata s !! ipr;
  '(h, pbufs_freed) ← free_frags (size (pbufs (rheap s))) (rp r) pbufs_freed (rheap s);
  s ← ip_reass_dequeue_datagram ipr prev (set_rheap h s);
  _ ← lwip_assert (pbufs_freed <=? ip_reass_pbufcount s);
  Some (set_count (u16 (ip_reass_pbufcount s - pbufs_freed)) s, pbufs_freed).

(** ** The timer *)
Fixpoint tmr_loop (fuel : nat) (r prev : option Z) s : option (reass A W) :=
  match r with
  | None => Some s
  | Some r =>
      match fuel with
      | O => None
      | S fuel =>
          d ← rdata s !! r;
          if 0 <? timer d then
            s ← upd_ipr r (set_timer (timer d - 1)) s;
            tmr_loop fuel (rnext d) (Some r) s
          else
            '(s, _) ← ip_reass_free_complete_datagram r prev s;
            tmr_loop fuel (rnext d) prev s
      end
  end.

Definition ip_reass_tmr s : option (reass A W) := tmr_loop (size (rdata s)) (reassdatagrams s) None s.

(** ** Making room *)

(** One pass over the list: [oldest], [prev] and [other_datagrams]. *)
Fixpoint oldest_loop (fuel : nat) (fraghdr : list Z) (r oldest prev : option Z) (other_datagrams : Z) s
    : option (option Z * option Z * Z) :=
  match r with
  | None => Some (oldest, prev, other_datagrams)
  | Some r =>
      match fuel with
      | O => None
      | S fuel =>
          d ← rdata s !! r;
          '(oldest, other_datagrams) ←
            (if negb (IP_ADDRESSES_AND_ID_MATCH (iphdr d) fraghdr) then
               oldest ← match oldest with
                        | None => Some (Some r)
                        | Some o => od ← rdata s !! o; Some (if timer d <=? timer od then Some r else Some o)
                        end;
               Some (oldest, other_datagrams + 1)
             else Some (oldest, other_datagrams));
          oldest_loop fuel fraghdr (rnext d) oldest
            (match rnext d with Some _ => Some r | None => prev end) other_datagrams s
      end
  end.

(** The [do] loop; [fraghdr] is the address of the header of the fragment. *)
Fixpoint remove_loop (fuel : nat) (fraghdr : Z) (pbufs_needed pbufs_freed : Z) s : option (reass A W * Z) :=
  match fuel with
  | O => None
  | S fuel =>
      '(oldest, prev, other_datagrams) ←
        oldest_loop (size (rdata s)) (octets_at (rheap s) fraghdr (Z.to_nat IP_HLEN)) (reassdatagrams s) None None 0 s;
      '(s, pbufs_freed) ←
        match oldest with
        | Some oldest =>
            '(s, n) ← ip_reass_free_complete_datagram oldest prev s; Some (s, pbufs_freed + n)
        | None => Some (s, pbufs_freed)
        end;
      if (pbufs_freed <? pbufs_needed) && (1 <? other_datagrams)
      then remove_loop fuel fraghdr pbufs_needed pbufs_freed s
      else Some (s, pbufs_freed)
  end.

Definition ip_reass_remove_oldest_datagram (fraghdr : Z) (pbufs_needed : Z) s : option (reass A W * Z) :=
  remove_loop (S (size (rdata s))) fraghdr pbufs_needed 0 s.

(** ** A new datagram *)
Definition reassdata_malloc s : option Z * reass A W :=
  match memp_malloc MEMP_REASSDATA (arena (rheap s)) with
  | Some (ipr, ar) => (Some ipr, set_rheap (with_arena ar (rheap s)) s)
  | None => (None, s)
  end.

Definition ip_reass_enqueue_new_datagram (fraghdr : Z) (clen : Z) s : option (reass A W * option Z) :=
  let '(ipr, s) := reassdata_malloc s in
  '(s, ipr) ← match ipr with
              | Some ipr => Some (s, Some ipr)
              | None =>
                  '(s, freed) ← ip_reass_remove_oldest_datagram fraghdr clen s;
                  if clen <=? freed then let '(ipr, s) := reassdata_malloc s in Some (s, ipr) else Some (s, None)
              end;
  match ipr with
  | None => Some (s, None)
  | Some ipr =>
      let r := MkReass (reassdatagrams s) None (octets_at (rheap s) fraghdr (Z.to_nat IP_HLEN)) 0 0 IP_REASS_MAXAGE in
      Some (set_first (Some ipr) (set_rdata (<[ipr := r]> (rdata s)) s), Some ipr)
  end.

(** ** Queueing a fragment *)

(** The search for the place of [new_p]: [None] when the fragment is thrown
    away, else [q], [iprh_prev] (as its pbuf) and [valid] behind the loop. *)
Fixpoint place_loop (fuel : nat) ipr (new_p : Z) (q prev : option Z) (valid : bool) s
    : option (reass A W * option (option Z * option Z * bool)) :=
  match q with
  | None => Some (s, Some (None, prev, valid))
  | Some q =>
      match fuel with
      | O => None
      | S fuel =>
          iprh ← helper_of (rheap s) new_p;
          tmp ← helper_of (rheap s) q;
          if start iprh <? start tmp then
            h ← set_next_pbuf new_p (Some q) (rheap s);
            match prev with
            | Some pv =>
                iprh_prev ← helper_of h pv;
                if (start iprh <? end_ iprh_prev) || (start tmp <? end_ iprh) then Some (set_rheap h s, None)
                else h ← set_next_pbuf pv (Some new_p) h; Some (set_rheap h s, Some (Some q, prev, valid))
            | None => s ← upd_ipr ipr (set_rp (Some new_p)) (set_rheap h s); Some (s, Some (Some q, prev, valid))
            end
          else if start iprh =? start tmp then Some (s, None)
          else if start iprh <? end_ tmp then Some (s, None)
          else
            valid ← match prev with
                    | Some pv => iprh_prev ← helper_of (rheap s) pv; Some (valid && (end_ iprh_prev =? start tmp))
                    | None => Some valid
                    end;
            place_loop fuel ipr new_p (next_pbuf tmp) (Some q) valid s
      end
  end.

(** [q == NULL] behind the loop. *)
Definition append_frag ipr (new_p : Z) (prev : option Z) (valid : bool) s : option (reass A W * bool) :=
  match prev with
  | Some pv =>
      iprh ← helper_of (rheap s) new_p;
      iprh_prev ← helper_of (rheap s) pv;
      _ ← lwip_assert (end_ iprh_prev <=? start iprh);
      h ← set_next_pbuf pv (Some new_p) (rheap s);
      Some (set_rheap h s, valid && (end_ iprh_prev =? start iprh))
  | None =>
      r ← rdata s !! ipr;
      _ ← lwip_assert (bool_decide (rp r = None));
      s ← upd_ipr ipr (set_rp (Some new_p)) s; Some (s, valid)
  end.

(** No holes after the fragment [prev]: the result, and the last fragment
    reached. *)
Fixpoint holes_loop (fuel : nat) (prev : Z) (q : option Z) h : option (bool * Z) :=
  match q with
  | None => Some (true, prev)
  | Some q =>
      match fuel with
      | O => None
      | S fuel =>
          iprh_prev ← helper_of h prev;
          iprh ← helper_of h q;
          if negb (end_ iprh_prev =? start iprh) then Some (false, q) else holes_loop fuel q (next_pbuf iprh) h
      end
  end.

Definition validate_datagram ipr (new_p : Z) (valid : bool) s : option bool :=
  r ← rdata s !! ipr;
  if Z.land (rflags r) IP_REASS_FLAG_LASTFRAG =? 0 then Some false else
  if negb valid then Some false else
  first ← rp r;
  hfirst ← helper_of (rheap s) first;
  if negb (start hfirst =? 0) then Some false else
  iprh ← helper_of (rheap s) new_p;
  '(valid, last) ← holes_loop (size (pbufs (rheap s))) new_p (next_pbuf iprh) (rheap s);
  if valid : bool then
    afirst ← payload_of (rheap s) first;
    alast ← payload_of (rheap s) last;
    _ ← lwip_assert (negb (afirst =? alast));
    iprh ← helper_of (rheap s) last;
    _ ← lwip_assert (bool_decide (next_pbuf iprh = None));
    _ ← lwip_assert (end_ iprh =? datagram_len r);
    Some true
  else Some false.

Definition ip_reass_chain_frag_into_datagram_and_validate ipr (new_p : Z) s : option (reass A W * bool) :=
  fraghdr ← iphdr_of (rheap s) new_p;
  a ← payload_of (rheap s) new_p;
  let len := frag_len fraghdr in
  let offset := frag_offset fraghdr in
  let h := store (rheap s) a (le_split 0) in
  let h := store h (a + 4) (le16_split offset) in
  let h := store h (a + 6) (le16_split (u16 (offset + len))) in
  let s := set_rheap h s in
  r ← rdata s !! ipr;
  '(s, place) ← place_loop (size (pbufs (rheap s))) ipr new_p (rp r) None true s;
  match place with
  | None =>
      clen ← pbuf_clen (Some new_p) (rheap s);
      let s := set_count (u16 (ip_reass_pbufcount s - clen)) s in
      '(h, _) ← pbuf_free (Some new_p) (rheap s);
      Some (set_rheap h s, false)
  | Some (q, prev, valid) =>
      '(s, valid) ← match q with None => append_frag ipr new_p prev valid s | Some _ => Some (s, valid) end;
      valid ← validate_datagram ipr new_p valid s;
      Some (s, valid)
  end.

(** ** A fragment arrives *)
Fixpoint find_loop (fuel : nat) (fraghdr : list Z) (ipr prev : option Z) s : option (option Z * option Z) :=
  match ipr with
  | None => Some (None, prev)
  | Some i =>
      match fuel with
      | O => None
      | S fuel =>
          d ← rdata s !! i;
          if IP_ADDRESSES_AND_ID_MATCH (iphdr d) fraghdr then Some (Some i, prev)
          else find_loop fuel fraghdr (rnext d) (Some i) s
      end
  end.

(** [nullreturn] *)
Definition drop_fragment (p : Z) s : option (reass A W * option Z) :=
  '(h, _) ← pbuf_free (Some p) (rheap s); Some (set_rheap h s, None).

(** The fragments after the first, cut behind their headers and chained. *)
Fixpoint concat_loop (fuel : nat) (p : Z) (r : option Z) h : option (heap A) :=
  match r with
  | None => Some h
  | Some r =>
      match fuel with
      | O => None
      | S fuel =>
          iprh ← payload_of h r;
          '(h, _) ← pbuf_header r (- IP_HLEN) h;
          h ← pbuf_cat (Some p) (Some r) h;
          concat_loop fuel p (next_pbuf (helper_at h iprh)) h
      end
  end.

(** The datagram is complete. *)
Definition finish_datagram ipr (ipr_prev : option Z) s : option (reass A W * option Z) :=
  r ← rdata s !! ipr;
  s ← upd_ipr ipr (set_datagram_len (u16 (datagram_len r + IP_HLEN))) s;
  p ← rp r;
  iprh ← helper_of (rheap s) p;
  fraghdr ← payload_of (rheap s) p;
  let h := store (rheap s) fraghdr (iphdr r) in
  let h := store h (fraghdr + 2) (le16_split (lwip_htons (u16 (datagram_len r + IP_HLEN)))) in
  let h := store h (fraghdr + 6) (le16_split 0) in
  let h := store h (fraghdr + 10) (le16_split 0) in
  let h := store h (fraghdr + 10) (le16_split (inet_chksum fraghdr (octets_at h fraghdr (Z.to_nat IP_HLEN)))) in
  h ← concat_loop (size (pbufs h)) p (next_pbuf iprh) h;
  s ← ip_reass_dequeue_datagram ipr ipr_prev (set_rheap h s);
  clen ← pbuf_clen (Some p) (rheap s);
  Some (set_count (u16 (ip_reass_pbufcount s - clen)) s, Some p).

(** Queueing in the datagram [ipr]; [fraghdr] is the header of [p]. *)
Definition queue_fragment ipr (ipr_prev : option Z) (fraghdr : list Z) (offset len_ : Z) (p clen : Z) s : option (reass A W * option Z) :=
  let s := set_count (u16 (ip_reass_pbufcount s + clen)) s in
  s ← (if Z.land (IPH_OFFSET fraghdr) (lwip_ntohs IP_MF) =? 0 then
         upd_ipr ipr (λ r, set_datagram_len (u16 (offset + len_)) (set_rflags (Z.lor (rflags r) IP_REASS_FLAG_LASTFRAG) r)) s
       else Some s);
  '(s, complete) ← ip_reass_chain_frag_into_datagram_and_validate ipr p s;
  if complete : bool then finish_datagram ipr ipr_prev s else Some (s, None).

(** [None] in the result is NULL; [a] is the pointer [fraghdr], and the header is
    read again behind the calls that free other datagrams. *)
Definition ip_reass (p : Z) s : option (reass A W * option Z) :=
  a ← payload_of (rheap s) p;
  let fraghdr := octets_at (rheap s) a (Z.to_nat IP_HLEN) in
  if negb (IPH_HL fraghdr * 4 =? IP_HLEN) then drop_fragment p s else
  let offset := frag_offset fraghdr in
  let len_ := frag_len fraghdr in
  clen ← pbuf_clen (Some p) (rheap s);
  '(s, room) ← (if IP_REASS_MAX_PBUFS <? ip_reass_pbufcount s + clen then
                  '(s, freed) ← ip_reass_remove_oldest_datagram a clen s;
                  Some (s, negb (freed =? 0) && negb (IP_REASS_MAX_PBUFS <? ip_reass_pbufcount s + clen))
                else Some (s, true));
  if negb room then drop_fragment p s else
  let fraghdr := octets_at (rheap s) a (Z.to_nat IP_HLEN) in
  '(ipr, ipr_prev) ← find_loop (size (rdata s)) fraghdr (reassdatagrams s) None s;
  match ipr with
  | None =>
      '(s, ipr) ← ip_reass_enqueue_new_datagram a clen s;
      match ipr with
      | None => drop_fragment p s
      | Some ipr => queue_fragment ipr ipr_prev (octets_at (rheap s) a (Z.to_nat IP_HLEN)) offset len_ p clen s
      end
  | Some ipr =>
      r ← rdata s !! ipr;
      s ← (if (Z.land (lwip_ntohs (IPH_OFFSET fraghdr)) IP_OFFMASK =? 0)
              && negb (Z.land (lwip_ntohs (IPH_OFFSET (iphdr r))) IP_OFFMASK =? 0)
           then upd_ipr ipr (set_iphdr fraghdr) s else Some s);
      queue_fragment ipr ipr_prev fraghdr offset len_ p clen s
  end.

End operations.
