(* ===== verification/IpReassOk.v ===== *)
(** * Reassembly: the fragments of one datagram

    The helper structures in memory link the fragments of a datagram in the
    order of their offsets; [place] says where a new one goes, and what of the
    datagram is checked for holes on the way. *)
From S2P Require Import Prelude LwipDef Chksum Memp Pbuf PbufRef PbufOwn PbufData IpReass.
Local Open Scope Z_scope.

(** ** Words in memory *)
Lemma le16_split_length n : length (le16_split n) = 2%nat.
Proof. done. Qed.

Lemma le_num_split16 n : is_u16 n → le_num (le16_split n) = n.
Proof. unfold is_u16, le16_split. simpl. intros. Z.to_euclidean_division_equations. lia. Qed.

Definition address_ok (p : option Z) : Prop := match p with Some p => 0 < p < 4294967296 | None => True end.

Lemma pointer_address p : address_ok p → pointer (le_num (le_split (address p))) = p.
Proof.
  intros Hp. rewrite le_num_split by (destruct p; simpl in *; unfold is_u32; lia).
  destruct p as [p|]; simpl in *; [|done]. unfold pointer. rewrite (proj2 (Z.eqb_neq p 0)) by lia. done.
Qed.

Section memory.
Context {A W : Type} `{HL : ArenaLaws A}.
Implicit Types (h : heap A) (b : pbuf) (a p q : Z) (E : Z → nat).

Lemma octets_at_length h a n : length (octets_at h a n) = n.
Proof. apply length_read_mem. Qed.

Lemma octets_ext h h' a n : (∀ x, a <= x < a + Z.of_nat n → mem h' x = mem h x) → octets_at h' a n = octets_at h a n.
Proof.
  intros Hm. unfold octets_at, read_mem. apply list_fmap_ext. intros i x Hx. apply lookup_seq in Hx as [-> Hi]. apply Hm. lia.
Qed.

Lemma octets_store_same h a l n : length l = n → octets_at (store h a l) a n = l.
Proof.
  intros Hl. apply list_eq. intros i. destruct (decide (i < n)%nat).
  - unfold octets_at. rewrite lookup_read_mem by done. unfold store, write_mem. simpl.
    rewrite decide_True by lia. replace (a + Z.of_nat i - a) with (Z.of_nat i) by lia. rewrite Nat2Z.id.
    destruct (lookup_lt_is_Some_2 l i) as [x Hx]; [lia|]. rewrite Hx. f_equal. by apply nth_lookup_Some.
  - rewrite !lookup_ge_None_2; [done|lia|rewrite octets_at_length; lia].
Qed.

Lemma store_out h a l x : x < a ∨ a + Z.of_nat (length l) <= x → mem (store h a l) x = mem h x.
Proof. intros Hx. unfold store, write_mem. simpl. rewrite decide_False by lia. done. Qed.

Lemma octets_store_other h a n (c : Z) l :
  a + Z.of_nat n <= c ∨ c + Z.of_nat (length l) <= a → octets_at (store h c l) a n = octets_at h a n.
Proof. intros Hd. apply octets_ext. intros x Hx. apply store_out. lia. Qed.

Lemma helper_ext h h' a : (∀ x, a <= x < a + 8 → mem h' x = mem h x) → helper_at h' a = helper_at h a.
Proof.
  intros Hm. unfold helper_at. rewrite (octets_ext h h' a 4), (octets_ext h h' (a + 4) 2), (octets_ext h h' (a + 6) 2); [done|..];
    intros x Hx; apply Hm; lia.
Qed.

Lemma helper_store_next h a n : address_ok n →
  helper_at (store h a (le_split (address n))) a = MkHelper n (start (helper_at h a)) (end_ (helper_at h a)).
Proof.
  intros Hn. unfold helper_at. rewrite octets_store_same, pointer_address by done.
  rewrite !octets_store_other by (simpl; lia). done.
Qed.

(** The helper written over a header. *)
Lemma helper_written h a lo hi : is_u16 lo → is_u16 hi →
  helper_at (store (store (store h a (le_split 0)) (a + 4) (le16_split lo)) (a + 6) (le16_split hi)) a = MkHelper None lo hi.
Proof.
  intros Hlo Hhi. unfold helper_at. rewrite (octets_store_same _ (a + 6)) by done.
  rewrite (octets_store_other _ (a + 4) 2 (a + 6)), (octets_store_same _ (a + 4)) by (done || (simpl; lia)).
  rewrite (octets_store_other _ a 4 (a + 6)), (octets_store_other _ a 4 (a + 4)), octets_store_same by (done || (simpl; lia)).
  rewrite !le_num_split16 by done. done.
Qed.

(** ** Fragments *)
Record frag := MkFrag { f_p : Z; f_rest : list Z; f_lo : Z; f_hi : Z; f_data : list Z }.
Definition f_pbufs (f : frag) : list Z := f_p f :: f_rest f.
Definition all_pbufs (fs : list frag) : list Z := mjoin (f_pbufs <$> fs).

(** The octets behind the IP header. *)
Definition body h p (l : list Z) : list Z := drop 20 (pbuf_data h p) ++ packet_data h l.

(** A packet that is the fragment [f], its header aside. *)
Record frag_body h (f : frag) : Prop := {
  fb_packet : packet h (Some (f_p f)) (f_pbufs f) (20 + (f_hi f - f_lo f)) 0;
  fb_header b : pbufs h !! f_p f = Some b → 20 <= len b;
  fb_data : f_data f = body h (f_p f) (f_rest f);
  fb_range : 0 <= f_lo f ∧ f_lo f <= f_hi f < 65516;
  fb_address : 0 < f_p f < 4294967296;
  fb_inside b : pbufs h !! f_p f = Some b → type b = PBUF_RAM ∨ type b = PBUF_POOL → f_p f + SIZEOF_STRUCT_PBUF <= payload b }.

Definition frag_at h (nx : option Z) (f : frag) : Prop :=
  frag_body h f ∧ helper_of h (f_p f) = Some (MkHelper nx (f_lo f) (f_hi f)).

(** The first of the fragments [fs], which are followed by [nx]. *)
Definition first_or (nx : option Z) (fs : list frag) : option Z := match fs with f :: _ => Some (f_p f) | [] => nx end.
Definition last_of (fs : list frag) : option Z := f_p <$> last fs.

Fixpoint queue h (nx : option Z) (fs : list frag) : Prop :=
  match fs with [] => True | f :: fs => frag_at h (first_or nx fs) f ∧ queue h nx fs end.

(** The pbufs of [L] are different, and so is their memory. *)
Definition separate h (L : list Z) : Prop :=
  NoDup L ∧ ∀ a c ba bb, a ∈ L → c ∈ L → a ≠ c → pbufs h !! a = Some ba → pbufs h !! c = Some bb →
    payload ba + len ba <= payload bb ∨ payload bb + len bb <= payload ba.

(** From [h] to [h'] only memory changed, in the headers of the packets [P]. *)
Definition headers_only (P : list Z) h h' : Prop :=
  (∃ m, h' = with_mem m h) ∧
  ∀ x, mem h' x ≠ mem h x → ∃ p b, p ∈ P ∧ pbufs h !! p = Some b ∧ payload b <= x < payload b + 20.

Lemma headers_only_refl P h : headers_only P h h.
Proof. split; [exists (mem h); by destruct h|]. done. Qed.

Lemma headers_only_pbufs P h h' : headers_only P h h' → pbufs h' = pbufs h.
Proof. by intros [[m ->] _]. Qed.

Lemma headers_only_arena P h h' : headers_only P h h' → arena h' = arena h.
Proof. by intros [[m ->] _]. Qed.

Lemma headers_only_trans P h1 h2 h3 : headers_only P h1 h2 → headers_only P h2 h3 → headers_only P h1 h3.
Proof.
  intros [[m1 ->] H1] [[m2 ->] H2]. split; [exists m2; by destruct h1|]. intros x Hx. simpl in *.
  destruct (decide (m1 x = mem h1 x)) as [E|E]; [|by apply H1]. apply H2. by rewrite E.
Qed.

Lemma headers_only_mono P P' h h' : P ⊆ P' → headers_only P h h' → headers_only P' h h'.
Proof. intros Hs [E T]. split; [done|]. intros x Hx. destruct (T x Hx) as (p & b & Hp & T'). exists p, b. auto. Qed.

Lemma store_headers P h p b a l : p ∈ P → pbufs h !! p = Some b → payload b <= a → a + Z.of_nat (length l) <= payload b + 20 →
  headers_only P h (store h a l).
Proof.
  intros Hp Hb H1 H2. split; [by eexists|]. intros x Hx. exists p, b. split; [done|]. split; [done|].
  destruct (decide (a <= x < a + Z.of_nat (length l))); [lia|]. destruct Hx. apply store_out. lia.
Qed.

Lemma headers_only_ok P h h' E : headers_only P h h' → heap_ok h E → heap_ok h' E.
Proof. intros [[m ->] _] [H1 H2 H3 H4 H5]. by constructor. Qed.

Lemma headers_only_separate P h h' L : headers_only P h h' → separate h L → separate h' L.
Proof. intros [[m ->] _] S. exact S. Qed.

Lemma packet_mem h m rem l (o : option Z) n : packet h o l n rem → packet (with_mem m h) o l n rem.
Proof. by apply packet_frame. Qed.

(** Memory that headers do not touch. *)
Lemma headers_only_other P h h' L a ba x :
  headers_only P h h' → separate h L → P ⊆ L → (∀ p b, p ∈ P → pbufs h !! p = Some b → 20 <= len b) →
  a ∈ L → pbufs h !! a = Some ba → payload ba <= x < payload ba + len ba → (a ∈ P → payload ba + 20 <= x) →
  mem h' x = mem h x.
Proof.
  intros [_ T] [_ S] HP HH Ha Hba Hx Hin. destruct (decide (mem h' x = mem h x)) as [|Hne]; [done|].
  destruct (T x Hne) as (p & b & Hp & Hb & Hr). pose proof (HH p b Hp Hb). destruct (decide (a = p)) as [->|Hap].
  - assert (b = ba) as -> by congruence. specialize (Hin Hp). lia.
  - destruct (S a p ba b Ha (HP _ Hp) Hap Hba Hb); lia.
Qed.

Lemma headers_only_body P h h' L f :
  headers_only P h h' → separate h L → P ⊆ L → (∀ p b, p ∈ P → pbufs h !! p = Some b → 20 <= len b) →
  f_pbufs f ⊆ L → (∀ a, a ∈ f_rest f → a ∉ P) → frag_body h f → frag_body h' f.
Proof.
  intros T S HP HH Hf Hr [F1 F2 F3 F4 F5 F6]. pose proof T as [[m Em] _].
  assert (Hd : body h' (f_p f) (f_rest f) = body h (f_p f) (f_rest f)).
  { unfold body. f_equal.
    - unfold pbuf_data. rewrite (headers_only_pbufs _ _ _ T). destruct (pbufs h !! f_p f) as [b|] eqn:Hb; [|done].
      pose proof (F2 b eq_refl). apply list_eq. intros i. rewrite !lookup_drop.
      destruct (decide (20 + i < Z.to_nat (len b))%nat).
      + rewrite !lookup_read_mem by done. f_equal. eapply headers_only_other; [done..|apply Hf; by left|done|lia|lia].
      + rewrite !lookup_ge_None_2 by (rewrite length_read_mem; lia). done.
    - rewrite Em. apply packet_data_mem. intros a b i Ha Hb Hi. replace m with (mem h') by (by rewrite Em).
      eapply headers_only_other; [done..|apply Hf; by right|done|lia|]. intros ?. by destruct (Hr a). }
  constructor; try done; [rewrite Em; by apply packet_mem|by rewrite (headers_only_pbufs _ _ _ T)|by rewrite Hd|by rewrite (headers_only_pbufs _ _ _ T)].
Qed.

Lemma headers_only_helper P h h' L p :
  headers_only P h h' → separate h L → P ⊆ L → (∀ p b, p ∈ P → pbufs h !! p = Some b → 20 <= len b) →
  p ∈ L → p ∉ P → (∀ b, pbufs h !! p = Some b → 20 <= len b) → helper_of h' p = helper_of h p.
Proof.
  intros T S HP HH Hp Hn Hl. unfold helper_of, payload_of. rewrite (headers_only_pbufs _ _ _ T).
  destruct (pbufs h !! p) as [b|] eqn:Hb; [|done]. pose proof (Hl b eq_refl). simpl. f_equal. apply helper_ext. intros x Hx.
  eapply headers_only_other; [done..|lia|done].
Qed.

(** ** Queues *)
Lemma all_pbufs_app fs1 fs2 : all_pbufs (fs1 ++ fs2) = all_pbufs fs1 ++ all_pbufs fs2.
Proof. unfold all_pbufs. by rewrite fmap_app, join_app. Qed.

Lemma all_pbufs_cons f fs : all_pbufs (f :: fs) = f_pbufs f ++ all_pbufs fs.
Proof. done. Qed.

Lemma queue_app h nx fs1 fs2 : queue h nx (fs1 ++ fs2) ↔ queue h (first_or nx fs2) fs1 ∧ queue h nx fs2.
Proof.
  induction fs1 as [|f fs1 IH]; simpl; [tauto|]. rewrite IH.
  replace (first_or nx (fs1 ++ fs2)) with (first_or (first_or nx fs2) fs1) by by destruct fs1. tauto.
Qed.

Lemma queue_body h nx fs f : queue h nx fs → f ∈ fs → frag_body h f.
Proof. induction fs as [|g fs IH]; simpl; [by intros _ ?%elem_of_nil|]. intros [[? _] ?] [->|?]%elem_of_cons; auto. Qed.

Lemma body_header h f b : frag_body h f → pbufs h !! f_p f = Some b → 20 <= len b.
Proof. intros B. apply (fb_header _ _ B). Qed.

Lemma separate_sub h L L' : separate h L → L' ⊆ L → NoDup L' → separate h L'.
Proof. intros [_ S] Hs ND. split; [done|]. intros a c ba bb Ha Hc. apply S; auto. Qed.

Lemma frag_frame P h h' L nx f :
  headers_only P h h' → separate h L → P ⊆ L → (∀ p b, p ∈ P → pbufs h !! p = Some b → 20 <= len b) →
  f_pbufs f ⊆ L → (∀ a, a ∈ f_pbufs f → a ∉ P) → frag_at h nx f → frag_at h' nx f.
Proof.
  intros T S HP HH Hf Hn [B Hh]. split.
  - eapply headers_only_body; [done..| |done]. intros a Ha. apply Hn. by right.
  - rewrite <- Hh. eapply headers_only_helper; [done..|apply Hf; by left|apply Hn; by left|]. intros b. by apply body_header.
Qed.

Lemma queue_frame P h h' L nx fs :
  headers_only P h h' → separate h L → P ⊆ L → (∀ p b, p ∈ P → pbufs h !! p = Some b → 20 <= len b) →
  all_pbufs fs ⊆ L → (∀ a, a ∈ all_pbufs fs → a ∉ P) → queue h nx fs → queue h' nx fs.
Proof.
  intros T S HP HH. induction fs as [|f fs IH]; [done|]. rewrite all_pbufs_cons. intros Hf Hn [F Q]. split.
  - eapply frag_frame; [done..| | |done]; set_solver.
  - apply IH; [set_solver|set_solver|done].
Qed.

(** Writing [next_pbuf]. *)
Lemma set_next_ok h L nx nx' f :
  frag_at h nx f → separate h L → f_pbufs f ⊆ L → NoDup (f_pbufs f) → address_ok nx' →
  ∃ h', set_next_pbuf (f_p f) nx' h = Some h' ∧ headers_only [f_p f] h h' ∧ frag_at h' nx' f.
Proof.
  intros [B Hh] S Hf ND Ha. pose proof (fb_packet _ _ B) as (_ & b & Hb & _). pose proof (body_header _ _ _ B Hb) as Hl.
  unfold set_next_pbuf, helper_of, payload_of in *. rewrite Hb in *. simpl in *. eexists. split; [done|].
  assert (T : headers_only [f_p f] h (store h (payload b) (le_split (address nx')))).
  { eapply store_headers; [by left|done|lia|simpl; lia]. }
  split; [done|]. split.
  - eapply headers_only_body; [exact T|exact S| | |done| |done].
    + intros x ->%list_elem_of_singleton. apply Hf. by left.
    + intros p b' ->%list_elem_of_singleton Hb'. by apply (body_header h f).
    + intros a Ha' ->%list_elem_of_singleton. apply NoDup_cons in ND as [Hn _]. done.
  - unfold helper_of, payload_of. simpl. rewrite Hb. simpl. rewrite helper_store_next by done. apply (inj Some) in Hh. by rewrite Hh.
Qed.

Lemma frag_lists h L fs f : separate h L → all_pbufs fs ⊆ L → NoDup (all_pbufs fs) → f ∈ fs → f_pbufs f ⊆ L ∧ NoDup (f_pbufs f).
Proof.
  intros S Hs ND (l1 & l2 & ->)%list_elem_of_split. rewrite all_pbufs_app, all_pbufs_cons in *.
  apply NoDup_app in ND as (_ & _ & [? _]%NoDup_app). split; [set_solver|done].
Qed.

(** The fragment [f] comes behind [pv]. *)
Lemma insert_after h pre pv f suf nxv :
  queue h nxv (pre ++ [pv]) → queue h None suf → frag_at h (first_or None suf) f → nxv = first_or None suf →
  separate h (all_pbufs (f :: pre ++ pv :: suf)) →
  ∃ h', set_next_pbuf (f_p pv) (Some (f_p f)) h = Some h' ∧ headers_only [f_p pv] h h' ∧ queue h' None (pre ++ pv :: f :: suf).
Proof.
  intros Qp Qs F -> S. pose proof S as [ND _]. rewrite all_pbufs_cons, all_pbufs_app, all_pbufs_cons in ND.
  apply NoDup_app in ND as (N1 & D1 & (N2 & D2 & (N3 & D3 & N4)%NoDup_app)%NoDup_app).
  apply queue_app in Qp as [Qp [Fv _]]. simpl in Qp, Fv.
  set (L := all_pbufs (f :: pre ++ pv :: suf)) in *.
  assert (HL' : L = f_pbufs f ++ all_pbufs pre ++ f_pbufs pv ++ all_pbufs suf).
  { unfold L. by rewrite all_pbufs_cons, all_pbufs_app, all_pbufs_cons. }
  destruct (set_next_ok h L (first_or None suf) (Some (f_p f)) pv Fv S ltac:(rewrite HL'; set_solver) N3) as (h' & E & T & F').
  { simpl. apply (fb_address _ _ (proj1 F)). }
  exists h'. split; [done|]. split; [done|].
  assert (HP : [f_p pv] ⊆ L) by (rewrite HL'; set_solver).
  assert (HH : ∀ p b, p ∈ [f_p pv] → pbufs h !! p = Some b → 20 <= len b).
  { intros p b ->%list_elem_of_singleton. apply body_header, Fv. }
  apply queue_app. simpl. split_and!; [|done| |].
  - eapply queue_frame; [done..|rewrite HL'; set_solver|set_solver|exact Qp].
  - eapply frag_frame; [done..|rewrite HL'; set_solver|set_solver|exact F].
  - eapply queue_frame; [done..|rewrite HL'; set_solver|set_solver|exact Qs].
Qed.

(** ** The place of a new fragment

    [pre] is the part of the queue that was passed, [suf] the rest; the
    result is the queue before and behind [f], and [valid]: no hole was seen on
    the way. *)
Definition no_hole (pre : list frag) (lo : Z) : bool :=
  match last pre with Some pv => f_hi pv =? lo | None => true end.

Fixpoint place (valid : bool) (pre suf : list frag) (f : frag) : option (list frag * list frag * bool) :=
  match suf with
  | [] => Some (pre, [], valid)
  | g :: suf' =>
      if f_lo f <? f_lo g then
        match last pre with
        | Some pv => if (f_lo f <? f_hi pv) || (f_lo g <? f_hi f) then None else Some (pre, suf, valid)
        | None => Some (pre, suf, valid)
        end
      else if f_lo f =? f_lo g then None
      else if f_lo f <? f_hi g then None
      else place (valid && no_hole pre (f_lo g)) (pre ++ [g]) suf' f
  end.

Lemma place_split f : ∀ suf valid pre pre' suf' v, place valid pre suf f = Some (pre', suf', v) → pre ++ suf = pre' ++ suf'.
Proof.
  induction suf as [|g suf IH]; intros valid pre pre' suf' v; simpl; [by intros [= -> <- _]|].
  destruct (f_lo f <? f_lo g).
  - destruct (last pre); [destruct (_ || _); [done|]|]; intros [= -> <- _]; done.
  - destruct (_ =? _); [done|]. destruct (_ <? _); [done|]. intros E%IH. rewrite <- E. by rewrite <- app_assoc.
Qed.

Lemma last_split (pre : list frag) pv : last pre = Some pv → ∃ pre0, pre = pre0 ++ [pv].
Proof. rewrite last_Some. done. Qed.

Lemma helper_frag h nx f : frag_at h nx f → helper_of h (f_p f) = Some (MkHelper nx (f_lo f) (f_hi f)).
Proof. by intros [_ ?]. Qed.

Lemma last_queue h nx pre pv : queue h nx pre → last pre = Some pv → helper_of h (f_p pv) = Some (MkHelper nx (f_lo pv) (f_hi pv)).
Proof. intros Q (pre0 & ->)%last_split. apply queue_app in Q as [_ [F _]]. by apply helper_frag. Qed.

(** The first write: the next pointer of the new fragment. *)
Lemma link_new h f pre suf nx :
  queue h None (pre ++ suf) → frag_at h None f → separate h (all_pbufs (f :: pre ++ suf)) → nx = first_or None suf →
  ∃ h', set_next_pbuf (f_p f) nx h = Some h' ∧ headers_only [f_p f] h h' ∧
    queue h' None (pre ++ suf) ∧ frag_at h' nx f ∧ separate h' (all_pbufs (f :: pre ++ suf)).
Proof.
  intros Q F S ->. pose proof S as [ND _]. rewrite all_pbufs_cons in ND. apply NoDup_app in ND as (N1 & D1 & _).
  destruct (set_next_ok h _ None (first_or None suf) f F S ltac:(rewrite all_pbufs_cons; set_solver) N1) as (h' & E & T & F').
  { destruct suf as [|g suf]; simpl; [done|]. apply queue_app in Q as [_ [G _]]. apply (fb_address _ _ (proj1 G)). }
  exists h'. split_and!; [done|done| |done|by eapply headers_only_separate].
  eapply queue_frame; [exact T|exact S| | | | |exact Q].
  - rewrite all_pbufs_cons. set_solver.
  - intros p b ->%list_elem_of_singleton. by apply body_header, F.
  - rewrite all_pbufs_cons. set_solver.
  - set_solver.
Qed.

Lemma first_or_cons nx f fs : first_or nx (f :: fs) = Some (f_p f).
Proof. done. Qed.

Lemma first_or_app nx f fs gs : first_or nx (fs ++ f :: gs) = first_or (Some (f_p f)) fs.
Proof. by destruct fs. Qed.

(** What the loop leaves, by what [place] says. *)
Definition placed ipr r f fs (s : reass A W) (p : option (list frag * list frag * bool)) (h' : heap A) (m : gmap Z ip_reassdata)
    (o : option (option Z * option Z * bool)) : Prop :=
  match p with
  | None => o = None ∧ m = rdata s ∧ queue h' None fs ∧ frag_body h' f
  | Some (pre', [], v) => o = Some (None, last_of pre', v) ∧ m = rdata s ∧ h' = rheap s
  | Some (pre', suf', v) => o = Some (first_or None suf', last_of pre', v) ∧
      m = <[ipr := set_rp (first_or None (pre' ++ f :: suf')) r]> (rdata s) ∧ queue h' None (pre' ++ f :: suf')
  end.

Lemma place_loop_ok ipr r f : ∀ suf fuel pre valid (s : reass A W),
  rdata s !! ipr = Some r → rp r = first_or None (pre ++ suf) →
  queue (rheap s) None (pre ++ suf) → frag_at (rheap s) None f →
  separate (rheap s) (all_pbufs (f :: pre ++ suf)) → (length suf ≤ fuel)%nat →
  ∃ h' m o, place_loop fuel ipr (f_p f) (first_or None suf) (last_of pre) valid s =
      Some (MkRS (reassdatagrams s) m (ip_reass_pbufcount s) h' (below s), o) ∧
    headers_only (f_p <$> f :: pre ++ suf) (rheap s) h' ∧ placed ipr r f (pre ++ suf) s (place valid pre suf f) h' m o.
Proof.
  induction suf as [|g suf IH]; intros fuel pre valid s Hr Hp Q F S Hf.
  { exists (rheap s), (rdata s). eexists. split; [by destruct fuel, s|]. split; [apply headers_only_refl|done]. }
  destruct fuel as [|fuel]; [simpl in Hf; lia|]. cbn [place_loop first_or place].
  pose proof Q as Q0. apply queue_app in Q0 as [Qp Qs]. pose proof Qs as [G Qs']. simpl in Qp.
  rewrite (helper_frag _ _ _ F), (helper_frag _ _ _ G). cbn [mbind option_bind start end_ next_pbuf].
  destruct (f_lo f <? f_lo g).
  - destruct (link_new (rheap s) f pre (g :: suf) (Some (f_p g)) Q F S eq_refl) as (h1 & -> & T1 & Q1 & F1 & S1). cbn [mbind option_bind].
    assert (T1' : headers_only (f_p <$> f :: pre ++ g :: suf) (rheap s) h1) by (eapply headers_only_mono; [|exact T1]; set_solver).
    unfold last_of. destruct (last pre) as [pv|] eqn:El; simpl.
    + apply queue_app in Q1 as [Qp1 Qs1]. rewrite (last_queue _ _ _ _ Qp1 El). cbn [mbind option_bind end_].
      destruct ((f_lo f <? f_hi pv) || (f_lo g <? f_hi f)).
      * exists h1, (rdata s). eexists. split; [done|]. split; [done|]. split_and!; [done|done| |apply F1].
        apply queue_app. by split.
      * apply last_split in El as (pre0 & ->). rewrite <- app_assoc in S1. simpl in S1.
        destruct (insert_after h1 pre0 pv f (g :: suf) _ Qp1 Qs1 F1 eq_refl S1) as (h2 & -> & T2 & Q2). cbn [mbind option_bind].
        exists h2, (rdata s). eexists. split; [done|]. split.
        { eapply headers_only_trans; [exact T1'|]. eapply headers_only_mono; [|exact T2]. set_solver. }
        simpl. split; [unfold last_of; by rewrite last_snoc|]. rewrite <- app_assoc. split; [|done]. symmetry. apply insert_id. rewrite Hr. f_equal.
        replace (first_or None (pre0 ++ [pv] ++ f :: g :: suf)) with (rp r) by (rewrite Hp; by destruct pre0). by destruct r.
    + apply last_None in El as ->. unfold upd_ipr. simpl. rewrite Hr. simpl. eexists h1, _, _. split; [done|]. split; [done|].
      simpl. done.
  - destruct (f_lo f =? f_lo g); [|destruct (f_lo f <? f_hi g)].
    1,2: exists (rheap s), (rdata s), None; split; [by destruct s|]; split; [apply headers_only_refl|]; split_and!; [done..|apply F].
    destruct (IH fuel (pre ++ [g]) (valid && no_hole pre (f_lo g)) s) as (h' & m & o & E & T & P);
      rewrite <- ?app_assoc; try done; [simpl in Hf; lia|].
    rewrite <- app_assoc in T, P. exists h', m, o. split; [|done]. rewrite <- E. unfold last_of. rewrite last_snoc. simpl.
    unfold no_hole. destruct (last pre) as [pv|] eqn:El; simpl; [|by rewrite andb_true_r].
    rewrite (last_queue _ _ _ _ Qp El). done.
Qed.

(** ** Queueing a fragment and looking for holes *)
Definition inserted (fs : list frag) (f : frag) : option (list frag * list frag * bool) :=
  match place true [] fs f with
  | Some (pre, [], v) => Some (pre, [], v && no_hole pre (f_lo f))
  | r => r
  end.

Fixpoint contiguous (f : frag) (suf : list frag) : bool :=
  match suf with [] => true | g :: suf => (f_hi f =? f_lo g) && contiguous g suf end.

(** What [validate_datagram] decides. *)
Definition complete (r : ip_reassdata) (pre : list frag) (f : frag) (suf : list frag) (v : bool) : bool :=
  negb (Z.land (rflags r) IP_REASS_FLAG_LASTFRAG =? 0) && v &&
  (match pre with g :: _ => f_lo g =? 0 | [] => f_lo f =? 0 end) && contiguous f suf.

Lemma place_end f : ∀ suf valid pre pre' v, place valid pre suf f = Some (pre', [], v) →
  (∀ pv, last pre = Some pv → f_hi pv <= f_lo f) → ∀ pv, last pre' = Some pv → f_hi pv <= f_lo f.
Proof.
  induction suf as [|g suf IH]; intros valid pre pre' v; simpl; [by intros [= -> _]|].
  destruct (f_lo f <? f_lo g).
  - destruct (last pre); [destruct (_ || _); [done|]|]; intros [=].
  - destruct (_ =? _); [done|]. destruct (Z.ltb_spec (f_lo f) (f_hi g)); [done|]. intros E _. eapply IH; [exact E|].
    intros pv. rewrite last_snoc. by intros [= <-].
Qed.

Lemma append_frag_ok ipr r f pre valid (s : reass A W) :
  rdata s !! ipr = Some r → rp r = first_or None pre → queue (rheap s) None pre → frag_at (rheap s) None f →
  separate (rheap s) (all_pbufs (f :: pre)) → (∀ pv, last pre = Some pv → f_hi pv <= f_lo f) →
  ∃ h', append_frag ipr (f_p f) (last_of pre) valid s =
      Some (MkRS (reassdatagrams s) (<[ipr := set_rp (first_or None (pre ++ [f])) r]> (rdata s)) (ip_reass_pbufcount s) h' (below s),
        valid && no_hole pre (f_lo f)) ∧
    headers_only (f_p <$> f :: pre) (rheap s) h' ∧ queue h' None (pre ++ [f]).
Proof.
  intros Hr Hp Q F S Hl. unfold append_frag, last_of, no_hole. destruct (last pre) as [pv|] eqn:El; simpl.
  - rewrite (helper_frag _ _ _ F), (last_queue _ _ _ _ Q El). cbn [mbind option_bind start end_]. unfold lwip_assert.
    rewrite (proj2 (Z.leb_le _ _) (Hl pv eq_refl)). cbn [mbind option_bind]. apply last_split in El as (pre0 & ->).
    destruct (insert_after (rheap s) pre0 pv f [] _ Q I F eq_refl S) as (h' & -> & T & Q'). cbn [mbind option_bind].
    exists h'. split.
    + rewrite insert_id; [done|]. rewrite Hr. f_equal. replace (first_or None ((pre0 ++ [pv]) ++ [f])) with (rp r) by (rewrite Hp; by destruct pre0). by destruct r.
    + split; [eapply headers_only_mono; [|exact T]; set_solver|]. by rewrite <- app_assoc.
  - apply last_None in El as ->. rewrite Hr. simpl in Hp. cbn [mbind option_bind]. unfold lwip_assert. rewrite bool_decide_eq_true_2 by done.
    cbn [mbind option_bind]. unfold upd_ipr. rewrite Hr. cbn [mbind option_bind]. exists (rheap s). rewrite andb_true_r.
    split; [done|]. split; [apply headers_only_refl|done].
Qed.

Lemma holes_loop_ok h : ∀ suf fuel f, queue h None (f :: suf) → (length suf ≤ fuel)%nat →
  ∃ z, holes_loop fuel (f_p f) (first_or None suf) h = Some (contiguous f suf, z) ∧
    (contiguous f suf = true → ∃ g, last (f :: suf) = Some g ∧ z = f_p g).
Proof.
  induction suf as [|g suf IH]; intros fuel f Q Hf; [exists (f_p f); destruct fuel; simpl; (split; [done|]); by exists f|].
  destruct fuel as [|fuel]; [simpl in Hf; lia|]. cbn [holes_loop first_or contiguous]. destruct Q as [F Q]. pose proof Q as [G _].
  rewrite (helper_frag _ _ _ F), (helper_frag _ _ _ G). cbn [mbind option_bind start end_ next_pbuf].
  destruct (f_hi f =? f_lo g); simpl; [|by exists (f_p g)].
  destruct (IH fuel g Q ltac:(simpl in Hf; lia)) as (z & -> & Hz). exists z. split; [done|]. intros Hc. by apply Hz.
Qed.

Lemma queue_size h nx fs : queue h nx fs → NoDup (all_pbufs fs) → (length fs ≤ size (pbufs h))%nat.
Proof.
  intros Q ND. assert (NH : NoDup (f_p <$> fs)).
  { clear Q. induction fs as [|f fs IH]; [constructor|]. rewrite all_pbufs_cons in ND. apply NoDup_app in ND as (_ & D & ND).
    constructor; [|auto]. intros (g & E & Hg)%list_elem_of_fmap. destruct (D (f_p f)); [by left|]. rewrite E.
    apply list_elem_of_split in Hg as (l1 & l2 & ->). rewrite all_pbufs_app, all_pbufs_cons. set_solver. }
  rewrite <- (length_fmap f_p), <- (size_list_to_set (C := gset Z)) by done. rewrite <- size_dom. apply subseteq_size.
  intros a Ha. apply elem_of_list_to_set, list_elem_of_fmap in Ha as (f & -> & Hf).
  destruct (fb_packet _ _ (queue_body _ _ _ _ Q Hf)) as (_ & b & Hb & _). apply elem_of_dom. by exists b.
Qed.

Lemma in_all_pbufs fs g : g ∈ fs → f_p g ∈ all_pbufs fs.
Proof. intros (l1 & l2 & ->)%list_elem_of_split. rewrite all_pbufs_app, all_pbufs_cons. unfold f_pbufs. set_solver. Qed.

Lemma last_in (fs : list frag) g : last fs = Some g → g ∈ fs.
Proof. intros (l & ->)%last_Some. set_solver. Qed.

Lemma ends_differ fs g0 g : NoDup (all_pbufs fs) → head fs = Some g0 → last fs = Some g → (2 ≤ length fs)%nat → f_p g0 ≠ f_p g.
Proof.
  destruct fs as [|h0 [|h1 tl]]; simpl length; [lia|lia|]. intros ND [= ->] El _ E.
  rewrite all_pbufs_cons in ND. apply NoDup_app in ND as (_ & D & _). destruct (D (f_p g0)); [by left|].
  rewrite E. apply in_all_pbufs, last_in. exact El.
Qed.

(** The payloads of two fragments differ. *)
Lemma payload_ne h L f g bf bg : frag_body h f → frag_body h g → separate h L → f_p f ∈ L → f_p g ∈ L → f_p f ≠ f_p g →
  pbufs h !! f_p f = Some bf → pbufs h !! f_p g = Some bg → payload bf ≠ payload bg.
Proof.
  intros Bf Bg [_ S] Hf Hg Hne Ef Eg. pose proof (body_header _ _ _ Bf Ef). pose proof (body_header _ _ _ Bg Eg).
  destruct (S _ _ _ _ Hf Hg Hne Ef Eg); lia.
Qed.

Lemma queue_head h fs g : queue h None fs → head fs = Some g → ∃ nx, frag_at h nx g.
Proof. destruct fs as [|f fs]; simpl; [done|]. intros [F _] [= <-]. by eexists. Qed.

Lemma queue_last h fs g : queue h None fs → last fs = Some g → frag_at h None g.
Proof. intros Q (l & ->)%last_Some. by apply queue_app in Q as [_ [F _]]. Qed.

(** The assertions at the end of [validate_datagram]. *)
Definition well_ended (fs : list frag) (r : ip_reassdata) : Prop :=
  (2 ≤ length fs)%nat ∧ ∃ g, last fs = Some g ∧ f_hi g = datagram_len r.

Lemma validate_ok ipr r f pre suf v (s : reass A W) :
  rdata s !! ipr = Some r → rp r = first_or None (pre ++ f :: suf) → queue (rheap s) None (pre ++ f :: suf) →
  separate (rheap s) (all_pbufs (pre ++ f :: suf)) →
  (complete r pre f suf v = true → well_ended (pre ++ f :: suf) r) →
  validate_datagram ipr (f_p f) v s = Some (complete r pre f suf v).
Proof.
  intros Hr Hp Q S Hc. pose proof S as [ND _]. unfold validate_datagram, complete in *. rewrite Hr. cbn [mbind option_bind].
  destruct (Z.land (rflags r) IP_REASS_FLAG_LASTFRAG =? 0); simpl in *; [done|]. destruct v; simpl in *; [|done].
  destruct (head (pre ++ f :: suf)) as [g0|] eqn:Eh; [|by destruct pre].
  assert (Ep : rp r = Some (f_p g0)) by (rewrite Hp; destruct pre; simpl in *; congruence). rewrite Ep. cbn [mbind option_bind].
  destruct (queue_head _ _ _ Q Eh) as [nx F0]. rewrite (helper_frag _ _ _ F0). cbn [mbind option_bind start].
  assert (E0 : (match pre with g :: _ => f_lo g =? 0 | [] => f_lo f =? 0 end) = (f_lo g0 =? 0)).
  { destruct pre; simpl in Eh; congruence. }
  rewrite E0 in *. destruct (f_lo g0 =? 0); simpl in *; [|done].
  pose proof Q as Qf. apply queue_app in Qf as [_ Qf]. pose proof Qf as [F _].
  rewrite (helper_frag _ _ _ F). cbn [mbind option_bind next_pbuf].
  pose proof (queue_size _ _ _ Q ND) as Hsz. rewrite length_app in Hsz. simpl in Hsz.
  destruct (holes_loop_ok (rheap s) suf (size (pbufs (rheap s))) f Qf ltac:(lia)) as (z & -> & Hz). cbn [mbind option_bind].
  destruct (contiguous f suf); [|done]. destruct (Hz eq_refl) as (g & Eg & ->). destruct (Hc eq_refl) as (Hl & g' & El & Ehi).
  assert (g' = g) as -> by (rewrite last_app, Eg in El; congruence). pose proof (queue_last _ _ _ Q El) as Fg.
  pose proof (fb_packet _ _ (proj1 F0)) as (_ & b0 & Hb0 & _). pose proof (fb_packet _ _ (proj1 Fg)) as (_ & bg & Hbg & _).
  assert (Hne : payload b0 ≠ payload bg).
  { eapply payload_ne; [apply F0|apply Fg|exact S| | |by eapply ends_differ|done|done]; apply in_all_pbufs; [|by apply last_in].
    destruct (pre ++ f :: suf); simpl in Eh; [done|]. injection Eh as ->. by left. }
  unfold payload_of. rewrite Hb0, Hbg. cbn [mbind option_bind]. rewrite (helper_frag _ _ _ Fg).
  unfold lwip_assert. rewrite (proj2 (Z.eqb_neq _ _) Hne). cbn [mbind option_bind negb start next_pbuf end_].
  rewrite bool_decide_eq_true_2 by done. cbn [mbind option_bind]. by rewrite (proj2 (Z.eqb_eq _ _) Ehi).
Qed.

(** A packet that has just arrived, with its header. *)
Record incoming h (f : frag) (hdr : list Z) : Prop := {
  in_body : frag_body h f;
  in_hdr : iphdr_of h (f_p f) = Some hdr;
  in_lo : f_lo f = frag_offset hdr;
  in_hi : f_hi f = f_lo f + frag_len hdr }.

Lemma write_helper_ok h L f b :
  frag_body h f → separate h L → f_pbufs f ⊆ L → NoDup (f_pbufs f) → pbufs h !! f_p f = Some b →
  let h' := store (store (store h (payload b) (le_split 0)) (payload b + 4) (le16_split (f_lo f))) (payload b + 6) (le16_split (f_hi f)) in
  headers_only [f_p f] h h' ∧ frag_at h' None f.
Proof.
  intros B S Hf ND Hb h'. pose proof (fb_range _ _ B) as [R1 R2]. pose proof (body_header _ _ _ B Hb).
  assert (T : headers_only [f_p f] h h').
  { eapply headers_only_trans; [|eapply store_headers; [by left|exact Hb|lia|simpl; lia]].
    eapply headers_only_trans; [|eapply store_headers; [by left|exact Hb|lia|simpl; lia]].
    eapply store_headers; [by left|exact Hb|lia|simpl; lia]. }
  split; [done|]. split.
  - eapply headers_only_body; [exact T|exact S| | |done| |done].
    + intros x ->%list_elem_of_singleton. apply Hf. by left.
    + intros p c ->%list_elem_of_singleton. by apply body_header.
    + intros a Ha ->%list_elem_of_singleton. apply NoDup_cons in ND as [Hn _]. done.
  - unfold helper_of, payload_of. rewrite (headers_only_pbufs _ _ _ T), Hb. cbn [mbind option_bind]. f_equal.
    apply helper_written; unfold is_u16; lia.
Qed.

(** The state after queueing. *)
Definition queued ipr r fs (s : reass A W) h' : reass A W :=
  MkRS (reassdatagrams s) (<[ipr := set_rp (first_or None fs) r]> (rdata s)) (ip_reass_pbufcount s) h' (below s).

Lemma separate_perm h L L' : L ≡ₚ L' → separate h L → separate h L'.
Proof. intros P [ND S]. split; [by rewrite <- P|]. intros a c ba bb Ha Hc. rewrite <- P in Ha, Hc. by apply S. Qed.

Lemma separate_insert h f pre suf : separate h (all_pbufs (f :: pre ++ suf)) → separate h (all_pbufs (pre ++ f :: suf)).
Proof.
  apply separate_perm. rewrite all_pbufs_cons, !all_pbufs_app, all_pbufs_cons. apply Permutation_app_swap_app.
Qed.

(** The function behind the helper. *)
Lemma chain_frag_unfold ipr r f hdr (s : reass A W) b :
  rdata s !! ipr = Some r → incoming (rheap s) f hdr → pbufs (rheap s) !! f_p f = Some b →
  ip_reass_chain_frag_into_datagram_and_validate ipr (f_p f) s =
    (let h1 := store (store (store (rheap s) (payload b) (le_split 0)) (payload b + 4) (le16_split (f_lo f))) (payload b + 6)
       (le16_split (f_hi f)) in
     '(s, place) ← place_loop (size (pbufs h1)) ipr (f_p f) (rp r) None true (set_rheap h1 s);
     match place with
     | None => clen ← pbuf_clen (Some (f_p f)) (rheap s); '(h, _) ← pbuf_free (Some (f_p f)) (rheap s);
         Some (set_rheap h (set_count (u16 (ip_reass_pbufcount s - clen)) s), false)
     | Some (q, prev, valid) =>
       '(s, valid) ← match q with None => append_frag ipr (f_p f) prev valid s | Some _ => Some (s, valid) end;
       valid ← validate_datagram ipr (f_p f) valid s; Some (s, valid)
     end).
Proof.
  intros Hr [B Hh Elo Ehi] Hb. pose proof (fb_range _ _ B) as [R1 R2].
  unfold ip_reass_chain_frag_into_datagram_and_validate. rewrite Hh. unfold payload_of. rewrite Hb.
  cbn [mbind option_bind]. rewrite <- Elo. rewrite (u16_id (f_lo f + frag_len hdr)), <- Ehi by (unfold is_u16; lia).
  cbn [rdata set_rheap]. by rewrite Hr.
Qed.

Lemma chain_frag_ok ipr r f hdr fs (s : reass A W) :
  rdata s !! ipr = Some r → rp r = first_or None fs → queue (rheap s) None fs → incoming (rheap s) f hdr →
  separate (rheap s) (all_pbufs (f :: fs)) →
  match inserted fs f with
  | None => ∃ h1, headers_only (f_p <$> f :: fs) (rheap s) h1 ∧ queue h1 None fs ∧ frag_body h1 f ∧
      ip_reass_chain_frag_into_datagram_and_validate ipr (f_p f) s =
        (clen ← pbuf_clen (Some (f_p f)) h1; '(h2, _) ← pbuf_free (Some (f_p f)) h1;
         Some (MkRS (reassdatagrams s) (rdata s) (u16 (ip_reass_pbufcount s - clen)) h2 (below s), false))
  | Some (pre, suf, v) => (complete r pre f suf v = true → well_ended (pre ++ f :: suf) r) →
      ∃ h', headers_only (f_p <$> f :: fs) (rheap s) h' ∧ queue h' None (pre ++ f :: suf) ∧
        ip_reass_chain_frag_into_datagram_and_validate ipr (f_p f) s =
          Some (queued ipr r (pre ++ f :: suf) s h', complete r pre f suf v)
  end.
Proof.
  intros Hr Hp Q In S. pose proof (in_body _ _ _ In) as B. pose proof S as [ND _]. rewrite all_pbufs_cons in ND.
  apply NoDup_app in ND as (N1 & D1 & N2). pose proof (fb_packet _ _ B) as (_ & b & Hb & _).
  rewrite (chain_frag_unfold ipr r f hdr s b Hr In Hb), Hp. cbv zeta.
  destruct (write_helper_ok (rheap s) _ f b B S ltac:(rewrite all_pbufs_cons; set_solver) N1 Hb) as [T1 F1].
  set (h1 := store _ _ _) in *.
  assert (Q1 : queue h1 None fs).
  { eapply queue_frame; [exact T1|exact S| | | |intros a Ha ->%list_elem_of_singleton; apply (D1 (f_p f)); [by left|done]|exact Q].
    - rewrite all_pbufs_cons. intros x ->%list_elem_of_singleton. by left.
    - intros p c ->%list_elem_of_singleton. by apply body_header.
    - rewrite all_pbufs_cons. set_solver. }
  pose proof (headers_only_separate _ _ _ _ T1 S) as S1.
  assert (T1' : headers_only (f_p <$> f :: fs) (rheap s) h1) by (eapply headers_only_mono; [|exact T1]; set_solver).
  destruct (place_loop_ok ipr r f fs (size (pbufs h1)) [] true (set_rheap h1 s) Hr Hp Q1 F1 S1 (queue_size _ _ _ Q1 N2))
    as (h2 & m & o & E2 & T2 & P).
  change (last_of []) with (@None Z) in E2. rewrite E2. cbn [mbind option_bind].
  pose proof (headers_only_trans _ _ _ _ T1' T2) as T12. unfold inserted.
  destruct (place true [] fs f) as [[[pre suf] v]|] eqn:Ep; cycle 1.
  { destruct P as (-> & -> & Q2 & B2). exists h2. done. }
  pose proof (place_split _ _ _ _ _ _ _ Ep) as Efs. simpl in Efs. destruct suf as [|g suf].
  - destruct P as (-> & -> & ->). rewrite app_nil_r in Efs. subst pre. intros Hc.
    destruct (append_frag_ok ipr r f fs v (set_rheap h1 s) Hr Hp Q1 F1 S1) as (h3 & E3 & T3 & Q3); [by eapply place_end|].
    exists h3. split; [by eapply headers_only_trans|]. split; [done|]. cbn [mbind option_bind].
    change (append_frag _ _ _ _ _) with (append_frag ipr (f_p f) (last_of fs) v (set_rheap h1 s)). rewrite E3. cbn [mbind option_bind].
    rewrite (validate_ok ipr (set_rp (first_or None (fs ++ [f])) r) f fs [] (v && no_hole fs (f_lo f))); try done.
    + simpl. by rewrite lookup_insert_eq.
    + apply (headers_only_separate _ _ _ _ T3), separate_insert. by rewrite app_nil_r.
  - destruct P as (-> & -> & Q2). intros Hc. exists h2. split; [done|]. split; [done|]. cbn [mbind option_bind first_or].
    rewrite (validate_ok ipr (set_rp (first_or None (pre ++ f :: g :: suf)) r) f pre (g :: suf) v); try done.
    + simpl. by rewrite lookup_insert_eq.
    + apply (headers_only_separate _ _ _ _ T2), separate_insert. by rewrite <- Efs.
Qed.
End memory.
