(* ===== verification/IpReassJoin.v ===== *)
(** * Reassembly: joining the fragments of a complete datagram

    [concat_loop] cuts the headers off and chains the packets: the result is
    one packet whose octets are those of the fragments in their order. *)
From S2P Require Import Prelude LwipDef Chksum Memp Pbuf PbufRef PbufOwn PbufData IpReass IpReassOk.
Local Open Scope Z_scope.

(** What the state of other modules owns: how often it refers to a pbuf. *)
Class Owns (W : Type) := owns : W → Z → nat.

Section join.
Context {A : Type} `{HL : ArenaLaws A}.
Implicit Types (h : heap A) (b : pbuf) (a p q : Z) (E : Z → nat) (fs : list frag).

(** ** The number of pbufs *)
Lemma clen_loop_ok h rem : ∀ l fuel (o : option Z) n c, packet h o l n rem → (length l ≤ fuel)%nat →
  clen_loop fuel o c h = Some (if decide (l = []) then c else u8 (c + Z.of_nat (length l))).
Proof.
  induction l as [|a l IH]; intros fuel o n c P Hf; [destruct P as [-> _]; by destruct fuel|].
  destruct P as (-> & b & Hb & _ & _ & P). destruct fuel as [|fuel]; [simpl in Hf; lia|]. cbn [clen_loop]. rewrite Hb.
  cbn [mbind option_bind]. rewrite (IH _ _ _ _ P) by (simpl in Hf; lia). rewrite (decide_False (P := a :: l = [])) by done. f_equal.
  case_decide as D; [by subst|]. unfold u8. rewrite Zplus_mod_idemp_l. f_equal. simpl length. lia.
Qed.

Lemma pbuf_clen_ok h p l n : packet h (Some p) l n 0 → pbuf_clen (Some p) h = Some (u8 (Z.of_nat (length l))).
Proof.
  intros P. unfold pbuf_clen. rewrite (clen_loop_ok h 0 l _ _ _ _ P).
  - rewrite decide_False; [done|]. intros ->. by destruct P.
  - apply (chain_of_size h l (Some p)). by eapply packet_chain.
Qed.

(** ** Cutting a header off *)
Definition without_header (b : pbuf) : pbuf :=
  MkPbuf (next b) (payload b + 20) (tot_len b - 20) (len b - 20) (type b) (flags b) (ref b).

Lemma pbuf_header_cut h f b E :
  heap_ok h E → frag_body h f → pbufs h !! f_p f = Some b → tot_len b < 65536 →
  let h' := with_pbufs (<[f_p f := without_header b]> (pbufs h)) h in
  pbuf_header (f_p f) (- IP_HLEN) h = Some (h', 0) ∧ heap_ok h' E ∧
  packet h' (Some (f_p f)) (f_pbufs f) (f_hi f - f_lo f) 0 ∧ packet_data h' (f_pbufs f) = f_data f.
Proof.
  intros K B Hb Ht h'. pose proof (fb_header _ _ B b Hb) as Hl. pose proof (fb_packet _ _ B) as Pk. pose proof Pk as Pk0.
  destruct Pk as (_ & b0 & Hb0 & Htl & _ & Pk). assert (b0 = b) as -> by congruence. pose proof (packet_le _ _ _ _ _ Pk) as Hle.
  pose proof (chain_of_nodup _ _ _ (packet_chain _ _ _ _ _ Pk0)) as [Hn _]%NoDup_cons.
  split_and!.
  - unfold pbuf_header. rewrite Hb. change (- IP_HLEN) with (-20). cbn [mbind option_bind Z.eqb Z.ltb Z.compare andb].
    change (u16 (- (-20))) with 20. rewrite (proj2 (Z.leb_le 20 (len b))) by lia. cbn [negb].
    assert (Ew : set_tot_len (u16 (tot_len b + -20)) (set_len (u16 (len b + -20)) (set_payload (payload b - -20) b)) = without_header b).
    { unfold set_tot_len, set_len, set_payload, without_header. simpl. rewrite !u16_id by (unfold is_u16; lia). f_equal; lia. }
    assert (EE : Some (with_pbufs (<[f_p f := set_tot_len (u16 (tot_len b + -20)) (set_len (u16 (len b + -20)) (set_payload (payload b - -20) b))]> (pbufs h)) h, 0)
      = Some (h', 0)) by (by rewrite Ew).
    destruct (type b) eqn:Ety; try exact EE; (rewrite (proj2 (Z.ltb_ge _ _)); [exact EE|]).
    + pose proof (fb_inside _ _ B b Hb ltac:(auto)). lia.
    + pose proof (fb_inside _ _ B b Hb ltac:(auto)). lia.
  - by apply (upd_ok _ _ b).
  - simpl. split; [done|]. exists (without_header b). rewrite lookup_insert_eq. simpl. split_and!; [done|lia|lia|].
    replace (f_hi f - f_lo f - (len b - 20)) with (20 + (f_hi f - f_lo f) - len b) by lia.
    eapply packet_frame; [|exact Pk]. intros x Hx. simpl. rewrite lookup_insert_ne; [done|]. by intros <-.
  - rewrite (fb_data _ _ B). unfold f_pbufs, body. change (packet_data h' (f_p f :: f_rest f)) with (pbuf_data h' (f_p f) ++ packet_data h' (f_rest f)).
    f_equal.
    + unfold pbuf_data. simpl. rewrite lookup_insert_eq, Hb. simpl. apply list_eq. intros i. rewrite lookup_drop.
      destruct (decide (i < Z.to_nat (len b - 20))%nat).
      * rewrite !lookup_read_mem by lia. do 2 f_equal. lia.
      * rewrite !lookup_ge_None_2 by (rewrite length_read_mem; lia). done.
    + unfold packet_data. f_equal. apply list_fmap_ext. intros i x Hx%list_elem_of_lookup_2. unfold pbuf_data. simpl.
      rewrite lookup_insert_ne; [done|]. by intros <-.
Qed.

(** ** The loop *)

(** The same pbufs, with the same octets. *)
Definition agree (L : list Z) h h' : Prop := ∀ p, p ∈ L → pbufs h' !! p = pbufs h !! p ∧
  ∀ b x, pbufs h !! p = Some b → payload b <= x < payload b + len b → mem h' x = mem h x.

Lemma agree_sub L L' h h' : agree L h h' → L' ⊆ L → agree L' h h'.
Proof. intros Ag Hs p Hp. by apply Ag, Hs. Qed.

Lemma agree_trans L h1 h2 h3 : agree L h1 h2 → agree L h2 h3 → agree L h1 h3.
Proof.
  intros A1 A2 p Hp. destruct (A1 p Hp) as [E1 M1]. destruct (A2 p Hp) as [E2 M2]. split; [congruence|].
  intros b x Hb Hx. rewrite (M2 b) by congruence. by apply (M1 b).
Qed.

Lemma agree_pbuf_data L h h' p : agree L h h' → p ∈ L → pbuf_data h' p = pbuf_data h p.
Proof.
  intros Ag Hp. unfold pbuf_data. destruct (Ag p Hp) as [-> M]. destruct (pbufs h !! p) as [b|] eqn:Hb; [|done].
  unfold read_mem. apply list_fmap_ext. intros i x Hx. apply lookup_seq in Hx as [-> Hi]. apply (M b); [done|lia].
Qed.

Lemma agree_data L h h' l : agree L h h' → l ⊆ L → packet_data h' l = packet_data h l.
Proof.
  intros Ag Hl. unfold packet_data. f_equal. apply list_fmap_ext. intros i x Hx%list_elem_of_lookup_2.
  apply (agree_pbuf_data L); auto.
Qed.

Lemma agree_body L h h' f : agree L h h' → f_pbufs f ⊆ L → frag_body h f → frag_body h' f.
Proof.
  intros Ag Hf [F1 F2 F3 F4 F5 F6]. assert (Hp : f_p f ∈ L) by (apply Hf; by left). destruct (Ag _ Hp) as [Ep _].
  constructor; try done; rewrite ?Ep by done; try done.
  - eapply packet_frame; [|exact F1]. intros x Hx. by apply Ag, Hf.
  - rewrite F3. unfold body. f_equal; [f_equal; symmetry; by eapply agree_pbuf_data|].
    symmetry. eapply agree_data; [done|]. intros x Hx. apply Hf. by right.
Qed.

Lemma agree_helper L h h' p b : agree L h h' → p ∈ L → pbufs h !! p = Some b → 20 <= len b → helper_of h' p = helper_of h p.
Proof.
  intros Ag Hp Hb Hl. destruct (Ag p Hp) as [Ep M]. unfold helper_of, payload_of. rewrite Ep, Hb. simpl. f_equal.
  apply helper_ext. intros x Hx. apply (M b); [done|lia].
Qed.

Lemma agree_queue L h h' nx fs : agree L h h' → all_pbufs fs ⊆ L → queue h nx fs → queue h' nx fs.
Proof.
  intros Ag. induction fs as [|f fs IH]; [done|]. rewrite all_pbufs_cons. intros Hs [[B Hh] Q].
  assert (f_p f ∈ L) by (apply Hs; set_solver). split; [|apply IH; [set_solver|done]]. split; [eapply agree_body; [done| |done]; set_solver|].
  rewrite <- Hh. destruct (fb_packet _ _ B) as (_ & b & Hb & _). eapply agree_helper; [done..|]. by apply (fb_header _ _ B).
Qed.

Definition total (fs : list frag) : Z := foldr (λ f n, f_hi f - f_lo f + n) 0 fs.
Definition all_data (fs : list frag) : list Z := mjoin (f_data <$> fs).

Lemma disown_other p E x : x ≠ p → disown p E x = E x.
Proof. intros Hx. unfold disown. by rewrite decide_False. Qed.

(** Owners [E] besides the owners [X]. *)
Definition also (X E : Z → nat) : Z → nat := λ p, (E p + X p)%nat.

Lemma also_disown X E p : E p ≠ 0%nat → ∀ x, also X (disown p E) x = disown p (also X E) x.
Proof. intros He x. unfold also, disown. case_decide; [subst; lia|done]. Qed.

Lemma also_owned X E p : E p ≠ 0%nat → also X E p ≠ 0%nat.
Proof. unfold also. lia. Qed.

Lemma disown_also_ok h p X E : heap_ok h (also X E) → E p ≠ 0%nat → heap_ok h (inc p (also X (disown p E))).
Proof.
  intros K He. eapply heap_ok_ext; [|apply (disown_ok h p _ K); unfold also; lia]. intros x. unfold inc. by rewrite also_disown.
Qed.

Lemma meta_data h h' l : meta_only h h' → packet_data h' l = packet_data h l.
Proof.
  intros (Em & _ & _ & _ & Hp). unfold packet_data. f_equal. apply list_fmap_ext. intros i x _. unfold pbuf_data.
  destruct (Hp x) as [H1 H2]. destruct (pbufs h !! x) as [b|] eqn:Hb.
  - destruct (H1 b eq_refl) as (b' & -> & (-> & -> & _)). by rewrite Em.
  - by rewrite (H2 eq_refl).
Qed.

Lemma total_nonneg fs : (∀ f, f ∈ fs → f_lo f <= f_hi f) → 0 <= total fs.
Proof.
  induction fs as [|f fs IH]; intros Hf; simpl; [lia|]. pose proof (Hf f ltac:(by left)).
  assert (0 <= total fs) by (apply IH; intros ? ?; apply Hf; by right). lia.
Qed.

Lemma concat_loop_ok X p : ∀ fs fuel l n h E,
  heap_ok h (also X E) → packet h (Some p) l n 0 → queue h None fs → NoDup (l ++ all_pbufs fs) →
  (∀ f, f ∈ fs → E (f_p f) ≠ 0%nat) → n + total fs < 65536 → 0 <= n → (length fs ≤ fuel)%nat →
  ∃ h' E', concat_loop fuel p (first_or None fs) h = Some h' ∧ heap_ok h' (also X E') ∧ (∀ x, x ∉ f_p <$> fs → E' x = E x) ∧
    packet h' (Some p) (l ++ all_pbufs fs) (n + total fs) 0 ∧
    packet_data h' (l ++ all_pbufs fs) = packet_data h l ++ all_data fs ∧
    mem h' = mem h ∧ arena h' = arena h ∧ ∀ x, x ∉ l ++ all_pbufs fs → pbufs h' !! x = pbufs h !! x.
Proof.
  induction fs as [|f fs IH]; intros fuel l n h E K P Q ND HE Hn Hn0 Hf.
  { exists h, E. split; [by destruct fuel|]. change (all_pbufs []) with (@nil Z). change (all_data []) with (@nil Z). simpl. rewrite !app_nil_r, Z.add_0_r. done. }
  destruct fuel as [|fuel]; [simpl in Hf; lia|]. cbn [concat_loop first_or]. destruct Q as [[B Hh] Q].
  rewrite all_pbufs_cons in *. simpl total in *. pose proof (fb_range _ _ B) as [R1 R2].
  assert (Ht : 0 <= total fs) by (apply total_nonneg; intros g Hg; apply (fb_range _ _ (queue_body _ _ _ _ Q Hg))).
  pose proof (fb_packet _ _ B) as (_ & b & Hb & Htl & _ & _).
  unfold payload_of. unfold helper_of, payload_of in Hh. rewrite Hb in *. cbn [mbind option_bind] in *. apply (inj Some) in Hh.
  destruct (pbuf_header_cut h f b _ K B Hb ltac:(lia)) as (-> & K1 & P1 & D1). cbn [mbind option_bind].
  set (h1 := with_pbufs (<[f_p f := without_header b]> (pbufs h)) h) in *.
  apply NoDup_app in ND as (N1 & D & (N2 & D2 & N3)%NoDup_app).
  assert (Ag1 : agree (l ++ f_rest f ++ all_pbufs fs) h h1).
  { intros x Hx. split; [|done]. simpl. rewrite lookup_insert_ne; [done|]. intros <-.
    apply NoDup_cons in N2 as [N2 _]. rewrite !elem_of_app in Hx. destruct Hx as [Hx|[Hx|Hx]]; [|done|].
    - apply (D _ Hx). apply elem_of_app. left. by left.
    - apply (D2 (f_p f)); [by left|done]. }
  destruct (pbuf_cat_ok h1 p (f_p f) l (f_pbufs f) n (f_hi f - f_lo f) (also X (disown (f_p f) E))) as (h2 & -> & K2 & M2 & P2 & Fr2).
  { apply disown_also_ok; [done|]. apply HE. by left. }
  { eapply packet_frame; [|exact P]. intros x Hx. apply Ag1. set_solver. }
  { done. }
  { intros x Hx Hx'. apply (D x Hx). set_solver. }
  { lia. }
  cbn [mbind option_bind]. assert (Eh2 : helper_at h2 (payload b) = helper_at h (payload b)).
  { apply helper_ext. intros x _. destruct M2 as [-> _]. done. }
  rewrite Eh2, Hh. cbn [next_pbuf].
  assert (Ag2 : agree (all_pbufs fs) h h2).
  { intros x Hx. split; [|by intros; destruct M2 as [-> _]]. rewrite Fr2; [apply Ag1; set_solver|]. intros Hl. apply (D x Hl). set_solver. }
  destruct (IH fuel (l ++ f_pbufs f) (n + (f_hi f - f_lo f)) h2 (disown (f_p f) E)) as (h3 & E3 & -> & K3 & HE3 & P3 & D3 & M3 & A3 & Fr3).
  { done. } { done. }
  { eapply agree_queue; [exact Ag2|done|exact Q]. }
  { rewrite <- app_assoc. apply NoDup_app. split; [done|]. split; [done|]. by apply NoDup_app. }
  { intros g Hg. rewrite disown_other; [apply HE; by right|].
    intros Eg. apply (D2 (f_p f)); [by left|]. rewrite <- Eg. by apply in_all_pbufs. }
  { lia. } { lia. } { simpl in Hf. lia. }
  rewrite <- app_assoc in *. exists h3, E3. split; [done|]. split; [done|]. split_and!.
  - intros x Hx. rewrite HE3 by set_solver. apply disown_other. set_solver.
  - by rewrite Z.add_assoc.
  - rewrite D3, (meta_data h1 h2) by done. rewrite packet_data_app, D1.
    rewrite (agree_data (l ++ f_rest f ++ all_pbufs fs) h h1 l) by (done || set_solver). by rewrite <- app_assoc.
  - rewrite M3. destruct M2 as [-> _]. done.
  - rewrite A3. destruct M2 as (_ & -> & _). done.
  - intros x Hx. rewrite Fr3, Fr2 by set_solver. simpl. rewrite lookup_insert_ne; [done|]. set_solver.
Qed.

(** ** Elsewhere

    From [h] to [h'] only the pbufs [L] and their octets changed. *)
Definition confined (L : list Z) h h' : Prop := (∀ p, p ∉ L → pbufs h' !! p = pbufs h !! p) ∧
  ∀ x, mem h' x ≠ mem h x → ∃ p b, p ∈ L ∧ pbufs h !! p = Some b ∧ payload b <= x < payload b + len b.

Lemma confined_agree L L' h h' : confined L h h' → separate h (L ++ L') → agree L' h h'.
Proof.
  intros [Hp Hm] [(N1 & D & N2)%NoDup_app S] p Hin. split; [apply Hp; intros ?; by apply (D p)|].
  intros b x Hb Hx. destruct (decide (mem h' x = mem h x)) as [|Hne]; [done|]. destruct (Hm x Hne) as (q & c & Hq & Hc & Hr).
  assert (Hqp : q ≠ p) by (intros ->; by apply (D p)).
  destruct (S q p c b ltac:(set_solver) ltac:(set_solver) Hqp Hc Hb); lia.
Qed.

Lemma agree_separate L h h' : agree L h h' → separate h L → separate h' L.
Proof.
  intros Ag [ND S]. split; [done|]. intros a c ba bb Ha Hc. destruct (Ag a Ha) as [-> _]. destruct (Ag c Hc) as [-> _]. by apply S.
Qed.

Lemma headers_confined P h h' L : headers_only P h h' → P ⊆ L → (∀ p b, p ∈ P → pbufs h !! p = Some b → 20 <= len b) → confined L h h'.
Proof.
  intros T HP HH. split; [intros p _; by rewrite (headers_only_pbufs _ _ _ T)|]. destruct T as [_ T]. intros x Hx.
  destruct (T x Hx) as (p & b & Hp & Hb & Hr). exists p, b. split; [auto|]. split; [done|]. pose proof (HH p b Hp Hb). lia.
Qed.

Lemma confined_pbufs L h1 h2 h3 : confined L h1 h2 → mem h3 = mem h2 → (∀ p, p ∉ L → pbufs h3 !! p = pbufs h2 !! p) → confined L h1 h3.
Proof. intros [C1 C2] Em Ep. split; [intros p Hp; rewrite Ep by done; by apply C1|]. by rewrite Em. Qed.

Lemma confined_sub L L' h h' : confined L h h' → L ⊆ L' → confined L' h h'.
Proof. intros [C1 C2] Hs. split; [intros p Hp; apply C1; auto|]. intros x Hx. destruct (C2 x Hx) as (p & b & ? & ?). exists p, b. auto. Qed.

(** Freeing. *)
Lemma free_confined X h p l n E : heap_ok h (also X E) → E p ≠ 0%nat → packet h (Some p) l n 0 →
  ∃ h' c, pbuf_free (Some p) h = Some (h', c) ∧ heap_ok h' (also X (disown p E)) ∧ confined l h h'.
Proof.
  intros K He P. destruct (pbuf_free_ok h p _ (disown_also_ok _ _ _ _ K He)) as (h' & c & E1 & K' & (Em & _ & _) & _).
  exists h', c. split; [done|]. split; [done|]. split; [|by rewrite Em].
  pose proof (packet_chain _ _ _ _ _ P) as C.
  destruct (free_loop_chain l (size (pbufs h)) h (Some p) 0 C (chain_of_size _ _ _ C)) as (h2 & c2 & E2 & Ep & _).
  { intros a b _ Hb. by apply (ok_ref _ _ K a b). }
  unfold pbuf_free in E1. rewrite E1 in E2. injection E2 as <- <-. intros q Hq. rewrite Ep.
  clear -Hq. revert Hq. generalize (pbufs h). induction l as [|a l IH]; intros m Hq; simpl; [done|].
  destruct (m !! a) as [b|]; [|done]. case_match.
  - rewrite IH by set_solver. rewrite lookup_delete_ne; set_solver.
  - rewrite lookup_insert_ne; set_solver.
Qed.

(** ** The header of the datagram *)
Definition patch (i : nat) (l hdr : list Z) : list Z := take i hdr ++ l ++ drop (i + length l) hdr.

Definition final_header (a : Z) (hdr : list Z) (n : Z) : list Z :=
  let hdr := patch 10 (le16_split 0) (patch 6 (le16_split 0) (patch 2 (le16_split (lwip_htons n)) hdr)) in
  patch 10 (le16_split (inet_chksum a hdr)) hdr.

Lemma octets_patch h a i l n : (i + length l ≤ n)%nat →
  octets_at (store h (a + Z.of_nat i) l) a n = patch i l (octets_at h a n).
Proof.
  intros Hi. apply list_eq. intros j. unfold patch. destruct (decide (j < n)%nat) as [Hj|Hj]; cycle 1.
  { rewrite !lookup_ge_None_2; [done| |rewrite octets_at_length; lia].
    rewrite !length_app, length_take, length_drop, octets_at_length. lia. }
  unfold octets_at at 1. rewrite lookup_read_mem by done. unfold store. simpl. unfold write_mem.
  assert (Hli : length (take i (octets_at h a n)) = i) by (rewrite length_take, octets_at_length; lia).
  destruct (decide (j < i)%nat).
  - rewrite decide_False by lia. rewrite lookup_app_l by lia. rewrite lookup_take_lt by done. unfold octets_at. by rewrite lookup_read_mem.
  - rewrite lookup_app_r by lia. rewrite Hli. destruct (decide (j < i + length l)%nat).
    + rewrite decide_True by lia. rewrite lookup_app_l by lia. destruct (lookup_lt_is_Some_2 l (j - i)) as [x Hx]; [lia|].
      rewrite Hx. f_equal. apply nth_lookup_Some. rewrite <- Hx. f_equal. lia.
    + rewrite decide_False by lia. rewrite lookup_app_r by lia. rewrite lookup_drop. unfold octets_at.
      rewrite lookup_read_mem by lia. do 2 f_equal. lia.
Qed.

(** The header of the datagram, written over the helper of the first fragment. *)
Definition write_header h (a : Z) (hdr : list Z) (n : Z) : heap A :=
  let h := store h a hdr in
  let h := store h (a + 2) (le16_split (lwip_htons n)) in
  let h := store h (a + 6) (le16_split 0) in
  let h := store h (a + 10) (le16_split 0) in
  store h (a + 10) (le16_split (inet_chksum a (octets_at h a (Z.to_nat IP_HLEN)))).

Lemma write_header_ok h p b hdr n : pbufs h !! p = Some b → length hdr = 20%nat →
  headers_only [p] h (write_header h (payload b) hdr n) ∧
  octets_at (write_header h (payload b) hdr n) (payload b) 20 = final_header (payload b) hdr n.
Proof.
  intros Hb Hl. split.
  - unfold write_header. cbv zeta.
    assert (W : ∀ g a l, headers_only [p] h g → payload b <= a → a + Z.of_nat (length l) <= payload b + 20 → headers_only [p] h (store g a l)).
    { intros g a l T H1 H2. eapply headers_only_trans; [exact T|]. eapply store_headers; [by left| |done|done].
      by rewrite (headers_only_pbufs _ _ _ T). }
    do 4 (apply W; [|lia|simpl; lia]). apply W; [apply headers_only_refl|lia|rewrite Hl; lia].
  - unfold write_header, final_header. cbv zeta. change (Z.to_nat IP_HLEN) with 20%nat.
    rewrite (octets_patch _ _ 10 _ 20) by (simpl; lia).
    assert (E : octets_at (store (store (store (store h (payload b) hdr) (payload b + 2) (le16_split (lwip_htons n))) (payload b + 6)
      (le16_split 0)) (payload b + 10) (le16_split 0)) (payload b) 20 =
      patch 10 (le16_split 0) (patch 6 (le16_split 0) (patch 2 (le16_split (lwip_htons n)) hdr))).
    { rewrite (octets_patch _ _ 10 _ 20), (octets_patch _ _ 6 _ 20), (octets_patch _ _ 2 _ 20), octets_store_same by (done || (simpl; lia)). done. }
    by rewrite E.
Qed.

Lemma pbuf_data_split h p b : pbufs h !! p = Some b → 20 <= len b → pbuf_data h p = octets_at h (payload b) 20 ++ drop 20 (pbuf_data h p).
Proof.
  intros Hb Hl. rewrite <- (take_drop 20 (pbuf_data h p)) at 1. f_equal. unfold pbuf_data. rewrite Hb. apply list_eq. intros i.
  destruct (decide (i < 20)%nat).
  - rewrite lookup_take_lt by done. unfold octets_at. by rewrite !lookup_read_mem by lia.
  - rewrite !lookup_ge_None_2; [done|rewrite octets_at_length; lia|rewrite length_take; lia].
Qed.

(** The datagram: its header and the octets of its fragments. *)
Lemma join_fragments_ok X h f fs hdr n E b :
  heap_ok h (also X E) → queue h None (f :: fs) → separate h (all_pbufs (f :: fs)) → length hdr = 20%nat →
  (∀ g, g ∈ f :: fs → E (f_p g) ≠ 0%nat) → total (f :: fs) < 65516 → pbufs h !! f_p f = Some b →
  let h1 := write_header h (payload b) hdr n in
  ∃ h' E', concat_loop (size (pbufs h1)) (f_p f) (first_or None fs) h1 = Some h' ∧ heap_ok h' (also X E') ∧
    (∀ x, x ∉ f_p <$> fs → E' x = E x) ∧ packet h' (Some (f_p f)) (all_pbufs (f :: fs)) (20 + total (f :: fs)) 0 ∧
    packet_data h' (all_pbufs (f :: fs)) = final_header (payload b) hdr n ++ all_data (f :: fs) ∧
    arena h' = arena h ∧ confined (all_pbufs (f :: fs)) h h'.
Proof.
  intros K [[B Hh] Q] S Hl HE Ht Hb h1. destruct (write_header_ok h (f_p f) b hdr n Hb Hl) as [T Eo]. fold h1 in T, Eo.
  pose proof S as [ND _]. rewrite all_pbufs_cons in ND, S |- *. pose proof ND as (N1 & D & N2)%NoDup_app.
  assert (HH : ∀ p c, p ∈ [f_p f] → pbufs h !! p = Some c → 20 <= len c).
  { intros p c ->%list_elem_of_singleton. by apply body_header. }
  assert (HP : [f_p f] ⊆ f_pbufs f ++ all_pbufs fs) by set_solver.
  assert (B1 : frag_body h1 f).
  { eapply headers_only_body; [exact T|exact S|exact HP|exact HH|set_solver| |done].
    intros a Ha ->%list_elem_of_singleton. apply NoDup_cons in N1 as [N1 _]. done. }
  assert (Q1 : queue h1 None fs).
  { eapply queue_frame; [exact T|exact S|exact HP|exact HH|set_solver| |done].
    intros a Ha ->%list_elem_of_singleton. apply (D (f_p f)); [by left|done]. }
  assert (Hb1 : pbufs h1 !! f_p f = Some b) by by rewrite (headers_only_pbufs _ _ _ T).
  pose proof (fb_range _ _ B) as [R1 R2]. simpl total in *.
  assert (0 <= total fs) by (apply total_nonneg; intros g Hg; apply (fb_range _ _ (queue_body _ _ _ _ Q Hg))).
  destruct (concat_loop_ok X (f_p f) fs (size (pbufs h1)) (f_pbufs f) (20 + (f_hi f - f_lo f)) h1 E) as (h2 & E2 & -> & K2 & HE2 & P2 & D2 & M2 & A2 & Fr2).
  - by eapply headers_only_ok.
  - apply (fb_packet _ _ B1).
  - done.
  - done.
  - intros g Hg. apply HE. by right.
  - lia.
  - lia.
  - by eapply queue_size.
  - exists h2, E2. split; [done|]. split; [done|]. split; [done|]. split; [by rewrite Z.add_assoc|]. split_and!.
    + rewrite D2. change (packet_data h1 (f_pbufs f)) with (pbuf_data h1 (f_p f) ++ packet_data h1 (f_rest f)).
      rewrite (pbuf_data_split h1 (f_p f) b Hb1), Eo by by apply (fb_header _ _ B1). unfold all_data. simpl.
      rewrite (fb_data _ _ B1). unfold body. by rewrite <- !app_assoc.
    + by rewrite A2, (headers_only_arena _ _ _ T).
    + eapply confined_pbufs; [|exact M2|exact Fr2]. by eapply headers_confined.
Qed.
End join.
