(* ===== verification/IpReassMain.v ===== *)
(** * Reassembly as a whole

    The list of datagrams, the pool their structures come from and the count
    of queued pbufs: what [ip_reass] does with a fragment for which there is
    room, and what the code gets wrong. *)
From S2P Require Import Prelude LwipDef Chksum Memp Pbuf PbufRef PbufOwn PbufData IpReass IpReassOk.
From S2P Require Import IpReassJoin.
Local Open Scope Z_scope.

(** ** Datagrams under reassembly *)
Record dgram := MkD { d_ipr : Z; d_hdr : list Z; d_len : Z; d_flags : Z; d_timer : Z; d_fs : list frag }.

Definition entry (nx : option Z) (d : dgram) : ip_reassdata :=
  MkReass nx (first_or None (d_fs d)) (d_hdr d) (d_len d) (d_flags d) (d_timer d).
Definition next_ipr (ds : list dgram) : option Z := match ds with d :: _ => Some (d_ipr d) | [] => None end.

Fixpoint table (ds : list dgram) : gmap Z ip_reassdata :=
  match ds with [] => ∅ | d :: ds => <[d_ipr d := entry (next_ipr ds) d]> (table ds) end.

Definition all_of (ds : list dgram) : list frag := mjoin (d_fs <$> ds).
Definition with_fs (fs : list frag) (d : dgram) : dgram := MkD (d_ipr d) (d_hdr d) (d_len d) (d_flags d) (d_timer d) fs.
Definition with_hdr (hdr : list Z) (d : dgram) : dgram := MkD (d_ipr d) hdr (d_len d) (d_flags d) (d_timer d) (d_fs d).

Lemma next_ipr_app ds1 d ds2 : next_ipr (ds1 ++ d :: ds2) = match ds1 with [] => Some (d_ipr d) | d1 :: _ => Some (d_ipr d1) end.
Proof. by destruct ds1. Qed.

Lemma table_none i ds : i ∉ d_ipr <$> ds → table ds !! i = None.
Proof.
  induction ds as [|d ds IH]; simpl; [by rewrite lookup_empty|]. rewrite not_elem_of_cons. intros [Hne Hi].
  rewrite lookup_insert_ne by done. auto.
Qed.

Lemma table_lookup ds1 d ds2 : NoDup (d_ipr <$> ds1 ++ d :: ds2) → table (ds1 ++ d :: ds2) !! d_ipr d = Some (entry (next_ipr ds2) d).
Proof.
  induction ds1 as [|d1 ds1 IH]; simpl; [by rewrite lookup_insert_eq|]. intros [Hn ND]%NoDup_cons.
  rewrite lookup_insert_ne; [auto|]. intros E. apply Hn. rewrite E, fmap_app. set_solver.
Qed.

Lemma table_update ds1 d d' ds2 : NoDup (d_ipr <$> ds1 ++ d :: ds2) → d_ipr d' = d_ipr d →
  table (ds1 ++ d' :: ds2) = <[d_ipr d := entry (next_ipr ds2) d']> (table (ds1 ++ d :: ds2)).
Proof.
  induction ds1 as [|d1 ds1 IH]; simpl; [intros _ ->; by rewrite insert_insert_eq|]. intros [Hn ND]%NoDup_cons Ed.
  rewrite (IH ND Ed). assert (d_ipr d1 ≠ d_ipr d) by (intros E; apply Hn; rewrite E, fmap_app; set_solver).
  rewrite (insert_insert_ne _ (d_ipr d1)) by done. do 2 f_equal. rewrite !next_ipr_app. by rewrite Ed.
Qed.

(** Unlinking: the predecessor gets the successor. *)
Lemma table_remove ds0 d0 d ds2 : NoDup (d_ipr <$> ds0 ++ d0 :: d :: ds2) →
  table (ds0 ++ d0 :: ds2) = delete (d_ipr d) (<[d_ipr d0 := entry (next_ipr ds2) d0]> (table (ds0 ++ d0 :: d :: ds2))).
Proof.
  induction ds0 as [|d1 ds0 IH]; simpl.
  - intros [Hn [Hn2 ND]%NoDup_cons]%NoDup_cons. rewrite insert_insert_eq.
    rewrite delete_insert_ne by (intros E; apply Hn; rewrite E; by left). rewrite delete_insert_id; [done|]. by apply table_none.
  - intros [Hn ND]%NoDup_cons. rewrite (IH ND). rewrite fmap_app in Hn. simpl in Hn.
    assert (H1 : d_ipr d1 ≠ d_ipr d0) by (intros E; apply Hn; rewrite E; apply elem_of_app; right; by left).
    assert (H2 : d_ipr d1 ≠ d_ipr d) by (intros E; apply Hn; rewrite E; apply elem_of_app; right; right; by left).
    rewrite (insert_insert_ne _ (d_ipr d0) (d_ipr d1)), (delete_insert_ne _ (d_ipr d) (d_ipr d1)) by congruence. f_equal. f_equal. by rewrite !next_ipr_app.
Qed.

Lemma all_of_app ds1 ds2 : all_of (ds1 ++ ds2) = all_of ds1 ++ all_of ds2.
Proof. unfold all_of. by rewrite fmap_app, join_app. Qed.

Lemma all_of_cons d ds : all_of (d :: ds) = d_fs d ++ all_of ds.
Proof. done. Qed.

Section state.
Context {A W : Type} `{HL : ArenaLaws A} `{HW : Owns W}.
Implicit Types (h : heap A) (s : reass A W) (d : dgram) (ds : list dgram) (E : Z → nat).

Record reass_ok E s ds : Prop := {
  ro_first : reassdatagrams s = next_ipr ds;
  ro_data : rdata s = table ds;
  ro_nodup : NoDup (d_ipr <$> ds);
  ro_hdr d : d ∈ ds → length (d_hdr d) = 20%nat;
  ro_queue d : d ∈ ds → queue (rheap s) None (d_fs d);
  ro_separate : separate (rheap s) (all_pbufs (all_of ds));
  ro_count : ip_reass_pbufcount s = Z.of_nat (length (all_pbufs (all_of ds)));
  ro_max : ip_reass_pbufcount s <= IP_REASS_MAX_PBUFS;
  ro_heap : heap_ok (rheap s) (also (owns (below s)) E);
  ro_owned f : f ∈ all_of ds → E (f_p f) ≠ 0%nat;
  ro_pool d : d ∈ ds → live (arena (rheap s)) !! d_ipr d = Some (POOL MEMP_REASSDATA) }.

(** ** Dequeuing *)
Lemma dequeue_ok ds1 d ds2 s :
  reassdatagrams s = next_ipr (ds1 ++ d :: ds2) → rdata s = table (ds1 ++ d :: ds2) → NoDup (d_ipr <$> ds1 ++ d :: ds2) →
  ip_reass_dequeue_datagram (d_ipr d) (d_ipr <$> last ds1) s =
    Some (MkRS (next_ipr (ds1 ++ ds2)) (table (ds1 ++ ds2)) (ip_reass_pbufcount s)
      (with_arena (memp_free MEMP_REASSDATA (d_ipr d) (arena (rheap s))) (rheap s)) (below s)).
Proof.
  intros Ef Er ND. unfold ip_reass_dequeue_datagram. rewrite Er, table_lookup by done. cbn [mbind option_bind].
  destruct (last ds1) as [d0|] eqn:El; simpl.
  - apply last_Some in El as [ds0 ->]. rewrite <- app_assoc in *. simpl in *.
    rewrite bool_decide_eq_false_2.
    + cbn [mbind option_bind]. unfold upd_ipr. rewrite Er, (table_lookup ds0 d0) by done. cbn [mbind option_bind]. unfold set_rheap, set_rdata. simpl.
      do 2 f_equal; [rewrite Ef; by rewrite !next_ipr_app|]. rewrite (table_remove ds0 d0 d ds2 ND). done.
    + rewrite Ef. intros E. rewrite fmap_app in ND. simpl in ND. destruct ds0 as [|d1 ds0]; simpl in *; injection E as E; rewrite E in ND.
      * apply NoDup_cons in ND as [Hn _]. apply Hn. by left.
      * apply NoDup_cons in ND as [Hn _]. apply Hn. apply elem_of_app. right. right. by left.
  - apply last_None in El as ->. simpl in *. rewrite Ef, bool_decide_eq_true_2 by done. cbn [mbind option_bind].
    unfold set_rheap, set_rdata, set_first. simpl. rewrite Er. do 3 f_equal. apply NoDup_cons in ND as [Hn _].
    apply delete_insert_id. by apply table_none.
Qed.

(** The pool of the structures is not a pool of pbufs. *)
Lemma block_of_reass b : block_of b ≠ POOL MEMP_REASSDATA.
Proof. unfold block_of. destruct (is_custom _); [done|]. by destruct (type b). Qed.

Lemma reass_block_no_pbuf h E i : heap_ok h E → live (arena h) !! i = Some (POOL MEMP_REASSDATA) → pbufs h !! i = None.
Proof.
  intros K Hi. destruct (pbufs h !! i) as [b|] eqn:Hb; [|done]. pose proof (ok_live _ _ K i b Hb) as Hl. rewrite Hi in Hl.
  injection Hl as Hl. by destruct (block_of_reass b).
Qed.

Lemma free_reass_ok h E i : heap_ok h E → live (arena h) !! i = Some (POOL MEMP_REASSDATA) →
  heap_ok (with_arena (memp_free MEMP_REASSDATA i (arena h)) h) E.
Proof.
  intros K Hi. pose proof (reass_block_no_pbuf h E i K Hi) as Hn. pose proof K as [K1 K2 K3 K4 K5]. constructor; try done.
  intros p b Hp. simpl in *. rewrite memp_free_live by done. rewrite lookup_delete_ne; [by apply K4|]. intros ->. by rewrite Hn in Hp.
Qed.

Lemma packet_arena a h (o : option Z) l n rem : packet h o l n rem → packet (with_arena a h) o l n rem.
Proof. by apply packet_frame. Qed.

Lemma with_arena_queue a h nx fs : queue h nx fs → queue (with_arena a h) nx fs.
Proof. apply (agree_queue (all_pbufs fs)); [|done]. by intros p _. Qed.

(** ** Rebuilding the invariant *)
Lemma others_sub ds1 ds2 (d0 : dgram) : d0 ∈ ds1 ++ ds2 → all_pbufs (d_fs d0) ⊆ all_pbufs (all_of (ds1 ++ ds2)).
Proof.
  intros (l1 & l2 & ->)%list_elem_of_split. rewrite all_of_app, all_of_cons, !all_pbufs_app. set_solver.
Qed.

Lemma all_of_middle ds1 d ds2 : all_of (ds1 ++ d :: ds2) ≡ₚ d_fs d ++ all_of (ds1 ++ ds2).
Proof. rewrite !all_of_app, all_of_cons. apply Permutation_app_swap_app. Qed.

Lemma all_pbufs_perm (fs gs : list frag) : fs ≡ₚ gs → all_pbufs fs ≡ₚ all_pbufs gs.
Proof.
  induction 1 as [|f fs gs _ IH|f g fs|fs gs ls _ IH1 _ IH2]; [done|rewrite !all_pbufs_cons; by rewrite IH| |by rewrite IH1].
  rewrite !all_pbufs_cons. apply Permutation_app_swap_app.
Qed.

Lemma split_separate h ds1 d ds2 : separate h (all_pbufs (all_of (ds1 ++ d :: ds2))) →
  separate h (all_pbufs (d_fs d) ++ all_pbufs (all_of (ds1 ++ ds2))).
Proof. apply separate_perm. rewrite <- all_pbufs_app. apply all_pbufs_perm, all_of_middle. Qed.

Lemma middle_elem ds1 d ds2 (d0 : dgram) : d0 ∈ ds1 ++ d :: ds2 ↔ d0 = d ∨ d0 ∈ ds1 ++ ds2.
Proof. rewrite !elem_of_app, elem_of_cons. tauto. Qed.

Lemma owned_middle ds1 d ds2 f : f ∈ all_of (ds1 ++ d :: ds2) ↔ f ∈ d_fs d ∨ f ∈ all_of (ds1 ++ ds2).
Proof. by rewrite all_of_middle, elem_of_app. Qed.

Lemma middle_nodup ds1 d (d' : dgram) ds2 : d_ipr d' = d_ipr d → NoDup (d_ipr <$> ds1 ++ d :: ds2) → NoDup (d_ipr <$> ds1 ++ d' :: ds2).
Proof. intros E. by rewrite !fmap_app, !fmap_cons, E. Qed.

Lemma without_nodup ds1 d ds2 : NoDup (d_ipr <$> ds1 ++ d :: ds2) → NoDup (d_ipr <$> ds1 ++ ds2).
Proof.
  rewrite !fmap_app, fmap_cons. intros (N1 & D & [_ N2]%NoDup_cons)%NoDup_app. apply NoDup_app. split_and!; [done| |done].
  intros x Hx Hx2. apply (D x Hx). by right.
Qed.

(** A datagram leaves: the others are untouched. *)
Definition without (ds : list dgram) (ipr : Z) h (w : W) : reass A W :=
  MkRS (next_ipr ds) (table ds) (Z.of_nat (length (all_pbufs (all_of ds)))) (with_arena (memp_free MEMP_REASSDATA ipr (arena h)) h) w.

Lemma count_middle E s ds1 d ds2 : reass_ok E s (ds1 ++ d :: ds2) →
  ip_reass_pbufcount s = Z.of_nat (length (all_pbufs (d_fs d))) + Z.of_nat (length (all_pbufs (all_of (ds1 ++ ds2)))).
Proof. intros R. rewrite (ro_count _ _ _ R), (Permutation_length (all_pbufs_perm _ _ (all_of_middle ds1 d ds2))), all_pbufs_app, length_app. lia. Qed.

Lemma other_ipr ds1 d ds2 (d0 : dgram) : NoDup (d_ipr <$> ds1 ++ d :: ds2) → d0 ∈ ds1 ++ ds2 → d_ipr d ≠ d_ipr d0.
Proof.
  intros ND Hd0 E0. rewrite fmap_app, fmap_cons in ND. apply NoDup_app in ND as (_ & D0 & [D1 _]%NoDup_cons).
  apply elem_of_app in Hd0 as [H1|H1]; [apply (D0 (d_ipr d0)); [by apply list_elem_of_fmap_2|rewrite <- E0; by left]|].
  apply D1. rewrite E0. by apply list_elem_of_fmap_2.
Qed.

Lemma other_frag h ds1 d ds2 g : separate h (all_pbufs (all_of (ds1 ++ d :: ds2))) → g ∈ all_of (ds1 ++ ds2) → f_p g ∉ all_pbufs (d_fs d).
Proof.
  intros S Hg Hin. destruct (split_separate _ _ _ _ S) as [(_ & D & _)%NoDup_app _]. apply (D (f_p g) Hin). by apply in_all_pbufs.
Qed.

Lemma leave_ok E E' s ds1 d ds2 h' w :
  reass_ok E s (ds1 ++ d :: ds2) → heap_ok h' (also (owns w) E') → (∀ g, g ∈ all_of (ds1 ++ ds2) → E' (f_p g) = E (f_p g)) →
  agree (all_pbufs (all_of (ds1 ++ ds2))) (rheap s) h' →
  (∀ i, live (arena (rheap s)) !! i = Some (POOL MEMP_REASSDATA) → live (arena h') !! i = Some (POOL MEMP_REASSDATA)) →
  reass_ok E' (without (ds1 ++ ds2) (d_ipr d) h' w) (ds1 ++ ds2).
Proof.
  intros R K' HE Ag Hl. pose proof R as [Ef Er ND Hh Hq S Ec Em K Ho Hp]. pose proof (split_separate _ _ _ _ S) as S2.
  assert (Hlive : live (arena h') !! d_ipr d = Some (POOL MEMP_REASSDATA)) by (apply Hl, Hp, middle_elem; by left).
  constructor; simpl; try done.
  - by eapply without_nodup.
  - intros d0 Hd0. apply Hh, middle_elem. by right.
  - intros d0 Hd0. apply with_arena_queue. eapply agree_queue; [exact Ag|by apply others_sub|]. apply Hq, middle_elem. by right.
  - eapply agree_separate; [exact Ag|]. eapply separate_sub; [exact S2|set_solver|]. destruct S2 as [N _]. by apply NoDup_app in N as (_ & _ & ?).
  - rewrite (count_middle _ _ _ _ _ R) in Em. lia.
  - by apply free_reass_ok.
  - intros g Hg. rewrite HE by done. apply Ho, owned_middle. by right.
  - intros d0 Hd0. rewrite memp_free_live by done. rewrite lookup_delete_ne by (by eapply other_ipr).
    apply Hl, Hp, middle_elem. by right.
Qed.

(** ** A complete datagram *)
Lemma finish_run E s ds1 d ds2 f fs h' b n :
  reass_ok E s (ds1 ++ d :: ds2) → d_fs d = f :: fs → pbufs (rheap s) !! f_p f = Some b →
  let h1 := write_header (rheap s) (payload b) (d_hdr d) (u16 (d_len d + IP_HLEN)) in
  concat_loop (size (pbufs h1)) (f_p f) (first_or None fs) h1 = Some h' → packet h' (Some (f_p f)) (all_pbufs (d_fs d)) n 0 →
  finish_datagram (d_ipr d) (d_ipr <$> last ds1) s = Some (without (ds1 ++ ds2) (d_ipr d) h' (below s), Some (f_p f)).
Proof.
  intros R Efs Hb h1 EJ P. pose proof R as [Ef Er ND Hh Hq S Ec Em K Ho Hp].
  assert (Q : queue (rheap s) None (f :: fs)) by (rewrite <- Efs; apply Hq, middle_elem; by left). destruct Q as [[_ Hhf] _].
  set (d' := MkD (d_ipr d) (d_hdr d) (u16 (d_len d + IP_HLEN)) (d_flags d) (d_timer d) (d_fs d)).
  assert (Et : <[d_ipr d := set_datagram_len (u16 (d_len d + IP_HLEN)) (entry (next_ipr ds2) d)]> (table (ds1 ++ d :: ds2)) = table (ds1 ++ d' :: ds2)).
  { by rewrite (table_update ds1 d d' ds2) by done. }
  unfold finish_datagram. rewrite Er, table_lookup by done. cbn [mbind option_bind]. unfold upd_ipr. rewrite Er, table_lookup by done.
  cbn [mbind option_bind rheap set_rdata rp entry]. rewrite Efs. cbn [first_or mbind option_bind]. rewrite Hhf. cbn [mbind option_bind].
  unfold payload_of. rewrite Hb. cbn [mbind option_bind iphdr datagram_len next_pbuf entry].
  fold (write_header (rheap s) (payload b) (d_hdr d) (u16 (d_len d + IP_HLEN))). fold h1. rewrite EJ. cbn [mbind option_bind].
  change (ip_reass_dequeue_datagram (d_ipr d)) with (ip_reass_dequeue_datagram (A := A) (W := W) (d_ipr d')). rewrite Et.
  rewrite (dequeue_ok ds1 d' ds2); [|simpl; by rewrite Ef, !next_ipr_app|done|exact (middle_nodup ds1 d d' ds2 eq_refl ND)].
  cbn [mbind option_bind rheap set_rheap]. rewrite (pbuf_clen_ok _ _ _ _ (packet_arena _ _ _ _ _ _ P)). cbn [mbind option_bind].
  unfold set_count, without. simpl. do 4 f_equal.
  rewrite (count_middle _ _ _ _ _ R) in *. unfold IP_REASS_MAX_PBUFS in Em. rewrite u8_id by (unfold is_u8; lia). rewrite u16_id by (unfold is_u16; lia). lia.
Qed.

Lemma finish_ok E s ds1 d ds2 f fs :
  reass_ok E s (ds1 ++ d :: ds2) → d_fs d = f :: fs → total (d_fs d) < 65516 →
  ∃ s' E' a, finish_datagram (d_ipr d) (d_ipr <$> last ds1) s = Some (s', Some (f_p f)) ∧ reass_ok E' s' (ds1 ++ ds2) ∧
    packet (rheap s') (Some (f_p f)) (all_pbufs (d_fs d)) (20 + total (d_fs d)) 0 ∧
    packet_data (rheap s') (all_pbufs (d_fs d)) = final_header a (d_hdr d) (u16 (d_len d + IP_HLEN)) ++ all_data (d_fs d) ∧
    E' (f_p f) ≠ 0%nat.
Proof.
  intros R Efs Ht. pose proof R as [Ef Er ND Hh Hq S Ec Em K Ho Hp].
  assert (Hd : d ∈ ds1 ++ d :: ds2) by (apply middle_elem; by left). pose proof (Hq d Hd) as Q.
  pose proof (split_separate _ _ _ _ S) as S2. assert (Sd : separate (rheap s) (all_pbufs (d_fs d))).
  { eapply separate_sub; [exact S2|set_solver|]. destruct S2 as [N _]. by apply NoDup_app in N as [? _]. }
  assert (Hown : ∀ g, g ∈ d_fs d → E (f_p g) ≠ 0%nat) by (intros g Hg; apply Ho, owned_middle; by left).
  pose proof Q as Q0. rewrite Efs in Q0. destruct Q0 as [[B _] _]. destruct (fb_packet _ _ B) as (_ & b & Hb & _).
  rewrite Efs in Q, Sd, Hown, Ht.
  destruct (join_fragments_ok (owns (below s)) (rheap s) f fs (d_hdr d) (u16 (d_len d + IP_HLEN)) E b K Q Sd (Hh d Hd) Hown Ht Hb)
    as (h' & E' & EJ & K' & HE & P & D & Ea & C). rewrite <- Efs in P, D, C.
  exists (without (ds1 ++ ds2) (d_ipr d) h' (below s)), E', (payload b). split; [by eapply finish_run|]. split.
  - eapply leave_ok; [done..| | |by rewrite Ea].
    + intros g Hg. apply HE. intros (g' & Eg & Hg')%list_elem_of_fmap. apply (other_frag _ _ _ _ _ S Hg). rewrite Eg. apply in_all_pbufs. rewrite Efs. by right.
    + by eapply confined_agree.
  - split; [|split].
    + rewrite Efs in *. by apply packet_arena.
    + exact D.
    + rewrite HE; [by apply Hown; left|]. intros (g & Eg & Hg)%list_elem_of_fmap. destruct Sd as [(_ & D2 & _)%NoDup_app _].
      apply (D2 (f_p f)); [by left|]. rewrite Eg. by apply in_all_pbufs.
Qed.

(** ** One fragment for one datagram, as data *)
Lemma inserted_split fs f pre suf v : inserted fs f = Some (pre, suf, v) → fs = pre ++ suf.
Proof.
  unfold inserted. destruct (place true [] fs f) as [[[pre' suf'] v']|] eqn:Ep; [|done]. pose proof (place_split _ _ _ _ _ _ _ Ep) as Efs.
  simpl in Efs. destruct suf'; by intros [= <- <- _].
Qed.

Definition last_fragment (hdr : list Z) : bool := Z.land (IPH_OFFSET hdr) (lwip_ntohs IP_MF) =? 0.

(** The end of the datagram, when the fragment has it. *)
Definition note (hdr : list Z) (f : frag) (d : dgram) : dgram :=
  if last_fragment hdr then MkD (d_ipr d) (d_hdr d) (f_hi f) (Z.lor (d_flags d) IP_REASS_FLAG_LASTFRAG) (d_timer d) (d_fs d) else d.

Definition complete_with (d : dgram) : list frag → frag → list frag → bool → bool := complete (entry None d).

(** The datagrams when the fragment [f] of [d] is queued, and the one that is
    delivered. *)
Definition queue_step (ds1 : list dgram) (d : dgram) (ds2 : list dgram) (f : frag) : list dgram * option dgram :=
  match inserted (d_fs d) f with
  | None => (ds1 ++ d :: ds2, None)
  | Some (pre, suf, v) =>
      if complete_with d pre f suf v then (ds1 ++ ds2, Some (with_fs (pre ++ f :: suf) d))
      else (ds1 ++ with_fs (pre ++ f :: suf) d :: ds2, None)
  end.

(** What the assertions of the code ask of a complete datagram. *)
Definition ends_well (d : dgram) (f : frag) : Prop :=
  ∀ pre suf v, inserted (d_fs d) f = Some (pre, suf, v) → complete_with d pre f suf v = true →
    (2 ≤ length (pre ++ f :: suf))%nat ∧ (∃ g, last (pre ++ f :: suf) = Some g ∧ f_hi g = d_len d) ∧
    total (pre ++ f :: suf) < 65516.

Definition delivered (d : dgram) h E (o : option Z) : Prop :=
  ∃ g a, head (d_fs d) = Some g ∧ o = Some (f_p g) ∧ packet h o (all_pbufs (d_fs d)) (20 + total (d_fs d)) 0 ∧
    packet_data h (all_pbufs (d_fs d)) = final_header a (d_hdr d) (u16 (d_len d + IP_HLEN)) ++ all_data (d_fs d) ∧ E (f_p g) ≠ 0%nat.

Lemma note_ipr hdr f d : d_ipr (note hdr f d) = d_ipr d.
Proof. unfold note. by destruct (last_fragment hdr). Qed.

Lemma note_fs hdr f d : d_fs (note hdr f d) = d_fs d.
Proof. unfold note. by destruct (last_fragment hdr). Qed.

Lemma note_hdr hdr f d : d_hdr (note hdr f d) = d_hdr d.
Proof. unfold note. by destruct (last_fragment hdr). Qed.

Lemma all_of_same ds1 d (d' : dgram) ds2 : d_fs d' = d_fs d → all_of (ds1 ++ d' :: ds2) = all_of (ds1 ++ d :: ds2).
Proof. intros E0. by rewrite !all_of_app, !all_of_cons, E0. Qed.

(** The fields of a structure that the queue does not depend on. *)
Lemma reass_same E s ds1 d d' ds2 :
  reass_ok E s (ds1 ++ d :: ds2) → d_ipr d' = d_ipr d → d_fs d' = d_fs d → length (d_hdr d') = 20%nat →
  reass_ok E (set_rdata (table (ds1 ++ d' :: ds2)) s) (ds1 ++ d' :: ds2).
Proof.
  intros R Ei Efs Hl. pose proof R as [Ef Er ND Hh Hq S Ec Em K Ho Hp]. constructor; simpl; rewrite ?(all_of_same ds1 d d' ds2 Efs); try done.
  - rewrite Ef, !next_ipr_app. by rewrite Ei.
  - by apply (middle_nodup ds1 d).
  - intros d0 [->|Hd]%middle_elem; [done|]. apply Hh, middle_elem. by right.
  - intros d0 [->|Hd]%middle_elem; [rewrite Efs|]; apply Hq, middle_elem; by auto.
  - intros d0 [->|Hd]%middle_elem; [rewrite Ei|]; apply Hp, middle_elem; by auto.
Qed.

Lemma upd_middle E s ds1 d d' ds2 (g : ip_reassdata → ip_reassdata) :
  reass_ok E s (ds1 ++ d :: ds2) → d_ipr d' = d_ipr d → g (entry (next_ipr ds2) d) = entry (next_ipr ds2) d' →
  upd_ipr (d_ipr d) g s = Some (set_rdata (table (ds1 ++ d' :: ds2)) s).
Proof.
  intros R Ei Eg. pose proof (ro_nodup _ _ _ R) as ND. unfold upd_ipr. rewrite (ro_data _ _ _ R), table_lookup by done.
  cbn [mbind option_bind]. by rewrite Eg, (table_update ds1 d d' ds2).
Qed.

(** ** The fragment in the queue of its datagram, and dropped *)
Lemma all_with_new ds1 d ds2 (f : frag) :
  all_pbufs (f :: all_of (ds1 ++ d :: ds2)) ≡ₚ all_pbufs (f :: d_fs d) ++ all_pbufs (all_of (ds1 ++ ds2)).
Proof. rewrite !all_pbufs_cons, <- app_assoc. apply Permutation_app_head. rewrite <- all_pbufs_app. apply all_pbufs_perm, all_of_middle. Qed.

Lemma datagram_separate h ds1 d ds2 f : separate h (all_pbufs (f :: all_of (ds1 ++ d :: ds2))) → separate h (all_pbufs (f :: d_fs d)).
Proof.
  intros S. eapply separate_perm in S; [|apply all_with_new]. eapply separate_sub; [exact S|set_solver|].
  destruct S as [N _]. by apply NoDup_app in N as [? _].
Qed.

Lemma heads_of (fs : list frag) p : p ∈ f_p <$> fs → ∃ g, g ∈ fs ∧ p = f_p g.
Proof. intros (g & -> & Hg)%list_elem_of_fmap. by exists g. Qed.

Lemma heads_sub (fs : list frag) : (f_p <$> fs) ⊆ all_pbufs fs.
Proof. intros p (g & Hg & ->)%heads_of. by apply in_all_pbufs. Qed.

(** The other datagrams, when the code writes in the headers of one. *)
Lemma headers_agree h h' ds1 d ds2 f :
  separate h (all_pbufs (f :: all_of (ds1 ++ d :: ds2))) → frag_body h f → queue h None (d_fs d) →
  headers_only (f_p <$> f :: d_fs d) h h' → agree (all_pbufs (all_of (ds1 ++ ds2))) h h'.
Proof.
  intros S B Q T. eapply confined_agree; [|eapply separate_perm; [apply all_with_new|exact S]].
  eapply headers_confined; [exact T|apply heads_sub|]. intros p b (g & Hg & ->)%heads_of.
  apply body_header. apply elem_of_cons in Hg as [->|Hg]; [done|]. by eapply queue_body.
Qed.

Lemma requeue_ok E s ds1 d ds2 f gs fs h' :
  reass_ok E s (ds1 ++ d :: ds2) → separate (rheap s) (all_pbufs (f :: all_of (ds1 ++ d :: ds2))) → frag_body (rheap s) f →
  headers_only (f_p <$> f :: d_fs d) (rheap s) h' → queue h' None fs → fs ≡ₚ gs ++ d_fs d → gs = [] ∨ gs = [f] → E (f_p f) ≠ 0%nat →
  ip_reass_pbufcount s + Z.of_nat (length (all_pbufs gs)) <= IP_REASS_MAX_PBUFS →
  reass_ok E (MkRS (reassdatagrams s) (table (ds1 ++ with_fs fs d :: ds2)) (ip_reass_pbufcount s + Z.of_nat (length (all_pbufs gs))) h' (below s))
    (ds1 ++ with_fs fs d :: ds2).
Proof.
  intros R Sf B T Q' Hp Hgs He Hn. pose proof R as [Ef Er ND Hh Hq S Ec Em K Ho Hl].
  assert (Hd : d ∈ ds1 ++ d :: ds2) by (apply middle_elem; by left).
  pose proof (headers_agree _ _ _ _ _ _ Sf B (Hq d Hd) T) as Ag. pose proof (split_separate _ _ _ _ S) as S2.
  assert (Hall : all_pbufs (all_of (ds1 ++ with_fs fs d :: ds2)) ≡ₚ all_pbufs gs ++ all_pbufs (all_of (ds1 ++ d :: ds2))).
  { rewrite <- all_pbufs_app. apply all_pbufs_perm. rewrite !all_of_middle. simpl. rewrite Hp. by rewrite app_assoc. }
  constructor; simpl; try done.
  - by rewrite Ef, !next_ipr_app.
  - by apply (middle_nodup ds1 d).
  - intros d0 [->|H0]%middle_elem; [exact (Hh d Hd)|]. apply Hh, middle_elem. by right.
  - intros d0 [->|H0]%middle_elem; [done|]. eapply agree_queue; [exact Ag|by apply others_sub|]. apply Hq, middle_elem. by right.
  - apply (headers_only_separate _ _ _ _ T). eapply separate_perm; [symmetry; exact Hall|]. destruct Hgs as [-> | ->]; [exact S|].
    eapply separate_perm; [|exact Sf]. by rewrite <- all_pbufs_app.
  - rewrite Ec, (Permutation_length Hall), length_app. lia.
  - by eapply headers_only_ok.
  - intros g [Hg|Hg]%owned_middle; [|apply Ho, owned_middle; by right]. simpl in Hg. rewrite Hp in Hg. apply elem_of_app in Hg as [Hg|Hg].
    + destruct Hgs as [-> | ->]; [by apply elem_of_nil in Hg|]. by apply list_elem_of_singleton in Hg as ->.
    + apply Ho, owned_middle. by left.
  - rewrite (headers_only_arena _ _ _ T). intros d0 [->|H0]%middle_elem; [exact (Hl d Hd)|]. apply Hl, middle_elem. by right.
Qed.

(** A fragment that is not in a queue is freed. *)
Lemma discard_ok E s ds f n :
  reass_ok E s ds → separate (rheap s) (f_pbufs f ++ all_pbufs (all_of ds)) → packet (rheap s) (Some (f_p f)) (f_pbufs f) n 0 →
  E (f_p f) ≠ 0%nat →
  ∃ h' c, pbuf_free (Some (f_p f)) (rheap s) = Some (h', c) ∧ reass_ok (disown (f_p f) E) (set_rheap h' s) ds.
Proof.
  intros R Sf P He. pose proof R as [Ef Er ND Hh Hq S Ec Em K Ho Hl].
  destruct (free_confined (owns (below s)) (rheap s) (f_p f) (f_pbufs f) n E K He P) as (h' & c & Efr & K' & C). exists h', c. split; [done|].
  pose proof (confined_agree _ _ _ _ C Sf) as Ag. constructor; simpl; try done.
  - intros d Hd. eapply agree_queue; [exact Ag| |by apply Hq]. apply list_elem_of_split in Hd as (l1 & l2 & ->).
    rewrite all_of_app, all_of_cons, !all_pbufs_app. set_solver.
  - by eapply agree_separate.
  - intros g Hg. rewrite disown_other; [by apply Ho|]. intros E0. destruct Sf as [(_ & D & _)%NoDup_app _].
    apply (D (f_p f)); [by left|]. rewrite <- E0. by apply in_all_pbufs.
  - intros d Hd. rewrite (pbuf_free_live _ _ _ _ _ _ K (also_owned _ _ _ He) Efr); [by apply Hl|]. eapply reass_block_no_pbuf; [done|]. by apply Hl.
Qed.

(** ** Queueing *)
Definition noted_state s ds n : reass A W := MkRS (reassdatagrams s) (table ds) n (rheap s) (below s).

Lemma note_entry hdr f d nx h : incoming h f hdr → last_fragment hdr = true →
  set_datagram_len (u16 (frag_offset hdr + frag_len hdr)) (set_rflags (Z.lor (rflags (entry nx d)) IP_REASS_FLAG_LASTFRAG) (entry nx d))
  = entry nx (note hdr f d).
Proof.
  intros [B _ Elo Ehi] El. pose proof (fb_range _ _ B) as [R1 R2]. unfold note. rewrite El. rewrite <- Elo, <- Ehi.
  by rewrite u16_id by (unfold is_u16; lia).
Qed.

Lemma queue_fragment_unfold E s ds1 d ds2 f hdr prev :
  reass_ok E s (ds1 ++ d :: ds2) → incoming (rheap s) f hdr →
  ip_reass_pbufcount s + Z.of_nat (length (f_pbufs f)) <= IP_REASS_MAX_PBUFS →
  queue_fragment (d_ipr d) prev hdr (frag_offset hdr) (frag_len hdr) (f_p f) (Z.of_nat (length (f_pbufs f))) s =
    ('(s, complete) ← ip_reass_chain_frag_into_datagram_and_validate (d_ipr d) (f_p f)
       (noted_state s (ds1 ++ note hdr f d :: ds2) (ip_reass_pbufcount s + Z.of_nat (length (f_pbufs f))));
     if complete : bool then finish_datagram (d_ipr d) prev s else Some (s, None)).
Proof.
  intros R In Hn. pose proof (ro_count _ _ _ R) as Ec. unfold queue_fragment, IP_REASS_MAX_PBUFS in *.
  rewrite (u16_id (ip_reass_pbufcount s + _)) by (unfold is_u16; lia). fold (last_fragment hdr). destruct (last_fragment hdr) eqn:El.
  - set (s1 := set_count _ s). pose proof (ro_nodup _ _ _ R) as ND. unfold upd_ipr. change (rdata s1) with (rdata s).
    rewrite (ro_data _ _ _ R), table_lookup by done. cbn [mbind option_bind]. rewrite (note_entry hdr f d _ _ In El).
    rewrite <- (table_update ds1 d (note hdr f d) ds2) by (done || by rewrite note_ipr). done.
  - cbn [mbind option_bind]. unfold noted_state, note. rewrite El. rewrite <- (ro_data _ _ _ R). done.
Qed.

Lemma noted_ok E s ds1 d ds2 f hdr : reass_ok E s (ds1 ++ d :: ds2) →
  reass_ok E (noted_state s (ds1 ++ note hdr f d :: ds2) (ip_reass_pbufcount s)) (ds1 ++ note hdr f d :: ds2).
Proof.
  intros R. apply (reass_same E s ds1 d (note hdr f d) ds2 R (note_ipr _ _ _) (note_fs _ _ _)). rewrite note_hdr.
  apply (ro_hdr _ _ _ R), middle_elem. by left.
Qed.

(** The fragment is thrown away. *)
Lemma chain_dropped E s ds1 d ds2 f hdr n :
  reass_ok E s (ds1 ++ d :: ds2) → incoming (rheap s) f hdr →
  separate (rheap s) (all_pbufs (f :: all_of (ds1 ++ d :: ds2))) → E (f_p f) ≠ 0%nat →
  n = Z.of_nat (length (f_pbufs f)) → ip_reass_pbufcount s + n <= IP_REASS_MAX_PBUFS → inserted (d_fs d) f = None →
  ∃ s', ip_reass_chain_frag_into_datagram_and_validate (d_ipr d) (f_p f) (noted_state s (ds1 ++ d :: ds2) (ip_reass_pbufcount s + n)) =
    Some (s', false) ∧ reass_ok (disown (f_p f) E) s' (ds1 ++ d :: ds2).
Proof.
  intros R In S He En Hn Ei. pose proof R as [Ef Er ND Hh Hq S0 Ec Em K Ho Hl].
  assert (Hd : d ∈ ds1 ++ d :: ds2) by (apply middle_elem; by left).
  pose proof (datagram_separate _ _ _ _ _ S) as Sd.
  pose proof (chain_frag_ok (d_ipr d) (entry (next_ipr ds2) d) f hdr (d_fs d) (noted_state s (ds1 ++ d :: ds2) (ip_reass_pbufcount s + n))
    (table_lookup ds1 d ds2 ND) eq_refl (Hq d Hd) In Sd) as C. rewrite Ei in C. destruct C as (h1 & T & Q1 & B1 & ->). simpl in T.
  pose proof (requeue_ok E s ds1 d ds2 f [] (d_fs d) h1 R S (in_body _ _ _ In) T Q1 ltac:(done) ltac:(by left) He ltac:(simpl; lia)) as R1.
  replace (with_fs (d_fs d) d) with d in R1 by by destruct d. simpl in R1.
  destruct (discard_ok E _ _ f _ R1 (headers_only_separate _ _ _ _ T S) (fb_packet _ _ B1) He) as (h2 & c & E2 & R2).
  rewrite (pbuf_clen_ok _ _ _ _ (fb_packet _ _ B1)). cbn [mbind option_bind]. cbn [rheap] in E2. rewrite E2. cbn [mbind option_bind].
  unfold IP_REASS_MAX_PBUFS in *. rewrite u8_id by (unfold is_u8; lia).
  assert (Eu : u16 (ip_reass_pbufcount s + n - Z.of_nat (length (f_pbufs f))) = ip_reass_pbufcount s + Z.of_nat 0).
  { rewrite u16_id by (unfold is_u16; lia). lia. }
  cbn [noted_state ip_reass_pbufcount reassdatagrams rdata]. rewrite Eu. eexists. split; [done|]. exact R2.
Qed.

(** The fragment is in the queue. *)
Lemma chain_queued E s ds1 d ds2 f hdr n pre suf v :
  reass_ok E s (ds1 ++ d :: ds2) → incoming (rheap s) f hdr →
  separate (rheap s) (all_pbufs (f :: all_of (ds1 ++ d :: ds2))) → E (f_p f) ≠ 0%nat → ends_well d f →
  n = Z.of_nat (length (f_pbufs f)) → ip_reass_pbufcount s + n <= IP_REASS_MAX_PBUFS → inserted (d_fs d) f = Some (pre, suf, v) →
  ∃ s', ip_reass_chain_frag_into_datagram_and_validate (d_ipr d) (f_p f) (noted_state s (ds1 ++ d :: ds2) (ip_reass_pbufcount s + n)) =
    Some (s', complete_with d pre f suf v) ∧ reass_ok E s' (ds1 ++ with_fs (pre ++ f :: suf) d :: ds2).
Proof.
  intros R In S He Hend En Hn Ei. pose proof R as [Ef Er ND Hh Hq S0 Ec Em K Ho Hl].
  assert (Hd : d ∈ ds1 ++ d :: ds2) by (apply middle_elem; by left).
  pose proof (datagram_separate _ _ _ _ _ S) as Sd.
  pose proof (chain_frag_ok (d_ipr d) (entry (next_ipr ds2) d) f hdr (d_fs d) (noted_state s (ds1 ++ d :: ds2) (ip_reass_pbufcount s + n))
    (table_lookup ds1 d ds2 ND) eq_refl (Hq d Hd) In Sd) as C. rewrite Ei in C.
  destruct C as (h1 & T & Q1 & ->). { intros Hc. by destruct (Hend _ _ _ Ei Hc) as (H1 & H2 & _). }
  eexists. split; [done|].
  pose proof (inserted_split _ _ _ _ _ Ei) as Efs.
  assert (Hp : pre ++ f :: suf ≡ₚ [f] ++ d_fs d) by (rewrite Efs; simpl; by rewrite Permutation_middle).
  assert (E1 : length (f_pbufs f) = length (all_pbufs [f])) by (unfold all_pbufs; simpl; by rewrite app_nil_r). subst n. rewrite E1 in *.
  pose proof (requeue_ok E s ds1 d ds2 f [f] _ h1 R S (in_body _ _ _ In) T Q1 Hp ltac:(by right) He Hn) as R1.
  unfold queued, noted_state. cbn [rdata reassdatagrams ip_reass_pbufcount].
  change (set_rp _ _) with (entry (next_ipr ds2) (with_fs (pre ++ f :: suf) d)). rewrite <- (table_update ds1 d (with_fs (pre ++ f :: suf) d) ds2 ND eq_refl). exact R1.
Qed.

Lemma queue_fragment_ok E s ds1 d ds2 f hdr prev :
  reass_ok E s (ds1 ++ d :: ds2) → incoming (rheap s) f hdr →
  separate (rheap s) (all_pbufs (f :: all_of (ds1 ++ d :: ds2))) → E (f_p f) ≠ 0%nat → ends_well (note hdr f d) f →
  prev = d_ipr <$> last ds1 ∨ d_fs d = [] →
  ip_reass_pbufcount s + Z.of_nat (length (f_pbufs f)) <= IP_REASS_MAX_PBUFS →
  ∃ s' E' o, queue_fragment (d_ipr d) prev hdr (frag_offset hdr) (frag_len hdr) (f_p f) (Z.of_nat (length (f_pbufs f))) s = Some (s', o) ∧
    reass_ok E' s' (queue_step ds1 (note hdr f d) ds2 f).1 ∧
    match (queue_step ds1 (note hdr f d) ds2 f).2 with Some d' => delivered d' (rheap s') E' o | None => o = None end.
Proof.
  intros R0 In S He Hend Hprev Hn. rewrite (queue_fragment_unfold E s ds1 d ds2 f hdr prev R0 In Hn).
  pose proof (noted_ok E s ds1 d ds2 f hdr R0) as R. rewrite <- (note_ipr hdr f d). unfold queue_step.
  pose proof (note_fs hdr f d) as Hfs. rewrite <- Hfs in Hprev. rewrite <- (all_of_same ds1 d (note hdr f d) ds2 Hfs) in S. clear Hfs R0.
  set (d1 := note hdr f d) in *. clearbody d1. clear d. set (s1 := noted_state s _ _) in R.
  destruct (inserted (d_fs d1) f) as [[[pre suf] v]|] eqn:Ei; cycle 1.
  { destruct (chain_dropped E s1 ds1 d1 ds2 f hdr _ R In S He eq_refl Hn Ei) as (s2 & E2 & R2).
    change (noted_state s1) with (noted_state s) in E2. change (ip_reass_pbufcount s1) with (ip_reass_pbufcount s) in E2.
    rewrite E2. exists s2, (disown (f_p f) E), None. done. }
  destruct (chain_queued E s1 ds1 d1 ds2 f hdr _ pre suf v R In S He Hend eq_refl Hn Ei) as (s2 & E2 & R2).
  change (noted_state s1) with (noted_state s) in E2. change (ip_reass_pbufcount s1) with (ip_reass_pbufcount s) in E2.
  rewrite E2. cbn [mbind option_bind]. destruct (complete_with d1 pre f suf v) eqn:Hc; [|by exists s2, E, None].
  destruct (Hend _ _ _ Ei Hc) as (Hl2 & _ & Ht). destruct (pre ++ f :: suf) as [|g fs] eqn:Eg; [by destruct pre|].
  assert (Hp : prev = d_ipr <$> last ds1).
  { destruct Hprev as [|Hnil]; [done|]. pose proof (inserted_split _ _ _ _ _ Ei) as Efs. rewrite Hnil in Efs.
    symmetry in Efs. apply app_eq_nil in Efs as [-> ->]. injection Eg as <- <-. simpl in Hl2. lia. }
  destruct (finish_ok E s2 ds1 _ ds2 g fs R2 eq_refl Ht) as (s3 & E3 & a & F1 & F2 & F3 & F4 & F5).
  exists s3, E3, (Some (f_p g)). subst prev. split; [exact F1|]. split; [exact F2|]. exists g, a. done.
Qed.
End state.
