(* ===== verification/IpReassUse.v ===== *)
(** * [ip_reass]: a fragment arrives

    The refinement of [ip_reass] by the list of datagrams, for a fragment for
    which there is room. *)
From S2P Require Import Prelude LwipDef Chksum Memp Pbuf PbufRef PbufOwn PbufData IpReass IpReassOk.
From S2P Require Import IpReassJoin IpReassMain.
Local Open Scope Z_scope.

(** ** The datagram of a fragment *)
Definition belongs (hdr : list Z) (d : dgram) : bool := IP_ADDRESSES_AND_ID_MATCH (d_hdr d) hdr.
Definition at_offset_0 (hdr : list Z) : bool := Z.land (lwip_ntohs (IPH_OFFSET hdr)) IP_OFFMASK =? 0.

(** The header of the first fragment is kept. *)
Definition greet (hdr : list Z) (d : dgram) : dgram :=
  if at_offset_0 hdr && negb (at_offset_0 (d_hdr d)) then with_hdr hdr d else d.
Definition fresh (ipr : Z) (hdr : list Z) : dgram := MkD ipr hdr 0 0 IP_REASS_MAXAGE [].

Lemma greet_ipr hdr d : d_ipr (greet hdr d) = d_ipr d.
Proof. unfold greet. by destruct (_ && _). Qed.

Lemma greet_fs hdr d : d_fs (greet hdr d) = d_fs d.
Proof. unfold greet. by destruct (_ && _). Qed.

Section use.
Context {A W : Type} `{HL : ArenaLaws A} `{HW : Owns W}.
Context (icmp_time_exceeded : Z → Z → W * heap A → option (W * heap A)).
Implicit Types (h : heap A) (s : reass A W) (d : dgram) (ds : list dgram) (E : Z → nat).

Inductive target h (hdr : list Z) ds : list dgram → dgram → list dgram → Prop :=
  | target_known ds1 d ds2 : ds = ds1 ++ d :: ds2 → belongs hdr d = true → (∀ d0, d0 ∈ ds1 → belongs hdr d0 = false) →
      target h hdr ds ds1 (greet hdr d) ds2
  | target_new ipr ar : (∀ d, d ∈ ds → belongs hdr d = false) → memp_malloc MEMP_REASSDATA (arena h) = Some (ipr, ar) →
      target h hdr ds [] (fresh ipr hdr) ds.

Lemma find_loop_ok hdr s ds2 : ∀ ds1 fuel ds0,
  rdata s = table (ds0 ++ ds1 ++ ds2) → NoDup (d_ipr <$> ds0 ++ ds1 ++ ds2) → (∀ d0, d0 ∈ ds1 → belongs hdr d0 = false) →
  match ds2 with d :: _ => belongs hdr d = true | [] => True end → (length ds1 < fuel)%nat ∨ ds2 = [] ∧ (length ds1 ≤ fuel)%nat →
  find_loop fuel hdr (next_ipr (ds1 ++ ds2)) (d_ipr <$> last ds0) s = Some (next_ipr ds2, d_ipr <$> last (ds0 ++ ds1)).
Proof.
  induction ds1 as [|d1 ds1 IH]; intros fuel ds0 Er ND Hn Hm Hf.
  - rewrite app_nil_r. simpl in *. destruct ds2 as [|d ds2]; [by destruct fuel|]. destruct fuel as [|fuel]; [naive_solver lia|].
    cbn [find_loop next_ipr]. rewrite Er, table_lookup by done. cbn [mbind option_bind iphdr entry]. fold (belongs hdr d). by rewrite Hm.
  - destruct fuel as [|fuel]; [naive_solver lia|]. cbn [find_loop next_ipr app]. simpl in Er, ND. rewrite Er, table_lookup by done.
    cbn [mbind option_bind iphdr rnext entry]. fold (belongs hdr d1). rewrite Hn by (by left).
    replace (Some (d_ipr d1)) with (d_ipr <$> last (ds0 ++ [d1])) by (by rewrite last_snoc).
    rewrite IH.
    + by rewrite <- app_assoc.
    + by rewrite <- app_assoc.
    + by rewrite <- app_assoc.
    + intros d0 Hd0. apply Hn. by right.
    + done.
    + naive_solver lia.
Qed.

Lemma table_size ds : NoDup (d_ipr <$> ds) → size (table ds) = length ds.
Proof.
  induction ds as [|d ds IH]; simpl; [by rewrite map_size_empty|]. intros [Hn ND]%NoDup_cons.
  rewrite map_size_insert_None by (by apply table_none). by rewrite IH.
Qed.

Lemma greet_ok E s ds1 d ds2 hdr : reass_ok E s (ds1 ++ d :: ds2) → length hdr = 20%nat →
  (if at_offset_0 hdr && negb (at_offset_0 (d_hdr d)) then upd_ipr (d_ipr d) (set_iphdr hdr) s else Some s) =
    Some (set_rdata (table (ds1 ++ greet hdr d :: ds2)) s) ∧
  reass_ok E (set_rdata (table (ds1 ++ greet hdr d :: ds2)) s) (ds1 ++ greet hdr d :: ds2).
Proof.
  intros R Hl. assert (Hd : length (d_hdr d) = 20%nat) by (apply (ro_hdr _ _ _ R), middle_elem; by left). unfold greet.
  destruct (_ && _).
  - split; [by apply (upd_middle E s ds1 d (with_hdr hdr d) ds2)|]. by apply (reass_same E s ds1 d (with_hdr hdr d) ds2).
  - split; [|by apply (reass_same E s ds1 d d ds2)]. rewrite <- (ro_data _ _ _ R). by destruct s.
Qed.

(** A new structure, in front of the list. *)
Lemma fresh_datagram_ok E s ds hdr ipr ar : reass_ok E s ds → length hdr = 20%nat → memp_malloc MEMP_REASSDATA (arena (rheap s)) = Some (ipr, ar) →
  reass_ok E (MkRS (Some ipr) (table (fresh ipr hdr :: ds)) (ip_reass_pbufcount s) (with_arena ar (rheap s)) (below s)) (fresh ipr hdr :: ds).
Proof.
  intros R Hl Em. pose proof R as [Ef Er ND Hh Hq S Ec Ex K Ho Hp]. destruct (memp_malloc_fresh _ _ _ _ Em) as (Hn & Ea & _ & _).
  assert (Hne : ∀ d, d ∈ ds → d_ipr d ≠ ipr) by (intros d Hd E0; apply Hp in Hd; rewrite E0, Hn in Hd; done).
  constructor; simpl; try done.
  - constructor; [|done]. intros (d & E0 & Hd)%list_elem_of_fmap. by apply (Hne d Hd).
  - intros d [->|Hd]%elem_of_cons; [done|]. by apply Hh.
  - intros d [->|Hd]%elem_of_cons; [done|]. by apply with_arena_queue, Hq.
  - destruct K as [K1 K2 K3 K4 K5]. constructor; try done. intros p b Hpb. simpl in *. pose proof (K4 p b Hpb) as Hb.
    rewrite Ea, lookup_insert_ne; [done|]. intros ->. by rewrite Hn in Hb.
  - intros d [->|Hd]%elem_of_cons; simpl; rewrite Ea; [by rewrite lookup_insert_eq|].
    rewrite lookup_insert_ne; [by apply Hp|]. apply not_eq_sym. by apply Hne.
Qed.

Lemma incoming_arena h ar f hdr : incoming h f hdr → incoming (with_arena ar h) f hdr.
Proof.
  intros [B Hh Elo Ehi]. constructor; try done. eapply (agree_body (f_pbufs f)); [|done|exact B]. by intros p _.
Qed.

Lemma incoming_hdr h f hdr : incoming h f hdr → length hdr = 20%nat ∧ ∃ b, pbufs h !! f_p f = Some b ∧ hdr = octets_at h (payload b) 20.
Proof.
  intros In. pose proof (in_hdr _ _ _ In) as Hh. destruct (fb_packet _ _ (in_body _ _ _ In)) as (_ & b & Hb & _).
  unfold iphdr_of, payload_of in Hh. rewrite Hb in Hh. simpl in Hh. injection Hh as <-. split; [apply octets_at_length|]. by exists b.
Qed.

(** ** The function *)
Lemma ip_reass_ok E s ds f hdr ds1 d ds2 :
  reass_ok E s ds → incoming (rheap s) f hdr → IPH_HL hdr = 5 →
  separate (rheap s) (all_pbufs (f :: all_of ds)) → E (f_p f) ≠ 0%nat →
  ip_reass_pbufcount s + Z.of_nat (length (f_pbufs f)) <= IP_REASS_MAX_PBUFS →
  target (rheap s) hdr ds ds1 d ds2 → ends_well (note hdr f d) f →
  ∃ s' E' o, ip_reass icmp_time_exceeded (f_p f) s = Some (s', o) ∧
    reass_ok E' s' (queue_step ds1 (note hdr f d) ds2 f).1 ∧
    match (queue_step ds1 (note hdr f d) ds2 f).2 with Some d' => delivered d' (rheap s') E' o | None => o = None end.
Proof.
  intros R In Hhl S He Hn Ht Hend. destruct (incoming_hdr _ _ _ In) as (Hl20 & b & Hb & Ehdr).
  pose proof (ro_count _ _ _ R) as Ec. unfold ip_reass, payload_of. rewrite Hb. cbn [mbind option_bind].
  change (Z.to_nat IP_HLEN) with 20%nat. rewrite <- Ehdr.
  rewrite Hhl. change (negb (5 * 4 =? IP_HLEN)) with false. cbv iota.
  rewrite (pbuf_clen_ok _ _ _ _ (fb_packet _ _ (in_body _ _ _ In))). cbn [mbind option_bind].
  unfold IP_REASS_MAX_PBUFS in *. rewrite u8_id by (unfold is_u8; lia).
  rewrite (proj2 (Z.ltb_ge _ _) Hn). cbn [mbind option_bind negb]. rewrite <- Ehdr.
  rewrite (ro_first _ _ _ R), (ro_data _ _ _ R), table_size by apply (ro_nodup _ _ _ R).
  destruct Ht as [ds1 d ds2 Eds Hm Hno|ipr ar Hno Em].
  - subst ds. rewrite length_app. pose proof (find_loop_ok hdr s (d :: ds2) ds1 (length ds1 + length (d :: ds2)) [] (ro_data _ _ _ R) (ro_nodup _ _ _ R) Hno Hm) as F.
    simpl last in F. simpl app in F. cbn [fmap option_fmap option_map] in F. rewrite F by (left; simpl; lia). clear F. cbn [mbind option_bind next_ipr].
    rewrite table_lookup by apply (ro_nodup _ _ _ R). cbn [mbind option_bind iphdr entry].
    destruct (greet_ok E s ds1 d ds2 hdr R Hl20) as [Eg Rg]. unfold at_offset_0 in Eg. rewrite Eg. cbn [mbind option_bind].
    rewrite <- (greet_ipr hdr d).
    assert (Eall : all_of (ds1 ++ greet hdr d :: ds2) = all_of (ds1 ++ d :: ds2)) by apply all_of_same, greet_fs.
    apply (queue_fragment_ok E _ ds1 (greet hdr d) ds2 f hdr _ Rg In); [by rewrite Eall|done|done|by left|done].
  - pose proof (find_loop_ok hdr s [] ds (length ds) []) as F. rewrite app_nil_r in F. simpl last in F. simpl app in F.
    cbn [fmap option_fmap option_map next_ipr] in F. rewrite (F (ro_data _ _ _ R) (ro_nodup _ _ _ R) Hno I) by (by right). clear F.
    cbn [mbind option_bind]. unfold ip_reass_enqueue_new_datagram, reassdata_malloc. rewrite Em. cbn [mbind option_bind].
    pose proof (fresh_datagram_ok E s ds hdr ipr ar R Hl20 Em) as Rg.
    replace (set_first _ _) with (MkRS (Some ipr) (table (fresh ipr hdr :: ds)) (ip_reass_pbufcount s) (with_arena ar (rheap s)) (below s)).
    + change (octets_at (rheap _) (payload b) 20) with (octets_at (rheap s) (payload b) 20). rewrite <- Ehdr.
      apply (queue_fragment_ok E _ [] (fresh ipr hdr) ds f hdr _ Rg); [by apply incoming_arena|exact S|done|done|by right|done].
    + unfold set_first, set_rdata, set_rheap. simpl. rewrite (ro_data _ _ _ R), (ro_first _ _ _ R). unfold entry, fresh. simpl.
      do 2 f_equal. rewrite Ehdr. done.
Qed.
End use.
