(* ===== verification/IpReassWhole.v ===== *)
(** * What is reassembled is what was sent

    A datagram of which every fragment is a piece of one cut of one original:
    the queue stays sorted and apart, and the datagram is complete when every
    piece is there, with the octets of the original. *)
From Stdlib Require Import Sorted Btauto.
From stdpp Require Import sorting.
From S2P Require Import Prelude LwipDef Chksum Memp Pbuf PbufRef PbufOwn PbufData IpReass IpReassOk.
From S2P Require Import IpReassJoin IpReassMain IpReassUse.
Local Open Scope Z_scope.

(** ** Cutting [lo .. n) in pieces *)
Fixpoint tiles (lo : Z) (cuts : list (Z * Z)) (n : Z) : Prop :=
  match cuts with [] => lo = n | (a, b) :: c => a = lo ∧ a < b ∧ tiles b c n end.

Lemma tiles_bounds : ∀ cuts lo n, tiles lo cuts n → lo <= n ∧ ∀ a b, (a, b) ∈ cuts → lo <= a ∧ a < b ∧ b <= n.
Proof.
  induction cuts as [|[a b] c IH]; intros lo n; simpl; [intros ->; split; [lia|by intros ? ? ?%elem_of_nil]|].
  intros (-> & Hb & T). destruct (IH _ _ T) as [Hn Hc]. split; [lia|]. intros x y [[= -> ->]|Hx]%elem_of_cons; [lia|].
  destruct (Hc x y Hx). lia.
Qed.

Lemma cuts_apart : ∀ cuts lo n a b c d, tiles lo cuts n → (a, b) ∈ cuts → (c, d) ∈ cuts → a = c ∧ b = d ∨ b <= c ∨ d <= a.
Proof.
  induction cuts as [|[x y] cuts IH]; intros lo n a b c d; simpl; [by intros _ ?%elem_of_nil|].
  intros (-> & Hy & T) [[= -> ->]|Ha]%elem_of_cons [[= -> ->]|Hc]%elem_of_cons; [lia| | |by eapply IH];
    destruct (tiles_bounds _ _ _ T) as [_ B]; [destruct (B _ _ Hc)|destruct (B _ _ Ha)]; lia.
Qed.

Definition span (f : frag) : Z * Z := (f_lo f, f_hi f).
Definition before (f g : frag) : Prop := f_hi f <= f_lo g.
Definition chain (fs : list frag) : bool := match fs with [] => true | g :: gs => contiguous g gs end.
Definition slice (lo hi : Z) (l : list Z) : list Z := take (Z.to_nat (hi - lo)) (drop (Z.to_nat lo) l).

Lemma chain_app pre f suf : chain (pre ++ f :: suf) = chain pre && no_hole pre (f_lo f) && contiguous f suf.
Proof.
  destruct pre as [|g gs]; [done|]. simpl. revert g. induction gs as [|x gs IH]; intros g; [done|].
  cbn [contiguous app]. rewrite IH. rewrite <- !andb_assoc. do 2 f_equal.
Qed.

Section pieces.
Context (orig : list Z) (cuts : list (Z * Z)) (n : Z) (Hn : n = Z.of_nat (length orig)) (HT : tiles 0 cuts n).
Implicit Types (f g : frag) (d : dgram) (fs : list frag).

Definition piece f : Prop := span f ∈ cuts ∧ f_data f = slice (f_lo f) (f_hi f) orig.

Lemma pieces_apart f g : piece f → piece g → span f = span g ∨ before f g ∨ before g f.
Proof using Hn HT.
  intros [Hf _] [Hg _]. unfold span, before in *. destruct (cuts_apart _ _ _ _ _ _ _ HT Hf Hg) as [[-> ->]|[?|?]]; auto.
Qed.

Lemma piece_bounds f : piece f → 0 <= f_lo f ∧ f_lo f < f_hi f ∧ f_hi f <= n.
Proof using Hn HT. intros [Hf _]. destruct (tiles_bounds _ _ _ HT) as [_ B]. by apply B. Qed.

(** ** Where a piece goes *)
Lemma place_pieces f : piece f → ∀ suf valid pre,
  (∀ g, g ∈ pre ++ suf → piece g) → (∀ g, g ∈ pre → before g f) → StronglySorted before (pre ++ suf) →
  match place valid pre suf f with
  | None => ∃ g, g ∈ suf ∧ span g = span f
  | Some (pre', suf', v) => (∀ g, g ∈ pre' → before g f) ∧ (∀ g, g ∈ suf' → before f g) ∧ (valid = chain pre → v = chain pre')
  end.
Proof using Hn HT.
  intros Pf. induction suf as [|g suf IH]; intros valid pre Pg Hpre S; [split_and!; [done|by intros ? ?%elem_of_nil|done]|].
  assert (Hg : piece g) by (apply Pg; set_solver). pose proof (piece_bounds f Pf) as (F1 & F2 & F3).
  pose proof (piece_bounds g Hg) as (G1 & G2 & G3). pose proof (pieces_apart f g Pf Hg) as Ap. unfold span, before in *. simpl.
  destruct (Z.ltb_spec (f_lo f) (f_lo g)) as [Hlt|Hge].
  - assert (Hfg : f_hi f <= f_lo g) by (destruct Ap as [[= ? ?]|[?|?]]; lia).
    assert (R : (∀ g0, g0 ∈ pre → f_hi g0 <= f_lo f) ∧ (∀ g0, g0 ∈ g :: suf → f_hi f <= f_lo g0) ∧ (valid = chain pre → valid = chain pre)).
    { split_and!; [done| |done]. intros x [->|Hx]%elem_of_cons; [done|]. apply StronglySorted_app in S as (_ & _ & S).
      apply StronglySorted_cons in S as [S _]. rewrite Forall_forall in S. pose proof (S x Hx). unfold before in *. lia. }
    destruct (last pre) as [pv|] eqn:El; [|exact R]. pose proof (Hpre pv (last_in _ _ El)).
    rewrite (proj2 (Z.ltb_ge _ _)), (proj2 (Z.ltb_ge _ _)) by lia. exact R.
  - destruct (Z.eqb_spec (f_lo f) (f_lo g)) as [E|Hne].
    { exists g. split; [by left|]. destruct Ap as [[= ? ?]|[?|?]]; [congruence|lia..]. }
    assert (Hgf : f_hi g <= f_lo f) by (destruct Ap as [[= ? ?]|[?|?]]; lia). rewrite (proj2 (Z.ltb_ge _ _)) by lia.
    specialize (IH (valid && no_hole pre (f_lo g)) (pre ++ [g])). rewrite <- app_assoc in IH.
    assert (Hpre' : ∀ g0, g0 ∈ pre ++ [g] → f_hi g0 <= f_lo f) by (intros x [Hx| ->%list_elem_of_singleton]%elem_of_app; auto).
    specialize (IH Pg Hpre' S). destruct (place _ _ suf f) as [[[pre' suf'] v]|].
    + destruct IH as (I1 & I2 & I3). split_and!; [done..|]. intros ->. apply I3. by rewrite chain_app, andb_true_r.
    + destruct IH as (x & Hx & Ex). exists x. split; [by right|done].
Qed.

(** ** Complete queues *)
Lemma spans_whole : ∀ fs c lo, tiles lo c n → (∀ g, g ∈ fs → span g ∈ c) → StronglySorted before fs →
  match fs with g :: _ => f_lo g = lo | [] => False end → chain fs = true → (∃ g, last fs = Some g ∧ f_hi g = n) → span <$> fs = c.
Proof.
  induction fs as [|g fs IH]; intros c lo T Hin S Hlo Hc Hl; [done|]. pose proof (Hin g ltac:(by left)) as Hg. unfold span in Hg.
  destruct c as [|[a b] c]; [by apply elem_of_nil in Hg|]. destruct T as (-> & Hab & T). destruct (tiles_bounds _ _ _ T) as [Hbn B].
  assert (Eg : span g = (lo, b)). { apply elem_of_cons in Hg as [|Hg]; [done|]. destruct (B _ _ Hg). lia. }
  apply StronglySorted_cons in S as [Sg S]. rewrite Forall_forall in Sg. unfold before in Sg. rewrite fmap_cons, Eg. f_equal.
  injection Eg as _ Eb. destruct fs as [|x fs].
  - destruct Hl as (y & [= <-] & Ey). destruct c as [|[a' b'] c]; [done|]. destruct (B a' b' ltac:(by left)). simpl in T. lia.
  - apply (IH c b T); [|done| | |by destruct Hl as (y & Hy & Ey); exists y].
    + intros y Hy. pose proof (Hin y ltac:(by right)) as H. apply elem_of_cons in H as [H|]; [|done].
      injection H as Hy1 _. pose proof (Sg y Hy). lia.
    + simpl in Hc. apply andb_true_iff in Hc as [Hc _]. apply Z.eqb_eq in Hc. lia.
    + simpl in Hc. by apply andb_true_iff in Hc as [_ Hc].
Qed.

Lemma spans_chain : ∀ fs c lo, tiles lo c n → span <$> fs = c → c ≠ [] →
  match fs with g :: _ => f_lo g = lo | [] => False end ∧ chain fs = true ∧ (∃ g, last fs = Some g ∧ f_hi g = n) ∧ total fs = n - lo.
Proof.
  induction fs as [|g fs IH]; intros c lo T <- Hne; [done|]. simpl in T. destruct T as (Elo & Hlt & T). split; [done|].
  destruct fs as [|x fs].
  - simpl in *. split; [done|]. split; [by exists g|lia].
  - destruct (IH _ _ T eq_refl ltac:(done)) as (E1 & E2 & (y & Hy & Ey) & E3). split; [|split; [by exists y|]].
    + cbn [chain contiguous]. simpl in E2. rewrite E2, andb_true_r. apply Z.eqb_eq. congruence.
    + change (total (g :: x :: fs)) with (f_hi g - f_lo g + total (x :: fs)). lia.
Qed.

Lemma spans_data : ∀ fs c lo, tiles lo c n → 0 <= lo → span <$> fs = c → (∀ g, g ∈ fs → f_data g = slice (f_lo g) (f_hi g) orig) →
  all_data fs = drop (Z.to_nat lo) orig.
Proof using Hn.
  induction fs as [|g fs IH]; intros c lo T Hlo <- Hd; simpl in T.
  - subst lo. rewrite Hn, Nat2Z.id. by rewrite drop_ge.
  - destruct T as (Elo & Hlt & T). unfold all_data in *. rewrite fmap_cons. simpl. rewrite (IH _ _ T) by (try lia; try done; intros x Hx; apply Hd; by right).
    rewrite Hd by (by left). unfold slice. rewrite Elo. replace (Z.to_nat (f_hi g)) with (Z.to_nat lo + Z.to_nat (f_hi g - lo))%nat by lia.
    rewrite <- drop_drop. apply take_drop.
Qed.
(** ** A datagram of pieces *)
Definition ends fs : Prop := ∃ g, g ∈ fs ∧ f_hi g = n.
Definition flagged d : bool := negb (Z.land (d_flags d) IP_REASS_FLAG_LASTFRAG =? 0).

Record genuine d : Prop := {
  g_piece f : f ∈ d_fs d → piece f;
  g_sorted : StronglySorted before (d_fs d);
  g_flag : flagged d = true ↔ ends (d_fs d);
  g_len : ends (d_fs d) → d_len d = n }.

(** No hole in front of a fragment that comes between others. *)
Definition tight (pre suf : list frag) f : Prop := suf = [] ∨ no_hole pre (f_lo f) = true.

Lemma genuine_fresh ipr hdr : genuine (fresh ipr hdr).
Proof.
  constructor; simpl; [by intros ? ?%elem_of_nil|constructor| |]; unfold ends; [|by intros (g & ?%elem_of_nil & _)].
  split; [done|by intros (g & ?%elem_of_nil & _)].
Qed.

Lemma genuine_greet hdr d : genuine d → genuine (greet hdr d).
Proof. unfold greet. destruct (_ && _); [|done]. by intros [? ? ? ?]. Qed.

Lemma flagged_note hdr f d : flagged (note hdr f d) = last_fragment hdr || flagged d.
Proof.
  unfold note. destruct (last_fragment hdr); [|done]. unfold flagged, IP_REASS_FLAG_LASTFRAG. simpl. apply negb_true_iff, Z.eqb_neq.
  rewrite Z.land_lor_distr_l. intros [_ E]%Z.lor_eq_0_iff. done.
Qed.

Lemma note_genuine hdr f d fs : genuine d → (∀ g, g ∈ fs → piece g) → StronglySorted before fs → d_fs d ⊆ fs →
  (∀ g, g ∈ fs → g = f ∨ g ∈ d_fs d) → (last_fragment hdr = true ↔ f_hi f = n) → (f_hi f = n → ends fs) →
  genuine (with_fs fs (note hdr f d)).
Proof.
  intros [G1 G2 G3 G4] Pf S Hsub Hin El Hf. assert (He : ends fs → last_fragment hdr = true ∨ ends (d_fs d)).
  { intros (g & Hg & Eg). destruct (Hin g Hg) as [->|Hd]; [left; tauto|right; by exists g]. }
  constructor; simpl; [done|done| |].
  - change (flagged (with_fs fs (note hdr f d))) with (flagged (note hdr f d)). rewrite flagged_note, orb_true_iff. split.
    + intros [Hl|(g & Hg & Eg)%G3]; [apply Hf; tauto|]. exists g. auto.
    + intros [|]%He; tauto.
  - intros He2. unfold note. destruct (last_fragment hdr) eqn:Ell; simpl; [tauto|]. apply G4. by destruct (He He2).
Qed.

Lemma sorted_insert pre f suf : StronglySorted before (pre ++ suf) → (∀ g, g ∈ pre → before g f) → (∀ g, g ∈ suf → before f g) →
  StronglySorted before (pre ++ f :: suf).
Proof.
  intros (H1 & H2 & H3)%StronglySorted_app Hp Hs. apply StronglySorted_app. split_and!; [|done|].
  - intros x y Hx [->|Hy]%elem_of_cons; auto.
  - apply StronglySorted_cons. split; [by apply Forall_forall|done].
Qed.

Lemma sorted_last fs : (∀ g, g ∈ fs → piece g) → StronglySorted before fs → ends fs → ∃ g, last fs = Some g ∧ f_hi g = n.
Proof using Hn HT.
  intros Pf S (g & Hg & Eg). destruct (last fs) as [l|] eqn:El; [|by apply last_None in El as ->; apply elem_of_nil in Hg].
  exists l. split; [done|]. pose proof (last_in _ _ El) as Hl. apply last_Some in El as (fs0 & ->).
  apply elem_of_app in Hg as [Hg|Hg%list_elem_of_singleton]; [|congruence]. apply StronglySorted_app in S as (S & _).
  pose proof (S g l Hg ltac:(by left)) as B. unfold before in B. pose proof (piece_bounds l (Pf l Hl)). lia.
Qed.

Lemma sorted_total fs : (∀ g, g ∈ fs → piece g) → StronglySorted before fs → total fs <= n.
Proof using Hn HT.
  intros Pf S. assert (H : ∀ fs, (∀ g, g ∈ fs → piece g) → StronglySorted before fs → ∀ lo, 0 <= lo <= n → (∀ g, g ∈ fs → lo <= f_lo g) → total fs <= n - lo).
  { clear fs Pf S. induction fs as [|g fs IH]; intros Pf S lo Hlo Hg; simpl; [lia|]. apply StronglySorted_cons in S as [Sg S].
    rewrite Forall_forall in Sg. pose proof (piece_bounds g (Pf g ltac:(by left))). pose proof (Hg g ltac:(by left)).
    assert (total fs <= n - f_hi g); [|lia]. apply IH; [intros; apply Pf; by right|done|lia|exact Sg]. }
  destruct (tiles_bounds _ _ _ HT) as [Hpos _]. rewrite <- (Z.sub_0_r n). apply H; [done|done|lia|].
  intros g Hg. pose proof (piece_bounds g (Pf g Hg)). lia.
Qed.

Lemma inserted_pieces d f : genuine d → piece f →
  match inserted (d_fs d) f with
  | None => ∃ g, g ∈ d_fs d ∧ span g = span f
  | Some (pre, suf, v) => d_fs d = pre ++ suf ∧ (∀ g, g ∈ pre → before g f) ∧ (∀ g, g ∈ suf → before f g) ∧
      v = chain pre && (match suf with [] => no_hole pre (f_lo f) | _ => true end)
  end.
Proof using Hn HT.
  intros G Pf. pose proof (place_pieces f Pf (d_fs d) true [] (g_piece d G) ltac:(by intros ? ?%elem_of_nil) (g_sorted d G)) as P.
  unfold inserted. destruct (place true [] (d_fs d) f) as [[[pre suf] v]|] eqn:Ep; [|done].
  pose proof (place_split _ _ _ _ _ _ _ Ep) as Efs. simpl in Efs. destruct P as (P1 & P2 & P3).
  destruct suf; (split_and!; [done..|]); rewrite (P3 eq_refl); [done|by rewrite andb_true_r].
Qed.

Lemma spans_all : ∀ fs c lo, tiles lo c n → (∀ g, g ∈ fs → span g ∈ c) → StronglySorted before fs → c ⊆ span <$> fs → span <$> fs = c.
Proof.
  intros fs c. revert fs. induction c as [|[a b] c IH]; intros fs lo T Hin S Hs.
  - destruct fs as [|g fs]; [done|]. by destruct (not_elem_of_nil (span g)); apply Hin; left.
  - destruct T as (-> & Hab & T). destruct (tiles_bounds _ _ _ T) as [Hbn B].
    assert (Bl : ∀ g, g ∈ fs → lo <= f_lo g ∧ f_lo g < f_hi g).
    { intros g Hg. pose proof (Hin g Hg) as H. apply elem_of_cons in H as [[= E1 E2]|H]; [lia|]. destruct (B _ _ H). lia. }
    assert (H0 : (lo, b) ∈ span <$> fs) by (apply Hs; by left). destruct fs as [|g fs]; [by apply elem_of_nil in H0|].
    apply StronglySorted_cons in S as [Sg S]. rewrite Forall_forall in Sg. unfold before in Sg.
    assert (Eg : span g = (lo, b)).
    { apply elem_of_cons in H0 as [->|(x & Ex & Hx)%list_elem_of_fmap]; [done|]. injection Ex as E1 E2.
      pose proof (Sg x Hx). destruct (Bl g); [by left|]. lia. }
    rewrite fmap_cons, Eg. f_equal. injection Eg as E1 E2. apply (IH _ b); [done| |done|].
    + intros x Hx. pose proof (Hin x ltac:(by right)) as H. apply elem_of_cons in H as [[= E3 E4]|H]; [|done]. pose proof (Sg x Hx). lia.
    + intros [x y] Hx. pose proof (Hs (x, y) ltac:(by right)) as H. apply elem_of_cons in H as [H|H]; [|done].
      injection H as E3 E4. destruct (B _ _ Hx). lia.
Qed.

Context (Hmax : n < 65516) (Htwo : (2 ≤ length cuts)%nat).

Lemma complete_pieces d f hdr pre suf v :
  genuine d → piece f → (last_fragment hdr = true ↔ f_hi f = n) → inserted (d_fs d) f = Some (pre, suf, v) →
  genuine (with_fs (pre ++ f :: suf) (note hdr f d)) ∧
  (tight pre suf f → complete_with (note hdr f d) pre f suf v = true ↔ cuts ⊆ span <$> pre ++ f :: suf).
Proof using Hn HT Htwo Hmax.
  intros G Pf El Ei. pose proof (inserted_pieces d f G Pf) as I. rewrite Ei in I. destruct I as (Efs & I1 & I2 & ->).
  assert (Pall : ∀ g, g ∈ pre ++ f :: suf → piece g).
  { intros g. rewrite elem_of_app, elem_of_cons. intros [Hg|[->|Hg]]; [|done|]; apply (g_piece d G); rewrite Efs; set_solver. }
  assert (S : StronglySorted before (pre ++ f :: suf)) by (apply sorted_insert; [|done|done]; rewrite <- Efs; apply (g_sorted d G)).
  assert (G' : genuine (with_fs (pre ++ f :: suf) (note hdr f d))).
  { apply note_genuine; [done|done|done|rewrite Efs; set_solver|rewrite Efs; set_solver|done|]. intros E. exists f. split; [set_solver|done]. }
  split; [done|]. intros Ht.
  assert (Ec : complete_with (note hdr f d) pre f suf (chain pre && (match suf with [] => no_hole pre (f_lo f) | _ => true end)) =
    flagged (note hdr f d) && (match pre ++ f :: suf with g :: _ => f_lo g =? 0 | [] => true end) && chain (pre ++ f :: suf)).
  { unfold complete_with, complete. fold (flagged (note hdr f d)). simpl. rewrite chain_app.
    fold (flagged (note hdr f d)). replace (match pre ++ f :: suf with g :: _ => f_lo g =? 0 | [] => true end) with
      (match pre with g :: _ => f_lo g =? 0 | [] => f_lo f =? 0 end) by by destruct pre.
    destruct Ht as [->|Ht]; [|rewrite Ht; destruct suf]; btauto. }
  rewrite Ec, !andb_true_iff. change (flagged (note hdr f d)) with (flagged (with_fs (pre ++ f :: suf) (note hdr f d))).
  rewrite (g_flag _ G'). simpl. destruct (pre ++ f :: suf) as [|g fs] eqn:Eg; [by destruct pre|]. rewrite Z.eqb_eq. split.
  - intros [[He H0] Hc]. rewrite (spans_whole (g :: fs) cuts 0 HT); [done| |done|done|done|by apply sorted_last]. intros x Hx. by apply Pall.
  - intros Hs. assert (Es : span <$> g :: fs = cuts) by (apply (spans_all _ _ 0 HT); [|done..]; intros x Hx; by apply Pall).
    assert (cuts ≠ []) by (by destruct cuts). destruct (spans_chain (g :: fs) cuts 0 HT Es) as (E1 & E2 & (y & Hy & Ey) & _); [done|].
    split; [|done]. split; [|done]. exists y. split; [by apply last_in|done].
Qed.

Lemma pieces_end_well d f hdr : genuine d → piece f → (last_fragment hdr = true ↔ f_hi f = n) → ends_well (note hdr f d) f.
Proof using Hn HT Htwo Hmax.
  intros G Pf El pre suf v Ei Hc. rewrite note_fs in Ei. destruct (complete_pieces d f hdr pre suf v G Pf El Ei) as [G' _].
  unfold complete_with, complete in Hc. rewrite !andb_true_iff in Hc. destruct Hc as [[[Hf _] H0] _].
  change (flagged (with_fs (pre ++ f :: suf) (note hdr f d)) = true) in Hf. rewrite (g_flag _ G') in Hf.
  destruct (sorted_last _ (g_piece _ G') (g_sorted _ G') Hf) as (g & Hg & Eg). simpl in *. split; [|split].
  - destruct (pre ++ f :: suf) as [|x [|y l]] eqn:Eq; [by destruct pre| |simpl; lia]. exfalso. injection Hg as ->.
    assert (pre = [] ∧ suf = []) as [-> ->] by (destruct pre as [|? [|]]; [by injection Eq|done..]). injection Eq as ->. apply Z.eqb_eq in H0.
    destruct Pf as [Pf _]. assert (E1 : cuts = [span g]); [|rewrite E1 in Htwo; simpl in Htwo; lia].
    symmetry. change [span g] with (span <$> [g]). apply (spans_whole [g] cuts 0 HT); [|repeat constructor|done|done|by exists g].
    by intros ? ->%list_elem_of_singleton.
  - exists g. split; [done|]. rewrite Eg. symmetry. by apply (g_len _ G').
  - pose proof (sorted_total _ (g_piece _ G') (g_sorted _ G')). simpl in *. lia.
Qed.
(** What a complete queue holds. *)
Lemma whole_contents d : genuine d → cuts ⊆ span <$> d_fs d → total (d_fs d) = n ∧ all_data (d_fs d) = orig ∧ d_len d = n.
Proof using Hn HT Htwo Hmax.
  intros G Hs. assert (Es : span <$> d_fs d = cuts) by (apply (spans_all _ _ 0 HT); [by intros g Hg; apply (g_piece _ G)|apply (g_sorted _ G)|done]).
  assert (Hne : cuts ≠ []) by (destruct cuts; [simpl in Htwo; lia|done]).
  destruct (spans_chain _ _ _ HT Es Hne) as (_ & _ & (y & Hy & Ey) & Et). split; [lia|]. split.
  - rewrite (spans_data _ _ 0 HT ltac:(done) Es); [done|]. intros g Hg. by apply (g_piece _ G).
  - apply (g_len _ G). exists y. split; [by apply last_in|done].
Qed.

Lemma spans_insert pre f suf : cuts ⊆ span <$> pre ++ f :: suf ↔ cuts ⊆ span <$> f :: pre ++ suf.
Proof. split; intros Hs c Hc; specialize (Hs c Hc); [by rewrite <- Permutation_middle in Hs|by rewrite <- Permutation_middle]. Qed.

(** A fragment that came before. *)
Lemma genuine_again d f hdr : genuine d → piece f → (last_fragment hdr = true ↔ f_hi f = n) →
  (∃ g, g ∈ d_fs d ∧ span g = span f) → genuine (note hdr f d) ∧ (cuts ⊆ span <$> f :: d_fs d → cuts ⊆ span <$> d_fs d).
Proof.
  intros G Pf El (g & Hg & Eg). split.
  - replace (note hdr f d) with (with_fs (d_fs d) (note hdr f d)) by (unfold note; destruct (last_fragment hdr); by destruct d).
    apply note_genuine; [done|apply (g_piece _ G)|apply (g_sorted _ G)|done|by right|done|].
    intros E. exists g. split; [done|]. unfold span in Eg. injection Eg as _ Eg. congruence.
  - intros Hs c Hc. specialize (Hs c Hc). rewrite fmap_cons in Hs. apply elem_of_cons in Hs as [->|Hs]; [|done].
    rewrite <- Eg. by apply list_elem_of_fmap_2.
Qed.
End pieces.
