(* ===== verification/IpReassTimer.v ===== *)
(** * Datagrams that are given up

    [ip_reass_free_complete_datagram] and the timer [ip_reass_tmr], for an
    icmp.c that leaves what it is not given alone. *)
From S2P Require Import Prelude LwipDef Chksum Memp Pbuf PbufRef PbufOwn PbufData IpReass IpReassOk.
From S2P Require Import IpReassJoin IpReassMain IpReassUse.
Local Open Scope Z_scope.

Section timer.
Context {A W : Type} `{HL : ArenaLaws A} `{HW : Owns W}.
Context (icmp_time_exceeded : Z → Z → W * heap A → option (W * heap A)).
Implicit Types (h : heap A) (s : reass A W) (d : dgram) (ds : list dgram) (E : Z → nat) (fs : list frag) (w : W).

(** What the timer needs of icmp.c: a message about the packet [p] may
    allocate packets, queue and free them below; the packets that others own,
    their octets, and the structures of MEMP_REASSDATA, stay. *)
Class QuietIcmp : Prop := quiet_icmp p t w h E : heap_ok h (also (owns w) E) → E p ≠ 0%nat →
  ∃ w' h', icmp_time_exceeded p t (w, h) = Some (w', h') ∧ heap_ok h' (also (owns w') E) ∧
    (∀ x l n, E x ≠ 0%nat → packet h (Some x) l n 0 → agree l h h') ∧
    ∀ i, live (arena h) !! i = Some (POOL MEMP_REASSDATA) → live (arena h') !! i = Some (POOL MEMP_REASSDATA).

(** What is owned when the references to the fragments [fs] are given up. *)
Definition given_up (fs : list frag) E : Z → nat := λ x, (E x - count_occ Z.eq_dec (f_p <$> fs) x)%nat.

Lemma given_up_cons f fs E x : given_up (f :: fs) E x = given_up fs (disown (f_p f) E) x.
Proof using Type.
  unfold given_up, disown. rewrite fmap_cons. case_decide as D.
  - subst. rewrite count_occ_cons_eq by done. lia.
  - by rewrite count_occ_cons_neq.
Qed.

Lemma given_up_app fs gs E x : given_up (fs ++ gs) E x = given_up gs (given_up fs E) x.
Proof using Type. unfold given_up. rewrite fmap_app, count_occ_app. lia. Qed.

Lemma given_up_other fs E x : x ∉ f_p <$> fs → given_up fs E x = E x.
Proof using Type. intros Hx. unfold given_up. rewrite (proj1 (count_occ_not_In _ _ _)); [lia|]. by rewrite <- list_elem_of_In. Qed.

Lemma given_up_ext fs E E' x : E x = E' x → given_up fs E x = given_up fs E' x.
Proof using Type. unfold given_up. lia. Qed.

Lemma also_ok_ext h X E E' : (∀ x, E x = E' x) → heap_ok h (also X E) → heap_ok h (also X E').
Proof using Type. intros HE. apply heap_ok_ext. intros x. unfold also. by rewrite HE. Qed.

(** ** The fragments *)
Definition keeps_reassdata h h' : Prop :=
  ∀ i, live (arena h) !! i = Some (POOL MEMP_REASSDATA) → live (arena h') !! i = Some (POOL MEMP_REASSDATA).

Lemma free_keeps h p E h' c : heap_ok h E → E p ≠ 0%nat → pbuf_free (Some p) h = Some (h', c) → keeps_reassdata h h'.
Proof. intros K He Ef i Hi. rewrite (pbuf_free_live _ _ _ _ _ i K He Ef (reass_block_no_pbuf _ _ _ K Hi)). exact Hi. Qed.

Lemma free_frags_ok X L : ∀ fs fuel c h E,
  heap_ok h (also X E) → queue h None fs → separate h (all_pbufs fs ++ L) → (∀ f, f ∈ fs → E (f_p f) ≠ 0%nat) → (length fs ≤ fuel)%nat →
  0 <= c → c + Z.of_nat (length (all_pbufs fs)) < 256 →
  ∃ h', free_frags fuel (first_or None fs) c h = Some (h', c + Z.of_nat (length (all_pbufs fs))) ∧
    heap_ok h' (also X (given_up fs E)) ∧ agree L h h' ∧ keeps_reassdata h h'.
Proof.
  induction fs as [|f fs IH]; intros fuel c h E K Q S Ho Hf Hc Hn.
  { exists h. change (all_pbufs []) with (@nil Z). simpl. rewrite Z.add_0_r. split; [by destruct fuel|].
    split_and!; [|by intros p _|by intros i]. eapply also_ok_ext; [|exact K]. intros x. by rewrite given_up_other by apply not_elem_of_nil. }
  destruct fuel as [|fuel]; [simpl in Hf; lia|]. destruct Q as [F Q]. pose proof F as [B Hh].
  rewrite all_pbufs_cons in *. rewrite length_app in *. rewrite <- app_assoc in S.
  assert (He : E (f_p f) ≠ 0%nat) by (apply Ho; by left).
  destruct (free_confined X h (f_p f) (f_pbufs f) _ E K He (fb_packet _ _ B)) as (h1 & n1 & E1 & K1 & C1).
  pose proof (confined_agree _ _ _ _ C1 S) as Ag. pose proof (free_keeps _ _ _ _ _ K (also_owned _ _ _ He) E1) as L1.
  assert (S1 : separate h1 (all_pbufs fs ++ L)).
  { eapply agree_separate; [exact Ag|]. eapply separate_sub; [exact S|set_solver|]. destruct S as [N _]. by apply NoDup_app in N as (_ & _ & ?). }
  destruct (IH fuel (c + Z.of_nat (length (f_pbufs f))) h1 _ K1) as (h2 & Ef & K2 & Ag2 & L2).
  - eapply agree_queue; [exact Ag|set_solver|done].
  - exact S1.
  - intros g Hg. rewrite disown_other; [apply Ho; by right|]. intros E0. destruct S as [(_ & D & _)%NoDup_app _].
    apply (D (f_p f)); [by left|]. apply elem_of_app. left. rewrite <- E0. by apply in_all_pbufs.
  - simpl in Hf. lia.
  - lia.
  - lia.
  - exists h2. split; [|split; [|split]].
    + cbn [free_frags first_or]. rewrite Hh. cbn [mbind option_bind]. rewrite (pbuf_clen_ok _ _ _ _ (fb_packet _ _ B)). cbn [mbind option_bind].
      rewrite u8_id by (unfold is_u8; lia). unfold lwip_assert. rewrite (proj2 (Z.leb_le _ _)) by lia. cbn [mbind option_bind].
      rewrite E1. cbn [mbind option_bind next_pbuf]. rewrite u16_id by (unfold is_u16; lia). rewrite Ef. do 2 f_equal. lia.
    + eapply also_ok_ext; [|exact K2]. intros x. by rewrite given_up_cons.
    + eapply agree_trans; [eapply agree_sub; [exact Ag|set_solver]|done].
    + intros i Hi. by apply L2, L1.
Qed.

(** ** The message about the first fragment *)
Lemma in_queue_of fs x : x ∈ all_pbufs fs → ∃ g, g ∈ fs ∧ x ∈ f_pbufs g.
Proof. intros (l & Hx & (g & -> & Hg)%list_elem_of_fmap)%list_elem_of_join. by exists g. Qed.

Lemma in_datagram_of ds g : g ∈ all_of ds → ∃ d, d ∈ ds ∧ g ∈ d_fs d.
Proof. intros (l & Hx & (d & -> & Hd)%list_elem_of_fmap)%list_elem_of_join. by exists d. Qed.

Context {HQ : QuietIcmp}.

Lemma report_ok w h f gs ds hdr E b :
  heap_ok h (also (owns w) E) → frag_body h f → queue h None gs → (∀ d, d ∈ ds → queue h None (d_fs d)) →
  (∀ g, g ∈ f :: gs ++ all_of ds → E (f_p g) ≠ 0%nat) →
  let L := all_pbufs gs ++ all_pbufs (all_of ds) in
  separate h (f_pbufs f ++ L) → length hdr = 20%nat → pbufs h !! f_p f = Some b →
  ∃ w1 h1 h2 c, icmp_time_exceeded (f_p f) ICMP_TE_FRAG (w, store h (payload b) hdr) = Some (w1, h1) ∧
    pbuf_clen (Some (f_p f)) h1 = Some (u8 (Z.of_nat (length (f_pbufs f)))) ∧ pbuf_free (Some (f_p f)) h1 = Some (h2, c) ∧
    heap_ok h2 (also (owns w1) (disown (f_p f) E)) ∧ agree L h h2 ∧ keeps_reassdata h h2.
Proof using HL HW HQ.
  intros K B Qg Qd Ho L S Hh Hb. set (h0 := store h (payload b) hdr). assert (He : E (f_p f) ≠ 0%nat) by (apply Ho; by left).
  assert (T : headers_only [f_p f] h h0) by (eapply store_headers; [by left|exact Hb|lia|rewrite Hh; lia]).
  destruct (HQ (f_p f) ICMP_TE_FRAG w h0 E (headers_only_ok _ _ _ _ T K) He) as (w1 & h1 & Ei & K1 & Hx & L1).
  assert (Hfrag : ∀ g, g ∈ f :: gs ++ all_of ds → frag_body h g → agree (f_pbufs g) h0 h1).
  { intros g Hg Bg. eapply Hx; [by apply Ho|]. eapply packet_mem. exact (fb_packet _ _ Bg). }
  assert (A1 : agree (f_pbufs f ++ L) h0 h1).
  { intros x [Hin|[Hin|Hin]%elem_of_app]%elem_of_app; [by apply (Hfrag f ltac:(by left) B)| |].
    - apply in_queue_of in Hin as (g & Hg & Hin). apply (Hfrag g); [set_solver|by eapply queue_body|done].
    - apply in_queue_of in Hin as (g & Hg & Hin). pose proof Hg as Hg'. apply in_datagram_of in Hg' as (d & Hd & Hgd).
      apply (Hfrag g); [set_solver|by eapply queue_body; [apply Qd|]|done]. }
  assert (A0 : agree L h h0).
  { eapply confined_agree; [|exact S]. eapply headers_confined; [exact T|by intros x ->%list_elem_of_singleton; left|].
    intros p c0 ->%list_elem_of_singleton. by apply body_header. }
  assert (P1 : packet h1 (Some (f_p f)) (f_pbufs f) (20 + (f_hi f - f_lo f)) 0).
  { eapply packet_frame; [|exact (fb_packet _ _ B)]. intros x Hin. destruct (A1 x ltac:(set_solver)) as [-> _]. done. }
  destruct (free_confined (owns w1) h1 (f_p f) (f_pbufs f) _ E K1 He P1) as (h2 & c & E2 & K2 & C2).
  assert (A2 : agree L h1 h2).
  { eapply confined_agree; [exact C2|]. eapply agree_separate; [exact A1|exact S]. }
  exists w1, h1, h2, c. split; [exact Ei|]. split; [by eapply pbuf_clen_ok|]. split; [done|]. split; [done|]. split.
  - eapply agree_trans; [exact A0|]. eapply agree_trans; [eapply agree_sub; [exact A1|set_solver]|exact A2].
  - intros i Hi. eapply free_keeps; [exact K1|by apply also_owned|exact E2|]. by apply L1.
Qed.

(** ** One datagram *)
Definition unreported (f : frag) fs : list frag := if f_lo f =? 0 then fs else f :: fs.

Lemma unreported_sub f fs : all_pbufs (unreported f fs) ⊆ all_pbufs (f :: fs).
Proof. unfold unreported. destruct (_ =? _); [|done]. rewrite all_pbufs_cons. set_solver. Qed.

Lemma report_first_ok E s ds1 d ds2 f fs : reass_ok E s (ds1 ++ d :: ds2) → d_fs d = f :: fs →
  let gs := unreported f fs in let L := all_pbufs gs ++ all_pbufs (all_of (ds1 ++ ds2)) in
  ∃ w' h' E' c, report_first icmp_time_exceeded (d_ipr d) (entry (next_ipr ds2) d) (f_p f) (MkHelper (first_or None fs) (f_lo f) (f_hi f)) s =
      Some (MkRS (reassdatagrams s) (table (ds1 ++ with_fs gs d :: ds2)) (ip_reass_pbufcount s) h' w', c) ∧
    heap_ok h' (also (owns w') E') ∧ agree L (rheap s) h' ∧ (∀ x, x ∈ L → E' x = E x) ∧
    (∀ x, given_up gs E' x = given_up (d_fs d) E x) ∧ keeps_reassdata (rheap s) h' ∧
    c + Z.of_nat (length (all_pbufs gs)) = Z.of_nat (length (all_pbufs (d_fs d))) ∧ 0 <= c.
Proof using HL HW HQ.
  intros R Efs gs L. pose proof R as [Ef Er ND Hh Hq S Ec Em K Ho Hp]. subst gs L. unfold report_first, unreported. simpl start.
  assert (Hd : d ∈ ds1 ++ d :: ds2) by (apply middle_elem; by left). pose proof (Hq d Hd) as Q. rewrite Efs in Q.
  pose proof (split_separate _ _ _ _ S) as S2. rewrite Efs, all_pbufs_cons, <- app_assoc in S2.
  destruct (Z.eqb_spec (f_lo f) 0) as [E0|E0]; cycle 1.
  { exists (below s), (rheap s), E, 0. rewrite <- Efs. replace (with_fs (d_fs d) d) with d by by destruct d. rewrite <- Er.
    split; [by destruct s|]. split_and!; [done|by intros p _|done|done|by intros i|lia|lia]. }
  destruct Q as [[B Hhf] Q]. pose proof (fb_packet _ _ B) as (_ & b & Hb & _).
  rewrite (upd_middle E s ds1 d (with_fs fs d) ds2) by (done || by unfold entry; rewrite Efs).
  cbn [mbind option_bind rheap set_rdata below]. unfold payload_of. rewrite Hb. cbn [mbind option_bind iphdr entry].
  destruct (report_ok (below s) (rheap s) f fs (ds1 ++ ds2) (d_hdr d) E b K B Q) as
    (w1 & h1 & h2 & c & -> & Ecl & Efr & K2 & A2 & L2); [| |exact S2|by apply Hh|exact Hb|].
  { intros d0 Hd0. apply Hq, middle_elem. by right. }
  { intros g Hg. apply Ho, owned_middle. rewrite Efs. apply elem_of_cons in Hg as [->|[Hg|Hg]%elem_of_app]; [left; by left|left; by right|by right]. }
  cbn [mbind option_bind]. rewrite Ecl. cbn [mbind option_bind]. pose proof (count_middle _ _ _ _ _ R) as Ecm.
  assert (Hlen : length (all_pbufs (d_fs d)) = (length (f_pbufs f) + length (all_pbufs fs))%nat) by by rewrite Efs, all_pbufs_cons, length_app.
  unfold IP_REASS_MAX_PBUFS in Em. rewrite u8_id by (unfold is_u8; lia). unfold lwip_assert. rewrite (proj2 (Z.leb_le _ _)) by lia.
  cbn [mbind option_bind]. rewrite Efr. cbn [mbind option_bind]. exists w1, h2, (disown (f_p f) E), (Z.of_nat (length (f_pbufs f))).
  split; [done|]. split_and!; [done|done| |intros x; by rewrite Efs, given_up_cons|done|lia|lia].
  intros x Hx. apply disown_other. intros ->. destruct S2 as [(_ & D & _)%NoDup_app _]. apply (D (f_p f)); [by left|done].
Qed.

Lemma first_field E s ds1 d ds2 : reass_ok E s (ds1 ++ d :: ds2) →
  lwip_assert (negb (bool_decide (d_ipr <$> last ds1 = Some (d_ipr d)))) = Some () ∧
  (match d_ipr <$> last ds1 with
   | Some prev => rprev ← rdata s !! prev; lwip_assert (bool_decide (rnext rprev = Some (d_ipr d)))
   | None => Some ()
   end) = Some ().
Proof.
  intros R. pose proof (ro_nodup _ _ _ R) as ND. rewrite (ro_data _ _ _ R). destruct (last ds1) as [d0|] eqn:El; [|done].
  apply last_Some in El as (ds0 & ->). rewrite <- app_assoc in *. cbn [fmap option_fmap option_map app] in *.
  rewrite table_lookup by done. cbn [mbind option_bind rnext entry next_ipr]. unfold lwip_assert. split.
  - rewrite bool_decide_eq_false_2; [done|]. intros [= E0]. rewrite fmap_app, !fmap_cons in ND.
    apply NoDup_app in ND as (_ & _ & [Hn _]%NoDup_cons). apply Hn. rewrite E0. by left.
  - by rewrite bool_decide_eq_true_2.
Qed.

(** The fragments are freed and the structure goes back to its pool. *)
Lemma free_complete_ok E s ds1 d ds2 : reass_ok E s (ds1 ++ d :: ds2) → d_fs d ≠ [] →
  ∃ s', ip_reass_free_complete_datagram icmp_time_exceeded (d_ipr d) (d_ipr <$> last ds1) s =
      Some (s', Z.of_nat (length (all_pbufs (d_fs d)))) ∧ reass_ok (given_up (d_fs d) E) s' (ds1 ++ ds2).
Proof using HL HW HQ.
  intros R Hne. pose proof R as [Ef Er ND Hh Hq S Ec Em K Ho Hp]. destruct (d_fs d) as [|f fs] eqn:Efs; [done|]. clear Hne.
  assert (Hd : d ∈ ds1 ++ d :: ds2) by (apply middle_elem; by left). pose proof (Hq d Hd) as Q. rewrite Efs in Q.
  pose proof (split_separate _ _ _ _ S) as S2. pose proof (count_middle _ _ _ _ _ R) as Ecm. rewrite Efs in S2, Ecm.
  destruct (first_field _ _ _ _ _ R) as [E1 E2]. unfold ip_reass_free_complete_datagram. rewrite E1. cbn [mbind option_bind].
  rewrite E2. cbn [mbind option_bind]. rewrite Er, table_lookup by done. cbn [mbind option_bind rp entry]. rewrite Efs. cbn [first_or mbind option_bind].
  rewrite (helper_frag _ _ _ (proj1 Q)). cbn [mbind option_bind].
  destruct (report_first_ok E s ds1 d ds2 f fs R Efs) as (w1 & h1 & E1' & c & Erep & K1 & A1 & HE1 & HE2 & L1 & Hc & Hc0).
  rewrite Efs in Hc, HE2. rewrite Erep. clear Erep. cbn [mbind option_bind]. set (gs := unreported f fs) in *. set (d' := with_fs gs d).
  assert (ND' : NoDup (d_ipr <$> ds1 ++ d' :: ds2)) by (by apply (middle_nodup ds1 d)).
  change (d_ipr d) with (d_ipr d'). cbn [rdata]. rewrite table_lookup by done. cbn [mbind option_bind rp entry rheap].
  assert (Qg : queue (rheap s) None gs) by (unfold gs, unreported; destruct (f_lo f =? 0); [by destruct Q|done]).
  assert (Hgs : ∀ g, g ∈ gs → g ∈ f :: fs) by (unfold gs, unreported; destruct (f_lo f =? 0); intros g Hg; [by right|done]).
  assert (Sg : separate (rheap s) (all_pbufs gs ++ all_pbufs (all_of (ds1 ++ ds2)))).
  { eapply separate_sub; [exact S2|pose proof (unreported_sub f fs); fold gs in H0; set_solver|].
    destruct S2 as [N _]. unfold gs, unreported. destruct (f_lo f =? 0); [|done]. rewrite all_pbufs_cons, <- app_assoc in N.
    by apply NoDup_app in N as (_ & _ & ?). }
  pose proof (agree_separate _ _ _ A1 Sg) as Sg1. pose proof (agree_queue _ _ _ _ gs A1 ltac:(set_solver) Qg) as Qg1.
  assert (Ng : NoDup (all_pbufs gs)) by (destruct Sg as [N _]; by apply NoDup_app in N as [? _]).
  unfold IP_REASS_MAX_PBUFS in Em.
  destruct (free_frags_ok (owns w1) (all_pbufs (all_of (ds1 ++ ds2))) gs (size (pbufs h1)) c h1 E1' K1 Qg1 Sg1) as (h2 & Eff & K2 & A2 & L2);
    [|by eapply queue_size|done|lia|].
  { intros g Hg. rewrite HE1; [|apply elem_of_app; left; by apply in_all_pbufs]. apply Ho, owned_middle. left. rewrite Efs. auto. }
  change (first_or None (d_fs d')) with (first_or None gs). rewrite Eff. clear Eff. cbn [mbind option_bind].
  rewrite (dequeue_ok ds1 d' ds2); [|simpl; by rewrite Ef, !next_ipr_app|done|done]. cbn [mbind option_bind ip_reass_pbufcount rheap set_rheap].
  rewrite Hc. unfold lwip_assert. rewrite (proj2 (Z.leb_le _ _)) by lia. cbn [mbind option_bind].
  eexists (without (ds1 ++ ds2) (d_ipr d) h2 w1). split.
  - assert (Eu : u16 (ip_reass_pbufcount s - Z.of_nat (length (all_pbufs (f :: fs)))) = Z.of_nat (length (all_pbufs (all_of (ds1 ++ ds2))))).
    { rewrite u16_id by (unfold is_u16; lia). lia. }
    unfold set_count. cbn [ip_reass_pbufcount]. by rewrite Eu.
  - eapply leave_ok; [exact R|by eapply also_ok_ext; [exact HE2|]| | |].
    + intros g Hg. assert (Hin : f_p g ∈ all_pbufs (all_of (ds1 ++ ds2))) by (by apply in_all_pbufs).
      rewrite given_up_other; [done|]. intros (f' & E0 & Hf')%list_elem_of_fmap.
      destruct S2 as [(_ & D & _)%NoDup_app _]. apply (D (f_p g)); [|done].
      rewrite E0. by apply in_all_pbufs.
    + eapply agree_trans; [eapply agree_sub; [exact A1|set_solver]|exact A2].
    + intros i Hi. by apply L2, L1.
Qed.

(** ** The timer *)
Definition older (d : dgram) : dgram := MkD (d_ipr d) (d_hdr d) (d_len d) (d_flags d) (d_timer d - 1) (d_fs d).
Definition tick_one (d : dgram) : option dgram := if 0 <? d_timer d then Some (older d) else None.
Definition tick (ds : list dgram) : list dgram := omap tick_one ds.

Lemma tick_app ds1 ds2 : tick (ds1 ++ ds2) = tick ds1 ++ tick ds2.
Proof. apply omap_app. Qed.

Lemma tick_cons d ds : tick (d :: ds) = match tick_one d with Some d' => d' :: tick ds | None => tick ds end.
Proof. done. Qed.

Lemma tmr_loop_ok : ∀ ds fuel done E s,
  reass_ok E s (tick done ++ ds) → (∀ d, d ∈ ds → d_fs d ≠ []) → (length ds ≤ fuel)%nat →
  ∃ s' E', tmr_loop icmp_time_exceeded fuel (next_ipr ds) (d_ipr <$> last (tick done)) s = Some s' ∧
    reass_ok E' s' (tick (done ++ ds)) ∧ ∀ x, given_up (all_of (tick ds)) E' x = given_up (all_of ds) E x.
Proof using HL HW HQ.
  induction ds as [|d ds IH]; intros fuel dn E s R Hne Hf.
  { rewrite app_nil_r in *. exists s, E. split; [by destruct fuel|]. by split. }
  destruct fuel as [|fuel]; [simpl in Hf; lia|]. cbn [tmr_loop next_ipr]. rewrite (ro_data _ _ _ R), table_lookup by apply (ro_nodup _ _ _ R).
  cbn [mbind option_bind timer entry rnext]. replace (dn ++ d :: ds) with ((dn ++ [d]) ++ ds) by by rewrite <- app_assoc.
  assert (Hone : tick (dn ++ [d]) = tick dn ++ match tick_one d with Some d' => [d'] | None => [] end).
  { by rewrite tick_app. }
  assert (Hne' : ∀ d0, d0 ∈ ds → d_fs d0 ≠ []) by (intros d0 Hd0; apply Hne; by right).
  unfold tick_one in Hone. destruct (Z.ltb_spec 0 (d_timer d)) as [Ht|Ht].
  - rewrite (upd_middle E s (tick dn) d (older d) ds) by done. cbn [mbind option_bind].
    pose proof (reass_same E s (tick dn) d (older d) ds R eq_refl eq_refl (ro_hdr _ _ _ R d ltac:(apply middle_elem; by left))) as R'.
    assert (Hlast : d_ipr <$> last (tick (dn ++ [d])) = Some (d_ipr d)) by (rewrite Hone, last_snoc; done). rewrite <- Hlast.
    destruct (IH fuel (dn ++ [d]) E (MkRS (reassdatagrams s) (table (tick dn ++ older d :: ds)) (ip_reass_pbufcount s) (rheap s) (below s)))
      as (s' & E' & Et & R2 & HE); [by rewrite Hone, <- app_assoc|done|simpl in Hf; lia|].
    exists s', E'. split; [exact Et|]. split; [exact R2|]. intros x. rewrite tick_cons. unfold tick_one.
    rewrite (proj2 (Z.ltb_lt _ _)) by lia. specialize (HE x).
    change (given_up (d_fs d ++ all_of (tick ds)) E' x = given_up (d_fs d ++ all_of ds) E x).
    unfold given_up in HE |- *. rewrite !fmap_app, !count_occ_app. lia.
  - destruct (free_complete_ok E s (tick dn) d ds R (Hne d ltac:(by left))) as (s1 & -> & R1). cbn [mbind option_bind].
    assert (Hlast : tick (dn ++ [d]) = tick dn) by (by rewrite Hone, app_nil_r). rewrite <- Hlast.
    destruct (IH fuel (dn ++ [d]) (given_up (d_fs d) E) s1) as (s' & E' & Et & R2 & HE); [by rewrite Hlast|done|simpl in Hf; lia|].
    exists s', E'. split; [exact Et|]. split; [exact R2|]. intros x. rewrite tick_cons. unfold tick_one.
    rewrite (proj2 (Z.ltb_ge _ _)) by lia. rewrite HE.
    change (all_of (d :: ds)) with (d_fs d ++ all_of ds). by rewrite given_up_app.
Qed.

Lemma ip_reass_tmr_ok E s ds : reass_ok E s ds → (∀ d, d ∈ ds → d_fs d ≠ []) →
  ∃ s' E', ip_reass_tmr icmp_time_exceeded s = Some s' ∧ reass_ok E' s' (tick ds) ∧
    ∀ x, given_up (all_of (tick ds)) E' x = given_up (all_of ds) E x.
Proof using HL HW HQ.
  intros R Hne. unfold ip_reass_tmr. rewrite (ro_first _ _ _ R), (ro_data _ _ _ R), table_size by apply (ro_nodup _ _ _ R).
  apply (tmr_loop_ok ds (length ds) [] E s R Hne). lia.
Qed.

Lemma tick_fs ds : (∀ d, d ∈ ds → d_fs d ≠ []) → ∀ d, d ∈ tick ds → d_fs d ≠ [].
Proof.
  intros Hne d (d0 & Hd0 & Ht)%list_elem_of_omap. unfold tick_one in Ht. destruct (_ <? _); [|done]. injection Ht as <-. exact (Hne d0 Hd0).
Qed.

Fixpoint reass_ticks (n : nat) s : option (reass A W) :=
  match n with O => Some s | S n => s ← ip_reass_tmr icmp_time_exceeded s; reass_ticks n s end.

Lemma reass_ticks_ok : ∀ n E s ds, reass_ok E s ds → (∀ d, d ∈ ds → d_fs d ≠ [] ∧ 0 <= d_timer d < Z.of_nat n) →
  ∃ s' E', reass_ticks n s = Some s' ∧ reass_ok E' s' [] ∧ ∀ x, E' x = given_up (all_of ds) E x.
Proof using HL HW HQ.
  induction n as [|n IH]; intros E s ds R Hd.
  - destruct ds as [|d ds]; [exists s, E; split_and!; [done|done|]; intros x; by rewrite given_up_other by apply not_elem_of_nil|]. destruct (Hd d ltac:(by left)) as [_ ?]. lia.
  - destruct (ip_reass_tmr_ok E s ds R (λ d H, proj1 (Hd d H))) as (s1 & E1 & E2 & R1 & HE). cbn [reass_ticks]. rewrite E2.
    cbn [mbind option_bind]. setoid_rewrite <- HE. apply (IH E1 s1 (tick ds) R1). intros d Hdt. split; [by eapply tick_fs; [intros d0 H0; apply Hd|]|].
    apply list_elem_of_omap in Hdt as (d0 & H0 & Ht). unfold tick_one in Ht. destruct (Z.ltb_spec 0 (d_timer d0)); [|done].
    injection Ht as <-. destruct (Hd d0 H0). simpl. lia.
Qed.
End timer.
