(* ===== verification/IpReassRun.v ===== *)
(** * Reassembly: the promises of [ip_reass], and what it gets wrong

    The theorems on one fragment, and runs of the code on small datagrams. *)
From Stdlib Require Import Sorted.
From stdpp Require Import sorting.
From S2P Require Import Prelude LwipDef Chksum Memp Pbuf PbufRef PbufOwn PbufData IpReass IpReassOk.
From S2P Require Import IpReassJoin IpReassMain IpReassUse IpReassWhole IpReassTimer.
Local Open Scope Z_scope.

Section run.
Context {A W : Type} `{HL : ArenaLaws A} `{HW : Owns W}.
Context (icmp_time_exceeded : Z → Z → W * heap A → option (W * heap A)).
Implicit Types (h : heap A) (s : reass A W) (d : dgram) (ds : list dgram) (E : Z → nat) (f : frag).

(** A fragment that the client owns, for which there is room, and which is of
    the datagram [d] between [ds1] and [ds2]. *)
Record arriving E s ds f (hdr : list Z) ds1 d ds2 : Prop := {
  ar_inv : reass_ok E s ds;
  ar_in : incoming (rheap s) f hdr;
  ar_options : IPH_HL hdr = 5;
  ar_separate : separate (rheap s) (all_pbufs (f :: all_of ds));
  ar_owned : E (f_p f) ≠ 0%nat;
  ar_room : ip_reass_pbufcount s + Z.of_nat (length (f_pbufs f)) <= IP_REASS_MAX_PBUFS;
  ar_target : target (rheap s) hdr ds ds1 d ds2 }.

(** C24. For a fragment without IP options for which there is room, [ip_reass] is
    the step of the list of datagrams: the fragment is thrown away, queued at its
    place, or completes its datagram, which is then taken off the list and
    returned as one packet of header and data; no assertion is violated and the
    invariant holds again.  This is so when the datagram ends well ([ends_well]):
    if the fragment completes it, it has two fragments at least, the one that
    said it was the last is the last, and the total fits 65535 octets.  For
    the pieces of one datagram that is always so ([pieces_end_well], used in
    C18); for others the code fails an assertion
    ([fragment_behind_the_last_asserts]). *)
Theorem ip_reass_refines E s ds f hdr ds1 d ds2 :
  arriving E s ds f hdr ds1 d ds2 → ends_well (note hdr f d) f →
  ∃ s' E' o, ip_reass icmp_time_exceeded (f_p f) s = Some (s', o) ∧
    reass_ok E' s' (queue_step ds1 (note hdr f d) ds2 f).1 ∧
    match (queue_step ds1 (note hdr f d) ds2 f).2 with Some d' => delivered d' (rheap s') E' o | None => o = None end.
Proof. intros [R In Ho Sp Ow Ro T] Hend. by eapply ip_reass_ok. Qed.

(** C18. When every fragment is a piece of one cut of [orig], in two pieces or
    more, there is room for it, and it is not inserted between two others behind
    a hole ([tight]: it is put at the end, or what is in front of it has no hole;
    so it is in order, in reverse order, or with the last one last; see
    [hole_is_delivered] for what the code does otherwise), [ip_reass]
    returns a packet exactly when the last missing piece arrives, and the
    packet is the header of the datagram and [orig]; until then the datagram
    waits, whatever is received twice. *)
Theorem ip_reass_delivers E s ds f hdr ds1 d ds2 (orig : list Z) (cuts : list (Z * Z)) (n : Z) :
  arriving E s ds f hdr ds1 d ds2 →
  n = Z.of_nat (length orig) → tiles 0 cuts n → n < 65516 → (2 ≤ length cuts)%nat →
  genuine orig cuts n d → ¬ cuts ⊆ span <$> d_fs d → piece orig cuts f → (last_fragment hdr = true ↔ f_hi f = n) →
  (∀ pre suf v, inserted (d_fs d) f = Some (pre, suf, v) → tight pre suf f) →
  ∃ s' E' o, ip_reass icmp_time_exceeded (f_p f) s = Some (s', o) ∧
    (is_Some o ↔ cuts ⊆ span <$> f :: d_fs d) ∧
    match o with
    | None => ∃ d', reass_ok E' s' (ds1 ++ d' :: ds2) ∧ d_hdr d' = d_hdr d ∧ genuine orig cuts n d' ∧ ¬ cuts ⊆ span <$> d_fs d'
    | Some p => reass_ok E' s' (ds1 ++ ds2) ∧ E' p ≠ 0%nat ∧ ∃ l a, packet (rheap s') (Some p) l (20 + n) 0 ∧
        packet_data (rheap s') l = final_header a (d_hdr d) (n + IP_HLEN) ++ orig
    end.
Proof.
  intros [R In Ho Sp Ow Ro T] Hn HT Hmax Htwo G Hw Pf El Ht.
  pose proof (pieces_end_well orig cuts n Hn HT Hmax Htwo d f hdr G Pf El) as Hend.
  destruct (ip_reass_ok icmp_time_exceeded E s ds f hdr ds1 d ds2 R In Ho Sp Ow Ro T Hend) as (s' & E' & o & Er & R' & D).
  exists s', E', o. split; [done|]. unfold queue_step in *. rewrite note_fs in R', D.
  pose proof (inserted_pieces orig cuts n Hn HT d f G Pf) as I. destruct (inserted (d_fs d) f) as [[[pre suf] v]|] eqn:Ei.
  - destruct (complete_pieces orig cuts n Hn HT Hmax Htwo d f hdr pre suf v G Pf El Ei) as [G' Hc]. specialize (Hc (Ht _ _ _ eq_refl)).
    destruct I as (Efs & _). pose proof (spans_insert cuts pre f suf) as Ep. rewrite <- Efs in Ep.
    destruct (complete_with _ _ _ _ _); simpl in R', D.
    + destruct D as (g & a & Hg & -> & P & Dt & He). assert (Hs : cuts ⊆ span <$> pre ++ f :: suf) by by apply Hc.
      split; [split; [intros _; by apply Ep|done]|]. split; [exact R'|]. split; [exact He|].
      destruct (whole_contents orig cuts n Hn HT Hmax Htwo _ G' Hs) as (Et & Ed & Elen). simpl in *. rewrite Et, Ed, Elen, note_hdr in *.
      exists (all_pbufs (pre ++ f :: suf)), a. split; [exact P|]. rewrite Dt. do 2 f_equal. unfold IP_HLEN. apply u16_id. unfold is_u16. lia.
    + subst o. assert (Hs : ¬ cuts ⊆ span <$> pre ++ f :: suf) by (intros Hs; by apply Hc in Hs).
      split; [split; [by intros []|intros Hs2; by destruct Hs; apply Ep]|]. eexists. split; [exact R'|]. simpl. by rewrite note_hdr.
  - simpl in R', D. subst o. destruct (genuine_again orig cuts n d f hdr G Pf El I) as [G' Hag].
    split; [split; [by intros []|intros Hs; by destruct Hw; apply Hag]|]. eexists. split; [exact R'|]. by rewrite note_hdr, note_fs.
Qed.

(** C32. A datagram is given up: after as many calls of the timer as
    IP_REASS_MAXAGE and one more, with no fragment in between, no datagram waits
    and no pbuf is counted; the timer never fails.  The reference to each
    fragment that waited has been given back, none more than that: what is
    owned is what was owned before, less one for every fragment, and the counts
    of the pbufs are right for it, so that no pbuf leaks. *)
Theorem ip_reass_tmr_expires `{HQ : !QuietIcmp icmp_time_exceeded} E s ds :
  reass_ok E s ds → (∀ d, d ∈ ds → d_fs d ≠ [] ∧ 0 <= d_timer d <= IP_REASS_MAXAGE) →
  ∃ s', reass_ticks icmp_time_exceeded (S (Z.to_nat IP_REASS_MAXAGE)) s = Some s' ∧
    heap_ok (rheap s') (also (owns (below s')) (given_up (all_of ds) E)) ∧
    reassdatagrams s' = None ∧ rdata s' = ∅ ∧ ip_reass_pbufcount s' = 0.
Proof.
  intros R Hds. destruct (reass_ticks_ok icmp_time_exceeded (S (Z.to_nat IP_REASS_MAXAGE)) E s ds R) as (s' & E' & E1 & R1 & HE).
  - intros d Hd. destruct (Hds d Hd) as [? Ht]. split; [done|]. unfold IP_REASS_MAXAGE in *. lia.
  - exists s'. split; [done|]. split; [eapply also_ok_ext; [exact HE|apply R1]|]. split; [apply R1|]. split; [apply R1|]. apply R1.
Qed.
End run.

(** ** Small datagrams *)

(** Header and data of a fragment of 10.0.0.1 to 10.0.0.2. *)
Definition ip_header (total id off : Z) (mf : bool) : list Z :=
  [69; 0; total / 256; total mod 256; id / 256; id mod 256;
   (if mf then 32 else 0) + off / 8 / 256; off / 8 mod 256; 64; 17; 0; 0; 10; 0; 0; 1; 10; 0; 0; 2].
Definition fragment (id off : Z) (mf : bool) (data : list Z) : list Z :=
  ip_header (20 + Z.of_nat (length data)) id off mf ++ data.
Definition eight (n : Z) : list Z := replicate 8 n.

(** The [i]th packet is the pbuf at [4096 * (i + 1)]. *)
Definition heap_of (packets : list (list Z)) (more : gmap Z block) : heap bump :=
  MkHeap
    (list_to_map (imap (λ i f, (4096 * (Z.of_nat i + 1),
       MkPbuf None (4096 * (Z.of_nat i + 1) + 16) (Z.of_nat (length f)) (Z.of_nat (length f)) PBUF_RAM 0 1)) packets))
    (λ x, nth (Z.to_nat (x mod 4096 - 16)) (nth (Z.to_nat (x / 4096 - 1)) packets []) 0)
    (MkBump 409600 (list_to_map (imap (λ i f, (4096 * (Z.of_nat i + 1), HEAP)) packets) ∪ more)) (λ _, 0) false.

(** The packets in this order, by an icmp.c that sends nothing. *)
Definition receive (packets : list (list Z)) : option (reass bump unit * list (option Z)) :=
  foldl (λ r i, '(s, out) ← r; '(s, o) ← ip_reass (λ _ _ x, Some x) (4096 * (Z.of_nat i + 1)) s; Some (s, out ++ [o]))
    (Some (MkRS None ∅ 0 (heap_of packets ∅) (), [])) (seq 0 (length packets)).

(** What [ip_reass] returns for each. *)
Definition returns (packets : list (list Z)) : option (list (option Z)) := snd <$> receive packets.

(** Nothing else owns a pbuf. *)
#[export] Instance owns_nothing : Owns unit := λ _ _, 0%nat.

(** The datagram of 16 octets of which the first fragment waits. *)
Definition first8 : frag := MkFrag 4096 [] 0 8 (eight 1).
Definition last8 : frag := MkFrag 8192 [] 8 16 (eight 2).
Definition waiting : dgram := MkD 12288 (ip_header 28 7 0 true) 0 0 3 [first8].
Definition half : reass bump unit :=
  MkRS (Some 12288) (table [waiting]) 1
    (heap_of [[0; 0; 0; 0; 0; 0; 8; 0] ++ drop 8 (fragment 7 0 true (eight 1)); fragment 7 8 false (eight 2)]
       {[12288 := POOL MEMP_REASSDATA]}) ().
Definition both : Z → nat := λ p, if decide (p = 4096 ∨ p = 8192) then 1%nat else 0%nat.

Lemma half_pbufs p b : pbufs (rheap half) !! p = Some b → p = 4096 ∨ p = 8192.
Proof.
  unfold half, heap_of. simpl. rewrite !lookup_insert_Some, lookup_empty. naive_solver.
Qed.

Lemma half_heap : heap_ok (rheap half) (also (owns (below half)) both).
Proof.
  constructor.
  - intros p b Hb. destruct (half_pbufs p b Hb) as [-> | ->]; vm_compute in Hb; injection Hb as <-; vm_compute; auto.
  - intros p b q Hb. destruct (half_pbufs p b Hb) as [-> | ->]; vm_compute in Hb; by injection Hb as <-.
  - intros p. unfold also, both. case_decide as D; [intros _|done]. destruct D as [-> | ->]; vm_compute; eauto.
  - intros p b Hb. destruct (half_pbufs p b Hb) as [-> | ->]; vm_compute in Hb; injection Hb as <-; reflexivity.
  - done.
Qed.

Lemma half_body f : f = first8 ∨ f = last8 → frag_body (rheap half) f.
Proof.
  intros [-> | ->]; (constructor; [split; [done|]; eexists; split; [reflexivity|]; repeat split; done
    |intros b Hb; vm_compute in Hb; by injection Hb as <-|vm_compute; repeat split; congruence..|intros b Hb; vm_compute in Hb; by injection Hb as <-]).
Qed.

Lemma half_ok : reass_ok both half [waiting].
Proof.
  constructor; try done.
  - repeat constructor. by intros ?%elem_of_nil.
  - by intros d ->%list_elem_of_singleton.
  - intros d ->%list_elem_of_singleton. split; [|done]. split; [apply half_body; by left|reflexivity].
  - split; [repeat constructor; by intros ?%elem_of_nil|]. by intros a c ba bb ->%list_elem_of_singleton ->%list_elem_of_singleton.
  - apply half_heap.
  - by intros f ->%list_elem_of_singleton.
  - by intros d ->%list_elem_of_singleton.
Qed.

Lemma half_arriving : arriving both half [waiting] last8 (ip_header 28 7 8 false) [] waiting [].
Proof.
  constructor; [apply half_ok|constructor; [apply half_body; by right|reflexivity..]|reflexivity| |done|vm_compute; congruence|].
  - split; [repeat constructor; set_solver|]. change (all_pbufs _) with [8192; 4096]. intros a c ba bb Ha Hc Hne.
    repeat (apply elem_of_cons in Ha as [->|Ha]); try (by apply elem_of_nil in Ha);
      repeat (apply elem_of_cons in Hc as [->|Hc]); try (by apply elem_of_nil in Hc); try done;
      intros H1 H2; vm_compute in H1, H2; injection H1 as <-; injection H2 as <-; vm_compute; intuition congruence.
  - exact (target_known (rheap half) (ip_header 28 7 8 false) [waiting] [] waiting [] eq_refl eq_refl ltac:(by intros ? ?%elem_of_nil)).
Qed.

Lemma ip_reass_refines_witness : ∃ s' E' o, ip_reass (λ _ _ x, Some x) 8192 half = Some (s', o) ∧ reass_ok E' s' [] ∧ is_Some o.
Proof.
  destruct (ip_reass_refines (λ _ _ x, Some x) both half [waiting] last8 (ip_header 28 7 8 false) [] waiting [] half_arriving)
    as (s' & E' & o & Er & R & D).
  - intros pre suf v. vm_compute. intros [= <- <- _] _. split; [lia|]. split; [by eexists|done].
  - exists s', E', o. split; [exact Er|]. split; [exact R|]. destruct D as (g & a & _ & -> & _). by eexists.
Defined.

Lemma ip_reass_delivers_witness :
  ∃ s' p l a, ip_reass (λ _ _ x, Some x) 8192 half = Some (s', Some p) ∧
    packet_data (rheap s') l = final_header a (ip_header 28 7 0 true) 36 ++ eight 1 ++ eight 2.
Proof.
  destruct (ip_reass_delivers (λ _ _ x, Some x) both half [waiting] last8 (ip_header 28 7 8 false) [] waiting []
    (eight 1 ++ eight 2) [(0, 8); (8, 16)] 16 half_arriving eq_refl) as (s' & E' & o & Er & [_ Hs] & D).
  - by repeat split.
  - done.
  - simpl. lia.
  - constructor; simpl.
    + intros f ->%list_elem_of_singleton. split; [by left|reflexivity].
    + repeat constructor.
    + split; [done|]. by intros (g & ->%list_elem_of_singleton & ?).
    + by intros (g & ->%list_elem_of_singleton & ?).
  - intros H. specialize (H (8, 16) ltac:(right; by left)). by apply list_elem_of_singleton in H.
  - split; [right; by left|reflexivity].
  - done.
  - intros pre suf v. vm_compute. intros [= <- <- _]. by left.
  - destruct Hs as [p ->].
    { intros c Hc. apply elem_of_cons in Hc as [->|Hc%list_elem_of_singleton]; [right; by left|rewrite Hc; by left]. }
    destruct D as (_ & _ & l & a & _ & Dt). exists s', p, l, a. split; [exact Er|exact Dt].
Defined.

(** An icmp.c that sends nothing. *)
#[export] Instance silent_icmp : QuietIcmp (λ (_ _ : Z) (x : unit * heap bump), Some x).
Proof. intros p t w h E K _. exists w, h. split; [done|]. split; [done|]. split; [|done]. by intros x l n _ _ y _. Qed.

Lemma ip_reass_tmr_expires_witness :
  ∃ s', reass_ticks (λ _ _ x, Some x) 4 half = Some s' ∧ reassdatagrams s' = None ∧ ip_reass_pbufcount s' = 0
    ∧ heap_ok (rheap s') (also (owns (below s')) (given_up (d_fs waiting) both)).
Proof.
  destruct (ip_reass_tmr_expires (λ (_ _ : Z) (x : unit * heap bump), Some x) both half [waiting] half_ok) as (s' & E1 & K & E2 & _ & E3).
  - intros d ->%list_elem_of_singleton. split; [done|]. simpl. unfold IP_REASS_MAXAGE. lia.
  - exists s'. split; [exact E1|]. split; [exact E2|]. split; [exact E3|exact K].
Defined.

(** ** What the code gets wrong *)

(** The tail of the list is the oldest datagram: [prev] is that datagram. *)
Definition nine_more : list (list Z) := (λ i, fragment 8 (8 * Z.of_nat i) true (eight 2)) <$> seq 0 9.

(** A fragment for the datagram at the tail, when IP_REASS_MAX_PBUFS pbufs are
    queued: [ip_reass_remove_oldest_datagram] looks for the oldest of the other
    datagrams, but keeps as its predecessor the last but one of the list;
    the other datagram is at the head, and its predecessor is taken to be itself,
    which [ip_reass_free_complete_datagram] asserts is never so. *)
Theorem eviction_of_the_head_asserts :
  returns (fragment 7 0 true (eight 1) :: nine_more) = Some (replicate 10 None) ∧
  returns (fragment 7 0 true (eight 1) :: nine_more ++ [fragment 7 8 true (eight 3)]) = None.
Proof. split; vm_compute; reflexivity. Qed.

Lemma same_predecessor_asserts (icmp : Z → Z → unit * heap bump → option (unit * heap bump)) ipr s :
  ip_reass_free_complete_datagram icmp ipr (Some ipr) s = None.
Proof. unfold ip_reass_free_complete_datagram, lwip_assert. by rewrite bool_decide_eq_true_2. Qed.

(** The second fragment of four never came. *)
Theorem hole_is_delivered :
  ('(s, out) ← receive [fragment 7 0 true (eight 1); fragment 7 24 false (eight 4); fragment 7 16 true (eight 3)];
   Some (out, drop 20 (packet_data (rheap s) [4096; 12288; 8192]), hdr16 (octets_at (rheap s) 4112 20) 2)) =
  Some ([None; None; Some 4096], eight 1 ++ eight 3 ++ eight 4, lwip_htons 52).
Proof. vm_compute. reflexivity. Qed.

(** A fragment behind the last one, and two last ones. *)
Theorem fragment_behind_the_last_asserts :
  returns [fragment 7 0 true (eight 1); fragment 7 16 true (eight 3); fragment 7 8 false (eight 2)] = None ∧
  returns [fragment 7 0 true (eight 1); fragment 7 16 false (eight 3); fragment 7 16 false [1]; fragment 7 8 true (eight 2)] = None.
Proof. split; vm_compute; reflexivity. Qed.
