(* ===== verification/PbufMove.v ===== *)
(** * Packets moved, trimmed and copied

    What [pbuf_header], [pbuf_realloc] and [pbuf_copy] do to a packet and to
    the references: the lemmas the protocols above pbuf.c share. *)
From S2P Require Import Prelude LwipDef Chksum Memp Pbuf PbufRef PbufOwn PbufData.
Local Open Scope Z_scope.

Section move.
Context {A : Type} `{HL : ArenaLaws A}.
Implicit Types (h : heap A) (b : pbuf) (p q : Z) (l : list Z) (E : Z → nat).

Definition set_pbuf p b h : heap A := with_pbufs (<[p := b]> (pbufs h)) h.

(** ** [pbuf_header] *)
Definition moved (inc : Z) b : pbuf := MkPbuf (next b) (payload b - inc) (tot_len b + inc) (len b + inc) (type b) (flags b) (ref b).

Lemma moved_0 b : moved 0 b = b.
Proof. unfold moved. rewrite Z.sub_0_r, !Z.add_0_r. by destruct b. Qed.

Lemma moved_moved i j b : moved i (moved j b) = moved (j + i) b.
Proof. unfold moved. simpl. f_equal; lia. Qed.

Lemma set_pbuf_id p b h : pbufs h !! p = Some b → set_pbuf p b h = h.
Proof. intros Hb. unfold set_pbuf. rewrite insert_id by done. by destruct h. Qed.

Lemma set_pbuf_twice p b b' h : set_pbuf p b (set_pbuf p b' h) = set_pbuf p b h.
Proof. unfold set_pbuf, with_pbufs. simpl. by rewrite insert_insert_eq. Qed.

Lemma set_pbuf_lookup p b h : pbufs (set_pbuf p b h) !! p = Some b.
Proof. apply lookup_insert_eq. Qed.

Lemma set_pbuf_other p b h q : q ≠ p → pbufs (set_pbuf p b h) !! q = pbufs h !! q.
Proof. intros Hq. by apply lookup_insert_ne. Qed.

Lemma upd_set p f b h : pbufs h !! p = Some b → upd p f h = Some (set_pbuf p (f b) h).
Proof. intros Hb. unfold upd. by rewrite Hb. Qed.

(** Either the payload moves or nothing happens. *)
Lemma pbuf_header_cases h p b inc :
  pbufs h !! p = Some b → 0 <= len b <= tot_len b → tot_len b < 65536 → -32768 < inc < 32768 → tot_len b + inc < 65536 →
  pbuf_header p inc h = Some (set_pbuf p (moved inc b) h, 0) ∧ 0 <= len b + inc ∨ pbuf_header p inc h = Some (h, 1).
Proof.
  intros Hb Hl Ht Hi Hti. unfold pbuf_header. rewrite Hb. cbn [mbind option_bind].
  destruct (Z.eqb_spec inc 0) as [->|Hne].
  { left. rewrite moved_0, set_pbuf_id by done. split; [done|lia]. }
  rewrite (u16_id (if inc <? 0 then - inc else inc)) by (unfold is_u16; case_match; lia).
  destruct ((inc <? 0) && negb ((if inc <? 0 then - inc else inc) <=? len b)) eqn:Hshort; [by right|].
  assert (Hge : 0 <= len b + inc) by (destruct (Z.ltb_spec inc 0); cbn in Hshort; lia).
  assert (Em : ∀ a, a = payload b - inc → set_tot_len (u16 (tot_len (set_len (u16 (len (set_payload a b) + inc)) (set_payload a b)) + inc))
    (set_len (u16 (len (set_payload a b) + inc)) (set_payload a b)) = moved inc b).
  { intros a ->. unfold moved, set_tot_len, set_len, set_payload. simpl. by rewrite !u16_id by (unfold is_u16; lia). }
  destruct (type b); repeat case_match; try (by right); left; (split; [|done]); unfold set_pbuf; by rewrite Em.
Qed.

Definition in_ram b : Prop := type b = PBUF_RAM ∨ type b = PBUF_POOL.

(** A move for which there is room. *)
Lemma pbuf_header_fits h p b inc :
  pbufs h !! p = Some b → 0 <= len b <= tot_len b → tot_len b < 65536 → -32768 < inc < 32768 → tot_len b + inc < 65536 →
  0 <= len b + inc → in_ram b → p + SIZEOF_STRUCT_PBUF <= payload b - inc →
  pbuf_header p inc h = Some (set_pbuf p (moved inc b) h, 0).
Proof.
  intros Hb Hl Ht Hi Hti Hge Hram Hroom. unfold pbuf_header. rewrite Hb. cbn [mbind option_bind].
  destruct (Z.eqb_spec inc 0) as [->|Hne]; [by rewrite moved_0, set_pbuf_id by done|].
  rewrite (u16_id (if inc <? 0 then - inc else inc)) by (unfold is_u16; case_match; lia).
  assert ((inc <? 0) && negb ((if inc <? 0 then - inc else inc) <=? len b) = false) as -> by (destruct (Z.ltb_spec inc 0); cbn; lia).
  rewrite (proj2 (Z.ltb_ge _ _)) by lia. unfold moved, set_pbuf, set_tot_len, set_len, set_payload. simpl.
  rewrite !u16_id by (unfold is_u16; lia). by destruct Hram as [-> | ->].
Qed.

(** A move that does not fit is refused. *)
Lemma pbuf_header_short h p b inc :
  pbufs h !! p = Some b → -32768 < inc < 0 → len b + inc < 0 → pbuf_header p inc h = Some (h, 1).
Proof.
  intros Hb Hi Hl. unfold pbuf_header. rewrite Hb. cbn [mbind option_bind]. rewrite (proj2 (Z.eqb_neq inc 0)) by lia.
  rewrite (proj2 (Z.ltb_lt inc 0)) by lia. rewrite u16_id by (unfold is_u16; lia). rewrite (proj2 (Z.leb_gt _ _)) by lia. done.
Qed.

Lemma set_pbuf_ok h p b b' E :
  heap_ok h E → pbufs h !! p = Some b → ref b' = ref b → block_of b' = block_of b → next b' = next b → heap_ok (set_pbuf p b' h) E.
Proof. apply upd_ok. Qed.

Lemma moved_ok h p b inc E : heap_ok h E → pbufs h !! p = Some b → heap_ok (set_pbuf p (moved inc b) h) E.
Proof. intros K Hb. by apply (set_pbuf_ok h p b). Qed.

Lemma packet_moved h p b l n inc :
  packet h (Some p) (p :: l) n 0 → pbufs h !! p = Some b → 0 <= len b + inc → packet (set_pbuf p (moved inc b) h) (Some p) (p :: l) (n + inc) 0.
Proof.
  intros P Hb Hi. pose proof (chain_of_nodup _ _ _ (packet_chain _ _ _ _ _ P)) as [Hn _]%NoDup_cons.
  destruct P as (_ & b0 & Hb0 & Ht & Hl & P). assert (b0 = b) as -> by congruence.
  split; [done|]. exists (moved inc b). rewrite set_pbuf_lookup. simpl. split_and!; [done|lia|lia|].
  replace (n + inc - (len b + inc)) with (n - len b) by lia. eapply packet_frame; [|exact P].
  intros x Hx. apply set_pbuf_other. by intros ->.
Qed.

(** ** Packets as the drivers and the stack make them

    No custom pbuf, and no pbuf that holds the whole rest of the packet is
    followed by another one. *)
Definition plain h l : Prop := ∀ a b, a ∈ l → pbufs h !! a = Some b → is_custom (flags b) = false ∧ (next b ≠ None → len b < tot_len b).

Lemma plain_frame h h' l : (∀ a, a ∈ l → pbufs h' !! a = pbufs h !! a) → plain h l → plain h' l.
Proof. intros Hf Pl a b Ha Hb. apply (Pl a b Ha). by rewrite <- Hf. Qed.

Lemma plain_moved h p b l inc : plain h l → pbufs h !! p = Some b → plain (set_pbuf p (moved inc b) h) l.
Proof.
  intros Pl Hb a b' Ha Hb'. destruct (decide (a = p)) as [->|Hne].
  - rewrite set_pbuf_lookup in Hb'. injection Hb' as <-. destruct (Pl p b Ha Hb). split; [done|]. simpl. intros Hn. apply H1 in Hn. lia.
  - rewrite set_pbuf_other in Hb' by done. by apply (Pl a).
Qed.

Lemma plain_sub h l l' : l' ⊆ l → plain h l → plain h l'.
Proof. intros Hs Pl a b Ha. by apply Pl, Hs. Qed.

(** The first pbuf of a packet, with what the packet says of it. *)
Lemma packet_first h p l n : packet h (Some p) l n 0 →
  ∃ b l', l = p :: l' ∧ pbufs h !! p = Some b ∧ tot_len b = n ∧ 0 <= len b <= n.
Proof.
  intros P. destruct l as [|a l]; [by destruct P|]. destruct P as ([= <-] & b & Hb & Ht & Hl & P).
  exists b, l. apply packet_le in P. split_and!; try done; lia.
Qed.

(** ** [pbuf_realloc] *)
Lemma realloc_loop_ok E : ∀ l fuel h q n rem grow,
  heap_ok h E → packet h (Some q) l n 0 → 0 <= rem <= n → n < 65536 → grow = rem - n → (length l ≤ S fuel)%nat →
  ∃ h' l1 z l2 rem' n', realloc_loop fuel q rem grow h = Some (h', z, rem') ∧ l = l1 ++ z :: l2 ∧ heap_ok h' E ∧
    meta_only h h' ∧ (∀ x, x ∉ l1 → pbufs h' !! x = pbufs h !! x) ∧ packet h' (Some z) (z :: l2) n' 0 ∧ n' <= n ∧
    (∃ b, pbufs h' !! z = Some b ∧ 0 <= rem' <= len b) ∧
    (∀ a ba, a ∈ l1 → pbufs h' !! a = Some ba → len ba < tot_len ba) ∧
    ∀ h2, (∀ x, x ∈ l1 → pbufs h2 !! x = pbufs h' !! x) → packet h2 (Some z) [z] rem' 0 → packet h2 (Some q) (l1 ++ [z]) rem 0.
Proof.
  induction l as [|a l IH]; intros fuel h q n rem grow K P Hr Hn Hg Hf; [by destruct P|].
  pose proof (chain_of_nodup _ _ _ (packet_chain _ _ _ _ _ P)) as [Hal ND]%NoDup_cons.
  pose proof P as P0. destruct P as ([= <-] & b & Hb & Ht & Hl & P). pose proof (packet_le _ _ _ _ _ P) as Hle.
  destruct fuel as [|fuel]; cbn [realloc_loop]; rewrite Hb; cbn [mbind option_bind]; (destruct (Z.leb_spec rem (len b));
    [exists h, [], q, l, rem, n; split_and!; try done; [apply meta_only_refl|eexists; split; [done|lia]|by intros ? ? ?%not_elem_of_nil]|]).
  { destruct l; [destruct P as [_ ?]; lia|simpl in Hf; lia]. }
  unfold lwip_assert. rewrite (proj2 (Z.ltb_lt grow 65535)) by lia. cbn [mbind option_bind]. rewrite (u16_id (rem - len b)) by (unfold is_u16; lia).
  assert (Et : u16 (tot_len b + u16 grow) = rem).
  { unfold u16. rewrite Zplus_mod_idemp_r, Ht, Hg. replace (n + (rem - n)) with rem by lia. apply Z.mod_small. lia. }
  rewrite Et. unfold upd. rewrite Hb. cbn [mbind option_bind]. change (with_pbufs _ h) with (set_pbuf q (set_tot_len rem b) h).
  destruct l as [|a2 l]; [destruct P as [_ ?]; lia|]. pose proof P as (Hnx & _). rewrite Hnx in P |- *. cbn [mbind option_bind].
  set (h1 := set_pbuf q (set_tot_len rem b) h).
  assert (K1 : heap_ok h1 E) by (by apply (set_pbuf_ok h q b)).
  assert (P1 : packet h1 (Some a2) (a2 :: l) (n - len b) 0).
  { eapply packet_frame; [|exact P]. intros x Hx. apply set_pbuf_other. by intros ->. }
  destruct (IH fuel h1 a2 (n - len b) (rem - len b) grow K1 P1) as (h' & l1 & z & l2 & rem' & n' & E1 & El & K' & M & Fr & P' & Hn' & Hz & Hlt & Fin); [lia..|simpl in Hf |- *; lia|].
  assert (Hq1 : q ∉ l1) by (intros ?; apply Hal; rewrite El; set_solver).
  assert (Hq' : pbufs h' !! q = Some (set_tot_len rem b)) by (rewrite Fr by done; apply set_pbuf_lookup).
  exists h', (q :: l1), z, l2, rem', n'. split_and!.
  - exact E1.
  - by rewrite El.
  - exact K'.
  - eapply meta_only_trans; [|exact M]. by apply (meta_only_upd _ _ b).
  - intros x Hx. rewrite Fr by set_solver. apply set_pbuf_other. set_solver.
  - exact P'.
  - lia.
  - exact Hz.
  - intros x bx [->|Hx]%elem_of_cons Hbx; [rewrite Hq' in Hbx; injection Hbx as <-; simpl; lia|by apply (Hlt x)].
  - intros h2 Hf2 P2. split; [done|]. exists (set_tot_len rem b). rewrite (Hf2 q), Hq' by (by left). simpl. split_and!; try done.
    rewrite Hnx. apply Fin; [|done]. intros x Hx. apply Hf2. by right.
Qed.

Lemma with_arena_ok h a E : live a = live (arena h) → heap_ok h E → heap_ok (with_arena a h) E.
Proof. intros Ha [K1 K2 K3 K4 K5]. constructor; try done. intros p b Hb. simpl. rewrite Ha. by apply K4. Qed.

(** A freed chain leaves the pbufs outside of it as they are. *)
Lemma free_prefix_other x : ∀ l (m : gmap Z pbuf), x ∉ l → free_prefix l m !! x = m !! x.
Proof.
  induction l as [|a l IH]; intros m Hx; simpl; [done|]. destruct (m !! a) as [b|]; [|done]. case_match.
  - rewrite IH by set_solver. rewrite lookup_delete_ne; set_solver.
  - rewrite lookup_insert_ne; set_solver.
Qed.

Lemma free_elsewhere h p l E h' k : heap_ok h E → chain_of h (Some p) l → pbuf_free (Some p) h = Some (h', k) →
  ∀ x, x ∉ l → pbufs h' !! x = pbufs h !! x.
Proof.
  intros K C Ef x Hx. destruct (free_loop_chain l (size (pbufs h)) h (Some p) 0 C (chain_of_size _ _ _ C)) as (h2 & c2 & E2 & Ep & _).
  { intros a b _ Hb. by apply (ok_ref _ _ K a b). }
  unfold pbuf_free in Ef. rewrite Ef in E2. injection E2 as <- <-. rewrite Ep. by apply free_prefix_other.
Qed.

(** Cutting the chain behind [q] and freeing the rest. *)
Lemma cut_ok h q b l E :
  heap_ok h E → chain_of h (Some q) (q :: l) → pbufs h !! q = Some b →
  ∃ h', ('(h, _) ← match next b with None => Some (h, 0) | Some _ => pbuf_free (next b) h end; upd q (set_next None) h) = Some h' ∧
    heap_ok h' E ∧ pbufs h' !! q = Some (set_next None b) ∧ mem h' = mem h ∧ (∀ x, x ∉ q :: l → pbufs h' !! x = pbufs h !! x) ∧
    ∀ i, pbufs h !! i = None → live (arena h') !! i = live (arena h) !! i.
Proof.
  intros K C Hb. pose proof (chain_of_nodup _ _ _ C) as [Hn _]%NoDup_cons.
  destruct (next b) as [r|] eqn:Hnx.
  2:{ cbn [mbind option_bind]. unfold upd. rewrite Hb. cbn [mbind option_bind].
      assert (Eb : set_next None b = b) by (unfold set_next; rewrite <- Hnx; by destruct b).
      rewrite Eb. exists h. change (with_pbufs _ h) with (set_pbuf q b h). rewrite set_pbuf_id by done. by split_and!. }
  destruct C as (_ & b0 & Hb0 & C). assert (b0 = b) as -> by congruence. rewrite Hnx in C.
  set (h1 := set_pbuf q (set_next None b) h).
  assert (K1 : heap_ok h1 (inc r E)).
  { apply (relink_ok h q b _ E (inc r E) K Hb); [done|done| |done].
    intros x. unfold link, inc. rewrite Hnx. simpl. repeat case_decide; simplify_eq; lia. }
  assert (C1 : chain_of h1 (Some r) l).
  { eapply chain_of_frame; [|exact C]. intros x bx Hx Hbx. exists bx. split; [|done].
    unfold h1. rewrite set_pbuf_other; [done|]. by intros ->. }
  assert (Hs : size (pbufs h1) = size (pbufs h)) by (unfold h1; simpl; by rewrite map_size_insert, Hb).
  destruct (pbuf_free_ok _ _ _ K1) as (h2 & k & Ef & K2 & (Em & _ & Sv) & _).
  assert (Lv : ∀ i, pbufs h !! i = None → live (arena h2) !! i = live (arena h) !! i).
  { intros i Hi. assert (Ki : heap_ok h1 (inc r E)) by done.
    rewrite (pbuf_free_live h1 r (inc r E) h2 k i Ki ltac:(unfold inc; rewrite decide_True by done; lia) Ef); [done|].
    unfold h1. rewrite set_pbuf_other; [done|]. intros ->. congruence. }
  change (pbuf_free (Some r) h1) with (free_loop (size (pbufs h1)) (Some r) 0 h1) in Ef.
  destruct (free_loop_upd_next _ _ _ _ _ _ _ q _ (Some r) C1 Hn (set_pbuf_lookup _ _ _) Ef) as [Hq2 Ef2].
  assert (Eh : with_pbufs (<[q := set_next (Some r) (set_next None b)]> (pbufs h1)) h1 = h).
  { change (set_pbuf q (set_next (Some r) (set_next None b)) h1 = h). unfold h1. rewrite set_pbuf_twice.
    assert (set_next (Some r) (set_next None b) = b) as -> by (unfold set_next; simpl; rewrite <- Hnx; by destruct b). by apply set_pbuf_id. }
  rewrite Eh, Hs in Ef2. unfold pbuf_free. rewrite Ef2. cbn [mbind option_bind]. unfold upd. simpl. rewrite lookup_insert_eq. cbn [mbind option_bind].
  exists h2. split_and!; try done.
  - f_equal. unfold with_pbufs. simpl. rewrite insert_insert_eq, insert_id; [by destruct h2|]. rewrite Hq2. done.
  - intros x Hx. rewrite (free_elsewhere h1 r l _ h2 k K1 C1 Ef x) by set_solver. apply set_pbuf_other. set_solver.
Qed.

(** A shorter read is the first part of a longer one. *)
Lemma read_mem_take m a k n : (k ≤ n)%nat → read_mem m a k = take k (read_mem m a n).
Proof.
  intros Hk. apply list_eq. intros i. destruct (decide (i < k)%nat).
  - rewrite lookup_take_lt, !lookup_read_mem by lia. done.
  - rewrite !lookup_ge_None_2; [done|rewrite length_take, length_read_mem; lia|rewrite length_read_mem; lia].
Qed.

(** Trimming a packet to its first [n'] octets: only its own pbufs and their
    blocks are touched. *)
Definition trimmed h h' l l' (n' : Z) : Prop :=
  packet_data h' l' = take (Z.to_nat n') (packet_data h l) ∧ (∀ x, x ∉ l → pbufs h' !! x = pbufs h !! x) ∧
  ∀ i, pbufs h !! i = None → live (arena h') !! i = live (arena h) !! i.

Lemma packet_data_ext h h' l : mem h' = mem h →
  (∀ a, a ∈ l → ∀ b, pbufs h !! a = Some b → ∃ b', pbufs h' !! a = Some b' ∧ payload b' = payload b ∧ len b' = len b) →
  (∀ a, a ∈ l → is_Some (pbufs h !! a)) → packet_data h' l = packet_data h l.
Proof.
  intros Em Hb Hs. unfold packet_data. f_equal. apply list_fmap_ext. intros i a Ha%list_elem_of_lookup_2. unfold pbuf_data.
  destruct (Hs a Ha) as [b Eb]. destruct (Hb a Ha b Eb) as (b' & -> & -> & ->). by rewrite Eb, Em.
Qed.

Lemma trimmed_data h h' l1 z l2 bz (n' rem : Z) :
  packet_data h' l1 = packet_data h l1 → mem h' = mem h → pbufs h !! z = Some bz →
  (∃ b', pbufs h' !! z = Some b' ∧ payload b' = payload bz ∧ len b' = rem) → 0 <= rem <= len bz →
  n' = Z.of_nat (length (packet_data h' l1)) + rem →
  packet_data h' (l1 ++ [z]) = take (Z.to_nat n') (packet_data h (l1 ++ z :: l2)).
Proof.
  intros E1 Em Hz (b' & Hb' & Ep & El) Hr ->. rewrite !packet_data_app, E1.
  change (packet_data h (z :: l2)) with (pbuf_data h z ++ packet_data h l2). rewrite take_app.
  rewrite take_ge by lia. f_equal. replace (Z.to_nat _ - length (packet_data h l1))%nat with (Z.to_nat rem) by lia.
  unfold packet_data at 1. simpl. rewrite app_nil_r. unfold pbuf_data. rewrite Hb', Hz, Ep, El, Em.
  rewrite take_app_le by (rewrite length_read_mem; lia). apply read_mem_take. lia.
Qed.

Lemma pbuf_realloc_full h p l n n' E :
  heap_ok h E → packet h (Some p) l n 0 → plain h l → 0 <= n' <= n → n < 65536 →
  ∃ h' l', pbuf_realloc p n' h = Some h' ∧ heap_ok h' E ∧ packet h' (Some p) l' n' 0 ∧ plain h' l' ∧ mem h' = mem h ∧ l' `prefix_of` l ∧
    (∀ b, pbufs h !! p = Some b → ∃ b', pbufs h' !! p = Some b' ∧ payload b' = payload b ∧ type b' = type b ∧ flags b' = flags b ∧ ref b' = ref b
      ∧ len b' = Z.min (len b) n') ∧ trimmed h h' l l' n'.
Proof.
  intros K P Pl Hn' Hn. destruct (packet_first _ _ _ _ P) as (b & l0 & -> & Hb & Ht & Hl). unfold pbuf_realloc. rewrite Hb. cbn [mbind option_bind].
  rewrite Ht. destruct (Z.leb_spec n n').
  { assert (n' = n) as -> by lia. exists h, (p :: l0). split_and!; try done.
    - intros b0 Hb0. assert (b0 = b) as -> by congruence. exists b. split_and!; try done. lia.
    - split; [|done]. pose proof (length_packet_data h 0 _ _ _ P). by rewrite take_ge by lia. }
  destruct (realloc_loop_ok E (p :: l0) (size (pbufs h)) h p n n' (n' - n) K P) as (h1 & l1 & z & l2 & rem & nz & E1 & El & K1 & M1 & Fr1 & P1 & Hnz & (bz & Hbz & Hrem) & Hlt & Fin);
    [lia..|pose proof (chain_of_size _ _ _ (packet_chain _ _ _ _ _ P)); lia|].
  rewrite E1. cbn [mbind option_bind]. rewrite Hbz. cbn [mbind option_bind].
  assert (Hz : is_custom (flags bz) = false ∧ live (arena h1) !! z = Some (block_of bz)).
  { split; [|by apply (ok_live _ _ K1)]. destruct M1 as (_ & _ & _ & _ & M1). destruct (M1 z) as [M2 M3].
    destruct (pbufs h !! z) as [b0|] eqn:Hb0; [|rewrite M3 in Hbz; done]. destruct (M2 b0 eq_refl) as (b1 & Hb1 & S1).
    assert (b1 = bz) as -> by congruence. destruct S1 as (_ & _ & _ & -> & _). apply (Pl z); [rewrite El; set_solver|done]. }
  destruct Hz as [Hcu Hlive].
  set (h2 := if decide (type bz = PBUF_RAM) then _ else h1).
  assert (H2 : heap_ok h2 E ∧ pbufs h2 = pbufs h1 ∧ mem h2 = mem h1 ∧ live (arena h2) = live (arena h)).
  { assert (Ea1 : arena h1 = arena h) by apply M1. rewrite <- Ea1.
    unfold h2. destruct (decide (type bz = PBUF_RAM)) as [Ety|]; [|done]. case_match; [done|].
    assert (Elv : live (mem_trim z (u16 (payload bz - z) + rem) (arena h1)) = live (arena h1)).
    { apply mem_trim_live. rewrite Hlive. unfold block_of. by rewrite Hcu, Ety. }
    split; [by apply with_arena_ok|done]. }
  clearbody h2. destruct H2 as (K2 & Ep2 & Em2 & Ea2). rewrite (upd_set z _ bz h2) by (by rewrite Ep2). cbn [mbind option_bind].
  rewrite (upd_set z _ (set_len rem bz)) by apply set_pbuf_lookup. cbn [mbind option_bind]. rewrite set_pbuf_twice.
  set (b3 := set_tot_len rem (set_len rem bz)). set (h3 := set_pbuf z b3 h2). assert (E3 : h3 = set_pbuf z b3 h2) by done.
  assert (K3 : heap_ok h3 E) by (rewrite E3; refine (set_pbuf_ok h2 z bz _ E K2 _ _ _ _); [by rewrite Ep2|done..]).
  assert (Hz1 : z ∉ l2). { pose proof (chain_of_nodup _ _ _ (packet_chain _ _ _ _ _ P1)) as [? _]%NoDup_cons. done. }
  pose proof (packet_chain _ _ _ _ _ P) as C0. pose proof (chain_of_nodup _ _ _ C0) as ND. rewrite El in ND. apply NoDup_app in ND as (_ & D & _).
  assert (C3 : chain_of h3 (Some z) (z :: l2)).
  { eapply chain_of_frame; [|eapply packet_chain; exact P1]. intros x bx Hx Hbx. rewrite E3. destruct (decide (x = z)) as [->|Hne].
    - exists b3. rewrite set_pbuf_lookup. split; [done|]. assert (bx = bz) as -> by congruence. done.
    - exists bx. rewrite set_pbuf_other, Ep2 by done. done. }
  assert (Hz3 : pbufs h3 !! z = Some b3) by (by rewrite E3, set_pbuf_lookup).
  destruct (cut_ok h3 z b3 l2 E K3 C3 Hz3) as (h' & E4 & K4 & Hz4 & Em4 & Fr4 & Lv4). change (next bz) with (next b3). rewrite E4.
  assert (Fr : ∀ x, x ∈ l1 → pbufs h' !! x = pbufs h1 !! x).
  { intros x Hx. rewrite Fr4, E3, set_pbuf_other, Ep2; [done|intros ->; apply (D z Hx); by left|by apply D]. }
  assert (Em' : mem h' = mem h) by (rewrite Em4, E3; simpl; rewrite Em2; apply M1).
  assert (P' : packet h' (Some p) (l1 ++ [z]) n' 0).
  { apply Fin; [done|]. split; [done|]. eexists. split; [exact Hz4|]. simpl. split_and!; done || lia. }
  assert (Tr : trimmed h h' (l1 ++ z :: l2) (l1 ++ [z]) n').
  { pose proof M1 as (_ & _ & _ & _ & Mp).
    assert (Hall : ∀ x bx, pbufs h !! x = Some bx → ∃ b1, pbufs h1 !! x = Some b1 ∧ payload b1 = payload bx ∧ len b1 = len bx).
    { intros x bx Hx. destruct (Mp x) as [Mp1 _]. destruct (Mp1 bx Hx) as (b1 & Hb1 & Sp & Sl & _). by exists b1. }
    assert (Hsome : ∀ x, x ∈ l1 ++ z :: l2 → is_Some (pbufs h !! x)).
    { intros x Hx. rewrite <- El in Hx. by eapply chain_of_in. }
    destruct (Hsome z ltac:(set_solver)) as [bz0 Hbz0]. destruct (Hall z bz0 Hbz0) as (b1 & Hb1 & Sp & Sl). assert (b1 = bz) as -> by congruence.
    split; [|split].
    - apply (trimmed_data h h' l1 z l2 bz0 n' rem); [|done|done|eexists; split; [exact Hz4|simpl; by rewrite Sp]|lia|].
      + apply packet_data_ext; [done| |intros a Ha; apply Hsome; set_solver]. intros a Ha ba Hba. rewrite (Fr a Ha). by apply Hall.
      + pose proof (length_packet_data h' 0 _ _ _ P') as Lp. rewrite packet_data_app, length_app, Nat2Z.inj_add in Lp.
        unfold packet_data at 2 in Lp. simpl in Lp. rewrite app_nil_r in Lp. rewrite (length_pbuf_data h' z _ Hz4) in Lp by (simpl; lia). simpl in Lp. lia.
    - intros x Hx. rewrite Fr4, E3, set_pbuf_other, Ep2 by set_solver. apply Fr1. set_solver.
    - intros i Hi. rewrite Lv4; [rewrite E3; simpl; by rewrite Ea2|]. rewrite E3. destruct (Mp i) as [_ Mp2].
      rewrite set_pbuf_other, Ep2 by (intros ->; congruence). by apply Mp2. }
  rewrite <- El in Tr.
  exists h', (l1 ++ [z]). split; [done|]. split; [done|]. split; [done|split; [|split; [done|split; [|split; [|exact Tr]]]]].
  - intros a ba Ha Hba. apply elem_of_app in Ha as [Ha| ->%list_elem_of_singleton].
    + rewrite Fr in Hba by done. split; [|intros _; by eapply Hlt]. destruct M1 as (_ & _ & _ & _ & M1). destruct (M1 a) as [M2 M3].
      destruct (pbufs h !! a) as [b0|] eqn:Hb0; [|rewrite M3 in Hba; done]. destruct (M2 b0 eq_refl) as (b1 & Hb1 & S1).
      assert (b1 = ba) as -> by congruence. destruct S1 as (_ & _ & _ & -> & _). apply (Pl a); [rewrite El; set_solver|done].
    + rewrite Hz4 in Hba. injection Hba as <-. done.
  - rewrite El. exists l2. by rewrite <- app_assoc.
  - intros b0 Hb0. assert (b0 = b) as -> by congruence. destruct M1 as (_ & _ & _ & _ & M1). destruct (M1 p) as [M2 _].
    destruct (M2 b Hb) as (b1 & Hb1 & S1). destruct S1 as (Sp & Sl & Sty & Sf & Sr). destruct l1 as [|x l1].
    + simpl in El. injection El as <- <-. assert (b1 = bz) as -> by congruence. eexists. split; [exact Hz4|]. simpl. split_and!; try done.
      pose proof (Fin h' ltac:(intros x; set_solver)) as F0. destruct F0 as (_ & b9 & Hb9 & Ht9 & _).
      { split; [done|]. eexists. split; [exact Hz4|]. simpl. split_and!; done || lia. }
      rewrite Hz4 in Hb9. injection Hb9 as <-. simpl in Ht9. lia.
    + simpl in El. injection El as <- El. exists b1. rewrite (Fr p) by (by left). split_and!; try done.
      pose proof (Hlt p b1 ltac:(by left) Hb1) as L1.
      pose proof (Fin h' Fr) as F0. destruct F0 as (_ & b9 & Hb9 & Ht9 & _).
      { split; [done|]. eexists. split; [exact Hz4|]. simpl. split_and!; done || lia. }
      rewrite (Fr p) in Hb9 by (by left). assert (b9 = b1) as -> by congruence. lia.
Qed.

Lemma pbuf_realloc_ok h p l n n' E :
  heap_ok h E → packet h (Some p) l n 0 → plain h l → 0 <= n' <= n → n < 65536 →
  ∃ h' l', pbuf_realloc p n' h = Some h' ∧ heap_ok h' E ∧ packet h' (Some p) l' n' 0 ∧ plain h' l' ∧ mem h' = mem h ∧ l' `prefix_of` l ∧
    ∀ b, pbufs h !! p = Some b → ∃ b', pbufs h' !! p = Some b' ∧ payload b' = payload b ∧ type b' = type b ∧ flags b' = flags b ∧ ref b' = ref b
      ∧ len b' = Z.min (len b) n'.
Proof.
  intros K P Pl Hn' Hn. destruct (pbuf_realloc_full h p l n n' E K P Pl Hn' Hn) as (h' & l' & R1 & R2 & R3 & R4 & R5 & R6 & R7 & _).
  exists h', l'. by split_and!.
Qed.

(** ** [pbuf_copy] into one pbuf *)
Definition same_pbufs h h' : Prop :=
  pbufs h' = pbufs h ∧ arena h' = arena h ∧ raw_flags h' = raw_flags h ∧ ooseq_pending h' = ooseq_pending h.

Lemma same_pbufs_refl h : same_pbufs h h.
Proof. done. Qed.

Lemma same_pbufs_trans h1 h2 h3 : same_pbufs h1 h2 → same_pbufs h2 h3 → same_pbufs h1 h3.
Proof. unfold same_pbufs. intuition congruence. Qed.

Lemma with_mem_same m h : same_pbufs h (with_mem m h).
Proof. done. Qed.

Lemma same_pbufs_ok h h' E : same_pbufs h h' → heap_ok h E → heap_ok h' E.
Proof. intros (Hp & Ha & Hr & _) [K1 K2 K3 K4 K5]. constructor; rewrite ?Hp, ?Ha, ?Hr; done. Qed.

Lemma same_pbufs_packet h h' : same_pbufs h h' → ∀ l (o : option Z) n rem, packet h o l n rem → packet h' o l n rem.
Proof. intros [Hp _] l o n rem P. eapply packet_frame; [|exact P]. intros a _. by rewrite Hp. Qed.

Lemma same_pbufs_plain h h' l : same_pbufs h h' → plain h l → plain h' l.
Proof. intros [Hp _] Pl a b. rewrite Hp. apply Pl. Qed.

Lemma starts_queue_plain h o l n : packet h o l n 0 → plain h l → starts_queue o h = Some false.
Proof.
  intros P Pl. destruct l as [|a l]; [by destruct P as [-> _]|]. destruct P as (-> & b & Hb & _). cbn [starts_queue]. rewrite Hb. cbn [mbind option_bind].
  destruct (Pl a b ltac:(by left) Hb) as [_ Hn]. destruct (next b); [|by rewrite andb_false_r]. rewrite (proj2 (Z.eqb_neq _ _)); [done|].
  specialize (Hn ltac:(done)). lia.
Qed.

Lemma copy_loop_ok to bt : next bt = None → tot_len bt = len bt → len bt < 65536 → ∀ l fuel h from n off,
  packet h (Some from) l n 0 → plain h l → pbufs h !! to = Some bt → 0 <= off → off + n <= len bt → (length l ≤ fuel)%nat →
  ∃ h', copy_loop fuel (Some to) (Some from) off 0 h = Some (h', ERR_OK) ∧ same_pbufs h h'.
Proof.
  intros Hnt Htt Hlt. induction l as [|a l IH]; intros fuel h from n off P Pl Hto Ho Hle Hf; [by destruct P|].
  destruct fuel as [|fuel]; [simpl in Hf; lia|]. destruct P as ([= <-] & bf & Hbf & Ht & Hl & P). pose proof (packet_le _ _ _ _ _ P) as Hle0.
  cbn [copy_loop]. cbn [mbind option_bind]. rewrite Hto. cbn [mbind option_bind]. rewrite Hbf. cbn [mbind option_bind].
  rewrite Z.sub_0_r, (proj2 (Z.leb_le (len bf) (len bt - off))) by lia. rewrite (u16_id (len bf)) by (unfold is_u16; lia).
  rewrite (u16_id (off + len bf)), (u16_id (0 + len bf)) by (unfold is_u16; lia). unfold lwip_assert.
  rewrite (proj2 (Z.leb_le (off + len bf) (len bt))), Z.add_0_l, Z.leb_refl by lia. cbn [mbind option_bind].
  set (h1 := with_mem _ h). assert (P1 : packet h1 (next bf) l (n - len bf) 0) by (eapply packet_frame; [|exact P]; done).
  assert (Pl1 : plain h1 l) by (intros x b Hx; apply Pl; by right).
  destruct (Pl from bf ltac:(by left) Hbf) as [_ Hrest].
  destruct (next bf) as [nx|] eqn:Hnx.
  - rewrite (proj2 (Z.eqb_neq (off + len bf) (len bt))) by (specialize (Hrest ltac:(done)); lia).
    rewrite bool_decide_eq_false_2 by done. cbn [andb]. rewrite (starts_queue_plain h1 _ l _ P1 Pl1). cbn [mbind option_bind starts_queue].
    change (pbufs h1) with (pbufs h). rewrite Hto. cbn [mbind option_bind]. rewrite Hnt, andb_false_r.
    destruct (IH fuel h1 nx (n - len bf) (off + len bf) P1 Pl1 Hto) as (h' & E & Sm); [lia|lia|simpl in Hf; lia|].
    exists h'. split; [exact E|]. exact Sm.
  - rewrite (bool_decide_eq_true_2 (@None Z = None)) by done. cbn [negb]. rewrite Hnt.
    destruct (off + len bf =? len bt) eqn:Ee; rewrite andb_false_r; cbn [starts_queue mbind option_bind]; [by exists h1|].
    change (pbufs h1) with (pbufs h). rewrite Hto. cbn [mbind option_bind]. rewrite Hnt, andb_false_r. by exists h1.
Qed.

(** A buffer of one pbuf takes a packet that is not longer; only memory changes. *)
Lemma pbuf_copy_ok h to bt p l n : pbufs h !! to = Some bt → next bt = None → tot_len bt = len bt → len bt < 65536 →
  packet h (Some p) l n 0 → plain h l → n <= len bt →
  ∃ h', pbuf_copy (Some to) (Some p) h = Some (h', ERR_OK) ∧ same_pbufs h h'.
Proof.
  intros Hto Hn Ht Hl P Pl Hle. destruct (packet_first _ _ _ _ P) as (b & l' & El & Hb & Htb & Hlb). unfold pbuf_copy. rewrite Hto, Hb.
  cbn [mbind option_bind]. rewrite Htb, Ht, (proj2 (Z.leb_le n (len bt))) by lia.
  eapply copy_loop_ok; try done. pose proof (chain_of_size _ _ _ (packet_chain _ _ _ _ _ P)). lia.
Qed.

(** A destination that is too short is refused. *)
Lemma pbuf_copy_short h to bt p b : pbufs h !! to = Some bt → pbufs h !! p = Some b → tot_len bt < tot_len b →
  pbuf_copy (Some to) (Some p) h = Some (h, ERR_ARG).
Proof. intros Hto Hb Hlt. unfold pbuf_copy. rewrite Hto, Hb. cbn [mbind option_bind]. by rewrite (proj2 (Z.leb_gt _ _)). Qed.

(** What [pbuf_alloc] makes in RAM is one pbuf. *)
Lemma pbuf_alloc_ram h E layer n : heap_ok h E → 0 <= n < 65536 →
  ∃ h' r, pbuf_alloc layer n PBUF_RAM h = Some (h', r) ∧
    match r with
    | Some q => ∃ b, heap_ok h' (inc q E) ∧ pbufs h !! q = None ∧ pbufs h' = <[q := b]> (pbufs h) ∧ mem h' = mem h ∧
        q + SIZEOF_STRUCT_PBUF + layer_offset layer <= payload b ∧
        next b = None ∧ tot_len b = n ∧ len b = n ∧ type b = PBUF_RAM ∧ flags b = 0 ∧ ref b = 1
    | None => h' = h
    end.
Proof.
  intros K Hn. unfold pbuf_alloc. destruct (mem_malloc _ _) as [[q a]|] eqn:Em; [|by exists h, None].
  destruct (mem_malloc_fresh _ _ _ _ Em) as (Hq & Ha & Hq4 & Hq0). unfold lwip_assert.
  destruct (align_4 (q + SIZEOF_STRUCT_PBUF + layer_offset layer)) as [-> Hal]. cbn [mbind option_bind Z.eqb].
  eexists _, (Some q). split; [done|]. set (b := MkPbuf _ _ _ _ _ _ _). exists b. split_and!; try done.
  - by apply (fresh_ok h q b a E).
  - by eapply not_live_none.
  - unfold b. simpl. lia.
Qed.

(** Freeing what was just allocated. *)
Lemma free_alloc_ok h h1 q b E : heap_ok h1 (inc q E) → pbufs h1 !! q = Some b → pbufs h1 = <[q := b]> (pbufs h) → pbufs h !! q = None →
  next b = None → ref b = 1 → ∃ h' k, pbuf_free (Some q) h1 = Some (h', k) ∧ heap_ok h' E ∧ pbufs h' = pbufs h ∧ mem h' = mem h1.
Proof.
  intros K Hq Hp Hno Hn Hr. destruct (pbuf_free_ok _ _ _ K) as (h' & k & E1 & K' & (Em & _ & _) & _). exists h', k. split_and!; try done.
  destruct (free_loop_chain [q] (size (pbufs h1)) h1 (Some q) 0) as (h2 & k2 & E2 & Ep & _).
  { split; [done|]. by exists b. }
  { rewrite Hp, map_size_insert_None by done. simpl. lia. }
  { intros a ba ->%list_elem_of_singleton Ha. assert (ba = b) as -> by congruence. lia. }
  unfold pbuf_free in E1. rewrite E1 in E2. injection E2 as <- <-. rewrite Ep. simpl. rewrite Hq, Hr. simpl. rewrite Hp. by apply delete_insert_id.
Qed.
End move.
