(* ===== verification/EtharpOut.v ===== *)
(** * The ARP cache: sending a packet

    [etharp_output] and what it calls keep the cache well formed and the
    references of the packets accounted for, whatever happens to the packet:
    a frame, the queue of a pending entry, an error. *)
From S2P Require Import Prelude LwipDef Chksum Memp Pbuf PbufRef PbufOwn PbufData PbufMove IpAddr.
From S2P Require Import Etharp EtharpOk.
Local Open Scope Z_scope.

Section out.
Context {A : Type} `{HL : ArenaLaws A}.
Context (linkoutput : netif → Z → heap A → Z).
Implicit Types (st : arp A) (n : netif) (p : Z) (E : Z → nat).

(** The cache as before, the packets too; frames went out. *)
Definition only_sent st st' : Prop :=
  arp_table st' = arp_table st ∧ same_pbufs (pheap st) (pheap st') ∧ etharp_cached_entry st' = etharp_cached_entry st ∧ ∃ fs, sent st' = sent st ++ fs.

Lemma only_sent_ok E st st' : only_sent st st' → arp_ok E st → arp_ok E st'.
Proof. intros (Et & Sp & _) [K T]. unfold arp_ok. rewrite Et. split; [|done]. by eapply same_pbufs_ok. Qed.

Lemma link_output_ok n p st b : pbufs (pheap st) !! p = Some b →
  ∃ st' r, link_output linkoutput n p st = Some (st', r) ∧ only_sent st st'.
Proof.
  intros Hb. unfold link_output. rewrite Hb. cbn [mbind option_bind]. eexists _, _. split; [done|]. split; [done|]. split; [done|]. split; [done|]. by eexists.
Qed.

Lemma only_sent_heap st st' h : same_pbufs (pheap st) h → only_sent (set_heap h st) st' → only_sent st st'.
Proof. intros Sp (Et & Sp' & Es). split; [exact Et|]. split; [by eapply same_pbufs_trans|exact Es]. Qed.

Lemma send_ip_only n p src dst st b : pbufs (pheap st) !! p = Some b → hwaddr_len n = ETHARP_HWADDR_LEN →
  ∃ st' r, etharp_send_ip linkoutput n p src dst st = Some (st', r) ∧ only_sent st st'.
Proof.
  intros Hb Hh. unfold etharp_send_ip. rewrite Hb. cbn [mbind option_bind]. unfold lwip_assert. rewrite Hh, Z.eqb_refl. cbn [mbind option_bind].
  set (h := poke _ _ _). destruct (link_output_ok n p (set_heap h st) b Hb) as (st' & r & E & O). exists st', r. split; [exact E|].
  by eapply (only_sent_heap st st' h).
Qed.

(** ** Requests *)
Definition same_packets (h h' : heap A) : Prop := pbufs h' = pbufs h.

Lemma poke_same a l (h : heap A) : same_pbufs h (poke a l h).
Proof. done. Qed.

Lemma write_arp_same eth ethsrc ethdst hwsrc ipsrc hwdst ipdst opcode (h : heap A) :
  same_pbufs h (write_arp eth ethsrc ethdst hwsrc ipsrc hwdst ipdst opcode h).
Proof. unfold write_arp. cbv zeta. repeat (eapply same_pbufs_trans; [|apply poke_same]). apply same_pbufs_refl. Qed.

Lemma raw_ok E n ethsrc ethdst hwsrc ipsrc hwdst ipdst opcode st : arp_ok E st → hwaddr_len n = ETHARP_HWADDR_LEN →
  ∃ st' r, etharp_raw linkoutput n ethsrc ethdst hwsrc ipsrc hwdst ipdst opcode st = Some (st', r) ∧ arp_ok E st' ∧
    arp_table st' = arp_table st ∧ etharp_cached_entry st' = etharp_cached_entry st ∧ same_packets (pheap st) (pheap st').
Proof.
  intros [K T] Hh. unfold etharp_raw.
  destruct (pbuf_alloc_ram (pheap st) _ PBUF_RAW SIZEOF_ETHARP_PACKET K ltac:(unfold SIZEOF_ETHARP_PACKET; lia)) as (h1 & r & E1 & R).
  rewrite E1. cbn [mbind option_bind]. destruct r as [q|].
  2:{ subst h1. exists st, ERR_MEM. split; [by destruct st|]. by split. }
  destruct R as (b & K1 & Hno & Hp & _ & _ & Hn & Ht & Hl & _ & _ & Hr).
  assert (Hq : pbufs h1 !! q = Some b) by (rewrite Hp; apply lookup_insert_eq). rewrite Hq. cbn [mbind option_bind].
  rewrite (assert_true (_ <=? _)) by (rewrite Hl; apply Z.leb_refl). rewrite (assert_true (_ =? _)) by (rewrite Hh; apply Z.eqb_refl). rewrite !some_bind.
  pose proof (write_arp_same (payload b) ethsrc ethdst hwsrc ipsrc hwdst ipdst opcode h1) as S2. generalize dependent (write_arp (payload b) ethsrc ethdst hwsrc ipsrc hwdst ipdst opcode h1). intros h2 S2.
  destruct (link_output_ok n q (set_heap h2 st) b) as (st3 & r3 & E3 & O3); [cbn; by destruct S2 as [-> _]|].
  rewrite E3. cbn [mbind option_bind]. destruct O3 as (T3 & S3 & C3 & _). cbn in T3, S3, C3.
  assert (S13 : same_pbufs h1 (pheap st3)) by (by eapply same_pbufs_trans).
  destruct (free_alloc_ok (pheap st) (pheap st3) q b (with_queue (arp_table st) E)) as (h4 & k & E4 & K4 & P4 & _); try done.
  { by eapply same_pbufs_ok. }
  { by destruct S13 as [-> _]. }
  { by destruct S13 as [-> _]. }
  unfold free_pbuf. rewrite E4. cbn [mbind option_bind]. eexists _, _. split; [done|]. unfold arp_ok. cbn. by rewrite T3.
Qed.

Lemma request_ok E n ip st : arp_ok E st → hwaddr_len n = ETHARP_HWADDR_LEN →
  ∃ st' r, etharp_request linkoutput n ip st = Some (st', r) ∧ arp_ok E st' ∧ arp_table st' = arp_table st ∧ etharp_cached_entry st' = etharp_cached_entry st ∧ same_packets (pheap st) (pheap st').
Proof. apply raw_ok. Qed.

(** ** The address is known *)
Lemma stable_no_queue t i e : table_ok t → t !! i = Some e → at_least_stable (state e) = true → q e = None.
Proof. intros T Hi Hs. destruct (q e) eqn:Hq; [|done]. rewrite (tab_queue _ T i e Hi) in Hs by (by rewrite Hq). done. Qed.

Lemma rerequesting_ok E st i e : arp_ok E st → arp_table st !! i = Some e → state e = ETHARP_STATE_STABLE →
  arp_ok E (upd_entry i (set_state ETHARP_STATE_STABLE_REREQUESTING) st).
Proof.
  intros [K T] Hi Hs. split; [by apply heap_ok_table|]. cbn. rewrite (alter_insert _ _ _ _ Hi).
  apply (table_ok_insert _ i _ e T Hi).
  - intros _. left. split; [|done]. unfold occupied. by rewrite Hs.
  - cbn. intros Hq. destruct Hq. apply (stable_no_queue _ i e T Hi). by rewrite Hs.
  - cbn. by apply (tab_age _ T i e).
Qed.

Lemma to_index_ok E n p i e st b : arp_ok E st → arp_table st !! i = Some e → at_least_stable (state e) = true →
  pbufs (pheap st) !! p = Some b → hwaddr_len n = ETHARP_HWADDR_LEN →
  ∃ st' r, etharp_output_to_arp_index linkoutput n p i st = Some (st', r) ∧ arp_ok E st' ∧ etharp_cached_entry st' = etharp_cached_entry st.
Proof.
  intros K Hi Hs Hb Hh. unfold etharp_output_to_arp_index. rewrite Hi. cbn [mbind option_bind]. unfold lwip_assert. rewrite Hs. cbn [mbind option_bind].
  assert (Go : ∀ st1 e1, arp_ok E st1 → arp_table st1 !! i = Some e1 → same_packets (pheap st) (pheap st1) → etharp_cached_entry st1 = etharp_cached_entry st →
    ∃ st' r, (e ← arp_table st1 !! i; etharp_send_ip linkoutput n p (hwaddr n) (ethaddr e) st1) = Some (st', r) ∧ arp_ok E st' ∧ etharp_cached_entry st' = etharp_cached_entry st).
  { intros st1 e1 K1 Hi1 S1 C1. rewrite Hi1. cbn [mbind option_bind].
    destruct (send_ip_only n p (hwaddr n) (ethaddr e1) st1 b) as (st' & r & E' & O); [by rewrite S1|done|].
    exists st', r. split; [exact E'|]. split; [by eapply only_sent_ok|]. destruct O as (_ & _ & -> & _). done. }
  destruct (bool_decide_reflect (state e = ETHARP_STATE_STABLE)) as [Hst|]; cbn [andb]; [|by apply (Go st e)].
  destruct (ARP_AGE_REREQUEST_USED <=? ctime e); [|by apply (Go st e)].
  destruct (request_ok E n (ipaddr e) st K Hh) as (st1 & r1 & E1 & K1 & T1 & C1 & S1). rewrite E1. cbn [mbind option_bind].
  destruct (r1 =? ERR_OK).
  - apply (Go _ (set_state ETHARP_STATE_STABLE_REREQUESTING e)); [|cbn; by rewrite list_lookup_alter_eq, T1, Hi|done|done].
    apply (rerequesting_ok E st1 i e); [done|by rewrite T1|done].
  - apply (Go _ e); [done|by rewrite T1|done|done].
Qed.

(** ** Taking a packet over *)
Lemma take_over_ok (h : heap A) p l (n : Z) E : heap_ok h E → packet h (Some p) l n 0 → plain h l → n < 65536 →
  (∃ b, pbufs h !! p = Some b ∧ type b ≠ PBUF_ROM) →
  ∃ h' o, take_over p h = Some (h', o) ∧ heap_ok h' (inc_opt o E).
Proof.
  intros K P Pl Hn (bx & Hbx & Hr). unfold take_over.
  destruct (packet_first _ _ _ _ P) as (b0 & l0 & El & Hb0 & Ht & Hl). assert (b0 = bx) as -> by congruence.
  assert (E1 : copy_scan (size (pbufs h)) (Some p) h = Some (Some p)).
  { destruct (size (pbufs h)) eqn:Es; [apply map_size_empty_inv in Es; by rewrite Es in Hbx|]. cbn [copy_scan]. rewrite Hbx, some_bind, assert_true, some_bind.
    - by rewrite decide_False.
    - destruct (Pl p bx) as [_ Hn']; [rewrite El; by left|done|]. case_bool_decide; [by rewrite orb_true_r|]. rewrite orb_false_r. specialize (Hn' ltac:(done)). lia. }
  rewrite E1, some_bind, Hbx, some_bind.
  destruct (pbuf_alloc_ram h E PBUF_RAW (tot_len bx) K ltac:(lia)) as (h1 & o & E2 & R). rewrite E2, some_bind.
  destruct o as [c|]; [|subst h1; exists h, None; by split].
  destruct R as (bc & K1 & Hno & Hp1 & _ & _ & Hnc & Htc & Hlc & _).
  assert (Hc : pbufs h1 !! c = Some bc) by (rewrite Hp1; apply lookup_insert_eq).
  assert (Hother : ∀ a, a ∈ l → pbufs h1 !! a = pbufs h !! a).
  { intros a Ha. rewrite Hp1, lookup_insert_ne; [done|]. intros ->. destruct (chain_of_in _ _ _ _ (packet_chain _ _ _ _ _ P) Ha) as [? ?]. congruence. }
  assert (P1 : packet h1 (Some p) l n 0) by (by eapply packet_frame).
  assert (Pl1 : plain h1 l) by (by eapply plain_frame).
  destruct (decide (n <= tot_len bx)) as [Hle|Hgt].
  - destruct (pbuf_copy_ok h1 c bc p l n Hc Hnc ltac:(congruence) ltac:(lia) P1 Pl1 ltac:(lia)) as (h2 & E3 & S3). rewrite E3, some_bind, Z.eqb_refl.
    exists h2, (Some c). split; [done|]. by eapply same_pbufs_ok.
  - destruct (packet_first _ _ _ _ P1) as (b1 & l' & _ & Hb1 & Ht1 & _).
    rewrite (pbuf_copy_short h1 c bc p b1 Hc Hb1) by lia. rewrite some_bind. change (ERR_ARG =? ERR_OK) with false. cbv iota.
    destruct (pbuf_free_ok h1 c E K1) as (h2 & k & E4 & K4 & _). rewrite E4, some_bind. exists h2, None. by split.
Qed.

(** ** [etharp_query] and [etharp_output] *)

(** A packet that may be handed down. *)
Definition sendable (h : heap A) p : Prop :=
  ∃ l (n : Z) b, packet h (Some p) l n 0 ∧ plain h l ∧ n < 65536 ∧ pbufs h !! p = Some b ∧ type b ≠ PBUF_ROM.

Lemma sendable_same (h h' : heap A) p : pbufs h' = pbufs h → sendable h p → sendable h' p.
Proof.
  intros Ep (l & n & b & P & Pl & Hn & Hb & Hr). exists l, n, b. rewrite Ep. split_and!; try done.
  - eapply packet_frame; [|exact P]. intros a _. by rewrite Ep.
  - intros a ba. rewrite Ep. apply Pl.
Qed.

Lemma pending_ok E st i e : arp_ok E st → arp_table st !! i = Some e → state e = ETHARP_STATE_EMPTY →
  (∀ j e1, arp_table st !! j = Some e1 → occupied e1 → ipaddr e1 ≠ ipaddr e) →
  arp_ok E (upd_entry i (set_state ETHARP_STATE_PENDING) st).
Proof.
  intros [K T] Hi He Hu. split; [by apply heap_ok_table|]. cbn. rewrite (alter_insert _ _ _ _ Hi).
  apply (table_ok_insert _ i _ e T Hi).
  - intros _. right. intros j e1 Hj _ Ho. cbn. by apply (Hu j).
  - done.
  - cbn. by apply (tab_age _ T i e).
Qed.

(** The new packet replaces the one in the queue of a pending entry. *)
Lemma queue_ok E st i e p (h : heap A) : table_ok (arp_table st) → arp_table st !! i = Some e → state e = ETHARP_STATE_PENDING →
  heap_ok h (inc p (with_queue (arp_table st) E)) →
  ∃ st', (st ← match q e with Some old => free_pbuf old (set_heap h st) | None => Some (set_heap h st) end;
          Some (upd_entry i (set_q (Some p)) st, ERR_OK)) = Some (st', ERR_OK) ∧ arp_ok E st' ∧ etharp_cached_entry st' = etharp_cached_entry st.
Proof.
  intros T Hi He K.
  assert (T' : ∀ st1 : arp A, arp_table st1 = arp_table st → table_ok (arp_table (upd_entry i (set_q (Some p)) st1))).
  { intros st1 E1. cbn. rewrite E1, (alter_insert _ _ _ _ Hi). apply (table_ok_insert _ i _ e T Hi).
    - intros Ho. left. done.
    - done.
    - cbn. by apply (tab_age _ T i e). }
  pose proof (λ x, queue_refs_alter (arp_table st) i e (set_q (Some p)) x Hi) as L. unfold holds in L. cbn [q set_q] in L.
  destruct (q e) as [old|] eqn:Hq.
  - set (E1 := with_queue (arp_table (upd_entry i (set_q (Some p)) st)) E).
    assert (K1 : heap_ok h (inc old E1)).
    { eapply heap_ok_ext; [|exact K]. intros x. unfold inc, E1, with_queue. cbn. specialize (L x). repeat case_decide; simplify_eq; lia. }
    destruct (pbuf_free_ok h old E1 K1) as (h' & k & E2 & K2 & _). unfold free_pbuf. cbn [pheap set_heap]. rewrite E2, !some_bind.
    eexists. split; [done|]. split; [|done]. split; [exact K2|]. by apply (T' (set_heap h' (set_heap h st))).
  - rewrite some_bind. eexists. split; [done|]. split; [|done]. split; [|by apply (T' (set_heap h st))]. cbn. eapply heap_ok_ext; [|exact K].
    intros x. unfold inc, with_queue. specialize (L x). repeat case_decide; simplify_eq; lia.
Qed.

(** What freeing leaves of a packet that is still there is the packet. *)
Lemma packet_survives (h h' : heap A) E : survivors h h' → heap_ok h' E → ∀ l (o : option Z) (n : Z), packet h o l n 0 → plain h l →
  (∀ a, o = Some a → is_Some (pbufs h' !! a)) → packet h' o l n 0 ∧ plain h' l.
Proof.
  intros (_ & _ & Sv) K. induction l as [|a l IH]; intros o n P Pl Ho; [split; [exact P|by intros a b ?%not_elem_of_nil]|].
  destruct P as (-> & b & Hb & Ht & Hl & P). destruct (Ho a eq_refl) as [b' Hb']. destruct (Sv a b' Hb') as (b0 & Hb0 & S0).
  assert (b0 = b) as -> by congruence. unfold same_contents in S0.
  assert (Eqs : tot_len b' = tot_len b ∧ len b' = len b ∧ next b' = next b ∧ flags b' = flags b) by (by rewrite S0). destruct Eqs as (Et & El & En & Ef).
  destruct (IH (next b) _ P) as [P' Pl']; [intros x bx Hx; apply Pl; by right|intros y Hy; eapply (ok_next _ _ K); [exact Hb'|congruence]|].
  split.
  - split; [done|]. exists b'. rewrite Et, El, En. by split_and!.
  - intros x bx [->|Hx]%elem_of_cons Hbx; [|by apply (Pl' x)]. assert (bx = b') as -> by congruence. rewrite Ef, En, El, Et. apply (Pl a b); [by left|done].
Qed.

Lemma sendable_survives (h h' : heap A) p E : survivors h h' → heap_ok h' E → E p ≠ 0%nat → sendable h p → sendable h' p.
Proof.
  intros Sv K He (l & n & b & P & Pl & Hn & Hb & Hty). destruct (ok_ext _ _ K p He) as [b' Hb'].
  destruct (packet_survives h h' E Sv K l (Some p) n P Pl) as [P' Pl']; [intros a [= <-]; by eexists|].
  exists l, n, b'. split_and!; try done. destruct Sv as (_ & _ & Sv). destruct (Sv p b' Hb') as (b0 & Hb0 & S0). unfold same_contents in S0.
  assert (b0 = b) as -> by congruence. by rewrite S0.
Qed.

Lemma survivors_refl (h : heap A) : survivors h h.
Proof. split_and!; try done. intros x b Hb. exists b. split; [done|]. unfold same_contents, set_ref. by destruct b. Qed.

Lemma free_entry_survivors E st i st' : heap_ok (pheap st) (with_queue (arp_table st) E) → etharp_free_entry i st = Some st' →
  survivors (pheap st) (pheap st') ∧ etharp_cached_entry st' = etharp_cached_entry st.
Proof.
  intros K Ef. unfold etharp_free_entry in Ef. bind_step Ef as e Hi. bind_step Ef as st1 E1. injection Ef as <-. cbn [pheap etharp_cached_entry set_table upd_entry].
  destruct (q e) as [p|] eqn:Hq.
  - bind_step E1 as st2 E2. injection E1 as <-. cbn. unfold free_pbuf in E2. bind_step E2 as hc E3. destruct hc as [h' c]. injection E2 as <-. cbn.
    destruct (pbuf_free_ok (pheap st) p (with_queue (alter (set_q None) i (arp_table st)) E)) as (h2 & k & E4 & _ & Sv & _).
    { eapply heap_ok_ext; [|exact K]. intros x. unfold inc, with_queue. rewrite (queue_refs_drop _ i e p x Hi Hq). repeat case_decide; lia. }
    rewrite E3 in E4. injection E4 as <- <-. by split.
  - injection E1 as <-. split; [apply survivors_refl|done].
Qed.

Lemma find_entry_survivors E ip flags st st' r : arp_ok E st → etharp_find_entry ip flags st = Some (st', r) →
  survivors (pheap st) (pheap st') ∧ etharp_cached_entry st' = etharp_cached_entry st.
Proof.
  intros [K T] Ef. unfold etharp_find_entry in Ef. destruct (search_table ip 0 (arp_table st) no_candidates) as [i|c]; [injection Ef as <- <-; split; [apply survivors_refl|done]|].
  case_match; [injection Ef as <- <-; split; [apply survivors_refl|done]|]. destruct (c_empty c) as [i|].
  - bind_step Ef as e Hi. bind_step Ef as u Hu. injection Ef as <- <-. destruct ip; (split; [apply survivors_refl|done]).
  - destruct (recycle c) as [i|]; [|injection Ef as <- <-; split; [apply survivors_refl|done]]. bind_step Ef as e Hi. bind_step Ef as u Hu. bind_step Ef as st1 E1.
    destruct (free_entry_survivors _ _ _ _ K E1) as [Sv1 Ec1]. bind_step Ef as e2 Hi2. bind_step Ef as u2 Hu2. injection Ef as <- <-. by destruct ip.
Qed.

Definition cached_ok st : Prop := 0 <= etharp_cached_entry st < Z.of_nat ARP_TABLE_SIZE.

Lemma query_ok E n ip p st : arp_ok E st → cached_ok st → hwaddr_len n = ETHARP_HWADDR_LEN → sendable (pheap st) p → E p ≠ 0%nat →
  ∃ st' r, etharp_query linkoutput n ip (Some p) st = Some (st', r) ∧ arp_ok E st' ∧ cached_ok st'.
Proof.
  intros K Hc Hh Sp He. unfold etharp_query. case_match; [by eexists _, _|].
  destruct (find_entry_ok E ip ETHARP_FLAG_TRY_HARD st K) as (st1 & i & E1 & K1 & _ & Cases). rewrite E1, some_bind.
  destruct (find_entry_survivors E _ _ _ _ _ K E1) as [Sv Ec1]. assert (Hc1 : cached_ok st1) by (unfold cached_ok; by rewrite Ec1).
  assert (Sp1 : sendable (pheap st1) p) by (eapply (sendable_survives _ _ _ _ Sv (proj1 K1)); [unfold with_queue; lia|done]).
  destruct (Z.ltb_spec i 0) as [Hi0|Hi0]; [by eexists _, _|]. clear E1 Sv Sp Ec1 Hc.
  assert (Ent : ∃ e, arp_table st1 !! Z.to_nat i = Some e ∧ ipaddr e = ip ∧
    (state e = ETHARP_STATE_EMPTY → ∀ j e1, arp_table st1 !! j = Some e1 → occupied e1 → ipaddr e1 ≠ ip)).
  { destruct Cases as [(k & e & -> & -> & Hk & Ho & Hip)|[(-> & _)|(k & e0 & e & -> & Hk & _ & T1 & Hs & Hip & _ & _ & _ & Hno)]].
    - exists e. rewrite Nat2Z.id. split; [done|]. split; [done|]. intros Hs. unfold occupied in Ho. by rewrite Hs in Ho.
    - done.
    - exists e. rewrite Nat2Z.id, T1, list_lookup_insert_eq by (by eapply lookup_lt_Some). split; [done|]. split; [done|]. intros _ j e1 Hj Ho.
      destruct (decide (j = k)) as [->|]; [rewrite list_lookup_insert_eq in Hj by (by eapply lookup_lt_Some); injection Hj as <-; unfold occupied in Ho; by rewrite Hs in Ho|].
      rewrite list_lookup_insert_ne in Hj by done. by apply (Hno j e1). }
  destruct Ent as (e & Hk & Hip & Hno). rewrite Hk, some_bind.
  assert (Hik : i < Z.of_nat ARP_TABLE_SIZE).
  { apply lookup_lt_Some in Hk. destruct K1 as [_ T1]. rewrite (tab_len _ T1) in Hk. lia. }
  clear Cases. generalize dependent (Z.to_nat i). intros k Hk.
  set (st2 := if bool_decide (state e = ETHARP_STATE_EMPTY) then _ else st1).
  assert (K2 : arp_ok E st2 ∧ pheap st2 = pheap st1 ∧ etharp_cached_entry st2 = etharp_cached_entry st1 ∧ ∃ e2, arp_table st2 !! k = Some e2 ∧ state e2 ≠ ETHARP_STATE_EMPTY).
  { unfold st2. case_bool_decide as Hs.
    - split; [eapply (pending_ok E st1 k e); try done; rewrite Hip; by apply Hno|]. split; [done|]. split; [done|]. exists (set_state ETHARP_STATE_PENDING e). cbn. by rewrite list_lookup_alter_eq, Hk.
    - split; [done|]. split; [done|]. split; [done|]. by exists e. }
  clearbody st2. destruct K2 as (K2 & Ph2 & Ec2 & e2 & Hk2 & Hs2). rewrite Hk2, some_bind.
  assert (Req : ∃ st3 r3, (if bool_decide (state e2 = ETHARP_STATE_PENDING) || bool_decide (Some p = None) then etharp_request linkoutput n ip st2 else Some (st2, ERR_MEM)) = Some (st3, r3)
    ∧ arp_ok E st3 ∧ arp_table st3 = arp_table st2 ∧ etharp_cached_entry st3 = etharp_cached_entry st2 ∧ same_packets (pheap st2) (pheap st3)).
  { destruct (bool_decide (state e2 = ETHARP_STATE_PENDING) || _); [by apply request_ok|]. exists st2, ERR_MEM. by split_and!. }
  destruct Req as (st3 & r3 & E3 & K3 & T3 & C3 & P3). assert (Hc3 : cached_ok st3) by (unfold cached_ok; by rewrite C3, Ec2). rewrite E3, some_bind. rewrite T3, Hk2, some_bind.
  assert (Sp3 : sendable (pheap st3) p) by (eapply sendable_same; [by rewrite P3, Ph2|done]).
  destruct Sp3 as (l & m & b & P & Pl & Hm & Hb & Hty).
  destruct (at_least_stable (state e2)) eqn:Hst.
  - destruct (send_ip_only n p (hwaddr n) (ethaddr e2) (set_cached i st3) b Hb Hh) as (st4 & r4 & E4 & O4). exists st4, r4. split; [exact E4|].
    split; [eapply (only_sent_ok E (set_cached i st3)); [exact O4|exact K3]|]. destruct O4 as (_ & _ & C4 & _). unfold cached_ok. rewrite C4. done.
  - assert (Hpend : state e2 = ETHARP_STATE_PENDING) by (by destruct (state e2)). rewrite bool_decide_eq_true_2 by done.
    destruct (take_over_ok (pheap st3) p l m _ (proj1 K3) P Pl Hm) as (h & o & E4 & K4); [by exists b|]. rewrite E4, some_bind.
    destruct o as [c|]; [|eexists _, _; split; [done|]; split; [split; [exact K4|apply K3]|exact Hc3]].
    destruct (queue_ok E st3 k e2 c h (proj2 K3)) as (st5 & E5 & K5 & C5); [by rewrite T3|done|exact K4|]. exists st5, ERR_OK. split; [exact E5|]. split; [exact K5|]. unfold cached_ok. by rewrite C5.
Qed.

Lemma find_stable_spec ip : ∀ t i k, find_stable ip i t = Some k → ∃ e, t !! (k - i)%nat = Some e ∧ (i ≤ k)%nat ∧ at_least_stable (state e) = true ∧ ipaddr e = ip.
Proof.
  induction t as [|e t IH]; intros i k; cbn [find_stable]; [done|]. destruct (at_least_stable (state e) && (ip =? ipaddr e)) eqn:Hm.
  - intros [= <-]. exists e. rewrite Nat.sub_diag. apply andb_true_iff in Hm as [? ?%Z.eqb_eq]. split_and!; done || lia.
  - intros Hf. destruct (IH (S i) k Hf) as (e' & He & Hle & R). exists e'. split; [|split; [lia|done]].
    replace (k - i)%nat with (S (k - S i)) by lia. done.
Qed.

Lemma sendable_moved (h : heap A) p b inc l (n : Z) : packet h (Some p) l n 0 → plain h l → pbufs h !! p = Some b → type b ≠ PBUF_ROM → n + inc < 65536 → 0 <= len b + inc →
  sendable (set_pbuf p (moved inc b) h) p.
Proof.
  intros P Pl Hb Hty Hn Hl. destruct (packet_first _ _ _ _ P) as (b0 & l' & -> & Hb0 & _). exists (p :: l'), (n + inc), (moved inc b). split_and!; try done.
  - by apply packet_moved.
  - by apply plain_moved.
  - by rewrite set_pbuf_lookup.
Qed.

Lemma output_ok E n p ip st l m b : arp_ok E st → hwaddr_len n = ETHARP_HWADDR_LEN → cached_ok st → E p ≠ 0%nat →
  packet (pheap st) (Some p) l m 0 → plain (pheap st) l → m + SIZEOF_ETH_HDR < 65536 → pbufs (pheap st) !! p = Some b → type b ≠ PBUF_ROM →
  ∃ st' r, etharp_output linkoutput n p ip st = Some (st', r) ∧ arp_ok E st' ∧ cached_ok st'.
Proof.
  intros K Hh Hc He P Pl Hm Hb Hty. unfold etharp_output. pose proof (packet_first _ _ _ _ P) as (b0 & l' & -> & Hb0 & Ht & Hl).
  assert (b0 = b) as -> by congruence. unfold SIZEOF_ETH_HDR in *.
  destruct (pbuf_header_cases (pheap st) p b 14 Hb) as [[E1 Hge]|E1]; try lia; rewrite E1, some_bind.
  2:{ eexists _, _. split; [done|]. by destruct st. }
  change (negb (0 =? 0)) with false. cbv iota.
  set (st1 := set_heap (set_pbuf p (moved 14 b) (pheap st)) st).
  assert (K1 : arp_ok E st1) by (split; [apply moved_ok; [apply K|done]|apply K]).
  assert (Hb1 : pbufs (pheap st1) !! p = Some (moved 14 b)) by (cbn; apply lookup_insert_eq).
  assert (Sp1 : sendable (pheap st1) p) by (eapply sendable_moved; try done; lia).
  assert (Snd : ∀ dst, ∃ st' r, etharp_send_ip linkoutput n p (hwaddr n) dst st1 = Some (st', r) ∧ arp_ok E st' ∧ cached_ok st').
  { intros dst. destruct (send_ip_only n p (hwaddr n) dst st1 _ Hb1 Hh) as (st' & r & E2 & O). exists st', r. split; [exact E2|]. split; [by eapply only_sent_ok|]. destruct O as (_ & _ & C2 & _). unfold cached_ok. by rewrite C2. }
  destruct (ip_addr_isbroadcast ip n); [apply Snd|]. destruct (ip_addr_ismulticast ip); [apply Snd|]. cbv zeta.
  destruct (negb _ && _); [by eexists _, _|]. generalize (if ip_addr_netcmp ip (ip_addr n) (netmask n) || ip_addr_islinklocal ip then ip else gw n). intros dst.
  destruct (lookup_lt_is_Some_2 (arp_table st1) (Z.to_nat (etharp_cached_entry st1))) as [e Hi]; [destruct K as [_ T]; cbn; rewrite (tab_len _ T); unfold cached_ok in Hc; lia|].
  rewrite Hi, some_bind. destruct (at_least_stable (state e) && (dst =? ipaddr e)) eqn:Hhit.
  - apply andb_true_iff in Hhit as [Hst _]. destruct (to_index_ok E n p _ e st1 _ K1 Hi Hst Hb1 Hh) as (st' & r & E2 & K2 & C2). exists st', r. unfold cached_ok. by rewrite C2.
  - destruct (find_stable dst 0 (arp_table st1)) as [k|] eqn:Hf; [|by apply query_ok].
    apply find_stable_spec in Hf as (e' & He' & _ & Hst & _). assert (Hk : (k < ARP_TABLE_SIZE)%nat) by (rewrite Nat.sub_0_r in He'; apply lookup_lt_Some in He'; destruct K1 as [_ T]; by rewrite (tab_len _ T) in He'). rewrite Nat.sub_0_r in He'.
    destruct (to_index_ok E n p k e' (set_cached (Z.of_nat k) st1) _ K1 He' Hst Hb1 Hh) as (st' & r & E2 & K2 & C2). exists st', r. unfold cached_ok. rewrite C2. cbn. split_and!; done || lia.
Qed.
End out.
