(* ===== verification/Ip.v ===== *)
(** * lwip-1.4.1/src/core/ipv4/ip.c: routing and output, definitions

    Configuration: LWIP_INLINE_IP_CHKSUM 1, IP_FORWARD 0, no IP options on
    output, no loopback, no hardware address hints.  A network interface is a
    structure by address; every interface of this board is an Ethernet
    interface, so its [output] function is [etharp_output].  A null [ip_addr_t]
    pointer is 0 as a source ([ip_addr_isany] holds of both) and [None] as a
    destination.  ip_frag.c's [ip_frag] is a parameter. *)
From S2P Require Import Prelude LwipDef Chksum Memp Pbuf IpAddr Etharp IpReass.
Local Open Scope Z_scope.

Definition NETIF_FLAG_UP : Z := 1.
Definition IP_DEFAULT_TTL : Z := 255.
Definition IP_PROTO_ICMP : Z := 1.
Definition IP_PROTO_UDP : Z := 17.
Definition IP_PROTO_TCP : Z := 6.
Definition netif_is_up (n : netif) : bool := negb (Z.land (nflags n) NETIF_FLAG_UP =? 0).

(** [LWIP_MAKE_U16] on a little-endian machine. *)
Definition LWIP_MAKE_U16 (a b : Z) : Z := Z.lor (Z.shiftl a 8) b.

(** ** The state of the modules below the transport layer, packets aside:
    the ARP cache and the frames sent, the interfaces, the next identification. *)
Record lower := MkLower {
  l_table : list etharp_entry;
  l_cached : Z;
  l_sent : list (Z * Z * list Z);
  netifs : gmap Z netif;
  netif_list : list Z;
  netif_default : option Z;
  ip_id : Z }.

Definition set_ip_id (i : Z) (w : lower) : lower :=
  MkLower (l_table w) (l_cached w) (l_sent w) (netifs w) (netif_list w) (netif_default w) i.

(** ** [ip_route] *)
Fixpoint route_loop (dest : Z) (l : list Z) (w : lower) : option (option Z) :=
  match l with
  | [] => Some None
  | i :: l =>
      n ← netifs w !! i;
      if netif_is_up n && ip_addr_netcmp dest (ip_addr n) (netmask n) then Some (Some i) else route_loop dest l w
  end.

Definition ip_route (dest : Z) (w : lower) : option (option Z) :=
  found ← route_loop dest (netif_list w) w;
  match found with
  | Some i => Some (Some i)
  | None =>
      match netif_default w with
      | None => Some None
      | Some i => n ← netifs w !! i; Some (if netif_is_up n then Some i else None)
      end
  end.

Section operations.
Context {A : Type} `{Arena A}.
Context (linkoutput : netif → Z → heap A → Z).
Context (ip_frag : Z → Z → Z → lower * heap A → option (lower * heap A * Z)).
Implicit Types (h : heap A) (w : lower) (p : Z).

Definition arp_state w h : arp A := MkArp (l_table w) (l_cached w) h (l_sent w).
Definition after_arp (st : arp A) w : lower * heap A :=
  (MkLower (arp_table st) (etharp_cached_entry st) (sent st) (netifs w) (netif_list w) (netif_default w) (ip_id w), pheap st).

(** [netif->output] *)
Definition netif_output (i p dest : Z) (s : lower * heap A) : option (lower * heap A * Z) :=
  let '(w, h) := s in
  n ← netifs w !! i;
  '(st, r) ← etharp_output linkoutput n p dest (arp_state w h);
  Some (after_arp st w, r).

(** The end of [ip_output_if]: fragmentation, or the interface. *)
Definition ip_transmit (i p dest : Z) (s : lower * heap A) : option (lower * heap A * Z) :=
  let '(w, h) := s in
  n ← netifs w !! i;
  b ← pbufs h !! p;
  if negb (mtu n =? 0) && (mtu n <? tot_len b) then ip_frag p i dest s else netif_output i p dest s.

(** The header at [a], field by field, and its checksum on the way. *)
Definition write_ip_header (a tot_len src dest ttl tos proto id if_addr : Z) h : heap A :=
  let h := poke (a + 8) [ttl] h in
  let h := poke (a + 9) [proto] h in
  let chk_sum := u32 (0 + LWIP_MAKE_U16 proto ttl) in
  let h := poke (a + 16) (le_split dest) h in
  let chk_sum := u32 (chk_sum + Z.land dest 65535) in
  let chk_sum := u32 (chk_sum + Z.shiftr dest 16) in
  let v_hl := Z.lor (Z.shiftl 4 4) (IP_HLEN / 4) in
  let h := poke a [v_hl] h in
  let h := poke (a + 1) [tos] h in
  let chk_sum := u32 (chk_sum + LWIP_MAKE_U16 tos v_hl) in
  let len_ := lwip_htons tot_len in
  let h := poke (a + 2) [len_ mod 256; len_ / 256] h in
  let chk_sum := u32 (chk_sum + len_) in
  let h := poke (a + 6) [0; 0] h in
  let id_ := lwip_htons id in
  let h := poke (a + 4) [id_ mod 256; id_ / 256] h in
  let chk_sum := u32 (chk_sum + id_) in
  let src := if ip_addr_isany src then if_addr else src in
  let h := poke (a + 12) (le_split src) h in
  let chk_sum := u32 (chk_sum + Z.land src 65535) in
  let chk_sum := u32 (chk_sum + Z.shiftr src 16) in
  let chk_sum := u32 (Z.shiftr chk_sum 16 + Z.land chk_sum 65535) in
  let chk_sum := u32 (Z.shiftr chk_sum 16 + chk_sum) in
  let chksum := u16 (Z.lnot chk_sum) in
  poke (a + 10) [chksum mod 256; chksum / 256] h.

(** ** [ip_output_if]; a destination of [None] is IP_HDRINCL *)
Definition ip_output_if (p src : Z) (dest : option Z) (ttl tos proto i : Z) (s : lower * heap A)
    : option (lower * heap A * Z) :=
  let '(w, h) := s in
  b ← pbufs h !! p;
  _ ← lwip_assert (ref b =? 1);
  match dest with
  | Some dest =>
      '(h, r) ← pbuf_header p IP_HLEN h;
      if negb (r =? 0) then Some (w, h, ERR_BUF) else
      b ← pbufs h !! p;
      _ ← lwip_assert (IP_HLEN <=? len b);
      n ← netifs w !! i;
      let h := write_ip_header (payload b) (tot_len b) src dest ttl tos proto (ip_id w) (ip_addr n) h in
      ip_transmit i p dest (set_ip_id (u16 (ip_id w + 1)) w, h)
  | None => ip_transmit i p (le_num (peek h (payload b + 16) 4)) (w, h)
  end.

Definition ip_output (p src : Z) (dest : option Z) (ttl tos proto : Z) (s : lower * heap A) : option (lower * heap A * Z) :=
  let '(w, h) := s in
  b ← pbufs h !! p;
  _ ← lwip_assert (ref b =? 1);
  dest' ← dest;
  found ← ip_route dest' w;
  match found with
  | None => Some (w, h, ERR_RTE)
  | Some i => ip_output_if p src dest ttl tos proto i s
  end.

End operations.
