(* ===== verification/Icmp.v ===== *)
(** * lwip-1.4.1/src/core/ipv4/icmp.c: ICMP, definitions

    Configuration: LWIP_MULTICAST_PING and LWIP_BROADCAST_PING 0,
    LWIP_ICMP_ECHO_CHECK_INPUT_PBUF_LEN 1, ETH_PAD_SIZE 0.  The addresses of the
    packet being processed, ip.c's [current_iphdr_src] and
    [current_iphdr_dest], are arguments. *)
From S2P Require Import Prelude LwipDef Chksum Memp Pbuf IpAddr Etharp IpReass Ip.
Local Open Scope Z_scope.

Definition ICMP_ER : Z := 0.
Definition ICMP_DUR : Z := 3.
Definition ICMP_ECHO : Z := 8.
Definition ICMP_TE : Z := 11.
Definition ICMP_TTL : Z := IP_DEFAULT_TTL.
Definition ICMP_DEST_UNREACH_DATASIZE : Z := 8.
Definition SIZEOF_ICMP_ECHO_HDR : Z := 8.

(** The conversion macro for constants. *)
Definition PP_HTONS (x : Z) : Z := Z.lor (Z.shiftl (Z.land x 255) 8) (Z.shiftr (Z.land x 65280) 8).

(** [chksum] of the echo header after [ICMP_ECHO] has become [ICMP_ER]:
    [PP_HTONS(0xffffU - (ICMP_ECHO << 8))] and [PP_HTONS(ICMP_ECHO << 8)]. *)
Definition echo_chksum (c : Z) : Z :=
  if PP_HTONS (65535 - Z.shiftl ICMP_ECHO 8) <=? c then u16 (c + PP_HTONS (Z.shiftl ICMP_ECHO 8) + 1)
  else u16 (c + PP_HTONS (Z.shiftl ICMP_ECHO 8)).

Section operations.
Context {A : Type} `{Arena A}.
Context (linkoutput : netif → Z → heap A → Z).
Context (ip_frag : Z → Z → Z → lower * heap A → option (lower * heap A * Z)).
Implicit Types (h : heap A) (w : lower) (p : Z).

(** The pbufs of a chain, as inet_chksum.c reads them. *)
Fixpoint chain_segments (fuel : nat) (p : option Z) h : option (list segment) :=
  match p with
  | None => Some []
  | Some p =>
      match fuel with
      | O => None
      | S fuel =>
          b ← pbufs h !! p;
          l ← chain_segments fuel (next b) h;
          Some (Seg (payload b) (peek h (payload b) (Z.to_nat (len b))) :: l)
      end
  end.

Definition segments_of (p : Z) h : option (list segment) := chain_segments (size (pbufs h)) (Some p) h.

(** ** [icmp_send_response] *)

(** The message at [a]: a header, and what the packet at [orig] begins with. *)
Definition write_icmp_message (a orig type code n : Z) h : heap A :=
  let h := poke a [type] h in
  let h := poke (a + 1) [code] h in
  let h := poke (a + 4) [0; 0] h in
  let h := poke (a + 6) [0; 0] h in
  let h := poke (a + SIZEOF_ICMP_ECHO_HDR) (peek h orig (Z.to_nat (IP_HLEN + ICMP_DEST_UNREACH_DATASIZE))) h in
  let h := poke (a + 2) [0; 0] h in
  let c := inet_chksum a (peek h a (Z.to_nat n)) in
  poke (a + 2) [c mod 256; c / 256] h.

Definition icmp_send_response (p type code : Z) (s : lower * heap A) : option (lower * heap A) :=
  let '(w, h) := s in
  '(h, q) ← pbuf_alloc PBUF_IP (SIZEOF_ICMP_ECHO_HDR + IP_HLEN + ICMP_DEST_UNREACH_DATASIZE) PBUF_RAM h;
  match q with
  | None => Some (w, h)
  | Some q =>
      bq ← pbufs h !! q;
      _ ← lwip_assert (SIZEOF_ICMP_ECHO_HDR + IP_HLEN + ICMP_DEST_UNREACH_DATASIZE <=? len bq);
      iphdr ← payload_of h p;
      let h := write_icmp_message (payload bq) iphdr type code (len bq) h in
      let iphdr_src := le_num (peek h (iphdr + 12) 4) in
      '(w, h, _) ← ip_output linkoutput ip_frag q 0 (Some iphdr_src) ICMP_TTL 0 IP_PROTO_ICMP (w, h);
      '(h, _) ← pbuf_free (Some q) h;
      Some (w, h)
  end.

Definition icmp_dest_unreach (p t : Z) (s : lower * heap A) : option (lower * heap A) := icmp_send_response p ICMP_DUR t s.
Definition icmp_time_exceeded (p t : Z) (s : lower * heap A) : option (lower * heap A) := icmp_send_response p ICMP_TE t s.

(** ** [icmp_input] *)

(** [pbuf_free(p); return], behind whichever label *)
Definition icmp_done (p : Z) (s : lower * heap A) : option (lower * heap A) :=
  let '(w, h) := s in '(h, _) ← pbuf_free (Some p) h; Some (w, h).

(** A packet like [p] with room for the link header: [p] itself, or a copy of
    it; [None] in the result when there is no memory.  The second component is
    the address of the IP header. *)
Definition echo_buffer (p hlen iphdr : Z) h : option (heap A * option (Z * Z)) :=
  '(h, r) ← pbuf_header p (PBUF_IP_HLEN + PBUF_LINK_HLEN) h;
  if negb (r =? 0) then
    '(h, r) ← pbuf_header p hlen h;
    _ ← lwip_assert (r =? 0);
    b ← pbufs h !! p;
    '(h, q) ← pbuf_alloc PBUF_LINK (tot_len b) PBUF_RAM h;
    match q with
    | None => Some (h, None)
    | Some q =>
        bq ← pbufs h !! q;
        _ ← lwip_assert (hlen + SIZEOF_ICMP_ECHO_HDR <=? len bq);
        '(h, e) ← pbuf_copy (Some q) (Some p) h;
        _ ← lwip_assert (e =? ERR_OK);
        bq ← pbufs h !! q;
        let iphdr := payload bq in
        '(h, r) ← pbuf_header q (- hlen) h;
        _ ← lwip_assert (r =? 0);
        '(h, _) ← pbuf_free (Some p) h;
        Some (h, Some (q, iphdr))
    end
  else
    '(h, r) ← pbuf_header p (- (PBUF_IP_HLEN + PBUF_LINK_HLEN)) h;
    _ ← lwip_assert (r =? 0);
    Some (h, Some (p, iphdr)).

(** The request becomes the reply: [iecho] and [iphdr] are its headers. *)
Definition make_echo_reply (iecho iphdr src dest : Z) h : heap A :=
  let h := poke (iphdr + 12) (le_split src) h in
  let h := poke (iphdr + 16) (le_split dest) h in
  let h := poke iecho [ICMP_ER] h in
  let c := echo_chksum (le_num (peek h (iecho + 2) 2)) in
  let h := poke (iecho + 2) [c mod 256; c / 256] h in
  let h := poke (iphdr + 8) [ICMP_TTL] h in
  let h := poke (iphdr + 10) [0; 0] h in
  let c := inet_chksum iphdr (peek h iphdr (Z.to_nat IP_HLEN)) in
  poke (iphdr + 10) [c mod 256; c / 256] h.

(** An echo request whose header was checked. *)
Definition icmp_echo (p i hlen iphdr cur_src cur_dest : Z) (s : lower * heap A) : option (lower * heap A) :=
  let '(w, h) := s in
  b ← pbufs h !! p;
  if tot_len b <? SIZEOF_ICMP_ECHO_HDR then icmp_done p s else
  segs ← segments_of p h;
  if negb (inet_chksum_pbuf segs =? 0) then icmp_done p s else
  '(h, buf) ← echo_buffer p hlen iphdr h;
  match buf with
  | None => icmp_done p (w, h)
  | Some (p, iphdr) =>
      iecho ← payload_of h p;
      let h := make_echo_reply iecho iphdr cur_dest cur_src h in
      '(h, r) ← pbuf_header p hlen h;
      _ ← lwip_assert (r =? 0);
      '(w, h, _) ← ip_output_if linkoutput ip_frag p cur_dest None ICMP_TTL 0 IP_PROTO_ICMP i (w, h);
      icmp_done p (w, h)
  end.

Definition icmp_input (p i cur_src cur_dest : Z) (s : lower * heap A) : option (lower * heap A) :=
  let '(w, h) := s in
  n ← netifs w !! i;
  iphdr ← payload_of h p;
  let hlen := IPH_HL (peek h iphdr 1) * 4 in
  '(h, r) ← pbuf_header p (- hlen) h;
  b ← pbufs h !! p;
  if negb (r =? 0) || (tot_len b <? 4) then icmp_done p (w, h) else
  match peek h (payload b) 1 with
  | [t] =>
      if t =? ICMP_ER then icmp_done p (w, h)
      else if t =? ICMP_ECHO then
        if ip_addr_ismulticast cur_dest || ip_addr_isbroadcast cur_dest n then icmp_done p (w, h)
        else icmp_echo p i hlen iphdr cur_src cur_dest (w, h)
      else icmp_done p (w, h)
  | _ => None
  end.

End operations.
