(* ===== verification/Stack.v ===== *)
(** * The state of the stack: the control blocks of udp.h and raw.h, and the
    variables of ip_frag.c, udp.c and raw.c above those of [lower]

    The control blocks are structures by address; the list that [udp_pcbs] or
    [raw_pcbs] heads is a list of addresses.  The state of TCP is a type of its
    own. *)
From S2P Require Import Prelude LwipDef Chksum Memp Pbuf IpAddr Etharp IpReass Ip.
Local Open Scope Z_scope.

Definition UDP_FLAGS_NOCHKSUM : Z := 1.
Definition UDP_FLAGS_CONNECTED : Z := 4.

(** [recv] names a callback and its argument. *)
Record udp_pcb := MkUdp {
  local_ip : Z;
  remote_ip : Z;
  utos : Z;
  uttl : Z;
  uflags : Z;
  local_port : Z;
  remote_port : Z;
  recv : option (Z * Z) }.

Definition set_local_ip (a : Z) u := MkUdp a (remote_ip u) (utos u) (uttl u) (uflags u) (local_port u) (remote_port u) (recv u).
Definition set_remote_ip (a : Z) u := MkUdp (local_ip u) a (utos u) (uttl u) (uflags u) (local_port u) (remote_port u) (recv u).
Definition set_uflags (f : Z) u := MkUdp (local_ip u) (remote_ip u) (utos u) (uttl u) f (local_port u) (remote_port u) (recv u).
Definition set_local_port (n : Z) u := MkUdp (local_ip u) (remote_ip u) (utos u) (uttl u) (uflags u) n (remote_port u) (recv u).
Definition set_remote_port (n : Z) u := MkUdp (local_ip u) (remote_ip u) (utos u) (uttl u) (uflags u) (local_port u) n (recv u).
Definition set_recv (r : option (Z * Z)) u := MkUdp (local_ip u) (remote_ip u) (utos u) (uttl u) (uflags u) (local_port u) (remote_port u) r.

Definition connected (u : udp_pcb) : bool := negb (Z.land (uflags u) UDP_FLAGS_CONNECTED =? 0).

(** The variables of udp.c, with the control blocks. *)
Record udp := MkUdpState { udp_port : Z; udp_pcbs : list Z; upcb : gmap Z udp_pcb }.

Definition set_udp_port (n : Z) (U : udp) : udp := MkUdpState n (udp_pcbs U) (upcb U).
Definition set_udp_pcbs (l : list Z) (U : udp) : udp := MkUdpState (udp_port U) l (upcb U).
Definition upd_pcb (i : Z) (f : udp_pcb → udp_pcb) (U : udp) : option udp :=
  u ← upcb U !! i; Some (MkUdpState (udp_port U) (udp_pcbs U) (<[i := f u]> (upcb U))).

(** The prefix is that of the fields of [raw_pcb]. *)
Record raw_pcb := MkRaw {
  r_local_ip : Z;
  r_remote_ip : Z;
  r_tos : Z;
  r_ttl : Z;
  r_protocol : Z;
  r_recv : option (Z * Z) }.

Record raw := MkRawState { raw_pcbs : list Z; rpcb : gmap Z raw_pcb }.

Definition set_raw_pcbs (l : list Z) (R : raw) : raw := MkRawState l (rpcb R).
Definition upd_raw (i : Z) (f : raw_pcb → raw_pcb) (R : raw) : option raw :=
  r ← rpcb R !! i; Some (MkRawState (raw_pcbs R) (<[i := f r]> (rpcb R))).

(** Unlinking a control block: the first one, or every later one that is it. *)
Definition unlink (pcb : Z) (l : list Z) : list Z :=
  match l with
  | [] => []
  | i :: l => if i =? pcb then l else i :: filter (λ j, j ≠ pcb) l
  end.

(** ** The whole *)
Record stack (A T : Type) := MkStack {
  low : lower;
  hp : heap A;
  us : udp;
  rs : raw;
  datagrams : option Z * gmap Z ip_reassdata * Z;
  ts : T }.
Arguments MkStack {A T}.
Arguments low {A T}.
Arguments hp {A T}.
Arguments us {A T}.
Arguments rs {A T}.
Arguments datagrams {A T}.
Arguments ts {A T}.

Section stack.
Context {A T : Type} `{Arena A}.
Implicit Types (s : stack A T) (p : Z).

Definition set_low (x : lower * heap A) s : stack A T := MkStack x.1 x.2 (us s) (rs s) (datagrams s) (ts s).
Definition set_hp (h : heap A) s : stack A T := MkStack (low s) h (us s) (rs s) (datagrams s) (ts s).
Definition set_us (U : udp) s : stack A T := MkStack (low s) (hp s) U (rs s) (datagrams s) (ts s).
Definition set_rs (R : raw) s : stack A T := MkStack (low s) (hp s) (us s) R (datagrams s) (ts s).

Definition free_packet (p : Z) s : option (stack A T) := '(h, _) ← pbuf_free (Some p) (hp s); Some (set_hp h s).

(** The part of the state that ip_frag.c works on. *)
Definition reass_of s : reass A lower :=
  MkRS (datagrams s).1.1 (datagrams s).1.2 (datagrams s).2 (hp s) (low s).
Definition set_reass (r : reass A lower) s : stack A T :=
  MkStack (below r) (rheap r) (us s) (rs s) (reassdatagrams r, rdata r, ip_reass_pbufcount r) (ts s).
End stack.
