(* ===== verification/Raw.v ===== *)
(** * lwip-1.4.1/src/core/raw.c: raw IP, definitions

    Configuration: IP_SOF_BROADCAST and IP_SOF_BROADCAST_RECV 0.  The callbacks
    of the applications are a parameter; one may change the list of the control
    blocks while it is walked. *)
From S2P Require Import Prelude LwipDef Chksum Memp Pbuf IpAddr Etharp IpReass Ip.
From S2P Require Import Stack.
Local Open Scope Z_scope.

Definition RAW_TTL : Z := 255.

Definition set_r_local_ip (a : Z) r := MkRaw a (r_remote_ip r) (r_tos r) (r_ttl r) (r_protocol r) (r_recv r).
Definition set_r_remote_ip (a : Z) r := MkRaw (r_local_ip r) a (r_tos r) (r_ttl r) (r_protocol r) (r_recv r).
Definition set_r_recv (f : option (Z * Z)) r := MkRaw (r_local_ip r) (r_remote_ip r) (r_tos r) (r_ttl r) (r_protocol r) f.

Definition raw_bind (pcb ipaddr : Z) (R : raw) : option (raw * Z) := R ← upd_raw pcb (set_r_local_ip ipaddr) R; Some (R, ERR_OK).
Definition raw_connect (pcb ipaddr : Z) (R : raw) : option (raw * Z) := R ← upd_raw pcb (set_r_remote_ip ipaddr) R; Some (R, ERR_OK).
Definition raw_recv (pcb : Z) (f : option (Z * Z)) (R : raw) : option raw := upd_raw pcb (set_r_recv f) R.

(** [pcb->next]; [None] when [pcb] is not in the list, and its [next] no
    pointer into it. *)
Fixpoint next_of (pcb : Z) (l : list Z) : option (option Z) :=
  match l with
  | [] => None
  | i :: l => if i =? pcb then Some (head l) else next_of pcb l
  end.

(** [prev->next = pcb->next; pcb->next = raw_pcbs; raw_pcbs = pcb] *)
Definition move_front (prev pcb : Z) (l : list Z) : option (list Z) :=
  match next_of prev l with
  | Some (Some i) => if i =? pcb then Some (pcb :: filter (λ j, j ≠ pcb) l) else None
  | _ => None
  end.

Section operations.
Context {A T : Type} `{Arena A}.
Context (linkoutput : netif → Z → heap A → Z).
Context (ip_frag : Z → Z → Z → lower * heap A → option (lower * heap A * Z)).
(** The callback: its name and argument, the control block, the packet, the
    source address; whether it ate the packet. *)
Context (recv_callback : Z * Z → Z → Z → Z → stack A T → option (stack A T * bool)).
Implicit Types (s : stack A T) (p pcb : Z).

(** ** [raw_input] *)
Definition raw_matches (r : raw_pcb) (proto dest : Z) : bool :=
  (r_protocol r =? proto) && (ip_addr_isany (r_local_ip r) || (r_local_ip r =? dest)).

Fixpoint raw_loop (fuel : nat) (p proto cur_src cur_dest : Z) (prev pcb : option Z) s : option (stack A T * bool) :=
  match pcb with
  | None => Some (s, false)
  | Some pcb =>
      match fuel with
      | O => None
      | S fuel =>
          r ← rpcb (rs s) !! pcb;
          '(s, eaten) ← (if raw_matches r proto cur_dest then
                           match r_recv r with
                           | Some f => recv_callback f pcb p cur_src s
                           | None => Some (s, false)
                           end
                         else Some (s, false));
          if eaten : bool then
            match prev with
            | Some prev => l ← move_front prev pcb (raw_pcbs (rs s)); Some (set_rs (set_raw_pcbs l (rs s)) s, true)
            | None => Some (s, true)
            end
          else
            n ← next_of pcb (raw_pcbs (rs s));
            raw_loop fuel p proto cur_src cur_dest (Some pcb) n s
      end
  end.

Definition raw_input (fuel : nat) p (cur_src cur_dest : Z) s : option (stack A T * bool) :=
  iphdr ← payload_of (hp s) p;
  let proto := le_num (peek (hp s) (iphdr + 9) 1) in
  raw_loop fuel p proto cur_src cur_dest None (head (raw_pcbs (rs s))) s.

(** ** [raw_sendto] *)

(** A packet that has room for the IP header: [p] itself, or a new pbuf in
    front of it. *)
Definition raw_header_buffer p (h : heap A) : option (heap A * option Z) :=
  '(h, r) ← pbuf_header p IP_HLEN h;
  if negb (r =? 0) then
    '(h, q) ← pbuf_alloc PBUF_IP 0 PBUF_RAM h;
    match q with
    | None => Some (h, None)
    | Some q =>
        b ← pbufs h !! p;
        h ← (if negb (tot_len b =? 0) then pbuf_chain (Some q) (Some p) h else Some h);
        Some (h, Some q)
    end
  else
    '(h, r) ← pbuf_header p (- IP_HLEN) h;
    _ ← lwip_assert (r =? 0);
    Some (h, Some p).

Definition raw_sendto pcb p (ipaddr : Z) s : option (stack A T * Z) :=
  '(h, q) ← raw_header_buffer p (hp s);
  let s := set_hp h s in
  match q with
  | None => Some (s, ERR_MEM)
  | Some q =>
      let free s := if negb (q =? p) then free_packet q s else Some s in
      found ← ip_route ipaddr (low s);
      match found with
      | None => s ← free s; Some (s, ERR_RTE)
      | Some i =>
          n ← netifs (low s) !! i;
          r ← rpcb (rs s) !! pcb;
          let src_ip := if ip_addr_isany (r_local_ip r) then ip_addr n else r_local_ip r in
          '(w, h, err) ← ip_output_if linkoutput ip_frag q src_ip (Some ipaddr) (r_ttl r) (r_tos r) (r_protocol r) i (low s, hp s);
          s ← free (set_low (w, h) s);
          Some (s, err)
      end
  end.

Definition raw_send pcb p s : option (stack A T * Z) :=
  r ← rpcb (rs s) !! pcb; raw_sendto pcb p (r_remote_ip r) s.

(** ** Creating and removing *)
Definition raw_remove pcb s : stack A T :=
  let R := MkRawState (unlink pcb (raw_pcbs (rs s))) (delete pcb (rpcb (rs s))) in
  set_rs R (set_hp (with_arena (memp_free MEMP_RAW_PCB pcb (arena (hp s))) (hp s)) s).

Definition raw_new (proto : Z) s : stack A T * option Z :=
  match memp_malloc MEMP_RAW_PCB (arena (hp s)) with
  | None => (s, None)
  | Some (pcb, ar) =>
      let r := MkRaw 0 0 0 RAW_TTL proto None in
      (set_rs (MkRawState (pcb :: raw_pcbs (rs s)) (<[pcb := r]> (rpcb (rs s)))) (set_hp (with_arena ar (hp s)) s), Some pcb)
  end.

End operations.
