(* ===== verification/Udp.v ===== *)
(** * lwip-1.4.1/src/core/udp.c: UDP, definitions

    Configuration: no UDP-Lite, no DHCP, no IGMP, SO_REUSE, IP_SOF_BROADCAST
    and IP_SOF_BROADCAST_RECV 0, LWIP_CHECKSUM_ON_COPY 0.  The control blocks are
    structures by address; the list that [udp_pcbs] heads is a list of
    addresses.  The callbacks of the applications are a parameter. *)
From S2P Require Import Prelude LwipDef Chksum Memp Pbuf IpAddr Etharp IpReass Ip Icmp.
From S2P Require Import Stack.
Local Open Scope Z_scope.

Definition UDP_HLEN : Z := 8.
Definition UDP_TTL : Z := IP_DEFAULT_TTL.
Definition UDP_LOCAL_PORT_RANGE_START : Z := 49152.
Definition UDP_LOCAL_PORT_RANGE_END : Z := 65535.
Definition ICMP_DUR_PORT : Z := 3.
Definition ERR_VAL : Z := -6.
Definition ERR_USE : Z := -8.

(** Is the port that of a block of the list? *)
Fixpoint port_used (port : Z) (l : list Z) (m : gmap Z udp_pcb) : option bool :=
  match l with
  | [] => Some false
  | i :: l => u ← m !! i; if local_port u =? port then Some true else port_used port l m
  end.

(** ** [udp_new_port]: the jumps back to [again] are the recursion, [n] counts
    them *)
Fixpoint new_port_loop (fuel : nat) (n : Z) (U : udp) : option (udp * Z) :=
  match fuel with
  | O => None
  | S fuel =>
      let port := if udp_port U =? UDP_LOCAL_PORT_RANGE_END then UDP_LOCAL_PORT_RANGE_START else u16 (udp_port U + 1) in
      let U := set_udp_port port U in
      used ← port_used port (udp_pcbs U) (upcb U);
      if used : bool then
        let n := u16 (n + 1) in
        if UDP_LOCAL_PORT_RANGE_END - UDP_LOCAL_PORT_RANGE_START <? n then Some (U, 0) else new_port_loop fuel n U
      else Some (U, port)
  end.

Definition udp_new_port (U : udp) : option (udp * Z) :=
  new_port_loop (Z.to_nat (UDP_LOCAL_PORT_RANGE_END - UDP_LOCAL_PORT_RANGE_START + 1)) 0 U.

(** ** [udp_bind] *)

(** The loop: [None] when the address is in use, else [rebind]. *)
Fixpoint bind_loop (pcb ipaddr port : Z) (l : list Z) (rebind : bool) (m : gmap Z udp_pcb) : option (option bool) :=
  match l with
  | [] => Some (Some rebind)
  | i :: l =>
      if i =? pcb then
        _ ← lwip_assert (negb rebind); bind_loop pcb ipaddr port l true m
      else
        u ← m !! i;
        if (local_port u =? port) && (ip_addr_isany (local_ip u) || ip_addr_isany ipaddr || (local_ip u =? ipaddr))
        then Some None else bind_loop pcb ipaddr port l rebind m
  end.

Definition udp_bind (pcb ipaddr port : Z) (U : udp) : option (udp * Z) :=
  free ← bind_loop pcb ipaddr port (udp_pcbs U) false (upcb U);
  match free with
  | None => Some (U, ERR_USE)
  | Some rebind =>
      U ← upd_pcb pcb (set_local_ip ipaddr) U;
      '(U, port) ← (if port =? 0 then udp_new_port U else Some (U, port));
      if port =? 0 then Some (U, ERR_USE) else
      U ← upd_pcb pcb (set_local_port port) U;
      Some (if rebind : bool then U else set_udp_pcbs (pcb :: udp_pcbs U) U, ERR_OK)
  end.

(** ** Connecting *)
Definition udp_connect (pcb ipaddr port : Z) (U : udp) : option (udp * Z) :=
  u ← upcb U !! pcb;
  '(U, err) ← (if local_port u =? 0 then udp_bind pcb (local_ip u) (local_port u) U else Some (U, ERR_OK));
  if negb (err =? ERR_OK) then Some (U, err) else
  U ← upd_pcb pcb (set_remote_ip ipaddr) U;
  U ← upd_pcb pcb (set_remote_port port) U;
  U ← upd_pcb pcb (λ u, set_uflags (Z.lor (uflags u) UDP_FLAGS_CONNECTED) u) U;
  Some (if bool_decide (pcb ∈ udp_pcbs U) then U else set_udp_pcbs (pcb :: udp_pcbs U) U, ERR_OK).

Definition udp_disconnect (pcb : Z) (U : udp) : option udp :=
  U ← upd_pcb pcb (set_remote_ip IPADDR_ANY) U;
  U ← upd_pcb pcb (set_remote_port 0) U;
  upd_pcb pcb (λ u, set_uflags (Z.land (uflags u) (255 - UDP_FLAGS_CONNECTED)) u) U.

Definition udp_recv (pcb : Z) (r : option (Z * Z)) (U : udp) : option udp := upd_pcb pcb (set_recv r) U.

Section operations.
Context {A T : Type} `{Arena A}.
Context (linkoutput : netif → Z → heap A → Z).
Context (ip_frag : Z → Z → Z → lower * heap A → option (lower * heap A * Z)).
(** The callback: its name and argument, the control block, the packet, the
    source address and port. *)
Context (recv_callback : Z * Z → Z → Z → Z → Z → stack A T → option (stack A T)).
Implicit Types (s : stack A T) (p pcb : Z).

Definition udp_remove pcb s : stack A T :=
  let U := us s in
  let U := MkUdpState (udp_port U) (unlink pcb (udp_pcbs U)) (delete pcb (upcb U)) in
  set_us U (set_hp (with_arena (memp_free MEMP_UDP_PCB pcb (arena (hp s))) (hp s)) s).

Definition udp_new s : stack A T * option Z :=
  match memp_malloc MEMP_UDP_PCB (arena (hp s)) with
  | None => (s, None)
  | Some (pcb, ar) =>
      let U := us s in
      let u := MkUdp 0 0 0 UDP_TTL 0 0 0 None in
      (set_us (MkUdpState (udp_port U) (udp_pcbs U) (<[pcb := u]> (upcb U))) (set_hp (with_arena ar (hp s)) s), Some pcb)
  end.

(** ** [udp_sendto_if] *)

(** A packet with room for the header, in front of [p]. *)
Definition udp_header_buffer p (h : heap A) : option (heap A * option Z) :=
  '(h, r) ← pbuf_header p UDP_HLEN h;
  if negb (r =? 0) then
    '(h, q) ← pbuf_alloc PBUF_IP UDP_HLEN PBUF_RAM h;
    match q with
    | None => Some (h, None)
    | Some q =>
        b ← pbufs h !! p;
        h ← (if negb (tot_len b =? 0) then pbuf_chain (Some q) (Some p) h else Some h);
        Some (h, Some q)
    end
  else Some (h, Some p).

(** Ports, length and checksum; [a] is the address of the header of [q]. *)
Definition write_udp_ports (a src dest : Z) (h : heap A) : heap A :=
  let src := lwip_htons src in
  let dest := lwip_htons dest in
  let h := poke a [src mod 256; src / 256] h in
  let h := poke (a + 2) [dest mod 256; dest / 256] h in
  poke (a + 6) [0; 0] h.

Definition write_udp_chksum (u : udp_pcb) (q a src_ip dst_ip : Z) (h : heap A) : option (heap A) :=
  b ← pbufs h !! q;
  let n := lwip_htons (tot_len b) in
  let h := poke (a + 4) [n mod 256; n / 256] h in
  if Z.land (uflags u) UDP_FLAGS_NOCHKSUM =? 0 then
    segs ← segments_of q h;
    let c := inet_chksum_pseudo segs src_ip dst_ip IP_PROTO_UDP (tot_len b) in
    let c := if c =? 0 then 65535 else c in
    Some (poke (a + 6) [c mod 256; c / 256] h)
  else Some h.

Definition free_header (q p : Z) (h : heap A) : option (heap A) :=
  if negb (q =? p) then '(h, _) ← pbuf_free (Some q) h; Some h else Some h.

Definition udp_sendto_if pcb p (dst_ip dst_port i : Z) s : option (stack A T * Z) :=
  u ← upcb (us s) !! pcb;
  '(U, err) ← (if local_port u =? 0 then udp_bind pcb (local_ip u) (local_port u) (us s) else Some (us s, ERR_OK));
  let s := set_us U s in
  if negb (err =? ERR_OK) then Some (s, err) else
  '(h, q) ← udp_header_buffer p (hp s);
  match q with
  | None => Some (set_hp h s, ERR_MEM)
  | Some q =>
      bq ← pbufs h !! q;
      _ ← lwip_assert (UDP_HLEN <=? len bq);
      u ← upcb (us s) !! pcb;
      n ← netifs (low s) !! i;
      let a := payload bq in
      let h := write_udp_ports a (local_port u) dst_port h in
      if negb (ip_addr_isany (local_ip u)) && negb (local_ip u =? ip_addr n) then
        h ← free_header q p h; Some (set_hp h s, ERR_VAL)
      else
        let src_ip := if ip_addr_isany (local_ip u) then ip_addr n else local_ip u in
        h ← write_udp_chksum u q a src_ip dst_ip h;
        '(w, h, err) ← ip_output_if linkoutput ip_frag q src_ip (Some dst_ip) (uttl u) (utos u) IP_PROTO_UDP i (low s, h);
        h ← free_header q p h;
        Some (set_low (w, h) s, err)
  end.

Definition udp_sendto pcb p (dst_ip dst_port : Z) s : option (stack A T * Z) :=
  found ← ip_route dst_ip (low s);
  match found with
  | None => Some (s, ERR_RTE)
  | Some i => udp_sendto_if pcb p dst_ip dst_port i s
  end.

Definition udp_send pcb p s : option (stack A T * Z) :=
  u ← upcb (us s) !! pcb; udp_sendto pcb p (remote_ip u) (remote_port u) s.

(** ** [udp_input] *)
Definition local_matches (u : udp_pcb) (dest cur_dest : Z) (broadcast : bool) (n : netif) : bool :=
  (local_port u =? dest) &&
  ((negb broadcast && ip_addr_isany (local_ip u)) || (local_ip u =? cur_dest) ||
   (broadcast && (ip_addr_isany (local_ip u) || ip_addr_netcmp (local_ip u) cur_dest (netmask n)))).

Definition remote_matches (u : udp_pcb) (src cur_src : Z) : bool :=
  (remote_port u =? src) && (ip_addr_isany (remote_ip u) || (remote_ip u =? cur_src)).

(** The search: the control block that matches whole, with those in front of
    it, or the first unconnected one that matches. *)
Fixpoint demux_loop (src dest cur_src cur_dest : Z) (broadcast : bool) (n : netif) (m : gmap Z udp_pcb)
    (prev l : list Z) (uncon : option Z) : option (option (list Z * Z * list Z) * option Z) :=
  match l with
  | [] => Some (None, uncon)
  | i :: l =>
      u ← m !! i;
      let local_match := local_matches u dest cur_dest broadcast n in
      let uncon := if local_match && bool_decide (uncon = None) && negb (connected u) then Some i else uncon in
      if local_match && remote_matches u src cur_src then Some (Some (prev, i, l), uncon)
      else demux_loop src dest cur_src cur_dest broadcast n m (prev ++ [i]) l uncon
  end.

(** The block found goes to the front of the list. *)
Definition udp_demux (src dest cur_src cur_dest : Z) (broadcast : bool) (n : netif) (U : udp) : option (udp * option Z) :=
  '(found, uncon) ← demux_loop src dest cur_src cur_dest broadcast n (upcb U) [] (udp_pcbs U) None;
  match found with
  | Some (prev, i, l) => Some (set_udp_pcbs (i :: prev ++ l) U, Some i)
  | None => Some (U, uncon)
  end.

(** The datagram is for [pcb], or for the address of the interface. *)
Definition udp_deliver (pcb : option Z) p (iphdr hlen src cur_src cur_dest : Z) (broadcast : bool) s : option (stack A T) :=
  a ← payload_of (hp s) p;
  segs ← segments_of p (hp s);
  b ← pbufs (hp s) !! p;
  if negb (le_num (peek (hp s) (a + 6) 2) =? 0) && negb (inet_chksum_pseudo segs cur_src cur_dest IP_PROTO_UDP (tot_len b) =? 0)
  then free_packet p s else
  '(h, r) ← pbuf_header p (- UDP_HLEN) (hp s);
  _ ← lwip_assert (r =? 0);
  let s := set_hp h s in
  match pcb with
  | Some pcb =>
      u ← upcb (us s) !! pcb;
      match recv u with
      | Some f => recv_callback f pcb p cur_src src s
      | None => free_packet p s
      end
  | None =>
      if negb broadcast && negb (ip_addr_ismulticast cur_dest) then
        '(h, _) ← pbuf_header p (hlen + UDP_HLEN) (hp s);
        a ← payload_of h p;
        _ ← lwip_assert (a =? iphdr);
        x ← icmp_dest_unreach linkoutput ip_frag p ICMP_DUR_PORT (low s, h);
        free_packet p (set_low x s)
      else free_packet p s
  end.

Definition udp_input p (i cur_src cur_dest : Z) s : option (stack A T) :=
  n ← netifs (low s) !! i;
  b ← pbufs (hp s) !! p;
  let iphdr := payload b in
  let hlen := IPH_HL (peek (hp s) iphdr 1) * 4 in
  '(h, r) ← (if tot_len b <? hlen + UDP_HLEN then Some (hp s, 1) else pbuf_header p (- hlen) (hp s));
  let s := set_hp h s in
  if negb (r =? 0) then free_packet p s else
  a ← payload_of h p;
  let broadcast := ip_addr_isbroadcast cur_dest n in
  let src := lwip_ntohs (le_num (peek h a 2)) in
  let dest := lwip_ntohs (le_num (peek h (a + 2) 2)) in
  '(U, pcb) ← udp_demux src dest cur_src cur_dest broadcast n (us s);
  let s := set_us U s in
  if negb (bool_decide (pcb = None)) || (ip_addr n =? cur_dest)
  then udp_deliver pcb p iphdr hlen src cur_src cur_dest broadcast s
  else free_packet p s.

End operations.
