(* ===== verification/IpIn.v ===== *)
(** * lwip-1.4.1/src/core/ipv4/ip.c: [ip_input], definitions

    Configuration: CHECKSUM_CHECK_IP 1, IP_OPTIONS_ALLOWED 1, IP_FORWARD 0, no
    IGMP, AutoIP or DHCP.  TCP's [tcp_input], the callbacks of the applications
    and the fragmentation of sent packets are parameters. *)
From S2P Require Import Prelude LwipDef Chksum Memp Pbuf IpAddr Etharp IpReass Ip Icmp.
From S2P Require Import Stack Raw Udp.
Local Open Scope Z_scope.

Definition ICMP_DUR_PROTO : Z := 2.

(** ** Is the packet for this interface? *)
Definition ip_accepts (n : netif) (dest : Z) : bool :=
  netif_is_up n && negb (ip_addr_isany (ip_addr n)) && ((dest =? ip_addr n) || ip_addr_isbroadcast dest n).

(** The interfaces other than [inp] are tried in the order of the list. *)
Fixpoint match_loop (inp dest : Z) (l : list Z) (w : lower) : option (option Z) :=
  match l with
  | [] => Some None
  | i :: l =>
      if i =? inp then match_loop inp dest l w else
      n ← netifs w !! i;
      if ip_accepts n dest then Some (Some i) else match_loop inp dest l w
  end.

Definition ip_match (inp dest : Z) (w : lower) : option (option Z) :=
  n ← netifs w !! inp;
  if ip_accepts n dest then Some (Some inp) else match_loop inp dest (netif_list w) w.

Section operations.
Context {A T : Type} `{Arena A}.
Context (linkoutput : netif → Z → heap A → Z).
Context (ip_frag : Z → Z → Z → lower * heap A → option (lower * heap A * Z)).
Context (udp_callback : Z * Z → Z → Z → Z → Z → stack A T → option (stack A T)).
Context (raw_callback : Z * Z → Z → Z → Z → stack A T → option (stack A T * bool)).
(** The packet, the interface, the addresses. *)
Context (tcp_input : Z → Z → Z → Z → stack A T → option (stack A T)).
(** A bound for the walk over the raw control blocks. *)
Context (raw_fuel : nat).
Implicit Types (s : stack A T) (p : Z).

(** A packet for a known protocol, or none; [iphdr] is its header. *)
Definition ip_dispatch p (inp iphdr cur_src cur_dest : Z) s : option (stack A T) :=
  let proto := le_num (peek (hp s) (iphdr + 9) 1) in
  if proto =? IP_PROTO_UDP then udp_input linkoutput ip_frag udp_callback p inp cur_src cur_dest s
  else if proto =? IP_PROTO_TCP then tcp_input p inp cur_src cur_dest s
  else if proto =? IP_PROTO_ICMP then
    x ← icmp_input linkoutput ip_frag p inp cur_src cur_dest (low s, hp s); Some (set_low x s)
  else
    n ← netifs (low s) !! inp;
    s ← (if negb (ip_addr_isbroadcast cur_dest n) && negb (ip_addr_ismulticast cur_dest) then
           h ← upd p (set_payload iphdr) (hp s);
           x ← icmp_dest_unreach linkoutput ip_frag p ICMP_DUR_PROTO (low s, h); Some (set_low x s)
         else Some s);
    free_packet p s.

(** A whole packet for us. *)
Definition ip_deliver p (inp cur_src cur_dest : Z) s : option (stack A T) :=
  iphdr ← payload_of (hp s) p;
  '(s, eaten) ← raw_input raw_callback raw_fuel p cur_src cur_dest s;
  if eaten : bool then Some s else ip_dispatch p inp iphdr cur_src cur_dest s.

(** A packet for us: a fragment goes through reassembly. *)
Definition ip_receive p (inp cur_src cur_dest : Z) s : option (stack A T) :=
  iphdr ← payload_of (hp s) p;
  if negb (Z.land (le_num (peek (hp s) (iphdr + 6) 2)) (PP_HTONS (Z.lor IP_OFFMASK IP_MF)) =? 0) then
    '(r, o) ← ip_reass (icmp_time_exceeded linkoutput ip_frag) p (reass_of s);
    let s := set_reass r s in
    match o with
    | None => Some s
    | Some p => ip_deliver p inp cur_src cur_dest s
    end
  else ip_deliver p inp cur_src cur_dest s.

Definition ip_input p (inp : Z) s : option (stack A T) :=
  b ← pbufs (hp s) !! p;
  let iphdr := payload b in
  if negb (Z.shiftr (le_num (peek (hp s) iphdr 1)) 4 =? 4) then free_packet p s else
  let iphdr_hlen := IPH_HL (peek (hp s) iphdr 1) * 4 in
  let iphdr_len := lwip_ntohs (le_num (peek (hp s) (iphdr + 2) 2)) in
  if (len b <? iphdr_hlen) || (tot_len b <? iphdr_len) then free_packet p s else
  if negb (inet_chksum iphdr (peek (hp s) iphdr (Z.to_nat iphdr_hlen)) =? 0) then free_packet p s else
  h ← pbuf_realloc p iphdr_len (hp s);
  let s := set_hp h s in
  let cur_dest := le_num (peek h (iphdr + 16) 4) in
  let cur_src := le_num (peek h (iphdr + 12) 4) in
  found ← ip_match inp cur_dest (low s);
  n ← netifs (low s) !! inp;
  if ip_addr_isbroadcast cur_src n || ip_addr_ismulticast cur_src then free_packet p s else
  match found with
  | None => free_packet p s
  | Some _ => ip_receive p inp cur_src cur_dest s
  end.

End operations.
