(* ===== verification/UdpOk.v ===== *)
(** * UDP: the bindings and the search for a receiver

    The control blocks on the list are those that have a port, and no two of
    them could both claim a datagram for one address. *)
From S2P Require Import Prelude LwipDef Chksum Memp Pbuf IpAddr Etharp IpReass Ip Icmp.
From S2P Require Import Stack Udp.
Local Open Scope Z_scope.

(** ** Which bindings conflict *)
Definition overlap (u : udp_pcb) (ip port : Z) : bool :=
  (local_port u =? port) && (ip_addr_isany (local_ip u) || ip_addr_isany ip || (local_ip u =? ip)).

Definition UDP_PORTS : Z := UDP_LOCAL_PORT_RANGE_END - UDP_LOCAL_PORT_RANGE_START + 1.
Definition in_range (port : Z) : Prop := UDP_LOCAL_PORT_RANGE_START <= port <= UDP_LOCAL_PORT_RANGE_END.

Record udp_ok (U : udp) : Prop := {
  uo_nodup : NoDup (udp_pcbs U);
  uo_bound i : i ∈ udp_pcbs U → ∃ u, upcb U !! i = Some u ∧ 0 < local_port u < 65536;
  uo_unbound i u : upcb U !! i = Some u → i ∉ udp_pcbs U → local_port u = 0;
  uo_apart i j u v : i ∈ udp_pcbs U → j ∈ udp_pcbs U → i ≠ j → upcb U !! i = Some u → upcb U !! j = Some v →
    overlap u (local_ip v) (local_port v) = false;
  uo_next : in_range (udp_port U) }.

Lemma overlap_sym u ip port v : local_ip v = ip → local_port v = port → overlap u ip port = overlap v (local_ip u) (local_port u).
Proof.
  intros <- <-. unfold overlap. rewrite (Z.eqb_sym (local_port u)), (Z.eqb_sym (local_ip u)). f_equal. f_equal. apply orb_comm.
Qed.

Section ports.
Implicit Types (U : udp) (l : list Z) (m : gmap Z udp_pcb).

(** ** [udp_new_port] *)
Lemma port_used_spec port m : ∀ l, (∀ i, i ∈ l → is_Some (m !! i)) →
  ∃ b, port_used port l m = Some b ∧ (b = true ↔ ∃ i u, i ∈ l ∧ m !! i = Some u ∧ local_port u = port).
Proof.
  induction l as [|i l IH]; intros Hm; [exists false; split; [done|]; split; [done|]; by intros (i & u & ?%not_elem_of_nil & _)|].
  destruct (Hm i ltac:(by left)) as [u Hu]. cbn [port_used]. rewrite Hu. cbn [mbind option_bind].
  destruct (Z.eqb_spec (local_port u) port) as [He|He].
  - exists true. split; [done|]. split; [|done]. intros _. exists i, u. split; [by left|done].
  - destruct IH as (b & Eb & Hb); [intros j Hj; apply Hm; by right|]. exists b. split; [done|]. rewrite Hb. split.
    + intros (j & v & Hj & ?). exists j, v. split; [by right|done].
    + intros (j & v & [->|Hj]%elem_of_cons & Hv & Hp); [congruence|by exists j, v].
Qed.

(** The [k]-th port tried from [p] on. *)
Definition tried (p : Z) (k : nat) : Z := UDP_LOCAL_PORT_RANGE_START + (p - UDP_LOCAL_PORT_RANGE_START + Z.of_nat k) mod UDP_PORTS.

Lemma tried_range p k : in_range (tried p k).
Proof. unfold in_range, tried. pose proof (Z.mod_pos_bound (p - UDP_LOCAL_PORT_RANGE_START + Z.of_nat k) UDP_PORTS). unfold UDP_PORTS, UDP_LOCAL_PORT_RANGE_START, UDP_LOCAL_PORT_RANGE_END in *. lia. Qed.

Lemma tried_step p : in_range p →
  (if p =? UDP_LOCAL_PORT_RANGE_END then UDP_LOCAL_PORT_RANGE_START else u16 (p + 1)) = tried p 1.
Proof.
  unfold in_range, tried, UDP_PORTS, UDP_LOCAL_PORT_RANGE_START, UDP_LOCAL_PORT_RANGE_END. intros Hp.
  destruct (Z.eqb_spec p 65535) as [->|]; [done|]. rewrite u16_id by (unfold is_u16; lia). rewrite Z.mod_small by lia. lia.
Qed.

Lemma tried_tried p k : tried (tried p 1) k = tried p (S k).
Proof.
  unfold tried. f_equal. replace (UDP_LOCAL_PORT_RANGE_START + (p - UDP_LOCAL_PORT_RANGE_START + Z.of_nat 1) mod UDP_PORTS - UDP_LOCAL_PORT_RANGE_START + Z.of_nat k)
    with ((p - UDP_LOCAL_PORT_RANGE_START + Z.of_nat 1) mod UDP_PORTS + Z.of_nat k) by lia.
  rewrite Zplus_mod_idemp_l. f_equal. lia.
Qed.

Definition used U (port : Z) : Prop := ∃ i u, i ∈ udp_pcbs U ∧ upcb U !! i = Some u ∧ local_port u = port.

(** The loop tries one port after the other and stops at the first free one. *)
Lemma new_port_loop_spec : ∀ fuel n U, (∀ i, i ∈ udp_pcbs U → is_Some (upcb U !! i)) → in_range (udp_port U) →
  0 <= n → n + Z.of_nat fuel = UDP_PORTS → (0 < fuel)%nat →
  (∃ k, (k < fuel)%nat ∧ new_port_loop fuel n U = Some (set_udp_port (tried (udp_port U) (S k)) U, tried (udp_port U) (S k)) ∧ ¬ used U (tried (udp_port U) (S k))) ∨
  (∀ k, (k < fuel)%nat → used U (tried (udp_port U) (S k))).
Proof.
  induction fuel as [|fuel IH]; intros n U Hm Hp Hn Hf H0; [lia|]. cbn [new_port_loop]. rewrite tried_step by done.
  destruct (port_used_spec (tried (udp_port U) 1) (upcb U) (udp_pcbs U) Hm) as (b & Eb & Hb). cbn [set_udp_port udp_pcbs upcb].
  rewrite Eb. cbn [mbind option_bind]. destruct b.
  - assert (Hu : used U (tried (udp_port U) 1)) by (by apply Hb).
    rewrite (u16_id (n + 1)) by (unfold is_u16, UDP_PORTS, UDP_LOCAL_PORT_RANGE_END, UDP_LOCAL_PORT_RANGE_START in *; lia).
    destruct (decide (fuel = 0%nat)) as [->|Hne].
    { right. intros k Hk. by replace k with 0%nat by lia. }
    rewrite (proj2 (Z.ltb_ge _ _)) by (unfold UDP_PORTS in Hf; lia).
    destruct (IH (n + 1) (set_udp_port (tried (udp_port U) 1) U)) as [(k & Hk & E & Hfree)|Hall];
      [done|apply tried_range|lia|lia|lia| |].
    + left. exists (S k). cbn [udp_port set_udp_port] in E, Hfree. rewrite tried_tried in E, Hfree. split; [lia|]. split; [exact E|exact Hfree].
    + right. intros [|k] Hk; [done|]. specialize (Hall k ltac:(lia)). cbn [udp_port set_udp_port] in Hall. rewrite tried_tried in Hall. exact Hall.
  - left. exists 0%nat. split; [lia|]. split; [done|]. intros Hu. by apply Hb in Hu.
Qed.

Lemma tried_inj p j k : (j < Z.to_nat UDP_PORTS)%nat → (k < Z.to_nat UDP_PORTS)%nat → tried p (S j) = tried p (S k) → j = k.
Proof.
  unfold tried. intros Hj Hk E. assert (E' : (p - UDP_LOCAL_PORT_RANGE_START + Z.of_nat (S j)) mod UDP_PORTS = (p - UDP_LOCAL_PORT_RANGE_START + Z.of_nat (S k)) mod UDP_PORTS) by lia.
  unfold UDP_PORTS, UDP_LOCAL_PORT_RANGE_START, UDP_LOCAL_PORT_RANGE_END in *. Z.to_euclidean_division_equations. lia.
Qed.

Lemma used_bound U (f : nat → Z) (n : nat) : (∀ j k, (j < n)%nat → (k < n)%nat → f j = f k → j = k) → (∀ k, (k < n)%nat → used U (f k)) →
  (n ≤ length (udp_pcbs U))%nat.
Proof.
  intros Inj Hu. set (ports := (λ i, from_option local_port 0 (upcb U !! i)) <$> udp_pcbs U).
  assert (ND : NoDup (f <$> seq 0 n)).
  { apply NoDup_fmap_2_strong; [|apply NoDup_seq]. intros j k Hj%elem_of_seq Hk%elem_of_seq. apply Inj; lia. }
  pose proof (NoDup_submseteq (f <$> seq 0 n) ports ND) as S.
  assert (L : (length (f <$> seq 0 n) ≤ length ports)%nat).
  { apply submseteq_length, S. intros x (k & -> & Hk%elem_of_seq)%list_elem_of_fmap. destruct (Hu k ltac:(lia)) as (i & u & Hi & Hui & <-).
    apply list_elem_of_fmap. exists i. by rewrite Hui. }
  unfold ports in L. by rewrite !length_fmap, length_seq in L.
Qed.

Lemma udp_new_port_ok U : (∀ i, i ∈ udp_pcbs U → is_Some (upcb U !! i)) → in_range (udp_port U) → Z.of_nat (length (udp_pcbs U)) < UDP_PORTS →
  ∃ port, udp_new_port U = Some (set_udp_port port U, port) ∧ in_range port ∧ ¬ used U port.
Proof.
  intros Hm Hp Hl. destruct (new_port_loop_spec (Z.to_nat UDP_PORTS) 0 U Hm Hp) as [(k & Hk & E & Hf)|Hall].
  - lia.
  - unfold UDP_PORTS, UDP_LOCAL_PORT_RANGE_START, UDP_LOCAL_PORT_RANGE_END. lia.
  - unfold UDP_PORTS, UDP_LOCAL_PORT_RANGE_START, UDP_LOCAL_PORT_RANGE_END. lia.
  - exists (tried (udp_port U) (S k)). split; [exact E|]. split; [apply tried_range|done].
  - exfalso. pose proof (used_bound U (λ k, tried (udp_port U) (S k)) (Z.to_nat UDP_PORTS) (tried_inj (udp_port U)) Hall). lia.
Qed.
End ports.

Section binding.
Implicit Types (U : udp) (l : list Z) (m : gmap Z udp_pcb) (u v : udp_pcb).

(** ** [udp_bind] *)
Lemma bind_loop_spec pcb ip port m : ∀ l rebind, NoDup l → (∀ i, i ∈ l → is_Some (m !! i)) → (rebind = true → pcb ∉ l) →
  ∃ r, bind_loop pcb ip port l rebind m = Some r ∧
    match r with
    | None => ∃ i u, i ∈ l ∧ i ≠ pcb ∧ m !! i = Some u ∧ overlap u ip port = true
    | Some b => b = rebind || bool_decide (pcb ∈ l) ∧ ∀ i u, i ∈ l → i ≠ pcb → m !! i = Some u → overlap u ip port = false
    end.
Proof.
  induction l as [|i l IH]; intros rebind ND Hm Hr.
  { exists (Some rebind). split; [done|]. split; [by rewrite bool_decide_eq_false_2, orb_false_r by apply not_elem_of_nil|]. by intros i u ?%not_elem_of_nil. }
  apply NoDup_cons in ND as [Hi ND]. cbn [bind_loop]. destruct (Z.eqb_spec i pcb) as [->|Hne].
  - destruct rebind; [destruct Hr; [done|by left]|]. cbn [lwip_assert negb mbind option_bind].
    destruct (IH true ND) as (r & E & R); [intros j Hj; apply Hm; by right|done|]. exists r. split; [exact E|]. destruct r as [b|].
    + destruct R as [-> R]. split; [rewrite (bool_decide_eq_true_2 (pcb ∈ pcb :: l)) by (by left); done|].
      intros j u [->|Hj]%elem_of_cons Hjp Hu; [done|by apply (R j)].
    + destruct R as (j & u & Hj & R). exists j, u. split; [by right|done].
  - destruct (Hm i ltac:(by left)) as [u Hu]. rewrite Hu. cbn [mbind option_bind]. fold (overlap u ip port).
    destruct (overlap u ip port) eqn:Eo.
    + exists None. split; [done|]. exists i, u. split; [by left|done].
    + destruct (IH rebind ND) as (r & E & R); [intros j Hj; apply Hm; by right|intros Ht Hj; apply Hr; [done|by right]|].
      exists r. split; [exact E|]. destruct r as [b|].
      * destruct R as [-> R]. split.
        { f_equal. apply bool_decide_ext. split; [by right|]. intros [->|?]%elem_of_cons; done. }
        intros j v [->|Hj]%elem_of_cons Hjp Hv; [congruence|by apply (R j)].
      * destruct R as (j & v & Hj & R). exists j, v. split; [by right|done].
Qed.

Lemma not_used_overlap U port i u ip : ¬ used U port → i ∈ udp_pcbs U → upcb U !! i = Some u → overlap u ip port = false.
Proof.
  intros Hn Hi Hu. unfold overlap. destruct (Z.eqb_spec (local_port u) port); [|done]. destruct Hn. by exists i, u.
Qed.

(** [pcb] gets [ip] and [port] and is on the list. *)
Definition bound_to pcb (ip port : Z) U : udp :=
  MkUdpState (udp_port U) (if bool_decide (pcb ∈ udp_pcbs U) then udp_pcbs U else pcb :: udp_pcbs U)
    (alter (λ u, set_local_port port (set_local_ip ip u)) pcb (upcb U)).

Lemma bound_to_ok U pcb ip port u : udp_ok U → upcb U !! pcb = Some u → 0 < port < 65536 →
  (∀ i v, i ∈ udp_pcbs U → i ≠ pcb → upcb U !! i = Some v → overlap v ip port = false) → udp_ok (bound_to pcb ip port U).
Proof.
  intros [ND Hb Hn Ha Hp] Hu Hport Hfree. constructor; cbn [bound_to udp_pcbs upcb udp_port].
  - case_bool_decide; [done|]. by constructor.
  - intros i Hi. destruct (decide (i = pcb)) as [->|Hne].
    + rewrite lookup_alter_eq, Hu. eexists. split; [done|]. done.
    + rewrite lookup_alter_ne by done. apply Hb. case_bool_decide; [done|]. by apply elem_of_cons in Hi as [->|?].
  - intros i v Hv Hi. destruct (decide (i = pcb)) as [->|Hne].
    + exfalso. apply Hi. case_bool_decide; [done|by left].
    + rewrite lookup_alter_ne in Hv by done. apply (Hn i); [done|]. intros ?. apply Hi. case_bool_decide; [done|by right].
  - assert (In : ∀ i, i ∈ (if bool_decide (pcb ∈ udp_pcbs U) then udp_pcbs U else pcb :: udp_pcbs U) → i ≠ pcb → i ∈ udp_pcbs U).
    { intros i Hi Hne. case_bool_decide; [done|]. by apply elem_of_cons in Hi as [->|?]. }
    intros i j v w Hi Hj Hij Hv Hw. destruct (decide (i = pcb)) as [->|Hip], (decide (j = pcb)) as [->|Hjp].
    + done.
    + rewrite lookup_alter_eq, Hu in Hv. injection Hv as <-. rewrite lookup_alter_ne in Hw by done.
      rewrite (overlap_sym _ (local_ip w) (local_port w) w) by done. cbn. apply (Hfree j); auto.
    + rewrite lookup_alter_eq, Hu in Hw. injection Hw as <-. rewrite lookup_alter_ne in Hv by done. cbn. apply (Hfree i); auto.
    + rewrite lookup_alter_ne in Hv, Hw by done. apply (Ha i j); auto.
  - done.
Qed.

Lemma udp_ok_some U i : udp_ok U → i ∈ udp_pcbs U → is_Some (upcb U !! i).
Proof. intros K Hi. destruct (uo_bound _ K i Hi) as (u & Hu & _). by exists u. Qed.

Lemma udp_ok_port U port : udp_ok U → in_range port → udp_ok (set_udp_port port U).
Proof. intros [ND Hb Hn Ha Hp] Hr. by constructor. Qed.

Lemma upd_pcb_eq pcb f u U : upcb U !! pcb = Some u → upd_pcb pcb f U = Some (MkUdpState (udp_port U) (udp_pcbs U) (<[pcb := f u]> (upcb U))).
Proof. intros Hu. unfold upd_pcb. by rewrite Hu. Qed.

Lemma upd_twice pcb (f g : udp_pcb → udp_pcb) u U : upcb U !! pcb = Some u →
  (U ← upd_pcb pcb f U; upd_pcb pcb g U) = Some (MkUdpState (udp_port U) (udp_pcbs U) (alter (λ u, g (f u)) pcb (upcb U))).
Proof.
  intros Hu. unfold upd_pcb. rewrite Hu. cbn [mbind option_bind upcb udp_port udp_pcbs]. rewrite lookup_insert_eq. cbn [mbind option_bind].
  rewrite insert_insert_eq. do 2 f_equal. apply map_eq. intros i. destruct (decide (i = pcb)) as [->|Hne].
  - by rewrite lookup_insert_eq, lookup_alter_eq, Hu.
  - by rewrite lookup_insert_ne, lookup_alter_ne.
Qed.

Lemma udp_bind_ok U pcb ip port u : udp_ok U → upcb U !! pcb = Some u → is_u16 port → Z.of_nat (length (udp_pcbs U)) < UDP_PORTS →
  (∃ port' next, udp_bind pcb ip port U = Some (bound_to pcb ip port' (set_udp_port next U), ERR_OK)
     ∧ udp_ok (bound_to pcb ip port' (set_udp_port next U)) ∧ (port ≠ 0 → port' = port ∧ next = udp_port U)
     ∧ (port = 0 → in_range port' ∧ ¬ used U port')) ∨
  (udp_bind pcb ip port U = Some (U, ERR_USE) ∧ ∃ i v, i ∈ udp_pcbs U ∧ i ≠ pcb ∧ upcb U !! i = Some v ∧ overlap v ip port = true).
Proof.
  intros K Hu Hport Hlen. unfold udp_bind.
  destruct (bind_loop_spec pcb ip port (upcb U) (udp_pcbs U) false (uo_nodup _ K) (λ i, udp_ok_some U i K)) as (r & E & R); [done|].
  rewrite E. cbn [mbind option_bind]. destruct r as [b|]; [|by right]. left. destruct R as [-> R]. cbn [orb].
  assert (Fin : ∀ next port', (let U1 := MkUdpState next (udp_pcbs U) (<[pcb := set_local_ip ip u]> (upcb U)) in
      U2 ← upd_pcb pcb (set_local_port port') U1;
      Some (if bool_decide (pcb ∈ udp_pcbs U) then U2 else set_udp_pcbs (pcb :: udp_pcbs U2) U2, ERR_OK)) =
      Some (bound_to pcb ip port' (set_udp_port next U), ERR_OK)).
  { intros next port'. cbn. unfold upd_pcb. cbn. rewrite lookup_insert_eq. cbn. rewrite insert_insert_eq. unfold bound_to. cbn.
    assert (<[pcb := set_local_port port' (set_local_ip ip u)]> (upcb U) = alter (λ u, set_local_port port' (set_local_ip ip u)) pcb (upcb U)) as ->.
    { apply map_eq. intros i. destruct (decide (i = pcb)) as [->|]; [by rewrite lookup_insert_eq, lookup_alter_eq, Hu|by rewrite lookup_insert_ne, lookup_alter_ne]. }
    by case_bool_decide. }
  rewrite (upd_pcb_eq pcb _ u U Hu). cbn [mbind option_bind]. destruct (Z.eqb_spec port 0) as [->|Hne].
  - set (U1 := MkUdpState (udp_port U) (udp_pcbs U) (<[pcb := set_local_ip ip u]> (upcb U))).
    destruct (udp_new_port_ok U1) as (port' & E1 & Hr & Hf).
    { intros i Hi. cbn. destruct (decide (i = pcb)) as [->|]; [rewrite lookup_insert_eq; by eexists|]. rewrite lookup_insert_ne by done. by apply udp_ok_some. }
    { apply K. }
    { done. }
    rewrite E1. cbn [mbind option_bind]. assert (Hr0 := Hr). unfold in_range, UDP_LOCAL_PORT_RANGE_START, UDP_LOCAL_PORT_RANGE_END in Hr0.
    rewrite (proj2 (Z.eqb_neq port' 0)) by lia.
    assert (Hf' : ¬ used U port').
    { intros (i & v & Hi & Hv & Hp). apply Hf. destruct (decide (i = pcb)) as [->|].
      - exists pcb, (set_local_ip ip u). cbn. rewrite lookup_insert_eq. assert (v = u) as -> by congruence. done.
      - exists i, v. cbn. by rewrite lookup_insert_ne. }
    exists port', port'. split; [apply (Fin port' port')|]. split; [|by split].
    apply (bound_to_ok _ pcb ip port' u); [by apply udp_ok_port|done|lia|]. intros i v Hi _ Hv. by apply (not_used_overlap U port' i).
  - cbn [mbind option_bind]. rewrite (proj2 (Z.eqb_neq port 0)) by done.
    exists port, (udp_port U). split; [apply (Fin (udp_port U) port)|]. split; [|split; [done|lia]].
    apply (bound_to_ok _ pcb ip port u); [by apply udp_ok_port; [|apply K]|done|unfold is_u16 in Hport; lia|exact R].
Qed.

(** ** The other operations *)
Lemma udp_ok_same U m : udp_ok U →
  (∀ i u, upcb U !! i = Some u → ∃ u', m !! i = Some u' ∧ local_ip u' = local_ip u ∧ local_port u' = local_port u) →
  (∀ i, upcb U !! i = None → m !! i = None) → udp_ok (MkUdpState (udp_port U) (udp_pcbs U) m).
Proof.
  intros [ND Hb Hn Ha Hp] Hm Hno. assert (Back : ∀ i u', m !! i = Some u' → ∃ u, upcb U !! i = Some u ∧ local_ip u' = local_ip u ∧ local_port u' = local_port u).
  { intros i u' Hu'. destruct (upcb U !! i) as [u|] eqn:Hu; [|rewrite Hno in Hu'; done]. destruct (Hm i u Hu) as (w & Hw & ? & ?).
    assert (w = u') as -> by congruence. by exists u. }
  constructor; cbn [udp_pcbs upcb udp_port]; [done| | | |done].
  - intros i Hi. destruct (Hb i Hi) as (u & Hu & Hl). destruct (Hm i u Hu) as (u' & Hu' & _ & E). exists u'. by rewrite E.
  - intros i u' Hu' Hi. destruct (Back i u' Hu') as (u & Hu & _ & ->). by apply (Hn i).
  - intros i j u' v' Hi Hj Hij Hu' Hv'. destruct (Back i u' Hu') as (u & Hu & Ei & Ep). destruct (Back j v' Hv') as (v & Hv & Ej & Eq).
    unfold overlap. rewrite Ei, Ep, Ej, Eq. by apply (Ha i j).
Qed.

Lemma insert_same_binding U pcb u u' : upcb U !! pcb = Some u → local_ip u' = local_ip u → local_port u' = local_port u → udp_ok U →
  udp_ok (MkUdpState (udp_port U) (udp_pcbs U) (<[pcb := u']> (upcb U))).
Proof.
  intros Hu Ei Ep K. apply udp_ok_same; [done| |].
  - intros i w Hw. destruct (decide (i = pcb)) as [->|Hne]; [rewrite lookup_insert_eq|rewrite lookup_insert_ne by done; by exists w].
    assert (w = u) as -> by congruence. by exists u'.
  - intros i Hi. rewrite lookup_insert_ne; [done|]. congruence.
Qed.

Definition connected_to (ip port : Z) u : udp_pcb := set_uflags (Z.lor (uflags u) UDP_FLAGS_CONNECTED) (set_remote_port port (set_remote_ip ip u)).
Definition disconnected u : udp_pcb := set_uflags (Z.land (uflags u) (255 - UDP_FLAGS_CONNECTED)) (set_remote_port 0 (set_remote_ip IPADDR_ANY u)).

Lemma upd_thrice pcb (f g k : udp_pcb → udp_pcb) u U : upcb U !! pcb = Some u →
  (U ← upd_pcb pcb f U; U ← upd_pcb pcb g U; upd_pcb pcb k U) = Some (MkUdpState (udp_port U) (udp_pcbs U) (<[pcb := k (g (f u))]> (upcb U))).
Proof.
  intros Hu. rewrite (upd_pcb_eq pcb f u) by done. cbn [mbind option_bind]. rewrite (upd_pcb_eq pcb g (f u)) by apply lookup_insert_eq.
  cbn [mbind option_bind]. rewrite (upd_pcb_eq pcb k (g (f u))) by (cbn; by rewrite lookup_insert_eq). cbn. by rewrite !insert_insert_eq.
Qed.

Lemma udp_connect_ok U pcb ip port u : udp_ok U → upcb U !! pcb = Some u → Z.of_nat (length (udp_pcbs U)) < UDP_PORTS →
  ∃ U' u', udp_connect pcb ip port U = Some (U', ERR_OK) ∧ udp_ok U' ∧ pcb ∈ udp_pcbs U' ∧ upcb U' !! pcb = Some (connected_to ip port u') ∧
    local_ip u' = local_ip u ∧ (local_port u ≠ 0 → local_port u' = local_port u) ∧ recv u' = recv u ∧ dom (upcb U') = dom (upcb U).
Proof.
  intros K Hu Hlen. unfold udp_connect. rewrite Hu. cbn [mbind option_bind].
  assert (Fin : ∀ U1 u1, udp_ok U1 → pcb ∈ udp_pcbs U1 → upcb U1 !! pcb = Some u1 →
    (U2 ← upd_pcb pcb (set_remote_ip ip) U1; U3 ← upd_pcb pcb (set_remote_port port) U2;
     U4 ← upd_pcb pcb (λ u, set_uflags (Z.lor (uflags u) UDP_FLAGS_CONNECTED) u) U3;
     Some (if bool_decide (pcb ∈ udp_pcbs U4) then U4 else set_udp_pcbs (pcb :: udp_pcbs U4) U4, ERR_OK)) =
    Some (MkUdpState (udp_port U1) (udp_pcbs U1) (<[pcb := connected_to ip port u1]> (upcb U1)), ERR_OK)).
  { intros U1 u1 K1 Hin Hu1. rewrite (upd_pcb_eq pcb _ u1) by done. cbn [mbind option_bind]. rewrite (upd_pcb_eq pcb _ (set_remote_ip ip u1)) by apply lookup_insert_eq.
    cbn [mbind option_bind]. rewrite (upd_pcb_eq pcb _ (set_remote_port port (set_remote_ip ip u1))) by (cbn; by rewrite lookup_insert_eq).
    cbn. rewrite bool_decide_eq_true_2 by done. by rewrite !insert_insert_eq. }
  destruct (Z.eqb_spec (local_port u) 0) as [E0|E0].
  - destruct (udp_bind_ok U pcb (local_ip u) (local_port u) u K Hu) as [(port' & nx & E1 & K1 & _ & Hp)|(E1 & i & v & Hi & _ & Hv & Ho)].
    { unfold is_u16. lia. }
    { done. }
    + rewrite E1. cbn [mbind option_bind]. change (negb (ERR_OK =? ERR_OK)) with false. cbv iota.
      assert (Hin : pcb ∈ udp_pcbs (bound_to pcb (local_ip u) port' (set_udp_port nx U))) by (cbn; case_bool_decide; [done|by left]).
      assert (Hu1 : upcb (bound_to pcb (local_ip u) port' (set_udp_port nx U)) !! pcb = Some (set_local_port port' (set_local_ip (local_ip u) u))).
      { cbn. by rewrite lookup_alter_eq, Hu. }
      rewrite (Fin _ _ K1 Hin Hu1). eexists _, _. split; [done|]. split; [|split_and!].
      * by eapply insert_same_binding.
      * exact Hin.
      * apply lookup_insert_eq.
      * done.
      * done.
      * done.
      * cbn. rewrite dom_insert_lookup_L; [apply dom_alter_L|]. by exists (set_local_port port' (set_local_ip (local_ip u) u)).
    + exfalso. unfold overlap in Ho. apply andb_true_iff in Ho as [Ho%Z.eqb_eq _]. destruct (uo_bound _ K i Hi) as (w & Hw & Hr).
      assert (w = v) as -> by congruence. lia.
  - cbn [mbind option_bind]. change (negb (ERR_OK =? ERR_OK)) with false. cbv iota.
    assert (Hin : pcb ∈ udp_pcbs U). { destruct (decide (pcb ∈ udp_pcbs U)) as [|Hn]; [done|]. by apply (uo_unbound _ K) in Hu. }
    rewrite (Fin U u K Hin Hu). eexists _, u. split; [done|]. split; [by eapply insert_same_binding|]. split; [exact Hin|]. split; [apply lookup_insert_eq|]. split_and!; try done.
    cbn. by rewrite dom_insert_lookup_L.
Qed.

Lemma udp_disconnect_ok U pcb u : udp_ok U → upcb U !! pcb = Some u →
  udp_disconnect pcb U = Some (MkUdpState (udp_port U) (udp_pcbs U) (<[pcb := disconnected u]> (upcb U))) ∧
  udp_ok (MkUdpState (udp_port U) (udp_pcbs U) (<[pcb := disconnected u]> (upcb U))).
Proof. intros K Hu. split; [|by eapply insert_same_binding].
  exact (upd_thrice pcb (set_remote_ip IPADDR_ANY) (set_remote_port 0) (λ u, set_uflags (Z.land (uflags u) (255 - UDP_FLAGS_CONNECTED)) u) u U Hu).
Qed.

Lemma unlink_filter pcb l : NoDup l → unlink pcb l = filter (λ j, j ≠ pcb) l.
Proof.
  destruct l as [|i l]; [done|]. intros [Hi ND]%NoDup_cons. cbn [unlink]. destruct (Z.eqb_spec i pcb) as [->|Hne].
  - rewrite filter_cons_False by auto. symmetry. apply filter_all. apply Forall_forall. intros j Hj ->. done.
  - by rewrite filter_cons_True.
Qed.

Lemma udp_remove_ok U pcb : udp_ok U → udp_ok (MkUdpState (udp_port U) (unlink pcb (udp_pcbs U)) (delete pcb (upcb U))).
Proof.
  intros [ND Hb Hn Ha Hp]. rewrite unlink_filter by done. constructor; cbn [udp_pcbs upcb udp_port].
  - by apply NoDup_filter.
  - intros i [Hne Hi]%list_elem_of_filter. rewrite lookup_delete_ne by done. by apply Hb.
  - intros i u [Hne Hu]%lookup_delete_Some Hi. apply (Hn i u Hu). intros Hi'. apply Hi. by apply list_elem_of_filter.
  - intros i j u v [? Hi]%list_elem_of_filter [? Hj]%list_elem_of_filter Hij [_ Hu]%lookup_delete_Some [_ Hv]%lookup_delete_Some. by apply (Ha i j).
  - done.
Qed.

Lemma udp_new_ok U pcb : udp_ok U → upcb U !! pcb = None → udp_ok (MkUdpState (udp_port U) (udp_pcbs U) (<[pcb := MkUdp 0 0 0 UDP_TTL 0 0 0 None]> (upcb U))).
Proof.
  intros K Hno. assert (Hi : pcb ∉ udp_pcbs U) by (intros Hi; by destruct (udp_ok_some U pcb K Hi) as [u Hu]; congruence).
  destruct K as [ND Hb Hn Ha Hp]. constructor; cbn [udp_pcbs upcb udp_port]; [done| | | |done].
  - intros i Hin. rewrite lookup_insert_ne by congruence. by apply Hb.
  - intros i u [[<- <-]|[_ Hu]]%lookup_insert_Some Hin; [done|by apply (Hn i)].
  - intros i j u v Hi1 Hj1 Hij. rewrite !lookup_insert_ne by congruence. by apply (Ha i j).
Qed.
End binding.

(** ** The search for the receiver *)
Section demux.
Implicit Types (U : udp) (l : list Z) (m : gmap Z udp_pcb) (u v : udp_pcb).

(** The first control block of the list with a property. *)
Fixpoint first_such (P : udp_pcb → bool) l m : option Z :=
  match l with
  | [] => None
  | i :: l => match m !! i with Some u => if P u then Some i else first_such P l m | None => first_such P l m end
  end.

Lemma first_such_None P m : ∀ l, first_such P l m = None ↔ ∀ i u, i ∈ l → m !! i = Some u → P u = false.
Proof.
  induction l as [|i l IH]; cbn [first_such]; [split; [by intros _ i u ?%not_elem_of_nil|done]|].
  destruct (m !! i) as [u|] eqn:Hu; [destruct (P u) eqn:HP|].
  - split; [done|]. intros Hn. rewrite (Hn i u ltac:(by left) Hu) in HP. done.
  - rewrite IH. split; [intros Hn j v [->|Hj]%elem_of_cons Hv; [congruence|by apply (Hn j)]|intros Hn j v Hj; apply Hn; by right].
  - rewrite IH. split; [intros Hn j v [->|Hj]%elem_of_cons Hv; [congruence|by apply (Hn j)]|intros Hn j v Hj; apply Hn; by right].
Qed.

Lemma first_such_Some P m : ∀ l i, first_such P l m = Some i → i ∈ l ∧ ∃ u, m !! i = Some u ∧ P u = true.
Proof.
  induction l as [|j l IH]; intros i; cbn [first_such]; [done|]. destruct (m !! j) as [u|] eqn:Hu; [destruct (P u) eqn:HP|].
  - intros [= <-]. split; [by left|by exists u].
  - intros Hi. destruct (IH i Hi) as [? ?]. split; [by right|done].
  - intros Hi. destruct (IH i Hi) as [? ?]. split; [by right|done].
Qed.

Section search.
Context (src dest cur_src cur_dest : Z) (broadcast : bool) (n : netif).

Definition takes u : bool := local_matches u dest cur_dest broadcast n.
Definition takes_whole u : bool := takes u && remote_matches u src cur_src.
Definition takes_any u : bool := takes u && negb (connected u).

(** Who gets the datagram. *)
Definition receiver U : option Z :=
  match first_such takes_whole (udp_pcbs U) (upcb U) with
  | Some i => Some i
  | None => first_such takes_any (udp_pcbs U) (upcb U)
  end.

Lemma demux_loop_spec m : ∀ l prev uncon, (∀ i, i ∈ l → is_Some (m !! i)) →
  ∃ found uncon', demux_loop src dest cur_src cur_dest broadcast n m prev l uncon = Some (found, uncon') ∧
    match first_such takes_whole l m with
    | Some i => ∃ l1 l2, l = l1 ++ i :: l2 ∧ found = Some (prev ++ l1, i, l2)
    | None => found = None ∧ uncon' = match uncon with Some _ => uncon | None => first_such takes_any l m end
    end.
Proof.
  induction l as [|i l IH]; intros prev uncon Hm.
  { exists None, uncon. split; [done|]. split; [done|]. by destruct uncon. }
  destruct (Hm i ltac:(by left)) as [u Hu]. cbn [demux_loop first_such]. rewrite Hu. cbn [mbind option_bind].
  unfold takes_whole, takes_any. fold (takes u). destruct (takes u && remote_matches u src cur_src) eqn:Ew.
  - eexists _, _. split; [done|]. exists [], l. split; [done|]. by rewrite app_nil_r.
  - set (uncon1 := if takes u && bool_decide (uncon = None) && negb (connected u) then Some i else uncon).
    destruct (IH (prev ++ [i]) uncon1) as (found & uncon' & E & R); [intros j Hj; apply Hm; by right|].
    exists found, uncon'. split; [exact E|]. fold takes_whole takes_any in R |- *. destruct (first_such takes_whole l m) as [j|].
    + destruct R as (l1 & l2 & -> & ->). exists (i :: l1), l2. split; [done|]. by rewrite <- app_assoc.
    + destruct R as [-> ->]. split; [done|]. unfold uncon1, takes_any. destruct uncon as [x|]; [by rewrite andb_false_r|].
      rewrite bool_decide_eq_true_2, andb_true_r by done. by destruct (takes u && negb (connected u)).
Qed.

Lemma udp_demux_ok U : (∀ i, i ∈ udp_pcbs U → is_Some (upcb U !! i)) →
  ∃ U', udp_demux src dest cur_src cur_dest broadcast n U = Some (U', receiver U) ∧
    udp_pcbs U' ≡ₚ udp_pcbs U ∧ upcb U' = upcb U ∧ udp_port U' = udp_port U ∧
    (∀ i, first_such takes_whole (udp_pcbs U) (upcb U) = Some i → head (udp_pcbs U') = Some i).
Proof.
  intros Hm. unfold udp_demux, receiver. destruct (demux_loop_spec (upcb U) (udp_pcbs U) [] None Hm) as (found & uncon & E & R).
  rewrite E. cbn [mbind option_bind]. destruct (first_such takes_whole (udp_pcbs U) (upcb U)) as [i|].
  - destruct R as (l1 & l2 & El & ->). eexists. split; [done|]. cbn. split_and!; [|done|done|by intros j [= <-]].
    rewrite El. by rewrite Permutation_middle.
  - destruct R as [-> ->]. eexists. split; [done|]. by split_and!.
Qed.

(** With bindings that do not conflict a datagram for one address has at most
    one receiver. *)
Lemma takes_conflict u v : broadcast = false → takes u = true → takes v = true → overlap u (local_ip v) (local_port v) = true.
Proof.
  unfold takes, local_matches, overlap. intros ->. cbn. rewrite !orb_false_r, !andb_true_iff, !orb_true_iff, !Z.eqb_eq.
  intros (P1 & H1) (P2 & H2). split; [congruence|]. destruct H1 as [H1| ->], H2 as [H2| ->]; auto.
Qed.

Lemma takes_unique U i j u v : udp_ok U → broadcast = false → i ∈ udp_pcbs U → j ∈ udp_pcbs U →
  upcb U !! i = Some u → upcb U !! j = Some v → takes u = true → takes v = true → i = j.
Proof.
  intros K Hb Hi Hj Hu Hv Tu Tv. destruct (decide (i = j)) as [|Hne]; [done|].
  pose proof (uo_apart _ K i j u v Hi Hj Hne Hu Hv) as Ho. by rewrite takes_conflict in Ho.
Qed.

Lemma receiver_unicast U i : udp_ok U → broadcast = false →
  receiver U = Some i ↔ i ∈ udp_pcbs U ∧ ∃ u, upcb U !! i = Some u ∧ takes u = true ∧ (connected u = false ∨ remote_matches u src cur_src = true).
Proof.
  intros K Hb. unfold receiver. split.
  - destruct (first_such takes_whole _ _) as [j|] eqn:E1.
    + intros [= ->]. apply first_such_Some in E1 as (Hi & u & Hu & [Ht Hr]%andb_true_iff). split; [done|]. exists u. auto.
    + intros E2. apply first_such_Some in E2 as (Hi & u & Hu & [Ht Hc]%andb_true_iff). split; [done|]. exists u. apply negb_true_iff in Hc. auto.
  - intros (Hi & u & Hu & Ht & Hc). destruct (first_such takes_whole _ _) as [j|] eqn:E1.
    + apply first_such_Some in E1 as (Hj & v & Hv & [Hv1 _]%andb_true_iff). f_equal. by eapply takes_unique.
    + destruct Hc as [Hc|Hr].
      * destruct (first_such takes_any _ _) as [j|] eqn:E2.
        -- apply first_such_Some in E2 as (Hj & v & Hv & [Hv1 _]%andb_true_iff). f_equal. by eapply takes_unique.
        -- eapply first_such_None in E2; [|exact Hi|exact Hu]. unfold takes_any in E2. by rewrite Ht, Hc in E2.
      * eapply first_such_None in E1; [|exact Hi|exact Hu]. unfold takes_whole in E1. by rewrite Ht, Hr in E1.
Qed.

Lemma udp_ok_perm U l : udp_pcbs U ≡ₚ l → udp_ok U → udp_ok (set_udp_pcbs l U).
Proof.
  intros P [ND Hb Hn Ha Hp]. assert (In : ∀ i, i ∈ l ↔ i ∈ udp_pcbs U) by (intros i; by rewrite P).
  constructor; cbn [set_udp_pcbs udp_pcbs upcb udp_port]; [by rewrite <- P| | | |done].
  - intros i Hi. apply Hb. by apply In.
  - intros i u Hu Hi. apply (Hn i u Hu). by rewrite <- In.
  - intros i j u v Hi Hj. apply Ha; by apply In.
Qed.

Lemma receiver_in U i : receiver U = Some i → i ∈ udp_pcbs U ∧ is_Some (upcb U !! i).
Proof.
  unfold receiver. destruct (first_such takes_whole _ _) as [j|] eqn:E1; [intros [= ->]; rename E1 into E2|intros E2];
  apply first_such_Some in E2 as (Hi & u & Hu & _); split; eauto.
Qed.

Lemma udp_demux_keeps U : udp_ok U → ∃ U', udp_demux src dest cur_src cur_dest broadcast n U = Some (U', receiver U) ∧ udp_ok U' ∧
  udp_pcbs U' ≡ₚ udp_pcbs U ∧ upcb U' = upcb U.
Proof.
  intros K. destruct (udp_demux_ok U (λ i, udp_ok_some U i K)) as (U' & E & P & Em & Ep & _). exists U'. split_and!; try done.
  destruct U' as [p l m]. cbn in *. subst p m. apply (udp_ok_perm U l); [by rewrite P|done].
Qed.
End search.
End demux.
