(* ===== verification/UdpMain.v ===== *)
(** * UDP: sequences of calls, the theorems

    The calls of a program that uses udp.c, in any order, between changes that
    the rest of the stack makes to the packets. *)
From S2P Require Import Prelude LwipDef Chksum Memp Pbuf PbufRef PbufOwn PbufMove LwipMem IpAddr Etharp IpReass Ip Icmp.
From S2P Require Import Stack Udp UdpOk.
Local Open Scope Z_scope.

(** ** The pool of the control blocks is finite *)
Class BoundedPools (A : Type) `{Arena A} :=
  pool_bound (k : memp_t) (a : A) (l : list Z) : NoDup l → (∀ p, p ∈ l → live a !! p = Some (POOL k)) → (length l ≤ memp_num k)%nat.

#[export] Instance lwip_bounded sizeof_element memp_memory ram_heap (Hp : placed sizeof_element memp_memory ram_heap) :
  BoundedPools (arena_state sizeof_element memp_memory ram_heap).
Proof.
  intros k a l ND Hl. rewrite <- (elements_length sizeof_element memp_memory k). apply submseteq_length, NoDup_submseteq; [done|].
  assert (S : ∃ s, memory_ok sizeof_element memp_memory ram_heap s
    ∧ ∀ p, p ∈ l → live_blocks sizeof_element memp_memory s !! p = Some (POOL k)).
  { destruct a as [s K|l' (s & K & S)]; exists s; (split; [done|]); intros p Hin; [by apply Hl|].
    eapply lookup_weaken; [by apply Hl|done]. }
  destruct S as (s & K & S). intros p Hin%S. apply (live_lookup sizeof_element memp_memory ram_heap Hp s p _ K) in Hin.
  apply held_in in Hin as [[? _]|(j & [= <-] & ? & _)]; done.
Qed.

Inductive udp_call :=
  | CallNew
  | CallRemove (pcb : Z)
  | CallBind (pcb ip port : Z)
  | CallConnect (pcb ip port : Z)
  | CallDisconnect (pcb : Z)
  | CallRecv (pcb : Z) (r : option (Z * Z))
  | CallDemux (src dest cur_src cur_dest : Z) (broadcast : bool) (n : netif).

Definition udp_start : udp := MkUdpState UDP_LOCAL_PORT_RANGE_START [] ∅.

Section calls.
Context {A T : Type} `{HL : ArenaLaws A} `{HB : !BoundedPools A}.
Implicit Types (s : stack A T) (h : heap A) (U : udp).

(** What a call leaves, and what it returns: an address, an error or nothing. *)
Definition udp_run (c : udp_call) s : option (stack A T * option Z) :=
  match c with
  | CallNew => Some (udp_new s)
  | CallRemove pcb => Some (udp_remove pcb s, None)
  | CallBind pcb ip port => '(U, e) ← udp_bind pcb ip port (us s); Some (set_us U s, Some e)
  | CallConnect pcb ip port => '(U, e) ← udp_connect pcb ip port (us s); Some (set_us U s, Some e)
  | CallDisconnect pcb => U ← udp_disconnect pcb (us s); Some (set_us U s, None)
  | CallRecv pcb r => U ← udp_recv pcb r (us s); Some (set_us U s, None)
  | CallDemux src dest cur_src cur_dest bc n => '(U, o) ← udp_demux src dest cur_src cur_dest bc n (us s); Some (set_us U s, o)
  end.

(** A call names a control block that exists, and a port of 16 bits. *)
Definition udp_allowed (c : udp_call) s : Prop :=
  match c with
  | CallNew | CallDemux _ _ _ _ _ _ => True
  | CallRemove pcb | CallDisconnect pcb | CallRecv pcb _ => is_Some (upcb (us s) !! pcb)
  | CallBind pcb _ port | CallConnect pcb _ port => is_Some (upcb (us s) !! pcb) ∧ is_u16 port
  end.

Definition pcbs_live U h : Prop := ∀ i, is_Some (upcb U !! i) → live (arena h) !! i = Some (POOL MEMP_UDP_PCB).

Inductive udp_step : stack A T → stack A T → Prop :=
  | udp_calls c s s' r : udp_allowed c s → udp_run c s = Some (s', r) → udp_step s s'
  | udp_others s h : pcbs_live (us s) h → udp_step s (set_hp h s).

Record udp_inv s : Prop := { ui_ok : udp_ok (us s); ui_live : pcbs_live (us s) (hp s) }.

Lemma udp_few s : udp_inv s → Z.of_nat (length (udp_pcbs (us s))) < UDP_PORTS.
Proof using HB.
  intros [K L]. assert (length (udp_pcbs (us s)) ≤ memp_num MEMP_UDP_PCB)%nat.
  { apply (pool_bound _ (arena (hp s))); [apply K|]. intros i Hi. by apply L, udp_ok_some. }
  unfold UDP_PORTS, UDP_LOCAL_PORT_RANGE_START, UDP_LOCAL_PORT_RANGE_END. simpl in *. lia.
Qed.

(** The control blocks that exist stay the same. *)
Lemma udp_inv_us s U : udp_inv s → udp_ok U → dom (upcb U) = dom (upcb (us s)) → udp_inv (set_us U s).
Proof.
  intros [K L] K' D. constructor; [done|]. intros i Hi. apply L. apply elem_of_dom. rewrite <- D. by apply elem_of_dom.
Qed.

Lemma udp_call_ok c s : udp_inv s → udp_allowed c s → ∃ s' r, udp_run c s = Some (s', r) ∧ udp_inv s'.
Proof using HB HL.
  intros I Al. pose proof I as [K L]. pose proof (udp_few s I) as Hf. destruct c as [|pcb|pcb ip port|pcb ip port|pcb|pcb r|src dest cs cd bc n]; cbn [udp_run udp_allowed] in *.
  - unfold udp_new. destruct (memp_malloc MEMP_UDP_PCB (arena (hp s))) as [[pcb a]|] eqn:Em; [|by exists s, None].
    destruct (memp_malloc_fresh _ _ _ _ Em) as (Hno & Hl & _). eexists _, _. split; [done|].
    assert (Hn : upcb (us s) !! pcb = None) by (destruct (upcb (us s) !! pcb) eqn:E; [|done]; rewrite L in Hno; [done|by eexists]).
    constructor; cbn; [by apply udp_new_ok|]. intros i Hi. cbn in Hi |- *. rewrite Hl. destruct (decide (i = pcb)) as [->|Hne]; [apply lookup_insert_eq|].
    rewrite lookup_insert_ne in Hi by done. rewrite lookup_insert_ne by done. by apply L.
  - eexists _, _. split; [done|]. constructor; cbn; [by apply udp_remove_ok|]. intros i [u Hu]. cbn in Hu. apply lookup_delete_Some in Hu as [Hne Hu]. cbn.
    rewrite memp_free_live by (by apply L). rewrite lookup_delete_ne by done. apply L. by eexists.
  - destruct Al as [[u Hu] Hp]. destruct (udp_bind_ok (us s) pcb ip port u K Hu Hp Hf) as [(p' & nx & E & K' & _)|[E _]]; rewrite E; cbn; eexists _, _; (split; [done|]).
    + apply udp_inv_us; [done..|]. cbn. apply dom_alter_L.
    + by apply udp_inv_us.
  - destruct Al as [[u Hu] Hp]. destruct (udp_connect_ok (us s) pcb ip port u K Hu Hf) as (U' & u' & E & K' & _ & _ & _ & _ & _ & D). rewrite E. cbn.
    eexists _, _. split; [done|]. by apply udp_inv_us.
  - destruct Al as [u Hu]. destruct (udp_disconnect_ok (us s) pcb u K Hu) as [E K']. rewrite E. cbn. eexists _, _. split; [done|].
    apply udp_inv_us; [done..|]. cbn. rewrite dom_insert_L. apply elem_of_dom_2 in Hu. set_solver.
  - destruct Al as [u Hu]. unfold udp_recv. rewrite (upd_pcb_eq pcb _ u) by done. cbn. eexists _, _. split; [done|].
    apply udp_inv_us; [done|by eapply insert_same_binding|]. cbn. rewrite dom_insert_L. apply elem_of_dom_2 in Hu. set_solver.
  - destruct (udp_demux_keeps src dest cs cd bc n (us s) K) as (U' & E & K' & _ & Em). rewrite E. cbn.
    eexists _, _. split; [done|]. apply udp_inv_us; [done..|]. by rewrite Em.
Qed.

Lemma udp_step_inv s s' : udp_inv s → udp_step s s' → udp_inv s'.
Proof using HB HL.
  intros I St. revert I. destruct St as [c s0 s1 r Al E|s0 h L]; intros I; [|by constructor; [apply I|]].
  destruct (udp_call_ok c s0 I Al) as (s2 & r2 & E2 & I2). congruence.
Qed.

Lemma udp_steps_inv s s' : rtc udp_step s s' → udp_inv s → udp_inv s'.
Proof using HB HL. induction 1; [done|]. eauto using udp_step_inv. Qed.

Lemma udp_start_inv s : us s = udp_start → udp_inv s.
Proof.
  intros E. constructor; rewrite E; [|by intros i [u Hu]]. constructor; cbn; [constructor| |done| |].
  - by intros i ?%not_elem_of_nil.
  - by intros i j u v ?%not_elem_of_nil.
  - by unfold in_range, UDP_LOCAL_PORT_RANGE_START, UDP_LOCAL_PORT_RANGE_END.
Qed.

(** C19. Whatever calls a program has made on its UDP control blocks, with the
    packets changing in between, the next call returns: no assertion fails, no
    control block is missing and the search for a port ends.  The list has no
    block twice, no two of its blocks could both claim a datagram for one
    address, and every control block lies in an element of its pool that is
    handed out. *)
Theorem udp_calls_safe s s' : us s = udp_start → rtc udp_step s s' →
  (∀ c, udp_allowed c s' → is_Some (udp_run c s')) ∧ NoDup (udp_pcbs (us s')) ∧
  (∀ i j u v, i ∈ udp_pcbs (us s') → j ∈ udp_pcbs (us s') → i ≠ j → upcb (us s') !! i = Some u → upcb (us s') !! j = Some v →
     overlap u (local_ip v) (local_port v) = false) ∧
  (∀ i, is_Some (upcb (us s') !! i) → live (arena (hp s')) !! i = Some (POOL MEMP_UDP_PCB)).
Proof using HB HL.
  intros E R. pose proof (udp_steps_inv _ _ R (udp_start_inv s E)) as I. split_and!.
  - intros c Al. destruct (udp_call_ok c s' I Al) as (? & ? & -> & _). by eexists.
  - apply I.
  - apply (uo_apart _ (ui_ok _ I)).
  - apply I.
Qed.
End calls.

(** C33. [udp_bind] gives the control block the address and the port asked for,
    or a free one of the dynamic range for port 0, and puts it on the list;
    it fails exactly when another block is bound to that port for an address
    that overlaps, and changes nothing then.  The other blocks stay as they are,
    and the bindings stay free of conflicts. *)
Theorem udp_bind_correct U pcb ip port u :
  udp_ok U → upcb U !! pcb = Some u → is_u16 port → Z.of_nat (length (udp_pcbs U)) < UDP_PORTS →
  let conflict := ∃ i v, i ∈ udp_pcbs U ∧ i ≠ pcb ∧ upcb U !! i = Some v ∧ overlap v ip port = true in
  (¬ conflict ∧ ∃ U' port', udp_bind pcb ip port U = Some (U', ERR_OK) ∧ udp_ok U' ∧ pcb ∈ udp_pcbs U' ∧
     upcb U' !! pcb = Some (set_local_port port' (set_local_ip ip u)) ∧
     (if decide (port = 0) then in_range port' ∧ ¬ used U port' else port' = port) ∧
     ∀ i, i ≠ pcb → upcb U' !! i = upcb U !! i ∧ (i ∈ udp_pcbs U' ↔ i ∈ udp_pcbs U)) ∨
  (conflict ∧ udp_bind pcb ip port U = Some (U, ERR_USE)).
Proof.
  intros K Hu Hp Hf conflict. destruct (udp_bind_ok U pcb ip port u K Hu Hp Hf) as [(p' & nx & E & K' & H1 & H2)|[E C]]; [left|by right].
  split.
  - intros (i & v & Hi & Hne & Hv & Ho). destruct (decide (port = 0)) as [->|Hpz].
    { destruct (uo_bound _ K i Hi) as (w & Hw & ?). unfold overlap in Ho. apply andb_true_iff in Ho as [Ho%Z.eqb_eq _]. assert (w = v) as -> by congruence. lia. }
    destruct H1 as [-> _]; [done|]. assert (Hi' : i ∈ udp_pcbs (bound_to pcb ip port (set_udp_port nx U))) by (cbn; case_bool_decide; [done|by right]).
    assert (Hj : pcb ∈ udp_pcbs (bound_to pcb ip port (set_udp_port nx U))) by (cbn; case_bool_decide; [done|by left]).
    pose proof (uo_apart _ K' i pcb v (set_local_port port (set_local_ip ip u)) Hi' Hj Hne) as X. cbn in X.
    rewrite lookup_alter_ne, lookup_alter_eq, Hu, Ho in X by done. by discriminate X.
  - eexists _, p'. split; [exact E|]. split; [exact K'|]. cbn. split_and!.
    + case_bool_decide; [done|by left].
    + by rewrite lookup_alter_eq, Hu.
    + destruct (decide (port = 0)); [by apply H2|by apply H1].
    + intros i Hne. rewrite lookup_alter_ne by done. split; [done|]. case_bool_decide; [done|]. rewrite elem_of_cons. naive_solver.
Qed.

(** C34. [udp_new_port] ends, and the port is in the dynamic range and none of
    the blocks on the list has it, as long as there are fewer blocks than ports;
    only the counter changes. *)
Theorem udp_new_port_free U : udp_ok U → Z.of_nat (length (udp_pcbs U)) < UDP_PORTS →
  ∃ port, udp_new_port U = Some (set_udp_port port U, port) ∧ UDP_LOCAL_PORT_RANGE_START <= port <= UDP_LOCAL_PORT_RANGE_END ∧
    ∀ i u, i ∈ udp_pcbs U → upcb U !! i = Some u → local_port u ≠ port.
Proof.
  intros K Hf. destruct (udp_new_port_ok U (λ i, udp_ok_some U i K) (uo_next _ K) Hf) as (port & E & Hr & Hu).
  exists port. split_and!; [done|apply Hr|apply Hr|]. intros i u Hi Hu' Hp. apply Hu. by exists i, u.
Qed.

(** C25. The search of [udp_input] for the receiver of a datagram: a block whose
    whole binding matches wins over one that is not connected, the first of the
    list among equals; it moves to the front and nothing else changes.  For a
    datagram to one address the receiver is the one block that listens there,
    if its remote end, where it has one, is the sender. *)
Theorem udp_demux_delivers src dest cur_src cur_dest broadcast n U : udp_ok U →
  ∃ U' o, udp_demux src dest cur_src cur_dest broadcast n U = Some (U', o) ∧
    udp_pcbs U' ≡ₚ udp_pcbs U ∧ upcb U' = upcb U ∧ udp_ok U' ∧ o = receiver src dest cur_src cur_dest broadcast n U ∧
    (broadcast = false → ∀ i, o = Some i ↔
       i ∈ udp_pcbs U ∧ ∃ u, upcb U !! i = Some u ∧ local_matches u dest cur_dest false n = true ∧
         (connected u = false ∨ remote_matches u src cur_src = true)).
Proof.
  intros K. destruct (udp_demux_keeps src dest cur_src cur_dest broadcast n U K) as (U' & E & K' & P & Em).
  eexists U', _. split; [exact E|]. do 4 (split; [done|]). intros -> i. rewrite receiver_unicast by done. done.
Qed.

(** ** Witnesses *)
Definition udp_memory : Type := arena_state sizeof_example 65536 1048576.
Definition empty_stack (U : udp) : stack udp_memory unit :=
  MkStack (MkLower [] 0 [] ∅ [] None 0) (boot sizeof_example 65536 1048576 placed_example (λ _, 0)) U (MkRawState [] ∅) (None, ∅, 0) tt.

Lemma udp_calls_safe_witness :
  ∃ s, rtc udp_step (empty_stack udp_start) s ∧ is_Some (udp_run (CallConnect 65816 1 53) s).
Proof.
  set (s1 := (udp_new (empty_stack udp_start)).1).
  assert (R : rtc udp_step (empty_stack udp_start) s1).
  { eapply rtc_l; [|apply rtc_refl]. apply (udp_calls CallNew _ s1 (udp_new (empty_stack udp_start)).2); [done|]. cbn. by destruct (udp_new _). }
  exists s1. split; [exact R|]. apply (udp_calls_safe (empty_stack udp_start) s1 eq_refl R). split; [|split; by vm_compute].
  vm_compute. by eexists.
Defined.

Definition two_blocks : udp :=
  MkUdpState 49152 [8; 4] (<[4 := MkUdp 0 0 0 255 0 53 0 None]> (<[8 := MkUdp 7 9 0 255 4 68 67 None]> (<[12 := MkUdp 0 0 0 255 0 0 0 None]> ∅))).

Lemma two_blocks_ok : udp_ok two_blocks.
Proof.
  constructor; cbn [two_blocks udp_pcbs upcb udp_port].
  - by repeat (constructor; [set_solver|]); constructor.
  - intros i [->|[->|?%not_elem_of_nil]%elem_of_cons]%elem_of_cons; [eexists; split; [reflexivity|cbn; lia]..|done].
  - intros i u Hu Hi. rewrite !not_elem_of_cons in Hi. destruct Hi as (H8 & H4 & _). rewrite lookup_insert_ne in Hu by done. rewrite lookup_insert_ne in Hu by done.
    apply lookup_insert_Some in Hu as [[_ <-]|[_ Hu]]; done.
  - intros i j u v [->|[->|?%not_elem_of_nil]%elem_of_cons]%elem_of_cons [->|[->|?%not_elem_of_nil]%elem_of_cons]%elem_of_cons; try done.
    + by intros _ [= <-] [= <-].
    + by intros _ [= <-] [= <-].
  - by unfold in_range, UDP_LOCAL_PORT_RANGE_START, UDP_LOCAL_PORT_RANGE_END.
Qed.

Lemma udp_bind_correct_witness : ∃ U' : udp, udp_bind 12 0 68 two_blocks = Some (U', ERR_USE).
Proof.
  destruct (udp_bind_correct two_blocks 12 0 68 (MkUdp 0 0 0 255 0 0 0 None) two_blocks_ok eq_refl) as [[N _]|[_ E]].
  - by vm_compute.
  - by vm_compute.
  - exfalso. apply N. exists 8, (MkUdp 7 9 0 255 4 68 67 None). split; [by left|]. by split_and!.
  - by exists two_blocks.
Defined.

Lemma udp_new_port_free_witness : ∃ port, udp_new_port two_blocks = Some (set_udp_port port two_blocks, port) ∧ port ≠ 53.
Proof.
  destruct (udp_new_port_free two_blocks two_blocks_ok) as (port & E & _ & Hf); [by vm_compute|]. exists port. split; [exact E|].
  intros ->. apply (Hf 4 (MkUdp 0 0 0 255 0 53 0 None)); [by right; left|done|done].
Defined.

Definition some_netif : netif := MkNetif 1 [0; 0; 0; 0; 0; 0] 6 7 16777215 0 1 1500.

Lemma udp_demux_delivers_witness : ∃ U', udp_demux 1000 53 11 7 false some_netif two_blocks = Some (U', Some 4).
Proof.
  destruct (udp_demux_delivers 1000 53 11 7 false some_netif two_blocks two_blocks_ok) as (U' & o & E & _ & _ & _ & _ & R).
  exists U'. rewrite E. assert (o = Some 4) as -> by (apply (R eq_refl); split; [by right; left|eexists; split; [reflexivity|split; [reflexivity|by left]]]). done.
Defined.
