(* ===== verification/IpOwn.v ===== *)
(** * IP output and ICMP: the packets are accounted for

    Sending neither leaks a packet nor frees one that is still held, and no
    assertion on the way stops the program.  A packet is not longer than the
    unit of its interface here, so that ip_frag.c is not involved. *)
From S2P Require Import Prelude LwipDef Chksum Memp Pbuf PbufRef PbufOwn PbufData PbufMove IpAddr.
From S2P Require Import Etharp EtharpOk EtharpOut IpReass Ip Icmp.
Local Open Scope Z_scope.

(** RFC 791: every interface carries datagrams of 68 octets. *)
Definition MIN_MTU : Z := 68.

Record net_ok (w : lower) : Prop := {
  no_list i : i ∈ netif_list w → is_Some (netifs w !! i);
  no_default i : netif_default w = Some i → is_Some (netifs w !! i);
  no_eth i n : netifs w !! i = Some n → hwaddr_len n = ETHARP_HWADDR_LEN ∧ (mtu n = 0 ∨ MIN_MTU <= mtu n) }.

Definition same_net (w w' : lower) : Prop :=
  netifs w' = netifs w ∧ netif_list w' = netif_list w ∧ netif_default w' = netif_default w.

Lemma same_net_ok w w' : same_net w w' → net_ok w → net_ok w'.
Proof. intros (E1 & E2 & E3) [N1 N2 N3]. constructor; rewrite ?E1, ?E2, ?E3; done. Qed.

Lemma same_net_trans w1 w2 w3 : same_net w1 w2 → same_net w2 w3 → same_net w1 w3.
Proof. unfold same_net. intuition congruence. Qed.

(** A packet of [m] octets fits the interface. *)
Definition fits_mtu (m : Z) (n : netif) : Prop := mtu n = 0 ∨ m <= mtu n.

Section own.
Context {A : Type} `{HL : ArenaLaws A}.
Context (linkoutput : netif → Z → heap A → Z).
Context (ip_frag : Z → Z → Z → lower * heap A → option (lower * heap A * Z)).
Implicit Types (h : heap A) (w : lower) (p q : Z) (E : Z → nat) (b : pbuf) (n : netif).

(** The invariant: [E] are the references that others hold. *)
Record lower_ok E w h : Prop := {
  lo_arp : arp_ok E (arp_state w h);
  lo_cached : cached_ok (arp_state w h);
  lo_net : net_ok w }.

(** A packet of [m] octets that can be handed down. *)
Record outgoing h p (m : Z) : Prop := {
  og_packet : ∃ l, packet h (Some p) l m 0 ∧ plain h l;
  og_len : m + PBUF_LINK_HLEN < 65536;
  og_type b : pbufs h !! p = Some b → type b ≠ PBUF_ROM }.

Lemma lower_heap_ok E w h : lower_ok E w h → heap_ok h (with_queue (l_table w) E).
Proof. intros K. apply K. Qed.

Lemma lower_heap E w h h' : lower_ok E w h → heap_ok h' (with_queue (l_table w) E) → lower_ok E w h'.
Proof. intros [[K1 K2] K3 K4] K'. by constructor. Qed.

Lemma lower_ext E E' w h : (∀ x, E x = E' x) → lower_ok E w h → lower_ok E' w h.
Proof.
  intros He K. pose proof K as [[K1 K2] K3 K4]. constructor; [|done|done]. split; [|done].
  eapply heap_ok_ext; [|exact K1]. intros x. unfold with_queue. by rewrite He.
Qed.

Lemma with_queue_inc t E p : ∀ x, with_queue t (inc p E) x = inc p (with_queue t E) x.
Proof. intros x. unfold with_queue, inc. case_decide; lia. Qed.

Lemma with_queue_disown t E p : E p ≠ 0%nat → ∀ x, with_queue t (disown p E) x = disown p (with_queue t E) x.
Proof. intros He x. unfold with_queue, disown. case_decide; subst; lia. Qed.

Lemma lower_inc E w h h' p : lower_ok E w h → heap_ok h' (inc p (with_queue (l_table w) E)) → lower_ok (inc p E) w h'.
Proof.
  intros [[K1 K2] K3 K4] K'. constructor; [|done|done]. split; [|done]. eapply heap_ok_ext; [|exact K'].
  intros x. by rewrite with_queue_inc.
Qed.

Lemma payload_of_eq h p b : pbufs h !! p = Some b → payload_of h p = Some (payload b).
Proof. intros Hb. unfold payload_of. by rewrite Hb. Qed.

(** Giving a reference back. *)
Lemma lower_free E w h p : lower_ok E w h → E p ≠ 0%nat → ∃ h' k, pbuf_free (Some p) h = Some (h', k) ∧ lower_ok (disown p E) w h' ∧ survivors h h'.
Proof.
  intros K He. pose proof (lower_heap_ok _ _ _ K) as Kh.
  assert (Kd : heap_ok h (inc p (with_queue (l_table w) (disown p E)))).
  { eapply heap_ok_ext; [|exact Kh]. intros x. unfold inc, with_queue, disown. repeat case_decide; subst; lia. }
  destruct (pbuf_free_ok h p _ Kd) as (h' & k & Ef & K' & Sv & _). exists h', k. split; [exact Ef|]. split; [|exact Sv].
  destruct K as [[K1 K2] K3 K4]. by constructor.
Qed.

Lemma disown_inc p E x : disown p (inc p E) x = E x.
Proof. unfold disown, inc. repeat case_decide; subst; lia. Qed.

(** ** Output *)
Lemma netif_output_ok E w h i n p dest m : lower_ok E w h → netifs w !! i = Some n → E p ≠ 0%nat → outgoing h p m →
  ∃ w' h' r, netif_output linkoutput i p dest (w, h) = Some (w', h', r) ∧ lower_ok E w' h' ∧ same_net w w'.
Proof.
  intros [Ka Kc Kn] Hi He [(l & P & Pl) Hm Hty]. unfold netif_output. rewrite Hi, some_bind.
  destruct (packet_first _ _ _ _ P) as (b & l' & _ & Hb & _). destruct (no_eth _ Kn i n Hi) as [Hh _].
  destruct (output_ok linkoutput E n p dest (arp_state w h) l m b Ka Hh Kc He P Pl Hm Hb (Hty b Hb)) as (st & r & E1 & K1 & C1).
  rewrite E1, some_bind. exists (after_arp st w).1, (pheap st), r. split; [done|]. split; [|done].
  constructor; [by destruct st|by destruct st|]. by apply (same_net_ok w).
Qed.

Lemma ip_transmit_ok E w h i n p dest m : lower_ok E w h → netifs w !! i = Some n → E p ≠ 0%nat → outgoing h p m → fits_mtu m n →
  ∃ w' h' r, ip_transmit linkoutput ip_frag i p dest (w, h) = Some (w', h', r) ∧ lower_ok E w' h' ∧ same_net w w'.
Proof.
  intros K Hi He O Hmtu. unfold ip_transmit. rewrite Hi, some_bind. destruct (og_packet _ _ _ O) as (l & P & _).
  destruct (packet_first _ _ _ _ P) as (b & l' & _ & Hb & Ht & _). rewrite Hb, some_bind.
  assert (negb (mtu n =? 0) && (mtu n <? tot_len b) = false) as ->.
  { rewrite Ht. destruct Hmtu as [-> | Hle]; [done|]. rewrite (proj2 (Z.ltb_ge _ _)) by lia. apply andb_false_r. }
  by apply (netif_output_ok E w h i n p dest m).
Qed.

Lemma write_ip_header_same a tot_len src dest ttl tos proto id if_addr h : same_pbufs h (write_ip_header a tot_len src dest ttl tos proto id if_addr h).
Proof. unfold write_ip_header. cbv zeta. repeat (eapply same_pbufs_trans; [|apply poke_same]). apply same_pbufs_refl. Qed.

Lemma outgoing_same h h' p m : same_pbufs h h' → outgoing h p m → outgoing h' p m.
Proof.
  intros S [(l & P & Pl) Hm Hty]. constructor; [|done|].
  - exists l. split; [by eapply same_pbufs_packet|by eapply same_pbufs_plain].
  - destruct S as [-> _]. exact Hty.
Qed.

Lemma outgoing_moved h p b m inc : outgoing h p m → pbufs h !! p = Some b → 0 <= len b + inc → m + inc + PBUF_LINK_HLEN < 65536 →
  outgoing (set_pbuf p (moved inc b) h) p (m + inc).
Proof.
  intros [(l & P & Pl) Hm Hty] Hb Hl Hmi. destruct (packet_first _ _ _ _ P) as (b0 & l' & -> & Hb0 & _). constructor; [|done|].
  - exists (p :: l'). split; [by apply packet_moved|by apply plain_moved].
  - intros b' Hb'. rewrite set_pbuf_lookup in Hb'. injection Hb' as <-. exact (Hty b Hb).
Qed.

Lemma lower_same E w h h' : same_pbufs h h' → lower_ok E w h → lower_ok E w h'.
Proof. intros S K. eapply lower_heap; [exact K|]. eapply same_pbufs_ok; [exact S|by apply lower_heap_ok]. Qed.

Lemma lower_moved E w h p b inc : lower_ok E w h → pbufs h !! p = Some b → lower_ok E w (set_pbuf p (moved inc b) h).
Proof. intros K Hb. eapply lower_heap; [exact K|]. apply moved_ok; [by apply lower_heap_ok|done]. Qed.

Lemma set_ip_id_ok E w h j : lower_ok E w h → lower_ok E (set_ip_id j w) h.
Proof. intros [Ka Kc [N1 N2 N3]]. by constructor. Qed.

(** A generated header takes 20 more octets. *)
Lemma ip_output_if_ok E w h i n p b m src dest ttl tos proto : lower_ok E w h → netifs w !! i = Some n → E p ≠ 0%nat → outgoing h p m →
  pbufs h !! p = Some b → ref b = 1 → m + IP_HLEN + PBUF_LINK_HLEN < 65536 → fits_mtu (m + IP_HLEN) n →
  ∃ w' h' r, ip_output_if linkoutput ip_frag p src (Some dest) ttl tos proto i (w, h) = Some (w', h', r) ∧ lower_ok E w' h' ∧ same_net w w'.
Proof.
  intros K Hi He O Hb Hr Hm Hmtu. unfold ip_output_if. rewrite Hb, some_bind, Hr, Z.eqb_refl, assert_true, some_bind by done.
  destruct (og_packet _ _ _ O) as (l & P & _). destruct (packet_first _ _ _ _ P) as (b0 & l' & _ & Hb0 & Ht & Hl). assert (b0 = b) as -> by congruence.
  unfold IP_HLEN, PBUF_LINK_HLEN in *. destruct (pbuf_header_cases h p b 20 Hb) as [[E1 Hge]|E1]; try lia; rewrite E1, some_bind.
  2:{ exists w, h, ERR_BUF. by split_and!. }
  change (negb (0 =? 0)) with false. cbv iota. rewrite set_pbuf_lookup, some_bind.
  rewrite (assert_true (20 <=? _)), some_bind by (unfold moved; simpl; lia). rewrite Hi, some_bind.
  pose proof (write_ip_header_same (payload (moved 20 b)) (tot_len (moved 20 b)) src dest ttl tos proto (ip_id w) (ip_addr n) (set_pbuf p (moved 20 b) h)) as S.
  cbv zeta. generalize dependent (write_ip_header (payload (moved 20 b)) (tot_len (moved 20 b)) src dest ttl tos proto (ip_id w) (ip_addr n) (set_pbuf p (moved 20 b) h)).
  intros h2 S. apply (ip_transmit_ok E (set_ip_id _ w) h2 i n p dest (m + 20)); [|done|done| |done].
  - apply set_ip_id_ok. eapply lower_same; [exact S|]. by apply lower_moved.
  - eapply outgoing_same; [exact S|]. by apply outgoing_moved.
Qed.

(** The header is in the packet already. *)
Lemma ip_output_hdrincl_ok E w h i n p b m src ttl tos proto : lower_ok E w h → netifs w !! i = Some n → E p ≠ 0%nat → outgoing h p m →
  pbufs h !! p = Some b → ref b = 1 → fits_mtu m n →
  ∃ w' h' r, ip_output_if linkoutput ip_frag p src None ttl tos proto i (w, h) = Some (w', h', r) ∧ lower_ok E w' h' ∧ same_net w w'.
Proof.
  intros K Hi He O Hb Hr Hmtu. unfold ip_output_if. rewrite Hb, some_bind, Hr, Z.eqb_refl, assert_true, some_bind by done.
  by apply (ip_transmit_ok E w h i n p _ m).
Qed.

(** ** Routing *)
Lemma route_loop_ok dest w : ∀ l, (∀ i, i ∈ l → is_Some (netifs w !! i)) →
  ∃ r, route_loop dest l w = Some r ∧ ∀ i, r = Some i → i ∈ l ∧ is_Some (netifs w !! i).
Proof.
  induction l as [|i l IH]; intros Hl; [by exists None|]. destruct (Hl i ltac:(by left)) as [n Hn]. cbn [route_loop]. rewrite Hn, some_bind.
  case_match.
  - exists (Some i). split; [done|]. intros j [= <-]. split; [by left|by exists n].
  - destruct IH as (r & E & R); [intros j Hj; apply Hl; by right|]. exists r. split; [exact E|]. intros j Hj. destruct (R j Hj). split; [by right|done].
Qed.

Lemma ip_route_ok dest w : net_ok w → ∃ r, ip_route dest w = Some r ∧ ∀ i, r = Some i → is_Some (netifs w !! i).
Proof.
  intros [N1 N2 N3]. unfold ip_route. destruct (route_loop_ok dest w (netif_list w) N1) as (r & E & R). rewrite E, some_bind.
  destruct r as [i|]; [exists (Some i); split; [done|]; intros j Hj; by apply R|].
  destruct (netif_default w) as [d|]; [|by exists None]. destruct (N2 d eq_refl) as [n Hn]. rewrite Hn, some_bind.
  eexists. split; [done|]. intros j. case_match; [|done]. intros [= <-]. by exists n.
Qed.

Lemma ip_output_ok E w h p b m src dest ttl tos proto : lower_ok E w h → E p ≠ 0%nat → outgoing h p m →
  pbufs h !! p = Some b → ref b = 1 → m + IP_HLEN <= MIN_MTU →
  ∃ w' h' r, ip_output linkoutput ip_frag p src (Some dest) ttl tos proto (w, h) = Some (w', h', r) ∧ lower_ok E w' h' ∧ same_net w w'.
Proof.
  intros K He O Hb Hr Hm. unfold ip_output. rewrite Hb, some_bind, Hr, Z.eqb_refl, assert_true, some_bind by done. rewrite some_bind.
  destruct (ip_route_ok dest w (lo_net _ _ _ K)) as (r & E1 & R). rewrite E1, some_bind.
  destruct r as [i|]; [|exists w, h, ERR_RTE; by split_and!]. destruct (R i eq_refl) as [n Hn].
  apply (ip_output_if_ok E w h i n p b m); try done.
  - unfold IP_HLEN, MIN_MTU, PBUF_LINK_HLEN in *. lia.
  - destruct (no_eth _ (lo_net _ _ _ K) i n Hn) as [_ [Hz|Hz]]; [by left|right; lia].
Qed.
End own.
