(* ===== verification/IcmpOwn.v ===== *)
(** * ICMP: every message is accounted for

    [icmp_input] consumes the packet it is given, on every path, and
    [icmp_send_response] leaves its packet alone; no assertion on the way
    fails. *)
From S2P Require Import Prelude LwipDef Chksum Memp Pbuf PbufRef PbufOwn PbufData PbufMove IpAddr.
From S2P Require Import Etharp EtharpOk EtharpOut IpReass Ip Icmp IpOwn.
Local Open Scope Z_scope.

Section own.
Context {A : Type} `{HL : ArenaLaws A}.
Context (linkoutput : netif → Z → heap A → Z).
Context (ip_frag : Z → Z → Z → lower * heap A → option (lower * heap A * Z)).
Implicit Types (h : heap A) (w : lower) (p q : Z) (E : Z → nat) (b : pbuf) (n : netif).

(** ** A pbuf of its own *)
Lemma single_packet h q b : pbufs h !! q = Some b → next b = None → tot_len b = len b → 0 <= len b → packet h (Some q) [q] (len b) 0.
Proof. intros Hb Hn Ht Hl. split; [done|]. exists b. split_and!; try done; try lia. rewrite Hn. split; [done|lia]. Qed.

Lemma single_plain h q b : pbufs h !! q = Some b → next b = None → is_custom (flags b) = false → plain h [q].
Proof. intros Hb Hn Hf a ba ->%list_elem_of_singleton Ha. assert (ba = b) as -> by congruence. split; [done|]. by rewrite Hn. Qed.

Lemma lower_alloc E w h layer (k : Z) : lower_ok E w h → 0 <= k < 65536 →
  ∃ h' r, pbuf_alloc layer k PBUF_RAM h = Some (h', r) ∧
    match r with
    | Some q => lower_ok (inc q E) w h' ∧ pbufs h !! q = None ∧ (∀ x, x ≠ q → pbufs h' !! x = pbufs h !! x) ∧
        ∃ b, pbufs h' !! q = Some b ∧ q + SIZEOF_STRUCT_PBUF + layer_offset layer <= payload b ∧ ref b = 1 ∧ type b = PBUF_RAM ∧
          len b = k ∧ tot_len b = k ∧ next b = None ∧ packet h' (Some q) [q] k 0 ∧ plain h' [q]
    | None => h' = h
    end.
Proof.
  intros K Hk. destruct (pbuf_alloc_ram h _ layer k (lower_heap_ok _ _ _ K) Hk) as (h' & r & E1 & R). exists h', r. split; [exact E1|].
  destruct r as [q|]; [|done]. destruct R as (b & K' & Hno & Hp & _ & Hpl & Hn & Ht & Hl & Hty & Hf & Hr).
  assert (Hb : pbufs h' !! q = Some b) by (rewrite Hp; apply lookup_insert_eq).
  split; [by eapply lower_inc|]. split; [done|]. split; [intros x Hx; rewrite Hp; by apply lookup_insert_ne|].
  exists b. split_and!; try done.
  - rewrite <- Hl. apply (single_packet h' q b); try done; lia.
  - apply (single_plain h' q b); [done|done|by rewrite Hf].
Qed.

Lemma lower_own E w h q : lower_ok (inc q E) w h → ∃ h' k, pbuf_free (Some q) h = Some (h', k) ∧ lower_ok E w h'.
Proof.
  intros K. destruct (lower_free (inc q E) w h q K) as (h' & k & E1 & K' & _); [unfold inc; rewrite decide_True by done; lia|].
  exists h', k. split; [exact E1|]. eapply lower_ext; [|exact K']. intros x. by rewrite disown_inc.
Qed.

(** ** [icmp_send_response] *)
Lemma write_icmp_message_same a orig t c k h : same_pbufs h (write_icmp_message a orig t c k h).
Proof. unfold write_icmp_message. cbv zeta. repeat (eapply same_pbufs_trans; [|apply poke_same]). apply same_pbufs_refl. Qed.

Lemma icmp_send_response_ok E w h p b t c : lower_ok E w h → pbufs h !! p = Some b →
  ∃ w' h', icmp_send_response linkoutput ip_frag p t c (w, h) = Some (w', h') ∧ lower_ok E w' h' ∧ same_net w w'.
Proof.
  intros K Hb. unfold icmp_send_response. destruct (lower_alloc E w h PBUF_IP (SIZEOF_ICMP_ECHO_HDR + IP_HLEN + ICMP_DEST_UNREACH_DATASIZE) K) as (h1 & r & E1 & R); [done|].
  rewrite E1, some_bind. destruct r as [q|]; [|subst h1; by exists w, h].
  destruct R as (K1 & Hno & Hoth & bq & Hq & Hpl & Hr & Hty & Hl & Ht & Hn & P & Pl). rewrite Hq, some_bind, Hl, (assert_true (_ <=? _)), some_bind by done.
  rewrite (payload_of_eq h1 p b), some_bind by (rewrite Hoth; congruence). cbv zeta.
  pose proof (write_icmp_message_same (payload bq) (payload b) t c (SIZEOF_ICMP_ECHO_HDR + IP_HLEN + ICMP_DEST_UNREACH_DATASIZE) h1) as S.
  generalize dependent (write_icmp_message (payload bq) (payload b) t c (SIZEOF_ICMP_ECHO_HDR + IP_HLEN + ICMP_DEST_UNREACH_DATASIZE) h1). intros h2 S.
  destruct (ip_output_ok linkoutput ip_frag (inc q E) w h2 q bq 36 0 (le_num (peek h2 (payload b + 12) 4)) ICMP_TTL 0 IP_PROTO_ICMP) as (w3 & h3 & r & E3 & K3 & N3).
  - by eapply lower_same.
  - unfold inc. rewrite decide_True by done. lia.
  - eapply outgoing_same; [exact S|]. constructor; [by exists [q]|done|]. intros b' Hb'. assert (b' = bq) as -> by congruence. by rewrite Hty.
  - destruct S as [-> _]. done.
  - done.
  - done.
  - rewrite E3, some_bind. destruct (lower_own E w3 h3 q K3) as (h4 & k & E4 & K4). rewrite E4, some_bind. by exists w3, h4.
Qed.

(** ** [icmp_input] *)
Lemma chain_segments_ok h : ∀ l fuel (o : option Z) m, packet h o l m 0 → (length l ≤ fuel)%nat → is_Some (chain_segments fuel o h).
Proof.
  induction l as [|a l IH]; intros fuel o m P Hf; [destruct P as [-> _]; destruct fuel; by eexists|].
  destruct P as (-> & b & Hb & _ & _ & P). destruct fuel as [|fuel]; [simpl in Hf; lia|]. cbn [chain_segments]. rewrite Hb, some_bind.
  destruct (IH fuel (next b) _ P) as [x Hx]; [simpl in Hf; lia|]. rewrite Hx, some_bind. by eexists.
Qed.

Lemma segments_of_ok h p l m : packet h (Some p) l m 0 → is_Some (segments_of p h).
Proof. intros P. eapply chain_segments_ok; [exact P|]. eapply chain_of_size, packet_chain, P. Qed.

(** A packet of one owner, [k] octets of room in front of it. *)
Record loose h p (m k : Z) b : Prop := {
  lo_pbuf : pbufs h !! p = Some b;
  lo_packet : ∃ l, packet h (Some p) l m 0 ∧ plain h l;
  lo_ref : ref b = 1;
  lo_ram : in_ram b;
  lo_room : p + SIZEOF_STRUCT_PBUF + k <= payload b;
  lo_size : 0 <= k ∧ m + k + PBUF_IP_HLEN + PBUF_LINK_HLEN < 32768 }.

Lemma loose_len h p m k b : loose h p m k b → tot_len b = m ∧ 0 <= len b <= m.
Proof. intros [Hb (l & P & _) _ _ _ _]. destruct (packet_first _ _ _ _ P) as (b0 & l' & _ & Hb0 & Ht & Hl). assert (b0 = b) as -> by congruence. done. Qed.

Lemma loose_same h h' p m k b : same_pbufs h h' → loose h p m k b → loose h' p m k b.
Proof.
  intros S [Hb (l & P & Pl) Hr Hty Hk Hm]. constructor; try done.
  - destruct S as [-> _]. done.
  - exists l. split; [by eapply same_pbufs_packet|by eapply same_pbufs_plain].
Qed.

(** Taking room, or making it. *)
Lemma loose_moved h p m k b inc : loose h p m k b → 0 <= len b + inc → inc <= k → loose (set_pbuf p (moved inc b) h) p (m + inc) (k - inc) (moved inc b).
Proof.
  intros L Hl Hk. destruct (loose_len _ _ _ _ _ L) as [Ht Hlm]. destruct L as [Hb (l & P & Pl) Hr Hty Hro Hm].
  destruct (packet_first _ _ _ _ P) as (b0 & l' & -> & _). constructor; try done.
  - apply set_pbuf_lookup.
  - exists (p :: l'). split; [by apply packet_moved|by apply plain_moved].
  - unfold moved. simpl. lia.
  - unfold PBUF_IP_HLEN, PBUF_LINK_HLEN in *. lia.
Qed.

Lemma loose_header h p m k b inc : loose h p m k b → 0 <= len b + inc → inc <= k → -32768 < inc →
  pbuf_header p inc h = Some (set_pbuf p (moved inc b) h, 0).
Proof.
  intros L Hl Hk Hi. destruct (loose_len _ _ _ _ _ L) as [Ht Hlm]. destruct L as [Hb _ Hr Hty Hro Hm]. unfold PBUF_IP_HLEN, PBUF_LINK_HLEN in *.
  apply pbuf_header_fits; try done; lia.
Qed.

Lemma loose_outgoing h p m k b : loose h p m k b → outgoing h p m.
Proof.
  intros L. destruct L as [Hb Hp Hr Hty Hro Hm]. constructor; [done| |].
  - unfold PBUF_IP_HLEN, PBUF_LINK_HLEN in *. lia.
  - intros b' Hb'. assert (b' = b) as -> by congruence. by destruct Hty as [-> | ->].
Qed.

Lemma loose_frame h h' p m k b : loose h p m k b → next b = None → pbufs h' !! p = pbufs h !! p → loose h' p m k b.
Proof.
  intros [Hb (l & P & Pl) Hr Hty Hro Hm] Hn Hp. destruct (packet_first _ _ _ _ P) as (b0 & l' & -> & _). constructor; try done; [by rewrite Hp|].
  assert (l' = []) as ->. { destruct P as (_ & b1 & Hb1 & _ & _ & P). assert (b1 = b) as -> by congruence. rewrite Hn in P. destruct l' as [|a l']; [done|by destruct P]. }
  assert (Hx : ∀ a, a ∈ [p] → pbufs h' !! a = pbufs h !! a) by (by intros a ->%list_elem_of_singleton).
  exists [p]. split; [by eapply packet_frame|by eapply plain_frame].
Qed.

Lemma icmp_done_ok E w h p : lower_ok E w h → E p ≠ 0%nat → ∃ w' h', icmp_done p (w, h) = Some (w', h') ∧ lower_ok (disown p E) w' h' ∧ same_net w w'.
Proof. intros K He. destruct (lower_free E w h p K He) as (h' & k & E1 & K' & _). unfold icmp_done. rewrite E1, some_bind. by exists w, h'. Qed.

(** [echo_buffer] leaves one packet in the place of [p]. *)
Lemma echo_buffer_ok E w h p m hlen b : lower_ok E w h → E p ≠ 0%nat → loose h p m hlen b → SIZEOF_ICMP_ECHO_HDR <= m →
  ∃ h' r, echo_buffer p hlen (payload b - hlen) h = Some (h', r) ∧
    match r with
    | None => lower_ok E w h'
    | Some (q, iphdr) => ∃ E' bq, lower_ok E' w h' ∧ E' q ≠ 0%nat ∧ (∀ x, disown q E' x = disown p E x) ∧ loose h' q m hlen bq ∧ iphdr = payload bq - hlen
    end.
Proof.
  intros K He L Hm. destruct (loose_len _ _ _ _ _ L) as [Ht Hl]. pose proof (lo_pbuf _ _ _ _ _ L) as Hb. pose proof (lo_size _ _ _ _ _ L) as Hs.
  unfold echo_buffer. unfold PBUF_IP_HLEN, PBUF_LINK_HLEN, SIZEOF_ICMP_ECHO_HDR in *.
  destruct (pbuf_header_cases h p b (20 + 14) Hb) as [[E1 Hge]|E1]; try lia; rewrite E1, some_bind.
  - change (negb (0 =? 0)) with false. cbv iota.
    assert (pbuf_header p (- (20 + 14)) (set_pbuf p (moved (20 + 14) b) h) = Some (h, 0)) as ->.
    { destruct (lo_ram _ _ _ _ _ L) as [Hr|Hr].
      all: rewrite (pbuf_header_fits _ p (moved (20 + 14) b)); try (unfold moved; simpl; lia); [|apply set_pbuf_lookup|unfold in_ram, moved; simpl; auto|unfold moved; simpl; pose proof (lo_room _ _ _ _ _ L); lia].
      all: by rewrite moved_moved, set_pbuf_twice, moved_0, set_pbuf_id. }
    rewrite some_bind, (assert_true (0 =? 0)), some_bind by done. eexists _, _. split; [done|]. exists E, b. split_and!; try done.
  - change (negb (1 =? 0)) with true. cbv iota. rewrite (loose_header h p m hlen b hlen L), some_bind by lia.
    rewrite (assert_true (0 =? 0)), some_bind by done. rewrite set_pbuf_lookup, some_bind.
    pose proof (loose_moved h p m hlen b hlen L ltac:(lia) ltac:(lia)) as L1. pose proof (lower_moved E w h p b hlen K Hb) as K1.
    generalize dependent (set_pbuf p (moved hlen b) h). intros h1 L1 K1. destruct (loose_len _ _ _ _ _ L1) as [Ht1 Hl1].
    destruct (lower_alloc E w h1 PBUF_LINK (tot_len (moved hlen b)) K1) as (h2 & r & E2 & R); [lia|]. rewrite E2, some_bind.
    destruct r as [q|]; [|subst h2; by exists h1, None].
    destruct R as (K2 & Hno & Hoth & bq & Hq & Hpl & Hr & Hty & Hlq & Htq & Hn & P & Pl). rewrite Hq, some_bind.
    rewrite (assert_true (_ <=? _)), some_bind by (unfold moved in Hlq; simpl in Hlq; lia).
    destruct (lo_packet _ _ _ _ _ L1) as (l & P1 & Pl1). assert (Hx : ∀ a, a ∈ l → pbufs h2 !! a = pbufs h1 !! a).
    { intros a Ha. apply Hoth. intros ->. destruct (chain_of_in _ _ _ _ (packet_chain _ _ _ _ _ P1) Ha) as [x Hx]. congruence. }
    destruct (pbuf_copy_ok h2 q bq p l (m + hlen)) as (h3 & E3 & S3); try done; [congruence|lia|eapply packet_frame; [exact Hx|exact P1]|eapply plain_frame; [exact Hx|exact Pl1]|lia|].
    rewrite E3, some_bind, (assert_true (ERR_OK =? ERR_OK)), some_bind by done. destruct S3 as (Hp3 & S3). rewrite Hp3, Hq, some_bind. cbv zeta.
    assert (Lq : loose h3 q (m + hlen) 0 bq).
    { apply (loose_same h2); [by split|]. constructor; try done; [exists [q]; split; [congruence|done]|by left|unfold layer_offset, PBUF_LINK_HLEN in Hpl; lia|unfold PBUF_IP_HLEN, PBUF_LINK_HLEN; lia]. }
    rewrite (loose_header h3 q (m + hlen) 0 bq (- hlen) Lq), some_bind, (assert_true (0 =? 0)), some_bind by (try lia; done).
    pose proof (loose_moved h3 q (m + hlen) 0 bq (- hlen) Lq ltac:(lia) ltac:(lia)) as L4.
    assert (K4 : lower_ok (inc q E) w (set_pbuf q (moved (- hlen) bq) h3)).
    { apply lower_moved; [eapply lower_same; [by split|exact K2]|by rewrite Hp3]. }
    assert (Hpq : p ≠ q) by (intros ->; rewrite (lo_pbuf _ _ _ _ _ L1) in Hno; done).
    destruct (lower_free (inc q E) w _ p K4) as (h5 & k & E5 & K5 & Sv); [unfold inc; rewrite decide_False by done; lia|].
    rewrite E5, some_bind. eexists _, _. split; [done|]. exists (disown p (inc q E)), (moved (- hlen) bq). split_and!; [done| | | |unfold moved; simpl; lia].
    + unfold disown, inc. rewrite decide_False, decide_True by done. lia.
    + intros x. unfold disown, inc. repeat case_decide; subst; lia.
    + replace (m + hlen + - hlen) with m in L4 by lia. replace (0 - - hlen) with hlen in L4 by lia. eapply loose_frame; [exact L4|done|].
      assert (Hql : q ∉ l) by (intros Hq'; destruct (chain_of_in _ _ _ _ (packet_chain _ _ _ _ _ P1) Hq') as [x Hx']; congruence).
      eapply (free_elsewhere _ p l); [apply (lower_heap_ok _ _ _ K4)| |exact E5|exact Hql].
      eapply chain_of_frame; [|exact (packet_chain _ _ _ _ _ P1)]. intros a ba Ha Hba. exists ba. split; [|done].
      rewrite set_pbuf_other by congruence. by rewrite Hp3, Hx.
Qed.

Lemma make_echo_reply_same iecho iphdr src dest h : same_pbufs h (make_echo_reply iecho iphdr src dest h).
Proof. unfold make_echo_reply. cbv zeta. repeat (eapply same_pbufs_trans; [|apply poke_same]). apply same_pbufs_refl. Qed.

Lemma disown_ext E E' p q : (∀ x, disown q E' x = disown p E x) → ∀ w h, lower_ok (disown q E') w h → lower_ok (disown p E) w h.
Proof. intros He w h K. by eapply lower_ext; [exact He|]. Qed.

(** The end of [icmp_echo]: the packet is sent and freed. *)
Lemma echo_send_ok E w h q i n m hlen bq src dest : lower_ok E w h → E q ≠ 0%nat → loose h q m hlen bq → netifs w !! i = Some n → fits_mtu (m + hlen) n →
  ∃ w' h', ('(h, r) ← pbuf_header q hlen (make_echo_reply (payload bq) (payload bq - hlen) src dest h);
    _ ← lwip_assert (r =? 0);
    '(w, h, _) ← ip_output_if linkoutput ip_frag q src None ICMP_TTL 0 IP_PROTO_ICMP i (w, h);
    icmp_done q (w, h)) = Some (w', h') ∧ lower_ok (disown q E) w' h' ∧ same_net w w'.
Proof.
  intros K He L Hi Hf. pose proof (make_echo_reply_same (payload bq) (payload bq - hlen) src dest h) as S.
  generalize dependent (make_echo_reply (payload bq) (payload bq - hlen) src dest h). intros h1 S.
  pose proof (loose_same _ _ _ _ _ _ S L) as L1. pose proof (lower_same _ _ _ _ S K) as K1. destruct (loose_len _ _ _ _ _ L) as [Ht Hl].
  pose proof (lo_size _ _ _ _ _ L) as Hs. rewrite (loose_header h1 q m hlen bq hlen L1), some_bind, (assert_true (0 =? 0)), some_bind by (try lia; done).
  pose proof (loose_moved h1 q m hlen bq hlen L1 ltac:(lia) ltac:(lia)) as L2.
  destruct (ip_output_hdrincl_ok linkoutput ip_frag E w (set_pbuf q (moved hlen bq) h1) i n q (moved hlen bq) (m + hlen) src ICMP_TTL 0 IP_PROTO_ICMP)
    as (w3 & h3 & r & E3 & K3 & N3); try done.
  - apply lower_moved; [done|by apply (lo_pbuf _ _ _ _ _ L1)].
  - by eapply loose_outgoing.
  - apply (lo_pbuf _ _ _ _ _ L2).
  - apply (lo_ref _ _ _ _ _ L).
  - rewrite E3, some_bind. destruct (icmp_done_ok E w3 h3 q K3 He) as (w4 & h4 & E4 & K4 & N4). exists w4, h4.
    split; [exact E4|]. split; [exact K4|by eapply same_net_trans].
Qed.

Lemma icmp_echo_ok E w h p i n m hlen b src dest : lower_ok E w h → E p ≠ 0%nat → loose h p m hlen b → netifs w !! i = Some n → fits_mtu (m + hlen) n →
  ∃ w' h', icmp_echo linkoutput ip_frag p i hlen (payload b - hlen) src dest (w, h) = Some (w', h') ∧ lower_ok (disown p E) w' h' ∧ same_net w w'.
Proof.
  intros K He L Hi Hf. destruct (loose_len _ _ _ _ _ L) as [Ht Hl]. unfold icmp_echo. rewrite (lo_pbuf _ _ _ _ _ L), some_bind.
  destruct (Z.ltb_spec (tot_len b) SIZEOF_ICMP_ECHO_HDR); [by apply icmp_done_ok|].
  destruct (lo_packet _ _ _ _ _ L) as (l & P & _). destruct (segments_of_ok h p l m P) as [segs Hseg]. rewrite Hseg, some_bind.
  case_match; [by apply icmp_done_ok|]. destruct (echo_buffer_ok E w h p m hlen b K He L) as (h1 & r & E1 & R); [lia|]. rewrite E1, some_bind.
  destruct r as [[q iphdr]|]; [|by apply icmp_done_ok]. destruct R as (E' & bq & K1 & He1 & Hx & L1 & ->).
  rewrite (payload_of_eq _ _ _ (lo_pbuf _ _ _ _ _ L1)), some_bind. cbv zeta.
  destruct (echo_send_ok E' w h1 q i n m hlen bq dest src K1 He1 L1 Hi Hf) as (w2 & h2 & E2 & K2 & N2).
  exists w2, h2. split; [exact E2|]. split; [|done]. by eapply disown_ext.
Qed.

Lemma icmp_input_ok E w h p i n m b src dest : lower_ok E w h → E p ≠ 0%nat → loose h p m 0 b → netifs w !! i = Some n → fits_mtu m n →
  ∃ w' h', icmp_input linkoutput ip_frag p i src dest (w, h) = Some (w', h') ∧ lower_ok (disown p E) w' h' ∧ same_net w w'.
Proof.
  intros K He L Hi Hf. destruct (loose_len _ _ _ _ _ L) as [Ht Hl]. pose proof (lo_size _ _ _ _ _ L) as Hs. pose proof (lo_pbuf _ _ _ _ _ L) as Hb.
  unfold icmp_input. rewrite Hi, some_bind, (payload_of_eq _ _ b Hb), some_bind. cbv zeta.
  assert (Hhl : 0 <= IPH_HL (peek h (payload b) 1) * 4 <= 60).
  { unfold IPH_HL. change 15 with (Z.ones 4). rewrite Z.land_ones by lia. pose proof (Z.mod_pos_bound (nth 0 (peek h (payload b) 1) 0) (2 ^ 4)). lia. }
  generalize dependent (IPH_HL (peek h (payload b) 1) * 4). intros hlen Hhl. unfold PBUF_IP_HLEN, PBUF_LINK_HLEN in Hs.
  destruct (pbuf_header_cases h p b (- hlen) Hb) as [[E1 Hge]|E1]; try lia; rewrite E1, some_bind.
  2:{ rewrite Hb, some_bind. change (negb (1 =? 0)) with true. cbn [orb]. by apply icmp_done_ok. }
  rewrite set_pbuf_lookup, some_bind. pose proof (lower_moved E w h p b (- hlen) K Hb) as K1.
  pose proof (loose_moved h p m 0 b (- hlen) L ltac:(lia) ltac:(lia)) as L1. generalize dependent (set_pbuf p (moved (- hlen) b) h). intros h1 E1 K1 L1.
  case_match; [by apply icmp_done_ok|]. replace (0 - - hlen) with hlen in L1 by lia. replace (m + - hlen) with (m - hlen) in L1 by lia.
  change (peek h1 (payload (moved (- hlen) b)) 1) with [mem h1 (payload (moved (- hlen) b) + Z.of_nat 0)]. cbv iota.
  case_match; [by apply icmp_done_ok|]. case_match; [|by apply icmp_done_ok]. case_match; [by apply icmp_done_ok|].
  replace (payload b) with (payload (moved (- hlen) b) - hlen) by (unfold moved; simpl; lia).
  apply (icmp_echo_ok E w h1 p i n (m - hlen)); try done. by replace (m - hlen + hlen) with m by lia.
Qed.
End own.
