(* ===== verification/IpHeader.v ===== *)
(** * The octets that ip.c and icmp.c write: headers and checksums *)
From S2P Require Import Prelude LwipDef Chksum Memp Pbuf IpAddr Etharp IpReass Ip Icmp.
Local Open Scope Z_scope.

(** ** Reading back what was written *)
Section memory.
Context {A : Type} `{Arena A}.
Implicit Types (h : heap A) (a : Z).

Lemma peek_app h a n m : peek h a (n + m) = peek h a n ++ peek h (a + Z.of_nat n) m.
Proof.
  unfold peek, read_mem. rewrite seq_app, fmap_app. f_equal. cbn [Nat.add]. assert (seq n m = Nat.add n <$> seq 0 m) as -> by (by rewrite fmap_add_seq, Nat.add_0_r). rewrite <- list_fmap_compose.
  apply list_fmap_ext. intros i k _. cbn. f_equal. lia.
Qed.

Lemma peek_length h a n : length (peek h a n) = n.
Proof. unfold peek, read_mem. by rewrite length_fmap, length_seq. Qed.

Lemma peek_poke_same h a b l n : b = a → n = length l → peek (poke a l h) b n = l.
Proof.
  intros -> ->. unfold peek, read_mem. apply list_eq. intros i. rewrite list_lookup_fmap. destruct (decide (i < length l)%nat) as [Hi|Hi].
  - rewrite lookup_seq_lt by done. cbn. unfold write_mem. rewrite decide_True by lia.
    replace (Z.to_nat (a + Z.of_nat i - a)) with i by lia. by destruct (nth_lookup_or_length l i 0); [|lia].
  - rewrite lookup_seq_ge, lookup_ge_None_2 by lia. done.
Qed.

Lemma peek_poke_other h a l b n : b + Z.of_nat n <= a ∨ a + Z.of_nat (length l) <= b → peek (poke a l h) b n = peek h b n.
Proof.
  intros Hd. unfold peek, read_mem. apply list_fmap_ext. intros i k Hk. apply lookup_seq in Hk as [-> Hk]. cbn. unfold write_mem.
  by rewrite decide_False by lia.
Qed.
End memory.

(** Take the writes off one by one. *)
Ltac peeks := repeat first [rewrite peek_poke_same by (done || lia) | rewrite peek_poke_other by (cbn [length le_split]; lia)].

(** ** A checksum that is right *)
Lemma inet_chksum_value addr data : bytes data → Z.of_nat (length data) <= 131072 →
  ∃ r, ones_value r (wsum data) ∧ inet_chksum addr data = 65535 - r.
Proof.
  intros Hb Hl. pose proof (chksum2_value addr data Hb Hl) as V. destruct (wsum_value data Hb) as (C & N & _).
  exists (LWIP_CHKSUM addr data). split; [|unfold inet_chksum; rewrite complement_value; [done|apply V]].
  refine (ones_value_equiv _ _ _ _ _ V); [by apply cong_sym|tauto].
Qed.

Lemma inet_chksum_zero addr data : bytes data → Z.of_nat (length data) <= 131072 →
  inet_chksum addr data = 0 ↔ cong (wsum data) 0 ∧ wsum data ≠ 0.
Proof.
  intros Hb Hl. destruct (inet_chksum_value addr data Hb Hl) as (r & ((R1 & R2) & C & N) & ->). split.
  - intros E. assert (r = 65535) as -> by lia. split; [|lia]. rewrite <- C. by exists 1.
  - intros [C0 N0]. assert (cong r 0) as [k Hk] by (by rewrite C). assert (k = 1 ∨ k = 0) as [-> | ->] by lia; lia.
Qed.

(** ** The generated IP header *)
Definition be16_octets (n : Z) : list Z := [n / 256; n mod 256].
Definition le16_octets (n : Z) : list Z := [n mod 256; n / 256].

(** RFC 791, without options. *)
Definition ip_header (tos tot_len id ttl proto chksum src dest : Z) : list Z :=
  [69; tos] ++ be16_octets tot_len ++ be16_octets id ++ [0; 0] ++ [ttl; proto] ++ le16_octets chksum ++ le_split src ++ le_split dest.

(** The sum that [ip_output_if] forms on the way. *)
Definition header_sum (tos tot_len id ttl proto src dest : Z) : Z :=
  ttl + 256 * proto + dest mod 65536 + dest / 65536 + (69 + 256 * tos) + lwip_htons tot_len + lwip_htons id + src mod 65536 + src / 65536.

Lemma make_u16 a b : 0 <= a → is_u8 b → LWIP_MAKE_U16 a b = b + 256 * a.
Proof.
  intros Ha Hb. unfold LWIP_MAKE_U16. change 8 with (0 + 8). rewrite <- Z.shiftl_shiftl, Z.shiftl_0_r by lia.
  rewrite lor_shiftl_low by (change (2 ^ 8) with 256; unfold is_u8 in *; lia). change (2 ^ 8) with 256. lia.
Qed.

Lemma inline_fold w : is_u32 w → let s := FOLD_U32T w in u16 (Z.lnot (u32 (Z.shiftr s 16 + s))) = 65535 - FOLD_U32T s.
Proof.
  intros Hw s. destruct (fold_cong w Hw) as (_ & _ & B). fold s in B. rewrite (fold_val s) by (unfold is_u32; lia).
  rewrite Z.shiftr_div_pow2 by lia. change (2 ^ 16) with 65536. rewrite u32_id by (unfold is_u32; Z.to_euclidean_division_equations; lia).
  unfold u16, Z.lnot. Z.to_euclidean_division_equations. lia.
Qed.

Lemma inline_sum tot_len src dest ttl tos proto id : is_u8 tos → is_u16 tot_len → is_u16 id → is_u8 ttl → is_u8 proto → is_u32 src → is_u32 dest →
  u32 (u32 (u32 (u32 (u32 (u32 (u32 (u32 (0 + LWIP_MAKE_U16 proto ttl) + Z.land dest 65535) + Z.shiftr dest 16) +
    LWIP_MAKE_U16 tos (Z.lor (Z.shiftl 4 4) (IP_HLEN / 4))) + lwip_htons tot_len) + lwip_htons id) + Z.land src 65535) + Z.shiftr src 16) =
  header_sum tos tot_len id ttl proto src dest ∧ is_u32 (header_sum tos tot_len id ttl proto src dest).
Proof.
  intros Htos Ht Hi Httl Hp Hs Hd. change (Z.lor (Z.shiftl 4 4) (IP_HLEN / 4)) with 69. rewrite !make_u16 by (unfold is_u8 in *; lia).
  change 65535 with (Z.ones 16). rewrite !Z.land_ones, !Z.shiftr_div_pow2 by lia. change (2 ^ 16) with 65536.
  repeat (rewrite u32_add_l || rewrite <- Z.add_assoc).
  pose proof (lwip_htons_range tot_len). pose proof (lwip_htons_range id).
  assert (Hb : is_u32 (header_sum tos tot_len id ttl proto src dest)).
  { unfold header_sum, is_u8, is_u16, is_u32 in *. Z.to_euclidean_division_equations. lia. }
  split; [|exact Hb]. rewrite <- (u32_id _ Hb). f_equal. unfold header_sum. lia.
Qed.

Section header.
Context {A : Type} `{Arena A}.
Implicit Types (h : heap A) (a : Z).

Lemma header_bytes tos tot_len id ttl proto chksum src dest : is_u8 tos → is_u16 tot_len → is_u16 id → is_u8 ttl → is_u8 proto → is_u16 chksum →
  bytes (ip_header tos tot_len id ttl proto chksum src dest).
Proof.
  intros. unfold ip_header, be16_octets, le16_octets. rewrite !Forall_app. split_and!; try apply le_split_bytes; rewrite ?Forall_cons; split_and!; try apply Forall_nil_2;
  unfold is_u8, is_u16 in *; Z.to_euclidean_division_equations; lia.
Qed.

Lemma header_wsum tos tot_len id ttl proto chksum src dest : is_u16 tot_len → is_u16 id → is_u16 chksum → is_u32 src → is_u32 dest →
  wsum (ip_header tos tot_len id ttl proto chksum src dest) = header_sum tos tot_len id ttl proto src dest + chksum.
Proof.
  intros Ht Hi Hc Hs Hd. unfold ip_header, header_sum, be16_octets, le16_octets, le_split. cbn [app wsum le_num]. rewrite !lwip_htons_val by done.
  unfold is_u16, is_u32 in *. Z.to_euclidean_division_equations. lia.
Qed.

Lemma write_ip_header_octets a tot_len src dest ttl tos proto id if_addr h :
  is_u8 tos → is_u16 tot_len → is_u16 id → is_u8 ttl → is_u8 proto → is_u32 src → is_u32 dest → is_u32 if_addr →
  let source := if ip_addr_isany src then if_addr else src in
  let w := header_sum tos tot_len id ttl proto source dest in
  peek (write_ip_header a tot_len src dest ttl tos proto id if_addr h) a 20 =
    ip_header tos tot_len id ttl proto (65535 - FOLD_U32T (FOLD_U32T w)) source dest.
Proof.
  intros Htos Ht Hi Httl Hp Hs Hd Hif source w. assert (Hsrc : is_u32 source) by (unfold source; by case_match).
  destruct (inline_sum tot_len source dest ttl tos proto id) as [Es Hw]; try done. fold w in Es, Hw.
  unfold write_ip_header. cbv zeta. fold source. rewrite Es. fold (FOLD_U32T w). rewrite (inline_fold w Hw).
  set (c := 65535 - FOLD_U32T (FOLD_U32T w)). change 20%nat with (1 + (1 + (2 + (2 + (2 + (1 + (1 + (2 + (4 + 4)))))))))%nat. rewrite !peek_app.
  peeks. unfold ip_header, be16_octets, le16_octets. rewrite !lwip_htons_val by done. cbn [app]. 
  unfold is_u16 in *. repeat f_equal; Z.to_euclidean_division_equations; lia.
Qed.

Lemma header_chksum_zero addr tos tot_len id ttl proto src dest :
  is_u8 tos → is_u16 tot_len → is_u16 id → is_u8 ttl → is_u8 proto → is_u32 src → is_u32 dest →
  inet_chksum addr (ip_header tos tot_len id ttl proto (65535 - FOLD_U32T (FOLD_U32T (header_sum tos tot_len id ttl proto src dest))) src dest) = 0.
Proof.
  intros Htos Ht Hi Httl Hp Hs Hd. destruct (inline_sum tot_len src dest ttl tos proto id) as [_ Hw]; try done.
  set (w := header_sum tos tot_len id ttl proto src dest) in *. destruct (fold_twice w Hw) as ((R1 & R2) & [k C] & N).
  assert (is_u16 (65535 - FOLD_U32T (FOLD_U32T w))) by (unfold is_u16; lia).
  apply inet_chksum_zero; [by apply header_bytes|done|]. rewrite header_wsum by done. fold w.
  assert (0 < w). { unfold w, header_sum, is_u8, is_u16, is_u32 in *. pose proof (lwip_htons_range tot_len). pose proof (lwip_htons_range id). unfold is_u16 in *. Z.to_euclidean_division_equations. lia. }
  split; [exists (1 - k); lia|lia].
Qed.

(** ** The echo reply *)
Lemma wsum_app l2 : ∀ l1, Nat.even (length l1) = true → wsum (l1 ++ l2) = wsum l1 + wsum l2.
Proof. induction l1 as [|a|a b l1 IH] using pair_ind; intros Hl; [done|done|]. cbn [app wsum]. rewrite IH by done. lia. Qed.

Lemma wsum_le16 c l : is_u16 c → wsum (le16_octets c ++ l) = c + wsum l.
Proof. intros Hc. cbn [le16_octets app wsum le_num]. unfold is_u16 in Hc. Z.to_euclidean_division_equations. lia. Qed.

Lemma le16_bytes c : is_u16 c → bytes (le16_octets c).
Proof. intros Hc. unfold le16_octets, is_u16 in *. rewrite !Forall_cons. unfold is_u8. split_and!; try apply Forall_nil_2; Z.to_euclidean_division_equations; lia. Qed.

(** A checksum formed over a zero field and stored there. *)
Lemma stored_chksum addr addr' pre post : bytes pre → bytes post → Nat.even (length pre) = true → Z.of_nat (length pre + 2 + length post) <= 131072 →
  inet_chksum addr' (pre ++ le16_octets (inet_chksum addr (pre ++ [0; 0] ++ post)) ++ post) = 0 ∧ is_u16 (inet_chksum addr (pre ++ [0; 0] ++ post)).
Proof.
  intros Hpre Hpost He Hl. assert (Hz : bytes (pre ++ [0; 0] ++ post)).
  { rewrite !Forall_app. split_and!; [done| |done]. by repeat constructor. }
  destruct (inet_chksum_value addr _ Hz) as (r & ((R1 & R2) & [k C] & N) & E); [rewrite !length_app; cbn; lia|]. rewrite E.
  assert (Hc : is_u16 (65535 - r)) by (unfold is_u16; lia). split; [|exact Hc].
  change [0; 0] with (le16_octets 0) in C, N. rewrite wsum_app, wsum_le16 in C, N by done.
  destruct (wsum_value pre Hpre) as (_ & _ & [B1 _]). destruct (wsum_value post Hpost) as (_ & _ & [B2 _]).
  apply inet_chksum_zero; [rewrite !Forall_app; split_and!; try done; by apply le16_bytes|rewrite !length_app; cbn; lia|].
  rewrite wsum_app, wsum_le16 by done. split; [exists (1 - k); lia|lia].
Qed.

(** The incremental update of icmp.c: right, except for a message that is
    otherwise all zero. *)
Lemma echo_chksum_range c : is_u16 c → is_u16 (echo_chksum c).
Proof. intros Hc. unfold echo_chksum. case_match; apply u16_range. Qed.

Lemma echo_chksum_cong c : is_u16 c → cong (echo_chksum c) (c + 8).
Proof.
  intros Hc. unfold echo_chksum. change (PP_HTONS (65535 - Z.shiftl ICMP_ECHO 8)) with 65527. change (PP_HTONS (Z.shiftl ICMP_ECHO 8)) with 8.
  unfold is_u16 in Hc. destruct (Z.leb_spec 65527 c).
  - exists (-1). unfold u16. Z.to_euclidean_division_equations. lia.
  - exists 0. rewrite u16_id by (unfold is_u16; lia). lia.
Qed.

Lemma echo_chksum_correct addr addr' code c rest : is_u8 code → is_u16 c → bytes rest → Z.of_nat (4 + length rest) <= 131072 →
  inet_chksum addr (ICMP_ECHO :: code :: le16_octets c ++ rest) = 0 →
  (inet_chksum addr' (ICMP_ER :: code :: le16_octets (echo_chksum c) ++ rest) = 0 ↔ ¬ (code = 0 ∧ Forall (λ x, x = 0) rest)).
Proof.
  intros Hcode Hc Hr Hl E0. pose proof (echo_chksum_range c Hc) as Hc'. destruct (echo_chksum_cong c Hc) as [k Ck].
  assert (Hb : ∀ t c, is_u8 t → is_u16 c → bytes (t :: code :: le16_octets c ++ rest)).
  { intros t c1 Ht H1. do 2 (constructor; [done|]). apply Forall_app. split; [by apply le16_bytes|done]. }
  assert (Hlen : ∀ t c, Z.of_nat (length (t :: code :: le16_octets c ++ rest)) <= 131072) by (intros t c1; cbn [length app le16_octets] in *; lia).
  assert (Hw : ∀ t c, is_u16 c → wsum (t :: code :: le16_octets c ++ rest) = t + 256 * code + c + wsum rest).
  { intros t c1 H1. change (t :: code :: le16_octets c1 ++ rest) with ([t; code] ++ le16_octets c1 ++ rest). rewrite wsum_app, wsum_le16 by done. cbn [wsum le_num]. lia. }
  apply inet_chksum_zero in E0; [|by apply Hb|apply Hlen]. rewrite Hw in E0 by done. destruct E0 as [[j C0] N0].
  rewrite inet_chksum_zero by (apply Hb || apply Hlen; done). rewrite Hw by done.
  destruct (wsum_value rest Hr) as (_ & Zr & [Br _]). rewrite le_num_zero in Zr by done. rewrite <- Zr.
  assert (cong (ICMP_ER + 256 * code + echo_chksum c + wsum rest) 0) as Cg.
  { exists (k + j). unfold ICMP_ER, ICMP_ECHO in *. lia. }
  split; [intros [_ N1] [-> Z1]; apply N1|intros N1; split; [exact Cg|intros Z1; apply N1]].
  - rewrite Z1 in *. destruct Cg as [i Ci]. unfold ICMP_ER, ICMP_ECHO, is_u16 in *.
    assert (c = 65527) as -> by lia. by vm_compute.
  - unfold ICMP_ER, is_u8, is_u16 in *. split; lia.
Qed.

Lemma peek_header h a : peek h a 20 = peek h a 8 ++ peek h (a + 8) 1 ++ peek h (a + 9) 1 ++ peek h (a + 10) 2 ++ peek h (a + 12) 4 ++ peek h (a + 16) 4.
Proof.
  change 20%nat with (8 + (1 + (1 + (2 + (4 + 4)))))%nat. rewrite !peek_app.
  replace (a + Z.of_nat 8) with (a + 8) by lia. replace (a + 8 + Z.of_nat 1) with (a + 9) by lia. replace (a + 9 + Z.of_nat 1) with (a + 10) by lia.
  replace (a + 10 + Z.of_nat 2) with (a + 12) by lia. by replace (a + 12 + Z.of_nat 4) with (a + 16) by lia.
Qed.

(** What [make_echo_reply] leaves of the message and of the header. *)
Lemma make_echo_reply_octets iecho iphdr src dest h k : iphdr + IP_HLEN <= iecho →
  let h' := make_echo_reply iecho iphdr src dest h in
  let pre := peek h iphdr 8 ++ [ICMP_TTL] ++ peek h (iphdr + 9) 1 in
  let post := le_split src ++ le_split dest in
  peek h' iecho (4 + k) = ICMP_ER :: peek h (iecho + 1) 1 ++ le16_octets (echo_chksum (le_num (peek h (iecho + 2) 2))) ++ peek h (iecho + 4) k ∧
  peek h' iphdr 20 = pre ++ le16_octets (inet_chksum iphdr (pre ++ [0; 0] ++ post)) ++ post.
Proof.
  intros Hd h' pre post. unfold IP_HLEN in Hd. unfold h', make_echo_reply. cbv zeta. split.
  - change (4 + k)%nat with (1 + (1 + (2 + k)))%nat. rewrite !peek_app. peeks. cbn [app]. replace (iecho + Z.of_nat 1 + Z.of_nat 1 + Z.of_nat 2) with (iecho + 4) by lia. done.
  - change (Z.to_nat IP_HLEN) with 20%nat. rewrite !peek_header. peeks. unfold pre, post. by rewrite <- !app_assoc.
Qed.

Lemma peek_echo h a k : peek h a (4 + k) = peek h a 1 ++ peek h (a + 1) 1 ++ peek h (a + 2) 2 ++ peek h (a + 4) k.
Proof.
  change (4 + k)%nat with (1 + (1 + (2 + k)))%nat. rewrite !peek_app. replace (a + Z.of_nat 1) with (a + 1) by lia.
  replace (a + 1 + Z.of_nat 1) with (a + 2) by lia. by replace (a + 2 + Z.of_nat 2) with (a + 4) by lia.
Qed.

Lemma le16_octets_num l : bytes l → length l = 2%nat → le16_octets (le_num l) = l ∧ is_u16 (le_num l).
Proof.
  destruct l as [|a [|b [|c l]]]; try done. rewrite !Forall_cons. intros (Ha & Hb & _) _. unfold le16_octets, is_u8, is_u16 in *. cbn [le_num].
  split; [repeat f_equal|]; Z.to_euclidean_division_equations; lia.
Qed.

(** C27. The header that [ip_output_if] generates is that of RFC 791 for the
    addresses, the protocol and the length given, the host's own address where
    none was given, and the checksum, which the code forms on the way as it
    writes the fields, is right: [inet_chksum] over the 20 octets is 0.  Memory
    outside the header stays as it was. *)
Theorem ip_header_correct a tot_len src dest ttl tos proto id if_addr h addr :
  is_u8 tos → is_u16 tot_len → is_u16 id → is_u8 ttl → is_u8 proto → is_u32 src → is_u32 dest → is_u32 if_addr →
  let source := if ip_addr_isany src then if_addr else src in
  let h' := write_ip_header a tot_len src dest ttl tos proto id if_addr h in
  ∃ chksum, peek h' a 20 = [69; tos] ++ be16_octets tot_len ++ be16_octets id ++ [0; 0] ++ [ttl; proto] ++ le16_octets chksum ++ le_split source ++ le_split dest ∧
    inet_chksum addr (peek h' a 20) = 0 ∧ ∀ b n, b + Z.of_nat n <= a ∨ a + 20 <= b → peek h' b n = peek h b n.
Proof.
  intros Htos Ht Hi Httl Hp Hs Hd Hif source h'. eexists. split; [by apply write_ip_header_octets|]. split.
  - unfold h'. rewrite write_ip_header_octets by done. apply header_chksum_zero; try done. by case_match.
  - intros b n Hb. unfold h', write_ip_header. cbv zeta. peeks. done.
Qed.

(** C29. The echo reply: from a request whose checksum is right [icmp_input]
    makes, in place, a reply with the same identifier, sequence number and data
    and the addresses given; the IP checksum makes the first 20 octets sum
    right, which are the header of a packet without IP options (with options the
    checksum is wrong, [echo_with_options_invalid]); unless the message is
    otherwise all zero, the ICMP checksum is right as well, although it is
    updated and not formed anew.  The message has at most 131072 octets and lies
    behind the first 20 octets of the header. *)
Theorem icmp_echo_reply_valid iecho iphdr src dest h k :
  iphdr + IP_HLEN <= iecho → bytes (peek h iphdr 20) → bytes (peek h iecho (4 + k)) → Z.of_nat (4 + k) <= 131072 →
  is_u32 src → is_u32 dest → peek h iecho 1 = [ICMP_ECHO] → inet_chksum iecho (peek h iecho (4 + k)) = 0 →
  let h' := make_echo_reply iecho iphdr src dest h in
  peek h' iecho 1 = [ICMP_ER] ∧ peek h' (iecho + 4) k = peek h (iecho + 4) k ∧
  le_num (peek h' (iphdr + 12) 4) = src ∧ le_num (peek h' (iphdr + 16) 4) = dest ∧ inet_chksum iphdr (peek h' iphdr 20) = 0 ∧
  (inet_chksum iecho (peek h' iecho (4 + k)) = 0 ↔ ¬ (peek h (iecho + 1) 1 = [0] ∧ Forall (λ x, x = 0) (peek h (iecho + 4) k))).
Proof.
  intros Hd Bi Be Hk Hsrc Hdst Ht E0 h'. destruct (make_echo_reply_octets iecho iphdr src dest h k Hd) as [O1 O2]. fold h' in O1, O2.
  rewrite peek_header, !Forall_app in Bi. destruct Bi as (B8 & _ & B9 & _). rewrite peek_echo, !Forall_app in Be. destruct Be as (_ & Bc & B2 & Bk).
  destruct (le16_octets_num _ B2 (peek_length _ _ _)) as [E2 H2]. assert (exists code, peek h (iecho + 1) 1 = [code]) as [code Ec] by (by eexists).
  rewrite Ec, Forall_singleton in Bc. rewrite peek_echo, Ht, Ec, <- E2 in E0. rewrite Ec in O1. cbn [app] in O1.
  unfold IP_HLEN in Hd. split_and!.
  - unfold h', make_echo_reply. cbv zeta. peeks. done.
  - unfold h', make_echo_reply. cbv zeta. peeks. done.
  - unfold h', make_echo_reply. cbv zeta. peeks. by apply le_num_split.
  - unfold h', make_echo_reply. cbv zeta. peeks. by apply le_num_split.
  - rewrite O2. apply stored_chksum.
    + rewrite !Forall_app. split_and!; [done|by repeat constructor|done].
    + apply Forall_app. split; apply le_split_bytes.
    + by rewrite !length_app, !peek_length.
    + by rewrite !length_app, !peek_length.
  - rewrite O1. rewrite (echo_chksum_correct iecho iecho code _ (peek h (iecho + 4) k)); try done; [|rewrite peek_length; lia].
    rewrite Ec. split; intros N [C Z]; apply N; (split; [congruence|done]).
Qed.
End header.

(** ** Witnesses *)
#[local] Instance no_arena_unit : Arena unit := {| memp_malloc _ _ := None; memp_free _ _ a := a; mem_malloc _ _ := None; mem_free _ a := a;
  mem_trim _ _ a := a; custom_free_function _ a := a; live _ := ∅ |}.

Definition flat (a : Z) (l : list Z) : heap unit := MkHeap ∅ (write_mem (λ _, 0) a l) tt (λ _, 0) false.


Lemma ip_header_correct_witness :
  ∃ chksum, peek (write_ip_header 4096 84 0 33597632 255 0 1 7 16820416 (flat 0 [])) 4096 20 =
    [69; 0; 0; 84; 0; 7; 0; 0; 255; 1] ++ le16_octets chksum ++ [192; 168; 0; 1; 192; 168; 0; 2].
Proof.
  destruct (ip_header_correct 4096 84 0 33597632 255 0 1 7 16820416 (flat 0 []) 4096) as (c & E & _); [by vm_compute..|].
  exists c. rewrite E. by vm_compute.
Defined.

(** An echo request in a packet of 28 octets. *)
Definition request : list Z := [69; 0; 0; 28; 18; 52; 0; 0; 64; 1; 231; 89; 192; 168; 0; 2; 192; 168; 0; 1; 8; 0; 243; 249; 1; 2; 3; 4].

Lemma icmp_echo_reply_valid_witness :
  inet_chksum 4116 (peek (make_echo_reply 4116 4096 16820416 33597632 (flat 4096 request)) 4116 8) = 0.
Proof.
  destruct (icmp_echo_reply_valid 4116 4096 16820416 33597632 (flat 4096 request) 4) as (_ & _ & _ & _ & _ & R).
  - by vm_compute.
  - vm_compute. repeat constructor; discriminate.
  - vm_compute. repeat constructor; discriminate.
  - done.
  - by vm_compute.
  - by vm_compute.
  - by vm_compute.
  - by vm_compute.
  - apply R. intros [_ Z]. rewrite Forall_forall in Z. specialize (Z 1). by assert (1 = 0) by (apply Z; vm_compute; left).
Defined.

(** The exception: a request with code, identifier and sequence number 0 and no
    data.  The checksum of the reply is 0 and should be 65535. *)
Theorem zero_echo_reply_invalid :
  let h := flat 4096 (take 20 request ++ [8; 0; 247; 255; 0; 0; 0; 0]) in
  inet_chksum 4116 (peek h 4116 8) = 0 ∧ inet_chksum 4116 (peek (make_echo_reply 4116 4096 16820416 33597632 h) 4116 8) = 65535.
Proof. by vm_compute. Qed.

(** With options, the checksum of the reply covers 20 octets of a header of 24,
    and the receiver drops the packet. *)
Theorem echo_with_options_invalid :
  let h := flat 4096 ([70; 0; 0; 32; 18; 52; 0; 0; 64; 1; 229; 84; 192; 168; 0; 2; 192; 168; 0; 1; 1; 1; 0; 0] ++ drop 20 request) in
  inet_chksum 4096 (peek h 4096 24) = 0 ∧ inet_chksum 4096 (peek (make_echo_reply 4120 4096 16820416 33597632 h) 4096 24) ≠ 0.
Proof. by vm_compute. Qed.
