(* ===== verification/StackOk.v ===== *)
(** * A datagram through the stack

    [ip_input] with everything above and below it: whatever the packet says,
    no assertion fails, and the packet goes to exactly one owner or is freed.
    The packets that TCP and the applications keep are theirs: [app_refs].  The
    datagram is whole; ip_frag.c has theorems of its own. *)
From S2P Require Import Prelude LwipDef Chksum Memp Pbuf PbufRef PbufOwn PbufData PbufMove IpAddr.
From S2P Require Import Etharp EtharpOk EtharpOut IpReass Ip Icmp IpOwn IcmpOwn.
From S2P Require Import Stack Raw Udp IpIn UdpOk.
Local Open Scope Z_scope.

Section whole.
Context {A T : Type} `{HL : ArenaLaws A}.
Context (linkoutput : netif → Z → heap A → Z).
Context (ip_frag : Z → Z → Z → lower * heap A → option (lower * heap A * Z)).
Context (udp_callback : Z * Z → Z → Z → Z → Z → stack A T → option (stack A T)).
Context (raw_callback : Z * Z → Z → Z → Z → stack A T → option (stack A T * bool)).
Context (tcp_input : Z → Z → Z → Z → stack A T → option (stack A T)).
Context (app_refs : T → Z → nat).
Implicit Types (s : stack A T) (h : heap A) (p q : Z) (E : Z → nat) (b : pbuf) (n : netif).

Definition with_apps (t : T) E : Z → nat := λ x, (E x + app_refs t x)%nat.

Record stack_ok E s : Prop := {
  so_low : lower_ok (with_apps (ts s) E) (low s) (hp s);
  so_udp : udp_ok (us s);
  so_nodup : NoDup (raw_pcbs (rs s));
  so_raw i : i ∈ raw_pcbs (rs s) → is_Some (rpcb (rs s) !! i) }.

Lemma with_apps_held t E p : E p ≠ 0%nat → with_apps t E p ≠ 0%nat.
Proof. unfold with_apps. lia. Qed.

Lemma with_apps_disown t E p w h : E p ≠ 0%nat → lower_ok (disown p (with_apps t E)) w h → lower_ok (with_apps t (disown p E)) w h.
Proof. intros He. apply lower_ext. intros x. unfold disown, with_apps. case_decide; subst; lia. Qed.

(** The lower half moves on. *)
Lemma stack_low E E' s w h : stack_ok E s → lower_ok (with_apps (ts s) E') w h → stack_ok E' (set_low (w, h) s).
Proof. intros [K1 K2 K3 K4] K. by constructor. Qed.

Lemma stack_hp E s h : stack_ok E s → lower_ok (with_apps (ts s) E) (low s) h → stack_ok E (set_hp h s).
Proof. intros [K1 K2 K3 K4] K. by constructor. Qed.

Lemma stack_moved E s p b inc : stack_ok E s → pbufs (hp s) !! p = Some b → stack_ok E (set_hp (set_pbuf p (moved inc b) (hp s)) s).
Proof. intros K Hb. apply stack_hp; [done|]. apply lower_moved; [apply K|done]. Qed.

Lemma stack_us E s U : stack_ok E s → udp_ok U → stack_ok E (set_us U s).
Proof. intros [K1 K2 K3 K4] K. by constructor. Qed.

Lemma free_packet_ok E s p : stack_ok E s → E p ≠ 0%nat → ∃ s', free_packet p s = Some s' ∧ stack_ok (disown p E) s'.
Proof.
  intros K He. destruct (lower_free _ _ _ p (so_low _ _ K) (with_apps_held _ _ _ He)) as (h' & k & E1 & K' & _). unfold free_packet.
  rewrite E1, some_bind. eexists. split; [done|]. destruct K as [K1 K2 K3 K4]. constructor; try done. by apply with_apps_disown.
Qed.

(** ** What the stack relies on: a callback consumes the packet or leaves it
    alone, and keeps the invariant; TCP consumes it. *)
Record callbacks_ok : Prop := {
  cb_udp f pcb p src port E s : stack_ok E s → E p ≠ 0%nat →
    ∃ s', udp_callback f pcb p src port s = Some s' ∧ stack_ok (disown p E) s';
  cb_raw f pcb p src E s b m : stack_ok E s → E p ≠ 0%nat → loose (hp s) p m 0 b →
    ∃ s' eaten, raw_callback f pcb p src s = Some (s', eaten) ∧ raw_pcbs (rs s') = raw_pcbs (rs s) ∧
      if eaten : bool then stack_ok (disown p E) s' else stack_ok E s' ∧ loose (hp s') p m 0 b ∧ same_net (low s) (low s');
  cb_tcp p inp src dest E s b m : stack_ok E s → E p ≠ 0%nat → loose (hp s) p m 0 b →
    ∃ s', tcp_input p inp src dest s = Some s' ∧ stack_ok (disown p E) s' }.

Context (CB : callbacks_ok).

(** ** raw.c *)
Lemma next_of_spec pcb : ∀ l1 l2, pcb ∉ l1 → next_of pcb (l1 ++ pcb :: l2) = Some (head l2).
Proof.
  induction l1 as [|i l1 IH]; intros l2 Hn; cbn [next_of app]; [by rewrite Z.eqb_refl|].
  apply not_elem_of_cons in Hn as [Hne Hn]. rewrite (proj2 (Z.eqb_neq i pcb)) by congruence. by apply IH.
Qed.

Lemma move_front_spec prev pcb l1 l2 : NoDup (l1 ++ prev :: pcb :: l2) →
  move_front prev pcb (l1 ++ prev :: pcb :: l2) = Some (pcb :: filter (λ j, j ≠ pcb) (l1 ++ prev :: pcb :: l2)).
Proof.
  intros ND. unfold move_front. rewrite next_of_spec; [cbn; by rewrite Z.eqb_refl|].
  apply NoDup_app in ND as (_ & Hd & _). intros Hp. apply (Hd prev Hp). by left.
Qed.

Lemma stack_raw_front E s pcb : stack_ok E s → pcb ∈ raw_pcbs (rs s) →
  stack_ok E (set_rs (set_raw_pcbs (pcb :: filter (λ j, j ≠ pcb) (raw_pcbs (rs s))) (rs s)) s).
Proof.
  intros [K1 K2 K3 K4] Hp. constructor; cbn; [done|done| |].
  - constructor; [by intros [? _]%list_elem_of_filter|by apply NoDup_filter].
  - intros i [->|[_ Hi]%list_elem_of_filter]%elem_of_cons; by apply K4.
Qed.

Lemma raw_loop_ok p proto src dest b m : ∀ fuel l l1 E s, stack_ok E s → E p ≠ 0%nat → loose (hp s) p m 0 b →
  raw_pcbs (rs s) = l1 ++ l → (length l ≤ fuel)%nat →
  ∃ s' eaten, raw_loop raw_callback fuel p proto src dest (last l1) (head l) s = Some (s', eaten) ∧
    if eaten : bool then stack_ok (disown p E) s' else stack_ok E s' ∧ loose (hp s') p m 0 b ∧ same_net (low s) (low s').
Proof.
  induction fuel as [|fuel IH]; intros l l1 E s K He L El Hf; (destruct l as [|pcb l]; [exists s, false; by split_and!|]); [simpl in Hf; lia|].
  cbn [raw_loop head]. destruct (so_raw _ _ K pcb) as [r Hr]; [rewrite El; apply elem_of_app; right; by left|]. rewrite Hr, some_bind.
  assert (∃ s1 eaten, (if raw_matches r proto dest then match r_recv r with Some f => raw_callback f pcb p src s | None => Some (s, false) end
      else Some (s, false)) = Some (s1, eaten) ∧ raw_pcbs (rs s1) = raw_pcbs (rs s) ∧
      if eaten : bool then stack_ok (disown p E) s1 else stack_ok E s1 ∧ loose (hp s1) p m 0 b ∧ same_net (low s) (low s1)) as (s1 & eaten & E1 & El1 & K1).
  { destruct (raw_matches r proto dest); [|by exists s, false]. destruct (r_recv r) as [f|]; [|by exists s, false]. by apply (cb_raw CB f pcb p src E s b m). }
  rewrite E1, some_bind. rewrite El in El1. destruct eaten.
  - destruct (last l1) as [prev|] eqn:Elast; [|by exists s1, true]. apply last_Some in Elast as [l0 ->].
    rewrite El1. rewrite <- app_assoc. cbn [app]. rewrite move_front_spec, some_bind.
    2:{ pose proof (so_nodup _ _ K1) as ND. by rewrite El1, <- app_assoc in ND. }
    eexists _, true. split; [done|]. pose proof (stack_raw_front _ _ pcb K1) as K2. rewrite El1, <- app_assoc in K2. apply K2.
    apply elem_of_app. right. right. by left.
  - destruct K1 as (K1 & L1 & N1). rewrite El1, next_of_spec, some_bind.
    2:{ pose proof (so_nodup _ _ K1) as ND. rewrite El1 in ND. apply NoDup_app in ND as (_ & Hd & _). intros Hp. apply (Hd pcb Hp). by left. }
    replace (Some pcb) with (last (l1 ++ [pcb])) by apply last_snoc.
    destruct (IH l (l1 ++ [pcb]) E s1 K1 He L1) as (s2 & e2 & E2 & K2); [by rewrite El1, <- app_assoc|simpl in Hf; lia|].
    exists s2, e2. split; [exact E2|]. destruct e2; [done|]. destruct K2 as (? & ? & N2). split_and!; try done. by eapply same_net_trans.
Qed.

Lemma raw_input_ok fuel p src dest b m E s : stack_ok E s → E p ≠ 0%nat → loose (hp s) p m 0 b → (length (raw_pcbs (rs s)) ≤ fuel)%nat →
  ∃ s' eaten, raw_input raw_callback fuel p src dest s = Some (s', eaten) ∧
    if eaten : bool then stack_ok (disown p E) s' else stack_ok E s' ∧ loose (hp s') p m 0 b ∧ same_net (low s) (low s').
Proof.
  intros K He L Hf. unfold raw_input. rewrite (payload_of_eq _ _ _ (lo_pbuf _ _ _ _ _ L)), some_bind. cbv zeta.
  by apply (raw_loop_ok p _ src dest b m fuel (raw_pcbs (rs s)) [] E s).
Qed.

(** ** udp.c *)

(** An ICMP message about the packet, which is freed then. *)
Lemma unreach_free_ok E s h p b (t : Z) : stack_ok E s → lower_ok (with_apps (ts s) E) (low s) h → pbufs h !! p = Some b → E p ≠ 0%nat →
  ∃ s', (x ← icmp_dest_unreach linkoutput ip_frag p t (low s, h); free_packet p (set_low x s)) = Some s' ∧ stack_ok (disown p E) s'.
Proof.
  intros K Kh Hb He. unfold icmp_dest_unreach. destruct (icmp_send_response_ok linkoutput ip_frag _ _ h p b ICMP_DUR t Kh Hb) as (w & h' & E1 & K1 & _).
  rewrite E1, some_bind. apply free_packet_ok; [|done]. by eapply stack_low.
Qed.

Lemma udp_deliver_ok E s p o hlen iphdr src cs cd bc m b : stack_ok E s → E p ≠ 0%nat → loose (hp s) p m hlen b → UDP_HLEN <= len b →
  iphdr = payload b - hlen → (∀ i, o = Some i → is_Some (upcb (us s) !! i)) → hlen <= 60 →
  ∃ s', udp_deliver linkoutput ip_frag udp_callback o p iphdr hlen src cs cd bc s = Some s' ∧ stack_ok (disown p E) s'.
Proof.
  intros K He L Hl -> Ho Hh. destruct (loose_len _ _ _ _ _ L) as [Ht Hlm]. pose proof (lo_pbuf _ _ _ _ _ L) as Hb. pose proof (lo_size _ _ _ _ _ L) as Hs.
  unfold udp_deliver. rewrite (payload_of_eq _ _ b Hb), some_bind, Hb. destruct (lo_packet _ _ _ _ _ L) as (l & P & _).
  destruct (segments_of_ok _ p l m P) as [segs ->]. rewrite some_bind, some_bind. case_match; [by apply free_packet_ok|].
  unfold UDP_HLEN in *. rewrite (loose_header _ p m hlen b (Z.opp 8) L), some_bind, (assert_true (0 =? 0)), some_bind by (try lia; done). cbv zeta.
  pose proof (stack_moved E s p b (Z.opp 8) K Hb) as K1. pose proof (loose_moved _ p m hlen b (Z.opp 8) L ltac:(lia) ltac:(lia)) as L1.
  destruct o as [i|].
  - destruct (Ho i eq_refl) as [u Hu]. change (us (set_hp _ s)) with (us s). rewrite Hu, some_bind. destruct (recv u) as [f|].
    + by apply (cb_udp CB f i p cs src E).
    + by apply free_packet_ok.
  - destruct (negb bc && _); [|by apply free_packet_ok]. change (hp (set_hp ?x s)) with x.
    rewrite (loose_header _ p _ _ _ (hlen + 8) L1), some_bind by (unfold moved; simpl; lia).
    rewrite (payload_of_eq _ _ _ (set_pbuf_lookup _ _ _)), some_bind. rewrite (assert_true (_ =? _)), some_bind by (unfold moved; simpl; lia).
    apply (unreach_free_ok E _ _ p (moved (hlen + 8) (moved (Z.opp 8) b))); try done; [|apply set_pbuf_lookup].
    apply (lower_moved _ _ _ p (moved (Z.opp 8) b)); [apply K1|apply (lo_pbuf _ _ _ _ _ L1)].
Qed.

Lemma hlen_range h a : 0 <= IPH_HL (peek h a 1) * 4 <= 60.
Proof. unfold IPH_HL. change 15 with (Z.ones 4). rewrite Z.land_ones by lia. pose proof (Z.mod_pos_bound (nth 0 (peek h a 1) 0) (2 ^ 4)). lia. Qed.

(** The first pbuf holds what the headers can take. *)
Definition headers_first m b : Prop := Z.min m (60 + UDP_HLEN) <= len b.

Lemma udp_input_ok E s p i n m b cs cd : stack_ok E s → E p ≠ 0%nat → loose (hp s) p m 0 b → headers_first m b → netifs (low s) !! i = Some n →
  ∃ s', udp_input linkoutput ip_frag udp_callback p i cs cd s = Some s' ∧ stack_ok (disown p E) s'.
Proof.
  intros K He L Hf Hi. destruct (loose_len _ _ _ _ _ L) as [Ht Hlm]. pose proof (lo_pbuf _ _ _ _ _ L) as Hb. pose proof (lo_size _ _ _ _ _ L) as Hs.
  unfold udp_input. rewrite Hi, some_bind, Hb, some_bind. cbv zeta. pose proof (hlen_range (hp s) (payload b)) as Hh.
  generalize dependent (IPH_HL (peek (hp s) (payload b) 1) * 4). intros hlen Hh. unfold headers_first, UDP_HLEN in *.
  destruct (Z.ltb_spec (tot_len b) (hlen + 8)).
  { rewrite some_bind. change (negb (1 =? 0)) with true. cbv iota. apply free_packet_ok; [|done]. apply stack_hp; [done|apply K]. }
  rewrite (loose_header _ p m 0 b (- hlen) L), some_bind by lia. change (negb (0 =? 0)) with false. cbv iota.
  pose proof (stack_moved E s p b (- hlen) K Hb) as K1. pose proof (loose_moved _ p m 0 b (- hlen) L ltac:(lia) ltac:(lia)) as L1.
  replace (0 - - hlen) with hlen in L1 by lia. change (us (set_hp ?x s)) with (us s). change (low (set_hp ?x s)) with (low s).
  generalize dependent (set_pbuf p (moved (- hlen) b) (hp s)). intros h1 K1 L1.
  rewrite (payload_of_eq _ _ _ (lo_pbuf _ _ _ _ _ L1)), some_bind.
  destruct (udp_demux_keeps (lwip_ntohs (le_num (peek h1 (payload (moved (- hlen) b)) 2))) (lwip_ntohs (le_num (peek h1 (payload (moved (- hlen) b) + 2) 2)))
    cs cd (ip_addr_isbroadcast cd n) n (us s) (so_udp _ _ K)) as (U' & E1 & KU & _ & Em). rewrite E1, some_bind.
  pose proof (stack_us E _ U' K1 KU) as K2. case_match; [|by apply free_packet_ok].
  apply (udp_deliver_ok E (set_us U' (set_hp h1 s)) p _ hlen _ _ cs cd _ (m + - hlen) (moved (- hlen) b)); try done.
  - unfold moved, UDP_HLEN. simpl. lia.
  - unfold moved. simpl. lia.
  - intros j Hj%receiver_in. cbn. rewrite Em. apply Hj.
  - lia.
Qed.

(** ** ip.c *)
Lemma stack_net E s i : stack_ok E s → i ∈ netif_list (low s) → is_Some (netifs (low s) !! i).
Proof. intros K. apply (no_list _ (lo_net _ _ _ (so_low _ _ K))). Qed.

Lemma ip_dispatch_ok E s p i n m b cs cd : stack_ok E s → E p ≠ 0%nat → loose (hp s) p m 0 b → headers_first m b →
  netifs (low s) !! i = Some n → fits_mtu m n →
  ∃ s', ip_dispatch linkoutput ip_frag udp_callback tcp_input p i (payload b) cs cd s = Some s' ∧ stack_ok (disown p E) s'.
Proof.
  intros K He L Hf Hi Hm. unfold ip_dispatch. cbv zeta. destruct (_ =? IP_PROTO_UDP); [by eapply udp_input_ok|].
  destruct (_ =? IP_PROTO_TCP); [by eapply (cb_tcp CB)|]. destruct (_ =? IP_PROTO_ICMP).
  - destruct (icmp_input_ok linkoutput ip_frag (with_apps (ts s) E) (low s) (hp s) p i n m b cs cd (so_low _ _ K) (with_apps_held _ _ _ He) L Hi Hm)
      as (w & h & E1 & K1 & _). rewrite E1, some_bind. eexists. split; [done|]. eapply stack_low; [exact K|by apply with_apps_disown].
  - rewrite Hi, some_bind. destruct (negb (ip_addr_isbroadcast cd n) && _); [|rewrite some_bind; by apply free_packet_ok].
    pose proof (lo_pbuf _ _ _ _ _ L) as Hb. rewrite (upd_set p _ b (hp s) Hb), some_bind.
    assert (set_pbuf p (set_payload (payload b) b) (hp s) = hp s) as ->.
    { replace (set_payload (payload b) b) with b by (by destruct b). by apply set_pbuf_id. }
    unfold icmp_dest_unreach. destruct (icmp_send_response_ok linkoutput ip_frag _ _ _ p b ICMP_DUR ICMP_DUR_PROTO (so_low _ _ K) Hb) as (w & h' & E1 & K1 & _).
    rewrite E1, !some_bind. apply free_packet_ok; [by eapply stack_low|done].
Qed.

Lemma ip_deliver_ok fuel E s p i n m b cs cd : stack_ok E s → E p ≠ 0%nat → loose (hp s) p m 0 b → headers_first m b →
  netifs (low s) !! i = Some n → fits_mtu m n → (length (raw_pcbs (rs s)) ≤ fuel)%nat →
  ∃ s', ip_deliver linkoutput ip_frag udp_callback raw_callback tcp_input fuel p i cs cd s = Some s' ∧ stack_ok (disown p E) s'.
Proof.
  intros K He L Hf Hi Hm Hr. unfold ip_deliver. rewrite (payload_of_eq _ _ _ (lo_pbuf _ _ _ _ _ L)), some_bind.
  destruct (raw_input_ok fuel p cs cd b m E s K He L Hr) as (s1 & eaten & E1 & K1). rewrite E1, some_bind.
  destruct eaten; [by exists s1|]. destruct K1 as (K1 & L1 & (N1 & _)). apply (ip_dispatch_ok E s1 p i n m b); try done. by rewrite N1.
Qed.

Lemma match_loop_ok inp dest w : ∀ l, (∀ i, i ∈ l → is_Some (netifs w !! i)) → is_Some (match_loop inp dest l w).
Proof.
  induction l as [|i l IH]; intros Hl; cbn [match_loop]; [by eexists|]. destruct (i =? inp); [apply IH; intros j Hj; apply Hl; by right|].
  destruct (Hl i) as [n Hn]; [by left|]. rewrite Hn, some_bind. case_match; [by eexists|]. apply IH. intros j Hj. apply Hl. by right.
Qed.

Lemma ip_match_ok inp dest w : net_ok w → is_Some (netifs w !! inp) → is_Some (ip_match inp dest w).
Proof.
  intros N [n Hn]. unfold ip_match. rewrite Hn, some_bind. case_match; [by eexists|]. apply match_loop_ok. intros i Hi. by apply (no_list _ N).
Qed.

(** Trimming a packet of one owner. *)
Lemma loose_realloc h p m m' b E w : lower_ok E w h → loose h p m 0 b → 0 <= m' <= m →
  ∃ h' b', pbuf_realloc p m' h = Some h' ∧ lower_ok E w h' ∧ loose h' p m' 0 b' ∧ payload b' = payload b ∧ len b' = Z.min (len b) m' ∧ mem h' = mem h.
Proof.
  intros K L Hm. pose proof (lo_size _ _ _ _ _ L) as Hs. destruct (lo_packet _ _ _ _ _ L) as (l & P & Pl). unfold PBUF_IP_HLEN, PBUF_LINK_HLEN in Hs.
  destruct (pbuf_realloc_ok h p l m m' _ (lower_heap_ok _ _ _ K) P Pl Hm) as (h' & l' & E1 & K1 & P1 & Pl1 & Em & _ & Hb); [lia|].
  destruct (Hb b (lo_pbuf _ _ _ _ _ L)) as (b' & Hb' & Ep & Ety & _ & Er & El). exists h', b'. split_and!; try done.
  - by eapply lower_heap.
  - constructor; [done|by exists l'| | |rewrite Ep; apply L|unfold PBUF_IP_HLEN, PBUF_LINK_HLEN; lia].
    + rewrite Er. apply L.
    + unfold in_ram. rewrite Ety. apply L.
Qed.

Lemma ntohs_nonneg x : 0 <= lwip_ntohs x.
Proof. unfold lwip_ntohs, lwip_htons, u16. by apply Z.mod_pos_bound. Qed.

(** A fragment has one of these bits. *)
Definition is_fragment h a : bool := negb (Z.land (le_num (peek h (a + 6) 2)) (PP_HTONS (Z.lor IP_OFFMASK IP_MF)) =? 0).

Lemma ip_input_ok fuel E s p i n m b : stack_ok E s → E p ≠ 0%nat → loose (hp s) p m 0 b → headers_first m b →
  netifs (low s) !! i = Some n → fits_mtu m n → (length (raw_pcbs (rs s)) ≤ fuel)%nat → is_fragment (hp s) (payload b) = false →
  ∃ s', ip_input linkoutput ip_frag udp_callback raw_callback tcp_input fuel p i s = Some s' ∧ stack_ok (disown p E) s'.
Proof.
  intros K He L Hf Hi Hm Hr Hfr. destruct (loose_len _ _ _ _ _ L) as [Ht Hl]. unfold ip_input. rewrite (lo_pbuf _ _ _ _ _ L), some_bind. cbv zeta.
  case_match; [by apply free_packet_ok|]. destruct (Z.ltb_spec (len b) (IPH_HL (peek (hp s) (payload b) 1) * 4)); [by apply free_packet_ok|].
  cbn [orb]. destruct (Z.ltb_spec (tot_len b) (lwip_ntohs (le_num (peek (hp s) (payload b + 2) 2)))); [by apply free_packet_ok|].
  case_match; [by apply free_packet_ok|]. pose proof (ntohs_nonneg (le_num (peek (hp s) (payload b + 2) 2))) as Hn0.
  generalize dependent (lwip_ntohs (le_num (peek (hp s) (payload b + 2) 2))). intros m' Hm' Hn0.
  destruct (loose_realloc _ p m m' b _ _ (so_low _ _ K) L) as (h1 & b1 & E1 & K1 & L1 & Ep & El & Em); [lia|]. rewrite E1, some_bind.
  change (low (set_hp h1 s)) with (low s). pose proof (stack_hp E s h1 K K1) as K2.
  destruct (ip_match_ok i (le_num (peek h1 (payload b + 16) 4)) (low s) (lo_net _ _ _ (so_low _ _ K))) as [found E2]; [by eexists|].
  rewrite E2, some_bind, Hi, some_bind. case_match; [by apply free_packet_ok|]. destruct found as [j|]; [|by apply free_packet_ok].
  unfold ip_receive. change (hp (set_hp h1 s)) with h1. rewrite (payload_of_eq _ _ _ (lo_pbuf _ _ _ _ _ L1)), some_bind.
  assert (negb (Z.land (le_num (peek h1 (payload b1 + 6) 2)) (PP_HTONS (Z.lor IP_OFFMASK IP_MF)) =? 0) = false) as ->.
  { rewrite <- Hfr, Ep. unfold is_fragment, peek. by rewrite Em. }
  apply (ip_deliver_ok fuel E (set_hp h1 s) p i n m' b1); try done.
  - unfold headers_first in *. lia.
  - destruct Hm as [?|?]; [by left|right; lia].
Qed.
End whole.
