(* ===== verification/SendOwn.v ===== *)
(** * Sending with UDP and raw IP: the packet stays the caller's

    A header goes into the packet or into a pbuf of its own in front of it; that
    pbuf is freed again, on every path. *)
From S2P Require Import Prelude LwipDef Chksum Memp Pbuf PbufRef PbufOwn PbufData PbufMove IpAddr.
From S2P Require Import Etharp EtharpOk EtharpOut IpReass Ip Icmp IpOwn IcmpOwn.
From S2P Require Import Stack Raw Udp UdpOk StackOk.
Local Open Scope Z_scope.

Section own.
Context {A T : Type} `{HL : ArenaLaws A}.
Context (linkoutput : netif → Z → heap A → Z).
Context (ip_frag : Z → Z → Z → lower * heap A → option (lower * heap A * Z)).
Context (app_refs : T → Z → nat).
Implicit Types (h : heap A) (w : lower) (p q : Z) (E : Z → nat) (b : pbuf) (n : netif) (s : stack A T).

(** ** One pbuf in front of a packet *)
Lemma pbuf_chain_front h q bq p b l m E : heap_ok h (inc p E) → packet h (Some q) [q] (len bq) 0 → pbufs h !! q = Some bq → is_custom (flags bq) = false →
  packet h (Some p) l m 0 → plain h l → 0 < m → len bq + m < 65536 → pbufs h !! p = Some b → ref b = 1 → q ∉ l →
  ∃ h' bq', pbuf_chain (Some q) (Some p) h = Some h' ∧ heap_ok h' (inc p E) ∧ packet h' (Some q) (q :: l) (len bq + m) 0 ∧ plain h' (q :: l) ∧
    pbufs h' !! q = Some bq' ∧ payload bq' = payload bq ∧ len bq' = len bq ∧ type bq' = type bq ∧ ref bq' = ref bq.
Proof.
  intros K Pq Hq Hfl P Pl Hm Hlt Hb Hr Hql. destruct (pbuf_chain_ok h q p [q] l (len bq) m b E K Pq P) as (h' & E1 & K1 & P1 & _); try done; [set_solver|lia|].
  assert (Hqp : q ≠ p). { destruct (packet_first _ _ _ _ P) as (b0 & l' & -> & _). set_solver. }
  destruct Pq as (_ & bq0 & Hq0 & Htq & Hlq & Hnq & _). assert (bq0 = bq) as -> by congruence.
  destruct (packet_first _ _ _ _ P) as (b0 & l' & El & Hb0 & Ht & Hl). assert (b0 = b) as -> by congruence.
  set (bq' := set_next (Some p) (set_tot_len (len bq + m) bq)).
  assert (pbuf_chain (Some q) (Some p) h = Some (set_pbuf p (set_ref 2 b) (set_pbuf q bq' h))) as E2.
  { unfold pbuf_chain, pbuf_cat. assert (∀ k, cat_loop k q p h = Some (h, q)) as -> by (intros [|k]; cbn [cat_loop]; by rewrite Hq, some_bind, Hnq).
    rewrite some_bind, Hq, some_bind, Htq, (assert_true (_ =? _)), some_bind by (apply Z.eqb_refl). rewrite Hb, some_bind.
    rewrite (upd_set q _ bq h Hq), some_bind. rewrite (upd_set q _ _ _ (set_pbuf_lookup _ _ _)), set_pbuf_twice, some_bind, Ht, u16_id by (unfold is_u16; lia).
    fold bq'. cbn [pbuf_ref]. rewrite set_pbuf_other, Hb, some_bind by congruence. erewrite upd_set by (rewrite set_pbuf_other; [exact Hb|congruence]).
    by rewrite Hr. }
  rewrite E2 in E1. injection E1 as <-. exists (set_pbuf p (set_ref 2 b) (set_pbuf q bq' h)), bq'. split; [exact E2|]. split_and!; try done.
  - intros a ba [->|Ha]%elem_of_cons Hba.
    + rewrite set_pbuf_other, set_pbuf_lookup in Hba by done. injection Hba as <-. split; [done|]. simpl. lia.
    + destruct (decide (a = p)) as [->|Hap].
      * rewrite set_pbuf_lookup in Hba. injection Hba as <-. by apply (Pl p b).
      * rewrite !set_pbuf_other in Hba by (congruence || set_solver). by apply (Pl a).
  - by rewrite set_pbuf_other, set_pbuf_lookup.
Qed.

(** What a caller hands over to be sent: a packet of one owner of its own. *)
Record sending h p (m : Z) b : Prop := {
  sd_pbuf : pbufs h !! p = Some b;
  sd_packet : ∃ l, packet h (Some p) l m 0 ∧ plain h l;
  sd_ref : ref b = 1 }.

Lemma pbuf_header_grow h p b inc : pbufs h !! p = Some b → 0 <= len b <= tot_len b → 0 < inc < 32768 → tot_len b + inc < 65536 →
  pbuf_header p inc h = Some (set_pbuf p (moved inc b) h, 0) ∧ in_ram b ∧ p + SIZEOF_STRUCT_PBUF <= payload b - inc ∨ pbuf_header p inc h = Some (h, 1).
Proof.
  intros Hb Hl Hi Ht. destruct (Z.leb_spec (p + SIZEOF_STRUCT_PBUF) (payload b - inc)) as [Hr|Hr].
  - destruct (type b) eqn:Ety; [left; split; [apply pbuf_header_fits; try done; try lia; unfold in_ram; auto|unfold in_ram; auto]| | |left; split; [apply pbuf_header_fits; try done; try lia; unfold in_ram; auto|unfold in_ram; auto]].
    all: right; unfold pbuf_header; rewrite Hb, some_bind, Ety, (proj2 (Z.eqb_neq inc 0)), (proj2 (Z.ltb_ge inc 0)) by lia; done.
  - right. unfold pbuf_header. rewrite Hb, some_bind, (proj2 (Z.eqb_neq inc 0)), (proj2 (Z.ltb_ge inc 0)), (proj2 (Z.ltb_lt _ _) Hr) by lia. by destruct (type b).
Qed.

(** The references while [q] is sent for [p]. *)
Definition for_sending p q E : Z → nat := if decide (q = p) then E else inc q E.

(** A buffer that is ready to be sent, [k] octets longer than the packet. *)
Definition ready E w p m h (r : option Z) : Prop :=
  match r with
  | None => lower_ok E w h
  | Some q => ∃ bq, lower_ok (for_sending p q E) w h ∧ outgoing h q m ∧ pbufs h !! q = Some bq ∧ ref bq = 1
  end.

(** The new pbuf in front: [k] octets and the packet, unless it is empty. *)
Lemma front_ok E w h p b m (k : Z) : lower_ok E w h → E p ≠ 0%nat → sending h p m b → 0 <= k → m + k + PBUF_LINK_HLEN < 65536 →
  ∃ h1 r, pbuf_alloc PBUF_IP k PBUF_RAM h = Some (h1, r) ∧
    match r with
    | None => h1 = h
    | Some q => ∃ h2 bq, (h ← (if negb (tot_len b =? 0) then pbuf_chain (Some q) (Some p) h1 else Some h1); Some (h, Some q)) = Some (h2, Some q) ∧
        pbufs h1 !! p = Some b ∧ lower_ok (for_sending p q E) w h2 ∧ outgoing h2 q (m + k) ∧ pbufs h2 !! q = Some bq ∧ ref bq = 1 ∧ len bq = k
    end.
Proof.
  intros K He [Hb (l & P & Pl) Hr] Hk Hm. destruct (packet_first _ _ _ _ P) as (b0 & l' & El & Hb0 & Ht & Hl). assert (b0 = b) as -> by congruence.
  unfold PBUF_LINK_HLEN in Hm. destruct (lower_alloc E w h PBUF_IP k K) as (h1 & r & E1 & R); [lia|]. exists h1, r. split; [exact E1|].
  destruct r as [q|]; [|done]. destruct R as (K1 & Hno & Hoth & bq & Hq & _ & Hrq & Hty & Hlq & Htq & Hn & Pq & Plq).
  assert (Hx : ∀ a, a ∈ l → a ≠ q) by (intros a Ha ->; destruct (chain_of_in _ _ _ _ (packet_chain _ _ _ _ _ P) Ha); congruence).
  assert (Hqp : q ≠ p) by congruence. assert (Hb1 : pbufs h1 !! p = Some b) by (rewrite Hoth; congruence).
  assert (Hf : for_sending p q E = inc q E) by (unfold for_sending; by rewrite decide_False). rewrite Hf.
  destruct (Z.eqb_spec (tot_len b) 0) as [Hz|Hz]; cbn [negb].
  - exists h1, bq. rewrite some_bind. split_and!; try done. constructor.
    + exists [q]. split; [|done]. by replace (m + k) with k by lia.
    + unfold PBUF_LINK_HLEN. lia.
    + intros b' Hb'. assert (b' = bq) as -> by congruence. by rewrite Hty.
  - assert (P1 : packet h1 (Some p) l m 0) by (eapply packet_frame; [|exact P]; intros a Ha; by apply Hoth, Hx).
    assert (Pl1 : plain h1 l) by (eapply plain_frame; [|exact Pl]; intros a Ha; by apply Hoth, Hx).
    assert (Kc : heap_ok h1 (inc p (disown p (with_queue (l_table w) (inc q E))))).
    { eapply heap_ok_ext; [|exact (lower_heap_ok _ _ _ K1)]. intros x. unfold inc, with_queue, disown. repeat case_decide; subst; lia. }
    destruct (pbuf_chain_front h1 q bq p b l m _ Kc) as (h2 & bq2 & E2 & K2 & P2 & Pl2 & Hq2 & _ & Hl2 & Hty2 & Hr2); try done; try lia.
    { by rewrite Hlq. }
    { by destruct (Plq q bq ltac:(by left) Hq). }
    { intros Hql. by apply (Hx q Hql). }
    exists h2, bq2. rewrite E2, some_bind. split_and!; try done; try congruence.
    + eapply lower_heap; [exact K1|]. eapply heap_ok_ext; [|exact K2]. intros x. unfold inc, with_queue, disown. repeat case_decide; subst; lia.
    + constructor; [exists (q :: l); split; [|done]; by replace (m + k) with (len bq + m) by lia|unfold PBUF_LINK_HLEN; lia|].
      intros b' Hb'. assert (b' = bq2) as -> by congruence. by rewrite Hty2, Hty.
Qed.

Lemma sending_outgoing h p m b : sending h p m b → type b ≠ PBUF_ROM → m + PBUF_LINK_HLEN < 65536 → outgoing h p m.
Proof. intros [Hb Hp Hr] Hty Hm. constructor; [done|done|]. intros b' Hb'. by assert (b' = b) as -> by congruence. Qed.

Lemma udp_header_buffer_ok E w h p b m : lower_ok E w h → E p ≠ 0%nat → sending h p m b → m + UDP_HLEN + PBUF_LINK_HLEN < 65536 →
  ∃ h' r, udp_header_buffer p h = Some (h', r) ∧ ready E w p (m + UDP_HLEN) h' r ∧ ∀ q bq, r = Some q → pbufs h' !! q = Some bq → UDP_HLEN <= len bq.
Proof.
  intros K He Sd Hm. pose proof Sd as [Hb (l & P & Pl) Hr]. destruct (packet_first _ _ _ _ P) as (b0 & l' & El & Hb0 & Ht & Hl). assert (b0 = b) as -> by congruence.
  unfold udp_header_buffer, UDP_HLEN, PBUF_LINK_HLEN in *.
  destruct (pbuf_header_grow h p b 8 Hb) as [(E1 & Hty & _)|E1]; try lia.
  - rewrite E1, some_bind. change (negb (0 =? 0)) with false. cbv iota. eexists _, _. split; [done|]. split.
    + exists (moved 8 b). unfold for_sending. rewrite decide_True by done. split_and!; [by apply lower_moved| |apply set_pbuf_lookup|done].
      apply outgoing_moved; [eapply sending_outgoing; [done|by destruct Hty as [-> | ->]|unfold PBUF_LINK_HLEN; lia]|done|lia|unfold PBUF_LINK_HLEN; lia].
    + intros q bq [= <-]. rewrite set_pbuf_lookup. intros [= <-]. unfold moved. simpl. lia.
  - rewrite E1, some_bind. change (negb (1 =? 0)) with true. cbv iota.
    destruct (front_ok E w h p b m 8 K He Sd) as (h1 & r & E2 & R); [lia|unfold PBUF_LINK_HLEN; lia|]. rewrite E2, some_bind.
    destruct r as [q|]; [|subst h1; exists h, None; by split_and!]. destruct R as (h2 & bq & E3 & Hb1 & K2 & O2 & Hq & Hrq & Hlq).
    rewrite Hb1, some_bind, E3. exists h2, (Some q). split_and!; [done|exists bq; by split_and!|]. intros q' bq' [= <-] Hq'. assert (bq' = bq) as -> by congruence. lia.
Qed.

Lemma raw_header_buffer_ok E w h p b m : lower_ok E w h → E p ≠ 0%nat → sending h p m b → m + IP_HLEN + PBUF_LINK_HLEN < 65536 →
  ∃ h' r, raw_header_buffer p h = Some (h', r) ∧ ready E w p m h' r.
Proof.
  intros K He Sd Hm. pose proof Sd as [Hb (l & P & Pl) Hr]. destruct (packet_first _ _ _ _ P) as (b0 & l' & El & Hb0 & Ht & Hl). assert (b0 = b) as -> by congruence.
  unfold raw_header_buffer, IP_HLEN, PBUF_LINK_HLEN in *. rewrite <- (Z.add_0_r m).
  destruct (pbuf_header_grow h p b 20 Hb) as [(E1 & Hty & Hro)|E1]; try lia.
  - rewrite E1, some_bind. change (negb (0 =? 0)) with false. cbv iota. rewrite (pbuf_header_fits _ p (moved 20 b) (Z.opp 20)); try (unfold moved; simpl; lia).
    3: exact Hty. 2: apply set_pbuf_lookup.
    rewrite moved_moved, set_pbuf_twice, moved_0, set_pbuf_id, some_bind, (assert_true (0 =? 0)), some_bind by done. eexists _, _. split; [done|].
    exists b. unfold for_sending. rewrite decide_True by done. split_and!; try done. rewrite Z.add_0_r. eapply sending_outgoing; [done| |unfold PBUF_LINK_HLEN; lia].
    by destruct Hty as [-> | ->].
  - rewrite E1, some_bind. change (negb (1 =? 0)) with true. cbv iota.
    destruct (front_ok E w h p b m 0 K He Sd) as (h1 & r & E2 & R); [lia|unfold PBUF_LINK_HLEN; lia|]. rewrite E2, some_bind.
    destruct r as [q|]; [|subst h1; by exists h, None]. destruct R as (h2 & bq & E3 & Hb1 & K2 & O2 & Hq & Hrq & Hlq).
    rewrite Hb1, some_bind, E3. exists h2, (Some q). split; [done|]. exists bq. by split_and!.
Qed.

(** ** [udp_sendto_if] *)
Lemma for_sending_held p q E : E p ≠ 0%nat → for_sending p q E q ≠ 0%nat.
Proof. intros He. unfold for_sending, inc. case_decide; [by subst|]. rewrite decide_True by done. lia. Qed.

Lemma free_header_ok E w h p q : lower_ok (for_sending p q E) w h → ∃ h', free_header q p h = Some h' ∧ lower_ok E w h'.
Proof.
  unfold for_sending, free_header. intros K. destruct (Z.eqb_spec q p) as [->|Hne]; cbn [negb].
  - rewrite decide_True in K by done. by exists h.
  - rewrite decide_False in K by done. destruct (lower_own E w h q K) as (h' & k & E1 & K1). rewrite E1, some_bind. by exists h'.
Qed.

Lemma write_udp_ports_same a src dest h : same_pbufs h (write_udp_ports a src dest h).
Proof. done. Qed.

Lemma write_udp_chksum_ok u q a src dst h m : outgoing h q m → ∃ h', write_udp_chksum u q a src dst h = Some h' ∧ same_pbufs h h'.
Proof.
  intros [(l & P & Pl) _ _]. destruct (packet_first _ _ _ _ P) as (b & l' & _ & Hb & _). unfold write_udp_chksum. rewrite Hb, some_bind. cbv zeta.
  case_match; [|eexists; split; [done|apply poke_same]]. destruct (segments_of_ok (poke (a + 4) [lwip_htons (tot_len b) mod 256; lwip_htons (tot_len b) / 256] h) q l m) as [segs ->];
    [eapply (same_pbufs_packet h); [apply poke_same|exact P]|]. rewrite some_bind. eexists. split; [done|]. eapply same_pbufs_trans; apply poke_same.
Qed.

Lemma bind_first_ok E s pcb u : stack_ok app_refs E s → upcb (us s) !! pcb = Some u → Z.of_nat (length (udp_pcbs (us s))) < UDP_PORTS →
  ∃ U e, (if local_port u =? 0 then udp_bind pcb (local_ip u) (local_port u) (us s) else Some (us s, ERR_OK)) = Some (U, e) ∧ udp_ok U ∧ is_Some (upcb U !! pcb).
Proof.
  intros K Hu Hf. destruct (Z.eqb_spec (local_port u) 0) as [Hz|Hz]; [|exists (us s), ERR_OK; split_and!; [done|apply K|by eexists]].
  destruct (udp_bind_ok (us s) pcb (local_ip u) (local_port u) u (so_udp _ _ _ K) Hu) as [(p' & nx & E1 & K1 & _)|[E1 _]]; [unfold is_u16; lia|done| |].
  - eexists _, _. split_and!; [exact E1|done|]. cbn. rewrite lookup_alter_eq, Hu. by eexists.
  - eexists _, _. split_and!; [exact E1|apply K|by eexists].
Qed.

Lemma udp_sendto_if_ok E s pcb u p b m dst port i n : stack_ok app_refs E s → upcb (us s) !! pcb = Some u →
  Z.of_nat (length (udp_pcbs (us s))) < UDP_PORTS → with_apps app_refs (ts s) E p ≠ 0%nat → sending (hp s) p m b → netifs (low s) !! i = Some n →
  m + UDP_HLEN + IP_HLEN + PBUF_LINK_HLEN < 65536 → fits_mtu (m + UDP_HLEN + IP_HLEN) n →
  ∃ s' e, udp_sendto_if linkoutput ip_frag pcb p dst port i s = Some (s', e) ∧ stack_ok app_refs E s' ∧ rs s' = rs s ∧ ts s' = ts s.
Proof.
  intros K Hu Hf He Sd Hi Hm Hmtu. unfold udp_sendto_if. rewrite Hu, some_bind. destruct (bind_first_ok E s pcb u K Hu Hf) as (U & e & E1 & KU & [v Hv]).
  rewrite E1, some_bind. pose proof (stack_us app_refs E s U K KU) as K1. cbv zeta. destruct (negb (e =? ERR_OK)); [eexists _, _; by split_and!|].
  change (hp (set_us U s)) with (hp s). destruct (udp_header_buffer_ok _ (low s) (hp s) p b m (so_low _ _ _ K) He Sd) as (h2 & r & E2 & R & Hl2); [unfold IP_HLEN in *; lia|].
  rewrite E2, some_bind. destruct r as [q|]; [|eexists _, _; split; [done|]; split; [by apply (stack_hp app_refs E (set_us U s))|done]].
  destruct R as (bq & K2 & O2 & Hq & Hrq). rewrite Hq, some_bind, (assert_true (_ <=? _)), some_bind by (specialize (Hl2 q bq eq_refl Hq); lia).
  change (us (set_us U s)) with U. rewrite Hv, some_bind. change (low (set_us U s)) with (low s). rewrite Hi, some_bind.
  pose proof (write_udp_ports_same (payload bq) (local_port v) port h2) as S. generalize dependent (write_udp_ports (payload bq) (local_port v) port h2). intros h3 S.
  pose proof (lower_same _ _ _ _ S K2) as K3. destruct (negb (ip_addr_isany (local_ip v)) && _).
  - destruct (free_header_ok _ _ _ _ _ K3) as (h4 & E4 & K4). rewrite E4, some_bind. eexists _, _. split; [done|]. split; [by apply (stack_hp app_refs E (set_us U s))|done].
  - destruct (write_udp_chksum_ok v q (payload bq) (if ip_addr_isany (local_ip v) then ip_addr n else local_ip v) dst h3 (m + UDP_HLEN)) as (h4 & E4 & S4);
      [by eapply outgoing_same|]. rewrite E4, some_bind.
    destruct (ip_output_if_ok linkoutput ip_frag (for_sending p q (with_apps app_refs (ts s) E)) (low s) h4 i n q bq (m + UDP_HLEN)
      (if ip_addr_isany (local_ip v) then ip_addr n else local_ip v) dst (uttl v) (utos v) IP_PROTO_UDP) as (w5 & h5 & e5 & E5 & K5 & N5); try done.
    + by eapply lower_same.
    + by apply for_sending_held.
    + eapply outgoing_same; [exact S4|]. by eapply outgoing_same.
    + destruct S4 as [-> _]. by destruct S as [-> _].
    + rewrite E5, some_bind. destruct (free_header_ok _ _ _ _ _ K5) as (h6 & E6 & K6). rewrite E6, some_bind. eexists _, _. split; [done|].
      split; [by apply (stack_low app_refs E E (set_us U s))|done].
Qed.

(** ** [raw_sendto] *)
Lemma free_packet_header p q w h s : (if negb (q =? p) then free_packet q (set_low (w, h) s) else Some (set_low (w, h) s)) =
  (h ← free_header q p h; Some (set_low (w, h) s)).
Proof.
  unfold free_packet, free_header. destruct (negb (q =? p)); [|done]. change (hp (set_low (w, h) s)) with h. by destruct (pbuf_free (Some q) h) as [[h' k]|].
Qed.

Lemma raw_sendto_ok E s pcb r p b m dst : stack_ok app_refs E s → rpcb (rs s) !! pcb = Some r → with_apps app_refs (ts s) E p ≠ 0%nat →
  sending (hp s) p m b → m + IP_HLEN + PBUF_LINK_HLEN < 65536 → (∀ i n, netifs (low s) !! i = Some n → fits_mtu (m + IP_HLEN) n) →
  ∃ s' e, raw_sendto linkoutput ip_frag pcb p dst s = Some (s', e) ∧ stack_ok app_refs E s' ∧ us s' = us s ∧ rs s' = rs s ∧ ts s' = ts s.
Proof.
  intros K Hr He Sd Hm Hmtu. unfold raw_sendto. destruct (raw_header_buffer_ok _ (low s) (hp s) p b m (so_low _ _ _ K) He Sd Hm) as (h2 & o & E2 & R).
  rewrite E2, some_bind. cbv zeta. destruct o as [q|]; [|eexists _, _; split; [done|]; split; [by apply stack_hp|done]].
  destruct R as (bq & K2 & O2 & Hq & Hrq).
  assert (Free : ∀ w h, lower_ok (for_sending p q (with_apps app_refs (ts s) E)) w h →
    ∃ s', (if negb (q =? p) then free_packet q (set_low (w, h) s) else Some (set_low (w, h) s)) = Some s' ∧ stack_ok app_refs E s' ∧ us s' = us s ∧ rs s' = rs s ∧ ts s' = ts s).
  { intros w h Kw. destruct (free_header_ok _ _ _ _ _ Kw) as (h' & E3 & K3). rewrite free_packet_header, E3, some_bind. eexists. split; [done|].
    split; [by apply (stack_low app_refs E E s)|done]. }
  destruct (ip_route_ok dst (low s) (lo_net _ _ _ (so_low _ _ _ K))) as (found & E3 & Rt). change (low (set_hp h2 s)) with (low s). rewrite E3, some_bind.
  destruct found as [i|].
  - destruct (Rt i eq_refl) as [n Hn]. rewrite Hn, some_bind. change (rs (set_hp h2 s)) with (rs s). rewrite Hr, some_bind.
    destruct (ip_output_if_ok linkoutput ip_frag (for_sending p q (with_apps app_refs (ts s) E)) (low s) h2 i n q bq m
      (if ip_addr_isany (r_local_ip r) then ip_addr n else r_local_ip r) dst (r_ttl r) (r_tos r) (r_protocol r)) as (w5 & h5 & e5 & E5 & K5 & N5); try done.
    + by apply for_sending_held.
    + by apply (Hmtu i).
    + change (hp (set_hp h2 s)) with h2. rewrite E5, some_bind. destruct (Free w5 h5 K5) as (s' & E6 & K6).
      change (set_low (w5, h5) (set_hp h2 s)) with (set_low (w5, h5) s). rewrite E6, some_bind. by exists s', e5.
  - destruct (Free (low s) h2 K2) as (s' & E6 & K6). change (set_hp h2 s) with (set_low (low s, h2) s). rewrite E6, some_bind. by exists s', ERR_RTE.
Qed.
End own.
