(* ===== verification/StackMain.v ===== *)
(** * A datagram through the stack: the theorems, and runs

    The runs go from a frame's IP header to the frames sent. *)
From S2P Require Import Prelude LwipDef Chksum Memp Pbuf PbufRef PbufOwn PbufData PbufMove IpAddr.
From S2P Require Import Etharp EtharpOk EtharpOut IpReass Ip Icmp IpOwn IcmpOwn.
From S2P Require Import Stack Raw Udp IpIn UdpOk StackOk SendOwn.
Local Open Scope Z_scope.

(** C12. Whatever octets a datagram holds that is not a fragment, [ip_input]
    returns: no assertion fails on the way through raw IP, UDP, ICMP and the ARP
    cache, no pbuf is used after it was freed, and the reference to the packet
    is given up exactly once, by freeing it or by handing it over; the ARP
    cache, the UDP bindings and the list of raw control blocks stay well formed.
    The conditions: the headers are in the first pbuf ([headers_first]), the
    packet is in RAM, has one reference and fewer than 32768 octets with the
    link header ([loose]), a reply of its length fits the MTU of the interface
    ([fits_mtu], so that nothing has to be fragmented), and the callbacks of the
    application and of TCP keep to [callbacks_ok].  (Fragments are the subject of
    IpReassRun.v, where [fragment_behind_the_last_asserts] shows one that does
    fail an assertion.) *)
Theorem ip_input_safe {A T : Type} `{HL : ArenaLaws A} linkoutput ip_frag (udp_callback : Z * Z → Z → Z → Z → Z → stack A T → option (stack A T))
    raw_callback tcp_input app_refs raw_fuel E (s : stack A T) p i n m b :
  callbacks_ok udp_callback raw_callback tcp_input app_refs →
  stack_ok app_refs E s → E p ≠ 0%nat → loose (hp s) p m 0 b → headers_first m b → netifs (low s) !! i = Some n → fits_mtu m n →
  (length (raw_pcbs (rs s)) ≤ raw_fuel)%nat → is_fragment (hp s) (payload b) = false →
  ∃ s', ip_input linkoutput ip_frag udp_callback raw_callback tcp_input raw_fuel p i s = Some s' ∧ stack_ok app_refs (disown p E) s'.
Proof. intros CB. intros. by eapply ip_input_ok. Qed.

(** C26. For a packet with one reference ([sending]) that fits the MTU of the
    interface with its headers ([fits_mtu], so that it is not fragmented) and
    the 16-bit lengths, [udp_sendto_if] returns on every path, with an error or
    not, and leaves its packet to the caller: the header's pbuf, where it took
    one, is freed, and nothing else is.  A control block without a port gets one
    first. *)
Theorem udp_sendto_safe {A T : Type} `{HL : ArenaLaws A} linkoutput ip_frag app_refs E (s : stack A T) pcb u p b m dst port i n :
  stack_ok app_refs E s → upcb (us s) !! pcb = Some u → Z.of_nat (length (udp_pcbs (us s))) < UDP_PORTS → E p ≠ 0%nat → sending (hp s) p m b →
  netifs (low s) !! i = Some n → m + UDP_HLEN + IP_HLEN + PBUF_LINK_HLEN < 65536 → fits_mtu (m + UDP_HLEN + IP_HLEN) n →
  ∃ s' e, udp_sendto_if linkoutput ip_frag pcb p dst port i s = Some (s', e) ∧ stack_ok app_refs E s' ∧ is_Some (pbufs (hp s') !! p).
Proof.
  intros K Hu Hf He Sd Hi Hm Hmtu.
  destruct (udp_sendto_if_ok linkoutput ip_frag app_refs E s pcb u p b m dst port i n K Hu Hf) as (s' & e & E1 & K1 & _); try done.
  { by apply with_apps_held. }
  exists s', e. split; [exact E1|]. split; [exact K1|]. apply (ok_ext _ _ (lower_heap_ok _ _ _ (so_low _ _ _ K1))). unfold with_queue, with_apps. lia.
Qed.

(** ** One board *)
Definition received (bytes : list Z) : heap bump :=
  MkHeap {[ 4096 := MkPbuf None 4160 (Z.of_nat (length bytes)) (Z.of_nat (length bytes)) PBUF_POOL 0 1 ]}
    (write_mem (λ _, 0) 4160 bytes) (MkBump 8192 {[ 4096 := POOL MEMP_PBUF_POOL ]}) (λ _, 0) false.
Definition eth_up : netif := MkNetif 1 [2; 0; 0; 0; 0; 1] 6 16820416 16777215 33597632 35 1500.
Definition peer : etharp_entry := MkEntry None 33597632 1 [2; 0; 0; 0; 0; 2] ETHARP_STATE_STABLE 0.
Definition board : lower := MkLower (peer :: replicate 9 empty_entry) 0 [] {[ 1 := eth_up ]} [1] (Some 1) 7.
Definition no_udp : udp := MkUdpState 49152 [] ∅.
Definition one_udp (port : Z) : udp := MkUdpState 49152 [64] {[ 64 := MkUdp 0 0 0 255 0 port 0 (Some (1, 2)) ]}.
Definition on_board (bytes : list Z) (U : udp) : stack bump (list Z) := MkStack board (received bytes) U (MkRawState [] ∅) (None, ∅, 0) [].

(** The application notes the control block and frees the packet. *)
Definition noting (f : Z * Z) (pcb p a port : Z) (s : stack bump (list Z)) : option (stack bump (list Z)) :=
  s ← free_packet p s; Some (MkStack (low s) (hp s) (us s) (rs s) (datagrams s) (pcb :: ts s)).
Definition no_raw (f : Z * Z) (pcb p a : Z) (s : stack bump (list Z)) : option (stack bump (list Z) * bool) := Some (s, false).
Definition no_tcp (p i src dest : Z) (s : stack bump (list Z)) : option (stack bump (list Z)) := free_packet p s.
Definition no_frag (p i dest : Z) (s : lower * heap bump) : option (lower * heap bump * Z) := None.

Definition arrives (bytes : list Z) (U : udp) : option (stack bump (list Z)) :=
  ip_input quiet_link no_frag noting no_raw no_tcp 4 4096 1 (on_board bytes U).
(** The frames sent, the pbufs left and the blocks that got a datagram. *)
Definition seen (r : option (stack bump (list Z))) : option (list (list Z) * list Z * list Z) :=
  s ← r; Some ((λ f, f.2) <$> l_sent (low s), (map_to_list (pbufs (hp s))).*1, ts s).

(** An echo request, and the reply: the addresses are swapped, both checksums
    are right. *)
Example ping_answered :
  seen (arrives [69; 0; 0; 28; 18; 52; 0; 0; 64; 1; 231; 89; 192; 168; 0; 2; 192; 168; 0; 1; 8; 0; 243; 249; 1; 2; 3; 4] no_udp) =
  Some ([[2; 0; 0; 0; 0; 2; 2; 0; 0; 0; 0; 1; 8; 0;
    69; 0; 0; 28; 18; 52; 0; 0; 255; 1; 40; 89; 192; 168; 0; 1; 192; 168; 0; 2; 0; 0; 251; 249; 1; 2; 3; 4]], [], []).
Proof. vm_compute. reflexivity. Qed.

Definition dns_query : list Z :=
  [69; 0; 0; 32; 18; 52; 0; 0; 64; 17; 231; 69; 192; 168; 0; 2; 192; 168; 0; 1; 3; 232; 0; 53; 0; 12; 118; 95; 1; 2; 3; 4].

Example datagram_delivered : seen (arrives dns_query (one_udp 53)) = Some ([], [], [64]).
Proof. vm_compute. reflexivity. Qed.

(** Nobody listens: port unreachable. *)
Example datagram_refused :
  seen (arrives dns_query (one_udp 54)) =
  Some ([[2; 0; 0; 0; 0; 2; 2; 0; 0; 0; 0; 1; 8; 0;
    69; 0; 0; 56; 0; 7; 0; 0; 255; 1; 58; 106; 192; 168; 0; 1; 192; 168; 0; 2; 3; 3; 130; 116; 0; 0; 0; 0;
    69; 0; 0; 32; 18; 52; 0; 0; 64; 17; 231; 69; 192; 168; 0; 2; 192; 168; 0; 1; 3; 232; 0; 53; 0; 12; 118; 95]], [], []).
Proof. vm_compute. reflexivity. Qed.

(** ** What the runs show *)

(** A datagram of 20 octets for a protocol that nobody knows; [old] is what the
    memory behind it held. *)
Definition bare_header : list Z := [69; 0; 0; 20; 18; 52; 0; 0; 64; 99; 230; 255; 192; 168; 0; 2; 192; 168; 0; 1].
Definition received_over (old : Z) : heap bump :=
  MkHeap {[ 4096 := MkPbuf None 4160 20 20 PBUF_POOL 0 1 ]} (write_mem (λ _, old) 4160 bare_header) (MkBump 8192 {[ 4096 := POOL MEMP_PBUF_POOL ]}) (λ _, 0) false.

(** [icmp_send_response] copies 28 octets whatever the length of the packet: the
    sender gets 8 octets of other memory. *)
Theorem icmp_error_reads_past_packet :
  (r ← seen (ip_input quiet_link no_frag noting no_raw no_tcp 4 4096 1 (MkStack board (received_over 222) no_udp (MkRawState [] ∅) (None, ∅, 0) []));
   Some (map (drop 62) r.1.1)) = Some [replicate 8 222].
Proof. vm_compute. reflexivity. Qed.

(** [ip_input] takes a header of 16 octets; the destination address it reads is
    the first word behind it, here the ports. *)
Theorem short_header_accepted :
  let datagram := [68; 0; 0; 28; 18; 52; 0; 0; 64; 17; 168; 243; 192; 168; 0; 2; 192; 168; 0; 1; 0; 12; 0; 0; 1; 2; 3; 4] in
  IPH_HL datagram = 4 ∧ seen (arrives datagram (one_udp 1)) = Some ([], [], [64]).
Proof. vm_compute. split; reflexivity. Qed.

(** ** The hypotheses hold on the board *)
Lemma noting_ok : callbacks_ok noting no_raw no_tcp (λ _ _, 0%nat).
Proof.
  constructor.
  - intros f pcb p src port E s K He. destruct (free_packet_ok _ E s p K He) as (s' & E1 & K1). unfold noting. rewrite E1, some_bind.
    eexists. split; [done|]. destruct K1 as [K1 K2 K3 K4]. by constructor.
  - intros f pcb p src E s b m K He L. by exists s, false.
  - intros p i src dest E s b m K He L. by apply free_packet_ok.
Qed.

Definition one_ref : Z → nat := inc 4096 (λ _, 0%nat).

Lemma received_ok bytes : heap_ok (received bytes) one_ref.
Proof.
  constructor.
  - intros p b Hb. cbn in Hb. apply lookup_singleton_Some in Hb as [<- <-]. by vm_compute.
  - intros p b q Hb. cbn in Hb. apply lookup_singleton_Some in Hb as [<- <-]. done.
  - intros p. unfold one_ref, inc. case_decide; [subst; by eexists|done].
  - intros p b Hb. cbn in Hb. apply lookup_singleton_Some in Hb as [<- <-]. by vm_compute.
  - done.
Qed.

Lemma board_entry i e : l_table board !! i = Some e → i = 0%nat ∧ e = peer ∨ e = empty_entry.
Proof.
  change (l_table board) with (peer :: replicate 9 empty_entry). rewrite lookup_cons_Some. intros [[-> <-]|[_ [-> _]%lookup_replicate_1]]; auto.
Qed.

Lemma board_table_ok : table_ok (l_table board).
Proof.
  constructor; [done| | |].
  - intros i j e1 e2 [[-> ->]| ->]%board_entry [[-> ->]| ->]%board_entry H1 H2; done.
  - by intros i e [[_ ->]| ->]%board_entry.
  - intros i e [[_ ->]| ->]%board_entry; cbn; unfold ARP_MAXAGE; lia.
Qed.

Lemma on_board_ok bytes U : udp_ok U → stack_ok (λ _ _, 0%nat) one_ref (on_board bytes U).
Proof.
  intros K. constructor; [|exact K|by constructor|by intros i ?%not_elem_of_nil]. constructor.
  - split; [|exact board_table_ok]. eapply heap_ok_ext; [|exact (received_ok bytes)]. intros x.
    unfold with_queue, with_apps. change (queue_refs (l_table board) x) with 0%nat. change (queue_refs (arp_table _) x) with 0%nat. cbv beta. lia.
  - by vm_compute.
  - constructor.
    + intros i ->%list_elem_of_singleton. by eexists.
    + intros i [= <-]. by eexists.
    + intros i n Hn. cbn in Hn. apply lookup_singleton_Some in Hn as [<- <-]. split; [done|right]. unfold MIN_MTU. cbn. lia.
Qed.

Lemma no_udp_ok : udp_ok no_udp.
Proof.
  constructor; cbn; [constructor|by intros i ?%not_elem_of_nil|done|by intros i j u v ?%not_elem_of_nil|].
  unfold in_range, UDP_LOCAL_PORT_RANGE_START, UDP_LOCAL_PORT_RANGE_END. lia.
Qed.

Lemma one_udp_ok port : 0 < port < 65536 → udp_ok (one_udp port).
Proof.
  intros Hp. constructor; cbn.
  - apply NoDup_singleton.
  - intros i ->%list_elem_of_singleton. eexists. split; [apply lookup_insert_eq|cbn; lia].
  - intros i u [<- <-]%lookup_singleton_Some Hi. destruct Hi. by left.
  - by intros i j u v ->%list_elem_of_singleton ->%list_elem_of_singleton.
  - unfold in_range, UDP_LOCAL_PORT_RANGE_START, UDP_LOCAL_PORT_RANGE_END. lia.
Qed.

Lemma received_loose bytes : Z.of_nat (length bytes) < 32000 →
  loose (received bytes) 4096 (Z.of_nat (length bytes)) 0 (MkPbuf None 4160 (Z.of_nat (length bytes)) (Z.of_nat (length bytes)) PBUF_POOL 0 1).
Proof.
  intros Hl. constructor; cbn; try done; try (unfold in_ram, SIZEOF_STRUCT_PBUF, PBUF_IP_HLEN, PBUF_LINK_HLEN; cbn; auto; lia).
  exists [4096]. split.
  - apply (single_packet (received bytes) 4096 (MkPbuf None 4160 (Z.of_nat (length bytes)) (Z.of_nat (length bytes)) PBUF_POOL 0 1)); try done. cbn. lia.
  - by eapply single_plain.
Qed.

Lemma ip_input_safe_witness : ∃ s', arrives dns_query (one_udp 53) = Some s' ∧ stack_ok (λ _ _, 0%nat) (disown 4096 one_ref) s'.
Proof.
  refine (ip_input_safe quiet_link no_frag noting no_raw no_tcp (λ _ _, 0%nat) 4 one_ref (on_board dns_query (one_udp 53)) 4096 1 eth_up 32
    (MkPbuf None 4160 32 32 PBUF_POOL 0 1) noting_ok (on_board_ok _ _ (one_udp_ok 53 _)) _ (received_loose dns_query _) _ eq_refl _ _ eq_refl).
  - lia.
  - by vm_compute.
  - cbn. lia.
  - by vm_compute.
  - right. cbn. lia.
  - cbn. lia.
Defined.

Lemma udp_sendto_safe_witness : ∃ s' e, udp_sendto_if quiet_link no_frag 64 4096 33597632 7 1 (on_board [1; 2; 3] (one_udp 53)) = Some (s', e) ∧
  is_Some (pbufs (hp s') !! 4096).
Proof.
  destruct (udp_sendto_safe quiet_link no_frag (λ _ _, 0%nat) one_ref (on_board [1; 2; 3] (one_udp 53)) 64 (MkUdp 0 0 0 255 0 53 0 (Some (1, 2)))
    4096 (MkPbuf None 4160 3 3 PBUF_POOL 0 1) 3 33597632 7 1 eth_up (on_board_ok _ _ (one_udp_ok 53 ltac:(lia))) eq_refl) as (s' & e & E1 & _ & Hp).
  - by vm_compute.
  - by vm_compute.
  - pose proof (received_loose [1; 2; 3] ltac:(cbn; lia)) as [Hb Hpk Hr _ _ _]. by constructor.
  - reflexivity.
  - by vm_compute.
  - right. by vm_compute.
  - exists s', e. split; [exact E1|exact Hp].
Defined.
