(* ===== verification/TcpDef.v ===== *)
(** * lwip-1.4.1/src/core/tcp.c and include/lwip/tcp.h, tcp_impl.h: the
    segments and the control block of a connection

    Configuration: include/arch/lwipopts.h (TCP_MSS 1000) with the values of
    opt.h: TCP_WND is 4 TCP_MSS, TCP_QUEUE_OOSEQ 1 without a limit on its size,
    no time stamps, no backlog, callbacks, no checksums on copy.  The queues of
    a control block are lists of segments.  The octets of a TCP header that
    segments are queued with are fields of the segment: no other code reads
    or writes them in the packet. *)
From S2P Require Import Prelude LwipDef Chksum Memp Pbuf.
Local Open Scope Z_scope.

Definition TCP_MSS : Z := 1000.
Definition TCP_WND : Z := 4 * TCP_MSS.
Definition TCP_HLEN : Z := 20.
Definition TCP_FIN : Z := 1.
Definition TCP_SYN : Z := 2.
Definition TCP_RST : Z := 4.
Definition TCP_PSH : Z := 8.
Definition TCP_ACK : Z := 16.
Definition TCP_FLAGS : Z := 63.
Definition TF_ACK_DELAY : Z := 1.
Definition TF_ACK_NOW : Z := 2.
Definition TF_INFR : Z := 4.
Definition TF_RXCLOSED : Z := 16.
Definition TF_FIN : Z := 32.
Definition TF_NODELAY : Z := 64.
Definition TF_NAGLEMEMERR : Z := 128.
Definition TF_RESET : Z := 8.
Definition TF_CLOSED : Z := 16.
Definition TF_GOT_FIN : Z := 32.

(** ** Machine integers: the signed ones, and flags in a [u8_t] *)
Definition s16 (x : Z) : Z := (x + 32768) mod 65536 - 32768.
Definition s32 (x : Z) : Z := (x + 2147483648) mod 4294967296 - 2147483648.

(** [x & f] as a condition, [x | f] and [x & ~f]. *)
Definition has (f x : Z) : bool := negb (Z.land x f =? 0).
Definition with_flag (f x : Z) : Z := Z.lor x f.
Definition without_flag (f x : Z) : Z := Z.ldiff x f.

(** ** Sequence numbers *)
Definition TCP_SEQ_LT (a b : Z) : bool := s32 (u32 (a - b)) <? 0.
Definition TCP_SEQ_LEQ (a b : Z) : bool := s32 (u32 (a - b)) <=? 0.
Definition TCP_SEQ_GT (a b : Z) : bool := 0 <? s32 (u32 (a - b)).
Definition TCP_SEQ_GEQ (a b : Z) : bool := 0 <=? s32 (u32 (a - b)).
Definition TCP_SEQ_BETWEEN (a b c : Z) : bool := TCP_SEQ_GEQ a b && TCP_SEQ_LEQ a c.

(** ** [enum tcp_state], with its order *)
Inductive tcp_state :=
  CLOSED | LISTEN | SYN_SENT | SYN_RCVD | ESTABLISHED | FIN_WAIT_1 | FIN_WAIT_2 | CLOSE_WAIT | CLOSING | LAST_ACK | TIME_WAIT.

#[export] Instance tcp_state_eq_dec : EqDecision tcp_state.
Proof. solve_decision. Defined.

Definition state_num (s : tcp_state) : Z :=
  match s with
  | CLOSED => 0 | LISTEN => 1 | SYN_SENT => 2 | SYN_RCVD => 3 | ESTABLISHED => 4 | FIN_WAIT_1 => 5
  | FIN_WAIT_2 => 6 | CLOSE_WAIT => 7 | CLOSING => 8 | LAST_ACK => 9 | TIME_WAIT => 10
  end.

(** ** [struct tcp_seg]: its address, packet, length and options, and from its
    header the sequence number (in host byte order) and the flags *)
Record tcp_seg := MkSeg { sg_addr : Z; sg_p : option Z; sg_len : Z; sg_opts : Z; sg_seqno : Z; sg_flags : Z }.

Definition set_sg_addr (a : Z) (g : tcp_seg) := MkSeg a (sg_p g) (sg_len g) (sg_opts g) (sg_seqno g) (sg_flags g).
Definition set_sg_p (p : option Z) (g : tcp_seg) := MkSeg (sg_addr g) p (sg_len g) (sg_opts g) (sg_seqno g) (sg_flags g).
Definition set_sg_len (n : Z) (g : tcp_seg) := MkSeg (sg_addr g) (sg_p g) n (sg_opts g) (sg_seqno g) (sg_flags g).
Definition set_sg_seqno (n : Z) (g : tcp_seg) := MkSeg (sg_addr g) (sg_p g) (sg_len g) (sg_opts g) n (sg_flags g).
Definition set_sg_flags (f : Z) (g : tcp_seg) := MkSeg (sg_addr g) (sg_p g) (sg_len g) (sg_opts g) (sg_seqno g) f.

(** [TCP_TCPLEN], and the macros on the flags of a header. *)
Definition TCP_TCPLEN (g : tcp_seg) : Z := sg_len g + (if has (Z.lor TCP_FIN TCP_SYN) (sg_flags g) then 1 else 0).
Definition TCPH_SET_FLAG (f : Z) (g : tcp_seg) : tcp_seg := set_sg_flags (with_flag f (sg_flags g)) g.
Definition clear_fin (g : tcp_seg) : tcp_seg := set_sg_flags (without_flag TCP_FIN (sg_flags g)) g.

(** ** [struct tcp_pcb]

    The flags are [pflags]; a callback is a name. *)
Record tcp_pcb := MkTcp {
  local_ip : Z; remote_ip : Z; so_options : Z; tos : Z; ttl : Z; callback_arg : Z; accept : option Z;
  state : tcp_state; prio : Z; local_port : Z; remote_port : Z; pflags : Z; polltmr : Z; pollinterval : Z;
  last_timer : Z; tmr : Z; rcv_nxt : Z; rcv_wnd : Z; rcv_ann_wnd : Z; rcv_ann_right_edge : Z; rtime : Z;
  mss : Z; rttest : Z; rtseq : Z; sa : Z; sv : Z; rto : Z; nrtx : Z; dupacks : Z; lastack : Z; cwnd : Z;
  ssthresh : Z; snd_nxt : Z; snd_wl1 : Z; snd_wl2 : Z; snd_lbb : Z; snd_wnd : Z; snd_wnd_max : Z; acked : Z;
  snd_buf : Z; snd_queuelen : Z; unsent_oversize : Z; unsent : list tcp_seg; unacked : list tcp_seg;
  ooseq : list tcp_seg; refused_data : option Z; sent_fn : option Z; recv_fn : option Z;
  connected_fn : option Z; poll_fn : option Z; errf : option Z; keep_idle : Z; persist_cnt : Z;
  persist_backoff : Z; keep_cnt_sent : Z }.

(** The same structure, field by field. *)
Definition eta_tcp (pcb : tcp_pcb) : tcp_pcb :=
  MkTcp (local_ip pcb) (remote_ip pcb) (so_options pcb) (tos pcb) (ttl pcb) (callback_arg pcb) (accept pcb)
    (state pcb) (prio pcb) (local_port pcb) (remote_port pcb) (pflags pcb) (polltmr pcb) (pollinterval pcb)
    (last_timer pcb) (tmr pcb) (rcv_nxt pcb) (rcv_wnd pcb) (rcv_ann_wnd pcb) (rcv_ann_right_edge pcb) (rtime pcb)
    (mss pcb) (rttest pcb) (rtseq pcb) (sa pcb) (sv pcb) (rto pcb) (nrtx pcb) (dupacks pcb) (lastack pcb) (cwnd pcb)
    (ssthresh pcb) (snd_nxt pcb) (snd_wl1 pcb) (snd_wl2 pcb) (snd_lbb pcb) (snd_wnd pcb) (snd_wnd_max pcb) (acked pcb)
    (snd_buf pcb) (snd_queuelen pcb) (unsent_oversize pcb) (unsent pcb) (unacked pcb) (ooseq pcb) (refused_data pcb)
    (sent_fn pcb) (recv_fn pcb) (connected_fn pcb) (poll_fn pcb) (errf pcb) (keep_idle pcb) (persist_cnt pcb)
    (persist_backoff pcb) (keep_cnt_sent pcb).

Ltac setter eta f :=
  let e := eval cbv delta [eta] in eta in
  let q := eval pattern f in e in
  match q with ?F _ => let s := eval cbv beta in (λ v, F (λ _, v)) in exact s end.

(** The assignment to a field. *)
Definition set_local_ip : Z → tcp_pcb → tcp_pcb := ltac:(setter eta_tcp local_ip).
Definition set_remote_ip : Z → tcp_pcb → tcp_pcb := ltac:(setter eta_tcp remote_ip).
Definition set_so_options : Z → tcp_pcb → tcp_pcb := ltac:(setter eta_tcp so_options).
Definition set_tos : Z → tcp_pcb → tcp_pcb := ltac:(setter eta_tcp tos).
Definition set_ttl : Z → tcp_pcb → tcp_pcb := ltac:(setter eta_tcp ttl).
Definition set_callback_arg : Z → tcp_pcb → tcp_pcb := ltac:(setter eta_tcp callback_arg).
Definition set_accept : option Z → tcp_pcb → tcp_pcb := ltac:(setter eta_tcp accept).
Definition set_state : tcp_state → tcp_pcb → tcp_pcb := ltac:(setter eta_tcp state).
Definition set_prio : Z → tcp_pcb → tcp_pcb := ltac:(setter eta_tcp prio).
Definition set_local_port : Z → tcp_pcb → tcp_pcb := ltac:(setter eta_tcp local_port).
Definition set_remote_port : Z → tcp_pcb → tcp_pcb := ltac:(setter eta_tcp remote_port).
Definition set_pflags : Z → tcp_pcb → tcp_pcb := ltac:(setter eta_tcp pflags).
Definition set_polltmr : Z → tcp_pcb → tcp_pcb := ltac:(setter eta_tcp polltmr).
Definition set_pollinterval : Z → tcp_pcb → tcp_pcb := ltac:(setter eta_tcp pollinterval).
Definition set_last_timer : Z → tcp_pcb → tcp_pcb := ltac:(setter eta_tcp last_timer).
Definition set_tmr : Z → tcp_pcb → tcp_pcb := ltac:(setter eta_tcp tmr).
Definition set_rcv_nxt : Z → tcp_pcb → tcp_pcb := ltac:(setter eta_tcp rcv_nxt).
Definition set_rcv_wnd : Z → tcp_pcb → tcp_pcb := ltac:(setter eta_tcp rcv_wnd).
Definition set_rcv_ann_wnd : Z → tcp_pcb → tcp_pcb := ltac:(setter eta_tcp rcv_ann_wnd).
Definition set_rcv_ann_right_edge : Z → tcp_pcb → tcp_pcb := ltac:(setter eta_tcp rcv_ann_right_edge).
Definition set_rtime : Z → tcp_pcb → tcp_pcb := ltac:(setter eta_tcp rtime).
Definition set_mss : Z → tcp_pcb → tcp_pcb := ltac:(setter eta_tcp mss).
Definition set_rttest : Z → tcp_pcb → tcp_pcb := ltac:(setter eta_tcp rttest).
Definition set_rtseq : Z → tcp_pcb → tcp_pcb := ltac:(setter eta_tcp rtseq).
Definition set_sa : Z → tcp_pcb → tcp_pcb := ltac:(setter eta_tcp sa).
Definition set_sv : Z → tcp_pcb → tcp_pcb := ltac:(setter eta_tcp sv).
Definition set_rto : Z → tcp_pcb → tcp_pcb := ltac:(setter eta_tcp rto).
Definition set_nrtx : Z → tcp_pcb → tcp_pcb := ltac:(setter eta_tcp nrtx).
Definition set_dupacks : Z → tcp_pcb → tcp_pcb := ltac:(setter eta_tcp dupacks).
Definition set_lastack : Z → tcp_pcb → tcp_pcb := ltac:(setter eta_tcp lastack).
Definition set_cwnd : Z → tcp_pcb → tcp_pcb := ltac:(setter eta_tcp cwnd).
Definition set_ssthresh : Z → tcp_pcb → tcp_pcb := ltac:(setter eta_tcp ssthresh).
Definition set_snd_nxt : Z → tcp_pcb → tcp_pcb := ltac:(setter eta_tcp snd_nxt).
Definition set_snd_wl1 : Z → tcp_pcb → tcp_pcb := ltac:(setter eta_tcp snd_wl1).
Definition set_snd_wl2 : Z → tcp_pcb → tcp_pcb := ltac:(setter eta_tcp snd_wl2).
Definition set_snd_lbb : Z → tcp_pcb → tcp_pcb := ltac:(setter eta_tcp snd_lbb).
Definition set_snd_wnd : Z → tcp_pcb → tcp_pcb := ltac:(setter eta_tcp snd_wnd).
Definition set_snd_wnd_max : Z → tcp_pcb → tcp_pcb := ltac:(setter eta_tcp snd_wnd_max).
Definition set_acked : Z → tcp_pcb → tcp_pcb := ltac:(setter eta_tcp acked).
Definition set_snd_buf : Z → tcp_pcb → tcp_pcb := ltac:(setter eta_tcp snd_buf).
Definition set_snd_queuelen : Z → tcp_pcb → tcp_pcb := ltac:(setter eta_tcp snd_queuelen).
Definition set_unsent_oversize : Z → tcp_pcb → tcp_pcb := ltac:(setter eta_tcp unsent_oversize).
Definition set_unsent : list tcp_seg → tcp_pcb → tcp_pcb := ltac:(setter eta_tcp unsent).
Definition set_unacked : list tcp_seg → tcp_pcb → tcp_pcb := ltac:(setter eta_tcp unacked).
Definition set_ooseq : list tcp_seg → tcp_pcb → tcp_pcb := ltac:(setter eta_tcp ooseq).
Definition set_refused_data : option Z → tcp_pcb → tcp_pcb := ltac:(setter eta_tcp refused_data).
Definition set_sent_fn : option Z → tcp_pcb → tcp_pcb := ltac:(setter eta_tcp sent_fn).
Definition set_recv_fn : option Z → tcp_pcb → tcp_pcb := ltac:(setter eta_tcp recv_fn).
Definition set_connected_fn : option Z → tcp_pcb → tcp_pcb := ltac:(setter eta_tcp connected_fn).
Definition set_poll_fn : option Z → tcp_pcb → tcp_pcb := ltac:(setter eta_tcp poll_fn).
Definition set_errf : option Z → tcp_pcb → tcp_pcb := ltac:(setter eta_tcp errf).
Definition set_keep_idle : Z → tcp_pcb → tcp_pcb := ltac:(setter eta_tcp keep_idle).
Definition set_persist_cnt : Z → tcp_pcb → tcp_pcb := ltac:(setter eta_tcp persist_cnt).
Definition set_persist_backoff : Z → tcp_pcb → tcp_pcb := ltac:(setter eta_tcp persist_backoff).
Definition set_keep_cnt_sent : Z → tcp_pcb → tcp_pcb := ltac:(setter eta_tcp keep_cnt_sent).


(** [LWIP_MIN] *)
Definition LWIP_MIN (a b : Z) : Z := Z.min a b.

(** The macros of tcp_impl.h for acknowledgments. *)
Definition tcp_ack (pcb : tcp_pcb) : tcp_pcb :=
  if has TF_ACK_DELAY (pflags pcb)
  then set_pflags (with_flag TF_ACK_NOW (without_flag TF_ACK_DELAY (pflags pcb))) pcb
  else set_pflags (with_flag TF_ACK_DELAY (pflags pcb)) pcb.
Definition tcp_ack_now (pcb : tcp_pcb) : tcp_pcb := set_pflags (with_flag TF_ACK_NOW (pflags pcb)) pcb.

(** ** The window to announce: [tcp_update_rcv_ann_wnd] *)
Definition tcp_update_rcv_ann_wnd (pcb : tcp_pcb) : option (tcp_pcb * Z) :=
  let new_right_edge := u32 (rcv_nxt pcb + rcv_wnd pcb) in
  if TCP_SEQ_GEQ new_right_edge (rcv_ann_right_edge pcb + LWIP_MIN (TCP_WND / 2) (mss pcb))
  then Some (set_rcv_ann_wnd (rcv_wnd pcb) pcb, u32 (new_right_edge - rcv_ann_right_edge pcb))
  else if TCP_SEQ_GT (rcv_nxt pcb) (rcv_ann_right_edge pcb)
  then Some (set_rcv_ann_wnd 0 pcb, 0)
  else
    let new_rcv_ann_wnd := u32 (rcv_ann_right_edge pcb - rcv_nxt pcb) in
    _ ← lwip_assert (new_rcv_ann_wnd <=? 65535);
    Some (set_rcv_ann_wnd (u16 new_rcv_ann_wnd) pcb, 0).

(** ** Segments: [tcp_seg_free], [tcp_segs_free], [tcp_seg_copy] *)
Section segments.
Context {A : Type} `{Arena A}.
Implicit Types (h : heap A) (g : tcp_seg).

Definition tcp_seg_free g h : option (heap A) :=
  h ← match sg_p g with None => Some h | Some p => '(h, _) ← pbuf_free (Some p) h; Some h end;
  Some (with_arena (memp_free MEMP_TCP_SEG (sg_addr g) (arena h)) h).

Fixpoint tcp_segs_free (l : list tcp_seg) h : option (heap A) :=
  match l with [] => Some h | g :: l => h ← tcp_seg_free g h; tcp_segs_free l h end.

(** The copy shares the packet. *)
Definition tcp_seg_copy g h : option (heap A * option tcp_seg) :=
  match memp_malloc MEMP_TCP_SEG (arena h) with
  | None => Some (h, None)
  | Some (a, ar) => h ← pbuf_ref (sg_p g) (with_arena ar h); Some (h, Some (set_sg_addr a g))
  end.

(** [pbuf_realloc(seg->p, seg->len)] for a segment whose length was set. *)
Definition trim_packet g h : option (heap A) := p ← sg_p g; pbuf_realloc p (sg_len g) h.
End segments.
