(* ===== verification/TcpSeq.v ===== *)
(** * TCP: positions in a stream and sequence numbers

    A stream is numbered from its first octet; [R0] is the sequence number of
    that octet.  Comparisons of sequence numbers are comparisons of positions
    that are less than 2^31 apart. *)
From S2P Require Import Prelude TcpDef.
Local Open Scope Z_scope.

Lemma s32_id d : -2147483648 <= d < 2147483648 → s32 (u32 d) = d.
Proof. intros Hd. unfold s32, u32. word_lia. Qed.

Lemma s16_id d : -32768 <= d < 32768 → s16 d = d.
Proof. intros Hd. unfold s16. word_lia. Qed.

Section positions.
Context (R0 : Z).

Definition seq_at (k : Z) : Z := u32 (R0 + k).

(** [x] is a sequence number of position [k], up to reduction. *)
Definition at_pos (x k : Z) : Prop := u32 x = seq_at k.

Lemma at_seq k : at_pos (seq_at k) k.
Proof. apply u32_u32. Qed.

Lemma at_add x k n : at_pos x k → at_pos (x + n) (k + n).
Proof. unfold at_pos, seq_at. intros E. rewrite <- u32_add_l, E, u32_add_l. f_equal. lia. Qed.

Lemma at_sub x k n : at_pos x k → at_pos (x - n) (k - n).
Proof. rewrite <- !Z.add_opp_r. apply at_add. Qed.

Lemma at_diff x y a b : at_pos x a → at_pos y b → u32 (x - y) = u32 (a - b).
Proof.
  unfold at_pos, seq_at. intros Ex Ey. rewrite <- u32_sub_l, Ex, <- u32_sub_r, Ey, u32_sub_l, u32_sub_r. f_equal. lia.
Qed.

Lemma at_u32 x k : at_pos x k → u32 x = seq_at k.
Proof. done. Qed.

(** Positions less than 2^31 apart. *)
Definition near (a b : Z) : Prop := -2147483648 <= a - b < 2147483648.

Section compare.
Context (x y a b : Z) (Hx : at_pos x a) (Hy : at_pos y b) (Hn : near a b).

Lemma at_s32 : s32 (u32 (x - y)) = a - b.
Proof using All. rewrite (at_diff x y a b Hx Hy). by apply s32_id. Qed.

Lemma seq_lt : TCP_SEQ_LT x y = (a <? b).
Proof using All. unfold TCP_SEQ_LT. rewrite at_s32. destruct (Z.ltb_spec (a - b) 0), (Z.ltb_spec a b); lia. Qed.

Lemma seq_leq : TCP_SEQ_LEQ x y = (a <=? b).
Proof using All. unfold TCP_SEQ_LEQ. rewrite at_s32. destruct (Z.leb_spec (a - b) 0), (Z.leb_spec a b); lia. Qed.

Lemma seq_gt : TCP_SEQ_GT x y = (b <? a).
Proof using All. unfold TCP_SEQ_GT. rewrite at_s32. destruct (Z.ltb_spec 0 (a - b)), (Z.ltb_spec b a); lia. Qed.

Lemma seq_geq : TCP_SEQ_GEQ x y = (b <=? a).
Proof using All. unfold TCP_SEQ_GEQ. rewrite at_s32. destruct (Z.leb_spec 0 (a - b)), (Z.leb_spec b a); lia. Qed.

Lemma seq_eqb : is_u32 x → is_u32 y → (x =? y) = (a =? b).
Proof using All.
  intros Rx Ry. pose proof at_s32 as E. destruct (Z.eqb_spec x y) as [->|Hne].
  - rewrite Z.sub_diag in E. change (s32 (u32 0)) with 0 in E. symmetry. apply Z.eqb_eq. lia.
  - symmetry. apply Z.eqb_neq. intros Eab. apply Hne. unfold at_pos in *. rewrite <- (u32_id x), <- (u32_id y) by done. congruence.
Qed.
End compare.

Lemma seq_between x y z a b c : at_pos x a → at_pos y b → at_pos z c → near a b → near a c →
  TCP_SEQ_BETWEEN x y z = (b <=? a) && (a <=? c).
Proof. intros. unfold TCP_SEQ_BETWEEN. by rewrite (seq_geq _ _ a b), (seq_leq _ _ a c). Qed.

Lemma seq_at_range k : is_u32 (seq_at k).
Proof. apply u32_range. Qed.
End positions.

(** Finds the position of a sum of sequence numbers and lengths. *)
Ltac at_pos_tac :=
  first [ apply at_seq | eassumption
        | (eapply at_add; at_pos_tac) | (eapply at_sub; at_pos_tac) ].
