(* ===== verification/TcpHold.v ===== *)
(** * TCP: segments whose packets hold a piece of the stream

    A [chunk] is a segment together with the positions of its text; the
    operations of tcp.c on segments, with what they do to the packets, the
    references and the pool of the segments. *)
From S2P Require Import Prelude LwipDef Chksum Memp Pbuf PbufRef PbufOwn PbufData IpReassJoin PbufMove TcpDef TcpSeq.
Local Open Scope Z_scope.

(** ** Flags *)
Lemma has_with f g x : has f (with_flag g x) = has f x || has f g.
Proof.
  unfold has, with_flag. rewrite Z.land_lor_distr_l. apply eq_true_iff_eq.
  rewrite negb_true_iff, Z.eqb_neq, orb_true_iff, !negb_true_iff, !Z.eqb_neq.
  pose proof (Z.lor_eq_0_iff (Z.land x f) (Z.land g f)). destruct (decide (Z.land x f = 0)), (decide (Z.land g f = 0)); tauto.
Qed.

Lemma has_lor f g x : has (Z.lor f g) x = has f x || has g x.
Proof.
  unfold has. rewrite Z.land_lor_distr_r. apply eq_true_iff_eq.
  rewrite negb_true_iff, Z.eqb_neq, orb_true_iff, !negb_true_iff, !Z.eqb_neq.
  pose proof (Z.lor_eq_0_iff (Z.land x f) (Z.land x g)). destruct (decide (Z.land x f = 0)), (decide (Z.land x g = 0)); tauto.
Qed.

Lemma has_without_same f x : has f (without_flag f x) = false.
Proof.
  unfold has, without_flag. apply negb_false_iff, Z.eqb_eq. apply Z.bits_inj'. intros i Hi.
  rewrite Z.land_spec, Z.ldiff_spec, Z.bits_0. by destruct (Z.testbit x i), (Z.testbit f i).
Qed.

(** ** How often a list of owners refers to a pbuf *)
Definition owners (l : list Z) (E : Z → nat) : Z → nat := foldr inc E l.

Lemma owners_count l E x : owners l E x = (E x + count_occ Z.eq_dec l x)%nat.
Proof.
  induction l as [|y l IH]; simpl; [lia|]. unfold inc at 1. rewrite IH.
  destruct (Z.eq_dec y x), (decide (x = y)); subst; try done; lia.
Qed.

Lemma owners_perm l l' E : l ≡ₚ l' → ∀ x, owners l E x = owners l' E x.
Proof. intros P x. rewrite !owners_count. by rewrite (proj1 (Permutation_count_occ Z.eq_dec l l') P x). Qed.

Lemma owners_inc l p E x : owners l (inc p E) x = inc p (owners l E) x.
Proof. unfold inc at 2. rewrite !owners_count. unfold inc. case_decide; lia. Qed.

Lemma also_inc X p E x : also X (inc p E) x = inc p (also X E) x.
Proof. unfold also, inc. case_decide; lia. Qed.

Lemma also_ext X E E' : (∀ x, E x = E' x) → ∀ x, also X E x = also X E' x.
Proof. intros HE x. unfold also. by rewrite HE. Qed.

Section stream.
Context {A : Type} `{HL : ArenaLaws A}.
Context (Stream : list Z) (R0 : Z) (X : Z → nat).
Implicit Types (h : heap A) (E : Z → nat).

Definition N : Z := Z.of_nat (length Stream).
Definition text (lo hi : Z) : list Z := take (Z.to_nat (hi - lo)) (drop (Z.to_nat lo) Stream).

Record chunk := MkChunk { c_addr : Z; c_p : Z; c_pbufs : list Z; c_lo : Z; c_hi : Z; c_opts : Z; c_flags : Z }.
Implicit Types (c : chunk) (cs : list chunk).

Definition seg_of c : tcp_seg := MkSeg (c_addr c) (Some (c_p c)) (c_hi c - c_lo c) (c_opts c) (seq_at R0 (c_lo c)) (c_flags c).
Definition fin c : bool := has TCP_FIN (c_flags c).
Definition c_end c : Z := c_hi c + (if fin c then 1 else 0).
Definition all_chunks cs : list Z := mjoin (c_pbufs <$> cs).

Record holds h c : Prop := {
  ch_packet : packet h (Some (c_p c)) (c_pbufs c) (c_hi c - c_lo c) 0;
  ch_plain : c_lo c < c_hi c → plain h (c_pbufs c);
  ch_data : packet_data h (c_pbufs c) = text (c_lo c) (c_hi c);
  ch_range : 0 <= c_lo c ∧ c_lo c <= c_hi c ∧ c_hi c <= N;
  ch_len : c_lo c < c_end c ∧ c_hi c - c_lo c < 65535;
  ch_syn : has TCP_SYN (c_flags c) = false;
  ch_fin : fin c = true → c_hi c = N }.

Lemma tcplen_chunk c : has TCP_SYN (c_flags c) = false → TCP_TCPLEN (seg_of c) = c_end c - c_lo c.
Proof. intros Hs. unfold TCP_TCPLEN, c_end, fin. cbn [seg_of sg_len sg_flags]. rewrite has_lor, Hs, orb_false_r. case_match; lia. Qed.

Lemma text_length lo hi : 0 <= lo → lo <= hi → hi <= N → Z.of_nat (length (text lo hi)) = hi - lo.
Proof. unfold N, text. intros. rewrite length_take, length_drop. lia. Qed.

Lemma text_app lo m hi : 0 <= lo → lo <= m → m <= hi → hi <= N → text lo m ++ text m hi = text lo hi.
Proof.
  unfold N, text. intros. replace (Z.to_nat m) with (Z.to_nat lo + Z.to_nat (m - lo))%nat by lia. rewrite <- drop_drop.
  replace (Z.to_nat (hi - lo)) with (Z.to_nat (m - lo) + Z.to_nat (hi - m))%nat by lia.
  set (d := drop _ Stream). rewrite <- (take_drop (Z.to_nat (m - lo)) (take (_ + _) d)). f_equal.
  - rewrite take_take. f_equal. lia.
  - rewrite skipn_firstn_comm. f_equal. lia.
Qed.

Lemma text_take lo m hi : lo <= m → m <= hi → take (Z.to_nat (m - lo)) (text lo hi) = text lo m.
Proof. intros. unfold text. rewrite take_take. f_equal. lia. Qed.

Lemma text_drop lo m hi : 0 <= lo → lo <= m → m <= hi → drop (Z.to_nat (m - lo)) (text lo hi) = text m hi.
Proof.
  intros. unfold text. rewrite skipn_firstn_comm, drop_drop. f_equal; [lia|]. f_equal. lia.
Qed.

Lemma holds_agree h h' c : agree (c_pbufs c) h h' → holds h c → holds h' c.
Proof.
  intros Ag [H1 H2 H3 H4 H5 H6 H7]. constructor; try done.
  - eapply packet_frame; [|exact H1]. intros a Ha. by apply Ag.
  - intros Hlt. eapply plain_frame; [|by apply H2]. intros a Ha. by apply Ag.
  - by rewrite (agree_data (c_pbufs c) h h').
Qed.

(** ** The queue as the heap has it *)
Record qheap h cs E : Prop := {
  qh_heap : heap_ok h (also X (owners (c_p <$> cs) E));
  qh_holds c : c ∈ cs → holds h c;
  qh_nodup : NoDup (all_chunks cs);
  qh_addr : NoDup (c_addr <$> cs);
  qh_block c : c ∈ cs → live (arena h) !! c_addr c = Some (POOL MEMP_TCP_SEG) }.

Lemma all_chunks_perm cs cs' : cs ≡ₚ cs' → all_chunks cs ≡ₚ all_chunks cs'.
Proof. unfold all_chunks. induction 1; csimpl; [done|by f_equiv| |by etrans]. by rewrite !(assoc_L (++)), (comm (++) (c_pbufs y)). Qed.

Lemma qheap_perm h cs cs' E : cs ≡ₚ cs' → qheap h cs E → qheap h cs' E.
Proof.
  intros P [Q1 Q2 Q3 Q4 Q5]. constructor.
  - eapply heap_ok_ext; [|exact Q1]. apply also_ext, owners_perm. by rewrite P.
  - intros c. rewrite <- P. apply Q2.
  - by rewrite <- (all_chunks_perm _ _ P).
  - by rewrite <- P.
  - intros c. rewrite <- P. apply Q5.
Qed.

Lemma qheap_ext h cs E E' : (∀ x, E x = E' x) → qheap h cs E → qheap h cs E'.
Proof.
  intros HE [Q1 Q2 Q3 Q4 Q5]. constructor; try done. eapply heap_ok_ext; [|exact Q1]. apply also_ext. intros x.
  by rewrite !owners_count, HE.
Qed.

(** ** What an operation touches: the pbufs [L] and the segments at [B] *)
Record touches (L B : list Z) h h' : Prop := {
  to_mem : mem h' = mem h;
  to_pbufs p : p ∉ L → pbufs h' !! p = pbufs h !! p;
  to_live i : i ∉ B → live (arena h) !! i = Some (POOL MEMP_TCP_SEG) → live (arena h') !! i = Some (POOL MEMP_TCP_SEG) }.

Lemma touches_refl L B h : touches L B h h.
Proof. done. Qed.

Lemma touches_trans L1 L2 B1 B2 h1 h2 h3 : touches L1 B1 h1 h2 → touches L2 B2 h2 h3 → touches (L1 ++ L2) (B1 ++ B2) h1 h3.
Proof.
  intros [M1 P1 V1] [M2 P2 V2]. constructor; [congruence| |].
  - intros p [Hp1 Hp2]%not_elem_of_app. by rewrite P2, P1.
  - intros i [Hi1 Hi2]%not_elem_of_app Hi. by apply V2, V1.
Qed.

Lemma touches_sub L L' B B' h h' : touches L B h h' → L ⊆ L' → B ⊆ B' → touches L' B' h h'.
Proof. intros [M P V] HL' HB'. constructor; [done| |]; intros; [apply P|apply V]; auto. Qed.

Lemma touches_agree L L' B h h' : touches L B h h' → (∀ x, x ∈ L' → x ∉ L) → agree L' h h'.
Proof. intros [M P _] D p Hp. rewrite M. split; [by apply P, D|done]. Qed.

Lemma holds_touched L B h h' c : touches L B h h' → (∀ x, x ∈ c_pbufs c → x ∉ L) → holds h c → holds h' c.
Proof. intros T D. apply holds_agree. by eapply touches_agree. Qed.

Lemma in_all_chunks c cs x : c ∈ cs → x ∈ c_pbufs c → x ∈ all_chunks cs.
Proof. intros Hc Hx. apply list_elem_of_join. exists (c_pbufs c). split; [done|]. by apply list_elem_of_fmap_2. Qed.

Lemma all_chunks_cons c cs : all_chunks (c :: cs) = c_pbufs c ++ all_chunks cs.
Proof. done. Qed.

(** The other chunks, when one was touched. *)
Lemma others_hold c cs B h h' : touches (c_pbufs c) B h h' → NoDup (all_chunks (c :: cs)) → (∀ d, d ∈ cs → holds h d) →
  ∀ d, d ∈ cs → holds h' d.
Proof.
  intros T ND Hh d Hd. eapply holds_touched; [exact T| |by apply Hh]. intros x Hx Hc.
  rewrite all_chunks_cons in ND. apply NoDup_app in ND as (_ & D & _). by apply (D x Hc), (in_all_chunks d).
Qed.

(** ** Freeing *)
Lemma tcp_block_no_pbuf h E i : heap_ok h E → live (arena h) !! i = Some (POOL MEMP_TCP_SEG) → pbufs h !! i = None.
Proof.
  intros K Hi. destruct (pbufs h !! i) as [b|] eqn:Hb; [|done]. pose proof (ok_live _ _ K i b Hb) as Hl. rewrite Hi in Hl.
  unfold block_of in Hl. destruct (is_custom _); [done|]. by destruct (type b).
Qed.

Lemma free_block_ok h E a : heap_ok h E → live (arena h) !! a = Some (POOL MEMP_TCP_SEG) →
  let h' := with_arena (memp_free MEMP_TCP_SEG a (arena h)) h in heap_ok h' E ∧ touches [] [a] h h'.
Proof.
  intros K Ha h'. assert (El : live (arena h') = delete a (live (arena h))) by (by apply memp_free_live). split.
  - pose proof K as [K1 K2 K3 K4 K5]. constructor; try done. intros p b Hb. rewrite El, lookup_delete_ne; [by apply K4|].
    intros ->. pose proof (tcp_block_no_pbuf _ _ _ K Ha) as Hn. unfold h' in Hb. simpl in Hb. congruence.
  - constructor; [done|done|]. intros i Hi Hl. rewrite El, lookup_delete_ne; [done|set_solver].
Qed.

Lemma free_ref_ok h p l n E : heap_ok h (also X (inc p E)) → packet h (Some p) l n 0 →
  ∃ h' k, pbuf_free (Some p) h = Some (h', k) ∧ heap_ok h' (also X E) ∧ touches l [] h h'.
Proof.
  intros K P. assert (K' : heap_ok h (inc p (also X E))) by (eapply heap_ok_ext; [apply also_inc|exact K]).
  destruct (pbuf_free_ok h p _ K') as (h' & k & Ef & K2 & (Em & _ & _) & _). exists h', k. split; [done|]. split; [done|].
  constructor; [done|by eapply free_elsewhere; [..|eapply packet_chain|]|]. intros i _ Hi.
  rewrite (pbuf_free_live h p _ h' k i K' ltac:(unfold inc; rewrite decide_True by done; lia) Ef); [done|].
  by eapply tcp_block_no_pbuf.
Qed.

(** The block of a chunk whose packet has gone elsewhere. *)
Lemma seg_free_block_ok h c cs E : qheap h cs E → NoDup (c_addr <$> c :: cs) → live (arena h) !! c_addr c = Some (POOL MEMP_TCP_SEG) →
  ∃ h', tcp_seg_free (set_sg_p None (seg_of c)) h = Some h' ∧ qheap h' cs E ∧ touches [] [c_addr c] h h'.
Proof.
  intros [Q1 Q2 Q3 Q4 Q5] [Hn _]%NoDup_cons Ha. destruct (free_block_ok _ _ _ Q1 Ha) as [K T].
  unfold tcp_seg_free. simpl. eexists. split; [done|]. split; [|exact T]. constructor; try done.
  - intros d Hd. eapply holds_touched; [exact T|set_solver|by apply Q2].
  - intros d Hd. apply (to_live _ _ _ _ T); [|by apply Q5]. intros E1%list_elem_of_singleton. apply Hn. rewrite <- E1.
    by apply list_elem_of_fmap_2.
Qed.

Lemma tcp_seg_free_ok h c cs E : qheap h (c :: cs) E →
  ∃ h', tcp_seg_free (seg_of c) h = Some h' ∧ qheap h' cs E ∧ touches (c_pbufs c) [c_addr c] h h'.
Proof.
  intros [Q1 Q2 Q3 Q4 Q5]. pose proof Q4 as [Hn Q4']%NoDup_cons.
  destruct (free_ref_ok h (c_p c) _ _ _ Q1 (ch_packet _ _ (Q2 c ltac:(by left)))) as (h1 & k & Ef & K1 & T1).
  assert (Ha : live (arena h1) !! c_addr c = Some (POOL MEMP_TCP_SEG)) by (apply (to_live _ _ _ _ T1); [set_solver|apply Q5; by left]).
  destruct (free_block_ok _ _ _ K1 Ha) as [K2 T2]. unfold tcp_seg_free. cbn [seg_of sg_p sg_addr]. rewrite Ef. cbn [mbind option_bind]. eexists. split; [done|].
  pose proof (touches_trans _ _ _ _ _ _ _ T1 T2) as T. rewrite app_nil_r in T. split; [|exact T]. constructor; try done.
  - eapply others_hold; [exact T|exact Q3|]. intros d Hd. apply Q2. by right.
  - rewrite all_chunks_cons in Q3. by apply NoDup_app in Q3 as (_ & _ & ?).
  - intros d Hd. apply (to_live _ _ _ _ T); [|apply Q5; by right]. intros E1%list_elem_of_singleton. apply Hn. rewrite <- E1.
    by apply list_elem_of_fmap_2.
Qed.

Lemma tcp_segs_free_ok E cs : ∀ cs' h, qheap h (cs' ++ cs) E →
  ∃ h', tcp_segs_free (seg_of <$> cs') h = Some h' ∧ qheap h' cs E ∧ touches (all_chunks cs') (c_addr <$> cs') h h'.
Proof.
  induction cs' as [|c cs' IH]; intros h Q; [by exists h|]. cbn [fmap list_fmap tcp_segs_free].
  destruct (tcp_seg_free_ok h c _ E Q) as (h1 & -> & Q1 & T1). cbn [mbind option_bind].
  destruct (IH h1 Q1) as (h' & -> & Q' & T'). exists h'. split; [done|]. split; [done|].
  exact (touches_trans _ _ _ _ _ _ _ T1 T').
Qed.

(** Other packets were touched. *)
Lemma qheap_touched h h' cs L B E : qheap h cs E → touches L B h h' → (∀ x, x ∈ L → x ∉ all_chunks cs) → (∀ c, c ∈ cs → c_addr c ∉ B) →
  heap_ok h' (also X (owners (c_p <$> cs) E)) → qheap h' cs E.
Proof.
  intros [Q1 Q2 Q3 Q4 Q5] T DL DB K. constructor; try done.
  - intros c Hc. eapply holds_touched; [exact T| |by apply Q2]. intros x Hx HL'. by apply (DL x HL'), (in_all_chunks c).
  - intros c Hc. apply (to_live _ _ _ _ T); [by apply DB|by apply Q5].
Qed.

(** ** Trimming the end *)
Definition cut (hi f : Z) (l : list Z) c : chunk := MkChunk (c_addr c) (c_p c) l (c_lo c) hi (c_opts c) f.

Lemma trim_packet_ok h c E hi f l0 :
  heap_ok h E → holds h c → c_lo c < hi ∧ hi <= c_hi c → has TCP_SYN f = false → (has TCP_FIN f = true → hi = N) →
  ∃ h' l', trim_packet (seg_of (cut hi f l0 c)) h = Some h' ∧ l' `prefix_of` c_pbufs c ∧ heap_ok h' E ∧ holds h' (cut hi f l' c) ∧
    touches (c_pbufs c) [] h h'.
Proof.
  intros K [H1 H2 H3 H4 H5 H6 H7] Hhi Hs Hf.
  destruct (pbuf_realloc_full h (c_p c) (c_pbufs c) (c_hi c - c_lo c) (hi - c_lo c) E K H1 (H2 ltac:(lia)) ltac:(lia) ltac:(lia))
    as (h' & l' & Er & K' & P' & Pl' & Em & Pre & _ & Ed & Fr & Lv).
  exists h', l'. unfold trim_packet. cbn [seg_of cut sg_p sg_len c_p c_lo c_hi]. cbn [mbind option_bind]. split_and!; try done.
  - constructor; cbn [cut c_p c_lo c_hi c_pbufs c_flags]; try done.
    + rewrite Ed, H3. apply text_take; lia.
    + lia.
    + unfold c_end, fin. cbn [cut c_hi c_flags]. case_match; lia.
  - constructor; [done|done|]. intros i _ Hi. rewrite Lv; [done|]. by eapply tcp_block_no_pbuf.
Qed.

Lemma prefix_nodup (l l' k : list Z) : l' `prefix_of` l → NoDup (l ++ k) → NoDup (l' ++ k).
Proof.
  intros [x ->] (N1 & D & N2)%NoDup_app. apply NoDup_app in N1 as (N1 & _ & _). apply NoDup_app. split_and!; [done| |done].
  intros a Ha. apply D. set_solver.
Qed.

Lemma trim_queued_ok h c cs E hi f l0 :
  qheap h (c :: cs) E → c_lo c < hi ∧ hi <= c_hi c → has TCP_SYN f = false → (has TCP_FIN f = true → hi = N) →
  ∃ h' l', trim_packet (seg_of (cut hi f l0 c)) h = Some h' ∧ l' `prefix_of` c_pbufs c ∧ qheap h' (cut hi f l' c :: cs) E ∧
    touches (c_pbufs c) [] h h'.
Proof.
  intros [Q1 Q2 Q3 Q4 Q5] Hhi Hs Hf.
  destruct (trim_packet_ok h c _ hi f l0 Q1 (Q2 c ltac:(by left)) Hhi Hs Hf) as (h' & l' & Et & Pre & K' & Hh & T).
  exists h', l'. split_and!; try done. constructor.
  - exact K'.
  - intros d [->|Hd]%elem_of_cons; [done|]. revert d Hd. eapply others_hold; [exact T|exact Q3|]. intros d Hd. apply Q2. by right.
  - rewrite all_chunks_cons in *. by eapply prefix_nodup.
  - exact Q4.
  - intros d Hd. apply (to_live _ _ _ _ T); [set_solver|]. apply elem_of_cons in Hd as [->|Hd]; [apply (Q5 c); by left|apply Q5; by right].
Qed.

(** ** Counts *)
Lemma packet_set_ref h h' p b r rem : pbufs h !! p = Some b → pbufs h' = <[p := set_ref r b]> (pbufs h) → ∀ l (o : option Z) n,
  packet h o l n rem → packet h' o l n rem.
Proof.
  intros Hb Ep. induction l as [|a l IH]; intros o n; [done|]. intros (-> & ba & Hba & Ht & Hl & P). split; [done|]. rewrite Ep.
  destruct (decide (a = p)) as [->|Hne].
  - assert (ba = b) as -> by congruence. exists (set_ref r b). rewrite lookup_insert_eq. split_and!; try done. by apply IH.
  - exists ba. rewrite lookup_insert_ne by done. split_and!; try done. by apply IH.
Qed.

Lemma holds_set_ref h h' p b r c : pbufs h !! p = Some b → pbufs h' = <[p := set_ref r b]> (pbufs h) → mem h' = mem h → holds h c → holds h' c.
Proof.
  intros Hb Ep Em [H1 H2 H3 H4 H5 H6 H7]. constructor; try done.
  - by eapply packet_set_ref.
  - intros Hlt a ba Ha. rewrite Ep. intros [[<- <-]|[Hne Hba]]%lookup_insert_Some; [by apply (H2 Hlt p b Ha)|by apply (H2 Hlt a ba Ha)].
  - rewrite <- H3. apply packet_data_ext; [done| |].
    + intros a Ha ba Hba. rewrite Ep. destruct (decide (a = p)) as [->|Hne].
      * rewrite lookup_insert_eq. assert (ba = b) as -> by congruence. by eexists.
      * rewrite lookup_insert_ne by done. by exists ba.
    + intros a Ha. eapply chain_of_in; [|exact Ha]. by eapply packet_chain.
Qed.

Definition readdr (a : Z) c : chunk := MkChunk a (c_p c) (c_pbufs c) (c_lo c) (c_hi c) (c_opts c) (c_flags c).

Lemma holds_readdr a h c : holds h c → holds h (readdr a c).
Proof. by intros [? ? ? ? ? ? ?]. Qed.

(** The copy of a segment shares its packet. *)
Lemma tcp_seg_copy_ok h c cs E b :
  qheap h cs E → holds h c → (∀ x, x ∈ c_pbufs c → x ∉ all_chunks cs) → pbufs h !! c_p c = Some b → ref b < 65535 →
  ∃ h' o, tcp_seg_copy (seg_of c) h = Some (h', o) ∧ touches (c_pbufs c) [] h h' ∧
    match o with
    | None => h' = h ∧ memp_malloc MEMP_TCP_SEG (arena h) = None
    | Some g => ∃ a, g = seg_of (readdr a c) ∧ holds h' c ∧ qheap h' (readdr a c :: cs) E
    end.
Proof.
  intros Q Hc D Hb Hr. pose proof Q as [Q1 Q2 Q3 Q4 Q5]. unfold tcp_seg_copy.
  destruct (memp_malloc MEMP_TCP_SEG (arena h)) as [[a ar]|] eqn:Em; [|by exists h, None].
  destruct (memp_malloc_fresh _ _ _ _ Em) as (Hn & Ea & _ & _). set (h1 := with_arena ar h).
  assert (K1 : heap_ok h1 (also X (owners (c_p <$> cs) E))).
  { destruct Q1 as [K1 K2 K3 K4 K5]. constructor; try done. intros x bx Hx. simpl. rewrite Ea.
    rewrite lookup_insert_ne; [by apply K4|]. intros <-. apply K4 in Hx. congruence. }
  destruct (pbuf_ref_ok h1 (c_p c) b _ K1 Hb Hr) as (h2 & E2 & K2 & Ep). cbn [seg_of sg_p]. rewrite E2. cbn [mbind option_bind].
  assert (Eh : mem h2 = mem h ∧ arena h2 = ar).
  { simpl in E2. rewrite Hb in E2. simpl in E2. rewrite (upd_set _ _ b) in E2 by done. injection E2 as <-. done. }
  destruct Eh as [Emem Ear].
  assert (T : touches (c_pbufs c) [] h h2).
  { constructor; [done| |].
    - intros x Hx. rewrite Ep. simpl. rewrite lookup_insert_ne; [done|]. intros <-. apply Hx.
      destruct (packet_first _ _ _ _ (ch_packet _ _ Hc)) as (? & l' & -> & _). by left.
    - intros i _ Hi. rewrite Ear, Ea, lookup_insert_ne; [done|]. intros ->. congruence. }
  exists h2, (Some (set_sg_addr a (seg_of c))). split; [done|]. split; [exact T|]. exists a. split; [done|].
  assert (Hc2 : holds h2 c) by (eapply (holds_set_ref h h2); [exact Hb|exact Ep|done|done]). split; [done|].
  assert (Hna : ∀ d, d ∈ cs → c_addr d ≠ a) by (intros d Hd Ed; apply Q5 in Hd; congruence).
  constructor.
  - eapply heap_ok_ext; [|exact K2]. intros x. simpl. symmetry. apply also_inc.
  - intros d [->|Hd]%elem_of_cons; [by apply holds_readdr|]. eapply holds_touched; [exact T| |by apply Q2].
    intros x Hx Hxc. by apply (D x Hxc), (in_all_chunks d).
  - rewrite all_chunks_cons. apply NoDup_app. split; [|done]. eapply chain_of_nodup, packet_chain, (ch_packet _ _ Hc).
  - simpl. constructor; [|done]. intros (d & Ed & Hd)%list_elem_of_fmap. by apply (Hna d).
  - intros d [->|Hd]%elem_of_cons; simpl; rewrite Ear, Ea; [by rewrite lookup_insert_eq|].
    rewrite lookup_insert_ne; [by apply Q5|]. by apply not_eq_sym, Hna.
Qed.

(** Giving up one of several references. *)
Lemma free_shared_ok h p b E : heap_ok h (also X (inc p E)) → pbufs h !! p = Some b → 2 <= ref b →
  ∃ h' k, pbuf_free (Some p) h = Some (h', k) ∧ heap_ok h' (also X E) ∧ pbufs h' = <[p := set_ref (ref b - 1) b]> (pbufs h) ∧
    mem h' = mem h ∧ arena h' = arena h.
Proof.
  intros K Hb Hr. assert (K' : heap_ok h (inc p (also X E))) by (eapply heap_ok_ext; [apply also_inc|exact K]).
  destruct (pbuf_free_ok h p _ K') as (h' & k & Ef & K2 & _). exists h', k. split; [exact Ef|]. split; [exact K2|].
  destruct (ok_ref _ _ K p b Hb) as [_ Hrb]. unfold pbuf_free in Ef. destruct (size (pbufs h)) eqn:Es.
  { apply map_size_empty_inv in Es. by rewrite Es, lookup_empty in Hb. }
  cbn [free_loop] in Ef. rewrite Hb in Ef. cbn [mbind option_bind] in Ef. rewrite assert_true in Ef by lia. cbn [mbind option_bind] in Ef.
  rewrite (u16_id (ref b - 1)), (proj2 (Z.eqb_neq _ _)) in Ef by (unfold is_u16; lia). by injection Ef as <- _.
Qed.
End stream.
