(* ===== verification/TcpRecv.v ===== *)
(** * lwip-1.4.1/src/core/tcp_in.c: [tcp_receive], definitions

    The variables that [tcp_input] sets for the segment at hand are fields of
    the state here.  [tcp_send_empty_ack] of tcp_out.c, which the code calls in
    the middle, is a parameter: it sends a packet through the layers below,
    whose state is [lower_net]. *)
From S2P Require Import Prelude LwipDef Chksum Memp Pbuf TcpDef.
Local Open Scope Z_scope.

(** ** Retransmission: [tcp_rexmit] and [tcp_rexmit_fast] of tcp_out.c *)

(** Where a segment goes in a sorted queue, and whether it is its last. *)
Fixpoint insert_seg (seg : tcp_seg) (l : list tcp_seg) : list tcp_seg * bool :=
  match l with
  | [] => ([seg], true)
  | cur :: l' =>
      if TCP_SEQ_LT (sg_seqno cur) (sg_seqno seg)
      then let '(l', e) := insert_seg seg l' in (cur :: l', e)
      else (seg :: l, false)
  end.

Definition tcp_rexmit (pcb : tcp_pcb) : tcp_pcb :=
  match unacked pcb with
  | [] => pcb
  | seg :: rest =>
      let pcb := set_unacked rest pcb in
      let '(l, at_end) := insert_seg seg (unsent pcb) in
      let pcb := set_unsent l pcb in
      let pcb := if at_end then set_unsent_oversize 0 pcb else pcb in
      let pcb := set_nrtx (u8 (nrtx pcb + 1)) pcb in
      set_rttest 0 pcb
  end.

Definition tcp_rexmit_fast (pcb : tcp_pcb) : tcp_pcb :=
  if negb (bool_decide (unacked pcb = [])) && negb (has TF_INFR (pflags pcb)) then
    let pcb := tcp_rexmit pcb in
    let pcb := if snd_wnd pcb <? cwnd pcb then set_ssthresh (snd_wnd pcb / 2) pcb else set_ssthresh (cwnd pcb / 2) pcb in
    let pcb := if ssthresh pcb <? 2 * mss pcb then set_ssthresh (u16 (2 * mss pcb)) pcb else pcb in
    let pcb := set_cwnd (u16 (ssthresh pcb + 3 * mss pcb)) pcb in
    set_pflags (with_flag TF_INFR (pflags pcb)) pcb
  else pcb.

(** ** The acknowledgment of a segment, the first half of [tcp_receive] *)

(** Update window. *)
Definition update_window (seqno ackno wnd : Z) (pcb : tcp_pcb) : tcp_pcb :=
  if TCP_SEQ_LT (snd_wl1 pcb) seqno || ((snd_wl1 pcb =? seqno) && TCP_SEQ_LT (snd_wl2 pcb) ackno)
     || ((snd_wl2 pcb =? ackno) && (snd_wnd pcb <? wnd)) then
    let pcb := set_snd_wnd wnd pcb in
    let pcb := if snd_wnd_max pcb <? wnd then set_snd_wnd_max wnd pcb else pcb in
    let pcb := set_snd_wl1 seqno pcb in
    let pcb := set_snd_wl2 ackno pcb in
    if snd_wnd pcb =? 0 then
      if persist_backoff pcb =? 0 then set_persist_backoff 1 (set_persist_cnt 0 pcb) else pcb
    else if 0 <? persist_backoff pcb then set_persist_backoff 0 pcb else pcb
  else pcb.

(** An acknowledgment of nothing new; [right_wnd_edge] is that before the update. *)
Definition duplicate_ack (ackno tcplen right_wnd_edge : Z) (pcb : tcp_pcb) : tcp_pcb :=
  let pcb := set_acked 0 pcb in
  if (tcplen =? 0) && (u32 (snd_wl2 pcb + snd_wnd pcb) =? right_wnd_edge) && (0 <=? rtime pcb) && (lastack pcb =? ackno) then
    let pcb := if dupacks pcb <? u8 (dupacks pcb + 1) then set_dupacks (u8 (dupacks pcb + 1)) pcb else pcb in
    if 3 <? dupacks pcb then
      if cwnd pcb <? u16 (cwnd pcb + mss pcb) then set_cwnd (u16 (cwnd pcb + mss pcb)) pcb else pcb
    else if dupacks pcb =? 3 then tcp_rexmit_fast pcb else pcb
  else set_dupacks 0 pcb.

(** The congestion window grows; a division by zero has no result. *)
Definition grow_cwnd (pcb : tcp_pcb) : option tcp_pcb :=
  if state_num ESTABLISHED <=? state_num (state pcb) then
    if cwnd pcb <? ssthresh pcb then
      Some (if cwnd pcb <? u16 (cwnd pcb + mss pcb) then set_cwnd (u16 (cwnd pcb + mss pcb)) pcb else pcb)
    else
      _ ← lwip_assert (negb (cwnd pcb =? 0));
      let new_cwnd := u16 (cwnd pcb + mss pcb * mss pcb / cwnd pcb) in
      Some (if cwnd pcb <? new_cwnd then set_cwnd new_cwnd pcb else pcb)
  else Some pcb.

(** The round trip time. *)
Definition estimate_rtt (ackno tcp_ticks : Z) (pcb : tcp_pcb) : tcp_pcb :=
  if negb (rttest pcb =? 0) && TCP_SEQ_LT (rtseq pcb) ackno then
    let m := s16 (tcp_ticks - rttest pcb) in
    let m := s16 (m - Z.shiftr (sa pcb) 3) in
    let pcb := set_sa (s16 (sa pcb + m)) pcb in
    let m := if m <? 0 then s16 (- m) else m in
    let m := s16 (m - Z.shiftr (sv pcb) 2) in
    let pcb := set_sv (s16 (sv pcb + m)) pcb in
    let pcb := set_rto (s16 (Z.shiftr (sa pcb) 3 + sv pcb)) pcb in
    set_rttest 0 pcb
  else pcb.

Section ack.
Context {A : Type} `{Arena A}.
Implicit Types (h : heap A).

(** One acknowledged segment, which is off its queue. *)
Definition release_seg (next : tcp_seg) (pcb : tcp_pcb) h : option (tcp_pcb * heap A) :=
  clen ← pbuf_clen (sg_p next) h;
  _ ← lwip_assert (clen <=? snd_queuelen pcb);
  let pcb := if negb (acked pcb =? 0) && has TCP_FIN (sg_flags next) then set_acked (u16 (acked pcb - 1)) pcb else pcb in
  let pcb := set_snd_queuelen (u16 (snd_queuelen pcb - clen)) pcb in
  h ← tcp_seg_free next h;
  _ ← lwip_assert ((snd_queuelen pcb =? 0) || negb (bool_decide (unacked pcb = [])) || negb (bool_decide (unsent pcb = [])));
  Some (pcb, h).

Fixpoint ack_unacked (ackno : Z) (l : list tcp_seg) (pcb : tcp_pcb) h : option (tcp_pcb * heap A) :=
  match l with
  | [] => Some (pcb, h)
  | next :: l =>
      if TCP_SEQ_LEQ (sg_seqno next + TCP_TCPLEN next) ackno then
        '(pcb, h) ← release_seg next (set_unacked l pcb) h;
        ack_unacked ackno l pcb h
      else Some (pcb, h)
  end.

Fixpoint ack_unsent (ackno : Z) (l : list tcp_seg) (pcb : tcp_pcb) h : option (tcp_pcb * heap A) :=
  match l with
  | [] => Some (pcb, h)
  | next :: l =>
      if TCP_SEQ_BETWEEN ackno (sg_seqno next + TCP_TCPLEN next) (snd_nxt pcb) then
        let pcb := set_unsent l pcb in
        let pcb := if bool_decide (l = []) then set_unsent_oversize 0 pcb else pcb in
        '(pcb, h) ← release_seg next pcb h;
        ack_unsent ackno l pcb h
      else Some (pcb, h)
  end.

(** An acknowledgment of new data. *)
Definition new_ack (ackno : Z) (pcb : tcp_pcb) h : option (tcp_pcb * heap A) :=
  let pcb := if has TF_INFR (pflags pcb)
             then set_cwnd (ssthresh pcb) (set_pflags (without_flag TF_INFR (pflags pcb)) pcb) else pcb in
  let pcb := set_nrtx 0 pcb in
  let pcb := set_rto (s16 (Z.shiftr (sa pcb) 3 + sv pcb)) pcb in
  let pcb := set_acked (u16 (ackno - lastack pcb)) pcb in
  let pcb := set_snd_buf (u16 (snd_buf pcb + acked pcb)) pcb in
  let pcb := set_dupacks 0 pcb in
  let pcb := set_lastack ackno pcb in
  pcb ← grow_cwnd pcb;
  '(pcb, h) ← ack_unacked ackno (unacked pcb) pcb h;
  let pcb := set_rtime (if bool_decide (unacked pcb = []) then -1 else 0) pcb in
  Some (set_polltmr 0 pcb, h).

Definition tcp_receive_ack (seqno ackno wnd tcplen tcp_ticks : Z) (pcb : tcp_pcb) h : option (tcp_pcb * heap A) :=
  let right_wnd_edge := u32 (snd_wnd pcb + snd_wl2 pcb) in
  let pcb := update_window seqno ackno wnd pcb in
  '(pcb, h) ←
    (if TCP_SEQ_LEQ ackno (lastack pcb) then Some (duplicate_ack ackno tcplen right_wnd_edge pcb, h)
     else if TCP_SEQ_BETWEEN ackno (lastack pcb + 1) (snd_nxt pcb) then new_ack ackno pcb h
     else Some (set_acked 0 pcb, h));
  '(pcb, h) ← ack_unsent ackno (unsent pcb) pcb h;
  Some (estimate_rtt ackno tcp_ticks pcb, h).
End ack.

(** ** The text of a segment, the second half of [tcp_receive] *)
Section receive.
Context {A W : Type} `{Arena A}.
Context (tcp_send_empty_ack : tcp_pcb → W * heap A → option (tcp_pcb * W * heap A)).
Implicit Types (h : heap A).

(** The control block, the variables of tcp_in.c ([in_flags] is [flags],
    [in_wnd] is [tcphdr->wnd]), the layers below and the packets. *)
Record rx := MkRx {
  pcb : tcp_pcb;
  inseg : tcp_seg;
  seqno : Z;
  ackno : Z;
  in_flags : Z;
  in_wnd : Z;
  tcplen : Z;
  recv_flags : Z;
  recv_data : option Z;
  tcp_ticks : Z;
  lower_net : W;
  packets : heap A }.

Definition eta_rx (s : rx) : rx :=
  MkRx (pcb s) (inseg s) (seqno s) (ackno s) (in_flags s) (in_wnd s) (tcplen s) (recv_flags s) (recv_data s)
    (tcp_ticks s) (lower_net s) (packets s).

Definition set_pcb : tcp_pcb → rx → rx := ltac:(setter eta_rx pcb).
Definition set_inseg : tcp_seg → rx → rx := ltac:(setter eta_rx inseg).
Definition set_seqno : Z → rx → rx := ltac:(setter eta_rx seqno).
Definition set_tcplen : Z → rx → rx := ltac:(setter eta_rx tcplen).
Definition set_recv_flags : Z → rx → rx := ltac:(setter eta_rx recv_flags).
Definition set_recv_data : option Z → rx → rx := ltac:(setter eta_rx recv_data).
Definition set_lower_net : W → rx → rx := ltac:(setter eta_rx lower_net).
Definition set_packets : heap A → rx → rx := ltac:(setter eta_rx packets).
Implicit Types (s : rx).

(** *** Trimming the first edge *)

(** The pbufs that hold only old text are emptied. *)
Fixpoint trim_loop (fuel : nat) (p off new_tot_len : Z) h : option (heap A * Z * Z) :=
  b ← pbufs h !! p;
  if len b <? off then
    match fuel with
    | O => None
    | S fuel =>
        h ← upd p (set_tot_len new_tot_len) h;
        h ← upd p (set_len 0) h;
        p ← next b;
        trim_loop fuel p (off - len b) new_tot_len h
    end
  else Some (h, p, off).

Definition trim_front s : option rx :=
  let off := s32 (u32 (rcv_nxt (pcb s) - seqno s)) in
  p ← sg_p (inseg s);  (* LWIP_ASSERT("inseg.p != NULL", inseg.p) *)
  _ ← lwip_assert (off <? 32767);
  b ← pbufs (packets s) !! p;
  '(h, r) ←
    (if len b <? off then
       _ ← lwip_assert (off <=? tot_len b);
       '(h, q, off) ← trim_loop (size (pbufs (packets s))) p off (u16 (tot_len b - off)) (packets s);
       pbuf_header q (s16 (- off)) h
     else pbuf_header p (s16 (- off)) (packets s));
  _ ← lwip_assert (r =? 0);
  let g := set_sg_len (u16 (sg_len (inseg s) - u16 (rcv_nxt (pcb s) - seqno s))) (inseg s) in
  let s := set_packets h s in
  Some (set_seqno (rcv_nxt (pcb s)) (set_inseg (set_sg_seqno (rcv_nxt (pcb s)) g) s)).

(** *** The next segment in sequence *)

(** [inseg.len] is set, less the SYN, and the packet trimmed to it. *)
Definition shorten_inseg (n : Z) s : option rx :=
  let n := u16 (if has TCP_SYN (sg_flags (inseg s)) then n - 1 else n) in
  let g := set_sg_len n (inseg s) in
  h ← trim_packet g (packets s);
  Some (set_packets h (set_tcplen (u16 (TCP_TCPLEN g)) (set_inseg g s))).

(** The other end overran the receive window. *)
Definition trim_to_window s : option rx :=
  let s := set_tcplen (u16 (TCP_TCPLEN (inseg s))) s in
  if rcv_wnd (pcb s) <? tcplen s then
    let s := set_inseg (clear_fin (inseg s)) s in
    s ← shorten_inseg (rcv_wnd (pcb s)) s;
    _ ← lwip_assert (u32 (seqno s + tcplen s) =? u32 (rcv_nxt (pcb s) + rcv_wnd (pcb s)));
    Some s
  else Some s.

(** Queued segments that [inseg] covers are freed; [inseg] takes over a FIN. *)
Fixpoint drop_covered (l : list tcp_seg) s : option (rx * list tcp_seg) :=
  match l with
  | [] => Some (s, [])
  | next :: l' =>
      if TCP_SEQ_GEQ (seqno s + tcplen s) (sg_seqno next + sg_len next) then
        let s := if has TCP_FIN (sg_flags next) && negb (has TCP_SYN (sg_flags (inseg s)))
                 then let g := TCPH_SET_FLAG TCP_FIN (inseg s) in set_tcplen (u16 (TCP_TCPLEN g)) (set_inseg g s)
                 else s in
        h ← tcp_seg_free next (packets s);
        drop_covered l' (set_packets h s)
      else Some (s, l)
  end.

Definition set_queue (l : list tcp_seg) s : rx := set_pcb (set_ooseq l (pcb s)) s.

(** The queue of segments out of sequence, in view of [inseg]. *)
Definition adjust_ooseq s : option rx :=
  match ooseq (pcb s) with
  | [] => Some s
  | l =>
      if has TCP_FIN (sg_flags (inseg s)) then
        h ← tcp_segs_free l (packets s);
        Some (set_packets h (set_queue [] s))
      else
        '(s, l) ← drop_covered l s;
        match l with
        | next :: _ =>
            if TCP_SEQ_GT (seqno s + tcplen s) (sg_seqno next) then
              s ← shorten_inseg (u16 (sg_seqno next - seqno s)) s;
              _ ← lwip_assert (u32 (seqno s + tcplen s) =? sg_seqno next);
              Some (set_queue l s)
            else Some (set_queue l s)
        | [] => Some (set_queue l s)
        end
  end.

(** [rcv_nxt] and the window advance by [n]. *)
Definition advance (n : Z) (nxt : Z) s : option rx :=
  let c := set_rcv_nxt nxt (pcb s) in
  _ ← lwip_assert (n <=? rcv_wnd c);
  let c := set_rcv_wnd (u16 (rcv_wnd c - n)) c in
  '(c, _) ← tcp_update_rcv_ann_wnd c;
  Some (set_pcb c s).

(** The text of [inseg] goes to [recv_data]. *)
Definition take_inseg s : option rx :=
  p ← sg_p (inseg s);
  b ← pbufs (packets s) !! p;
  let s := if 0 <? tot_len b then set_inseg (set_sg_p None (inseg s)) (set_recv_data (Some p) s) else s in
  Some (if has TCP_FIN (sg_flags (inseg s)) then set_recv_flags (with_flag TF_GOT_FIN (recv_flags s)) s else s).

(** The text of a queued segment joins it. *)
Definition take_queued (cseg : tcp_seg) s : option (rx * tcp_seg) :=
  p ← sg_p cseg;
  b ← pbufs (packets s) !! p;
  if 0 <? tot_len b then
    match recv_data s with
    | Some d => h ← pbuf_cat (Some d) (Some p) (packets s); Some (set_packets h s, set_sg_p None cseg)
    | None => Some (set_recv_data (Some p) s, set_sg_p None cseg)
    end
  else Some (s, cseg).

(** Queued segments that are now in sequence. *)
Fixpoint dequeue (l : list tcp_seg) s : option rx :=
  match l with
  | [] => Some s
  | cseg :: l =>
      if sg_seqno cseg =? rcv_nxt (pcb s) then
        let s := set_seqno (sg_seqno cseg) s in
        s ← advance (TCP_TCPLEN cseg) (u32 (rcv_nxt (pcb s) + TCP_TCPLEN cseg)) s;
        '(s, cseg) ← take_queued cseg s;
        let s :=
          if has TCP_FIN (sg_flags cseg) then
            let s := set_recv_flags (with_flag TF_GOT_FIN (recv_flags s)) s in
            if decide (state (pcb s) = ESTABLISHED) then set_pcb (set_state CLOSE_WAIT (pcb s)) s else s
          else s in
        let s := set_queue l s in
        h ← tcp_seg_free cseg (packets s);
        dequeue l (set_packets h s)
      else Some s
  end.

Definition in_sequence s : option rx :=
  s ← trim_to_window s;
  s ← adjust_ooseq s;
  s ← advance (tcplen s) (u32 (seqno s + tcplen s)) s;
  s ← take_inseg s;
  s ← dequeue (ooseq (pcb s)) s;
  Some (set_pcb (tcp_ack (pcb s)) s).

(** *** A segment out of sequence *)

(** The loop of [tcp_oos_insert_segment] that frees covered segments. *)
Fixpoint oos_drop (cseg : tcp_seg) (next : list tcp_seg) s : option (rx * tcp_seg * list tcp_seg) :=
  match next with
  | [] => Some (s, cseg, [])
  | g :: rest =>
      if TCP_SEQ_GEQ (seqno s + sg_len cseg) (sg_seqno g + sg_len g) then
        let cseg := if has TCP_FIN (sg_flags g) then TCPH_SET_FLAG TCP_FIN cseg else cseg in
        h ← tcp_seg_free g (packets s);
        oos_drop cseg rest (set_packets h s)
      else Some (s, cseg, next)
  end.

(** The result is [cseg] with the segments that follow it. *)
Definition tcp_oos_insert_segment (cseg : tcp_seg) (next : list tcp_seg) s : option (rx * list tcp_seg) :=
  if has TCP_FIN (sg_flags cseg) then
    h ← tcp_segs_free next (packets s);
    Some (set_packets h s, [cseg])
  else
    '(s, cseg, next) ← oos_drop cseg next s;
    match next with
    | g :: _ =>
        if TCP_SEQ_GT (seqno s + sg_len cseg) (sg_seqno g) then
          let cseg := set_sg_len (u16 (sg_seqno g - seqno s)) cseg in
          h ← trim_packet cseg (packets s);
          Some (set_packets h s, cseg :: next)
        else Some (s, cseg :: next)
    | [] => Some (s, [cseg])
    end.

(** A segment whose end [seqno] overlaps is trimmed. *)
Definition trim_prev (prev : tcp_seg) s : option (rx * tcp_seg) :=
  if TCP_SEQ_GT (sg_seqno prev + sg_len prev) (seqno s) then
    let prev := set_sg_len (u16 (seqno s - sg_seqno prev)) prev in
    h ← trim_packet prev (packets s);
    Some (set_packets h s, prev)
  else Some (s, prev).

(** The copy of [inseg] at the end of the queue, behind [next]: the window
    check is that of the code, on sums reduced to 32 bits. *)
Definition oos_append (next cseg : tcp_seg) s : option (rx * list tcp_seg) :=
  '(s, next) ← trim_prev next s;
  let right := u32 (rcv_nxt (pcb s) + rcv_wnd (pcb s)) in
  if right <? u32 (tcplen s + seqno s) then
    let cseg := set_sg_len (u16 (rcv_nxt (pcb s) + rcv_wnd (pcb s) - seqno s)) (clear_fin cseg) in
    h ← trim_packet cseg (packets s);
    let s := set_tcplen (u16 (TCP_TCPLEN cseg)) (set_packets h s) in
    _ ← lwip_assert (u32 (seqno s + tcplen s) =? right);
    Some (s, [next; cseg])
  else Some (s, [next; cseg]).

(** The walk through the queue: [pre] has been passed, [prev] is its last. *)
Fixpoint oos_place (pre suf : list tcp_seg) s : option rx :=
  match suf with
  | [] => Some s
  | next :: rest =>
      let append :=
        if bool_decide (rest = []) && TCP_SEQ_GT (seqno s) (sg_seqno next) then
          if has TCP_FIN (sg_flags next) then Some s else
          '(h, c) ← tcp_seg_copy (inseg s) (packets s);
          let s := set_packets h s in
          match c with
          | None => Some s
          | Some cseg => '(s, l) ← oos_append next cseg s; Some (set_queue (pre ++ l) s)
          end
        else oos_place (pre ++ [next]) rest s in
      if seqno s =? sg_seqno next then
        if sg_len next <? sg_len (inseg s) then
          '(h, c) ← tcp_seg_copy (inseg s) (packets s);
          let s := set_packets h s in
          match c with
          | None => Some s
          | Some cseg => '(s, l) ← tcp_oos_insert_segment cseg suf s; Some (set_queue (pre ++ l) s)
          end
        else Some s
      else
        match last pre with
        | None =>
            if TCP_SEQ_LT (seqno s) (sg_seqno next) then
              '(h, c) ← tcp_seg_copy (inseg s) (packets s);
              let s := set_packets h s in
              match c with
              | None => Some s
              | Some cseg => '(s, l) ← tcp_oos_insert_segment cseg suf s; Some (set_queue l s)
              end
            else append
        | Some prev =>
            if TCP_SEQ_BETWEEN (seqno s) (sg_seqno prev + 1) (sg_seqno next - 1) then
              '(h, c) ← tcp_seg_copy (inseg s) (packets s);
              let s := set_packets h s in
              match c with
              | None => Some s
              | Some cseg =>
                  '(s, prev) ← trim_prev prev s;
                  '(s, l) ← tcp_oos_insert_segment cseg suf s;
                  Some (set_queue (removelast pre ++ prev :: l) s)
              end
            else append
        end
  end.

(** [tcp_send_empty_ack] on the state. *)
Definition send_empty_ack s : option rx :=
  '(c, w, h) ← tcp_send_empty_ack (pcb s) (lower_net s, packets s);
  Some (set_packets h (set_lower_net w (set_pcb c s))).

Definition out_of_sequence s : option rx :=
  s ← send_empty_ack s;
  match ooseq (pcb s) with
  | [] =>
      '(h, c) ← tcp_seg_copy (inseg s) (packets s);
      Some (set_queue (match c with Some g => [g] | None => [] end) (set_packets h s))
  | l => oos_place [] l s
  end.

(** *** The whole *)
Definition in_window s : bool :=
  TCP_SEQ_BETWEEN (seqno s) (rcv_nxt (pcb s)) (rcv_nxt (pcb s) + rcv_wnd (pcb s) - 1).

Definition tcp_receive_text s : option rx :=
  if (0 <? tcplen s) && (state_num (state (pcb s)) <? state_num CLOSE_WAIT) then
    s ← (if TCP_SEQ_BETWEEN (rcv_nxt (pcb s)) (seqno s + 1) (seqno s + tcplen s - 1) then trim_front s
         else Some (if TCP_SEQ_LT (seqno s) (rcv_nxt (pcb s)) then set_pcb (tcp_ack_now (pcb s)) s else s));
    if in_window s then
      if rcv_nxt (pcb s) =? seqno s then in_sequence s else out_of_sequence s
    else send_empty_ack s
  else Some (if in_window s then s else set_pcb (tcp_ack_now (pcb s)) s).

Definition tcp_receive s : option rx :=
  _ ← lwip_assert (state_num ESTABLISHED <=? state_num (state (pcb s)));
  s ← (if has TCP_ACK (in_flags s) then
         '(c, h) ← tcp_receive_ack (seqno s) (ackno s) (in_wnd s) (tcplen s) (tcp_ticks s) (pcb s) (packets s);
         Some (set_packets h (set_pcb c s))
       else Some s);
  tcp_receive_text s.

(** The end of [tcp_input]: the reference to [inseg.p] is given up. *)
Definition end_input s : option rx :=
  match sg_p (inseg s) with
  | Some p => '(h, _) ← pbuf_free (Some p) (packets s); Some (set_packets h (set_inseg (set_sg_p None (inseg s)) s))
  | None => Some s
  end.
End receive.
Arguments rx : clear implicits.
Arguments MkRx {A W}.
