(* ===== verification/TcpTrim.v ===== *)
(** * TCP: trimming the first edge of a segment

    The pbufs with old text only are emptied, the payload of the first one
    with new text is moved: what is left is the rest of the text. *)
From S2P Require Import Prelude LwipDef Chksum Memp Pbuf PbufRef PbufOwn PbufData IpReassJoin PbufMove TcpDef TcpSeq TcpHold TcpRecv.
Local Open Scope Z_scope.

Section trim.
Context {A : Type} `{HL : ArenaLaws A}.
Implicit Types (h : heap A) (E : Z → nat).

Lemma read_mem_drop m a k n : (k ≤ n)%nat → read_mem m (a + Z.of_nat k) (n - k) = drop k (read_mem m a n).
Proof.
  intros Hk. apply list_eq. intros i. rewrite lookup_drop. destruct (decide (i < n - k)%nat).
  - rewrite !lookup_read_mem by lia. do 2 f_equal. lia.
  - rewrite !lookup_ge_None_2; [done|rewrite length_read_mem; lia|rewrite length_read_mem; lia].
Qed.

(** The payload of a pbuf that may move forward: inside its block. *)
Definition inside h (l : list Z) : Prop := ∀ a b, a ∈ l → pbufs h !! a = Some b → in_ram b → a + SIZEOF_STRUCT_PBUF <= payload b.

Lemma header_forward h p b off : pbufs h !! p = Some b → 0 <= len b <= tot_len b → tot_len b < 65536 → 0 <= off <= len b → off < 32768 →
  (in_ram b → p + SIZEOF_STRUCT_PBUF <= payload b) → pbuf_header p (- off) h = Some (set_pbuf p (moved (- off) b) h, 0).
Proof.
  intros Hb Hl Ht Ho Ho2 Hi. destruct (decide (off = 0)) as [->|Hne].
  { unfold pbuf_header. rewrite Hb. cbn [mbind option_bind]. simpl. by rewrite moved_0, set_pbuf_id by done. }
  destruct (type b) eqn:Ety.
  - apply pbuf_header_fits; try done; try lia; [by left|]. specialize (Hi (or_introl Ety)). lia.
  - unfold pbuf_header. rewrite Hb. cbn [mbind option_bind]. rewrite Ety, (proj2 (Z.eqb_neq _ _)), (proj2 (Z.ltb_lt (- off) 0)) by lia.
    rewrite u16_id, (proj2 (Z.leb_le _ _)) by (unfold is_u16; lia). simpl. unfold set_pbuf, moved, set_tot_len, set_len, set_payload. simpl.
    by rewrite !u16_id by (unfold is_u16; lia).
  - unfold pbuf_header. rewrite Hb. cbn [mbind option_bind]. rewrite Ety, (proj2 (Z.eqb_neq _ _)), (proj2 (Z.ltb_lt (- off) 0)) by lia.
    rewrite u16_id, (proj2 (Z.leb_le _ _)) by (unfold is_u16; lia). simpl. unfold set_pbuf, moved, set_tot_len, set_len, set_payload. simpl.
    by rewrite !u16_id by (unfold is_u16; lia).
  - apply pbuf_header_fits; try done; try lia; [by right|]. specialize (Hi (or_intror Ety)). lia.
Qed.

Definition emptied (n : Z) b : pbuf := MkPbuf (next b) (payload b) n 0 (type b) (flags b) (ref b).

(** The first pbuf with new text. *)
Lemma trim_loop_ok E nt : ∀ l fuel h p n off,
  heap_ok h E → packet h (Some p) l n 0 → plain h l → nt = n - off → 0 < off <= n → (length l ≤ S fuel)%nat →
  ∃ h' l1 q l2 bq off', trim_loop fuel p off nt h = Some (h', q, off') ∧ l = l1 ++ q :: l2 ∧ heap_ok h' E ∧
    pbufs h !! q = Some bq ∧ 0 < off' <= len bq ∧ nt = tot_len bq - off' ∧ off' <= off ∧
    packet h (Some q) (q :: l2) (tot_len bq) 0 ∧ drop (Z.to_nat off) (packet_data h l) = drop (Z.to_nat off') (packet_data h (q :: l2)) ∧
    mem h' = mem h ∧ arena h' = arena h ∧ (∀ x, x ∉ l1 → pbufs h' !! x = pbufs h !! x) ∧
    (∀ a, a ∈ l1 → ∃ b, pbufs h !! a = Some b ∧ pbufs h' !! a = Some (emptied nt b) ∧ next b ≠ None) ∧
    ∀ h2, (∀ x, x ∈ l1 → pbufs h2 !! x = pbufs h' !! x) → packet h2 (Some q) (q :: l2) nt 0 → packet h2 (Some p) l nt 0.
Proof.
  induction l as [|a l IH]; intros fuel h p n off K P Pl Hnt Hoff Hf; [by destruct P|].
  pose proof (chain_of_nodup _ _ _ (packet_chain _ _ _ _ _ P)) as [Hal ND]%NoDup_cons.
  pose proof P as P0. destruct P as ([= <-] & b & Hb & Ht & Hl & P). pose proof (packet_le _ _ _ _ _ P) as Hle.
  assert (Ed : packet_data h (p :: l) = pbuf_data h p ++ packet_data h l) by done.
  pose proof (length_pbuf_data h p b Hb Hl) as Ld.
  destruct (Z.ltb_spec (len b) off) as [Hlt|Hge].
  2:{ exists h, [], p, l, b, off. split_and!; try done.
      - destruct fuel; cbn [trim_loop]; rewrite Hb; cbn [mbind option_bind]; by rewrite (proj2 (Z.ltb_ge _ _)) by lia.
      - lia.
      - lia.
      - rewrite Ht. exact P0.
      - by intros ? ?%not_elem_of_nil. }
  destruct l as [|a2 l]; [destruct P as [_ ?]; lia|]. pose proof P as (Hnx & _).
  destruct fuel as [|fuel]; [simpl in Hf; lia|]. cbn [trim_loop]. rewrite Hb. cbn [mbind option_bind]. rewrite (proj2 (Z.ltb_lt _ _)) by done.
  rewrite (upd_set p _ b) by done. cbn [mbind option_bind]. rewrite (upd_set p _ (set_tot_len nt b)) by apply set_pbuf_lookup.
  cbn [mbind option_bind]. rewrite set_pbuf_twice. rewrite Hnx in P |- *. cbn [mbind option_bind].
  change (set_len 0 (set_tot_len nt b)) with (emptied nt b). set (h1 := set_pbuf p (emptied nt b) h).
  assert (K1 : heap_ok h1 E) by (by apply (set_pbuf_ok h p b)).
  assert (Fr1 : ∀ x, x ∈ a2 :: l → pbufs h1 !! x = pbufs h !! x) by (intros x Hx; apply set_pbuf_other; by intros ->).
  assert (P1 : packet h1 (Some a2) (a2 :: l) (n - len b) 0) by (by eapply packet_frame).
  destruct (IH fuel h1 a2 (n - len b) (off - len b) K1 P1) as (h' & l1 & q & l2 & bq & off' & E1 & El & K' & Hq & Ho & Eq & Hoo & Pq & Dq & Em & Ea & Fr & Emp & Fin);
    [eapply plain_frame; [exact Fr1|]; eapply plain_sub; [|exact Pl]; set_solver|lia|lia|simpl in Hf |- *; lia|].
  assert (Hqin : q ∈ a2 :: l) by (rewrite El; set_solver).
  assert (Hl1 : ∀ x, x ∈ l1 → x ∈ a2 :: l) by (intros x Hx; rewrite El; set_solver).
  assert (Same : packet_data h1 (a2 :: l) = packet_data h (a2 :: l)).
  { apply packet_data_ext; [done| |]; intros x Hx; [intros bx Hbx; rewrite Fr1 by done; by exists bx|]. eapply chain_of_in; [|exact Hx]. by eapply packet_chain. }
  assert (Sameq : packet_data h1 (q :: l2) = packet_data h (q :: l2)).
  { apply packet_data_ext; [done| |]; intros x Hx.
    - intros bx Hbx. rewrite Fr1 by (rewrite El; set_solver). by exists bx.
    - eapply chain_of_in; [eapply packet_chain; exact P|]. rewrite El. set_solver. }
  exists h', (p :: l1), q, l2, bq, off'. split_and!.
  - exact E1.
  - by rewrite El.
  - exact K'.
  - by rewrite <- Fr1.
  - lia.
  - lia.
  - done.
  - lia.
  - eapply packet_frame; [|exact Pq]. intros x Hx. symmetry. apply Fr1. rewrite El. set_solver.
  - rewrite Ed, drop_app, drop_ge by lia. simpl app. replace (Z.to_nat off - length (pbuf_data h p))%nat with (Z.to_nat (off - len b)) by lia.
    by rewrite <- Same, Dq, Sameq.
  - done.
  - done.
  - intros x Hx. rewrite Fr by set_solver. apply set_pbuf_other. set_solver.
  - intros x [->|Hx]%elem_of_cons.
    + exists b. rewrite Fr by (intros Hin; apply Hal, Hl1, Hin). unfold h1. rewrite set_pbuf_lookup. split_and!; try done. by rewrite Hnx.
    + destruct (Emp x Hx) as (bx & Hbx & Hbx' & Hnn). exists bx. rewrite <- Fr1 by auto. done.
  - intros h2 Hf2 P2. split; [done|]. exists (emptied nt b). rewrite (Hf2 p) by (by left).
    rewrite Fr by (intros Hin; apply Hal, Hl1, Hin). unfold h1. rewrite set_pbuf_lookup. cbn [emptied next tot_len len].
    split; [done|]. split; [done|]. split; [lia|]. rewrite Z.sub_0_r, Hnx. apply Fin; [|done]. intros x Hx. apply Hf2. by right.
Qed.

Lemma emptied_data h h' l1 n : (∀ a, a ∈ l1 → ∃ b, pbufs h !! a = Some b ∧ pbufs h' !! a = Some (emptied n b) ∧ next b ≠ None) →
  packet_data h' l1 = [].
Proof.
  induction l1 as [|a l1 IH]; intros He; [done|]. change (packet_data h' (a :: l1)) with (pbuf_data h' a ++ packet_data h' l1).
  rewrite IH by (intros x Hx; apply He; by right). destruct (He a ltac:(by left)) as (b & _ & Hb & _). unfold pbuf_data. by rewrite Hb.
Qed.

Lemma moved_data h q bq l2 off : pbufs h !! q = Some bq → 0 <= off <= len bq → q ∉ l2 →
  packet_data (set_pbuf q (moved (- off) bq) h) (q :: l2) = drop (Z.to_nat off) (packet_data h (q :: l2)).
Proof.
  intros Hq Ho Hn. set (h2 := set_pbuf _ _ h).
  change (packet_data h2 (q :: l2)) with (pbuf_data h2 q ++ packet_data h2 l2).
  change (packet_data h (q :: l2)) with (pbuf_data h q ++ packet_data h l2).
  pose proof (length_pbuf_data h q bq Hq ltac:(lia)) as Ld. rewrite drop_app_le by lia. f_equal.
  - unfold pbuf_data at 1. unfold h2. rewrite set_pbuf_lookup. simpl. unfold pbuf_data. rewrite Hq.
    replace (payload bq - - off) with (payload bq + Z.of_nat (Z.to_nat off)) by lia.
    replace (Z.to_nat (len bq + - off)) with (Z.to_nat (len bq) - Z.to_nat off)%nat by lia. apply read_mem_drop. lia.
  - unfold packet_data. f_equal. apply list_fmap_ext. intros i x Hx%list_elem_of_lookup_2. unfold pbuf_data, h2.
    rewrite set_pbuf_other; [done|]. by intros ->.
Qed.

(** The packet without its first [off] octets. *)
Lemma skip_octets_ok h p l n off E :
  heap_ok h E → packet h (Some p) l n 0 → plain h l → inside h l → 0 < off <= n → n < 32768 →
  ∃ h', ('(h, q, off) ← trim_loop (size (pbufs h)) p off (u16 (n - off)) h; pbuf_header q (s16 (- off)) h) = Some (h', 0) ∧
    heap_ok h' E ∧ packet h' (Some p) l (n - off) 0 ∧ (off < n → plain h' l) ∧
    packet_data h' l = drop (Z.to_nat off) (packet_data h l) ∧ mem h' = mem h ∧ arena h' = arena h ∧ ∀ x, x ∉ l → pbufs h' !! x = pbufs h !! x.
Proof.
  intros K P Pl In Ho Hn. rewrite u16_id by (unfold is_u16; lia).
  destruct (trim_loop_ok E (n - off) l (size (pbufs h)) h p n off K P Pl eq_refl Ho) as
    (h1 & l1 & q & l2 & bq & off' & -> & El & K1 & Hq & Ho' & Eq & Hoo & Pq & Dq & Em & Ea & Fr & Emp & Fin).
  { pose proof (chain_of_size _ _ _ (packet_chain _ _ _ _ _ P)). lia. }
  cbn [mbind option_bind]. pose proof (chain_of_nodup _ _ _ (packet_chain _ _ _ _ _ P)) as ND. rewrite El in ND.
  apply NoDup_app in ND as (N1 & D & [Nq N2]%NoDup_cons).
  assert (Hq1 : ∀ x, x ∈ q :: l2 → pbufs h1 !! x = pbufs h !! x) by (intros x Hx; apply Fr; intros Hx1; by apply (D x Hx1)).
  assert (Hqh1 : pbufs h1 !! q = Some bq) by (rewrite Hq1 by (by left); done).
  destruct (packet_first _ _ _ _ Pq) as (bq0 & lq & _ & Hbq0 & _ & Hlq). assert (bq0 = bq) as -> by congruence.
  rewrite s16_id by lia. rewrite (header_forward h1 q bq off') by (done || lia || (intros; apply (In q); [rewrite El; set_solver|done|done])).
  set (h2 := set_pbuf q (moved (- off') bq) h1).
  assert (P1 : packet h1 (Some q) (q :: l2) (tot_len bq) 0) by (by eapply packet_frame).
  assert (Fr2 : ∀ x, x ≠ q → pbufs h2 !! x = pbufs h1 !! x) by (intros x Hx; by apply set_pbuf_other).
  assert (Hl1 : ∀ x, x ∈ l1 → pbufs h2 !! x = pbufs h1 !! x) by (intros x Hx; apply Fr2; intros ->; apply (D q Hx); by left).
  assert (Emp2 : ∀ a, a ∈ l1 → ∃ b, pbufs h !! a = Some b ∧ pbufs h2 !! a = Some (emptied (n - off) b) ∧ next b ≠ None).
  { intros a Ha. rewrite Hl1 by done. by apply Emp. }
  exists h2. split; [done|]. split; [by apply moved_ok|]. split; [|split; [|split; [|split; [done|split; [done|]]]]].
  - apply Fin; [done|]. rewrite Eq. replace (tot_len bq - off') with (tot_len bq + - off') by lia. apply packet_moved; done || lia.
  - intros Hlt a b Ha Hb. rewrite El in Ha. apply elem_of_app in Ha as [Ha|Ha].
    + destruct (Emp2 a Ha) as (b0 & Hb0 & Hb2 & Hnn). rewrite Hb2 in Hb. injection Hb as <-. simpl.
      destruct (Pl a b0) as [Hc _]; [rewrite El; set_solver|done|]. split; [done|lia].
    + revert a b Ha Hb. apply (plain_moved h1 q bq); [|done]. eapply plain_frame; [exact Hq1|]. eapply plain_sub; [|exact Pl]. rewrite El. set_solver.
  - rewrite El, packet_data_app, (emptied_data h h2 l1 (n - off) Emp2), app_nil_l. rewrite <- El, Dq.
    unfold h2. rewrite (moved_data h1 q bq l2 off' Hqh1) by (done || lia). f_equal. apply packet_data_ext; [done| |].
    + intros x Hx bx Hbx. rewrite Hq1 by done. by exists bx.
    + intros x Hx. eapply chain_of_in; [|exact Hx]. by eapply packet_chain.
  - intros x Hx. rewrite El in Hx. rewrite Fr2 by set_solver. apply Fr. set_solver.
Qed.
End trim.

Section front.
Context {A W : Type} `{HL : ArenaLaws A}.
Context (Stream : list Z) (R0 : Z).
Implicit Types (h : heap A) (E : Z → nat) (s : rx A W) (c : chunk).
Local Abbreviation seg_of := (seg_of R0).
Local Abbreviation holds := (holds Stream).

Definition from (lo : Z) c : chunk := MkChunk (c_addr c) (c_p c) (c_pbufs c) lo (c_hi c) (c_opts c) (c_flags c).

Lemma trim_front_ok s c r E :
  inseg s = seg_of c → seqno s = seq_at R0 (c_lo c) → rcv_nxt (pcb s) = seq_at R0 r → holds (packets s) c → heap_ok (packets s) E →
  inside (packets s) (c_pbufs c) → c_lo c < r → r < c_end c → c_hi c - c_lo c < 32767 →
  ∃ h', trim_front s = Some (set_seqno (seq_at R0 r) (set_inseg (seg_of (from r c)) (set_packets h' s))) ∧
    holds h' (from r c) ∧ heap_ok h' E ∧ touches (c_pbufs c) [] (packets s) h'.
Proof.
  intros Ei Es En Hc K In Hlo Hhi Hsm. pose proof Hc as [H1 H2 H3 H4 H5 H6 H7].
  assert (Hrhi : r <= c_hi c) by (unfold c_end in Hhi; case_match; lia).
  destruct (packet_first _ _ _ _ H1) as (b & l' & El & Hb & Ht & Hl).
  destruct (skip_octets_ok (packets s) (c_p c) (c_pbufs c) (c_hi c - c_lo c) (r - c_lo c) E K H1 (H2 ltac:(lia)) In ltac:(lia) ltac:(lia))
    as (h' & Eh & K' & P' & Pl' & D' & Em & Ea & Fr).
  exists h'. split; [|split; [|split; [done|]]].
  - unfold trim_front. rewrite Ei, En, Es. cbn [seg_of sg_p]. cbn [mbind option_bind].
    rewrite (at_s32 R0 _ _ r (c_lo c)) by (apply at_seq || (unfold near; lia)).
    rewrite assert_true by lia. cbn [mbind option_bind]. rewrite Hb. cbn [mbind option_bind]. rewrite Ht.
    assert (Eb : (if len b <? r - c_lo c then
         _ ← lwip_assert (r - c_lo c <=? c_hi c - c_lo c);
         '(h, q, off) ← trim_loop (size (pbufs (packets s))) (c_p c) (r - c_lo c) (u16 (c_hi c - c_lo c - (r - c_lo c))) (packets s);
         pbuf_header q (s16 (- off)) h
       else pbuf_header (c_p c) (s16 (- (r - c_lo c))) (packets s)) = Some (h', 0)).
    { rewrite <- Eh. destruct (Z.ltb_spec (len b) (r - c_lo c)); [by rewrite assert_true by lia|].
      destruct (size (pbufs (packets s))); cbn [trim_loop]; rewrite Hb; cbn [mbind option_bind]; by rewrite (proj2 (Z.ltb_ge _ _)) by lia. }
    rewrite Eb. cbn [mbind option_bind]. rewrite assert_true by done. cbn [mbind option_bind].
    change (rcv_nxt (pcb (set_packets h' s))) with (rcv_nxt (pcb s)). rewrite En. do 3 f_equal.
    assert (Ed : u16 (seq_at R0 r - seq_at R0 (c_lo c)) = r - c_lo c).
    { unfold seq_at, u32, u16. Z.to_euclidean_division_equations. lia. }
    unfold set_sg_seqno, set_sg_len. cbn [TcpHold.seg_of from sg_addr sg_p sg_len sg_opts sg_flags c_addr c_p c_lo c_hi c_opts c_flags].
    rewrite Ed, u16_id by (unfold is_u16; lia). unfold TcpHold.seg_of. cbn [from c_addr c_p c_lo c_hi c_opts c_flags]. f_equal. lia.
  - constructor; cbn [from c_p c_pbufs c_lo c_hi c_flags].
    + by replace (c_hi c - r) with (c_hi c - c_lo c - (r - c_lo c)) by lia.
    + intros Hlt. apply Pl'. lia.
    + rewrite D', H3. apply text_drop; lia.
    + lia.
    + change (c_end (from r c)) with (c_end c). lia.
    + done.
    + done.
  - constructor; [done|done|]. intros i _ Hi. by rewrite Ea.
Qed.
End front.
