(* ===== verification/TcpQueue.v ===== *)
(** * TCP: the window, and the queue of segments out of sequence

    [mid] is what holds while the text that is in sequence is collected: the
    position reached, the queue behind it, the octets collected so far. *)
From Stdlib Require Import Sorted.
From S2P Require Import Prelude LwipDef Chksum Memp Pbuf PbufRef PbufOwn PbufData IpReassJoin PbufMove TcpDef TcpSeq TcpHold TcpRecv.
Local Open Scope Z_scope.

(** ** The window

    [r] is the position that is expected next, [a] the right edge that was
    announced, [e] that of the window. *)
Section window.
Context (R0 : Z).
Local Abbreviation seq_at := (seq_at R0).

Record win_ok (c : tcp_pcb) (r e a : Z) : Prop := {
  wi_nxt : rcv_nxt c = seq_at r;
  wi_wnd : rcv_wnd c = e - r;
  wi_edge : rcv_ann_right_edge c = seq_at a;
  wi_ann : a <= r + rcv_ann_wnd c ∧ r + rcv_ann_wnd c <= e;
  wi_order : 0 <= r ∧ r <= a ∧ a <= e ∧ e - r <= 65535;
  wi_mss : 0 <= mss c < 65536 }.

(** [tcp_update_rcv_ann_wnd] announces no less than before. *)
Lemma update_rcv_ann_wnd_ok c r e a :
  rcv_nxt c = seq_at r → rcv_wnd c = e - r → rcv_ann_right_edge c = seq_at a → 0 <= r ∧ r <= a ∧ a <= e ∧ e - r <= 65535 → 0 <= mss c < 65536 →
  ∃ n x, tcp_update_rcv_ann_wnd c = Some (set_rcv_ann_wnd n c, x) ∧ a <= r + n ∧ r + n <= e ∧ 0 <= x <= e - a.
Proof.
  intros En Ew Ee Ho Hm. unfold tcp_update_rcv_ann_wnd. rewrite En, Ew, Ee.
  assert (Pe : at_pos R0 (u32 (seq_at r + (e - r))) e).
  { unfold at_pos, TcpSeq.seq_at. rewrite u32_u32, u32_add_l. f_equal. lia. }
  change (TCP_WND / 2) with 2000. unfold LWIP_MIN.
  rewrite (seq_geq R0 _ _ e (a + Z.min 2000 (mss c))); [|exact Pe|at_pos_tac|unfold near; lia].
  destruct (Z.leb_spec (a + Z.min 2000 (mss c)) e).
  - eexists _, _. split; [done|]. rewrite (at_diff R0 _ _ e a) by (exact Pe || at_pos_tac). rewrite u32_id by (unfold is_u32; lia). lia.
  - rewrite (seq_gt R0 _ _ r a) by (at_pos_tac || (unfold near; lia)). rewrite (proj2 (Z.ltb_ge _ _)) by lia.
    rewrite (at_diff R0 _ _ a r), u32_id by (at_pos_tac || (unfold is_u32; lia)). rewrite assert_true by lia.
    cbn [mbind option_bind]. rewrite u16_id by (unfold is_u16; lia). eexists _, _. split; [done|]. lia.
Qed.

(** The fields of the receive window changed, the others did not. *)
Definition window_moved (c c' : tcp_pcb) : Prop :=
  c' = set_rcv_ann_wnd (rcv_ann_wnd c') (set_rcv_wnd (rcv_wnd c') (set_rcv_nxt (rcv_nxt c') c)).

Lemma seq_at_add r n : u32 (seq_at r + n) = seq_at (r + n).
Proof. unfold TcpSeq.seq_at. rewrite u32_add_l. f_equal. lia. Qed.

Lemma advance_ok {A W} (s : rx A W) n r e a : win_ok (pcb s) r e a → 0 <= n → r + n <= a →
  ∃ c, advance n (seq_at (r + n)) s = Some (set_pcb c s) ∧ win_ok c (r + n) e a ∧ window_moved (pcb s) c.
Proof.
  intros [W1 W2 W3 W4 W5 W6] Hn Hr. unfold advance. cbn [set_rcv_nxt rcv_wnd]. rewrite W2, assert_true by lia. cbn [mbind option_bind].
  rewrite u16_id by (unfold is_u16; lia).
  destruct (update_rcv_ann_wnd_ok (set_rcv_wnd (e - r - n) (set_rcv_nxt (seq_at (r + n)) (pcb s))) (r + n) e a) as (k & x & -> & H1 & H2 & _);
    [done|simpl; lia|done|lia|done|].
  cbn [mbind option_bind]. eexists. split; [done|]. split; [|done]. constructor; simpl; try done; lia.
Qed.
End window.

(** ** The queue *)
Section queue.
Context {A W : Type} `{HL : ArenaLaws A}.
Context (Stream : list Z) (R0 : Z) (X : Z → nat).
Implicit Types (h : heap A) (E : Z → nat) (s : rx A W) (c : chunk) (cs : list chunk).
Local Abbreviation seq_at := (seq_at R0).
Local Abbreviation seg_of := (seg_of R0).
Local Abbreviation holds := (holds Stream).
Local Abbreviation qheap := (qheap Stream X).
Local Abbreviation N := (N Stream).
Local Abbreviation text := (text Stream).

Definition before c d : Prop := c_end c <= c_lo d.
Definition covered cs (x : Z) : Prop := ∃ c, c ∈ cs ∧ c_lo c <= x ∧ x < c_hi c.

Lemma covered_cons c cs x : covered (c :: cs) x ↔ (c_lo c <= x ∧ x < c_hi c) ∨ covered cs x.
Proof.
  unfold covered. split.
  - intros (d & [->|Hd]%elem_of_cons & Hx); [by left|]. right. by exists d.
  - intros [Hx|(d & Hd & Hx)]; [exists c; split; [by left|done]|exists d; split; [by right|done]].
Qed.

Lemma covered_nil x : ¬ covered [] x.
Proof. by intros (c & ?%elem_of_nil & _). Qed.

Lemma covered_app cs1 cs2 x : covered (cs1 ++ cs2) x ↔ covered cs1 x ∨ covered cs2 x.
Proof using. clear X. unfold covered. setoid_rewrite elem_of_app. naive_solver. Qed.

(** What has been collected from position [r0] up to [r]. *)
Definition delivered h (o : option Z) (ld : list Z) (r0 r : Z) : Prop :=
  match o with
  | None => ld = [] ∧ Z.min r N = r0
  | Some d => r0 < Z.min r N ∧ packet h (Some d) ld (Z.min r N - r0) 0 ∧ packet_data h ld = text r0 (Z.min r N)
  end.

Record mid E (e a r0 : Z) s cs (o : option Z) (ld : list Z) (r : Z) : Prop := {
  m_win : win_ok R0 (pcb s) r e a;
  m_heap : qheap (packets s) cs (inc_opt o E);
  m_sorted : StronglySorted before cs;
  m_ends c : c ∈ cs → r <= c_lo c ∧ c_end c <= a;
  m_recv : recv_data s = o;
  m_data : delivered (packets s) o ld r0 r;
  m_apart x : x ∈ ld → x ∉ all_chunks cs;
  m_fin : has TF_GOT_FIN (recv_flags s) = (r =? N + 1);
  m_start : 0 <= r0 ∧ r0 <= r ∧ r0 <= N ∧ r <= N + 1 ∧ e - r0 <= 65535 }.

Lemma fin_end c h : holds h c → c_end c <= N + 1 ∧ (c_end c = N + 1 ↔ fin c = true) ∧ Z.min (c_end c) N = c_hi c.
Proof.
  intros [H1 H2 H3 H4 H5 H6 H7]. unfold c_end. destruct (fin c) eqn:Ef.
  - specialize (H7 eq_refl). split; [lia|]. split; [split; [done|lia]|lia].
  - split; [lia|]. split; [|lia]. split; [lia|done].
Qed.

(** The text of a chunk joins what has been collected. *)
Lemma take_queued_ok E (e r0 : Z) s c cs o ld r :
  qheap (packets s) (c :: cs) (inc_opt o E) → recv_data s = o → delivered (packets s) o ld r0 r → c_lo c = r → r <= N → 0 <= r0 ∧ r0 <= r →
  (∀ x, x ∈ ld → x ∉ all_chunks (c :: cs)) → c_end c <= e → e - r0 <= 65535 →
  ∃ s' g o' ld', take_queued (seg_of c) s = Some (s', g) ∧ s' = set_recv_data o' (set_packets (packets s') s) ∧ sg_flags g = c_flags c ∧
    delivered (packets s') o' ld' r0 (c_end c) ∧ (∀ x, x ∈ ld' → x ∈ ld ++ c_pbufs c) ∧ touches ld [] (packets s) (packets s') ∧
    ((g = seg_of c ∧ o' = o ∧ ld' = ld ∧ s' = s) ∨
     (g = set_sg_p None (seg_of c) ∧ qheap (packets s') cs (inc_opt o' E) ∧ live (arena (packets s')) = live (arena (packets s)))).
Proof.
  intros Q Er D Hlo Hr Hr0 Ap He Hw. pose proof Q as [Q1 Q2 Q3 Q4 Q5]. pose proof (Q2 c ltac:(by left)) as Hc.
  destruct (fin_end c _ Hc) as (_ & _ & Emin). pose proof (ch_range _ _ _ Hc) as Rg.
  destruct (packet_first _ _ _ _ (ch_packet _ _ _ Hc)) as (b & lb & El & Hb & Ht & Hl).
  unfold take_queued. cbn [TcpHold.seg_of sg_p]. cbn [mbind option_bind]. rewrite Hb. cbn [mbind option_bind]. rewrite Ht.
  assert (Qcs : ∀ o1 h1, heap_ok h1 (also X (owners (c_p <$> cs) (inc_opt o1 E))) → touches ld [] (packets s) h1 → live (arena h1) = live (arena (packets s)) →
    qheap h1 cs (inc_opt o1 E)).
  { intros o1 h1 K T Lv. constructor; [exact K| | | |].
    - intros d Hd. eapply holds_touched; [exact T| |apply Q2; by right]. intros x Hx Hxl. apply (Ap x Hxl). rewrite all_chunks_cons.
      apply elem_of_app. right. by apply (in_all_chunks d).
    - rewrite all_chunks_cons in Q3. by apply NoDup_app in Q3 as (_ & _ & ?).
    - by apply NoDup_cons in Q4 as [_ ?].
    - intros d Hd. rewrite Lv. apply Q5. by right. }
  destruct (Z.ltb_spec 0 (c_hi c - c_lo c)) as [Hpos|Hz].
  2:{ exists s, (seg_of c), o, ld. split; [done|]. split; [rewrite <- Er; by destruct s|]. split; [done|]. split; [|split; [set_solver|split; [done|by left]]].
      assert (Emr : Z.min (c_end c) N = Z.min r N) by lia. unfold delivered in *. rewrite Emr. exact D. }
  rewrite Er. destruct o as [d|]; cbn [mbind option_bind].
  - destruct D as (Dlt & Dp & Dd).
    assert (K' : heap_ok (packets s) (inc (c_p c) (also X (owners (c_p <$> cs) (inc_opt (Some d) E))))).
    { eapply heap_ok_ext; [|exact Q1]. intros x. apply also_inc. }
    destruct (pbuf_cat_ok (packets s) d (c_p c) ld (c_pbufs c) (Z.min r N - r0) (c_hi c - c_lo c) _ K' Dp (ch_packet _ _ _ Hc)) as
      (h1 & -> & K1 & M1 & P1 & Fr1).
    { intros x Hx Hxc. apply (Ap x Hx). rewrite all_chunks_cons. apply elem_of_app. by left. }
    { pose proof (ch_len _ _ _ Hc). unfold c_end in He. case_match; lia. }
    cbn [mbind option_bind].
    assert (T : touches ld [] (packets s) h1).
    { destruct M1 as (Em & Ea & _). constructor; [done|done|]. intros i _ Hi. by rewrite Ea. }
    exists (set_packets h1 s), (set_sg_p None (seg_of c)), (Some d), (ld ++ c_pbufs c). split; [done|].
    split; [rewrite <- Er; by destruct s|]. split; [done|]. split; [|split; [done|split; [exact T|right; split; [done|]]]].
    + split; [lia|]. replace (Z.min (c_end c) N - r0) with (Z.min r N - r0 + (c_hi c - c_lo c)) by lia. split; [exact P1|].
      cbn [set_packets packets]. rewrite packet_data_app, !(meta_data (packets s) h1) by done. rewrite Dd, (ch_data _ _ _ Hc), Emin, Hlo.
      replace (Z.min r N) with r by lia. apply text_app; lia.
    + cbn [set_packets packets]. split; [|by destruct M1 as (_ & -> & _)]. apply Qcs; [exact K1|exact T|by destruct M1 as (_ & -> & _)].
  - destruct D as (-> & Dmin). exists (set_recv_data (Some (c_p c)) s), (set_sg_p None (seg_of c)), (Some (c_p c)), (c_pbufs c).
    split; [done|]. split; [by destruct s|]. split; [done|]. split; [|split; [set_solver|split; [done|right; split; [done|]]]].
    + split; [lia|]. cbn [set_recv_data packets]. rewrite Emin. replace r0 with (c_lo c) by lia. split; [apply (ch_packet _ _ _ Hc)|apply (ch_data _ _ _ Hc)].
    + split; [|done]. apply Qcs; [|done|done]. eapply heap_ok_ext; [|exact Q1]. intros x. simpl. apply also_ext. intros y. symmetry. apply owners_inc.
Qed.

(** ** What a segment changes of the control block *)
Definition kept (c c' : tcp_pcb) : Prop :=
  ∃ st q f ed an wn nx, c' = set_state st (set_ooseq q (set_pflags f (set_rcv_ann_right_edge ed (set_rcv_ann_wnd an (set_rcv_wnd wn (set_rcv_nxt nx c)))))).

Lemma kept_refl (c : tcp_pcb) : kept c c.
Proof. exists (state c), (ooseq c), (pflags c), (rcv_ann_right_edge c), (rcv_ann_wnd c), (rcv_wnd c), (rcv_nxt c). by destruct c. Qed.

Lemma kept_trans (c1 c2 c3 : tcp_pcb) : kept c1 c2 → kept c2 c3 → kept c1 c3.
Proof. intros (s1 & q1 & f1 & e1 & a1 & w1 & n1 & ->) (s2 & q2 & f2 & e2 & a2 & w2 & n2 & ->). by exists s2, q2, f2, e2, a2, w2, n2. Qed.

Lemma kept_window (c c' : tcp_pcb) : window_moved c c' → kept c c'.
Proof.
  intros Hw. exists (state c), (ooseq c), (pflags c), (rcv_ann_right_edge c), (rcv_ann_wnd c'), (rcv_wnd c'), (rcv_nxt c').
  etrans; [exact Hw|]. by destruct c.
Qed.

Lemma kept_queue (c : tcp_pcb) q : kept c (set_ooseq q c).
Proof. exists (state c), q, (pflags c), (rcv_ann_right_edge c), (rcv_ann_wnd c), (rcv_wnd c), (rcv_nxt c). by destruct c. Qed.

Lemma kept_state (c : tcp_pcb) st : kept c (set_state st c).
Proof. exists st, (ooseq c), (pflags c), (rcv_ann_right_edge c), (rcv_ann_wnd c), (rcv_wnd c), (rcv_nxt c). by destruct c. Qed.

Lemma kept_flags (c : tcp_pcb) f : kept c (set_pflags f c).
Proof. exists (state c), (ooseq c), f, (rcv_ann_right_edge c), (rcv_ann_wnd c), (rcv_wnd c), (rcv_nxt c). by destruct c. Qed.

Lemma win_ok_queue (c : tcp_pcb) r e a q : win_ok R0 c r e a → win_ok R0 (set_ooseq q c) r e a.
Proof. by intros [? ? ? ? ? ?]. Qed.

Lemma win_ok_state (c : tcp_pcb) r e a st : win_ok R0 c r e a → win_ok R0 (set_state st c) r e a.
Proof. by intros [? ? ? ? ? ?]. Qed.

Lemma win_ok_flags (c : tcp_pcb) r e a f : win_ok R0 c r e a → win_ok R0 (set_pflags f c) r e a.
Proof. by intros [? ? ? ? ? ?]. Qed.

(** The state, as a FIN leaves it. *)
Definition state_after (st st' : tcp_state) (got : bool) : Prop := st' = st ∨ (st = ESTABLISHED ∧ st' = CLOSE_WAIT ∧ got = true).

Lemma fin_step (g : tcp_seg) s :
  let s' := set_recv_flags (with_flag TF_GOT_FIN (recv_flags s)) s in
  ∃ st f, (if has TCP_FIN (sg_flags g) then
             if decide (state (pcb s') = ESTABLISHED) then set_pcb (set_state CLOSE_WAIT (pcb s')) s' else s'
           else s) = set_pcb (set_state st (pcb s)) (set_recv_flags f s) ∧
    has TF_GOT_FIN f = has TF_GOT_FIN (recv_flags s) || has TCP_FIN (sg_flags g) ∧ state_after (state (pcb s)) st (has TCP_FIN (sg_flags g)).
Proof.
  cbv zeta. destruct (has TCP_FIN (sg_flags g)).
  - exists (if decide (state (pcb s) = ESTABLISHED) then CLOSE_WAIT else state (pcb s)), (with_flag TF_GOT_FIN (recv_flags s)). split; [|split].
    + cbn [set_recv_flags pcb]. destruct (decide _); [done|]. destruct s as [p]. by destruct p.
    + by rewrite has_with.
    + destruct (decide _); [by right|by left].
  - exists (state (pcb s)), (recv_flags s). split; [destruct s as [p]; by destruct p|]. split; [by rewrite orb_false_r|by left].
Qed.

(** ** Segments that are now in sequence *)
Lemma dequeue_one E e a r0 s c cs o ld r :
  mid E e a r0 s (c :: cs) o ld r → c_lo c = r →
  ∃ s' o' ld', (let s := set_seqno (sg_seqno (seg_of c)) s in
        s ← advance (TCP_TCPLEN (seg_of c)) (u32 (rcv_nxt (pcb s) + TCP_TCPLEN (seg_of c))) s;
        '(s, cseg) ← take_queued (seg_of c) s;
        let s :=
          if has TCP_FIN (sg_flags cseg) then
            let s := set_recv_flags (with_flag TF_GOT_FIN (recv_flags s)) s in
            if decide (state (pcb s) = ESTABLISHED) then set_pcb (set_state CLOSE_WAIT (pcb s)) s else s
          else s in
        let s := set_queue (seg_of <$> cs) s in
        h ← tcp_seg_free cseg (packets s);
        Some (set_packets h s)) = Some s' ∧
    mid E e a r0 s' cs o' ld' (c_end c) ∧ ooseq (pcb s') = seg_of <$> cs ∧ kept (pcb s) (pcb s') ∧ state_after (state (pcb s)) (state (pcb s')) (fin c) ∧
    inseg s' = inseg s ∧ lower_net s' = lower_net s ∧ touches (ld ++ c_pbufs c) [c_addr c] (packets s) (packets s') ∧
    ∀ x, x ∈ ld' → x ∈ ld ++ c_pbufs c.
Proof.
  intros [M1 M2 M3 M4 M5 M6 M7 M8 M9] Hlo. pose proof (qh_holds _ _ _ _ _ M2 c ltac:(by left)) as Hc.
  destruct (fin_end c _ Hc) as (Hend & Hfin & Hmin). pose proof (ch_range _ _ _ Hc) as Rg. pose proof (ch_len _ _ _ Hc) as [Hne _].
  destruct (M4 c ltac:(by left)) as [_ Ha]. cbv zeta. rewrite (tcplen_chunk R0 c (ch_syn _ _ _ Hc)).
  assert (En : rcv_nxt (pcb (set_seqno (sg_seqno (seg_of c)) s)) = seq_at r) by apply M1. rewrite En, seq_at_add.
  destruct (advance_ok R0 (set_seqno (sg_seqno (seg_of c)) s) (c_end c - c_lo c) r e a M1 ltac:(lia) ltac:(lia)) as (c1 & -> & W1 & Wm).
  cbn [mbind option_bind]. set (s1 := set_pcb c1 _). replace (r + (c_end c - c_lo c)) with (c_end c) in W1 by lia.
  destruct (take_queued_ok E e r0 s1 c cs o ld r M2 M5 M6 Hlo ltac:(lia) ltac:(lia) M7) as (s2 & g & o' & ld' & -> & Es2 & Eg & D2 & In2 & T2 & Cases).
  { destruct (wi_order _ _ _ _ _ M1) as (_ & _ & ? & _). lia. } { lia. }
  cbn [mbind option_bind]. pose proof (fin_step g s2) as F. cbv zeta in F. destruct F as (st & f & -> & Hf & Hst). rewrite Eg in Hf, Hst.
  set (s3 := set_queue _ _). change (packets s3) with (packets s2).
  assert (Free : ∃ h', tcp_seg_free g (packets s2) = Some h' ∧ qheap h' cs (inc_opt o' E) ∧ touches (ld ++ c_pbufs c) [c_addr c] (packets s) h' ∧
    (∀ x, x ∈ ld' → x ∉ all_chunks cs) ∧ (∀ x, x ∈ ld' → pbufs h' !! x = pbufs (packets s2) !! x) ∧ mem h' = mem (packets s2)).
  { pose proof (qh_nodup _ _ _ _ _ M2) as ND. rewrite all_chunks_cons in ND. apply NoDup_app in ND as (_ & Dc & _).
    assert (Ap' : ∀ x, x ∈ ld' → x ∉ all_chunks cs).
    { intros x Hx. apply In2, elem_of_app in Hx as [Hx|Hx]; [|by apply Dc]. intros Hin. apply (M7 x Hx). rewrite all_chunks_cons. set_solver. }
    destruct Cases as [(-> & -> & -> & ->)|(-> & Q2 & Lv)].
    - destruct (tcp_seg_free_ok Stream R0 X _ c cs _ M2) as (h' & Ef & Q' & T'). exists h'. split; [exact Ef|]. split; [exact Q'|].
      split; [|split; [done|split; [|by apply (to_mem _ _ _ _ T')]]].
      + eapply touches_sub; [exact T'|set_solver|done].
      + intros x Hx. apply (to_pbufs _ _ _ _ T'). intros Hxc. apply (M7 x Hx). rewrite all_chunks_cons. set_solver.
    - destruct (seg_free_block_ok Stream R0 X _ c cs _ Q2 (qh_addr _ _ _ _ _ M2)) as (h' & Ef & Q' & T').
      { rewrite Lv. apply (qh_block _ _ _ _ _ M2). by left. }
      exists h'. split; [exact Ef|]. split; [exact Q'|]. split; [|split; [done|split; [|by apply (to_mem _ _ _ _ T')]]].
      + eapply touches_sub; [exact (touches_trans _ _ _ _ _ _ _ T2 T')|set_solver|done].
      + intros x _. apply (to_pbufs _ _ _ _ T'). set_solver. }
  destruct Free as (h' & -> & Q' & T' & Ap' & Fr' & Em'). cbn [mbind option_bind]. exists (set_packets h' s3), o', ld'. split; [done|].
  assert (Epcb : pcb s2 = c1) by (rewrite Es2; done). assert (Ern : recv_flags s2 = recv_flags s) by (rewrite Es2; done).
  split; [|split; [done|split; [|split; [|split; [by unfold s3; rewrite Es2|split; [by unfold s3; rewrite Es2|split; [exact T'|exact In2]]]]]]].
  - constructor.
    + unfold s3. cbn. rewrite Epcb. by apply win_ok_queue, win_ok_state.
    + exact Q'.
    + by apply StronglySorted_inv in M3 as [? _].
    + intros d Hd. apply StronglySorted_inv in M3 as [_ M3]. rewrite Forall_forall in M3. split; [by apply M3|]. apply M4. by right.
    + unfold s3. cbn. by rewrite Es2.
    + cbn [set_packets packets]. unfold delivered in *. destruct o' as [d|]; [|done]. destruct D2 as (D2a & D2b & D2c). split; [done|]. split.
      * eapply packet_frame; [|exact D2b]. exact Fr'.
      * rewrite <- D2c. unfold packet_data. f_equal. apply list_fmap_ext. intros i x Hx%list_elem_of_lookup_2. unfold pbuf_data. by rewrite (Fr' x Hx), Em'.
    + exact Ap'.
    + unfold s3. cbn. rewrite Hf, Ern, M8. rewrite (proj2 (Z.eqb_neq r (N + 1))) by lia. cbn [orb]. fold (fin c). apply eq_true_iff_eq. rewrite Z.eqb_eq. tauto.
    + lia.
  - unfold s3. cbn. rewrite Epcb. eapply kept_trans; [by apply kept_window|]. eapply kept_trans; [apply kept_state|apply kept_queue].
  - unfold s3. cbn. rewrite Epcb in Hst. assert (Est : state c1 = state (pcb s)) by (rewrite Wm; done). by rewrite Est in Hst.
Qed.

Lemma dequeue_all_ok E e a r0 : ∀ cs s o ld r, mid E e a r0 s cs o ld r → ooseq (pcb s) = seg_of <$> cs →
  ∃ s' cs' o' ld' r', dequeue (seg_of <$> cs) s = Some s' ∧ mid E e a r0 s' cs' o' ld' r' ∧ ooseq (pcb s') = seg_of <$> cs' ∧ r <= r' ∧
    (∀ c, c ∈ cs' → r' < c_lo c) ∧ (∀ x, x < N → x < r' ∨ covered cs' x ↔ x < r ∨ covered cs x) ∧ kept (pcb s) (pcb s') ∧
    state_after (state (pcb s)) (state (pcb s')) (has TF_GOT_FIN (recv_flags s')) ∧ inseg s' = inseg s ∧ lower_net s' = lower_net s ∧
    touches (ld ++ all_chunks cs) (c_addr <$> cs) (packets s) (packets s') ∧ ∀ x, x ∈ ld' → x ∈ ld ++ all_chunks cs.
Proof.
  induction cs as [|c cs IH]; intros s o ld r M Eq.
  { exists s, [], o, ld, r. split_and!; try done; [by intros c ?%elem_of_nil|apply kept_refl|by left|set_solver]. }
  pose proof (qh_holds _ _ _ _ _ (m_heap _ _ _ _ _ _ _ _ _ M) c ltac:(by left)) as Hc. pose proof (ch_range _ _ _ Hc) as Rg.
  destruct (m_ends _ _ _ _ _ _ _ _ _ M c ltac:(by left)) as [Hrlo Ha]. pose proof (ch_len _ _ _ Hc) as [Hne _].
  destruct (fin_end c _ Hc) as (Hend & Hfin & Hmin). pose proof (m_win _ _ _ _ _ _ _ _ _ M) as Wo. pose proof (wi_order _ _ _ _ _ Wo) as Ord.
  cbn [fmap list_fmap dequeue]. rewrite (wi_nxt _ _ _ _ _ Wo), (seq_eqb R0 _ _ (c_lo c) r) by first [apply at_seq|apply seq_at_range|unfold near; lia].
  destruct (Z.eqb_spec (c_lo c) r) as [Hlo|Hne'].
  - destruct (dequeue_one E e a r0 s c cs o ld r M Hlo) as (s1 & o1 & ld1 & E1 & M1 & Eq1 & K1 & St1 & Ei1 & En1 & T1 & In1).
    assert (Est : ∀ (k : rx A W → option (rx A W)), (let s := set_seqno (sg_seqno (seg_of c)) s in
        s ← advance (TCP_TCPLEN (seg_of c)) (u32 (rcv_nxt (pcb s) + TCP_TCPLEN (seg_of c))) s;
        '(s, cseg) ← take_queued (seg_of c) s;
        let s :=
          if has TCP_FIN (sg_flags cseg) then
            let s := set_recv_flags (with_flag TF_GOT_FIN (recv_flags s)) s in
            if decide (state (pcb s) = ESTABLISHED) then set_pcb (set_state CLOSE_WAIT (pcb s)) s else s
          else s in
        let s := set_queue (seg_of <$> cs) s in
        h ← tcp_seg_free cseg (packets s);
        k (set_packets h s)) = k s1).
    { intros k. cbv zeta in E1 |- *. destruct (advance _ _ _) as [s2|]; [|done]. cbn [mbind option_bind] in *.
      destruct (take_queued _ s2) as [[s3 g]|]; [|done]. cbn [mbind option_bind] in *.
      destruct (tcp_seg_free _ _) as [h|]; [|done]. cbn [mbind option_bind] in *. by injection E1 as <-. }
    specialize (Est (dequeue (seg_of <$> cs))). cbv zeta in Est. rewrite Est. clear Est.
    destruct (IH s1 o1 ld1 (c_end c) M1 Eq1) as (s' & cs' & o' & ld' & r' & E' & M' & Eq' & Hr' & Hl' & Hcov & K' & St' & Ei' & En' & T' & In').
    exists s', cs', o', ld', r'. split_and!; try done; try lia; try congruence.
    + intros x Hx. rewrite (Hcov x Hx), covered_cons. destruct (decide (x < r)), (decide (x < c_end c)); split; intros Hor;
        [by left|by left|by left|lia| |by left| |].
      * right. left. lia.
      * destruct Hor as [?|?]; [lia|by right; right].
      * destruct Hor as [?|[?|?]]; [lia|lia|by right].
    + by eapply kept_trans.
    + unfold state_after in *. pose proof (m_fin _ _ _ _ _ _ _ _ _ M1) as F1.
      destruct St1 as [Es1|(Es0 & Hs1 & Hf1)]; [by rewrite Es1 in St'|]. destruct St' as [Es'|(Hs' & _)]; [|congruence]. right.
      split; [done|]. split; [congruence|].
      rewrite (m_fin _ _ _ _ _ _ _ _ _ M'). apply Z.eqb_eq. pose proof (m_start _ _ _ _ _ _ _ _ _ M'). apply Hfin in Hf1. lia.
    + eapply touches_sub; [exact (touches_trans _ _ _ _ _ _ _ T1 T')| |].
      * rewrite all_chunks_cons. intros x. rewrite !elem_of_app. intros [?|[Hx|?]]; [tauto| |tauto]. apply In1, elem_of_app in Hx. tauto.
      * simpl. set_solver.
    + intros x Hx. apply In', elem_of_app in Hx. rewrite all_chunks_cons, !elem_of_app. destruct Hx as [Hx|?]; [|tauto]. apply In1, elem_of_app in Hx. tauto.
  - exists s, (c :: cs), o, ld, r. split_and!; try done; try apply kept_refl; try (by left); [|set_solver].
    intros d [->|Hd]%elem_of_cons; [lia|]. pose proof (m_sorted _ _ _ _ _ _ _ _ _ M) as [_ Hs]%StronglySorted_inv. rewrite Forall_forall in Hs.
    pose proof (Hs d Hd). unfold before in *. lia.
Qed.
End queue.
