(* ===== verification/TcpInSeq.v ===== *)
(** * TCP: a segment in sequence

    [in_sequence] takes the text of the segment, drops what the queue holds of
    it, and goes on with the queue. *)
From Stdlib Require Import Sorted.
From S2P Require Import Prelude LwipDef Chksum Memp Pbuf PbufRef PbufOwn PbufData IpReassJoin PbufMove TcpDef TcpSeq TcpHold TcpRecv TcpQueue.
Local Open Scope Z_scope.

Section inseq.
Context {A W : Type} `{HL : ArenaLaws A}.
Context (Stream : list Z) (R0 : Z) (X : Z → nat).
Implicit Types (h : heap A) (E : Z → nat) (s : rx A W) (c d : chunk) (cs : list chunk).
Local Abbreviation seq_at := (seq_at R0).
Local Abbreviation seg_of := (seg_of R0).
Local Abbreviation holds := (holds Stream).
Local Abbreviation qheap := (qheap Stream X).
Local Abbreviation N := (N Stream).
Local Abbreviation mid := (mid Stream R0 X).

Definition flagged (f : Z) c : chunk := MkChunk (c_addr c) (c_p c) (c_pbufs c) (c_lo c) (c_hi c) (c_opts c) f.

Lemma flagged_id c : flagged (c_flags c) c = c.
Proof. by destruct c. Qed.

Lemma holds_flagged h c f : holds h c → has TCP_SYN f = false → (has TCP_FIN f = true → c_hi c = N) → c_lo c < c_hi c ∨ has TCP_FIN f = true →
  holds h (flagged f c).
Proof.
  intros [H1 H2 H3 H4 H5 H6 H7] Hs Hf Hne. constructor; cbn [flagged c_p c_pbufs c_lo c_hi c_flags]; try done.
  unfold c_end, fin. cbn [flagged c_hi c_flags]. destruct (has TCP_FIN f); [lia|]. destruct Hne; [lia|done].
Qed.

(** A queue in order behind [r], with what it needs of the heap. *)
Record queue_ok h cs E (r a : Z) : Prop := {
  q_heap : qheap h cs E;
  q_sorted : StronglySorted before cs;
  q_ends d : d ∈ cs → r <= c_lo d ∧ c_end d <= a }.

Lemma queue_tail h d cs E r a h' : queue_ok h (d :: cs) E r a → qheap h' cs E → queue_ok h' cs E (c_end d) a.
Proof.
  intros [Q1 Q2 Q3] Q. constructor; [done| |].
  - by apply StronglySorted_inv in Q2 as [? _].
  - intros x Hx. apply StronglySorted_inv in Q2 as [_ Q2]. rewrite Forall_forall in Q2. split; [by apply Q2|]. apply Q3. by right.
Qed.

Lemma queue_weaken h cs E r r' a : queue_ok h cs E r a → r' <= r → queue_ok h cs E r' a.
Proof. intros [Q1 Q2 Q3] Hr. constructor; [done|done|]. intros d Hd. specialize (Q3 d Hd). lia. Qed.

(** ** Covered segments *)
Lemma drop_covered_ok E a : ∀ cs s c r,
  inseg s = seg_of c → tcplen s = c_end c - c_lo c → seqno s = seq_at (c_lo c) → holds (packets s) c →
  queue_ok (packets s) cs E r a → (∀ x, x ∈ c_pbufs c → x ∉ all_chunks cs) → c_lo c < r → c_end c <= a → a - c_lo c <= 65535 →
  (fin c = true → cs = []) →
  ∃ f h' dropped cs' r', let c' := flagged f c in
    drop_covered (seg_of <$> cs) s = Some (set_packets h' (set_tcplen (c_end c' - c_lo c') (set_inseg (seg_of c') s)), seg_of <$> cs') ∧
    cs = dropped ++ cs' ∧ holds h' c' ∧ queue_ok h' cs' E r' a ∧ c_lo c < r' ∧ (∀ d, d ∈ dropped → c_hi d <= c_hi c) ∧
    match cs' with d :: _ => c_end c' < c_hi d ∧ fin c' = false | [] => True end ∧ c_end c <= c_end c' ∧ c_end c' <= a ∧
    touches (all_chunks dropped) (c_addr <$> dropped) (packets s) h'.
Proof.
  induction cs as [|d cs IH]; intros s c r Ei Et Es Hc Q Ap Hr He Hw Hfin.
  { exists (c_flags c), (packets s), [], [], r. cbv zeta. rewrite flagged_id. split_and!; try done; try lia.
    - cbn [drop_covered fmap list_fmap]. rewrite <- Ei, <- Et. by destruct s.
    - by intros d ?%elem_of_nil. }
  pose proof (qh_holds _ _ _ _ _ (q_heap _ _ _ _ _ Q) d ltac:(by left)) as Hd. destruct (q_ends _ _ _ _ _ Q d ltac:(by left)) as [Hrd Hed].
  assert (Hcf : fin c = false) by (destruct (fin c); [by specialize (Hfin eq_refl)|done]).
  assert (Ece : c_end c = c_hi c) by (unfold c_end; rewrite Hcf; lia). pose proof (ch_range _ _ _ Hd) as Rd. pose proof (ch_len _ _ _ Hd) as [Ld _].
  destruct (fin_end Stream d _ Hd) as (Fd1 & Fd2 & Fd3). pose proof (ch_len _ _ _ Hc) as [Lc _].
  cbn [fmap list_fmap drop_covered]. rewrite Es, Et. cbn [TcpHold.seg_of sg_seqno sg_len sg_flags]. fold (fin d).
  rewrite (seq_geq R0 _ _ (c_end c) (c_hi d)); [|replace (c_end c) with (c_lo c + (c_end c - c_lo c)) at 2 by lia; at_pos_tac|
    replace (c_hi d) with (c_lo d + (c_hi d - c_lo d)) at 2 by lia; at_pos_tac|unfold near; lia].
  destruct (Z.leb_spec (c_hi d) (c_end c)) as [Hcov|Hnc].
  2:{ exists (c_flags c), (packets s), [], (d :: cs), r. cbv zeta. rewrite flagged_id. split_and!; try done; try lia.
      - rewrite <- Ei, <- Et. by destruct s.
      - by intros x ?%elem_of_nil. }
  assert (ND : NoDup (all_chunks (d :: cs))) by apply (qh_nodup _ _ _ _ _ (q_heap _ _ _ _ _ Q)).
  destruct (tcp_seg_free_ok Stream R0 X _ d cs E (q_heap _ _ _ _ _ Q)) as (h1 & Ef & Q1 & T1).
  assert (Hc1 : holds h1 c).
  { eapply holds_touched; [exact T1| |done]. intros x Hx Hxd. apply (Ap x Hx). rewrite all_chunks_cons. set_solver. }
  assert (Ap1 : ∀ x, x ∈ c_pbufs c → x ∉ all_chunks cs) by (intros x Hx Hin; apply (Ap x Hx); rewrite all_chunks_cons; set_solver).
  rewrite Ei. cbn [TcpHold.seg_of sg_flags]. rewrite (ch_syn _ _ _ Hc), andb_true_r.
  destruct (fin d) eqn:Efd.
  - assert (Hnil : cs = []).
    { destruct cs as [|d2 cs]; [done|exfalso]. destruct (q_ends _ _ _ _ _ (queue_tail _ _ _ _ _ _ h1 Q Q1) d2 ltac:(by left)) as [? _].
      pose proof (ch_range _ _ _ (qh_holds _ _ _ _ _ Q1 d2 ltac:(by left))). destruct (Fd2) as [_ ?]. lia. }
    subst cs. set (c' := flagged (with_flag TCP_FIN (c_flags c)) c).
    assert (EN : c_hi c = N) by (pose proof (ch_range _ _ _ Hc); destruct Fd2 as [_ ?]; lia).
    assert (Hc' : holds h1 c').
    { apply holds_flagged; [done| |done|right; by rewrite has_with, orb_true_r]. rewrite has_with, (ch_syn _ _ _ Hc). done. }
    assert (Hfc' : fin c' = true) by (unfold fin, c'; cbn [flagged c_flags]; by rewrite has_with, orb_true_r).
    assert (Ee' : c_end c' = c_hi c + 1) by (unfold c_end; rewrite Hfc'; done).
    change (set_inseg (TCPH_SET_FLAG TCP_FIN _) s) with (set_inseg (seg_of c') s). change (TCPH_SET_FLAG TCP_FIN _) with (seg_of c').
    rewrite (tcplen_chunk R0 c' (ch_syn _ _ _ Hc')), (u16_id (c_end c' - c_lo c')) by (unfold is_u16; cbn [c' flagged c_lo]; lia).
    change (packets (set_tcplen _ (set_inseg (seg_of c') s))) with (packets s). rewrite Ef. cbn [mbind option_bind drop_covered].
    exists (with_flag TCP_FIN (c_flags c)), h1, [d], [], (c_end d). cbv zeta. fold c'. split_and!; try done; try lia.
    + by eapply queue_tail.
    + intros x ->%list_elem_of_singleton. lia.
    + unfold all_chunks. simpl. by rewrite app_nil_r.
  - rewrite Ef. cbn [mbind option_bind].
    assert (Hd' : c_lo c < c_end d) by (destruct Fd2; lia).
    pose proof (IH (set_packets h1 s) c (c_end d) Ei Et Es Hc1 ltac:(by eapply queue_tail) Ap1 Hd' He Hw) as I. cbv zeta in I.
    destruct I as (f & h' & dropped & cs' & r' & Ed & Ecs & Hc' & Q' & Hr' & Hdr & Hm & He1 & He2 & T'); [congruence|].
    exists f, h', (d :: dropped), cs', r'. cbv zeta in *. split_and!; try done; try lia.
    + by rewrite Ecs.
    + intros x [->|Hx]%elem_of_cons; [lia|by apply Hdr].
    + exact (touches_trans _ _ _ _ _ _ _ T1 T').
Qed.

(** ** The end of the segment is cut off *)
Lemma shorten_inseg_ok s c E hi :
  inseg s = seg_of c → holds (packets s) c → heap_ok (packets s) E → c_lo c < hi → hi <= c_hi c → fin c = false →
  ∃ h' l', let c' := cut hi (c_flags c) l' c in
    shorten_inseg (hi - c_lo c) s = Some (set_packets h' (set_tcplen (hi - c_lo c) (set_inseg (seg_of c') s))) ∧
    l' `prefix_of` c_pbufs c ∧ heap_ok h' E ∧ holds h' c' ∧ touches (c_pbufs c) [] (packets s) h'.
Proof.
  intros Ei Hc K Hlo Hhi Hf. pose proof (ch_len _ _ _ Hc) as [_ Hlen].
  destruct (trim_packet_ok Stream R0 (packets s) c E hi (c_flags c) (c_pbufs c) K Hc ltac:(lia) (ch_syn _ _ _ Hc)) as (h' & l' & Et & Hp & K' & Hc' & T).
  { intros Hfin. unfold fin in Hf. congruence. }
  exists h', l'. cbv zeta. split_and!; try done. unfold shorten_inseg. rewrite Ei. cbn [TcpHold.seg_of sg_flags].
  rewrite (ch_syn _ _ _ Hc), (u16_id (hi - c_lo c)) by (unfold is_u16; lia).
  change (set_sg_len (hi - c_lo c) _) with (seg_of (cut hi (c_flags c) (c_pbufs c) c)). rewrite Et. cbn [mbind option_bind].
  rewrite (tcplen_chunk R0 (cut hi (c_flags c) (c_pbufs c) c) (ch_syn _ _ _ Hc)). unfold c_end. change (fin (cut _ _ _ c)) with (fin c). rewrite Hf. cbn [cut c_hi c_lo].
  by rewrite Z.add_0_r, (u16_id (hi - c_lo c)) by (unfold is_u16; lia).
Qed.

Lemma queue_raise h d cs E r r' a : queue_ok h (d :: cs) E r a → r' <= c_lo d → queue_ok h (d :: cs) E r' a.
Proof.
  intros [Q1 Q2 Q3] Hr. constructor; [done|done|]. intros x Hx. split; [|by apply Q3].
  apply elem_of_cons in Hx as [->|Hx]; [done|]. pose proof (qh_holds _ _ _ _ _ Q1 d ltac:(by left)) as Hd.
  apply StronglySorted_inv in Q2 as [_ Q2]. rewrite Forall_forall in Q2. specialize (Q2 x Hx). unfold before in Q2.
  pose proof (ch_len _ _ _ Hd). lia.
Qed.

Lemma queue_nil h cs E r a h' r' : queue_ok h cs E r a → qheap h' [] E → queue_ok h' [] E r' a.
Proof. intros _ Q. constructor; [done|constructor|]. by intros d ?%elem_of_nil. Qed.

(** ** The queue, in view of the segment *)
Lemma adjust_ooseq_cons s l : ooseq (pcb s) = l → l ≠ [] → adjust_ooseq s =
  if has TCP_FIN (sg_flags (inseg s)) then
    h ← tcp_segs_free l (packets s);
    Some (set_packets h (set_queue [] s))
  else
    '(s, l) ← drop_covered l s;
    match l with
    | next :: _ =>
        if TCP_SEQ_GT (seqno s + tcplen s) (sg_seqno next) then
          s ← shorten_inseg (u16 (sg_seqno next - seqno s)) s;
          _ ← lwip_assert (u32 (seqno s + tcplen s) =? sg_seqno next);
          Some (set_queue l s)
        else Some (set_queue l s)
    | [] => Some (set_queue l s)
    end.
Proof. intros El Hne. unfold adjust_ooseq. rewrite El. by destruct l. Qed.

Lemma adjust_ooseq_ok E a s c cs :
  inseg s = seg_of c → tcplen s = c_end c - c_lo c → seqno s = seq_at (c_lo c) → holds (packets s) c → ooseq (pcb s) = seg_of <$> cs →
  queue_ok (packets s) cs E (c_lo c + 1) a → (∀ x, x ∈ c_pbufs c → x ∉ all_chunks cs) → c_end c <= a → a - c_lo c <= 65535 →
  ∃ h' c' cs',
    adjust_ooseq s = Some (set_packets h' (set_queue (seg_of <$> cs') (set_tcplen (c_end c' - c_lo c') (set_inseg (seg_of c') s)))) ∧
    c_lo c' = c_lo c ∧ c_p c' = c_p c ∧ c_pbufs c' ⊆ c_pbufs c ∧ holds h' c' ∧ queue_ok h' cs' E (c_end c') a ∧ c_end c' <= a ∧
    cs' `suffix_of` cs ∧ (∀ x, covered (c' :: cs') x ↔ covered (c :: cs) x) ∧ (fin c = true → c_end c <= c_end c') ∧
    touches (c_pbufs c ++ all_chunks cs) (c_addr <$> cs) (packets s) h'.
Proof.
  intros Ei Et Es Hc Eq Q Ap He Hw. destruct cs as [|d0 cs0].
  { exists (packets s), c, []. unfold adjust_ooseq. rewrite Eq. split_and!; try done.
    - cbn [fmap list_fmap]. rewrite <- Ei, <- Et. f_equal. destruct s as [p]. destruct p. cbn in Eq |- *. by rewrite Eq.
    - eapply queue_nil; [exact Q|]. apply Q. }
  rewrite (adjust_ooseq_cons s _ Eq) by done. set (cs := d0 :: cs0) in *. rewrite Ei. cbn [TcpHold.seg_of sg_flags]. fold (fin c). clearbody cs.
  destruct (fin c) eqn:Ef.
  - destruct (tcp_segs_free_ok Stream R0 X E [] cs (packets s)) as (h' & Er & Q' & T); [rewrite app_nil_r; apply Q|].
    rewrite Er. cbn [mbind option_bind]. exists h', c, []. split_and!; try done.
    + by rewrite <- Ei, <- Et.
    + eapply holds_touched; [exact T| |done]. exact Ap.
    + by eapply queue_nil.
    + apply suffix_nil.
    + intros x. rewrite !covered_cons. split; [intros [?|[]%covered_nil]; by left|]. intros [?|(y & Hy & Hx)]; [by left|]. left.
      pose proof (ch_fin _ _ _ Hc Ef). pose proof (ch_range _ _ _ (qh_holds _ _ _ _ _ (q_heap _ _ _ _ _ Q) y Hy)). destruct (q_ends _ _ _ _ _ Q y Hy). lia.
    + eapply touches_sub; [exact T|set_solver|done].
  - pose proof (drop_covered_ok E a cs s c (c_lo c + 1) Ei Et Es Hc Q Ap ltac:(lia) He Hw ltac:(congruence)) as D. cbv zeta in D.
    destruct D as (f & h' & dropped & cs' & r' & -> & Ed & Hc' & Q' & Hr' & Hdr & Hm & He1 & He2 & T). cbn [mbind option_bind].
    set (c1 := flagged f c) in *.
    assert (Hcov : ∀ x, covered (c1 :: cs') x ↔ covered (c :: cs) x).
    { intros x. rewrite Ed, !covered_cons, covered_app. cbn [c1 flagged c_lo c_hi]. split; [tauto|]. intros [?|[(y & Hy & Hx)|?]]; [tauto| |tauto].
      left. specialize (Hdr y Hy). assert (Hin : y ∈ cs) by (rewrite Ed; set_solver). destruct (q_ends _ _ _ _ _ Q y Hin). lia. }
    assert (T' : touches (c_pbufs c ++ all_chunks cs) (c_addr <$> cs) (packets s) h').
    { eapply touches_sub; [exact T| |]; rewrite Ed; [unfold all_chunks; rewrite fmap_app, join_app|rewrite fmap_app]; set_solver. }
    assert (Hsuf : cs' `suffix_of` cs) by (by exists dropped).
    destruct cs' as [|g cs']; cbn [fmap list_fmap].
    { exists h', c1, []. split_and!; try done. eapply queue_nil; [exact Q|]. apply Q'. }
    destruct Hm as [Hm Hf1]. change (seqno (set_packets h' _)) with (seqno s). change (tcplen (set_packets h' _)) with (c_end c1 - c_lo c).
    pose proof (qh_holds _ _ _ _ _ (q_heap _ _ _ _ _ Q') g ltac:(by left)) as Hg. destruct (q_ends _ _ _ _ _ Q' g ltac:(by left)) as [Hg1 Hg2].
    pose proof (ch_range _ _ _ Hg) as Rg. pose proof (ch_len _ _ _ Hg) as [Lg _]. rewrite Es. cbn [TcpHold.seg_of sg_seqno].
    assert (Ece : c_end c1 = c_hi c) by (unfold c_end; rewrite Hf1; cbn [c1 flagged c_hi]; lia).
    pose proof (ch_range _ _ _ Hc) as Rc.
    rewrite (seq_gt R0 _ _ (c_hi c) (c_lo g)); [|replace (c_hi c) with (c_lo c + (c_end c1 - c_lo c)) by lia; at_pos_tac|at_pos_tac|unfold near; lia].
    destruct (Z.ltb_spec (c_lo g) (c_hi c)) as [Hov|Hno].
    2:{ exists h', c1, (g :: cs'). split_and!; try done. eapply queue_raise; [exact Q'|lia]. }
    assert (Eu : u16 (seq_at (c_lo g) - seq_at (c_lo c)) = c_lo g - c_lo c).
    { unfold TcpSeq.seq_at, u32, u16. Z.to_euclidean_division_equations; lia. }
    rewrite Eu.
    pose proof (shorten_inseg_ok (set_packets h' (set_tcplen (c_end c1 - c_lo c) (set_inseg (seg_of c1) s))) c1 _ (c_lo g) eq_refl Hc'
      (qh_heap _ _ _ _ _ (q_heap _ _ _ _ _ Q'))) as Sh. cbv zeta in Sh.
    change (c_lo c1) with (c_lo c) in *. change (c_hi c1) with (c_hi c) in *.
    destruct Sh as (h2 & l2 & -> & Hpre & K2 & Hc2 & T2); [lia|lia|done|]. cbn [mbind option_bind].
    set (c2 := cut (c_lo g) (c_flags c1) l2 c1) in *.
    assert (Hf2 : fin c2 = false) by exact Hf1. assert (Ee2 : c_end c2 = c_lo g) by (unfold c_end; rewrite Hf2; cbn; lia).
    cbn [set_packets set_tcplen set_inseg seqno tcplen]. rewrite Es. rewrite assert_true; cbn [mbind option_bind].
    2:{ apply Z.eqb_eq. unfold TcpSeq.seq_at. rewrite u32_add_l. f_equal. lia. }
    exists h2, c2, (g :: cs'). split_and!; try done.
    + rewrite Ee2. by destruct s.
    + intros x Hx. destruct Hpre as [k Ek]. cbn [c2 cut c_pbufs] in Hx. cbn [c1 flagged c_pbufs] in Ek. rewrite Ek. set_solver.
    + rewrite Ee2. eapply queue_raise; [|done]. destruct Q' as [Q1 Q2 Q3]. constructor; [|done|exact Q3].
      eapply qheap_touched; [exact Q1|exact T2| |set_solver|exact K2].
      intros x Hx Hxa. apply (Ap x Hx). rewrite Ed. unfold all_chunks. rewrite fmap_app, join_app. apply elem_of_app. by right.
    + lia.
    + intros x. rewrite <- Hcov, !covered_cons. cbn [c2 c1 flagged cut c_lo c_hi]. split; [intros [?|?]; [lia|tauto]|].
      intros [?|?]; [|tauto]. destruct (decide (x < c_lo g)); [left; lia|right; left; lia].
    + eapply touches_sub; [exact (touches_trans _ _ _ _ _ _ _ T' T2)| |]; set_solver.
Qed.

(** ** Nothing is cut off at the window: the peer keeps to what was announced *)
Lemma trim_to_window_ok s c r e a :
  inseg s = seg_of c → holds (packets s) c → win_ok R0 (pcb s) r e a → c_lo c = r → c_end c <= a →
  trim_to_window s = Some (set_tcplen (c_end c - c_lo c) s).
Proof.
  intros Ei Hc Wo Hlo He. pose proof (wi_order _ _ _ _ _ Wo). pose proof (ch_len _ _ _ Hc). unfold trim_to_window.
  rewrite Ei, (tcplen_chunk R0 c (ch_syn _ _ _ Hc)), (u16_id (c_end c - c_lo c)) by (unfold is_u16; lia).
  cbn [set_tcplen pcb tcplen]. rewrite (wi_wnd _ _ _ _ _ Wo). by rewrite (proj2 (Z.ltb_ge _ _)) by lia.
Qed.

(** ** The text goes to the application *)
Lemma take_inseg_ok s c :
  inseg s = seg_of c → holds (packets s) c → recv_data s = None →
  ∃ f o q, take_inseg s = Some (set_recv_flags f (set_inseg (set_sg_p q (seg_of c)) (set_recv_data o s))) ∧
    has TF_GOT_FIN f = has TF_GOT_FIN (recv_flags s) || fin c ∧
    ((c_lo c < c_hi c ∧ o = Some (c_p c) ∧ q = None) ∨ (c_lo c = c_hi c ∧ o = None ∧ q = Some (c_p c))).
Proof.
  intros Ei Hc Er. pose proof (ch_range _ _ _ Hc) as Rg. destruct (packet_first _ _ _ _ (ch_packet _ _ _ Hc)) as (b & lb & El & Hb & Ht & _).
  unfold take_inseg. rewrite Ei. cbn [TcpHold.seg_of sg_p]. cbn [mbind option_bind]. rewrite Hb. cbn [mbind option_bind]. rewrite Ht.
  exists (if fin c then with_flag TF_GOT_FIN (recv_flags s) else recv_flags s).
  destruct (Z.ltb_spec 0 (c_hi c - c_lo c)).
  - exists (Some (c_p c)), None. split; [|split; [|left; split_and!; [lia|done|done]]].
    + cbn [set_inseg inseg set_sg_p sg_flags recv_flags set_recv_data]. change (has TCP_FIN (sg_flags (seg_of c))) with (fin c). destruct (fin c); [done|]. by destruct s.
    + destruct (fin c); [by rewrite has_with|by rewrite orb_false_r].
  - exists None, (Some (c_p c)). split; [|split; [|right; split_and!; [lia|done|done]]].
    + rewrite Ei. cbn [TcpHold.seg_of sg_flags]. fold (fin c). destruct s as [p g]. cbn in Ei, Er |- *. subst. by destruct (fin c).
    + destruct (fin c); [by rewrite has_with|by rewrite orb_false_r].
Qed.

Lemma tcp_ack_flags (c : tcp_pcb) : ∃ f, tcp_ack c = set_pflags f c.
Proof. unfold tcp_ack. destruct (has _ _); by eexists. Qed.

Lemma mid_flags E (e a r0 : Z) s cs o ld r f : mid E e a r0 s cs o ld r → mid E e a r0 (set_pcb (set_pflags f (pcb s)) s) cs o ld r.
Proof. intros [M1 M2 M3 M4 M5 M6 M7 M8 M9]. constructor; try done. by apply win_ok_flags. Qed.

Lemma all_chunks_app cs1 cs2 : all_chunks (cs1 ++ cs2) = all_chunks cs1 ++ all_chunks cs2.
Proof. unfold all_chunks. by rewrite fmap_app, join_app. Qed.

(** ** The whole *)
Lemma in_sequence_ok E s c cs r e a :
  inseg s = seg_of c → seqno s = seq_at (c_lo c) → holds (packets s) c → ooseq (pcb s) = seg_of <$> cs →
  queue_ok (packets s) cs (inc (c_p c) E) (r + 1) a → (∀ x, x ∈ c_pbufs c → x ∉ all_chunks cs) →
  win_ok R0 (pcb s) r e a → c_lo c = r → c_end c <= a → recv_data s = None → has TF_GOT_FIN (recv_flags s) = false →
  ∃ s' cs' o ld r' q, in_sequence s = Some s' ∧ mid (inc_opt q E) e a r s' cs' o ld r' ∧ ooseq (pcb s') = seg_of <$> cs' ∧
    sg_p (inseg s') = q ∧ r < r' ∧ (∀ d, d ∈ cs' → r' < c_lo d) ∧ (∀ x, x < N → x < r' ∨ covered cs' x ↔ x < r ∨ covered (c :: cs) x) ∧
    (fin c = true → c_end c <= r') ∧
    kept (pcb s) (pcb s') ∧ state_after (state (pcb s)) (state (pcb s')) (has TF_GOT_FIN (recv_flags s')) ∧ lower_net s' = lower_net s ∧
    touches (c_pbufs c ++ all_chunks cs) (c_addr <$> cs) (packets s) (packets s').
Proof.
  intros Ei Es Hc Eq Q Ap Wo Hlo He Er Ef. pose proof (wi_order _ _ _ _ _ Wo) as Ord. unfold in_sequence.
  rewrite (trim_to_window_ok s c r e a Ei Hc Wo Hlo He). cbn [mbind option_bind].
  destruct (adjust_ooseq_ok (inc (c_p c) E) a (set_tcplen (c_end c - c_lo c) s) c cs) as
    (h1 & c1 & cs1 & -> & Hlo1 & Hp1 & Hl1 & Hc1 & Q1 & He1 & Hsuf & Hcov1 & Hfin1 & T1); try done; [by subst r|lia|].
  cbn [mbind option_bind]. set (s1 := set_packets h1 _).
  change (tcplen s1) with (c_end c1 - c_lo c1). change (seqno s1) with (seqno s). rewrite Es, <- Hlo1, Hlo1, seq_at_add, <- Hlo1.
  pose proof (ch_range _ _ _ Hc1) as Rg1. destruct (ch_len _ _ _ Hc1) as [Hl _]. destruct (fin_end Stream c1 _ Hc1) as (F1 & F2 & F3).
  replace (c_lo c1 + (c_end c1 - c_lo c1)) with (r + (c_end c1 - c_lo c1)) by lia.
  destruct (advance_ok R0 s1 (c_end c1 - c_lo c1) r e a) as (p1 & -> & W1 & Wm); [by apply win_ok_queue|lia|lia|].
  cbn [mbind option_bind]. replace (r + (c_end c1 - c_lo c1)) with (c_end c1) in W1 by lia.
  destruct (take_inseg_ok (set_pcb p1 s1) c1 eq_refl Hc1 Er) as (f & o & q & -> & Hf & Cases). cbn [mbind option_bind].
  set (s2 := set_recv_flags f _). change (recv_flags (set_pcb p1 s1)) with (recv_flags s) in Hf. rewrite Ef in Hf. cbn [orb] in Hf.
  assert (Eq2 : ooseq (pcb s2) = seg_of <$> cs1) by (change (pcb s2) with p1; by rewrite Wm).
  set (ld := match o with Some _ => c_pbufs c1 | None => [] end).
  assert (M : mid (inc_opt q E) e a r s2 cs1 o ld (c_end c1)).
  { constructor.
    - exact W1.
    - eapply qheap_ext; [|apply Q1]. intros x. rewrite <- Hp1. by destruct Cases as [(_ & -> & ->)|(_ & -> & ->)].
    - apply Q1.
    - intros d Hd. apply (q_ends _ _ _ _ _ Q1 d Hd).
    - done.
    - unfold delivered, ld. rewrite F3. destruct Cases as [(Hne & -> & ->)|(Hz & -> & ->)]; [|split; [done|lia]].
      replace r with (c_lo c1) by lia. split; [done|]. split; [apply (ch_packet _ _ _ Hc1)|apply (ch_data _ _ _ Hc1)].
    - intros x Hx Hin. destruct Hsuf as [k Ek]. apply (Ap x); [|rewrite Ek, all_chunks_app; set_solver]. apply Hl1. unfold ld in Hx. destruct o; [done|set_solver].
    - change (recv_flags s2) with f. rewrite Hf. apply eq_true_iff_eq. by rewrite Z.eqb_eq, F2.
    - lia. }
  destruct (dequeue_all_ok Stream R0 X _ e a r cs1 s2 o ld (c_end c1) M Eq2) as
    (s3 & cs3 & o3 & ld3 & r3 & Ed & M3 & Eq3 & Hr3 & Hl3 & Hcov3 & K3 & St3 & Ei3 & En3 & T3 & In3).
  rewrite Eq2, Ed. cbn [mbind option_bind]. destruct (tcp_ack_flags (pcb s3)) as [f3 ->].
  exists (set_pcb (set_pflags f3 (pcb s3)) s3), cs3, o3, ld3, r3, q. split_and!; try done.
  - by apply mid_flags.
  - change (inseg (set_pcb _ s3)) with (inseg s3). by rewrite Ei3.
  - lia.
  - intros x Hx. rewrite (Hcov3 x Hx), <- (Hcov1 x), covered_cons. split.
    + intros [?|?]; [|tauto]. destruct (decide (x < r)); [by left|right; left]. lia.
    + intros [?|[?|?]]; [left; lia|left|by right]. lia.
  - intros Hfc. specialize (Hfin1 Hfc). lia.
  - eapply kept_trans; [apply (kept_queue _ (seg_of <$> cs1))|]. eapply kept_trans; [by apply kept_window|]. eapply kept_trans; [exact K3|apply kept_flags].
  - change (pcb s2) with p1 in St3. rewrite Wm in St3. exact St3.
  - eapply touches_sub; [exact (touches_trans _ _ _ _ _ _ _ T1 T3)| |].
    + destruct Hsuf as [k Ek]. rewrite Ek, !all_chunks_app. unfold ld. destruct o; set_solver.
    + destruct Hsuf as [k Ek]. rewrite Ek, fmap_app. set_solver.
Qed.
End inseq.
