(* ===== verification/TcpOos.v ===== *)
(** * TCP: a segment out of sequence

    The segment is copied, its packet shared, and put into the queue; what the
    queue holds of the same text is freed or trimmed. *)
From Stdlib Require Import Sorted.
From stdpp Require Import sorting.
From S2P Require Import Prelude LwipDef Chksum Memp Pbuf PbufRef PbufOwn PbufData IpReassJoin PbufMove TcpDef TcpSeq TcpHold TcpRecv TcpQueue TcpInSeq.
Local Open Scope Z_scope.

Section oos.
Context {A W : Type} `{HL : ArenaLaws A}.
Context (Stream : list Z) (R0 : Z) (X : Z → nat).
Implicit Types (h : heap A) (E : Z → nat) (s : rx A W) (c d g : chunk) (cs gs ks : list chunk).
Local Abbreviation seq_at := (seq_at R0).
Local Abbreviation seg_of := (seg_of R0).
Local Abbreviation holds := (holds Stream).
Local Abbreviation qheap := (qheap Stream X).
Local Abbreviation queue_ok := (queue_ok Stream X).
Local Abbreviation N := (N Stream).

Lemma qheap_flagged h c cs E f : qheap h (c :: cs) E → has TCP_SYN f = false → (has TCP_FIN f = true → c_hi c = N) →
  c_lo c < c_hi c ∨ has TCP_FIN f = true → qheap h (flagged f c :: cs) E.
Proof.
  intros [Q1 Q2 Q3 Q4 Q5] Hs Hf Hne. constructor; try done.
  - intros d [->|Hd]%elem_of_cons; [|by apply Q2; right]. apply holds_flagged; [apply Q2; by left|done..].
  - intros d [->|Hd]%elem_of_cons; [apply (Q5 c); by left|by apply Q5; right].
Qed.

Lemma all_chunks_sub cs ks : cs ⊆ ks → all_chunks cs ⊆ all_chunks ks.
Proof.
  intros Hs x. unfold all_chunks. rewrite !list_elem_of_join. intros (l & Hx & (c & -> & Hc)%list_elem_of_fmap).
  exists (c_pbufs c). split; [done|]. apply list_elem_of_fmap_2. by apply Hs.
Qed.

(** ** Covered segments of the queue *)
Lemma oos_drop_ok E (a : Z) ks : ∀ gs s c,
  qheap (packets s) (c :: gs ++ ks) E → seqno s = seq_at (c_lo c) → StronglySorted before gs →
  (∀ d, d ∈ gs → c_lo c <= c_lo d ∧ c_end d <= a) → a - c_lo c <= 65535 → c_end c <= a → (fin c = true → gs = []) →
  ∃ f h' dropped gs', let c' := flagged f c in
    oos_drop (seg_of c) (seg_of <$> gs) s = Some (set_packets h' s, seg_of c', seg_of <$> gs') ∧ gs = dropped ++ gs' ∧
    qheap h' (c' :: gs' ++ ks) E ∧ (∀ d, d ∈ dropped → c_hi d <= c_hi c) ∧
    match gs' with d :: _ => c_hi c < c_hi d ∧ fin c' = false | [] => True end ∧ c_end c <= c_end c' ∧ c_end c' <= a ∧
    touches (all_chunks dropped) (c_addr <$> dropped) (packets s) h'.
Proof.
  induction gs as [|g gs IH]; intros s c Q Es Hs Hends Hw He Hfin.
  { exists (c_flags c), (packets s), [], []. cbv zeta. rewrite flagged_id. split_and!; try done; try lia; [by destruct s|by intros d ?%elem_of_nil]. }
  pose proof (qh_holds _ _ _ _ _ Q c ltac:(by left)) as Hc. pose proof (qh_holds _ _ _ _ _ Q g ltac:(right; by left)) as Hg.
  assert (Hcf : fin c = false) by (destruct (fin c); [by specialize (Hfin eq_refl)|done]).
  assert (Ece : c_end c = c_hi c) by (unfold c_end; rewrite Hcf; lia). pose proof (ch_range _ _ _ Hc) as Rc. pose proof (ch_range _ _ _ Hg) as Rg.
  destruct (Hends g ltac:(by left)) as [Hg1 Hg2]. pose proof (ch_len _ _ _ Hg) as [Lg _]. destruct (fin_end Stream g _ Hg) as (F1 & F2 & F3).
  pose proof (ch_len _ _ _ Hc) as [Lc _]. cbn [fmap list_fmap oos_drop]. rewrite Es. cbn [TcpHold.seg_of sg_seqno sg_len sg_flags].
  rewrite (seq_geq R0 _ _ (c_hi c) (c_hi g)); [|replace (c_hi c) with (c_lo c + (c_hi c - c_lo c)) at 2 by lia; at_pos_tac|
    replace (c_hi g) with (c_lo g + (c_hi g - c_lo g)) at 2 by lia; at_pos_tac|unfold near; lia].
  destruct (Z.leb_spec (c_hi g) (c_hi c)) as [Hcov|Hnc].
  2:{ exists (c_flags c), (packets s), [], (g :: gs). cbv zeta. rewrite flagged_id.
      split_and!; try done; try lia; [by destruct s|by intros d ?%elem_of_nil]. }
  assert (Qp : qheap (packets s) (g :: c :: gs ++ ks) E) by (eapply qheap_perm; [|exact Q]; apply perm_swap).
  destruct (tcp_seg_free_ok Stream R0 X _ g _ E Qp) as (h1 & Ef & Q1 & T1). fold (fin g). rewrite Ef. cbn [mbind option_bind].
  apply StronglySorted_inv in Hs as [Hs Hfa]. rewrite Forall_forall in Hfa.
  destruct (fin g) eqn:Efg.
  - assert (Hnil : gs = []).
    { destruct gs as [|d2 gs]; [done|exfalso]. specialize (Hfa d2 ltac:(by left)). unfold before in Hfa.
      pose proof (ch_range _ _ _ (qh_holds _ _ _ _ _ Q1 d2 ltac:(right; by left))). destruct F2 as [_ ?]. lia. }
    subst gs. cbn [fmap list_fmap oos_drop]. assert (EN : c_hi c = N) by (destruct F2 as [_ F2]; specialize (F2 eq_refl); lia).
    set (f := with_flag TCP_FIN (c_flags c)). assert (Hf : has TCP_FIN f = true) by (unfold f; by rewrite has_with, orb_true_r).
    exists f, h1, [g], []. cbv zeta. split_and!; try done; try lia.
    + apply qheap_flagged; [exact Q1| |done|by right]. unfold f. by rewrite has_with, (ch_syn _ _ _ Hc).
    + intros d ->%list_elem_of_singleton. lia.
    + unfold c_end, fin. cbn [flagged c_hi c_flags]. rewrite Hf. fold (fin c). rewrite Hcf. lia.
    + unfold c_end, fin. cbn [flagged c_hi c_flags]. rewrite Hf. destruct F2 as [_ F2]. specialize (F2 eq_refl). lia.
    + rewrite all_chunks_cons. cbn. rewrite app_nil_r. exact T1.
  - pose proof (IH (set_packets h1 s) c Q1 Es Hs ltac:(intros d Hd; apply Hends; by right) Hw He ltac:(congruence)) as I. cbv zeta in I.
    destruct I as (f & h' & dropped & gs' & Ed & -> & Q' & Hdr & Hm & He1 & He2 & T').
    exists f, h', (g :: dropped), gs'. cbv zeta. split_and!; try done.
    + intros d [->|Hd]%elem_of_cons; [lia|by apply Hdr].
    + exact (touches_trans _ _ _ _ _ _ _ T1 T').
Qed.

(** ** The copy goes in front of [gs]; [ks] is the rest of the queue *)
Lemma tcp_oos_insert_segment_ok E (a : Z) ks gs s c :
  qheap (packets s) (c :: gs ++ ks) E → seqno s = seq_at (c_lo c) → StronglySorted before gs →
  (∀ d, d ∈ gs → c_lo c <= c_lo d ∧ c_end d <= a ∧ (c_lo d = c_lo c → c_hi d <= c_hi c)) → a - c_lo c <= 65535 → c_end c <= a →
  ∃ h' c' gs', tcp_oos_insert_segment (seg_of c) (seg_of <$> gs) s = Some (set_packets h' s, seg_of <$> c' :: gs') ∧
    c_lo c' = c_lo c ∧ c_p c' = c_p c ∧ qheap h' (c' :: gs' ++ ks) E ∧ gs' `suffix_of` gs ∧ (∀ d, d ∈ gs' → before c' d) ∧ c_end c' <= a ∧
    (∀ x, covered (c' :: gs') x ↔ covered (c :: gs) x) ∧ touches (c_pbufs c ++ all_chunks gs) (c_addr <$> gs) (packets s) h'.
Proof.
  intros Q Es Hs Hends Hw He. pose proof (qh_holds _ _ _ _ _ Q c ltac:(by left)) as Hc. pose proof (ch_range _ _ _ Hc) as Rc.
  assert (Hh : ∀ d, d ∈ gs → holds (packets s) d) by (intros d Hd; apply (qh_holds _ _ _ _ _ Q); set_solver).
  unfold tcp_oos_insert_segment. cbn [TcpHold.seg_of sg_flags]. fold (fin c). destruct (fin c) eqn:Ef.
  - assert (Qp : qheap (packets s) (gs ++ c :: ks) E) by (eapply qheap_perm; [|exact Q]; by rewrite Permutation_middle).
    destruct (tcp_segs_free_ok Stream R0 X E (c :: ks) gs (packets s) Qp) as (h' & -> & Q' & T). cbn [mbind option_bind].
    exists h', c, []. split_and!; try done.
    + apply suffix_nil.
    + by intros d ?%elem_of_nil.
    + intros x. rewrite !covered_cons. split; [intros [?|[]%covered_nil]; by left|]. intros [?|(y & Hy & Hx)]; [by left|]. left.
      pose proof (ch_fin _ _ _ Hc Ef). pose proof (ch_range _ _ _ (Hh y Hy)). destruct (Hends y Hy). lia.
    + eapply touches_sub; [exact T|set_solver|done].
  - pose proof (oos_drop_ok E a ks gs s c Q Es Hs ltac:(intros d Hd; destruct (Hends d Hd); lia) Hw He ltac:(congruence)) as D. cbv zeta in D.
    destruct D as (f & h' & dropped & gs' & -> & Ed & Q' & Hdr & Hm & He1 & He2 & T). cbn [mbind option_bind]. set (c1 := flagged f c) in *.
    assert (Hcov : ∀ x, covered (c1 :: gs') x ↔ covered (c :: gs) x).
    { intros x. rewrite Ed, !covered_cons, covered_app. cbn [c1 flagged c_lo c_hi]. split; [tauto|]. intros [?|[(y & Hy & Hx)|?]]; [tauto| |tauto].
      left. specialize (Hdr y Hy). assert (Hin : y ∈ gs) by (rewrite Ed; set_solver). destruct (Hends y Hin). lia. }
    assert (T' : touches (c_pbufs c ++ all_chunks gs) (c_addr <$> gs) (packets s) h').
    { eapply touches_sub; [exact T| |]; rewrite Ed; [rewrite all_chunks_app|rewrite fmap_app]; set_solver. }
    assert (Hsuf : gs' `suffix_of` gs) by (by exists dropped). destruct gs' as [|g gs']; cbn [fmap list_fmap].
    { exists h', c1, []. split_and!; try done. by intros d ?%elem_of_nil. }
    destruct Hm as [Hm Hf1]. pose proof (qh_holds _ _ _ _ _ Q' g ltac:(right; by left)) as Hg.
    assert (Hgin : g ∈ gs) by (rewrite Ed; set_solver). destruct (Hends g Hgin) as (Hg1 & Hg2 & Hg3).
    pose proof (ch_range _ _ _ Hg) as Rg. pose proof (ch_len _ _ _ Hg) as [Lg _].
    assert (Hgs : ∀ d, d ∈ g :: gs' → c_lo g <= c_lo d).
    { intros d [->|Hd]%elem_of_cons; [lia|]. assert (Hs2 : StronglySorted before (g :: gs')).
      { rewrite Ed in Hs. clear -Hs. induction dropped as [|k dropped IH]; [done|]. apply IH. by apply StronglySorted_inv in Hs as [? _]. }
      apply StronglySorted_inv in Hs2 as [_ Hs2]. rewrite Forall_forall in Hs2. specialize (Hs2 d Hd). unfold before in Hs2. lia. }
    assert (Ece : c_end c1 = c_hi c) by (unfold c_end; rewrite Hf1; cbn [c1 flagged c_hi]; lia).
    change (seqno (set_packets h' s)) with (seqno s). rewrite Es. cbn [TcpHold.seg_of sg_len sg_seqno].
    change (c_lo c1) with (c_lo c). change (c_hi c1) with (c_hi c).
    rewrite (seq_gt R0 _ _ (c_hi c) (c_lo g)); [|replace (c_hi c) with (c_lo c + (c_hi c - c_lo c)) at 2 by lia; at_pos_tac|at_pos_tac|unfold near; lia].
    destruct (Z.ltb_spec (c_lo g) (c_hi c)) as [Hov|Hno].
    2:{ exists h', c1, (g :: gs'). split_and!; try done. intros d Hd. specialize (Hgs d Hd). unfold before. lia. }
    assert (Eu : u16 (seq_at (c_lo g) - seq_at (c_lo c)) = c_lo g - c_lo c).
    { unfold TcpSeq.seq_at, u32, u16. Z.to_euclidean_division_equations; lia. }
    rewrite Eu. change (set_sg_len (c_lo g - c_lo c) _) with (seg_of (cut (c_lo g) (c_flags c1) (c_pbufs c1) c1)).
    change (packets (set_packets h' s)) with h'.
    destruct (trim_queued_ok Stream R0 X h' c1 ((g :: gs') ++ ks) E (c_lo g) (c_flags c1) (c_pbufs c1) Q') as (h2 & l2 & -> & Hpre & Q2 & T2).
    { change (c_lo c1) with (c_lo c). change (c_hi c1) with (c_hi c). lia. }
    { apply (ch_syn _ _ _ (qh_holds _ _ _ _ _ Q' c1 ltac:(by left))). }
    { intros Hfin. unfold fin in Hf1. congruence. }
    cbn [mbind option_bind]. set (c2 := cut (c_lo g) (c_flags c1) l2 c1) in *.
    assert (Hf2 : fin c2 = false) by exact Hf1. assert (Ee2 : c_end c2 = c_lo g) by (unfold c_end; rewrite Hf2; cbn; lia).
    exists h2, c2, (g :: gs'). split_and!; try done; try lia.
    + intros d Hd. unfold before. rewrite Ee2. by apply Hgs.
    + intros x. rewrite <- Hcov, !covered_cons. cbn [c2 c1 flagged cut c_lo c_hi]. split; [intros [?|?]; [lia|tauto]|].
      intros [?|?]; [|tauto]. destruct (decide (x < c_lo g)); [left; lia|right; left; lia].
    + eapply touches_sub; [exact (touches_trans _ _ _ _ _ _ _ T' T2)| |]; set_solver.
Qed.

(** ** The end of the segment in front *)
Lemma trim_prev_ok E ks s d (m : Z) :
  qheap (packets s) (d :: ks) E → seqno s = seq_at m → c_lo d < m → m - c_lo d <= 65535 → fin d = false →
  ∃ h' d', trim_prev (seg_of d) s = Some (set_packets h' s, seg_of d') ∧ qheap h' (d' :: ks) E ∧ c_lo d' = c_lo d ∧ c_p d' = c_p d ∧
    c_end d' = Z.min (c_hi d) m ∧ c_hi d' = Z.min (c_hi d) m ∧ touches (c_pbufs d) [] (packets s) h'.
Proof.
  intros Q Es Hlo Hw Hf. pose proof (qh_holds _ _ _ _ _ Q d ltac:(by left)) as Hd. pose proof (ch_len _ _ _ Hd) as [Ld1 Ld2].
  assert (Ee : c_end d = c_hi d) by (unfold c_end; rewrite Hf; lia).
  unfold trim_prev. rewrite Es. cbn [TcpHold.seg_of sg_seqno sg_len].
  rewrite (seq_gt R0 _ _ (c_hi d) m); [|replace (c_hi d) with (c_lo d + (c_hi d - c_lo d)) at 2 by lia; at_pos_tac|at_pos_tac|unfold near; lia].
  destruct (Z.ltb_spec m (c_hi d)) as [Hov|Hno].
  2:{ exists (packets s), d. split_and!; try done; try lia. by destruct s. }
  assert (Eu : u16 (seq_at m - seq_at (c_lo d)) = m - c_lo d).
  { unfold TcpSeq.seq_at, u32, u16. Z.to_euclidean_division_equations; lia. }
  rewrite Eu. change (set_sg_len (m - c_lo d) _) with (seg_of (cut m (c_flags d) (c_pbufs d) d)).
  destruct (trim_queued_ok Stream R0 X (packets s) d ks E m (c_flags d) (c_pbufs d) Q ltac:(lia) (ch_syn _ _ _ Hd)) as (h2 & l2 & -> & Hpre & Q2 & T2).
  { intros Hfin. unfold fin in Hf. congruence. }
  cbn [mbind option_bind]. exists h2, (cut m (c_flags d) l2 d). split_and!; try done.
  - unfold c_end. change (fin (cut _ _ _ d)) with (fin d). rewrite Hf. cbn [cut c_hi]. lia.
  - cbn [cut c_hi]. lia.
Qed.

(** ** At the end of the queue

    The comparison with the right edge of the window is one of 32-bit
    integers: the window must not contain the sequence number 0, other than as
    its first. *)
Definition no_wrap (r e : Z) : Prop := seq_at r + (e - r) < 4294967296.

Lemma window_compare r e x : no_wrap r e → r <= x → x <= e → (u32 (seq_at r + (e - r)) <? u32 (seq_at x)) = false.
Proof.
  unfold no_wrap. intros Hn H1 H2. pose proof (seq_at_range R0 r) as Rr. unfold is_u32 in Rr.
  assert (Ex : seq_at x = seq_at r + (x - r)).
  { replace x with (r + (x - r)) at 1 by lia. rewrite <- (seq_at_add R0). rewrite u32_id by (unfold is_u32; lia). done. }
  rewrite Ex, !u32_id by (unfold is_u32; lia). apply Z.ltb_ge. lia.
Qed.

Lemma oos_append_ok E ks s c d (r e a : Z) :
  qheap (packets s) (d :: ks) E → seqno s = seq_at (c_lo c) → tcplen s = c_end c - c_lo c → win_ok R0 (pcb s) r e a → no_wrap r e →
  r <= c_lo c → c_end c <= a → c_lo c < c_end c → c_lo d < c_lo c → c_lo c - c_lo d <= 65535 → fin d = false →
  ∃ h' d', oos_append (seg_of d) (seg_of c) s = Some (set_packets h' s, [seg_of d'; seg_of c]) ∧ qheap h' (d' :: ks) E ∧ c_lo d' = c_lo d ∧
    c_p d' = c_p d ∧ c_end d' = Z.min (c_hi d) (c_lo c) ∧ c_hi d' = Z.min (c_hi d) (c_lo c) ∧ touches (c_pbufs d) [] (packets s) h'.
Proof.
  intros Q Es Et Wo Hn Hr He Hne Hlo Hw Hf. unfold oos_append.
  destruct (trim_prev_ok E ks s d (c_lo c) Q Es Hlo Hw Hf) as (h' & d' & -> & Q' & Rest). cbn [mbind option_bind].
  cbn [set_packets pcb tcplen seqno]. rewrite (wi_nxt _ _ _ _ _ Wo), (wi_wnd _ _ _ _ _ Wo), Es, Et.
  pose proof (wi_order _ _ _ _ _ Wo). replace (u32 (c_end c - c_lo c + seq_at (c_lo c))) with (u32 (seq_at (c_end c))).
  2:{ rewrite Z.add_comm, seq_at_add. unfold TcpSeq.seq_at. rewrite u32_u32. f_equal. f_equal. lia. }
  rewrite window_compare by (done || lia). by exists h', d'.
Qed.

(** ** The copy goes into the queue *)
Lemma insert_queued_ok E (r a : Z) pre gs s c :
  qheap (packets s) (c :: pre ++ gs) E → seqno s = seq_at (c_lo c) → StronglySorted before (pre ++ gs) →
  (∀ d, d ∈ pre ++ gs → r <= c_lo d ∧ c_end d <= a) → r <= c_lo c → c_end c <= a → a - c_lo c <= 65535 → (∀ d, d ∈ pre → before d c) →
  (∀ d, d ∈ gs → c_lo c <= c_lo d ∧ (c_lo d = c_lo c → c_hi d <= c_hi c)) →
  ∃ h' l cs', tcp_oos_insert_segment (seg_of c) (seg_of <$> gs) s = Some (set_packets h' s, l) ∧ (seg_of <$> pre) ++ l = seg_of <$> cs' ∧
    queue_ok h' cs' E r a ∧ (∃ d, d ∈ cs' ∧ c_p d = c_p c) ∧ (∀ x, covered cs' x ↔ covered (c :: pre ++ gs) x) ∧
    touches (c_pbufs c ++ all_chunks gs) (c_addr <$> gs) (packets s) h'.
Proof.
  intros Q Es Hs Hends Hr He Hw Hpre Hgs. apply StronglySorted_app in Hs as (Hpg & Hsp & Hsg).
  assert (Qp : qheap (packets s) (c :: gs ++ pre) E) by (eapply qheap_perm; [|exact Q]; by rewrite (Permutation_app_comm pre gs)).
  destruct (tcp_oos_insert_segment_ok E a pre gs s c Qp Es Hsg) as (h' & c' & gs' & Ei & Hlo & Hp & Q' & [k Ek] & Hb & He' & Hcov & T); [|done..|].
  { intros d Hd. destruct (Hgs d Hd). destruct (Hends d ltac:(set_solver)). lia. }
  pose proof (qh_holds _ _ _ _ _ Q' c' ltac:(by left)) as Hc'. pose proof (ch_len _ _ _ Hc') as [Lc' _].
  exists h', (seg_of <$> c' :: gs'), (pre ++ c' :: gs'). split; [exact Ei|]. split; [by rewrite fmap_app|]. split_and!; try done.
  - constructor.
    + eapply qheap_perm; [|exact Q']. by rewrite (Permutation_app_comm pre).
    + apply StronglySorted_app. split_and!; [|done|].
      * intros x y Hx [->|Hy]%elem_of_cons; [|apply Hpg; [done|rewrite Ek; set_solver]]. specialize (Hpre x Hx). unfold before in *. lia.
      * constructor; [|by rewrite Forall_forall]. rewrite Ek in Hsg. by eapply StronglySorted_app_1_r.
    + intros d [Hd|[->|Hd]%elem_of_cons]%elem_of_app; [apply Hends; set_solver|lia|apply Hends; rewrite Ek; set_solver].
  - exists c'. split; [set_solver|done].
  - intros x. rewrite covered_app, Hcov, !covered_cons, covered_app. tauto.
Qed.

(** ** What becomes of a segment out of sequence *)
Inductive placed E (r a : Z) c cs s : rx A W → Prop :=
| placed_covered : (∀ x, covered [c] x → covered cs x) → placed E r a c cs s s
| placed_no_memory : memp_malloc MEMP_TCP_SEG (arena (packets s)) = None → placed E r a c cs s s
| placed_queued h' cs' :
    queue_ok h' cs' E r a → touches (c_pbufs c ++ all_chunks cs) (c_addr <$> cs) (packets s) h' → (∃ d, d ∈ cs' ∧ c_p d = c_p c) →
    (∀ x, covered [c] x → covered cs' x) → (∀ x, covered cs' x → covered (c :: cs) x) →
    (∀ x, covered cs x → covered cs' x ∨ ∃ d, d ∈ cs ∧ c_lo d < c_lo c ∧ c_hi c <= x ∧ x < c_hi d) →
    placed E r a c cs s (set_queue (seg_of <$> cs') (set_packets h' s)).

(** What the walk through the queue starts from. *)
Record arrived E (r e a : Z) c cs s : Prop := {
  ar_seg : inseg s = seg_of c;
  ar_seqno : seqno s = seq_at (c_lo c);
  ar_tcplen : tcplen s = c_end c - c_lo c;
  ar_holds : holds (packets s) c;
  ar_queue : queue_ok (packets s) cs E (r + 1) a;
  ar_apart x : x ∈ c_pbufs c → x ∉ all_chunks cs;
  ar_ref : ∃ b, pbufs (packets s) !! c_p c = Some b ∧ ref b < 65535;
  ar_win : win_ok R0 (pcb s) r e a;
  ar_wrap : no_wrap r e;
  ar_range : r < c_lo c ∧ c_end c <= a }.

(** The copy of the segment. *)
Lemma copy_arrived E (r e a : Z) c cs s : arrived E r e a c cs s →
  ∃ h1 o, tcp_seg_copy (inseg s) (packets s) = Some (h1, o) ∧
    match o with
    | None => set_packets h1 s = s ∧ memp_malloc MEMP_TCP_SEG (arena (packets s)) = None
    | Some g => ∃ k, g = seg_of (readdr k c) ∧ touches (c_pbufs c) [] (packets s) h1 ∧ qheap h1 (readdr k c :: cs) E
    end.
Proof.
  intros [A1 A2 A3 A4 A5 A6 (b & Hb & Hr) A8 A9 A10]. destruct A5 as [Q1 Q2 Q3].
  destruct (tcp_seg_copy_ok Stream R0 X (packets s) c cs E b Q1 A4 A6 Hb Hr) as (h1 & o & Ec & T & M). exists h1, o. rewrite A1. split; [exact Ec|].
  destruct o as [g|]; [|destruct M as [-> M]; split; [by destruct s|done]]. destruct M as (k & -> & Hh & Q). by exists k.
Qed.

(** In front of [gs], nothing in front of it overlapping. *)
Lemma insert_copy_ok E (r e a : Z) pre gs c s :
  arrived E r e a c (pre ++ gs) s → (∀ d, d ∈ pre → before d c) → (∀ d, d ∈ gs → c_lo c <= c_lo d ∧ (c_lo d = c_lo c → c_hi d <= c_hi c)) →
  ∃ s', ('(h, o) ← tcp_seg_copy (inseg s) (packets s);
         let s := set_packets h s in
         match o with
         | None => Some s
         | Some cseg => '(s, l) ← tcp_oos_insert_segment cseg (seg_of <$> gs) s; Some (set_queue ((seg_of <$> pre) ++ l) s)
         end) = Some s' ∧ placed E (r + 1) a c (pre ++ gs) s s'.
Proof.
  intros Ar Hpre Hgs. destruct (copy_arrived E r e a c _ s Ar) as (h1 & o & -> & M). cbn [mbind option_bind].
  destruct o as [g|]; [|destruct M as [-> M]; exists s; split; [done|by apply placed_no_memory]].
  destruct M as (k & -> & T1 & Q1). destruct Ar as [A1 A2 A3 A4 A5 A6 A7 A8 A9 A10]. pose proof (wi_order _ _ _ _ _ A8).
  destruct A5 as [_ Q2 Q3]. pose proof (ch_len _ _ _ A4).
  destruct (insert_queued_ok E (r + 1) a pre gs (set_packets h1 s) (readdr k c) Q1 A2 Q2 Q3) as (h2 & l & cs' & -> & El & Q' & Hin & Hcov & T2);
    try done; [cbn [readdr c_lo]; lia|change (c_end (readdr k c)) with (c_end c); lia|cbn [readdr c_lo]; lia|].
  cbn [mbind option_bind]. rewrite El. eexists. split; [done|]. apply (placed_queued E (r + 1) a c _ s h2 cs'); try done.
  - eapply touches_sub; [exact (touches_trans _ _ _ _ _ _ _ T1 T2)| |]; rewrite ?all_chunks_app, ?fmap_app; cbn [readdr c_pbufs]; set_solver.
  - intros x [Hx|[]%covered_nil]%covered_cons. apply Hcov, covered_cons. by left.
  - intros x Hx%Hcov. rewrite covered_cons in *. exact Hx.
  - intros x Hx. left. apply Hcov, covered_cons. by right.
Qed.

Lemma sorted_shrink pre d d' gs : StronglySorted before (pre ++ d :: gs) → c_lo d' = c_lo d → c_end d' <= c_end d → StronglySorted before (pre ++ d' :: gs).
Proof.
  intros (Hpg & Hp & [Hg Hf]%StronglySorted_inv)%StronglySorted_app Hlo He. rewrite Forall_forall in Hf. apply StronglySorted_app. split_and!; [|done|].
  - intros x y Hx [->|Hy]%elem_of_cons; [|apply Hpg; set_solver]. specialize (Hpg x d Hx ltac:(by left)). unfold before in *. lia.
  - constructor; [done|]. rewrite Forall_forall. intros x Hx. specialize (Hf x Hx). unfold before in *. lia.
Qed.

(** Between [d] and [gs]. *)
Lemma between_ok E (r e a : Z) pre d gs c s :
  arrived E r e a c (pre ++ d :: gs) s → gs ≠ [] → c_lo d < c_lo c → (∀ g, g ∈ gs → c_lo c < c_lo g) →
  ∃ s', ('(h, o) ← tcp_seg_copy (inseg s) (packets s);
         let s := set_packets h s in
         match o with
         | None => Some s
         | Some cseg =>
             '(s, prev) ← trim_prev (seg_of d) s;
             '(s, l) ← tcp_oos_insert_segment cseg (seg_of <$> gs) s;
             Some (set_queue ((seg_of <$> pre) ++ prev :: l) s)
         end) = Some s' ∧ placed E (r + 1) a c (pre ++ d :: gs) s s'.
Proof.
  intros Ar Hne Hd Hgs. destruct (copy_arrived E r e a c _ s Ar) as (h1 & o & -> & M). cbn [mbind option_bind].
  destruct o as [g|]; [|destruct M as [-> M]; exists s; split; [done|by apply placed_no_memory]].
  destruct M as (k & -> & T1 & Q1). destruct Ar as [A1 A2 A3 A4 A5 A6 A7 A8 A9 A10]. pose proof (wi_order _ _ _ _ _ A8).
  destruct A5 as [Q0 Q2 Q3]. pose proof (ch_len _ _ _ A4). set (c1 := readdr k c) in *.
  destruct (Q3 d ltac:(set_solver)) as [Hd1 Hd2]. pose proof (qh_holds _ _ _ _ _ Q0 d ltac:(set_solver)) as Hh.
  assert (Hf : fin d = false).
  { destruct (fin d) eqn:Ef; [|done]. destruct (fin_end Stream d _ Hh) as (_ & F2 & _). apply F2 in Ef. destruct gs as [|g gs]; [done|exfalso].
    pose proof (StronglySorted_app_1_r _ _ _ Q2) as [_ S2]%StronglySorted_inv. rewrite Forall_forall in S2. specialize (S2 g ltac:(by left)).
    pose proof (ch_range _ _ _ (qh_holds _ _ _ _ _ Q0 g ltac:(set_solver))). unfold before in S2. lia. }
  assert (Ee : c_end d = c_hi d) by (unfold c_end; rewrite Hf; lia).
  destruct (trim_prev_ok E (c1 :: pre ++ gs) (set_packets h1 s) d (c_lo c)) as (h2 & d' & -> & Qt & Hlo' & Hp' & He' & Hhi' & T2); [|done|done|lia|done|].
  { eapply qheap_perm; [|exact Q1]. rewrite perm_swap. by rewrite <- Permutation_middle. }
  cbn [mbind option_bind]. change (set_packets h2 (set_packets h1 s)) with (set_packets h2 s).
  assert (Q2' : qheap h2 (c1 :: (pre ++ [d']) ++ gs) E).
  { eapply qheap_perm; [|exact Qt]. rewrite perm_swap, <- app_assoc. simpl. by rewrite <- Permutation_middle. }
  assert (Sq : StronglySorted before ((pre ++ [d']) ++ gs)) by (rewrite <- app_assoc; eapply (sorted_shrink _ d); [done|done|lia]).
  pose proof Q2 as (Hpg & _ & _)%StronglySorted_app. pose proof (ch_range _ _ _ A4) as Rc.
  destruct (insert_queued_ok E (r + 1) a (pre ++ [d']) gs (set_packets h2 s) c1 Q2' A2 Sq) as (h3 & l & cs' & -> & El & Q' & Hin & Hcov & T3).
  { intros x [[Hx| ->%list_elem_of_singleton]%elem_of_app|Hx]%elem_of_app; [apply Q3; set_solver|rewrite Hlo', He'; lia|apply Q3; set_solver]. }
  { cbn [c1 readdr c_lo]. lia. } { change (c_end c1) with (c_end c). lia. } { cbn [c1 readdr c_lo]. lia. }
  { unfold before. cbn [c1 readdr c_lo]. intros x [Hx| ->%list_elem_of_singleton]%elem_of_app; [|lia].
    specialize (Hpg x d Hx ltac:(by left)). unfold before in Hpg. lia. }
  { intros x Hx. specialize (Hgs x Hx). cbn [c1 readdr c_lo]. lia. }
  cbn [mbind option_bind]. replace ((seg_of <$> pre) ++ seg_of d' :: l) with (seg_of <$> cs') by (rewrite <- El, fmap_app, <- app_assoc; done).
  eexists. split; [done|]. apply (placed_queued E (r + 1) a c _ s h3 cs'); try done.
  - eapply touches_sub; [exact (touches_trans _ _ _ _ _ _ _ T1 (touches_trans _ _ _ _ _ _ _ T2 T3))| |];
      rewrite ?all_chunks_app, ?fmap_app; cbn [readdr c1 c_pbufs]; [rewrite all_chunks_cons|]; set_solver.
  - intros x [Hx|[]%covered_nil]%covered_cons. apply Hcov, covered_cons. by left.
  - intros x Hx%Hcov. revert Hx. rewrite !covered_cons, !covered_app, !covered_cons. cbn [c1 readdr c_lo c_hi].
    intros [?|[[?|[?|[]%covered_nil]]|?]]; [tauto|tauto| |tauto]. right. right. left. lia.
  - intros x. rewrite covered_app, covered_cons, Hcov, covered_cons, !covered_app, covered_cons. cbn [c1 readdr c_lo c_hi].
    intros [?|[Hx|?]]; [tauto| |tauto]. destruct (decide (x < c_lo c)); [left; right; left; right; left; lia|].
    destruct (decide (x < c_hi c)); [left; left; lia|]. right. exists d. split; [set_solver|lia].
Qed.

(** Behind the last one. *)
Lemma append_ok E (r e a : Z) pre d c s :
  arrived E r e a c (pre ++ [d]) s → c_lo d < c_lo c →
  ∃ s', (if has TCP_FIN (sg_flags (seg_of d)) then Some s else
         '(h, o) ← tcp_seg_copy (inseg s) (packets s);
         let s := set_packets h s in
         match o with
         | None => Some s
         | Some cseg => '(s, l) ← oos_append (seg_of d) cseg s; Some (set_queue ((seg_of <$> pre) ++ l) s)
         end) = Some s' ∧ placed E (r + 1) a c (pre ++ [d]) s s'.
Proof.
  intros Ar Hd. change (has TCP_FIN (sg_flags (seg_of d))) with (fin d).
  pose proof (qh_holds _ _ _ _ _ (q_heap _ _ _ _ _ _ _ (ar_queue _ _ _ _ _ _ _ Ar)) d ltac:(set_solver)) as Hh.
  pose proof (ch_range _ _ _ (ar_holds _ _ _ _ _ _ _ Ar)) as Rc. destruct (fin d) eqn:Ef.
  { exists s. split; [done|]. apply placed_covered. intros x [Hx|[]%covered_nil]%covered_cons. apply covered_app. right. apply covered_cons. left.
    pose proof (ch_fin _ _ _ Hh Ef). lia. }
  destruct (copy_arrived E r e a c _ s Ar) as (h1 & o & -> & M). cbn [mbind option_bind].
  destruct o as [g|]; [|destruct M as [-> M]; exists s; split; [done|by apply placed_no_memory]].
  destruct M as (k & -> & T1 & Q1). destruct Ar as [A1 A2 A3 A4 A5 A6 A7 A8 A9 A10]. pose proof (wi_order _ _ _ _ _ A8).
  destruct A5 as [Q0 Q2 Q3]. pose proof (ch_len _ _ _ A4). set (c1 := readdr k c) in *. destruct (Q3 d ltac:(set_solver)) as [Hd1 Hd2].
  assert (Ee : c_end d = c_hi d) by (unfold c_end; rewrite Ef; lia).
  destruct (oos_append_ok E (c1 :: pre) (set_packets h1 s) c1 d r e a) as (h2 & d' & -> & Qt & Hlo' & Hp' & He' & Hhi' & T2); try done;
    cbn [c1 readdr c_lo]; try (change (c_end c1) with (c_end c)); try lia.
  { eapply qheap_perm; [|exact Q1]. rewrite perm_swap. by rewrite <- Permutation_cons_append. }
  cbn [mbind option_bind]. replace ((seg_of <$> pre) ++ [seg_of d'; seg_of c1]) with (seg_of <$> (pre ++ [d'; c1])) by (by rewrite fmap_app).
  pose proof (ch_range _ _ _ Hh) as Rd. cbn [c1 readdr c_lo] in He', Hhi'.
  eexists. split; [done|]. apply (placed_queued E (r + 1) a c _ s h2 (pre ++ [d'; c1])).
  - constructor.
    + eapply qheap_perm; [|exact Qt]. rewrite (Permutation_app_comm pre). by simpl.
    + pose proof (sorted_shrink pre d d' [] Q2 ltac:(done) ltac:(lia)) as Sq. replace (pre ++ [d'; c1]) with ((pre ++ [d']) ++ [c1]) by (by rewrite <- app_assoc).
      apply StronglySorted_app. split_and!; [|done|repeat constructor]. apply StronglySorted_app in Sq as (Hpg & _ & _).
      intros x y [Hx| ->%list_elem_of_singleton]%elem_of_app ->%list_elem_of_singleton; unfold before in *; cbn [c1 readdr c_lo]; [|lia].
      specialize (Hpg x d' Hx ltac:(by left)). lia.
    + intros x [Hx|[->|[->|[]%elem_of_nil]%elem_of_cons]%elem_of_cons]%elem_of_app; [apply Q3; set_solver|lia|].
      change (c_end c1) with (c_end c). cbn [c1 readdr c_lo]. lia.
  - eapply touches_sub; [exact (touches_trans _ _ _ _ _ _ _ T1 T2)| |]; rewrite ?all_chunks_app, ?fmap_app; [rewrite all_chunks_cons|]; set_solver.
  - exists c1. split; [set_solver|done].
  - intros x [Hx|[]%covered_nil]%covered_cons. rewrite covered_app, !covered_cons. right. right. by left.
  - intros x. rewrite !covered_cons, !covered_app, !covered_cons. cbn [c1 readdr c_lo c_hi]. intros [?|[?|[?|[]%covered_nil]]]; [tauto| |tauto].
    right. right. left. lia.
  - intros x. rewrite !covered_app, !covered_cons. cbn [c1 readdr c_lo c_hi]. intros [?|[Hx|[]%covered_nil]]; [tauto|].
    destruct (decide (x < c_lo c)); [left; right; left; lia|].
    destruct (decide (x < c_hi c)); [left; right; right; left; lia|]. right. exists d. split; [set_solver|lia].
Qed.

(** ** The walk *)
Lemma oos_place_ok E (r e a : Z) c s : ∀ gs pre, arrived E r e a c (pre ++ gs) s → gs ≠ [] → (∀ d, d ∈ pre → c_lo d < c_lo c) →
  ∃ s', oos_place (seg_of <$> pre) (seg_of <$> gs) s = Some s' ∧ placed E (r + 1) a c (pre ++ gs) s s'.
Proof.
  induction gs as [|g gs IH]; intros pre Ar Hne Hpre; [done|]. clear Hne.
  pose proof (ar_win _ _ _ _ _ _ _ Ar) as Wo. pose proof (wi_order _ _ _ _ _ Wo) as Ord. pose proof (ar_queue _ _ _ _ _ _ _ Ar) as [Q1 Q2 Q3].
  pose proof (ar_holds _ _ _ _ _ _ _ Ar) as Hc. pose proof (ch_len _ _ _ Hc) as [Lc _]. destruct (ar_range _ _ _ _ _ _ _ Ar) as [Rl Rh].
  destruct (Q3 g ltac:(set_solver)) as [Hg1 Hg2]. pose proof (qh_holds _ _ _ _ _ Q1 g ltac:(set_solver)) as Hg. pose proof (ch_len _ _ _ Hg) as [Lg _].
  pose proof (proj1 (StronglySorted_app _ _ _) Q2) as (Spg & _ & Sg). pose proof Sg as [_ Fg]%StronglySorted_inv. rewrite Forall_forall in Fg.
  cbn [fmap list_fmap oos_place]. rewrite (ar_seqno _ _ _ _ _ _ _ Ar). cbn [TcpHold.seg_of sg_seqno sg_len]. fold (seg_of g).
  rewrite (seq_eqb R0 _ _ (c_lo c) (c_lo g)) by first [apply at_seq|apply seq_at_range|unfold near; lia].
  destruct (Z.eqb_spec (c_lo c) (c_lo g)) as [Heq|Hneq].
  - assert (El : sg_len (inseg s) = c_hi c - c_lo c) by (by rewrite (ar_seg _ _ _ _ _ _ _ Ar)). rewrite El. destruct (Z.ltb_spec (c_hi g - c_lo g) (c_hi c - c_lo c)).
    + apply (insert_copy_ok E r e a pre (g :: gs) c s Ar).
      * intros d Hd. specialize (Spg d g Hd ltac:(by left)). unfold before in *. lia.
      * intros d [->|Hd]%elem_of_cons; [lia|]. specialize (Fg d Hd). unfold before in Fg. lia.
    + exists s. split; [done|]. apply placed_covered. intros x [Hx|[]%covered_nil]%covered_cons. apply covered_app. right. apply covered_cons. left. lia.
  - assert (App : c_lo g < c_lo c → ∃ s', (if bool_decide ((seg_of <$> gs) = []) && TCP_SEQ_GT (seq_at (c_lo c)) (seq_at (c_lo g)) then
          if has TCP_FIN (sg_flags (seg_of g)) then Some s else
          '(h, o) ← tcp_seg_copy (inseg s) (packets s);
          let s := set_packets h s in
          match o with
          | None => Some s
          | Some cseg => '(s, l) ← oos_append (seg_of g) cseg s; Some (set_queue ((seg_of <$> pre) ++ l) s)
          end
        else oos_place ((seg_of <$> pre) ++ [seg_of g]) (seg_of <$> gs) s) = Some s' ∧ placed E (r + 1) a c (pre ++ g :: gs) s s').
    { intros Hlt. rewrite (seq_gt R0 _ _ (c_lo c) (c_lo g)) by first [apply at_seq|unfold near; lia]. rewrite (proj2 (Z.ltb_lt _ _) Hlt), andb_true_r.
      destruct gs as [|g2 gs].
      - rewrite bool_decide_true by done. apply (append_ok E r e a pre g c s Ar Hlt).
      - rewrite bool_decide_false by done. rewrite (cons_middle g), app_assoc in Ar |- *. replace ((seg_of <$> pre) ++ [seg_of g]) with (seg_of <$> (pre ++ [g])) by (by rewrite fmap_app).
        apply (IH (pre ++ [g]) Ar); [done|]. intros d [Hd| ->%list_elem_of_singleton]%elem_of_app; [by apply Hpre|done]. }
    destruct pre as [|d pre _] using rev_ind.
    + cbn [fmap list_fmap last app]. rewrite (seq_lt R0 _ _ (c_lo c) (c_lo g)) by first [apply at_seq|unfold near; lia].
      destruct (Z.ltb_spec (c_lo c) (c_lo g)); [|apply App; lia].
      apply (insert_copy_ok E r e a [] (g :: gs) c s Ar); [by intros d ?%elem_of_nil|].
      intros d [->|Hd]%elem_of_cons; [lia|]. specialize (Fg d Hd). unfold before in Fg. lia.
    + rewrite fmap_app in App |- *. cbn [fmap list_fmap] in App |- *. rewrite last_snoc. cbn [TcpHold.seg_of sg_seqno]. fold (seg_of d).
      destruct (Q3 d ltac:(set_solver)) as [Hd1 Hd2]. specialize (Hpre d ltac:(set_solver)) as Hdc.
      rewrite (seq_between R0 _ _ _ (c_lo c) (c_lo d + 1) (c_lo g - 1)) by first [at_pos_tac|unfold near; lia].
      rewrite (proj2 (Z.leb_le (c_lo d + 1) (c_lo c))) by lia. cbn [andb]. destruct (Z.leb_spec (c_lo c) (c_lo g - 1)); [|apply App; lia].
      rewrite removelast_last. rewrite <- app_assoc in Ar |- *. apply (between_ok E r e a pre d (g :: gs) c s Ar); [done|lia|].
      intros x [->|Hx]%elem_of_cons; [lia|]. specialize (Fg x Hx). unfold before in Fg. lia.
Qed.
End oos.
