(* ===== verification/TcpText.v ===== *)
(** * TCP: the text of one segment

    [tcp_receive_text] on a segment of the peer's stream, wherever it lies, and
    the end of [tcp_input], which gives up the reference to its packet. *)
From Stdlib Require Import Sorted.
From S2P Require Import Prelude LwipDef Chksum Memp Pbuf PbufRef PbufOwn PbufData IpReassJoin PbufMove.
From S2P Require Import TcpDef TcpSeq TcpHold TcpTrim TcpRecv TcpQueue TcpInSeq TcpOos.
Local Open Scope Z_scope.

(** ** What a free leaves *)
Section survive.
Context {A : Type} `{HL : ArenaLaws A}.
Context (Stream : list Z) (R0 : Z) (X : Z → nat).
Implicit Types (h : heap A) (E : Z → nat) (c : chunk) (cs : list chunk).

Lemma survivor_chain h h' E : survivors h h' → heap_ok h' E → ∀ l (o : option Z) (n : Z), packet h o l n 0 →
  (∀ a, o = Some a → is_Some (pbufs h' !! a)) →
  packet h' o l n 0 ∧ ∀ a b, a ∈ l → pbufs h !! a = Some b → ∃ b', pbufs h' !! a = Some b' ∧ same_contents b b'.
Proof.
  intros (_ & _ & Sv) K. induction l as [|a l IH]; intros o n P Ho; [split; [exact P|by intros a b ?%elem_of_nil]|].
  destruct P as (-> & b & Hb & Ht & Hl & P). destruct (Ho a eq_refl) as [b' Hb']. destruct (Sv a b' Hb') as (b0 & Hb0 & S0).
  assert (b0 = b) as -> by congruence. pose proof S0 as S1. unfold same_contents in S1.
  assert (tot_len b' = tot_len b ∧ len b' = len b ∧ next b' = next b) as (Et & El & En) by (by rewrite S1).
  destruct (IH (next b) _ P) as [P' Hall]; [intros y Hy; eapply (ok_next _ _ K); [exact Hb'|congruence]|]. split.
  - split; [done|]. exists b'. rewrite Et, El, En. by split_and!.
  - intros x bx [->|Hx]%elem_of_cons Hbx; [|by apply Hall]. assert (bx = b) as -> by congruence. by exists b'.
Qed.

Lemma survivor_packet h h' E p l n : survivors h h' → heap_ok h' E → is_Some (pbufs h' !! p) → packet h (Some p) l n 0 →
  packet h' (Some p) l n 0 ∧ packet_data h' l = packet_data h l ∧ (plain h l → plain h' l).
Proof.
  intros Sv K Hp P. destruct (survivor_chain h h' E Sv K l (Some p) n P) as [P' Hall]; [by intros a [= <-]|]. split; [done|]. split.
  - apply packet_data_ext; [apply Sv| |].
    + intros a Ha b Hb. destruct (Hall a b Ha Hb) as (b' & Hb' & S). exists b'. split; [done|]. unfold same_contents in S. by rewrite S.
    + intros a Ha. eapply chain_of_in; [by eapply packet_chain|done].
  - intros Pl a b' Ha Hb'. destruct (chain_of_in _ _ _ _ (packet_chain _ _ _ _ _ P) Ha) as [b Hb].
    destruct (Hall a b Ha Hb) as (b0 & Hb0 & S). assert (b0 = b') as -> by congruence. destruct (Pl a b Ha Hb). unfold same_contents in S. by rewrite S.
Qed.

Lemma survivor_holds h h' E c : survivors h h' → heap_ok h' E → is_Some (pbufs h' !! c_p c) → holds Stream h c → holds Stream h' c.
Proof.
  intros Sv K Hp [H1 H2 H3 H4 H5 H6 H7]. destruct (survivor_packet h h' E _ _ _ Sv K Hp H1) as (P & D & Pl). constructor; try done; [|by rewrite D].
  intros Hlt. by apply Pl, H2.
Qed.

(** A reference is given up, the queue and what was taken stay. *)
Lemma give_up_ok h cs E p o (r a : Z) : queue_ok Stream X h cs (inc_opt o (inc p E)) r a →
  ∃ h' k, pbuf_free (Some p) h = Some (h', k) ∧ queue_ok Stream X h' cs (inc_opt o E) r a ∧
    ∀ ld r0 r1, delivered Stream h o ld r0 r1 → delivered Stream h' o ld r0 r1.
Proof.
  intros [[Q1 Q2 Q3 Q4 Q5] Qs Qe]. set (F := also X (owners (c_p <$> cs) (inc_opt o E))).
  assert (K : heap_ok h (inc p F)).
  { eapply heap_ok_ext; [|exact Q1]. intros x. unfold F. rewrite <- also_inc. apply also_ext. intros y. rewrite <- owners_inc, !owners_count. f_equal.
    destruct o as [d|]; [|done]. cbn [inc_opt]. unfold inc. repeat case_decide; lia. }
  destruct (pbuf_free_ok h p F K) as (h' & k & Ef & K' & Sv & _). exists h', k. split; [done|].
  assert (Live : ∀ x, F x ≠ 0%nat → is_Some (pbufs h' !! x)) by (intros x; apply (ok_ext _ _ K')).
  split.
  - constructor; [|done|done]. constructor; try done.
    + intros c Hc. eapply survivor_holds; [exact Sv|exact K'| |by apply Q2]. apply Live. unfold F, also. rewrite owners_count.
      assert (In (c_p c) (c_p <$> cs)) as Hin by (by apply list_elem_of_In, list_elem_of_fmap_2). apply (count_occ_In Z.eq_dec) in Hin. lia.
    + intros c Hc. rewrite (pbuf_free_live h p _ h' k _ K); [by apply Q5|unfold inc; rewrite decide_True by done; lia|done|].
      eapply tcp_block_no_pbuf; [exact K|by apply Q5].
  - intros ld r0 r1. unfold delivered. destruct o as [d|]; [|done]. intros (H1 & H2 & H3). split; [done|].
    assert (Hd : is_Some (pbufs h' !! d)).
    { apply Live. unfold F, also. rewrite owners_count. cbn [inc_opt]. unfold inc. rewrite decide_True by done. lia. }
    destruct (survivor_packet h h' _ d ld _ Sv K' Hd H2) as (P & D & _). by rewrite D.
Qed.
End survive.

(** ** The acknowledgment

    What the receive path needs of [tcp_send_empty_ack] of tcp_out.c: it may
    clear flags and move the announced right edge to the window of [rcv_nxt];
    below, it may allocate packets, queue and free them; the packets that others
    own, their octets, and the segments of the queue, stay. *)
Class QuietAck {A W : Type} `{Arena A} `{Owns W} (send : tcp_pcb → W * heap A → option (tcp_pcb * W * heap A)) : Prop :=
  quiet_ack (c : tcp_pcb) (w : W) (h : heap A) E : heap_ok h (also (owns w) E) →
  ∃ f ed w' h', send c (w, h) = Some (set_pflags f (set_rcv_ann_right_edge ed c), w', h') ∧
    (ed = rcv_ann_right_edge c ∨ ed = u32 (rcv_nxt c + rcv_ann_wnd c)) ∧ heap_ok h' (also (owns w') E) ∧
    (∀ x l n, E x ≠ 0%nat → packet h (Some x) l n 0 → agree l h h') ∧
    ∀ i, live (arena h) !! i = Some (POOL MEMP_TCP_SEG) → live (arena h') !! i = Some (POOL MEMP_TCP_SEG).

Section text.
Context {A W : Type} `{HL : ArenaLaws A} `{HW : Owns W}.
Context (send : tcp_pcb → W * heap A → option (tcp_pcb * W * heap A)) {HS : QuietAck send}.
Context (Stream : list Z) (R0 : Z).
Implicit Types (h : heap A) (E : Z → nat) (s : rx A W) (c d : chunk) (cs : list chunk).
Local Abbreviation seq_at := (seq_at R0).
Local Abbreviation seg_of := (seg_of R0).
Local Abbreviation holds := (holds Stream).
Local Abbreviation N := (N Stream).
Local Abbreviation queue_ok s := (queue_ok Stream (owns (lower_net s)) (packets s)).

(** ** A segment arrives

    [r] is the position expected, [a] the edge announced, [e] that of the
    window, [cs] the queue; the segment has the text of [c]. *)
Record incoming E s c cs (r e a : Z) : Prop := {
  ic_seg : inseg s = seg_of c;
  ic_seqno : seqno s = seq_at (c_lo c);
  ic_tcplen : tcplen s = c_end c - c_lo c;
  ic_holds : holds (packets s) c;
  ic_ooseq : ooseq (pcb s) = seg_of <$> cs;
  ic_queue : queue_ok s cs (inc (c_p c) E) (r + 1) a;
  ic_apart x : x ∈ c_pbufs c → x ∉ all_chunks cs;
  ic_ref : ∃ b, pbufs (packets s) !! c_p c = Some b ∧ ref b < 65535;
  ic_inside : inside (packets s) (c_pbufs c);
  ic_win : win_ok R0 (pcb s) r e a;
  ic_wrap : no_wrap R0 r e;
  ic_state : state_num (state (pcb s)) < state_num CLOSE_WAIT;
  ic_none : recv_data s = None ∧ has TF_GOT_FIN (recv_flags s) = false;
  ic_range : r - 1073741824 <= c_lo c ∧ c_end c <= a ∧ c_hi c - c_lo c < 32767 ∧ r <= N + 1 }.

(** What is left of it. *)
Record outcome E s s' c cs cs' (r r' e a' : Z) (o : option Z) (ld : list Z) : Prop := {
  oc_win : win_ok R0 (pcb s') r' e a';
  oc_queue : queue_ok s' cs' (inc_opt o (inc_opt (sg_p (inseg s')) E)) (r' + 1) a';
  oc_ooseq : ooseq (pcb s') = seg_of <$> cs';
  oc_recv : recv_data s' = o;
  oc_data : delivered Stream (packets s') o ld (Z.min r N) r';
  oc_fin : has TF_GOT_FIN (recv_flags s') = true ↔ r <= N ∧ r' = N + 1;
  oc_state : state_after (state (pcb s)) (state (pcb s')) (has TF_GOT_FIN (recv_flags s'));
  oc_kept : kept (pcb s) (pcb s');
  oc_order : r <= r' ∧ r' <= N + 1;
  oc_sound x : x < N → x < r' ∨ covered cs' x → x < r ∨ covered (c :: cs) x;
  oc_next : c_lo c <= r → (∀ x, x < N → x < r ∨ covered (c :: cs) x → x < r' ∨ covered cs' x) ∧ Z.max r (c_end c) <= r';
  oc_text : (∀ x, x < N → covered [c] x → x < r' ∨ covered cs' x) ∨
            (r < c_lo c ∧ r' = r ∧ cs' = cs ∧ memp_malloc MEMP_TCP_SEG (arena (packets s')) = None) }.

(** ** After an acknowledgment *)
Lemma queue_acked s c cs E (r e a : Z) :
  incoming E s c cs r e a → ∃ s' a', send_empty_ack send s = Some s' ∧ incoming E s' c cs r e a' ∧ a <= a' ∧
    kept (pcb s) (pcb s') ∧ state (pcb s') = state (pcb s).
Proof.
  intros [I1 I2 I3 I4 I5 [[Q1 Q2 Q3 Q4 Q5] Qs Qe] I7 (b & Hb & Hr) I9 I10 I11 I12 I13 I14].
  destruct (quiet_ack (pcb s) (lower_net s) (packets s) _ Q1) as (f & ed & w' & h' & Es & Hed & K' & Fr & Lv).
  assert (Own : ∀ x, x ∈ c_p <$> cs ∨ x = c_p c → owners (c_p <$> cs) (inc (c_p c) E) x ≠ 0%nat).
  { intros x. rewrite owners_count. intros [Hx| ->].
    - apply list_elem_of_In, (count_occ_In Z.eq_dec) in Hx. lia.
    - unfold inc. rewrite decide_True by done. lia. }
  assert (Hc : agree (c_pbufs c) (packets s) h') by (eapply (Fr (c_p c)); [apply Own; by right|apply (ch_packet _ _ _ I4)]).
  assert (Hq : ∀ d, d ∈ cs → agree (c_pbufs d) (packets s) h').
  { intros d Hd. eapply (Fr (c_p d)); [apply Own; left; by apply list_elem_of_fmap_2|apply (ch_packet _ _ _ (Q2 d Hd))]. }
  pose proof I10 as [W1 W2 W3 W4 W5 W6].
  set (a' := if decide (ed = rcv_ann_right_edge (pcb s)) then a else r + rcv_ann_wnd (pcb s)).
  assert (Ha : a <= a') by (unfold a'; case_decide; lia).
  unfold send_empty_ack. rewrite Es. cbn [mbind option_bind]. eexists _, a'. split; [done|]. split; [|split; [done|split; [|done]]].
  - constructor; try done.
    + by eapply holds_agree.
    + constructor; [|done|intros d Hd; destruct (Qe d Hd); lia]. constructor; try done.
      * intros d Hd. eapply holds_agree; [by apply Hq|by apply Q2].
      * intros d Hd. by apply Lv, Q5.
    + exists b. split; [|done]. cbn. rewrite <- Hb. apply Hc. destruct (packet_first _ _ _ _ (ch_packet _ _ _ I4)) as (? & l' & -> & _). by left.
    + intros x bx Hx Hbx. apply (I9 x bx Hx). rewrite <- Hbx. symmetry. by apply Hc.
    + constructor; cbn; try done; [|unfold a'; case_decide; lia..]. unfold a'. case_decide as Ed; [by rewrite Ed|].
      destruct Hed as [?| ->]; [done|]. rewrite W1. apply (seq_at_add R0).
    + lia.
  - eexists (state (pcb s)), (ooseq (pcb s)), f, ed, (rcv_ann_wnd (pcb s)), (rcv_wnd (pcb s)), (rcv_nxt (pcb s)). cbn. by destruct (pcb s).
Qed.

(** ** Nothing is taken *)
Lemma nothing_taken E s s' c cs (r e a : Z) : incoming E s' c cs r e a → kept (pcb s) (pcb s') → state (pcb s') = state (pcb s) →
  (c_lo c <= r → c_end c <= r) →
  (∀ x, x < N → covered [c] x → x < r ∨ covered cs x) ∨ (r < c_lo c ∧ memp_malloc MEMP_TCP_SEG (arena (packets s')) = None) →
  outcome E s s' c cs cs r r e a None [].
Proof.
  intros [I1 I2 I3 I4 I5 I6 I7 I8 I9 I10 I11 I12 [I13 I13'] I14] Hk Hs Hold Ht. constructor; try done.
  - by rewrite I1.
  - rewrite I13'. split; [done|lia].
  - by left.
  - lia.
  - intros x _ [?|?]; [by left|]. right. apply covered_cons. by right.
  - intros Hc. specialize (Hold Hc). split; [|lia]. intros x _ [?|[?|?]%covered_cons]; [by left| |by right]. left.
    pose proof (ch_len _ _ _ I4). unfold c_end in *. case_match; lia.
  - destruct Ht as [?|[? ?]]; [by left|by right].
Qed.

Lemma queue_apart h X cs E (r r' a : Z) : TcpInSeq.queue_ok Stream X h cs E r a → (∀ d, d ∈ cs → r' <= c_lo d) → TcpInSeq.queue_ok Stream X h cs E r' a.
Proof. intros [Q1 Q2 Q3] Hr. constructor; [done|done|]. intros d Hd. destruct (Q3 d Hd). by split; [apply Hr|]. Qed.

(** ** In sequence; [c'] is [c], or what is new of it *)
Lemma in_sequence_outcome E s s1 c c' cs (r e a : Z) : incoming E s c cs r e a → c_end c' = c_end c → fin c' = fin c → c_hi c' = c_hi c → c_lo c <= r → c_lo c' = r →
  c_p c' = c_p c → c_pbufs c' = c_pbufs c → inseg s1 = seg_of c' → seqno s1 = seq_at r → holds (packets s1) c' → pcb s1 = pcb s →
  queue_ok s1 cs (inc (c_p c') E) (r + 1) a → recv_data s1 = recv_data s → recv_flags s1 = recv_flags s →
  ∃ s' cs' r' o ld, in_sequence s1 = Some s' ∧ outcome E s s' c cs cs' r r' e a o ld.
Proof.
  intros Ic Ee Ef Eh Hlo Hlo' Ep El Ei Es Hc' Epcb Q Er Erf. destruct Ic as [I1 I2 I3 I4 I5 I6 I7 I8 I9 I10 I11 I12 [I13 I13'] I14].
  destruct (in_sequence_ok Stream R0 (owns (lower_net s1)) E s1 c' cs r e a) as
    (s' & cs' & o & ld & r' & q & Eq & M & Eoo & Esg & Hr' & Hl & Hcov & Hfin & K & St & En & _);
    try done; try congruence; [by rewrite El|lia|].
  destruct M as [M1 M2 M3 M4 M5 M6 M7 M8 M9]. rewrite Ef, Ee in Hfin. rewrite <- En in M2. subst q.
  assert (Hmin : Z.min r N = r) by lia. exists s', cs', r', o, ld. split; [done|].
  assert (Hcov' : ∀ x, x < N → x < r ∨ covered (c :: cs) x ↔ x < r ∨ covered (c' :: cs) x).
  { intros x _. rewrite !covered_cons, Eh. split; (intros [?|[?|?]]; [by left| |by right; right]).
    - destruct (decide (x < r)); [by left|right; left; lia].
    - right. left. lia. }
  constructor; try done.
  - constructor; [exact M2|done|]. intros d Hd. specialize (Hl d Hd). destruct (M4 d Hd). lia.
  - by rewrite Hmin.
  - rewrite M8, Z.eqb_eq. lia.
  - by rewrite Epcb in St.
  - by rewrite Epcb in K.
  - lia.
  - intros x Hx Hin. by apply Hcov', Hcov.
  - intros _. split; [intros x Hx Hin; by apply Hcov, Hcov'|]. destruct (fin c) eqn:Efc; [specialize (Hfin eq_refl); lia|].
    assert (Ece : c_end c = c_hi c) by (unfold c_end; rewrite Efc; lia). destruct (Z.leb_spec (c_hi c) r'); [lia|exfalso].
    pose proof (ch_range _ _ _ I4). destruct (proj2 (Hcov r' ltac:(lia))) as [?|(d & Hd & Hx)]; [right; apply covered_cons; left; lia|lia|].
    specialize (Hl d Hd). lia.
  - left. intros x Hx [Hin|[]%covered_nil]%covered_cons. apply Hcov; [done|]. apply Hcov'; [done|]. right. apply covered_cons. by left.
Qed.

(** ** Out of sequence *)
Lemma out_of_sequence_ok E s c cs (r e a : Z) : incoming E s c cs r e a → r < c_lo c →
  ∃ s1 a' s', send_empty_ack send s = Some s1 ∧ out_of_sequence send s = Some s' ∧ a <= a' ∧ incoming E s1 c cs r e a' ∧ kept (pcb s) (pcb s1) ∧
    state (pcb s1) = state (pcb s) ∧ placed Stream R0 (owns (lower_net s1)) (inc (c_p c) E) (r + 1) a' c cs s1 s'.
Proof.
  intros Ic Hlo. destruct (queue_acked _ _ _ _ _ _ _ Ic) as (s1 & a' & E1 & Ic1 & Ha & K1 & St1). exists s1, a'. unfold out_of_sequence. rewrite E1. cbn [mbind option_bind].
  assert (Ar : arrived Stream R0 (owns (lower_net s1)) (inc (c_p c) E) r e a' c cs s1).
  { destruct Ic1. constructor; try done. lia. }
  rewrite (ic_ooseq _ _ _ _ _ _ _ Ic1). destruct cs as [|g cs].
  - destruct (copy_arrived Stream R0 _ _ _ _ _ _ _ _ Ar) as (h1 & o & Ec & M). rewrite Ec. cbn [fmap list_fmap mbind option_bind].
    destruct o as [g|].
    + destruct M as (k & -> & T & Q). exists (set_queue [seg_of (readdr k c)] (set_packets h1 s1)). split_and!; try done.
      apply (placed_queued Stream R0 _ _ _ _ _ _ _ h1 [readdr k c]).
      * constructor; [exact Q|repeat constructor|]. intros d ->%list_elem_of_singleton. destruct (ar_range _ _ _ _ _ _ _ _ _ _ Ar).
        change (c_end (readdr k c)) with (c_end c). cbn [readdr c_lo]. lia.
      * eapply touches_sub; [exact T|set_solver|set_solver].
      * exists (readdr k c). split; [by left|done].
      * intros x [Hx|[]%covered_nil]%covered_cons. apply covered_cons. by left.
      * intros x [Hx|[]%covered_nil]%covered_cons. apply covered_cons. by left.
      * intros x []%covered_nil.
    + destruct M as [M1 M2]. exists s1. split_and!; try done.
      * f_equal. rewrite M1. pose proof (ic_ooseq _ _ _ _ _ _ _ Ic1) as Eo. destruct s1 as [p]. destruct p. cbn in Eo |- *. by rewrite Eo.
      * by apply placed_no_memory.
  - destruct (oos_place_ok Stream R0 _ _ r e a' c s1 (g :: cs) [] Ar) as (s' & Eo & P); [done|by intros d ?%elem_of_nil|].
    exists s'. split_and!; try done.
Qed.

Lemma placed_outcome E s s1 s' c cs (r e a' : Z) : incoming E s1 c cs r e a' → r < c_lo c → kept (pcb s) (pcb s1) → state (pcb s1) = state (pcb s) →
  placed Stream R0 (owns (lower_net s1)) (inc (c_p c) E) (r + 1) a' c cs s1 s' → ∃ cs', outcome E s s' c cs cs' r r e a' None [].
Proof.
  intros Ic Hlo K St P. destruct P as [Hcov|Hm|h' cs' Q T _ Hc1 Hc2 Hc3].
  - exists cs. apply nothing_taken; try done; [lia|]. left. intros x Hx Hin. right. by apply Hcov.
  - exists cs. apply nothing_taken; try done; [lia|]. by right.
  - exists cs'. destruct Ic as [I1 I2 I3 I4 I5 I6 I7 I8 I9 I10 I11 I12 [I13 I13'] I14]. constructor; try done.
    + by apply win_ok_queue.
    + by rewrite <- I1 in Q || (cbn; rewrite I1; exact Q).
    + cbn. rewrite I13'. split; [done|lia].
    + by left.
    + eapply kept_trans; [exact K|apply kept_queue].
    + lia.
    + intros x _ [?|?]; [by left|right; by apply Hc2].
    + lia.
    + left. intros x _ Hin. right. by apply Hc1.
Qed.

(** ** The comparisons of [tcp_receive] *)
Lemma in_window_ok s (r e a k : Z) : win_ok R0 (pcb s) r e a → seqno s = seq_at k → near k r → near k (e - 1) →
  in_window s = (r <=? k) && (k <=? e - 1).
Proof.
  intros Wo Es Hr He. pose proof (wi_order _ _ _ _ _ Wo). unfold near in *. unfold in_window. rewrite (wi_nxt _ _ _ _ _ Wo), (wi_wnd _ _ _ _ _ Wo), Es.
  rewrite (seq_between R0 _ _ _ k r (e - 1)); [done|at_pos_tac|at_pos_tac| |unfold near; lia|].
  - replace (e - 1) with (r + (e - r) - 1) by lia. at_pos_tac.
  - unfold near. lia.
Qed.

Lemma overlaps_front s c (r e a : Z) : win_ok R0 (pcb s) r e a → seqno s = seq_at (c_lo c) → tcplen s = c_end c - c_lo c →
  near r (c_lo c + 1) → near r (c_end c - 1) →
  TCP_SEQ_BETWEEN (rcv_nxt (pcb s)) (seqno s + 1) (seqno s + tcplen s - 1) = (c_lo c + 1 <=? r) && (r <=? c_end c - 1).
Proof.
  intros Wo Es Et H1 H2. rewrite (wi_nxt _ _ _ _ _ Wo), Es, Et.
  apply (seq_between R0); [at_pos_tac..| |done|done]. replace (c_end c - 1) with (c_lo c + (c_end c - c_lo c) - 1) by lia. at_pos_tac.
Qed.

(** ** The whole *)
Lemma receive_text_ok E s c cs (r e a : Z) : incoming E s c cs r e a →
  ∃ s' cs' r' a' o ld, tcp_receive_text send s = Some s' ∧ a <= a' ∧ outcome E s s' c cs cs' r r' e a' o ld.
Proof.
  intros Ic. pose proof (ic_win _ _ _ _ _ _ _ Ic) as Wo. pose proof (wi_order _ _ _ _ _ Wo) as Ord. pose proof (ic_holds _ _ _ _ _ _ _ Ic) as Hc.
  pose proof (ch_len _ _ _ Hc) as [Lc _]. pose proof (ch_range _ _ _ Hc) as Rc. pose proof (ic_range _ _ _ _ _ _ _ Ic) as Rng.
  pose proof (ic_seqno _ _ _ _ _ _ _ Ic) as Es. pose proof (ic_tcplen _ _ _ _ _ _ _ Ic) as Et.
  destruct (fin_end Stream c _ Hc) as (F1 & F2 & F3).
  unfold tcp_receive_text. rewrite (overlaps_front s c r e a Wo Es Et), Et by (unfold near; lia).
  rewrite (proj2 (Z.ltb_lt 0 _)), (proj2 (Z.ltb_lt _ _) (ic_state _ _ _ _ _ _ _ Ic)) by lia. cbn [andb].
  destruct (Z.leb_spec (c_lo c + 1) r) as [Hlo|Hlo]; [destruct (Z.leb_spec r (c_end c - 1)) as [Hhi|Hhi]|]; cbn [andb].
  - (* old text, then new *)
    destruct (trim_front_ok Stream R0 s c r _ (ic_seg _ _ _ _ _ _ _ Ic) Es (wi_nxt _ _ _ _ _ Wo) Hc (qh_heap _ _ _ _ _ (q_heap _ _ _ _ _ _ _ (ic_queue _ _ _ _ _ _ _ Ic)))
      (ic_inside _ _ _ _ _ _ _ Ic)) as (h' & -> & Hc' & K' & T); [lia..|]. cbn [mbind option_bind].
    set (s1 := set_seqno _ _). change (rcv_nxt (pcb s1)) with (rcv_nxt (pcb s)). change (seqno s1) with (seq_at r).
    rewrite (in_window_ok s1 r e a r Wo) by (done || (unfold near; lia)). rewrite (proj2 (Z.leb_le r r)), (proj2 (Z.leb_le r (e - 1))) by lia. cbn [andb].
    rewrite (wi_nxt _ _ _ _ _ Wo), Z.eqb_refl.
    destruct (in_sequence_outcome E s s1 c (from r c) cs r e a Ic) as (s' & cs' & r' & o & ld & Eq & O); try done; try lia; [|by exists s', cs', r', a, o, ld].
    destruct (ic_queue _ _ _ _ _ _ _ Ic) as [Q1 Q2 Q3]. constructor; [|done|done].
    eapply qheap_touched; [exact Q1|exact T|apply (ic_apart _ _ _ _ _ _ _ Ic)|set_solver|exact K'].
  - (* old *)
    rewrite Es, (wi_nxt _ _ _ _ _ Wo). rewrite (seq_lt R0 _ _ (c_lo c) r) by (apply at_seq || (unfold near; lia)).
    rewrite (proj2 (Z.ltb_lt (c_lo c) r)) by lia. cbn [mbind option_bind]. set (s1 := set_pcb _ s).
    assert (Ic1 : incoming E s1 c cs r e a) by (destruct Ic; constructor; try done; by apply win_ok_flags).
    rewrite (in_window_ok s1 r e a (c_lo c) (ic_win _ _ _ _ _ _ _ Ic1) Es) by (unfold near; lia).
    rewrite (proj2 (Z.leb_gt r (c_lo c))) by lia. cbn [andb].
    destruct (queue_acked _ _ _ _ _ _ _ Ic1) as (s' & a' & -> & Ic' & Ha & K & St). exists s', cs, r, a', None, []. split_and!; try done.
    apply nothing_taken; [done| |done|lia|].
    + eapply kept_trans; [apply kept_flags|exact K].
    + left. intros x Hx [Hin|[]%covered_nil]%covered_cons. left. unfold c_end in *. case_match; lia.
  - (* at or behind the position expected *)
    rewrite Es, (wi_nxt _ _ _ _ _ Wo). rewrite (seq_lt R0 _ _ (c_lo c) r) by (apply at_seq || (unfold near; lia)).
    rewrite (proj2 (Z.ltb_ge (c_lo c) r)) by lia. cbn [mbind option_bind].
    rewrite (in_window_ok s r e a (c_lo c) Wo Es) by (unfold near; lia).
    rewrite (proj2 (Z.leb_le r (c_lo c))), (proj2 (Z.leb_le (c_lo c) (e - 1))) by lia. cbn [andb].
    rewrite (wi_nxt _ _ _ _ _ Wo), Es. rewrite (seq_eqb R0 _ _ r (c_lo c)) by first [apply at_seq|apply seq_at_range|unfold near; lia].
    destruct (Z.eqb_spec r (c_lo c)) as [Heq|Hne].
    + destruct (in_sequence_outcome E s s c c cs r e a Ic) as (s' & cs' & r' & o & ld & Eq & O); try done; try lia; [apply Ic|by rewrite Heq|apply Ic|].
      by exists s', cs', r', a, o, ld.
    + destruct (out_of_sequence_ok E s c cs r e a Ic ltac:(lia)) as (s1 & a' & s' & _ & Eo & Ha & Ic1 & K & St & P).
      destruct (placed_outcome E s s1 s' c cs r e a' Ic1 ltac:(lia) K St P) as [cs' O]. by exists s', cs', r, a', None, [].
Qed.
End text.
