(* ===== verification/TcpRun.v ===== *)
(** * TCP: a stream in pieces, in any order

    The peer sends a stream in segments, which arrive in any order, any number
    of times, overlapping or not; the application reads, timers run and packets
    are sent in between.  What the application is given is the stream. *)
From Stdlib Require Import Sorted.
From S2P Require Import Prelude LwipDef Chksum Memp Pbuf PbufRef PbufOwn PbufData IpReassJoin PbufMove.
From S2P Require Import TcpDef TcpSeq TcpHold TcpTrim TcpRecv TcpQueue TcpInSeq TcpOos TcpText.
Local Open Scope Z_scope.

Section run.
Context {A W : Type} `{HL : ArenaLaws A} `{HW : Owns W}.
Context (send : tcp_pcb → W * heap A → option (tcp_pcb * W * heap A)) {HS : QuietAck send}.
Context (Stream : list Z) (R0 : Z).
Implicit Types (h : heap A) (E : Z → nat) (s : rx A W) (c d : chunk) (cs segs : list chunk) (out : list Z).
Local Abbreviation seq_at := (seq_at R0).
Local Abbreviation seg_of := (seg_of R0).
Local Abbreviation holds := (holds Stream).
Local Abbreviation N := (N Stream).

(** ** Between two segments

    [r] is the position expected, [a] the edge announced, [e] that of the
    window.  The sequence numbers of the window do not pass 2^32. *)
Record settled E (p : tcp_pcb) (w : W) h cs (r e a : Z) : Prop := {
  st_queue : queue_ok Stream (owns w) h cs E (r + 1) a;
  st_ooseq : ooseq p = seg_of <$> cs;
  st_win : win_ok R0 p r e a;
  st_wrap : 0 <= R0 ∧ R0 + e < 4294967296;
  st_pos : r <= N + 1 }.

(** A segment with the text of [c], when [n] octets have been delivered: it
    keeps to the window that was announced, and is not older than 2^29. *)
Record segment_arrives s c (n : Z) : Prop := {
  sa_seg : inseg s = seg_of c;
  sa_seqno : seqno s = seq_at (c_lo c);
  sa_tcplen : tcplen s = c_end c - c_lo c;
  sa_holds : holds (packets s) c;
  sa_ref : ∃ b, pbufs (packets s) !! c_p c = Some b ∧ ref b < 65535;
  sa_inside : inside (packets s) (c_pbufs c);
  sa_apart g l m x : g ∈ ooseq (pcb s) → packet (packets s) (sg_p g) l m 0 → x ∈ c_pbufs c → x ∉ l;
  sa_state : state_num (state (pcb s)) < state_num CLOSE_WAIT;
  sa_none : recv_data s = None ∧ recv_flags s = 0;
  sa_range : n - 536870912 <= c_lo c ∧ c_end c <= n + u32 (rcv_ann_right_edge (pcb s) - rcv_nxt (pcb s)) ∧ c_hi c - c_lo c < 32767 }.

(** What happens between two segments, up to the arrival of the packet [p] of
    the next: the queue and the position stay, the window may grow. *)
Definition meanwhile (c0 : tcp_pcb) (w0 : W) h0 s p : Prop :=
  ∀ E cs r e a, settled E c0 w0 h0 cs r e a → ∃ E' e' a', settled (inc p E') (pcb s) (lower_net s) (packets s) cs r e' a'.

(** What is delivered of a segment. *)
Definition gives s (o : list Z) : Prop := ∃ l m, packet (packets s) (recv_data s) l m 0 ∧ o = packet_data (packets s) l.

(** The connection, what the application has been given, what has arrived. *)
Inductive session : tcp_pcb → W → heap A → list Z → list chunk → Prop :=
| session_start p w h E e a : settled E p w h [] 0 e a → session p w h [] []
| session_segment p0 w0 h0 out segs s c s1 s2 o :
    session p0 w0 h0 out segs → meanwhile p0 w0 h0 s (c_p c) → segment_arrives s c (Z.of_nat (length out)) →
    tcp_receive_text send s = Some s1 → end_input s1 = Some s2 → gives s2 o →
    session (pcb s2) (lower_net s2) (packets s2) (out ++ o) (c :: segs).

(** ** One segment *)
Lemma settled_incoming E s c cs (r e a : Z) : settled (inc (c_p c) E) (pcb s) (lower_net s) (packets s) cs r e a →
  segment_arrives s c (Z.min r N) → incoming Stream R0 E s c cs r e a.
Proof.
  intros [S1 S2 S3 S4 S5] [I1 I2 I3 I4 I5 I6 I7 I8 [I9 I9'] (I10 & I11 & I12)]. pose proof (wi_order _ _ _ _ _ S3) as Ord.
  destruct (fin_end Stream c _ I4) as (F1 & _ & _). rewrite (wi_edge _ _ _ _ _ S3), (wi_nxt _ _ _ _ _ S3) in I11.
  rewrite (at_diff R0 _ _ a r), u32_id in I11 by (apply at_seq || (unfold is_u32; lia)).
  constructor; try done.
  - intros x Hx (l & Hxl & (d & -> & Hd)%list_elem_of_fmap)%list_elem_of_join.
    apply (I7 (seg_of d) (c_pbufs d) (c_hi d - c_lo d) x); [rewrite S2; by apply list_elem_of_fmap_2| |done|done].
    apply (ch_packet Stream), (qh_holds _ _ _ _ _ (q_heap _ _ _ _ _ _ _ S1) d Hd).
  - unfold no_wrap, TcpSeq.seq_at. rewrite u32_id by (unfold is_u32; lia). lia.
  - split; [done|by rewrite I9'].
  - pose proof (ch_range _ _ _ I4). lia.
Qed.

Lemma delivered_gives h o ld (r0 r1 : Z) : delivered Stream h o ld r0 r1 → 0 <= r0 → ∀ l m, packet h o l m 0 → packet_data h l = text Stream r0 (Z.min r1 N).
Proof.
  unfold delivered. destruct o as [d|].
  - intros (_ & P & D) _ l m P'. assert (l = ld) as ->; [|done]. eapply chain_of_functional; by eapply packet_chain.
  - intros [_ Hr] Hr0 l m P. destruct l as [|x l]; [|by destruct P]. unfold text. rewrite Hr, Z.sub_diag. done.
Qed.

Lemma gives_det s o o' : gives s o → gives s o' → o = o'.
Proof.
  intros (l & m & P & ->) (l' & m' & P' & ->). f_equal. eapply chain_of_functional; by eapply packet_chain.
Qed.

Lemma end_input_ok E s s1 c cs cs' (r r' e a : Z) o ld : outcome Stream R0 E s s1 c cs cs' r r' e a o ld → 0 <= r →
  ∃ s2, end_input s1 = Some s2 ∧ queue_ok Stream (owns (lower_net s2)) (packets s2) cs' (inc_opt o E) (r' + 1) a ∧ pcb s2 = pcb s1 ∧
    recv_flags s2 = recv_flags s1 ∧ recv_data s2 = o ∧ delivered Stream (packets s2) o ld (Z.min r N) r' ∧ gives s2 (text Stream (Z.min r N) (Z.min r' N)).
Proof.
  intros [O1 O2 O3 O4 O5 O6 O7 O8 O9 O10 O11 O12] Hr.
  assert (Gives : ∀ s2, recv_data s2 = o → delivered Stream (packets s2) o ld (Z.min r N) r' → gives s2 (text Stream (Z.min r N) (Z.min r' N))).
  { intros s2 Er D. unfold gives. rewrite Er. unfold delivered in D. destruct o as [d|].
    - destruct D as (_ & P & Dt). exists ld, (Z.min r' N - Z.min r N). by split.
    - destruct D as [_ D]. exists [], 0. split; [done|]. unfold text. by rewrite D, Z.sub_diag. }
  unfold end_input. destruct (sg_p (inseg s1)) as [p|].
  - destruct (give_up_ok Stream (owns (lower_net s1)) _ _ E p o _ _ O2) as (h' & k & Ef & Q & D). rewrite Ef. cbn [mbind option_bind].
    eexists. split; [done|]. split_and!; try done; [by apply D|]. apply Gives; [done|by apply D].
  - exists s1. split_and!; try done. by apply Gives.
Qed.

Lemma segment_ok E s c cs (r e a : Z) : settled (inc (c_p c) E) (pcb s) (lower_net s) (packets s) cs r e a → segment_arrives s c (Z.min r N) →
  ∃ s1 s2 E' cs' r' a', tcp_receive_text send s = Some s1 ∧ end_input s1 = Some s2 ∧ settled E' (pcb s2) (lower_net s2) (packets s2) cs' r' e a' ∧
    gives s2 (text Stream (Z.min r N) (Z.min r' N)) ∧ r <= r' ∧ a <= a' ∧ (has TF_GOT_FIN (recv_flags s2) = true ↔ r <= N ∧ r' = N + 1) ∧
    (∀ x, x < N → x < r' ∨ covered cs' x → x < r ∨ covered (c :: cs) x) ∧ (c_lo c <= r → c_end c <= r').
Proof.
  intros S Sa. pose proof (settled_incoming E s c cs r e a S Sa) as Ic. pose proof (wi_order _ _ _ _ _ (st_win _ _ _ _ _ _ _ _ S)) as Ord.
  destruct (receive_text_ok send Stream R0 E s c cs r e a Ic) as (s1 & cs' & r' & a' & o & ld & Er & Ha & O).
  destruct (end_input_ok _ _ _ _ _ _ _ _ _ _ _ _ O ltac:(lia)) as (s2 & Ee & Q2 & Ep & Ef & _ & _ & G).
  exists s1, s2, (inc_opt o E), cs', r', a'. destruct O as [O1 O2 O3 O4 O5 O6 O7 O8 O9 O10 O11 O12]. split_and!; try done.
  - constructor; [exact Q2|by rewrite Ep|by rewrite Ep|apply S|lia].
  - lia.
  - by rewrite Ef.
  - intros Hc. destruct (O11 Hc). lia.
Qed.

(** ** The session *)
Lemma text_of_stream k : text Stream 0 k = take (Z.to_nat k) Stream.
Proof. unfold text. by rewrite Z.sub_0_r, drop_0. Qed.

Lemma session_ok p w h out segs : session p w h out segs →
  ∃ E cs r e a, settled E p w h cs r e a ∧ out = text Stream 0 (Z.min r N) ∧ ∀ x, 0 <= x < N → x < r ∨ covered cs x → covered segs x.
Proof.
  induction 1 as [p w h E e a S|p0 w0 h0 out segs s c s1 s2 o _ (E & cs & r & e & a & S & -> & Hcov) Hm Sa Er Ee G].
  - exists E, [], 0, e, a. split; [done|]. split; [unfold text; unfold TcpHold.N; by rewrite Z.min_l by lia|]. intros x Hx [?|[]%covered_nil]. lia.
  - pose proof (wi_order _ _ _ _ _ (st_win _ _ _ _ _ _ _ _ S)) as Ord. assert (HN : 0 <= N) by (unfold TcpHold.N; lia).
    rewrite (text_length Stream) in Sa by lia. rewrite Z.sub_0_r in Sa. destruct (Hm _ _ _ _ _ S) as (E' & e' & a' & S').
    destruct (segment_ok E' s c cs r e' a' S' Sa) as (s1' & s2' & E2 & cs' & r' & a2 & Er' & Ee' & S2 & G2 & Hr & _ & _ & Hsnd & _).
    assert (s1' = s1) as -> by congruence. assert (s2' = s2) as -> by congruence. rewrite (gives_det _ _ _ G G2).
    exists E2, cs', r', e', a2. split; [done|]. split; [apply text_app; lia|].
    intros x Hx Hin. apply covered_cons. destruct (Hsnd x ltac:(lia) Hin) as [?|[?|?]%covered_cons]; [right; apply Hcov; [done|by left]|by left|].
    right. apply Hcov; [done|by right].
Qed.

(** C6. Segments may arrive in any order, any number of times and overlapping,
    as long as each keeps to the window that was announced, is not older than
    2^29 and shorter than 32767 octets, the connection is in a state before
    CLOSE_WAIT, and the sequence numbers of the window do not pass 2^32
    ([st_wrap]; see [window_check_wraps] and [overrun_is_queued_and_asserts] of
    TcpMain.v for what happens otherwise).  In between anything may happen that
    leaves the queue and the expected position ([meanwhile]).  Then the
    application is given the octets of the stream in order, none twice,
    none missing in between and none that did not arrive. *)
Theorem tcp_session_in_order p w h out segs : session p w h out segs →
  out `prefix_of` Stream ∧ ∀ x, 0 <= x < Z.of_nat (length out) → covered segs x.
Proof.
  intros (E & cs & r & e & a & S & -> & Hcov)%session_ok. pose proof (wi_order _ _ _ _ _ (st_win _ _ _ _ _ _ _ _ S)).
  assert (HN : 0 <= N) by (unfold TcpHold.N; lia). split.
  - rewrite text_of_stream. apply prefix_take.
  - intros x Hx. rewrite (text_length Stream) in Hx by lia. apply Hcov; [lia|]. left. lia.
Qed.

(** The sequence number is the position, without reduction. *)
Lemma settled_nxt E p w h cs (r e a : Z) : settled E p w h cs r e a → rcv_nxt p = R0 + r.
Proof.
  intros S. pose proof (wi_order _ _ _ _ _ (st_win _ _ _ _ _ _ _ _ S)). pose proof (st_wrap _ _ _ _ _ _ _ _ S).
  rewrite (wi_nxt _ _ _ _ _ (st_win _ _ _ _ _ _ _ _ S)). unfold TcpSeq.seq_at. by rewrite u32_id by (unfold is_u32; lia).
Qed.

(** The number expected once the FIN has been received. *)
Definition past_fin : Z := R0 + N + 1.

(** C13. A segment of a session as in C6 (it keeps to the announced window,
    which does not pass sequence number 2^32) is always processed, no assertion
    of tcp_in.c fails.  When it starts at the position expected, or in front of
    it, what is new of it is delivered at once, and its FIN is received.  The
    end of the stream is reported ([TF_GOT_FIN]) by the segment with which
    the number expected passes the FIN, and by no other; all of the
    stream has been delivered then. *)
Theorem tcp_segment_delivered p0 w0 h0 out segs s c : session p0 w0 h0 out segs → meanwhile p0 w0 h0 s (c_p c) →
  segment_arrives s c (Z.of_nat (length out)) →
  ∃ s1 s2 o, tcp_receive_text send s = Some s1 ∧ end_input s1 = Some s2 ∧ gives s2 o ∧
    session (pcb s2) (lower_net s2) (packets s2) (out ++ o) (c :: segs) ∧
    (c_lo c <= Z.of_nat (length out) → c_hi c <= Z.of_nat (length (out ++ o)) ∧ (fin c = true → rcv_nxt (pcb s2) = past_fin)) ∧
    (has TF_GOT_FIN (recv_flags s2) = true ↔ rcv_nxt (pcb s) ≠ past_fin ∧ rcv_nxt (pcb s2) = past_fin) ∧
    (rcv_nxt (pcb s2) = past_fin → out ++ o = Stream).
Proof.
  intros Ss Hm Sa. destruct (session_ok _ _ _ _ _ Ss) as (E & cs & r & e & a & S & -> & _).
  pose proof (wi_order _ _ _ _ _ (st_win _ _ _ _ _ _ _ _ S)) as Ord. assert (HN : 0 <= N) by (unfold TcpHold.N; lia). pose proof Sa as Sa'.
  rewrite (text_length Stream) in Sa' by lia. rewrite Z.sub_0_r in Sa'. destruct (Hm _ _ _ _ _ S) as (E' & e' & a' & S').
  destruct (segment_ok E' s c cs r e' a' S' Sa') as (s1 & s2 & E2 & cs' & r' & a2 & Er & Ee & S2 & G & Hr & _ & Hf & _ & Hd).
  pose proof (st_pos _ _ _ _ _ _ _ _ S'). pose proof (st_pos _ _ _ _ _ _ _ _ S2).
  unfold past_fin. exists s1, s2, (text Stream (Z.min r N) (Z.min r' N)). rewrite (settled_nxt _ _ _ _ _ _ _ _ S'), (settled_nxt _ _ _ _ _ _ _ _ S2).
  split_and!; try done; [by eapply session_segment| | |].
  - rewrite (text_app Stream), !(text_length Stream), !Z.sub_0_r by lia. intros Hlo. pose proof (fin_end Stream c _ (sa_holds _ _ _ Sa)) as (F1 & F2 & F3).
    specialize (Hd ltac:(lia)). split; [lia|]. intros Hfc. apply F2 in Hfc. lia.
  - rewrite Hf. lia.
  - intros Hfc. assert (r' = N + 1) as -> by lia. rewrite (text_app Stream) by lia. rewrite text_of_stream. apply take_ge. unfold TcpHold.N in *. lia.
Qed.
End run.
