(* ===== verification/TcpMain.v ===== *)
(** * TCP: examples, and what the code gets wrong *)
From Stdlib Require Import Sorted.
From S2P Require Import Prelude LwipDef Chksum Memp Pbuf PbufRef PbufOwn PbufData IpReassJoin IpReassRun PbufMove.
From S2P Require Import TcpDef TcpSeq TcpHold TcpTrim TcpRecv TcpQueue TcpInSeq TcpOos TcpText TcpRun.
Local Open Scope Z_scope.

(** ** A tcp_out.c that sends nothing *)
Definition no_ack (c : tcp_pcb) (x : unit * heap bump) : option (tcp_pcb * unit * heap bump) := Some (c, x.1, x.2).

#[export] Instance silent_ack : QuietAck no_ack.
Proof.
  intros c w h E K. exists (pflags c), (rcv_ann_right_edge c), w, h. split; [unfold no_ack; by destruct c|]. split; [by left|].
  split; [done|]. split; [|done]. by intros x l n _ _ y _.
Qed.

(** A connection that expects [nxt] and has announced [wnd]. *)
Definition connection (nxt wnd : Z) : tcp_pcb :=
  MkTcp 0 0 0 0 0 0 None ESTABLISHED 0 0 0 0 0 0 0 0 nxt wnd wnd (u32 (nxt + wnd)) (-1) 1000 0 0 0 0 0 0 0 0 0 0 0 0 0 0 0 0 0 0 0 0
    [] [] [] None None None None None None 0 0 0 0.

(** The [i]th packet arrives: [n] octets at [sq]. *)
Definition arrive (i n sq fl : Z) (c : tcp_pcb) (h : heap bump) : rx bump unit :=
  MkRx c (MkSeg 0 (Some (4096 * (i + 1))) n 0 sq fl) sq 0 fl 0 (n + (if has 3 fl then 1 else 0)) 0 None 0 tt h.
Definition step (s : rx bump unit) : option (rx bump unit) := s ← tcp_receive_text no_ack s; end_input s.

Fixpoint chain_octets (fuel : nat) (p : option Z) (h : heap bump) : list Z :=
  match fuel, p with
  | S fuel, Some p => match pbufs h !! p with Some b => pbuf_data h p ++ chain_octets fuel (next b) h | None => [] end
  | _, _ => []
  end.
Definition octets (s : rx bump unit) : list Z := chain_octets (size (pbufs (packets s))) (recv_data s) (packets s).

(** Segments one after the other; each is a packet's number, its sequence
    number and its flags. *)
Fixpoint arrivals (l : list (Z * Z * Z * Z)) (c : tcp_pcb) (h : heap bump) (out : list Z) : option (tcp_pcb * heap bump * list Z) :=
  match l with
  | [] => Some (c, h, out)
  | (i, n, sq, fl) :: l => s ← step (arrive i n sq fl c h); arrivals l (pcb s) (packets s) (out ++ octets s)
  end.

Definition three : heap bump := heap_of [[1; 2; 3]; [4; 5; 6]; [7; 8; 9]] ∅.

(** ** What the code gets wrong *)

(** The expected number is 2^32 - 3000, the window 4000.  Segments 3 and 6 octets
    ahead arrive, then the one in between.  The check of the window compares sums
    reduced to 32 bits: the second segment is taken to be behind the window and
    given the length up to its end; 4000 octets are acknowledged when 9
    have arrived. *)
Theorem window_check_wraps :
  ('(c, _, out) ← arrivals [(1, 3, 4294964299, 16); (2, 3, 4294964302, 16); (0, 3, 4294964296, 16)] (connection 4294964296 4000) three [];
   Some (u32 (rcv_nxt c - 4294964296), rcv_wnd c, out)) = Some (4000, 0, [1; 2; 3; 4; 5; 6; 7; 8; 9]) ∧
  ('(c, _, out) ← arrivals [(1, 3, 103, 16); (2, 3, 106, 16); (0, 3, 100, 16)] (connection 100 4000) three [];
   Some (u32 (rcv_nxt c - 100), rcv_wnd c, out)) = Some (9, 3991, [1; 2; 3; 4; 5; 6; 7; 8; 9]).
Proof. split; vm_compute; reflexivity. Qed.

(** The window is 5.  A segment of 3 octets 3 ahead is queued, the first one, whole;
    when the octets in front of it arrive, [LWIP_ASSERT] of its length fails. *)
Theorem overrun_is_queued_and_asserts :
  ('(c, _, _) ← arrivals [(1, 3, 103, 16)] (connection 100 5) three []; Some (sg_len <$> ooseq c)) = Some [3] ∧
  arrivals [(1, 3, 103, 16); (0, 3, 100, 16)] (connection 100 5) three [] = None.
Proof. split; vm_compute; reflexivity. Qed.

(** Octets 3 to 8 are queued; a retransmission of 4 and 5 takes 6 to 8 out of the queue. *)
Theorem smaller_segment_trims_the_queue :
  ('(c, _, _) ← arrivals [(0, 6, 103, 16); (1, 3, 112, 16)] (connection 100 4000) (heap_of [[3; 4; 5; 6; 7; 8]; [12; 13; 14]; [4; 5]] ∅) [];
   Some ((λ g, (sg_seqno g, sg_len g)) <$> ooseq c)) = Some [(103, 6); (112, 3)] ∧
  ('(c, _, _) ← arrivals [(0, 6, 103, 16); (1, 3, 112, 16); (2, 2, 104, 16)] (connection 100 4000) (heap_of [[3; 4; 5; 6; 7; 8]; [12; 13; 14]; [4; 5]] ∅) [];
   Some ((λ g, (sg_seqno g, sg_len g)) <$> ooseq c)) = Some [(103, 1); (104, 2); (112, 3)].
Proof. split; vm_compute; reflexivity. Qed.

(** ** The properties at an example: a stream of five octets in two segments,
    the second one, with the FIN, first *)
Section held.
Context {A W : Type} `{HL : ArenaLaws A} `{HW : Owns W}.
Context (Stream : list Z) (R0 : Z).
Implicit Types (h : heap A) (E : Z → nat).

(** Nothing happened; the packet was there. *)
Lemma meanwhile_held (c0 : tcp_pcb) (w : W) h (s : rx A W) p b : pcb s = c0 → lower_net s = w → packets s = h → pbufs h !! p = Some b → ref b = 1 →
  links_to (pbufs h) p = 0%nat → owns w p = 0%nat → Some p ∉ (sg_p <$> ooseq c0) → meanwhile Stream R0 c0 w h s p.
Proof.
  intros <- <- <- Hb Hr Hl Hw Hq E cs r e a [[Q1 Q2 Q3] S2 S3 S4 S5]. exists (disown p E), e, a. constructor; try done. constructor; try done.
  assert (Hn : count_occ Z.eq_dec (c_p <$> cs) p = 0%nat).
  { apply count_occ_not_In. intros Hin%list_elem_of_In%list_elem_of_fmap. destruct Hin as (d & -> & Hd). apply Hq. rewrite S2, <- list_fmap_compose.
    exact (list_elem_of_fmap_2 (sg_p ∘ seg_of R0) cs d Hd). }
  destruct (ok_ref _ _ (qh_heap _ _ _ _ _ Q1) p b Hb) as [Hc _]. unfold also in Hc. rewrite owners_count, Hn, Hw, Hl, Hr in Hc.
  eapply qheap_ext; [|exact Q1]. intros x. symmetry. apply inc_disown. lia.
Qed.
End held.

Definition hello : list Z := [1; 2; 3; 4; 5].
Definition two : heap bump := heap_of [[1; 2; 3]; [4; 5]] ∅.
Definition front : chunk := MkChunk 0 4096 [4096] 0 3 0 16.
Definition rear : chunk := MkChunk 0 8192 [8192] 3 5 0 17.
Definition conn0 : tcp_pcb := connection 100 4000.
Definition first_in : rx bump unit := arrive 1 2 103 17 conn0 two.
Definition first_out : rx bump unit := Eval vm_compute in default first_in (step first_in).
Definition second_in : rx bump unit := arrive 0 3 100 16 (pcb first_out) (packets first_out).
Definition second_out : rx bump unit := Eval vm_compute in default second_in (step second_in).

Lemma arrival_inv s s2 : step s = Some s2 → ∃ s1, tcp_receive_text no_ack s = Some s1 ∧ end_input s1 = Some s2.
Proof. unfold step. destruct (tcp_receive_text no_ack s) as [s1|]; [|done]. intros E. by exists s1. Qed.

Lemma two_pbufs p b : pbufs two !! p = Some b → p = 4096 ∨ p = 8192.
Proof. unfold two, heap_of. simpl. rewrite !lookup_insert_Some, lookup_empty. naive_solver. Qed.

Lemma two_heap_ok : heap_ok two (also (owns tt) both).
Proof.
  constructor.
  - intros p b Hb. destruct (two_pbufs p b Hb) as [-> | ->]; vm_compute in Hb; injection Hb as <-; vm_compute; auto.
  - intros p b q Hb. destruct (two_pbufs p b Hb) as [-> | ->]; vm_compute in Hb; by injection Hb as <-.
  - intros p. unfold also, both. case_decide as D; [intros _|done]. destruct D as [-> | ->]; vm_compute; eauto.
  - intros p b Hb. destruct (two_pbufs p b Hb) as [-> | ->]; vm_compute in Hb; injection Hb as <-; reflexivity.
  - done.
Qed.

Lemma session0 : session no_ack hello 100 conn0 tt two [] [].
Proof.
  apply (session_start no_ack hello 100 conn0 tt two both 4000 4000). constructor.
  - constructor; [|constructor|by intros d ?%elem_of_nil]. constructor; [apply two_heap_ok|by intros c ?%elem_of_nil|apply NoDup_nil_2..|by intros c ?%elem_of_nil].
  - done.
  - constructor; try reflexivity; vm_compute; intuition congruence.
  - lia.
  - vm_compute. congruence.
Qed.

(** A packet of one pbuf in a heap. *)
Lemma one_pbuf_holds (Stream : list Z) (h : heap bump) c b : pbufs h !! c_p c = Some b → c_pbufs c = [c_p c] → next b = None → is_custom (flags b) = false →
  len b = c_hi c - c_lo c → tot_len b = c_hi c - c_lo c → pbuf_data h (c_p c) = text Stream (c_lo c) (c_hi c) →
  0 <= c_lo c ∧ c_lo c < c_hi c ∧ c_hi c <= N Stream ∧ c_hi c - c_lo c < 65535 → has TCP_SYN (c_flags c) = false → (fin c = true → c_hi c = N Stream) →
  holds Stream h c.
Proof.
  intros Hb El Hn Hf Hl Ht Hd Hr Hs Hfin. constructor; try done; rewrite ?El.
  - split; [done|]. exists b. split_and!; try done; try lia. rewrite Hn. simpl. split; [done|lia].
  - intros _ a ba ->%list_elem_of_singleton Hba. assert (ba = b) as -> by congruence. split; [done|]. by rewrite Hn.
  - unfold packet_data. simpl. by rewrite app_nil_r.
  - lia.
  - unfold c_end. case_match; lia.
Qed.

Lemma rear_arrives : segment_arrives hello 100 first_in rear 0.
Proof.
  constructor; try reflexivity; try (vm_compute; intuition congruence).
  - eapply one_pbuf_holds; try reflexivity; vm_compute; intuition congruence.
  - eexists. split; [vm_compute; reflexivity|done].
  - intros a b ->%list_elem_of_singleton Hb _. vm_compute in Hb. injection Hb as <-. vm_compute. congruence.
  - by intros g l m x ?%elem_of_nil.
Qed.

Lemma session1 : session no_ack hello 100 (pcb first_out) tt (packets first_out) [] [rear].
Proof.
  destruct (arrival_inv first_in first_out) as (s1 & E1 & E2); [vm_compute; reflexivity|].
  apply (session_segment no_ack hello 100 conn0 tt two [] [] first_in rear s1 first_out []); try done; [apply session0| |apply rear_arrives|by exists [], 0].
  by eapply meanwhile_held; try reflexivity; vm_compute; intros ?%elem_of_nil.
Qed.

Lemma front_held : meanwhile hello 100 (pcb first_out) tt (packets first_out) second_in (c_p front).
Proof. eapply meanwhile_held; try reflexivity. vm_compute. intros Hin%list_elem_of_singleton. congruence. Qed.

Lemma front_arrives : segment_arrives hello 100 second_in front 0.
Proof.
  constructor; try reflexivity; try (vm_compute; intuition congruence).
  - eapply one_pbuf_holds; try reflexivity; vm_compute; intuition congruence.
  - eexists. split; [vm_compute; reflexivity|done].
  - intros a b ->%list_elem_of_singleton Hb _. vm_compute in Hb. injection Hb as <-. vm_compute. congruence.
  - intros g l m x Hg P ->%list_elem_of_singleton Hx. vm_compute in Hg. apply list_elem_of_singleton in Hg as ->. cbn [sg_p] in P.
    assert (l = [8192]) as ->; [|apply list_elem_of_singleton in Hx; congruence].
    eapply chain_of_functional; [by eapply packet_chain|]. split; [done|]. eexists. split; [vm_compute; reflexivity|]. done.
Qed.

Lemma session2 : session no_ack hello 100 (pcb second_out) tt (packets second_out) hello [front; rear].
Proof.
  destruct (arrival_inv second_in second_out) as (s1 & E1 & E2); [vm_compute; reflexivity|].
  apply (session_segment no_ack hello 100 _ tt _ [] [rear] second_in front s1 second_out hello session1 front_held front_arrives E1 E2).
  exists [4096; 8192], 5. split; [|vm_compute; reflexivity]. repeat (split; [reflexivity|]; eexists; split; [vm_compute; reflexivity|]; split; [reflexivity|]; split; [vm_compute; intuition congruence|]). done.
Qed.

Lemma tcp_session_in_order_witness : session no_ack hello 100 (pcb second_out) tt (packets second_out) hello [front; rear] ∧
  hello `prefix_of` hello ∧ ∀ x, 0 <= x < 5 → covered [front; rear] x.
Proof. split; [exact session2|]. exact (tcp_session_in_order no_ack hello 100 _ tt _ hello [front; rear] session2). Defined.

Lemma tcp_segment_delivered_witness : ∃ s1 s2 o, tcp_receive_text no_ack second_in = Some s1 ∧ end_input s1 = Some s2 ∧ gives s2 o ∧ 3 <= Z.of_nat (length o)
  ∧ (rcv_nxt (pcb s2) = past_fin hello 100 → has TF_GOT_FIN (recv_flags s2) = true).
Proof.
  destruct (tcp_segment_delivered no_ack hello 100 (pcb first_out) tt (packets first_out) [] [rear] second_in front session1 front_held front_arrives)
    as (s1 & s2 & o & E1 & E2 & G & _ & Hd & Hf & _).
  exists s1, s2, o. split_and!; [exact E1|exact E2|exact G|by apply Hd|]. intros Hn. apply Hf. split; [by vm_compute|exact Hn].
Defined.
